(* ===== verification/_CoqProject ===== *)
-Q . S2P
Prelude.v
RustStr.v
Io.v
Json.v
Protocol.v
Operations.v
StateReducer.v
Bpf.v
BpfSem.v
SplitModel.v
StoreText.v
StoreProfiles.v
StoreOps.v
StoreTargets.v
StoreRecents.v
StoreInvariants.v
StoreNames.v
StoreDisk.v
StoreRequests.v
SplitRouting.v
SplitStore.v
SplitMarker.v
SplitEngine.v
SplitRequests.v
SplitMarks.v
SplitProc.v
SplitService.v
SplitKernel.v
Backend.v
Session.v
Server.v
Autoconnect.v
Notifications.v
IpcBridge.v
NativeErr.v
CatalogModel.v
Catalog.v
CatalogSelect.v
CatalogPages.v
Support.v
Launcher.v
WebAuth.v
AltRouting.v
GuestDns.v
NativeSettings.v
NetSettings.v
SecretStore.v
SecretExample.v
NetManager.v
Credentials.v
Api.v
Fido.v
NetLaws.v
NetExample.v
NetDevices.v
Lifecycle.v
KillSwitch.v
LocalAgent.v
SettingsFile.v
Runtime.v
NativeOps.v
NativeEvents.v
NativeConn.v
RuntimeLaws.v
NativeProtocol.v
NativeTeardown.v
NativeEnds.v
GuestHole.v
ConnExample.v
NativeRequests.v
NativeTransactions.v
Telemetry.v
NativeRestore.v
AccountApi.v
NativeAccount.v
NativeFido.v
NativeMisc.v
AccountLaws.v
AccountSafety.v
HandlerExample.v
