(* ===== verification/Prelude.v ===== *)
(** * Verification of the core of Proton VPN for Omarchy

    The program is two daemons and the protocol between the first and its clients.  [agent/] runs for a user: it
    signs in to Proton, selects servers, builds tunnels through NetworkManager, and publishes one snapshot of its
    state to the desktop over a socket.  [splitd/] runs as root: it marks the sockets of chosen programs with eBPF
    and routes marked traffic around the tunnel.  [protocol/] holds the types both sides of the socket share.

    Every definition is translated from the Rust sources.  Structures are records, enums are inductive types with
    the source's variants, maps are [gmap]s, strings are their UTF-8 bytes, integers are [Z] at the width the source
    gives them, floats are [spec_float].  A handler is a function; what it does to the outside is a state it
    threads ([Io.M], [NetManager.NM], [Runtime.RT], [SettingsFile.SD]), a trace, or a list of outcomes handed in.
    What is not code of the repository (NetworkManager, the kernel, serde_json, HTTP, cryptography, the keyring, the
    clock, random numbers) is a parameter: a class whose calls may answer anything, with laws only where the code
    relies on documented behaviour ([IpLaws], [NmLaws], [json_roundtrips]); each law has an instance that meets it.

    ** Files, in dependency order

    Foundations.  [Prelude]: results, options, lists, tactics.  [RustStr]: [str] and UTF-8 decoding.
    [Io]: [io::Error] and the monad of fallible effects.  [Json]: [serde_json::Value] and derived
    (de)serializers.

    The protocol and the agent's control plane.  [Protocol]: [protocol/src/lib.rs] and the error of
    [agent/src/backend.rs].  [Backend]: the rest of [backend.rs].  [Operations]: [operations.rs], the operation coordinator.  [StateReducer]:
    [state_reducer.rs].  [Session], [Server]: [session.rs], [server.rs] and [config.rs].  [Autoconnect]: [autoconnect.rs].
    [Notifications]: [notifications.rs].  [IpcBridge]: [ipc_bridge.rs].
    [StoreText], [StoreProfiles], [StoreOps], [StoreDisk]: [store.rs], with what they guarantee in [StoreTargets],
    [StoreRecents], [StoreInvariants], [StoreNames] and [StoreRequests].

    The privileged daemon.  [Bpf], [BpfSem]: the programs of [splitd/src/bpf.rs] and an interpreter for them.
    [SplitModel]: [model.rs].  [SplitRouting]: [routing.rs].  [SplitStore]: [store.rs].  [SplitMarker]: the kernel maps
    of [bpf.rs].  [SplitEngine]: [engine.rs], with [SplitRequests], [SplitMarks].  [SplitKernel]: attaching the programs and the
    self-test of [main.rs], with what reaches a socket.  [SplitProc]:
    [proc_events.rs], [procfs.rs].  [SplitService]: [main.rs].

    The native backend ([agent/src/native_backend/]).  [NativeErr]: its error.  [CatalogModel], [Catalog],
    [CatalogSelect], [CatalogPages]: the catalog of servers, selection and listings ([models.rs], [catalog.rs],
    [server_validation.rs]).  [AltRouting]: [alternative_routing.rs].  [GuestDns], [GuestHole]: [guest_hole/].
    [NativeSettings], [SettingsFile]: the settings and their file.  [NetSettings], [NetManager], [NetDevices],
    [KillSwitch], [Credentials]: [network.rs], with the documented behaviour of NetworkManager in [NetLaws].  [SecretStore]:
    [secret_store.rs].  [Api], [AccountApi]: [api.rs], [session_bootstrap.rs].  [LocalAgent]: [local_agent.rs].
    [Lifecycle]: [lifecycle.rs].  [Runtime]: [NativeRuntime] and the monad of its handlers; [NativeOps],
    [NativeEvents], [NativeConn], [NativeRequests], [NativeRestore], [NativeAccount]: the handlers of [mod.rs],
    [refresh.rs] and [logout.rs]; [RuntimeLaws]: Hoare triples and action protocols for them; [NativeProtocol],
    [NativeTeardown], [NativeEnds], [NativeTransactions], [AccountLaws], [AccountSafety]: what they guarantee.
    [Telemetry]: [telemetry.rs].  [Support]: [support.rs].  [Fido], [NativeFido]: [fido2.rs].  [Launcher]: [apps.rs] and
    [system_launch.rs].  [WebAuth]: [web_auth.rs].  [NativeMisc]: [dispatch] and the requests of [mod.rs] for the upgrade
    link, the traffic, problem reports and diagnostics.
    The files whose names end in [Example] hold a concrete system on which everything can be run; the witnesses
    of theorems with hypotheses are there or at the end of the theorem's file.

    ** How the parts interact

    A line on the socket becomes a request of [Session], admitted by [Operations] (through [Backend] for the native
    backend, through [StoreDisk] for the store) and answered by a handler of the native backend.  Handlers of the native
    backend publish events, which [StateReducer] folds into the snapshot that sessions, [Autoconnect], [Notifications]
    and [Lifecycle] watch.  The tunnel's settings come from [NativeSettings] and [NetSettings], the server from
    [Catalog], the session from [NativeAccount] and [SecretStore].  The native backend calls the privileged daemon
    ([NativeOps]), whose side is [SplitService].

    ** What the theorems show

    The kill switch: reconciling it ends, reaches the protection asked for, and never opens the network on the way
    ([KillSwitch]).  The connection: attempts follow an automaton of actions, tunnels are taken down in order, and
    what a request does under [network_write] ends ([NativeProtocol], [NativeTeardown], [NativeEnds]).  Settings and requests are transactions, in the
    agent ([NativeTransactions], [StoreRequests]) and in the daemon ([SplitRequests]); what is stored can be loaded
    again ([SplitStore], [SplitRequests]), in the agent's store below 1 MiB and for requests whose identifiers carry no
    white space around them ([StoreRequests]).  The coordinator refines a lock manager, and a cancellation wins over what the
    attempt returns unless a later stage is reported ([Operations]).  Connecting by itself respects what the user did ([Autoconnect]), after a suspension as
    well ([Lifecycle]).  The
    eBPF programs are accepted and do what their policy says ([BpfSem]), and the kernel's maps follow the engine
    ([SplitMarker], [SplitMarks], [SplitEngine]), so
    that sockets get the mark the configured text asks for ([SplitKernel]).  Clients get one answer per request and cannot reach other users'
    policies ([Session], [SplitService]).  Server selection is sound and complete ([CatalogSelect]).  The account's session
    follows the keyring, and signing out takes down the tunnel it knows of and erases before it revokes ([AccountSafety],
    [SecretStore]).  Parsers of foreign
    bytes return on every input ([AltRouting], [GuestDns]).  Recovery leaves no tunnel ([GuestHole]).  Every recorded event of the
    statistics is delivered, kept or pushed out by newer ones ([Telemetry]); notices follow the changes of the state, each
    at most once ([Notifications]); the bridge forwards exactly the complete lines within the limit ([IpcBridge]).  The files of OpenVPN credentials
    stay private, and are removed but after two failures ([Credentials]).  A security key
    gets at most the PIN asked for, encrypted ([Fido]); the isolated browser sends the session's token to Proton only and
    is killed when an attempt ends, which only a browser that stays silent while the page is set up can prevent ([WebAuth]); Connect and Go starts at most one program, and only what it checked ([Launcher]); every
    method offered to clients has a handler, but one ([NativeMisc]).

    ** Bounds and fuel

    Recursion on fuel is used where the source loops on a condition of the outside.  The waits for a tunnel are
    bounded by the clock: 361 polls fill the 45 seconds of an attempt, 121 the 15 seconds of a recovery tunnel, and
    [connection_requests_end] and [recovery_leaves_no_tunnel] prove that they suffice.  The removal loop of the kill switch
    needs at most two turns more than there are active connections.  A request to the API has six exchanges at most.  The DNS parsers and the eBPF
    interpreter have the length of their input as fuel.  [split_whitespace] and the strippers of white space have the
    length of the string.

    ** Concurrency

    A function held under a lock in the source is one step here.  Whatever other tasks may do at an [await] is an
    arbitrary function ([meanwhile]) or an arbitrary history, restricted only by the locks held.  Requests that run at
    once ([try_join]) run one after the other, the first failure chosen freely.

    ** Not modelled

    Cryptography and encodings (SRP, SHA-512, base64, X.509, key conversion), HTTP and TLS but for the verdict on a
    certificate ([Api]), D-Bus transport, the USB transport of security keys, the browser process, file locks, eBPF system
    calls, [main] of [agent] and the start of [splitd] in [main]: input and output through foreign
    libraries; nor the tasks of [mod.rs] that only hand work over ([spawn], [run], the maintenance timers).  [encrypted_openvpn_private_key] is
    a parameter.  Panics, failures of [spawn_blocking] and allocation are not modelled;
    futures that a caller drops stop at their next wait.  The first refresh inside [connection_connect] is the parameter
    [prepare] there and is [connect_preparation] of [NativeAccount].  [vendor/], [bridge/] and [packaging/] are not part of
    the program's own logic. *)
From Stdlib Require Export Lia ZArith.
From stdpp Require Export base numbers strings gmap list sorting.

(** ** Notation scope *)
Declare Scope rust_scope.
Delimit Scope rust_scope with rust.

(** ** [Result<T, E>] *)
Inductive result (A E : Type) : Type :=
  | Ok (a : A)
  | Err (e : E).
Arguments Ok {A E} a.
Arguments Err {A E} e.

Definition res_bind {A B E : Type} (r : result A E) (k : A -> result B E) : result B E :=
  match r with
  | Ok a => k a
  | Err e => Err e
  end.

(** [let? x := e in k] is Rust's [let x = e?; k]. *)
Notation "'let?' x ':=' r 'in' k" := (res_bind r (fun x => k))
  (at level 10, x name, r at level 100, k at level 200) : rust_scope.
Notation "'let?' ' p ':=' r 'in' k" := (res_bind r (fun x => let p := x in k))
  (at level 10, p pattern, r at level 100, k at level 200) : rust_scope.

Definition res_map {A B E : Type} (f : A -> B) (r : result A E) : result B E :=
  res_bind r (fun a => Ok (f a)).

Definition res_map_err {A E F : Type} (f : E -> F) (r : result A E) : result A F :=
  match r with Ok a => Ok a | Err e => Err (f e) end.

(** [Option::ok_or]. *)
Definition ok_or {A E : Type} (o : option A) (e : E) : result A E :=
  match o with Some a => Ok a | None => Err e end.

(** [Result::ok]. *)
Definition res_ok {A E : Type} (r : result A E) : option A :=
  match r with Ok a => Some a | Err _ => None end.

Definition is_ok {A E : Type} (r : result A E) : bool :=
  match r with Ok _ => true | Err _ => false end.

(** [iter().map(f).collect::<Result<Vec<_>, _>>()]: the first error wins. *)
Fixpoint res_collect {A B E : Type} (f : A -> result B E) (l : list A) : result (list B) E :=
  match l with
  | [] => Ok []
  | x :: xs =>
      res_bind (f x) (fun y => res_bind (res_collect f xs) (fun ys => Ok (y :: ys)))
  end.

(** ** Machine integers: [try_from] and wrap-around *)
Definition u64_max : Z := 2 ^ 64 - 1.
Definition in_u (bits z : Z) : bool := (0 <=? z)%Z && (z <? 2 ^ bits)%Z.
Definition u_try_from (bits z : Z) : option Z := if in_u bits z then Some z else None.
Definition i_try_from (bits z : Z) : option Z :=
  if ((- 2 ^ (bits - 1) <=? z) && (z <? 2 ^ (bits - 1)))%Z then Some z else None.
(** [wrapping_add] on an unsigned integer of [bits] bits. *)
Definition wrapping_add (bits a b : Z) : Z := ((a + b) mod 2 ^ bits)%Z.
(** [saturating_add] on an unsigned integer of [bits] bits. *)
Definition saturating_add (bits a b : Z) : Z := Z.min (a + b) (2 ^ bits - 1).

(** ** Slices and vectors *)

(** [iter_mut().find(p)] followed by a write through the reference. *)
Fixpoint update_first {A : Type} (p : A -> bool) (f : A -> A) (l : list A) : list A :=
  match l with
  | [] => []
  | x :: xs => if p x then f x :: xs else x :: update_first p f xs
  end.

(** [iter().find(p)]. *)
Fixpoint find_first {A : Type} (p : A -> bool) (l : list A) : option A :=
  match l with
  | [] => None
  | x :: xs => if p x then Some x else find_first p xs
  end.

(** [position(p)] followed by [remove(index)]. *)
Fixpoint remove_first {A : Type} (p : A -> bool) (l : list A) : option (A * list A) :=
  match l with
  | [] => None
  | x :: xs =>
      if p x then Some (x, xs)
      else match remove_first p xs with
           | Some (y, ys) => Some (y, x :: ys)
           | None => None
           end
  end.

(** [Vec::retain(p)] and [filter(p)] with a boolean predicate. *)
Fixpoint retain {A : Type} (p : A -> bool) (l : list A) : list A :=
  match l with
  | [] => []
  | x :: xs => if p x then x :: retain p xs else retain p xs
  end.

(** [iter().filter_map(f)]. *)
Fixpoint filter_map {A B : Type} (f : A -> option B) (l : list A) : list B :=
  match l with
  | [] => []
  | x :: xs => match f x with Some y => y :: filter_map f xs | None => filter_map f xs end
  end.

(** [Option::unwrap_or]. *)
Definition unwrap_or {A : Type} (o : option A) (d : A) : A := default d o.

(** [o ?> f] is [o.and_then(f)]. *)
Definition and_then {A B : Type} (o : option A) (f : A -> option B) : option B :=
  match o with Some a => f a | None => None end.
Notation "o ?> f" := (and_then o f) (at level 51, left associativity) : rust_scope.

(** [Option::filter]. *)
Definition opt_filter {A : Type} (p : A -> bool) (o : option A) : option A :=
  match o with Some a => if p a then Some a else None | None => None end.

(** [Option::or_else]. *)
Definition or_else {A : Type} (o o' : option A) : option A :=
  match o with Some a => Some a | None => o' end.

(** ** Tactics *)

(** Case analysis on the scrutinee of a [match] or [if] of the goal. *)
Ltac split_match :=
  match goal with
  | |- context [match ?x with _ => _ end] => destruct x eqn:?
  end.

(** Case analysis on the scrutinee of a [match] or [if] of hypothesis [H]. *)
Ltac split_match_in H :=
  match type of H with
  | context [match ?x with _ => _ end] => destruct x eqn:?
  end.

(** Turn boolean facts into propositions. *)
Ltac bool_prop :=
  repeat match goal with
  | H : andb _ _ = true |- _ => apply andb_prop in H; destruct H
  | H : orb _ _ = false |- _ => apply orb_false_elim in H; destruct H
  | H : negb _ = true |- _ => apply negb_true_iff in H
  | H : negb _ = false |- _ => apply negb_false_iff in H
  | H : bool_decide _ = true |- _ => apply bool_decide_eq_true in H
  | H : bool_decide _ = false |- _ => apply bool_decide_eq_false in H
  | H : String.eqb _ _ = true |- _ => apply String.eqb_eq in H
  | H : String.eqb _ _ = false |- _ => apply String.eqb_neq in H
  | H : (_ =? _)%Z = true |- _ => apply Z.eqb_eq in H
  | H : (_ =? _)%Z = false |- _ => apply Z.eqb_neq in H
  | H : (_ <=? _)%Z = true |- _ => apply Z.leb_le in H
  | H : (_ <=? _)%Z = false |- _ => apply Z.leb_gt in H
  | H : (_ <? _)%Z = true |- _ => apply Z.ltb_lt in H
  | H : (_ <? _)%Z = false |- _ => apply Z.ltb_ge in H
  | H : (_ =? _)%nat = true |- _ => apply Nat.eqb_eq in H
  | H : (_ =? _)%nat = false |- _ => apply Nat.eqb_neq in H
  | H : (_ <=? _)%nat = true |- _ => apply Nat.leb_le in H
  | H : (_ <=? _)%nat = false |- _ => apply Nat.leb_gt in H
  | H : (_ <? _)%nat = true |- _ => apply Nat.ltb_lt in H
  | H : (_ <? _)%nat = false |- _ => apply Nat.ltb_ge in H
  end.

(** ** Hint database of the shared lemmas *)
Create HintDb rust discriminated.

Section Lists.
Context {A : Type}.
Implicit Types (p : A -> bool) (f : A -> A) (l : list A).

Lemma retain_elem p l x : x ∈ retain p l <-> x ∈ l /\ p x = true.
Proof.
  induction l as [|y l IH]; simpl; [rewrite elem_of_nil; tauto|].
  destruct (p y) eqn:Hy; rewrite ?elem_of_cons, ?IH; split.
  - intros [->|[? ?]]; auto.
  - intros [[->|?] ?]; auto.
  - intros [? ?]; auto.
  - intros [[->|?] ?]; [congruence|auto].
Qed.

Lemma retain_length p l : (length (retain p l) <= length l)%nat.
Proof. induction l as [|x l IH]; simpl; [lia|]. destruct (p x); simpl; lia. Qed.

Lemma retain_id p l : Forall (fun x => p x = true) l -> retain p l = l.
Proof. induction 1 as [|x l Hx _ IH]; simpl; [done|]. rewrite Hx. by f_equal. Qed.

Lemma retain_retain p l : retain p (retain p l) = retain p l.
Proof. apply retain_id, Forall_forall. by intros x [_ ?]%retain_elem. Qed.
Lemma retain_app p l1 l2 : retain p (l1 ++ l2) = retain p l1 ++ retain p l2.
Proof. induction l1 as [|x l1 IH]; simpl; [done|]. rewrite IH. by destruct (p x). Qed.

Lemma retain_sublist p l : retain p l `sublist_of` l.
Proof. induction l as [|x l IH]; simpl; [done|]. destruct (p x); by constructor. Qed.

Lemma Forall_retain (P : A -> Prop) p l : Forall P l -> Forall P (retain p l).
Proof. rewrite !Forall_forall. intros H x [? ?]%retain_elem. auto. Qed.

Lemma find_first_Some p l x : find_first p l = Some x -> x ∈ l /\ p x = true.
Proof.
  induction l as [|y l IH]; simpl; [done|].
  destruct (p y) eqn:Hy; [intros [= ->]; split; [left|done]|].
  intros [? ?]%IH. split; [by right|done].
Qed.

Lemma find_first_None p l : find_first p l = None <-> Forall (fun x => p x = false) l.
Proof.
  induction l as [|y l IH]; simpl; [by split; [constructor|]|].
  rewrite Forall_cons, <- IH. destruct (p y); intuition congruence.
Qed.

Lemma find_first_is_Some p l : is_Some (find_first p l) <-> exists x, x ∈ l /\ p x = true.
Proof.
  split.
  - intros [x Hx%find_first_Some]. by exists x.
  - intros (x & Hx & Hp). destruct (find_first p l) eqn:E; [by eexists|].
    apply find_first_None in E. rewrite Forall_forall in E. apply E in Hx. congruence.
Qed.

Lemma update_first_length p f l : length (update_first p f l) = length l.
Proof. induction l as [|x l IH]; simpl; [done|]. destruct (p x); simpl; congruence. Qed.

(** A relation that [f] respects on the matching element holds pointwise between the old and the
    new vector. *)
Lemma update_first_Forall2 (R : A -> A -> Prop) p f l :
  (forall x, R x x) -> (forall x, x ∈ l -> p x = true -> R x (f x)) ->
  Forall2 R l (update_first p f l).
Proof.
  intros Hrefl. induction l as [|y l IH]; intros Hf; simpl; [constructor|].
  destruct (p y) eqn:Hy.
  - constructor; [apply Hf; [left|done]|]. clear -Hrefl. induction l; constructor; auto.
  - constructor; [done|]. apply IH. intros x ? ?. apply Hf; [by right|done].
Qed.

Lemma update_first_map {B : Type} (g : A -> B) p f l :
  (forall x, g (f x) = g x) -> map g (update_first p f l) = map g l.
Proof. intros Hg. induction l as [|x l IH]; simpl; [done|]. destruct (p x); simpl; congruence. Qed.

Lemma Forall_update_first (P : A -> Prop) p f l :
  (forall x, P x -> P (f x)) -> Forall P l -> Forall P (update_first p f l).
Proof. intros Hf. induction 1 as [|x l Hx ? IH]; simpl; [done|]. destruct (p x); constructor; auto. Qed.

Lemma update_first_None p f l :
  find_first p l = None -> update_first p f l = l.
Proof. induction l as [|y l IH]; simpl; [done|]. destruct (p y); [done|]. intros. by f_equal; auto. Qed.

Lemma remove_first_Some p l x l' :
  remove_first p l = Some (x, l') ->
  p x = true /\ exists l1 l2, l = l1 ++ x :: l2 /\ l' = l1 ++ l2.
Proof.
  revert l'. induction l as [|y l IH]; intros l'; simpl; [done|].
  destruct (p y) eqn:Hy; [intros [= -> ->]; split; [done|]; by exists [], l'|].
  destruct (remove_first p l) as [[z ys]|] eqn:E; [|done].
  intros [= -> <-]. destruct (IH ys eq_refl) as (? & l1 & l2 & -> & ->).
  split; [done|]. by exists (y :: l1), l2.
Qed.

Lemma remove_first_None p l :
  remove_first p l = None <-> Forall (fun x => p x = false) l.
Proof.
  induction l as [|y l IH]; simpl; [by split; [constructor|]|].
  rewrite Forall_cons, <- IH.
  destruct (p y), (remove_first p l) as [[??]|]; intuition congruence.
Qed.
End Lists.

Lemma res_collect_Ok {A B E : Type} (f : A -> result B E) l l' :
  res_collect f l = Ok l' <-> Forall2 (fun x y => f x = Ok y) l l'.
Proof.
  revert l'. induction l as [|x l IH]; intros l'; simpl.
  - split; [intros [= <-]; constructor|by inversion 1].
  - destruct (f x) as [y|e] eqn:Hf; simpl.
    + destruct (res_collect f l) as [ys|e] eqn:Hc; simpl.
      * split; [intros [= <-]; constructor; [done|by apply IH]|].
        inversion 1 as [|? y' ? ys' Hy Hys]; subst. apply IH in Hys. congruence.
      * split; [done|]. inversion 1 as [|? y' ? ys' Hy Hys]; subst. apply IH in Hys. done.
    + split; [done|]. inversion 1; congruence.
Qed.

Lemma u_try_from_Some bits z z' :
  u_try_from bits z = Some z' -> z' = z /\ (0 <= z < 2 ^ bits)%Z.
Proof. unfold u_try_from, in_u. destruct (_ && _) eqn:E; [|done]. intros [= <-]. bool_prop. lia. Qed.

Lemma Ok_inj {A E : Type} (a b : A) : Ok (E := E) a = Ok b -> a = b.
Proof. by intros [= ->]. Qed.

(** Peel one fallible step off a successful run. *)
Ltac peel H :=
  lazymatch type of H with
  | res_bind ?r _ = Ok _ => let E := fresh "E" in destruct r eqn:E; [cbn [res_bind] in H|discriminate H]
  | (if ?b then Err _ else _) = Ok _ => let E := fresh "E" in destruct b eqn:E; [discriminate H|]
  end.
Ltac peel_all H := repeat peel H; apply Ok_inj in H.

(** ** Reachability *)

Lemma rtc_invariant {S : Type} (R : relation S) (P : S -> Prop) x y :
  (forall a b, R a b -> P a -> P b) -> P x -> rtc R x y -> P y.
Proof. intros Hstep Hx H. induction H; eauto. Qed.

(** An invariant indexed by the number of steps taken. *)
Lemma nsteps_invariant {S : Type} (R : relation S) (P : nat -> S -> Prop) n x y :
  (forall k a b, (k < n)%nat -> R a b -> P k a -> P (Datatypes.S k) b) -> P O x -> nsteps R n x y -> P n y.
Proof.
  intros Hstep Hx. revert y. induction n as [|n IH]; intros y Hn.
  - by inversion Hn; subst.
  - apply nsteps_inv_r in Hn as (z & Hz & Hzy). eapply Hstep; [|done|]; [lia|].
    apply IH; [|done]. intros k a b Hk. apply Hstep. lia.
Qed.

#[export] Hint Resolve retain_length Forall_retain : rust.
