(* ===== verification/RustStr.v ===== *)
(** Rust's [str] operations on UTF-8 byte strings.

    A Rust [String] is modelled as the Standard Library's [string], the sequence of its UTF-8 bytes:
    [str_len] is [str::len] (bytes), [chars_count] is [chars().count()].  Operations that look at
    characters (white space, control characters) recognise the UTF-8 encodings of the characters
    Rust's [char] predicates accept.  ASCII operations act byte by byte, as in Rust. *)
From Stdlib Require Export Ascii.
From stdpp Require Export pretty.
From S2P Require Export Prelude.
Open Scope string_scope.
Open Scope Z_scope.
Open Scope list_scope.

Definition byte (a : ascii) : Z := Z.of_N (N_of_ascii a).
Definition str_len (s : string) : Z := Z.of_nat (String.length s).
Definition is_empty (s : string) : bool := match s with "" => true | _ => false end.

Fixpoint str_forall (p : ascii -> bool) (s : string) : bool :=
  match s with "" => true | String a s' => p a && str_forall p s' end.
Fixpoint str_exists (p : ascii -> bool) (s : string) : bool :=
  match s with "" => false | String a s' => p a || str_exists p s' end.
Fixpoint str_map (f : ascii -> ascii) (s : string) : string :=
  match s with "" => "" | String a s' => String (f a) (str_map f s') end.
Fixpoint str_rev_app (s acc : string) : string :=
  match s with "" => acc | String a s' => str_rev_app s' (String a acc) end.
Definition str_rev (s : string) : string := str_rev_app s "".

(** [chars().count()]: the bytes that are not UTF-8 continuation bytes. *)
Fixpoint chars_count (s : string) : Z :=
  match s with
  | "" => 0
  | String a s' => (if Z.land (byte a) 0xC0 =? 0x80 then 0 else 1) + chars_count s'
  end.

(** ** White space: the code points of [char::is_whitespace] in UTF-8 *)

Definition is_ascii_ws (b : Z) : bool := ((9 <=? b) && (b <=? 13)) || (b =? 32).
Definition ws2 (b1 b2 : Z) : bool := (b1 =? 0xC2) && ((b2 =? 0x85) || (b2 =? 0xA0)).
Definition ws3 (b1 b2 b3 : Z) : bool :=
  ((b1 =? 0xE1) && (b2 =? 0x9A) && (b3 =? 0x80))
  || ((b1 =? 0xE2) && (b2 =? 0x80)
      && (((0x80 <=? b3) && (b3 <=? 0x8A)) || (b3 =? 0xA8) || (b3 =? 0xA9) || (b3 =? 0xAF)))
  || ((b1 =? 0xE2) && (b2 =? 0x81) && (b3 =? 0x9F))
  || ((b1 =? 0xE3) && (b2 =? 0x80) && (b3 =? 0x80)).

(** The rest of the string after one leading white-space character. *)
Definition strip_ws (s : string) : option string :=
  match s with
  | String a r =>
      if is_ascii_ws (byte a) then Some r else
      match r with
      | String b r' =>
          if ws2 (byte a) (byte b) then Some r' else
          match r' with
          | String c r'' => if ws3 (byte a) (byte b) (byte c) then Some r'' else None
          | "" => None
          end
      | "" => None
      end
  | "" => None
  end.

(** The same on the reversed string: one trailing white-space character. *)
Definition strip_ws_rev (s : string) : option string :=
  match s with
  | String a r =>
      if is_ascii_ws (byte a) then Some r else
      match r with
      | String b r' =>
          if ws2 (byte b) (byte a) then Some r' else
          match r' with
          | String c r'' => if ws3 (byte c) (byte b) (byte a) then Some r'' else None
          | "" => None
          end
      | "" => None
      end
  | "" => None
  end.

Fixpoint strip_loop (strip : string -> option string) (fuel : nat) (s : string) : string :=
  match fuel with
  | O => s
  | S n => match strip s with Some r => strip_loop strip n r | None => s end
  end.

(** Every step removes at least one byte, so the length is enough fuel. *)
Definition trim_start (s : string) : string := strip_loop strip_ws (String.length s) s.
Definition trim_end (s : string) : string :=
  str_rev (strip_loop strip_ws_rev (String.length s) (str_rev s)).
(** [str::trim]. *)
Definition trim (s : string) : string := trim_end (trim_start s).

(** [chars().any(char::is_control)]: U+0000-001F, U+007F-009F. *)
Fixpoint has_control (s : string) : bool :=
  match s with
  | "" => false
  | String a r =>
      (byte a <? 0x20) || (byte a =? 0x7F)
      || match r with
         | String b _ => (byte a =? 0xC2) && (0x80 <=? byte b) && (byte b <=? 0x9F)
         | "" => false
         end
      || has_control r
  end.

(** ** ASCII classes and case *)
Definition is_ascii_upper (a : ascii) : bool := (65 <=? byte a) && (byte a <=? 90).
Definition is_ascii_lower (a : ascii) : bool := (97 <=? byte a) && (byte a <=? 122).
Definition is_ascii_alphabetic (a : ascii) : bool := is_ascii_upper a || is_ascii_lower a.
Definition is_ascii_digit (a : ascii) : bool := (48 <=? byte a) && (byte a <=? 57).
Definition is_ascii_alphanumeric (a : ascii) : bool := is_ascii_alphabetic a || is_ascii_digit a.
Definition ascii_lower (a : ascii) : ascii :=
  if is_ascii_upper a then ascii_of_N (Z.to_N (byte a + 32)) else a.
Definition ascii_upper (a : ascii) : ascii :=
  if is_ascii_lower a then ascii_of_N (Z.to_N (byte a - 32)) else a.
Definition to_ascii_lowercase : string -> string := str_map ascii_lower.
Definition to_ascii_uppercase : string -> string := str_map ascii_upper.
Definition eq_ignore_ascii_case (s t : string) : bool :=
  String.eqb (to_ascii_lowercase s) (to_ascii_lowercase t).

(** ** Searching and splitting *)
Definition contains_char (c : ascii) (s : string) : bool := str_exists (Ascii.eqb c) s.
Definition str_contains (needle s : string) : bool :=
  match String.index 0 needle s with Some _ => true | None => false end.

(** [strip_prefix]. *)
Fixpoint strip_prefix (p s : string) : option string :=
  match p, s with
  | "", _ => Some s
  | String a p', String b s' => if Ascii.eqb a b then strip_prefix p' s' else None
  | String _ _, "" => None
  end.
Definition starts_with (p s : string) : bool :=
  match strip_prefix p s with Some _ => true | None => false end.

(** [replace(c, d)] for two one-byte characters. *)
Definition replace_char (c d : ascii) : string -> string :=
  str_map (fun a => if Ascii.eqb a c then d else a).

(** [split(c)]: always at least one part. *)
Fixpoint split_char (c : ascii) (s : string) : list string :=
  match s with
  | "" => [""]
  | String a s' =>
      if Ascii.eqb a c then "" :: split_char c s'
      else match split_char c s' with
           | p :: ps => String a p :: ps
           | [] => [String a ""]
           end
  end.

(** [lines()]: split at line feeds, a trailing carriage return removed, no part after a final line
    feed. *)
Definition strip_cr (s : string) : string :=
  match str_rev s with
  | String "013"%char r => str_rev r
  | _ => s
  end.
Fixpoint lines_of (parts : list string) : list string :=
  match parts with
  | [] => []
  | [x] => if is_empty x then [] else [x]
  | x :: xs => strip_cr x :: lines_of xs
  end.
Definition lines (s : string) : list string := lines_of (split_char "010"%char s).

(** [join(sep)]. *)
Fixpoint join (sep : string) (l : list string) : string :=
  match l with
  | [] => ""
  | [x] => x
  | x :: xs => x +:+ sep +:+ join sep xs
  end.

(** ** Paths *)

(** [Path::join] of a relative name. *)
Definition path_join (directory name : string) : string :=
  if is_empty directory then name
  else match strip_prefix "/" (str_rev directory) with Some _ => directory +:+ name | None => directory +:+ "/" +:+ name end.

(** ** Words *)

(** The longest prefix without white space, and the rest. *)
Fixpoint take_word (s : string) : string * string :=
  match s with
  | "" => ("", "")
  | String a r =>
      match strip_ws s with
      | Some _ => ("", s)
      | None => let '(w, rest) := take_word r in (String a w, rest)
      end
  end.
Fixpoint words (fuel : nat) (s : string) : list string :=
  match fuel with
  | O => []
  | S fuel =>
      let s := trim_start s in
      if is_empty s then [] else let '(w, rest) := take_word s in w :: words fuel rest
  end.
(** [split_whitespace()]: every word takes at least one byte. *)
Definition split_whitespace (s : string) : list string := words (String.length s) s.

(** The suffix after the last occurrence of [sep], as [rsplit_once(sep)]. *)
Fixpoint rsplit_once (sep s : string) : option string :=
  match
    match s with
    | "" => None
    | String _ r => rsplit_once sep r
    end
  with
  | Some suffix => Some suffix
  | None => strip_prefix sep s
  end.

(** ** Numbers *)
Definition digit_value (base : Z) (a : ascii) : option Z :=
  let b := byte a in
  let d := if is_ascii_digit a then b - 48
           else if is_ascii_lower a then b - 87
           else if is_ascii_upper a then b - 55
           else 99 in
  if d <? base then Some d else None.

Fixpoint digits_value (base acc : Z) (s : string) : option Z :=
  match s with
  | "" => Some acc
  | String a s' =>
      match digit_value base a with
      | Some d => digits_value base (acc * base + d) s'
      | None => None
      end
  end.

(** [str::parse::<uN>()]: an optional [+], then at least one decimal digit, no overflow. *)
Definition parse_uint (bits : Z) (s : string) : option Z :=
  let digits := match s with String "+"%char r => r | _ => s end in
  if is_empty digits then None
  else match digits_value 10 0 digits with Some v => u_try_from bits v | None => None end.

(** [to_string()] of an unsigned integer. *)
Definition dec (z : Z) : string := pretty (Z.to_N z).

Definition hex_digit (d : Z) : ascii :=
  ascii_of_N (Z.to_N (if d <? 10 then 48 + d else 87 + d)).
(** [format!("{:0wx}")] for a value below [16 ^ width]. *)
Fixpoint hex_pad (width : nat) (n : Z) : string :=
  match width with
  | O => ""
  | S w => String (hex_digit ((n / 16 ^ Z.of_nat w) mod 16)) (hex_pad w n)
  end.
(** The number of hexadecimal digits of [n]. *)
Definition hex_len (n : Z) : nat := Z.to_nat (Z.log2 n / 4 + 1).
(** [format!("{:0wx}")]: at least [width] digits. *)
Definition hex_fmt (width : nat) (n : Z) : string := hex_pad (Nat.max width (hex_len n)) n.

(** ** Lemmas *)

Lemma byte_range a : 0 <= byte a < 256.
Proof. unfold byte. pose proof (N_ascii_bounded a). lia. Qed.

(** Case analysis of an integer in a small literal range. *)
Lemma hex_digit_value d : 0 <= d < 16 -> digit_value 16 (hex_digit d) = Some d.
Proof.
  intros Hd.
  assert (Hall : forallb (fun d => match digit_value 16 (hex_digit d) with Some v => v =? d | None => false end) (map Z.of_nat (seq 0 16)) = true)
    by (vm_compute; reflexivity).
  rewrite forallb_forall in Hall. specialize (Hall d). destruct (digit_value 16 (hex_digit d)) as [v|].
  - f_equal. apply Z.eqb_eq, Hall, in_map_iff. exists (Z.to_nat d). split; [lia|]. apply in_seq. lia.
  - discriminate Hall. apply in_map_iff. exists (Z.to_nat d). split; [lia|]. apply in_seq. lia.
Qed.

Lemma digits_value_hex_pad w acc n :
  0 <= n -> digits_value 16 acc (hex_pad w n) = Some (acc * 16 ^ Z.of_nat w + n mod 16 ^ Z.of_nat w).
Proof.
  intros Hn. revert acc. induction w as [|w IH]; intros acc.
  - simpl. rewrite Z.mod_1_r. f_equal. lia.
  - cbn [hex_pad digits_value]. rewrite hex_digit_value by (apply Z.mod_pos_bound; lia).
    rewrite IH. f_equal.
    replace (Z.of_nat (S w)) with (Z.of_nat w + 1) by lia.
    rewrite Z.pow_add_r, Z.pow_1_r by lia.
    rewrite (Z.rem_mul_r n (16 ^ Z.of_nat w) 16) by lia. lia.
Qed.

Lemma hex_len_bound n : 0 <= n -> n < 16 ^ Z.of_nat (hex_len n).
Proof.
  intros Hn. unfold hex_len. pose proof (Z.log2_nonneg n).
  rewrite Z2Nat.id by (pose proof (Z.div_pos (Z.log2 n) 4); lia).
  change 16 with (2 ^ 4). rewrite <- Z.pow_mul_r by (try lia; pose proof (Z.div_pos (Z.log2 n) 4); lia).
  destruct (decide (n = 0)) as [->|]; [done|].
  pose proof (Z.log2_spec n ltac:(lia)) as [_ Hlt].
  eapply Z.lt_le_trans; [exact Hlt|]. apply Z.pow_le_mono_r; [lia|].
  pose proof (Z.div_mod (Z.log2 n) 4 ltac:(lia)). pose proof (Z.mod_pos_bound (Z.log2 n) 4). lia.
Qed.

(** Reading back what [{:0wx}] wrote gives the number, whatever the width. *)
Lemma hex_fmt_roundtrip w n : 0 <= n -> digits_value 16 0 (hex_fmt w n) = Some n.
Proof.
  intros Hn. unfold hex_fmt. rewrite digits_value_hex_pad by done.
  rewrite Z.mod_small; [by rewrite Z.mul_0_l|]. split; [done|].
  eapply Z.lt_le_trans; [by apply hex_len_bound|]. apply Z.pow_le_mono_r; lia.
Qed.

Lemma hex_fmt_inj w n m : 0 <= n -> 0 <= m -> hex_fmt w n = hex_fmt w m -> n = m.
Proof.
  intros Hn Hm H. apply (hex_fmt_roundtrip w) in Hn, Hm. congruence.
Qed.

Lemma digit_pretty x : (x < 10)%N -> digit_value 10 (pretty_N_char x) = Some (Z.of_N x).
Proof.
  intros H. assert (Hx : x = 0%N \/ x = 1%N \/ x = 2%N \/ x = 3%N \/ x = 4%N \/ x = 5%N \/ x = 6%N
    \/ x = 7%N \/ x = 8%N \/ x = 9%N) by lia.
  by destruct_or! Hx; subst.
Qed.

Lemma digits_pretty_go x s : digits_value 10 0 (pretty_N_go x s) = digits_value 10 (Z.of_N x) s.
Proof.
  revert s. induction (N.lt_wf_0 x) as [x _ IH]; intros s.
  destruct (decide (x = 0)%N) as [->|Hx]; [done|].
  rewrite pretty_N_go_step by lia. rewrite IH by (apply N.div_lt; lia). cbn [digits_value].
  rewrite digit_pretty by (apply N.mod_lt; lia). f_equal.
  pose proof (N.div_mod x 10 ltac:(lia)). lia.
Qed.

(** Reading back what [to_string] wrote. *)
Lemma dec_roundtrip z : 0 <= z -> digits_value 10 0 (dec z) = Some z.
Proof.
  intros Hz. unfold dec, pretty, pretty_N. case_decide as H.
  - assert (z = 0) as -> by lia. done.
  - rewrite digits_pretty_go. simpl. by rewrite Z2N.id.
Qed.

Lemma dec_inj x y : 0 <= x -> 0 <= y -> dec x = dec y -> x = y.
Proof. intros Hx Hy H. apply dec_roundtrip in Hx, Hy. congruence. Qed.

Lemma append_inj_l (p s t : string) : p +:+ s = p +:+ t -> s = t.
Proof. induction p as [|a p IH]; simpl; [done|]. intros [= H]. auto. Qed.

(** *** [trim] is idempotent *)
Lemma str_app_assoc (a b c : string) : a +:+ (b +:+ c) = (a +:+ b) +:+ c.
Proof. induction a as [|x a IH]; [done|]. exact (f_equal (String x) IH). Qed.

Lemma str_app_nil (s : string) : s +:+ "" = s.
Proof. induction s as [|x s IH]; [done|]. exact (f_equal (String x) IH). Qed.

Lemma str_rev_app_spec s acc : str_rev_app s acc = str_rev s +:+ acc.
Proof.
  unfold str_rev. revert acc. induction s as [|a s IH]; intros acc; simpl; [done|].
  rewrite (IH (String a acc)), (IH (String a "")). by rewrite <- str_app_assoc.
Qed.

Lemma str_rev_involutive s : str_rev (str_rev s) = s.
Proof.
  assert (H : forall acc, str_rev_app (str_rev_app s acc) "" = str_rev_app acc s); [|apply (H "")].
  induction s as [|a s IH]; intros acc; simpl; [done|]. by rewrite IH.
Qed.

Lemma str_rev_append s t : str_rev (s +:+ t) = str_rev t +:+ str_rev s.
Proof.
  rewrite <- (str_rev_app_spec t). unfold str_rev. generalize "". induction s as [|a s IH]; intros acc; [done|].
  exact (IH (String a acc)).
Qed.

Definition shortens (strip : string -> option string) : Prop :=
  forall s r, strip s = Some r -> exists w, s = w +:+ r /\ (String.length r < String.length s)%nat.

Lemma strip_ws_shortens : shortens strip_ws.
Proof.
  intros s r. destruct s as [|a s]; simpl; [done|].
  destruct (is_ascii_ws (byte a)); [intros [= ->]; exists (String a ""); split; [done|simpl; lia]|].
  destruct s as [|b s]; simpl; [done|].
  destruct (ws2 _ _); [intros [= ->]; exists (String a (String b "")); split; [done|simpl; lia]|].
  destruct s as [|c s]; simpl; [done|].
  destruct (ws3 _ _ _); [intros [= ->]; exists (String a (String b (String c ""))); split; [done|simpl; lia]|done].
Qed.

Lemma strip_ws_rev_shortens : shortens strip_ws_rev.
Proof.
  intros s r. destruct s as [|a s]; simpl; [done|].
  destruct (is_ascii_ws (byte a)); [intros [= ->]; exists (String a ""); split; [done|simpl; lia]|].
  destruct s as [|b s]; simpl; [done|].
  destruct (ws2 _ _); [intros [= ->]; exists (String a (String b "")); split; [done|simpl; lia]|].
  destruct s as [|c s]; simpl; [done|].
  destruct (ws3 _ _ _); [intros [= ->]; exists (String a (String b (String c ""))); split; [done|simpl; lia]|done].
Qed.

(** The fuel of the loop is enough: nothing is left to strip. *)
Lemma strip_loop_done strip n s :
  shortens strip -> (String.length s <= n)%nat -> strip (strip_loop strip n s) = None.
Proof.
  intros Hs. revert s. induction n as [|n IH]; intros s Hn; simpl.
  - destruct (strip s) as [r|] eqn:E; [|done]. apply Hs in E as (? & _ & ?). lia.
  - destruct (strip s) as [r|] eqn:E; [|done]. apply IH. apply Hs in E as (? & _ & ?). lia.
Qed.

Lemma strip_loop_id strip n s : strip s = None -> strip_loop strip n s = s.
Proof. intros H. destruct n; simpl; [done|]. by rewrite H. Qed.

Lemma strip_loop_suffix strip n s : shortens strip -> exists w, s = w +:+ strip_loop strip n s.
Proof.
  intros Hs. revert s. induction n as [|n IH]; intros s; simpl; [by exists ""|].
  destruct (strip s) as [r|] eqn:E; [|by exists ""]. apply Hs in E as (w & -> & _).
  destruct (IH r) as [w' H]. exists (w +:+ w'). by rewrite <- str_app_assoc, <- H.
Qed.

Lemma strip_ws_prefix p q r : strip_ws p = Some r -> strip_ws (p +:+ q) = Some (r +:+ q).
Proof.
  destruct p as [|a p]; simpl; [done|]. destruct (is_ascii_ws (byte a)); [by intros [= ->]|].
  destruct p as [|b p]; simpl; [done|]. destruct (ws2 _ _); [by intros [= ->]|].
  destruct p as [|c p]; simpl; [done|]. destruct (ws3 _ _ _); [by intros [= ->]|done].
Qed.

Lemma trim_idem s : trim (trim s) = trim s.
Proof.
  unfold trim at 2 3. set (t := trim_start s).
  assert (Ht : strip_ws t = None) by (apply strip_loop_done; [apply strip_ws_shortens|done]).
  unfold trim_end. set (u := strip_loop strip_ws_rev (String.length t) (str_rev t)).
  assert (Hlen : String.length (str_rev t) = String.length t).
  { unfold str_rev. enough (forall acc, String.length (str_rev_app t acc) = (String.length t + String.length acc)%nat)
      as -> by (simpl; lia). clear. induction t as [|a t IH]; intros acc; simpl; [done|]. rewrite IH. simpl. lia. }
  assert (Hu : strip_ws_rev u = None) by (apply strip_loop_done; [apply strip_ws_rev_shortens|lia]).
  destruct (strip_loop_suffix strip_ws_rev (String.length t) (str_rev t) strip_ws_rev_shortens) as [w Hw].
  fold u in Hw. assert (Hp : t = str_rev u +:+ str_rev w) by (rewrite <- str_rev_append, <- Hw; by rewrite str_rev_involutive).
  assert (Hsu : strip_ws (str_rev u) = None).
  { destruct (strip_ws (str_rev u)) as [r|] eqn:E; [|done]. apply (strip_ws_prefix _ (str_rev w)) in E.
    rewrite <- Hp in E. congruence. }
  unfold trim, trim_start, trim_end. rewrite (strip_loop_id strip_ws) by done.
  by rewrite str_rev_involutive, (strip_loop_id strip_ws_rev).
Qed.

(** *** Printable ASCII *)
Definition graphic (a : ascii) : bool := (33 <=? byte a) && (byte a <=? 126).

Lemma str_forall_app p s t : str_forall p (s +:+ t) = str_forall p s && str_forall p t.
Proof. induction s as [|a s IH]; [done|]. change (p a && str_forall p (s +:+ t) = p a && str_forall p s && str_forall p t). by rewrite IH, andb_assoc. Qed.

Lemma str_forall_rev p s : str_forall p (str_rev s) = str_forall p s.
Proof.
  unfold str_rev. enough (H : forall acc, str_forall p (str_rev_app s acc) = str_forall p s && str_forall p acc)
    by (rewrite H; apply andb_true_r).
  induction s as [|a s IH]; intros acc; simpl; [done|]. rewrite IH. simpl. destruct (p a), (str_forall p s); done.
Qed.

Lemma str_app_length (s t : string) : String.length (s +:+ t) = (String.length s + String.length t)%nat.
Proof. induction s as [|a s IH]; [done|]. exact (f_equal S IH). Qed.


Lemma graphic_head a s : graphic a = true -> strip_ws (String a s) = None.
Proof.
  unfold graphic, strip_ws. intros H. bool_prop. unfold is_ascii_ws, ws2, ws3.
  assert (((9 <=? byte a) && (byte a <=? 13) || (byte a =? 32)) = false) as -> by lia.
  destruct s as [|b s]; [done|]. assert (byte a =? 0xC2 = false) as -> by lia. simpl.
  destruct s as [|c s]; [done|]. assert (byte a =? 0xE1 = false) as -> by lia.
  assert (byte a =? 0xE2 = false) as -> by lia. by assert (byte a =? 0xE3 = false) as -> by lia.
Qed.

Lemma digits_graphic acc s v : digits_value 10 acc s = Some v -> str_forall graphic s = true.
Proof.
  revert acc. induction s as [|a s IH]; intros acc; [done|]. simpl.
  destruct (digit_value 10 a) as [d|] eqn:E; [|discriminate]. intros H. rewrite (IH _ H), andb_true_r.
  unfold digit_value, is_ascii_digit, is_ascii_lower, is_ascii_upper in E. unfold graphic.
  destruct (Z.leb_spec 33 (byte a)), (Z.leb_spec (byte a) 126); try done; exfalso;
    repeat case_match; bool_prop; try discriminate; lia.
Qed.

Lemma dec_nonempty z : 0 <= z -> is_empty (dec z) = false.
Proof.
  intros Hz. destruct (dec z) as [|a s] eqn:E; [|done]. pose proof (dec_roundtrip z Hz) as H. rewrite E in H.
  injection H as <-. discriminate E.
Qed.

Lemma dec_graphic z : 0 <= z -> str_forall graphic (dec z) = true.
Proof. intros Hz. exact (digits_graphic 0 _ _ (dec_roundtrip z Hz)). Qed.

(** Printing and parsing an unsigned integer. *)
Lemma parse_uint_dec bits z : 0 <= z -> parse_uint bits (dec z) = u_try_from bits z.
Proof.
  intros Hz. pose proof (dec_roundtrip z Hz) as H. pose proof (dec_nonempty z Hz) as Hn. unfold parse_uint.
  replace (match dec z with String "+"%char r => r | _ => dec z end) with (dec z); [by rewrite Hn, H|].
  destruct (dec z) as [|a s]; [done|]. simpl in H. destruct (digit_value 10 a) eqn:E; [|discriminate].
  by destruct (Ascii.eqb_spec a "+"%char) as [->|]; [|destruct a as [[] [] [] [] [] [] [] []]].
Qed.

(** *** Words *)
Lemma take_word_graphic w r :
  str_forall graphic w = true -> strip_ws r <> None \/ r = "" -> take_word (w +:+ r) = (w, r).
Proof.
  intros Hw Hr. induction w as [|a w IH].
  - change ("" +:+ r) with r. destruct r as [|b r]; [done|]. cbn [take_word].
    destruct (strip_ws (String b r)) eqn:E; [done|]. by destruct Hr.
  - simpl in Hw. apply andb_true_iff in Hw as [Ha Hw].
    change (String a w +:+ r) with (String a (w +:+ r)). cbn [take_word]. rewrite graphic_head by done. by rewrite IH.
Qed.

Lemma words_graphic n w r :
  str_forall graphic w = true -> is_empty w = false -> strip_ws r <> None \/ r = "" ->
  words (S n) (w +:+ r) = w :: words n r.
Proof.
  intros Hw Hn Hr. cbn [words]. unfold trim_start. rewrite strip_loop_id.
  - destruct w as [|a w]; [done|]. change (is_empty (String a w +:+ r)) with false. by rewrite take_word_graphic.
  - destruct w as [|a w]; [done|]. simpl in Hw. apply andb_true_iff in Hw as [Ha _]. by apply graphic_head.
Qed.

Lemma words_space n s : words n (String " " s) = words n s.
Proof.
  destruct n as [|n]; [done|]. cbn [words]. unfold trim_start. by cbn [String.length strip_loop strip_ws].
Qed.

(** Only the last occurrence of the separator counts. *)
Lemma rsplit_once_None a sep s : contains_char a s = false -> rsplit_once (String a sep) s = None.
Proof.
  unfold contains_char. induction s as [|b s IH]; [done|]. simpl. intros [Hb Hs]%orb_false_iff.
  by rewrite IH, Hb.
Qed.

Lemma strip_prefix_app p s : strip_prefix p (p +:+ s) = Some s.
Proof.
  induction p as [|a p IH]; [done|]. change (String a p +:+ s) with (String a (p +:+ s)). simpl.
  by rewrite Ascii.eqb_refl.
Qed.

Lemma rsplit_once_last a sep p s :
  contains_char a (sep +:+ s) = false -> rsplit_once (String a sep) (p +:+ String a (sep +:+ s)) = Some s.
Proof.
  intros Hs. induction p as [|b p IH].
  - change ("" +:+ ?x) with x. cbn [rsplit_once]. rewrite rsplit_once_None by done. simpl.
    rewrite Ascii.eqb_refl. apply strip_prefix_app.
  - change (String b p +:+ ?x) with (String b (p +:+ x)). cbn [rsplit_once]. by rewrite IH.
Qed.

Example trim_ex1 : trim "  a b	 " = "a b". Proof. reflexivity. Qed.
Example hex_ex1 : hex_fmt 4 0xbeef1 = "beef1". Proof. reflexivity. Qed.
Example hex_ex2 : hex_fmt 4 10 = "000a". Proof. reflexivity. Qed.
Example split_ex : split_char "-"%char "a--b" = ["a"; ""; "b"]. Proof. reflexivity. Qed.
Example lines_ex : lines (String.concat "010" ["a"]) = ["a"]. Proof. reflexivity. Qed.
Example dec_ex : dec 12345 = "12345". Proof. reflexivity. Qed.

(** ** UTF-8

    UTF-8 decoding of bytes received from outside: [String::from_utf8] and
    [String::from_utf8_lossy], both on the chunks of the encoding. *)

(** *** Chunks

    The number of bytes of the leading chunk and whether they are a character: an ill-formed
    sequence is replaced as far as it could have begun one. *)
Definition is_cont (b : Z) : bool := (0x80 <=? b) && (b <=? 0xBF).
Definition second_ok (b0 b1 : Z) : bool :=
  if b0 =? 0xE0 then (0xA0 <=? b1) && (b1 <=? 0xBF)
  else if b0 =? 0xED then (0x80 <=? b1) && (b1 <=? 0x9F)
  else if b0 =? 0xF0 then (0x90 <=? b1) && (b1 <=? 0xBF)
  else if b0 =? 0xF4 then (0x80 <=? b1) && (b1 <=? 0x8F)
  else is_cont b1.
Definition utf8_width (b0 : Z) : nat :=
  if b0 <? 0x80 then 1 else if b0 <? 0xC2 then 0 else if b0 <? 0xE0 then 2
  else if b0 <? 0xF0 then 3 else if b0 <? 0xF5 then 4 else 0.
Definition utf8_chunk (b0 : Z) (rest : list Z) : nat * bool :=
  let b i := unwrap_or (rest !! i) 0 in
  match utf8_width b0 with
  | O => (1%nat, false)
  | 1%nat => (1%nat, true)
  | 2%nat => if is_cont (b 0%nat) then (2%nat, true) else (1%nat, false)
  | 3%nat =>
      if negb (second_ok b0 (b 0%nat)) then (1%nat, false)
      else if negb (is_cont (b 1%nat)) then (2%nat, false) else (3%nat, true)
  | _ =>
      if negb (second_ok b0 (b 0%nat)) then (1%nat, false)
      else if negb (is_cont (b 1%nat)) then (2%nat, false)
      else if negb (is_cont (b 2%nat)) then (3%nat, false) else (4%nat, true)
  end.

Definition replacement : list Z := [0xEF; 0xBF; 0xBD].
Fixpoint lossy (fuel : nat) (bytes : list Z) : list Z :=
  match fuel, bytes with
  | S fuel, b0 :: rest =>
      let '(n, ok) := utf8_chunk b0 rest in
      (if ok : bool then take n bytes else replacement) ++ lossy fuel (drop n bytes)
  | _, _ => []
  end.

Definition string_of_bytes (bytes : list Z) : string :=
  foldr (fun b s => String (ascii_of_N (Z.to_N b)) s) "" bytes.
Definition from_utf8_lossy (bytes : list Z) : string := string_of_bytes (lossy (length bytes) bytes).

(** [String::from_utf8]: [None] when some chunk is not a character. *)
Fixpoint utf8_valid (fuel : nat) (bytes : list Z) : bool :=
  match fuel, bytes with
  | S fuel, b0 :: rest => let '(n, ok) := utf8_chunk b0 rest in ok && utf8_valid fuel (drop n bytes)
  | _, _ => true
  end.
Definition from_utf8 (bytes : list Z) : option string :=
  if utf8_valid (length bytes) bytes then Some (string_of_bytes bytes) else None.

(** The bytes of a string, as [as_bytes]. *)
Definition as_bytes (s : string) : list Z := map byte (String.list_ascii_of_string s).

(** ** Lemmas *)
Lemma string_of_as_bytes s : string_of_bytes (as_bytes s) = s.
Proof.
  induction s as [|a s IH]; [done|]. unfold as_bytes in *. simpl. f_equal; [|exact IH].
  unfold byte. by rewrite N2Z.id, ascii_N_embedding.
Qed.

Lemma as_bytes_length s : length (as_bytes s) = String.length s.
Proof. unfold as_bytes. rewrite length_map. induction s as [|a s IH]; simpl; congruence. Qed.

Lemma utf8_valid_ascii n bytes : Forall (fun b => b < 0x80) bytes -> utf8_valid n bytes = true.
Proof.
  revert bytes. induction n as [|n IH]; intros [|b rest] H; try done. inversion H; subst.
  cbn [utf8_valid]. unfold utf8_chunk, utf8_width. replace (b <? 0x80) with true by lia.
  simpl. rewrite drop_0. by apply IH.
Qed.

(** ASCII text is read back as it was written. *)
Lemma from_utf8_ascii s : str_forall (fun a => byte a <? 0x80) s = true -> from_utf8 (as_bytes s) = Some s.
Proof.
  intros H. unfold from_utf8. rewrite utf8_valid_ascii, string_of_as_bytes; [done|].
  unfold as_bytes. induction s as [|a s IH]; simpl in *; [constructor|].
  apply andb_true_iff in H as [Ha Hs]. constructor; [lia|auto].
Qed.
