(* ===== verification/Io.v ===== *)
(** Fallible code that acts on the outside world: [io::Error] and a state-and-error monad.

    [M S A] is the type of an operation on a world [S] that returns [io::Result<A>]; what it did to
    the world before failing stays done. *)
From S2P Require Export RustStr.
Open Scope string_scope.
Open Scope list_scope.

Inductive ErrorKind : Type :=
  | NotFound
  | PermissionDenied
  | AlreadyExists
  | InvalidInput
  | InvalidData
  | Unsupported
  | OtherKind.

#[export] Instance ErrorKind_eq_dec : EqDecision ErrorKind.
Proof. solve_decision. Defined.

Record io_error : Type := mkIoError {
  io_kind : ErrorKind;
  io_text : string }.

Definition io_other (text : string) : io_error := mkIoError OtherKind text.

Definition M (S A : Type) : Type := S -> result A io_error * S.

Section Monad.
Context {S : Type}.

Definition ret {A : Type} (a : A) : M S A := fun s => (Ok a, s).
Definition throw {A : Type} (e : io_error) : M S A := fun s => (Err e, s).
Definition bind {A B : Type} (m : M S A) (k : A -> M S B) : M S B := fun s =>
  match m s with
  | (Ok a, s') => k a s'
  | (Err e, s') => (Err e, s')
  end.
(** Run [m] and go on with its result, whatever it is. *)
Definition attempt {A B : Type} (m : M S A) (k : result A io_error -> M S B) : M S B := fun s =>
  match m s with (r, s') => k r s' end.
(** [let _ = m;] *)
Definition ignore {A : Type} (m : M S A) : M S unit := attempt m (fun _ => ret tt).
Definition of_result {A : Type} (r : result A io_error) : M S A := fun s => (r, s).

(** [for x in l { f(x)?; }] *)
Fixpoint for_each {A : Type} (f : A -> M S unit) (l : list A) : M S unit :=
  match l with
  | [] => ret tt
  | x :: l => bind (f x) (fun _ => for_each f l)
  end.

(** An invariant of the world kept by an operation, whatever it returns. *)
Definition keeps {A : Type} (P : S -> Prop) (m : M S A) : Prop := forall s, P s -> P (m s).2.

Lemma keeps_ret {A : Type} P (a : A) : keeps P (ret a).
Proof. by intros s. Qed.
Lemma keeps_throw {A : Type} P e : keeps P (throw (A := A) e).
Proof. by intros s. Qed.
Lemma keeps_of_result {A : Type} P (r : result A io_error) : keeps P (of_result r).
Proof. by intros s. Qed.
Lemma keeps_bind {A B : Type} P (m : M S A) (k : A -> M S B) :
  keeps P m -> (forall a, keeps P (k a)) -> keeps P (bind m k).
Proof.
  intros Hm Hk s Hs. unfold bind. specialize (Hm s Hs). destruct (m s) as [[a|e] s']; [|done].
  by apply Hk.
Qed.
Lemma keeps_attempt {A B : Type} P (m : M S A) (k : result A io_error -> M S B) :
  keeps P m -> (forall r, keeps P (k r)) -> keeps P (attempt m k).
Proof.
  intros Hm Hk s Hs. unfold attempt. specialize (Hm s Hs). destruct (m s) as [r s']. by apply Hk.
Qed.
Lemma keeps_ignore {A : Type} P (m : M S A) : keeps P m -> keeps P (ignore m).
Proof. intros Hm. apply keeps_attempt; [done|]. intros ?. apply keeps_ret. Qed.
Lemma keeps_for_each {A : Type} P (f : A -> M S unit) l :
  (forall x, x ∈ l -> keeps P (f x)) -> keeps P (for_each f l).
Proof.
  induction l as [|x l IH]; intros Hf; [apply keeps_ret|].
  apply keeps_bind; [apply Hf; left|]. intros _. apply IH. intros y Hy. apply Hf. by right.
Qed.
Lemma keeps_weaken {A : Type} (P Q : S -> Prop) (m : M S A) :
  (forall s, P s <-> Q s) -> keeps P m -> keeps Q m.
Proof. intros H Hm s Hs. apply H, Hm, H, Hs. Qed.

(** The same for runs that succeed. *)
Definition keeps_ok {A : Type} (P : S -> Prop) (m : M S A) : Prop :=
  forall s a s', P s -> m s = (Ok a, s') -> P s'.

Lemma keeps_keeps_ok {A : Type} P (m : M S A) : keeps P m -> keeps_ok P m.
Proof. intros Hm s a s' Hs E. specialize (Hm s Hs). by rewrite E in Hm. Qed.

Lemma bind_Ok {A B : Type} (m : M S A) (k : A -> M S B) s b s' :
  bind m k s = (Ok b, s') -> exists a s1, m s = (Ok a, s1) /\ k a s1 = (Ok b, s').
Proof. unfold bind. destruct (m s) as [[a|e] s1]; [eauto|discriminate]. Qed.

Lemma bind_assoc {A B C : Type} (m : M S A) (k : A -> M S B) (h : B -> M S C) s :
  bind (bind m k) h s = bind m (fun a => bind (k a) h) s.
Proof. unfold bind. by destruct (m s) as [[a|e] s']. Qed.

Lemma bind_Err {A B : Type} (m : M S A) (k : A -> M S B) s e s' :
  bind m k s = (Err e, s') ->
  m s = (Err e, s') \/ exists a s1, m s = (Ok a, s1) /\ k a s1 = (Err e, s').
Proof. unfold bind. destruct (m s) as [[a|e'] s1]; [eauto|intros [= -> ->]; eauto]. Qed.

Lemma keeps_ok_bind {A B : Type} P (m : M S A) (k : A -> M S B) :
  keeps_ok P m -> (forall a, keeps_ok P (k a)) -> keeps_ok P (bind m k).
Proof. intros Hm Hk s b s' Hs (a & s1 & H1 & H2)%bind_Ok. eapply Hk; [|done]. by eapply Hm. Qed.

Lemma keeps_ok_for_each {A : Type} P (f : A -> M S unit) l :
  (forall x, x ∈ l -> keeps_ok P (f x)) -> keeps_ok P (for_each f l).
Proof.
  induction l as [|x l IH]; intros Hf; [by intros s [] s' Hs [= <-]|].
  apply keeps_ok_bind; [apply Hf; left|]. intros _. apply IH. intros y Hy. apply Hf. by right.
Qed.

(** What the turn of one element establishes and the others keep holds at the end. *)
Lemma for_each_establishes {A : Type} (Q : S -> Prop) (f : A -> M S unit) l x s s' :
  x ∈ l -> (forall s s', f x s = (Ok tt, s') -> Q s') -> (forall y, y ∈ l -> keeps_ok Q (f y)) ->
  for_each f l s = (Ok tt, s') -> Q s'.
Proof.
  intros Hx Hf Hk. revert s. induction l as [|y l IH]; intros s; [by apply elem_of_nil in Hx|].
  intros ([] & s1 & H1 & H2)%bind_Ok. apply elem_of_cons in Hx as [->|Hx].
  - eapply keeps_ok_for_each; [|by eapply Hf|exact H2]. intros z Hz. apply Hk. by right.
  - eapply IH; [done| |done]. intros z Hz. apply Hk. by right.
Qed.

Lemma for_each_Err {A : Type} (f : A -> M S unit) l s e s' :
  for_each f l s = (Err e, s') -> exists x s1, x ∈ l /\ f x s1 = (Err e, s').
Proof.
  revert s. induction l as [|x l IH]; intros s; [discriminate|].
  intros [H|([] & s1 & H1 & H2)]%bind_Err.
  - exists x, s. split; [left|done].
  - destruct (IH s1 H2) as (y & s2 & Hy & H). exists y, s2. split; [by right|done].
Qed.

Lemma for_each_total {A : Type} (f : A -> M S unit) l s :
  (forall x s, x ∈ l -> exists s', f x s = (Ok tt, s')) -> exists s', for_each f l s = (Ok tt, s').
Proof.
  intros Hf. revert s. induction l as [|x l IH]; intros s; [by exists s|].
  destruct (Hf x s) as [s1 H1]; [left|]. destruct (IH ltac:(intros y t Hy; apply Hf; by right) s1) as [s2 H2].
  exists s2. simpl. unfold bind. by rewrite H1.
Qed.
End Monad.

Notation "'let!' x ':=' m 'in' k" := (bind m (fun x => k))
  (at level 10, x name, m at level 100, k at level 200) : rust_scope.
Notation "m ';;!' k" := (bind m (fun _ => k)) (at level 100, k at level 200, right associativity) : rust_scope.

#[export] Hint Resolve keeps_ret keeps_throw keeps_of_result keeps_ignore keeps_for_each : rust.
