(* ===== verification/Json.v ===== *)
(** [serde_json::Value]: the data of the JSON messages and the accessors the source uses.

    [Value] is the tagged union documented by serde_json; its [Map] is the ordered map of the
    default feature set (the lock file selects no [preserve_order]), so a [gmap] from keys to values.
    A number is an unsigned 64-bit integer, a negative signed 64-bit integer or a double; doubles are
    the Standard Library's [spec_float]. *)
From Stdlib Require Import SpecFloat.
From S2P Require Export RustStr.
Open Scope Z_scope.
Open Scope list_scope.
Open Scope rust_scope.

Inductive number : Type :=
  | PosInt (n : Z)
  | NegInt (n : Z)
  | Float (f : spec_float).

#[warnings="-register-all"]
Inductive json : Type :=
  | Null
  | Bool (b : bool)
  | Number (n : number)
  | Str (s : string)
  | Arr (l : list json)
  | Obj (m : gmap string json).

#[export] Instance spec_float_eq_dec : EqDecision spec_float.
Proof. solve_decision. Defined.
#[export] Instance number_eq_dec : EqDecision number.
Proof. solve_decision. Defined.

#[export] Instance json_eq_dec : EqDecision json.
Proof.
  refine (fix go (v1 v2 : json) : Decision (v1 = v2) :=
    let _ : EqDecision json := @go in
    match v1, v2 with
    | Null, Null => left eq_refl
    | Bool b1, Bool b2 => cast_if (decide (b1 = b2))
    | Number n1, Number n2 => cast_if (decide (n1 = n2))
    | Str s1, Str s2 => cast_if (decide (s1 = s2))
    | Arr l1, Arr l2 => cast_if (decide (l1 = l2))
    | Obj m1, Obj m2 => cast_if (decide (m1 = m2))
    | _, _ => right _
    end); clear r go; abstract congruence.
Defined.

(** ** Accessors *)
Definition as_str (v : json) : option string := match v with Str s => Some s | _ => None end.
Definition as_bool (v : json) : option bool := match v with Bool b => Some b | _ => None end.
Definition as_array (v : json) : option (list json) := match v with Arr l => Some l | _ => None end.
Definition as_object (v : json) : option (gmap string json) :=
  match v with Obj m => Some m | _ => None end.
Definition as_u64 (v : json) : option Z :=
  match v with Number (PosInt n) => Some n | _ => None end.
Definition as_i64 (v : json) : option Z :=
  match v with
  | Number (PosInt n) => i_try_from 64 n
  | Number (NegInt n) => Some n
  | _ => None
  end.
(** Conversion of an integer to the nearest double. *)
Definition f64_of_Z (z : Z) : spec_float := binary_normalize 53 1024 z 0 false.
Definition as_f64 (v : json) : option spec_float :=
  match v with
  | Number (PosInt n) | Number (NegInt n) => Some (f64_of_Z n)
  | Number (Float f) => Some f
  | _ => None
  end.

(** [Value::get] with a string key: [None] unless the value is an object. *)
Definition jget (key : string) (v : json) : option json :=
  match v with Obj m => m !! key | _ => None end.

(** [json!({...})]: later keys replace earlier ones. *)
Definition jobj (fields : list (string * json)) : json :=
  Obj (foldl (fun m kv => <[kv.1 := kv.2]> m) ∅ fields).
Definition jnum (n : Z) : json := Number (PosInt n).
(** Serialization of an [Option]. *)
Definition jopt {A : Type} (f : A -> json) (o : option A) : json :=
  match o with Some a => f a | None => Null end.

(** Field access on a [serde_json::Map]. *)
Definition get_str (m : gmap string json) (key : string) : option string := m !! key ?> as_str.
Definition get_bool (m : gmap string json) (key : string) : option bool := m !! key ?> as_bool.
Definition get_u64 (m : gmap string json) (key : string) : option Z := m !! key ?> as_u64.

Example json_eq_ex : bool_decide (jobj [("a", jnum 1); ("b", Arr [Null])]
                                  = jobj [("b", Arr [Null]); ("a", jnum 1)]) = true.
Proof. vm_compute. reflexivity. Qed.

(** ** Serialization

    Serialization shared by the two stores: serde_json's text form as a parameter, and the pieces of the
    [derive]d implementations that turn values into JSON and back.

    A derived structure also accepts an array of its fields in order, which no program here writes;
    that form is not modelled. *)

(** [serde_json::to_vec_pretty] and [from_slice] on JSON values. *)
Class JsonText : Type := mkJsonText {
  json_print : json -> string;
  json_parse : string -> option json;
  (** The text of the error for a document that is not a value of the named type. *)
  json_refusal : string -> string -> string }.

(** Documented behaviour: what is printed, followed by a line feed, parses back. *)
Definition json_roundtrips `{JsonText} (j : json) : Prop :=
  json_parse (json_print j +:+ String "010" "") = Some j.

Definition strs_to_json (l : list string) : json := Arr (map Str l).

(** [collect::<Option<_>>()]. *)
Fixpoint opt_collect {A B : Type} (f : A -> option B) (l : list A) : option (list B) :=
  match l with
  | [] => Some []
  | x :: l =>
      match f x, opt_collect f l with
      | Some y, Some ys => Some (y :: ys)
      | _, _ => None
      end
  end.

Definition strs_of_json (j : json) : option (list string) := as_array j ?> opt_collect as_str.

(** [deny_unknown_fields]. *)
Definition fields_among (allowed : list string) (m : gmap string json) : bool :=
  forallb (fun p => bool_decide (p.1 ∈ allowed)) (map_to_list m).

Definition struct_of (allowed : list string) (j : json) : option (gmap string json) :=
  opt_filter (fields_among allowed) (as_object j).

(** [#[serde(default)]] on a field: a missing field takes its default. *)
Definition field_or {A : Type} (d : A) (f : json -> option A) (j : option json) : option A :=
  match j with Some j => f j | None => Some d end.

(** An [Option] field: [null] is [None]. *)
Definition opt_of_json {A : Type} (f : json -> option A) (j : json) : option (option A) :=
  match j with
  | Null => Some None
  | _ => match f j with Some a => Some (Some a) | None => None end
  end.

(** A map with string keys. *)
Definition smap_to_json {A : Type} (f : A -> json) (m : gmap string A) : json := Obj (f <$> m).
Definition smap_of_json {A : Type} (g : json -> option A) (j : json) : option (gmap string A) :=
  match as_object j with
  | Some m =>
      match opt_collect (fun p : string * json => match g p.2 with Some v => Some (p.1, v) | None => None end)
              (map_to_list m) with
      | Some l => Some (list_to_map l)
      | None => None
      end
  | None => None
  end.

(** ** Lemmas *)
Lemma opt_collect_Some {A B : Type} (f : A -> option B) l l' :
  opt_collect f l = Some l' <-> Forall2 (fun x y => f x = Some y) l l'.
Proof.
  revert l'. induction l as [|x l IH]; intros l'; simpl.
  - split; [intros [= <-]; constructor|by inversion 1].
  - split.
    + destruct (f x) as [y|] eqn:Hf; [|discriminate].
      destruct (opt_collect f l) as [ys|] eqn:Hc; [|discriminate].
      intros [= <-]. constructor; [done|by apply IH].
    + inversion 1 as [|? y ? ys Hy Hys]; subst. apply IH in Hys. by rewrite Hy, Hys.
Qed.

Lemma opt_collect_map {A B C : Type} (f : A -> option B) (h : C -> A) (k : C -> B) l :
  (forall x, x ∈ l -> f (h x) = Some (k x)) -> opt_collect f (map h l) = Some (map k l).
Proof.
  intros H. apply opt_collect_Some. induction l as [|x l IH]; simpl; constructor.
  - apply H. left.
  - apply IH. intros y Hy. apply H. by right.
Qed.

Lemma opt_collect_perm {A B : Type} (f : A -> option B) l1 l2 r2 :
  l1 ≡ₚ l2 -> opt_collect f l2 = Some r2 -> exists r1, opt_collect f l1 = Some r1 /\ r1 ≡ₚ r2.
Proof.
  intros Hp. revert r2. induction Hp as [|x l1 l2 Hp IH|x y l|l1 l2 l3 Hp1 IH1 Hp2 IH2]; intros r2.
  - intros [= <-]. by exists [].
  - simpl. destruct (f x) as [z|]; [|discriminate]. destruct (opt_collect f l2) as [r|]; [|discriminate].
    intros [= <-]. destruct (IH r eq_refl) as (r1 & -> & Hr). exists (z :: r1). split; [done|by constructor].
  - simpl. destruct (f x) as [u|], (f y) as [v|], (opt_collect f l) as [r|]; try discriminate.
    intros [= <-]. eexists. split; [done|]. apply Permutation_swap.
  - intros H. apply IH2 in H as (r & H & Hr). apply IH1 in H as (r1 & H & Hr1).
    exists r1. split; [done|]. by rewrite Hr1.
Qed.

Lemma strs_roundtrip l : strs_of_json (strs_to_json l) = Some l.
Proof.
  unfold strs_of_json, strs_to_json. simpl. rewrite (opt_collect_map _ _ (fun s => s)); [|done].
  by rewrite map_id.
Qed.

Lemma smap_roundtrip {A : Type} (f : A -> json) (g : json -> option A) (m : gmap string A) :
  (forall k v, m !! k = Some v -> g (f v) = Some v) -> smap_of_json g (smap_to_json f m) = Some m.
Proof.
  intros Hv. unfold smap_of_json, smap_to_json. simpl. rewrite map_to_list_fmap.
  change (prod_map id f <$> map_to_list m) with (map (prod_map id f) (map_to_list m)).
  rewrite (opt_collect_map _ _ (fun p => p)).
  - rewrite map_id. f_equal. apply list_to_map_to_list.
  - intros [k v] Hin%elem_of_map_to_list. simpl. by erewrite Hv.
Qed.
