(* ===== verification/Protocol.v ===== *)
(** The IPC protocol types ([protocol/src/lib.rs]): the snapshot the agent publishes, the operation
    records, the server messages and the method lists.

    A Rust field [f] of a struct becomes a projection with a short prefix for the struct
    ([revision] of [StateSnapshot] is [ss_revision]); an enum variant [V] of [E] is [E_V], and
    [E_to_str] gives the name serde writes for it.  Unsigned fields are [Z]; the definitions that
    write them keep them in the field's range. *)
From Stdlib Require Import SpecFloat.
From S2P Require Export Json.

(** ** Constants and method lists *)
Definition PROTOCOL_VERSION : Z := 1.
Definition MAX_FRAME_BYTES : Z := 64 * 1024.

Definition BACKEND_METHODS : list string := [
  "account.get";
  "account.retry_restore";
  "account.upgrade_url";
  "report_issue.categories.get";
  "report_issue.submit";
  "diagnostics.get";
  "account.login";
  "account.submit_2fa";
  "account.authenticate_fido2";
  "account.submit_fido2_pin";
  "account.cancel_fido2";
  "account.logout";
  "locations.get";
  "servers.get";
  "servers.lookup";
  "feature.set";
  "protocol.set";
  "dns.set";
  "apps.get";
  "split_tunneling.set";
  "connection.observe";
  "connection.connect";
  "connection.cancel";
  "connection.disconnect";
  "traffic.get" ].

Definition STORE_METHODS : list string := [
  "store.get";
  "onboarding.complete";
  "preferences.set";
  "profiles.list";
  "profiles.save";
  "profiles.duplicate";
  "profiles.delete";
  "excluded_locations.get";
  "excluded_locations.set";
  "recents.list";
  "recents.record";
  "recents.pin";
  "recents.delete";
  "default_connection.set";
  "connection.resolve" ].

(** ** Types *)
Inductive FeatureName : Type :=
  | FeatureName_KillSwitch
  | FeatureName_Netshield
  | FeatureName_VpnAccelerator
  | FeatureName_AnonymousCrashReports
  | FeatureName_SecureCore
  | FeatureName_SplitTunneling
  | FeatureName_PortForwarding.

#[export] Instance FeatureName_eq_dec : EqDecision FeatureName.
Proof. solve_decision. Defined.

Inductive OperationDomain : Type :=
  | OperationDomain_AuthSession
  | OperationDomain_TunnelConfiguration
  | OperationDomain_Support
  | OperationDomain_Store.

#[export] Instance OperationDomain_eq_dec : EqDecision OperationDomain.
Proof. solve_decision. Defined.

Definition OperationDomain_to_str (x : OperationDomain) : string :=
  match x with
  | OperationDomain_AuthSession => "auth_session"
  | OperationDomain_TunnelConfiguration => "tunnel_configuration"
  | OperationDomain_Support => "support"
  | OperationDomain_Store => "store"
  end.

Inductive OperationStatus : Type :=
  | OperationStatus_Queued
  | OperationStatus_Running
  | OperationStatus_Succeeded
  | OperationStatus_Failed
  | OperationStatus_Cancelled.

#[export] Instance OperationStatus_eq_dec : EqDecision OperationStatus.
Proof. solve_decision. Defined.

Definition OperationStatus_to_str (x : OperationStatus) : string :=
  match x with
  | OperationStatus_Queued => "queued"
  | OperationStatus_Running => "running"
  | OperationStatus_Succeeded => "succeeded"
  | OperationStatus_Failed => "failed"
  | OperationStatus_Cancelled => "cancelled"
  end.

Inductive AccountStatus : Type :=
  | AccountStatus_Unknown
  | AccountStatus_Restoring
  | AccountStatus_SignedOut
  | AccountStatus_SigningIn
  | AccountStatus_TwoFactorRequired
  | AccountStatus_SignedIn
  | AccountStatus_Error.

#[export] Instance AccountStatus_eq_dec : EqDecision AccountStatus.
Proof. solve_decision. Defined.

Definition AccountStatus_to_str (x : AccountStatus) : string :=
  match x with
  | AccountStatus_Unknown => "unknown"
  | AccountStatus_Restoring => "restoring"
  | AccountStatus_SignedOut => "signed_out"
  | AccountStatus_SigningIn => "signing_in"
  | AccountStatus_TwoFactorRequired => "two_factor_required"
  | AccountStatus_SignedIn => "signed_in"
  | AccountStatus_Error => "error"
  end.

Inductive ConnectionStatus : Type :=
  | ConnectionStatus_Unknown
  | ConnectionStatus_Disconnected
  | ConnectionStatus_Connecting
  | ConnectionStatus_Connected
  | ConnectionStatus_Error.

#[export] Instance ConnectionStatus_eq_dec : EqDecision ConnectionStatus.
Proof. solve_decision. Defined.

Definition ConnectionStatus_to_str (x : ConnectionStatus) : string :=
  match x with
  | ConnectionStatus_Unknown => "unknown"
  | ConnectionStatus_Disconnected => "disconnected"
  | ConnectionStatus_Connecting => "connecting"
  | ConnectionStatus_Connected => "connected"
  | ConnectionStatus_Error => "error"
  end.

Inductive KillSwitchMode : Type :=
  | KillSwitchMode_Off
  | KillSwitchMode_Standard
  | KillSwitchMode_Advanced.

#[export] Instance KillSwitchMode_eq_dec : EqDecision KillSwitchMode.
Proof. solve_decision. Defined.

Definition KillSwitchMode_to_str (x : KillSwitchMode) : string :=
  match x with
  | KillSwitchMode_Off => "off"
  | KillSwitchMode_Standard => "standard"
  | KillSwitchMode_Advanced => "advanced"
  end.

Inductive SplitTunnelingMode : Type :=
  | SplitTunnelingMode_Off
  | SplitTunnelingMode_Standard
  | SplitTunnelingMode_Inverse.

#[export] Instance SplitTunnelingMode_eq_dec : EqDecision SplitTunnelingMode.
Proof. solve_decision. Defined.

Definition SplitTunnelingMode_to_str (x : SplitTunnelingMode) : string :=
  match x with
  | SplitTunnelingMode_Off => "off"
  | SplitTunnelingMode_Standard => "standard"
  | SplitTunnelingMode_Inverse => "inverse"
  end.

Record RequestEnvelope : Type := mkRequestEnvelope {
  re_v : Z;
  re_id : string;
  re_message_type : string;
  re_method : string;
  re_params : json }.

Record ProtocolError : Type := mkProtocolError {
  pe_code : string;
  pe_message : string;
  pe_details : option json;
  pe_retryable : bool }.

Record HelloParams : Type := mkHelloParams {
  hp_client : string;
  hp_client_version : string;
  hp_client_instance_id : string }.

Record ConnectTarget : Type := mkConnectTarget {
  ct_country_code : option string;
  ct_country_name : option string;
  ct_state : option string;
  ct_city : option string;
  ct_server_name : option string;
  ct_gateway_name : option string;
  ct_server_load : option Z;
  ct_secure_core : bool;
  ct_p2p : bool;
  ct_tor : bool;
  ct_random : bool;
  ct_random_server : bool;
  ct_exclude_my_country : bool;
  ct_free_random : bool }.

Record ProfileCustomDns : Type := mkProfileCustomDns {
  pcd_mode : string;
  pcd_servers : list string }.

Record ProfileConnectionSettings : Type := mkProfileConnectionSettings {
  pcs_protocol : string;
  pcs_netshield_enabled : bool;
  pcs_netshield_level : Z;
  pcs_moderate_nat : bool;
  pcs_port_forwarding : bool;
  pcs_custom_dns : ProfileCustomDns;
  pcs_allow_lan_connections : option bool;
  pcs_allow_local_dns : option bool }.

Record ConnectParams : Type := mkConnectParams {
  cp_target : option ConnectTarget;
  cp_profile_settings : option ProfileConnectionSettings }.

Record AccountLoginParams : Type := mkAccountLoginParams {
  alp_username : string;
  alp_password : string }.

Record AccountTwoFactorParams : Type := mkAccountTwoFactorParams {
  atp_code : string }.

Record ServersGetParams : Type := mkServersGetParams {
  sgp_offset : Z;
  sgp_limit : Z;
  sgp_query : string;
  sgp_country_code : string;
  sgp_gateway_name : string;
  sgp_feature : string;
  sgp_scope : string }.

Record SplitTunnelingConfigState : Type := mkSplitTunnelingConfigState {
  stc_app_paths : list string;
  stc_ip_ranges : list string }.

Record SplitTunnelingSetParams : Type := mkSplitTunnelingSetParams {
  stsp_enabled : bool;
  stsp_mode : SplitTunnelingMode;
  stsp_standard : SplitTunnelingConfigState;
  stsp_inverse : SplitTunnelingConfigState }.

Record AppsGetParams : Type := mkAppsGetParams {
  agp_offset : Z;
  agp_limit : Z;
  agp_query : string }.

Record FeatureSetParams : Type := mkFeatureSetParams {
  fsp_feature : FeatureName;
  fsp_value : json }.

Record AccountState : Type := mkAccountState {
  acc_status : AccountStatus;
  acc_name : option string;
  acc_tier : option Z;
  acc_credentialless : bool;
  acc_two_factor_code_supported : bool;
  acc_two_factor_security_key_supported : bool;
  acc_sso_supported : bool }.

Record BackendState : Type := mkBackendState {
  be_kind : string;
  be_core_available : bool;
  be_connection_available : bool;
  be_connection_availability_known : bool;
  be_settings_known : bool;
  be_connector_initialized : bool;
  be_network_blocked_known : bool;
  be_network_blocked : bool;
  be_core_version : option string;
  be_error : option string }.

Record ConnectionState : Type := mkConnectionState {
  cn_observation_known : bool;
  cn_status : ConnectionStatus;
  cn_profile_id : option string;
  cn_country_code : option string;
  cn_country_name : option string;
  cn_host_country_code : option string;
  cn_host_country_name : option string;
  cn_entry_country_code : option string;
  cn_entry_country_name : option string;
  cn_state : option string;
  cn_city : option string;
  cn_server_name : option string;
  cn_server_ip : option string;
  cn_server_load : option Z;
  cn_p2p : bool;
  cn_tor : bool;
  cn_latency_ms : option Z;
  cn_protocol : option string;
  cn_connected_at_unix_ms : option Z;
  cn_error : option string;
  cn_error_code : option string;
  cn_restriction_reason_code : option Z;
  cn_network_conflicts : list string }.

Record DeviceLocationState : Type := mkDeviceLocationState {
  dl_known : bool;
  dl_ip_address : option string;
  dl_country_code : option string;
  dl_isp : option string;
  dl_latitude : option spec_float;
  dl_longitude : option spec_float }.

Record NetworkSecurityState : Type := mkNetworkSecurityState {
  ns_known : bool;
  ns_wifi_connected : bool;
  ns_insecure_wifi : bool;
  ns_generation : Z }.

Record ProtocolSettingsState : Type := mkProtocolSettingsState {
  ps_selected : string;
  ps_available : list string;
  ps_profile_available : list string }.

Record KillSwitchState : Type := mkKillSwitchState {
  ks_mode : KillSwitchMode }.

Record NetShieldState : Type := mkNetShieldState {
  nsh_level : Z;
  nsh_statistics_known : bool;
  nsh_malware_blocked : Z;
  nsh_ads_blocked : Z;
  nsh_trackers_blocked : Z }.

Record VpnAcceleratorState : Type := mkVpnAcceleratorState {
  va_enabled : bool }.

Record AnonymousCrashReportsState : Type := mkAnonymousCrashReportsState {
  acr_enabled : bool }.

Record AnonymousUsageStatisticsState : Type := mkAnonymousUsageStatisticsState {
  aus_enabled : bool }.

Record ConnectionFeedbackState : Type := mkConnectionFeedbackState {
  cf_available : bool;
  cf_viewed : bool;
  cf_sent : bool;
  cf_auto_dismiss_seconds : Z }.

Record ToggleFeatureState : Type := mkToggleFeatureState {
  tg_enabled : bool }.

Record SplitTunnelingState : Type := mkSplitTunnelingState {
  st_mode : SplitTunnelingMode;
  st_availability_known : bool;
  st_available : bool;
  st_app_paths_supported : bool;
  st_ip_ranges_supported : bool;
  st_standard : SplitTunnelingConfigState;
  st_inverse : SplitTunnelingConfigState }.

Record PortForwardingState : Type := mkPortForwardingState {
  pf_enabled : bool;
  pf_active_port : option Z }.

Record CustomDnsState : Type := mkCustomDnsState {
  cd_enabled : bool;
  cd_servers : list string }.

Record FeatureWriteCapabilities : Type := mkFeatureWriteCapabilities {
  fw_protocol : bool;
  fw_kill_switch : bool;
  fw_netshield : bool;
  fw_vpn_accelerator : bool;
  fw_anonymous_crash_reports : bool;
  fw_anonymous_usage_statistics : bool;
  fw_moderate_nat : bool;
  fw_ipv6 : bool;
  fw_ipv6_leak_protection : bool;
  fw_alternative_routing : bool;
  fw_allow_lan_connections : bool;
  fw_allow_local_dns : bool;
  fw_custom_dns : bool;
  fw_secure_core : bool;
  fw_split_tunneling : bool;
  fw_port_forwarding : bool }.

Record FeatureState : Type := mkFeatureState {
  fs_protocol : ProtocolSettingsState;
  fs_kill_switch : KillSwitchState;
  fs_netshield : NetShieldState;
  fs_vpn_accelerator : VpnAcceleratorState;
  fs_anonymous_crash_reports : AnonymousCrashReportsState;
  fs_anonymous_usage_statistics : AnonymousUsageStatisticsState;
  fs_connection_feedback : ConnectionFeedbackState;
  fs_moderate_nat : ToggleFeatureState;
  fs_ipv6 : ToggleFeatureState;
  fs_ipv6_leak_protection : ToggleFeatureState;
  fs_alternative_routing : ToggleFeatureState;
  fs_allow_lan_connections : ToggleFeatureState;
  fs_allow_local_dns : ToggleFeatureState;
  fs_secure_core : bool;
  fs_split_tunneling : SplitTunnelingState;
  fs_port_forwarding : PortForwardingState;
  fs_custom_dns : CustomDnsState;
  fs_writes : FeatureWriteCapabilities;
  fs_known : bool;
  fs_writable : bool }.

Record OperationError : Type := mkOperationError {
  oe_code : string;
  oe_details : option json;
  oe_retryable : bool }.

Record OperationRecord : Type := mkOperationRecord {
  op_id : string;
  op_initiator_client_instance_id : string;
  op_domain : OperationDomain;
  op_kind : string;
  op_state : OperationStatus;
  op_stage : string;
  op_started_at_unix_ms : Z;
  op_updated_at_unix_ms : Z;
  op_finished_at_unix_ms : option Z;
  op_cancelable : bool;
  op_error : option OperationError }.

Record OperationState : Type := mkOperationState {
  os_active : list OperationRecord;
  os_recent : list OperationRecord }.

Record CanonicalStoreState : Type := mkCanonicalStoreState {
  cs_revision : Z;
  cs_ready : bool;
  cs_onboarding_complete : bool;
  cs_locale : string;
  cs_start_with_omarchy : bool;
  cs_auto_connect : bool;
  cs_notifications_enabled : bool;
  cs_port_forwarding_notifications_enabled : bool;
  cs_account_scope_known : bool;
  cs_profile_count : Z;
  cs_recent_count : Z;
  cs_default_connection : json;
  cs_migration_available : bool }.

Record StateSnapshot : Type := mkStateSnapshot {
  ss_revision : Z;
  ss_account : AccountState;
  ss_backend : BackendState;
  ss_connection : ConnectionState;
  ss_device_location : DeviceLocationState;
  ss_network_security : NetworkSecurityState;
  ss_features : FeatureState;
  ss_operations : OperationState;
  ss_store : CanonicalStoreState }.

(** ** Server messages *)
Inductive ServerMessage : Type :=
  | Response (v : Z) (id : option string) (ok : bool) (res : option json) (error : option ProtocolError)
  | Event (v : Z) (event : string) (data : json).

Definition msg_ok (id : string) (res : json) : ServerMessage :=
  Response PROTOCOL_VERSION (Some id) true (Some res) None.
Definition msg_error_with_details (id : option string) (code message : string)
    (details : option json) (retryable : bool) : ServerMessage :=
  Response PROTOCOL_VERSION id false None (Some (mkProtocolError code message details retryable)).
Definition msg_error (id : option string) (code message : string) : ServerMessage :=
  msg_error_with_details id code message None false.
Definition msg_event (name : string) (data : json) : ServerMessage :=
  Event PROTOCOL_VERSION name data.

(** ** Defaults *)
Definition CanonicalStoreState_default : CanonicalStoreState := {|
  cs_revision := 0;
  cs_ready := false;
  cs_onboarding_complete := false;
  cs_locale := "en";
  cs_start_with_omarchy := true;
  cs_auto_connect := false;
  cs_notifications_enabled := true;
  cs_port_forwarding_notifications_enabled := true;
  cs_account_scope_known := false;
  cs_profile_count := 0;
  cs_recent_count := 0;
  cs_default_connection := jobj [("type", Str "fastest")];
  cs_migration_available := false |}.

Definition AccountState_default : AccountState := {|
  acc_status := AccountStatus_Unknown;
  acc_name := None;
  acc_tier := None;
  acc_credentialless := false;
  acc_two_factor_code_supported := false;
  acc_two_factor_security_key_supported := false;
  acc_sso_supported := false |}.

Definition BackendState_default : BackendState := {|
  be_kind := "proton_linux";
  be_core_available := false;
  be_connection_available := false;
  be_connection_availability_known := false;
  be_settings_known := false;
  be_connector_initialized := false;
  be_network_blocked_known := false;
  be_network_blocked := false;
  be_core_version := None;
  be_error := None |}.

Definition ConnectionState_default : ConnectionState := {|
  cn_observation_known := false;
  cn_status := ConnectionStatus_Unknown;
  cn_profile_id := None;
  cn_country_code := None;
  cn_country_name := None;
  cn_host_country_code := None;
  cn_host_country_name := None;
  cn_entry_country_code := None;
  cn_entry_country_name := None;
  cn_state := None;
  cn_city := None;
  cn_server_name := None;
  cn_server_ip := None;
  cn_server_load := None;
  cn_p2p := false;
  cn_tor := false;
  cn_latency_ms := None;
  cn_protocol := None;
  cn_connected_at_unix_ms := None;
  cn_error := None;
  cn_error_code := None;
  cn_restriction_reason_code := None;
  cn_network_conflicts := [] |}.

Definition FeatureWriteCapabilities_default : FeatureWriteCapabilities :=
  mkFeatureWriteCapabilities false false false false false false false false false false false
    false false false false false.

Definition FeatureState_default : FeatureState := {|
  fs_protocol := mkProtocolSettingsState "" [] [];
  fs_kill_switch := mkKillSwitchState KillSwitchMode_Off;
  fs_netshield := mkNetShieldState 0 false 0 0 0;
  fs_vpn_accelerator := mkVpnAcceleratorState false;
  fs_anonymous_crash_reports := mkAnonymousCrashReportsState false;
  fs_anonymous_usage_statistics := mkAnonymousUsageStatisticsState false;
  fs_connection_feedback := mkConnectionFeedbackState false false false 0;
  fs_moderate_nat := mkToggleFeatureState false;
  fs_ipv6 := mkToggleFeatureState true;
  fs_ipv6_leak_protection := mkToggleFeatureState true;
  fs_alternative_routing := mkToggleFeatureState true;
  fs_allow_lan_connections := mkToggleFeatureState false;
  fs_allow_local_dns := mkToggleFeatureState false;
  fs_secure_core := false;
  fs_split_tunneling :=
    mkSplitTunnelingState SplitTunnelingMode_Off false false false false
      (mkSplitTunnelingConfigState [] []) (mkSplitTunnelingConfigState [] []);
  fs_port_forwarding := mkPortForwardingState false None;
  fs_custom_dns := mkCustomDnsState false [];
  fs_writes := FeatureWriteCapabilities_default;
  fs_known := false;
  fs_writable := false |}.

Definition StateSnapshot_default : StateSnapshot := {|
  ss_revision := 0;
  ss_account := AccountState_default;
  ss_backend := BackendState_default;
  ss_connection := ConnectionState_default;
  ss_device_location := mkDeviceLocationState false None None None None None;
  ss_network_security := mkNetworkSecurityState false false false 0;
  ss_features := FeatureState_default;
  ss_operations := mkOperationState [] [];
  ss_store := CanonicalStoreState_default |}.

(** ** Assignments to one field of the snapshot, its features and its connection *)
Definition set_ss_revision x (s : StateSnapshot) : StateSnapshot :=
  mkStateSnapshot x (s.(ss_account)) (s.(ss_backend)) (s.(ss_connection)) (s.(ss_device_location)) (s.(ss_network_security)) (s.(ss_features)) (s.(ss_operations)) (s.(ss_store)).
Definition set_ss_account x (s : StateSnapshot) : StateSnapshot :=
  mkStateSnapshot (s.(ss_revision)) x (s.(ss_backend)) (s.(ss_connection)) (s.(ss_device_location)) (s.(ss_network_security)) (s.(ss_features)) (s.(ss_operations)) (s.(ss_store)).
Definition set_ss_backend x (s : StateSnapshot) : StateSnapshot :=
  mkStateSnapshot (s.(ss_revision)) (s.(ss_account)) x (s.(ss_connection)) (s.(ss_device_location)) (s.(ss_network_security)) (s.(ss_features)) (s.(ss_operations)) (s.(ss_store)).
Definition set_ss_connection x (s : StateSnapshot) : StateSnapshot :=
  mkStateSnapshot (s.(ss_revision)) (s.(ss_account)) (s.(ss_backend)) x (s.(ss_device_location)) (s.(ss_network_security)) (s.(ss_features)) (s.(ss_operations)) (s.(ss_store)).
Definition set_ss_device_location x (s : StateSnapshot) : StateSnapshot :=
  mkStateSnapshot (s.(ss_revision)) (s.(ss_account)) (s.(ss_backend)) (s.(ss_connection)) x (s.(ss_network_security)) (s.(ss_features)) (s.(ss_operations)) (s.(ss_store)).
Definition set_ss_network_security x (s : StateSnapshot) : StateSnapshot :=
  mkStateSnapshot (s.(ss_revision)) (s.(ss_account)) (s.(ss_backend)) (s.(ss_connection)) (s.(ss_device_location)) x (s.(ss_features)) (s.(ss_operations)) (s.(ss_store)).
Definition set_ss_features x (s : StateSnapshot) : StateSnapshot :=
  mkStateSnapshot (s.(ss_revision)) (s.(ss_account)) (s.(ss_backend)) (s.(ss_connection)) (s.(ss_device_location)) (s.(ss_network_security)) x (s.(ss_operations)) (s.(ss_store)).
Definition set_ss_operations x (s : StateSnapshot) : StateSnapshot :=
  mkStateSnapshot (s.(ss_revision)) (s.(ss_account)) (s.(ss_backend)) (s.(ss_connection)) (s.(ss_device_location)) (s.(ss_network_security)) (s.(ss_features)) x (s.(ss_store)).
Definition set_ss_store x (s : StateSnapshot) : StateSnapshot :=
  mkStateSnapshot (s.(ss_revision)) (s.(ss_account)) (s.(ss_backend)) (s.(ss_connection)) (s.(ss_device_location)) (s.(ss_network_security)) (s.(ss_features)) (s.(ss_operations)) x.
Definition set_fs_protocol x (s : FeatureState) : FeatureState :=
  mkFeatureState x (s.(fs_kill_switch)) (s.(fs_netshield)) (s.(fs_vpn_accelerator)) (s.(fs_anonymous_crash_reports)) (s.(fs_anonymous_usage_statistics)) (s.(fs_connection_feedback)) (s.(fs_moderate_nat)) (s.(fs_ipv6)) (s.(fs_ipv6_leak_protection)) (s.(fs_alternative_routing)) (s.(fs_allow_lan_connections)) (s.(fs_allow_local_dns)) (s.(fs_secure_core)) (s.(fs_split_tunneling)) (s.(fs_port_forwarding)) (s.(fs_custom_dns)) (s.(fs_writes)) (s.(fs_known)) (s.(fs_writable)).
Definition set_fs_kill_switch x (s : FeatureState) : FeatureState :=
  mkFeatureState (s.(fs_protocol)) x (s.(fs_netshield)) (s.(fs_vpn_accelerator)) (s.(fs_anonymous_crash_reports)) (s.(fs_anonymous_usage_statistics)) (s.(fs_connection_feedback)) (s.(fs_moderate_nat)) (s.(fs_ipv6)) (s.(fs_ipv6_leak_protection)) (s.(fs_alternative_routing)) (s.(fs_allow_lan_connections)) (s.(fs_allow_local_dns)) (s.(fs_secure_core)) (s.(fs_split_tunneling)) (s.(fs_port_forwarding)) (s.(fs_custom_dns)) (s.(fs_writes)) (s.(fs_known)) (s.(fs_writable)).
Definition set_fs_netshield x (s : FeatureState) : FeatureState :=
  mkFeatureState (s.(fs_protocol)) (s.(fs_kill_switch)) x (s.(fs_vpn_accelerator)) (s.(fs_anonymous_crash_reports)) (s.(fs_anonymous_usage_statistics)) (s.(fs_connection_feedback)) (s.(fs_moderate_nat)) (s.(fs_ipv6)) (s.(fs_ipv6_leak_protection)) (s.(fs_alternative_routing)) (s.(fs_allow_lan_connections)) (s.(fs_allow_local_dns)) (s.(fs_secure_core)) (s.(fs_split_tunneling)) (s.(fs_port_forwarding)) (s.(fs_custom_dns)) (s.(fs_writes)) (s.(fs_known)) (s.(fs_writable)).
Definition set_fs_vpn_accelerator x (s : FeatureState) : FeatureState :=
  mkFeatureState (s.(fs_protocol)) (s.(fs_kill_switch)) (s.(fs_netshield)) x (s.(fs_anonymous_crash_reports)) (s.(fs_anonymous_usage_statistics)) (s.(fs_connection_feedback)) (s.(fs_moderate_nat)) (s.(fs_ipv6)) (s.(fs_ipv6_leak_protection)) (s.(fs_alternative_routing)) (s.(fs_allow_lan_connections)) (s.(fs_allow_local_dns)) (s.(fs_secure_core)) (s.(fs_split_tunneling)) (s.(fs_port_forwarding)) (s.(fs_custom_dns)) (s.(fs_writes)) (s.(fs_known)) (s.(fs_writable)).
Definition set_fs_anonymous_crash_reports x (s : FeatureState) : FeatureState :=
  mkFeatureState (s.(fs_protocol)) (s.(fs_kill_switch)) (s.(fs_netshield)) (s.(fs_vpn_accelerator)) x (s.(fs_anonymous_usage_statistics)) (s.(fs_connection_feedback)) (s.(fs_moderate_nat)) (s.(fs_ipv6)) (s.(fs_ipv6_leak_protection)) (s.(fs_alternative_routing)) (s.(fs_allow_lan_connections)) (s.(fs_allow_local_dns)) (s.(fs_secure_core)) (s.(fs_split_tunneling)) (s.(fs_port_forwarding)) (s.(fs_custom_dns)) (s.(fs_writes)) (s.(fs_known)) (s.(fs_writable)).
Definition set_fs_anonymous_usage_statistics x (s : FeatureState) : FeatureState :=
  mkFeatureState (s.(fs_protocol)) (s.(fs_kill_switch)) (s.(fs_netshield)) (s.(fs_vpn_accelerator)) (s.(fs_anonymous_crash_reports)) x (s.(fs_connection_feedback)) (s.(fs_moderate_nat)) (s.(fs_ipv6)) (s.(fs_ipv6_leak_protection)) (s.(fs_alternative_routing)) (s.(fs_allow_lan_connections)) (s.(fs_allow_local_dns)) (s.(fs_secure_core)) (s.(fs_split_tunneling)) (s.(fs_port_forwarding)) (s.(fs_custom_dns)) (s.(fs_writes)) (s.(fs_known)) (s.(fs_writable)).
Definition set_fs_connection_feedback x (s : FeatureState) : FeatureState :=
  mkFeatureState (s.(fs_protocol)) (s.(fs_kill_switch)) (s.(fs_netshield)) (s.(fs_vpn_accelerator)) (s.(fs_anonymous_crash_reports)) (s.(fs_anonymous_usage_statistics)) x (s.(fs_moderate_nat)) (s.(fs_ipv6)) (s.(fs_ipv6_leak_protection)) (s.(fs_alternative_routing)) (s.(fs_allow_lan_connections)) (s.(fs_allow_local_dns)) (s.(fs_secure_core)) (s.(fs_split_tunneling)) (s.(fs_port_forwarding)) (s.(fs_custom_dns)) (s.(fs_writes)) (s.(fs_known)) (s.(fs_writable)).
Definition set_fs_moderate_nat x (s : FeatureState) : FeatureState :=
  mkFeatureState (s.(fs_protocol)) (s.(fs_kill_switch)) (s.(fs_netshield)) (s.(fs_vpn_accelerator)) (s.(fs_anonymous_crash_reports)) (s.(fs_anonymous_usage_statistics)) (s.(fs_connection_feedback)) x (s.(fs_ipv6)) (s.(fs_ipv6_leak_protection)) (s.(fs_alternative_routing)) (s.(fs_allow_lan_connections)) (s.(fs_allow_local_dns)) (s.(fs_secure_core)) (s.(fs_split_tunneling)) (s.(fs_port_forwarding)) (s.(fs_custom_dns)) (s.(fs_writes)) (s.(fs_known)) (s.(fs_writable)).
Definition set_fs_ipv6 x (s : FeatureState) : FeatureState :=
  mkFeatureState (s.(fs_protocol)) (s.(fs_kill_switch)) (s.(fs_netshield)) (s.(fs_vpn_accelerator)) (s.(fs_anonymous_crash_reports)) (s.(fs_anonymous_usage_statistics)) (s.(fs_connection_feedback)) (s.(fs_moderate_nat)) x (s.(fs_ipv6_leak_protection)) (s.(fs_alternative_routing)) (s.(fs_allow_lan_connections)) (s.(fs_allow_local_dns)) (s.(fs_secure_core)) (s.(fs_split_tunneling)) (s.(fs_port_forwarding)) (s.(fs_custom_dns)) (s.(fs_writes)) (s.(fs_known)) (s.(fs_writable)).
Definition set_fs_ipv6_leak_protection x (s : FeatureState) : FeatureState :=
  mkFeatureState (s.(fs_protocol)) (s.(fs_kill_switch)) (s.(fs_netshield)) (s.(fs_vpn_accelerator)) (s.(fs_anonymous_crash_reports)) (s.(fs_anonymous_usage_statistics)) (s.(fs_connection_feedback)) (s.(fs_moderate_nat)) (s.(fs_ipv6)) x (s.(fs_alternative_routing)) (s.(fs_allow_lan_connections)) (s.(fs_allow_local_dns)) (s.(fs_secure_core)) (s.(fs_split_tunneling)) (s.(fs_port_forwarding)) (s.(fs_custom_dns)) (s.(fs_writes)) (s.(fs_known)) (s.(fs_writable)).
Definition set_fs_alternative_routing x (s : FeatureState) : FeatureState :=
  mkFeatureState (s.(fs_protocol)) (s.(fs_kill_switch)) (s.(fs_netshield)) (s.(fs_vpn_accelerator)) (s.(fs_anonymous_crash_reports)) (s.(fs_anonymous_usage_statistics)) (s.(fs_connection_feedback)) (s.(fs_moderate_nat)) (s.(fs_ipv6)) (s.(fs_ipv6_leak_protection)) x (s.(fs_allow_lan_connections)) (s.(fs_allow_local_dns)) (s.(fs_secure_core)) (s.(fs_split_tunneling)) (s.(fs_port_forwarding)) (s.(fs_custom_dns)) (s.(fs_writes)) (s.(fs_known)) (s.(fs_writable)).
Definition set_fs_allow_lan_connections x (s : FeatureState) : FeatureState :=
  mkFeatureState (s.(fs_protocol)) (s.(fs_kill_switch)) (s.(fs_netshield)) (s.(fs_vpn_accelerator)) (s.(fs_anonymous_crash_reports)) (s.(fs_anonymous_usage_statistics)) (s.(fs_connection_feedback)) (s.(fs_moderate_nat)) (s.(fs_ipv6)) (s.(fs_ipv6_leak_protection)) (s.(fs_alternative_routing)) x (s.(fs_allow_local_dns)) (s.(fs_secure_core)) (s.(fs_split_tunneling)) (s.(fs_port_forwarding)) (s.(fs_custom_dns)) (s.(fs_writes)) (s.(fs_known)) (s.(fs_writable)).
Definition set_fs_allow_local_dns x (s : FeatureState) : FeatureState :=
  mkFeatureState (s.(fs_protocol)) (s.(fs_kill_switch)) (s.(fs_netshield)) (s.(fs_vpn_accelerator)) (s.(fs_anonymous_crash_reports)) (s.(fs_anonymous_usage_statistics)) (s.(fs_connection_feedback)) (s.(fs_moderate_nat)) (s.(fs_ipv6)) (s.(fs_ipv6_leak_protection)) (s.(fs_alternative_routing)) (s.(fs_allow_lan_connections)) x (s.(fs_secure_core)) (s.(fs_split_tunneling)) (s.(fs_port_forwarding)) (s.(fs_custom_dns)) (s.(fs_writes)) (s.(fs_known)) (s.(fs_writable)).
Definition set_fs_secure_core x (s : FeatureState) : FeatureState :=
  mkFeatureState (s.(fs_protocol)) (s.(fs_kill_switch)) (s.(fs_netshield)) (s.(fs_vpn_accelerator)) (s.(fs_anonymous_crash_reports)) (s.(fs_anonymous_usage_statistics)) (s.(fs_connection_feedback)) (s.(fs_moderate_nat)) (s.(fs_ipv6)) (s.(fs_ipv6_leak_protection)) (s.(fs_alternative_routing)) (s.(fs_allow_lan_connections)) (s.(fs_allow_local_dns)) x (s.(fs_split_tunneling)) (s.(fs_port_forwarding)) (s.(fs_custom_dns)) (s.(fs_writes)) (s.(fs_known)) (s.(fs_writable)).
Definition set_fs_split_tunneling x (s : FeatureState) : FeatureState :=
  mkFeatureState (s.(fs_protocol)) (s.(fs_kill_switch)) (s.(fs_netshield)) (s.(fs_vpn_accelerator)) (s.(fs_anonymous_crash_reports)) (s.(fs_anonymous_usage_statistics)) (s.(fs_connection_feedback)) (s.(fs_moderate_nat)) (s.(fs_ipv6)) (s.(fs_ipv6_leak_protection)) (s.(fs_alternative_routing)) (s.(fs_allow_lan_connections)) (s.(fs_allow_local_dns)) (s.(fs_secure_core)) x (s.(fs_port_forwarding)) (s.(fs_custom_dns)) (s.(fs_writes)) (s.(fs_known)) (s.(fs_writable)).
Definition set_fs_port_forwarding x (s : FeatureState) : FeatureState :=
  mkFeatureState (s.(fs_protocol)) (s.(fs_kill_switch)) (s.(fs_netshield)) (s.(fs_vpn_accelerator)) (s.(fs_anonymous_crash_reports)) (s.(fs_anonymous_usage_statistics)) (s.(fs_connection_feedback)) (s.(fs_moderate_nat)) (s.(fs_ipv6)) (s.(fs_ipv6_leak_protection)) (s.(fs_alternative_routing)) (s.(fs_allow_lan_connections)) (s.(fs_allow_local_dns)) (s.(fs_secure_core)) (s.(fs_split_tunneling)) x (s.(fs_custom_dns)) (s.(fs_writes)) (s.(fs_known)) (s.(fs_writable)).
Definition set_fs_custom_dns x (s : FeatureState) : FeatureState :=
  mkFeatureState (s.(fs_protocol)) (s.(fs_kill_switch)) (s.(fs_netshield)) (s.(fs_vpn_accelerator)) (s.(fs_anonymous_crash_reports)) (s.(fs_anonymous_usage_statistics)) (s.(fs_connection_feedback)) (s.(fs_moderate_nat)) (s.(fs_ipv6)) (s.(fs_ipv6_leak_protection)) (s.(fs_alternative_routing)) (s.(fs_allow_lan_connections)) (s.(fs_allow_local_dns)) (s.(fs_secure_core)) (s.(fs_split_tunneling)) (s.(fs_port_forwarding)) x (s.(fs_writes)) (s.(fs_known)) (s.(fs_writable)).
Definition set_fs_writes x (s : FeatureState) : FeatureState :=
  mkFeatureState (s.(fs_protocol)) (s.(fs_kill_switch)) (s.(fs_netshield)) (s.(fs_vpn_accelerator)) (s.(fs_anonymous_crash_reports)) (s.(fs_anonymous_usage_statistics)) (s.(fs_connection_feedback)) (s.(fs_moderate_nat)) (s.(fs_ipv6)) (s.(fs_ipv6_leak_protection)) (s.(fs_alternative_routing)) (s.(fs_allow_lan_connections)) (s.(fs_allow_local_dns)) (s.(fs_secure_core)) (s.(fs_split_tunneling)) (s.(fs_port_forwarding)) (s.(fs_custom_dns)) x (s.(fs_known)) (s.(fs_writable)).
Definition set_fs_known x (s : FeatureState) : FeatureState :=
  mkFeatureState (s.(fs_protocol)) (s.(fs_kill_switch)) (s.(fs_netshield)) (s.(fs_vpn_accelerator)) (s.(fs_anonymous_crash_reports)) (s.(fs_anonymous_usage_statistics)) (s.(fs_connection_feedback)) (s.(fs_moderate_nat)) (s.(fs_ipv6)) (s.(fs_ipv6_leak_protection)) (s.(fs_alternative_routing)) (s.(fs_allow_lan_connections)) (s.(fs_allow_local_dns)) (s.(fs_secure_core)) (s.(fs_split_tunneling)) (s.(fs_port_forwarding)) (s.(fs_custom_dns)) (s.(fs_writes)) x (s.(fs_writable)).
Definition set_fs_writable x (s : FeatureState) : FeatureState :=
  mkFeatureState (s.(fs_protocol)) (s.(fs_kill_switch)) (s.(fs_netshield)) (s.(fs_vpn_accelerator)) (s.(fs_anonymous_crash_reports)) (s.(fs_anonymous_usage_statistics)) (s.(fs_connection_feedback)) (s.(fs_moderate_nat)) (s.(fs_ipv6)) (s.(fs_ipv6_leak_protection)) (s.(fs_alternative_routing)) (s.(fs_allow_lan_connections)) (s.(fs_allow_local_dns)) (s.(fs_secure_core)) (s.(fs_split_tunneling)) (s.(fs_port_forwarding)) (s.(fs_custom_dns)) (s.(fs_writes)) (s.(fs_known)) x.

(** [BackendError] of [agent/src/backend.rs], the error every request handler returns. *)
Record BackendError : Type := mkBackendError {
  err_code : string;
  err_message : string;
  err_details : option json;
  err_retryable : bool }.

Definition BackendError_new (code message : string) : BackendError :=
  mkBackendError code message None false.
Definition with_details (details : json) (e : BackendError) : BackendError :=
  mkBackendError e.(err_code) e.(err_message) (Some details) e.(err_retryable).
Definition retryable (r : bool) (e : BackendError) : BackendError :=
  mkBackendError e.(err_code) e.(err_message) e.(err_details) r.

Abbreviation BackendResult := (result json BackendError).
