(* ===== verification/Operations.v ===== *)
(** The operation coordinator of [agent/src/operations.rs].

    The registry behind the mutex and the published snapshot form one [Coordinator]; each method of
    [OperationCoordinator] is one atomic function on it (every method holds the lock from its first
    read to [publish]).  The clock is the argument [now]. *)
From S2P Require Export Protocol.
Open Scope Z_scope.
Open Scope list_scope.

Definition RECENT_OPERATION_LIMIT : nat := 16.

Record OperationRegistry : Type := mkRegistry {
  next_id : Z;
  active : list OperationRecord;
  recent : list OperationRecord }.

Record OperationLease : Type := mkLease {
  lease_id : string;
  owns_completion : bool;
  control_failure_stage : option string;
  control_failure_cancelable : bool }.

Record ControlSpec : Type := mkControl {
  target_kind : string;
  control_stage : string;
  control_cancelable : bool;
  failure_stage_of : string;
  failure_cancelable : bool;
  requires_target : bool }.

Record OperationSpec : Type := mkSpec {
  spec_domain : OperationDomain;
  spec_stage : string;
  spec_cancelable : bool;
  spec_control : option ControlSpec }.

Record Coordinator : Type := mkCoordinator {
  registry : OperationRegistry;
  snapshot : StateSnapshot }.

Definition OperationCoordinator_new (s : StateSnapshot) : Coordinator :=
  mkCoordinator (mkRegistry 1 [] []) s.

(** ** Tables *)

Definition fido2_control (stage failure : string) (cancelable : bool) : ControlSpec :=
  mkControl "account.authenticate_fido2" stage cancelable failure true true.
Definition connect_control : ControlSpec :=
  mkControl "connection.connect" "tunnel.cancelling" false "tunnel.cancel_failed" true false.

Definition is_store_write (method : string) : bool :=
  existsb (String.eqb method)
    ["onboarding.complete"; "preferences.set"; "profiles.save"; "profiles.duplicate";
     "profiles.delete"; "recents.record"; "recents.pin"; "recents.delete";
     "default_connection.set"].

Definition operation_table : list (string * OperationSpec) :=
  let auth := OperationDomain_AuthSession in
  let tunnel := OperationDomain_TunnelConfiguration in
  let support := OperationDomain_Support in
  [("account.login", mkSpec auth "auth.submitting_credentials" false None);
   ("account.submit_2fa", mkSpec auth "auth.submitting_two_factor" false None);
   ("account.authenticate_fido2", mkSpec auth "auth.scanning_security_keys" true None);
   ("account.submit_fido2_pin",
     mkSpec auth "auth.submitting_security_key_pin" false
       (Some (fido2_control "auth.submitting_security_key_pin"
                "auth.security_key_pin_failed" true)));
   ("account.cancel_fido2",
     mkSpec auth "auth.cancelling_security_key" false
       (Some (fido2_control "auth.cancelling_security_key"
                "auth.security_key_cancel_failed" false)));
   ("account.logout", mkSpec auth "auth.signing_out" false None);
   ("account.refresh", mkSpec auth "auth.loading_account" false None);
   ("connection.connect", mkSpec tunnel "tunnel.preparing_connection" true None);
   ("connection.disconnect", mkSpec tunnel "tunnel.disconnecting" false (Some connect_control));
   ("connection.cancel", mkSpec tunnel "tunnel.cancelling" false (Some connect_control));
   ("feature.set", mkSpec tunnel "settings.applying_feature" false None);
   ("protocol.set", mkSpec tunnel "settings.applying_protocol" false None);
   ("dns.set", mkSpec tunnel "settings.applying_dns" false None);
   ("split_tunneling.set", mkSpec tunnel "settings.applying_split_tunneling" false None);
   ("report_issue.submit", mkSpec support "support.submitting_report" false None);
   ("connection.feedback", mkSpec support "support.submitting_connection_feedback" false None);
   ("netshield.stats.get", mkSpec support "support.requesting_netshield_statistics" false None)].

Definition operation_spec (method : string) : option OperationSpec :=
  match find_first (fun e => String.eqb method e.1) operation_table with
  | Some e => Some e.2
  | None =>
      if is_store_write method
      then Some (mkSpec OperationDomain_Store "store.saving" false None)
      else None
  end.

Definition domains_conflict (left right : OperationDomain) : bool :=
  match left, right with
  | OperationDomain_Store, OperationDomain_Store => true
  | OperationDomain_Store, _ | _, OperationDomain_Store => false
  | OperationDomain_Support, OperationDomain_TunnelConfiguration
  | OperationDomain_TunnelConfiguration, OperationDomain_Support => false
  | OperationDomain_Support, OperationDomain_Support => true
  | OperationDomain_AuthSession, _ | _, OperationDomain_AuthSession => true
  | OperationDomain_TunnelConfiguration, OperationDomain_TunnelConfiguration => true
  end.

Definition requires_stable_session (method : string) : bool :=
  existsb (String.eqb method)
    ["account.upgrade_url"; "report_issue.categories.get"; "locations.get"; "servers.get";
     "servers.lookup"; "apps.get"; "connection.observe"; "traffic.get"].

Definition completion_stage (method : string) : string :=
  if existsb (String.eqb method)
       ["account.login"; "account.submit_2fa"; "account.authenticate_fido2"]
  then "auth.complete"
  else if String.eqb method "account.logout" then "auth.signed_out"
  else if String.eqb method "connection.connect" then "tunnel.connected"
  else if existsb (String.eqb method) ["connection.disconnect"; "connection.cancel"]
  then "tunnel.disconnected"
  else if String.eqb method "report_issue.submit" then "support.report_submitted"
  else if is_store_write method then "store.saved"
  else "settings.applied".

Definition failure_stage (method : string) : string :=
  if String.eqb method "account.login" then "auth.credentials_failed"
  else if String.eqb method "account.submit_2fa" then "auth.two_factor_failed"
  else if String.eqb method "account.authenticate_fido2" then "auth.security_key_failed"
  else if String.eqb method "account.logout" then "auth.logout_failed"
  else if String.eqb method "connection.connect" then "tunnel.connection_failed"
  else if existsb (String.eqb method) ["connection.disconnect"; "connection.cancel"]
  then "tunnel.disconnect_failed"
  else if String.eqb method "report_issue.submit" then "support.report_failed"
  else if is_store_write method then "store.save_failed"
  else "settings.apply_failed".

Definition cancelled_stage (method : string) : string :=
  if String.eqb method "account.authenticate_fido2" then "auth.security_key_cancelled"
  else "tunnel.cancelled".

Definition operation_error (error : BackendError) : OperationError :=
  mkOperationError error.(err_code) error.(err_details) error.(err_retryable).

Definition is_cancelled_error (code : string) : bool :=
  existsb (String.eqb code)
    ["cancelled"; "operation_cancelled"; "connection_cancelled"; "fido2_cancelled"].

(** ** Serialization of a record into the details of a conflict *)
Definition operation_error_to_value (e : OperationError) : json :=
  jobj ([("code", Str e.(oe_code)); ("retryable", Bool e.(oe_retryable))]
        ++ match e.(oe_details) with Some d => [("details", d)] | None => [] end).

Definition operation_record_to_value (o : OperationRecord) : json :=
  jobj [("id", Str o.(op_id));
        ("initiator_client_instance_id", Str o.(op_initiator_client_instance_id));
        ("domain", Str (OperationDomain_to_str o.(op_domain)));
        ("kind", Str o.(op_kind));
        ("state", Str (OperationStatus_to_str o.(op_state)));
        ("stage", Str o.(op_stage));
        ("started_at_unix_ms", jnum o.(op_started_at_unix_ms));
        ("updated_at_unix_ms", jnum o.(op_updated_at_unix_ms));
        ("finished_at_unix_ms", jopt jnum o.(op_finished_at_unix_ms));
        ("cancelable", Bool o.(op_cancelable));
        ("error", jopt operation_error_to_value o.(op_error))].

(** ** The coordinator's methods *)

(** Write stage, time, cancelability and error of an active record; everything else is kept. *)
Definition touch (stage : string) (now : Z) (cancelable : bool) (error : option OperationError)
    (o : OperationRecord) : OperationRecord :=
  mkOperationRecord o.(op_id) o.(op_initiator_client_instance_id) o.(op_domain) o.(op_kind)
    o.(op_state) stage o.(op_started_at_unix_ms) now o.(op_finished_at_unix_ms) cancelable error.

Definition publish (r : OperationRegistry) (c : Coordinator) : Coordinator :=
  let s := c.(snapshot) in
  mkCoordinator r
    (set_ss_revision (wrapping_add 64 s.(ss_revision) 1)
      (set_ss_operations (mkOperationState r.(active) r.(recent)) s)).

Definition with_active (l : list OperationRecord) (r : OperationRegistry) : OperationRegistry :=
  mkRegistry r.(next_id) l r.(recent).

Definition guard_read (method : string) (c : Coordinator) : result unit BackendError :=
  if negb (requires_stable_session method) then Ok tt
  else match find_first (fun o => bool_decide (o.(op_domain) = OperationDomain_AuthSession))
               c.(registry).(active) with
       | Some a =>
           Err (retryable true (with_details (jobj [("active_operation", operation_record_to_value a)])
                  (BackendError_new "operation_conflict"
                     "Authentication state is changing; retry this request afterwards")))
       | None => Ok tt
       end.

(** The active operation a control request takes over. *)
Definition is_control_target (spec : OperationSpec) (control : ControlSpec) (o : OperationRecord)
    : bool :=
  bool_decide (o.(op_domain) = spec.(spec_domain))
  && String.eqb o.(op_kind) control.(target_kind)
  && bool_decide (o.(op_state) = OperationStatus_Running).

Definition operation_id (n : Z) : string := "op-" +:+ hex_fmt 16 n.

Definition conflict_error (a : OperationRecord) : BackendError :=
  retryable true (with_details (jobj [("active_operation", operation_record_to_value a)])
    (BackendError_new "operation_conflict"
       "Another incompatible Proton VPN operation is already running")).

(** The part of [begin] after the control block: the conflict check and the new record. *)
Definition begin_fresh (now : Z) (client method : string) (spec : OperationSpec) (c : Coordinator)
    : result (option OperationLease) BackendError * Coordinator :=
  let r := c.(registry) in
  match find_first (fun a => domains_conflict spec.(spec_domain) a.(op_domain)) r.(active) with
  | Some a => (Err (conflict_error a), c)
  | None =>
      let id := operation_id r.(next_id) in
      let record := mkOperationRecord id client spec.(spec_domain) method OperationStatus_Running
                      spec.(spec_stage) now now None spec.(spec_cancelable) None in
      let r' := mkRegistry (wrapping_add 64 r.(next_id) 1) (r.(active) ++ [record]) r.(recent) in
      (Ok (Some (mkLease id true None false)), publish r' c)
  end.

Definition begin (now : Z) (client method : string) (c : Coordinator)
    : result (option OperationLease) BackendError * Coordinator :=
  match operation_spec method with
  | None =>
      match guard_read method c with
      | Ok _ => (Ok None, c)
      | Err e => (Err e, c)
      end
  | Some spec =>
      match spec.(spec_control) with
      | None => begin_fresh now client method spec c
      | Some control =>
          let r := c.(registry) in
          match find_first (is_control_target spec control) r.(active) with
          | Some a =>
              let r' := with_active
                (update_first (is_control_target spec control)
                   (touch control.(control_stage) now control.(control_cancelable) None)
                   r.(active)) r in
              (Ok (Some (mkLease a.(op_id) false (Some control.(failure_stage_of))
                           control.(failure_cancelable))),
               publish r' c)
          | None =>
              if control.(requires_target)
              then (Err (BackendError_new "operation_not_active"
                           "The operation controlled by this request is not active"), c)
              else begin_fresh now client method spec c
          end
      end
  end.

Definition has_id (id : string) (o : OperationRecord) : bool := String.eqb o.(op_id) id.

Definition cancellation_requested (o : OperationRecord) : bool :=
  existsb (String.eqb o.(op_stage)) ["tunnel.cancelling"; "auth.cancelling_security_key"].

(** The terminal record of a finished operation. *)
Definition finish_record (now : Z) (res : option BackendError) (o : OperationRecord)
    : OperationRecord :=
  let close state stage error :=
    mkOperationRecord o.(op_id) o.(op_initiator_client_instance_id) o.(op_domain) o.(op_kind)
      state stage o.(op_started_at_unix_ms) now (Some now) false error in
  match res with
  | None =>
      if cancellation_requested o
      then close OperationStatus_Cancelled (cancelled_stage o.(op_kind)) o.(op_error)
      else close OperationStatus_Succeeded (completion_stage o.(op_kind)) o.(op_error)
  | Some error =>
      if cancellation_requested o || is_cancelled_error error.(err_code)
      then close OperationStatus_Cancelled (cancelled_stage o.(op_kind)) None
      else close OperationStatus_Failed (failure_stage o.(op_kind)) (Some (operation_error error))
  end.

(** [finish]; [None] for [res] is [Ok(())]. *)
Definition finish (now : Z) (lease : option OperationLease) (res : option BackendError)
    (c : Coordinator) : Coordinator :=
  match lease with
  | None => c
  | Some lease =>
      let r := c.(registry) in
      if negb lease.(owns_completion) then
        match find_first (has_id lease.(lease_id)) r.(active), res with
        | Some _, Some error =>
            publish (with_active
              (update_first (has_id lease.(lease_id))
                 (touch (unwrap_or lease.(control_failure_stage) "operation.control_failed") now
                    lease.(control_failure_cancelable) (Some (operation_error error)))
                 r.(active)) r) c
        | _, _ => c
        end
      else
        match remove_first (has_id lease.(lease_id)) r.(active) with
        | None => c
        | Some (o, rest) =>
            publish (mkRegistry r.(next_id) rest
                       (take RECENT_OPERATION_LIMIT (finish_record now res o :: r.(recent)))) c
        end
  end.

(** Set the stage of the first running operation that satisfies [p]. *)
Definition set_stage (p : OperationRecord -> bool) (now : Z) (stage : string)
    (cancelable : option bool) (c : Coordinator) : Coordinator :=
  let r := c.(registry) in
  let running o := p o && bool_decide (o.(op_state) = OperationStatus_Running) in
  match find_first running r.(active) with
  | None => c
  | Some _ =>
      publish (with_active
        (update_first running
           (fun o => touch stage now (unwrap_or cancelable o.(op_cancelable)) o.(op_error) o)
           r.(active)) r) c
  end.

Definition update_stage (now : Z) (method stage : string) (cancelable : option bool)
    (c : Coordinator) : Coordinator :=
  if is_empty method || (128 <? str_len method) || is_empty stage || (128 <? str_len stage)
  then c
  else set_stage (fun o => String.eqb o.(op_kind) method) now stage cancelable c.

Definition update_domain_stage (now : Z) (domain : OperationDomain) (stage : string)
    (cancelable : option bool) (c : Coordinator) : Coordinator :=
  if is_empty stage || (128 <? str_len stage) then c
  else set_stage (fun o => bool_decide (o.(op_domain) = domain)) now stage cancelable c.

Definition connection_sequence_interrupted (s : StateSnapshot) (initial : gset string)
    (initiator : string) : bool :=
  existsb (fun o =>
    negb (bool_decide (o.(op_id) ∈ initial))
    && ((String.eqb o.(op_kind) "connection.connect"
         && (String.eqb o.(op_stage) "tunnel.cancelling"
             || bool_decide (o.(op_state) = OperationStatus_Cancelled)))
        || (negb (String.eqb o.(op_initiator_client_instance_id) initiator)
            && existsb (String.eqb o.(op_kind))
                 ["connection.connect"; "connection.cancel"; "connection.disconnect";
                  "account.logout"])))
    (s.(ss_operations).(os_active) ++ s.(ss_operations).(os_recent)).

(** * Facts *)

(** ** The scheduler's invariant *)

Definition compatible (a b : OperationRecord) : Prop :=
  domains_conflict a.(op_domain) b.(op_domain) = false.

Definition is_running (o : OperationRecord) : Prop :=
  o.(op_state) = OperationStatus_Running /\ o.(op_finished_at_unix_ms) = None.

Definition is_terminal (o : OperationRecord) : Prop :=
  o.(op_state) ∈ [OperationStatus_Succeeded; OperationStatus_Failed; OperationStatus_Cancelled]
  /\ is_Some o.(op_finished_at_unix_ms) /\ o.(op_cancelable) = false.

(** The record's domain is the one the method table gives its kind. *)
Definition well_filed (o : OperationRecord) : Prop :=
  spec_domain <$> operation_spec o.(op_kind) = Some o.(op_domain).

Record registry_ok (r : OperationRegistry) : Prop := {
  rok_compatible : ForallOrdPairs compatible r.(active);
  rok_running : Forall is_running r.(active);
  rok_filed : Forall well_filed r.(active);
  rok_terminal : Forall is_terminal r.(recent);
  rok_bounded : (length r.(recent) <= RECENT_OPERATION_LIMIT)%nat }.

(** What clients see is what the registry holds. *)
Definition published (c : Coordinator) : Prop :=
  c.(snapshot).(ss_operations) = mkOperationState c.(registry).(active) c.(registry).(recent).

Definition coordinator_ok (c : Coordinator) : Prop := registry_ok c.(registry) /\ published c.

(** One atomic section of any client, the worker, or another writer of the snapshot. *)
Inductive op_step : Coordinator -> Coordinator -> Prop :=
  | step_begin now client method c res c' :
      begin now client method c = (res, c') -> op_step c c'
  | step_finish now lease res c : op_step c (finish now lease res c)
  | step_stage now method stage cancelable c : op_step c (update_stage now method stage cancelable c)
  | step_domain_stage now domain stage cancelable c :
      op_step c (update_domain_stage now domain stage cancelable c)
  | step_other c s :
      s.(ss_operations) = c.(snapshot).(ss_operations) -> op_step c (mkCoordinator c.(registry) s).

(** ** Preservation *)

Lemma publish_registry r c : registry (publish r c) = r.
Proof. done. Qed.

Lemma publish_published r c : published (publish r c).
Proof. done. Qed.

Lemma domains_conflict_sym a b : domains_conflict a b = domains_conflict b a.
Proof. by destruct a, b. Qed.

(** [update_first] with a function that keeps domain, kind and state keeps the invariant. *)
Definition keeps_frame (f : OperationRecord -> OperationRecord) : Prop :=
  forall o, op_domain (f o) = op_domain o /\ op_kind (f o) = op_kind o
       /\ op_state (f o) = op_state o /\ op_id (f o) = op_id o
       /\ op_finished_at_unix_ms (f o) = op_finished_at_unix_ms o.

Lemma touch_keeps_frame (stage : OperationRecord -> string) now cancelable error :
  keeps_frame (fun o => touch (stage o) now (cancelable o) (error o) o).
Proof. by intros o. Qed.

Lemma ForallOrdPairs_map {A B} (R : B -> B -> Prop) (g : A -> B) l :
  ForallOrdPairs (fun x y => R (g x) (g y)) l <-> ForallOrdPairs R (map g l).
Proof.
  induction l as [|x l IH]; simpl; [split; constructor|].
  split; inversion 1 as [|?? Hx Hl]; subst; constructor;
    try (by apply IH); rewrite Forall_map in *; done.
Qed.

Lemma compatible_by_domain l :
  ForallOrdPairs compatible l
  <-> ForallOrdPairs (fun a b => domains_conflict a b = false) (map op_domain l).
Proof. apply (ForallOrdPairs_map (fun a b => domains_conflict a b = false) op_domain). Qed.

Lemma touch_registry_ok f p r :
  keeps_frame f -> registry_ok r -> registry_ok (with_active (update_first p f r.(active)) r).
Proof.
  intros Hf [H1 H2 H3 H4 H5]. split; simpl; try done.
  - apply compatible_by_domain. rewrite update_first_map by (intros o; apply Hf).
    by apply compatible_by_domain.
  - apply Forall_update_first; [|done]. intros o [? ?].
    destruct (Hf o) as (?&?&?&?&?). split; congruence.
  - apply Forall_update_first; [|done]. intros o Ho. unfold well_filed in *.
    destruct (Hf o) as (->&->&_). done.
Qed.

Lemma ForallOrdPairs_snoc {A} (R : A -> A -> Prop) l x :
  ForallOrdPairs R l -> Forall (fun y => R y x) l -> ForallOrdPairs R (l ++ [x]).
Proof.
  induction 1 as [|y l Hy Hl IH]; simpl; intros Hx; [repeat constructor|].
  inversion Hx; subst. constructor; [|auto]. apply Forall_app. by repeat constructor.
Qed.

Lemma ForallOrdPairs_remove {A} (R : A -> A -> Prop) l1 x l2 :
  ForallOrdPairs R (l1 ++ x :: l2) -> ForallOrdPairs R (l1 ++ l2).
Proof.
  induction l1 as [|y l1 IH]; simpl; inversion 1; subst; [done|].
  constructor; [|auto]. decompose_Forall_hyps. by apply Forall_app.
Qed.

Lemma begin_fresh_cases now client method spec c res c' :
  begin_fresh now client method spec c = (res, c') ->
  (exists a, a ∈ c.(registry).(active) /\ domains_conflict spec.(spec_domain) a.(op_domain) = true
      /\ res = Err (conflict_error a) /\ c' = c)
  \/ (Forall (fun a => domains_conflict spec.(spec_domain) a.(op_domain) = false)
        c.(registry).(active)
      /\ exists o, res = Ok (Some (mkLease o.(op_id) true None false))
         /\ o.(op_id) = operation_id c.(registry).(next_id)
         /\ op_initiator_client_instance_id o = client
         /\ op_domain o = spec.(spec_domain) /\ op_kind o = method
         /\ op_stage o = spec.(spec_stage) /\ is_running o
         /\ c' = publish (mkRegistry (wrapping_add 64 c.(registry).(next_id) 1)
                            (c.(registry).(active) ++ [o]) c.(registry).(recent)) c).
Proof.
  unfold begin_fresh. destruct (find_first _ _) as [a|] eqn:E; intros [= <- <-].
  - left. apply find_first_Some in E as [? ?]. eauto.
  - right. apply find_first_None in E. split; [done|]. eexists. repeat split; reflexivity.
Qed.

Lemma begin_fresh_ok now client method spec c res c' :
  operation_spec method = Some spec ->
  begin_fresh now client method spec c = (res, c') -> coordinator_ok c -> coordinator_ok c'.
Proof.
  intros Hs Hb [[H1 H2 H3 H4 H5] Hp].
  apply begin_fresh_cases in Hb as [(a & _ & _ & _ & ->) | (Hf & o & _ & _ & _ & Hd & Hk & _ & Hr & ->)];
    [done|].
  split; [|done]. split; simpl; [| | |done|done].
  - apply ForallOrdPairs_snoc; [done|]. eapply Forall_impl; [exact Hf|]. simpl. intros b Hb.
    unfold compatible. rewrite Hd, domains_conflict_sym. done.
  - apply Forall_app. split; [done|]. by constructor.
  - apply Forall_app. split; [done|]. constructor; [|done]. unfold well_filed. by rewrite Hk, Hs, Hd.
Qed.

Lemma begin_ok now client method c res c' :
  begin now client method c = (res, c') -> coordinator_ok c -> coordinator_ok c'.
Proof.
  unfold begin. destruct (operation_spec method) as [spec|] eqn:Hs.
  - destruct (spec_control spec) as [control|]; [|by apply begin_fresh_ok].
    destruct (find_first _ _) as [a|].
    + intros [= <- <-] [? ?]. split; [|done].
      by apply touch_registry_ok; [apply (touch_keeps_frame (fun _ => _) _ (fun _ => _) (fun _ => _))|].
    + destruct (requires_target control); [by intros [= <- <-]|]. by apply begin_fresh_ok.
  - destruct (guard_read method c); by intros [= <- <-].
Qed.

Lemma finish_record_terminal now res o : is_terminal (finish_record now res o).
Proof.
  unfold finish_record, is_terminal. destruct res as [e|].
  - destruct (_ || _); simpl; repeat split; set_solver.
  - destruct (cancellation_requested o); simpl; repeat split; set_solver.
Qed.

Lemma finish_ok now lease res c : coordinator_ok c -> coordinator_ok (finish now lease res c).
Proof.
  intros [Hr Hp]. unfold finish. destruct lease as [l|]; [|done].
  destruct (owns_completion l); simpl.
  - destruct (remove_first _ _) as [[o rest]|] eqn:E; [|done].
    apply remove_first_Some in E as (_ & l1 & l2 & Ha & ->).
    destruct Hr as [H1 H2 H3 H4 H5]. rewrite Ha in H1, H2, H3. split; [|done].
    split; cbn [publish registry active recent]; [by eapply ForallOrdPairs_remove| | | |].
    + decompose_Forall_hyps. by apply Forall_app.
    + decompose_Forall_hyps. by apply Forall_app.
    + constructor; [apply finish_record_terminal|]. by apply Forall_take.
    + apply (firstn_le_length RECENT_OPERATION_LIMIT (_ :: _)).
  - destruct (find_first _ _), res; try done. split; [|done].
    by apply touch_registry_ok; [apply (touch_keeps_frame (fun _ => _) _ (fun _ => _) (fun _ => _))|].
Qed.

Lemma set_stage_ok p now stage cancelable c :
  coordinator_ok c -> coordinator_ok (set_stage p now stage cancelable c).
Proof.
  intros [Hr Hp]. unfold set_stage. destruct (find_first _ _); [|done]. split; [|done].
  apply touch_registry_ok; [|done].
  apply (touch_keeps_frame (fun _ => stage) now (fun o => unwrap_or cancelable o.(op_cancelable)) op_error).
Qed.

Lemma op_step_ok c c' : op_step c c' -> coordinator_ok c -> coordinator_ok c'.
Proof.
  destruct 1 as [now client method c res c' Hb|now lease res c|now m st ca c|now d st ca c|c s Hs].
  - by eapply begin_ok.
  - apply finish_ok.
  - unfold update_stage. destruct (_ || _ || _ || _); [done|]. apply set_stage_ok.
  - unfold update_domain_stage. destruct (_ || _); [done|]. apply set_stage_ok.
  - intros [? Hp]. split; [done|]. unfold published in *. simpl. congruence.
Qed.

#[export] Hint Resolve begin_ok finish_ok set_stage_ok op_step_ok : rust.

Lemma initial_ok s :
  s.(ss_operations) = mkOperationState [] [] -> coordinator_ok (OperationCoordinator_new s).
Proof. intros Hs. split; [|done]. split; simpl; try constructor. lia. Qed.

Lemma reachable_ok s c :
  s.(ss_operations) = mkOperationState [] [] ->
  rtc op_step (OperationCoordinator_new s) c -> coordinator_ok c.
Proof. intros Hs. apply rtc_invariant; eauto using initial_ok with rust. Qed.

(** ** Identifiers *)

Definition issued (bound : Z) (o : OperationRecord) : Prop :=
  exists n, o.(op_id) = operation_id n /\ 1 <= n < bound.

Definition journal (c : Coordinator) : list OperationRecord :=
  c.(registry).(active) ++ c.(registry).(recent).

Record ids_ok (c : Coordinator) : Prop := {
  ids_next : 1 <= c.(registry).(next_id);
  ids_issued : Forall (issued c.(registry).(next_id)) (journal c);
  ids_nodup : NoDup (map op_id (journal c)) }.

Lemma operation_id_inj n m : 0 <= n -> 0 <= m -> operation_id n = operation_id m -> n = m.
Proof. intros Hn Hm H%append_inj_l. by eapply hex_fmt_inj. Qed.

Lemma issued_mono b b' o : b <= b' -> issued b o -> issued b' o.
Proof. intros Hb (n & ? & ?). exists n. split; [done|lia]. Qed.

Lemma fresh_id c : ids_ok c -> operation_id c.(registry).(next_id) ∉ map op_id (journal c).
Proof.
  intros [Hn Hi _] ([id] & Hid & Ho)%list_elem_of_fmap.
  rewrite Forall_forall in Hi. apply Hi in Ho as (n & Hid' & ?).
  rewrite Hid' in Hid. apply operation_id_inj in Hid; lia.
Qed.

Lemma touch_ids_ok f p c :
  keeps_frame f -> ids_ok c ->
  ids_ok (publish (with_active (update_first p f c.(registry).(active)) c.(registry)) c).
Proof.
  intros Hf [H1 H2 H3].
  assert (map op_id (update_first p f c.(registry).(active)) = map op_id c.(registry).(active)) as Hm
    by (apply update_first_map; intros o; apply Hf).
  unfold journal in *. apply Forall_app in H2 as [Ha Hr].
  split; [done| |]; unfold journal; cbn [publish registry with_active active recent next_id].
  - apply Forall_app. split; [|done]. apply Forall_update_first; [|done].
    intros o (n & Hn). exists n. destruct (Hf o) as (_&_&_&->&_). done.
  - rewrite map_app, Hm, <- map_app. done.
Qed.

Lemma NoDup_insert_middle {A} (l : list A) x l' :
  x ∉ l ++ l' -> NoDup (l ++ l') -> NoDup ((l ++ [x]) ++ l').
Proof.
  intros Hx Hl. assert ((l ++ [x]) ++ l' ≡ₚ x :: (l ++ l')) as -> by solve_Permutation.
  by constructor.
Qed.

Lemma begin_fresh_ids_ok now client method spec c res c' :
  begin_fresh now client method spec c = (res, c') -> c.(registry).(next_id) + 1 < 2 ^ 64 ->
  ids_ok c -> ids_ok c' /\ c'.(registry).(next_id) <= c.(registry).(next_id) + 1.
Proof.
  intros Hb Hw Hids. pose proof Hids as [H1 H2 H3].
  apply begin_fresh_cases in Hb
    as [(a & _ & _ & _ & ->) | (Hf & o & _ & Hid & _ & _ & _ & _ & _ & ->)];
    [split; [done|lia]|].
  assert (wrapping_add 64 (next_id (registry c)) 1 = next_id (registry c) + 1) as E
    by (apply Z.mod_small; lia).
  split; cbn [publish registry next_id]; [|lia].
  split; unfold journal; cbn [publish registry next_id active recent]; rewrite ?E; [lia| |].
  - apply Forall_app in H2 as [Ha Hr]. apply Forall_app; split; [apply Forall_app; split|].
    + eapply Forall_impl; [exact Ha|]. intros x. apply issued_mono. lia.
    + constructor; [|done]. exists (next_id (registry c)). split; [done|lia].
    + eapply Forall_impl; [exact Hr|]. intros x. apply issued_mono. lia.
  - pose proof (fresh_id c Hids) as Hfresh. rewrite <- Hid in Hfresh. unfold journal in *.
    rewrite !map_app in *. simpl. by apply NoDup_insert_middle.
Qed.

(** [begin] of a control request whose target is active. *)
Lemma begin_control now client method c spec control a :
  operation_spec method = Some spec -> spec.(spec_control) = Some control ->
  find_first (is_control_target spec control) c.(registry).(active) = Some a ->
  begin now client method c =
    (Ok (Some (mkLease a.(op_id) false (Some control.(failure_stage_of))
                 control.(failure_cancelable))),
     publish (with_active
       (update_first (is_control_target spec control)
          (touch control.(control_stage) now control.(control_cancelable) None)
          c.(registry).(active)) c.(registry)) c).
Proof. intros Hs Hc Hf. unfold begin. by rewrite Hs, Hc, Hf. Qed.

Lemma begin_ids_ok now client method c res c' :
  begin now client method c = (res, c') -> c.(registry).(next_id) + 1 < 2 ^ 64 ->
  ids_ok c -> ids_ok c' /\ c'.(registry).(next_id) <= c.(registry).(next_id) + 1.
Proof.
  intros Hb Hw Hids. revert Hb. unfold begin. destruct (operation_spec method) as [spec|].
  - destruct (spec_control spec) as [control|].
    + destruct (find_first _ _) as [a|].
      * intros [= <- <-]. split; [|simpl; lia].
        by apply touch_ids_ok; [apply (touch_keeps_frame (fun _ => _) _ (fun _ => _) (fun _ => _))|].
      * destruct (requires_target control); [intros [= <- <-]; split; [done|lia]|].
        intros Hb. by eapply begin_fresh_ids_ok.
    + intros Hb. by eapply begin_fresh_ids_ok.
  - destruct (guard_read method c); intros [= <- <-]; split; done || lia.
Qed.

Lemma finish_record_id now res o : op_id (finish_record now res o) = op_id o.
Proof. unfold finish_record. repeat split_match; done. Qed.

Lemma finish_ids_ok now lease res c : ids_ok c -> ids_ok (finish now lease res c).
Proof.
  intros Hids. unfold finish. destruct lease as [l|]; [|done].
  destruct (owns_completion l); simpl.
  - destruct (remove_first _ _) as [[o rest]|] eqn:E; [|done].
    apply remove_first_Some in E as (_ & l1 & l2 & Ha & ->).
    destruct Hids as [H1 H2 H3]. unfold journal in *. rewrite Ha in H2, H3.
    assert (forall P, Forall P (l1 ++ o :: l2 ++ recent (registry c)) ->
              (P o -> P (finish_record now res o)) ->
              Forall P ((l1 ++ l2) ++ finish_record now res o :: recent (registry c))) as Hmove.
    { intros P. rewrite !Forall_app, !Forall_cons, Forall_app. tauto. }
    split; [done| |]; unfold journal; cbn [publish registry active recent next_id].
    + assert (Forall (issued (next_id (registry c)))
                ((l1 ++ l2) ++ finish_record now res o :: recent (registry c))) as Hall.
      { apply Hmove; [by rewrite <- app_assoc in H2|].
        intros (n & Hn). exists n. by rewrite finish_record_id. }
      apply Forall_app in Hall as [? ?]. apply Forall_app. split; [done|].
      by apply (Forall_take _ RECENT_OPERATION_LIMIT (_ :: _)).
    + eapply sublist_NoDup.
      2: { rewrite map_app. apply sublist_app; [done|]. apply (fmap_sublist op_id).
           apply (sublist_take (_ :: _) RECENT_OPERATION_LIMIT). }
      assert (map op_id (l1 ++ l2) ++ map op_id (finish_record now res o :: recent (registry c))
              ≡ₚ map op_id ((l1 ++ o :: l2) ++ recent (registry c))) as ->; [|done].
      rewrite !map_app. simpl. rewrite finish_record_id. solve_Permutation.
  - destruct (find_first _ _), res; try done.
    by apply touch_ids_ok; [apply (touch_keeps_frame (fun _ => _) _ (fun _ => _) (fun _ => _))|].
Qed.

Lemma finish_next_id now lease res c : next_id (registry (finish now lease res c)) = next_id (registry c).
Proof. unfold finish. repeat split_match; done. Qed.

Lemma set_stage_ids_ok p now stage cancelable c :
  ids_ok c ->
  ids_ok (set_stage p now stage cancelable c)
  /\ next_id (registry (set_stage p now stage cancelable c)) = next_id (registry c).
Proof.
  intros Hids. unfold set_stage. destruct (find_first _ _); [|done]. split; [|done].
  apply touch_ids_ok; [|done].
  apply (touch_keeps_frame (fun _ => stage) now (fun o => unwrap_or cancelable o.(op_cancelable)) op_error).
Qed.

Lemma op_step_ids c c' :
  op_step c c' -> c.(registry).(next_id) + 1 < 2 ^ 64 -> ids_ok c ->
  ids_ok c' /\ c'.(registry).(next_id) <= c.(registry).(next_id) + 1.
Proof.
  intros Hstep Hw Hids.
  destruct Hstep as [now client method c res c' Hb|now lease res c|now m st ca c|now d st ca c|c s Hs].
  - by eapply begin_ids_ok.
  - split; [by apply finish_ids_ok|]. rewrite finish_next_id. lia.
  - unfold update_stage. destruct (_ || _ || _ || _); [split; [done|lia]|].
    edestruct set_stage_ids_ok as [? ->]; [done|]. split; [done|lia].
  - unfold update_domain_stage. destruct (_ || _); [split; [done|lia]|].
    edestruct set_stage_ids_ok as [? ->]; [done|]. split; [done|lia].
  - simpl. split; [|lia]. destruct Hids as [H1 H2 H3]. by split.
Qed.

Lemma nsteps_ids n s c :
  Z.of_nat n < 2 ^ 64 - 2 -> nsteps op_step n (OperationCoordinator_new s) c ->
  ids_ok c /\ c.(registry).(next_id) <= 1 + Z.of_nat n.
Proof.
  intros Hn. apply (nsteps_invariant op_step (fun k c =>
    ids_ok c /\ c.(registry).(next_id) <= 1 + Z.of_nat k)).
  - intros k a b Hk Hstep [Hids Hle]. eapply op_step_ids in Hstep as [??]; [|lia|done].
    split; [done|lia].
  - split; [|simpl; lia]. split; simpl; [lia|constructor|constructor].
Qed.

(** ** Mutual exclusion *)

Lemma ForallOrdPairs_lookup {A} (R : A -> A -> Prop) l i j x y :
  ForallOrdPairs R l -> (i < j)%nat -> l !! i = Some x -> l !! j = Some y -> R x y.
Proof.
  intros H. revert i j. induction H as [|z l Hz Hl IH]; intros i j Hij Hi Hj; [done|].
  destruct i, j; simpl in *; try lia; simplify_eq; [|by eapply (IH i j); try lia].
  by eapply Forall_lookup_1 in Hz.
Qed.

(** The four domains bound the number of pairwise compatible operations. *)
Lemma compatible_at_most_three l : ForallOrdPairs compatible l -> (length l <= 3)%nat.
Proof.
  intros H. apply compatible_by_domain in H. rewrite <- (length_map op_domain).
  revert H. generalize (map op_domain l). intros d Hd.
  destruct d as [|a [|b [|x [|y d]]]]; simpl; try lia. exfalso.
  assert (forall i j u v, (i < j)%nat -> (a :: b :: x :: y :: d) !! i = Some u ->
            (a :: b :: x :: y :: d) !! j = Some v -> domains_conflict u v = false) as Hc
    by (intros i j u v; apply (ForallOrdPairs_lookup _ _ i j u v Hd)).
  assert (domains_conflict a b = false /\ domains_conflict a x = false
          /\ domains_conflict a y = false /\ domains_conflict b x = false
          /\ domains_conflict b y = false /\ domains_conflict x y = false) as Hall.
  { split_and!; [apply (Hc 0%nat 1%nat)|apply (Hc 0%nat 2%nat)|apply (Hc 0%nat 3%nat)
                |apply (Hc 1%nat 2%nat)|apply (Hc 1%nat 3%nat)|apply (Hc 2%nat 3%nat)];
      done || lia. }
  clear Hc Hd. destruct a, b, x, y; simpl in Hall; intuition discriminate.
Qed.

(** C8: In every state the agent can reach, at most three operations are active; two active
    operations never have the same domain; while an authentication operation is active every other
    active operation is a store write; each active record is running and each recent record has
    finished; the journal holds at most 16 records; and the published snapshot shows exactly the
    registry. *)
Theorem scheduler_safety s c :
  s.(ss_operations) = mkOperationState [] [] ->
  rtc op_step (OperationCoordinator_new s) c ->
  let a := c.(registry).(active) in
  let r := c.(registry).(recent) in
  (length a <= 3)%nat
  /\ (forall i j x y, (i < j)%nat -> a !! i = Some x -> a !! j = Some y ->
        op_domain x <> op_domain y
        /\ (op_domain x = OperationDomain_AuthSession -> op_domain y = OperationDomain_Store)
        /\ (op_domain y = OperationDomain_AuthSession -> op_domain x = OperationDomain_Store))
  /\ Forall is_running a /\ Forall is_terminal r
  /\ (length r <= RECENT_OPERATION_LIMIT)%nat
  /\ c.(snapshot).(ss_operations) = mkOperationState a r.
Proof.
  intros Hs Hc a r. apply reachable_ok in Hc as [[H1 H2 H3 H4 H5] Hp]; [|done].
  split; [exact (compatible_at_most_three _ H1)|]. split; [|by split_and!].
  intros i j x y Hij Hi Hj. pose proof (ForallOrdPairs_lookup _ _ _ _ _ _ H1 Hij Hi Hj) as Hxy.
  unfold compatible in Hxy. destruct (op_domain x), (op_domain y); done.
Qed.

(** Operation ids never repeat: after fewer than 2^64 - 2 atomic sections, all the records of the
    journal, active and recent, carry distinct ids, each one issued by the counter before its current
    value. *)
Theorem operation_ids_unique n s c :
  Z.of_nat n < 2 ^ 64 - 2 -> nsteps op_step n (OperationCoordinator_new s) c ->
  NoDup (map op_id (journal c)) /\ Forall (issued c.(registry).(next_id)) (journal c).
Proof. intros Hn Hc. by destruct (nsteps_ids n s c Hn Hc) as [[_ ? ?] _]. Qed.

Lemma operation_ids_unique_witness :
  exists c, NoDup (map op_id (journal c)) /\ length (journal c) = 1%nat.
Proof.
  eexists (snd (begin 5 "ui" "account.login" (OperationCoordinator_new StateSnapshot_default))).
  split; [|vm_compute; reflexivity].
  refine (proj1 (operation_ids_unique 1 StateSnapshot_default _ _ _)); [lia|].
  eapply nsteps_l; [|apply nsteps_O]. eapply step_begin. apply surjective_pairing.
Defined.

Lemma scheduler_safety_witness :
  exists c, (length c.(registry).(active) = 2)%nat /\ Forall is_running c.(registry).(active).
Proof.
  set (c1 := snd (begin 5 "ui" "connection.connect" (OperationCoordinator_new StateSnapshot_default))).
  exists (snd (begin 6 "ui" "report_issue.submit" c1)). split; [vm_compute; reflexivity|].
  refine (proj1 (proj2 (proj2 (scheduler_safety StateSnapshot_default _ _ _)))); [reflexivity|].
  eapply rtc_l; [eapply step_begin, surjective_pairing|]. fold c1.
  eapply rtc_l; [eapply step_begin, surjective_pairing|]. apply rtc_refl.
Defined.

(** ** Admission *)

(** The requests that start an operation of their own: no control block, or one without a target
    that may run on its own. *)
Definition starts_fresh (method : string) (spec : OperationSpec) (c : Coordinator) : Prop :=
  operation_spec method = Some spec
  /\ match spec.(spec_control) with
     | None => True
     | Some control =>
         requires_target control = false
         /\ find_first (is_control_target spec control) c.(registry).(active) = None
     end.

Lemma begin_starts_fresh now client method spec c :
  starts_fresh method spec c -> begin now client method c = begin_fresh now client method spec c.
Proof.
  intros [Hs Hc]. unfold begin. rewrite Hs. destruct (spec_control spec); [|done].
  by destruct Hc as [-> ->].
Qed.

(** A request that starts its own operation is admitted exactly when no active operation is
    incompatible with it: then the operation is appended as running with the caller as initiator and
    the method's first stage, and the caller receives the owning lease on it; otherwise nothing
    changes and the caller gets a retryable [operation_conflict] that names an incompatible active
    operation. *)
Theorem begin_admission now client method spec c :
  starts_fresh method spec c ->
  let a := c.(registry).(active) in
  let '(res, c') := begin now client method c in
  if forallb (fun o => negb (domains_conflict spec.(spec_domain) o.(op_domain))) a
  then exists o, c'.(registry).(active) = a ++ [o]
         /\ c'.(registry).(recent) = c.(registry).(recent)
         /\ res = Ok (Some (mkLease o.(op_id) true None false))
         /\ op_kind o = method /\ op_domain o = spec.(spec_domain)
         /\ op_initiator_client_instance_id o = client
         /\ op_stage o = spec.(spec_stage) /\ is_running o
  else c' = c /\ exists o e, o ∈ a /\ domains_conflict spec.(spec_domain) o.(op_domain) = true
         /\ res = Err e /\ e.(err_code) = "operation_conflict" /\ e.(err_retryable) = true
         /\ e.(err_details) = Some (jobj [("active_operation", operation_record_to_value o)]).
Proof.
  intros Hfresh a. rewrite (begin_starts_fresh _ _ _ _ _ Hfresh).
  destruct (begin_fresh now client method spec c) as [res c'] eqn:Hb.
  apply begin_fresh_cases in Hb
    as [(o & Ho & Hd & -> & ->) | (Hf & o & -> & Hid & Hc & Hd & Hk & Hst & Hr & ->)].
  - destruct (forallb _ a) eqn:E.
    + rewrite forallb_forall in E. apply list_elem_of_In, E in Ho. by rewrite Hd in Ho.
    + split; [done|]. by exists o, (conflict_error o).
  - destruct (forallb _ a) eqn:E; [by exists o|].
    assert (forallb (fun o => negb (domains_conflict (spec_domain spec) (op_domain o))) a = true);
      [|congruence].
    apply forallb_forall. intros x Hx%list_elem_of_In. rewrite Forall_forall in Hf.
    by rewrite (Hf x Hx).
Qed.

Lemma begin_admission_witness :
  let c := OperationCoordinator_new StateSnapshot_default in
  exists spec, starts_fresh "connection.connect" spec c
    /\ (exists o, (snd (begin 7 "ui" "connection.connect" c)).(registry).(active) = [o]).
Proof.
  eexists. split; [split; [reflexivity|exact I]|].
  pose proof (begin_admission 7 "ui" "connection.connect" _
    (OperationCoordinator_new StateSnapshot_default) (conj eq_refl I)) as H.
  cbv zeta in H. destruct (begin _ _ _ _) as [res c'].
  destruct H as (o & Ho & _). by exists o.
Defined.

(** ** Finishing and cancelling *)

Lemma ids_elem_unique l x y :
  NoDup (map op_id l) -> x ∈ l -> y ∈ l -> op_id x = op_id y -> x = y.
Proof.
  intros Hnd (i & Hi)%list_elem_of_lookup (j & Hj)%list_elem_of_lookup Hid.
  assert (i = j) as ->; [|congruence].
  eapply (NoDup_lookup (map op_id l)); [done| |].
  - change (map op_id l) with (op_id <$> l). by rewrite list_lookup_fmap, Hi.
  - change (map op_id l) with (op_id <$> l). rewrite list_lookup_fmap, Hj, Hid. done.
Qed.

Lemma remove_first_by_id l o :
  NoDup (map op_id l) -> o ∈ l -> exists rest, remove_first (has_id (op_id o)) l = Some (o, rest).
Proof.
  intros Hnd Ho. destruct (remove_first (has_id (op_id o)) l) as [[x rest]|] eqn:E.
  - pose proof E as (Hx & l1 & l2 & -> & ->)%remove_first_Some. exists (l1 ++ l2).
    unfold has_id in Hx. bool_prop.
    rewrite (ids_elem_unique (l1 ++ x :: l2) x o); try done.
    apply elem_of_app. right. left.
  - apply remove_first_None in E. rewrite Forall_forall in E. apply E in Ho.
    unfold has_id in Ho. by rewrite String.eqb_refl in Ho.
Qed.

Lemma ids_ok_active c : ids_ok c -> NoDup (map op_id c.(registry).(active)).
Proof.
  intros [_ _ H]. unfold journal in H. rewrite map_app in H. by apply NoDup_app in H as (? & _).
Qed.

(** The status a result gives, when no cancellation was requested. *)
Definition outcome (res : option BackendError) : OperationStatus :=
  match res with
  | None => OperationStatus_Succeeded
  | Some e => if is_cancelled_error e.(err_code) then OperationStatus_Cancelled
              else OperationStatus_Failed
  end.

(** Finishing with the owning lease of an active operation removes exactly that operation from
    the active list and puts its terminal record at the head of the journal: cancelled if a
    cancellation had been requested or the error is a cancellation, failed with the error for any
    other error, succeeded otherwise. *)
Theorem finish_closes now lease res c o :
  ids_ok c -> o ∈ c.(registry).(active) -> lease.(lease_id) = op_id o ->
  lease.(owns_completion) = true ->
  let c' := finish now (Some lease) res c in
  exists l1 l2 o', c.(registry).(active) = l1 ++ o :: l2
    /\ c'.(registry).(active) = l1 ++ l2
    /\ c'.(registry).(recent) = take RECENT_OPERATION_LIMIT (o' :: c.(registry).(recent))
    /\ published c'
    /\ op_id o' = op_id o /\ is_terminal o' /\ op_finished_at_unix_ms o' = Some now
    /\ op_state o' = (if cancellation_requested o then OperationStatus_Cancelled else outcome res)
    /\ (op_state o' = OperationStatus_Failed -> op_error o' = operation_error <$> res).
Proof.
  intros Hids Ho Hlease Hown c'.
  destruct (remove_first_by_id _ o (ids_ok_active c Hids) Ho) as [rest Hrest].
  pose proof Hrest as (_ & l1 & l2 & Ha & ->)%remove_first_Some.
  exists l1, l2, (finish_record now res o).
  unfold c', finish. rewrite Hown, Hlease. simpl negb. cbv iota. rewrite Hrest.
  cbn [publish registry active recent].
  split_and!; [done..|by rewrite finish_record_id|apply finish_record_terminal| | |];
    unfold finish_record, outcome; destruct res as [e|];
    destruct (cancellation_requested o); simpl; repeat split_match; simpl; done.
Qed.

(** A coordinator with one running connection, used by the witnesses. *)
Definition connecting_example : Coordinator :=
  snd (begin 5 "ui" "connection.connect" (OperationCoordinator_new StateSnapshot_default)).

Lemma connecting_example_ids : ids_ok connecting_example.
Proof.
  refine (proj1 (nsteps_ids 1 StateSnapshot_default _ _ _)); [lia|].
  eapply nsteps_l; [|apply nsteps_O]. eapply step_begin. apply surjective_pairing.
Qed.

Lemma connecting_example_ok : coordinator_ok connecting_example.
Proof.
  apply (reachable_ok StateSnapshot_default); [done|].
  eapply rtc_l; [eapply step_begin, surjective_pairing|]. apply rtc_refl.
Qed.

Lemma finish_closes_witness :
  exists o, active (registry connecting_example) = [o]
    /\ exists l1 l2 o', [o] = l1 ++ o :: l2 /\ op_state o' = OperationStatus_Succeeded.
Proof.
  eexists. split; [reflexivity|].
  destruct (finish_closes 9 (mkLease (operation_id 1) true None false) None connecting_example
    (mkOperationRecord (operation_id 1) "ui" OperationDomain_TunnelConfiguration
       "connection.connect" OperationStatus_Running "tunnel.preparing_connection" 5 5 None true None))
    as (l1 & l2 & o' & H1 & _ & _ & _ & _ & _ & _ & H2 & _);
    [apply connecting_example_ids|vm_compute; left|reflexivity|reflexivity|].
  exists l1, l2, o'. split; [exact H1|exact H2].
Defined.

(** The connection a cancel or disconnect request controls is the only one. *)
Lemma control_target_unique spec control c o :
  coordinator_ok c -> o ∈ c.(registry).(active) -> is_control_target spec control o = true ->
  domains_conflict spec.(spec_domain) spec.(spec_domain) = true ->
  find_first (is_control_target spec control) c.(registry).(active) = Some o.
Proof.
  intros [[Hc _ _ _ _] _] Ho Ht Hd. unfold is_control_target in *.
  destruct (find_first _ _) as [a|] eqn:E.
  - apply find_first_Some in E as [Ha Hta]. bool_prop.
    destruct (ForallOrdPairs_In Hc a o) as [->|[Hao|Hao]]; try (by apply list_elem_of_In); [done|..];
      unfold compatible in Hao; congruence.
  - apply find_first_None in E. rewrite Forall_forall in E. apply E in Ho. congruence.
Qed.

Lemma update_first_elem (p : OperationRecord -> bool) f l o :
  find_first p l = Some o -> f o ∈ update_first p f l.
Proof.
  induction l as [|y l IH]; simpl; [done|].
  destruct (p y); [intros [= ->]; left|]. intros H. right. auto.
Qed.

(** *** What may happen while the attempt runs *)

(** The atomic sections of the agent as values, so that a sequence of them can be named. *)
Inductive op_action : Type :=
  | ActBegin (now : Z) (client method : string)
  | ActFinish (now : Z) (lease : option OperationLease) (res : option BackendError)
  | ActStage (now : Z) (method stage : string) (cancelable : option bool)
  | ActDomainStage (now : Z) (domain : OperationDomain) (stage : string) (cancelable : option bool)
  | ActPublish (f : StateSnapshot -> StateSnapshot).

Definition run_action (a : op_action) (c : Coordinator) : Coordinator :=
  match a with
  | ActBegin now client method => (begin now client method c).2
  | ActFinish now lease res => finish now lease res c
  | ActStage now method stage cancelable => update_stage now method stage cancelable c
  | ActDomainStage now domain stage cancelable => update_domain_stage now domain stage cancelable c
  | ActPublish f => mkCoordinator c.(registry) (set_ss_operations c.(snapshot).(ss_operations) (f c.(snapshot)))
  end.
Definition run_actions (l : list op_action) (c : Coordinator) : Coordinator := foldl (fun c a => run_action a c) c l.

Lemma run_action_step a c : op_step c (run_action a c).
Proof.
  destruct a; cbn; [|constructor..|].
  - eapply step_begin, surjective_pairing.
  - apply step_other. by destruct (f _).
Qed.

(** The owner of [id] has not returned yet. *)
Definition spares (id : string) (a : op_action) : Prop :=
  match a with ActFinish _ (Some l) _ => l.(owns_completion) = true -> l.(lease_id) <> id | _ => True end.
(** Nobody reports another stage for the connection [id], and no request that controls it has failed. *)
Definition quiet (id : string) (a : op_action) : Prop :=
  match a with
  | ActStage _ method stage _ => method = "connection.connect" -> stage = "tunnel.cancelling"
  | ActDomainStage _ domain stage _ => domain = OperationDomain_TunnelConfiguration -> stage = "tunnel.cancelling"
  | ActFinish _ (Some l) (Some _) => l.(owns_completion) = false -> l.(lease_id) <> id
  | _ => True
  end.

(** The connection [id] is active; [marked]: its cancellation is on record. *)
Definition connecting (id : string) (marked : Prop) (c : Coordinator) : Prop :=
  exists o, o ∈ c.(registry).(active) /\ op_id o = id /\ op_kind o = "connection.connect" /\
    (marked -> op_stage o = "tunnel.cancelling").

Lemma update_first_cases (p : OperationRecord -> bool) f l o :
  o ∈ l -> o ∈ update_first p f l \/ (p o = true /\ f o ∈ update_first p f l).
Proof.
  induction l as [|y l IH]; [by intros H%elem_of_nil|]. intros [->|Ho]%elem_of_cons; simpl.
  - destruct (p y) eqn:E; [right; split; [done|left]|left; left].
  - destruct (p y); [left; by right|]. destruct (IH Ho) as [?|[? ?]]; [left; by right|right; split; [done|by right]].
Qed.

Lemma touched_connecting id marked p stage cancelable error now c :
  (forall o, marked -> o ∈ c.(registry).(active) -> op_id o = id -> op_kind o = "connection.connect" -> p o = true -> stage = "tunnel.cancelling") ->
  connecting id marked c ->
  connecting id marked (publish (with_active
    (update_first p (fun o => touch stage now (cancelable o) (error o) o) c.(registry).(active)) c.(registry)) c).
Proof.
  intros Hp (o & Ho & Hid & Hk & Hs).
  destruct (update_first_cases p (fun o => touch stage now (cancelable o) (error o) o) _ o Ho) as [Hin|[Hpo Hin]];
    [by exists o|].
  eexists. split; [exact Hin|]. split; [done|]. split; [done|]. intros Hm. cbn. by apply (Hp o).
Qed.

Lemma set_stage_connecting id marked p now stage cancelable c :
  (forall o, marked -> o ∈ c.(registry).(active) -> op_id o = id -> op_kind o = "connection.connect" -> p o = true -> stage = "tunnel.cancelling") ->
  connecting id marked c -> connecting id marked (set_stage p now stage cancelable c).
Proof.
  intros Hp Hc. unfold set_stage. destruct (find_first _ _); [|done].
  apply (touched_connecting id marked _ stage (fun o => unwrap_or cancelable o.(op_cancelable)) op_error); [|done].
  intros o' Hm Ho' Hid' Hk Hpo. cbn beta in Hpo. apply andb_true_iff in Hpo as [Hpo _]. by apply (Hp o').
Qed.

(** Only the cancelling requests control a connection. *)
Lemma connect_controlled method spec control :
  operation_spec method = Some spec -> spec_control spec = Some control -> target_kind control = "connection.connect" ->
  control_stage control = "tunnel.cancelling".
Proof.
  unfold operation_spec. destruct (find_first _ operation_table) as [e|] eqn:E.
  - intros [= <-]. apply find_first_Some in E as [E _]. revert E. unfold operation_table.
    repeat (intros [->|E]%elem_of_cons; [by intros [= <-]|revert E]). by intros E%elem_of_nil.
  - destruct (is_store_write method); [by intros [= <-]|done].
Qed.

Lemma begin_fresh_connecting id marked now client method spec c :
  connecting id marked c -> connecting id marked (begin_fresh now client method spec c).2.
Proof.
  intros (o & Ho & H). unfold begin_fresh. destruct (find_first _ _); [by exists o|].
  exists o. split; [|done]. cbn. apply elem_of_app. by left.
Qed.

Lemma begin_connecting id marked now client method c :
  connecting id marked c -> connecting id marked (begin now client method c).2.
Proof.
  intros Hc. unfold begin. destruct (operation_spec method) as [spec|] eqn:Hs.
  2: { by destruct (guard_read method c). }
  destruct (spec_control spec) as [control|] eqn:Hctl; [|by apply begin_fresh_connecting].
  destruct (find_first _ _) as [a|].
  - apply (touched_connecting id marked _ (control_stage control) (fun _ => control_cancelable control) (fun _ => None)); [|done].
    intros o _ _ _ Hk Ht. unfold is_control_target in Ht. bool_prop. eapply connect_controlled; [done..|]. congruence.
  - destruct (requires_target control); [done|by apply begin_fresh_connecting].
Qed.

Lemma finish_connecting id marked now lease res c :
  spares id (ActFinish now lease res) -> (marked -> quiet id (ActFinish now lease res)) ->
  connecting id marked c -> connecting id marked (finish now lease res c).
Proof.
  intros Hsp Hq Hc. unfold finish. destruct lease as [l|]; [|done]. cbn in Hsp.
  destruct (owns_completion l) eqn:Hown; cbn [negb].
  - destruct (remove_first _ _) as [[x rest]|] eqn:E; [|done].
    apply remove_first_Some in E as (Hx & l1 & l2 & Ha & ->).
    destruct Hc as (o & Ho & Hid & Hk & Hs). exists o. split; [|done]. cbn. rewrite Ha in Ho.
    apply elem_of_app in Ho as [Ho|[->|Ho]%elem_of_cons]; apply elem_of_app; [by left| |by right].
    destruct (Hsp eq_refl). apply String.eqb_eq in Hx. congruence.
  - destruct (find_first _ _), res as [e|]; try done.
    apply (touched_connecting id marked _ _ (fun _ => control_failure_cancelable l) (fun _ => Some (operation_error e))); [|done].
    intros o' Hm _ Hid' _ Hp. destruct (Hq Hm Hown). apply String.eqb_eq in Hp. congruence.
Qed.

Lemma run_action_connecting id marked a c :
  coordinator_ok c -> spares id a -> (marked -> quiet id a) -> connecting id marked c -> connecting id marked (run_action a c).
Proof.
  intros [[_ _ Hfiled _ _] _] Hsp Hq Hc. destruct a as [now client method|now lease res|now method stage cancelable|now domain stage cancelable|f]; cbn [run_action].
  - by apply begin_connecting.
  - by apply finish_connecting.
  - unfold update_stage. destruct (_ || _ || _ || _); [done|]. apply set_stage_connecting; [|done].
    intros o Hm _ _ Hk Hp. apply (Hq Hm). bool_prop. congruence.
  - unfold update_domain_stage. destruct (_ || _); [done|]. apply set_stage_connecting; [|done].
    intros o Hm Ho _ Hk Hp. apply (Hq Hm). apply bool_decide_eq_true in Hp. rewrite <- Hp.
    rewrite Forall_forall in Hfiled. pose proof (Hfiled o Ho) as Hw. unfold well_filed in Hw. rewrite Hk in Hw. by injection Hw as <-.
  - done.
Qed.

Lemma run_actions_connecting id marked acts c :
  coordinator_ok c -> ids_ok c -> c.(registry).(next_id) + Z.of_nat (length acts) < 2 ^ 64 ->
  Forall (spares id) acts -> (marked -> Forall (quiet id) acts) -> connecting id marked c ->
  ids_ok (run_actions acts c) /\ connecting id marked (run_actions acts c).
Proof.
  intros Hok Hids Hn Hsp Hq Hc. revert c Hok Hids Hn Hc Hq. induction Hsp as [|a acts Ha _ IH]; intros c Hok Hids Hn Hc Hq; [done|].
  cbn [run_actions foldl length] in *. destruct (op_step_ids c (run_action a c) (run_action_step a c) ltac:(lia) Hids) as [Hids' Hle].
  apply IH; [by eapply op_step_ok; [apply run_action_step|]|done|lia| |].
  - apply run_action_connecting; [done..| |done]. intros Hm. specialize (Hq Hm). by inversion Hq.
  - intros Hm. specialize (Hq Hm). by inversion Hq.
Qed.

(** What the owner's record says when it returns. *)
Lemma finish_record_connect now res o :
  op_kind o = "connection.connect" ->
  (op_state (finish_record now res o) = OperationStatus_Cancelled <->
     cancellation_requested o = true \/ exists e, res = Some e /\ is_cancelled_error e.(err_code) = true) /\
  (op_state (finish_record now res o) = OperationStatus_Cancelled -> op_stage (finish_record now res o) = "tunnel.cancelled").
Proof.
  intros Hk. unfold finish_record.
  destruct (cancellation_requested o) eqn:Ec.
  { destruct res as [e|]; cbn; rewrite Hk; (split; [split; [by left|done]|done]). }
  destruct res as [e|]; cbn [orb].
  - destruct (is_cancelled_error (err_code e)) eqn:Ee; cbn [op_state op_stage]; rewrite ?Hk.
    + split; [split; [|done]|done]. intros _. right. by exists e.
    + split; [|done]. split; [done|]. intros [?|(e' & [= <-] & ?)]; congruence.
  - cbn. rewrite Hk. split; [|done]. split; [done|]. intros [?|(? & ? & _)]; congruence.
Qed.

(** C9: Cancelling wins.  While a connection is being made, [connection.cancel] or
    [connection.disconnect] from any client takes over that operation instead of starting another: it
    gets a non-owning lease, the operation moves to [tunnel.cancelling] and is no longer cancelable.
    Then let anything happen, until the owner returns: other requests, events, other operations that end.
    The operation stays active, and when its owner returns it leaves the active list for the head of the
    journal.  It is closed as cancelled, whatever the attempt returns, unless somebody reported another
    stage for it in between or the controlling request failed; and, whatever was reported, if the attempt
    returns a cancellation.  In general it is closed as cancelled exactly if one of the two still holds
    when the owner returns. *)
Theorem cancel_wins now now' client method c o res acts :
  coordinator_ok c -> ids_ok c -> c.(registry).(next_id) + Z.of_nat (length acts) < 2 ^ 64 ->
  method ∈ ["connection.cancel"; "connection.disconnect"] ->
  o ∈ c.(registry).(active) -> op_kind o = "connection.connect" -> Forall (spares (op_id o)) acts ->
  let '(r, c1) := begin now client method c in
  let c2 := run_actions acts c1 in
  let c3 := finish now' (Some (mkLease (op_id o) true None false)) res c2 in
  r = Ok (Some (mkLease (op_id o) false (Some "tunnel.cancel_failed") true))
  /\ length c1.(registry).(active) = length c.(registry).(active)
  /\ (exists o1, o1 ∈ c1.(registry).(active) /\ op_id o1 = op_id o
        /\ op_stage o1 = "tunnel.cancelling" /\ op_cancelable o1 = false)
  /\ exists o2 o3, o2 ∈ c2.(registry).(active) /\ op_id o2 = op_id o
       /\ head c3.(registry).(recent) = Some o3 /\ op_id o3 = op_id o
       /\ length c2.(registry).(active) = S (length c3.(registry).(active))
       /\ (op_state o3 = OperationStatus_Cancelled <->
             cancellation_requested o2 = true \/ exists e, res = Some e /\ is_cancelled_error e.(err_code) = true)
       /\ (op_state o3 = OperationStatus_Cancelled -> op_stage o3 = "tunnel.cancelled")
       /\ (Forall (quiet (op_id o)) acts -> op_state o3 = OperationStatus_Cancelled).
Proof.
  intros Hok Hids Hn Hm Ho Hk Hsp.
  assert (exists spec, operation_spec method = Some spec
            /\ spec_domain spec = OperationDomain_TunnelConfiguration
            /\ spec_control spec = Some connect_control) as (spec & Hs & Hd & Hctl).
  { repeat (apply elem_of_cons in Hm as [->|Hm]; [eexists; split_and!; reflexivity|]).
    by apply elem_of_nil in Hm. }
  assert (is_control_target spec connect_control o = true) as Ht.
  { destruct Hok as [[_ Hrun Hfiled _ _] _]. rewrite Forall_forall in Hrun, Hfiled.
    destruct (Hrun o Ho) as [Hst _]. pose proof (Hfiled o Ho) as Hw.
    unfold well_filed in Hw. rewrite Hk in Hw. simpl in Hw. injection Hw as Hw.
    unfold is_control_target. rewrite Hd, Hk, <- Hw, Hst. reflexivity. }
  pose proof (control_target_unique spec connect_control c o Hok Ho Ht
                ltac:(by rewrite Hd)) as Hfind.
  destruct (begin now client method c) as [r c1] eqn:Hb.
  pose proof (begin_ok _ _ _ _ _ _ Hb Hok) as Hok1.
  pose proof (begin_control now client method c spec connect_control o Hs Hctl Hfind) as E.
  rewrite E in Hb. injection Hb as <- <-. set (c1 := publish _ _) in *.
  set (o1 := touch "tunnel.cancelling" now false None o).
  assert (o1 ∈ c1.(registry).(active)) as Ho1
    by (exact (update_first_elem _ (touch "tunnel.cancelling" now false None) _ _ Hfind)).
  assert (ids_ok c1) as Hids1
    by (apply touch_ids_ok; [apply (touch_keeps_frame (fun _ => _) _ (fun _ => _) (fun _ => _))|done]).
  split; [done|]. split; [apply update_first_length|]. split; [by exists o1|].
  destruct (run_actions_connecting (op_id o) (Forall (quiet (op_id o)) acts) acts c1 Hok1 Hids1 Hn Hsp (fun H => H))
    as (Hids2 & o2 & Ho2 & Hid2 & Hk2 & Hst2); [by exists o1|].
  destruct (remove_first_by_id _ o2 (ids_ok_active _ Hids2) Ho2) as [rest Hrest].
  destruct (finish_record_connect now' res o2 Hk2) as [Hc1 Hc2].
  exists o2, (finish_record now' res o2). unfold finish. cbn [owns_completion lease_id negb].
  rewrite <- Hid2, Hrest, finish_record_id. split_and!; [done..| |done|done|].
  - apply remove_first_Some in Hrest as (_ & l1 & l2 & -> & ->). cbn. rewrite !length_app. cbn. lia.
  - intros Hq. apply Hc1. left. unfold cancellation_requested. rewrite Hst2 by (by rewrite Hid2 in Hq). done.
Qed.

(** A cancelled attempt with a stage report of the attempt in between, and an attempt that is done anyway. *)
Lemma cancel_wins_witness :
  (exists o2 o3, op_id o2 = operation_id 1 /\ op_id o3 = operation_id 1 /\ op_state o3 = OperationStatus_Cancelled).
Proof.
  pose proof (cancel_wins 6 9 "other" "connection.disconnect" connecting_example
    (mkOperationRecord (operation_id 1) "ui" OperationDomain_TunnelConfiguration
       "connection.connect" OperationStatus_Running "tunnel.preparing_connection" 5 5 None true None)
    (Some (BackendError_new "connection_cancelled" "cancelled"))
    [ActStage 7 "connection.connect" "tunnel.securing_session" (Some true); ActBegin 8 "ui" "report_issue.submit"]
    connecting_example_ok connecting_example_ids) as H.
  destruct (begin _ _ _ _) as [r c1].
  destruct H as (_ & _ & _ & o2 & o3 & _ & Hid2 & _ & Hid3 & _ & Hst & _);
    [vm_compute; reflexivity|right; left|vm_compute; left|reflexivity|repeat constructor|].
  exists o2, o3. split; [exact Hid2|]. split; [exact Hid3|]. apply Hst. right. eexists. split; [reflexivity|reflexivity].
Defined.

(** A stage event that the attempt had sent before, and that is applied after the disconnect request began, takes the
    cancellation off the record: if the attempt is done before the request reaches it, it is filed as a success
    although the tunnel is being taken down. *)
Example late_stage_undoes_cancel :
  let c := run_actions [ActBegin 6 "other" "connection.disconnect";
                        ActStage 7 "connection.connect" "tunnel.securing_session" (Some true);
                        ActFinish 9 (Some (mkLease (operation_id 1) true None false)) None] connecting_example in
  map (fun o => (op_state o, op_stage o)) c.(registry).(recent) = [(OperationStatus_Succeeded, "tunnel.connected")].
Proof. vm_compute. reflexivity. Qed.

(** ** Refinement: the scheduler is a lock manager over the four domains *)

Module LockSpec.

(** The holders of the domain locks, oldest first. *)
Definition holders : Type := list (string * OperationDomain).

Definition acquire (id : string) (d : OperationDomain) (h : holders) : option holders :=
  if existsb (fun p => domains_conflict d p.2) h then None else Some (h ++ [(id, d)]).
Definition release (id : string) (h : holders) : holders :=
  retain (fun p => negb (String.eqb p.1 id)) h.

(** A step acquires a lock under a new name, releases a held one, or leaves the holders alone. *)
Inductive lock_step : holders -> holders -> Prop :=
  | lock_acquire id d h h' : id ∉ map fst h -> acquire id d h = Some h' -> lock_step h h'
  | lock_release id h : id ∈ map fst h -> lock_step h (release id h)
  | lock_stutter h : lock_step h h.

End LockSpec.

Definition abs_locks (c : Coordinator) : LockSpec.holders :=
  map (fun o => (op_id o, op_domain o)) c.(registry).(active).

Lemma abs_locks_ids c : map fst (abs_locks c) = map op_id c.(registry).(active).
Proof. unfold abs_locks. by rewrite map_map. Qed.

Lemma touch_abs_locks f p c :
  keeps_frame f ->
  abs_locks (publish (with_active (update_first p f c.(registry).(active)) c.(registry)) c)
  = abs_locks c.
Proof.
  intros Hf. unfold abs_locks. cbn [publish registry with_active active]. apply update_first_map.
  intros o. destruct (Hf o) as (->&_&_&->&_). done.
Qed.

Lemma existsb_map {A B} (g : A -> B) p l : existsb p (map g l) = existsb (fun x => p (g x)) l.
Proof. induction l; simpl; congruence. Qed.

Lemma begin_fresh_lock now client method spec c res c' :
  begin_fresh now client method spec c = (res, c') -> ids_ok c ->
  LockSpec.lock_step (abs_locks c) (abs_locks c').
Proof.
  intros Hb Hids.
  apply begin_fresh_cases in Hb
    as [(a & _ & _ & _ & ->) | (Hf & o & _ & Hid & _ & Hd & _ & _ & _ & ->)];
    [apply LockSpec.lock_stutter|].
  apply (LockSpec.lock_acquire (op_id o) (op_domain o)).
  - rewrite abs_locks_ids, Hid. intros Hin. apply (fresh_id c Hids). unfold journal.
    rewrite map_app. set_solver.
  - unfold LockSpec.acquire. destruct (existsb _ _) eqn:E.
    + unfold abs_locks in E. rewrite existsb_map in E. apply existsb_exists in E as (x & Hx & Hc).
      apply list_elem_of_In in Hx. rewrite Forall_forall in Hf. apply Hf in Hx.
      simpl in Hc. congruence.
    + unfold abs_locks. cbn [publish registry active]. by rewrite map_app.
Qed.

Lemma release_unique l1 o l2 :
  NoDup (map op_id (l1 ++ o :: l2)) ->
  LockSpec.release (op_id o) (map (fun o => (op_id o, op_domain o)) (l1 ++ o :: l2))
  = map (fun o => (op_id o, op_domain o)) (l1 ++ l2).
Proof.
  intros Hnd. unfold LockSpec.release.
  induction l1 as [|x l1 IH]; simpl in *; apply NoDup_cons in Hnd as [Hx Hnd].
  - rewrite String.eqb_refl. simpl. apply retain_id, Forall_forall.
    intros p (y & -> & Hy)%list_elem_of_fmap. simpl.
    destruct (String.eqb_spec (op_id y) (op_id o)) as [E|]; [|done].
    exfalso. apply Hx. rewrite <- E. by apply (list_elem_of_fmap_2 op_id).
  - destruct (String.eqb_spec (op_id x) (op_id o)) as [E|]; simpl; [|f_equal; by apply IH].
    exfalso. apply Hx. rewrite E. apply (list_elem_of_fmap_2 op_id). set_solver.
Qed.

Lemma finish_lock now lease res c :
  ids_ok c -> LockSpec.lock_step (abs_locks c) (abs_locks (finish now lease res c)).
Proof.
  intros Hids. unfold finish. destruct lease as [l|]; [|apply LockSpec.lock_stutter].
  destruct (owns_completion l); simpl.
  - destruct (remove_first _ _) as [[o rest]|] eqn:E; [|apply LockSpec.lock_stutter].
    apply remove_first_Some in E as (Hid & l1 & l2 & Ha & ->).
    pose proof (ids_ok_active c Hids) as Hnd. rewrite Ha in Hnd.
    unfold abs_locks. cbn [publish registry active]. rewrite Ha, <- (release_unique l1 o l2 Hnd).
    apply LockSpec.lock_release. rewrite map_map. apply (list_elem_of_fmap_2 op_id). set_solver.
  - destruct (find_first _ _), res; try apply LockSpec.lock_stutter.
    rewrite touch_abs_locks; [apply LockSpec.lock_stutter|].
    apply (touch_keeps_frame (fun _ => _) _ (fun _ => _) (fun _ => _)).
Qed.

Lemma set_stage_abs_locks p now stage cancelable c :
  abs_locks (set_stage p now stage cancelable c) = abs_locks c.
Proof.
  unfold set_stage. destruct (find_first _ _); [|done].
  apply touch_abs_locks.
  apply (touch_keeps_frame (fun _ => stage) now (fun o => unwrap_or cancelable o.(op_cancelable)) op_error).
Qed.

(** C10: The coordinator refines a lock manager: every atomic section of the agent acquires the
    operation's domain under a new id only when no held domain is incompatible with it, releases a
    held lock, or leaves the set of held locks as it is. *)
Theorem scheduler_refines_locks c c' :
  ids_ok c -> op_step c c' -> LockSpec.lock_step (abs_locks c) (abs_locks c').
Proof.
  intros Hids Hstep.
  destruct Hstep as [now client method c res c' Hb|now lease res c|now m st ca c|now d st ca c|c s Hs].
  - revert Hb. unfold begin. destruct (operation_spec method) as [spec|].
    + destruct (spec_control spec) as [control|]; [|intros; by eapply begin_fresh_lock].
      destruct (find_first _ _).
      * intros [= <- <-]. rewrite touch_abs_locks; [apply LockSpec.lock_stutter|].
        apply (touch_keeps_frame (fun _ => _) _ (fun _ => _) (fun _ => _)).
      * destruct (requires_target control); [intros [= <- <-]; apply LockSpec.lock_stutter|].
        intros; by eapply begin_fresh_lock.
    + destruct (guard_read method c); intros [= <- <-]; apply LockSpec.lock_stutter.
  - by apply finish_lock.
  - unfold update_stage. destruct (_ || _ || _ || _); rewrite ?set_stage_abs_locks;
      apply LockSpec.lock_stutter.
  - unfold update_domain_stage. destruct (_ || _); rewrite ?set_stage_abs_locks;
      apply LockSpec.lock_stutter.
  - apply LockSpec.lock_stutter.
Qed.

Lemma scheduler_refines_locks_witness :
  LockSpec.lock_step (abs_locks connecting_example)
    (abs_locks (finish 9 (Some (mkLease (operation_id 1) true None false)) None connecting_example)).
Proof.
  apply (scheduler_refines_locks connecting_example); [apply connecting_example_ids|].
  apply step_finish.
Defined.
