(* ===== verification/StateReducer.v ===== *)
(** The state reducer of [agent/src/state_reducer.rs]: how an event of the backend changes the
    published snapshot.

    [reduce_event] is the closure passed to [send_modify], one definition per event kind and one per
    feature section.  The other two effects of [apply_event] (the operation stage and the account
    activation) are composed with it in [AgentEvents].  The clock is the argument [now]. *)
From Stdlib Require Import SpecFloat.
From S2P Require Export Operations.
Open Scope Z_scope.
Open Scope list_scope.
Open Scope rust_scope.

(** ** Field readers *)

(** [data.get(key).and_then(Value::as_bool).unwrap_or(false)]. *)
Definition data_flag (data : json) (key : string) : bool :=
  unwrap_or (jget key data ?> as_bool) false.
Definition data_str (data : json) (key : string) : option string := jget key data ?> as_str.
(** The same with [filter(|value| !value.is_empty())]. *)
Definition data_nonempty (data : json) (key : string) : option string :=
  opt_filter (fun s => negb (is_empty s)) (data_str data key).
Definition data_object (data : json) (key : string) : option (gmap string json) :=
  jget key data ?> as_object.
Definition flag (m : gmap string json) (key : string) : bool := unwrap_or (get_bool m key) false.
(** An unsigned field of [bits] bits; absent, mistyped or out of range counts as zero. *)
Definition counter (bits : Z) (m : gmap string json) (key : string) : Z :=
  unwrap_or (get_u64 m key ?> u_try_from bits) 0.

Definition string_array (object : gmap string json) (key : string) : list string :=
  match object !! key ?> as_array with
  | Some values => filter_map as_str values
  | None => []
  end.

Definition server_string (server : option (gmap string json)) (key : string) : option string :=
  opt_filter (fun s => negb (is_empty s)) (server ?> fun m => m !! key ?> as_str).

(** [if let Some(section) = data.get(key).and_then(Value::as_object) { ... }]. *)
Definition on_section (data : json) (key : string)
    (f : gmap string json -> FeatureState -> FeatureState) (s : FeatureState) : FeatureState :=
  match data_object data key with Some m => f m s | None => s end.

(** ** Events *)

Definition reduce_backend (data : json) : BackendState := {|
  be_kind := unwrap_or (data_str data "kind") "proton_linux";
  be_core_available := data_flag data "core_available";
  be_connection_available := data_flag data "connection_available";
  be_connection_availability_known := data_flag data "connection_availability_known";
  be_settings_known := data_flag data "settings_known";
  be_connector_initialized := data_flag data "connector_initialized";
  be_network_blocked_known := data_flag data "network_blocked_known";
  be_network_blocked := data_flag data "network_blocked";
  be_core_version := data_str data "core_version";
  be_error := data_str data "error" |}.

Definition account_status_of (s : string) : AccountStatus :=
  if String.eqb s "restoring" then AccountStatus_Restoring
  else if String.eqb s "signed_out" then AccountStatus_SignedOut
  else if String.eqb s "signing_in" then AccountStatus_SigningIn
  else if String.eqb s "two_factor_required" then AccountStatus_TwoFactorRequired
  else if String.eqb s "signed_in" then AccountStatus_SignedIn
  else if String.eqb s "error" then AccountStatus_Error
  else AccountStatus_Unknown.

Definition reduce_account (data : json) : AccountState := {|
  acc_status := account_status_of (unwrap_or (data_str data "status") "unknown");
  acc_name := data_str data "name";
  acc_tier := jget "tier" data ?> as_u64 ?> u_try_from 8;
  acc_credentialless := data_flag data "credentialless";
  acc_two_factor_code_supported := data_flag data "two_factor_code_supported";
  acc_two_factor_security_key_supported := data_flag data "two_factor_security_key_supported";
  acc_sso_supported := data_flag data "sso_supported" |}.

Definition reduce_device_location (data : json) : DeviceLocationState := {|
  dl_known := data_flag data "known";
  dl_ip_address := data_nonempty data "ip_address";
  dl_country_code := to_ascii_uppercase <$> data_nonempty data "country_code";
  dl_isp := data_nonempty data "isp";
  dl_latitude := jget "latitude" data ?> as_f64;
  dl_longitude := jget "longitude" data ?> as_f64 |}.

(** *** Feature sections *)

Definition section_protocol (m : gmap string json) : FeatureState -> FeatureState :=
  set_fs_protocol (mkProtocolSettingsState (unwrap_or (get_str m "selected") "")
    (string_array m "available") (string_array m "profile_available")).

Definition kill_switch_mode_of (s : string) : KillSwitchMode :=
  if String.eqb s "advanced" then KillSwitchMode_Advanced
  else if String.eqb s "standard" then KillSwitchMode_Standard
  else KillSwitchMode_Off.

Definition section_kill_switch (m : gmap string json) : FeatureState -> FeatureState :=
  set_fs_kill_switch (mkKillSwitchState (kill_switch_mode_of (unwrap_or (get_str m "mode") "off"))).

Definition section_netshield (m : gmap string json) : FeatureState -> FeatureState :=
  set_fs_netshield {|
    nsh_level := counter 8 m "level";
    nsh_statistics_known := flag m "statistics_known";
    nsh_malware_blocked := counter 32 m "malware_blocked";
    nsh_ads_blocked := counter 32 m "ads_blocked";
    nsh_trackers_blocked := counter 32 m "trackers_blocked" |}.

Definition section_vpn_accelerator (m : gmap string json) : FeatureState -> FeatureState :=
  set_fs_vpn_accelerator (mkVpnAcceleratorState (flag m "enabled")).
Definition section_crash_reports (m : gmap string json) : FeatureState -> FeatureState :=
  set_fs_anonymous_crash_reports (mkAnonymousCrashReportsState (flag m "enabled")).
Definition section_usage_statistics (m : gmap string json) : FeatureState -> FeatureState :=
  set_fs_anonymous_usage_statistics (mkAnonymousUsageStatisticsState (flag m "enabled")).

Definition section_connection_feedback (m : gmap string json) : FeatureState -> FeatureState :=
  set_fs_connection_feedback {|
    cf_available := flag m "available";
    cf_viewed := flag m "viewed";
    cf_sent := flag m "sent";
    cf_auto_dismiss_seconds :=
      unwrap_or (opt_filter (fun n => (1 <=? n) && (n <=? 300)) (get_u64 m "auto_dismiss_seconds"))
        10 |}.

Definition toggle (m : gmap string json) : ToggleFeatureState := mkToggleFeatureState (flag m "enabled").
Definition section_moderate_nat m := set_fs_moderate_nat (toggle m).
Definition section_ipv6 m := set_fs_ipv6 (toggle m).
Definition section_ipv6_leak_protection m := set_fs_ipv6_leak_protection (toggle m).
Definition section_alternative_routing m := set_fs_alternative_routing (toggle m).
Definition section_allow_lan m := set_fs_allow_lan_connections (toggle m).
Definition section_allow_local_dns m := set_fs_allow_local_dns (toggle m).

Definition section_secure_core (data : json) (s : FeatureState) : FeatureState :=
  match jget "secure_core" data ?> as_bool with Some b => set_fs_secure_core b s | None => s end.

Definition split_mode_of (s : string) : SplitTunnelingMode :=
  if String.eqb s "inverse" then SplitTunnelingMode_Inverse
  else if String.eqb s "standard" then SplitTunnelingMode_Standard
  else SplitTunnelingMode_Off.

Definition split_config (m : gmap string json) (key : string) (old : SplitTunnelingConfigState)
    : SplitTunnelingConfigState :=
  match m !! key ?> as_object with
  | Some c => mkSplitTunnelingConfigState (string_array c "app_paths") (string_array c "ip_ranges")
  | None => old
  end.

Definition section_split_tunneling (m : gmap string json) (s : FeatureState) : FeatureState :=
  set_fs_split_tunneling {|
    st_mode := split_mode_of (unwrap_or (get_str m "mode") "off");
    st_availability_known := flag m "availability_known";
    st_available := flag m "available";
    st_app_paths_supported := flag m "app_paths_supported";
    st_ip_ranges_supported := flag m "ip_ranges_supported";
    st_standard := split_config m "standard" s.(fs_split_tunneling).(st_standard);
    st_inverse := split_config m "inverse" s.(fs_split_tunneling).(st_inverse) |} s.

Definition section_port_forwarding (m : gmap string json) : FeatureState -> FeatureState :=
  set_fs_port_forwarding (mkPortForwardingState (flag m "enabled")
    (get_u64 m "active_port" ?> u_try_from 16)).

Definition section_custom_dns (m : gmap string json) : FeatureState -> FeatureState :=
  set_fs_custom_dns (mkCustomDnsState (flag m "enabled") (string_array m "servers")).

Definition section_writes (m : gmap string json) : FeatureState -> FeatureState :=
  set_fs_writes {|
    fw_protocol := flag m "protocol";
    fw_kill_switch := flag m "kill_switch";
    fw_netshield := flag m "netshield";
    fw_vpn_accelerator := flag m "vpn_accelerator";
    fw_anonymous_crash_reports := flag m "anonymous_crash_reports";
    fw_anonymous_usage_statistics := flag m "anonymous_usage_statistics";
    fw_moderate_nat := flag m "moderate_nat";
    fw_ipv6 := flag m "ipv6";
    fw_ipv6_leak_protection := flag m "ipv6_leak_protection";
    fw_alternative_routing := flag m "alternative_routing";
    fw_allow_lan_connections := flag m "allow_lan_connections";
    fw_allow_local_dns := flag m "allow_local_dns";
    fw_custom_dns := flag m "custom_dns";
    fw_secure_core := flag m "secure_core";
    fw_split_tunneling := flag m "split_tunneling";
    fw_port_forwarding := flag m "port_forwarding" |}.

(** The sections in the order the code applies them, when the features are known. *)
Definition feature_sections (data : json) (s : FeatureState) : FeatureState :=
  let s := on_section data "protocol" section_protocol s in
  let s := on_section data "kill_switch" section_kill_switch s in
  let s := on_section data "netshield" section_netshield s in
  let s := on_section data "vpn_accelerator" section_vpn_accelerator s in
  let s := on_section data "anonymous_crash_reports" section_crash_reports s in
  let s := on_section data "anonymous_usage_statistics" section_usage_statistics s in
  let s := on_section data "connection_feedback" section_connection_feedback s in
  let s := on_section data "moderate_nat" section_moderate_nat s in
  let s := on_section data "ipv6" section_ipv6 s in
  let s := on_section data "ipv6_leak_protection" section_ipv6_leak_protection s in
  let s := on_section data "alternative_routing" section_alternative_routing s in
  let s := on_section data "allow_lan_connections" section_allow_lan s in
  let s := on_section data "allow_local_dns" section_allow_local_dns s in
  let s := section_secure_core data s in
  let s := on_section data "split_tunneling" section_split_tunneling s in
  let s := on_section data "port_forwarding" section_port_forwarding s in
  let s := on_section data "custom_dns" section_custom_dns s in
  on_section data "writes" section_writes s.

Definition reduce_features (data : json) (s : FeatureState) : FeatureState :=
  let s := set_fs_known (data_flag data "known") s in
  let s := set_fs_writable (data_flag data "writable") s in
  if negb s.(fs_known) then set_fs_writes FeatureWriteCapabilities_default s
  else feature_sections data s.

(** *** Connection *)

Definition connection_status_of (s : string) : ConnectionStatus :=
  if String.eqb s "disconnected" then ConnectionStatus_Disconnected
  else if String.eqb s "connecting" then ConnectionStatus_Connecting
  else if String.eqb s "connected" then ConnectionStatus_Connected
  else if String.eqb s "error" then ConnectionStatus_Error
  else ConnectionStatus_Unknown.

Definition valid_profile_id (s : string) : bool :=
  negb (is_empty s) && (str_len s <=? 128) && negb (has_control s).

Definition connection_secure_core (data : json) : bool :=
  unwrap_or (or_else (jget "secure_core" data ?> as_bool)
               (data_object data "server" ?> fun s => get_bool s "secure_core")) false.

Definition reduce_network_conflicts (data : json) (status : ConnectionStatus) (old : list string)
    : list string :=
  match jget "network_conflicts" data ?> as_array with
  | Some conflicts => take 16 (filter_map as_str conflicts)
  | None =>
      match status with
      | ConnectionStatus_Connected | ConnectionStatus_Disconnected => []
      | _ => old
      end
  end.

Definition reduce_connected_at (now : Z) (previous status : ConnectionStatus) (old : option Z)
    : option Z :=
  if bool_decide (status = ConnectionStatus_Connected)
     && negb (bool_decide (previous = ConnectionStatus_Connected))
  then Some now
  else if bool_decide (status = ConnectionStatus_Disconnected) then None
  else old.

Definition reduce_connection (now : Z) (data : json) (c : ConnectionState) : ConnectionState :=
  let status := connection_status_of (unwrap_or (data_str data "status") "unknown") in
  let server := data_object data "server" in
  let secure_core := connection_secure_core data in
  let server_str key := server ?> fun s => get_str s key in
  let server_flag key := unwrap_or (server ?> fun s => get_bool s key) false in
  {| cn_observation_known := data_flag data "observation_known";
     cn_status := status;
     cn_profile_id := opt_filter valid_profile_id (data_str data "profile_id");
     cn_country_code := server_str "country_code";
     cn_country_name := server_str "country_name";
     cn_host_country_code := server_string server "host_country_code";
     cn_host_country_name := server_string server "host_country_name";
     cn_entry_country_code :=
       if secure_core then server_string server "entry_country_code" else None;
     cn_entry_country_name :=
       if secure_core then server_string server "entry_country_name" else None;
     cn_state := server_string server "state";
     cn_city := server_str "city";
     cn_server_name := server_str "name";
     cn_server_ip := server_string server "server_ip";
     cn_server_load := server ?> (fun s => get_u64 s "load") ?> u_try_from 8;
     cn_p2p := server_flag "p2p";
     cn_tor := server_flag "tor";
     cn_latency_ms := None;
     cn_protocol := data_nonempty data "protocol";
     cn_connected_at_unix_ms :=
       reduce_connected_at now c.(cn_status) status c.(cn_connected_at_unix_ms);
     cn_error := data_str data "error";
     cn_error_code := data_nonempty data "error_code";
     cn_restriction_reason_code :=
       jget "restriction_reason_code" data ?> as_i64 ?> i_try_from 32;
     cn_network_conflicts := reduce_network_conflicts data status c.(cn_network_conflicts) |}.

(** ** The closure of [send_modify] *)

(** [None]: an event the reducer does not know; the closure returns before the revision. *)
Definition reduce_body (now : Z) (event : string) (data : json) (s : StateSnapshot)
    : option StateSnapshot :=
  if String.eqb event "backend" then Some (set_ss_backend (reduce_backend data) s)
  else if String.eqb event "account" then Some (set_ss_account (reduce_account data) s)
  else if String.eqb event "device_location"
  then Some (set_ss_device_location (reduce_device_location data) s)
  else if String.eqb event "features"
  then Some (set_ss_features (reduce_features data s.(ss_features)) s)
  else if String.eqb event "connection"
  then Some (set_ss_features (set_fs_secure_core (connection_secure_core data) s.(ss_features))
               (set_ss_connection (reduce_connection now data s.(ss_connection)) s))
  else None.

Definition reduce_event (now : Z) (event : string) (data : json) (s : StateSnapshot)
    : StateSnapshot :=
  match reduce_body now event data s with
  | Some s' => set_ss_revision (wrapping_add 64 s'.(ss_revision) 1) s'
  | None => s
  end.

(** The account an [account] event signs in. *)
Definition account_to_activate (event : string) (data : json) : option string :=
  if String.eqb event "account" && bool_decide (data_str data "status" = Some "signed_in")
  then data_str data "name" else None.

(** * Facts *)

(** ** Well-formed snapshots *)

Definition opt_all {A : Type} (P : A -> Prop) (o : option A) : Prop :=
  match o with Some a => P a | None => True end.
Definition fits (bits z : Z) : Prop := 0 <= z < 2 ^ bits.

Record feature_ok (s : FeatureState) : Prop := {
  fok_level : fits 8 s.(fs_netshield).(nsh_level);
  fok_malware : fits 32 s.(fs_netshield).(nsh_malware_blocked);
  fok_ads : fits 32 s.(fs_netshield).(nsh_ads_blocked);
  fok_trackers : fits 32 s.(fs_netshield).(nsh_trackers_blocked);
  fok_dismiss : 0 <= s.(fs_connection_feedback).(cf_auto_dismiss_seconds) <= 300;
  fok_port : opt_all (fits 16) s.(fs_port_forwarding).(pf_active_port) }.

Record connection_ok (c : ConnectionState) : Prop := {
  cok_load : opt_all (fits 8) c.(cn_server_load);
  cok_reason : opt_all (fun z => - 2 ^ 31 <= z < 2 ^ 31) c.(cn_restriction_reason_code);
  cok_profile : opt_all (fun p => valid_profile_id p = true) c.(cn_profile_id);
  cok_conflicts : (length c.(cn_network_conflicts) <= 16)%nat;
  cok_connected : c.(cn_status) = ConnectionStatus_Connected -> is_Some c.(cn_connected_at_unix_ms);
  cok_disconnected :
    c.(cn_status) = ConnectionStatus_Disconnected ->
    c.(cn_connected_at_unix_ms) = None }.

Record snapshot_ok (s : StateSnapshot) : Prop := {
  sok_revision : fits 64 s.(ss_revision);
  sok_tier : opt_all (fits 8) s.(ss_account).(acc_tier);
  sok_features : feature_ok s.(ss_features);
  sok_connection : connection_ok s.(ss_connection) }.

Lemma try_from_fits bits o : opt_all (fits bits) (o ?> u_try_from bits).
Proof.
  destruct o as [z|]; [|done]. simpl. unfold u_try_from, in_u.
  destruct (_ && _) eqn:E; [|done]. simpl. bool_prop. split; lia.
Qed.

Lemma counter_fits bits m key : 0 < bits -> fits bits (counter bits m key).
Proof.
  intros Hb. unfold counter. pose proof (try_from_fits bits (get_u64 m key)) as H.
  destruct (_ ?> _); [done|]. unfold fits. simpl. pose proof (Z.pow_pos_nonneg 2 bits). lia.
Qed.

Lemma i_try_from_fits bits o :
  opt_all (fun z => - 2 ^ (bits - 1) <= z < 2 ^ (bits - 1)) (o ?> i_try_from bits).
Proof.
  destruct o as [z|]; [|done]. simpl. unfold i_try_from.
  destruct (_ && _) eqn:E; [|done]. simpl. bool_prop. lia.
Qed.

Lemma on_section_preserves (P : FeatureState -> Prop) data key f s :
  (forall m s, P s -> P (f m s)) -> P s -> P (on_section data key f s).
Proof. unfold on_section. intros Hf Hs. destruct (data_object data key); auto. Qed.

Lemma feature_sections_preserve (P : FeatureState -> Prop) data s :
  (forall m s, P s -> P (section_protocol m s)) -> (forall m s, P s -> P (section_kill_switch m s)) ->
  (forall m s, P s -> P (section_netshield m s)) ->
  (forall m s, P s -> P (section_vpn_accelerator m s)) ->
  (forall m s, P s -> P (section_crash_reports m s)) ->
  (forall m s, P s -> P (section_usage_statistics m s)) ->
  (forall m s, P s -> P (section_connection_feedback m s)) ->
  (forall m s, P s -> P (section_moderate_nat m s)) -> (forall m s, P s -> P (section_ipv6 m s)) ->
  (forall m s, P s -> P (section_ipv6_leak_protection m s)) ->
  (forall m s, P s -> P (section_alternative_routing m s)) ->
  (forall m s, P s -> P (section_allow_lan m s)) ->
  (forall m s, P s -> P (section_allow_local_dns m s)) ->
  (forall b s, P s -> P (set_fs_secure_core b s)) ->
  (forall m s, P s -> P (section_split_tunneling m s)) ->
  (forall m s, P s -> P (section_port_forwarding m s)) ->
  (forall m s, P s -> P (section_custom_dns m s)) -> (forall m s, P s -> P (section_writes m s)) ->
  P s -> P (feature_sections data s).
Proof.
  intros. unfold feature_sections, section_secure_core.
  repeat first
    [ assumption
    | apply on_section_preserves; [assumption|]
    | match goal with |- P (match ?x with _ => _ end) =>
        destruct x; [match goal with H : forall (b : bool) s, _ |- _ => apply H end|] end ].
Qed.

Lemma reduce_features_ok data s : feature_ok s -> feature_ok (reduce_features data s).
Proof.
  intros [H1 H2 H3 H4 H5 H6]. unfold reduce_features.
  assert (feature_ok (set_fs_writable (data_flag data "writable")
                        (set_fs_known (data_flag data "known") s))) as Hs by by split.
  destruct (negb _); [by destruct Hs; split|].
  apply feature_sections_preserve; try done; intros m s' []; split; try done; simpl;
    try (apply counter_fits; lia); try apply try_from_fits.
  destruct (get_u64 m "auto_dismiss_seconds") as [n|]; simpl; [|lia].
  destruct ((1 <=? n) && (n <=? 300)) eqn:E; simpl; [|lia]. bool_prop. lia.
Qed.

Lemma reduce_connection_ok now data c : connection_ok c -> connection_ok (reduce_connection now data c).
Proof.
  intros [H1 H2 H3 H4 H5 H6]. split; cbn [reduce_connection cn_server_load
    cn_restriction_reason_code cn_profile_id cn_network_conflicts cn_status cn_connected_at_unix_ms].
  - apply try_from_fits.
  - apply (i_try_from_fits 32).
  - destruct (data_str data "profile_id") as [p|]; [|done]. simpl.
    by destruct (valid_profile_id p) eqn:E.
  - unfold reduce_network_conflicts. destruct (_ ?> as_array).
    + apply (firstn_le_length 16).
    + destruct (connection_status_of _); simpl; lia.
  - intros Hs. rewrite Hs. unfold reduce_connected_at. simpl.
    destruct (bool_decide_reflect (cn_status c = ConnectionStatus_Connected)); simpl; [auto|done].
  - intros Hs. by rewrite Hs.
Qed.

Lemma snapshot_default_ok : snapshot_ok StateSnapshot_default.
Proof. repeat split; simpl; try done; lia. Qed.

Lemma reduce_event_ok now event data s : snapshot_ok s -> snapshot_ok (reduce_event now event data s).
Proof.
  intros Hs. unfold reduce_event. destruct (reduce_body now event data s) as [s'|] eqn:E; [|done].
  assert (snapshot_ok s') as [H1 H2 H3 H4].
  { destruct Hs as [H1 H2 H3 H4]. unfold reduce_body in E.
    repeat split_match_in E; simplify_eq/=; split; simpl; try done.
    - apply try_from_fits.
    - by apply reduce_features_ok.
    - by destruct H3; split.
    - by apply reduce_connection_ok. }
  split; try done. simpl. apply Z.mod_pos_bound. lia.
Qed.

(** The events a run of the agent applies, each with the clock at that moment. *)
Definition run_events (events : list (Z * string * json)) (s : StateSnapshot) : StateSnapshot :=
  foldl (fun s e => reduce_event e.1.1 e.1.2 e.2 s) s events.

Lemma run_events_app l1 l2 s : run_events (l1 ++ l2) s = run_events l2 (run_events l1 s).
Proof. apply foldl_app. Qed.

Lemma run_events_invariant (P : StateSnapshot -> Prop) events s :
  (forall now event data s, (now, event, data) ∈ events -> P s -> P (reduce_event now event data s)) ->
  P s -> P (run_events events s).
Proof.
  revert s. induction events as [|[[now event] data] l IH]; intros s Hstep Hs; [done|].
  simpl. apply IH.
  - intros now' event' data' s' Hin. apply Hstep. by right.
  - apply Hstep; [left|done].
Qed.

(** C15: Whatever JSON the backend sends, every snapshot the agent publishes stays well formed: each
    numeric field fits its Rust type, the feedback timeout is at most 300 seconds, at most 16 network
    conflicts are kept, a profile id is printable, non-empty and at most 128 bytes long, a connected
    tunnel has a connection time and a disconnected one has none. *)
Theorem reducer_type_invariant events : snapshot_ok (run_events events StateSnapshot_default).
Proof.
  apply run_events_invariant; [|apply snapshot_default_ok].
  intros now event data s _. apply reduce_event_ok.
Qed.

(** ** The connection timer *)

Definition is_connection_status (status : string) (e : Z * string * json) : Prop :=
  e.1.2 = "connection" /\ data_str e.2 "status" = Some status.

Lemma reduce_connection_event now data s :
  reduce_event now "connection" data s =
    set_ss_revision (wrapping_add 64 s.(ss_revision) 1)
      (set_ss_features (set_fs_secure_core (connection_secure_core data) s.(ss_features))
        (set_ss_connection (reduce_connection now data s.(ss_connection)) s)).
Proof. done. Qed.

(** The connection time is the moment the tunnel was first seen connected: repeated observations
    of the same connected tunnel, whatever else they report, and any events about other parts of the
    state leave it alone, and it is cleared by the first observation of a disconnected tunnel. *)
Theorem connected_since_first_observation now data events s :
  data_str data "status" = Some "connected" ->
  s.(ss_connection).(cn_status) <> ConnectionStatus_Connected ->
  (forall e, e ∈ events -> e.1.2 = "connection" -> data_str e.2 "status" = Some "connected") ->
  let s' := run_events events (reduce_event now "connection" data s) in
  s'.(ss_connection).(cn_status) = ConnectionStatus_Connected
  /\ s'.(ss_connection).(cn_connected_at_unix_ms) = Some now
  /\ forall now' data', data_str data' "status" = Some "disconnected" ->
       (reduce_event now' "connection" data' s').(ss_connection).(cn_connected_at_unix_ms) = None.
Proof.
  intros Hdata Hnot Hevents s'.
  assert (cn_status (ss_connection s') = ConnectionStatus_Connected
          /\ cn_connected_at_unix_ms (ss_connection s') = Some now) as [Hst Hat].
  { apply (run_events_invariant (fun s => cn_status (ss_connection s) = ConnectionStatus_Connected
             /\ cn_connected_at_unix_ms (ss_connection s) = Some now)).
    - intros now' event data' s0 Hin [Hst Hat]. unfold reduce_event, reduce_body.
      destruct (String.eqb event "backend"); [done|].
      destruct (String.eqb event "account"); [done|].
      destruct (String.eqb event "device_location"); [done|].
      destruct (String.eqb event "features"); [done|].
      destruct (String.eqb_spec event "connection") as [->|]; [|done].
      specialize (Hevents _ Hin eq_refl). simpl in Hevents. simpl.
      unfold reduce_connected_at. rewrite Hevents, Hst, Hat. done.
    - rewrite reduce_connection_event. simpl. unfold reduce_connected_at. rewrite Hdata. simpl.
      destruct (bool_decide_reflect (cn_status (ss_connection s) = ConnectionStatus_Connected)); done. }
  split; [done|]. split; [done|]. intros now' data' Hd. rewrite reduce_connection_event. simpl.
  unfold reduce_connected_at. by rewrite Hd.
Qed.

Lemma connected_since_first_observation_witness :
  let up := jobj [("status", Str "connected")] in
  (run_events [(7, "connection", up); (9, "account", jobj []); (12, "connection", up)]
     StateSnapshot_default).(ss_connection).(cn_connected_at_unix_ms) = Some 7.
Proof.
  intros up.
  refine (proj1 (proj2 (connected_since_first_observation 7 up
    [(9, "account", jobj []); (12, "connection", up)] StateSnapshot_default _ _ _)));
    [reflexivity|discriminate|].
  intros e He Hc. repeat (apply elem_of_cons in He as [->|He]; [first [reflexivity|discriminate Hc]|]).
  inversion He.
Defined.

(** ** Frames *)

(** The branch of a known event: every conjunct is the projection of an updated record. *)
Ltac frame_case := set_unfold; simpl; split_and!; try done; try naive_solver.

(** Each event writes only its own part of the snapshot and, for [connection], the Secure Core
    switch; everything else, including the operations and the store summary, is kept.  A known event
    advances the revision by one, an unknown event changes nothing. *)
Theorem reducer_frame now event data s :
  let s' := reduce_event now event data s in
  let known := ["backend"; "account"; "device_location"; "features"; "connection"] in
  (event ∉ known -> s' = s)
  /\ (event ∈ known -> s'.(ss_revision) = wrapping_add 64 s.(ss_revision) 1)
  /\ (event <> "backend" -> s'.(ss_backend) = s.(ss_backend))
  /\ (event <> "account" -> s'.(ss_account) = s.(ss_account))
  /\ (event <> "device_location" -> s'.(ss_device_location) = s.(ss_device_location))
  /\ (event <> "connection" -> s'.(ss_connection) = s.(ss_connection))
  /\ (event <> "features" -> s'.(ss_features) =
        set_fs_secure_core (if String.eqb event "connection" then connection_secure_core data
                            else s.(ss_features).(fs_secure_core)) s.(ss_features))
  /\ s'.(ss_operations) = s.(ss_operations) /\ s'.(ss_store) = s.(ss_store)
  /\ s'.(ss_network_security) = s.(ss_network_security).
Proof.
  assert (forall f, set_fs_secure_core (fs_secure_core f) f = f) as Heta by by intros [].
  intros s' known. unfold s', reduce_event, reduce_body.
  destruct (String.eqb_spec event "backend") as [->|?]; [frame_case|].
  destruct (String.eqb_spec event "account") as [->|?]; [frame_case|].
  destruct (String.eqb_spec event "device_location") as [->|?]; [frame_case|].
  destruct (String.eqb_spec event "features") as [->|?]; [frame_case|].
  destruct (String.eqb_spec event "connection") as [->|?]; [frame_case|].
  split_and!; try done. unfold known. set_solver.
Qed.

(** While the backend reports the features as unknown, no setting is offered as writable and the
    last known settings are kept. *)
Theorem unknown_features_fail_closed now data s :
  data_flag data "known" = false ->
  let f := (reduce_event now "features" data s).(ss_features) in
  f.(fs_writes) = FeatureWriteCapabilities_default
  /\ f = set_fs_writes FeatureWriteCapabilities_default
           (set_fs_writable (data_flag data "writable") (set_fs_known false s.(ss_features))).
Proof.
  intros Hk f. unfold f, reduce_event, reduce_body. cbn -[reduce_features].
  unfold reduce_features. by rewrite Hk.
Qed.

Lemma unknown_features_fail_closed_witness :
  (reduce_event 1 "features" (jobj [("known", Bool false); ("writes", jobj [("ipv6", Bool true)])])
     StateSnapshot_default).(ss_features).(fs_writes) = FeatureWriteCapabilities_default.
Proof. refine (proj1 (unknown_features_fail_closed 1 _ StateSnapshot_default _)). reflexivity. Defined.

(** The reducer reads back exactly the names the protocol writes: every account, connection, kill
    switch and split tunnelling value is recovered from its serialized name. *)
Theorem reducer_reads_protocol_names :
  (forall x, account_status_of (AccountStatus_to_str x) = x)
  /\ (forall x, connection_status_of (ConnectionStatus_to_str x) = x)
  /\ (forall x, kill_switch_mode_of (KillSwitchMode_to_str x) = x)
  /\ (forall x, split_mode_of (SplitTunnelingMode_to_str x) = x).
Proof. split_and!; by intros []. Qed.
