(* ===== verification/Bpf.v ===== *)
(** The eBPF object code of [splitd/src/bpf.rs]: instruction layout, the label-resolving
    [ProgramBuilder], and the two programs it assembles.

    A builder method is a function on the builder state; [None] stands for the panics of [label]
    (a label defined twice) and [finish] (a missing label or a jump beyond 16 bits). *)
From S2P Require Export Prelude.
Open Scope string_scope.
Open Scope Z_scope.
Open Scope list_scope.

(** ** Constants of the kernel interface *)
Definition BPF_FUNC_MAP_LOOKUP_ELEM : Z := 1.
Definition BPF_FUNC_GET_CURRENT_PID_TGID : Z := 14.
Definition BPF_FUNC_GET_CURRENT_UID_GID : Z := 15.
Definition BPF_FUNC_SETSOCKOPT : Z := 49.
Definition BPF_FUNC_GETSOCKOPT : Z := 57.
Definition BPF_PSEUDO_MAP_FD : Z := 1.
Definition SOL_SOCKET : Z := 1.
Definition SO_MARK : Z := 36.
Definition FWMARK_VALUE : Z := 245447468.

(** ** Instructions *)
Record BpfInsn : Type := mkInsn {
  code : Z;
  registers : Z;
  off : Z;
  imm : Z }.

Definition BpfInsn_new (code dst src off imm : Z) : BpfInsn :=
  mkInsn code (Z.lor (Z.land dst 0x0f) (Z.shiftl (Z.land src 0x0f) 4)) off imm.

(** ** The program builder *)
Record ProgramBuilder : Type := mkBuilder {
  instructions : list BpfInsn;
  labels : gmap string nat;
  fixups : list (nat * string) }.

Definition builder_default : ProgramBuilder := mkBuilder [] ∅ [].

Definition emitter : Type := ProgramBuilder -> option ProgramBuilder.

Definition emit (i : BpfInsn) : emitter := fun b =>
  Some (mkBuilder (b.(instructions) ++ [i]) b.(labels) b.(fixups)).

(** The calls of a method body, in order. *)
Fixpoint emit_all (es : list emitter) : emitter := fun b =>
  match es with
  | [] => Some b
  | e :: es => match e b with Some b => emit_all es b | None => None end
  end.

Definition mov_reg (dst src : Z) : emitter := emit (BpfInsn_new 0xbf dst src 0 0).
Definition mov_imm (dst value : Z) : emitter := emit (BpfInsn_new 0xb7 dst 0 0 value).
Definition rsh_imm (dst bits : Z) : emitter := emit (BpfInsn_new 0x77 dst 0 0 bits).
Definition load32 (dst src offset : Z) : emitter := emit (BpfInsn_new 0x61 dst src offset 0).
Definition load64 (dst src offset : Z) : emitter := emit (BpfInsn_new 0x79 dst src offset 0).
Definition store_imm32 (dst offset value : Z) : emitter := emit (BpfInsn_new 0x62 dst 0 offset value).
Definition store_reg32 (dst offset src : Z) : emitter := emit (BpfInsn_new 0x63 dst src offset 0).
Definition store_reg64 (dst offset src : Z) : emitter := emit (BpfInsn_new 0x7b dst src offset 0).
Definition stack_pointer (dst offset : Z) : emitter :=
  emit_all [mov_reg dst 10; emit (BpfInsn_new 0x07 dst 0 0 offset)].
Definition load_map (dst map_fd : Z) : emitter :=
  emit_all [emit (BpfInsn_new 0x18 dst BPF_PSEUDO_MAP_FD 0 map_fd); emit (BpfInsn_new 0x00 0 0 0 0)].
Definition call (helper : Z) : emitter := emit (BpfInsn_new 0x85 0 0 0 helper).
Definition socket_option_args (context stack_offset : Z) : emitter :=
  emit_all [mov_reg 1 context; mov_imm 2 SOL_SOCKET; mov_imm 3 SO_MARK; stack_pointer 4 stack_offset;
            mov_imm 5 4].
Definition get_socket_mark (context stack_offset : Z) : emitter :=
  emit_all [socket_option_args context stack_offset; call BPF_FUNC_GETSOCKOPT].
Definition set_socket_mark (context stack_offset mark : Z) : emitter :=
  emit_all [store_imm32 10 stack_offset mark; socket_option_args context stack_offset;
            call BPF_FUNC_SETSOCKOPT].

(** Record that the next instruction jumps to [label]. *)
Definition fixup (label : string) : emitter := fun b =>
  Some (mkBuilder b.(instructions) b.(labels) (b.(fixups) ++ [(length b.(instructions), label)])).
Definition jump_eq_imm (register value : Z) (label : string) : emitter :=
  emit_all [fixup label; emit (BpfInsn_new 0x15 register 0 0 value)].
Definition jump_ne_imm (register value : Z) (label : string) : emitter :=
  emit_all [fixup label; emit (BpfInsn_new 0x55 register 0 0 value)].
Definition jump (label : string) : emitter :=
  emit_all [fixup label; emit (BpfInsn_new 0x05 0 0 0 0)].
Definition label (l : string) : emitter := fun b =>
  match b.(labels) !! l with
  | Some _ => None
  | None => Some (mkBuilder b.(instructions) (<[l := length b.(instructions)]> b.(labels)) b.(fixups))
  end.
Definition exit_ : emitter := emit (BpfInsn_new 0x95 0 0 0 0).

Definition set_off (o : Z) (i : BpfInsn) : BpfInsn := mkInsn i.(code) i.(registers) o i.(imm).

(** Resolve one fixup: the jump distance counts from the instruction after the jump. *)
Definition resolve (ls : gmap string nat) (insns : option (list BpfInsn)) (f : nat * string)
    : option (list BpfInsn) :=
  match insns, ls !! f.2 with
  | Some insns, Some destination =>
      match i_try_from 16 (Z.of_nat destination - Z.of_nat f.1 - 1) with
      | Some o => Some (alter (set_off o) f.1 insns)
      | None => None
      end
  | _, _ => None
  end.

Definition finish_program (b : ProgramBuilder) : option (list BpfInsn) :=
  foldl (resolve b.(labels)) (Some b.(instructions)) b.(fixups).

Definition assemble (es : list emitter) : option (list BpfInsn) :=
  match emit_all es builder_default with Some b => finish_program b | None => None end.

(** ** The programs *)

Definition socket_mark_program (pid_map_fd : Z) : option (list BpfInsn) :=
  assemble
    [mov_reg 6 1;
     call BPF_FUNC_GET_CURRENT_PID_TGID;
     rsh_imm 0 32;
     store_reg32 10 (-4) 0;
     load_map 1 pid_map_fd;
     stack_pointer 2 (-4);
     call BPF_FUNC_MAP_LOOKUP_ELEM;
     jump_eq_imm 0 0 "allow";
     store_imm32 6 16 FWMARK_VALUE;
     label "allow";
     mov_imm 0 1;
     exit_].

Definition destination_mark_program
    (pid_map_fd mode_map_fd range_map_fd bypass_map_fd : Z) (ipv6 : bool) : option (list BpfInsn) :=
  assemble
    ([mov_reg 6 1;
      call BPF_FUNC_GET_CURRENT_PID_TGID;
      rsh_imm 0 32;
      store_reg32 10 (-36) 0;
      load_map 1 pid_map_fd;
      stack_pointer 2 (-36);
      call BPF_FUNC_MAP_LOOKUP_ELEM;
      mov_imm 8 0;
      jump_eq_imm 0 0 "application_baseline";
      mov_imm 8 FWMARK_VALUE;
      label "application_baseline";
      call BPF_FUNC_GET_CURRENT_UID_GID;
      store_reg32 10 (-32) 0]
     ++ (if ipv6 then
           [store_imm32 10 (-24) 160;
            load32 0 10 (-32);
            store_reg32 10 (-20) 0;
            load64 0 6 8;
            store_reg64 10 (-16) 0;
            load64 0 6 16;
            store_reg64 10 (-8) 0]
         else
           [store_imm32 10 (-16) 64;
            load32 0 10 (-32);
            store_reg32 10 (-12) 0;
            load32 0 6 4;
            store_reg32 10 (-8) 0])
     ++ [load_map 1 bypass_map_fd;
         stack_pointer 2 (if ipv6 then -24 else -16);
         call BPF_FUNC_MAP_LOOKUP_ELEM;
         jump_eq_imm 0 0 "split_policy";
         jump "exclude_destination";

         label "split_policy";
         load_map 1 mode_map_fd;
         stack_pointer 2 (-32);
         call BPF_FUNC_MAP_LOOKUP_ELEM;
         jump_eq_imm 0 0 "mark_socket";
         load32 7 0 0;
         load_map 1 range_map_fd;
         stack_pointer 2 (if ipv6 then -24 else -16);
         call BPF_FUNC_MAP_LOOKUP_ELEM;
         jump_eq_imm 0 0 "mark_socket";
         jump_eq_imm 7 0 "exclude_destination";
         mov_imm 8 0;
         jump "mark_socket";
         label "exclude_destination";
         mov_imm 8 FWMARK_VALUE;
         label "mark_socket";
         jump_eq_imm 8 FWMARK_VALUE "set_mark";
         get_socket_mark 6 (-28);
         load32 0 10 (-28);
         jump_ne_imm 0 FWMARK_VALUE "allow";
         set_socket_mark 6 (-28) 0;
         jump "allow";
         label "set_mark";
         set_socket_mark 6 (-28) FWMARK_VALUE;
         label "allow";
         mov_imm 0 1;
         exit_]).

(** ** Keys of the longest-prefix-match tries *)
Record LpmKey : Type := mkLpmKey {
  key_prefix_len : Z;
  key_uid : Z;
  key_address : list Z }.

(** An address is its octets in network order. *)
Definition ipv4_key (uid : Z) (address : list Z) (prefix : Z) : LpmKey :=
  mkLpmKey (32 + prefix) uid address.
Definition ipv6_key (uid : Z) (address : list Z) (prefix : Z) : LpmKey :=
  mkLpmKey (32 + prefix) uid address.

(** Little-endian bytes of an unsigned integer. *)
Definition byte_at (z : Z) (i : nat) : Z := (z / 2 ^ (8 * Z.of_nat i)) mod 256.
Definition le_bytes (n : nat) (z : Z) : list Z := map (byte_at z) (seq 0 n).

(** The [repr(C)] layout of a key: two little-endian words, then the address octets. *)
Definition key_bytes (k : LpmKey) : list Z :=
  le_bytes 4 k.(key_prefix_len) ++ le_bytes 4 k.(key_uid) ++ k.(key_address).

(** [kernel_name]: object names of 1 to 15 non-NUL bytes in a 16-byte buffer. *)
Definition kernel_name (value : string) : option (list Z) :=
  let bytes := map (fun a => Z.of_N (Ascii.N_of_ascii a)) (String.list_ascii_of_string value) in
  if (length bytes =? 0)%nat || (16 <=? length bytes)%nat || existsb (Z.eqb 0) bytes then None
  else Some (bytes ++ replicate (16 - length bytes) 0).
