(* ===== verification/BpfSem.v ===== *)
(** Execution of the programs of [Bpf]: an interpreter of the eBPF subset they use, and the proof
    that each program loads, runs to its exit and leaves the mark its policy asks for.

    The interpreter is partial where the kernel's verifier rejects a program: reading an
    uninitialised register or stack byte, using a map value before its null check, a pointer in
    arithmetic, or a jump outside the program yield [None].  Helper calls clobber [r1]-[r5]. *)
From S2P Require Export Bpf.
Open Scope Z_scope.
Open Scope list_scope.

(** ** Values and machine state *)
Inductive val : Type :=
  | Undef
  | Num (z : Z)
  | StackPtr (offset : Z)
  | CtxPtr (offset : Z)
  | MapRef (fd : Z)
  | ValuePtr (value : Z).

Record machine : Type := mkMachine {
  pc : nat;
  regs : list val;
  stack : list (Z * Z);
  sk_mark : Z }.

(** What a program observes: the helpers' results, the bytes of its context, the size of the keys
    of each map and the maps' contents as a lookup function. *)
Record env : Type := mkEnv {
  pid_tgid : Z;
  uid_gid : Z;
  ctx_bytes : list Z;
  key_size : Z -> nat;
  map_lookup : Z -> list Z -> option Z }.

#[global] Arguments le_bytes : simpl never.
#[global] Arguments byte_at : simpl never.
Definition le_val (bytes : list Z) : Z := foldr (fun b v => b + 256 * v) 0 bytes.
Definition imm64 (imm : Z) : Z := imm mod 2 ^ 64.
Definition is_imm (z imm : Z) : bool := z =? imm64 imm.
Definition shr64 (z bits : Z) : Z := Z.shiftr z bits.

Fixpoint stack_get (s : list (Z * Z)) (o : Z) : option Z :=
  match s with
  | [] => None
  | (o', b) :: s => if o =? o' then Some b else stack_get s o
  end.

Fixpoint stack_read (s : list (Z * Z)) (o : Z) (n : nat) : option (list Z) :=
  match n with
  | O => Some []
  | S n =>
      match stack_get s o, stack_read s (o + 1) n with
      | Some b, Some bs => Some (b :: bs)
      | _, _ => None
      end
  end.

Fixpoint stack_write (s : list (Z * Z)) (o : Z) (bytes : list Z) : list (Z * Z) :=
  match bytes with
  | [] => s
  | b :: bytes => stack_write ((o, b) :: s) (o + 1) bytes
  end.

Definition reg (m : machine) (r : Z) : val := nth (Z.to_nat r) m.(regs) Undef.
Definition set_reg (m : machine) (r : Z) (v : val) : machine :=
  mkMachine m.(pc) (<[Z.to_nat r := v]> m.(regs)) m.(stack) m.(sk_mark).
Definition set_stack (m : machine) (s : list (Z * Z)) : machine :=
  mkMachine m.(pc) m.(regs) s m.(sk_mark).
Definition set_mark (m : machine) (k : Z) : machine :=
  mkMachine m.(pc) m.(regs) m.(stack) k.
Definition set_pc (m : machine) (p : nat) : machine :=
  mkMachine p m.(regs) m.(stack) m.(sk_mark).

Definition load (e : env) (m : machine) (v : val) (o : Z) (n : nat) : option Z :=
  match v with
  | StackPtr b => match stack_read m.(stack) (b + o) n with Some bs => Some (le_val bs) | None => None end
  | CtxPtr b =>
      let start := Z.to_nat (b + o) in
      if (0 <=? b + o) && (start + n <=? length e.(ctx_bytes))%nat
      then Some (le_val (take n (drop start e.(ctx_bytes)))) else None
  | ValuePtr x => if (o =? 0) && (n =? 4)%nat then Some x else None
  | _ => None
  end.

(** A store of [n] bytes; the only writable context field is the mark of [struct bpf_sock]. *)
Definition store (m : machine) (v : val) (o : Z) (n : nat) (z : Z) : option machine :=
  match v with
  | StackPtr b =>
      if (-512 <=? b + o) && (b + o + Z.of_nat n <=? 0)
      then Some (set_stack m (stack_write m.(stack) (b + o) (le_bytes n z))) else None
  | CtxPtr b => if (b + o =? 16) && (n =? 4)%nat then Some (set_mark m (z mod 2 ^ 32)) else None
  | _ => None
  end.

(** Registers after a helper call. *)
Definition returned (m : machine) (v : val) : machine :=
  mkMachine m.(pc) (v :: replicate 5 Undef ++ drop 6 m.(regs)) m.(stack) m.(sk_mark).

Definition sockopt_args (m : machine) : option Z :=
  match reg m 1, reg m 2, reg m 3, reg m 4, reg m 5 with
  | CtxPtr 0, Num l, Num n, StackPtr o, Num s =>
      if (l =? SOL_SOCKET) && (n =? SO_MARK) && (s =? 4) then Some o else None
  | _, _, _, _, _ => None
  end.

Definition call_helper (e : env) (m : machine) (helper : Z) : option machine :=
  if helper =? BPF_FUNC_GET_CURRENT_PID_TGID then Some (returned m (Num e.(pid_tgid)))
  else if helper =? BPF_FUNC_GET_CURRENT_UID_GID then Some (returned m (Num e.(uid_gid)))
  else if helper =? BPF_FUNC_MAP_LOOKUP_ELEM then
    match reg m 1, reg m 2 with
    | MapRef fd, StackPtr o =>
        match stack_read m.(stack) o (e.(key_size) fd) with
        | Some key =>
            Some (returned m (match e.(map_lookup) fd key with
                              | Some v => ValuePtr v
                              | None => Num 0
                              end))
        | None => None
        end
    | _, _ => None
    end
  else if helper =? BPF_FUNC_GETSOCKOPT then
    match sockopt_args m with
    | Some o => Some (returned (set_stack m (stack_write m.(stack) o (le_bytes 4 m.(sk_mark)))) (Num 0))
    | None => None
    end
  else if helper =? BPF_FUNC_SETSOCKOPT then
    match sockopt_args m with
    | Some o =>
        match stack_read m.(stack) o 4 with
        | Some bs => Some (returned (set_mark m (le_val bs)) (Num 0))
        | None => None
        end
    | None => None
    end
  else None.

(** Equality of a register with an immediate; a pointer is only compared with null. *)
Definition reg_is (v : val) (imm : Z) : option bool :=
  match v with
  | Num z => Some (is_imm z imm)
  | StackPtr _ | CtxPtr _ | ValuePtr _ => if imm =? 0 then Some false else None
  | _ => None
  end.

Definition jump_to (m : machine) (o : Z) : option machine :=
  let p := Z.of_nat m.(pc) + 1 + o in
  if 0 <=? p then Some (set_pc m (Z.to_nat p)) else None.

Definition next (m : machine) : machine := set_pc m (S m.(pc)).

Definition with_num (v : val) (k : Z -> option machine) : option machine :=
  match v with Num z => k z | _ => None end.

(** One instruction; [inr] is the program's return value. *)
Inductive outcome : Type :=
  | Running (m : machine)
  | Exited (r0 : Z) (mark : Z)
  | Stuck.

Definition running (m : option machine) : outcome :=
  match m with Some m => Running m | None => Stuck end.

Definition step (e : env) (program : list BpfInsn) (m : machine) : outcome :=
  match program !! m.(pc) with
  | None => Stuck
  | Some i =>
      let dst := Z.land i.(registers) 15 in
      let src := Z.shiftr i.(registers) 4 in
      let continue (o : option machine) :=
        running (match o with Some m => Some (next m) | None => None end) in
      match i.(code) with
      | 0xbf => continue (match reg m src with Undef => None | v => Some (set_reg m dst v) end)
      | 0xb7 => continue (Some (set_reg m dst (Num (imm64 i.(imm)))))
      | 0x77 => continue (with_num (reg m dst) (fun z => Some (set_reg m dst (Num (shr64 z i.(imm))))))
      | 0x07 => continue (match reg m dst with
                          | StackPtr o => Some (set_reg m dst (StackPtr (o + i.(imm))))
                          | _ => None
                          end)
      | 0x61 => continue (match load e m (reg m src) i.(off) 4 with
                          | Some z => Some (set_reg m dst (Num z)) | None => None end)
      | 0x79 => continue (match load e m (reg m src) i.(off) 8 with
                          | Some z => Some (set_reg m dst (Num z)) | None => None end)
      | 0x62 => continue (store m (reg m dst) i.(off) 4 i.(imm))
      | 0x63 => continue (with_num (reg m src) (store m (reg m dst) i.(off) 4))
      | 0x7b => continue (with_num (reg m src) (store m (reg m dst) i.(off) 8))
      | 0x18 => if src =? BPF_PSEUDO_MAP_FD
                then continue (Some (next (set_reg m dst (MapRef i.(imm))))) else Stuck
      | 0x85 => continue (call_helper e m i.(imm))
      | 0x15 => running (match reg_is (reg m dst) i.(imm) with
                         | Some true => jump_to m i.(off)
                         | Some false => Some (next m)
                         | None => None
                         end)
      | 0x55 => running (match reg_is (reg m dst) i.(imm) with
                         | Some true => Some (next m)
                         | Some false => jump_to m i.(off)
                         | None => None
                         end)
      | 0x05 => running (jump_to m i.(off))
      | 0x95 => match reg m 0 with Num z => Exited z m.(sk_mark) | _ => Stuck end
      | _ => Stuck
      end
  end.

(** The program's return value and the socket's mark; [None] if it is rejected or still running. *)
Fixpoint exec (fuel : nat) (e : env) (program : list BpfInsn) (m : machine) : option (Z * Z) :=
  match fuel with
  | O => None
  | S fuel =>
      match step e program m with
      | Running m => exec fuel e program m
      | Exited r k => Some (r, k)
      | Stuck => None
      end
  end.

Definition start (mark : Z) : machine :=
  mkMachine 0 [Undef; CtxPtr 0; Undef; Undef; Undef; Undef; Undef; Undef; Undef; Undef; StackPtr 0] [] mark.

(** ** The policies *)
Definition is_some {A : Type} (o : option A) : bool := match o with Some _ => true | None => false end.

(** The mark of a new socket: tracked processes get the split mark. *)
Definition socket_mark_policy (tracked : bool) (mark : Z) : Z :=
  if tracked then FWMARK_VALUE else mark.

(** Whether a destination leaves the tunnel: the user's bypass ranges do; otherwise, for a user with
    a split policy, a destination in the configured ranges follows the mode (0 excludes it, 1 keeps
    it inside); everything else follows the application. *)
Definition excluded (app bypass : bool) (mode : option Z) (in_range : bool) : bool :=
  bypass ||
  match mode with
  | Some m => if in_range then m =? 0 else app
  | None => app
  end.

(** Only the split mark itself is ever cleared. *)
Definition destination_mark_policy (out : bool) (mark : Z) : Z :=
  if out then FWMARK_VALUE else if mark =? FWMARK_VALUE then 0 else mark.

(** ** Bytes *)
Lemma byte_at_range z i : 0 <= byte_at z i < 256.
Proof. unfold byte_at. apply Z.mod_pos_bound. lia. Qed.

Lemma byte_at_0 z : byte_at z 0 = z mod 256.
Proof. unfold byte_at. simpl. by rewrite Z.div_1_r. Qed.

Lemma byte_at_S z i : byte_at z (S i) = byte_at (z / 256) i.
Proof.
  unfold byte_at. rewrite Z.div_div by lia. do 2 f_equal.
  replace (8 * Z.of_nat (S i)) with (8 + 8 * Z.of_nat i) by lia. rewrite Z.pow_add_r by lia. done.
Qed.

Lemma le_bytes_S n z : le_bytes (S n) z = z mod 256 :: le_bytes n (z / 256).
Proof.
  unfold le_bytes. simpl. rewrite byte_at_0. f_equal. rewrite <- seq_shift, map_map.
  apply map_ext. intros. apply byte_at_S.
Qed.

Lemma le_val_le_bytes n z : le_val (le_bytes n z) = z mod 2 ^ (8 * Z.of_nat n).
Proof.
  revert z. induction n as [|n IH]; intros z.
  - simpl. by rewrite Z.mod_1_r.
  - rewrite le_bytes_S. simpl. rewrite IH.
    replace (8 * Z.of_nat (S n)) with (8 + 8 * Z.of_nat n) by lia. rewrite Z.pow_add_r by lia.
    change (2 ^ 8) with 256. rewrite Z.rem_mul_r; lia.
Qed.

Definition is_byte (b : Z) : Prop := 0 <= b < 256.

Lemma le_val_range bs : Forall is_byte bs -> 0 <= le_val bs < 2 ^ (8 * Z.of_nat (length bs)).
Proof.
  unfold is_byte. induction 1 as [|b bs Hb _ IH]; simpl length; [simpl; lia|].
  replace (8 * Z.of_nat (S (length bs))) with (8 + 8 * Z.of_nat (length bs)) by lia.
  rewrite Z.pow_add_r by lia. change (2 ^ 8) with 256. simpl. lia.
Qed.

Lemma le_bytes_le_val bs : Forall is_byte bs -> le_bytes (length bs) (le_val bs) = bs.
Proof.
  unfold is_byte. induction 1 as [|b bs Hb _ IH]; [done|]. simpl length. rewrite le_bytes_S.
  change (le_val (b :: bs)) with (b + 256 * le_val bs).
  rewrite (Z.mul_comm 256), Z.mod_add, Z.mod_small by lia.
  rewrite Z.div_add, Z.div_small, Z.add_0_l by lia. by rewrite IH.
Qed.

(** ** Symbolic execution *)

(** [m] exits with [r] and the mark [k] within [n] steps. *)
Inductive runs (e : env) (p : list BpfInsn) (r k : Z) : nat -> machine -> Prop :=
  | runs_exit n m : step e p m = Exited r k -> runs e p r k (S n) m
  | runs_step n m m' : step e p m = Running m' -> runs e p r k n m' -> runs e p r k (S n) m.

Lemma runs_exec e p r k n m : runs e p r k n m -> exec n e p m = Some (r, k).
Proof. induction 1 as [n m H|n m m' H _ IH]; simpl; by rewrite H. Qed.

Ltac eval_step :=
  cbv -[le_val byte_at is_imm shr64].

(** Execute one instruction of a [runs] goal; a comparison of an unknown value with an immediate
    splits the goal. *)
Ltac sym_step :=
  lazymatch goal with
  | |- runs ?e ?p ?r ?k _ ?m =>
      let o := eval cbv -[le_val byte_at is_imm shr64] in (step e p m) in
      lazymatch o with
      | Running ?m' => apply (runs_step e p r k _ m m'); [exact eq_refl|]
      | Exited ?r' ?k' => apply runs_exit; change (Exited r' k' = Exited r k)
      | context [is_imm ?a ?b] =>
          let H := fresh "Himm" in
          let v := lazymatch a with
                   | Z0 => eval vm_compute in (is_imm a b)
                   | Zpos _ => eval vm_compute in (is_imm a b)
                   | _ => constr:(tt)
                   end in
          lazymatch v with
          | tt => destruct (is_imm a b) eqn:H
          | _ => assert (H : is_imm a b = v) by (vm_compute; exact eq_refl)
          end;
          (eapply runs_step; [eval_step; rewrite H; eval_step; exact eq_refl|])
      end
  end.

(** Execute a map lookup whose key size is given by [H]. *)
Ltac sym_lookup H := eapply runs_step; [eval_step; rewrite H; eval_step; reflexivity|].

Lemma key_word z : le_bytes 4 (le_val (le_bytes 4 z)) = le_bytes 4 z.
Proof. apply (le_bytes_le_val (le_bytes 4 z)). repeat constructor; apply byte_at_range. Qed.

Lemma key_word_mod z : le_bytes 4 (z mod 2 ^ 32) = le_bytes 4 z.
Proof. by rewrite <- (key_word z), le_val_le_bytes. Qed.

Lemma is_imm_mark mark :
  0 <= mark < 2 ^ 32 -> is_imm (le_val [byte_at mark 0; byte_at mark 1; byte_at mark 2; byte_at mark 3]) 245447468 =
  (mark =? FWMARK_VALUE).
Proof.
  intros H. change ([_; _; _; _]) with (le_bytes 4 mark). rewrite le_val_le_bytes, Z.mod_small by done. done.
Qed.

Lemma is_imm_0 z : is_imm z 0 = (z =? 0).
Proof. done. Qed.

Lemma excluded_cases app bypass mode in_range :
  excluded app bypass mode in_range =
  match bypass, mode, in_range with
  | true, _, _ => true
  | false, Some m, true => m =? 0
  | false, _, _ => app
  end.
Proof. by destruct bypass, mode, in_range. Qed.

(** Close the goal of a finished execution from the comparisons taken on the way. *)
Ltac sym_finish Hmark :=
  repeat match goal with
  | H : is_imm (le_val _) _ = _ |- _ => rewrite (is_imm_mark _ Hmark) in H
  | H : is_imm ?z 0 = _ |- _ => rewrite (is_imm_0 z) in H
  | H : is_imm _ _ = _ |- _ => clear H
  end;
  f_equal; unfold destination_mark_policy; rewrite excluded_cases; cbv [is_some];
  repeat match goal with H : _ = _ :> bool |- _ => rewrite H; clear H end;
  first [reflexivity | vm_compute; reflexivity].

(** The address the context of a destination program holds. *)
Definition destination_address (ipv6 : bool) (ctx : list Z) : list Z :=
  if ipv6 then take 16 (drop 8 ctx) else take 4 (drop 4 ctx).

(** The most specific key of a destination: all the bits of its address, for one user. *)
Definition destination_key (ipv6 : bool) (uid : Z) (ctx : list Z) : LpmKey :=
  if ipv6 then ipv6_key uid (destination_address ipv6 ctx) 128
  else ipv4_key uid (destination_address ipv6 ctx) 32.

Definition range_key_size (ipv6 : bool) : nat := if ipv6 then 24 else 12.

(** What the destination programs rely on: map key sizes as created by [SocketMarker::attach], a
    context of bytes that reaches the end of the address. *)
Definition destination_env (ipv6 : bool) (e : env) (pid_fd mode_fd range_fd bypass_fd : Z) : Prop :=
  e.(key_size) pid_fd = 4%nat /\ e.(key_size) mode_fd = 4%nat /\
  e.(key_size) range_fd = range_key_size ipv6 /\ e.(key_size) bypass_fd = range_key_size ipv6 /\
  (24 <= length e.(ctx_bytes))%nat /\ Forall is_byte e.(ctx_bytes).

(** The decision of a destination program, read off the maps. *)
Definition destination_excluded (ipv6 : bool) (e : env) (pid_fd mode_fd range_fd bypass_fd : Z) : bool :=
  let uid := e.(uid_gid) mod 2 ^ 32 in
  let key := key_bytes (destination_key ipv6 uid e.(ctx_bytes)) in
  excluded (is_some (e.(map_lookup) pid_fd (le_bytes 4 (shr64 e.(pid_tgid) 32))))
    (is_some (e.(map_lookup) bypass_fd key))
    (e.(map_lookup) mode_fd (le_bytes 4 uid))
    (is_some (e.(map_lookup) range_fd key)).

(** The key on the stack, as the stores of the programs leave it. *)
Lemma destination_key4 ug a0 a1 a2 a3 a4 a5 a6 a7 rest :
  Forall is_byte [a4; a5; a6; a7] ->
  key_bytes (destination_key false (ug mod 2 ^ 32) (a0 :: a1 :: a2 :: a3 :: a4 :: a5 :: a6 :: a7 :: rest)) =
  le_bytes 4 64 ++ le_bytes 4 (le_val (le_bytes 4 ug)) ++ le_bytes 4 (le_val [a4; a5; a6; a7]).
Proof.
  intros H. pose proof (le_bytes_le_val _ H) as E. change (length _) with 4%nat in E.
  rewrite E, key_word.
  cbv [key_bytes destination_key ipv4_key destination_address key_prefix_len key_uid key_address].
  by rewrite key_word_mod.
Qed.

Lemma destination_key6 ug a0 a1 a2 a3 a4 a5 a6 a7 b0 b1 b2 b3 b4 b5 b6 b7 c0 c1 c2 c3 c4 c5 c6 c7 rest :
  Forall is_byte [b0; b1; b2; b3; b4; b5; b6; b7] ->
  Forall is_byte [c0; c1; c2; c3; c4; c5; c6; c7] ->
  key_bytes (destination_key true (ug mod 2 ^ 32)
    (a0 :: a1 :: a2 :: a3 :: a4 :: a5 :: a6 :: a7 :: b0 :: b1 :: b2 :: b3 :: b4 :: b5 :: b6 :: b7
     :: c0 :: c1 :: c2 :: c3 :: c4 :: c5 :: c6 :: c7 :: rest)) =
  le_bytes 4 160 ++ le_bytes 4 (le_val (le_bytes 4 ug)) ++
  le_bytes 8 (le_val [b0; b1; b2; b3; b4; b5; b6; b7]) ++
  le_bytes 8 (le_val [c0; c1; c2; c3; c4; c5; c6; c7]).
Proof.
  intros Hb Hc. pose proof (le_bytes_le_val _ Hb) as Eb. pose proof (le_bytes_le_val _ Hc) as Ec.
  change (length _) with 8%nat in Eb, Ec. rewrite Eb, Ec, key_word.
  cbv [key_bytes destination_key ipv6_key destination_address key_prefix_len key_uid key_address].
  by rewrite key_word_mod.
Qed.

Section Destination.
Context (pt ug : Z) (ks : Z -> nat) (lk : Z -> list Z -> option Z).
Context (pf mf rf bf mark : Z) (Hmark : 0 <= mark < 2 ^ 32).
Context (Hpf : ks pf = 4%nat) (Hmf : ks mf = 4%nat).

Ltac run_lookups Hrf Hbf :=
  repeat sym_step; sym_lookup Hpf;
  destruct (lk pf _); repeat sym_step; sym_lookup Hbf;
  destruct (lk bf _); repeat sym_step; try (sym_lookup Hmf; destruct (lk mf _); repeat sym_step);
  try (sym_lookup Hrf; destruct (lk rf _); repeat sym_step).

Lemma exec_destination4 a0 a1 a2 a3 a4 a5 a6 a7 rest p
    (Hrf : ks rf = 12%nat) (Hbf : ks bf = 12%nat) (Ha : Forall is_byte [a4; a5; a6; a7]) :
  let e := mkEnv pt ug (a0 :: a1 :: a2 :: a3 :: a4 :: a5 :: a6 :: a7 :: rest) ks lk in
  destination_mark_program pf mf rf bf false = Some p ->
  exec (length p) e p (start mark) =
    Some (1, destination_mark_policy (destination_excluded false e pf mf rf bf) mark).
Proof.
  intros e Hp. vm_compute in Hp. injection Hp as <-.
  unfold destination_excluded, e. cbv [pid_tgid uid_gid ctx_bytes map_lookup].
  rewrite destination_key4, key_word_mod by done.
  apply runs_exec. cbv [le_bytes map seq app length].
  run_lookups Hrf Hbf.
  all: sym_finish Hmark.
Qed.

Lemma exec_destination6 a0 a1 a2 a3 a4 a5 a6 a7 b0 b1 b2 b3 b4 b5 b6 b7 c0 c1 c2 c3 c4 c5 c6 c7 rest p
    (Hrf : ks rf = 24%nat) (Hbf : ks bf = 24%nat)
    (Hb : Forall is_byte [b0; b1; b2; b3; b4; b5; b6; b7])
    (Hc : Forall is_byte [c0; c1; c2; c3; c4; c5; c6; c7]) :
  let e := mkEnv pt ug
    (a0 :: a1 :: a2 :: a3 :: a4 :: a5 :: a6 :: a7 :: b0 :: b1 :: b2 :: b3 :: b4 :: b5 :: b6 :: b7
     :: c0 :: c1 :: c2 :: c3 :: c4 :: c5 :: c6 :: c7 :: rest) ks lk in
  destination_mark_program pf mf rf bf true = Some p ->
  exec (length p) e p (start mark) =
    Some (1, destination_mark_policy (destination_excluded true e pf mf rf bf) mark).
Proof.
  intros e Hp. vm_compute in Hp. injection Hp as <-.
  unfold destination_excluded, e. cbv [pid_tgid uid_gid ctx_bytes map_lookup].
  rewrite destination_key6, key_word_mod by done.
  apply runs_exec. cbv [le_bytes map seq app length].
  run_lookups Hrf Hbf.
  all: sym_finish Hmark.
Qed.

Lemma exec_socket ctx fd p (Hfd : ks fd = 4%nat) :
  let e := mkEnv pt ug ctx ks lk in
  socket_mark_program fd = Some p ->
  exec (length p) e p (start mark) =
    Some (1, socket_mark_policy (is_some (lk fd (le_bytes 4 (shr64 pt 32)))) mark).
Proof.
  intros e Hp. vm_compute in Hp. injection Hp as <-.
  apply runs_exec. cbv [le_bytes map seq app length].
  repeat sym_step. sym_lookup Hfd. destruct (lk fd _); repeat sym_step; reflexivity.
Qed.
End Destination.

Lemma programs_assemble pf mf rf bf :
  is_Some (socket_mark_program pf) /\
  is_Some (destination_mark_program pf mf rf bf false) /\
  is_Some (destination_mark_program pf mf rf bf true).
Proof. repeat split; vm_compute; eexists; reflexivity. Qed.

Lemma prefix_of_bytes n (ctx : list Z) :
  (n <= length ctx)%nat -> exists l rest, ctx = l ++ rest /\ length l = n.
Proof.
  intros H. exists (take n ctx), (drop n ctx). by rewrite take_drop, length_take, Nat.min_l.
Qed.

(** Name the elements of a list of known length. *)
Ltac list_elements l H :=
  lazymatch type of H with
  | length _ = O => destruct l; [clear H|discriminate H]
  | length _ = S _ =>
      let x := fresh "x" in destruct l as [|x l]; [discriminate H|injection H as H; list_elements l H]
  end.

Lemma exec_destination ipv6 e pf mf rf bf mark p :
  destination_env ipv6 e pf mf rf bf -> 0 <= mark < 2 ^ 32 ->
  destination_mark_program pf mf rf bf ipv6 = Some p ->
  exec (length p) e p (start mark) =
    Some (1, destination_mark_policy (destination_excluded ipv6 e pf mf rf bf) mark).
Proof.
  destruct e as [pt ug ctx ks lk]. intros (Hpf & Hmf & Hrf & Hbf & Hlen & Hb) Hmark Hp.
  cbn [key_size ctx_bytes] in *. destruct (prefix_of_bytes _ _ Hlen) as (l & rest & -> & Hl).
  list_elements l Hl. cbn [app] in *.
  repeat match goal with
  | H : Forall is_byte (_ :: _) |- _ => apply Forall_cons in H; destruct H
  end.
  destruct ipv6; cbn [range_key_size] in *.
  - apply (exec_destination6 pt ug ks lk pf mf rf bf mark Hmark Hpf Hmf);
      first [assumption|repeat (constructor; [assumption|]); constructor].
  - apply (exec_destination4 pt ug ks lk pf mf rf bf mark Hmark Hpf Hmf);
      first [assumption|repeat (constructor; [assumption|]); constructor].
Qed.

(** The mark of a socket after a program has run for each of several destinations in turn. *)
Fixpoint exec_all (p : list BpfInsn) (es : list env) (mark : Z) : option Z :=
  match es with
  | [] => Some mark
  | e :: es =>
      match exec (length p) e p (start mark) with
      | Some (1, k) => exec_all p es k
      | _ => None
      end
  end.

Lemma policy_range out mark : 0 <= mark < 2 ^ 32 -> 0 <= destination_mark_policy out mark < 2 ^ 32.
Proof. unfold destination_mark_policy, FWMARK_VALUE. repeat case_match; lia. Qed.

Lemma exec_all_exited p e es mark k :
  exec (length p) e p (start mark) = Some (1, k) -> exec_all p (e :: es) mark = exec_all p es k.
Proof. intros H. cbn [exec_all]. by rewrite H. Qed.

Lemma exec_all_policy ipv6 pf mf rf bf p es mark :
  destination_mark_program pf mf rf bf ipv6 = Some p ->
  Forall (fun e => destination_env ipv6 e pf mf rf bf) es -> 0 <= mark < 2 ^ 32 ->
  exec_all p es mark =
    Some (foldl (fun k e => destination_mark_policy (destination_excluded ipv6 e pf mf rf bf) k) mark es).
Proof.
  intros Hp Hes. revert mark. induction Hes as [|e es He _ IH]; intros mark Hmark; [done|].
  rewrite (exec_all_exited p e es mark (destination_mark_policy (destination_excluded ipv6 e pf mf rf bf) mark))
    by exact (exec_destination ipv6 e pf mf rf bf mark p He Hmark Hp).
  apply IH. by apply policy_range.
Qed.

(** ** Properties *)

(** C12: both destination programs assemble for any map descriptors, and on every attempt to reach a
    destination they pass the verifier-visible checks of the interpreter, finish within their own
    length, allow the packet (return 1) and leave exactly the mark of the policy: the caller's
    process, user and full-length destination key decide it through the maps. *)
Theorem destination_program_policy ipv6 pf mf rf bf :
  exists p, destination_mark_program pf mf rf bf ipv6 = Some p /\
  forall e mark, destination_env ipv6 e pf mf rf bf -> 0 <= mark < 2 ^ 32 ->
    exec (length p) e p (start mark) =
      Some (1, destination_mark_policy (destination_excluded ipv6 e pf mf rf bf) mark).
Proof.
  assert (is_Some (destination_mark_program pf mf rf bf ipv6)) as [p Hp]
    by (destruct (programs_assemble pf mf rf bf) as (_ & H4 & H6); destruct ipv6; assumption).
  exists p. split; [exact Hp|]. intros e mark He Hmark. exact (exec_destination ipv6 e pf mf rf bf mark p He Hmark Hp).
Qed.

(** the socket program assembles for any map descriptor; a socket created by a tracked process
    gets the split mark before its first use, any other socket keeps its mark. *)
Theorem socket_program_policy fd :
  exists p, socket_mark_program fd = Some p /\
  forall e mark, e.(key_size) fd = 4%nat ->
    exec (length p) e p (start mark) =
      Some (1, socket_mark_policy (is_some (e.(map_lookup) fd (le_bytes 4 (shr64 e.(pid_tgid) 32)))) mark).
Proof.
  destruct (programs_assemble fd 0 0 0) as ([p Hp] & _). exists p. split; [exact Hp|].
  intros [pt ug ctx ks lk] mark Hks. exact (exec_socket pt ug ks lk mark ctx fd p Hks Hp).
Qed.

(** decisions never leak from one destination to the next on the same socket.  Whatever
    destinations came before, the mark after the last one is that destination's own decision (the
    split mark, or none) as long as the socket started without a foreign mark; and a foreign mark
    survives any number of destinations that stay inside the tunnel. *)
Theorem destination_decisions_independent ipv6 pf mf rf bf p es mark :
  destination_mark_program pf mf rf bf ipv6 = Some p ->
  Forall (fun e => destination_env ipv6 e pf mf rf bf) es ->
  0 <= mark < 2 ^ 32 ->
  (forall es' e, es = es' ++ [e] -> mark = 0 \/ mark = FWMARK_VALUE ->
    exec_all p es mark = Some (if destination_excluded ipv6 e pf mf rf bf then FWMARK_VALUE else 0)) /\
  (Forall (fun e => destination_excluded ipv6 e pf mf rf bf = false) es -> mark <> FWMARK_VALUE ->
    exec_all p es mark = Some mark).
Proof.
  intros Hp Hes Hmark. rewrite (exec_all_policy ipv6 pf mf rf bf p es mark Hp Hes Hmark). clear Hp. split.
  - intros es' e -> Hm. rewrite foldl_app. simpl. f_equal.
    assert (Hk : forall k, k = 0 \/ k = FWMARK_VALUE -> forall out,
      destination_mark_policy out k = if out then FWMARK_VALUE else 0)
      by (intros k [->| ->] []; reflexivity).
    apply Hk. clear Hes. induction es' as [|e' es' IH] using rev_ind; [done|].
    rewrite foldl_app. simpl. rewrite Hk by done. destruct (destination_excluded ipv6 e' pf mf rf bf); auto.
  - intros Hin Hm. f_equal. clear Hes. induction Hin as [|e es He _ IH]; [done|]. simpl.
    rewrite He. unfold destination_mark_policy at 2.
    destruct (mark =? FWMARK_VALUE) eqn:E; [by apply Z.eqb_eq in E|done].
Qed.

(** ** Witnesses *)
Definition example_env (app mode range bypass : option Z) : env :=
  mkEnv (42 * 2 ^ 32 + 42) (1000 * 2 ^ 32 + 1000)
    ([2; 0; 0; 0; 198; 51; 100; 7] ++ replicate 16 0)
    (fun fd => if (fd =? 10) || (fd =? 11) then 4%nat else 12%nat)
    (fun fd key =>
      if fd =? 10 then (if decide (key = [42; 0; 0; 0]) then app else None)
      else if fd =? 11 then (if decide (key = [232; 3; 0; 0]) then mode else None)
      else if decide (key = [64; 0; 0; 0; 232; 3; 0; 0; 198; 51; 100; 7])
           then (if fd =? 12 then range else bypass) else None).

Lemma example_env_ok app mode range bypass :
  destination_env false (example_env app mode range bypass) 10 11 12 13.
Proof.
  unfold destination_env. split_and!; try reflexivity.
  apply Forall_forall. intros b Hb. unfold is_byte.
  repeat (apply elem_of_cons in Hb as [->|Hb]; [lia|]). by apply elem_of_nil in Hb.
Qed.

Lemma destination_program_policy_witness :
  exists p, destination_mark_program 10 11 12 13 false = Some p /\
    exec (length p) (example_env None (Some 0) (Some 1) None) p (start 0) = Some (1, FWMARK_VALUE) /\
    exec (length p) (example_env (Some 1) (Some 1) (Some 1) None) p (start FWMARK_VALUE) = Some (1, 0) /\
    exec (length p) (example_env None None None None) p (start 73) = Some (1, 73).
Proof.
  destruct (destination_program_policy false 10 11 12 13) as (p & Hp & H).
  exists p. split; [exact Hp|]. repeat split.
  - rewrite H; [vm_compute; reflexivity|apply example_env_ok|lia].
  - rewrite H; [vm_compute; reflexivity|apply example_env_ok|unfold FWMARK_VALUE; lia].
  - rewrite H; [vm_compute; reflexivity|apply example_env_ok|lia].
Defined.

Lemma socket_program_policy_witness :
  exists p, socket_mark_program 10 = Some p /\
    exec (length p) (example_env (Some 1) None None None) p (start 0) = Some (1, FWMARK_VALUE) /\
    exec (length p) (example_env None None None None) p (start 5) = Some (1, 5).
Proof.
  destruct (socket_program_policy 10) as (p & Hp & H).
  exists p. split; [exact Hp|]. split; rewrite H; vm_compute; reflexivity.
Defined.

Lemma examples_ok (l : list (option Z * option Z * option Z * option Z)) :
  Forall (fun e => destination_env false e 10 11 12 13)
    (map (fun '(app, mode, range, bypass) => example_env app mode range bypass) l).
Proof. induction l as [|[[[a m] r] b] l IH]; constructor; [apply example_env_ok|done]. Qed.

Lemma destination_decisions_independent_witness :
  exists p, destination_mark_program 10 11 12 13 false = Some p /\
    exec_all p [example_env None (Some 0) (Some 1) None; example_env None (Some 0) None None] 0 = Some 0 /\
    exec_all p [example_env None (Some 1) (Some 1) None] 73 = Some 73.
Proof.
  destruct (programs_assemble 10 11 12 13) as (_ & [p Hp] & _).
  exists p. split; [exact Hp|]. split.
  - rewrite (proj1 (destination_decisions_independent false 10 11 12 13 p
      [example_env None (Some 0) (Some 1) None; example_env None (Some 0) None None] 0 Hp
      (examples_ok [(None, Some 0, Some 1, None); (None, Some 0, None, None)])
      ltac:(lia))
      [example_env None (Some 0) (Some 1) None] (example_env None (Some 0) None None) eq_refl
      (or_introl eq_refl)).
    vm_compute. reflexivity.
  - apply (proj2 (destination_decisions_independent false 10 11 12 13 p
      [example_env None (Some 1) (Some 1) None] 73 Hp
      (examples_ok [(None, Some 1, Some 1, None)]) ltac:(lia)));
    [repeat constructor|discriminate].
Defined.
