(* ===== verification/SplitModel.v ===== *)
(** The data model of the split-tunnelling daemon ([splitd/src/model.rs]): configurations, their
    validation, and how a process's identities are matched against them.

    Address parsing belongs to the [ipnet] crate and to [std::net]; it enters through the class
    [IpLib], and the documented facts the daemon relies on are the class [IpLaws]. *)
From S2P Require Export RustStr.
Open Scope string_scope.
Open Scope Z_scope.
Open Scope list_scope.
Open Scope rust_scope.

(** ** Addresses and networks *)

(** [std::net::IpAddr]: the octets of the address in network order. *)
Inductive IpAddr : Type :=
  | IpV4 (octets : list Z)
  | IpV6 (octets : list Z).

#[export] Instance IpAddr_eq_dec : EqDecision IpAddr.
Proof. solve_decision. Defined.

Definition is_ipv4 (a : IpAddr) : bool := match a with IpV4 _ => true | IpV6 _ => false end.

(** What the daemon calls of [std::net::IpAddr] and [ipnet::IpNet]. *)
Class IpLib : Type := mkIpLib {
  addr_from_str : string -> option IpAddr;
  addr_to_string : IpAddr -> string;
  IpNet : Type;
  net_from_str : string -> option IpNet;
  (** [IpNet::new(address, 32 or 128).expect(..)]: the network of one address. *)
  net_of_addr : IpAddr -> IpNet;
  net_trunc : IpNet -> IpNet;
  net_to_string : IpNet -> string;
  (** [network()] and [prefix_len()]; the address's variant is the network's. *)
  net_network : IpNet -> IpAddr;
  net_prefix_len : IpNet -> Z }.

(** Documented behaviour: truncation to the prefix is idempotent; the printed forms parse back, are
    short and hold neither white space nor NUL. *)
Class IpLaws (L : IpLib) : Prop := mkIpLaws {
  net_trunc_trunc : forall n, net_trunc (net_trunc n) = net_trunc n;
  net_roundtrip : forall n, net_from_str (net_to_string n) = Some n;
  net_text_trim : forall n, trim (net_to_string n) = net_to_string n;
  net_text_nonempty : forall n, is_empty (net_to_string n) = false;
  net_text_len : forall n, str_len (net_to_string n) <= 64;
  net_text_nul : forall n, contains_char "000" (net_to_string n) = false;
  addr_roundtrip : forall s a, addr_from_str s = Some a -> addr_from_str (addr_to_string a) = Some a;
  addr_text_trim : forall s a, addr_from_str s = Some a -> is_empty (trim (addr_to_string a)) = false }.

(** ** Configurations *)
Definition MAX_CONFIGS : Z := 64.
Definition MAX_PATHS : Z := 256.
Definition MAX_PATH_BYTES : Z := 4096.
Definition MAX_IP_RANGES : Z := 256.

Inductive SplitMode : Type :=
  | Exclude
  | Include.

#[export] Instance SplitMode_eq_dec : EqDecision SplitMode.
Proof. solve_decision. Defined.

Definition SplitMode_parse (value : string) : result SplitMode string :=
  if String.eqb value "exclude" then Ok Exclude
  else if String.eqb value "include" then Ok Include
  else Err "mode must be 'exclude' or 'include'".

Definition SplitMode_as_str (m : SplitMode) : string :=
  match m with Exclude => "exclude" | Include => "include" end.

Record SplitConfig : Type := mkSplitConfig {
  sc_mode : SplitMode;
  sc_app_paths : list string;
  sc_ip_ranges : list string }.

#[export] Instance SplitConfig_eq_dec : EqDecision SplitConfig.
Proof. solve_decision. Defined.

(** [BTreeMap]s from users (16-bit ids). *)
Abbreviation ConfigMap := (gmap Z SplitConfig).
Abbreviation PolicyMap := (gmap Z (list string)).

Definition vec_len {A : Type} (l : list A) : Z := Z.of_nat (length l).

(** Drop empty values and repetitions, keeping first occurrences. *)
Definition normalize (values : list string) : list string :=
  foldl (fun normalized value =>
    if is_empty value || bool_decide (value ∈ normalized) then normalized
    else normalized ++ [value]) [] values.

Definition bad_value (value : string) : bool :=
  (MAX_PATH_BYTES <? str_len value) || contains_char "000" value.

Definition too_many (limit : Z) (what : string) : string :=
  "at most " +:+ dec limit +:+ " " +:+ what +:+ " are allowed".
Definition value_error : string :=
  "configuration values must be at most " +:+ dec MAX_PATH_BYTES +:+ " bytes".

Section Ranges.
Context {L : IpLib}.

Definition parse_ip_range (value : string) : result IpNet string :=
  let value := trim value in
  res_map net_trunc
    (match net_from_str value with
     | Some n => Ok n
     | None =>
         match addr_from_str value with
         | Some a => Ok (net_of_addr a)
         | None => Err ("invalid IP address or CIDR range: " +:+ value)
         end
     end).

Definition canonical_ip_range (value : string) : result string string :=
  res_map net_to_string (parse_ip_range value).

Definition validate_ip_ranges (values : list string) : result (list string) string :=
  if MAX_IP_RANGES <? vec_len values then Err (too_many MAX_IP_RANGES "IP ranges")
  else if existsb bad_value values then Err value_error
  else
    let? values :=
      res_collect canonical_ip_range (retain (fun v => negb (is_empty (trim v))) values) in
    Ok (normalize values).

Definition validate (c : SplitConfig) : result SplitConfig string :=
  if MAX_PATHS <? vec_len c.(sc_app_paths) then Err (too_many MAX_PATHS "application paths")
  else if MAX_IP_RANGES <? vec_len c.(sc_ip_ranges) then Err (too_many MAX_IP_RANGES "IP ranges")
  else if existsb bad_value (c.(sc_app_paths) ++ c.(sc_ip_ranges)) then Err value_error
  else
    let? ip_ranges := validate_ip_ranges c.(sc_ip_ranges) in
    Ok (mkSplitConfig c.(sc_mode) (normalize c.(sc_app_paths)) ip_ranges).
End Ranges.

(** ** Rules and matching *)
Definition has_app_rules (c : SplitConfig) : bool :=
  existsb (fun path => negb (is_empty path)) c.(sc_app_paths).

Definition has_rules (c : SplitConfig) : bool :=
  has_app_rules c || match c.(sc_ip_ranges) with [] => false | _ => true end.

Definition starts_with_whitespace (s : string) : bool :=
  match strip_ws s with Some _ => true | None => false end.

Definition identity_matches_path (identity path : string) : bool :=
  String.eqb identity path
  || match strip_prefix path identity with
     | Some suffix => starts_with_whitespace suffix
     | None => false
     end.

Definition own_process (identity : string) : bool :=
  str_contains "protonvpn-app" identity || str_contains "proton-omarchy-agent" identity.

Definition matches (c : SplitConfig) (identities : list string) : bool :=
  if match c.(sc_mode) with Include => existsb own_process identities | Exclude => false end then true
  else existsb (fun path => existsb (fun identity => identity_matches_path identity path) identities)
         (retain (fun path => negb (is_empty path)) c.(sc_app_paths)).

Definition excludes (c : SplitConfig) (matched : bool) : bool :=
  match c.(sc_mode) with Exclude => matched | Include => negb matched end.

(** ** Lemmas *)

Lemma normalize_acc values acc :
  NoDup acc -> Forall (fun v => is_empty v = false) acc ->
  let r := foldl (fun normalized value =>
      if is_empty value || bool_decide (value ∈ normalized) then normalized
      else normalized ++ [value]) acc values in
  NoDup r /\ Forall (fun v => is_empty v = false) r /\
  (forall v, v ∈ r <-> v ∈ acc \/ (v ∈ values /\ is_empty v = false)) /\
  (length r <= length acc + length values)%nat.
Proof.
  revert acc. induction values as [|x xs IH]; intros acc Hnd Hne; simpl.
  - split_and!; [done..| |lia]. intros v. rewrite elem_of_nil. tauto.
  - destruct (is_empty x) eqn:Ex; simpl.
    + destruct (IH acc Hnd Hne) as (H1 & H2 & H3 & H4). split_and!; [done..| |lia].
      intros v. rewrite H3, elem_of_cons. intuition congruence.
    + case_bool_decide as Hin.
      * destruct (IH acc Hnd Hne) as (H1 & H2 & H3 & H4). split_and!; [done..| |lia].
        intros v. rewrite H3, elem_of_cons. intuition congruence.
      * destruct (IH (acc ++ [x])) as (H1 & H2 & H3 & H4).
        { apply NoDup_app. split_and!; [done| |apply NoDup_singleton].
          intros y Hy ->%list_elem_of_singleton. done. }
        { apply Forall_app. split; [done|]. by constructor. }
        split_and!; [done..| |rewrite length_app in H4; simpl in H4; lia].
        intros v. rewrite H3, elem_of_app, list_elem_of_singleton, elem_of_cons.
        intuition congruence.
Qed.

Lemma normalize_spec values :
  NoDup (normalize values) /\ Forall (fun v => is_empty v = false) (normalize values) /\
  (forall v, v ∈ normalize values <-> v ∈ values /\ is_empty v = false) /\
  (length (normalize values) <= length values)%nat.
Proof.
  destruct (normalize_acc values []) as (H1 & H2 & H3 & H4); [constructor..|].
  split_and!; [done..| |done]. intros v. unfold normalize. rewrite H3, elem_of_nil. tauto.
Qed.

Lemma normalize_acc_id values acc :
  NoDup (acc ++ values) -> Forall (fun v => is_empty v = false) values ->
  foldl (fun normalized value =>
      if is_empty value || bool_decide (value ∈ normalized) then normalized
      else normalized ++ [value]) acc values = acc ++ values.
Proof.
  revert acc. induction values as [|x xs IH]; intros acc Hnd Hne; simpl; [by rewrite app_nil_r|].
  apply Forall_cons in Hne as [-> Hne]. simpl.
  rewrite bool_decide_eq_false_2.
  - rewrite IH; [by rewrite <- app_assoc| |done]. by rewrite <- app_assoc.
  - intros Hin. apply NoDup_app in Hnd as (_ & H & _). apply (H x Hin). left.
Qed.

Lemma normalize_id values :
  NoDup values -> Forall (fun v => is_empty v = false) values -> normalize values = values.
Proof. intros H1 H2. unfold normalize. by rewrite normalize_acc_id. Qed.

Lemma existsb_false {A : Type} (p : A -> bool) l : existsb p l = false <-> Forall (fun x => p x = false) l.
Proof.
  induction l as [|x l IH]; simpl; [by split; [constructor|]|].
  rewrite orb_false_iff, IH, Forall_cons. tauto.
Qed.

Lemma existsb_elem {A : Type} (p : A -> bool) l : existsb p l = true <-> exists x, x ∈ l /\ p x = true.
Proof.
  rewrite List.existsb_exists. split; intros (x & Hx & Hp); exists x; by rewrite list_elem_of_In in *.
Qed.

Section Validation.
Context {L : IpLib} {LW : IpLaws L}.

(** The printed form of a network truncated to its prefix. *)
Definition canonical (s : string) : Prop := exists n, s = net_to_string n /\ net_trunc n = n.

Record valid_ranges (l : list string) : Prop := mkValidRanges {
  vr_len : vec_len l <= MAX_IP_RANGES;
  vr_nodup : NoDup l;
  vr_canonical : Forall canonical l }.

Record valid_config (c : SplitConfig) : Prop := mkValidConfig {
  vc_paths_len : vec_len c.(sc_app_paths) <= MAX_PATHS;
  vc_paths_nodup : NoDup c.(sc_app_paths);
  vc_paths : Forall (fun p => is_empty p = false /\ bad_value p = false) c.(sc_app_paths);
  vc_ranges : valid_ranges c.(sc_ip_ranges) }.

Lemma canonical_trim s : canonical s -> trim s = s.
Proof. intros (n & -> & _). apply net_text_trim. Qed.

Lemma canonical_nonempty s : canonical s -> is_empty s = false.
Proof. intros (n & -> & _). apply net_text_nonempty. Qed.

Lemma canonical_good s : canonical s -> bad_value s = false.
Proof.
  intros (n & -> & _). unfold bad_value. rewrite net_text_nul, orb_false_r.
  apply Z.ltb_ge. pose proof (net_text_len n). unfold MAX_PATH_BYTES. lia.
Qed.

Lemma canonical_parse s : canonical s -> canonical_ip_range s = Ok s.
Proof.
  intros Hs. unfold canonical_ip_range, parse_ip_range. rewrite canonical_trim by done.
  destruct Hs as (n & -> & Hn). rewrite net_roundtrip. simpl. by rewrite Hn.
Qed.

Lemma canonical_ip_range_sound v s : canonical_ip_range v = Ok s -> canonical s.
Proof.
  unfold canonical_ip_range. destruct (parse_ip_range v) as [n|e] eqn:E; [|done].
  intros [= <-]. exists n. split; [done|]. revert E. unfold parse_ip_range.
  destruct (match net_from_str _ with Some n => _ | None => _ end) as [m|]; [|done].
  intros [= <-]. apply net_trunc_trunc.
Qed.

Lemma collect_canonical l l' :
  res_collect canonical_ip_range l = Ok l' -> Forall canonical l' /\ length l' = length l.
Proof.
  rewrite res_collect_Ok. induction 1 as [|v s l l' Hv _ [IH1 IH2]]; [done|].
  split; [|simpl; congruence]. constructor; [by eapply canonical_ip_range_sound|done].
Qed.

Lemma validate_ip_ranges_sound l l' : validate_ip_ranges l = Ok l' -> valid_ranges l'.
Proof.
  unfold validate_ip_ranges. destruct (_ <? _) eqn:Hlen; [done|].
  destruct (existsb bad_value l); [done|].
  destruct (res_collect _ _) as [ss|] eqn:E; [|done]. intros [= <-].
  apply collect_canonical in E as [Hc Hl]. destruct (normalize_spec ss) as (H1 & H2 & H3 & H4).
  bool_prop. split; [|done|].
  - pose proof (retain_length (fun v => negb (is_empty (trim v))) l). unfold vec_len in *. lia.
  - apply Forall_forall. intros v [Hv _]%H3. rewrite Forall_forall in Hc. auto.
Qed.

Lemma valid_ranges_good l : valid_ranges l -> existsb bad_value l = false.
Proof.
  intros [_ _ Hc]. apply existsb_false. eapply Forall_impl; [done|]. apply canonical_good.
Qed.

Lemma validate_ip_ranges_fixed l : valid_ranges l -> validate_ip_ranges l = Ok l.
Proof.
  intros Hl. unfold validate_ip_ranges. rewrite valid_ranges_good by done.
  destruct Hl as [Hlen Hnd Hc].
  assert ((MAX_IP_RANGES <? vec_len l) = false) as -> by (apply Z.ltb_ge; lia).
  rewrite retain_id.
  - assert (res_collect canonical_ip_range l = Ok l) as ->.
    { apply res_collect_Ok. clear Hlen Hnd. induction Hc; constructor; auto using canonical_parse. }
    simpl. rewrite normalize_id; [done..|].
    eapply Forall_impl; [done|]. apply canonical_nonempty.
  - eapply Forall_impl; [done|]. intros s Hs. simpl. by rewrite canonical_trim, canonical_nonempty.
Qed.

Lemma validate_inv c c' :
  validate c = Ok c' ->
  vec_len c.(sc_app_paths) <= MAX_PATHS /\ existsb bad_value (c.(sc_app_paths) ++ c.(sc_ip_ranges)) = false /\
  exists r, validate_ip_ranges c.(sc_ip_ranges) = Ok r /\
            c' = mkSplitConfig c.(sc_mode) (normalize c.(sc_app_paths)) r.
Proof.
  unfold validate. destruct (MAX_PATHS <? _) eqn:E1; [discriminate|].
  destruct (MAX_IP_RANGES <? _) eqn:E2; [discriminate|].
  destruct (existsb bad_value _) eqn:Hbad; [discriminate|].
  destruct (validate_ip_ranges _) as [r|] eqn:Hr; [|discriminate]. intros [= <-]. bool_prop. eauto.
Qed.

Lemma validate_sound c c' : validate c = Ok c' -> valid_config c'.
Proof.
  intros (Hlen & Hbad & r & Hr & ->)%validate_inv.
  destruct (normalize_spec c.(sc_app_paths)) as (H1 & H2 & H3 & H4).
  split; simpl; [unfold vec_len in *; lia|exact H1| |exact (validate_ip_ranges_sound _ _ Hr)].
  apply Forall_forall. intros p [Hp He]%H3. split; [done|].
  apply existsb_false in Hbad. rewrite Forall_app, !Forall_forall in Hbad. destruct Hbad as [Hb _]. auto.
Qed.

Lemma validate_fixed c : valid_config c -> validate c = Ok c.
Proof.
  intros [H1 H2 H3 H4]. unfold validate. rewrite validate_ip_ranges_fixed by done.
  assert ((MAX_PATHS <? vec_len c.(sc_app_paths)) = false) as -> by (apply Z.ltb_ge; lia).
  assert ((MAX_IP_RANGES <? vec_len c.(sc_ip_ranges)) = false) as ->
    by (apply Z.ltb_ge; apply vr_len; done).
  rewrite existsb_app, (valid_ranges_good c.(sc_ip_ranges)), orb_false_r by done.
  assert (existsb bad_value c.(sc_app_paths) = false) as ->.
  { apply existsb_false. eapply Forall_impl; [done|]. intros p [_ Hp]. exact Hp. }
  cbn [res_bind]. rewrite normalize_id; [by destruct c|done|].
  eapply Forall_impl; [done|]. intros p [Hp _]. exact Hp.
Qed.

(** What [validate] asks of its argument. *)
Definition acceptable (c : SplitConfig) : Prop :=
  vec_len c.(sc_app_paths) <= MAX_PATHS /\ vec_len c.(sc_ip_ranges) <= MAX_IP_RANGES /\
  Forall (fun v => bad_value v = false) (c.(sc_app_paths) ++ c.(sc_ip_ranges)) /\
  Forall (fun v => is_empty (trim v) = true \/ is_ok (parse_ip_range v) = true) c.(sc_ip_ranges).

Lemma collect_is_ok (l : list string) :
  is_ok (res_collect canonical_ip_range l) = true <-> Forall (fun v => is_ok (parse_ip_range v) = true) l.
Proof.
  induction l as [|v l IH]; simpl; [by split; [constructor|]|].
  rewrite Forall_cons, <- IH. unfold canonical_ip_range at 1.
  destruct (parse_ip_range v); simpl; [|intuition congruence].
  destruct (res_collect _ _); simpl; intuition congruence.
Qed.

Lemma validate_ip_ranges_ok l :
  is_ok (validate_ip_ranges l) = true <->
  vec_len l <= MAX_IP_RANGES /\ Forall (fun v => bad_value v = false) l /\
  Forall (fun v => is_empty (trim v) = true \/ is_ok (parse_ip_range v) = true) l.
Proof.
  unfold validate_ip_ranges. destruct (_ <? _) eqn:E; bool_prop; simpl; [split; [done|lia]|].
  rewrite <- existsb_false. destruct (existsb bad_value l); simpl; [intuition congruence|].
  assert (Heq : Forall (fun v => is_empty (trim v) = true \/ is_ok (parse_ip_range v) = true) l <->
    Forall (fun v => is_ok (parse_ip_range v) = true) (retain (fun v => negb (is_empty (trim v))) l)).
  { clear. induction l as [|v l IH]; simpl; [by split; constructor|].
    rewrite Forall_cons, IH. destruct (is_empty (trim v)) eqn:Ev; simpl; rewrite ?Forall_cons; intuition congruence. }
  rewrite Heq, <- collect_is_ok. destruct (res_collect _ _); simpl; intuition congruence.
Qed.

(** [validate] accepts exactly the configurations within the limits whose non-blank ranges all
    parse, and what it returns is a normal form: the same mode, the same non-empty paths each once,
    canonical ranges each once, and validating it again changes nothing. *)
Theorem validate_normal_form c :
  (is_ok (validate c) = true <-> acceptable c) /\
  (forall c', validate c = Ok c' ->
    valid_config c' /\ c'.(sc_mode) = c.(sc_mode) /\
    (forall p, p ∈ c'.(sc_app_paths) <-> p ∈ c.(sc_app_paths) /\ is_empty p = false) /\
    validate c' = Ok c').
Proof.
  split.
  - unfold validate, acceptable. destruct (MAX_PATHS <? _) eqn:E1; bool_prop; [split; [done|lia]|].
    destruct (MAX_IP_RANGES <? _) eqn:E2; bool_prop; [split; [done|lia]|].
    pose proof (validate_ip_ranges_ok c.(sc_ip_ranges)) as Hr.
    rewrite <- existsb_false. rewrite existsb_app.
    rewrite <- existsb_false in Hr.
    destruct (existsb bad_value (sc_app_paths c)), (existsb bad_value (sc_ip_ranges c)); simpl;
      [intuition congruence..|].
    destruct (validate_ip_ranges (sc_ip_ranges c)); simpl in *; intuition congruence.
  - intros c' Hc'. pose proof (validate_sound _ _ Hc') as Hv.
    pose proof (validate_fixed _ Hv) as Hf. apply validate_inv in Hc' as (_ & _ & r & _ & ->).
    split_and!; [done..| |done]. apply normalize_spec.
Qed.
End Validation.

Lemma strip_prefix_Some p s r : strip_prefix p s = Some r <-> s = p +:+ r.
Proof.
  revert s. induction p as [|a p IH]; intros s; simpl.
  - split; [by intros [= ->]|by intros ->].
  - destruct s as [|b s]; simpl; [split; [done|]; discriminate|].
    destruct (Ascii.eqb_spec a b) as [->|Hab].
    + rewrite IH. split; [intros ->; done|intros [= ->]; done].
    + split; [done|]. intros [= ->]. done.
Qed.

(** whether a process leaves the tunnel.  A path matches an identity that is the path itself or
    the path followed by white space, never a longer file name; in include mode the application's
    own processes always count as matched and therefore stay inside, whatever the paths say. *)
Theorem exclusion_decision c identities :
  let path_match := exists path identity, path ∈ c.(sc_app_paths) /\ is_empty path = false /\
    identity ∈ identities /\
    (identity = path \/
     exists suffix, identity = path +:+ suffix /\ starts_with_whitespace suffix = true) in
  excludes c (matches c identities) = true <->
  match c.(sc_mode) with
  | Exclude => path_match
  | Include => ~ (path_match \/ exists identity, identity ∈ identities /\ own_process identity = true)
  end.
Proof.
  intros path_match.
  assert (Hp : existsb (fun path => existsb (fun identity => identity_matches_path identity path) identities)
         (retain (fun path => negb (is_empty path)) c.(sc_app_paths)) = true <-> path_match).
  { rewrite existsb_elem. unfold path_match. split.
    - intros (path & [Hin Hne]%retain_elem & (identity & Hid & Hm)%existsb_elem). bool_prop.
      exists path, identity. split_and!; [done..|]. unfold identity_matches_path in Hm.
      apply orb_prop in Hm as [Hm|Hm]; [left; by apply String.eqb_eq|right].
      destruct (strip_prefix path identity) as [suffix|] eqn:E; [|done].
      apply strip_prefix_Some in E. eauto.
    - intros (path & identity & Hin & Hne & Hid & Hm). exists path. rewrite retain_elem, Hne.
      split; [done|]. apply existsb_elem. exists identity. split; [done|].
      unfold identity_matches_path. destruct Hm as [->|(suffix & -> & Hw)].
      + by rewrite String.eqb_refl.
      + assert (strip_prefix path (path +:+ suffix) = Some suffix) as -> by by apply strip_prefix_Some.
        rewrite Hw. apply orb_true_r. }
  unfold excludes, matches. destruct (sc_mode c).
  - simpl. apply Hp.
  - rewrite negb_true_iff. rewrite <- existsb_elem.
    destruct (existsb own_process identities); [intuition congruence|].
    rewrite <- Hp. destruct (existsb _ _); intuition congruence.
Qed.

(** ** An instance of the address library with two networks and one address *)
Definition example_lib : IpLib :=
  mkIpLib
    (fun s => if String.eqb s "192.0.2.1" then Some (IpV4 [192; 0; 2; 1]) else None)
    (fun _ => "192.0.2.1") bool (fun s => if String.eqb s "192.0.2.0/24" then Some true
       else if String.eqb s "192.0.2.42/24" then Some false else None)
    (fun _ => true) (fun _ => true) (fun b => if b then "192.0.2.0/24" else "192.0.2.42/24")
    (fun _ => IpV4 [192; 0; 2; 0]) (fun _ => 24).

#[export] Instance example_laws : IpLaws example_lib.
Proof.
  split.
  1-4,6: intros []; reflexivity.
  - intros []; vm_compute; discriminate.
  - intros s a. simpl. by destruct (String.eqb s "192.0.2.1").
  - by intros s a _.
Qed.

Lemma validate_normal_form_witness :
  let c := mkSplitConfig Exclude ["/usr/bin/firefox"; ""; "/usr/bin/firefox"]
             ["192.0.2.42/24"; " "; "192.0.2.0/24"] in
  exists c', @validate example_lib c = Ok c' /\ c'.(sc_ip_ranges) = ["192.0.2.0/24"] /\
    @validate example_lib c' = Ok c' /\ @acceptable example_lib c.
Proof.
  intros c. destruct (@validate_normal_form example_lib example_laws c) as [H1 H2].
  eexists. split; [vm_compute; reflexivity|]. split; [reflexivity|]. split.
  - apply (H2 (mkSplitConfig Exclude ["/usr/bin/firefox"] ["192.0.2.0/24"])). vm_compute. reflexivity.
  - apply H1. vm_compute. reflexivity.
Defined.
