(* ===== verification/StoreText.v ===== *)
(** Parameters of the agent's store ([agent/src/store.rs]): the checked accessors of the request
    objects, locale tags, account fingerprints and fresh identifiers, with the string lemmas the store
    shares.

    The clock is the argument [now] of the functions that read it; one argument per reading. *)
From S2P Require Export Protocol SplitModel.
Open Scope string_scope.
Open Scope Z_scope.
Open Scope list_scope.
Open Scope rust_scope.

(** ** Constants *)
Definition STORE_VERSION : Z := 1.
Definition MAX_STORE_BYTES : Z := 1024 * 1024.
Definition MAX_PROFILES : Z := 128.
Definition MAX_EXCLUDED_LOCATIONS : Z := 256.
Definition MAX_UNPINNED_RECENTS : nat := 6.
Definition MAX_PAGE_SIZE : Z := 100.
Definition LEGACY_SCOPE : string := "legacy-unscoped".

Abbreviation Map := (gmap string json).

(** ** Checked accessors *)
Definition invalid_params (message : string) : BackendError := BackendError_new "invalid_params" message.

Definition object_params (v : json) : result Map BackendError :=
  ok_or (as_object v) (invalid_params "params must be an object").

(** [raw.contains(['\0', '\n', '\r'])]. *)
Definition has_line_break (s : string) : bool :=
  contains_char "000" s || contains_char "010" s || contains_char "013" s.

Definition string_value (v : option json) (max_chars : Z) (do_trim : bool) : result string BackendError :=
  match v with
  | None => Ok ""
  | Some v =>
      let? raw := ok_or (as_str v) (invalid_params "Expected a string value") in
      let raw := if do_trim then trim raw else raw in
      if (max_chars <? chars_count raw) || has_line_break raw
      then Err (invalid_params "String value has an invalid length or characters")
      else Ok raw
  end.

Definition required_string (object : Map) (key : string) (max_chars : Z) : result string BackendError :=
  let? value := string_value (object !! key) max_chars true in
  if is_empty value then Err (invalid_params (key +:+ " is required")) else Ok value.

Definition string_or (object : Map) (key fallback : string) (max_chars : Z) : result string BackendError :=
  match object !! key with
  | None => Ok fallback
  | Some v =>
      let? value := string_value (Some v) max_chars true in
      Ok (if is_empty value then fallback else value)
  end.

Definition required_bool (object : Map) (key : string) : result bool BackendError :=
  ok_or (get_bool object key) (invalid_params (key +:+ " must be a boolean")).

Definition optional_bool (object : Map) (key : string) (fallback : bool) : result bool BackendError :=
  match object !! key with
  | Some v => ok_or (as_bool v) (invalid_params (key +:+ " must be a boolean"))
  | None => Ok fallback
  end.

(** [usize] has 64 bits. *)
Definition bounded_usize (params : json) (key : string) (fallback maximum : Z) : result Z BackendError :=
  match jget key params with
  | None => Ok fallback
  | Some v =>
      let? value := ok_or (as_u64 v ?> u_try_from 64) (invalid_params (key +:+ " must be an integer")) in
      if maximum <? value then Err (invalid_params (key +:+ " exceeds the maximum")) else Ok value
  end.

Definition nonempty (object : Map) (key : string) : bool :=
  match get_str object key with Some s => negb (is_empty (trim s)) | None => false end.

(** ** Locale tags *)
Definition locale_part_ok (part : string) : bool :=
  negb (is_empty part) && (str_len part <=? 8) && str_forall is_ascii_alphanumeric part.

Definition locale_valid (raw : string) (parts : list string) : bool :=
  match parts with
  | [] => false
  | first :: rest =>
      negb (is_empty raw) && (str_len raw <=? 35)
      && (2 <=? str_len first) && (str_len first <=? 8) && str_forall is_ascii_alphabetic first
      && forallb locale_part_ok rest
  end.

Definition title_case (s : string) : string :=
  match to_ascii_lowercase s with
  | String a r => String (ascii_upper a) r
  | "" => ""
  end.

Definition locale_part (index : nat) (part : string) : string :=
  if bool_decide (index = 0%nat) then to_ascii_lowercase part
  else if (str_len part =? 2) && str_forall is_ascii_alphabetic part then to_ascii_uppercase part
  else if (str_len part =? 4) && str_forall is_ascii_alphabetic part then title_case part
  else to_ascii_lowercase part.

Definition locale_value (v : option json) : result string BackendError :=
  let raw := replace_char "_" "-" (trim (unwrap_or (v ?> as_str) "")) in
  let parts := split_char "-" raw in
  if negb (locale_valid raw parts)
  then Err (BackendError_new "invalid_locale" "locale must be a valid bounded BCP 47 language tag")
  else Ok (join "-" (imap locale_part parts)).

(** ** Account fingerprints: 64-bit FNV-1a of the lower-cased name *)
Definition fnv_step (hash : Z) (b : ascii) : Z := (Z.lxor hash (byte b) * 0x100000001b3) mod 2 ^ 64.
Definition fnv1a (s : string) : Z := foldl fnv_step 0xcbf29ce484222325 (String.list_ascii_of_string s).

(** [str::to_lowercase] follows the Unicode tables of the standard library. *)
Class UnicodeLower : Type := to_lowercase : string -> string.

Definition account_fingerprint `{UnicodeLower} (account_name : string) : string :=
  "account-" +:+ hex_fmt 16 (fnv1a (to_lowercase (trim account_name))).

(** ** Fresh identifiers *)
Definition value_id (v : json) : option string := jget "id" v ?> as_str.
Definition has_value_id (id : string) (v : json) : bool := bool_decide (value_id v = Some id).

Definition id_of_sequence (prefix : string) (now sequence : Z) : string :=
  prefix +:+ "-" +:+ hex_fmt 16 now +:+ "-" +:+ hex_fmt 4 sequence.

(** The loop [for sequence in 0_u64..] of [unique_id] with [fuel] turns. *)
Fixpoint unique_id_from (fuel : nat) (prefix : string) (now sequence : Z) (values : list json)
    : option string :=
  match fuel with
  | O => None
  | S fuel =>
      let id := id_of_sequence prefix now sequence in
      if negb (existsb (has_value_id id) values) then Some id
      else unique_id_from fuel prefix now (sequence + 1) values
  end.

(** One turn more than there are values is enough: [unique_id_total]. *)
Definition unique_id (prefix : string) (now : Z) (values : list json) : string :=
  unwrap_or (unique_id_from (S (length values)) prefix now 0 values) "".

(** ** Lemmas *)
Lemma id_of_sequence_inj prefix now i j :
  0 <= i -> 0 <= j -> id_of_sequence prefix now i = id_of_sequence prefix now j -> i = j.
Proof.
  intros Hi Hj H. unfold id_of_sequence in H. do 4 apply append_inj_l in H. by apply hex_fmt_inj in H.
Qed.

Lemma has_value_id_true id v : has_value_id id v = true <-> value_id v = Some id.
Proof. apply bool_decide_eq_true. Qed.

Lemma unique_id_from_fresh fuel prefix now sequence values id :
  unique_id_from fuel prefix now sequence values = Some id -> existsb (has_value_id id) values = false.
Proof.
  revert sequence. induction fuel as [|fuel IH]; intros sequence; simpl; [done|].
  destruct (existsb (has_value_id (id_of_sequence prefix now sequence)) values) eqn:E; simpl; [apply IH|].
  by intros [= <-].
Qed.

Lemma unique_id_from_None fuel prefix now sequence values :
  unique_id_from fuel prefix now sequence values = None ->
  forall k, 0 <= k < Z.of_nat fuel -> id_of_sequence prefix now (sequence + k) ∈ omap value_id values.
Proof.
  revert sequence. induction fuel as [|fuel IH]; intros sequence; simpl; [lia|].
  destruct (existsb _ _) eqn:E; simpl; [|done]. intros H k Hk. destruct (decide (k = 0)) as [->|].
  - rewrite Z.add_0_r. apply existsb_exists in E as (v & Hv & Hid). apply list_elem_of_omap.
    exists v. split; [by apply list_elem_of_In|by apply has_value_id_true].
  - replace (sequence + k) with (sequence + 1 + (k - 1)) by lia. apply IH; [done|lia].
Qed.

Lemma omap_length_le {A B : Type} (f : A -> option B) (l : list A) : (length (omap f l) <= length l)%nat.
Proof. induction l as [|x l IH]; csimpl; [lia|]. destruct (f x); simpl; lia. Qed.

(** The loop of [unique_id] ends within one turn more than there are values. *)
Lemma unique_id_total prefix now values :
  exists id, unique_id_from (S (length values)) prefix now 0 values = Some id.
Proof.
  destruct (unique_id_from _ _ _ _ _) as [id|] eqn:E; [by exists id|exfalso].
  pose proof (unique_id_from_None _ _ _ _ _ E) as H.
  set (ids := map (id_of_sequence prefix now) (seqZ 0 (Z.of_nat (S (length values))))).
  assert (Hnd : NoDup ids).
  { apply NoDup_fmap_2_strong; [|apply NoDup_seqZ]. intros i j Hi Hj.
    apply elem_of_seqZ in Hi, Hj. apply id_of_sequence_inj; lia. }
  assert (Hsub : ids ⊆+ omap value_id values).
  { apply NoDup_submseteq; [done|]. intros id Hid. apply list_elem_of_fmap in Hid as (k & -> & Hk).
    apply elem_of_seqZ in Hk. apply (H k). lia. }
  apply submseteq_length in Hsub. unfold ids in Hsub. rewrite length_map, length_seqZ in Hsub.
  pose proof (omap_length_le value_id values). lia.
Qed.

Lemma unique_id_fresh prefix now values : existsb (has_value_id (unique_id prefix now values)) values = false.
Proof.
  destruct (unique_id_total prefix now values) as [id H]. unfold unique_id. rewrite H.
  by apply unique_id_from_fresh in H.
Qed.

(** *** Checked strings *)
Definition clean (max_chars : Z) (s : string) : Prop :=
  trim s = s /\ chars_count s <= max_chars /\ has_line_break s = false.

Lemma string_value_clean v m s : 0 <= m -> string_value v m true = Ok s -> clean m s.
Proof.
  intros Hm. destruct v as [v|]; simpl; [|by intros [= <-]].
  destruct (as_str v) as [raw|]; simpl; [|discriminate].
  destruct (_ || _) eqn:E; [discriminate|]. intros [= <-]. bool_prop.
  split_and!; [apply trim_idem|lia|done].
Qed.

Lemma string_value_again m s : clean m s -> string_value (Some (Str s)) m true = Ok s.
Proof.
  intros (Ht & Hc & Hb). simpl. rewrite Ht, Hb. assert ((m <? chars_count s) = false) as -> by (apply Z.ltb_ge; lia).
  done.
Qed.

Lemma required_string_Ok object key m s :
  0 <= m -> required_string object key m = Ok s -> clean m s /\ s <> "".
Proof.
  intros Hm. unfold required_string. destruct (string_value _ _ _) as [v|] eqn:E; simpl; [|discriminate].
  apply string_value_clean in E; [|done]. destruct v; simpl; [discriminate|]. by intros [= <-].
Qed.

Lemma required_string_again object key m s :
  object !! key = Some (Str s) -> clean m s -> s <> "" -> required_string object key m = Ok s.
Proof.
  intros Hk Hc Hs. unfold required_string. rewrite Hk, string_value_again by done. simpl. by destruct s.
Qed.

Lemma string_or_Ok object key fallback m s :
  0 <= m -> clean m fallback -> string_or object key fallback m = Ok s -> clean m s.
Proof.
  intros Hm Hf. unfold string_or. destruct (object !! key) as [v|]; [|by intros [= <-]].
  destruct (string_value _ _ _) as [w|] eqn:E; [|discriminate]. apply string_value_clean in E; [|done].
  cbn [res_bind]. by destruct (is_empty w); intros [= <-].
Qed.

Lemma nonempty_Some object key s : object !! key = Some (Str s) -> nonempty object key = negb (is_empty (trim s)).
Proof. intros H. unfold nonempty, get_str. by rewrite H. Qed.

(** *** Strings of printable ASCII characters are clean *)
Lemma graphic_strip s : str_forall graphic s = true -> strip_ws s = None.
Proof. destruct s as [|a s]; [done|]. simpl. intros [Ha _]%andb_true_iff. by apply graphic_head. Qed.

Lemma graphic_strip_rev s : str_forall graphic s = true -> strip_ws_rev s = None.
Proof.
  destruct s as [|a s]; [done|]. simpl. unfold graphic. intros H. bool_prop. unfold is_ascii_ws, ws2, ws3.
  assert (((9 <=? byte a) && (byte a <=? 13) || (byte a =? 32)) = false) as -> by lia.
  destruct s as [|b s]; [done|].
  assert (((byte b =? 0xC2) && ((byte a =? 0x85) || (byte a =? 0xA0))) = false) as ->
    by (assert (byte a =? 0x85 = false) as -> by lia; assert (byte a =? 0xA0 = false) as -> by lia; apply andb_false_r).
  destruct s as [|c s]; [done|]. assert (byte a =? 0x80 = false) as -> by lia.
  assert (0x80 <=? byte a = false) as -> by lia. assert (byte a =? 0xA8 = false) as -> by lia.
  assert (byte a =? 0xA9 = false) as -> by lia. assert (byte a =? 0xAF = false) as -> by lia.
  assert (byte a =? 0x9F = false) as -> by lia. simpl. rewrite !andb_false_r. done.
Qed.

Lemma graphic_trim s : str_forall graphic s = true -> trim s = s.
Proof.
  intros H. unfold trim, trim_start, trim_end. rewrite (strip_loop_id strip_ws) by by apply graphic_strip.
  rewrite (strip_loop_id strip_ws_rev) by (apply graphic_strip_rev; by rewrite str_forall_rev). apply str_rev_involutive.
Qed.

Lemma graphic_no_break s : str_forall graphic s = true -> has_line_break s = false.
Proof.
  intros H. unfold has_line_break, contains_char.
  assert (Hc : forall c, byte c < 33 -> str_exists (Ascii.eqb c) s = false).
  { intros c Hc. induction s as [|a s IH]; [done|]. simpl in *. apply andb_prop in H as [H1 H2].
    rewrite IH by done. unfold graphic in H1. bool_prop. destruct (Ascii.eqb_spec c a) as [->|]; [lia|done]. }
  rewrite !Hc by (vm_compute; reflexivity). done.
Qed.

Lemma graphic_chars s : chars_count s <= str_len s.
Proof.
  unfold str_len. induction s as [|a s IH]; [done|]. cbn [chars_count String.length].
  destruct (_ =? _); lia.
Qed.

Lemma graphic_clean m s : str_forall graphic s = true -> str_len s <= m -> clean m s.
Proof.
  intros H Hm. split_and!; [by apply graphic_trim| |by apply graphic_no_break].
  pose proof (graphic_chars s). lia.
Qed.

Lemma hex_pad_graphic w n : str_forall graphic (hex_pad w n) = true.
Proof.
  induction w as [|w IH]; [done|]. cbn [hex_pad str_forall]. rewrite IH, andb_true_r.
  set (d := (n / 16 ^ Z.of_nat w) mod 16). assert (Hd : 0 <= d < 16) by (apply Z.mod_pos_bound; lia).
  assert (d ∈ seqZ 0 16) as Hin by (apply elem_of_seqZ; lia). clearbody d. clear Hd. revert d Hin.
  apply Forall_forall. vm_compute. repeat constructor.
Qed.

Lemma hex_pad_length w n : String.length (hex_pad w n) = w.
Proof. induction w as [|w IH]; simpl; [done|]. by rewrite IH. Qed.

Lemma hex_len_le w n : 0 <= n < 2 ^ (4 * Z.of_nat w) -> (0 < w)%nat -> (hex_len n <= w)%nat.
Proof.
  intros [Hn Hlt] Hw. unfold hex_len. destruct (decide (n = 0)) as [->|]; [change (1 <= w)%nat; lia|].
  assert (Z.log2 n < 4 * Z.of_nat w) by (apply Z.log2_lt_pow2; [lia|exact Hlt]).
  assert (Z.log2 n / 4 < Z.of_nat w) by (apply Z.div_lt_upper_bound; lia).
  apply Nat2Z.inj_le. pose proof (Z.div_pos (Z.log2 n) 4 (Z.log2_nonneg n)). rewrite Z2Nat.id; lia.
Qed.

Lemma unique_id_from_sequence fuel prefix now sequence values id :
  unique_id_from fuel prefix now sequence values = Some id ->
  exists k, 0 <= k < Z.of_nat fuel /\ id = id_of_sequence prefix now (sequence + k).
Proof.
  revert sequence. induction fuel as [|fuel IH]; intros sequence; simpl; [done|].
  destruct (existsb (has_value_id (id_of_sequence prefix now sequence)) values); simpl.
  - intros (k & Hk & ->)%IH. exists (k + 1). split; [lia|]. f_equal. lia.
  - intros [= <-]. exists 0. split; [lia|]. by rewrite Z.add_0_r.
Qed.

(** Identifiers of short vectors are clean. *)
Lemma unique_id_clean prefix now values :
  str_forall graphic prefix = true -> str_len prefix <= 64 -> 0 <= now < 2 ^ 64 ->
  Z.of_nat (length values) < 2 ^ 16 ->
  clean 128 (unique_id prefix now values) /\ unique_id prefix now values <> "".
Proof.
  intros Hp Hl Hnow Hv. destruct (unique_id_total prefix now values) as [id H]. unfold unique_id. rewrite H. simpl.
  apply unique_id_from_sequence in H as (k & Hk & ->). unfold id_of_sequence, hex_fmt.
  assert (H1 : (hex_len now <= 16)%nat) by (apply hex_len_le; [split; [lia|exact (proj2 Hnow)]|lia]).
  assert (H2 : (hex_len (0 + k) <= 16)%nat) by (apply hex_len_le; [split; [lia|change (2 ^ (4 * Z.of_nat 16)) with (2 ^ 64); lia]|lia]).
  split; [apply graphic_clean|].
  - rewrite !str_forall_app, Hp, !hex_pad_graphic. done.
  - unfold str_len in *. rewrite !str_app_length, !hex_pad_length. simpl. lia.
  - intros Hn. apply (f_equal String.length) in Hn. rewrite !str_app_length in Hn. simpl in Hn. lia.
Qed.
