(* ===== verification/StoreProfiles.v ===== *)
(** Profiles, recent connections and default connections of an account in the agent's store
    ([agent/src/store.rs]): normalization of what clients send, the bounded list of recents, and the
    resolution of a selection into the parameters of [connection.connect]. *)
From S2P Require Export StoreText.
Open Scope string_scope.
Open Scope Z_scope.
Open Scope list_scope.
Open Scope rust_scope.

Record ExcludedLocation : Type := mkExcluded {
  el_kind : string;
  el_country_code : string;
  el_state : string;
  el_city : string }.

#[export] Instance ExcludedLocation_eq_dec : EqDecision ExcludedLocation.
Proof. solve_decision. Defined.

Record AccountStore : Type := mkAccount {
  ac_profiles : list json;
  ac_recents : list json;
  ac_excluded_locations : list ExcludedLocation;
  ac_default_connection : json;
  ac_ui_preferences : json }.

Definition fastest_default_connection : json := jobj [("type", Str "fastest")].
Definition AccountStore_default : AccountStore := mkAccount [] [] [] fastest_default_connection (jobj []).

Definition with_profiles (l : list json) (a : AccountStore) : AccountStore :=
  mkAccount l a.(ac_recents) a.(ac_excluded_locations) a.(ac_default_connection) a.(ac_ui_preferences).
Definition with_recents (l : list json) (a : AccountStore) : AccountStore :=
  mkAccount a.(ac_profiles) l a.(ac_excluded_locations) a.(ac_default_connection) a.(ac_ui_preferences).
Definition with_excluded (l : list ExcludedLocation) (a : AccountStore) : AccountStore :=
  mkAccount a.(ac_profiles) a.(ac_recents) l a.(ac_default_connection) a.(ac_ui_preferences).
Definition with_default (v : json) (a : AccountStore) : AccountStore :=
  mkAccount a.(ac_profiles) a.(ac_recents) a.(ac_excluded_locations) v a.(ac_ui_preferences).

Definition one_of (s : string) (l : list string) : bool := existsb (String.eqb s) l.

(** Inserting a list of fields into an object; a later field replaces an earlier one. *)
Definition set_fields (fields : list (string * json)) (m : Map) : Map :=
  foldl (fun m kv => <[kv.1 := kv.2]> m) m fields.

(** ** Fields of profiles and recents *)
Definition insert_profile_string (source target : Map) (key : string) (max_chars : Z) (uppercase : bool)
    : result Map BackendError :=
  let? value := string_value (source !! key) max_chars true in
  if is_empty value then Ok target
  else if uppercase then
    if negb (str_len value =? 2) || negb (str_forall is_ascii_alphabetic value)
    then Err (invalid_params (key +:+ " must be a two-letter country code"))
    else Ok (<[key := Str (to_ascii_uppercase value)]> target)
  else Ok (<[key := Str value]> target).

Definition insert_recent_string := insert_profile_string.

(** A run of such insertions: key, bound and whether the value is a country code. *)
Fixpoint insert_strings (insert : Map -> Map -> string -> Z -> bool -> result Map BackendError)
    (specs : list (string * Z * bool)) (source target : Map) : result Map BackendError :=
  match specs with
  | [] => Ok target
  | (key, max_chars, uppercase) :: specs =>
      let? target := insert source target key max_chars uppercase in
      insert_strings insert specs source target
  end.

Definition profile_location : list (string * Z * bool) :=
  [("countryCode", 2, true); ("countryName", 128, false); ("entryCountryCode", 2, true);
   ("entryCountryName", 128, false); ("state", 128, false); ("city", 128, false);
   ("serverName", 128, false); ("gatewayName", 128, false)].

Definition recent_location : list (string * Z * bool) :=
  [("profileId", 128, false); ("header", 128, false); ("description", 256, false);
   ("gatewayName", 128, false); ("countryCode", 2, true); ("countryName", 128, false);
   ("entryCountryCode", 2, true); ("entryCountryName", 128, false); ("state", 128, false);
   ("city", 128, false); ("serverName", 128, false)].

Definition profile_target_valid (kind : string) (value : Map) : bool :=
  if one_of kind ["fastest"; "random"; "p2p"; "tor"] then true
  else if String.eqb kind "secureCore"
  then negb (nonempty value "entryCountryCode") || nonempty value "countryCode"
  else if String.eqb kind "country" then nonempty value "countryCode"
  else if String.eqb kind "state" then nonempty value "countryCode" && nonempty value "state"
  else if String.eqb kind "city" then nonempty value "countryCode" && nonempty value "city"
  else if String.eqb kind "server" then nonempty value "countryCode" && nonempty value "serverName"
  else if String.eqb kind "gateway" then nonempty value "gatewayName"
  else if String.eqb kind "gatewayServer" then nonempty value "gatewayName" && nonempty value "serverName"
  else false.

Definition recent_target_valid (kind : string) (value : Map) : bool :=
  if String.eqb kind "profile" then nonempty value "profileId"
  else if String.eqb kind "gateway" then nonempty value "gatewayName"
  else if String.eqb kind "gatewayServer" then nonempty value "gatewayName" && nonempty value "serverName"
  else if String.eqb kind "secureCore"
  then nonempty value "serverName" || nonempty value "countryCode" && nonempty value "entryCountryCode"
  else if one_of kind ["server"; "tor"] then nonempty value "serverName"
  else if String.eqb kind "country" then nonempty value "countryCode"
  else if String.eqb kind "state" then nonempty value "countryCode" && nonempty value "state"
  else if String.eqb kind "city" then nonempty value "countryCode" && nonempty value "city"
  else false.

Definition profile_mode (raw : Map) (key : string) (allowed : list string) : result string BackendError :=
  let? value := string_or raw key "inherit" 16 in
  let value := to_ascii_lowercase value in
  if one_of value allowed then Ok value
  else Err (invalid_params (key +:+ " contains an unsupported policy")).

Definition supported_protocols : list string :=
  ["smart"; "wireguard-udp"; "wireguard-tcp"; "wireguard-tls"; "protun-udp"; "protun-tcp"; "protun-tls";
   "openvpn-udp"; "openvpn-tcp"].

Section Profiles.
Context {L : IpLib}.

(** ** Custom DNS servers *)
Definition dns_error (message : string) : BackendError := BackendError_new "invalid_dns" message.

Definition add_dns_server (servers : list string) (v : json) : result (list string) BackendError :=
  let? value := ok_or (as_str v) (dns_error "Profile DNS servers must be strings") in
  if is_empty (trim value) then Ok servers
  else
    let? address := ok_or (addr_from_str (trim value)) (dns_error "Profile DNS servers must be valid IP addresses") in
    let normalized := addr_to_string address in
    if existsb (String.eqb normalized) servers then Ok servers else Ok (servers ++ [normalized]).

Fixpoint add_dns_servers (servers : list string) (values : list json) : result (list string) BackendError :=
  match values with
  | [] => Ok servers
  | v :: values => let? servers := add_dns_server servers v in add_dns_servers servers values
  end.

Definition profile_dns_servers (v : option json) : result (list string) BackendError :=
  match v with
  | None => Ok []
  | Some v =>
      let? values := ok_or (as_array v) (dns_error "profileCustomDnsServers must be an array of IP addresses") in
      if 16 <? Z.of_nat (length values)
      then Err (dns_error "A profile can contain at most 16 custom DNS servers")
      else add_dns_servers [] values
  end.

(** ** Profiles *)
Definition target_error (message : string) : BackendError := BackendError_new "invalid_profile_target" message.

Definition created_at (now : Z) (raw : Map) (existing : option Map) : Z :=
  unwrap_or
    (opt_filter (fun v => 0 <? v)
      (or_else (match existing with Some m => get_u64 m "createdAtMs" | None => None end)
               (get_u64 raw "createdAtMs"))) now.

(** The identity and the target of a profile. *)
Definition normalize_target (raw : Map) (id : string) : result Map BackendError :=
  let? name := required_string raw "name" 60 in
  let? target_kind := string_or raw "targetKind" "fastest" 32 in
  let? strategy := string_or raw "selectionStrategy"
    (if String.eqb target_kind "random" then "random" else "fastest") 16 in
  let selection_strategy := to_ascii_lowercase strategy in
  if negb (one_of selection_strategy ["fastest"; "random"])
  then Err (target_error "Profile selection strategy is unsupported")
  else
    let? profile := insert_strings insert_profile_string profile_location raw ∅ in
    if negb (profile_target_valid target_kind profile)
    then Err (target_error "Profile target is incomplete or unsupported")
    else Ok (set_fields [("id", Str id); ("name", Str name); ("targetKind", Str target_kind);
                         ("selectionStrategy", Str selection_strategy)] profile).

(** Protocol, NetShield, NAT and port forwarding. *)
Definition normalize_connection (raw profile : Map) : result Map BackendError :=
  let? protocol := string_or raw "profileProtocol" "smart" 32 in
  let protocol := to_ascii_lowercase protocol in
  let protocol := if one_of protocol supported_protocols then protocol else "smart" in
  let? exclude_my_country := optional_bool raw "excludeMyCountry" false in
  let? icon_name := string_or raw "iconName" "Speed" 64 in
  let? color := string_or raw "color" "#C857E7" 32 in
  let? netshield := optional_bool raw "profileNetShieldEnabled" true in
  let? nat := string_or raw "profileNatType" "strict" 16 in
  let nat := if String.eqb (to_ascii_lowercase nat) "moderate" then "moderate" else "strict" in
  let? port_forwarding := optional_bool raw "profilePortForwardingEnabled" false in
  let port_forwarding := if String.eqb nat "moderate" then false else port_forwarding in
  Ok (set_fields
       [("excludeMyCountry", Bool exclude_my_country); ("iconName", Str icon_name); ("color", Str color);
        ("profileProtocol", Str protocol); ("profileNetShieldEnabled", Bool netshield);
        ("profileNetShieldLevel", jnum (Z.min (unwrap_or (get_u64 raw "profileNetShieldLevel") 2) 2));
        ("profileNatType", Str nat); ("profilePortForwardingEnabled", Bool port_forwarding)] profile).

Definition normalize_dns (raw profile : Map) : result Map BackendError :=
  let? mode := profile_mode raw "profileCustomDnsMode" ["inherit"; "off"; "custom"] in
  let? servers := profile_dns_servers (raw !! "profileCustomDnsServers") in
  if String.eqb mode "custom" && (match servers with [] => true | _ => false end)
  then Err (dns_error "A custom DNS profile requires at least one DNS server")
  else if String.eqb mode "custom" && unwrap_or (get_bool profile "profileNetShieldEnabled") true
  then Err (BackendError_new "profile_settings_conflict"
              "Custom DNS and NetShield cannot be enabled in the same profile")
  else
    let? lan := profile_mode raw "profileLanMode" ["inherit"; "allow"; "block"] in
    let? local_dns := profile_mode raw "profileLocalDnsMode" ["inherit"; "allow"; "block"] in
    Ok (set_fields [("profileCustomDnsMode", Str mode); ("profileCustomDnsServers", Arr (map Str servers));
                    ("profileLanMode", Str lan); ("profileLocalDnsMode", Str local_dns)] profile).

Definition go_error (message : string) : BackendError := BackendError_new "invalid_connect_and_go" message.

Definition normalize_connect_and_go (raw profile : Map) : result Map BackendError :=
  let? enabled := optional_bool raw "connectAndGoEnabled" false in
  let? mode := string_or raw "connectAndGoMode" "website" 32 in
  let mode := to_ascii_lowercase mode in
  if negb (one_of mode ["website"; "application"])
  then Err (go_error "Connect and Go mode must be website or application")
  else
    let? url := string_or raw "connectAndGoUrl" "" 2048 in
    let? app_id := string_or raw "connectAndGoAppId" "" 255 in
    let? app_path := string_or raw "connectAndGoAppPath" "" 2048 in
    if enabled && ((String.eqb mode "website" && is_empty url)
                   || (String.eqb mode "application" && is_empty app_id))
    then Err (go_error "Connect and Go requires a website or installed application")
    else
      let? private := optional_bool raw "connectAndGoUsePrivateBrowsingMode" false in
      Ok (set_fields [("connectAndGoEnabled", Bool enabled); ("connectAndGoMode", Str mode);
                      ("connectAndGoUrl", Str url); ("connectAndGoUsePrivateBrowsingMode", Bool private);
                      ("connectAndGoAppId", Str app_id); ("connectAndGoAppPath", Str app_path)] profile).

Definition normalize_profile (now : Z) (raw : Map) (existing : option Map) (id : string)
    : result Map BackendError :=
  let? profile := normalize_target raw id in
  let? profile := normalize_connection raw profile in
  let? profile := normalize_dns raw profile in
  let? profile := normalize_connect_and_go raw profile in
  Ok (set_fields [("createdAtMs", jnum (created_at now raw existing)); ("updatedAtMs", jnum now)] profile).

(** ** Recents *)
Definition normalize_recent (raw : Map) : result Map BackendError :=
  let? kind := required_string raw "kind" 32 in
  let? recent := insert_strings insert_recent_string recent_location raw {["kind" := Str kind]} in
  let? recent :=
    (if one_of kind ["country"; "state"; "city"] then
       let? feature := string_or raw "feature" "standard" 32 in
       let feature := to_ascii_lowercase feature in
       if negb (one_of feature ["standard"; "all"; "secure_core"; "p2p"; "tor"])
       then Err (BackendError_new "invalid_recent_target" "Recent location feature is unsupported")
       else Ok (<["feature" := Str feature]> recent)
     else Ok recent) in
  let? recent :=
    (match raw !! "load" with
     | Some load =>
         let? load := ok_or (as_u64 load) (invalid_params "load must be an unsigned number") in
         Ok (<["load" := jnum (Z.min load 100)]> recent)
     | None => Ok recent
     end) in
  if negb (recent_target_valid kind recent)
  then Err (BackendError_new "invalid_recent_target" "Recent connection target is incomplete or unsupported")
  else Ok recent.

Definition field (m : Map) (name : string) : string := unwrap_or (get_str m name) "".

Definition recent_key (m : Map) : string :=
  let kind := field m "kind" in
  if String.eqb kind "profile" then "profile:" +:+ field m "profileId"
  else if one_of kind ["gateway"; "gatewayServer"]
  then kind +:+ ":" +:+ field m "gatewayName" +:+ ":" +:+ field m "serverName"
  else kind +:+ ":" +:+ unwrap_or (get_str m "feature") "all" +:+ ":" +:+ field m "entryCountryCode"
         +:+ ":" +:+ field m "countryCode" +:+ ":" +:+ field m "state" +:+ ":" +:+ field m "city"
         +:+ ":" +:+ field m "serverName".
End Profiles.

(** ** Stable sorting: [sort_by_key] *)
Section Sorting.
Context {A : Type} (key : A -> Z).

Fixpoint insert_by (x : A) (l : list A) : list A :=
  match l with
  | [] => [x]
  | y :: l' => if key x <=? key y then x :: l else y :: insert_by x l'
  end.
Definition sort_by_key (l : list A) : list A := foldr insert_by [] l.

(** [max_by_key]: the last of the greatest elements. *)
Definition max_by_key (l : list A) : option A :=
  foldl (fun best x => match best with
                       | Some b => if key b <=? key x then Some x else best
                       | None => Some x
                       end) None l.
End Sorting.

Definition pinned (v : json) : bool := unwrap_or (jget "pinned" v ?> as_bool) false.
Definition pin_time (v : json) : Z := unwrap_or (jget "pinTimeMs" v ?> as_u64) 0.
Definition last_time (v : json) : Z := unwrap_or (jget "lastConnectionTimeMs" v ?> as_u64) 0.

Definition trimmed (recents : list json) : list json :=
  sort_by_key pin_time (retain pinned recents)
  ++ take MAX_UNPINNED_RECENTS (sort_by_key (fun v => - last_time v) (retain (fun v => negb (pinned v)) recents)).

Definition trim_recents (a : AccountStore) : AccountStore := with_recents (trimmed a.(ac_recents)) a.

(** ** Default connections *)
Definition find_value (id : string) (l : list json) : option json := find_first (has_value_id id) l.
Definition any_value (id : string) (l : list json) : bool := existsb (has_value_id id) l.

Definition default_error : BackendError :=
  BackendError_new "invalid_default_connection" "Unsupported default connection type".

Definition normalize_default (selection : Map) (a : AccountStore) : result json BackendError :=
  let? kind := string_or selection "type" "fastest" 32 in
  if one_of kind ["fastest"; "random"; "last"] then Ok (jobj [("type", Str kind)])
  else if String.eqb kind "recent" then
    let? id := required_string selection "recentId" 128 in
    if any_value id a.(ac_recents) then Ok (jobj [("type", Str "recent"); ("recentId", Str id)])
    else Err (BackendError_new "recent_not_found" "Default recent connection was not found")
  else if String.eqb kind "profile" then
    let? id := required_string selection "profileId" 128 in
    if any_value id a.(ac_profiles) then Ok (jobj [("type", Str "profile"); ("profileId", Str id)])
    else Err (BackendError_new "profile_not_found" "Default profile was not found")
  else Err default_error.

Definition validate_default (a : AccountStore) : AccountStore :=
  with_default
    (unwrap_or (as_object a.(ac_default_connection) ?> (fun s => res_ok (normalize_default s a)))
       fastest_default_connection) a.

(** ** Resolution into connection parameters *)
Definition copy_nonempty_string (source target : Map) (source_name target_name : string) : Map :=
  match opt_filter (fun s => negb (is_empty s)) (get_str source source_name) with
  | Some s => <[target_name := Str s]> target
  | None => target
  end.

Definition copied_fields : list (string * string) :=
  [("countryCode", "country_code"); ("entryCountryCode", "entry_country_code"); ("state", "state");
   ("city", "city"); ("serverName", "server_name"); ("gatewayName", "gateway_name")].

Definition copy_location (source : Map) : Map :=
  foldl (fun target p => copy_nonempty_string source target p.1 p.2) ∅ copied_fields.

(** The flag a kind of profile adds to its target; [None] for an unknown kind. *)
Definition profile_kind_fields (kind : string) : option (list (string * json)) :=
  if one_of kind ["fastest"; "country"; "state"; "city"; "server"; "gateway"; "gatewayServer"] then Some []
  else if String.eqb kind "random" then Some [("random", Bool true)]
  else if String.eqb kind "p2p" then Some [("p2p", Bool true)]
  else if String.eqb kind "secureCore" then Some [("secure_core", Bool true)]
  else if String.eqb kind "tor" then Some [("tor", Bool true)]
  else None.

Definition profile_policy_value (object : Map) (key : string) : json :=
  let mode := unwrap_or (get_str object key) "inherit" in
  if String.eqb mode "allow" then Bool true
  else if String.eqb mode "block" then Bool false
  else Null.

Definition explicitly_scoped (object : Map) : bool :=
  existsb (nonempty object) ["countryCode"; "state"; "city"; "gatewayName"].

Definition profile_target (object : Map) (kind : string) (flags : list (string * json)) : Map :=
  let target := set_fields flags (copy_location object) in
  let strategy := unwrap_or (get_str object "selectionStrategy")
                    (if String.eqb kind "random" then "random" else "fastest") in
  let target :=
    if String.eqb strategy "random" && negb (String.eqb kind "random")
    then <[(if explicitly_scoped object then "random_server" else "random") := Bool true]> target
    else target in
  if unwrap_or (get_bool object "excludeMyCountry") false
  then <["exclude_my_country" := Bool true]> target else target.

Definition profile_settings (object : Map) : json :=
  jobj [("protocol", Str (unwrap_or (get_str object "profileProtocol") "smart"));
        ("netshield_enabled", Bool (unwrap_or (get_bool object "profileNetShieldEnabled") true));
        ("netshield_level", jnum (unwrap_or (get_u64 object "profileNetShieldLevel") 2));
        ("moderate_nat", Bool (bool_decide (get_str object "profileNatType" = Some "moderate")));
        ("port_forwarding", Bool (unwrap_or (get_bool object "profilePortForwardingEnabled") false));
        ("custom_dns",
          jobj [("mode", Str (unwrap_or (get_str object "profileCustomDnsMode") "inherit"));
                ("servers", Arr (unwrap_or (object !! "profileCustomDnsServers" ?> as_array) []))]);
        ("allow_lan_connections", profile_policy_value object "profileLanMode");
        ("allow_local_dns", profile_policy_value object "profileLocalDnsMode")].

Definition post_connect (object : Map) : json :=
  if unwrap_or (get_bool object "connectAndGoEnabled") false
  then jobj [("mode", Str (unwrap_or (get_str object "connectAndGoMode") "website"));
             ("url", Str (unwrap_or (get_str object "connectAndGoUrl") ""));
             ("private_browsing",
               Bool (unwrap_or (get_bool object "connectAndGoUsePrivateBrowsingMode") false));
             ("desktop_id", Str (unwrap_or (get_str object "connectAndGoAppId") ""))]
  else Null.

(** [get("countryName").or_else(get("serverName")).or_else(get("gatewayName"))]. *)
Definition profile_description (object : Map) : string :=
  unwrap_or
    (opt_filter (fun s => negb (is_empty s))
      (or_else (or_else (object !! "countryName") (object !! "serverName")) (object !! "gatewayName") ?> as_str))
    "Profile".

Definition type_of (selection_type : string) : json := jobj [("type", Str selection_type)].

Definition resolved_profile (profile : json) (selection_type : string) : BackendResult :=
  let? object := ok_or (as_object profile)
    (target_error "Profile connection target is invalid") in
  let? kind := required_string object "targetKind" 32 in
  let? flags := ok_or (profile_kind_fields kind)
    (target_error "Profile connection target is unsupported") in
  let target := profile_target object kind flags in
  let? profile_id := required_string object "id" 128 in
  let? profile_name := required_string object "name" 60 in
  Ok (jobj
    [("selection", type_of selection_type);
     ("connect_params",
       jobj [("profile_id", Str profile_id); ("target", Obj target); ("profile_settings", profile_settings object)]);
     ("recent",
       jobj [("kind", Str "profile"); ("profileId", Str profile_id); ("header", Str profile_name);
             ("description", Str (profile_description object))]);
     ("post_connect", post_connect object)]).

Definition recent_error (message : string) : BackendError := BackendError_new "invalid_recent_target" message.

Definition recent_kind_fields (object : Map) (kind : string) : option (list (string * json)) :=
  if one_of kind ["country"; "state"; "city"] then
    let feature := unwrap_or (get_str object "feature") "all" in
    Some (if String.eqb feature "p2p" then [("p2p", Bool true)]
          else if String.eqb feature "tor" then [("tor", Bool true)]
          else if String.eqb feature "secure_core" then [("secure_core", Bool true)]
          else [])
  else if String.eqb kind "secureCore" then Some [("secure_core", Bool true)]
  else if String.eqb kind "tor" then Some [("tor", Bool true)]
  else if one_of kind ["server"; "gateway"; "gatewayServer"] then Some []
  else None.

Definition profile_missing (message : string) : BackendError := BackendError_new "profile_not_found" message.

Definition resolved_recent (a : AccountStore) (recent : json) (selection_type : string) : BackendResult :=
  let? object := ok_or (as_object recent) (recent_error "Recent connection target is invalid") in
  let? kind := required_string object "kind" 32 in
  if String.eqb kind "profile" then
    let? profile_id := required_string object "profileId" 128 in
    let? profile := ok_or (find_value profile_id a.(ac_profiles)) (profile_missing "Recent profile was not found") in
    resolved_profile profile selection_type
  else
    let? flags := ok_or (recent_kind_fields object kind)
      (recent_error "Recent connection target is unsupported") in
    Ok (jobj [("selection", type_of selection_type);
              ("connect_params", jobj [("target", Obj (set_fields flags (copy_location object)))]);
              ("recent", recent)]).

Definition most_recent_connection (a : AccountStore) : option json := max_by_key last_time a.(ac_recents).

Definition resolve_connection (a : AccountStore) (params : json) : BackendResult :=
  let? selection := ok_or
    (or_else (jget "selection" params ?> as_object) (as_object a.(ac_default_connection)))
    (BackendError_new "invalid_default_connection" "Default connection selection is invalid") in
  let selection_type := unwrap_or (get_str selection "type") "fastest" in
  if String.eqb selection_type "fastest" then
    Ok (jobj [("selection", type_of "fastest"); ("connect_params", jobj [("target", jobj [])])])
  else if String.eqb selection_type "random" then
    Ok (jobj [("selection", type_of "random");
              ("connect_params", jobj [("target", jobj [("random", Bool true)])])])
  else if String.eqb selection_type "last" then
    match most_recent_connection a with
    | Some recent => resolved_recent a recent "last"
    | None =>
        Ok (jobj [("selection", type_of "last"); ("fallback", Str "fastest");
                  ("connect_params", jobj [("target", jobj [])])])
    end
  else if String.eqb selection_type "recent" then
    let? id := required_string selection "recentId" 128 in
    let? recent := ok_or (find_value id a.(ac_recents))
      (BackendError_new "recent_not_found" "Default recent connection was not found") in
    resolved_recent a recent "recent"
  else if String.eqb selection_type "profile" then
    let? id := required_string selection "profileId" 128 in
    let? profile := ok_or (find_value id a.(ac_profiles)) (profile_missing "Default profile was not found") in
    resolved_profile profile "profile"
  else Err default_error.
