(* ===== verification/StoreOps.v ===== *)
(** The operations of the agent's canonical store ([agent/src/store.rs]) on the data in memory:
    onboarding, preferences, profiles, excluded locations, recents, the default connection, the
    one-time default profiles and the import of the legacy store.

    An operation takes the data and returns its result together with the data it leaves, also when it
    fails: the source mutates in place. *)
From S2P Require Export StoreProfiles.
Open Scope string_scope.
Open Scope Z_scope.
Open Scope list_scope.
Open Scope rust_scope.

Definition op (S : Type) : Type := S -> BackendResult * S.

(** [let% x := r or s in k]: [let x = r?; k], leaving [s] behind on an error. *)
Notation "'let%' x ':=' r 'or' s 'in' k" :=
  (match r with Ok x => k | Err e => (Err e, s) end)
  (at level 10, x name, r at level 100, s at level 100, k at level 200) : rust_scope.

Record Onboarding : Type := mkOnboarding {
  ob_complete : bool;
  ob_locale : string;
  ob_start_with_omarchy : bool;
  ob_auto_connect : bool;
  ob_notifications_enabled : bool;
  ob_port_forwarding_notifications_enabled : bool }.

#[export] Instance Onboarding_eq_dec : EqDecision Onboarding.
Proof. solve_decision. Defined.

Definition Onboarding_default : Onboarding := mkOnboarding false "en" true false true true.

Record MigrationState : Type := mkMigration {
  mg_legacy_qt_store_imported : bool;
  mg_copied_to_account_keys : list string;
  mg_official_seeded : list string;
  mg_fastest_seeded : list string }.

Definition MigrationState_default : MigrationState := mkMigration false [] [] [].

Record StoreFile : Type := mkStoreFile {
  sf_version : Z;
  sf_revision : Z;
  sf_onboarding : Onboarding;
  sf_active_account_key : option string;
  sf_accounts : gmap string AccountStore;
  sf_migration : MigrationState }.

Definition StoreFile_default : StoreFile :=
  mkStoreFile STORE_VERSION 0 Onboarding_default None ∅ MigrationState_default.

Definition set_revision (r : Z) (d : StoreFile) : StoreFile :=
  mkStoreFile d.(sf_version) r d.(sf_onboarding) d.(sf_active_account_key) d.(sf_accounts) d.(sf_migration).
Definition set_onboarding (o : Onboarding) (d : StoreFile) : StoreFile :=
  mkStoreFile d.(sf_version) d.(sf_revision) o d.(sf_active_account_key) d.(sf_accounts) d.(sf_migration).
Definition set_active (k : option string) (d : StoreFile) : StoreFile :=
  mkStoreFile d.(sf_version) d.(sf_revision) d.(sf_onboarding) k d.(sf_accounts) d.(sf_migration).
Definition set_accounts (a : gmap string AccountStore) (d : StoreFile) : StoreFile :=
  mkStoreFile d.(sf_version) d.(sf_revision) d.(sf_onboarding) d.(sf_active_account_key) a d.(sf_migration).
Definition set_migration (m : MigrationState) (d : StoreFile) : StoreFile :=
  mkStoreFile d.(sf_version) d.(sf_revision) d.(sf_onboarding) d.(sf_active_account_key) d.(sf_accounts) m.

(** ** The active account *)
Definition account_ref (d : StoreFile) : AccountStore :=
  unwrap_or
    (or_else (d.(sf_active_account_key) ?> (fun key => d.(sf_accounts) !! key))
             (d.(sf_accounts) !! LEGACY_SCOPE)) AccountStore_default.

Definition active_key (d : StoreFile) : string := unwrap_or d.(sf_active_account_key) LEGACY_SCOPE.

(** [accounts.entry(key).or_default()]. *)
Definition account_entry (key : string) (d : StoreFile) : AccountStore :=
  unwrap_or (d.(sf_accounts) !! key) AccountStore_default.
Definition put_account (key : string) (a : AccountStore) (d : StoreFile) : StoreFile :=
  set_accounts (<[key := a]> d.(sf_accounts)) d.

(** What [account_mut] borrows: the operation works on the active account in place. *)
Definition on_account (f : op AccountStore) : op StoreFile := fun d =>
  let '(r, a) := f (account_entry (active_key d) d) in (r, put_account (active_key d) a d).

(** ** Onboarding and preferences *)
Definition ob_with_locale (s : string) (o : Onboarding) : Onboarding :=
  mkOnboarding o.(ob_complete) s o.(ob_start_with_omarchy) o.(ob_auto_connect) o.(ob_notifications_enabled)
    o.(ob_port_forwarding_notifications_enabled).
Definition ob_with_start (b : bool) (o : Onboarding) : Onboarding :=
  mkOnboarding o.(ob_complete) o.(ob_locale) b o.(ob_auto_connect) o.(ob_notifications_enabled)
    o.(ob_port_forwarding_notifications_enabled).
Definition ob_with_auto (b : bool) (o : Onboarding) : Onboarding :=
  mkOnboarding o.(ob_complete) o.(ob_locale) o.(ob_start_with_omarchy) b o.(ob_notifications_enabled)
    o.(ob_port_forwarding_notifications_enabled).
Definition ob_with_notifications (b : bool) (o : Onboarding) : Onboarding :=
  mkOnboarding o.(ob_complete) o.(ob_locale) o.(ob_start_with_omarchy) o.(ob_auto_connect) b
    o.(ob_port_forwarding_notifications_enabled).
Definition ob_with_pf_notifications (b : bool) (o : Onboarding) : Onboarding :=
  mkOnboarding o.(ob_complete) o.(ob_locale) o.(ob_start_with_omarchy) o.(ob_auto_connect)
    o.(ob_notifications_enabled) b.
Definition ob_completed (o : Onboarding) : Onboarding :=
  mkOnboarding true o.(ob_locale) o.(ob_start_with_omarchy) o.(ob_auto_connect) o.(ob_notifications_enabled)
    o.(ob_port_forwarding_notifications_enabled).

Definition onboard (f : Onboarding -> Onboarding) (d : StoreFile) : StoreFile :=
  set_onboarding (f d.(sf_onboarding)) d.

(** Connecting automatically requires starting with the session. *)
Definition auto_implies_start (o : Onboarding) : Onboarding :=
  if o.(ob_auto_connect) then ob_with_start true o else o.
Definition no_start_no_auto (o : Onboarding) : Onboarding :=
  if negb o.(ob_start_with_omarchy) then ob_with_auto false o else o.

Definition complete_onboarding (params : json) : op StoreFile := fun d =>
  let% object := object_params params or d in
  let% locale := locale_value (object !! "locale") or d in
  let d := onboard (ob_with_locale locale) d in
  let% start := required_bool object "start_with_omarchy" or d in
  let d := onboard (ob_with_start start) d in
  let% auto := required_bool object "auto_connect" or d in
  let d := onboard (ob_with_auto auto) d in
  (Ok (jobj [("onboarding_complete", Bool true)]),
   onboard (fun o => ob_completed (auto_implies_start o)) d).

(** An optional boolean preference: written as soon as it has been read. *)
Definition set_bool_preference (object : Map) (key : string) (write : bool -> Onboarding -> Onboarding)
    (d : StoreFile) : result unit BackendError * StoreFile :=
  match object !! key with
  | None => (Ok tt, d)
  | Some v =>
      match as_bool v with
      | Some b => (Ok tt, onboard (write b) d)
      | None => (Err (invalid_params (key +:+ " must be a boolean")), d)
      end
  end.

Fixpoint set_bool_preferences (object : Map) (writes : list (string * (bool -> Onboarding -> Onboarding)))
    (d : StoreFile) : result unit BackendError * StoreFile :=
  match writes with
  | [] => (Ok tt, d)
  | (key, write) :: writes =>
      match set_bool_preference object key write d with
      | (Ok _, d) => set_bool_preferences object writes d
      | (Err e, d) => (Err e, d)
      end
  end.

Definition bool_preferences : list (string * (bool -> Onboarding -> Onboarding)) :=
  [("start_with_omarchy", ob_with_start); ("auto_connect", ob_with_auto);
   ("notifications_enabled", ob_with_notifications);
   ("port_forwarding_notifications_enabled", ob_with_pf_notifications)].

Definition set_preferences (params : json) : op StoreFile := fun d =>
  let% object := object_params params or d in
  let% locale :=
    (match object !! "locale" with
     | Some v => res_map Some (locale_value (Some v))
     | None => Ok None
     end) or d in
  let d := match locale with Some l => onboard (ob_with_locale l) d | None => d end in
  match set_bool_preferences object bool_preferences d with
  | (Err e, d) => (Err e, d)
  | (Ok _, d) =>
      (Ok (jobj [("updated", Bool true)]), onboard (fun o => no_start_no_auto (auto_implies_start o)) d)
  end.

(** ** Excluded locations *)
Definition excluded_error (message : string) : BackendError :=
  BackendError_new "invalid_excluded_location" message.

Definition parse_excluded (item : json) : result ExcludedLocation BackendError :=
  let? object := ok_or (as_object item) (invalid_params "Each excluded location must be an object") in
  let? kind := required_string object "kind" 16 in
  let kind := to_ascii_lowercase kind in
  if negb (one_of kind ["country"; "state"; "city"])
  then Err (excluded_error "Excluded location kind must be country, state or city")
  else
    let? country_code := required_string object "country_code" 2 in
    if negb (str_len country_code =? 2) || negb (str_forall is_ascii_alphabetic country_code)
    then Err (excluded_error "Excluded locations require a two-letter country code")
    else
      let? state := string_value (object !! "state") 128 true in
      let? city := string_value (object !! "city") 128 true in
      if (String.eqb kind "state" && is_empty state) || (String.eqb kind "city" && is_empty city)
      then Err (excluded_error "Excluded state and city entries require their location name")
      else Ok (mkExcluded kind (to_ascii_uppercase country_code) state city).

Definition excluded_key (e : ExcludedLocation) : string :=
  e.(el_kind) +:+ ":" +:+ e.(el_country_code) +:+ ":" +:+ to_ascii_lowercase e.(el_state) +:+ ":"
  +:+ to_ascii_lowercase e.(el_city).

(** [seen] holds the keys of the locations so far. *)
Definition add_excluded (locations : list ExcludedLocation) (e : ExcludedLocation) : list ExcludedLocation :=
  if existsb (fun l => String.eqb (excluded_key l) (excluded_key e)) locations then locations
  else locations ++ [e].

Fixpoint parse_excluded_all (locations : list ExcludedLocation) (raw : list json)
    : result (list ExcludedLocation) BackendError :=
  match raw with
  | [] => Ok locations
  | item :: raw => let? e := parse_excluded item in parse_excluded_all (add_excluded locations e) raw
  end.

Definition excluded_to_json (e : ExcludedLocation) : json :=
  jobj [("kind", Str e.(el_kind)); ("country_code", Str e.(el_country_code)); ("state", Str e.(el_state));
        ("city", Str e.(el_city))].

Definition set_excluded_locations (params : json) : op StoreFile := fun d =>
  let% object := object_params params or d in
  let% raw := ok_or (object !! "items" ?> as_array) (invalid_params "items must be an array") or d in
  if MAX_EXCLUDED_LOCATIONS <? Z.of_nat (length raw)
  then (Err (BackendError_new "excluded_location_limit_reached" "Too many excluded locations"), d)
  else
    let% locations := parse_excluded_all [] raw or d in
    on_account (fun a => (Ok (jobj [("items", Arr (map excluded_to_json locations))]),
                          with_excluded locations a)) d.

(** ** Profiles *)
Definition profile_limit : BackendError :=
  BackendError_new "profile_limit_reached" "Maximum profile count reached".
Definition profile_limit_reached (profiles : list json) : bool := MAX_PROFILES <=? Z.of_nat (length profiles).

Definition put_profile (id : string) (v : json) (profiles : list json) : list json :=
  if any_value id profiles then update_first (has_value_id id) (fun _ => v) profiles else profiles ++ [v].

Section Ops.
Context {L : IpLib}.

(** [now_id] is the clock read for a fresh identifier, [now] the one of the timestamps. *)
Definition save_profile (now_id now : Z) (params : json) : op StoreFile := fun d =>
  let% object := object_params params or d in
  let% raw := ok_or (object !! "profile" ?> as_object) (invalid_params "profile must be an object") or d in
  on_account (fun a =>
    let% existing_id := string_value (raw !! "id") 128 false or a in
    let% id :=
      (if is_empty existing_id then
         if profile_limit_reached a.(ac_profiles) then Err profile_limit
         else Ok (unique_id "profile" now_id a.(ac_profiles))
       else Ok existing_id) or a in
    let existing := find_value id a.(ac_profiles) ?> as_object in
    let% profile := normalize_profile now raw existing id or a in
    (Ok (jobj [("profile", Obj profile)]),
     with_profiles (put_profile id (Obj profile) a.(ac_profiles)) a)) d.

(** [chars().take(n)]. *)
Fixpoint chars_take (n : nat) (s : string) : string :=
  match s with
  | "" => ""
  | String a r =>
      if Z.land (byte a) 0xC0 =? 0x80 then String a (chars_take n r)
      else match n with O => "" | S n => String a (chars_take n r) end
  end.

Definition copy_suffix (sequence : Z) : string :=
  if sequence =? 1 then " copy" else " copy " +:+ dec sequence.

Definition copy_candidate (source : string) (sequence : Z) : string :=
  let suffix := copy_suffix sequence in
  chars_take (Z.to_nat (60 - chars_count suffix)) source +:+ suffix.

Definition has_name (name : string) (v : json) : bool :=
  match jget "name" v ?> as_str with Some n => eq_ignore_ascii_case n name | None => false end.

(** The loop over the sequence numbers [sequence ..= MAX_PROFILES + 1]. *)
Fixpoint copy_name_from (fuel : nat) (sequence : Z) (source : string) (profiles : list json) : string :=
  match fuel with
  | O => chars_take 60 source
  | S fuel =>
      let candidate := copy_candidate source sequence in
      if negb (existsb (has_name candidate) profiles) then candidate
      else copy_name_from fuel (sequence + 1) source profiles
  end.

Definition copy_name (source : string) (profiles : list json) : string :=
  copy_name_from (Z.to_nat (MAX_PROFILES + 1)) 1 source profiles.

Definition duplicate_profile (now_id now : Z) (params : json) : op StoreFile := fun d =>
  let% object := object_params params or d in
  let% source_id := required_string object "id" 128 or d in
  on_account (fun a =>
    if profile_limit_reached a.(ac_profiles) then (Err profile_limit, a)
    else
      let% source := ok_or (find_value source_id a.(ac_profiles) ?> as_object)
        (profile_missing "Profile was not found") or a in
      let duplicate := delete "updatedAtMs" (delete "createdAtMs" (delete "id" source)) in
      let% requested_name := string_value (object !! "name") 60 true or a in
      let% name :=
        (if is_empty requested_name
         then res_map (fun source_name => copy_name source_name a.(ac_profiles)) (required_string duplicate "name" 60)
         else Ok requested_name) or a in
      let id := unique_id "profile" now_id a.(ac_profiles) in
      let% profile := normalize_profile now (<["name" := Str name]> duplicate) None id or a in
      (Ok (jobj [("profile", Obj profile); ("source_id", Str source_id)]),
       with_profiles (a.(ac_profiles) ++ [Obj profile]) a)) d.

Definition is_recent_of_profile (id : string) (recent : json) : bool :=
  bool_decide (jget "kind" recent ?> as_str = Some "profile")
  && bool_decide (jget "profileId" recent ?> as_str = Some id).

Definition delete_profile (params : json) : op StoreFile := fun d =>
  let% object := object_params params or d in
  let% id := required_string object "id" 128 or d in
  on_account (fun a =>
    let profiles := retain (fun v => negb (has_value_id id v)) a.(ac_profiles) in
    let recents := retain (fun v => negb (is_recent_of_profile id v)) a.(ac_recents) in
    (Ok (jobj [("deleted", Bool (negb (length profiles =? length a.(ac_profiles))%nat))]),
     validate_default (with_recents recents (with_profiles profiles a)))) d.

(** ** Recents *)
Definition same_key (key : string) (candidate : json) : bool :=
  match as_object candidate with Some m => String.eqb (recent_key m) key | None => false end.

Definition newest_time (recents : list json) : Z :=
  foldl (fun best v => match jget "lastConnectionTimeMs" v ?> as_u64 with
                       | Some t => Z.max best t
                       | None => best
                       end) 0 recents.

Definition record_recent (now_id now : Z) (params : json) : op StoreFile := fun d =>
  let% object := object_params params or d in
  let% raw := ok_or (object !! "recent" ?> as_object) (invalid_params "recent must be an object") or d in
  let% recent := normalize_recent raw or d in
  let% kind := required_string recent "kind" 32 or d in
  on_account (fun a =>
    let% _ :=
      (if String.eqb kind "profile" then
         let? profile_id := required_string recent "profileId" 128 in
         if any_value profile_id a.(ac_profiles) then Ok tt
         else Err (profile_missing "Recent profile was not found")
       else Ok tt) or a in
    let key := recent_key recent in
    let reused := find_first (same_key key) a.(ac_recents) ?> as_object in
    let others := retain (fun v => negb (same_key key v)) a.(ac_recents) in
    let id := unwrap_or (reused ?> (fun m => get_str m "id")) (unique_id "recent" now_id others) in
    let was_pinned := unwrap_or (reused ?> (fun m => get_bool m "pinned")) false in
    let pin_time_ms := unwrap_or (reused ?> (fun m => get_u64 m "pinTimeMs")) 0 in
    let newest := newest_time others in
    let output := Obj (set_fields
      [("id", Str id); ("pinned", Bool was_pinned); ("pinTimeMs", jnum pin_time_ms);
       ("lastConnectionTimeMs", jnum (Z.max now (wrapping_add 64 newest 1)))] recent) in
    (Ok (jobj [("recent", output)]), validate_default (trim_recents (with_recents (output :: others) a)))) d.

Definition recent_missing (message : string) : BackendError := BackendError_new "recent_not_found" message.

Definition pin_recent (now : Z) (params : json) : op StoreFile := fun d =>
  let% object := object_params params or d in
  let% id := required_string object "id" 128 or d in
  let% pinned := required_bool object "pinned" or d in
  on_account (fun a =>
    let% recent := ok_or (find_value id a.(ac_recents) ?> as_object)
      (recent_missing "Recent connection was not found") or a in
    let recent := set_fields [("pinned", Bool pinned); ("pinTimeMs", jnum (if pinned then now else 0))] recent in
    (Ok (jobj [("updated", Bool true)]),
     trim_recents (with_recents (update_first (has_value_id id) (fun _ => Obj recent) a.(ac_recents)) a))) d.

Definition delete_recent (params : json) : op StoreFile := fun d =>
  let% object := object_params params or d in
  let% id := required_string object "id" 128 or d in
  on_account (fun a =>
    let recents := retain (fun v => negb (has_value_id id v)) a.(ac_recents) in
    (Ok (jobj [("deleted", Bool (negb (length recents =? length a.(ac_recents))%nat))]),
     validate_default (with_recents recents a))) d.

Definition set_default_connection (params : json) : op StoreFile := fun d =>
  let% object := object_params params or d in
  let% selection := ok_or (object !! "selection" ?> as_object) (invalid_params "selection must be an object") or d in
  on_account (fun a =>
    let% v := normalize_default selection a or a in
    (Ok (jobj [("default_connection", v)]), with_default v a)) d.
End Ops.

(** ** Default profiles *)
Definition OFFICIAL_DEFAULT_PROFILE_IDS : list string :=
  ["proton-default-streaming-v1"; "proton-default-gaming-v1"; "proton-default-p2p-v1";
   "proton-default-max-security-v1"; "proton-default-work-school-v1"; "proton-default-random-v1"].
Definition FASTEST_DEFAULT_PROFILE_ID : string := "proton-default-fastest-v1".

Definition is_spanish (locale : string) : bool :=
  match split_char "-" (replace_char "_" "-" locale) with
  | language :: _ => eq_ignore_ascii_case language "es"
  | [] => false
  end.

(** UTF-8: [á] is C3 A1, [ó] is C3 B3. *)
Definition utf8_a_acute : string := String "195" (String "161" "").
Definition utf8_o_acute : string := String "195" (String "179" "").

Definition fields (l : list (string * json)) : Map := set_fields l ∅.

Definition official_templates (spanish : bool) : list (string * Map) :=
  let name (es en : string) := Str (if spanish then es else en) in
  [("proton-default-streaming-v1",
     fields [("name", name "Streaming EE. UU." "Streaming US"); ("targetKind", Str "country");
             ("countryCode", Str "US"); ("countryName", name "Estados Unidos" "United States");
             ("iconName", Str "Streaming")]);
   ("proton-default-gaming-v1",
     fields [("name", name "Juegos" "Gaming"); ("targetKind", Str "p2p"); ("iconName", Str "Gaming");
             ("profileNatType", Str "moderate")]);
   ("proton-default-p2p-v1",
     fields [("name", name "P2P" "P2P"); ("targetKind", Str "p2p"); ("iconName", Str "Download");
             ("profilePortForwardingEnabled", Bool true)]);
   ("proton-default-max-security-v1",
     fields [("name", name ("Seguridad m" +:+ utf8_a_acute +:+ "xima") "Max security");
             ("targetKind", Str "secureCore"); ("iconName", Str "Protection")]);
   ("proton-default-work-school-v1",
     fields [("name", name "Trabajo/Escuela" "Work/School"); ("targetKind", Str "fastest");
             ("iconName", Str "Business"); ("profileProtocol", Str "protun-tls");
             ("profileNetShieldEnabled", Bool true); ("profileNetShieldLevel", jnum 1);
             ("profileNatType", Str "moderate")]);
   ("proton-default-random-v1",
     fields [("name", name ("Conexi" +:+ utf8_o_acute +:+ "n aleatoria") "Random connection");
             ("targetKind", Str "random"); ("iconName", Str "Browsing")])].

Definition fastest_template (spanish : bool) : Map :=
  fields [("name", Str (if spanish then "Servidor m" +:+ utf8_a_acute +:+ "s r" +:+ utf8_a_acute +:+ "pido"
                        else "Fastest server"));
          ("targetKind", Str "fastest"); ("iconName", Str "Speed")].

(** [BTreeMap::keys]: in byte order. *)
Definition key_order (a b : string) : Prop := String.leb a b = true.
#[export] Instance key_order_dec a b : Decision (key_order a b).
Proof. unfold key_order. apply _. Defined.
Definition sorted_keys {A : Type} (m : gmap string A) : list string :=
  merge_sort key_order (map fst (map_to_list m)).

Section Seeding.
Context {L : IpLib}.
(** The clock reading made for an account and a template. *)
Context (clock : string -> string -> Z).

Definition official_default_profiles (account_key locale : string) : result (list json) BackendError :=
  res_collect (fun t : string * Map => res_map Obj (normalize_profile (clock account_key t.1) t.2 None t.1))
    (official_templates (is_spanish locale)).

Definition fastest_default_profile (account_key locale : string) : result json BackendError :=
  res_map Obj (normalize_profile (clock account_key FASTEST_DEFAULT_PROFILE_ID)
                 (fastest_template (is_spanish locale)) None FASTEST_DEFAULT_PROFILE_ID).

(** [profile.get("id").and_then(as_str).unwrap_or_default()]. *)
Definition id_or_empty (v : json) : string := unwrap_or (value_id v) "".

(** The vector of profiles and whether it grew. *)
Definition add_template (st : list json * bool) (profile : json) : list json * bool :=
  if negb (any_value (id_or_empty profile) st.1) && negb (profile_limit_reached st.1)
  then (st.1 ++ [profile], true) else st.

Definition mark_official (key : string) (d : StoreFile) : StoreFile :=
  let m := d.(sf_migration) in
  set_migration (mkMigration m.(mg_legacy_qt_store_imported) m.(mg_copied_to_account_keys)
                   (m.(mg_official_seeded) ++ [key]) m.(mg_fastest_seeded)) d.
Definition mark_fastest (key : string) (d : StoreFile) : StoreFile :=
  let m := d.(sf_migration) in
  set_migration (mkMigration m.(mg_legacy_qt_store_imported) m.(mg_copied_to_account_keys)
                   m.(mg_official_seeded) (m.(mg_fastest_seeded) ++ [key])) d.

Definition seed_account_with_official_profiles (d : StoreFile) (key : string)
    : result bool BackendError * StoreFile :=
  if one_of key d.(sf_migration).(mg_official_seeded) then (Ok false, d)
  else
    let% templates := official_default_profiles key d.(sf_onboarding).(ob_locale) or d in
    let a := account_entry key d in
    let '(profiles, changed) := foldl add_template (a.(ac_profiles), false) templates in
    let d := put_account key (with_profiles profiles a) d in
    if forallb (fun id => any_value id profiles) OFFICIAL_DEFAULT_PROFILE_IDS
    then (Ok true, mark_official key d) else (Ok changed, d).

Definition fastest_profile_default : json :=
  jobj [("type", Str "profile"); ("profileId", Str FASTEST_DEFAULT_PROFILE_ID)].

Definition seed_account_with_fastest_profile (d : StoreFile) (key : string)
    : result bool BackendError * StoreFile :=
  if one_of key d.(sf_migration).(mg_fastest_seeded) then (Ok false, d)
  else
    let% profile := fastest_default_profile key d.(sf_onboarding).(ob_locale) or d in
    let a := account_entry key d in
    let add := negb (any_value FASTEST_DEFAULT_PROFILE_ID a.(ac_profiles))
               && negb (profile_limit_reached a.(ac_profiles)) in
    let a := if add then with_profiles (profile :: a.(ac_profiles)) a else a in
    if any_value FASTEST_DEFAULT_PROFILE_ID a.(ac_profiles) then
      let a := if bool_decide (jget "type" a.(ac_default_connection) ?> as_str = Some "fastest")
               then with_default fastest_profile_default a else a in
      (Ok true, mark_fastest key (put_account key a d))
    else (Ok add, put_account key a d).

Fixpoint seed_all (seed : StoreFile -> string -> result bool BackendError * StoreFile) (changed : bool)
    (d : StoreFile) (keys : list string) : result bool BackendError * StoreFile :=
  match keys with
  | [] => (Ok changed, d)
  | key :: keys =>
      match seed d key with
      | (Ok c, d) => seed_all seed (changed || c) d keys
      | (Err e, d) => (Err e, d)
      end
  end.

Definition seed_known_accounts_with_official_profiles (d : StoreFile) : result bool BackendError * StoreFile :=
  seed_all seed_account_with_official_profiles false d (sorted_keys d.(sf_accounts)).
Definition seed_known_accounts_with_fastest_profile (d : StoreFile) : result bool BackendError * StoreFile :=
  seed_all seed_account_with_fastest_profile false d (sorted_keys d.(sf_accounts)).
End Seeding.

Definition repair_default_connections (d : StoreFile) : bool * StoreFile :=
  let accounts := validate_default <$> d.(sf_accounts) in
  (existsb (fun p : string * AccountStore =>
      match accounts !! p.1 with
      | Some a => negb (bool_decide (a.(ac_default_connection) = p.2.(ac_default_connection)))
      | None => false
      end) (map_to_list d.(sf_accounts)),
   set_accounts accounts d).

(** [import_legacy] once the file has been read. *)
Definition import_legacy_value (root : json) (d : StoreFile) : bool * StoreFile :=
  match as_object root with
  | None => (false, d)
  | Some object =>
      let version := unwrap_or (get_u64 object "version") 0 in
      if negb ((1 <=? version) && (version <=? 4)) then (false, d)
      else
        let a := trim_recents
          (mkAccount (take (Z.to_nat MAX_PROFILES) (unwrap_or (object !! "profiles" ?> as_array) []))
             (unwrap_or (object !! "recents" ?> as_array) []) [] fastest_default_connection
             (unwrap_or (object !! "ui_preferences") (jobj []))) in
        let a :=
          match object !! "default_connection" ?> as_object with
          | Some selection =>
              with_default (unwrap_or (res_ok (normalize_default selection a)) fastest_default_connection) a
          | None => a
          end in
        let d := set_accounts (<[LEGACY_SCOPE := a]> d.(sf_accounts)) d in
        let m := d.(sf_migration) in
        let d := set_migration (mkMigration true m.(mg_copied_to_account_keys) m.(mg_official_seeded)
                                  m.(mg_fastest_seeded)) d in
        (true, set_revision (wrapping_add 64 d.(sf_revision) 1) d)
  end.
