(* ===== verification/StoreTargets.v ===== *)
(** What normalization guarantees of the profiles and recents of the agent's store, and what their
    resolution into connection parameters relies on. *)
From S2P Require Export StoreOps.
Open Scope string_scope.
Open Scope Z_scope.
Open Scope list_scope.
Open Scope rust_scope.

(** ** Fields *)
Fixpoint last_field (key : string) (l : list (string * json)) : option json :=
  match l with
  | [] => None
  | (k, v) :: l =>
      match last_field key l with
      | Some v => Some v
      | None => if String.eqb k key then Some v else None
      end
  end.

Lemma set_fields_lookup l m key :
  set_fields l m !! key = match last_field key l with Some v => Some v | None => m !! key end.
Proof.
  revert m. induction l as [|[k v] l IH]; intros m; simpl; [done|]. rewrite IH.
  destruct (last_field key l) as [w|]; [done|]. destruct (String.eqb_spec k key) as [->|Hne].
  - apply lookup_insert_eq.
  - by apply lookup_insert_ne.
Qed.

Ltac lookup_fields :=
  unfold get_str, get_bool, get_u64; rewrite ?set_fields_lookup;
  cbn [last_field String.eqb Ascii.eqb Bool.eqb andb and_then as_str as_bool as_u64 as_array].

Lemma one_of_elem s l : one_of s l = true <-> s ∈ l.
Proof.
  unfold one_of. rewrite existsb_exists. split.
  - intros (x & Hx & ->%String.eqb_eq). by apply list_elem_of_In.
  - intros H. exists s. split; [by apply list_elem_of_In|apply String.eqb_refl].
Qed.

(** Insertions only touch the keys they name, and insert non-empty clean strings. *)
Lemma insert_profile_string_frame source target key m up target' k :
  insert_profile_string source target key m up = Ok target' -> k <> key -> target' !! k = target !! k.
Proof.
  intros H Hk. unfold insert_profile_string in H. destruct (string_value _ _ _) as [v|]; [|discriminate].
  cbn [res_bind] in H. destruct (is_empty v); [by injection H as <-|]. destruct up.
  - destruct (_ || _); [discriminate|]. injection H as <-. by rewrite lookup_insert_ne.
  - injection H as <-. by rewrite lookup_insert_ne.
Qed.

Lemma insert_strings_frame specs source target target' k :
  insert_strings insert_profile_string specs source target = Ok target' ->
  existsb (fun s => String.eqb s.1.1 k) specs = false -> target' !! k = target !! k.
Proof.
  revert target. induction specs as [|[[key m] up] specs IH]; intros target; simpl; [by intros [= <-]|].
  destruct (insert_profile_string _ _ _ _ _) as [t|] eqn:E; [|discriminate]. cbn [res_bind].
  intros H [Hk Hks]%orb_false_elim. rewrite (IH _ H Hks).
  apply (insert_profile_string_frame _ _ _ _ _ _ _ E). intros ->. by rewrite String.eqb_refl in Hk.
Qed.

Section Targets.
Context {L : IpLib}.

(** ** Profiles *)
Record consistent (p : Map) : Prop := mkConsistent {
  co_nat : get_str p "profileNatType" = Some "moderate" -> get_bool p "profilePortForwardingEnabled" = Some false;
  co_dns : get_str p "profileCustomDnsMode" = Some "custom" ->
    get_bool p "profileNetShieldEnabled" = Some false /\ p !! "profileCustomDnsServers" <> Some (Arr []);
  co_servers : exists l, p !! "profileCustomDnsServers" = Some (Arr (map Str l)) /\ NoDup l /\
    (length l <= 16)%nat /\ forall s, s ∈ l -> exists t a, addr_from_str t = Some a /\ s = addr_to_string a;
  co_protocol : exists s, get_str p "profileProtocol" = Some s /\ s ∈ supported_protocols;
  co_level : exists n, get_u64 p "profileNetShieldLevel" = Some n /\ n <= 2;
  co_go : get_bool p "connectAndGoEnabled" = Some true ->
    (get_str p "connectAndGoMode" = Some "website" /\ get_str p "connectAndGoUrl" <> Some "") \/
    (get_str p "connectAndGoMode" = Some "application" /\ get_str p "connectAndGoAppId" <> Some "") }.

Record profile_ok (p : Map) (id : string) : Prop := mkProfileOk {
  po_id : p !! "id" = Some (Str id);
  po_name : exists name, p !! "name" = Some (Str name) /\ clean 60 name /\ name <> "";
  po_kind : exists kind, p !! "targetKind" = Some (Str kind) /\ profile_target_valid kind p = true;
  po_consistent : consistent p }.

Lemma add_dns_servers_ok values servers l :
  add_dns_servers servers values = Ok l -> NoDup servers ->
  (forall s, s ∈ servers -> exists t a, addr_from_str t = Some a /\ s = addr_to_string a) ->
  NoDup l /\ (length l <= length servers + length values)%nat /\
  forall s, s ∈ l -> exists t a, addr_from_str t = Some a /\ s = addr_to_string a.
Proof.
  revert servers. induction values as [|v values IH]; intros servers; simpl.
  - intros [= <-] ? ?. split_and!; [done|lia|done].
  - destruct (add_dns_server servers v) as [s1|] eqn:E; [|discriminate]. cbn [res_bind]. intros H Hnd Hs.
    unfold add_dns_server in E. destruct (as_str v) as [s|]; [|discriminate]. cbn [ok_or res_bind] in E.
    destruct (is_empty (trim s)); [injection E as <-; destruct (IH _ H Hnd Hs) as (? & ? & ?); split_and!; [done|lia|done]|].
    destruct (addr_from_str (trim s)) as [a|] eqn:Ha; [|discriminate]. cbn [ok_or res_bind] in E.
    destruct (existsb _ servers) eqn:Ex; injection E as <-.
    + destruct (IH _ H Hnd Hs) as (? & ? & ?); split_and!; [done|lia|done].
    + destruct (IH _ H) as (H1 & H2 & H3).
      * apply NoDup_app. split_and!; [done| |apply NoDup_singleton]. intros x Hx Hx'.
        apply elem_of_cons in Hx' as [->|Hx']; [|by apply elem_of_nil in Hx'].
        assert (existsb (String.eqb (addr_to_string a)) servers = true); [|congruence].
        apply existsb_exists. exists (addr_to_string a). split; [by apply list_elem_of_In|apply String.eqb_refl].
      * intros x [Hx|Hx]%elem_of_app; [auto|].
        apply elem_of_cons in Hx as [->|Hx]; [eauto|by apply elem_of_nil in Hx].
      * rewrite length_app in H2. simpl in H2. split_and!; [done|lia|done].
Qed.

Lemma profile_dns_servers_ok v l :
  profile_dns_servers v = Ok l -> NoDup l /\ (length l <= 16)%nat /\
  forall s, s ∈ l -> exists t a, addr_from_str t = Some a /\ s = addr_to_string a.
Proof.
  unfold profile_dns_servers. destruct v as [v|].
  - destruct (as_array v) as [values|]; [|discriminate]. cbn [ok_or res_bind].
    destruct (16 <? _) eqn:E; [discriminate|]. bool_prop. intros H.
    destruct (add_dns_servers_ok _ _ _ H) as (? & ? & ?); [constructor| |split_and!; [done|simpl in *; lia|done]].
    by intros s ?%elem_of_nil.
  - intros [= <-]. split_and!; [constructor|simpl; lia|by intros s ?%elem_of_nil].
Qed.

Lemma normalize_target_ok raw id p :
  normalize_target raw id = Ok p ->
  exists name kind strategy loc,
    p = set_fields [("id", Str id); ("name", Str name); ("targetKind", Str kind);
                    ("selectionStrategy", Str strategy)] loc /\
    required_string raw "name" 60 = Ok name /\ profile_target_valid kind loc = true.
Proof.
  intros H. unfold normalize_target in H. peel_all H. bool_prop. subst p.
  do 4 eexists. split_and!; done.
Qed.

Lemma normalize_connection_ok raw p q :
  normalize_connection raw p = Ok q ->
  exists exclude icon color protocol netshield level nat forwarding,
    q = set_fields
       [("excludeMyCountry", Bool exclude); ("iconName", Str icon); ("color", Str color);
        ("profileProtocol", Str protocol); ("profileNetShieldEnabled", Bool netshield);
        ("profileNetShieldLevel", jnum level); ("profileNatType", Str nat);
        ("profilePortForwardingEnabled", Bool forwarding)] p /\
    protocol ∈ supported_protocols /\ level <= 2 /\ (nat = "moderate" -> forwarding = false).
Proof.
  intros H. unfold normalize_connection in H. peel_all H. subst q.
  do 8 eexists. split; [reflexivity|]. split_and!.
  - destruct (one_of _ supported_protocols) eqn:Es; [by apply one_of_elem|left].
  - lia.
  - intros ->. done.
Qed.

Lemma normalize_dns_ok raw p q :
  normalize_dns raw p = Ok q ->
  exists mode servers lan local_dns,
    q = set_fields [("profileCustomDnsMode", Str mode); ("profileCustomDnsServers", Arr (map Str servers));
                    ("profileLanMode", Str lan); ("profileLocalDnsMode", Str local_dns)] p /\
    profile_dns_servers (raw !! "profileCustomDnsServers") = Ok servers /\
    (mode = "custom" -> servers <> [] /\ unwrap_or (get_bool p "profileNetShieldEnabled") true = false).
Proof.
  intros H. unfold normalize_dns in H. peel_all H. subst q.
  do 4 eexists. split; [reflexivity|]. split; [done|]. intros ->.
  match goal with E : (_ && match ?l with _ => _ end) = false |- _ => destruct l end; [done|].
  split; [done|]. by match goal with E : (_ && unwrap_or _ _) = false |- _ => destruct (unwrap_or _ _) end.
Qed.

Lemma normalize_connect_and_go_ok raw p q :
  normalize_connect_and_go raw p = Ok q ->
  exists enabled mode url private app_id app_path,
    q = set_fields [("connectAndGoEnabled", Bool enabled); ("connectAndGoMode", Str mode);
                    ("connectAndGoUrl", Str url); ("connectAndGoUsePrivateBrowsingMode", Bool private);
                    ("connectAndGoAppId", Str app_id); ("connectAndGoAppPath", Str app_path)] p /\
    (enabled = true -> mode = "website" /\ url <> "" \/ mode = "application" /\ app_id <> "").
Proof.
  intros H. unfold normalize_connect_and_go in H. peel_all H. subst q.
  do 6 eexists. split; [reflexivity|]. intros ->.
  match goal with E : negb (one_of _ _) = false |- _ => apply negb_false_iff, one_of_elem in E; rename E into Em end.
  match goal with E : (true && _) = false |- _ => rename E into Ego end.
  apply elem_of_cons in Em as [Em|Em%list_elem_of_singleton]; rewrite Em in *.
  - left. split; [done|]. intros ->. discriminate.
  - right. split; [done|]. intros ->. discriminate.
Qed.

Definition target_keys : list string :=
  ["entryCountryCode"; "countryCode"; "state"; "city"; "serverName"; "gatewayName"].

Lemma profile_target_valid_ext kind p q :
  (forall k, k ∈ target_keys -> p !! k = q !! k) -> profile_target_valid kind p = profile_target_valid kind q.
Proof.
  intros H. assert (Hn : forall k, k ∈ target_keys -> nonempty p k = nonempty q k)
    by (intros k Hk; unfold nonempty, get_str; by rewrite H).
  unfold profile_target_valid. rewrite !Hn by (unfold target_keys; set_solver). done.
Qed.

(** Normalization only produces profiles that are complete and free of conflicts. *)
Lemma normalize_profile_ok now raw existing id p :
  normalize_profile now raw existing id = Ok p -> profile_ok p id.
Proof.
  intros H. unfold normalize_profile in H. peel_all H. subst p.
  match goal with E : normalize_target _ _ = _ |- _ =>
    apply normalize_target_ok in E as (name & kind & strategy & loc & -> & Hname & Hkind) end.
  match goal with E : normalize_connection _ _ = _ |- _ =>
    apply normalize_connection_ok in E as (ex & icon & color & proto & ns & level & nat & pf & -> & Hp & Hl & Hn) end.
  match goal with E : normalize_dns _ _ = _ |- _ =>
    apply normalize_dns_ok in E as (mode & servers & lan & ldns & -> & Hs & Hd) end.
  match goal with E : normalize_connect_and_go _ _ = _ |- _ =>
    apply normalize_connect_and_go_ok in E as (en & gmode & url & priv & app & path & -> & Hg) end.
  apply profile_dns_servers_ok in Hs as (Hs1 & Hs2 & Hs3).
  apply required_string_Ok in Hname; [|lia].
  split; [by lookup_fields| | |split].
  - exists name. split; [by lookup_fields|done].
  - exists kind. split; [by lookup_fields|]. etransitivity; [apply profile_target_valid_ext|exact Hkind].
    apply Forall_forall. unfold target_keys.
    repeat (apply Forall_cons; split; [lookup_fields; reflexivity|]). by apply Forall_nil.
  - lookup_fields. intros [= ->]. by rewrite Hn.
  - revert Hd. lookup_fields. intros Hd [= ->]. destruct (Hd eq_refl) as [Hne Hns]. simpl in Hns. subst ns.
    split; [done|]. intros [= Hm%map_eq_nil]. done.
  - exists servers. split; [by lookup_fields|done].
  - exists proto. split; [by lookup_fields|done].
  - exists level. split; [by lookup_fields|done].
  - lookup_fields. intros [= ->]. destruct (Hg eq_refl) as [[-> Hu]|[-> Ha]]; [left|right]; split; congruence.
Qed.

(** *** Kinds of targets *)
Definition profile_kinds : list string :=
  ["fastest"; "random"; "p2p"; "tor"; "secureCore"; "country"; "state"; "city"; "server"; "gateway"; "gatewayServer"].
Definition recent_kinds : list string :=
  ["profile"; "gateway"; "gatewayServer"; "secureCore"; "server"; "tor"; "country"; "state"; "city"].

Ltac kind_cases kind :=
  cbn [existsb] in *;
  repeat match goal with
  | |- context [String.eqb kind ?x] => destruct (String.eqb kind x); [done|cbn [orb] in *]
  end; discriminate.

Lemma profile_kind_known kind p : profile_target_valid kind p = true -> kind ∈ profile_kinds.
Proof.
  intros H. apply one_of_elem. unfold profile_target_valid, one_of, profile_kinds in *. kind_cases kind.
Qed.

Lemma recent_kind_known kind p : recent_target_valid kind p = true -> kind ∈ recent_kinds.
Proof.
  intros H. apply one_of_elem. unfold recent_target_valid, one_of, recent_kinds in *. kind_cases kind.
Qed.

(** Each known kind is a clean string and has its flags. *)
Lemma profile_kinds_good :
  Forall (fun kind => clean 32 kind /\ kind <> "" /\ is_Some (profile_kind_fields kind)) profile_kinds.
Proof. unfold profile_kinds. repeat (apply Forall_cons; split; [split_and!; try discriminate; by vm_compute; eauto|]). by apply Forall_nil. Qed.

Lemma recent_kinds_good :
  Forall (fun kind => clean 32 kind /\ kind <> "" /\
    (kind <> "profile" -> forall m, is_Some (recent_kind_fields m kind))) recent_kinds.
Proof.
  unfold recent_kinds. repeat (apply Forall_cons; split; [split_and!; try discriminate; try by vm_compute|]); [..|by apply Forall_nil].
  all: intros _ m; unfold recent_kind_fields; cbn; by eexists.
Qed.

(** *** Resolution of well-formed targets *)
Definition good_id (id : string) : Prop := clean 128 id /\ id <> "".

Lemma resolved_profile_ok p id selection :
  profile_ok p id -> good_id id ->
  exists name target,
    p !! "name" = Some (Str name) /\
    resolved_profile (Obj p) selection =
      Ok (jobj [("selection", type_of selection);
                ("connect_params", jobj [("profile_id", Str id); ("target", Obj target);
                                         ("profile_settings", profile_settings p)]);
                ("recent", jobj [("kind", Str "profile"); ("profileId", Str id); ("header", Str name);
                                 ("description", Str (profile_description p))]);
                ("post_connect", post_connect p)]).
Proof.
  intros [Hid (name & Hname & Hn1 & Hn2) (kind & Hkind & Hv) _] [Hi1 Hi2]. exists name.
  apply profile_kind_known in Hv. pose proof profile_kinds_good as Hg. rewrite Forall_forall in Hg.
  destruct (Hg _ Hv) as (Hk1 & Hk2 & [flags Hf]). exists (profile_target p kind flags). split; [done|].
  unfold resolved_profile. cbn [as_object ok_or res_bind].
  rewrite (required_string_again _ _ _ _ Hkind Hk1 Hk2). cbn [res_bind]. rewrite Hf. cbn [ok_or res_bind].
  rewrite (required_string_again _ _ _ _ Hid Hi1 Hi2), (required_string_again _ _ _ _ Hname Hn1 Hn2). reflexivity.
Qed.

(** A stored recent: a known kind with its fields, a profile being one of [ids]. *)
Definition recent_ok (profiles : list json) (v : json) : Prop :=
  exists r kind, v = Obj r /\ r !! "kind" = Some (Str kind) /\ recent_target_valid kind r = true /\
    (kind = "profile" -> exists id, r !! "profileId" = Some (Str id) /\ good_id id /\ any_value id profiles = true).

Definition stored_profile_ok (v : json) : Prop := exists p id, v = Obj p /\ profile_ok p id /\ good_id id.

Record account_ok (a : AccountStore) : Prop := mkAccountOk {
  ao_profiles : Forall stored_profile_ok a.(ac_profiles);
  ao_recents : Forall (recent_ok a.(ac_profiles)) a.(ac_recents) }.

(** The default connection is its own normal form: what it names exists. *)
Definition default_ok (a : AccountStore) : Prop :=
  exists selection, a.(ac_default_connection) = Obj selection /\ normalize_default selection a = Ok (Obj selection).

Lemma any_value_elem id l : any_value id l = true <-> exists v, v ∈ l /\ value_id v = Some id.
Proof.
  unfold any_value. rewrite existsb_exists. split; intros (v & Hv & Hid); exists v;
    rewrite ?list_elem_of_In, ?has_value_id_true in *; done.
Qed.

Lemma find_value_any id l : any_value id l = true -> exists v, find_value id l = Some v /\ v ∈ l /\ value_id v = Some id.
Proof.
  intros (v & Hv & Hid)%any_value_elem. destruct (find_value id l) as [w|] eqn:E.
  - exists w. split; [done|]. apply find_first_Some in E as [Hw Hid']. by apply has_value_id_true in Hid'.
  - apply find_first_None in E. rewrite Forall_forall in E. apply E in Hv.
    assert (has_value_id id v = true) by by apply has_value_id_true. congruence.
Qed.

Lemma profile_value_id p id : profile_ok p id -> value_id (Obj p) = Some id.
Proof. intros [Hid _ _ _]. unfold value_id, jget. by rewrite Hid. Qed.

Lemma find_profile_resolves a id selection :
  account_ok a -> any_value id a.(ac_profiles) = true ->
  exists v, find_value id a.(ac_profiles) = Some v /\ is_ok (resolved_profile v selection) = true.
Proof.
  intros [Hp _] (v & Hf & Hv & Hid)%find_value_any. exists v. split; [done|].
  rewrite Forall_forall in Hp. destruct (Hp _ Hv) as (p & id' & -> & Hok & Hgood).
  destruct (resolved_profile_ok p id' selection Hok Hgood) as (? & ? & _ & ->). done.
Qed.

Lemma resolved_recent_ok a v selection :
  account_ok a -> recent_ok a.(ac_profiles) v -> is_ok (resolved_recent a v selection) = true.
Proof.
  intros Ha (r & kind & -> & Hkind & Hv & Hprof). pose proof (recent_kind_known _ _ Hv) as Hk.
  pose proof recent_kinds_good as Hg. rewrite Forall_forall in Hg. destruct (Hg _ Hk) as (Hk1 & Hk2 & Hf).
  unfold resolved_recent. cbn [as_object ok_or res_bind].
  rewrite (required_string_again _ _ _ _ Hkind Hk1 Hk2). cbn [res_bind].
  destruct (String.eqb_spec kind "profile") as [->|Hne].
  - destruct (Hprof eq_refl) as (id & Hid & [Hi1 Hi2] & Hany).
    rewrite (required_string_again _ _ _ _ Hid Hi1 Hi2). cbn [res_bind].
    destruct (find_profile_resolves a id selection Ha Hany) as (w & -> & Hw). done.
  - destruct (Hf Hne r) as [flags ->]. done.
Qed.

(** *** Default connections *)
Inductive default_target (a : AccountStore) : json -> Prop :=
  | target_simple kind : kind ∈ ["fastest"; "random"; "last"] -> default_target a (jobj [("type", Str kind)])
  | target_recent id : good_id id -> any_value id a.(ac_recents) = true ->
      default_target a (jobj [("type", Str "recent"); ("recentId", Str id)])
  | target_profile id : good_id id -> any_value id a.(ac_profiles) = true ->
      default_target a (jobj [("type", Str "profile"); ("profileId", Str id)]).

Lemma normalize_default_target selection a v : normalize_default selection a = Ok v -> default_target a v.
Proof.
  intros H. unfold normalize_default in H. peel H. destruct (one_of _ _) eqn:E1.
  { apply Ok_inj in H as <-. constructor. by apply one_of_elem. }
  destruct (String.eqb _ "recent").
  { peel H. match goal with E : required_string _ _ _ = Ok _ |- _ => apply required_string_Ok in E; [|lia] end.
    destruct (any_value _ _) eqn:Ea; [|discriminate]. apply Ok_inj in H as <-. by constructor. }
  destruct (String.eqb _ "profile"); [|discriminate].
  peel H. match goal with E : required_string _ _ _ = Ok _ |- _ => apply required_string_Ok in E; [|lia] end.
  destruct (any_value _ _) eqn:Ea; [|discriminate]. apply Ok_inj in H as <-. by constructor.
Qed.

Lemma default_target_normal a v :
  default_target a v -> exists s, v = Obj s /\ normalize_default s a = Ok v.
Proof.
  destruct 1 as [kind Hk|id [H1 H2] Ha|id [H1 H2] Ha]; (eexists; split; [reflexivity|]); unfold normalize_default.
  - apply elem_of_cons in Hk as [->|[->| ->%list_elem_of_singleton]%elem_of_cons]; reflexivity.
  - change (string_or _ "type" "fastest" 32) with (Ok (E := BackendError) "recent"). cbn [res_bind].
    change (one_of "recent" _) with false. cbv iota. change (String.eqb "recent" "recent") with true. cbv iota.
    rewrite (required_string_again _ _ _ id); [|reflexivity|done..]. cbn [res_bind]. by rewrite Ha.
  - change (string_or _ "type" "fastest" 32) with (Ok (E := BackendError) "profile"). cbn [res_bind].
    change (one_of "profile" _) with false. cbv iota. change (String.eqb "profile" "recent") with false.
    change (String.eqb "profile" "profile") with true. cbv iota.
    rewrite (required_string_again _ _ _ id); [|reflexivity|done..]. cbn [res_bind]. by rewrite Ha.
Qed.

Lemma default_ok_target a : default_ok a <-> default_target a a.(ac_default_connection).
Proof.
  split.
  - intros (s & -> & H). by apply normalize_default_target in H.
  - intros (s & Hs & H)%default_target_normal. exists s. split; [done|]. by rewrite <- Hs.
Qed.

Lemma validate_default_ok a : default_ok (validate_default a).
Proof.
  apply default_ok_target. unfold validate_default. cbn [with_default ac_default_connection].
  assert (Hf : forall v, default_target a v -> default_target (with_default v a) v) by by destruct 1; constructor.
  assert (Hg : forall v w, default_target a v -> default_target (with_default w a) v) by by destruct 1; constructor.
  destruct (as_object _) as [s|]; simpl; [|apply Hg, target_simple; left].
  destruct (normalize_default s a) as [v|] eqn:E; simpl; apply Hg.
  - by apply normalize_default_target in E.
  - apply target_simple. left.
Qed.

Lemma max_by_key_elem {A : Type} (key : A -> Z) l x : max_by_key key l = Some x -> x ∈ l.
Proof.
  unfold max_by_key.
  assert (H : forall best, foldl (fun best x => match best with
                       | Some b => if key b <=? key x then Some x else best
                       | None => Some x end) best l = Some x -> best = Some x \/ x ∈ l).
  { induction l as [|y l IH]; intros best; simpl; [auto|]. intros [H|H]%IH; [|right; by right].
    destruct best as [b|].
    - destruct (_ <=? _); [injection H as ->; right; left|by left].
    - injection H as ->. right. left. }
  intros [[=]|Hx]%H. done.
Qed.

Lemma default_resolves a params :
  account_ok a -> default_ok a -> jget "selection" params ?> as_object = None ->
  is_ok (resolve_connection a params) = true.
Proof.
  intros Ha Hd Hp. unfold resolve_connection. rewrite Hp. cbn [or_else]. apply default_ok_target in Hd.
  destruct Hd as [kind Hk|id [H1 H2] Hany|id [H1 H2] Hany].
  - apply elem_of_cons in Hk as [->|[->| ->%list_elem_of_singleton]%elem_of_cons]; [reflexivity..|].
    match goal with |- is_ok ?r = true => change r with
      (match most_recent_connection a with
       | Some recent => resolved_recent a recent "last"
       | None => Ok (jobj [("selection", type_of "last"); ("fallback", Str "fastest");
                           ("connect_params", jobj [("target", jobj [])])])
       end) end.
    destruct (most_recent_connection a) as [r|] eqn:E; [|done]. apply max_by_key_elem in E.
    apply resolved_recent_ok; [done|]. destruct Ha as [_ Hr]. rewrite Forall_forall in Hr. by apply Hr.
  - cbn [as_object jobj ok_or res_bind]. rewrite (required_string_again _ "recentId" _ id); [|reflexivity|done..].
    destruct (find_value_any _ _ Hany) as (v & Hf & Hv & _). cbn. rewrite Hf. cbn.
    apply resolved_recent_ok; [done|]. destruct Ha as [_ Hr]. rewrite Forall_forall in Hr. by apply Hr.
  - cbn [as_object jobj ok_or res_bind]. rewrite (required_string_again _ "profileId" _ id); [|reflexivity|done..].
    destruct (find_profile_resolves a id "profile" Ha Hany) as (v & Hf & Hv). cbn. rewrite Hf. done.
Qed.
End Targets.
