(* ===== verification/StoreRecents.v ===== *)
(** The bounded list of recent connections of the agent's store: what trimming keeps, and what recording
    a connection does. *)
From S2P Require Export StoreTargets.
Open Scope string_scope.
Open Scope Z_scope.
Open Scope list_scope.
Open Scope rust_scope.

Definition unpinned (v : json) : bool := negb (pinned v).

(** ** Sorting *)
Section Sorting.
Context {A : Type} (key : A -> Z).

Lemma insert_by_perm x l : insert_by key x l ≡ₚ x :: l.
Proof.
  induction l as [|y l IH]; simpl; [done|]. destruct (_ <=? _); [done|]. rewrite IH. apply Permutation_swap.
Qed.

Lemma sort_by_key_perm l : sort_by_key key l ≡ₚ l.
Proof.
  unfold sort_by_key. induction l as [|x l IH]; [done|]. change (insert_by key x (foldr (insert_by key) [] l) ≡ₚ x :: l).
  by rewrite insert_by_perm, IH.
Qed.

Lemma insert_by_sorted x l :
  StronglySorted (fun a b => key a <= key b) l -> StronglySorted (fun a b => key a <= key b) (insert_by key x l).
Proof.
  induction 1 as [|y l Hl IH Hy]; simpl; [by repeat constructor|]. destruct (_ <=? _) eqn:E; bool_prop.
  - constructor; [by constructor|]. constructor; [done|]. eapply Forall_impl; [exact Hy|]. simpl. lia.
  - constructor; [done|]. rewrite insert_by_perm. constructor; [lia|done].
Qed.

Lemma sort_by_key_sorted l : StronglySorted (fun a b => key a <= key b) (sort_by_key key l).
Proof. unfold sort_by_key. induction l as [|x l IH]; [constructor|]. by apply insert_by_sorted. Qed.
End Sorting.

Lemma StronglySorted_app_rel {A : Type} (R : A -> A -> Prop) l1 l2 x y :
  StronglySorted R (l1 ++ l2) -> x ∈ l1 -> y ∈ l2 -> R x y.
Proof.
  induction l1 as [|z l1 IH]; simpl; [by intros _ ?%elem_of_nil|].
  intros H. apply StronglySorted_inv in H as [H Hz]. intros [->|Hx]%elem_of_cons Hy; [|by apply IH].
  rewrite Forall_forall in Hz. apply Hz, elem_of_app. by right.
Qed.

(** ** Trimming *)

Lemma retain_none {A : Type} (p : A -> bool) l : Forall (fun x => p x = false) l -> retain p l = [].
Proof. induction 1 as [|x l Hx _ IH]; simpl; [done|]. by rewrite Hx. Qed.

Definition newest_unpinned (l : list json) : list json :=
  sort_by_key (fun v => - last_time v) (retain unpinned l).

Lemma trimmed_eq l :
  trimmed l = sort_by_key pin_time (retain pinned l) ++ take MAX_UNPINNED_RECENTS (newest_unpinned l).
Proof. done. Qed.

Lemma pinned_part l v : v ∈ sort_by_key pin_time (retain pinned l) <-> v ∈ l /\ pinned v = true.
Proof. by rewrite sort_by_key_perm, retain_elem. Qed.

Lemma unpinned_part l v : v ∈ newest_unpinned l <-> v ∈ l /\ unpinned v = true.
Proof. unfold newest_unpinned. by rewrite sort_by_key_perm, retain_elem. Qed.

Lemma elem_take {A : Type} (n : nat) (l : list A) x : x ∈ take n l -> x ∈ l.
Proof. intros H. rewrite <- (take_drop n l), elem_of_app. by left. Qed.

Lemma trimmed_elem l v : v ∈ trimmed l -> v ∈ l.
Proof.
  rewrite trimmed_eq, elem_of_app, pinned_part. intros [[? _]|H%elem_take]; [done|].
  by apply unpinned_part in H as [? _].
Qed.

Lemma trimmed_unpinned l : (length (retain unpinned (trimmed l)) <= MAX_UNPINNED_RECENTS)%nat.
Proof.
  rewrite trimmed_eq, retain_app, (retain_none unpinned (sort_by_key _ _)).
  - simpl. etransitivity; [apply retain_length|]. rewrite length_take. lia.
  - apply Forall_forall. intros v [_ Hv]%pinned_part. unfold unpinned. by rewrite Hv.
Qed.

(** Nothing is dropped from a list that is within the bound. *)
Lemma trimmed_all l v :
  (length (retain unpinned l) <= MAX_UNPINNED_RECENTS)%nat -> v ∈ l -> v ∈ trimmed l.
Proof.
  intros Hl Hv. rewrite trimmed_eq, elem_of_app. destruct (pinned v) eqn:Hp; [left; by apply pinned_part|right].
  rewrite take_ge.
  - apply unpinned_part. unfold unpinned. by rewrite Hp.
  - unfold newest_unpinned. by rewrite sort_by_key_perm.
Qed.

(** What is dropped is unpinned and not newer than any unpinned entry that is kept. *)
Lemma trimmed_dropped l v w :
  v ∈ l -> v ∉ trimmed l -> w ∈ trimmed l -> unpinned w = true -> unpinned v = true /\ last_time v <= last_time w.
Proof.
  intros Hv Hnot Hw Hup. rewrite trimmed_eq, elem_of_app in Hnot, Hw. destruct (unpinned v) eqn:Hp.
  - split; [done|]. destruct Hw as [[_ Hw]%pinned_part|Hw]; [unfold unpinned in Hup; by rewrite Hw in Hup|].
    assert (Hv' : v ∈ newest_unpinned l) by by apply unpinned_part.
    rewrite <- (take_drop MAX_UNPINNED_RECENTS (newest_unpinned l)), elem_of_app in Hv'.
    destruct Hv' as [?|Hv']; [tauto|].
    pose proof (sort_by_key_sorted (fun v => - last_time v) (retain unpinned l)) as Hs.
    fold (newest_unpinned l) in Hs. rewrite <- (take_drop MAX_UNPINNED_RECENTS (newest_unpinned l)) in Hs.
    pose proof (StronglySorted_app_rel _ _ _ _ _ Hs Hw Hv') as H. simpl in H. lia.
  - exfalso. apply Hnot. left. apply pinned_part. unfold unpinned in Hp. by apply negb_false_iff in Hp.
Qed.

(** ** Recording *)
Lemma newest_time_bound l r : r ∈ l -> last_time r <= newest_time l.
Proof.
  unfold newest_time, last_time.
  set (step := fun (best : Z) (v : json) => match jget "lastConnectionTimeMs" v ?> as_u64 with
                                            | Some t => Z.max best t | None => best end).
  assert (Hmono : forall l b, b <= foldl step b l).
  { clear. intros l. induction l as [|x l IH]; intros b; simpl; [lia|]. etransitivity; [|apply IH].
    unfold step. case_match; lia. }
  assert (H : forall b, 0 <= b -> r ∈ l -> unwrap_or (jget "lastConnectionTimeMs" r ?> as_u64) 0 <= foldl step b l).
  { induction l as [|x l IH]; intros b Hb; simpl; [by intros ?%elem_of_nil|].
    intros [->|Hr]%elem_of_cons.
    - etransitivity; [|apply Hmono]. unfold step. destruct (jget "lastConnectionTimeMs" x ?> as_u64); simpl; lia.
    - apply IH; [|done]. unfold step. case_match; lia. }
  by apply H.
Qed.

Lemma newest_time_range l bound :
  0 <= bound -> (forall r, r ∈ l -> last_time r <= bound) -> 0 <= newest_time l <= bound.
Proof.
  intros Hb. unfold newest_time.
  assert (H : forall b, 0 <= b <= bound -> (forall r, r ∈ l -> last_time r <= bound) ->
    0 <= foldl (fun best v => match jget "lastConnectionTimeMs" v ?> as_u64 with
                              | Some t => Z.max best t | None => best end) b l <= bound).
  { induction l as [|x l IH]; intros b H0 H; simpl; [done|]. apply IH.
    - assert (Hx : last_time x <= bound) by (apply H; left). unfold last_time in Hx.
      destruct (jget "lastConnectionTimeMs" x ?> as_u64); simpl in Hx; lia.
    - intros r Hr. apply H. by right. }
  intros Hl. apply H; [lia|done].
Qed.

Lemma max_by_key_strict {A : Type} (key : A -> Z) l x :
  x ∈ l -> (forall y, y ∈ l -> y = x \/ key y < key x) -> max_by_key key l = Some x.
Proof.
  intros Hx Hl. unfold max_by_key.
  set (step := fun best y => match best with
                             | Some b => if key b <=? key y then Some y else best | None => Some y end).
  assert (H : forall best, (best = Some x \/ (x ∈ l /\ forall b, best = Some b -> b = x \/ key b < key x)) ->
    foldl step best l = Some x).
  { clear Hx. induction l as [|y l IH]; intros best Hb; simpl.
    - destruct Hb as [Hb|[Hx _]]; [done|by apply elem_of_nil in Hx].
    - apply IH; [intros z Hz; apply Hl; by right|].
      destruct (Hl y ltac:(left)) as [->|Hlt].
      + left. unfold step. destruct best as [b|]; [|done].
        destruct Hb as [[= ->]|[_ Hb]]; [by rewrite Z.leb_refl|].
        destruct (Hb b eq_refl) as [->|]; [by rewrite Z.leb_refl|]. by rewrite (proj2 (Z.leb_le _ _)) by lia.
      + destruct Hb as [->|[Hx Hb]].
        * left. unfold step. by rewrite (proj2 (Z.leb_gt _ _)) by lia.
        * right. split; [apply elem_of_cons in Hx as [->|Hx]; [lia|done]|].
          intros b. unfold step. destruct best as [b'|]; [|intros [= <-]; by right].
          destruct (_ <=? _); intros [= <-]; [by right|auto]. }
  apply H. right. split; [done|]. by intros b [=].
Qed.

(** A fresh entry that is newer than all others survives trimming. *)
Lemma newest_kept x l :
  (forall y, y ∈ l -> last_time y < last_time x) -> x ∈ trimmed (x :: l).
Proof.
  intros Hl. destruct (decide (x ∈ trimmed (x :: l))) as [|Hnot]; [done|exfalso].
  assert (Hx : unpinned x = true).
  { unfold unpinned. destruct (pinned x) eqn:Hp; [|done]. exfalso. apply Hnot.
    rewrite trimmed_eq, elem_of_app, pinned_part. left. split; [left|done]. }
  assert (Hin : x ∈ newest_unpinned (x :: l)) by (apply unpinned_part; split; [left|done]).
  destruct (newest_unpinned (x :: l)) as [|w rest] eqn:E; [by apply elem_of_nil in Hin|].
  assert (Hw : w ∈ newest_unpinned (x :: l)) by (rewrite E; left).
  assert (Hwt : w ∈ trimmed (x :: l)) by (rewrite trimmed_eq, E, elem_of_app; right; left).
  apply unpinned_part in Hw as [Hwl Hwu].
  pose proof (trimmed_dropped (x :: l) x w ltac:(left) Hnot Hwt Hwu) as [_ Hle].
  apply elem_of_cons in Hwl as [->|Hwl]; [done|]. specialize (Hl w Hwl). lia.
Qed.

Section Recording.
Context {L : IpLib}.

Definition active_account (d : StoreFile) : AccountStore := account_entry (active_key d) d.

Lemma active_put a d : active_account (put_account (active_key d) a d) = a.
Proof.
  unfold active_account, account_entry, put_account, active_key. cbn. by rewrite lookup_insert_eq.
Qed.

Lemma on_account_Ok f d v d' :
  on_account f d = (Ok v, d') ->
  exists a, f (active_account d) = (Ok v, a) /\ d' = put_account (active_key d) a d.
Proof.
  unfold on_account. fold (active_account d). destruct (f _) as [r a]. intros [= -> <-]. by exists a.
Qed.

(** recording a connection puts it first.  After a successful [recents.record] the recorded entry
    is stored and is the one that "last" connects to; entries of the same target are replaced, all
    others that stay are unchanged, every pinned one stays, at most six unpinned ones remain, and
    profiles are untouched.  (The clock and the stored times are below the end of the 64-bit range.) *)
Theorem record_recent_newest now_id now params d v d' :
  record_recent now_id now params d = (Ok v, d') ->
  (forall r, r ∈ (active_account d).(ac_recents) -> last_time r < 2 ^ 64 - 1) ->
  exists recent,
    v = jobj [("recent", Obj recent)] /\
    let a := active_account d in
    let a' := active_account d' in
    Obj recent ∈ a'.(ac_recents) /\
    most_recent_connection a' = Some (Obj recent) /\
    (forall r, r ∈ a'.(ac_recents) -> r = Obj recent \/
       (r ∈ a.(ac_recents) /\ same_key (recent_key recent) r = false)) /\
    (forall r, r ∈ a.(ac_recents) -> pinned r = true -> same_key (recent_key recent) r = false ->
       r ∈ a'.(ac_recents)) /\
    (length (retain unpinned a'.(ac_recents)) <= 6)%nat /\
    a'.(ac_profiles) = a.(ac_profiles).
Proof.
  intros H Htimes. unfold record_recent in H.
  destruct (object_params params) as [o|]; [|discriminate]. destruct (ok_or _ _) as [raw|]; [|discriminate].
  destruct (normalize_recent raw) as [recent|] eqn:En; [|discriminate].
  destruct (required_string recent "kind" 32) as [kind|]; [|discriminate].
  apply on_account_Ok in H as (a' & Hf & ->). rewrite active_put.
  destruct (if String.eqb kind "profile" then _ else _) as [[]|]; [|discriminate].
  pose proof (f_equal snd Hf) as Ha. pose proof (Ok_inj _ _ (f_equal fst Hf)) as Hv. clear Hf. cbn [snd] in Ha.
  set (a := active_account d) in *.
  set (others := retain (fun v => negb (same_key (recent_key recent) v)) (ac_recents a)) in *.
  match type of Ha with context [Obj (set_fields ?l recent) :: others] => set (added := l) in * end.
  set (out := set_fields added recent) in *. exists out. split; [by rewrite <- Hv|].
  assert (Hothers : forall r, r ∈ others -> r ∈ ac_recents a /\ same_key (recent_key recent) r = false).
  { intros r [Hr Hk]%retain_elem. split; [done|]. by apply negb_true_iff in Hk. }
  assert (Hkey : recent_key out = recent_key recent).
  { unfold recent_key, field, out, added. lookup_fields. reflexivity. }
  assert (Htime : forall r, r ∈ others -> last_time r < last_time (Obj out)).
  { intros r Hr. pose proof (newest_time_bound _ _ Hr) as Hb.
    pose proof (newest_time_range others (2 ^ 64 - 2) ltac:(lia)) as Hrange.
    assert (Hout : last_time (Obj out) = Z.max now (wrapping_add 64 (newest_time others) 1)).
    { unfold last_time, jget, out, added. lookup_fields. reflexivity. }
    rewrite Hout. unfold wrapping_add. rewrite Z.mod_small; [lia|].
    destruct Hrange; [|lia]. intros r' [Hr' _]%Hothers. specialize (Htimes r' Hr'). lia. }
  assert (Hrec : ac_recents a' = trimmed (Obj out :: others)) by by rewrite <- Ha.
  assert (Hin : Obj out ∈ ac_recents a') by (rewrite Hrec; by apply newest_kept).
  assert (Hrest : forall r, r ∈ ac_recents a' -> r = Obj out \/ r ∈ others).
  { intros r Hr. rewrite Hrec in Hr. by apply trimmed_elem, elem_of_cons in Hr. }
  cbv zeta. rewrite Hkey. split_and!; [done| | | | |by rewrite <- Ha].
  - apply max_by_key_strict; [done|]. intros r [->|Hr]%Hrest; [by left|right; by apply Htime].
  - intros r [->|Hr]%Hrest; [by left|right; by apply Hothers].
  - intros r Hr Hp Hk. rewrite Hrec, trimmed_eq, elem_of_app, pinned_part. left. split; [|done]. right.
    apply retain_elem. split; [done|]. by rewrite Hk.
  - rewrite Hrec. apply trimmed_unpinned.
Qed.
End Recording.

Definition example_recent (n : Z) : json :=
  jobj [("id", Str (dec n)); ("kind", Str "country"); ("countryCode", Str "FR"); ("city", Str (dec n));
        ("pinned", Bool (n =? 1)); ("pinTimeMs", jnum n); ("lastConnectionTimeMs", jnum n)].
Definition example_recents : StoreFile :=
  put_account LEGACY_SCOPE
    (with_recents (map example_recent [1; 2; 3; 4; 5; 6; 7; 8]) AccountStore_default) StoreFile_default.

Definition example_record : BackendResult * StoreFile :=
  record_recent 9 5 (jobj [("recent", jobj [("kind", Str "country"); ("countryCode", Str " es ")])]) example_recents.

Lemma record_recent_newest_witness :
  (exists recent, example_record.1 = Ok (jobj [("recent", Obj recent)]) /\
     most_recent_connection (active_account example_record.2) = Some (Obj recent)) /\
  (res_ok example_record.1 ?> jget "recent" ?> jget "countryCode") = Some (Str "ES") /\
  length (active_account example_record.2).(ac_recents) = 7%nat.
Proof.
  split; [|split; vm_compute; reflexivity].
  assert (Hr : is_ok example_record.1 = true) by (vm_compute; reflexivity).
  pose proof (record_recent_newest 9 5 (jobj [("recent", jobj [("kind", Str "country"); ("countryCode", Str " es ")])])
    example_recents) as H. fold example_record in H. destruct example_record as [[v|e] d']; [|discriminate Hr].
  destruct (H v d' eq_refl) as (recent & Hv & H').
  - assert (Hb : forallb (fun r => last_time r <? 2 ^ 64 - 1) (ac_recents (active_account example_recents)) = true)
      by (vm_compute; reflexivity).
    intros r Hin. apply Z.ltb_lt. rewrite forallb_forall in Hb. apply Hb. apply list_elem_of_In. exact Hin.
  - exists recent. destruct H' as (_ & H' & _). split; [exact (f_equal Ok Hv)|exact H'].
Defined.
