(* ===== verification/StoreInvariants.v ===== *)
(** Invariants of the agent's store: every stored profile and recent can be turned into connection
    parameters, and the default connection names something that exists. *)
From S2P Require Export StoreRecents.
Open Scope string_scope.
Open Scope Z_scope.
Open Scope list_scope.
Open Scope rust_scope.

(** ** Identified vectors *)
Lemma any_value_app id l1 l2 : any_value id (l1 ++ l2) = any_value id l1 || any_value id l2.
Proof. apply existsb_app. Qed.

Lemma any_value_subset id l l' :
  (forall v, v ∈ l -> v ∈ l') -> any_value id l = true -> any_value id l' = true.
Proof. intros H (v & Hv & Hid)%any_value_elem. apply any_value_elem. eauto. Qed.

(** Replacing the entry of an identifier by one with the same identifier. *)
Lemma any_value_update id id' v l :
  value_id v = Some id' -> any_value id l = true -> any_value id (update_first (has_value_id id') (fun _ => v) l) = true.
Proof.
  intros Hv. unfold any_value. induction l as [|x l IH]; simpl; [done|].
  destruct (has_value_id id' x) eqn:Hx; simpl.
  - intros [H|H]%orb_prop; [|by rewrite H, orb_true_r].
    apply has_value_id_true in H, Hx. rewrite H in Hx. injection Hx as ->.
    assert (has_value_id id' v = true) as -> by by apply has_value_id_true. done.
  - intros [H|H]%orb_prop; [by rewrite H|]. rewrite IH by done. apply orb_true_r.
Qed.

Lemma any_value_put id id' v l :
  value_id v = Some id' -> any_value id l = true -> any_value id (put_profile id' v l) = true.
Proof.
  intros Hv H. unfold put_profile. destruct (any_value id' l); [by apply any_value_update|].
  rewrite any_value_app, H. done.
Qed.

Lemma Forall_update_const {A : Type} (P : A -> Prop) p v l :
  P v -> Forall P l -> Forall P (update_first p (fun _ => v) l).
Proof. intros Hv Hl. apply Forall_update_first; [done|done]. Qed.

Lemma find_value_elem id l v : find_value id l = Some v -> v ∈ l /\ value_id v = Some id.
Proof. intros [Hv Hid]%find_first_Some. split; [done|by apply has_value_id_true]. Qed.

Lemma retain_update_length {A : Type} (q p : A -> bool) v l :
  q v = false -> (length (retain q (update_first p (fun _ => v) l)) <= length (retain q l))%nat.
Proof.
  intros Hv. induction l as [|x l IH]; simpl; [done|]. destruct (p x); simpl.
  - rewrite Hv. destruct (q x); simpl; lia.
  - destruct (q x); simpl; lia.
Qed.

Section Invariants.
Context {L : IpLib}.

(** ** The invariant of an account *)
Record account_wf (a : AccountStore) : Prop := mkAccountWf {
  aw_ok : account_ok a;
  aw_unpinned : (length (retain unpinned a.(ac_recents)) <= MAX_UNPINNED_RECENTS)%nat }.

Lemma AccountStore_default_wf : account_wf AccountStore_default.
Proof. split; [split; constructor|simpl; lia]. Qed.

Lemma AccountStore_default_ok : default_ok AccountStore_default.
Proof. apply default_ok_target, target_simple. left. Qed.

Lemma recent_ok_mono l l' v :
  (forall id, any_value id l = true -> any_value id l' = true) -> recent_ok l v -> recent_ok l' v.
Proof.
  intros H (r & kind & Hv & Hk & Ht & Hp). exists r, kind. split_and!; [done..|].
  intros E. destruct (Hp E) as (id & H1 & H2 & H3). eauto.
Qed.

Lemma default_target_mono a a' v :
  (forall id, any_value id a.(ac_recents) = true -> any_value id a'.(ac_recents) = true) ->
  (forall id, any_value id a.(ac_profiles) = true -> any_value id a'.(ac_profiles) = true) ->
  default_target a v -> default_target a' v.
Proof. intros Hr Hp. destruct 1; constructor; auto. Qed.

(** Changing the profiles without losing an identifier. *)
Lemma with_profiles_wf l a :
  Forall stored_profile_ok l -> (forall id, any_value id a.(ac_profiles) = true -> any_value id l = true) ->
  account_wf a -> account_wf (with_profiles l a) /\ (default_ok a -> default_ok (with_profiles l a)).
Proof.
  intros Hl Hmono [[Hp Hr] Hu]. split.
  - split; [split; simpl; [done|]|done]. eapply Forall_impl; [exact Hr|]. intros v. by apply recent_ok_mono.
  - rewrite !default_ok_target. by apply default_target_mono.
Qed.

Lemma put_profile_wf id p a :
  profile_ok p id -> good_id id -> account_wf a ->
  account_wf (with_profiles (put_profile id (Obj p) a.(ac_profiles)) a) /\
  (default_ok a -> default_ok (with_profiles (put_profile id (Obj p) a.(ac_profiles)) a)).
Proof.
  intros Hp Hid Ha. assert (Hs : stored_profile_ok (Obj p)) by by exists p, id.
  apply with_profiles_wf; [| |done].
  - unfold put_profile. destruct Ha as [[Hall _] _]. destruct (any_value id _).
    + by apply Forall_update_const.
    + apply Forall_app. split; [done|by repeat constructor].
  - intros id'. apply any_value_put. by apply profile_value_id.
Qed.

(** ** Recents *)
Definition recent_target_keys : list string := "profileId" :: target_keys.

Lemma recent_target_valid_ext kind p q :
  (forall k, k ∈ recent_target_keys -> p !! k = q !! k) -> recent_target_valid kind p = recent_target_valid kind q.
Proof.
  intros H. assert (Hn : forall k, k ∈ recent_target_keys -> nonempty p k = nonempty q k)
    by (intros k Hk; unfold nonempty, get_str; by rewrite H).
  unfold recent_target_valid. rewrite !Hn by (unfold recent_target_keys, target_keys; set_solver). done.
Qed.

(** Fields that a target does not depend on. *)
Definition bookkeeping (l : list (string * json)) : Prop :=
  Forall (fun k => last_field k l = None) ("kind" :: recent_target_keys).

Lemma recent_ok_set_fields profiles r l :
  bookkeeping l -> recent_ok profiles (Obj r) -> recent_ok profiles (Obj (set_fields l r)).
Proof.
  intros Hb (r' & kind & [= <-] & Hk & Hv & Hp).
  assert (Hl : forall k, k ∈ "kind" :: recent_target_keys -> set_fields l r !! k = r !! k).
  { intros k Hin. rewrite set_fields_lookup. unfold bookkeeping in Hb. rewrite Forall_forall in Hb. by rewrite Hb. }
  exists (set_fields l r), kind. split_and!; [done| | |].
  - rewrite Hl; [done|left].
  - rewrite <- Hv. apply recent_target_valid_ext. intros k Hin. apply Hl. by right.
  - intros E. destruct (Hp E) as (id & H1 & H2 & H3). exists id. split; [|done].
    rewrite Hl; [done|right; left].
Qed.

Lemma insert_profile_string_clean source target key m up target' k x :
  insert_profile_string source target key m up = Ok target' -> up = false -> 0 <= m ->
  target' !! k = Some x -> target !! k = Some x \/ exists v, x = Str v /\ clean m v /\ v <> "".
Proof.
  intros H -> Hm Hx. unfold insert_profile_string in H.
  destruct (string_value _ _ _) as [v|] eqn:E; [|discriminate]. apply string_value_clean in E; [|done].
  cbn [res_bind] in H. destruct v as [|c v]; simpl in H; [injection H as <-; by left|].
  apply Ok_inj in H. subst target'. destruct (decide (k = key)) as [->|Hne].
  - rewrite lookup_insert_eq in Hx. injection Hx as <-. right. by eexists.
  - rewrite lookup_insert_ne in Hx by done. by left.
Qed.

(** The identifier of a profile in a normalized recent is clean. *)
Lemma recent_location_profile_id raw kind r x :
  insert_strings insert_recent_string recent_location raw {["kind" := Str kind]} = Ok r ->
  r !! "profileId" = Some x -> exists v, x = Str v /\ good_id v.
Proof.
  unfold recent_location. cbn [insert_strings]. intros H Hx. peel H.
  match goal with E : insert_recent_string _ _ "profileId" _ _ = Ok ?t |- _ => rename E into E0; rename t into t0 end.
  assert (Ht : r !! "profileId" = t0 !! "profileId").
  { by apply (insert_strings_frame (tail recent_location) raw t0 r "profileId"). }
  rewrite Ht in Hx. unfold insert_recent_string in E0. destruct (insert_profile_string_clean _ _ _ _ _ _ _ _ E0 eq_refl ltac:(lia) Hx) as [Hx'|(v & ? & ? & ?)].
  - by rewrite lookup_singleton_ne in Hx'.
  - by exists v.
Qed.

Lemma normalize_recent_ok raw r kind :
  normalize_recent raw = Ok r -> required_string r "kind" 32 = Ok kind ->
  r !! "kind" = Some (Str kind) /\ recent_target_valid kind r = true /\
  forall x, r !! "profileId" = Some x -> exists v, x = Str v /\ good_id v.
Proof.
  intros H Hk. unfold normalize_recent in H. peel H. rename a into k0.
  match goal with E : required_string raw "kind" 32 = _ |- _ => apply required_string_Ok in E as [Hc1 Hc2]; [|lia] end.
  peel H. rename a into r0.
  match goal with E : insert_strings _ _ _ _ = _ |- _ => rename E into E0 end.
  assert (Hr0 : r0 !! "kind" = Some (Str k0)).
  { rewrite (insert_strings_frame recent_location raw {["kind" := Str k0]} r0 "kind"); [apply lookup_singleton_eq|done|done]. }
  pose proof (recent_location_profile_id raw k0 r0) as Hpid.
  (* the optional fields *)
  peel H. rename a into r1.
  match goal with E : (if _ then _ else _) = Ok r1 |- _ => rename E into E1 end.
  assert (Hr1 : forall k, k <> "feature" -> r1 !! k = r0 !! k).
  { intros k Hne. destruct (one_of k0 _); [|by apply Ok_inj in E1 as <-].
    peel E1. destruct (negb _) in E1; [discriminate|]. apply Ok_inj in E1 as <-. by rewrite lookup_insert_ne. }
  peel H. rename a into r2.
  match goal with E : (match raw !! "load" with _ => _ end) = Ok r2 |- _ => rename E into E2 end.
  assert (Hr2 : forall k, k <> "load" -> r2 !! k = r1 !! k).
  { intros k Hne. destruct (raw !! "load") as [v|]; [|by apply Ok_inj in E2 as <-].
    peel E2. apply Ok_inj in E2 as <-. by rewrite lookup_insert_ne. }
  destruct (negb _) eqn:Hv in H; [discriminate|]. apply Ok_inj in H as <-. apply negb_false_iff in Hv.
  assert (Hk2 : r2 !! "kind" = Some (Str k0)) by by rewrite Hr2, Hr1.
  rewrite (required_string_again _ _ _ _ Hk2 Hc1 Hc2) in Hk. apply Ok_inj in Hk as <-.
  split_and!; [done|done|]. intros x Hx. rewrite Hr2, Hr1 in Hx by done. by apply (Hpid x).
Qed.

(** ** Operations *)
Definition all_accounts (P : AccountStore -> Prop) (d : StoreFile) : Prop :=
  forall key a, d.(sf_accounts) !! key = Some a -> P a.

Lemma put_account_all P key a d : P a -> all_accounts P d -> all_accounts P (put_account key a d).
Proof. intros Ha Hd k b. cbn. rewrite lookup_insert_Some. intros [[_ <-]|[_ H]]; [done|by eapply Hd]. Qed.

Lemma account_entry_all P key d : P AccountStore_default -> all_accounts P d -> P (account_entry key d).
Proof.
  intros Hdef Hd. unfold account_entry. destruct (sf_accounts d !! key) as [a|] eqn:E; [by eapply Hd|done].
Qed.

Lemma on_account_all P f d :
  P AccountStore_default -> (forall a, P a -> P (f a).2) -> all_accounts P d -> all_accounts P (on_account f d).2.
Proof.
  intros Hdef Hf Hd. unfold on_account. pose proof (Hf _ (account_entry_all P (active_key d) d Hdef Hd)) as Ha.
  destruct (f _) as [r a]. by apply put_account_all.
Qed.

(** Follow the successful branch; an error leaves the state alone. *)
Ltac follow :=
  repeat match goal with
  | |- context [match ?r with Ok _ => _ | Err _ => _ end] => destruct r eqn:?; cbn [fst snd]; [|assumption]
  end.

(** Profiles and recents resolve and the recents are bounded; and, as long as [strict], the default
    connection resolves too. *)
Context (strict : Prop).
Definition acc_inv (a : AccountStore) : Prop := account_wf a /\ (strict -> default_ok a).

Lemma AccountStore_default_inv : acc_inv AccountStore_default.
Proof. split; [apply AccountStore_default_wf|intros _; apply AccountStore_default_ok]. Qed.

(** An identifier a client sends for a profile has no white space around it. *)
Definition trimmed_profile_id (params : json) : Prop :=
  forall id, (jget "profile" params ?> jget "id" ?> as_str) = Some id -> trim id = id.

Lemma save_id_good params object raw id :
  trimmed_profile_id params -> object_params params = Ok object -> object !! "profile" ?> as_object = Some raw ->
  string_value (raw !! "id") 128 false = Ok id -> is_empty id = false -> good_id id.
Proof.
  intros Ht Ho Hraw Hid Hne. unfold object_params in Ho. destruct params; try discriminate. simpl in Ho.
  apply Ok_inj in Ho as ->. unfold string_value in Hid.
  destruct (raw !! "id") as [v|] eqn:Er; [|apply Ok_inj in Hid as <-; discriminate].
  destruct (as_str v) as [s|] eqn:Es; [|discriminate]. cbn [ok_or res_bind] in Hid.
  destruct (_ || _) eqn:Eb; [discriminate|]. apply Ok_inj in Hid as <-. bool_prop.
  split; [|by destruct s]. split_and!; [|lia|done]. apply Ht. cbn [jget].
  destruct (object !! "profile") as [p|]; [|discriminate]. simpl in Hraw. destruct p; try discriminate.
  injection Hraw as ->. cbn. by rewrite Er.
Qed.

Lemma short_profiles_length l : profile_limit_reached l = false -> Z.of_nat (length l) < 2 ^ 16.
Proof. unfold profile_limit_reached, MAX_PROFILES. intros. bool_prop. lia. Qed.

Lemma fresh_profile_id now l : 0 <= now < 2 ^ 64 -> profile_limit_reached l = false -> good_id (unique_id "profile" now l).
Proof. intros Hn Hl%short_profiles_length. apply unique_id_clean; [done|vm_compute; discriminate|done|done]. Qed.

Lemma save_profile_inv now_id now params d :
  0 <= now_id < 2 ^ 64 -> trimmed_profile_id params -> all_accounts acc_inv d ->
  all_accounts acc_inv (save_profile now_id now params d).2.
Proof.
  intros Hnow Ht Hd. unfold save_profile. destruct (object_params params) as [o|] eqn:Eo; [|done].
  destruct (o !! "profile" ?> as_object) as [raw|] eqn:Er; [|done]. cbn [ok_or].
  apply on_account_all; [apply AccountStore_default_inv| |done]. intros a [Ha Hdef].
  destruct (string_value _ _ _) as [eid|] eqn:Es; [|done].
  destruct (if is_empty eid then _ else _) as [id|] eqn:Eid; [|done].
  destruct (normalize_profile _ _ _ _) as [p|] eqn:En; [|done]. apply normalize_profile_ok in En.
  assert (Hid : good_id id).
  { destruct (is_empty eid) eqn:Ee.
    - destruct (profile_limit_reached _) eqn:El; [discriminate|]. apply Ok_inj in Eid as <-. by apply fresh_profile_id.
    - apply Ok_inj in Eid as <-. by eapply save_id_good. }
  destruct (put_profile_wf id p a En Hid Ha) as [H1 H2]. split; [done|auto].
Qed.

Lemma append_profile_wf id p a :
  profile_ok p id -> good_id id -> account_wf a ->
  account_wf (with_profiles (a.(ac_profiles) ++ [Obj p]) a) /\
  (default_ok a -> default_ok (with_profiles (a.(ac_profiles) ++ [Obj p]) a)).
Proof.
  intros Hp Hid Ha. apply with_profiles_wf; [| |done].
  - apply Forall_app. split; [apply Ha|]. constructor; [by exists p, id|constructor].
  - intros id' H. by rewrite any_value_app, H.
Qed.

Lemma duplicate_profile_inv now_id now params d :
  0 <= now_id < 2 ^ 64 -> all_accounts acc_inv d -> all_accounts acc_inv (duplicate_profile now_id now params d).2.
Proof.
  intros Hnow Hd. unfold duplicate_profile. follow.
  apply on_account_all; [apply AccountStore_default_inv| |done]. intros a' [Ha Hdef].
  destruct (profile_limit_reached _) eqn:El; [done|]. destruct (ok_or _ _); [|done].
  destruct (string_value _ _ _); [|done]. destruct (if is_empty _ then _ else _); [|done].
  destruct (normalize_profile _ _ _ _) as [p|] eqn:En; [|done]. apply normalize_profile_ok in En.
  destruct (append_profile_wf _ p a' En (fresh_profile_id _ _ Hnow El) Ha) as [H1 H2]. split; [done|auto].
Qed.

Lemma validated_inv a : account_wf a -> acc_inv (validate_default a).
Proof. intros [[Hp Hr] Hu]. split; [by repeat split|intros _; apply validate_default_ok]. Qed.

Lemma retain_wf recents a :
  account_wf a -> recents `sublist_of` a.(ac_recents) -> account_wf (with_recents recents a).
Proof.
  intros [[Hp Hr] Hu] Hs. split; [split; simpl; [done|]|simpl].
  - rewrite Forall_forall in *. intros v Hv. apply Hr. by eapply elem_of_sublist.
  - etransitivity; [|exact Hu]. clear -Hs. induction Hs as [|x l1 l2 _ IH|x l1 l2 _ IH]; simpl; [done|..];
      destruct (unpinned x); simpl; lia.
Qed.

Lemma delete_profile_inv params d : all_accounts acc_inv d -> all_accounts acc_inv (delete_profile params d).2.
Proof.
  intros Hd. unfold delete_profile. follow. rename a0 into id.
  apply on_account_all; [apply AccountStore_default_inv| |done]. intros a' [[[Hp Hr] Hu] _]. cbn [snd].
  apply validated_inv. set (profiles := retain _ (ac_profiles a')).
  set (recents := retain _ (ac_recents a')).
  assert (Hs : recents `sublist_of` ac_recents a') by apply retain_sublist. split; [split; simpl|].
  - by apply Forall_retain.
  - rewrite Forall_forall in *. intros v [Hv Hn]%retain_elem.
    destruct (Hr v Hv) as (r & kind & -> & Hk & Ht & Hpr). exists r, kind. split_and!; [done..|].
    intros ->. destruct (Hpr eq_refl) as (pid & H1 & H2 & H3). exists pid. split_and!; [done..|].
    apply any_value_elem in H3 as (w & Hw & Hid). apply any_value_elem. exists w. split; [|done].
    apply retain_elem. split; [done|]. apply negb_true_iff. destruct (has_value_id id w) eqn:Ew; [|done].
    exfalso. apply has_value_id_true in Ew. rewrite Hid in Ew. injection Ew as ->.
    unfold is_recent_of_profile, jget in Hn. rewrite Hk, H1 in Hn. simpl in Hn.
    rewrite !bool_decide_eq_true_2 in Hn by done. done.
  - apply (retain_wf recents a'); [by repeat split|done].
Qed.

Lemma trim_recents_wf a : account_ok a -> account_wf (trim_recents a).
Proof.
  intros [Hp Hr]. split; [split; simpl; [done|]|apply trimmed_unpinned].
  rewrite Forall_forall in *. intros v Hv. by apply Hr, trimmed_elem.
Qed.

Lemma record_recent_inv now_id now params d :
  all_accounts acc_inv d -> all_accounts acc_inv (record_recent now_id now params d).2.
Proof.
  intros Hd. unfold record_recent. follow.
  match goal with E : normalize_recent _ = Ok ?r |- _ => rename E into En; rename r into recent end.
  match goal with E : required_string recent "kind" 32 = Ok ?k |- _ => rename E into Ek; rename k into kind end.
  destruct (normalize_recent_ok _ _ _ En Ek) as (Hk & Ht & Hpid).
  apply on_account_all; [apply AccountStore_default_inv| |done]. intros a' [[[Hp Hr] Hu] Hdef].
  destruct (if String.eqb kind "profile" then _ else _) as [[]|] eqn:Eprof; [|done]. cbn [snd].
  apply validated_inv, trim_recents_wf. split; cbn [ac_profiles ac_recents with_recents]; [done|]. constructor.
  - apply recent_ok_set_fields; [unfold bookkeeping, recent_target_keys, target_keys;
      repeat (apply Forall_cons; split; [reflexivity|]); by apply Forall_nil|].
    exists recent, kind. split_and!; [done..|]. intros ->. simpl in Eprof. peel Eprof.
    match goal with E : required_string recent "profileId" 128 = Ok ?i |- _ => rename E into Ei; rename i into pid end.
    destruct (any_value pid _) eqn:Ea; [|discriminate]. clear Eprof.
    destruct (recent !! "profileId") as [x|] eqn:Ex.
    + destruct (Hpid x eq_refl) as (v & -> & Hv). exists v. split_and!; [done..|].
      destruct Hv as [Hv1 Hv2]. rewrite (required_string_again _ _ _ _ Ex Hv1 Hv2) in Ei. by apply Ok_inj in Ei as ->.
    + unfold required_string in Ei. rewrite Ex in Ei. discriminate.
  - rewrite Forall_forall in *. intros v [Hv _]%retain_elem. by apply Hr.
Qed.

(** Pinning drops nothing; neither does releasing a pinned recent while there is room for it.  Otherwise
    what the default names may be dropped. *)
Definition pin_keeps (params : json) (d : StoreFile) : Prop :=
  jget "pinned" params = Some (Bool false) ->
  (length (retain unpinned (account_entry (active_key d) d).(ac_recents)) < MAX_UNPINNED_RECENTS)%nat.

Lemma retain_update_room {A : Type} (q p : A -> bool) v l :
  (length (retain q (update_first p (fun _ => v) l)) <= S (length (retain q l)))%nat.
Proof.
  induction l as [|x l IH]; simpl; [lia|]. destruct (p x); simpl.
  - destruct (q v), (q x); simpl; lia.
  - destruct (q x); simpl; lia.
Qed.

Lemma on_account_entry P f d :
  P AccountStore_default -> (forall a, a = account_entry (active_key d) d -> P a -> P (f a).2) ->
  all_accounts P d -> all_accounts P (on_account f d).2.
Proof.
  intros Hdef Hf Hd. unfold on_account. pose proof (Hf _ eq_refl (account_entry_all P (active_key d) d Hdef Hd)) as Ha.
  destruct (f _) as [r a]. by apply put_account_all.
Qed.

Lemma pin_recent_inv now params d :
  (strict -> pin_keeps params d) -> all_accounts acc_inv d -> all_accounts acc_inv (pin_recent now params d).2.
Proof.
  intros Hpin Hd. unfold pin_recent.
  destruct (object_params params) as [o|] eqn:Eo; [|done]. destruct (required_string o "id" 128) as [id|] eqn:Eid; [|done].
  destruct (required_bool o "pinned") as [b|] eqn:Eb; [|done].
  assert (Hb : jget "pinned" params = Some (Bool b)).
  { unfold object_params in Eo. destruct params; try discriminate. simpl in Eo. apply Ok_inj in Eo as ->.
    unfold required_bool, get_bool in Eb. simpl. destruct (o !! "pinned") as [[]|]; try discriminate. simpl in Eb. by apply Ok_inj in Eb as ->. }
  apply on_account_entry; [apply AccountStore_default_inv| |done]. intros a' Ea [[[Hp Hr] Hu] Hdef].
  match goal with |- context [ok_or ?o _] => destruct o as [m|] eqn:Ef; cbn [ok_or fst snd]; [|done] end.
  destruct (find_value id (ac_recents a')) as [v|] eqn:Efind; [|discriminate]. simpl in Ef.
  destruct v; try discriminate. injection Ef as ->. apply find_value_elem in Efind as [Hin Hid].
  set (changed := Obj (set_fields _ m)).
  assert (Hun : unpinned changed = negb b)
    by (unfold changed, unpinned, pinned, jget; lookup_fields; by destruct b).
  assert (Hvid : value_id changed = Some id).
  { unfold changed, value_id, jget in *. rewrite set_fields_lookup. cbn. exact Hid. }
  split.
  - apply trim_recents_wf. split; cbn [ac_profiles ac_recents with_recents]; [done|]. apply Forall_update_const; [|done].
    apply recent_ok_set_fields; [unfold bookkeeping, recent_target_keys, target_keys;
      repeat (apply Forall_cons; split; [reflexivity|]); by apply Forall_nil|].
    rewrite Forall_forall in Hr. by apply Hr.
  - intros Hs. specialize (Hdef Hs). rewrite default_ok_target in *. revert Hdef. apply default_target_mono; [|done]. simpl. intros i Hi.
    apply (any_value_subset i (update_first (has_value_id id) (fun _ => changed) (ac_recents a'))).
    + intros v. apply trimmed_all. destruct b.
      * etransitivity; [|exact Hu]. by apply retain_update_length.
      * specialize (Hpin Hs Hb). rewrite <- Ea in Hpin.
        pose proof (retain_update_room unpinned (has_value_id id) changed (ac_recents a')). lia.
    + by apply any_value_update.
Qed.

Lemma delete_recent_inv params d : all_accounts acc_inv d -> all_accounts acc_inv (delete_recent params d).2.
Proof.
  intros Hd. unfold delete_recent. follow.
  apply on_account_all; [apply AccountStore_default_inv| |done]. intros a' [Ha _]. cbn [snd].
  apply validated_inv, retain_wf; [done|apply retain_sublist].
Qed.

Lemma set_default_connection_inv params d :
  all_accounts acc_inv d -> all_accounts acc_inv (set_default_connection params d).2.
Proof.
  intros Hd. unfold set_default_connection. follow.
  apply on_account_all; [apply AccountStore_default_inv| |done]. intros a' [Ha Hdef].
  destruct (normalize_default _ a') as [v|] eqn:E; [|done]. cbn [snd]. destruct Ha as [[Hp Hr] Hu].
  split; [by repeat split|]. intros _. apply default_ok_target. apply normalize_default_target in E.
  revert E. by apply default_target_mono.
Qed.

Lemma set_excluded_locations_inv params d :
  all_accounts acc_inv d -> all_accounts acc_inv (set_excluded_locations params d).2.
Proof.
  intros Hd. unfold set_excluded_locations. follow. destruct (_ <? _); [done|]. follow.
  apply on_account_all; [apply AccountStore_default_inv| |done]. intros a' [[[Hp Hr] Hu] Hdef]. cbn [snd].
  split; [by repeat split|]. intros Hs. specialize (Hdef Hs). rewrite default_ok_target in *. revert Hdef. by apply default_target_mono.
Qed.

Lemma onboarding_accounts params d :
  (complete_onboarding params d).2.(sf_accounts) = d.(sf_accounts) /\
  (set_preferences params d).2.(sf_accounts) = d.(sf_accounts).
Proof.
  split.
  - unfold complete_onboarding. repeat split_match; done.
  - assert (H : forall o w e, (set_bool_preferences o w e).2.(sf_accounts) = e.(sf_accounts)).
    { intros o w. induction w as [|[k f] w IH]; intros e; [done|]. cbn [set_bool_preferences].
      unfold set_bool_preference. destruct (o !! k) as [v|]; [|apply IH]. destruct (as_bool v); [|done].
      by rewrite IH. }
    unfold set_preferences. destruct (object_params params) as [o|]; [|done].
    destruct (match o !! "locale" with Some v => _ | None => _ end) as [l|]; [|done].
    match goal with |- context [set_bool_preferences o bool_preferences ?e] =>
      pose proof (H o bool_preferences e) as Hb; destruct (set_bool_preferences o bool_preferences e) as [[[]|e'] d'] end;
    simpl in *; rewrite Hb; by destruct l.
Qed.

(** ** Default profiles *)
Context (clock : string -> string -> Z).

Lemma official_templates_accepted key spanish :
  Forall (fun t : string * Map =>
    is_ok (normalize_profile (clock key t.1) t.2 None t.1) = true /\ good_id t.1) (official_templates spanish).
Proof.
  destruct spanish; unfold official_templates;
    (repeat (apply Forall_cons; split; [split; [vm_compute; reflexivity|split; [by vm_compute|discriminate]]|]);
     by apply Forall_nil).
Qed.

Lemma fastest_template_accepted key spanish :
  is_ok (normalize_profile (clock key FASTEST_DEFAULT_PROFILE_ID) (fastest_template spanish) None
           FASTEST_DEFAULT_PROFILE_ID) = true.
Proof. destruct spanish; vm_compute; reflexivity. Qed.

Lemma fastest_id_good : good_id FASTEST_DEFAULT_PROFILE_ID.
Proof. split; [by vm_compute|discriminate]. Qed.

Lemma res_collect_total {A B E : Type} (f : A -> result B E) l :
  Forall (fun x => is_ok (f x) = true) l -> exists l', res_collect f l = Ok l'.
Proof.
  induction 1 as [|x l Hx _ [l' IH]]; simpl; [by eexists|]. destruct (f x); [|discriminate]. simpl. rewrite IH. simpl.
  by eexists.
Qed.

(** The templates are always accepted: seeding cannot fail. *)
Lemma official_default_profiles_ok key locale :
  exists l, official_default_profiles clock key locale = Ok l /\ Forall stored_profile_ok l /\
    map value_id l = map Some OFFICIAL_DEFAULT_PROFILE_IDS.
Proof.
  unfold official_default_profiles. pose proof (official_templates_accepted key (is_spanish locale)) as Ht.
  destruct (res_collect_total (fun t : string * Map => res_map Obj (normalize_profile (clock key t.1) t.2 None t.1))
    (official_templates (is_spanish locale))) as [l Hl].
  { eapply Forall_impl; [exact Ht|]. intros t [Ho _]. cbv beta. unfold res_map.
    by destruct (normalize_profile _ _ _ _). }
  exists l. split; [exact Hl|]. apply res_collect_Ok in Hl.
  assert (Hids : map fst (official_templates (is_spanish locale)) = OFFICIAL_DEFAULT_PROFILE_IDS)
    by by destruct (is_spanish locale).
  rewrite <- Hids. clear Hids. induction Hl as [|t v ts l Hv Hl IH]; [by split|].
  apply Forall_cons in Ht as [[_ Hg] Ht]. destruct (IH Ht) as [H1 H2]. unfold res_map in Hv. peel Hv.
  apply Ok_inj in Hv. subst v. match goal with E : normalize_profile _ _ _ _ = Ok ?p |- _ =>
    apply normalize_profile_ok in E; rename E into Hp; rename p into q end.
  split; [constructor; [by exists q, t.1|done]|]. cbn [map]. rewrite H2. f_equal. by apply profile_value_id.
Qed.

Lemma fastest_default_profile_ok key locale :
  exists p, fastest_default_profile clock key locale = Ok (Obj p) /\ profile_ok p FASTEST_DEFAULT_PROFILE_ID.
Proof.
  unfold fastest_default_profile. pose proof (fastest_template_accepted key (is_spanish locale)) as H.
  destruct (normalize_profile _ _ _ _) as [p|] eqn:E; [|discriminate]. exists p. split; [done|].
  by apply normalize_profile_ok in E.
Qed.

Lemma add_template_spec st v :
  let st' := add_template st v in
  (forall w, w ∈ st.1 -> w ∈ st'.1) /\ (forall w, w ∈ st'.1 -> w ∈ st.1 \/ w = v) /\
  (Z.of_nat (length st.1) <= MAX_PROFILES -> Z.of_nat (length st'.1) <= MAX_PROFILES).
Proof.
  unfold add_template. destruct (_ && _) eqn:E; [|simpl; tauto]. bool_prop. cbn [fst].
  split_and!.
  - intros w Hw. apply elem_of_app. by left.
  - intros w [?|Hw]%elem_of_app; [by left|right]. by apply list_elem_of_singleton in Hw.
  - intros Hl. rewrite length_app. simpl. unfold profile_limit_reached in *. bool_prop. lia.
Qed.

Lemma add_templates_spec l st :
  let st' := foldl add_template st l in
  (forall w, w ∈ st.1 -> w ∈ st'.1) /\ (forall w, w ∈ st'.1 -> w ∈ st.1 \/ w ∈ l) /\
  (Z.of_nat (length st.1) <= MAX_PROFILES -> Z.of_nat (length st'.1) <= MAX_PROFILES).
Proof.
  revert st. induction l as [|v l IH]; intros st; cbn [foldl]; [simpl; tauto|].
  destruct (IH (add_template st v)) as (H1 & H2 & H3). destruct (add_template_spec st v) as (K1 & K2 & K3).
  split_and!; [auto| |auto]. intros w Hw. destruct (H2 w Hw) as [Hw'|Hw']; [|right; by right].
  destruct (K2 w Hw') as [?| ->]; [by left|right; left].
Qed.

Lemma seed_official_inv d key :
  all_accounts acc_inv d ->
  is_ok (seed_account_with_official_profiles clock d key).1 = true /\
  all_accounts acc_inv (seed_account_with_official_profiles clock d key).2.
Proof.
  intros Hd. unfold seed_account_with_official_profiles. destruct (one_of _ _); [done|].
  destruct (official_default_profiles_ok key d.(sf_onboarding).(ob_locale)) as (l & -> & Hl & _).
  pose proof (account_entry_all _ key d AccountStore_default_inv Hd) as [Ha Hdef].
  pose proof (add_templates_spec l (ac_profiles (account_entry key d), false)) as (H1 & H2 & _).
  destruct (foldl add_template _ l) as [profiles changed]. cbn [fst] in H1, H2.
  assert (Hinv : acc_inv (with_profiles profiles (account_entry key d))).
  { destruct (with_profiles_wf profiles (account_entry key d)) as [K1 K2]; [| |done|split; [done|auto]].
    - rewrite Forall_forall in *. intros w [Hw|Hw]%H2; [|by apply Hl].
      destruct Ha as [[Hp _] _]. rewrite Forall_forall in Hp. by apply Hp.
    - intros id. by apply any_value_subset. }
  destruct (forallb _ _); (split; [done|]); by apply (put_account_all acc_inv).
Qed.

Lemma seed_fastest_inv d key :
  all_accounts acc_inv d ->
  is_ok (seed_account_with_fastest_profile clock d key).1 = true /\
  all_accounts acc_inv (seed_account_with_fastest_profile clock d key).2.
Proof.
  intros Hd. unfold seed_account_with_fastest_profile. destruct (one_of _ _); [done|].
  destruct (fastest_default_profile_ok key d.(sf_onboarding).(ob_locale)) as (p & -> & Hp).
  pose proof (account_entry_all _ key d AccountStore_default_inv Hd) as Ha.
  set (add := _ && _). set (a1 := if add then _ else _).
  assert (Ha1 : acc_inv a1).
  { unfold a1. destruct add; [|done]. destruct Ha as [Ha Hdef].
    destruct (with_profiles_wf (Obj p :: ac_profiles (account_entry key d)) (account_entry key d)) as [K1 K2];
      [| |done|split; [done|auto]].
    - constructor; [exists p, FASTEST_DEFAULT_PROFILE_ID; split_and!; [done|done|apply fastest_id_good]|apply Ha].
    - intros id. apply any_value_subset. intros v Hv. by right. }
  destruct (any_value FASTEST_DEFAULT_PROFILE_ID (ac_profiles a1)) eqn:Ef; (split; [done|]); cbn [snd].
  - apply (put_account_all acc_inv); [|done]. case_bool_decide; [|done].
    destruct Ha1 as [[[H1 H2] H3] _]. split; [by repeat split|]. intros _. apply default_ok_target.
    apply target_profile; [apply fastest_id_good|done].
  - by apply (put_account_all acc_inv).
Qed.
End Invariants.
