(* ===== verification/StoreNames.v ===== *)
(** Fresh names and identifiers in the agent's store, the contract of saved profiles, and the one-time
    default profiles. *)
From S2P Require Export StoreInvariants.
Open Scope string_scope.
Open Scope Z_scope.
Open Scope list_scope.
Open Scope rust_scope.

(** ** The number at the end of a name *)
Fixpoint take_digits (s : string) : string :=
  match s with
  | String a r => if is_ascii_digit a then String a (take_digits r) else ""
  | "" => ""
  end.
Definition tail_number (s : string) : string := take_digits (str_rev s).

Lemma take_digits_app d a r :
  str_forall is_ascii_digit d = true -> is_ascii_digit a = false -> take_digits (d +:+ String a r) = d.
Proof.
  intros Hd Ha. induction d as [|c d IH]; [change (take_digits (String a r) = ""); simpl; by rewrite Ha|].
  simpl in Hd. apply andb_prop in Hd as [Hc Hd].
  change (take_digits (String c (d +:+ String a r)) = String c d). simpl. by rewrite Hc, IH.
Qed.

Lemma str_map_app f s t : str_map f (s +:+ t) = str_map f s +:+ str_map f t.
Proof. induction s as [|a s IH]; [done|]. exact (f_equal (String (f a)) IH). Qed.

(** Every suffix of the loop: short, lower case, and a number of its own. *)
Definition suffix_number (i : Z) : string := if i =? 1 then "" else str_rev (dec i).
Definition suffix_ok (i : Z) : bool :=
  let s := copy_suffix i in
  String.eqb (to_ascii_lowercase s) s && (chars_count s <=? 60)
  && (if i =? 1 then true
      else str_forall is_ascii_digit (str_rev (dec i)) && negb (is_empty (dec i))).

Lemma suffixes_ok i : 1 <= i <= MAX_PROFILES + 1 -> suffix_ok i = true.
Proof.
  intros Hi. assert (H : forallb suffix_ok (seqZ 1 (MAX_PROFILES + 1)) = true) by (vm_compute; reflexivity).
  rewrite forallb_forall in H. apply H, list_elem_of_In, elem_of_seqZ. lia.
Qed.

Lemma candidate_number source i :
  1 <= i <= MAX_PROFILES + 1 -> tail_number (to_ascii_lowercase (copy_candidate source i)) = suffix_number i.
Proof.
  intros Hi. pose proof (suffixes_ok i Hi) as Hok. unfold suffix_ok in Hok. bool_prop.
  unfold copy_candidate, tail_number, to_ascii_lowercase in *. rewrite str_map_app, str_rev_append.
  match goal with H : str_map ascii_lower (copy_suffix i) = _ |- _ => rewrite H end.
  unfold copy_suffix, suffix_number in *. destruct (i =? 1); [done|]. bool_prop.
  rewrite str_rev_append, <- str_app_assoc.
  change (str_rev " copy ") with (String " " "ypoc ").
  change (String " " "ypoc " +:+ ?x) with (String " " ("ypoc " +:+ x)). by apply take_digits_app.
Qed.

Lemma candidates_distinct source i j :
  1 <= i <= MAX_PROFILES + 1 -> 1 <= j <= MAX_PROFILES + 1 ->
  to_ascii_lowercase (copy_candidate source i) = to_ascii_lowercase (copy_candidate source j) -> i = j.
Proof.
  intros Hi Hj H. apply (f_equal tail_number) in H. rewrite !candidate_number in H by done.
  pose proof (suffixes_ok i Hi) as Oi. pose proof (suffixes_ok j Hj) as Oj. unfold suffix_ok, suffix_number in *.
  assert (Hne : forall k, is_empty (dec k) = false -> str_rev (dec k) <> "").
  { intros k Hk E. apply (f_equal str_rev) in E. rewrite str_rev_involutive in E. by rewrite E in Hk. }
  destruct (i =? 1) eqn:Ei, (j =? 1) eqn:Ej; bool_prop; [lia| | |].
  - exfalso. eapply (Hne j); [done|congruence].
  - exfalso. eapply (Hne i); [done|congruence].
  - apply (f_equal str_rev) in H. rewrite !str_rev_involutive in H. apply dec_inj in H; lia.
Qed.

(** ** Length *)
Lemma chars_count_app s t : chars_count (s +:+ t) = chars_count s + chars_count t.
Proof.
  induction s as [|a s IH]; [done|]. change (chars_count (String a (s +:+ t)) = chars_count (String a s) + chars_count t).
  cbn [chars_count]. lia.
Qed.

Lemma chars_take_count n s : chars_count (chars_take n s) <= Z.of_nat n.
Proof.
  revert n. induction s as [|a s IH]; intros n; cbn [chars_take chars_count]; [lia|].
  destruct (_ =? _) eqn:E.
  - cbn [chars_count]. rewrite E. apply IH.
  - destruct n as [|n]; [simpl; lia|]. cbn [chars_count]. rewrite E. specialize (IH n). lia.
Qed.

Lemma candidate_length source i : 1 <= i <= MAX_PROFILES + 1 -> chars_count (copy_candidate source i) <= 60.
Proof.
  intros Hi. pose proof (suffixes_ok i Hi) as Hok. unfold suffix_ok in Hok. bool_prop.
  unfold copy_candidate. rewrite chars_count_app.
  pose proof (chars_take_count (Z.to_nat (60 - chars_count (copy_suffix i))) source). lia.
Qed.

(** ** The loop *)
Definition lower_name (v : json) : option string := option_map to_ascii_lowercase (jget "name" v ?> as_str).

Lemma has_name_lower name v : has_name name v = true <-> lower_name v = Some (to_ascii_lowercase name).
Proof.
  unfold has_name, lower_name, eq_ignore_ascii_case. destruct (_ ?> _) as [n|]; simpl; [|split; discriminate].
  rewrite String.eqb_eq. split; [by intros ->|by intros [=]].
Qed.

Lemma copy_name_from_spec fuel i source profiles :
  1 <= i -> i + Z.of_nat fuel <= MAX_PROFILES + 2 ->
  (exists k, i <= k < i + Z.of_nat fuel /\ copy_name_from fuel i source profiles = copy_candidate source k /\
     existsb (has_name (copy_candidate source k)) profiles = false) \/
  (forall k, i <= k < i + Z.of_nat fuel -> existsb (has_name (copy_candidate source k)) profiles = true).
Proof.
  revert i. induction fuel as [|fuel IH]; intros i Hi Hb; [right; lia|]. cbn [copy_name_from].
  destruct (existsb (has_name (copy_candidate source i)) profiles) eqn:E; simpl.
  - destruct (IH (i + 1)) as [(k & Hk & H)|H]; [lia..| |].
    + left. exists k. split; [lia|done].
    + right. intros k Hk. destruct (decide (k = i)) as [->|]; [done|]. apply H. lia.
  - left. exists i. split; [lia|done].
Qed.

(** A name is found before the loop runs out. *)
Lemma copy_name_found source profiles :
  Z.of_nat (length profiles) <= MAX_PROFILES ->
  exists k, 1 <= k <= MAX_PROFILES + 1 /\ copy_name source profiles = copy_candidate source k /\
    existsb (has_name (copy_candidate source k)) profiles = false.
Proof.
  intros Hl. unfold copy_name.
  destruct (copy_name_from_spec (Z.to_nat (MAX_PROFILES + 1)) 1 source profiles) as [(k & Hk & H)|H];
    [lia|unfold MAX_PROFILES in *; lia|exists k; split; [unfold MAX_PROFILES in *; lia|done]|exfalso].
  set (names := map (fun k => to_ascii_lowercase (copy_candidate source k)) (seqZ 1 (MAX_PROFILES + 1))).
  assert (Hnd : NoDup names).
  { apply NoDup_fmap_2_strong; [|apply NoDup_seqZ]. intros i j Hi%elem_of_seqZ Hj%elem_of_seqZ.
    apply candidates_distinct; lia. }
  assert (Hsub : names ⊆+ omap lower_name profiles).
  { apply NoDup_submseteq; [done|]. intros n Hn. apply list_elem_of_fmap in Hn as (k & -> & Hk%elem_of_seqZ).
    specialize (H k ltac:(lia)). apply existsb_exists in H as (v & Hv & Hname).
    apply list_elem_of_omap. exists v. split; [by apply list_elem_of_In|by apply has_name_lower]. }
  apply submseteq_length in Hsub. unfold names in Hsub. rewrite length_map, length_seqZ in Hsub.
  pose proof (omap_length_le lower_name profiles). unfold MAX_PROFILES in *. lia.
Qed.

(** the searches for a free identifier and a free name end with one.  The unbounded loop of
    [unique_id] stops within one turn more than there are entries, with an identifier no entry has; the
    loop of [copy_name] always finds, among its 129 candidates, a name of at most 60 characters that no
    profile has, ignoring ASCII case. *)
Theorem fresh_ids_and_names prefix now values source profiles :
  Z.of_nat (length profiles) <= MAX_PROFILES ->
  (forall fuel, (length values < fuel)%nat ->
     unique_id_from fuel prefix now 0 values = Some (unique_id prefix now values)) /\
  any_value (unique_id prefix now values) values = false /\
  existsb (has_name (copy_name source profiles)) profiles = false /\
  chars_count (copy_name source profiles) <= 60.
Proof.
  intros Hl. split_and!.
  - assert (Hmono : forall f1 f2 i id, (f1 <= f2)%nat -> unique_id_from f1 prefix now i values = Some id ->
      unique_id_from f2 prefix now i values = Some id).
    { intros f1. induction f1 as [|f1 IH]; intros f2 i id Hf; [done|]. destruct f2 as [|f2]; [lia|]. simpl.
      destruct (existsb (has_value_id (id_of_sequence prefix now i)) values); simpl; [|done]. apply IH. lia. }
    intros fuel Hf. destruct (unique_id_total prefix now values) as [id H]. unfold unique_id. rewrite H. simpl.
    by apply (Hmono (S (length values))).
  - apply unique_id_fresh.
  - destruct (copy_name_found source profiles Hl) as (k & _ & -> & H). done.
  - destruct (copy_name_found source profiles Hl) as (k & Hk & -> & _). by apply candidate_length.
Qed.

Lemma fresh_ids_and_names_witness :
  let profiles := [jobj [("id", Str "profile-0000000000000005-0000"); ("name", Str "Work COPY")]; jobj [("name", Str "Work")]] in
  copy_name "Work" profiles = "Work copy 2" /\ unique_id "profile" 5 profiles = "profile-0000000000000005-0001" /\
  any_value (unique_id "profile" 5 profiles) profiles = false.
Proof.
  intros profiles. split; [vm_compute; reflexivity|]. split; [vm_compute; reflexivity|].
  apply (fresh_ids_and_names "profile" 5 profiles "Work" profiles). vm_compute. discriminate.
Defined.

Section Names.
Context {L : IpLib}.

(** a saved profile is free of conflicts and connects with what it says.  Whatever a client sends,
    an accepted profile has a complete target, never combines moderate NAT with port forwarding or
    custom DNS with NetShield, lists at most 16 distinct valid DNS servers, names a supported protocol;
    and connecting to it sends exactly its settings. *)
Theorem saved_profile_connects now raw existing id p selection :
  normalize_profile now raw existing id = Ok p -> good_id id ->
  consistent p /\
  exists name target,
    get_str p "name" = Some name /\
    resolved_profile (Obj p) selection =
      Ok (jobj [("selection", type_of selection);
                ("connect_params", jobj [("profile_id", Str id); ("target", Obj target);
                                         ("profile_settings", profile_settings p)]);
                ("recent", jobj [("kind", Str "profile"); ("profileId", Str id); ("header", Str name);
                                 ("description", Str (profile_description p))]);
                ("post_connect", post_connect p)]).
Proof.
  intros Hn Hid. apply normalize_profile_ok in Hn as Hp. split; [apply Hp|].
  destruct (resolved_profile_ok p id selection Hp Hid) as (name & target & Hname & H).
  exists name, target. split; [|exact H]. unfold get_str. by rewrite Hname.
Qed.

(** ** Default profiles *)
Lemma any_value_with v l : value_id v = Some (id_or_empty v) -> v ∈ l -> any_value (id_or_empty v) l = true.
Proof. intros Hid Hv. apply any_value_elem. by exists v. Qed.

(** While there is room, every template ends up in the list. *)
Lemma add_templates_complete l st :
  Forall (fun v => value_id v = Some (id_or_empty v)) l ->
  Z.of_nat (length st.1 + length l) <= MAX_PROFILES ->
  forall v, v ∈ l -> any_value (id_or_empty v) (foldl add_template st l).1 = true.
Proof.
  intros Hids. revert st. induction Hids as [|w l Hw Hids IH]; intros st Hl v; [by intros ?%elem_of_nil|].
  cbn [foldl]. destruct (add_templates_spec l (add_template st w)) as (Hkeep & _ & _).
  simpl in Hl. assert (Hlen : (length (add_template st w).1 <= S (length st.1))%nat).
  { unfold add_template. destruct (_ && _); cbn [fst]; [rewrite length_app; simpl|]; lia. }
  intros [->|Hv]%elem_of_cons; [|apply IH; [lia|done]].
  apply (any_value_subset _ (add_template st w).1); [done|]. unfold add_template.
  destruct (any_value (id_or_empty w) st.1) eqn:Ea; [done|]. unfold profile_limit_reached.
  assert ((MAX_PROFILES <=? Z.of_nat (length st.1)) = false) as -> by (apply Z.leb_gt; lia). cbn [negb andb fst].
  apply any_value_with; [done|]. apply elem_of_app. right. left.
Qed.

(** default profiles are added once.  Seeding an account cannot fail, keeps every profile the user
    has and never exceeds 128 profiles; when there is room for the six templates they are all present
    afterwards, the account is marked, and seeding it again changes nothing. *)
Theorem default_profiles_seeded_once clock d key :
  let '(r, d') := seed_account_with_official_profiles clock d key in
  let before := (account_entry key d).(ac_profiles) in
  let after := (account_entry key d').(ac_profiles) in
  is_ok r = true /\
  (forall v, v ∈ before -> v ∈ after) /\
  (Z.of_nat (length before) <= MAX_PROFILES -> Z.of_nat (length after) <= MAX_PROFILES) /\
  (one_of key d.(sf_migration).(mg_official_seeded) = false ->
   Z.of_nat (length before + 6) <= MAX_PROFILES ->
   forallb (fun id => any_value id after) OFFICIAL_DEFAULT_PROFILE_IDS = true /\
   seed_account_with_official_profiles clock d' key = (Ok false, d')).
Proof.
  unfold seed_account_with_official_profiles at 1. destruct (one_of key _) eqn:Em; [by split_and!|].
  destruct (official_default_profiles_ok clock key d.(sf_onboarding).(ob_locale)) as (l & -> & Hl & Hids).
  set (before := ac_profiles (account_entry key d)).
  pose proof (add_templates_spec l (before, false)) as (H1 & _ & H3).
  assert (Hid : Forall (fun v => value_id v = Some (id_or_empty v)) l).
  { eapply Forall_impl; [exact Hl|]. intros v (p & id & -> & Hp & _). unfold id_or_empty.
    by rewrite (profile_value_id _ _ Hp). }
  pose proof (add_templates_complete l (before, false) Hid) as Hc.
  assert (Hlen : length l = 6%nat) by (apply (f_equal length) in Hids; by rewrite !length_map in Hids).
  destruct (foldl add_template (before, false) l) as [profiles changed]. cbn [fst] in *.
  assert (Hall : Z.of_nat (length before + 6) <= MAX_PROFILES ->
    forallb (fun id => any_value id profiles) OFFICIAL_DEFAULT_PROFILE_IDS = true).
  { intros Hroom. apply forallb_forall. intros id Hin. rewrite Hlen in Hc. specialize (Hc Hroom).
    assert (Hin' : Some id ∈ map value_id l) by (rewrite Hids; apply list_elem_of_fmap; exists id; split; [done|by apply list_elem_of_In]).
    apply list_elem_of_fmap in Hin' as (v & Hv & Hvl). rewrite Forall_forall in Hid. specialize (Hid v Hvl).
    rewrite <- Hv in Hid. injection Hid as ->. by apply Hc. }
  assert (Hentry : forall d0, sf_accounts d0 = sf_accounts (put_account key (with_profiles profiles (account_entry key d)) d) ->
    ac_profiles (account_entry key d0) = profiles).
  { intros d0 Hd0. unfold account_entry at 1. rewrite Hd0. cbn. by rewrite lookup_insert_eq. }
  destruct (forallb _ _) eqn:Ef.
  - rewrite Hentry by done. split_and!; [done..|]. intros _ _. split; [done|].
    unfold seed_account_with_official_profiles.
    match goal with |- (if one_of key ?l then _ else _) = _ =>
      assert (Hm : one_of key l = true) by (apply one_of_elem; simpl; apply elem_of_app; right; left) end.
    by rewrite Hm.
  - rewrite Hentry by done. split_and!; [done..|]. intros _ Hroom. specialize (Hall Hroom). discriminate.
Qed.
End Names.

Definition work_profile : Map :=
  fields [("name", Str "  Work "); ("targetKind", Str "p2p"); ("profileNatType", Str "MODERATE");
          ("profilePortForwardingEnabled", Bool true); ("profileCustomDnsServers", Arr [Str " 192.0.2.1"])].

Lemma saved_profile_connects_witness :
  exists p, @normalize_profile example_lib 7 work_profile None "p1" = Ok p /\ @consistent example_lib p /\
    is_ok (resolved_profile (Obj p) "profile") = true.
Proof.
  assert (Hok : is_ok (@normalize_profile example_lib 7 work_profile None "p1") = true) by (vm_compute; reflexivity).
  destruct (@normalize_profile example_lib 7 work_profile None "p1") as [p|e] eqn:E; [|discriminate Hok].
  assert (Hid : good_id "p1") by (split; [vm_compute; repeat split; discriminate|discriminate]).
  destruct (@saved_profile_connects example_lib 7 work_profile None "p1" p "profile" E Hid) as [Hc (name & target & _ & Hr)].
  exists p. split; [reflexivity|]. split; [exact Hc|]. rewrite Hr. reflexivity.
Defined.
