(* ===== verification/StoreDisk.v ===== *)
(** Persistence and requests of the agent's canonical store ([StoreHandle] of [agent/src/store.rs]):
    the JSON schema, the files written on each change with their rollback, opening the store, and the
    request dispatch around the operation coordinator.

    The disk is the state file, the life-cycle file and the autostart link, with a stream of booleans
    that decides which system calls fail.  Temporary files have names of their own and are not part of
    the disk: only the renaming at the end changes a file. *)
From S2P Require Export StoreOps Json Operations Io.
Open Scope string_scope.
Open Scope Z_scope.
Open Scope list_scope.
Open Scope rust_scope.

(** ** The disk *)
Inductive node : Type :=
  | Missing
  | Regular (bytes : string)
  | Special.

(** The autostart registration: no entry, the agent's unit, or something else. *)
Inductive link : Type :=
  | NoLink
  | UnitLink
  | ForeignLink.

Record store_disk : Type := mkDisk {
  sd_state : node;
  sd_lifecycle : node;
  sd_link : link;
  sd_faults : list bool }.

Definition sys (what : string) : M store_disk unit := fun w =>
  match w.(sd_faults) with
  | f :: rest => (if f then Err (io_other what) else Ok tt,
                  mkDisk w.(sd_state) w.(sd_lifecycle) w.(sd_link) rest)
  | [] => (Ok tt, w)
  end.
Definition get_disk : M store_disk store_disk := fun w => (Ok w, w).
Definition put_state (n : node) : M store_disk unit := fun w =>
  (Ok tt, mkDisk n w.(sd_lifecycle) w.(sd_link) w.(sd_faults)).
Definition put_lifecycle (n : node) : M store_disk unit := fun w =>
  (Ok tt, mkDisk w.(sd_state) n w.(sd_link) w.(sd_faults)).
Definition put_link (l : link) : M store_disk unit := fun w =>
  (Ok tt, mkDisk w.(sd_state) w.(sd_lifecycle) l w.(sd_faults)).

(** ** JSON schema *)
Definition excluded_of_json (j : json) : option ExcludedLocation :=
  match as_object j with
  | Some m =>
      match get_str m "kind", get_str m "country_code", field_or "" as_str (m !! "state"),
            field_or "" as_str (m !! "city") with
      | Some k, Some c, Some s, Some t => Some (mkExcluded k c s t)
      | _, _, _, _ => None
      end
  | None => None
  end.

Definition account_to_json (a : AccountStore) : json :=
  jobj [("profiles", Arr a.(ac_profiles)); ("recents", Arr a.(ac_recents));
        ("excluded_locations", Arr (map excluded_to_json a.(ac_excluded_locations)));
        ("default_connection", a.(ac_default_connection)); ("ui_preferences", a.(ac_ui_preferences))].

Definition account_of_json (j : json) : option AccountStore :=
  match as_object j with
  | Some m =>
      match field_or [] as_array (m !! "profiles"), field_or [] as_array (m !! "recents"),
            field_or [] (fun j => as_array j ?> opt_collect excluded_of_json) (m !! "excluded_locations") with
      | Some p, Some r, Some e =>
          Some (mkAccount p r e (unwrap_or (m !! "default_connection") fastest_default_connection)
                  (unwrap_or (m !! "ui_preferences") (jobj [])))
      | _, _, _ => None
      end
  | None => None
  end.

Definition onboarding_to_json (o : Onboarding) : json :=
  jobj [("complete", Bool o.(ob_complete)); ("locale", Str o.(ob_locale));
        ("start_with_omarchy", Bool o.(ob_start_with_omarchy)); ("auto_connect", Bool o.(ob_auto_connect));
        ("notifications_enabled", Bool o.(ob_notifications_enabled));
        ("port_forwarding_notifications_enabled", Bool o.(ob_port_forwarding_notifications_enabled))].

Definition onboarding_of_json (j : json) : option Onboarding :=
  match as_object j with
  | Some m =>
      match field_or false as_bool (m !! "complete"), field_or "en" as_str (m !! "locale"),
            field_or true as_bool (m !! "start_with_omarchy"), field_or false as_bool (m !! "auto_connect"),
            field_or true as_bool (m !! "notifications_enabled"),
            field_or true as_bool (m !! "port_forwarding_notifications_enabled") with
      | Some c, Some l, Some s, Some a, Some n, Some p => Some (mkOnboarding c l s a n p)
      | _, _, _, _, _, _ => None
      end
  | None => None
  end.

Definition migration_to_json (m : MigrationState) : json :=
  jobj [("legacy_qt_store_imported", Bool m.(mg_legacy_qt_store_imported));
        ("copied_to_account_keys", strs_to_json m.(mg_copied_to_account_keys));
        ("official_default_profiles_seeded_for_accounts", strs_to_json m.(mg_official_seeded));
        ("fastest_default_profile_seeded_for_accounts", strs_to_json m.(mg_fastest_seeded))].

Definition migration_of_json (j : json) : option MigrationState :=
  match as_object j with
  | Some m =>
      match field_or false as_bool (m !! "legacy_qt_store_imported"),
            field_or [] strs_of_json (m !! "copied_to_account_keys"),
            field_or [] strs_of_json (m !! "official_default_profiles_seeded_for_accounts"),
            field_or [] strs_of_json (m !! "fastest_default_profile_seeded_for_accounts") with
      | Some l, Some c, Some o, Some f => Some (mkMigration l c o f)
      | _, _, _, _ => None
      end
  | None => None
  end.

Definition store_to_json (d : StoreFile) : json :=
  jobj [("version", jnum d.(sf_version)); ("revision", jnum d.(sf_revision));
        ("onboarding", onboarding_to_json d.(sf_onboarding));
        ("active_account_key", jopt Str d.(sf_active_account_key));
        ("accounts", smap_to_json account_to_json d.(sf_accounts));
        ("migration", migration_to_json d.(sf_migration))].

Definition store_of_json (j : json) : option StoreFile :=
  match as_object j with
  | Some m =>
      match field_or STORE_VERSION (fun j => as_u64 j ?> u_try_from 32) (m !! "version"),
            field_or 0 as_u64 (m !! "revision"), field_or Onboarding_default onboarding_of_json (m !! "onboarding"),
            field_or None (opt_of_json as_str) (m !! "active_account_key"),
            field_or ∅ (smap_of_json account_of_json) (m !! "accounts"),
            field_or MigrationState_default migration_of_json (m !! "migration") with
      | Some v, Some r, Some o, Some k, Some a, Some g => Some (mkStoreFile v r o k a g)
      | _, _, _, _, _, _ => None
      end
  | None => None
  end.

Section Disk.
Context {J : JsonText}.

Definition line_feed : string := String "010" "".
Definition store_text (d : StoreFile) : string := json_print (store_to_json d).

Definition too_large : io_error := mkIoError InvalidData "canonical store exceeds the size limit".

(** The common end of [save_store] and [save_private_bytes]: a private temporary file renamed over the
    target. *)
Definition replace_file (put : M store_disk unit) : M store_disk unit :=
  sys "open temporary file" ;;!
  attempt
    (sys "write" ;;! sys "write line feed" ;;! sys "sync" ;;! sys "rename" ;;! put)
    (fun r => match r with
              | Ok _ => ret tt
              | Err e => ignore (sys "remove temporary file") ;;! throw e
              end).

Definition save_store (d : StoreFile) : M store_disk unit :=
  sys "create directory" ;;!
  sys "set permissions" ;;!
  if MAX_STORE_BYTES <? str_len (store_text d) then throw too_large
  else replace_file (put_state (Regular (store_text d +:+ line_feed))).

Definition lifecycle_json (o : Onboarding) : json :=
  jobj [("version", jnum 1); ("onboarding_complete", Bool o.(ob_complete)); ("locale", Str o.(ob_locale));
        ("start_with_omarchy", Bool o.(ob_start_with_omarchy)); ("auto_connect", Bool o.(ob_auto_connect));
        ("notifications_enabled", Bool o.(ob_notifications_enabled));
        ("port_forwarding_notifications_enabled", Bool o.(ob_port_forwarding_notifications_enabled))].
Definition lifecycle_text (o : Onboarding) : string := json_print (lifecycle_json o) +:+ line_feed.

Definition save_private_bytes (bytes : string) : M store_disk unit :=
  sys "create directory" ;;!
  sys "set permissions" ;;!
  replace_file (put_lifecycle (Regular bytes)).

Definition save_lifecycle (o : Onboarding) : M store_disk unit := save_private_bytes (lifecycle_text o).

Definition refuse_link : io_error :=
  mkIoError AlreadyExists "refusing to replace an unrelated autostart registration".

Definition sync_autostart_registration (enabled : bool) : M store_disk unit :=
  sys "inspect autostart registration" ;;!
  let! w := get_disk in
  match w.(sd_link) with
  | ForeignLink => throw refuse_link
  | UnitLink => if enabled then ret tt else sys "remove autostart registration" ;;! put_link NoLink
  | NoLink =>
      if enabled
      then sys "create autostart directory" ;;! sys "create autostart registration" ;;! put_link UnitLink
      else ret tt
  end.

(** ** Loading *)
Definition load_store : M store_disk StoreFile :=
  sys "inspect canonical store" ;;!
  let! w := get_disk in
  match w.(sd_state) with
  | Missing => throw (mkIoError NotFound "canonical store is missing")
  | Special => throw (mkIoError InvalidData "canonical store is not a regular file")
  | Regular bytes =>
      if MAX_STORE_BYTES <? str_len bytes then throw too_large
      else
        sys "read canonical store" ;;!
        match json_parse bytes ?> store_of_json with
        | None => throw (mkIoError InvalidData ("invalid canonical store: " +:+ json_refusal "StoreFile" bytes))
        | Some d =>
            if negb (d.(sf_version) =? STORE_VERSION)
            then throw (mkIoError InvalidData ("unsupported canonical store version " +:+ dec d.(sf_version)))
            else ret d
        end
  end.

(** The legacy store is read once, from a path of its own. *)
Definition import_legacy (legacy : node) (d : StoreFile) : M store_disk (bool * StoreFile) :=
  match legacy with
  | Missing => ret (false, d)
  | Special => sys "inspect legacy store" ;;! ret (false, d)
  | Regular bytes =>
      sys "inspect legacy store" ;;!
      if MAX_STORE_BYTES <? str_len bytes then ret (false, d)
      else
        sys "read legacy store" ;;!
        match json_parse bytes with
        | None => throw (mkIoError InvalidData ("invalid legacy store: " +:+ json_refusal "Value" bytes))
        | Some root => ret (import_legacy_value root d)
        end
  end.

(** ** The handle *)
Record store_world : Type := mkWorld {
  w_data : StoreFile;
  w_coord : Coordinator;
  w_disk : store_disk }.

Definition set_data (d : StoreFile) (w : store_world) : store_world := mkWorld d w.(w_coord) w.(w_disk).
Definition set_coord (c : Coordinator) (w : store_world) : store_world := mkWorld w.(w_data) c w.(w_disk).
Definition set_disk (k : store_disk) (w : store_world) : store_world := mkWorld w.(w_data) w.(w_coord) k.

Definition store_state (d : StoreFile) : CanonicalStoreState :=
  let a := account_ref d in
  let o := d.(sf_onboarding) in {|
  cs_revision := d.(sf_revision);
  cs_ready := true;
  cs_onboarding_complete := o.(ob_complete);
  cs_locale := o.(ob_locale);
  cs_start_with_omarchy := o.(ob_start_with_omarchy);
  cs_auto_connect := o.(ob_auto_connect);
  cs_notifications_enabled := o.(ob_notifications_enabled);
  cs_port_forwarding_notifications_enabled := o.(ob_port_forwarding_notifications_enabled);
  cs_account_scope_known := bool_decide (is_Some d.(sf_active_account_key));
  cs_profile_count := Z.of_nat (length a.(ac_profiles));
  cs_recent_count := Z.of_nat (length a.(ac_recents));
  cs_default_connection := a.(ac_default_connection);
  cs_migration_available := d.(sf_migration).(mg_legacy_qt_store_imported) |}.

Definition summary_value (d : StoreFile) : json :=
  let s := store_state d in
  jobj [("revision", jnum s.(cs_revision)); ("ready", Bool s.(cs_ready));
        ("onboarding_complete", Bool s.(cs_onboarding_complete)); ("locale", Str s.(cs_locale));
        ("start_with_omarchy", Bool s.(cs_start_with_omarchy)); ("auto_connect", Bool s.(cs_auto_connect));
        ("notifications_enabled", Bool s.(cs_notifications_enabled));
        ("port_forwarding_notifications_enabled", Bool s.(cs_port_forwarding_notifications_enabled));
        ("account_scope_known", Bool s.(cs_account_scope_known)); ("profile_count", jnum s.(cs_profile_count));
        ("recent_count", jnum s.(cs_recent_count)); ("default_connection", s.(cs_default_connection));
        ("migration_available", Bool s.(cs_migration_available))].

Definition publish_locked (w : store_world) : store_world :=
  let c := w.(w_coord) in
  let s := c.(snapshot) in
  set_coord (mkCoordinator c.(registry)
    (set_ss_revision (wrapping_add 64 s.(ss_revision) 1) (set_ss_store (store_state w.(w_data)) s))) w.

Definition store_io_error (e : io_error) : BackendError :=
  retryable true (BackendError_new "store_io" ("Unable to persist canonical state: " +:+ e.(io_text))).

Definition lifecycle_changed (a b : Onboarding) : bool :=
  negb (Bool.eqb a.(ob_complete) b.(ob_complete)) || negb (String.eqb a.(ob_locale) b.(ob_locale))
  || negb (Bool.eqb a.(ob_start_with_omarchy) b.(ob_start_with_omarchy))
  || negb (Bool.eqb a.(ob_auto_connect) b.(ob_auto_connect)).

(** The files of [mutate]: each failure restores the files written before it. *)
Definition persist (previous d : StoreFile) : M store_disk unit :=
  let o := d.(sf_onboarding) in
  let o' := previous.(sf_onboarding) in
  save_store d ;;!
  (if lifecycle_changed o o' then
     attempt (save_lifecycle o) (fun r =>
       match r with
       | Ok _ => ret tt
       | Err e => ignore (save_store previous) ;;! ignore (save_lifecycle o') ;;! throw e
       end)
   else ret tt) ;;!
  (if negb (Bool.eqb o.(ob_start_with_omarchy) o'.(ob_start_with_omarchy)) then
     attempt (sync_autostart_registration o.(ob_start_with_omarchy)) (fun r =>
       match r with
       | Ok _ => ret tt
       | Err e =>
           ignore (save_store previous) ;;! ignore (save_lifecycle o') ;;!
           ignore (sync_autostart_registration o'.(ob_start_with_omarchy)) ;;! throw e
       end)
   else ret tt).

Definition mutate (mutation : op StoreFile) (w : store_world) : BackendResult * store_world :=
  let previous := w.(w_data) in
  match mutation previous with
  | (Err e, d) => (Err e, set_data d w)
  | (Ok res, d) =>
      let d := set_revision (wrapping_add 64 d.(sf_revision) 1) d in
      match persist previous d w.(w_disk) with
      | (Err e, k) => (Err (store_io_error e), set_disk k w)
      | (Ok _, k) => (Ok res, publish_locked (set_disk k (set_data d w)))
      end
  end.

Inductive Collection : Type :=
  | Profiles
  | Recents.

Definition list_collection (params : json) (collection : Collection) (d : StoreFile) : BackendResult :=
  let? offset := bounded_usize params "offset" 0 u64_max in
  let? limit := bounded_usize params "limit" 50 MAX_PAGE_SIZE in
  let a := account_ref d in
  let items := match collection with Profiles => a.(ac_profiles) | Recents => a.(ac_recents) end in
  let total := Z.of_nat (length items) in
  Ok (jobj [("items", Arr (take (Z.to_nat limit) (drop (Z.to_nat offset) items))); ("offset", jnum offset);
            ("limit", jnum limit); ("total", jnum total);
            ("has_more", Bool (saturating_add 64 offset limit <? total));
            ("store_revision", jnum d.(sf_revision))]).

Section Handle.
Context {L : IpLib}.

(** The mutation a request method runs, given the two clock readings it may make. *)
Definition mutation_of (now_id now : Z) (method : string) (params : json) : option (op StoreFile) :=
  let named := String.eqb method in
  if named "onboarding.complete" then Some (complete_onboarding params)
  else if named "preferences.set" then Some (set_preferences params)
  else if named "profiles.save" then Some (save_profile now_id now params)
  else if named "profiles.duplicate" then Some (duplicate_profile now_id now params)
  else if named "profiles.delete" then Some (delete_profile params)
  else if named "excluded_locations.set" then Some (set_excluded_locations params)
  else if named "recents.record" then Some (record_recent now_id now params)
  else if named "recents.pin" then Some (pin_recent now params)
  else if named "recents.delete" then Some (delete_recent params)
  else if named "default_connection.set" then Some (set_default_connection params)
  else None.

(** The methods that only read. *)
Definition query_of (method : string) (params : json) (d : StoreFile) : BackendResult :=
  let named := String.eqb method in
  if named "store.get" then Ok (summary_value d)
  else if named "profiles.list" then list_collection params Profiles d
  else if named "recents.list" then list_collection params Recents d
  else if named "excluded_locations.get"
  then Ok (jobj [("items", Arr (map excluded_to_json (account_ref d).(ac_excluded_locations)))])
  else if named "connection.resolve" then resolve_connection (account_ref d) params
  else Err (BackendError_new "method_not_found" "Unknown canonical-store method").

Definition request_inner (now_id now : Z) (method : string) (params : json) (w : store_world)
    : BackendResult * store_world :=
  match mutation_of now_id now method params with
  | Some mutation => mutate mutation w
  | None => (query_of method params w.(w_data), w)
  end.

Definition error_of (r : BackendResult) : option BackendError :=
  match r with Ok _ => None | Err e => Some e end.

(** [begun] and [finished] are the coordinator's clock readings. *)
Definition request (begun finished now_id now : Z) (client method : string) (params : json) (w : store_world)
    : BackendResult * store_world :=
  match begin begun client method w.(w_coord) with
  | (Err e, c) => (Err e, set_coord c w)
  | (Ok operation, c) =>
      let '(r, w) := request_inner now_id now method params (set_coord c w) in
      (r, set_coord (finish finished operation (error_of r) w.(w_coord)) w)
  end.

(** ** Accounts *)
Context {U : UnicodeLower} (clock : string -> string -> Z).

Definition changed_value (b : bool) : json := jobj [("changed", Bool b)].

(** The entry of a new account: a copy of the unscoped one, if there is one. *)
Definition enter_account (key : string) (d : StoreFile) : StoreFile :=
  match d.(sf_accounts) !! key with
  | Some _ => d
  | None =>
      let d := put_account key (unwrap_or (d.(sf_accounts) !! LEGACY_SCOPE) AccountStore_default) d in
      let m := d.(sf_migration) in
      if m.(mg_legacy_qt_store_imported) && negb (one_of key m.(mg_copied_to_account_keys))
      then set_migration (mkMigration m.(mg_legacy_qt_store_imported) (m.(mg_copied_to_account_keys) ++ [key])
                            m.(mg_official_seeded) m.(mg_fastest_seeded)) d
      else d
  end.

Definition activate_account (account_name : option string) (w : store_world) : BackendResult * store_world :=
  match opt_filter (fun s => negb (is_empty s)) (option_map trim account_name) with
  | None => (Ok (changed_value false), w)
  | Some name =>
      let key := account_fingerprint name in
      let previous := w.(w_data) in
      if bool_decide (previous.(sf_active_account_key) = Some key) then (Ok (changed_value false), w)
      else
        match seed_account_with_official_profiles clock (enter_account key previous) key with
        | (Err e, d) => (Err e, set_data d w)
        | (Ok _, d) =>
            match seed_account_with_fastest_profile clock d key with
            | (Err e, d) => (Err e, set_data d w)
            | (Ok _, d) =>
                let d := set_active (Some key) d in
                let d := set_revision (wrapping_add 64 d.(sf_revision) 1) d in
                match save_store d w.(w_disk) with
                | (Err e, k) => (Err (store_io_error e), set_disk k w)
                | (Ok _, k) => (Ok (changed_value true), publish_locked (set_disk k (set_data d w)))
                end
            end
        end
  end.

(** ** Opening *)
Definition invalid_seed (e : BackendError) : io_error := mkIoError InvalidData e.(err_message).

Definition seeded (seed : StoreFile -> result bool BackendError * StoreFile) (d : StoreFile)
    : M store_disk (bool * StoreFile) :=
  match seed d with
  | (Ok c, d) => ret (c, d)
  | (Err e, _) => throw (invalid_seed e)
  end.

Definition open_data (legacy : node) : M store_disk StoreFile :=
  let! w := get_disk in
  let existed := negb (match w.(sd_state) with Missing => true | _ => false end) in
  let! d := (if existed then load_store else ret StoreFile_default) in
  let! migrated := (if existed then ret (false, d) else import_legacy legacy d) in
  let! official := seeded (seed_known_accounts_with_official_profiles clock) migrated.2 in
  let! fastest := seeded (seed_known_accounts_with_fastest_profile clock) official.2 in
  let '(repaired, d) := repair_default_connections fastest.2 in
  (if negb existed || migrated.1 || official.1 || fastest.1 || repaired then save_store d else ret tt) ;;!
  save_lifecycle d.(sf_onboarding) ;;!
  sync_autostart_registration d.(sf_onboarding).(ob_start_with_omarchy) ;;!
  ret d.

Definition open_store (legacy : node) (c : Coordinator) (k : store_disk) : result store_world io_error :=
  match open_data legacy k with
  | (Err e, _) => Err e
  | (Ok d, k) => Ok (publish_locked (mkWorld d c k))
  end.
End Handle.
End Disk.
