(* ===== verification/StoreRequests.v ===== *)
(** The requests of the agent's store: what reaches the disk and the published state, what can be loaded
    again, and that the default connection can always be resolved. *)
From S2P Require Export StoreDisk StoreInvariants.
Open Scope string_scope.
Open Scope Z_scope.
Open Scope list_scope.
Open Scope rust_scope.

(** ** The JSON schema *)
Lemma jobj_object l : as_object (jobj l) = Some (set_fields l ∅).
Proof. done. Qed.

Ltac decode_fields :=
  rewrite jobj_object; cbv iota beta; lookup_fields;
  cbn [field_or unwrap_or default as_array as_str as_bool as_u64 and_then].

Lemma excluded_roundtrip e : excluded_of_json (excluded_to_json e) = Some e.
Proof. unfold excluded_of_json, excluded_to_json. decode_fields. by destruct e. Qed.

Lemma account_roundtrip a : account_of_json (account_to_json a) = Some a.
Proof.
  unfold account_of_json, account_to_json. decode_fields. rewrite (opt_collect_map _ _ (fun e => e)).
  - rewrite map_id. by destruct a.
  - intros e _. apply excluded_roundtrip.
Qed.

Lemma onboarding_roundtrip o : onboarding_of_json (onboarding_to_json o) = Some o.
Proof. unfold onboarding_of_json, onboarding_to_json. decode_fields. by destruct o. Qed.

Lemma migration_roundtrip m : migration_of_json (migration_to_json m) = Some m.
Proof. unfold migration_of_json, migration_to_json. decode_fields. rewrite !strs_roundtrip. by destruct m. Qed.

Lemma store_roundtrip d : 0 <= d.(sf_version) < 2 ^ 32 -> store_of_json (store_to_json d) = Some d.
Proof.
  intros Hv. unfold store_of_json, store_to_json. decode_fields.
  rewrite onboarding_roundtrip, migration_roundtrip, (smap_roundtrip _ _ d.(sf_accounts))
    by (intros; apply account_roundtrip).
  unfold jnum. cbn [as_u64 and_then]. unfold u_try_from, in_u.
  replace ((0 <=? sf_version d) && (sf_version d <? 2 ^ 32)) with true by lia.
  destruct d as [v r o [k|] a m]; reflexivity.
Qed.

Section Requests.
Context {J : JsonText} {L : IpLib} {U : UnicodeLower} (clock : string -> string -> Z).

Definition store_file (d : StoreFile) : node := Regular (store_text d +:+ line_feed).
Definition file_of (w : store_world) : node := w.(w_disk).(sd_state).

(** ** What the files may become *)
Lemma sys_cases what k :
  exists r k', sys what k = (r, k') /\ k'.(sd_state) = k.(sd_state).
Proof. unfold sys. destruct (sd_faults k) as [|[] ?]; eauto. Qed.

Definition keeps_file {A : Type} (m : M store_disk A) : Prop := forall n, keeps (fun k => k.(sd_state) = n) m.

Lemma sys_keeps what : keeps_file (sys what).
Proof. intros n k Hk. destruct (sys_cases what k) as (r & k' & -> & H). simpl. congruence. Qed.

Lemma get_disk_keeps : keeps_file get_disk.
Proof. by intros n k. Qed.

Ltac keep :=
  repeat match goal with
  | |- keeps _ (bind _ _) => apply keeps_bind; [|intros ?]
  | |- keeps _ (attempt _ _) => apply keeps_attempt; [|intros [?|?]]
  | |- keeps _ (ignore _) => apply keeps_ignore
  | |- keeps _ (ret _) => apply keeps_ret
  | |- keeps _ (throw _) => apply keeps_throw
  | |- keeps _ (sys _) => apply sys_keeps
  | |- keeps _ get_disk => apply get_disk_keeps
  | |- keeps _ (if ?b then _ else _) => destruct b
  | |- keeps _ (match ?x with _ => _ end) => destruct x
  end.

Lemma put_lifecycle_keeps n : keeps_file (put_lifecycle n).
Proof. by intros m k. Qed.
Lemma put_link_keeps l : keeps_file (put_link l).
Proof. by intros m k. Qed.

Lemma save_lifecycle_keeps o : keeps_file (save_lifecycle o).
Proof.
  intros n. unfold save_lifecycle, save_private_bytes, replace_file. keep. apply put_lifecycle_keeps.
Qed.

Lemma sync_autostart_keeps b : keeps_file (sync_autostart_registration b).
Proof. intros n. unfold sync_autostart_registration. keep; apply put_link_keeps. Qed.

(** What [save_store] accepts. *)
Definition text_fits (d : StoreFile) : Prop := str_len (store_text d) <= MAX_STORE_BYTES.

(** [save_store] replaces the file when it succeeds and leaves it alone otherwise. *)
Lemma save_store_spec d k :
  let '(r, k') := save_store d k in
  (r = Ok tt /\ k'.(sd_state) = store_file d /\ text_fits d) \/ (is_ok r = false /\ k'.(sd_state) = k.(sd_state)).
Proof.
  unfold save_store. unfold bind at 1. destruct (sys_cases "create directory" k) as ([[]|e] & k1 & -> & H1); [|by right].
  unfold bind at 1. destruct (sys_cases "set permissions" k1) as ([[]|e] & k2 & -> & H2); [|right; by rewrite <- H1].
  destruct (_ <? _) eqn:Efit; [right; simpl; split; [done|congruence]|]. apply Z.ltb_ge in Efit.
  unfold replace_file. unfold bind at 1.
  destruct (sys_cases "open temporary file" k2) as ([[]|e] & k3 & -> & H3); [|right; split; [done|congruence]].
  unfold attempt. unfold bind at 1.
  destruct (sys_cases "write" k3) as ([[]|e] & k4 & -> & H4).
  - unfold bind at 1. destruct (sys_cases "write line feed" k4) as ([[]|e] & k5 & -> & H5).
    + unfold bind at 1. destruct (sys_cases "sync" k5) as ([[]|e] & k6 & -> & H6).
      * unfold bind at 1. destruct (sys_cases "rename" k6) as ([[]|e] & k7 & -> & H7); [by left|].
        unfold bind, ignore, attempt. destruct (sys_cases "remove temporary file" k7) as ([[]|e'] & k8 & -> & H8);
          right; (split; [done|simpl; congruence]).
      * unfold bind, ignore, attempt. destruct (sys_cases "remove temporary file" k6) as ([[]|e'] & k8 & -> & H8);
          right; (split; [done|simpl; congruence]).
    + unfold bind, ignore, attempt. destruct (sys_cases "remove temporary file" k5) as ([[]|e'] & k8 & -> & H8);
        right; (split; [done|simpl; congruence]).
  - unfold bind, ignore, attempt. destruct (sys_cases "remove temporary file" k4) as ([[]|e'] & k8 & -> & H8);
      right; (split; [done|simpl; congruence]).
Qed.

Lemma save_store_keeps d (P : node -> Prop) :
  (text_fits d -> P (store_file d)) -> keeps (fun k => P k.(sd_state)) (save_store d).
Proof.
  intros Hd k Hk. pose proof (save_store_spec d k) as H. destruct (save_store d k) as [r k']. simpl.
  destruct H as [(_ & -> & Hfit)|[_ ->]]; auto.
Qed.

Lemma keeps_file_any {A : Type} (m : M store_disk A) (P : node -> Prop) :
  keeps_file m -> keeps (fun k => P k.(sd_state)) m.
Proof. intros H k Hk. pose proof (H (sd_state k) k eq_refl) as E. cbv beta in E. by rewrite E. Qed.

(** The rollback of [mutate]. *)
Lemma persist_spec previous d k :
  let '(r, k') := persist previous d k in
  (r = Ok tt -> k'.(sd_state) = store_file d) /\
  (k'.(sd_state) = k.(sd_state) \/ k'.(sd_state) = store_file d /\ text_fits d \/
   k'.(sd_state) = store_file previous /\ text_fits previous).
Proof.
  unfold persist. unfold bind at 1. pose proof (save_store_spec d k) as Hs.
  destruct (save_store d k) as [[[]|e] k1]; [|destruct Hs as [[? _]|[_ ->]]; [done|split; [done|by left]]].
  destruct Hs as [(_ & Hk1 & Hfit)|[? _]]; [|done].
  set (P := fun n : node => n = store_file d \/ n = store_file previous /\ text_fits previous).
  assert (Hback : forall n, n = store_file d -> P n) by (intros; by left).
  (* a successful tail keeps the new file, a failing one may restore the old one *)
  match goal with |- context [bind ?a (fun _ => ?b) k1] => set (first := a); set (second := b) end.
  assert (Hfirst : forall k2 r2, first k1 = (r2, k2) ->
    (r2 = Ok tt -> k2.(sd_state) = store_file d) /\ P k2.(sd_state)).
  { intros k2 r2. unfold first. destruct (lifecycle_changed _ _); [|by intros [= <- <-]; split; [done|by left]].
    unfold attempt. pose proof (save_lifecycle_keeps (sf_onboarding d) (store_file d) k1 Hk1) as H.
    destruct (save_lifecycle _ k1) as [[[]|e] k3]; simpl in H; [by intros [= <- <-]; split; [done|by left]|].
    intros E. split.
    - intros ->. exfalso. apply bind_Ok in E as ([] & ? & _ & E). by apply bind_Ok in E as ([] & ? & _ & [=]).
    - assert (Hkeep : keeps (fun k => P k.(sd_state))
        (ignore (save_store previous) ;;! ignore (save_lifecycle (sf_onboarding previous)) ;;! throw (A := unit) e)).
      { apply keeps_bind; [apply keeps_ignore, save_store_keeps; by right|intros _].
        apply keeps_bind; [apply keeps_ignore, keeps_file_any, save_lifecycle_keeps|intros _]. apply keeps_throw. }
      specialize (Hkeep k3 (or_introl H)). by rewrite E in Hkeep. }
  unfold bind. destruct (first k1) as [[[]|e] k2] eqn:E1.
  2: { destruct (Hfirst _ _ eq_refl) as [_ [->|[-> ?]]]; (split; [done|auto]). }
  destruct (Hfirst _ _ eq_refl) as [Hk2 _]. specialize (Hk2 eq_refl).
  unfold second. destruct (negb _); [|split; [done|right; left; by split]].
  unfold attempt. pose proof (sync_autostart_keeps (ob_start_with_omarchy (sf_onboarding d)) (store_file d) k2 Hk2) as H.
  destruct (sync_autostart_registration _ k2) as [[[]|e] k3]; simpl in H; [split; [done|right; left; by split]|].
  match goal with |- context [?m k3] => set (undo := m) end.
  assert (Hkeep : keeps (fun k => P k.(sd_state)) undo).
  { unfold undo. apply keeps_bind; [apply keeps_ignore, save_store_keeps; by right|intros _].
    apply keeps_bind; [apply keeps_ignore, keeps_file_any, save_lifecycle_keeps|intros _].
    apply keeps_bind; [apply keeps_ignore, keeps_file_any, sync_autostart_keeps|intros _]. apply keeps_throw. }
  specialize (Hkeep k3 (or_introl H)). destruct (undo k3) as [r k4] eqn:Eu. split.
  - intros ->. exfalso. unfold undo in Eu. apply bind_Ok in Eu as ([] & ? & _ & Eu).
    apply bind_Ok in Eu as ([] & ? & _ & Eu). by apply bind_Ok in Eu as ([] & ? & _ & [=]).
  - cbn [snd] in Hkeep. destruct Hkeep as [->|[-> ?]]; auto.
Qed.

(** ** One request *)

(** C25: requests are persisted before they are acknowledged.  A mutation that succeeds leaves the new
    data, one revision further, in memory, in the state file and in the published snapshot; one that
    fails publishes nothing, and the file holds its old contents, the new data or the old data written
    back.  When the disk is to blame, the data in memory is the old one.  Queries change nothing. *)
Theorem store_requests_persist now_id now method params w :
  let '(r, w') := request_inner now_id now method params w in
  match mutation_of now_id now method params with
  | None => w' = w
  | Some f =>
      let next := set_revision (wrapping_add 64 (f w.(w_data)).2.(sf_revision) 1) (f w.(w_data)).2 in
      match r with
      | Ok v =>
          (f w.(w_data)).1 = Ok v /\ w'.(w_data) = next /\ file_of w' = store_file next /\
          ss_store (snapshot w'.(w_coord)) = store_state next
      | Err e =>
          w'.(w_coord) = w.(w_coord) /\
          (file_of w' = file_of w \/ file_of w' = store_file next \/ file_of w' = store_file w.(w_data)) /\
          ((f w.(w_data)).1 = Err e \/ err_code e = "store_io" /\ w'.(w_data) = w.(w_data))
      end
  end.
Proof.
  unfold request_inner. destruct (mutation_of _ _ _ _) as [f|]; [|done].
  unfold mutate. destruct (f (w_data w)) as [[v|e] d]; cbn [fst snd]; [|by split_and!; auto].
  pose proof (persist_spec (w_data w) (set_revision (wrapping_add 64 (sf_revision d) 1) d) (w_disk w)) as H.
  destruct (persist _ _ _) as [[[]|e] k]; destruct H as [H1 H2].
  - split_and!; [done..| |done]. by apply H1.
  - split_and!; [done| |by right]. unfold file_of. cbn. by destruct H2 as [->|[[-> _]|[-> _]]]; auto.
Qed.

(** ** Loading what was saved *)
Definition quiet_disk (k : store_disk) : store_disk := mkDisk k.(sd_state) k.(sd_lifecycle) k.(sd_link) [].

Lemma load_saved_store d k :
  d.(sf_version) = STORE_VERSION -> json_roundtrips (store_to_json d) -> k.(sd_state) = store_file d ->
  (load_store (quiet_disk k)).1 = if str_len (store_text d) <? MAX_STORE_BYTES then Ok d else Err too_large.
Proof.
  intros Hv Hj Hk. destruct (str_len (store_text d) <? MAX_STORE_BYTES) eqn:Hlen; [apply Z.ltb_lt in Hlen|].
  2: { apply Z.ltb_ge in Hlen. unfold load_store, bind, sys, get_disk, quiet_disk. cbn. rewrite Hk. unfold store_file.
    assert ((MAX_STORE_BYTES <? str_len (store_text d +:+ line_feed)) = true) as ->; [|done].
    apply Z.ltb_lt. unfold str_len in *. rewrite str_app_length. simpl String.length. lia. } unfold load_store, bind, sys, get_disk, quiet_disk. cbn. rewrite Hk. unfold store_file.
  assert ((MAX_STORE_BYTES <? str_len (store_text d +:+ line_feed)) = false) as ->.
  { apply Z.ltb_ge. unfold str_len in *. rewrite str_app_length. simpl String.length. lia. }
  cbn. unfold store_text. unfold line_feed. rewrite Hj. cbn [and_then]. rewrite store_roundtrip.
  - by rewrite Hv.
  - rewrite Hv. unfold STORE_VERSION. lia.
Qed.

Lemma on_account_version f d : (on_account f d).2.(sf_version) = d.(sf_version).
Proof. unfold on_account. by destruct (f _). Qed.

Lemma mutation_version now_id now method params f d :
  mutation_of now_id now method params = Some f -> (f d).2.(sf_version) = d.(sf_version).
Proof.
  unfold mutation_of. intros H.
  repeat match type of H with (if ?b then _ else _) = Some _ => destruct b; [injection H as <-|] end; [..|discriminate];
    try (unfold save_profile, duplicate_profile, delete_profile, set_excluded_locations, record_recent, pin_recent,
           delete_recent, set_default_connection; repeat split_match; try apply on_account_version; done).
  - unfold complete_onboarding. repeat split_match; done.
  - assert (Hb : forall o w e, (set_bool_preferences o w e).2.(sf_version) = e.(sf_version)).
    { intros o w. induction w as [|[k g] w IH]; intros e; [done|]. cbn [set_bool_preferences].
      unfold set_bool_preference. destruct (o !! k) as [v|]; [|apply IH]. destruct (as_bool v); [|done]. by rewrite IH. }
    unfold set_preferences. destruct (object_params params) as [o|]; [|done].
    destruct (match o !! "locale" with Some v => _ | None => _ end) as [l|]; [|done].
    match goal with |- context [set_bool_preferences o bool_preferences ?e] =>
      pose proof (Hb o bool_preferences e) as Hv; destruct (set_bool_preferences o bool_preferences e) as [[[]|e'] d'] end;
    simpl in *; rewrite Hv; by destruct l.
Qed.

Lemma seed_version d key :
  (seed_account_with_official_profiles clock d key).2.(sf_version) = d.(sf_version) /\
  (seed_account_with_fastest_profile clock d key).2.(sf_version) = d.(sf_version).
Proof.
  split.
  - unfold seed_account_with_official_profiles. destruct (one_of _ _); [done|].
    destruct (official_default_profiles _ _ _); [|done]. destruct (foldl _ _ _). by destruct (forallb _ _).
  - unfold seed_account_with_fastest_profile. destruct (one_of _ _); [done|].
    destruct (fastest_default_profile _ _ _); [|done]. match goal with |- context [if any_value ?i ?l then _ else _] => by destruct (any_value i l) end.
Qed.

(** ** Runs of the agent *)

(** Steps of the agent in which the requests are the [allowed] ones.  The rest of the agent may change the
    coordinator and the published state, the rest of the system which calls fail and the other files, but
    neither the store's data nor its file. *)
Inductive agent_step (allowed : StoreFile -> Z -> string -> json -> Prop) : store_world -> store_world -> Prop :=
  | agent_request begun finished now_id now client method params w :
      allowed w.(w_data) now_id method params ->
      agent_step allowed w (request begun finished now_id now client method params w).2
  | agent_activate account_name w : agent_step allowed w (activate_account clock account_name w).2
  | agent_environment w w' :
      w'.(w_data) = w.(w_data) -> file_of w' = file_of w -> agent_step allowed w w'.

(** Any request at all; those within the range of the clock whose profile identifiers have no surrounding
    space; and of these, those that release no pinned recent while six others are kept unpinned. *)
Definition any_request (d : StoreFile) (now_id : Z) (method : string) (params : json) : Prop := True.
Definition trimmed_request (d : StoreFile) (now_id : Z) (method : string) (params : json) : Prop :=
  0 <= now_id < 2 ^ 64 /\ trimmed_profile_id params.
Definition keeping_request (d : StoreFile) (now_id : Z) (method : string) (params : json) : Prop :=
  trimmed_request d now_id method params /\ (method = "recents.pin" -> pin_keeps params d).

(** A text of exactly the limit is saved, and refused afterwards: loading measures the line feed too. *)
Lemma full_store_unloadable d k :
  str_len (store_text d) = MAX_STORE_BYTES ->
  let '(r, k') := save_store d (quiet_disk k) in
  r = Ok tt /\ (load_store (quiet_disk k')).1 = Err too_large.
Proof.
  intros Hlen. unfold save_store, bind, sys, quiet_disk. cbn [sd_faults sd_state sd_lifecycle sd_link]. rewrite Hlen, Z.ltb_irrefl.
  cbn. split; [done|]. unfold load_store, bind, sys, get_disk. cbn.
  assert ((MAX_STORE_BYTES <? str_len (store_text d +:+ line_feed)) = true) as ->; [|done].
  apply Z.ltb_lt. unfold str_len in *. rewrite str_app_length. simpl String.length. lia.
Qed.

(** [request] runs the mutation between two updates of the coordinator. *)
Lemma request_world begun finished now_id now client method params w :
  exists c, let w1 := (request_inner now_id now method params (set_coord c w)).2 in
  let w' := (request begun finished now_id now client method params w).2 in
  (w'.(w_data) = w.(w_data) /\ file_of w' = file_of w) \/
  (w'.(w_data) = w1.(w_data) /\ file_of w' = file_of w1).
Proof.
  unfold request. destruct (begin _ _ _ _) as [[o|e] c]; exists c; [right|by left].
  by destruct (request_inner _ _ _ _ _) as [r w1].
Qed.

Definition world_ok (w : store_world) : Prop :=
  w.(w_data).(sf_version) = STORE_VERSION /\
  exists d, d.(sf_version) = STORE_VERSION /\ text_fits d /\ file_of w = store_file d.

Lemma request_inner_ok now_id now method params w :
  world_ok w -> world_ok (request_inner now_id now method params w).2.
Proof.
  intros [Hv (d0 & Hd0 & Hs0 & Hf)]. unfold request_inner.
  destruct (mutation_of _ _ _ _) as [f|] eqn:Em; [|by split; eauto].
  pose proof (mutation_version _ _ _ _ f (w_data w) Em) as Hver. unfold mutate.
  destruct (f (w_data w)) as [[v|e] d]; cbn [fst snd] in *; [|by split; [cbn; congruence|eauto]].
  set (next := set_revision _ d). assert (Hn : sf_version next = STORE_VERSION) by (unfold next; cbn; congruence).
  pose proof (persist_spec (w_data w) next (w_disk w)) as H.
  destruct (persist _ _ _) as [[[]|e] k]; destruct H as [H1 H2]; cbn [snd].
  all: split; [done|]; unfold file_of in *; cbn; destruct H2 as [->|[[-> ?]|[-> ?]]]; eauto.
Qed.

Lemma activate_ok account_name w : world_ok w -> world_ok (activate_account clock account_name w).2.
Proof.
  intros [Hv (d0 & Hd0 & Hs0 & Hf)]. unfold activate_account. destruct (opt_filter _ _) as [name|]; [|by split; eauto].
  case_bool_decide; [by split; eauto|].
  set (d1 := enter_account _ _).
  assert (H1 : sf_version d1 = STORE_VERSION).
  { unfold d1, enter_account. destruct (_ !! _); [done|]. by destruct (_ && _). }
  destruct (seed_version d1 (account_fingerprint name)) as [Ho _].
  destruct (seed_account_with_official_profiles _ d1 _) as [[b|e] d2]; cbn [snd] in *; [|by split; [cbn; congruence|eauto]].
  destruct (seed_version d2 (account_fingerprint name)) as [_ Hf2].
  destruct (seed_account_with_fastest_profile _ d2 _) as [[b'|e] d3]; cbn [snd] in *; [|by split; [cbn; congruence|eauto]].
  set (d4 := set_revision _ _). assert (H4 : sf_version d4 = STORE_VERSION) by (unfold d4; cbn; congruence).
  pose proof (save_store_spec d4 (w_disk w)) as Hs. destruct (save_store d4 _) as [[[]|e] k]; cbn [snd].
  - split; [done|]. destruct Hs as [(_ & Hs & Hfit)|[? _]]; [|done]. by exists d4.
  - split; [done|]. destruct Hs as [[? _]|[_ Hs]]; [done|]. exists d0. unfold file_of in *. cbn. split_and!; [done..|congruence].
Qed.

(** C26: the state file can always be loaded, if its text is shorter than 1 MiB.  From a store whose file
    was written by the agent, whatever requests and activations follow and whichever system calls fail,
    the file is the complete text of some store of the current version, of at most 1 MiB.  Loading it
    gives exactly that store back if the text is shorter; a text of exactly 1 MiB, which saving accepts,
    is refused, because loading counts the line feed too. *)
Theorem store_always_loadable w0 w :
  world_ok w0 -> rtc (agent_step any_request) w0 w ->
  exists d, d.(sf_version) = STORE_VERSION /\ file_of w = store_file d /\
    str_len (store_text d) <= MAX_STORE_BYTES /\
    (json_roundtrips (store_to_json d) ->
     (load_store (quiet_disk w.(w_disk))).1 =
       if str_len (store_text d) <? MAX_STORE_BYTES then Ok d else Err too_large).
Proof.
  intros H0 Hr. assert (Hw : world_ok w).
  { eapply rtc_invariant; [|exact H0|exact Hr]. clear. intros w w' Hstep Hw.
    destruct Hstep as [begun finished now_id now client method params w _|name w|w w' Hd Hf].
    - destruct (request_world begun finished now_id now client method params w) as (c & Hc).
      pose proof (request_inner_ok now_id now method params (set_coord c w) Hw) as [Hv (d & Hd & Hs & Hf)].
      destruct Hw as [Hv0 (d0 & Hd0 & Hs0 & Hf0)]. destruct Hc as [[H1 H2]|[H1 H2]]; (split; [congruence|]).
      + exists d0. split_and!; [done..|congruence].
      + exists d. split_and!; [done..|congruence].
    - by apply activate_ok.
    - destruct Hw as [Hv (d & Hd1 & Hs & Hf1)]. split; [congruence|]. exists d. split_and!; [done..|congruence]. }
  destruct Hw as [_ (d & Hd & Hs & Hf)]. exists d. split_and!; [done..|]. intros Hj. by apply load_saved_store.
Qed.

(** ** The default connection *)
Section Default.
Context (strict : Prop).

Lemma mutation_inv now_id now method params f d :
  mutation_of now_id now method params = Some f -> trimmed_request d now_id method params ->
  (strict -> keeping_request d now_id method params) ->
  all_accounts (acc_inv strict) d -> all_accounts (acc_inv strict) (f d).2.
Proof.
  intros H [Hnow Hid] Hu Hd. unfold mutation_of in H.
  destruct (String.eqb method "onboarding.complete").
  { injection H as <-. intros k a. rewrite (proj1 (onboarding_accounts params d)). by apply Hd. }
  destruct (String.eqb method "preferences.set").
  { injection H as <-. intros k a. rewrite (proj2 (onboarding_accounts params d)). by apply Hd. }
  destruct (String.eqb method "profiles.save"); [injection H as <-; by apply save_profile_inv|].
  destruct (String.eqb method "profiles.duplicate"); [injection H as <-; by apply duplicate_profile_inv|].
  destruct (String.eqb method "profiles.delete"); [injection H as <-; by apply delete_profile_inv|].
  destruct (String.eqb method "excluded_locations.set"); [injection H as <-; by apply set_excluded_locations_inv|].
  destruct (String.eqb method "recents.record"); [injection H as <-; by apply record_recent_inv|].
  destruct (String.eqb_spec method "recents.pin") as [->|].
  { injection H as <-. apply pin_recent_inv; [|done]. intros Hs. by apply Hu. }
  destruct (String.eqb method "recents.delete"); [injection H as <-; by apply delete_recent_inv|].
  destruct (String.eqb method "default_connection.set"); [injection H as <-; by apply set_default_connection_inv|done].
Qed.

Lemma request_inner_inv now_id now method params w :
  trimmed_request w.(w_data) now_id method params ->
  (strict -> keeping_request w.(w_data) now_id method params) ->
  all_accounts (acc_inv strict) w.(w_data) -> all_accounts (acc_inv strict) (request_inner now_id now method params w).2.(w_data).
Proof.
  intros Hfit Hu Hd. unfold request_inner. destruct (mutation_of _ _ _ _) as [f|] eqn:Em; [|done].
  pose proof (mutation_inv _ _ _ _ f (w_data w) Em Hfit Hu Hd) as Hf. unfold mutate.
  destruct (f (w_data w)) as [[v|e] d]; cbn [snd] in *; [|done].
  by destruct (persist _ _ _) as [[[]|e] k].
Qed.

Lemma activate_inv account_name w :
  all_accounts (acc_inv strict) w.(w_data) -> all_accounts (acc_inv strict) (activate_account clock account_name w).2.(w_data).
Proof.
  intros Hd. unfold activate_account. destruct (opt_filter _ _) as [name|]; [|done]. case_bool_decide; [done|].
  set (key := account_fingerprint name). set (d1 := enter_account key (w_data w)).
  assert (H1 : all_accounts (acc_inv strict) d1).
  { unfold d1, enter_account. destruct (sf_accounts (w_data w) !! key); [done|].
    assert (Hp : all_accounts (acc_inv strict) (put_account key
      (unwrap_or (sf_accounts (w_data w) !! LEGACY_SCOPE) AccountStore_default) (w_data w))).
    { apply put_account_all; [|done]. apply (account_entry_all _ LEGACY_SCOPE); [apply AccountStore_default_inv|done]. }
    by destruct (_ && _). }
  destruct (seed_official_inv strict clock d1 key H1) as [Ho H2].
  destruct (seed_account_with_official_profiles clock d1 key) as [[b|e] d2]; cbn [fst snd] in *; [|done].
  destruct (seed_fastest_inv strict clock d2 key H2) as [Ho' H3].
  destruct (seed_account_with_fastest_profile clock d2 key) as [[b'|e] d3]; cbn [fst snd] in *; [|done].
  by destruct (save_store _ _) as [[[]|e] k].
Qed.

Lemma account_ref_inv d : all_accounts (acc_inv strict) d -> acc_inv strict (account_ref d).
Proof.
  intros Hd. unfold account_ref. destruct (sf_active_account_key d ?> _) as [a|] eqn:E.
  - simpl. destruct (sf_active_account_key d) as [key|]; [|discriminate]. simpl in E. by eapply Hd.
  - simpl. apply (account_entry_all _ LEGACY_SCOPE); [apply AccountStore_default_inv|done].
Qed.

(** Along a run of which every step satisfies the [allowed] condition. *)
Lemma run_inv (allowed : StoreFile -> Z -> string -> json -> Prop) w0 w :
  (forall d now_id method params, allowed d now_id method params ->
     trimmed_request d now_id method params /\ (strict -> keeping_request d now_id method params)) ->
  all_accounts (acc_inv strict) w0.(w_data) -> rtc (agent_step allowed) w0 w ->
  all_accounts (acc_inv strict) w.(w_data).
Proof.
  intros Hall H0 Hr.
  eapply (rtc_invariant (agent_step allowed) (fun w => all_accounts (acc_inv strict) (w_data w))); [|exact H0|exact Hr].
  clear -Hall. intros w w' Hstep Hw.
  destruct Hstep as [begun finished now_id now client method params w Ha|name w|w w' Hd _].
  - destruct (request_world begun finished now_id now client method params w) as (c & Hc).
    destruct (Hall _ _ _ _ Ha) as [Hfit Hkeep].
    pose proof (request_inner_inv now_id now method params (set_coord c w) Hfit Hkeep Hw) as Hi.
    destruct Hc as [[-> _]|[-> _]]; done.
  - by apply activate_inv.
  - by rewrite Hd.
Qed.
End Default.

(** C24: what the store holds can be connected to.  From a store in which that is so, after any requests
    whose profile identifiers have no surrounding space, including those that release pinned recents, any
    activations and any failures: every stored profile and every recent resolves, and at most six
    unpinned recents are kept.  Resolving the default connection succeeds too, as long as no request
    released a pinned recent at a moment when the account kept six unpinned ones already; releasing one
    then may drop the target of the default ([unpin_drops_default] below), and an identifier with
    surrounding space makes a profile unreachable ([padded_profile_unreachable]). *)
Theorem default_always_connects w0 w :
  all_accounts (acc_inv True) w0.(w_data) -> rtc (agent_step trimmed_request) w0 w ->
  let a := account_ref w.(w_data) in
  (forall v selection, v ∈ a.(ac_profiles) -> is_ok (resolved_profile v selection) = true) /\
  (forall v selection, v ∈ a.(ac_recents) -> is_ok (resolved_recent a v selection) = true) /\
  (length (retain unpinned a.(ac_recents)) <= MAX_UNPINNED_RECENTS)%nat /\
  (rtc (agent_step keeping_request) w0 w ->
   forall params, jget "selection" params ?> as_object = None -> is_ok (resolve_connection a params) = true).
Proof.
  intros H0 Hr.
  assert (Hw : all_accounts (acc_inv False) (w_data w)).
  { eapply run_inv; [|clear -H0; intros k a Ha|exact Hr]; [by split|]. destruct (H0 k a Ha) as [Hw _]. by split; [|intros []]. }
  destruct (account_ref_inv False _ Hw) as [[Ha Hun] _]. intros a. split_and!; [..|done|].
  - intros v selection Hv. destruct Ha as [Hp _]. rewrite Forall_forall in Hp.
    destruct (Hp v Hv) as (p & id & -> & Hok & Hid). by destruct (resolved_profile_ok p id selection Hok Hid) as (? & ? & _ & ->).
  - intros v selection Hv. apply resolved_recent_ok; [done|]. destruct Ha as [_ Hrec]. rewrite Forall_forall in Hrec. by apply Hrec.
  - intros Hk params. assert (Hs : all_accounts (acc_inv True) (w_data w)).
    { eapply run_inv; [|exact H0|exact Hk]. intros d now_id method p Hkeep. split; [apply Hkeep|by intros _]. }
    destruct (account_ref_inv True _ Hs) as [_ Hdef]. by apply default_resolves, Hdef.
Qed.
End Requests.

(** ** Witnesses *)
Definition example_lower : UnicodeLower := to_ascii_lowercase.
Definition flat_text : JsonText := mkJsonText (fun _ => "{}") (fun _ => Some (store_to_json StoreFile_default)) (fun _ _ => "").
Definition new_world : store_world :=
  mkWorld StoreFile_default (OperationCoordinator_new StateSnapshot_default)
    (mkDisk (Regular ("{}" +:+ line_feed)) Missing NoLink []).
Definition onboarding_params : json :=
  jobj [("locale", Str "es_ES"); ("start_with_omarchy", Bool false); ("auto_connect", Bool true)].
Definition onboarded (J : JsonText) : store_world :=
  (@request J example_lib 1 2 0 0 "client" "onboarding.complete" onboarding_params new_world).2.

(** A text that tells the store of the onboarded agent from every other. *)
Definition onboarded_json : json := store_to_json (onboarded flat_text).(w_data).
Definition tagged_text : JsonText :=
  mkJsonText (fun j => if bool_decide (j = onboarded_json) then "saved" else "{}")
    (fun t => if String.eqb t ("saved" +:+ line_feed) then Some onboarded_json else None) (fun _ _ => "").

Lemma store_always_loadable_witness :
  exists d, file_of (onboarded tagged_text) = @store_file tagged_text d /\
    @json_roundtrips tagged_text (store_to_json d) /\
    (@load_store tagged_text (quiet_disk (onboarded tagged_text).(w_disk))).1 = Ok d.
Proof.
  assert (H0 : @world_ok tagged_text new_world).
  { split; [reflexivity|]. exists StoreFile_default. split; [reflexivity|]. split; [|vm_compute; reflexivity].
    unfold text_fits. vm_compute. discriminate. }
  assert (Hr : rtc (@agent_step tagged_text example_lib example_lower (fun _ _ => 7) any_request) new_world (onboarded tagged_text)).
  { apply rtc_once. apply agent_request. exact I. }
  destruct (@store_always_loadable tagged_text example_lib example_lower (fun _ _ => 7) new_world (onboarded tagged_text) H0 Hr)
    as (d & Hd & Hf & _ & Hload).
  assert (Ef : file_of (onboarded tagged_text) = Regular ("saved" +:+ line_feed)) by (vm_compute; reflexivity).
  assert (Et : @store_text tagged_text d = "saved").
  { rewrite Ef in Hf. unfold store_file in Hf. injection Hf as Hf. unfold store_text in *. cbn [json_print tagged_text] in *.
    destruct (bool_decide _); [reflexivity|discriminate Hf]. }
  assert (Hj : @json_roundtrips tagged_text (store_to_json d)).
  { unfold json_roundtrips. change (json_print (store_to_json d)) with (@store_text tagged_text d). rewrite Et. unfold store_text in Et.
    cbn [json_print tagged_text] in Et. destruct (bool_decide (store_to_json d = onboarded_json)) eqn:Eb; [|discriminate Et].
    apply bool_decide_eq_true in Eb. rewrite Eb. reflexivity. }
  exists d. split; [exact Hf|]. split; [exact Hj|]. rewrite (Hload Hj), Et. reflexivity.
Defined.

Definition alice : store_world :=
  (@activate_account flat_text example_lib example_lower (fun _ _ => 7) (Some " Alice ") new_world).2.
Definition chosen_params : json :=
  jobj [("selection", jobj [("type", Str "profile"); ("profileId", Str "proton-default-p2p-v1")])].
Definition chosen : store_world :=
  (@request flat_text example_lib 1 2 0 0 "client" "default_connection.set" chosen_params alice).2.

(** Two recents of alice, one pinned and released again: with room for it, the default stays. *)
Definition from_alice (method : string) (params : json) (w : store_world) : store_world :=
  (@request flat_text example_lib 1 2 7 7 "client" method params w).2.
Definition recorded : store_world :=
  from_alice "recents.record" (jobj [("recent", jobj [("kind", Str "country"); ("countryCode", Str "FR")])]) chosen.
Definition recent_id : string :=
  unwrap_or (head (account_ref recorded.(w_data)).(ac_recents) ?> value_id) "".
Definition pinned_recent : store_world :=
  from_alice "recents.pin" (jobj [("id", Str recent_id); ("pinned", Bool true)]) recorded.
Definition released : store_world :=
  from_alice "recents.pin" (jobj [("id", Str recent_id); ("pinned", Bool false)]) pinned_recent.

Lemma default_always_connects_witness :
  let a := account_ref released.(w_data) in
  a.(ac_default_connection) = jobj [("type", Str "profile"); ("profileId", Str "proton-default-p2p-v1")] /\
  length a.(ac_recents) = 1%nat /\
  (forall v selection, v ∈ a.(ac_recents) -> is_ok (resolved_recent a v selection) = true) /\
  is_ok (resolve_connection a Null) = true.
Proof.
  cbv zeta. split; [vm_compute; reflexivity|]. split; [vm_compute; reflexivity|].
  assert (H0 : all_accounts (@acc_inv example_lib True) new_world.(w_data)).
  { intros k a H. cbn in H. rewrite lookup_empty in H. discriminate H. }
  assert (Hrun : forall allowed : StoreFile -> Z -> string -> json -> Prop,
    (forall d method params, (method <> "recents.pin" \/ jget "pinned" params = Some (Bool true) \/ pin_keeps params d) ->
       trimmed_profile_id params -> allowed d 0 method params /\ allowed d 7 method params) ->
    rtc (@agent_step flat_text example_lib example_lower (fun _ _ => 7) allowed) new_world released).
  { intros allowed Hal. eapply rtc_l; [apply (agent_activate _ _ (Some " Alice "))|].
    apply (rtc_l _ _ chosen); [apply agent_request; apply Hal; [left; discriminate|intros id; vm_compute; discriminate]|].
    apply (rtc_l _ _ recorded); [apply agent_request; apply Hal; [left; discriminate|intros id; vm_compute; discriminate]|].
    apply (rtc_l _ _ pinned_recent); [apply agent_request; apply Hal; [right; left; reflexivity|intros id; vm_compute; discriminate]|].
    apply rtc_once. apply agent_request. apply Hal; [right; right|intros id; vm_compute; discriminate].
    intros _. vm_compute. lia. }
  assert (Hkeep : forall d method params,
    (method <> "recents.pin" \/ jget "pinned" params = Some (Bool true) \/ pin_keeps params d) ->
    trimmed_profile_id params -> keeping_request d 0 method params /\ keeping_request d 7 method params).
  { intros d method params Hm Ht. split; (split; [split; [lia|exact Ht]|]); intros ->;
      (destruct Hm as [Hm|[Hm|Hm]]; [by destruct Hm|unfold pin_keeps; congruence|exact Hm]). }
  destruct (@default_always_connects flat_text example_lib example_lower (fun _ _ => 7) new_world released H0) as (_ & Hrec & _ & Hdef).
  - apply Hrun. intros d method params Hm Ht. split; split; [lia|exact Ht|lia|exact Ht].
  - split; [exact Hrec|]. apply Hdef; [apply Hrun; exact Hkeep|reflexivity].
Defined.

(** *** What the invariant excludes *)

(** Releasing a pinned recent can drop the target of the default connection. *)
Definition recent_entry (n : Z) (pin : bool) : json :=
  jobj [("id", Str (dec n)); ("kind", Str "country"); ("countryCode", Str "FR"); ("city", Str (dec n));
        ("pinned", Bool pin); ("pinTimeMs", jnum n); ("lastConnectionTimeMs", jnum n)].
Definition pinned_default : StoreFile :=
  put_account LEGACY_SCOPE
    (mkAccount [] (recent_entry 1 true :: map (fun n => recent_entry n false) [7; 6; 5; 4; 3; 2]) []
       (jobj [("type", Str "recent"); ("recentId", Str "1")]) (jobj [])) StoreFile_default.

Lemma unpin_drops_default :
  is_ok (resolve_connection (account_ref pinned_default) Null) = true /\
  let '(r, d) := pin_recent 9 (jobj [("id", Str "1"); ("pinned", Bool false)]) pinned_default in
  is_ok r = true /\ is_ok (resolve_connection (account_ref d) Null) = false.
Proof. vm_compute. repeat split. Qed.

(** A refused change of preferences stays in memory, unpublished, and the next successful request
    persists it. *)
Lemma refused_preferences_stay :
  let params := jobj [("locale", Str "fr"); ("auto_connect", Str "yes")] in
  let '(r, w) := @request_inner flat_text example_lib 0 0 "preferences.set" params new_world in
  is_ok r = false /\ w.(w_data).(sf_onboarding).(ob_locale) = "fr" /\
  cs_locale (ss_store (snapshot w.(w_coord))) = "en".
Proof. vm_compute. repeat split. Qed.

(** A profile saved under an identifier with surrounding space can be neither resolved nor deleted. *)
Lemma padded_profile_unreachable :
  let params := jobj [("profile", jobj [("id", Str " p "); ("name", Str "n")])] in
  let '(r, d) := @save_profile example_lib 0 0 params StoreFile_default in
  let '(deleted, _) := delete_profile (jobj [("id", Str " p ")]) d in
  is_ok r = true /\ map value_id (account_ref d).(ac_profiles) = [Some " p "] /\
  deleted = Ok (jobj [("deleted", Bool false)]) /\
  is_ok (@resolve_connection (account_ref d)
    (jobj [("selection", jobj [("type", Str "profile"); ("profileId", Str " p ")])])) = false.
Proof. vm_compute. repeat split. Qed.
