(* ===== verification/SplitRouting.v ===== *)
(** Policy routing of the split-tunnelling daemon ([splitd/src/routing.rs]): the [ip] commands that
    install and remove a user's bypass routes, and their rollback.

    The external [ip] program answers arbitrarily: it is a function of the commands run so far.  The
    world is the trace of commands with their answers; [installed] reads off it which routes and
    rules of the daemon are in the kernel. *)
From S2P Require Export Io Json SplitModel Bpf.
Open Scope string_scope.
Open Scope Z_scope.
Open Scope list_scope.
Open Scope rust_scope.

Definition ROUTE_TABLE_BASE : Z := 30000.
Definition RULE_PRIORITY_BASE : Z := 12000.
Definition ROUTE_PROTOCOL : Z := 242.

(** ** Routes *)
Inductive AddressFamily : Type :=
  | Ipv4
  | Ipv6.

#[export] Instance AddressFamily_eq_dec : EqDecision AddressFamily.
Proof. solve_decision. Defined.

Record PhysicalRoute : Type := mkRoute {
  pr_family : AddressFamily;
  pr_gateway : option IpAddr;
  pr_interface : string }.

#[export] Instance PhysicalRoute_eq_dec : EqDecision PhysicalRoute.
Proof. solve_decision. Defined.

Definition is_proton_interface (interface : string) : bool :=
  existsb (String.eqb interface)
    ["proton0"; "pvpnksintrf0"; "pvpnksintrf1"; "ipv6leakintrf0"; "ipv6leakintrf1"]
  || starts_with "pvpnrouteintrf" interface.

Definition interface_char (a : ascii) : bool :=
  is_ascii_alphanumeric a || existsb (Ascii.eqb a) ["_"; "-"; "."; ":"]%char.

(** [IFNAMSIZ - 1]. *)
Definition MAX_INTERFACE_LEN : Z := 15.

Definition interface_error (interface : string) : option string :=
  if is_empty interface || (MAX_INTERFACE_LEN <? str_len interface)
     || negb (str_forall interface_char interface)
  then Some "route interface name is invalid"
  else if is_proton_interface interface
  then Some "the bypass route must use a physical interface"
  else None.

Definition family_matches (family : AddressFamily) (gateway : IpAddr) : bool :=
  match family, gateway with
  | Ipv4, IpV4 _ | Ipv6, IpV6 _ => true
  | _, _ => false
  end.

Definition family_name (f : AddressFamily) : string :=
  match f with Ipv4 => "ipv4" | Ipv6 => "ipv6" end.

Section Parse.
Context {L : IpLib}.

Definition PhysicalRoute_parse (family gateway interface : string) : result PhysicalRoute string :=
  let? family :=
    (if String.eqb family "ipv4" then Ok Ipv4
     else if String.eqb family "ipv6" then Ok Ipv6
     else Err "route family must be ipv4 or ipv6") in
  match interface_error interface with
  | Some e => Err e
  | None =>
      let? gateway :=
        (if is_empty (trim gateway) then Ok None
         else match addr_from_str gateway with
              | Some a => Ok (Some a)
              | None => Err "route gateway is not an IP address"
              end) in
      if match gateway with Some g => negb (family_matches family g) | None => false end
      then Err "route gateway family does not match"
      else Ok (mkRoute family gateway interface)
  end.

Definition validated (r : PhysicalRoute) : result PhysicalRoute string :=
  PhysicalRoute_parse (family_name r.(pr_family))
    (match r.(pr_gateway) with Some g => addr_to_string g | None => "" end) r.(pr_interface).
End Parse.

(** ** The derived order of [BTreeSet<PhysicalRoute>] *)
Definition cmp_then (c d : comparison) : comparison := match c with Eq => d | _ => c end.

Fixpoint list_cmp {A : Type} (cmp : A -> A -> comparison) (l1 l2 : list A) : comparison :=
  match l1, l2 with
  | [], [] => Eq
  | [], _ => Lt
  | _, [] => Gt
  | x :: l1, y :: l2 => cmp_then (cmp x y) (list_cmp cmp l1 l2)
  end.

Definition addr_cmp (a b : IpAddr) : comparison :=
  match a, b with
  | IpV4 x, IpV4 y | IpV6 x, IpV6 y => list_cmp Z.compare x y
  | IpV4 _, IpV6 _ => Lt
  | IpV6 _, IpV4 _ => Gt
  end.

Definition option_cmp {A : Type} (cmp : A -> A -> comparison) (a b : option A) : comparison :=
  match a, b with
  | None, None => Eq
  | None, Some _ => Lt
  | Some _, None => Gt
  | Some x, Some y => cmp x y
  end.

Definition family_cmp (a b : AddressFamily) : comparison :=
  match a, b with
  | Ipv4, Ipv6 => Lt
  | Ipv6, Ipv4 => Gt
  | _, _ => Eq
  end.

Definition route_cmp (a b : PhysicalRoute) : comparison :=
  cmp_then (family_cmp a.(pr_family) b.(pr_family))
    (cmp_then (option_cmp addr_cmp a.(pr_gateway) b.(pr_gateway))
       (list_cmp (fun x y => Z.compare (byte x) (byte y))
          (String.list_ascii_of_string a.(pr_interface))
          (String.list_ascii_of_string b.(pr_interface)))).

(** Insertion in a sorted vector without repetitions. *)
Fixpoint btree_insert {A : Type} (cmp : A -> A -> comparison) (x : A) (l : list A) : list A :=
  match l with
  | [] => [x]
  | y :: l' =>
      match cmp x y with
      | Lt => x :: l
      | Eq => l
      | Gt => y :: btree_insert cmp x l'
      end
  end.
Definition btree_of {A : Type} (cmp : A -> A -> comparison) (l : list A) : list A :=
  foldl (fun s x => btree_insert cmp x s) [] l.

Definition preferred_routes (routes : list PhysicalRoute) : list PhysicalRoute :=
  let unique := btree_of route_cmp routes in
  filter_map (fun family => find_first (fun r => bool_decide (r.(pr_family) = family)) unique)
    [Ipv4; Ipv6].

Definition route_families (routes : list PhysicalRoute) : list AddressFamily :=
  btree_of family_cmp (map pr_family routes).

(** ** Commands *)
Record RouteCommand : Type := mkRouteCommand {
  rc_add : list string;
  rc_delete : list string }.

Record RuleSpec : Type := mkRuleSpec {
  rs_family : string;
  rs_table : string;
  rs_add_rule : list string;
  rs_delete_rule : list string }.

Definition family_flag (f : AddressFamily) : string := match f with Ipv4 => "-4" | Ipv6 => "-6" end.
Definition table_of (uid : Z) : string := dec (ROUTE_TABLE_BASE + uid).
Definition rule_priority (uid : Z) : string := dec (RULE_PRIORITY_BASE + uid).

(** [Vec::insert(2, verb)]. *)
Definition insert_verb (verb : string) (args : list string) : list string :=
  take 2 args ++ verb :: drop 2 args.

Definition rule_args (uid : Z) (family : AddressFamily) : list string :=
  [family_flag family; "rule"; "priority"; rule_priority uid; "fwmark";
   "0x" +:+ hex_fmt 0 FWMARK_VALUE +:+ "/0xffffffff"; "uidrange"; dec uid +:+ "-" +:+ dec uid;
   "lookup"; table_of uid].

Definition rule_spec (uid : Z) (family : AddressFamily) : RuleSpec :=
  mkRuleSpec (family_flag family) (table_of uid)
    (insert_verb "add" (rule_args uid family)) (insert_verb "delete" (rule_args uid family)).

Definition route_command (family table : string) (route : list string) (protocol : string) : RouteCommand :=
  let build verb := [family; "route"; verb; "table"; table] ++ route ++ ["proto"; protocol] in
  mkRouteCommand (build "add") (build "delete").

Section Commands.
Context {L : IpLib}.

Definition route_commands (uid : Z) (r : PhysicalRoute) : list RouteCommand :=
  let spec := rule_spec uid r.(pr_family) in
  let protocol := dec ROUTE_PROTOCOL in
  match r.(pr_gateway) with
  | Some gateway =>
      let prefix := if is_ipv4 gateway then 32 else 128 in
      let destination := addr_to_string gateway +:+ "/" +:+ dec prefix in
      [route_command spec.(rs_family) spec.(rs_table)
         [destination; "dev"; r.(pr_interface); "scope"; "link"] protocol;
       route_command spec.(rs_family) spec.(rs_table)
         ["default"; "via"; addr_to_string gateway; "dev"; r.(pr_interface)] protocol]
  | None =>
      [route_command spec.(rs_family) spec.(rs_table) ["default"; "dev"; r.(pr_interface)] protocol]
  end.

(** ** Running the commands *)
Definition trace : Type := list (list string * result string string).

(** The [ip] program: standard output, or the text of the error.  [json_array] is
    [serde_json::from_slice::<Vec<Value>>]. *)
Context (ip : trace -> list string -> result string string).
Context (json_array : string -> result (list json) string).

Definition run_ip (args : list string) : M trace string := fun t =>
  let r := ip t args in
  (res_map_err io_other r, t ++ [(args, r)]).

Definition command_state_absent (e : io_error) : bool :=
  let value := to_ascii_lowercase e.(io_text) in
  str_contains "no such file" value || str_contains "no such process" value.

Definition routing_table_absent (e : io_error) : bool :=
  str_contains "fib table does not exist" (to_ascii_lowercase e.(io_text)).

(** Run a deletion; the state being absent already is as good. *)
Definition run_delete (args : list string) : M trace unit :=
  attempt (run_ip args) (fun r =>
    match r with
    | Ok _ => ret tt
    | Err e => if command_state_absent e then ret tt else throw e
    end).

Definition disable (uid : Z) (routes : list PhysicalRoute) : M trace unit :=
  for_each (fun family => run_delete (rule_spec uid family).(rs_delete_rule)) (route_families routes) ;;!
  for_each (fun route => for_each (fun command => run_delete command.(rc_delete))
                           (rev (route_commands uid route))) (rev routes).

(** [install_route]: the loop over the commands, with the deletions of those already done. *)
Fixpoint install_commands (commands : list RouteCommand) (installed : list (list string)) : M trace unit :=
  match commands with
  | [] => ret tt
  | command :: commands =>
      attempt (run_ip command.(rc_add)) (fun r =>
        match r with
        | Err e => for_each (fun rollback => ignore (run_ip rollback)) (rev installed) ;;! throw e
        | Ok _ => install_commands commands (installed ++ [command.(rc_delete)])
        end)
  end.
Definition install_route (uid : Z) (route : PhysicalRoute) : M trace unit :=
  install_commands (route_commands uid route) [].

Definition route_inventory (family table : string) : M trace string :=
  attempt (run_ip [family; "-json"; "route"; "show"; "table"; table]) (fun r =>
    match r with
    | Ok value => ret value
    | Err e => if routing_table_absent e then ret "[]" else throw e
    end).
Definition rule_inventory (family : string) (uid : Z) : M trace string :=
  run_ip [family; "-json"; "rule"; "show"; "priority"; rule_priority uid].

Definition inventory (value : string) : result (list json) io_error :=
  res_map_err (fun error => mkIoError InvalidData ("ip returned an invalid JSON inventory: " +:+ error)) (json_array value).
Definition inventory_len (value : string) : result Z io_error :=
  res_map vec_len (inventory value).
Definition inventory_is_empty (value : string) : result bool io_error :=
  res_map (fun n => n =? 0) (inventory_len value).

Definition protocol_is_owned (route : json) : bool :=
  match jget "protocol" route with
  | Some p => bool_decide (as_u64 p = Some ROUTE_PROTOCOL)
              || bool_decide ((as_str p ?> parse_uint 32) = Some ROUTE_PROTOCOL)
  | None => false
  end.
Definition route_inventory_is_owned (value : string) (expected : Z) : result bool io_error :=
  res_map (fun routes => (vec_len routes =? expected) && forallb protocol_is_owned routes)
    (inventory value).

Definition collision (uid : Z) : io_error := mkIoError AlreadyExists
  ("routing table or rule priority collision for UID " +:+ dec uid +:+ "; no routes were changed").
Definition ownership_changed (uid : Z) : io_error := mkIoError AlreadyExists
  ("routing ownership changed while configuring UID " +:+ dec uid).

Definition ensure_family_available (uid : Z) (family : AddressFamily) : M trace unit :=
  let spec := rule_spec uid family in
  let! routes := route_inventory spec.(rs_family) spec.(rs_table) in
  let! rules := rule_inventory spec.(rs_family) uid in
  let! no_routes := of_result (inventory_is_empty routes) in
  if negb no_routes then throw (collision uid)
  else
    let! no_rules := of_result (inventory_is_empty rules) in
    if negb no_rules then throw (collision uid) else ret tt.

Definition expected_routes (uid : Z) (family : AddressFamily) (routes : list PhysicalRoute) : Z :=
  foldr Z.add 0 (map (fun r => vec_len (route_commands uid r))
    (retain (fun r => bool_decide (r.(pr_family) = family)) routes)).

Definition verify_family_ownership (uid : Z) (family : AddressFamily) (routes : list PhysicalRoute)
    : M trace unit :=
  let spec := rule_spec uid family in
  let! found_routes := route_inventory spec.(rs_family) spec.(rs_table) in
  let! found_rules := rule_inventory spec.(rs_family) uid in
  let! owned := of_result (route_inventory_is_owned found_routes (expected_routes uid family routes)) in
  if negb owned then throw (ownership_changed uid)
  else
    let! n := of_result (inventory_len found_rules) in
    if negb (n =? 1) then throw (ownership_changed uid) else ret tt.

(** Run [m]; on an error, clean up everything and return the error. *)
Definition or_disable (uid : Z) (routes : list PhysicalRoute) {A : Type} (m : M trace A) : M trace unit :=
  attempt m (fun r =>
    match r with
    | Ok _ => ret tt
    | Err e => ignore (disable uid routes) ;;! throw e
    end).

Definition enable (uid : Z) (routes : list PhysicalRoute) : M trace (list PhysicalRoute) :=
  let routes := preferred_routes routes in
  match routes with
  | [] => throw (mkIoError NotFound "no physical default route is available for split tunneling")
  | _ =>
      let families := route_families routes in
      for_each (ensure_family_available uid) families ;;!
      for_each (fun route => or_disable uid routes (install_route uid route)) routes ;;!
      for_each (fun family => or_disable uid routes (run_ip (rule_spec uid family).(rs_add_rule))) families ;;!
      for_each (fun family => or_disable uid routes (verify_family_ownership uid family routes)) families ;;!
      ret routes
  end.
End Commands.

(** ** The daemon's objects in the kernel *)

(** A route or rule is named by its command without the verb. *)
Definition object_of (args : list string) : option (bool * list string) :=
  match args with
  | f :: t :: verb :: rest =>
      if String.eqb verb "add" then Some (true, f :: t :: rest)
      else if String.eqb verb "delete" then Some (false, f :: t :: rest)
      else None
  | _ => None
  end.

(** The documented effect of a command: a successful [add] makes its object present, a successful
    [delete], or one that finds the object absent, leaves it absent. *)
Definition effect (s : gset (list string)) (entry : list string * result string string)
    : gset (list string) :=
  match object_of entry.1 with
  | Some (true, o) => if is_ok entry.2 then {[o]} ∪ s else s
  | Some (false, o) =>
      match entry.2 with
      | Ok _ => s ∖ {[o]}
      | Err e => if command_state_absent (io_other e) then s ∖ {[o]} else s
      end
  | None => s
  end.

Definition installed (t : trace) : gset (list string) := foldl effect ∅ t.

Definition route_object (family table : string) (route : list string) (protocol : string) : list string :=
  [family; "route"; "table"; table] ++ route ++ ["proto"; protocol].

Lemma installed_snoc t x : installed (t ++ [x]) = effect (installed t) x.
Proof. unfold installed. by rewrite foldl_app. Qed.

Lemma object_insert_verb verb f t rest :
  object_of (insert_verb verb (f :: t :: rest)) =
  if String.eqb verb "add" then Some (true, f :: t :: rest)
  else if String.eqb verb "delete" then Some (false, f :: t :: rest) else None.
Proof. done. Qed.

Lemma effect_other s entry o :
  (forall b, object_of entry.1 <> Some (b, o)) -> o ∈ effect s entry <-> o ∈ s.
Proof.
  intros Ho. unfold effect. destruct (object_of entry.1) as [[b o']|]; [|done].
  assert (o <> o') by (intros ->; by apply (Ho b)).
  assert (H1 : o ∈ {[o']} ∪ s <-> o ∈ s) by (rewrite elem_of_union, elem_of_singleton; tauto).
  assert (H2 : o ∈ s ∖ {[o']} <-> o ∈ s) by (rewrite elem_of_difference, elem_of_singleton; tauto).
  destruct b; [by destruct (is_ok _)|].
  destruct entry.2; [done|]. by destruct (command_state_absent _).
Qed.

Lemma elem_of_reverse' {A : Type} (x : A) l : x ∈ rev l <-> x ∈ l.
Proof. by rewrite !list_elem_of_In, <- in_rev. Qed.

(** *** Sets built by insertion *)
Lemma btree_insert_elem {A : Type} (cmp : A -> A -> comparison) x l y :
  (forall a b, cmp a b = Eq -> a = b) ->
  y ∈ btree_insert cmp x l <-> y = x \/ y ∈ l.
Proof.
  intros Hcmp. induction l as [|z l IH]; simpl.
  - rewrite elem_of_cons, elem_of_nil. tauto.
  - destruct (cmp x z) eqn:E.
    + apply Hcmp in E as ->. rewrite elem_of_cons. tauto.
    + rewrite !elem_of_cons. tauto.
    + rewrite !elem_of_cons, IH. tauto.
Qed.

Lemma btree_of_elem {A : Type} (cmp : A -> A -> comparison) l y :
  (forall a b, cmp a b = Eq -> a = b) -> y ∈ btree_of cmp l <-> y ∈ l.
Proof.
  intros Hcmp. unfold btree_of.
  assert (H : forall acc, y ∈ foldl (fun s x => btree_insert cmp x s) acc l <-> y ∈ acc \/ y ∈ l).
  { induction l as [|x l IH]; intros acc; simpl; [rewrite elem_of_nil; tauto|].
    rewrite IH, btree_insert_elem, elem_of_cons by done. tauto. }
  rewrite H, elem_of_nil. tauto.
Qed.

Lemma route_families_elem f routes : f ∈ route_families routes <-> f ∈ map pr_family routes.
Proof. apply btree_of_elem. by intros [] []. Qed.

Section Objects.
Context {L : IpLib}.
Context (ip : trace -> list string -> result string string) (json_array : string -> result (list json) string).

(** The objects of one route, and all objects of a user's bypass. *)
Definition objects (uid : Z) (r : PhysicalRoute) : list (list string) :=
  map (fun c => take 2 c.(rc_add) ++ drop 3 c.(rc_add)) (route_commands uid r).
Definition owned (uid : Z) (routes : list PhysicalRoute) (o : list string) : Prop :=
  (exists f, f ∈ map pr_family routes /\ o = rule_args uid f) \/
  (exists r, r ∈ routes /\ o ∈ objects uid r).

Lemma objects_elem uid r o :
  o ∈ objects uid r <->
  exists c, c ∈ route_commands uid r /\ o = take 2 c.(rc_add) ++ drop 3 c.(rc_add).
Proof.
  unfold objects. rewrite list_elem_of_In, in_map_iff.
  split; intros (c & H1 & H2); exists c; rewrite list_elem_of_In in *; done.
Qed.

Lemma command_object uid r c :
  c ∈ route_commands uid r ->
  object_of c.(rc_add) = Some (true, take 2 c.(rc_add) ++ drop 3 c.(rc_add)) /\
  object_of c.(rc_delete) = Some (false, take 2 c.(rc_add) ++ drop 3 c.(rc_add)) /\
  take 2 c.(rc_add) ++ drop 3 c.(rc_add) ∈ objects uid r.
Proof.
  intros Hc. split_and!; [| |apply objects_elem; eauto].
  all: unfold route_commands in Hc; destruct (pr_gateway r) as [g|];
    rewrite ?elem_of_cons, elem_of_nil in Hc; by destruct_or? Hc; subst.
Qed.

(** Commands that only touch objects in [P]. *)
Definition touches (P : list string -> Prop) (args : list string) : Prop :=
  match object_of args with Some (_, o) => P o | None => True end.

(** The world outside [P] is unchanged and the trace grows by commands that touch only [P]. *)
Definition within (P : list string -> Prop) (t0 t : trace) : Prop :=
  exists more, t = t0 ++ more /\ Forall (fun entry => touches P entry.1) more.

Lemma within_installed P t0 t o :
  within P t0 t -> ~ P o -> o ∈ installed t <-> o ∈ installed t0.
Proof.
  intros (more & -> & Hm) Ho. induction more as [|x more IH] using rev_ind; [by rewrite app_nil_r|].
  apply Forall_app in Hm as [Hm Hx]. apply Forall_cons in Hx as [Hx _]. rewrite app_assoc, installed_snoc.
  rewrite <- (IH Hm). apply effect_other. intros b Hb. cbv beta in Hx. unfold touches in Hx. rewrite Hb in Hx. done.
Qed.

Lemma keeps_run_ip P t0 args : touches P args -> keeps (within P t0) (run_ip ip args).
Proof.
  intros Ha t (more & -> & Hm). exists (more ++ [(args, ip (t0 ++ more) args)]). simpl.
  split; [by rewrite app_assoc|]. apply Forall_app. split; [done|]. by constructor.
Qed.

Lemma keeps_run_delete P t0 args : touches P args -> keeps (within P t0) (run_delete ip args).
Proof.
  intros Ha. apply keeps_attempt; [by apply keeps_run_ip|].
  intros [|e]; [apply keeps_ret|]. destruct (command_state_absent e); auto with rust.
Qed.

Lemma touches_rule uid routes f verb :
  f ∈ map pr_family routes -> touches (owned uid routes) (insert_verb verb (rule_args uid f)).
Proof.
  intros Hf. unfold touches. unfold rule_args. rewrite object_insert_verb.
  destruct (String.eqb verb "add"); [left; eauto|]. destruct (String.eqb verb "delete"); [left; eauto|done].
Qed.

Lemma touches_command uid routes r c :
  r ∈ routes -> c ∈ route_commands uid r ->
  touches (owned uid routes) c.(rc_add) /\ touches (owned uid routes) c.(rc_delete).
Proof.
  intros Hr Hc. destruct (command_object uid r c Hc) as (H1 & H2 & H3).
  unfold touches. rewrite H1, H2. split; right; eauto.
Qed.

Lemma keeps_disable uid routes t0 :
  keeps (within (owned uid routes) t0) (disable ip uid routes).
Proof.
  apply keeps_bind; [|intros _]; apply keeps_for_each; intros x Hx.
  - apply keeps_run_delete. apply touches_rule. by apply route_families_elem in Hx.
  - rewrite elem_of_reverse' in Hx. apply keeps_for_each. intros c Hc. rewrite elem_of_reverse' in Hc.
    apply keeps_run_delete. by eapply touches_command.
Qed.

Lemma keeps_install uid routes r t0 :
  r ∈ routes -> keeps (within (owned uid routes) t0) (install_route ip uid r).
Proof.
  intros Hr. unfold install_route.
  assert (Hi : forall cs done_,
    (forall c, c ∈ cs -> c ∈ route_commands uid r) ->
    (forall d, d ∈ done_ -> touches (owned uid routes) d) ->
    keeps (within (owned uid routes) t0) (install_commands ip cs done_)).
  { induction cs as [|c cs IH]; intros done_ Hcs Hd; [apply keeps_ret|].
    destruct (touches_command uid routes r c Hr (Hcs c ltac:(left))) as [Ha Hdel].
    apply keeps_attempt; [by apply keeps_run_ip|]. intros [v|e].
    - apply IH; [intros c' Hc'; apply Hcs; by right|].
      intros d. rewrite elem_of_app, list_elem_of_singleton. intros [Hin| ->]; auto.
    - apply keeps_bind; [|auto with rust]. apply keeps_for_each. intros d Hd'.
      rewrite elem_of_reverse' in Hd'. apply keeps_ignore, keeps_run_ip. auto. }
  apply Hi; [done|]. intros d Hd. by apply elem_of_nil in Hd.
Qed.

Lemma keeps_or_disable {A : Type} uid routes (m : M trace A) t0 :
  keeps (within (owned uid routes) t0) m ->
  keeps (within (owned uid routes) t0) (or_disable ip uid routes m).
Proof.
  intros Hm. apply keeps_attempt; [done|]. intros [a|e]; [apply keeps_ret|].
  apply keeps_bind; [apply keeps_ignore, keeps_disable|]. intros _. apply keeps_throw.
Qed.

(** Reading the inventories touches nothing. *)
Lemma keeps_route_inventory P f table t0 : keeps (within P t0) (route_inventory ip f table).
Proof.
  apply keeps_attempt; [by apply keeps_run_ip|]. intros [v|e]; [apply keeps_ret|].
  destruct (routing_table_absent e); auto with rust.
Qed.

Lemma keeps_ensure P uid f t0 : keeps (within P t0) (ensure_family_available ip json_array uid f).
Proof.
  apply keeps_bind; [apply keeps_route_inventory|]. intros routes.
  apply keeps_bind; [by apply keeps_run_ip|]. intros rules.
  apply keeps_bind; [apply keeps_of_result|]. intros []; simpl; [|apply keeps_throw].
  apply keeps_bind; [apply keeps_of_result|]. intros []; simpl; auto with rust.
Qed.

Lemma keeps_verify P uid f routes t0 :
  keeps (within P t0) (verify_family_ownership ip json_array uid f routes).
Proof.
  apply keeps_bind; [apply keeps_route_inventory|]. intros found.
  apply keeps_bind; [by apply keeps_run_ip|]. intros rules.
  apply keeps_bind; [apply keeps_of_result|]. intros []; simpl; [|apply keeps_throw].
  apply keeps_bind; [apply keeps_of_result|]. intros n. destruct (n =? 1); simpl; auto with rust.
Qed.

Lemma keeps_enable uid routes t0 :
  keeps (within (owned uid (preferred_routes routes)) t0) (enable ip json_array uid routes).
Proof.
  unfold enable. destruct (preferred_routes routes) as [|r rs] eqn:E; [apply keeps_throw|].
  rewrite <- E. apply keeps_bind; [apply keeps_for_each; intros; apply keeps_ensure|]. intros _.
  apply keeps_bind; [apply keeps_for_each; intros; by apply keeps_or_disable, keeps_install|]. intros _.
  apply keeps_bind; [|intros _].
  { apply keeps_for_each. intros f Hf. apply keeps_or_disable, keeps_run_ip, touches_rule.
    by apply route_families_elem in Hf. }
  apply keeps_bind; [apply keeps_for_each; intros; by apply keeps_or_disable, keeps_verify|].
  intros _. apply keeps_ret.
Qed.

(** *** Deletions *)
Lemma run_delete_Ok args o t t' :
  object_of args = Some (false, o) -> run_delete ip args t = (Ok tt, t') ->
  installed t' = installed t ∖ {[o]}.
Proof.
  intros Ho. unfold run_delete, attempt, run_ip. destruct (ip t args) as [v|e] eqn:E; simpl.
  - intros [= <-]. rewrite installed_snoc. unfold effect. simpl. by rewrite Ho.
  - destruct (command_state_absent (io_other e)) eqn:Ea; [|discriminate]. intros [= <-].
    rewrite installed_snoc. unfold effect. simpl. by rewrite Ho, Ea.
Qed.

Lemma deleted_absent args o t t' :
  object_of args = Some (false, o) -> run_delete ip args t = (Ok tt, t') -> o ∉ installed t'.
Proof.
  intros Ho E. rewrite (run_delete_Ok _ _ _ _ Ho E). intros [_ Hn]%elem_of_difference.
  by apply Hn, elem_of_singleton.
Qed.

Lemma absent_kept o args :
  (exists o', object_of args = Some (false, o')) ->
  keeps_ok (fun t => o ∉ installed t) (run_delete ip args).
Proof.
  intros [o' Ho'] t [] t' Ht E. apply (run_delete_Ok _ o') in E; [|done].
  rewrite E. intros Hin. apply Ht. by apply elem_of_difference in Hin as [? _].
Qed.

Lemma rule_delete_object uid f :
  object_of (rule_spec uid f).(rs_delete_rule) = Some (false, rule_args uid f).
Proof. done. Qed.

Lemma disable_Ok uid routes t t' :
  disable ip uid routes t = (Ok tt, t') -> forall o, owned uid routes o -> o ∉ installed t'.
Proof.
  intros ([] & t1 & H1 & H2)%bind_Ok o Ho.
  assert (Hroutes : keeps_ok (fun t => o ∉ installed t)
    (for_each (fun route => for_each (fun command => run_delete ip command.(rc_delete))
                              (rev (route_commands uid route))) (rev routes))).
  { apply keeps_ok_for_each. intros r _. apply keeps_ok_for_each. intros c Hc.
    rewrite elem_of_reverse' in Hc. apply absent_kept. destruct (command_object uid r c Hc) as (_ & H & _). eauto. }
  destruct Ho as [(f & Hf & ->)|(r & Hr & Ho)].
  - eapply Hroutes; [|exact H2].
    eapply (for_each_establishes (fun t => rule_args uid f ∉ installed t)); [| | |exact H1].
    + by apply route_families_elem.
    + intros s s' Hs. by apply (deleted_absent _ _ _ _ (rule_delete_object uid f) Hs).
    + intros f' _. apply absent_kept. eauto using rule_delete_object.
  - apply objects_elem in Ho as (c & Hc & ->). destruct (command_object uid r c Hc) as (_ & Hd & _).
    set (o := take 2 _ ++ _) in *.
    assert (Hkeep : forall r' c', c' ∈ rev (route_commands uid r') ->
      keeps_ok (fun t => o ∉ installed t) (run_delete ip c'.(rc_delete))).
    { intros r' c' Hc'. rewrite elem_of_reverse' in Hc'. apply absent_kept.
      destruct (command_object uid r' c' Hc') as (_ & H & _). eauto. }
    eapply (for_each_establishes (fun t => o ∉ installed t) _ _ r); [by apply elem_of_reverse'| | |exact H2].
    + intros s s' Hs. simpl in Hs.
      eapply (for_each_establishes (fun t => o ∉ installed t) _ _ c);
        [by apply elem_of_reverse'| |intros c' Hc'; by apply (Hkeep r)|exact Hs].
      intros s1 s1' Hs1. simpl in Hs1. by apply (deleted_absent _ _ _ _ Hd Hs1).
    + intros r' _. apply keeps_ok_for_each. apply Hkeep.
Qed.

(** *** Additions *)
Lemma run_add_Ok args o t v t' :
  object_of args = Some (true, o) -> run_ip ip args t = (Ok v, t') ->
  installed t' = {[o]} ∪ installed t.
Proof.
  intros Ho. unfold run_ip. destruct (ip t args) as [v'|e] eqn:E; simpl; [|discriminate].
  intros [= <- <-]. rewrite installed_snoc. unfold effect. simpl. by rewrite Ho.
Qed.

Lemma added_present args o t v t' :
  object_of args = Some (true, o) -> run_ip ip args t = (Ok v, t') -> o ∈ installed t'.
Proof. intros Ho E. rewrite (run_add_Ok _ _ _ _ _ Ho E). apply elem_of_union. left. by apply elem_of_singleton. Qed.

Lemma present_kept_add args o :
  (exists o', object_of args = Some (true, o')) -> keeps_ok (fun t => o ∈ installed t) (run_ip ip args).
Proof.
  intros [o' Ho'] t v t' Ht E. rewrite (run_add_Ok _ _ _ _ _ Ho' E). apply elem_of_union. by right.
Qed.

Lemma present_kept_read {A : Type} (m : M trace A) o :
  (forall t0, keeps (within (fun _ => False) t0) m) -> keeps_ok (fun t => o ∈ installed t) m.
Proof.
  intros Hm t a t' Ht E. specialize (Hm t t). rewrite E in Hm.
  eapply (within_installed (fun _ => False)); [apply Hm|tauto|done].
  exists []. split; [by rewrite app_nil_r|constructor].
Qed.

Lemma or_disable_Ok {A : Type} uid routes (m : M trace A) t t' :
  or_disable ip uid routes m t = (Ok tt, t') -> exists a, m t = (Ok a, t').
Proof.
  unfold or_disable, attempt. destruct (m t) as [[a|e] t1]; [intros [= <-]; eauto|].
  unfold bind. destruct (ignore _ _) as [[u|e'] t2]; discriminate.
Qed.

Lemma keeps_ok_or_disable {A : Type} uid routes (m : M trace A) P :
  keeps_ok P m -> keeps_ok P (or_disable ip uid routes m).
Proof. intros Hm t [] t' Ht (a & E)%or_disable_Ok. by eapply Hm. Qed.

Lemma install_commands_Ok uid r cs done_ t t' :
  (forall c, c ∈ cs -> c ∈ route_commands uid r) ->
  install_commands ip cs done_ t = (Ok tt, t') ->
  (forall o, o ∈ installed t -> o ∈ installed t') /\
  (forall c, c ∈ cs -> take 2 c.(rc_add) ++ drop 3 c.(rc_add) ∈ installed t').
Proof.
  revert done_ t. induction cs as [|c cs IH]; intros done_ t Hcs.
  - intros [= <-]. split; [done|]. intros c Hc. by apply elem_of_nil in Hc.
  - simpl. unfold attempt. destruct (run_ip ip (rc_add c) t) as [[v|e] t1] eqn:E.
    + intros H. apply IH in H as [H1 H2]; [|intros c' Hc'; apply Hcs; by right].
      destruct (command_object uid r c (Hcs c ltac:(left))) as (Ho & _).
      split.
      * intros o Hin. apply H1. by apply (present_kept_add _ o (ex_intro _ _ Ho) t v t1).
      * intros c' [->|Hc']%elem_of_cons; [|auto]. apply H1. by apply (added_present _ _ _ _ _ Ho E).
    + unfold bind. destruct (for_each _ _ _) as [[u|e'] t2]; discriminate.
Qed.

Lemma install_route_Ok uid r t t' :
  install_route ip uid r t = (Ok tt, t') ->
  (forall o, o ∈ installed t -> o ∈ installed t') /\ (forall o, o ∈ objects uid r -> o ∈ installed t').
Proof.
  intros H. apply (install_commands_Ok uid r) in H as [H1 H2]; [|done]. split; [done|].
  intros o (c & Hc & ->)%objects_elem. auto.
Qed.

Lemma keeps_ok_install uid r o : keeps_ok (fun t => o ∈ installed t) (install_route ip uid r).
Proof. intros t [] t' Ht E. apply install_route_Ok in E as [H _]. auto. Qed.

Lemma rule_add_object uid f : object_of (rule_spec uid f).(rs_add_rule) = Some (true, rule_args uid f).
Proof. done. Qed.

Lemma enable_Ok uid routes t rs t' :
  enable ip json_array uid routes t = (Ok rs, t') ->
  rs = preferred_routes routes /\ rs <> [] /\ forall o, owned uid rs o -> o ∈ installed t'.
Proof.
  unfold enable. destruct (preferred_routes routes) as [|r0 rs0] eqn:E; [discriminate|]. rewrite <- E.
  intros ([] & t1 & H1 & ([] & t2 & H2 & ([] & t3 & H3 & ([] & t4 & H4 & H5)%bind_Ok)%bind_Ok)%bind_Ok)%bind_Ok.
  injection H5 as <- <-. split; [done|]. split; [by rewrite E|].
  assert (Hrules : forall o, keeps_ok (fun t => o ∈ installed t)
    (for_each (fun family => or_disable ip uid (preferred_routes routes) (run_ip ip (rule_spec uid family).(rs_add_rule)))
      (route_families (preferred_routes routes)))).
  { intros o. apply keeps_ok_for_each. intros f _. apply keeps_ok_or_disable, present_kept_add.
    eauto using rule_add_object. }
  assert (Hverify : forall o, o ∈ installed t3 -> o ∈ installed t4).
  { intros o Ho. revert H4. apply (keeps_ok_for_each (fun t => o ∈ installed t)); [|exact Ho].
    intros f _. apply keeps_ok_or_disable, present_kept_read. intros t0. apply keeps_verify. }
  intros o [(f & Hf & ->)|(r & Hr & Ho)]; apply Hverify.
  - eapply (for_each_establishes (fun t => rule_args uid f ∈ installed t) _ _ f);
      [by apply route_families_elem| | |exact H3].
    + intros s s' (v & Hv)%or_disable_Ok. by apply (added_present _ _ _ _ _ (rule_add_object uid f) Hv).
    + intros f' _. apply keeps_ok_or_disable, present_kept_add. eauto using rule_add_object.
  - revert H3. apply Hrules.
    eapply (for_each_establishes (fun t => o ∈ installed t) _ _ r); [exact Hr| | |exact H2].
    + intros s s' ([] & Hv)%or_disable_Ok. apply install_route_Ok in Hv as [_ H]. auto.
    + intros r' _. apply keeps_ok_or_disable, keeps_ok_install.
Qed.

(** *** Failures *)

(** [ip] deletes what it is asked to, or reports it absent. *)
Definition deletes_complete : Prop := forall t args o,
  object_of args = Some (false, o) ->
  match ip t args with Ok _ => True | Err e => command_state_absent (io_other e) = true end.

Lemma run_delete_total args o t :
  deletes_complete -> object_of args = Some (false, o) -> exists t', run_delete ip args t = (Ok tt, t').
Proof.
  intros Hd Ho. specialize (Hd t args o Ho). unfold run_delete, attempt, run_ip.
  destruct (ip t args) as [v|e]; simpl; [by eexists|]. rewrite Hd. by eexists.
Qed.

Lemma disable_total uid routes t :
  deletes_complete -> exists t', disable ip uid routes t = (Ok tt, t').
Proof.
  intros Hd. unfold disable.
  destruct (for_each_total (fun family => run_delete ip (rule_spec uid family).(rs_delete_rule))
    (route_families routes) t) as [t1 H1].
  { intros f s _. by eapply run_delete_total, rule_delete_object. }
  destruct (for_each_total (fun route => for_each (fun command => run_delete ip command.(rc_delete))
    (rev (route_commands uid route))) (rev routes) t1) as [t2 H2].
  { intros r s _. apply for_each_total. intros c s' Hc. rewrite elem_of_reverse' in Hc.
    destruct (command_object uid r c Hc) as (_ & H & _). by eapply run_delete_total. }
  exists t2. unfold bind. by rewrite H1.
Qed.

Lemma or_disable_Err {A : Type} uid routes (m : M trace A) t e t' :
  deletes_complete -> or_disable ip uid routes m t = (Err e, t') ->
  forall o, owned uid routes o -> o ∉ installed t'.
Proof.
  intros Hd. unfold or_disable, attempt at 1. destruct (m t) as [[a|e'] t1]; [discriminate|].
  unfold bind, ignore, attempt. destruct (disable_total uid routes t1 Hd) as [t2 H2]. rewrite H2.
  intros [= _ <-] o Ho. exact (disable_Ok uid routes t1 t2 H2 o Ho).
Qed.

Lemma for_each_or_disable_Err {A B : Type} uid routes (f : B -> M trace A) l t e t' :
  deletes_complete -> for_each (fun x => or_disable ip uid routes (f x)) l t = (Err e, t') ->
  forall o, owned uid routes o -> o ∉ installed t'.
Proof. intros Hd (x & t1 & _ & H)%for_each_Err. exact (or_disable_Err _ _ _ _ _ _ Hd H). Qed.

Lemma enable_Err uid routes t e t' :
  deletes_complete -> enable ip json_array uid routes t = (Err e, t') ->
  (forall o, o ∈ installed t' <-> o ∈ installed t) \/
  (forall o, owned uid (preferred_routes routes) o -> o ∉ installed t').
Proof.
  intros Hd. unfold enable. destruct (preferred_routes routes) as [|r0 rs0] eqn:E;
    [intros [= _ <-]; by left|]. rewrite <- E.
  intros [H1|([] & t1 & H1 & [H2|([] & t2 & H2 & [H3|([] & t3 & H3 & [H4|([] & t4 & H4 & H5)]%bind_Err)]%bind_Err)]%bind_Err)]%bind_Err.
  - left. intros o. eapply (within_installed (fun _ => False)); [|tauto].
    pose proof (keeps_for_each (within (fun _ => False) t) (ensure_family_available ip json_array uid)
      (route_families (preferred_routes routes)) ltac:(intros; apply keeps_ensure) t) as H.
    rewrite H1 in H. apply H. exists []. split; [by rewrite app_nil_r|constructor].
  - right. exact (for_each_or_disable_Err _ _ _ _ _ _ _ Hd H2).
  - right. exact (for_each_or_disable_Err _ _ _ _ _ _ _ Hd H3).
  - right. exact (for_each_or_disable_Err _ _ _ _ _ _ _ Hd H4).
  - discriminate.
Qed.
End Objects.

(** ** Properties *)
Section Properties.
Context {L : IpLib}.
Context (ip : trace -> list string -> result string string) (json_array : string -> result (list json) string).

(** installing a bypass is all or nothing, whatever [ip] answers.  On success every route and
    rule of the chosen routes (at most one per family, never none) is in the kernel; on failure,
    provided deletions do what they are documented to do, either nothing was changed or none of the
    daemon's objects is left behind; everything else in the kernel is untouched in both cases. *)
Theorem enable_all_or_nothing uid routes t :
  let rs := preferred_routes routes in
  let '(r, t') := enable ip json_array uid routes t in
  (forall o, ~ owned uid rs o -> o ∈ installed t' <-> o ∈ installed t) /\
  match r with
  | Ok chosen => chosen = rs /\ rs <> [] /\ forall o, owned uid rs o -> o ∈ installed t'
  | Err _ =>
      deletes_complete ip ->
      (forall o, o ∈ installed t' <-> o ∈ installed t) \/ (forall o, owned uid rs o -> o ∉ installed t')
  end.
Proof.
  intros rs. destruct (enable ip json_array uid routes t) as [r t'] eqn:E. split.
  - intros o. apply within_installed.
    pose proof (keeps_enable ip json_array uid routes t t) as H. rewrite E in H. apply H.
    exists []. split; [by rewrite app_nil_r|constructor].
  - destruct r as [chosen|e]; [by apply enable_Ok in E as (-> & ? & ?)|].
    intros Hd. by eapply enable_Err.
Qed.

(** removing a bypass that reports success leaves none of its routes and rules in the kernel, and
    never touches anything else. *)
Theorem disable_removes_everything uid routes t :
  let '(r, t') := disable ip uid routes t in
  (forall o, ~ owned uid routes o -> o ∈ installed t' <-> o ∈ installed t) /\
  (r = Ok tt -> forall o, owned uid routes o -> o ∉ installed t').
Proof.
  destruct (disable ip uid routes t) as [r t'] eqn:E. split.
  - intros o. apply within_installed.
    pose proof (keeps_disable ip uid routes t t) as H. rewrite E in H. apply H.
    exists []. split; [by rewrite app_nil_r|constructor].
  - intros -> o Ho. exact (disable_Ok ip uid routes t t' E o Ho).
Qed.
End Properties.

Lemma owned_key {L : IpLib} uid routes o :
  owned uid routes o ->
  (o !! 1%nat = Some "rule" /\ o !! 3%nat = Some (rule_priority uid)) \/
  (o !! 1%nat = Some "route" /\ o !! 3%nat = Some (table_of uid)).
Proof.
  intros [(f & _ & ->)|(r & _ & (c & Hc & ->)%objects_elem)]; [by left|right].
  unfold route_commands in Hc. destruct (pr_gateway r);
    rewrite ?elem_of_cons, elem_of_nil in Hc; by destruct_or? Hc; subst.
Qed.

(** users never share routing state.  Rules live at priority [12000 + uid] and routes in table
    [30000 + uid], so an object belongs to the bypass of at most one user, and a user's tables are
    never the system's own (local 255, main 254, default 253). *)
Theorem bypass_scoped_to_user {L : IpLib} u v routes routes' o :
  0 <= u < 2 ^ 16 -> 0 <= v < 2 ^ 16 ->
  owned u routes o -> owned v routes' o ->
  u = v /\ 255 < ROUTE_TABLE_BASE + u /\ (ROUTE_TABLE_BASE + u) < 2 ^ 32.
Proof.
  intros Hu Hv Ho Ho'. apply owned_key in Ho, Ho'. split; [|unfold ROUTE_TABLE_BASE; lia].
  destruct Ho as [[H1 H2]|[H1 H2]], Ho' as [[H1' H2']|[H1' H2']]; try congruence.
  - assert (H : rule_priority u = rule_priority v) by congruence.
    apply dec_inj in H; unfold RULE_PRIORITY_BASE in *; lia.
  - assert (H : table_of u = table_of v) by congruence.
    apply dec_inj in H; unfold ROUTE_TABLE_BASE in *; lia.
Qed.

(** The kernel consults the main table at priority 32766; the bypass rule of a user only precedes it
    for user ids below 20766. *)
Lemma rule_precedes_main uid : RULE_PRIORITY_BASE + uid < 32766 <-> uid < 20766.
Proof. unfold RULE_PRIORITY_BASE. lia. Qed.

(** ** Witnesses *)
(** A kernel that lists nothing and refuses the default route. *)
Definition example_ip (t : trace) (args : list string) : result string string :=
  match object_of args with
  | Some (true, o) => if bool_decide ("default" ∈ o) then Err "Nexthop has invalid gateway" else Ok ""
  | Some (false, o) =>
      if bool_decide (o ∈ installed t) then Ok "" else Err "RTNETLINK answers: No such process"
  | None => Ok "[]"
  end.

Definition example_json (s : string) : result (list json) string := Ok [].

Definition example_route : PhysicalRoute := mkRoute Ipv4 (Some (IpV4 [192; 0; 2; 1])) "wlan0".

Lemma example_deletes : deletes_complete example_ip.
Proof.
  intros t args o Ho. unfold example_ip. rewrite Ho. case_bool_decide; [done|]. vm_compute. reflexivity.
Qed.

Lemma enable_all_or_nothing_witness :
  let '(r, t') := @enable example_lib example_ip example_json 1000 [example_route] [] in
  is_ok r = false /\ length t' = 8%nat /\
  ((forall o, o ∈ installed t' <-> o ∈ installed []) \/
   (forall o, @owned example_lib 1000 [example_route] o -> o ∉ installed t')).
Proof.
  pose proof (@enable_all_or_nothing example_lib example_ip example_json 1000 [example_route] []) as H.
  cbv zeta in H.
  remember (@enable example_lib example_ip example_json 1000 [example_route] []) as p eqn:E.
  vm_compute in E. subst p. split; [reflexivity|]. split; [reflexivity|].
  exact (proj2 H example_deletes).
Defined.

Lemma bypass_scoped_to_user_witness :
  0 <= 1000 < 2 ^ 16 /\ @owned example_lib 1000 [example_route] (rule_args 1000 Ipv4) /\ 1000 = 1000.
Proof.
  assert (Ho : @owned example_lib 1000 [example_route] (rule_args 1000 Ipv4))
    by (left; exists Ipv4; split; [left|reflexivity]).
  split; [lia|]. split; [exact Ho|].
  exact (proj1 (@bypass_scoped_to_user example_lib 1000 1000 [example_route] [example_route]
    (rule_args 1000 Ipv4) ltac:(lia) ltac:(lia) Ho Ho)).
Defined.

Lemma disable_removes_everything_witness :
  let '(r, t') := @disable example_lib example_ip 1000 [example_route] [] in
  r = Ok tt /\ forall o, @owned example_lib 1000 [example_route] o -> o ∉ installed t'.
Proof.
  pose proof (@disable_removes_everything example_lib example_ip 1000 [example_route] []) as H.
  destruct (@disable_total example_lib example_ip 1000 [example_route] [] example_deletes) as [t' E].
  rewrite E in H |- *. split; [reflexivity|]. exact (proj2 H eq_refl).
Defined.
