(* ===== verification/SplitStore.v ===== *)
(** The daemon's durable state ([splitd/src/store.rs]): its JSON schema, the checks of [load], and
    the atomic replacement done by [save].

    The world is the state file, the temporary file and a stream of booleans that decides which
    system calls fail.  The text form of JSON is serde_json's ([JsonText]); the mapping between the
    state and JSON values is the one of the [derive]d implementations. *)
From S2P Require Export SplitRouting Json.
Open Scope string_scope.
Open Scope Z_scope.
Open Scope list_scope.
Open Scope rust_scope.

Definition SCHEMA_VERSION : Z := 2.
Definition MAX_STATE_BYTES : Z := 2 * 1024 * 1024.

Abbreviation BypassMap := (gmap Z (list PhysicalRoute)).

(** [LoadedState]; [StoredState] has the schema version in front. *)
Record LoadedState : Type := mkLoaded {
  ls_configs : ConfigMap;
  ls_policies : PolicyMap;
  ls_bypass : BypassMap }.

Record StoredState : Type := mkStored {
  st_schema_version : Z;
  st_configs : ConfigMap;
  st_policies : PolicyMap;
  st_bypass : BypassMap }.

Definition loaded_default : LoadedState := mkLoaded ∅ ∅ ∅.

(** ** Serialization *)
Definition config_to_json (c : SplitConfig) : json :=
  jobj [("mode", Str (SplitMode_as_str c.(sc_mode)));
        ("app_paths", strs_to_json c.(sc_app_paths));
        ("ip_ranges", strs_to_json c.(sc_ip_ranges))].

Section Serde.
Context {L : IpLib}.

Definition route_to_json (r : PhysicalRoute) : json :=
  jobj [("family", Str (family_name r.(pr_family)));
        ("gateway", jopt (fun g => Str (addr_to_string g)) r.(pr_gateway));
        ("interface", Str r.(pr_interface))].

(** A map with integer keys: the keys become decimal strings. *)
Definition map_to_json {A : Type} (f : A -> json) (m : gmap Z A) : json :=
  Obj (list_to_map (map (fun p => (dec p.1, f p.2)) (map_to_list m))).

Definition stored_to_json (s : StoredState) : json :=
  jobj [("schema_version", jnum s.(st_schema_version));
        ("configs", map_to_json config_to_json s.(st_configs));
        ("destination_policies", map_to_json strs_to_json s.(st_policies));
        ("kill_switch_bypass", map_to_json (fun rs => Arr (map route_to_json rs)) s.(st_bypass))].

Definition config_of_json (j : json) : option SplitConfig :=
  match struct_of ["mode"; "app_paths"; "ip_ranges"] j with
  | Some m =>
      match (m !! "mode") ?> as_str ?> (fun s => res_ok (SplitMode_parse s)),
            m !! "app_paths" ?> strs_of_json, m !! "ip_ranges" ?> strs_of_json with
      | Some mode, Some paths, Some ranges => Some (mkSplitConfig mode paths ranges)
      | _, _, _ => None
      end
  | None => None
  end.

Definition family_of_name (s : string) : option AddressFamily :=
  if String.eqb s "ipv4" then Some Ipv4 else if String.eqb s "ipv6" then Some Ipv6 else None.

(** A missing or null optional field is [None]. *)
Definition gateway_of_json (j : option json) : option (option IpAddr) :=
  match j with
  | None | Some Null => Some None
  | Some (Str s) => match addr_from_str s with Some a => Some (Some a) | None => None end
  | Some _ => None
  end.

Definition route_of_json (j : json) : option PhysicalRoute :=
  match struct_of ["family"; "gateway"; "interface"] j with
  | Some m =>
      match (m !! "family") ?> as_str ?> family_of_name, gateway_of_json (m !! "gateway"),
            m !! "interface" ?> as_str with
      | Some f, Some g, Some i => Some (mkRoute f g i)
      | _, _, _ => None
      end
  | None => None
  end.

(** An integer key: its canonical decimal form, within 16 bits. *)
Definition key_of_string (s : string) : option Z :=
  digits_value 10 0 s ?> u_try_from 16 ?> (fun n => if String.eqb (dec n) s then Some n else None).

Definition map_of_json {A : Type} (g : json -> option A) (j : json) : option (gmap Z A) :=
  match as_object j with
  | Some m =>
      match opt_collect (fun p => match key_of_string p.1, g p.2 with
                                  | Some k, Some v => Some (k, v)
                                  | _, _ => None
                                  end) (map_to_list m) with
      | Some l => Some (list_to_map l)
      | None => None
      end
  | None => None
  end.

(** [#[serde(default)]]. *)
Definition or_default {A : Type} (j : option json) (f : json -> option (gmap Z A)) : option (gmap Z A) :=
  match j with Some j => f j | None => Some ∅ end.

Definition stored_of_json (j : json) : option StoredState :=
  match struct_of ["schema_version"; "configs"; "destination_policies"; "kill_switch_bypass"] j with
  | Some m =>
      match (m !! "schema_version") ?> as_u64 ?> u_try_from 32,
            m !! "configs" ?> map_of_json config_of_json,
            or_default (m !! "destination_policies") (map_of_json strs_of_json),
            or_default (m !! "kill_switch_bypass")
              (map_of_json (fun j => as_array j ?> opt_collect route_of_json)) with
      | Some v, Some c, Some p, Some b => Some (mkStored v c p b)
      | _, _, _, _ => None
      end
  | None => None
  end.

(** ** Checks of [load] *)
Definition DEFAULT_STATE_PATH : string := "/var/lib/proton-vpn-omarchy/split-tunneling-v1.json".
Definition invalid_state (detail : string) : io_error :=
  mkIoError InvalidData ("invalid split-tunneling state " +:+ DEFAULT_STATE_PATH +:+ ": " +:+ detail).

(** [into_iter().map(f).collect::<io::Result<BTreeMap<_, _>>>()]. *)
Definition map_validate {A B : Type} (f : Z -> A -> result B io_error) (m : gmap Z A)
    : result (gmap Z B) io_error :=
  let? l := res_collect (fun p => res_map (fun b => (p.1, b)) (f p.1 p.2)) (map_to_list m) in
  Ok (list_to_map l).

Definition uid_error (uid : Z) (what : string) (e : string) : io_error :=
  invalid_state ("UID " +:+ dec uid +:+ what +:+ e).

Definition check_config (uid : Z) (c : SplitConfig) : result SplitConfig io_error :=
  res_map_err (uid_error uid ": ") (validate c).
Definition check_policy (uid : Z) (ranges : list string) : result (list string) io_error :=
  res_map_err (uid_error uid " policy: ") (validate_ip_ranges ranges).
Definition check_bypass (configs : ConfigMap) (uid : Z) (routes : list PhysicalRoute)
    : result (list PhysicalRoute) io_error :=
  if (vec_len routes =? 0) || (2 <? vec_len routes)
  then Err (uid_error uid " has an invalid bypass-route count" "")
  else if negb (match configs !! uid with Some c => has_rules c | None => false end)
  then Err (uid_error uid " has bypass routes without a split policy" "")
  else
    let? routes := res_map_err (uid_error uid ": ") (res_collect validated routes) in
    if negb (vec_len (route_families routes) =? vec_len routes)
    then Err (uid_error uid " has duplicate bypass-route families" "")
    else Ok routes.

Definition check_stored (s : StoredState) : result LoadedState io_error :=
  if negb ((s.(st_schema_version) =? 1) || (s.(st_schema_version) =? SCHEMA_VERSION))
  then Err (invalid_state ("unsupported schema version " +:+ dec s.(st_schema_version)))
  else if MAX_CONFIGS <? Z.max (Z.of_nat (size s.(st_configs))) (Z.of_nat (size s.(st_policies)))
  then Err (invalid_state "too many configured users")
  else
    let? configs := map_validate check_config s.(st_configs) in
    let? policies := map_validate check_policy s.(st_policies) in
    let? bypass := map_validate (check_bypass configs) s.(st_bypass) in
    Ok (mkLoaded configs policies bypass).

(** ** The file system *)
Record fs : Type := mkFs {
  disk : option string;
  temp : option string;
  fs_faults : list bool }.

(** A system call: it fails when the next fault says so. *)
Definition fs_call (what : string) : M fs unit := fun w =>
  match w.(fs_faults) with
  | true :: rest => (Err (io_other ("unable to " +:+ what)), mkFs w.(disk) w.(temp) rest)
  | false :: rest => (Ok tt, mkFs w.(disk) w.(temp) rest)
  | [] => (Ok tt, w)
  end.
Definition get_fs : M fs fs := fun w => (Ok w, w).
Definition put_disk (d : option string) : M fs unit := fun w => (Ok tt, mkFs d w.(temp) w.(fs_faults)).
Definition put_temp (t : option string) : M fs unit := fun w => (Ok tt, mkFs w.(disk) t w.(fs_faults)).

Context {J : JsonText}.

(** [StateStore]: [true] for the system's file, [false] for the ephemeral store. *)
Definition StateStore : Type := bool.

Definition load (store : StateStore) : M fs LoadedState :=
  if negb store then ret loaded_default
  else
    fs_call "open state" ;;!
    let! w := get_fs in
    match w.(disk) with
    | None => ret loaded_default
    | Some bytes =>
        fs_call "inspect state" ;;!
        if MAX_STATE_BYTES <? str_len bytes then throw (invalid_state "state file exceeds the 2 MiB limit")
        else
          fs_call "read state" ;;!
          match json_parse bytes ?> stored_of_json with
          | None => throw (invalid_state ("invalid JSON: " +:+ json_refusal "StoredState" bytes))
          | Some stored => of_result (check_stored stored)
          end
    end.

Definition state_json (s : LoadedState) : json :=
  stored_to_json (mkStored SCHEMA_VERSION s.(ls_configs) s.(ls_policies) s.(ls_bypass)).
Definition state_text (s : LoadedState) : string := json_print (state_json s).

(** The closure of [save]: write the temporary file, then rename it over the state. *)
Definition write_state (bytes : string) : M fs unit :=
  fs_call "create temporary state" ;;!
  let! w := get_fs in
  match w.(temp) with
  | Some _ => throw (mkIoError AlreadyExists "unable to create temporary state")
  | None =>
      put_temp (Some "") ;;!
      fs_call "write temporary state" ;;!
      put_temp (Some bytes) ;;!
      fs_call "finish temporary state" ;;!
      put_temp (Some (bytes +:+ String "010" "")) ;;!
      fs_call "sync temporary state" ;;!
      fs_call "replace state" ;;!
      put_disk (Some (bytes +:+ String "010" "")) ;;!
      put_temp None ;;!
      fs_call "sync state directory"
  end.

Definition save (store : StateStore) (s : LoadedState) : M fs unit :=
  if negb store then ret tt
  else
    fs_call "create state directory" ;;!
    fs_call "secure state directory" ;;!
    let bytes := state_text s in
    if MAX_STATE_BYTES <? str_len bytes
    then throw (mkIoError InvalidInput "serialized split-tunneling state exceeds the 2 MiB limit")
    else
      attempt (write_state bytes) (fun r =>
        match r with
        | Ok _ => ret tt
        | Err e => ignore (fs_call "remove temporary state" ;;! put_temp None) ;;! throw e
        end).
End Serde.

(** ** Lemmas on collections *)
Lemma key_roundtrip k : 0 <= k < 2 ^ 16 -> key_of_string (dec k) = Some k.
Proof.
  intros Hk. unfold key_of_string. rewrite dec_roundtrip by lia. simpl.
  unfold u_try_from, in_u. replace ((0 <=? k) && (k <? 2 ^ 16)) with true by lia. simpl.
  by rewrite String.eqb_refl.
Qed.

Lemma fst_map_pair {A : Type} (f : A -> json) (l : list (Z * A)) :
  map fst (map (fun p => (dec p.1, f p.2)) l) = map (fun p => dec p.1) l.
Proof. by rewrite map_map. Qed.

Lemma NoDup_dec_keys {A : Type} (m : gmap Z A) :
  (forall k v, m !! k = Some v -> 0 <= k < 2 ^ 16) ->
  NoDup (map (fun p : Z * A => dec p.1) (map_to_list m)).
Proof.
  intros Hk. pose proof (NoDup_fst_map_to_list m) as Hnd.
  assert (Hall : Forall (fun p => 0 <= p.1) (map_to_list m)).
  { apply Forall_forall. intros [k v] Hin%elem_of_map_to_list. apply Hk in Hin. simpl. lia. }
  induction (map_to_list m) as [|p l IH]; [constructor|]. apply Forall_cons in Hall as [Hp Hall].
  rewrite fmap_cons, NoDup_cons in Hnd. destruct Hnd as [Hnot Hnd]. simpl. apply NoDup_cons.
  split; [|auto]. intros (q & Hq & Hin)%list_elem_of_fmap. apply Hnot.
  rewrite Forall_forall in Hall. apply dec_inj in Hq; [|done|by apply Hall].
  rewrite Hq. by apply list_elem_of_fmap_2.
Qed.

(** A map survives serialization when its keys are 16-bit and its values survive. *)
Lemma map_roundtrip {A : Type} (f : A -> json) (g : json -> option A) (m : gmap Z A) :
  (forall k v, m !! k = Some v -> 0 <= k < 2 ^ 16) ->
  (forall k v, m !! k = Some v -> g (f v) = Some v) ->
  map_of_json g (map_to_json f m) = Some m.
Proof.
  intros Hk Hv. unfold map_of_json, map_to_json. simpl.
  assert (Hc : opt_collect (fun p => match key_of_string p.1, g p.2 with
                                     | Some k, Some v => Some (k, v)
                                     | _, _ => None
                                     end) (map (fun p => (dec p.1, f p.2)) (map_to_list m)) =
               Some (map (fun p => p) (map_to_list m))).
  { apply opt_collect_map. intros [k v] Hin%elem_of_map_to_list. simpl.
    rewrite key_roundtrip by eauto. by erewrite Hv. }
  rewrite map_id in Hc.
  eapply opt_collect_perm in Hc as (r & -> & Hr).
  - f_equal. rewrite <- (list_to_map_to_list m). apply list_to_map_proper; [|done].
    rewrite Hr. apply NoDup_fst_map_to_list.
  - apply map_to_list_to_map. change (NoDup (map fst (map (fun p : Z * A => (dec p.1, f p.2)) (map_to_list m)))).
    rewrite fst_map_pair. by apply NoDup_dec_keys.
Qed.

(** ** Well-formed states *)
Section States.
Context {L : IpLib} {LW : IpLaws L} {J : JsonText}.

(** A route as [PhysicalRoute::parse] builds it. *)
Record valid_route (r : PhysicalRoute) : Prop := mkValidRoute {
  vr_interface : interface_error r.(pr_interface) = None;
  vr_gateway : forall g, r.(pr_gateway) = Some g ->
    family_matches r.(pr_family) g = true /\ exists s, addr_from_str s = Some g }.

Record valid_bypass (configs : ConfigMap) (uid : Z) (routes : list PhysicalRoute) : Prop := mkValidBypass {
  vb_nonempty : routes <> [];
  vb_len : (length routes <= 2)%nat;
  vb_families : length (route_families routes) = length routes;
  vb_routes : Forall valid_route routes;
  vb_policy : exists c, configs !! uid = Some c /\ has_rules c = true }.

Definition keys_in {A : Type} (m : gmap Z A) : Prop := forall k v, m !! k = Some v -> 0 <= k < 2 ^ 16.

Record valid_state (s : LoadedState) : Prop := mkValidState {
  vs_config_keys : keys_in s.(ls_configs);
  vs_policy_keys : keys_in s.(ls_policies);
  vs_bypass_keys : keys_in s.(ls_bypass);
  vs_configs : forall uid c, s.(ls_configs) !! uid = Some c -> valid_config c;
  vs_policies : forall uid p, s.(ls_policies) !! uid = Some p -> valid_ranges p;
  vs_bypass : forall uid rs, s.(ls_bypass) !! uid = Some rs -> valid_bypass s.(ls_configs) uid rs;
  vs_users : Z.of_nat (size (dom s.(ls_configs) ∪ dom s.(ls_policies))) <= MAX_CONFIGS }.

Lemma parse_valid_route f g i r : PhysicalRoute_parse f g i = Ok r -> valid_route r.
Proof.
  unfold PhysicalRoute_parse. destruct (if String.eqb f "ipv4" then _ else _) as [fam|]; [|discriminate].
  simpl. destruct (interface_error i) eqn:Hi; [discriminate|].
  destruct (is_empty (trim g)); simpl; [intros [= <-]; split; [done|discriminate]|].
  destruct (addr_from_str g) as [a|] eqn:Ha; [|discriminate]. simpl.
  destruct (family_matches fam a) eqn:Hf; [|discriminate]. intros [= <-].
  split; simpl; [done|]. intros ? [= <-]. eauto.
Qed.

Lemma validated_valid r : valid_route r -> validated r = Ok r.
Proof.
  intros [Hi Hg]. unfold validated, PhysicalRoute_parse. rewrite Hi.
  assert (forall f, (if String.eqb (family_name f) "ipv4" then Ok Ipv4
     else if String.eqb (family_name f) "ipv6" then Ok Ipv6
     else Err "route family must be ipv4 or ipv6") = Ok f) as -> by by intros [].
  simpl. destruct r as [f [g|] i]; simpl in *; [|done].
  destruct (Hg g eq_refl) as (Hm & s & Hs).
  rewrite (addr_text_trim _ _ Hs), (addr_roundtrip _ _ Hs). simpl. by rewrite Hm.
Qed.

Lemma collect_validated rs : Forall valid_route rs -> res_collect validated rs = Ok rs.
Proof. intros H. apply res_collect_Ok. induction H; constructor; auto using validated_valid. Qed.

Lemma config_roundtrip c : config_of_json (config_to_json c) = Some c.
Proof.
  destruct c as [m ps rs]. unfold config_of_json, config_to_json, struct_of.
  assert (forall m ps rs, opt_filter (fields_among ["mode"; "app_paths"; "ip_ranges"])
     (as_object (jobj [("mode", m); ("app_paths", ps); ("ip_ranges", rs)])) =
     as_object (jobj [("mode", m); ("app_paths", ps); ("ip_ranges", rs)])) as -> by done.
  simpl. rewrite !lookup_insert_ne by done. simplify_map_eq. simpl.
  rewrite !strs_roundtrip. by destruct m.
Qed.

Lemma route_roundtrip r : valid_route r -> route_of_json (route_to_json r) = Some r.
Proof.
  intros [_ Hg]. destruct r as [f g i]. unfold route_of_json, route_to_json, struct_of.
  assert (forall a b c, opt_filter (fields_among ["family"; "gateway"; "interface"])
     (as_object (jobj [("family", a); ("gateway", b); ("interface", c)])) =
     as_object (jobj [("family", a); ("gateway", b); ("interface", c)])) as -> by done.
  simpl in *. simplify_map_eq. assert (family_of_name (family_name f) = Some f) as -> by by destruct f.
  destruct g as [g|]; simpl; [|done]. destruct (Hg g eq_refl) as (_ & s & Hs).
  by rewrite (addr_roundtrip _ _ Hs).
Qed.

Lemma routes_roundtrip rs :
  Forall valid_route rs ->
  (as_array (Arr (map route_to_json rs)) ?> opt_collect route_of_json) = Some rs.
Proof.
  intros H. simpl. rewrite (opt_collect_map _ _ (fun r => r)); [by rewrite map_id|].
  intros r Hr. apply route_roundtrip. rewrite Forall_forall in H. auto.
Qed.

Lemma stored_roundtrip s :
  valid_state s ->
  stored_of_json (stored_to_json (mkStored SCHEMA_VERSION s.(ls_configs) s.(ls_policies) s.(ls_bypass))) =
  Some (mkStored SCHEMA_VERSION s.(ls_configs) s.(ls_policies) s.(ls_bypass)).
Proof.
  intros [Hk1 Hk2 Hk3 Hc Hp Hb _]. unfold stored_of_json, stored_to_json, struct_of.
  assert (forall a b c d, opt_filter (fields_among ["schema_version"; "configs"; "destination_policies"; "kill_switch_bypass"])
     (as_object (jobj [("schema_version", a); ("configs", b); ("destination_policies", c); ("kill_switch_bypass", d)])) =
     as_object (jobj [("schema_version", a); ("configs", b); ("destination_policies", c); ("kill_switch_bypass", d)]))
     as -> by done.
  cbn [st_schema_version st_configs st_policies st_bypass as_object jobj foldl fst snd].
  simplify_map_eq. unfold or_default. cbn [and_then].
  rewrite (map_roundtrip config_to_json) by (try exact Hk1; intros; apply config_roundtrip).
  rewrite (map_roundtrip strs_to_json) by (try exact Hk2; intros; apply strs_roundtrip).
  rewrite (map_roundtrip (fun rs => Arr (map route_to_json rs))); [done|exact Hk3|].
  intros k rs Hrs. apply routes_roundtrip. by eapply vb_routes, Hb.
Qed.

Lemma map_validate_id {A : Type} (f : Z -> A -> result A io_error) (m : gmap Z A) :
  (forall k v, m !! k = Some v -> f k v = Ok v) -> map_validate f m = Ok m.
Proof.
  intros H. unfold map_validate.
  assert (res_collect (fun p => res_map (fun b => (p.1, b)) (f p.1 p.2)) (map_to_list m) = Ok (map_to_list m)) as ->.
  { apply res_collect_Ok.
    assert (Hall : Forall (fun p => f p.1 p.2 = Ok p.2) (map_to_list m)).
    { apply Forall_forall. intros [k v] Hin%elem_of_map_to_list. simpl. auto. }
    induction Hall as [|[k v] l Hp _ IH]; constructor; [|done]. simpl in *. by rewrite Hp. }
  simpl. by rewrite list_to_map_to_list.
Qed.

(** *** What the checks guarantee *)
Lemma map_validate_lookup {A B : Type} (f : Z -> A -> result B io_error) (m : gmap Z A) m' :
  map_validate f m = Ok m' ->
  (forall k v', m' !! k = Some v' -> exists v, m !! k = Some v /\ f k v = Ok v') /\ dom m' = dom m.
Proof.
  unfold map_validate. destruct (res_collect _ _) as [l|] eqn:E; [|discriminate]. intros [= <-].
  apply res_collect_Ok in E.
  assert (Hl : Forall2 (fun p q => q.1 = p.1 /\ f p.1 p.2 = Ok q.2) (map_to_list m) l).
  { eapply Forall2_impl; [exact E|]. intros [k v] [k' v']. simpl.
    destruct (f k v); [|discriminate]. by intros [= <- <-]. }
  assert (Hfst : l.*1 = (map_to_list m).*1).
  { clear E. induction Hl as [|p q l1 l2 [Hq _] _ IH]; [done|]. rewrite !fmap_cons. congruence. }
  assert (Hnd : NoDup l.*1) by (rewrite Hfst; apply NoDup_fst_map_to_list).
  split.
  - intros k v' Hin. apply elem_of_list_to_map in Hin; [|done].
    apply list_elem_of_lookup in Hin as [i Hi].
    destruct (Forall2_lookup_r _ _ _ _ _ Hl Hi) as ([k0 v] & Hp & Hk & Hf). simpl in *. subst.
    exists v. split; [|done]. apply elem_of_map_to_list. by eapply list_elem_of_lookup_2.
  - rewrite dom_list_to_map_L, Hfst. apply set_eq. intros k. rewrite elem_of_list_to_set, elem_of_dom.
    rewrite list_elem_of_fmap. split.
    + intros ([k' v] & -> & Hin%elem_of_map_to_list). by eexists.
    + intros [v Hv%elem_of_map_to_list]. by exists (k, v).
Qed.

Lemma families_bound rs : (length (route_families rs) <= 2)%nat.
Proof.
  unfold route_families, btree_of.
  assert (H : forall l acc, acc ∈ [[]; [Ipv4]; [Ipv6]; [Ipv4; Ipv6]] ->
    foldl (fun s x => btree_insert family_cmp x s) acc l ∈ [[]; [Ipv4]; [Ipv6]; [Ipv4; Ipv6]]).
  { induction l as [|f l IH]; intros acc Hacc; [done|]. simpl. apply IH.
    rewrite !elem_of_cons, elem_of_nil in *. destruct_or? Hacc; subst; destruct f; simpl; tauto. }
  specialize (H (map pr_family rs) [] ltac:(left)).
  rewrite !elem_of_cons, elem_of_nil in H. destruct_or? H; rewrite H; simpl; lia.
Qed.

Lemma check_bypass_sound configs uid rs rs' :
  check_bypass configs uid rs = Ok rs' -> valid_bypass configs uid rs'.
Proof.
  unfold check_bypass. destruct ((vec_len rs =? 0) || _) eqn:Hlen; [discriminate|].
  destruct (configs !! uid) as [c|] eqn:Hc; [|discriminate]. destruct (has_rules c) eqn:Hr; [|discriminate].
  simpl. destruct (res_collect validated rs) as [rs1|] eqn:E; [|discriminate]. simpl.
  destruct (vec_len (route_families rs1) =? vec_len rs1) eqn:Hf; [|discriminate]. intros [= <-].
  apply res_collect_Ok in E. pose proof (Forall2_length _ _ _ E) as Hl. bool_prop. unfold vec_len in *.
  split; [|lia|lia| |eauto].
  - intros ->. simpl in Hl. lia.
  - clear -E LW. induction E as [|r r' l l' Hr _ IH]; constructor; [|done].
    unfold validated in Hr. by eapply parse_valid_route.
Qed.

Lemma check_bypass_fixed configs uid rs : valid_bypass configs uid rs -> check_bypass configs uid rs = Ok rs.
Proof.
  intros [Hne Hlen Hf Hr (c & Hc & Hc')]. unfold check_bypass. rewrite Hc, Hc', collect_validated by done.
  unfold vec_len. cbn [res_map_err res_bind]. rewrite Hf, Z.eqb_refl. destruct rs as [|r [|r' [|? ?]]]; [done|done|done|simpl in Hlen; lia].
Qed.

Lemma check_stored_fixed s :
  valid_state s -> check_stored (mkStored SCHEMA_VERSION s.(ls_configs) s.(ls_policies) s.(ls_bypass)) = Ok s.
Proof.
  intros [Hk1 Hk2 Hk3 Hc Hp Hb Hu]. unfold check_stored. cbn [st_schema_version st_configs st_policies st_bypass].
  assert (Hsize : (MAX_CONFIGS <? Z.max (Z.of_nat (size s.(ls_configs))) (Z.of_nat (size s.(ls_policies)))) = false).
  { apply Z.ltb_ge. pose proof (size_dom (D:=gset Z) s.(ls_configs)). pose proof (size_dom (D:=gset Z) s.(ls_policies)).
    pose proof (subseteq_size (dom s.(ls_configs)) (dom s.(ls_configs) ∪ dom s.(ls_policies))
      (union_subseteq_l _ _)).
    pose proof (subseteq_size (dom s.(ls_policies)) (dom s.(ls_configs) ∪ dom s.(ls_policies))
      (union_subseteq_r _ _)). lia. }
  rewrite Hsize. simpl.
  rewrite map_validate_id by (intros; unfold check_config; erewrite validate_fixed; [done|eauto]). simpl.
  rewrite map_validate_id by (intros; unfold check_policy; erewrite validate_ip_ranges_fixed; [done|eauto]). simpl.
  rewrite map_validate_id by (intros; by apply check_bypass_fixed; auto). by destruct s.
Qed.

Lemma map_of_json_keys {A : Type} (g : json -> option A) j m : map_of_json g j = Some m -> keys_in m.
Proof.
  unfold map_of_json. destruct (as_object j) as [o|]; [|discriminate].
  destruct (opt_collect _ _) as [l|] eqn:E; [|discriminate]. intros [= <-] k v Hk.
  apply elem_of_list_to_map_2 in Hk. apply opt_collect_Some in E.
  apply list_elem_of_lookup in Hk as [i Hi].
  destruct (Forall2_lookup_r _ _ _ _ _ E Hi) as ([ks x] & _ & Hp). simpl in Hp.
  unfold key_of_string in Hp. destruct (digits_value 10 0 ks) as [n|]; [|discriminate]. simpl in Hp.
  destruct (u_try_from 16 n) as [n'|] eqn:En; [|discriminate]. simpl in Hp.
  apply u_try_from_Some in En as [-> Hn].
  destruct (String.eqb (dec n) ks), (g x); simplify_eq; lia.
Qed.

Lemma or_default_keys {A : Type} (g : json -> option A) j m : or_default j (map_of_json g) = Some m -> keys_in m.
Proof. destruct j as [j|]; simpl; [apply map_of_json_keys|]. intros [= <-] k v. by rewrite lookup_empty. Qed.

Lemma keys_in_dom {A B : Type} (m : gmap Z A) (m' : gmap Z B) : dom m' = dom m -> keys_in m -> keys_in m'.
Proof.
  intros Hd Hk k v Hv. assert (Hin : k ∈ dom m') by by apply elem_of_dom_2 in Hv.
  rewrite Hd in Hin. apply elem_of_dom in Hin as [x Hx]. by apply Hk in Hx.
Qed.

(** What [load] guarantees of the state it returns. *)
Record loaded_ok (s : LoadedState) : Prop := mkLoadedOk {
  lo_keys : keys_in s.(ls_configs) /\ keys_in s.(ls_policies) /\ keys_in s.(ls_bypass);
  lo_configs : forall uid c, s.(ls_configs) !! uid = Some c -> valid_config c;
  lo_policies : forall uid p, s.(ls_policies) !! uid = Some p -> valid_ranges p;
  lo_bypass : forall uid rs, s.(ls_bypass) !! uid = Some rs -> valid_bypass s.(ls_configs) uid rs;
  lo_users : Z.of_nat (size s.(ls_configs)) <= MAX_CONFIGS /\ Z.of_nat (size s.(ls_policies)) <= MAX_CONFIGS }.

Lemma check_stored_sound st s :
  keys_in st.(st_configs) -> keys_in st.(st_policies) -> keys_in st.(st_bypass) ->
  check_stored st = Ok s -> loaded_ok s.
Proof.
  intros K1 K2 K3. unfold check_stored. destruct (negb _); [discriminate|].
  destruct (MAX_CONFIGS <? _) eqn:Hu; [discriminate|]. bool_prop.
  destruct (map_validate check_config _) as [c|] eqn:Ec; [|discriminate].
  destruct (map_validate check_policy _) as [p|] eqn:Ep; [|discriminate]. simpl.
  destruct (map_validate (check_bypass c) _) as [b|] eqn:Eb; [|discriminate]. intros [= <-].
  apply map_validate_lookup in Ec as [Hc Dc], Ep as [Hp Dp], Eb as [Hb Db].
  split; simpl.
  - split_and!; by eapply keys_in_dom.
  - intros uid c' H. apply Hc in H as (c0 & _ & Hv). unfold check_config in Hv.
    destruct (validate c0) eqn:E; [|discriminate]. injection Hv as <-. by eapply validate_sound.
  - intros uid p' H. apply Hp in H as (p0 & _ & Hv). unfold check_policy in Hv.
    destruct (validate_ip_ranges p0) eqn:E; [|discriminate]. injection Hv as <-. by eapply validate_ip_ranges_sound.
  - intros uid rs H. apply Hb in H as (rs0 & _ & Hv). by eapply check_bypass_sound.
  - rewrite <- (size_dom (D:=gset Z) c), <- (size_dom (D:=gset Z) p), Dc, Dp, !size_dom. lia.
Qed.

(** *** The file *)
Definition quiet (w : fs) : fs := mkFs w.(disk) w.(temp) [].

Definition file_text (s : LoadedState) : string := state_text s +:+ String "010" "".

Lemma fs_call_cases what w :
  exists r w', fs_call what w = (r, w') /\ w'.(disk) = w.(disk) /\ w'.(temp) = w.(temp).
Proof. unfold fs_call. destruct (fs_faults w) as [|[] ?]; eauto 10. Qed.

(** The disk holds the old state or the new one, and the new one on success. *)
Definition replaced (new : string) (w : fs) (r : result unit io_error) (w' : fs) : Prop :=
  (w'.(disk) = w.(disk) \/ w'.(disk) = Some new) /\ (r = Ok tt -> w'.(disk) = Some new).

(** Perform the next system call of the goal; a failed one ends the operation. *)
Ltac fs_step :=
  match goal with
  | |- context [fs_call ?what ?w] =>
      let r := fresh "r" in let w' := fresh "w" in let H := fresh "Hcall" in
      destruct (fs_call_cases what w) as (r & w' & H & ? & ?); rewrite H; clear H;
      destruct r as [[]|]; cbn [disk temp] in *
  end.

Lemma replaced_old new w e w' : w'.(disk) = w.(disk) -> replaced new w (Err e) w'.
Proof. intros H. split; [by left|discriminate]. Qed.

Lemma replaced_new new w r w' : w'.(disk) = Some new -> replaced new w r w'.
Proof. intros H. split; [by right|done]. Qed.

Lemma write_state_replaced bytes w :
  let '(r, w') := write_state bytes w in replaced (bytes +:+ String "010" "") w r w'.
Proof.
  unfold write_state, bind, get_fs, put_temp, put_disk.
  fs_step; [|apply replaced_old; congruence]. destruct (temp _) as [t|]; [apply replaced_old; congruence|].
  do 4 (fs_step; [|apply replaced_old; congruence]).
  fs_step; by apply replaced_new.
Qed.

Lemma save_replaced s w :
  let '(r, w') := save true s w in replaced (file_text s) w r w'.
Proof.
  unfold save, bind, attempt, ignore, attempt, put_temp. cbn [negb].
  do 2 (fs_step; [|apply replaced_old; congruence]).
  destruct (MAX_STATE_BYTES <? _); [apply replaced_old; congruence|].
  match goal with |- context [write_state ?b ?w'] => pose proof (write_state_replaced b w') as Hw;
    destruct (write_state b w') as [[[]|e] w2] end; destruct Hw as [Hw1 Hw2].
  - apply replaced_new. by apply Hw2.
  - assert (Hd : forall w3 : fs, w3.(disk) = w2.(disk) -> replaced (file_text s) w (Err e) w3).
    { intros w3 Hw3. unfold file_text. destruct Hw1; [apply replaced_old|apply replaced_new]; congruence. }
    fs_step; by apply Hd.
Qed.

Lemma str_len_app a b : str_len (a +:+ b) = str_len a + str_len b.
Proof. unfold str_len. induction a as [|c a IH]; simpl String.length; [done|]. simpl String.length in IH. lia. Qed.

Lemma load_saved s w :
  valid_state s -> json_roundtrips (state_json s) -> str_len (state_text s) < MAX_STATE_BYTES ->
  w.(disk) = Some (file_text s) -> (load true (quiet w)).1 = Ok s.
Proof.
  intros Hs Hj Hlen Hd. unfold load, bind, fs_call, quiet, get_fs. simpl. rewrite Hd. simpl.
  assert ((MAX_STATE_BYTES <? str_len (file_text s)) = false) as ->.
  { apply Z.ltb_ge. unfold file_text. rewrite str_len_app. change (str_len (String _ "")) with 1. lia. }
  simpl. unfold file_text, state_text. rewrite Hj. simpl. unfold state_json.
  rewrite stored_roundtrip by done. unfold of_result. simpl. by apply check_stored_fixed.
Qed.

(** C18: saving is atomic and what is saved can be read back.  Whatever system calls fail, the state
    file is the old one or the complete new one (always the new one on success), and once the new
    one is there, [load] returns exactly the saved state, the validation of every part included (the
    text must stay below the limit of the file: the final line feed counts as well). *)
Theorem save_atomic_reloadable s w :
  valid_state s -> json_roundtrips (state_json s) ->
  let '(r, w') := save true s w in
  (w'.(disk) = w.(disk) \/ w'.(disk) = Some (file_text s)) /\
  (r = Ok tt -> w'.(disk) = Some (file_text s)) /\
  (w'.(disk) = Some (file_text s) -> str_len (state_text s) < MAX_STATE_BYTES ->
   (load true (quiet w')).1 = Ok s).
Proof.
  intros Hs Hj. pose proof (save_replaced s w) as H. destruct (save true s w) as [r w'].
  destruct H as [H1 H2]. split_and!; [done..|]. intros Hd Hlen. by apply load_saved.
Qed.

(** nothing but a well-formed state is ever loaded, whatever the file holds and whichever calls
    fail: 16-bit users, validated configurations and ranges, at most 64 users of each kind, and bypass
    routes only for users with rules, at most one per family.  Loading never changes the file. *)
Theorem load_checks w :
  let '(r, w') := load true w in
  w'.(disk) = w.(disk) /\ forall s, r = Ok s -> loaded_ok s.
Proof.
  assert (Hdef : loaded_ok loaded_default).
  { split; simpl; try (intros ? ?; rewrite lookup_empty; discriminate).
    - split_and!; intros ? ?; by rewrite lookup_empty.
    - rewrite !map_size_empty. unfold MAX_CONFIGS. lia. }
  unfold load. simpl. unfold bind at 1.
  destruct (fs_call_cases "open state" w) as ([[]|] & w1 & -> & H1 & _); [|by split].
  unfold bind at 1, get_fs. destruct (disk w1) as [bytes|] eqn:Hd; [|by split; [congruence|intros s [= <-]]].
  unfold bind at 1. destruct (fs_call_cases "inspect state" w1) as ([[]|] & w2 & -> & H2 & _);
    [|split; [congruence|discriminate]].
  destruct (MAX_STATE_BYTES <? _); [split; [simpl; congruence|discriminate]|].
  unfold bind at 1. destruct (fs_call_cases "read state" w2) as ([[]|] & w3 & -> & H3 & _);
    [|split; [congruence|discriminate]].
  destruct (json_parse bytes ?> stored_of_json) as [st|] eqn:Hst; [|split; [simpl; congruence|discriminate]].
  split; [simpl; congruence|]. intros s Hs. simpl in Hs.
  destruct (json_parse bytes) as [j|]; [|discriminate]. simpl in Hst. revert Hst. unfold stored_of_json.
  destruct (struct_of _ j) as [m|]; [|discriminate].
  destruct (_ ?> u_try_from 32) as [v|]; [|discriminate].
  destruct (m !! "configs") as [jc|]; [|discriminate]. simpl.
  destruct (map_of_json config_of_json jc) as [c|] eqn:Ec; [|discriminate].
  destruct (or_default (m !! "destination_policies") _) as [p|] eqn:Ep; [|discriminate].
  destruct (or_default (m !! "kill_switch_bypass") _) as [b|] eqn:Eb; [|discriminate].
  intros [= <-]. eapply check_stored_sound; [..|exact Hs]; simpl;
    [by eapply map_of_json_keys|by eapply or_default_keys|by eapply or_default_keys].
Qed.

(** A state of exactly the limit is saved and then refused. *)
Lemma full_state_unloadable s w :
  str_len (state_text s) = MAX_STATE_BYTES -> w.(temp) = None ->
  let '(r, w') := save true s (quiet w) in
  r = Ok tt /\ is_ok (load true w').1 = false.
Proof.
  intros Hlen Ht. unfold save, bind, fs_call, quiet. simpl. rewrite Hlen, Z.ltb_irrefl.
  unfold attempt, write_state, bind, fs_call, get_fs, put_temp, put_disk. simpl. rewrite Ht. simpl.
  split; [done|]. unfold load, bind, fs_call, get_fs. simpl.
  assert ((MAX_STATE_BYTES <? str_len (state_text s +:+ String "010" "")) = true) as ->; [|done].
  apply Z.ltb_lt. rewrite str_len_app. change (str_len (String _ "")) with 1. lia.
Qed.
End States.

(** ** Witnesses *)
Definition example_state : LoadedState :=
  mkLoaded {[1000 := mkSplitConfig Exclude ["/usr/bin/firefox"] ["192.0.2.0/24"]]} ∅
    {[1000 := [mkRoute Ipv4 (Some (IpV4 [192; 0; 2; 1])) "wlan0"]]}.

(** A text form for the one value of the example. *)
Definition example_text : JsonText :=
  mkJsonText (fun _ => "{}") (fun _ => Some (@state_json example_lib example_state)) (fun _ _ => "").

Lemma example_config_valid : @valid_config example_lib (mkSplitConfig Exclude ["/usr/bin/firefox"] ["192.0.2.0/24"]).
Proof. by apply (@validate_sound example_lib example_laws) with (c := mkSplitConfig Exclude ["/usr/bin/firefox"] ["192.0.2.0/24"]). Qed.

Lemma example_state_valid : @valid_state example_lib example_state.
Proof.
  split; simpl.
  - intros k v [<- _]%lookup_singleton_Some. lia.
  - intros k v H. by rewrite lookup_empty in H.
  - intros k v [<- _]%lookup_singleton_Some. lia.
  - intros k v [<- <-]%lookup_singleton_Some. apply example_config_valid.
  - intros k v H. by rewrite lookup_empty in H.
  - intros k v [<- <-]%lookup_singleton_Some.
    by apply (@check_bypass_sound example_lib _ _ [mkRoute Ipv4 (Some (IpV4 [192; 0; 2; 1])) "wlan0"]).
  - vm_compute. discriminate.
Qed.

Lemma save_atomic_reloadable_witness :
  let '(r, w') := @save example_lib example_text true example_state (mkFs (Some "old") None [false; false; false; false; true]) in
  r <> Ok tt /\ w'.(disk) = Some "old" /\ w'.(temp) = None /\
  let '(r2, w2) := @save example_lib example_text true example_state w' in
  r2 = Ok tt /\ (@load example_lib example_text true (quiet w2)).1 = Ok example_state.
Proof.
  remember (@save example_lib example_text true example_state (mkFs (Some "old") None [false; false; false; false; true])) as p eqn:E.
  vm_compute in E. subst p. split; [discriminate|]. split; [reflexivity|]. split; [reflexivity|].
  pose proof (@save_atomic_reloadable example_lib example_laws example_text example_state
    (mkFs (Some "old") None []) example_state_valid eq_refl) as H.
  assert (E2 : @save example_lib example_text true example_state (mkFs (Some "old") None []) =
    (Ok tt, mkFs (Some ("{}" +:+ String "010" "")) None [])) by (vm_compute; reflexivity).
  rewrite E2 in H |- *. split; [reflexivity|]. apply (proj2 (proj2 H)); [reflexivity|]. vm_compute. reflexivity.
Defined.

Lemma load_checks_witness :
  (@load example_lib example_text true (mkFs (Some "{}") None [])).1 = Ok example_state /\
  @loaded_ok example_lib example_state.
Proof.
  assert (E : (@load example_lib example_text true (mkFs (Some "{}") None [])).1 = Ok example_state)
    by (vm_compute; reflexivity).
  split; [exact E|].
  pose proof (@load_checks example_lib example_laws example_text (mkFs (Some "{}") None [])) as H.
  destruct (@load example_lib example_text true (mkFs (Some "{}") None [])) as [r w']. exact (proj2 H _ E).
Defined.
