(* ===== verification/SplitMarker.v ===== *)
(** The kernel maps behind the eBPF programs ([SocketMarker] of [splitd/src/bpf.rs]): replacing one
    policy by another with rollback.

    The world is the contents of the maps and a stream of booleans that decides which map operations
    fail.  [BTreeMap]s are traversed in ascending order of the user. *)
From S2P Require Export SplitStore.
Open Scope string_scope.
Open Scope Z_scope.
Open Scope list_scope.
Open Scope rust_scope.

#[export] Instance LpmKey_eq_dec : EqDecision LpmKey.
Proof. solve_decision. Defined.
#[export] Instance LpmKey_countable : Countable LpmKey.
Proof.
  refine (inj_countable' (fun k => (key_prefix_len k, key_uid k, key_address k))
    (fun '(p, u, a) => mkLpmKey p u a) _). by intros [].
Defined.

(** Ascending traversal of a [BTreeMap]. *)
Definition key_le {A : Type} (p q : Z * A) : Prop := p.1 <= q.1.
#[export] Instance key_le_dec {A : Type} (p q : Z * A) : Decision (key_le p q) :=
  decide_rel Z.le p.1 q.1.
Definition entries {A : Type} (m : gmap Z A) : list (Z * A) := merge_sort key_le (map_to_list m).

(** The maps, the trie keys of both families together with the family, and the policy they were
    last set to. *)
Record SocketMarker : Type := mkMarker {
  pid_map : gset Z;
  mode_map : gmap Z Z;
  range_map : gset (bool * LpmKey);
  bypass_map : gset (bool * LpmKey);
  m_configs : ConfigMap;
  m_policies : PolicyMap }.

Definition fresh_marker : SocketMarker := mkMarker ∅ ∅ ∅ ∅ ∅ ∅.

Record kernel : Type := mkKernel {
  k_marker : SocketMarker;
  k_faults : list bool }.

(** One bpf(2) call on a map: it fails, changing nothing, when the next fault says so. *)
Definition map_call (f : SocketMarker -> SocketMarker) : M kernel unit := fun w =>
  match w.(k_faults) with
  | true :: rest => (Err (io_other "bpf map operation failed"), mkKernel w.(k_marker) rest)
  | false :: rest => (Ok tt, mkKernel (f w.(k_marker)) rest)
  | [] => (Ok tt, mkKernel (f w.(k_marker)) [])
  end.

Definition set_pids (s : gset Z) (m : SocketMarker) : SocketMarker :=
  mkMarker s m.(mode_map) m.(range_map) m.(bypass_map) m.(m_configs) m.(m_policies).
Definition set_modes (s : gmap Z Z) (m : SocketMarker) : SocketMarker :=
  mkMarker m.(pid_map) s m.(range_map) m.(bypass_map) m.(m_configs) m.(m_policies).
Definition set_ranges (s : gset (bool * LpmKey)) (m : SocketMarker) : SocketMarker :=
  mkMarker m.(pid_map) m.(mode_map) s m.(bypass_map) m.(m_configs) m.(m_policies).
Definition set_bypass_ranges (s : gset (bool * LpmKey)) (m : SocketMarker) : SocketMarker :=
  mkMarker m.(pid_map) m.(mode_map) m.(range_map) s m.(m_configs) m.(m_policies).
Definition set_policy_of (c : ConfigMap) (p : PolicyMap) (m : SocketMarker) : SocketMarker :=
  mkMarker m.(pid_map) m.(mode_map) m.(range_map) m.(bypass_map) c p.

(** [set_excluded]: deleting an absent key is not an error. *)
Definition set_excluded (pid : Z) (excluded : bool) : M kernel unit :=
  map_call (fun m => set_pids (if excluded then {[pid]} ∪ m.(pid_map) else m.(pid_map) ∖ {[pid]}) m).

Definition mode_value (m : SplitMode) : Z := match m with Include => 1 | Exclude => 0 end.

Section Marker.
Context {L : IpLib}.

(** The trie and the key of a textual range of one user. *)
Definition range_key (uid : Z) (value : string) : result (bool * LpmKey) io_error :=
  match parse_ip_range value with
  | Err e => Err (mkIoError InvalidData e)
  | Ok n =>
      Ok (match net_network n with
          | IpV4 a => (false, ipv4_key uid a (net_prefix_len n))
          | IpV6 a => (true, ipv6_key uid a (net_prefix_len n))
          end)
  end.

Definition update_range (uid : Z) (value : string) : M kernel unit :=
  let! k := of_result (range_key uid value) in
  map_call (fun m => set_ranges ({[k]} ∪ m.(range_map)) m).
Definition delete_range (uid : Z) (value : string) : M kernel unit :=
  let! k := of_result (range_key uid value) in
  map_call (fun m => set_ranges (m.(range_map) ∖ {[k]}) m).
Definition update_bypass_range (uid : Z) (value : string) : M kernel unit :=
  let! k := of_result (range_key uid value) in
  map_call (fun m => set_bypass_ranges ({[k]} ∪ m.(bypass_map)) m).
Definition delete_bypass_range (uid : Z) (value : string) : M kernel unit :=
  let! k := of_result (range_key uid value) in
  map_call (fun m => set_bypass_ranges (m.(bypass_map) ∖ {[k]}) m).

Definition replace_maps (old_configs : ConfigMap) (old_policies : PolicyMap)
    (new_configs : ConfigMap) (new_policies : PolicyMap) : M kernel unit :=
  for_each (fun p : Z * SplitConfig =>
    ignore (map_call (fun m => set_modes (delete p.1 m.(mode_map)) m)) ;;!
    for_each (delete_range p.1) p.2.(sc_ip_ranges)) (entries old_configs) ;;!
  for_each (fun p : Z * list string => for_each (delete_bypass_range p.1) p.2) (entries old_policies) ;;!
  for_each (fun p : Z * SplitConfig =>
    map_call (fun m => set_modes (<[p.1 := mode_value p.2.(sc_mode)]> m.(mode_map)) m) ;;!
    for_each (update_range p.1) p.2.(sc_ip_ranges))
    (retain (fun p => has_rules p.2) (entries new_configs)) ;;!
  for_each (fun p : Z * list string => for_each (update_bypass_range p.1) p.2) (entries new_policies).

Definition modify (f : SocketMarker -> SocketMarker) : M kernel unit :=
  fun w => (Ok tt, mkKernel (f w.(k_marker)) w.(k_faults)).

Definition sync_configs (configs : ConfigMap) (policies : PolicyMap) : M kernel unit := fun w =>
  let previous_configs := w.(k_marker).(m_configs) in
  let previous_policies := w.(k_marker).(m_policies) in
  if bool_decide (configs = previous_configs) && bool_decide (policies = previous_policies)
  then (Ok tt, w)
  else
    attempt (replace_maps previous_configs previous_policies configs policies) (fun r =>
      match r with
      | Ok _ => modify (set_policy_of configs policies)
      | Err error =>
          attempt (replace_maps configs policies previous_configs previous_policies) (fun rollback =>
            throw (match rollback with
                   | Ok _ => error
                   | Err rollback =>
                       mkIoError error.(io_kind)
                         (error.(io_text) +:+ "; kernel policy rollback also failed: " +:+ rollback.(io_text))
                   end))
      end) w.

(** ** Lemmas *)
Lemma entries_elem {A : Type} (m : gmap Z A) k v : (k, v) ∈ entries m <-> m !! k = Some v.
Proof. unfold entries. by rewrite merge_sort_Permutation, elem_of_map_to_list. Qed.

Lemma map_call_Ok f w w' :
  map_call f w = (Ok tt, w') -> w'.(k_marker) = f w.(k_marker).
Proof. unfold map_call. destruct (k_faults w) as [|[] ?]; by intros [= <-]. Qed.

Lemma keeps_map_call (P : SocketMarker -> Prop) f :
  (forall m, P m -> P (f m)) -> keeps (fun w => P w.(k_marker)) (map_call f).
Proof. intros Hf w Hw. unfold map_call. destruct (k_faults w) as [|[] ?]; simpl; auto. Qed.

(** The two tries, and the keys a policy asks for in each ([true]: the bypass ranges). *)
Definition trie (bypass : bool) (m : SocketMarker) : gset (bool * LpmKey) :=
  if bypass then m.(bypass_map) else m.(range_map).

Definition listed (bypass : bool) (configs : ConfigMap) (policies : PolicyMap) (uid : Z) (v : string) : Prop :=
  if bypass then exists p, policies !! uid = Some p /\ v ∈ p
  else exists c, configs !! uid = Some c /\ v ∈ c.(sc_ip_ranges).

Definition wanted (bypass : bool) (configs : ConfigMap) (policies : PolicyMap) (k : bool * LpmKey) : Prop :=
  exists uid v, listed bypass configs policies uid v /\ range_key uid v = Ok k.

Definition update_of (bypass : bool) : Z -> string -> M kernel unit :=
  if bypass then update_bypass_range else update_range.
Definition delete_of (bypass : bool) : Z -> string -> M kernel unit :=
  if bypass then delete_bypass_range else delete_range.

Lemma update_of_eq (b : bool) uid v :
  update_of b uid v = bind (of_result (range_key uid v)) (fun k =>
    map_call (fun m => if b then set_bypass_ranges ({[k]} ∪ m.(bypass_map)) m
                       else set_ranges ({[k]} ∪ m.(range_map)) m)).
Proof. by destruct b. Qed.

Lemma delete_of_eq (b : bool) uid v :
  delete_of b uid v = bind (of_result (range_key uid v)) (fun k =>
    map_call (fun m => if b then set_bypass_ranges (m.(bypass_map) ∖ {[k]}) m
                       else set_ranges (m.(range_map) ∖ {[k]}) m)).
Proof. by destruct b. Qed.

Lemma keeps_update (P : SocketMarker -> Prop) (b : bool) uid v :
  (forall k m, range_key uid v = Ok k -> P m ->
     P (if b then set_bypass_ranges ({[k]} ∪ m.(bypass_map)) m else set_ranges ({[k]} ∪ m.(range_map)) m)) ->
  keeps (fun w => P w.(k_marker)) (update_of b uid v).
Proof.
  intros HP. rewrite update_of_eq. destruct (range_key uid v) as [k|e] eqn:E; [|by intros w].
  intros w Hw. unfold bind, of_result. by apply (keeps_map_call P); [intros m; apply HP|].
Qed.

Lemma keeps_delete (P : SocketMarker -> Prop) (b : bool) uid v :
  (forall k m, range_key uid v = Ok k -> P m ->
     P (if b then set_bypass_ranges (m.(bypass_map) ∖ {[k]}) m else set_ranges (m.(range_map) ∖ {[k]}) m)) ->
  keeps (fun w => P w.(k_marker)) (delete_of b uid v).
Proof.
  intros HP. rewrite delete_of_eq. destruct (range_key uid v) as [k|e] eqn:E; [|by intros w].
  intros w Hw. unfold bind, of_result. by apply (keeps_map_call P); [intros m; apply HP|].
Qed.

(** [replace_maps], phase by phase. *)
Definition clear_configs (c : ConfigMap) : M kernel unit :=
  for_each (fun p : Z * SplitConfig =>
    ignore (map_call (fun m => set_modes (delete p.1 m.(mode_map)) m)) ;;!
    for_each (delete_of false p.1) p.2.(sc_ip_ranges)) (entries c).
Definition clear_policies (q : PolicyMap) : M kernel unit :=
  for_each (fun p : Z * list string => for_each (delete_of true p.1) p.2) (entries q).
Definition write_configs (c : ConfigMap) : M kernel unit :=
  for_each (fun p : Z * SplitConfig =>
    map_call (fun m => set_modes (<[p.1 := mode_value p.2.(sc_mode)]> m.(mode_map)) m) ;;!
    for_each (update_of false p.1) p.2.(sc_ip_ranges))
    (retain (fun p => has_rules p.2) (entries c)).
Definition write_policies (q : PolicyMap) : M kernel unit :=
  for_each (fun p : Z * list string => for_each (update_of true p.1) p.2) (entries q).

Lemma replace_maps_eq oc op nc np :
  replace_maps oc op nc np =
  bind (clear_configs oc) (fun _ => bind (clear_policies op) (fun _ =>
    bind (write_configs nc) (fun _ => write_policies np))).
Proof. done. Qed.

Section Phases.
Context (P : SocketMarker -> Prop).
Context (Pmodes : forall s m, P m -> P (set_modes s m)).

Lemma keeps_clear_configs c :
  (forall uid v k m, listed false c ∅ uid v -> range_key uid v = Ok k -> P m ->
     P (set_ranges (m.(range_map) ∖ {[k]}) m)) ->
  keeps (fun w => P w.(k_marker)) (clear_configs c).
Proof.
  intros HP. apply keeps_for_each. intros [uid cfg] Hin%entries_elem.
  apply keeps_bind; [apply keeps_ignore, keeps_map_call; auto|]. intros _.
  apply keeps_for_each. intros v Hv. apply (keeps_delete P false). intros k m Hk. apply (HP uid v k m); [|done].
  simpl. eauto.
Qed.

Lemma keeps_clear_policies q :
  (forall uid v k m, listed true ∅ q uid v -> range_key uid v = Ok k -> P m ->
     P (set_bypass_ranges (m.(bypass_map) ∖ {[k]}) m)) ->
  keeps (fun w => P w.(k_marker)) (clear_policies q).
Proof.
  intros HP. apply keeps_for_each. intros [uid p] Hin%entries_elem. apply keeps_for_each. intros v Hv.
  apply (keeps_delete P true). intros k m Hk. apply (HP uid v k m); [|done]. simpl. eauto.
Qed.

Lemma keeps_write_configs c :
  (forall uid v k m, listed false c ∅ uid v -> range_key uid v = Ok k -> P m ->
     P (set_ranges ({[k]} ∪ m.(range_map)) m)) ->
  keeps (fun w => P w.(k_marker)) (write_configs c).
Proof.
  intros HP. apply keeps_for_each. intros [uid cfg] [Hin _]%retain_elem. apply entries_elem in Hin.
  apply keeps_bind; [apply keeps_map_call; auto|]. intros _.
  apply keeps_for_each. intros v Hv. apply (keeps_update P false). intros k m Hk. apply (HP uid v k m); [|done].
  simpl. eauto.
Qed.

Lemma keeps_write_policies q :
  (forall uid v k m, listed true ∅ q uid v -> range_key uid v = Ok k -> P m ->
     P (set_bypass_ranges ({[k]} ∪ m.(bypass_map)) m)) ->
  keeps (fun w => P w.(k_marker)) (write_policies q).
Proof.
  intros HP. apply keeps_for_each. intros [uid p] Hin%entries_elem. apply keeps_for_each. intros v Hv.
  apply (keeps_update P true). intros k m Hk. apply (HP uid v k m); [|done]. simpl. eauto.
Qed.
End Phases.

Lemma delete_of_Ok b uid v k w w' :
  range_key uid v = Ok k -> delete_of b uid v w = (Ok tt, w') -> k ∉ trie b w'.(k_marker).
Proof.
  intros Hk. rewrite delete_of_eq, Hk. unfold bind, of_result. intros H%map_call_Ok. rewrite H.
  destruct b; simpl; rewrite elem_of_difference, elem_of_singleton; tauto.
Qed.

Lemma update_of_Ok b uid v k w w' :
  range_key uid v = Ok k -> update_of b uid v w = (Ok tt, w') -> k ∈ trie b w'.(k_marker).
Proof.
  intros Hk. rewrite update_of_eq, Hk. unfold bind, of_result. intros H%map_call_Ok. rewrite H.
  destruct b; simpl; rewrite elem_of_union, elem_of_singleton; tauto.
Qed.

Lemma keeps_delete_absent b b' uid v k :
  keeps (fun w => k ∉ trie b w.(k_marker)) (delete_of b' uid v).
Proof.
  apply (keeps_delete (fun m => k ∉ trie b m)). intros k' m _ Hm.
  destruct b, b'; simpl in *; rewrite ?elem_of_difference; tauto.
Qed.

Lemma keeps_update_present b b' uid v k :
  keeps (fun w => k ∈ trie b w.(k_marker)) (update_of b' uid v).
Proof.
  apply (keeps_update (fun m => k ∈ trie b m)). intros k' m _ Hm.
  destruct b, b'; simpl in *; rewrite ?elem_of_union; tauto.
Qed.

Lemma trie_set_modes b s m : trie b (set_modes s m) = trie b m.
Proof. by destruct b. Qed.

(** Deleting every listed range of a user leaves none of its keys. *)
Lemma delete_all_Ok b uid vs v k w w' :
  v ∈ vs -> range_key uid v = Ok k -> for_each (delete_of b uid) vs w = (Ok tt, w') ->
  k ∉ trie b w'.(k_marker).
Proof.
  intros Hv Hk. apply (for_each_establishes (fun w => k ∉ trie b w.(k_marker)) _ _ v); [done| |].
  - intros s s'. by apply delete_of_Ok.
  - intros v' _. apply keeps_keeps_ok, keeps_delete_absent.
Qed.

Lemma update_all_Ok b uid vs v k w w' :
  v ∈ vs -> range_key uid v = Ok k -> for_each (update_of b uid) vs w = (Ok tt, w') ->
  k ∈ trie b w'.(k_marker).
Proof.
  intros Hv Hk. apply (for_each_establishes (fun w => k ∈ trie b w.(k_marker)) _ _ v); [done| |].
  - intros s s'. by apply update_of_Ok.
  - intros v' _. apply keeps_keeps_ok, keeps_update_present.
Qed.

Lemma clear_configs_Ok c q k w w' :
  wanted false c q k -> clear_configs c w = (Ok tt, w') -> k ∉ trie false w'.(k_marker).
Proof.
  intros (uid & v & (cfg & Hc & Hv) & Hk).
  apply (for_each_establishes (fun w => k ∉ trie false w.(k_marker)) _ _ (uid, cfg)); [by apply entries_elem| |].
  - intros s s' ([] & s1 & _ & H)%bind_Ok. by apply (delete_all_Ok _ _ _ _ _ _ _ Hv Hk H).
  - intros p _. apply keeps_keeps_ok, keeps_bind.
    + apply keeps_ignore, (keeps_map_call (fun m => k ∉ trie false m)). done.
    + intros _. apply keeps_for_each. intros. apply keeps_delete_absent.
Qed.

Lemma clear_policies_Ok c q k w w' :
  wanted true c q k -> clear_policies q w = (Ok tt, w') -> k ∉ trie true w'.(k_marker).
Proof.
  intros (uid & v & (p & Hc & Hv) & Hk).
  apply (for_each_establishes (fun w => k ∉ trie true w.(k_marker)) _ _ (uid, p)); [by apply entries_elem| |].
  - intros s s' H. by apply (delete_all_Ok _ _ _ _ _ _ _ Hv Hk H).
  - intros p' _. apply keeps_keeps_ok, keeps_for_each. intros. apply keeps_delete_absent.
Qed.

Lemma ranges_are_rules c v : v ∈ c.(sc_ip_ranges) -> has_rules c = true.
Proof. unfold has_rules. destruct (sc_ip_ranges c); [by intros ?%elem_of_nil|]. intros _. apply orb_true_r. Qed.

Lemma write_configs_Ok c q k w w' :
  wanted false c q k -> write_configs c w = (Ok tt, w') -> k ∈ trie false w'.(k_marker).
Proof.
  intros (uid & v & (cfg & Hc & Hv) & Hk).
  apply (for_each_establishes (fun w => k ∈ trie false w.(k_marker)) _ _ (uid, cfg)).
  - apply retain_elem. split; [by apply entries_elem|by eapply ranges_are_rules].
  - intros s s' ([] & s1 & _ & H)%bind_Ok. by apply (update_all_Ok _ _ _ _ _ _ _ Hv Hk H).
  - intros p _. apply keeps_keeps_ok, keeps_bind.
    + apply (keeps_map_call (fun m => k ∈ trie false m)). done.
    + intros _. apply keeps_for_each. intros. apply keeps_update_present.
Qed.

Lemma write_policies_Ok c q k w w' :
  wanted true c q k -> write_policies q w = (Ok tt, w') -> k ∈ trie true w'.(k_marker).
Proof.
  intros (uid & v & (p & Hc & Hv) & Hk).
  apply (for_each_establishes (fun w => k ∈ trie true w.(k_marker)) _ _ (uid, p)); [by apply entries_elem| |].
  - intros s s' H. by apply (update_all_Ok _ _ _ _ _ _ _ Hv Hk H).
  - intros p' _. apply keeps_keeps_ok, keeps_for_each. intros. apply keeps_update_present.
Qed.

(** Only wanted keys are ever added to a trie. *)
Lemma replace_adds_wanted b oc op nc np (X : bool * LpmKey -> Prop) :
  (forall k, wanted b nc np k -> X k) ->
  keeps (fun w => forall k, k ∈ trie b w.(k_marker) -> X k) (replace_maps oc op nc np).
Proof.
  intros HX. rewrite replace_maps_eq. set (P := fun m => forall k, k ∈ trie b m -> X k).
  assert (Pm : forall s m, P m -> P (set_modes s m)) by (intros s m Hm k; rewrite trie_set_modes; auto).
  apply keeps_bind; [|intros _; apply keeps_bind; [|intros _; apply keeps_bind; [|intros _]]].
  - apply (keeps_clear_configs P Pm). intros uid v k m _ _ Hm k'.
    destruct b; simpl; [apply Hm|]. rewrite elem_of_difference. intros [? _]. by apply Hm.
  - apply (keeps_clear_policies P). intros uid v k m _ _ Hm k'.
    destruct b; simpl; [|apply Hm]. rewrite elem_of_difference. intros [? _]. by apply Hm.
  - apply (keeps_write_configs P Pm). intros uid v k m Hl Hk Hm k'.
    destruct b; simpl; [apply Hm|]. rewrite elem_of_union, elem_of_singleton. intros [->|?]; [|by apply Hm].
    apply HX. by exists uid, v.
  - apply (keeps_write_policies P). intros uid v k m Hl Hk Hm k'.
    destruct b; simpl; [|apply Hm]. rewrite elem_of_union, elem_of_singleton. intros [->|?]; [|by apply Hm].
    apply HX. by exists uid, v.
Qed.

(** The keys wanted by the old policy are gone once its phase is over, whatever was there. *)
Lemma cleared b oc op w w1 w2 :
  clear_configs oc w = (Ok tt, w1) -> clear_policies op w1 = (Ok tt, w2) ->
  forall k, wanted b oc op k -> k ∉ trie b w2.(k_marker).
Proof.
  intros H1 H2 k Hk. destruct b; [by eapply clear_policies_Ok|].
  assert (Hw1 : k ∉ trie false w1.(k_marker)) by by eapply clear_configs_Ok.
  revert H2. eapply (keeps_keeps_ok (fun w => k ∉ trie false w.(k_marker))); [|exact Hw1].
  by apply (keeps_clear_policies (fun m => k ∉ trie false m)).
Qed.

Lemma clearing_keeps b oc op (X : bool * LpmKey -> Prop) w w1 w2 :
  clear_configs oc w = (Ok tt, w1) -> clear_policies op w1 = (Ok tt, w2) ->
  (forall k, k ∈ trie b w.(k_marker) -> X k) -> forall k, k ∈ trie b w2.(k_marker) -> X k.
Proof.
  intros H1 H2 HX. set (P := fun m => forall k, k ∈ trie b m -> X k).
  assert (Hw1 : P w1.(k_marker)).
  { revert H1. eapply (keeps_keeps_ok (fun w => P w.(k_marker))); [|exact HX].
    apply (keeps_clear_configs P); [intros s m Hm k; rewrite trie_set_modes; apply Hm|].
    intros uid v k m _ _ Hm k'. destruct b; simpl; [apply Hm|]. rewrite elem_of_difference.
    intros [? _]. by apply Hm. }
  revert H2. eapply (keeps_keeps_ok (fun w => P w.(k_marker))); [|exact Hw1].
  apply (keeps_clear_policies P). intros uid v k m _ _ Hm k'. destruct b; simpl; [|apply Hm].
  rewrite elem_of_difference. intros [? _]. by apply Hm.
Qed.

Lemma writing_adds_wanted b nc np (X : bool * LpmKey -> Prop) w w1 w2 :
  write_configs nc w = (Ok tt, w1) -> write_policies np w1 = (Ok tt, w2) ->
  (forall k, wanted b nc np k -> X k) ->
  (forall k, k ∈ trie b w.(k_marker) -> X k) -> forall k, k ∈ trie b w2.(k_marker) -> X k.
Proof.
  intros H1 H2 Hw HX.
  assert (E : replace_maps ∅ ∅ nc np w = (Ok tt, w2)).
  { rewrite replace_maps_eq. unfold bind, clear_configs, clear_policies.
    change (entries ∅) with (@nil (Z * SplitConfig)) at 1. change (entries ∅) with (@nil (Z * list string)) at 1.
    simpl. by rewrite H1. }
  revert E. by apply (keeps_keeps_ok (fun w => forall k, k ∈ trie b w.(k_marker) -> X k)), HX; apply replace_adds_wanted.
Qed.

Lemma written b nc np w w1 w2 :
  write_configs nc w = (Ok tt, w1) -> write_policies np w1 = (Ok tt, w2) ->
  forall k, wanted b nc np k -> k ∈ trie b w2.(k_marker).
Proof.
  intros H1 H2 k Hk. destruct b; [by eapply write_policies_Ok|].
  assert (Hw1 : k ∈ trie false w1.(k_marker)) by by eapply write_configs_Ok.
  revert H2. eapply (keeps_keeps_ok (fun w => k ∈ trie false w.(k_marker))); [|exact Hw1].
  by apply (keeps_write_policies (fun m => k ∈ trie false m)).
Qed.

Lemma replace_maps_Ok b oc op nc np w w' :
  replace_maps oc op nc np w = (Ok tt, w') ->
  (forall k, k ∈ trie b w.(k_marker) -> wanted b oc op k \/ wanted b nc np k) ->
  forall k, k ∈ trie b w'.(k_marker) <-> wanted b nc np k.
Proof.
  rewrite replace_maps_eq.
  intros ([] & w1 & H1 & ([] & w2 & H2 & ([] & w3 & H3 & H4)%bind_Ok)%bind_Ok)%bind_Ok Hin k. split.
  - revert k. eapply (writing_adds_wanted b nc np); [exact H3|exact H4|done|].
    intros k Hk. pose proof (clearing_keeps b oc op _ w w1 w2 H1 H2 Hin k Hk) as [Ho|]; [|done].
    by destruct (cleared b oc op w w1 w2 H1 H2 k Ho).
  - by eapply written.
Qed.

Lemma write_configs_modes c w w' uid cfg :
  write_configs c w = (Ok tt, w') -> c !! uid = Some cfg -> has_rules cfg = true ->
  w'.(k_marker).(mode_map) !! uid = Some (mode_value cfg.(sc_mode)).
Proof.
  intros H Hc Hr.
  assert (Hupd : forall u vs, keeps (fun w => w.(k_marker).(mode_map) !! uid = Some (mode_value cfg.(sc_mode)))
    (for_each (update_of false u) vs)).
  { intros u vs. apply keeps_for_each. intros v _.
    by apply (keeps_update (fun m => m.(mode_map) !! uid = Some (mode_value cfg.(sc_mode)))). }
  eapply (for_each_establishes (fun w => w.(k_marker).(mode_map) !! uid = Some _) _ _ (uid, cfg)); [| | |exact H].
  - apply retain_elem. split; [by apply entries_elem|done].
  - intros s s' ([] & s1 & H1 & H2)%bind_Ok. revert H2. eapply (keeps_keeps_ok _ _ (Hupd _ _)).
    apply map_call_Ok in H1. rewrite H1. simpl. by rewrite lookup_insert_eq.
  - intros [uid' cfg'] [Hin _]%retain_elem. apply entries_elem in Hin. apply keeps_keeps_ok, keeps_bind.
    + apply (keeps_map_call (fun m => m.(mode_map) !! uid = Some (mode_value cfg.(sc_mode)))). intros m Hm. simpl.
      destruct (decide (uid' = uid)) as [->|]; [|by rewrite lookup_insert_ne].
      rewrite lookup_insert_eq. congruence.
    + intros _. apply Hupd.
Qed.

(** The maps hold exactly the policy recorded in the marker. *)
Record exact (m : SocketMarker) : Prop := mkExact {
  ex_tries : forall b k, k ∈ trie b m <-> wanted b m.(m_configs) m.(m_policies) k;
  ex_modes : forall uid cfg, m.(m_configs) !! uid = Some cfg -> has_rules cfg = true ->
    m.(mode_map) !! uid = Some (mode_value cfg.(sc_mode)) }.

Lemma replace_maps_modes oc op nc np w w' uid cfg :
  replace_maps oc op nc np w = (Ok tt, w') -> nc !! uid = Some cfg -> has_rules cfg = true ->
  w'.(k_marker).(mode_map) !! uid = Some (mode_value cfg.(sc_mode)).
Proof.
  rewrite replace_maps_eq.
  intros ([] & w1 & H1 & ([] & w2 & H2 & ([] & w3 & H3 & H4)%bind_Ok)%bind_Ok)%bind_Ok Hc Hr.
  revert H4. eapply (keeps_keeps_ok (fun w => w.(k_marker).(mode_map) !! uid = Some (mode_value cfg.(sc_mode)))).
  - by apply (keeps_write_policies (fun m => m.(mode_map) !! uid = Some (mode_value cfg.(sc_mode)))).
  - by eapply write_configs_modes.
Qed.

(** The mode a configuration asks for a user, and the map of modes holding nothing but those. *)
Definition wanted_mode (configs : ConfigMap) (uid v : Z) : Prop :=
  exists c, configs !! uid = Some c /\ has_rules c = true /\ v = mode_value c.(sc_mode).
Definition modes_exact (m : SocketMarker) : Prop :=
  forall uid v, m.(mode_map) !! uid = Some v <-> wanted_mode m.(m_configs) uid v.

(** What holds of the maps unless one of the calls made since the faults were [F] has failed. *)
Definition unless_failed (F : list bool) (Q : SocketMarker -> Prop) (w : kernel) : Prop :=
  exists used, F = used ++ w.(k_faults) /\ (true ∈ used \/ Q w.(k_marker)).

Lemma unless_failed_call F Q f : (forall m, Q m -> Q (f m)) -> keeps (unless_failed F Q) (map_call f).
Proof.
  intros Hf w (used & -> & H). unfold map_call. destruct (k_faults w) as [|[] rest]; simpl.
  - exists used. split; [done|]. destruct H; [by left|right; by apply Hf].
  - exists (used ++ [true]). rewrite <- app_assoc. split; [done|]. left. apply elem_of_app. right. by left.
  - exists (used ++ [false]). rewrite <- app_assoc. split; [done|].
    destruct H; [left; apply elem_of_app; by left|right; by apply Hf].
Qed.

(** A call whose error is dropped: what it does holds, unless it failed. *)
Lemma unless_failed_ignored F Q0 Q f w w' :
  (forall m, Q (f m)) -> unless_failed F Q0 w -> ignore (map_call f) w = (Ok tt, w') -> unless_failed F Q w'.
Proof.
  intros Hf (used & -> & _). unfold ignore, Io.attempt, map_call. destruct (k_faults w) as [|[] rest]; simpl; intros [= <-].
  - exists used. split; [done|]. right. apply Hf.
  - exists (used ++ [true]). simpl. rewrite <- app_assoc. split; [done|]. left. apply elem_of_app. right. by left.
  - exists (used ++ [false]). simpl. rewrite <- app_assoc. split; [done|]. right. apply Hf.
Qed.

Lemma unless_failed_delete F (Q : SocketMarker -> Prop) (b : bool) uid v :
  (forall (k : bool * LpmKey) m, Q m -> Q (if b then set_bypass_ranges (m.(bypass_map) ∖ {[k]}) m
                         else set_ranges (m.(range_map) ∖ {[k]}) m)) ->
  keeps (unless_failed F Q) (delete_of b uid v).
Proof.
  intros HQ. rewrite delete_of_eq. apply keeps_bind; [apply keeps_of_result|]. intros k.
  apply unless_failed_call. intros m. apply HQ.
Qed.

Lemma unless_failed_update F (Q : SocketMarker -> Prop) (b : bool) uid v :
  (forall (k : bool * LpmKey) m, Q m -> Q (if b then set_bypass_ranges ({[k]} ∪ m.(bypass_map)) m
                         else set_ranges ({[k]} ∪ m.(range_map)) m)) ->
  keeps (unless_failed F Q) (update_of b uid v).
Proof.
  intros HQ. rewrite update_of_eq. apply keeps_bind; [apply keeps_of_result|]. intros k.
  apply unless_failed_call. intros m. apply HQ.
Qed.

(** A user's mode under the phases of a replacement: once absent it stays absent until a configuration
    with rules writes it. *)
Definition no_mode (uid : Z) (m : SocketMarker) : Prop := m.(mode_map) !! uid = None.

Lemma clear_keeps_no_mode F uid c : keeps (unless_failed F (no_mode uid)) (clear_configs c).
Proof.
  apply keeps_for_each. intros p _. apply keeps_bind.
  - apply keeps_ignore, unless_failed_call. intros m Hm. unfold no_mode. simpl.
    rewrite lookup_delete_None. by right.
  - intros _. apply keeps_for_each. intros v _. by apply unless_failed_delete.
Qed.

Lemma clear_configs_no_mode F uid c w w' :
  is_Some (c !! uid) -> unless_failed F (fun _ => True) w -> clear_configs c w = (Ok tt, w') ->
  unless_failed F (no_mode uid) w'.
Proof.
  intros [cfg Hc] HF. unfold clear_configs.
  assert (Hin : (uid, cfg) ∈ entries c) by by apply entries_elem.
  revert w HF. induction (entries c) as [|p l IH]; intros w HF; [by apply elem_of_nil in Hin|].
  intros ([] & w1 & H1 & H2)%bind_Ok.
  assert (Hrest : unless_failed F (no_mode uid) w1 -> unless_failed F (no_mode uid) w').
  { intros Hw1. revert H2. apply keeps_keeps_ok; [|done]. apply keeps_for_each. intros q _. apply keeps_bind.
    - apply keeps_ignore, unless_failed_call. intros m Hm. unfold no_mode. simpl. rewrite lookup_delete_None. by right.
    - intros _. apply keeps_for_each. intros v _. by apply unless_failed_delete. }
  apply elem_of_cons in Hin as [<-|Hin].
  - apply Hrest. apply bind_Ok in H1 as ([] & w0 & H0 & H1). revert H1. apply keeps_keeps_ok.
    + apply keeps_for_each. intros v _. by apply unless_failed_delete.
    + eapply unless_failed_ignored; [|exact HF|exact H0]. intros m. unfold no_mode. simpl. by rewrite lookup_delete_eq.
  - apply (IH Hin w1); [|exact H2]. revert H1. apply keeps_keeps_ok; [|done].
    apply keeps_bind; [by apply keeps_ignore, unless_failed_call|]. intros _. apply keeps_for_each.
    intros v _. by apply unless_failed_delete.
Qed.

Lemma clear_policies_no_mode F uid q : keeps (unless_failed F (no_mode uid)) (clear_policies q).
Proof. apply keeps_for_each. intros p _. apply keeps_for_each. intros v _. by apply unless_failed_delete. Qed.

Lemma write_keeps_no_mode F uid c :
  (forall cfg, c !! uid = Some cfg -> has_rules cfg = false) -> keeps (unless_failed F (no_mode uid)) (write_configs c).
Proof.
  intros Hc. apply keeps_for_each. intros [uid' cfg] [Hin Hr]%retain_elem. apply entries_elem in Hin.
  cbn [fst snd] in *. apply keeps_bind.
  - apply unless_failed_call. intros m Hm. unfold no_mode. simpl.
    destruct (decide (uid' = uid)) as [->|]; [|by rewrite lookup_insert_ne].
    rewrite (Hc _ Hin) in Hr. discriminate.
  - intros _. apply keeps_for_each. intros v _. by apply unless_failed_update.
Qed.

Lemma write_policies_no_mode F uid q : keeps (unless_failed F (no_mode uid)) (write_policies q).
Proof. apply keeps_for_each. intros p _. apply keeps_for_each. intros v _. by apply unless_failed_update. Qed.

(** A user left without rules has no mode after a replacement, unless a call failed: it is deleted if
    the old configuration knows the user, and stays absent if it was. *)
Lemma replace_maps_no_mode oc op nc np w w' uid :
  replace_maps oc op nc np w = (Ok tt, w') ->
  (forall cfg, nc !! uid = Some cfg -> has_rules cfg = false) ->
  is_Some (oc !! uid) \/ no_mode uid w.(k_marker) ->
  unless_failed w.(k_faults) (no_mode uid) w'.
Proof.
  rewrite replace_maps_eq.
  intros ([] & w1 & H1 & ([] & w2 & H2 & ([] & w3 & H3 & H4)%bind_Ok)%bind_Ok)%bind_Ok Hn Hold.
  revert H4. apply (keeps_keeps_ok _ _ (write_policies_no_mode _ _ _)).
  revert H3. apply (keeps_keeps_ok _ _ (write_keeps_no_mode _ _ _ Hn)).
  revert H2. apply (keeps_keeps_ok _ _ (clear_policies_no_mode _ _ _)).
  destruct Hold as [Ho|Ho].
  - eapply clear_configs_no_mode; [exact Ho| |exact H1]. exists []. split; [done|]. by right.
  - revert H1. apply (keeps_keeps_ok _ _ (clear_keeps_no_mode _ _ _)). exists []. split; [done|]. by right.
Qed.

(** Whatever a replacement returns, a mode present afterwards was there before or is wanted. *)
Lemma replace_maps_mode_origin oc op nc np (X : Z -> Z -> Prop) :
  (forall uid v, wanted_mode nc uid v -> X uid v) ->
  keeps (fun w => forall uid v, w.(k_marker).(mode_map) !! uid = Some v -> X uid v) (replace_maps oc op nc np).
Proof.
  intros HX. set (P := fun m : SocketMarker => forall uid v, m.(mode_map) !! uid = Some v -> X uid v).
  rewrite replace_maps_eq. apply keeps_bind; [|intros _; apply keeps_bind; [|intros _; apply keeps_bind; [|intros _]]].
  - apply keeps_for_each. intros p _. apply keeps_bind.
    + apply keeps_ignore, (keeps_map_call P). intros m Hm uid v. simpl. rewrite lookup_delete_Some. intros [_ H]. by apply Hm.
    + intros _. apply keeps_for_each. intros v _. by apply (keeps_delete P false).
  - by apply (keeps_clear_policies P).
  - apply keeps_for_each. intros [uid' cfg] [Hin Hr]%retain_elem. apply entries_elem in Hin. apply keeps_bind.
    + apply (keeps_map_call P). intros m Hm uid v. simpl. rewrite lookup_insert_Some.
      intros [[-> <-]|[_ H]]; [|by apply Hm]. apply HX. by exists cfg.
    + intros _. apply keeps_for_each. intros v _. by apply (keeps_update P false).
  - by apply (keeps_write_policies P).
Qed.

(** A replacement in which no call failed leaves exactly the wanted modes. *)
Lemma replace_maps_modes_exact oc op nc np w w' :
  replace_maps oc op nc np w = (Ok tt, w') ->
  exists used, w.(k_faults) = used ++ w'.(k_faults) /\
    (true ∉ used ->
     (forall uid v, w.(k_marker).(mode_map) !! uid = Some v -> is_Some (oc !! uid) \/ wanted_mode nc uid v) ->
     forall uid v, w'.(k_marker).(mode_map) !! uid = Some v <-> wanted_mode nc uid v).
Proof.
  intros E.
  assert (HF : unless_failed w.(k_faults) (fun _ => True) w').
  { revert E. rewrite replace_maps_eq. apply (keeps_keeps_ok (unless_failed w.(k_faults) (fun _ => True)));
      [|by exists []; auto].
    repeat (apply keeps_bind; [|intros _]); apply keeps_for_each; intros p _; rewrite ?bind_assoc.
    - apply keeps_bind; [by apply keeps_ignore, unless_failed_call|]. intros _. apply keeps_for_each.
      intros v _. by apply unless_failed_delete.
    - apply keeps_for_each. intros v _. by apply unless_failed_delete.
    - apply keeps_bind; [by apply unless_failed_call|]. intros _. apply keeps_for_each.
      intros v _. by apply unless_failed_update.
    - apply keeps_for_each. intros v _. by apply unless_failed_update. }
  destruct HF as (used & HF & _). exists used. split; [done|]. intros Hu Hold uid v. split.
  2:{ intros (cfg & Hc & Hr & ->). by eapply replace_maps_modes. }
  intros Hv. destruct (nc !! uid) as [cfg|] eqn:Ec; [destruct (has_rules cfg) eqn:Er|].
  { exists cfg. split_and!; [done..|]. pose proof (replace_maps_modes oc op nc np w w' uid cfg E Ec Er). congruence. }
  all: exfalso; destruct (replace_maps_no_mode oc op nc np w w' uid E) as (used' & HF' & [Hin|Hno]);
    [intros cfg'; congruence| | |unfold no_mode in Hno; congruence].
  2,4: rewrite HF in HF'; apply app_inv_tail in HF' as ->; done.
  all: destruct (mode_map (k_marker w) !! uid) as [v0|] eqn:E0; [|by right]; left;
    destruct (Hold _ _ E0) as [|(cfg' & Hc' & Hr' & _)]; [done|congruence].
Qed.

(** The bookkeeping fields and the tracked processes are not touched by map operations on policies. *)
Lemma replace_maps_frame oc op nc np w :
  (replace_maps oc op nc np w).2.(k_marker).(pid_map) = w.(k_marker).(pid_map) /\
  (replace_maps oc op nc np w).2.(k_marker).(m_configs) = w.(k_marker).(m_configs) /\
  (replace_maps oc op nc np w).2.(k_marker).(m_policies) = w.(k_marker).(m_policies).
Proof.
  set (P := fun m => m.(pid_map) = w.(k_marker).(pid_map) /\ m.(m_configs) = w.(k_marker).(m_configs) /\
                     m.(m_policies) = w.(k_marker).(m_policies)).
  enough (H : keeps (fun w => P w.(k_marker)) (replace_maps oc op nc np)) by by apply H.
  rewrite replace_maps_eq. apply keeps_bind; [by apply (keeps_clear_configs P)|intros _].
  apply keeps_bind; [by apply (keeps_clear_policies P)|intros _].
  apply keeps_bind; [by apply (keeps_write_configs P)|intros _]. by apply (keeps_write_policies P).
Qed.

Lemma fresh_exact : exact fresh_marker.
Proof.
  split; simpl; [|intros ? ?; by rewrite lookup_empty].
  intros b k. split; [destruct b; simpl; intros H; by apply not_elem_of_empty in H|].
  intros (uid & v & Hl & _). by destruct b; destruct Hl as (? & H & _); rewrite lookup_empty in H.
Qed.

(** A policy that was set is the one the maps hold. *)
Lemma sync_success configs policies w w' :
  exact w.(k_marker) -> sync_configs configs policies w = (Ok tt, w') ->
  exact w'.(k_marker) /\ w'.(k_marker).(m_configs) = configs /\ w'.(k_marker).(m_policies) = policies.
Proof.
  intros Hex. unfold sync_configs. set (oc := m_configs (k_marker w)). set (op := m_policies (k_marker w)).
  destruct (bool_decide (configs = oc) && bool_decide (policies = op)) eqn:Esame; [bool_prop; by intros [= <-]|].
  unfold attempt. destruct (replace_maps oc op configs policies w) as [[[]|e] w1] eqn:E; [|by destruct (replace_maps configs policies oc op w1)].
  intros [= <-]. split; [|done]. split; simpl.
  - intros b k. transitivity (k ∈ trie b w1.(k_marker)); [by destruct b|].
    apply (replace_maps_Ok b oc op configs policies w w1 E). intros k' Hk'. left. by apply (ex_tries _ Hex).
  - intros uid cfg. by eapply replace_maps_modes.
Qed.

(** What is present after a replacement, and after the rollback that follows it. *)
Lemma replace_tries_origin oc op nc np w :
  exact w.(k_marker) -> oc = w.(k_marker).(m_configs) -> op = w.(k_marker).(m_policies) ->
  forall b k, k ∈ trie b (replace_maps oc op nc np w).2.(k_marker) -> wanted b oc op k \/ wanted b nc np k.
Proof.
  intros Hex -> -> b.
  apply (replace_adds_wanted b _ _ nc np (fun k => wanted b (m_configs (k_marker w)) (m_policies (k_marker w)) k \/ wanted b nc np k)).
  - auto.
  - intros k Hk. left. by apply (ex_tries _ Hex).
Qed.

Lemma replace_tries_back oc op nc np w1 :
  (forall b k, k ∈ trie b w1.(k_marker) -> wanted b oc op k \/ wanted b nc np k) ->
  forall b k, k ∈ trie b (replace_maps nc np oc op w1).2.(k_marker) -> wanted b oc op k \/ wanted b nc np k.
Proof.
  intros H b. apply (replace_adds_wanted b nc np oc op (fun k => wanted b oc op k \/ wanted b nc np k)); auto.
Qed.

Lemma replace_modes_origin oc op nc np w uid v :
  (replace_maps oc op nc np w).2.(k_marker).(mode_map) !! uid = Some v ->
  w.(k_marker).(mode_map) !! uid = Some v \/ wanted_mode oc uid v \/ wanted_mode nc uid v.
Proof.
  revert uid v. apply (replace_maps_mode_origin oc op nc np
    (fun uid v => w.(k_marker).(mode_map) !! uid = Some v \/ wanted_mode oc uid v \/ wanted_mode nc uid v)); auto.
Qed.

Lemma replace_modes_back oc op nc np w w1 :
  (forall uid v, w1.(k_marker).(mode_map) !! uid = Some v ->
     w.(k_marker).(mode_map) !! uid = Some v \/ wanted_mode oc uid v \/ wanted_mode nc uid v) ->
  forall uid v, (replace_maps nc np oc op w1).2.(k_marker).(mode_map) !! uid = Some v ->
     w.(k_marker).(mode_map) !! uid = Some v \/ wanted_mode oc uid v \/ wanted_mode nc uid v.
Proof.
  intros H. apply (replace_maps_mode_origin nc np oc op
    (fun uid v => w.(k_marker).(mode_map) !! uid = Some v \/ wanted_mode oc uid v \/ wanted_mode nc uid v)); auto.
Qed.

(** C19: switching the kernel from one policy to another.  When [sync_configs] succeeds the tries hold
    exactly the ranges of the new configurations and policies (no stale range of an old one survives,
    none is missing) and every user configured with rules has the mode of the new configuration; when
    it fails the marker still records the old policy, which is what the maps hold again unless the
    rollback failed too.  At no time is a range outside the two policies present, nor a mode that was
    neither there before nor wanted by one of them.  The error of a call that deletes a mode is dropped
    by the code; if no map call of the replacement (of the rollback, after a failure) failed, the modes
    are exactly those of the recorded configuration too, if they were before.  Tracked processes are
    not touched. *)
Theorem sync_exact configs policies w :
  exact w.(k_marker) ->
  let m := w.(k_marker) in
  let '(r, w') := sync_configs configs policies w in
  let m' := w'.(k_marker) in
  m'.(pid_map) = m.(pid_map) /\
  (forall b k, k ∈ trie b m' -> wanted b m.(m_configs) m.(m_policies) k \/ wanted b configs policies k) /\
  (forall uid v, m'.(mode_map) !! uid = Some v ->
     m.(mode_map) !! uid = Some v \/ wanted_mode m.(m_configs) uid v \/ wanted_mode configs uid v) /\
  match r with
  | Ok _ =>
      exact m' /\ m'.(m_configs) = configs /\ m'.(m_policies) = policies /\
      exists used, w.(k_faults) = used ++ w'.(k_faults) /\ (true ∉ used -> modes_exact m -> modes_exact m')
  | Err _ =>
      let w1 := (replace_maps m.(m_configs) m.(m_policies) configs policies w).2 in
      m'.(m_configs) = m.(m_configs) /\ m'.(m_policies) = m.(m_policies) /\
      (exact m' /\
       (exists used, w1.(k_faults) = used ++ w'.(k_faults) /\ (true ∉ used -> modes_exact m -> modes_exact m')) \/
       is_ok (replace_maps configs policies m.(m_configs) m.(m_policies) w1).1 = false)
  end.
Proof.
  intros Hex. cbv zeta. pose proof (sync_success configs policies w (sync_configs configs policies w).2 Hex) as Hdone. revert Hdone. unfold sync_configs.
  set (oc := m_configs (k_marker w)). set (op := m_policies (k_marker w)).
  destruct (bool_decide (configs = oc) && bool_decide (policies = op)) eqn:Esame.
  { intros Hdone. specialize (Hdone eq_refl) as (? & ? & ?). split_and!; try done; [|by auto|].
    - intros b k Hk. left. by apply (ex_tries _ Hex).
    - exists []. by split. }
  unfold attempt. pose proof (replace_maps_frame oc op configs policies w) as (Fp & Fc & Fq).
  pose proof (replace_tries_origin oc op configs policies w Hex eq_refl eq_refl) as Hsub.
  pose proof (replace_modes_origin oc op configs policies w) as Hmode.
  pose proof (replace_maps_modes_exact oc op configs policies w) as Hfull.
  destruct (replace_maps oc op configs policies w) as [[[]|e] w1] eqn:E; cbn [snd] in *; intros Hdone.
  - destruct (Hdone eq_refl) as (Hx & Hc & Hq). specialize (Hfull _ eq_refl) as (used & HF & Hfull).
    split; [done|]. split; [intros b k Hk; apply Hsub; by destruct b|]. split; [exact Hmode|].
    split_and!; [done..|]. exists used. split; [exact HF|]. intros Hu Hm uid v. apply Hfull; [done|].
    clear uid v. intros uid v Hv. left. apply Hm in Hv as (cfg & Hcfg & _). exists cfg. exact Hcfg.
  - pose proof (replace_maps_frame configs policies oc op w1) as (Gp & Gc & Gq).
    pose proof (replace_tries_back oc op configs policies w1 Hsub) as Hsub2.
    pose proof (replace_modes_back oc op configs policies w w1 Hmode) as Hmode2.
    pose proof (replace_maps_modes_exact configs policies oc op w1) as Hback.
    destruct (replace_maps configs policies oc op w1) as [rb w2] eqn:E2; cbn [snd] in *.
    unfold throw. split; [congruence|]. split; [done|]. split; [exact Hmode2|].
    split; [by rewrite Gc, Fc|]. split; [by rewrite Gq, Fq|].
    destruct rb as [[]|e2]; [left|by right]. split; [split; rewrite ?Gc, ?Gq, ?Fc, ?Fq|].
    + intros b k. apply (replace_maps_Ok b configs policies oc op w1 w2 E2). intros k' Hk'.
      destruct (Hsub b k' Hk'); auto.
    + intros uid cfg. by eapply replace_maps_modes.
    + specialize (Hback _ eq_refl) as (used & HF & Hback). exists used. split; [exact HF|]. intros Hu Hm uid v.
      cbn [k_marker]. rewrite Gc, Fc. apply Hback; [done|]. clear uid v. intros uid v Hv.
      destruct (Hmode uid v Hv) as [Hv0|[Hw|(cfg & Hcfg & _)]]; [right; by apply Hm|by right|left; by exists cfg].
Qed.
End Marker.

(** ** Witness and examples *)
Definition include_policy : ConfigMap := {[1000 := mkSplitConfig Include [] ["192.0.2.0/24"]]}.
Definition installed : SocketMarker := (@sync_configs example_lib include_policy ∅ (mkKernel fresh_marker [])).2.(k_marker).

Lemma fresh_modes_exact : modes_exact fresh_marker.
Proof. intros uid v. unfold wanted_mode. simpl. rewrite lookup_empty. split; [done|]. by intros (c & Hc & _). Qed.

Lemma sync_exact_witness :
  let '(r, w') := @sync_configs example_lib include_policy ∅ (mkKernel fresh_marker [false; false]) in
  r = Ok tt /\ @exact example_lib w'.(k_marker) /\ modes_exact w'.(k_marker) /\
  w'.(k_marker).(range_map) = {[(false, mkLpmKey 56 1000 [192; 0; 2; 0])]} /\
  w'.(k_marker).(mode_map) = {[1000 := 1]}.
Proof.
  pose proof (@sync_exact example_lib include_policy ∅ (mkKernel fresh_marker [false; false]) (@fresh_exact example_lib)) as H.
  cbv zeta in H. remember (@sync_configs example_lib include_policy ∅ (mkKernel fresh_marker [false; false])) as p eqn:E.
  vm_compute in E. subst p. destruct H as (_ & _ & _ & Hx & _ & _ & used & HF & Hm).
  split; [reflexivity|]. split; [exact Hx|]. split.
  - apply Hm; [|exact fresh_modes_exact]. cbn [k_faults] in HF. rewrite app_nil_r in HF. rewrite <- HF. set_solver.
  - split; vm_compute; reflexivity.
Defined.

(** Without configurations the mode is gone, unless its deletion failed: the call's error is dropped and
    [sync_configs] succeeds over a mode of a user who is no longer configured, which no later
    replacement deletes.  The user's ranges are gone, so that the mode decides nothing. *)
Example mode_deleted :
  let '(r, w') := @sync_configs example_lib ∅ ∅ (mkKernel installed []) in
  r = Ok tt /\ w'.(k_marker).(mode_map) = ∅.
Proof. vm_compute. by split. Qed.
Example stale_mode_survives :
  let '(r, w') := @sync_configs example_lib ∅ ∅ (mkKernel installed [true]) in
  r = Ok tt /\ w'.(k_marker).(mode_map) = {[1000 := 1]} /\ w'.(k_marker).(range_map) = ∅ /\
  w'.(k_marker).(m_configs) = ∅.
Proof. vm_compute. done. Qed.
