(* ===== verification/SplitEngine.v ===== *)
(** The engine of the split-tunnelling daemon ([splitd/src/engine.rs]): process tracking,
    reconciliation of the kernel with the configurations, process events, and the D-Bus requests with
    their rollbacks.

    One [engine] value is the state behind the mutex together with the world: the state file, the
    trace of [ip] commands, the faults of the kernel map operations and the processes of [/proc].
    Every operation holds the lock from start to end, so a sequence of operations is a sequence of
    steps. *)
From S2P Require Export SplitMarker.
Open Scope string_scope.
Open Scope Z_scope.
Open Scope list_scope.
Open Scope rust_scope.

(** ** Processes *)
Record ProcessInfo : Type := mkProcess {
  pi_uid : Z;
  pi_pid : Z;
  pi_ppid : Z;
  pi_identities : list string }.

Inductive ProcessEvent : Type :=
  | Fork (parent child : Z)
  | Exec (pid : Z)
  | Exit (pid : Z).

Record TrackedProcess : Type := mkTracked {
  tp_uid : Z;
  tp_matched : bool;
  tp_excluded : bool }.

#[export] Instance TrackedProcess_eq_dec : EqDecision TrackedProcess.
Proof. solve_decision. Defined.

Definition needs_process_tracking (c : SplitConfig) : bool :=
  has_app_rules c || (bool_decide (c.(sc_mode) = Include) && has_rules c).

(** ** [build_tracking] *)
Definition initial_matches (configs : ConfigMap) (processes : list ProcessInfo) : gmap Z bool :=
  foldl (fun m p =>
    match configs !! p.(pi_uid) with
    | Some c => <[p.(pi_pid) := matches c p.(pi_identities)]> m
    | None => m
    end) ∅ processes.

Definition propagate_one (st : gmap Z bool * bool) (p : ProcessInfo) : gmap Z bool * bool :=
  if bool_decide (st.1 !! p.(pi_pid) = Some false) && bool_decide (st.1 !! p.(pi_ppid) = Some true)
  then (<[p.(pi_pid) := true]> st.1, true) else st.

Definition propagate_pass (processes : list ProcessInfo) (m : gmap Z bool) : gmap Z bool * bool :=
  foldl propagate_one (m, false) processes.

(** At most [n] passes, stopping after one that changes nothing. *)
Fixpoint propagate (n : nat) (processes : list ProcessInfo) (m : gmap Z bool) : gmap Z bool :=
  match n with
  | O => m
  | S n =>
      let '(m', changed) := propagate_pass processes m in
      if changed then propagate n processes m' else m'
  end.

Definition tracked_of (c : SplitConfig) (uid : Z) (matched : bool) : TrackedProcess :=
  mkTracked uid matched (excludes c matched).

Definition build_tracking (configs : ConfigMap) (processes : list ProcessInfo) : gmap Z TrackedProcess :=
  let m := propagate (length processes) processes (initial_matches configs processes) in
  foldl (fun t p =>
    match configs !! p.(pi_uid) with
    | Some c => <[p.(pi_pid) := tracked_of c p.(pi_uid) (unwrap_or (m !! p.(pi_pid)) false)]> t
    | None => t
    end) ∅ processes.

(** ** State *)
Record Inner : Type := mkInner {
  in_configs : ConfigMap;
  in_policies : PolicyMap;
  in_marker : option SocketMarker;
  in_tracked : gmap Z TrackedProcess;
  in_bypass : BypassMap }.

Record engine : Type := mkEngine {
  e_inner : Inner;
  e_fs : fs;
  e_trace : trace;
  e_faults : list bool;
  e_processes : list ProcessInfo }.

Definition set_inner (i : Inner) (e : engine) : engine :=
  mkEngine i e.(e_fs) e.(e_trace) e.(e_faults) e.(e_processes).
Definition with_configs (c : ConfigMap) (i : Inner) : Inner :=
  mkInner c i.(in_policies) i.(in_marker) i.(in_tracked) i.(in_bypass).
Definition with_policies (p : PolicyMap) (i : Inner) : Inner :=
  mkInner i.(in_configs) p i.(in_marker) i.(in_tracked) i.(in_bypass).
Definition with_marker (m : option SocketMarker) (i : Inner) : Inner :=
  mkInner i.(in_configs) i.(in_policies) m i.(in_tracked) i.(in_bypass).
Definition with_tracked (t : gmap Z TrackedProcess) (i : Inner) : Inner :=
  mkInner i.(in_configs) i.(in_policies) i.(in_marker) t i.(in_bypass).
Definition with_bypass (b : BypassMap) (i : Inner) : Inner :=
  mkInner i.(in_configs) i.(in_policies) i.(in_marker) i.(in_tracked) b.

Definition get : M engine Inner := fun e => (Ok e.(e_inner), e).
Definition put (f : Inner -> Inner) : M engine unit := fun e => (Ok tt, set_inner (f e.(e_inner)) e).

Definition on_fs {A : Type} (m : M fs A) : M engine A := fun e =>
  let '(r, w) := m e.(e_fs) in (r, mkEngine e.(e_inner) w e.(e_trace) e.(e_faults) e.(e_processes)).
Definition on_trace {A : Type} (m : M trace A) : M engine A := fun e =>
  let '(r, t) := m e.(e_trace) in (r, mkEngine e.(e_inner) e.(e_fs) t e.(e_faults) e.(e_processes)).

(** [expect("marker initialized")]: the callers have a marker. *)
Definition on_marker {A : Type} (m : M kernel A) : M engine A := fun e =>
  match e.(e_inner).(in_marker) with
  | None => (Err (io_other "marker initialized"), e)
  | Some marker =>
      let '(r, k) := m (mkKernel marker e.(e_faults)) in
      (r, mkEngine (with_marker (Some k.(k_marker)) e.(e_inner)) e.(e_fs) e.(e_trace) k.(k_faults)
            e.(e_processes))
  end.

(** A system call without a state of its own: attaching the programs, listing [/proc]. *)
Definition kernel_call (what : string) : M engine unit := fun e =>
  match e.(e_faults) with
  | f :: rest =>
      (if f then Err (io_other what) else Ok tt,
       mkEngine e.(e_inner) e.(e_fs) e.(e_trace) rest e.(e_processes))
  | [] => (Ok tt, e)
  end.

Definition scan : M engine (list ProcessInfo) := fun e =>
  bind (kernel_call "unable to read /proc") (fun _ e => (Ok e.(e_processes), e)) e.

Definition read_process (pid : Z) (processes : list ProcessInfo) : option ProcessInfo :=
  find_first (fun p => p.(pi_pid) =? pid) processes.

Definition map_values {A : Type} (m : gmap Z A) : list A := map snd (entries m).

Definition configured_user_count (i : Inner) : Z :=
  Z.of_nat (size (dom i.(in_configs) ∪ dom i.(in_policies))).

Section Engine.
Context {L : IpLib} {J : JsonText}.
Context (ip : trace -> list string -> result string string) (ip_json : string -> result (list json) string).
(** [routing_enabled] and the store: both [true] for the system's engine. *)
Context (routing_enabled : bool) (store : StateStore).

Definition unmark (excluded : list (Z * TrackedProcess)) : M engine unit :=
  for_each (fun p : Z * TrackedProcess => on_marker (set_excluded p.1 false)) excluded.

Definition reconcile : M engine unit :=
  let! inner := get in
  if negb (existsb has_rules (map_values inner.(in_configs)))
     && negb (existsb (fun ranges => match ranges with [] => false | _ => true end)
                (map_values inner.(in_policies)))
  then put (fun i => with_marker None (with_tracked ∅ i))
  else
    (match inner.(in_marker) with
     | None => kernel_call "unable to attach" ;;! put (with_marker (Some fresh_marker))
     | Some _ => ret tt
     end) ;;!
    on_marker (sync_configs inner.(in_configs) inner.(in_policies)) ;;!
    if negb (existsb needs_process_tracking (map_values inner.(in_configs))) then
      unmark (retain (fun p => p.2.(tp_excluded)) (entries inner.(in_tracked))) ;;!
      put (with_tracked ∅)
    else
      let! processes := scan in
      let next := build_tracking inner.(in_configs) processes in
      unmark (retain (fun p => p.2.(tp_excluded) &&
                negb (match next !! p.1 with Some q => q.(tp_excluded) | None => false end))
                (entries inner.(in_tracked))) ;;!
      for_each (fun p : Z * TrackedProcess => on_marker (set_excluded p.1 true))
        (retain (fun p => p.2.(tp_excluded)) (entries next)) ;;!
      put (with_tracked next).

Definition is_excluded (t : option TrackedProcess) : bool :=
  match t with Some p => p.(tp_excluded) | None => false end.

Definition untrack (pid : Z) : M engine unit :=
  let! inner := get in
  put (fun i => with_tracked (delete pid i.(in_tracked)) i) ;;!
  if is_excluded (inner.(in_tracked) !! pid) then on_marker (set_excluded pid false) else ret tt.

Definition track (pid : Z) (p : TrackedProcess) : M engine unit :=
  on_marker (set_excluded pid p.(tp_excluded)) ;;!
  put (fun i => with_tracked (<[pid := p]> i.(in_tracked)) i).

Definition tracked_info (configs : ConfigMap) (already : bool) (info : ProcessInfo) : option TrackedProcess :=
  match configs !! info.(pi_uid) with
  | Some c => Some (tracked_of c info.(pi_uid) (already || matches c info.(pi_identities)))
  | None => None
  end.

Definition is_matched (t : option TrackedProcess) : bool :=
  match t with Some p => p.(tp_matched) | None => false end.

Definition handle_event (event : ProcessEvent) : M engine unit := fun e =>
  let inner := e.(e_inner) in
  match inner.(in_marker) with
  | None => (Ok tt, e)
  | Some _ =>
      match event with
      | Exit pid => untrack pid
      | Fork parent child =>
          match
            match inner.(in_tracked) !! parent with
            | Some parent =>
                match inner.(in_configs) !! parent.(tp_uid) with
                | Some c => Some (tracked_of c parent.(tp_uid) parent.(tp_matched))
                | None => None
                end
            | None =>
                match read_process child e.(e_processes) with
                | Some info => tracked_info inner.(in_configs) false info
                | None => None
                end
            end
          with
          | Some process => track child process
          | None => ret tt
          end
      | Exec pid =>
          match read_process pid e.(e_processes) with
          | None => ret tt
          | Some info =>
              match tracked_info inner.(in_configs) (is_matched (inner.(in_tracked) !! pid)) info with
              | None => untrack pid
              | Some process => track pid process
              end
          end
      end e
  end.

(** ** Requests *)
Definition persisted (i : Inner) : LoadedState := mkLoaded i.(in_configs) i.(in_policies) i.(in_bypass).

Definition save_inner : M engine unit :=
  let! inner := get in on_fs (save store (persisted inner)).

Definition put_bypass (uid : Z) (routes : list PhysicalRoute) : M engine unit :=
  put (fun i => with_bypass (<[uid := routes]> i.(in_bypass)) i).
Definition drop_bypass (uid : Z) : M engine unit :=
  put (fun i => with_bypass (delete uid i.(in_bypass)) i).

Definition disable_routes (uid : Z) (routes : list PhysicalRoute) : M engine unit :=
  on_trace (disable ip uid routes).
Definition enable_routes (uid : Z) (routes : list PhysicalRoute) : M engine (list PhysicalRoute) :=
  on_trace (enable ip ip_json uid routes).

(** [if let Ok(installed) = routing::enable(..) { insert }], for routes that were installed before. *)
Definition restore_bypass (uid : Z) (routes : option (list PhysicalRoute)) : M engine unit :=
  match routes with
  | None => ret tt
  | Some routes =>
      attempt (enable_routes uid routes) (fun r =>
        match r with
        | Ok installed => put_bypass uid installed
        | Err _ => ret tt
        end)
  end.

(** Remove the installed bypass, if any. *)
Definition remove_bypass (uid : Z) (routes : option (list PhysicalRoute)) : M engine unit :=
  match routes with
  | None => ret tt
  | Some routes => disable_routes uid routes ;;! drop_bypass uid
  end.

Definition reconcile_and_save : M engine unit := reconcile ;;! save_inner.

Definition over_limit (uid : Z) (i : Inner) : bool :=
  bool_decide (i.(in_configs) !! uid = None) && bool_decide (i.(in_policies) !! uid = None)
  && (MAX_CONFIGS <=? configured_user_count i).

Definition limit_error (what : string) : io_error :=
  mkIoError InvalidInput ("at most " +:+ dec MAX_CONFIGS +:+ " users may configure " +:+ what).

Definition restore {A : Type} (uid : Z) (previous : option A) (m : gmap Z A) : gmap Z A :=
  match previous with Some v => <[uid := v]> m | None => delete uid m end.

Definition set_config (uid : Z) (config : SplitConfig) : M engine unit :=
  let! inner := get in
  if over_limit uid inner then throw (limit_error "split tunneling")
  else
    let bypass := if routing_enabled && negb (has_rules config) then inner.(in_bypass) !! uid else None in
    remove_bypass uid bypass ;;!
    let previous := inner.(in_configs) !! uid in
    put (fun i => with_configs (<[uid := config]> i.(in_configs)) i) ;;!
    attempt reconcile_and_save (fun r =>
      match r with
      | Ok _ => ret tt
      | Err error =>
          put (fun i => with_configs (restore uid previous i.(in_configs)) i) ;;!
          ignore reconcile ;;!
          restore_bypass uid bypass ;;!
          throw error
      end).

Definition clear_config (uid : Z) : M engine unit :=
  let! inner := get in
  let bypass := inner.(in_bypass) !! uid in
  (if routing_enabled then remove_bypass uid bypass else ret tt) ;;!
  let previous := inner.(in_configs) !! uid in
  put (fun i => with_configs (delete uid i.(in_configs)) i) ;;!
  attempt reconcile_and_save (fun r =>
    match r with
    | Ok _ => ret tt
    | Err error =>
        (match previous with
         | Some config =>
             put (fun i => with_configs (<[uid := config]> i.(in_configs)) i) ;;! ignore reconcile
         | None => ret tt
         end) ;;!
        restore_bypass uid bypass ;;!
        throw error
    end).

Definition set_kill_switch_bypass (uid : Z) (enabled : bool) (routes : list PhysicalRoute) : M engine unit :=
  let! inner := get in
  if negb routing_enabled
  then throw (mkIoError Unsupported "kernel routing is disabled for this engine")
  else if enabled && negb (match inner.(in_configs) !! uid with Some c => has_rules c | None => false end)
  then throw (mkIoError InvalidInput "kill-switch bypass requires an active split-tunneling policy")
  else
    let previous := inner.(in_bypass) !! uid in
    if enabled then
      if bool_decide (previous = Some routes) then ret tt
      else
        remove_bypass uid previous ;;!
        attempt (enable_routes uid routes) (fun r =>
          match r with
          | Err error => restore_bypass uid previous ;;! throw error
          | Ok installed =>
              put_bypass uid installed ;;!
              attempt save_inner (fun r =>
                match r with
                | Ok _ => ret tt
                | Err error =>
                    drop_bypass uid ;;!
                    ignore (disable_routes uid installed) ;;!
                    restore_bypass uid previous ;;!
                    throw error
                end)
          end)
    else
      match previous with
      | None => ret tt
      | Some installed =>
          disable_routes uid installed ;;!
          drop_bypass uid ;;!
          attempt save_inner (fun r =>
            match r with
            | Ok _ => ret tt
            | Err error => restore_bypass uid (Some installed) ;;! throw error
            end)
      end.

Definition set_destination_policy (uid : Z) (ranges : list string) : M engine unit :=
  let! inner := get in
  if over_limit uid inner then throw (limit_error "destination policies")
  else
    let previous := inner.(in_policies) !! uid in
    put (fun i => with_policies (match ranges with
                                 | [] => delete uid i.(in_policies)
                                 | _ => <[uid := ranges]> i.(in_policies)
                                 end) i) ;;!
    attempt reconcile_and_save (fun r =>
      match r with
      | Ok _ => ret tt
      | Err error =>
          put (fun i => with_policies (restore uid previous i.(in_policies)) i) ;;!
          ignore reconcile ;;!
          throw error
      end).

(** ** Queries *)
Definition get_config (uid : Z) (e : engine) : option SplitConfig := e.(e_inner).(in_configs) !! uid.
Definition destination_policy (uid : Z) (e : engine) : list string :=
  unwrap_or (e.(e_inner).(in_policies) !! uid) [].
Definition get_all_configs (e : engine) : list (Z * SplitConfig) := entries e.(e_inner).(in_configs).
Definition status (e : engine) : Z * Z * bool :=
  (Z.of_nat (size e.(e_inner).(in_configs)), Z.of_nat (size e.(e_inner).(in_tracked)),
   match e.(e_inner).(in_marker) with Some _ => true | None => false end).

(** ** Start-up: [with_store] up to the first reconciliation *)
Definition start_engine : M engine unit :=
  let! loaded := on_fs (load store) in
  let! kept :=
    (if routing_enabled then
       for_each (fun p : Z * list PhysicalRoute => disable_routes p.1 p.2) (entries loaded.(ls_bypass)) ;;!
       (if bool_decide (loaded.(ls_bypass) = ∅) then ret loaded
        else
          let cleared := mkLoaded loaded.(ls_configs) loaded.(ls_policies) ∅ in
          on_fs (save store cleared) ;;! ret cleared)
     else ret loaded) in
  put (fun _ => mkInner kept.(ls_configs) kept.(ls_policies) None ∅ ∅) ;;!
  reconcile.
End Engine.

(** ** Process tracking

    [build_tracking] computes inheritance of matches from parents, and its bounded loop always reaches the fixpoint. *)
Section Tracking.
Context (configs : ConfigMap) (processes : list ProcessInfo).
Context (Hpids : NoDup (map pi_pid processes)).

(** A process of a configured user is matched when its own identities match or its parent is
    matched. *)
Inductive inherits : Z -> Prop :=
  | inherits_direct p c :
      p ∈ processes -> configs !! p.(pi_uid) = Some c -> matches c p.(pi_identities) = true ->
      inherits p.(pi_pid)
  | inherits_parent p c :
      p ∈ processes -> configs !! p.(pi_uid) = Some c -> inherits p.(pi_ppid) -> inherits p.(pi_pid).

(** A match map is sound when its entries belong to configured processes and its [true] entries are
    inherited; it is complete for direct matches when it holds them all. *)
Record sound (m : gmap Z bool) : Prop := mkSound {
  so_dom : forall pid, is_Some (m !! pid) <->
    exists p c, p ∈ processes /\ p.(pi_pid) = pid /\ configs !! p.(pi_uid) = Some c;
  so_true : forall pid, m !! pid = Some true -> inherits pid;
  so_direct : forall p c, p ∈ processes -> configs !! p.(pi_uid) = Some c ->
    matches c p.(pi_identities) = true -> m !! p.(pi_pid) = Some true }.

Definition closed (m : gmap Z bool) : Prop :=
  forall p, p ∈ processes -> m !! p.(pi_pid) = Some false -> m !! p.(pi_ppid) <> Some true.

Lemma fold_pids_lookup {A : Type} (f : ProcessInfo -> option A) l pid (m0 : gmap Z A) :
  NoDup (map pi_pid l) ->
  foldl (fun m p => match f p with Some v => <[p.(pi_pid) := v]> m | None => m end) m0 l !! pid =
  match find_first (fun p => p.(pi_pid) =? pid) l with
  | Some p => match f p with Some v => Some v | None => m0 !! pid end
  | None => m0 !! pid
  end.
Proof.
  revert m0. induction l as [|p l IH]; intros m0 Hnd; [done|]. simpl in *.
  apply NoDup_cons in Hnd as [Hp Hnd]. rewrite IH by done. clear IH.
  destruct (p.(pi_pid) =? pid) eqn:E; bool_prop.
  - assert (find_first (fun q => q.(pi_pid) =? pid) l = None) as ->.
    { apply find_first_None, Forall_forall. intros q Hq. apply Z.eqb_neq. intros Hq'.
      apply Hp. rewrite list_elem_of_In, in_map_iff. exists q. rewrite list_elem_of_In in Hq. split; [congruence|done]. }
    destruct (f p); [|done]. subst. by rewrite lookup_insert_eq.
  - destruct (find_first _ l) as [q|]; [destruct (f q); [done|]|];
      (destruct (f p); [by rewrite lookup_insert_ne|done]).
Qed.

Lemma find_pid p : p ∈ processes -> find_first (fun q => q.(pi_pid) =? p.(pi_pid)) processes = Some p.
Proof.
  revert Hpids. induction processes as [|q l IH]; intros Hnd' Hp; [by apply elem_of_nil in Hp|]. simpl in *.
  apply NoDup_cons in Hnd' as [Hq Hnd]. apply elem_of_cons in Hp as [->|Hp]; [by rewrite Z.eqb_refl|].
  destruct (pi_pid q =? pi_pid p) eqn:E; [|by apply IH]. bool_prop. destruct Hq. rewrite E.
  by apply list_elem_of_fmap_2.
Qed.

Lemma initial_lookup pid :
  initial_matches configs processes !! pid =
  match find_first (fun p => p.(pi_pid) =? pid) processes with
  | Some p => match configs !! p.(pi_uid) with Some c => Some (matches c p.(pi_identities)) | None => None end
  | None => None
  end.
Proof.
  unfold initial_matches.
  pose proof (fold_pids_lookup (fun p => match configs !! p.(pi_uid) with
    | Some c => Some (matches c p.(pi_identities)) | None => None end) processes pid ∅ Hpids) as H.
  rewrite lookup_empty in H.
  etransitivity; [|etransitivity; [exact H|]]; [|by repeat case_match].
  f_equal. clear H Hpids. generalize (∅ : gmap Z bool). induction processes as [|p l IH]; intros m; simpl; [done|].
  rewrite IH. by destruct (configs !! pi_uid p).
Qed.

Lemma initial_sound : sound (initial_matches configs processes).
Proof.
  split.
  - intros pid. rewrite initial_lookup. split.
    + destruct (find_first _ _) as [p|] eqn:E; [|by intros []].
      apply find_first_Some in E as [Hp E]. apply Z.eqb_eq in E.
      destruct (configs !! pi_uid p) eqn:Hc; [|by intros []]. intros _. eauto.
    + intros (p & c & Hp & <- & Hc). rewrite find_pid, Hc by done. by eexists.
  - intros pid. rewrite initial_lookup. destruct (find_first _ _) as [p|] eqn:E; [|done].
    apply find_first_Some in E as [Hp E]. apply Z.eqb_eq in E as <-.
    destruct (configs !! pi_uid p) eqn:Hc; [|done]. intros [= Hm]. by eapply inherits_direct.
  - intros p c Hp Hc Hm. rewrite initial_lookup, find_pid, Hc by done. congruence.
Qed.

Lemma one_sound m changed p :
  p ∈ processes -> sound m -> sound (propagate_one (m, changed) p).1.
Proof.
  intros Hp Hs. unfold propagate_one. simpl. destruct (bool_decide _ && _) eqn:E; [|done]. simpl. bool_prop.
  destruct Hs as [Hdom Htrue Hdirect].
  split.
  - intros pid. rewrite <- Hdom. destruct (decide (pid = p.(pi_pid))) as [->|]; [|by rewrite lookup_insert_ne].
    rewrite lookup_insert_eq. split; intros _; by eexists.
  - intros pid. destruct (decide (pid = p.(pi_pid))) as [->|]; [|by rewrite lookup_insert_ne; auto]. intros _.
    destruct (proj1 (Hdom p.(pi_pid))) as (q & c & Hq & Hpq & Hc); [by eexists|].
    apply find_pid in Hq. apply find_pid in Hp as Hp'. rewrite Hpq, Hp' in Hq. injection Hq as ->.
    eapply inherits_parent; [done..|]. by apply Htrue.
  - intros q c Hq Hc Hm. destruct (decide (q.(pi_pid) = p.(pi_pid))) as [->|]; [by rewrite lookup_insert_eq|].
    rewrite lookup_insert_ne by done. by eapply Hdirect.
Qed.

Lemma fold_sound l m changed :
  (forall p, p ∈ l -> p ∈ processes) -> sound m -> sound (foldl propagate_one (m, changed) l).1.
Proof.
  revert m changed. induction l as [|p l IH]; intros m changed Hl Hs; [done|]. simpl.
  pose proof (one_sound m changed p (Hl p ltac:(left)) Hs) as Hs'.
  destruct (propagate_one (m, changed) p) as [m' changed']. apply IH; [|done]. intros q Hq. apply Hl. by right.
Qed.

Lemma fold_changed l st : st.2 = true -> (foldl propagate_one st l).2 = true.
Proof.
  revert st. induction l as [|p l IH]; intros st Hst; [done|]. simpl. apply IH.
  unfold propagate_one. by destruct (_ && _).
Qed.

Lemma fold_unchanged l m :
  (foldl propagate_one (m, false) l).2 = false ->
  (foldl propagate_one (m, false) l).1 = m /\
  forall p, p ∈ l -> m !! p.(pi_pid) = Some false -> m !! p.(pi_ppid) <> Some true.
Proof.
  induction l as [|p l IH]; simpl; [split; [done|]; intros p Hp; by apply elem_of_nil in Hp|].
  unfold propagate_one at 2 4. simpl. destruct (bool_decide _ && _) eqn:E.
  - intros H. by rewrite fold_changed in H.
  - intros [H1 H2]%IH. split; [done|]. intros q Hq H3 H4. apply elem_of_cons in Hq as [->|Hq].
    + rewrite H3, H4 in E. done.
    + by apply (H2 q).
Qed.

(** The number of entries a further pass could still flip. *)
Definition falses (m : gmap Z bool) : nat := size (filter (fun kv : Z * bool => kv.2 = false) m).

Lemma falses_insert m pid : m !! pid = Some false -> falses m = S (falses (<[pid := true]> m)).
Proof.
  intros H. unfold falses. rewrite map_filter_insert_False by done.
  rewrite <- (insert_delete_id m pid false H) at 1. rewrite map_filter_insert_True by done.
  rewrite map_size_insert_None; [done|]. apply map_lookup_filter_None. left. apply lookup_delete_eq.
Qed.

Lemma fold_falses l m changed :
  (falses (foldl propagate_one (m, changed) l).1 <= falses m)%nat /\
  (changed = false -> (foldl propagate_one (m, changed) l).2 = true ->
   (falses (foldl propagate_one (m, changed) l).1 < falses m)%nat).
Proof.
  revert m changed. induction l as [|p l IH]; intros m changed; simpl; [split; [lia|]; by intros ->|].
  unfold propagate_one at 2 4 6. simpl. destruct (bool_decide _ && _) eqn:E; [|apply IH]. bool_prop.
  pose proof (falses_insert m p.(pi_pid)) as Hf.
  destruct (IH (<[pi_pid p := true]> m) true) as [IH1 _]. split; [|intros _ _]; rewrite Hf; (done || lia).
Qed.

Lemma propagate_fixpoint n m :
  sound m -> (falses m <= n)%nat -> sound (propagate n processes m) /\ closed (propagate n processes m).
Proof.
  revert m. induction n as [|n IH]; intros m Hs Hn; simpl.
  - split; [done|]. intros p Hp Hfalse _. rewrite (falses_insert m _ Hfalse) in Hn. lia.
  - pose proof (fold_sound processes m false (fun p Hp => Hp) Hs) as Hs'.
    destruct (fold_falses processes m false) as [Hle Hlt].
    pose proof (fold_unchanged processes m) as Hun. unfold propagate_pass.
    destruct (foldl propagate_one (m, false) processes) as [m' [|]]; simpl in *.
    + apply IH; [done|]. specialize (Hlt eq_refl eq_refl). lia.
    + destruct (Hun eq_refl) as [-> Hclosed]. by split.
Qed.

Lemma initial_falses : (falses (initial_matches configs processes) <= length processes)%nat.
Proof.
  unfold falses. rewrite <- (size_dom (D:=gset Z)).
  transitivity (size (list_to_set (map pi_pid processes) : gset Z)).
  - apply subseteq_size. intros pid [v [Hv _]%map_lookup_filter_Some]%elem_of_dom.
    rewrite initial_lookup in Hv. destruct (find_first _ _) as [p|] eqn:E; [|done].
    apply find_first_Some in E as [Hp E]. apply Z.eqb_eq in E as <-. apply elem_of_list_to_set.
    by apply list_elem_of_fmap_2.
  - rewrite size_list_to_set by exact Hpids. by rewrite length_map.
Qed.

Lemma matches_fixpoint pid :
  propagate (length processes) processes (initial_matches configs processes) !! pid = Some true <-> inherits pid.
Proof.
  destruct (propagate_fixpoint (length processes) _ initial_sound initial_falses) as [[Hdom Htrue Hdirect] Hcl].
  split; [apply Htrue|]. induction 1 as [p c Hp Hc Hm|p c Hp Hc _ IH]; [by eapply Hdirect|].
  destruct (proj2 (Hdom p.(pi_pid))) as [[] Hb]; [by exists p, c|done|]. by destruct (Hcl p Hp Hb).
Qed.

Lemma tracking_lookup pid t :
  build_tracking configs processes !! pid = Some t <->
  exists p c, p ∈ processes /\ p.(pi_pid) = pid /\ configs !! p.(pi_uid) = Some c /\
    t.(tp_uid) = p.(pi_uid) /\ (t.(tp_matched) = true <-> inherits pid) /\
    t.(tp_excluded) = excludes c t.(tp_matched).
Proof.
  unfold build_tracking. set (m := propagate _ _ _).
  pose proof (fold_pids_lookup (fun p => match configs !! p.(pi_uid) with
    | Some c => Some (tracked_of c p.(pi_uid) (unwrap_or (m !! p.(pi_pid)) false)) | None => None end)
    processes pid ∅ Hpids) as H.
  rewrite lookup_empty in H.
  assert (E : foldl (fun t p => match configs !! p.(pi_uid) with
    | Some c => <[p.(pi_pid) := tracked_of c p.(pi_uid) (unwrap_or (m !! p.(pi_pid)) false)]> t
    | None => t end) (∅ : gmap Z TrackedProcess) processes !! pid =
    match find_first (fun p => p.(pi_pid) =? pid) processes with
    | Some p => match configs !! p.(pi_uid) with
                | Some c => Some (tracked_of c p.(pi_uid) (unwrap_or (m !! p.(pi_pid)) false))
                | None => None end
    | None => None end).
  { etransitivity; [|etransitivity; [exact H|]]; [|by repeat case_match].
    f_equal. clear H. generalize (∅ : gmap Z TrackedProcess). clearbody m. clear Hpids.
    induction processes as [|p l IH]; intros t0; simpl; [done|]. rewrite IH. by destruct (configs !! pi_uid p). }
  rewrite E. clear E H.
  assert (Hm : forall pid, unwrap_or (m !! pid) false = true <-> inherits pid).
  { intros pid'. rewrite <- matches_fixpoint. fold m. destruct (m !! pid') as [[]|]; simpl; split; congruence. }
  split.
  - destruct (find_first _ _) as [p|] eqn:Ef; [|done]. apply find_first_Some in Ef as [Hp Ef].
    apply Z.eqb_eq in Ef. destruct (configs !! pi_uid p) as [c|] eqn:Hc; [|done]. intros [= <-].
    exists p, c. split_and!; try done. simpl. rewrite Hm. by rewrite Ef.
  - intros (p & c & Hp & <- & Hc & Hu & Hmt & Hx). rewrite find_pid, Hc by done. f_equal.
    destruct t as [u mt x]. simpl in *. subst. unfold tracked_of.
    assert (unwrap_or (m !! pi_pid p) false = mt) as ->; [|done].
    apply Bool.eq_iff_eq_true. by rewrite Hm, Hmt.
Qed.

Lemma fixpoint_true m : sound m -> closed m -> forall pid, m !! pid = Some true <-> inherits pid.
Proof.
  intros [Hdom Htrue Hdirect] Hcl pid. split; [apply Htrue|].
  induction 1 as [p c Hp Hc Hm|p c Hp Hc _ IH]; [by eapply Hdirect|].
  destruct (proj2 (Hdom p.(pi_pid))) as [[] Hb]; [by exists p, c|done|]. by destruct (Hcl p Hp Hb).
Qed.

Lemma fixpoint_unique m1 m2 : sound m1 -> closed m1 -> sound m2 -> closed m2 -> m1 = m2.
Proof.
  intros Hs1 Hc1 Hs2 Hc2. apply map_eq. intros pid.
  pose proof (fixpoint_true m1 Hs1 Hc1 pid) as H1. pose proof (fixpoint_true m2 Hs2 Hc2 pid) as H2.
  pose proof (so_dom _ Hs1 pid) as D1. pose proof (so_dom _ Hs2 pid) as D2.
  assert (Ht : m1 !! pid = Some true <-> m2 !! pid = Some true) by by rewrite H1, H2.
  assert (Hd : is_Some (m1 !! pid) <-> is_Some (m2 !! pid)) by by rewrite D1, D2.
  clear H1 H2 D1 D2. destruct Ht as [A B], Hd as [C D].
  destruct (m1 !! pid) as [[]|], (m2 !! pid) as [[]|];
    first [reflexivity|discriminate (A eq_refl)|discriminate (B eq_refl)
          |by destruct (C ltac:(by eexists))|by destruct (D ltac:(by eexists))].
Qed.
End Tracking.

(** C20: what the daemon tracks.  A listed process of a configured user is tracked with exactly the
    match its ancestry gives it (its own identities, or those of its parent, transitively), every
    other process is not tracked, and a process is excluded as its user's mode says.  The number of
    passes the code allows is always enough: more passes change nothing. *)
Theorem tracking_inherits configs processes :
  NoDup (map pi_pid processes) ->
  (forall pid t, build_tracking configs processes !! pid = Some t <->
    exists p c, p ∈ processes /\ p.(pi_pid) = pid /\ configs !! p.(pi_uid) = Some c /\
      t.(tp_uid) = p.(pi_uid) /\ (t.(tp_matched) = true <-> inherits configs processes pid) /\
      t.(tp_excluded) = excludes c t.(tp_matched)) /\
  (forall n, (length processes <= n)%nat ->
    propagate n processes (initial_matches configs processes) =
    propagate (length processes) processes (initial_matches configs processes)).
Proof.
  intros Hnd. split; [intros pid t; by apply tracking_lookup|]. intros n Hn.
  pose proof (initial_sound configs processes Hnd) as Hs.
  pose proof (initial_falses configs processes Hnd) as Hf.
  destruct (propagate_fixpoint configs processes Hnd n _ Hs) as [S1 C1]; [lia|].
  destruct (propagate_fixpoint configs processes Hnd (length processes) _ Hs) as [S2 C2]; [lia|].
  by apply (fixpoint_unique configs processes).
Qed.

Lemma tracking_inherits_witness :
  let configs : ConfigMap := {[1000 := mkSplitConfig Exclude ["/usr/bin/firefox"] []]} in
  let processes := [mkProcess 1000 12 11 ["/usr/bin/crashpad"]; mkProcess 1000 11 10 ["/usr/lib/contentproc"];
                    mkProcess 1000 10 1 ["/usr/bin/firefox --new-window"]; mkProcess 1001 13 10 []] in
  NoDup (map pi_pid processes) /\ inherits configs processes 12 /\
  build_tracking configs processes !! 12 = Some (mkTracked 1000 true true) /\
  build_tracking configs processes !! 13 = None.
Proof.
  intros configs processes.
  assert (Hnd : NoDup (map pi_pid processes)) by (apply (bool_decide_unpack _); vm_compute; exact I).
  pose proof (tracking_inherits configs processes Hnd) as [H _].
  split; [exact Hnd|]. split; [|split; vm_compute; reflexivity].
  destruct (proj1 (H 12 (mkTracked 1000 true true)) ltac:(vm_compute; reflexivity)) as (_ & _ & _ & _ & _ & _ & Hi & _).
  by apply Hi.
Defined.
