(* ===== verification/SplitRequests.v ===== *)
(** The requests of the split-tunnelling daemon: each takes effect entirely and durably or leaves the
    policy alone, and every state the daemon reaches or saves can be loaded again. *)
From S2P Require Export SplitEngine.
Open Scope string_scope.
Open Scope Z_scope.
Open Scope list_scope.
Open Scope rust_scope.

Section Requests.
Context {L : IpLib} {LW : IpLaws L} {J : JsonText}.
Context (ip : trace -> list string -> result string string) (ip_json : string -> result (list json) string).

Definition state_of (e : engine) : LoadedState := persisted e.(e_inner).
Definition disk_of (e : engine) : option string := e.(e_fs).(disk).
Definition view (e : engine) : LoadedState * fs := (state_of e, e.(e_fs)).

Lemma view_eq e e' : view e' = view e -> state_of e' = state_of e /\ e_fs e' = e_fs e.
Proof. intros H. split; [exact (f_equal fst H)|exact (f_equal snd H)]. Qed.

(** ** What reconciliation leaves alone *)
Lemma keeps_put_view v f : (forall i, persisted (f i) = persisted i) -> keeps (fun e => view e = v) (put f).
Proof. intros Hf e He. unfold view, state_of in *. simpl. by rewrite Hf. Qed.

Lemma keeps_on_marker_view {A : Type} v (m : M kernel A) : keeps (fun e => view e = v) (on_marker m).
Proof. intros e He. unfold on_marker. destruct (in_marker _); [|done]. by destruct (m _) as [r k]. Qed.

Lemma keeps_kernel_call_view v what : keeps (fun e => view e = v) (kernel_call what).
Proof. intros e He. unfold kernel_call. by destruct (e_faults e). Qed.

Lemma keeps_get {P : engine -> Prop} : keeps P get.
Proof. by intros e. Qed.

Lemma keeps_scan_view v : keeps (fun e => view e = v) scan.
Proof. apply keeps_bind; [apply keeps_kernel_call_view|]. by intros _ e. Qed.

Lemma keeps_unmark_view v l : keeps (fun e => view e = v) (unmark l).
Proof. apply keeps_for_each. intros. apply keeps_on_marker_view. Qed.

Lemma keeps_reconcile v : keeps (fun e => view e = v) reconcile.
Proof.
  apply keeps_bind; [apply keeps_get|]. intros inner.
  destruct (_ && _); [by apply keeps_put_view|].
  apply keeps_bind; [|intros _].
  { destruct (in_marker inner); [apply keeps_ret|].
    apply keeps_bind; [apply keeps_kernel_call_view|]. intros _. by apply keeps_put_view. }
  apply keeps_bind; [apply keeps_on_marker_view|]. intros _.
  destruct (negb _).
  - apply keeps_bind; [apply keeps_unmark_view|]. intros _. by apply keeps_put_view.
  - apply keeps_bind; [apply keeps_scan_view|]. intros processes.
    apply keeps_bind; [apply keeps_unmark_view|]. intros _.
    apply keeps_bind; [apply keeps_for_each; intros; apply keeps_on_marker_view|]. intros _.
    by apply keeps_put_view.
Qed.

Lemma reconcile_view e r e' : reconcile e = (r, e') -> view e' = view e.
Proof. intros E. pose proof (keeps_reconcile (view e) e eq_refl) as H. by rewrite E in H. Qed.

Lemma handle_event_view event e : view (handle_event event e).2 = view e.
Proof.
  unfold handle_event. destruct (in_marker _); [|done].
  assert (Hu : forall pid, keeps (fun e' => view e' = view e) (untrack pid)).
  { intros pid. apply keeps_bind; [apply keeps_get|]. intros inner.
    apply keeps_bind; [by apply keeps_put_view|]. intros _.
    destruct (is_excluded _); [apply keeps_on_marker_view|apply keeps_ret]. }
  assert (Ht : forall pid p, keeps (fun e' => view e' = view e) (track pid p)).
  { intros pid p. apply keeps_bind; [apply keeps_on_marker_view|]. intros _. by apply keeps_put_view. }
  destruct event; repeat case_match; first [by apply Hu|by apply Ht|done].
Qed.

(** ** Specifications of the steps of a request *)
Lemma save_inner_spec e r e' :
  save_inner true e = (r, e') ->
  state_of e' = state_of e /\
  (disk_of e' = disk_of e \/ disk_of e' = Some (file_text (state_of e))) /\
  (r = Ok tt -> disk_of e' = Some (file_text (state_of e))).
Proof.
  unfold save_inner, bind, get, on_fs. fold (state_of e).
  pose proof (save_replaced (state_of e) (e_fs e)) as H. unfold state_of in *.
  destruct (save true _ (e_fs e)) as [r0 w]. intros [= <- <-]. unfold disk_of. simpl. by destruct H.
Qed.

Lemma reconcile_and_save_spec e r e' :
  reconcile_and_save true e = (r, e') ->
  state_of e' = state_of e /\
  (disk_of e' = disk_of e \/ disk_of e' = Some (file_text (state_of e))) /\
  (r = Ok tt -> disk_of e' = Some (file_text (state_of e))).
Proof.
  unfold reconcile_and_save, bind. destruct (reconcile e) as [[[]|err] e1] eqn:E1;
    apply reconcile_view, view_eq in E1 as [Es Ef].
  - intros Hsave. apply save_inner_spec in Hsave. unfold disk_of in *. by rewrite Es, Ef in Hsave.
  - intros [= <- <-]. unfold disk_of. rewrite Ef. split_and!; [done|by left|discriminate].
Qed.

Definition bypass_of (e : engine) : BypassMap := (state_of e).(ls_bypass).
(** Nothing but the bypass differs. *)
Definition same_policy (e e' : engine) : Prop :=
  (state_of e').(ls_configs) = (state_of e).(ls_configs) /\
  (state_of e').(ls_policies) = (state_of e).(ls_policies) /\ disk_of e' = disk_of e.

Lemma on_trace_view {A : Type} (m : M trace A) e : view (on_trace m e).2 = view e.
Proof. unfold on_trace. by destruct (m (e_trace e)). Qed.

Lemma remove_bypass_spec uid b e r e' :
  remove_bypass ip uid b e = (r, e') ->
  same_policy e e' /\
  match r with
  | Ok _ => bypass_of e' = match b with Some _ => delete uid (bypass_of e) | None => bypass_of e end
  | Err _ => bypass_of e' = bypass_of e
  end.
Proof.
  unfold remove_bypass. destruct b as [rs|]; [|by intros [= <- <-]].
  unfold bind. pose proof (on_trace_view (disable ip uid rs) e) as Hv. unfold disable_routes.
  destruct (on_trace (disable ip uid rs) e) as [[[]|err] e1]; simpl in Hv;
    apply view_eq in Hv as [Hs Hf]; unfold same_policy, bypass_of, disk_of.
  - unfold drop_bypass, put. intros [= <- <-]. injection Hs as H1 H2 H3. simpl. by rewrite H1, H2, H3, Hf.
  - intros [= <- <-]. by rewrite Hs, Hf.
Qed.

Lemma restore_bypass_spec uid b e r e' :
  restore_bypass ip ip_json uid b e = (r, e') ->
  r = Ok tt /\ same_policy e e' /\
  (bypass_of e' = bypass_of e \/
   exists rs, b = Some rs /\ preferred_routes rs <> [] /\
     bypass_of e' = <[uid := preferred_routes rs]> (bypass_of e)).
Proof.
  unfold restore_bypass. destruct b as [rs|]; [|intros [= <- <-]; split_and!; try done; by left].
  unfold attempt, enable_routes, on_trace.
  destruct (enable ip ip_json uid rs (e_trace e)) as [[inst|err] t] eqn:E.
  - apply enable_Ok in E as (-> & Hne & _). unfold put_bypass, put. intros [= <- <-].
    split_and!; try done. right. by exists rs.
  - intros [= <- <-]. split_and!; try done. by left.
Qed.

(** ** Outcomes *)

(** The bypass after a failed request: as before, or, for a user who had one, removed or installed
    again. *)
Definition bypass_restored (uid : Z) (b b' : BypassMap) : Prop :=
  b' = b \/
  exists rs, b !! uid = Some rs /\
    (b' = delete uid b \/ (preferred_routes rs <> [] /\ b' = <[uid := preferred_routes rs]> b)).

(** A request either reaches its target, on disk as well (or had nothing to do), or fails: then the
    configurations and policies are as before and the file holds what it held or the target. *)
Definition outcome (uid : Z) (e : engine) (target : LoadedState) (r : result unit io_error) (e' : engine) : Prop :=
  match r with
  | Ok _ =>
      state_of e' = target /\
      (disk_of e' = Some (file_text target) \/ (target = state_of e /\ disk_of e' = disk_of e))
  | Err _ =>
      (state_of e').(ls_configs) = (state_of e).(ls_configs) /\
      (state_of e').(ls_policies) = (state_of e).(ls_policies) /\
      bypass_restored uid (bypass_of e) (bypass_of e') /\
      (disk_of e' = disk_of e \/ disk_of e' = Some (file_text target))
  end.

Definition config_target (uid : Z) (config : SplitConfig) (s : LoadedState) : LoadedState :=
  mkLoaded (<[uid := config]> s.(ls_configs)) s.(ls_policies)
    (if has_rules config then s.(ls_bypass) else delete uid s.(ls_bypass)).
Definition clear_target (uid : Z) (s : LoadedState) : LoadedState :=
  mkLoaded (delete uid s.(ls_configs)) s.(ls_policies) (delete uid s.(ls_bypass)).
Definition policy_target (uid : Z) (ranges : list string) (s : LoadedState) : LoadedState :=
  mkLoaded s.(ls_configs)
    (match ranges with [] => delete uid s.(ls_policies) | _ => <[uid := ranges]> s.(ls_policies) end)
    s.(ls_bypass).
Definition bypass_target (uid : Z) (enabled : bool) (routes : list PhysicalRoute) (s : LoadedState) : LoadedState :=
  mkLoaded s.(ls_configs) s.(ls_policies)
    (if enabled then
       if bool_decide (s.(ls_bypass) !! uid = Some routes) then s.(ls_bypass)
       else <[uid := preferred_routes routes]> s.(ls_bypass)
     else delete uid s.(ls_bypass)).

Lemma same_policy_refl e : same_policy e e.
Proof. by split. Qed.

Lemma bypass_restored_refl uid b : bypass_restored uid b b.
Proof. by left. Qed.

(** The bypass once [restore_bypass] has run after the removal of the previous routes. *)
Lemma restored_after_removal uid (b b1 b2 : BypassMap) o :
  o = b !! uid \/ o = None ->
  b1 = match o with Some _ => delete uid b | None => b end ->
  b2 = b1 \/ (exists rs, o = Some rs /\ preferred_routes rs <> [] /\ b2 = <[uid := preferred_routes rs]> b1) ->
  bypass_restored uid b b2.
Proof.
  intros Ho -> H. destruct o as [rs|].
  - destruct Ho as [Ho|Ho]; [|discriminate]. right. exists rs. split; [done|].
    destruct H as [->|(rs' & [= <-] & Hne & ->)]; [by left|right]. split; [done|]. apply insert_delete_eq.
  - destruct H as [->|(rs' & ? & _)]; [by left|discriminate].
Qed.

Lemma restore_lookup {A : Type} uid (m : gmap Z A) v : restore uid (m !! uid) (<[uid := v]> m) = m.
Proof.
  unfold restore. destruct (m !! uid) as [x|] eqn:E.
  - by rewrite insert_insert_eq, insert_id.
  - by apply delete_insert_id.
Qed.

Lemma restore_delete {A : Type} uid (m : gmap Z A) x : m !! uid = Some x -> <[uid := x]> (delete uid m) = m.
Proof. intros H. by apply insert_delete_id. Qed.

(** Undo the change of the policy, reconcile, restore the bypass: the tail of a failed request. *)
Lemma undo_spec (f : Inner -> Inner) uid o error e r e' :
  (put f ;;! ignore reconcile ;;! restore_bypass ip ip_json uid o ;;! throw error)%rust e =
    ((r, e') : result unit io_error * engine) ->
  r = Err error /\ disk_of e' = disk_of e /\
  (state_of e').(ls_configs) = (f e.(e_inner)).(in_configs) /\
  (state_of e').(ls_policies) = (f e.(e_inner)).(in_policies) /\
  (bypass_of e' = (f e.(e_inner)).(in_bypass) \/
   exists rs, o = Some rs /\ preferred_routes rs <> [] /\
     bypass_of e' = <[uid := preferred_routes rs]> (f e.(e_inner)).(in_bypass)).
Proof.
  unfold bind at 1, put at 1. set (e1 := set_inner (f (e_inner e)) e).
  unfold bind at 1, ignore, attempt at 1. destruct (reconcile e1) as [r2 e2] eqn:E2.
  apply reconcile_view, view_eq in E2 as [Hs2 Hf2]. unfold ret. unfold bind at 1.
  destruct (restore_bypass ip ip_json uid o e2) as [r3 e3] eqn:E3.
  apply restore_bypass_spec in E3 as (-> & (Hc & Hp & Hd) & Hb). unfold throw. intros [= <- <-].
  injection Hs2 as H1 H2 H3. unfold disk_of, bypass_of in *. simpl in *.
  rewrite Hc, Hp, Hd, Hf2, H1, H2. split_and!; try done. by rewrite H3 in Hb.
Qed.

Lemma set_config_spec uid config e r e' :
  set_config ip ip_json true true uid config e = (r, e') ->
  outcome uid e (config_target uid config (state_of e)) r e'.
Proof.
  unfold set_config. unfold bind at 1, get. destruct (over_limit uid (e_inner e)).
  { intros [= <- <-]. split_and!; try done; [apply bypass_restored_refl|by left]. }
  simpl. set (o := if negb (has_rules config) then in_bypass (e_inner e) !! uid else None).
  unfold bind at 1. destruct (remove_bypass ip uid o e) as [[[]|err] e1] eqn:E1;
    apply remove_bypass_spec in E1 as [(Hc1 & Hp1 & Hd1) Hb1].
  2: { intros [= <- <-]. split_and!; [done..| |by left]. rewrite Hb1. apply bypass_restored_refl. }
  unfold bind at 1, put at 1. set (e2 := set_inner _ e1).
  assert (Ht : state_of e2 = config_target uid config (state_of e)).
  { unfold config_target, state_of, persisted. simpl.
    unfold bypass_of, state_of, persisted in *. simpl in *. rewrite Hc1, Hp1, Hb1. f_equal.
    unfold o. destruct (has_rules config); [done|]. simpl.
    destruct (in_bypass (e_inner e) !! uid) eqn:Eo; [done|]. by rewrite delete_id. }
  unfold attempt at 1. destruct (reconcile_and_save true e2) as [[[]|err] e3] eqn:E3;
    apply reconcile_and_save_spec in E3 as (Hs3 & Hd3 & Hok3).
  - intros [= <- <-]. split; [congruence|]. left. rewrite <- Ht. by apply Hok3.
  - intros Hundo. apply undo_spec in Hundo as (-> & Hd & Hc & Hp & Hb).
    rewrite Ht in Hs3, Hd3. injection Hs3 as H1 H2 H3. simpl in *. split_and!.
    + rewrite Hc, H1. apply restore_lookup.
    + congruence.
    + assert (Hb1' : in_bypass (e_inner e3) = match o with Some _ => delete uid (bypass_of e) | None => bypass_of e end).
      { rewrite H3. unfold o. destruct (has_rules config); [done|]. simpl.
        destruct (in_bypass (e_inner e) !! uid) eqn:Eo; [done|]. by apply delete_id. }
      eapply (restored_after_removal _ _ (in_bypass (e_inner e3)) _ o); [|exact Hb1'|exact Hb].
      unfold o. destruct (negb _); auto.
    + rewrite Hd. destruct Hd3 as [->| ->]; [left|by right]. exact Hd1.
Qed.

Lemma set_destination_policy_spec uid ranges e r e' :
  set_destination_policy true uid ranges e = (r, e') ->
  outcome uid e (policy_target uid ranges (state_of e)) r e'.
Proof.
  unfold set_destination_policy. unfold bind at 1, get. destruct (over_limit uid (e_inner e)).
  { intros [= <- <-]. split_and!; try done; [apply bypass_restored_refl|by left]. }
  unfold bind at 1, put at 1. set (e2 := set_inner _ e).
  assert (Ht : state_of e2 = policy_target uid ranges (state_of e)) by done.
  unfold attempt at 1. destruct (reconcile_and_save true e2) as [[[]|err] e3] eqn:E3;
    apply reconcile_and_save_spec in E3 as (Hs3 & Hd3 & Hok3).
  - intros [= <- <-]. split; [congruence|]. left. rewrite <- Ht. by apply Hok3.
  - intros Hundo. apply (undo_spec _ uid None) in Hundo as (-> & Hd & Hc & Hp & Hb).
    rewrite Ht in Hs3, Hd3. injection Hs3 as H1 H2 H3. simpl in *. split_and!.
    + congruence.
    + rewrite Hp, H2. destruct ranges as [|x l]; [|apply restore_lookup].
      destruct (in_policies (e_inner e) !! uid) eqn:Eo; [by apply restore_delete|].
      simpl. by rewrite !delete_id; [..|rewrite delete_id].
    + destruct Hb as [Hb|(? & ? & _)]; [|done]. left. rewrite Hb, H3. done.
    + rewrite Hd. destruct Hd3 as [->| ->]; [by left|by right].
Qed.

Lemma clear_config_spec uid e r e' :
  clear_config ip ip_json true true uid e = (r, e') ->
  outcome uid e (clear_target uid (state_of e)) r e'.
Proof.
  unfold clear_config. unfold bind at 1, get. set (o := in_bypass (e_inner e) !! uid). cbv zeta.
  unfold bind at 1. destruct (remove_bypass ip uid o e) as [[[]|err] e1] eqn:E1;
    apply remove_bypass_spec in E1 as [(Hc1 & Hp1 & Hd1) Hb1].
  2: { intros [= <- <-]. split_and!; [done..| |by left]. rewrite Hb1. apply bypass_restored_refl. }
  unfold bind at 1, put at 1. set (e2 := set_inner _ e1).
  assert (Ht : state_of e2 = clear_target uid (state_of e)).
  { unfold clear_target, state_of, persisted. simpl.
    unfold bypass_of, state_of, persisted in *. simpl in *. rewrite Hc1, Hp1, Hb1. f_equal.
    unfold o. destruct (in_bypass (e_inner e) !! uid) eqn:Eo; [done|]. by rewrite delete_id. }
  unfold attempt at 1. destruct (reconcile_and_save true e2) as [[[]|err] e3] eqn:E3;
    apply reconcile_and_save_spec in E3 as (Hs3 & Hd3 & Hok3).
  { intros [= <- <-]. split; [congruence|]. left. rewrite <- Ht. by apply Hok3. }
  intros Hundo.
  assert (Hu : exists f, (put f ;;! ignore reconcile ;;! restore_bypass ip ip_json uid o ;;! throw err)%rust e3 =
      ((r, e') : result unit io_error * engine) /\
      in_configs (f (e_inner e3)) = in_configs (e_inner e) /\
      in_policies (f (e_inner e3)) = in_policies (e_inner e3) /\
      in_bypass (f (e_inner e3)) = in_bypass (e_inner e3) \/
    (r = Err err /\ same_policy e3 e' /\ in_configs (e_inner e) !! uid = None /\
     (bypass_of e' = bypass_of e3 \/ exists rs, o = Some rs /\ preferred_routes rs <> [] /\
       bypass_of e' = <[uid := preferred_routes rs]> (bypass_of e3)))).
  { rewrite Ht in Hs3. injection Hs3 as H1 H2 H3.
    destruct (in_configs (e_inner e) !! uid) as [c|] eqn:Ec.
    - exists (fun i => with_configs (<[uid := c]> (in_configs i)) i). left.
      split; [|split; [simpl; rewrite H1; by apply restore_delete|done]].
      by rewrite bind_assoc in Hundo.
    - exists (fun i => i). right. revert Hundo. unfold bind at 1, ret. unfold bind.
      destruct (restore_bypass ip ip_json uid o e3) as [r4 e4] eqn:E4.
      apply restore_bypass_spec in E4 as (-> & Hsame & Hb). intros [= <- <-]. done. }
  rewrite Ht in Hs3, Hd3. injection Hs3 as H1 H2 H3. unfold bypass_of, state_of in H1, H2, H3. simpl in H1, H2, H3.
  assert (Hb3 : in_bypass (e_inner e3) = match o with Some _ => delete uid (bypass_of e) | None => bypass_of e end).
  { rewrite H3. unfold o. destruct (in_bypass (e_inner e) !! uid) eqn:Eo; [done|]. by apply delete_id. }
  assert (Hdisk : forall d, d = disk_of e3 -> d = disk_of e \/ d = Some (file_text (clear_target uid (state_of e)))).
  { intros d ->. destruct Hd3 as [->| ->]; [left; exact Hd1|by right]. }
  destruct Hu as (f & [(Hf & Hfc & Hfp & Hfb)|(-> & (Hc & Hp & Hd) & Hnone & Hb)]).
  - apply undo_spec in Hf as (-> & Hd & Hc & Hp & Hb). split_and!.
    + by rewrite Hc.
    + by rewrite Hp, Hfp.
    + rewrite Hfb in Hb. eapply (restored_after_removal _ _ (in_bypass (e_inner e3)) _ o); [by left|exact Hb3|exact Hb].
    + by apply Hdisk.
  - split_and!.
    + rewrite Hc. simpl. rewrite H1. by apply delete_id.
    + by rewrite Hp.
    + eapply (restored_after_removal _ _ (in_bypass (e_inner e3)) _ o); [by left|exact Hb3|exact Hb].
    + by apply Hdisk.
Qed.

Lemma enable_routes_spec uid routes e r e' :
  enable_routes ip ip_json uid routes e = (r, e') ->
  view e' = view e /\ (forall rs, r = Ok rs -> rs = preferred_routes routes /\ rs <> []).
Proof.
  unfold enable_routes, on_trace. destruct (enable ip ip_json uid routes (e_trace e)) as [r0 t] eqn:E.
  intros [= <- <-]. split; [done|]. intros rs ->. by apply enable_Ok in E as (? & ? & _).
Qed.

Lemma disable_routes_spec uid routes e r e' :
  disable_routes ip uid routes e = (r, e') -> view e' = view e.
Proof. intros E. pose proof (on_trace_view (disable ip uid routes) e) as H. unfold disable_routes in E. by rewrite E in H. Qed.

Lemma bypass_enable_spec uid routes e r e' :
  set_kill_switch_bypass ip ip_json true true uid true routes e = (r, e') ->
  outcome uid e (bypass_target uid true routes (state_of e)) r e' /\
  (((exists c, in_configs (e_inner e) !! uid = Some c /\ has_rules c = true) /\
    (in_bypass (e_inner e) !! uid <> Some routes -> preferred_routes routes <> [])) \/
   (is_ok r = false /\ disk_of e' = disk_of e)).
Proof.
  assert (Hfail : forall err, outcome uid e (bypass_target uid true routes (state_of e)) (Err err) e).
  { intros err. split_and!; [done..|apply bypass_restored_refl|by left]. }
  unfold set_kill_switch_bypass. unfold bind at 1, get. change (negb true) with false. cbv iota.
  destruct (negb (match in_configs (e_inner e) !! uid with Some c => has_rules c | None => false end)) eqn:Hrules;
    cbn [andb]; [intros [= <- <-]; split; [done|by right]|].
  assert (Hr : exists c, in_configs (e_inner e) !! uid = Some c /\ has_rules c = true).
  { destruct (in_configs (e_inner e) !! uid) as [c|]; [|done]. exists c. by destruct (has_rules c). }
  case_bool_decide as Hsame.
  { intros [= <- <-]. split; [|by left]. split; [|right; split; [|done]].
    all: unfold bypass_target; unfold state_of, persisted; simpl; by rewrite bool_decide_eq_true_2. }
  set (o := in_bypass (e_inner e) !! uid) in *. unfold bind at 1.
  destruct (remove_bypass ip uid o e) as [[[]|err] e1] eqn:E1;
    apply remove_bypass_spec in E1 as [(Hc1 & Hp1 & Hd1) Hb1].
  2: { intros [= <- <-]. split; [|by right]. split_and!; [done..| |by left]. rewrite Hb1. apply bypass_restored_refl. }
  assert (Htail : forall e2 err r e', state_of e2 = state_of e1 ->
    (disk_of e2 = disk_of e \/ disk_of e2 = Some (file_text (bypass_target uid true routes (state_of e)))) ->
    (restore_bypass ip ip_json uid o ;;! throw err)%rust e2 = ((r, e') : result unit io_error * engine) ->
    outcome uid e (bypass_target uid true routes (state_of e)) r e' /\ is_ok r = false /\ disk_of e' = disk_of e2).
  { intros e2 err r0 e0 Hs2 Hd2. unfold bind. destruct (restore_bypass ip ip_json uid o e2) as [r3 e3] eqn:E3.
    apply restore_bypass_spec in E3 as (-> & (Hc & Hp & Hd) & Hb). intros [= <- <-]. split; [|done].
    split_and!; [congruence|congruence| |by rewrite Hd].
    unfold bypass_of in *. rewrite Hs2 in Hb.
    eapply (restored_after_removal _ _ (ls_bypass (state_of e1)) _ o); [by left|exact Hb1|exact Hb]. }
  unfold attempt at 1. destruct (enable_routes ip ip_json uid routes e1) as [[inst|err] e2] eqn:E2;
    apply enable_routes_spec in E2 as [Hv Hinst]; apply view_eq in Hv as [Hs2 Hf2].
  2: { assert (Hd2 : disk_of e2 = disk_of e) by (unfold disk_of in *; congruence).
       intros H. eapply Htail in H as (H1 & H2 & H3); [|done|by left]. split; [exact H1|right].
       split; [done|congruence]. }
  destruct (Hinst inst eq_refl) as [-> Hne]. unfold bind at 1, put_bypass, put at 1. set (e3 := set_inner _ e2).
  assert (Ht : state_of e3 = bypass_target uid true routes (state_of e)).
  { injection Hs2 as H1 H2 H3. unfold bypass_target, state_of, persisted in *. simpl.
    unfold bypass_of, state_of, persisted in *. simpl in *. rewrite bool_decide_eq_false_2 by done.
    rewrite H1, H2, H3, Hc1, Hp1, Hb1. f_equal. destruct o; [apply insert_delete_eq|done]. }
  unfold attempt at 1. destruct (save_inner true e3) as [[[]|err] e4] eqn:E4;
    apply save_inner_spec in E4 as (Hs4 & Hd4 & Hok4).
  { intros [= <- <-]. split; [|by left]. split; [congruence|]. left. rewrite <- Ht. by apply Hok4. }
  unfold bind at 1, drop_bypass, put at 1. set (e5 := set_inner _ e4).
  unfold bind at 1, ignore, attempt at 1.
  destruct (disable_routes ip uid (preferred_routes routes) e5) as [r6 e6] eqn:E6.
  apply disable_routes_spec, view_eq in E6 as [Hs6 Hf6]. unfold ret.
  intros H. eapply Htail in H as [H1 _]; [split; [exact H1|by left]| |].
  - rewrite Hs6. unfold e5, state_of, persisted. simpl. rewrite Ht in Hs4.
    injection Hs4 as H1 H2 H3. injection Hs2 as H4 H5 H6.
    unfold bypass_of, state_of, persisted in *. simpl in *. rewrite bool_decide_eq_false_2 in H3 by done.
    rewrite H1, H2, H3, Hc1, Hp1, Hb1. f_equal. rewrite delete_insert_eq. unfold o in *.
    destruct (in_bypass (e_inner e) !! uid) eqn:Eo; [done|by apply delete_id].
  - unfold disk_of in *. rewrite Hf6. simpl. rewrite Ht in Hd4. simpl in Hd4. rewrite Hf2, Hd1 in Hd4. exact Hd4.
Qed.

Lemma bypass_disable_spec uid routes e r e' :
  set_kill_switch_bypass ip ip_json true true uid false routes e = (r, e') ->
  outcome uid e (bypass_target uid false routes (state_of e)) r e'.
Proof.
  unfold set_kill_switch_bypass. unfold bind at 1, get. cbn [negb andb].
  destruct (in_bypass (e_inner e) !! uid) as [inst|] eqn:Eo.
  2: { intros [= <- <-]. assert (Ht : bypass_target uid false routes (state_of e) = state_of e).
       { unfold bypass_target, state_of, persisted. simpl. by rewrite delete_id. }
       split; [done|]. by right. }
  unfold bind at 1. destruct (disable_routes ip uid inst e) as [[[]|err] e1] eqn:E1;
    apply disable_routes_spec, view_eq in E1 as [Hs1 Hf1].
  2: { intros [= <- <-]. unfold outcome, bypass_of, disk_of. rewrite Hs1, Hf1.
       split_and!; [done..|apply bypass_restored_refl|by left]. }
  unfold bind at 1, drop_bypass, put at 1. set (e2 := set_inner _ e1).
  assert (Ht : state_of e2 = bypass_target uid false routes (state_of e)).
  { injection Hs1 as H1 H2 H3. unfold bypass_target, state_of, persisted. simpl. congruence. }
  unfold attempt at 1. destruct (save_inner true e2) as [[[]|err] e3] eqn:E3;
    apply save_inner_spec in E3 as (Hs3 & Hd3 & Hok3).
  { intros [= <- <-]. split; [congruence|]. left. rewrite <- Ht. by apply Hok3. }
  unfold bind. destruct (restore_bypass ip ip_json uid (Some inst) e3) as [r4 e4] eqn:E4.
  apply restore_bypass_spec in E4 as (-> & (Hc & Hp & Hd) & Hb). intros [= <- <-].
  rewrite Ht in Hs3. split_and!.
  - rewrite Hc, Hs3. done.
  - rewrite Hp, Hs3. done.
  - unfold bypass_of in *. rewrite Hs3 in Hb. simpl in Hb.
    eapply (restored_after_removal _ _ (delete uid (in_bypass (e_inner e))) _ (Some inst)); [by left|done|exact Hb].
  - rewrite Hd. rewrite Ht in Hd3. unfold disk_of in *. simpl in Hd3. rewrite Hf1 in Hd3. exact Hd3.
Qed.

(** ** Validity *)
Lemma preferred_elem routes r : r ∈ preferred_routes routes -> r ∈ btree_of route_cmp routes.
Proof.
  unfold preferred_routes. simpl.
  destruct (find_first _ _) as [r4|] eqn:E4, (find_first (fun r => bool_decide (pr_family r = Ipv6)) _) as [r6|] eqn:E6;
    rewrite ?elem_of_cons, elem_of_nil; intros Hr; destruct_or? Hr; subst; try done;
    first [by apply find_first_Some in E4 as [? _]|by apply find_first_Some in E6 as [? _]].
Qed.

Lemma btree_insert_incl {A : Type} (cmp : A -> A -> comparison) x l y :
  y ∈ btree_insert cmp x l -> y = x \/ y ∈ l.
Proof.
  induction l as [|z l IH]; simpl; [rewrite elem_of_cons; tauto|].
  destruct (cmp x z); rewrite ?elem_of_cons in *; tauto.
Qed.

Lemma btree_of_incl {A : Type} (cmp : A -> A -> comparison) l y : y ∈ btree_of cmp l -> y ∈ l.
Proof.
  unfold btree_of.
  assert (H : forall acc, y ∈ foldl (fun s x => btree_insert cmp x s) acc l -> y ∈ acc \/ y ∈ l).
  { induction l as [|x l IH]; intros acc; simpl; [tauto|].
    intros [[->|H]%btree_insert_incl|H]%IH; rewrite elem_of_cons; tauto. }
  intros Hy. by destruct (H [] Hy) as [?%elem_of_nil|].
Qed.

Lemma preferred_shape routes :
  (length (preferred_routes routes) <= 2)%nat /\
  length (route_families (preferred_routes routes)) = length (preferred_routes routes).
Proof.
  unfold preferred_routes. simpl.
  destruct (find_first _ _) as [r4|] eqn:E4, (find_first (fun r => bool_decide (pr_family r = Ipv6)) _) as [r6|] eqn:E6;
    repeat match goal with H : find_first _ _ = Some _ |- _ => apply find_first_Some in H as [_ H]; bool_prop end;
    unfold route_families; simpl; repeat match goal with H : pr_family _ = _ |- _ => rewrite H end; split; simpl; (lia || done).
Qed.

Lemma preferred_valid configs uid c routes :
  Forall valid_route routes -> preferred_routes routes <> [] ->
  configs !! uid = Some c -> has_rules c = true -> valid_bypass configs uid (preferred_routes routes).
Proof.
  intros Hr Hne Hc Hrules. destruct (preferred_shape routes). split; [done..| |eauto].
  apply Forall_forall. intros r Hin%preferred_elem%btree_of_incl. rewrite Forall_forall in Hr. auto.
Qed.

Lemma keys_in_insert {A : Type} (m : gmap Z A) k v : 0 <= k < 2 ^ 16 -> keys_in m -> keys_in (<[k := v]> m).
Proof. intros Hk Hm k' v'. rewrite lookup_insert_Some. intros [[<- _]|[_ H]]; [done|by eapply Hm]. Qed.

Lemma keys_in_delete {A : Type} (m : gmap Z A) k : keys_in m -> keys_in (delete k m).
Proof. intros Hm k' v'. rewrite lookup_delete_Some. intros [_ H]. by eapply Hm. Qed.

(** The user count only grows by a user who was below the limit. *)
Lemma users_insert (c : ConfigMap) (p : PolicyMap) uid (c' : ConfigMap) (p' : PolicyMap) :
  dom c' ∪ dom p' ⊆ {[uid]} ∪ (dom c ∪ dom p) ->
  Z.of_nat (size (dom c ∪ dom p)) <= MAX_CONFIGS ->
  uid ∈ dom c ∪ dom p \/ Z.of_nat (size (dom c ∪ dom p)) < MAX_CONFIGS ->
  Z.of_nat (size (dom c' ∪ dom p')) <= MAX_CONFIGS.
Proof.
  intros Hsub Hle Hor. apply subseteq_size in Hsub. destruct Hor as [Hin|Hlt].
  - assert (Heq : {[uid]} ∪ (dom c ∪ dom p) = dom c ∪ dom p) by set_solver. rewrite Heq in Hsub. lia.
  - pose proof (size_union_alt {[uid]} (dom c ∪ dom p)) as Hs. rewrite size_singleton in Hs.
    pose proof (subseteq_size ((dom c ∪ dom p) ∖ {[uid]}) (dom c ∪ dom p)) as Hd.
    specialize (Hd ltac:(set_solver)). lia.
Qed.

Lemma under_limit uid e :
  over_limit uid (e_inner e) = false ->
  uid ∈ dom (ls_configs (state_of e)) ∪ dom (ls_policies (state_of e)) \/
  Z.of_nat (size (dom (ls_configs (state_of e)) ∪ dom (ls_policies (state_of e)))) < MAX_CONFIGS.
Proof.
  unfold over_limit, configured_user_count. unfold state_of, persisted. simpl. intros H.
  apply andb_false_iff in H as [H|H]; [apply andb_false_iff in H as [H|H]|].
  - left. bool_prop. apply elem_of_union_l, elem_of_dom. by apply not_eq_None_Some.
  - left. bool_prop. apply elem_of_union_r, elem_of_dom. by apply not_eq_None_Some.
  - right. bool_prop. lia.
Qed.

Lemma config_target_valid uid config e :
  valid_state (state_of e) -> 0 <= uid < 2 ^ 16 -> valid_config config -> over_limit uid (e_inner e) = false ->
  valid_state (config_target uid config (state_of e)).
Proof.
  intros [K1 K2 K3 Hc Hp Hb Hu] Huid Hv Hl%under_limit. split; simpl; try done.
  - by apply keys_in_insert.
  - destruct (has_rules config); [done|by apply keys_in_delete].
  - intros u c. rewrite lookup_insert_Some. intros [[<- <-]|[_ H]]; [done|by eapply Hc].
  - intros u rs Hrs. assert (Hcase : has_rules config = true \/ u <> uid).
    { destruct (has_rules config); [by left|]. right. by apply lookup_delete_Some in Hrs as [? _]. }
    assert (Hrs' : ls_bypass (state_of e) !! u = Some rs).
    { destruct (has_rules config); [done|]. by apply lookup_delete_Some in Hrs as [_ ?]. }
    destruct (Hb u rs Hrs') as [V1 V2 V3 V4 (c & V5 & V6)]. split; try done.
    destruct (decide (u = uid)) as [->|Hne].
    + exists config. rewrite lookup_insert_eq. by destruct Hcase.
    + exists c. by rewrite lookup_insert_ne.
  - eapply users_insert; [|exact Hu|exact Hl]. rewrite dom_insert_L. set_solver.
Qed.

Lemma clear_target_valid uid e :
  valid_state (state_of e) -> valid_state (clear_target uid (state_of e)).
Proof.
  intros [K1 K2 K3 Hc Hp Hb Hu]. split; simpl; try done; try by apply keys_in_delete.
  - intros u c [_ H]%lookup_delete_Some. by eapply Hc.
  - intros u rs [Hne Hrs]%lookup_delete_Some. destruct (Hb u rs Hrs) as [V1 V2 V3 V4 (c & V5 & V6)].
    split; try done. exists c. by rewrite lookup_delete_ne.
  - etransitivity; [|exact Hu]. apply inj_le, subseteq_size. rewrite dom_delete_L. set_solver.
Qed.

Lemma policy_target_valid uid ranges e :
  valid_state (state_of e) -> 0 <= uid < 2 ^ 16 -> valid_ranges ranges -> over_limit uid (e_inner e) = false ->
  valid_state (policy_target uid ranges (state_of e)).
Proof.
  intros [K1 K2 K3 Hc Hp Hb Hu] Huid Hv Hl%under_limit. split; simpl; try done.
  - destruct ranges; [by apply keys_in_delete|by apply keys_in_insert].
  - intros u p Hlook. assert (Hlook' : <[uid := ranges]> (ls_policies (state_of e)) !! u = Some p \/
      ls_policies (state_of e) !! u = Some p).
    { destruct ranges; [right|by left]. by apply lookup_delete_Some in Hlook as [_ ?]. }
    destruct Hlook' as [H|H]; [|by eapply Hp].
    apply lookup_insert_Some in H as [[_ <-]|[_ H]]; [done|by eapply Hp].
  - eapply users_insert; [|exact Hu|exact Hl]. destruct ranges; rewrite ?dom_insert_L, ?dom_delete_L; set_solver.
Qed.

Lemma bypass_changed_valid s (b : BypassMap) :
  valid_state s -> keys_in b ->
  (forall u rs, b !! u = Some rs -> valid_bypass s.(ls_configs) u rs) ->
  valid_state (mkLoaded s.(ls_configs) s.(ls_policies) b).
Proof. intros [K1 K2 K3 Hc Hp Hb Hu] HK HB. by split. Qed.

Lemma restored_valid s uid b :
  valid_state s -> bypass_restored uid s.(ls_bypass) b -> valid_state (mkLoaded s.(ls_configs) s.(ls_policies) b).
Proof.
  intros Hs Hr. destruct Hr as [->|(rs & Hrs & [->|[Hne ->]])]; [by destruct s| |];
    apply bypass_changed_valid; try done.
  - apply keys_in_delete, Hs.
  - intros u rs' [_ H]%lookup_delete_Some. by apply Hs.
  - apply keys_in_insert; [by eapply (vs_bypass_keys _ Hs)|apply Hs].
  - intros u rs'. rewrite lookup_insert_Some. intros [[<- <-]|[_ H]]; [|by apply Hs].
    destruct (vs_bypass _ Hs uid rs Hrs) as [_ _ _ V4 (c & V5 & V6)]. by eapply preferred_valid.
Qed.

Lemma bypass_target_valid uid enabled routes e :
  valid_state (state_of e) -> 0 <= uid < 2 ^ 16 -> Forall valid_route routes ->
  (enabled = true -> (exists c, in_configs (e_inner e) !! uid = Some c /\ has_rules c = true) /\
     (in_bypass (e_inner e) !! uid <> Some routes -> preferred_routes routes <> [])) ->
  valid_state (bypass_target uid enabled routes (state_of e)).
Proof.
  intros Hs Huid Hr Hen. unfold bypass_target. destruct enabled.
  - destruct (Hen eq_refl) as ((c & Hc & Hrules) & Hne). case_bool_decide as Hsame; [by destruct (state_of e)|].
    apply bypass_changed_valid; [done|apply keys_in_insert; [done|apply Hs]|].
    intros u rs. rewrite lookup_insert_Some. intros [[<- <-]|[_ H]]; [|by apply Hs].
    eapply preferred_valid; [done|by apply Hne|exact Hc|done].
  - apply bypass_changed_valid; [done|apply keys_in_delete, Hs|].
    intros u rs [_ H]%lookup_delete_Some. by apply Hs.
Qed.

(** ** Requests as data *)
Inductive request : Type :=
  | SetConfig (uid : Z) (config : SplitConfig)
  | ClearConfig (uid : Z)
  | SetKillSwitchBypass (uid : Z) (enabled : bool) (routes : list PhysicalRoute)
  | SetDestinationPolicy (uid : Z) (ranges : list string).

Definition run_request (q : request) : M engine unit :=
  match q with
  | SetConfig uid config => set_config ip ip_json true true uid config
  | ClearConfig uid => clear_config ip ip_json true true uid
  | SetKillSwitchBypass uid enabled routes => set_kill_switch_bypass ip ip_json true true uid enabled routes
  | SetDestinationPolicy uid ranges => set_destination_policy true uid ranges
  end.

Definition request_uid (q : request) : Z :=
  match q with
  | SetConfig uid _ | ClearConfig uid | SetKillSwitchBypass uid _ _ | SetDestinationPolicy uid _ => uid
  end.

Definition request_target (q : request) (s : LoadedState) : LoadedState :=
  match q with
  | SetConfig uid config => config_target uid config s
  | ClearConfig uid => clear_target uid s
  | SetKillSwitchBypass uid enabled routes => bypass_target uid enabled routes s
  | SetDestinationPolicy uid ranges => policy_target uid ranges s
  end.

(** What the D-Bus layer has checked before the engine sees a request. *)
Definition request_checked (q : request) : Prop :=
  0 <= request_uid q < 2 ^ 16 /\
  match q with
  | SetConfig _ config => valid_config config
  | ClearConfig _ => True
  | SetKillSwitchBypass _ _ routes => Forall valid_route routes
  | SetDestinationPolicy _ ranges => valid_ranges ranges
  end.

Lemma request_outcome q e :
  outcome (request_uid q) e (request_target q (state_of e)) (run_request q e).1 (run_request q e).2.
Proof.
  destruct (run_request q e) as [r e'] eqn:E. simpl. destruct q as [uid c|uid|uid [] rs|uid ranges]; simpl in *.
  - by apply set_config_spec.
  - by apply clear_config_spec.
  - by apply bypass_enable_spec.
  - by apply bypass_disable_spec.
  - by apply set_destination_policy_spec.
Qed.

(** Unless its target is valid, a request fails without touching the file. *)
Lemma target_valid_or_failed q e :
  request_checked q -> valid_state (state_of e) ->
  valid_state (request_target q (state_of e)) \/
  is_ok (run_request q e).1 = false /\ disk_of (run_request q e).2 = disk_of e.
Proof.
  intros [Huid Hq] Hs. destruct q as [uid c|uid|uid enabled rs|uid ranges]; simpl in *.
  - destruct (over_limit uid (e_inner e)) eqn:El; [right|left; by apply config_target_valid].
    assert (E : set_config ip ip_json true true uid c e = (Err (limit_error "split tunneling"), e))
      by (unfold set_config, bind at 1, get; by rewrite El). by rewrite E.
  - left. by apply clear_target_valid.
  - destruct enabled; [|left; by apply bypass_target_valid].
    destruct (set_kill_switch_bypass ip ip_json true true uid true rs e) as [r e'] eqn:E.
    apply bypass_enable_spec in E as [_ [Hgood|Hbad]]; [left|by right]. by apply bypass_target_valid.
  - destruct (over_limit uid (e_inner e)) eqn:El; [right|left; by apply policy_target_valid].
    assert (E : set_destination_policy true uid ranges e = (Err (limit_error "destination policies"), e))
      by (unfold set_destination_policy, bind at 1, get; by rewrite El). by rewrite E.
Qed.

(** ** Steps of the daemon *)

(** The rest of the system may change the processes, the routing tables and which calls fail, but not
    the daemon's memory or its file. *)
Inductive engine_step : engine -> engine -> Prop :=
  | step_request q e : request_checked q -> engine_step e (run_request q e).2
  | step_event event e : engine_step e (handle_event event e).2
  | step_tick e : engine_step e (reconcile e).2
  | step_environment e e' :
      e'.(e_inner) = e.(e_inner) -> disk_of e' = disk_of e -> engine_step e e'.

Definition durable (e : engine) : Prop :=
  valid_state (state_of e) /\
  (disk_of e = None \/ exists s, valid_state s /\ disk_of e = Some (file_text s)).

Lemma durable_view e e' : view e' = view e -> durable e -> durable e'.
Proof. intros [Hs Hf]%view_eq. unfold durable, disk_of. by rewrite Hs, Hf. Qed.

Lemma request_durable q e : request_checked q -> durable e -> durable (run_request q e).2.
Proof.
  intros Hq [Hs Hd]. pose proof (request_outcome q e) as Ho. pose proof (target_valid_or_failed q e Hq Hs) as Ht.
  destruct (run_request q e) as [r e']. simpl in *. unfold durable. destruct r as [[]|err].
  - destruct Ht as [Ht|[? _]]; [|done]. destruct Ho as [-> Hdisk]. split; [done|].
    destruct Hdisk as [->|[_ ->]]; [right; eauto|done].
  - destruct Ho as (Hc & Hp & Hb & Hdisk). split.
    + assert (He : state_of e' = mkLoaded (ls_configs (state_of e)) (ls_policies (state_of e)) (bypass_of e')).
      { unfold bypass_of. rewrite <- Hc, <- Hp. by destruct (state_of e'). }
      rewrite He. by eapply restored_valid.
    + destruct Ht as [Ht|[_ ->]]; [|done]. destruct Hdisk as [->| ->]; [done|right; eauto].
Qed.

Lemma step_durable e e' : engine_step e e' -> durable e -> durable e'.
Proof.
  destruct 1 as [q e Hq|event e|e|e e' Hi Hd].
  - by apply request_durable.
  - apply durable_view, handle_event_view.
  - apply durable_view. destruct (reconcile e) as [r e'] eqn:E. by apply reconcile_view in E.
  - unfold durable, state_of. by rewrite Hi, Hd.
Qed.

(** C21: requests are transactions.  Each request either succeeds, and then memory holds exactly the
    requested policy and the state file its complete text (a request with nothing to change leaves
    both), or fails, and then configurations and destination policies are untouched, only the user's
    own bypass may have been removed or reinstalled, and the file holds its old contents or the target. *)
Theorem requests_are_transactions q e :
  outcome (request_uid q) e (request_target q (state_of e)) (run_request q e).1 (run_request q e).2.
Proof. apply request_outcome. Qed.

(** whatever requests, process events, reconciliations and failures happen, the daemon's state
    stays well formed (validated configurations, at most 64 users, bypass routes only for users with
    rules), and the state file stays loadable: [load] returns the well-formed state it was written
    from. *)
Theorem reachable_state_durable e0 e :
  durable e0 -> rtc engine_step e0 e ->
  valid_state (state_of e) /\
  (disk_of e = None \/
   exists s, valid_state s /\ disk_of e = Some (file_text s) /\
     (json_roundtrips (state_json s) -> str_len (state_text s) < MAX_STATE_BYTES ->
      (load true (quiet e.(e_fs))).1 = Ok s)).
Proof.
  intros H0 Hr. assert (Hd : durable e) by (eapply rtc_invariant; [|exact H0|exact Hr]; apply step_durable).
  destruct Hd as [Hs [Hd|(s & Hv & Hd)]]; split; try done; [by left|right].
  exists s. split_and!; try done. intros. by apply load_saved.
Qed.
End Requests.

(** From an empty daemon, a configuration and a destination policy reach a state that is on disk and
    loadable. *)
Definition example_reached : LoadedState :=
  mkLoaded {[1000 := mkSplitConfig Exclude ["/usr/bin/firefox"] ["192.0.2.0/24"]]}
    {[1001 := ["192.0.2.0/24"]]} ∅.
Definition reached_text : JsonText :=
  mkJsonText (fun _ => "{}") (fun _ => Some (@state_json example_lib example_reached)) (fun _ _ => "").

Lemma reachable_state_durable_witness :
  let e0 := mkEngine (mkInner ∅ ∅ None ∅ ∅) (mkFs None None []) [] [] [] in
  let run := @run_request example_lib reached_text example_ip example_json in
  let e1 := (run (SetConfig 1000 (mkSplitConfig Exclude ["/usr/bin/firefox"] ["192.0.2.0/24"])) e0).2 in
  let e2 := (run (SetDestinationPolicy 1001 ["192.0.2.0/24"]) e1).2 in
  state_of e2 = example_reached /\ @valid_state example_lib (state_of e2) /\
  (@load example_lib reached_text true (quiet e2.(e_fs))).1 = Ok example_reached.
Proof.
  intros e0 run e1 e2.
  assert (H0 : @durable example_lib reached_text e0).
  { split; [|by left]. split; simpl; try (intros ? ?; rewrite lookup_empty; discriminate);
      try (intros ? ? ?%lookup_empty_Some; done). vm_compute. discriminate. }
  assert (Hr : rtc (@engine_step example_lib reached_text example_ip example_json) e0 e2).
  { eapply rtc_l; [apply step_request|eapply rtc_once, step_request].
    - split; [simpl; lia|]. simpl. apply example_config_valid.
    - split; [simpl; lia|]. simpl. by apply (@validate_ip_ranges_sound example_lib example_laws) with (l := ["192.0.2.0/24"]). }
  assert (E2 : state_of e2 = example_reached) by (vm_compute; reflexivity).
  destruct (@reachable_state_durable example_lib example_laws reached_text example_ip example_json e0 e2 H0 Hr)
    as [Hv [Hd|(s & Hs & Hd & Hl)]].
  - exfalso. revert Hd. vm_compute. discriminate.
  - split; [exact E2|]. split; [exact Hv|]. vm_compute. reflexivity.
Defined.
