(* ===== verification/SplitMarks.v ===== *)
(** Agreement between the tracked processes and the marks in the kernel's process map. *)
From S2P Require Export SplitRequests.
Open Scope string_scope.
Open Scope Z_scope.
Open Scope list_scope.
Open Scope rust_scope.

Section Marks.
Context {L : IpLib}.

Definition pids (e : engine) : gset Z :=
  match e.(e_inner).(in_marker) with Some m => m.(pid_map) | None => ∅ end.
Definition tracked (e : engine) : gmap Z TrackedProcess := e.(e_inner).(in_tracked).

(** The kernel marks exactly the processes tracked as excluded; without programs attached nothing is
    tracked. *)
Definition marks_agree (e : engine) : Prop :=
  (e.(e_inner).(in_marker) = None -> tracked e = ∅) /\
  forall pid, pid ∈ pids e <-> is_excluded (tracked e !! pid) = true.

Lemma set_excluded_Ok pid b e e' :
  on_marker (set_excluded pid b) e = (Ok tt, e') ->
  is_Some (e.(e_inner).(in_marker)) /\ is_Some (e'.(e_inner).(in_marker)) /\ tracked e' = tracked e /\
  pids e' = (if b then {[pid]} ∪ pids e else pids e ∖ {[pid]}).
Proof.
  unfold on_marker, pids, tracked. destruct (in_marker (e_inner e)) as [m|]; [|discriminate].
  destruct (set_excluded pid b (mkKernel m (e_faults e))) as [r k] eqn:E. intros [= -> <-]. simpl.
  apply map_call_Ok in E. rewrite E. split_and!; try done; by destruct b.
Qed.

Lemma sync_pids configs policies w : (sync_configs configs policies w).2.(k_marker).(pid_map) = w.(k_marker).(pid_map).
Proof.
  unfold sync_configs. destruct (_ && _); [done|]. unfold attempt.
  pose proof (replace_maps_frame w.(k_marker).(m_configs) w.(k_marker).(m_policies) configs policies w) as (H1 & _).
  destruct (replace_maps _ _ configs policies w) as [[[]|e] w1]; simpl in *; [done|].
  pose proof (replace_maps_frame configs policies w.(k_marker).(m_configs) w.(k_marker).(m_policies) w1) as (H2 & _).
  destruct (replace_maps configs policies _ _ w1) as [rb w2]; simpl in *. congruence.
Qed.

(** The steps of [reconcile] that leave the tracked processes and the configurations alone. *)
Lemma on_marker_Ok {A : Type} (m : M kernel A) e a e' :
  on_marker m e = (Ok a, e') ->
  tracked e' = tracked e /\ in_configs (e_inner e') = in_configs (e_inner e) /\ e_processes e' = e_processes e /\
  is_Some (in_marker (e_inner e')).
Proof.
  unfold on_marker, tracked. destruct (in_marker (e_inner e)) as [mk|]; [|discriminate].
  destruct (m _) as [r k]. intros [= -> <-]. simpl. split_and!; done.
Qed.

Lemma sync_step_pids c p e e' : on_marker (sync_configs c p) e = (Ok tt, e') -> pids e' = pids e.
Proof.
  unfold on_marker, pids. destruct (in_marker (e_inner e)) as [mk|]; [|discriminate].
  pose proof (sync_pids c p (mkKernel mk (e_faults e))) as H.
  destruct (sync_configs c p _) as [r k]. intros [= -> <-]. simpl in *. by rewrite H.
Qed.

Lemma unmark_Ok l e e' :
  unmark l e = (Ok tt, e') ->
  tracked e' = tracked e /\ in_configs (e_inner e') = in_configs (e_inner e) /\
  e_processes e' = e_processes e /\ (is_Some (in_marker (e_inner e)) -> is_Some (in_marker (e_inner e'))) /\
  forall pid, pid ∈ pids e' <-> pid ∈ pids e /\ pid ∉ map fst l.
Proof.
  revert e. induction l as [|[pid t] l IH]; intros e.
  - intros [= <-]. split_and!; try done. intros pid. simpl. rewrite elem_of_nil. tauto.
  - intros ([] & e1 & H1 & H2)%bind_Ok. apply IH in H2 as (T & C & P & Mk & Hp).
    pose proof (on_marker_Ok _ _ _ _ H1) as (T1 & C1 & P1 & M1).
    apply set_excluded_Ok in H1 as (_ & _ & _ & Hpids). simpl in Hpids.
    split_and!; [congruence..|auto|]. intros q. rewrite Hp, Hpids. simpl.
    rewrite elem_of_difference, elem_of_singleton, elem_of_cons. tauto.
Qed.

Lemma mark_all_Ok (l : list (Z * TrackedProcess)) e e' :
  for_each (fun p : Z * TrackedProcess => on_marker (set_excluded p.1 true)) l e = (Ok tt, e') ->
  (is_Some (in_marker (e_inner e)) -> is_Some (in_marker (e_inner e'))) /\
  forall pid, pid ∈ pids e' <-> pid ∈ pids e \/ pid ∈ map fst l.
Proof.
  revert e. induction l as [|[pid t] l IH]; intros e.
  - intros [= <-]. split; [done|]. intros pid. simpl. rewrite elem_of_nil. tauto.
  - intros ([] & e1 & H1 & H2)%bind_Ok. apply IH in H2 as (Mk & Hp).
    pose proof (on_marker_Ok _ _ _ _ H1) as (_ & _ & _ & M1).
    apply set_excluded_Ok in H1 as (_ & _ & _ & Hpids). simpl in Hpids.
    split; [auto|]. intros q. rewrite Hp, Hpids. simpl.
    rewrite elem_of_union, elem_of_singleton, elem_of_cons. tauto.
Qed.

Lemma fst_retain_entries {A : Type} (f : Z * A -> bool) (m : gmap Z A) pid :
  pid ∈ map fst (retain f (entries m)) <-> exists t, m !! pid = Some t /\ f (pid, t) = true.
Proof.
  rewrite list_elem_of_In, in_map_iff. split.
  - intros ([p t] & <- & H). rewrite <- list_elem_of_In, retain_elem, entries_elem in H. by exists t.
  - intros (t & H). exists (pid, t). by rewrite <- list_elem_of_In, retain_elem, entries_elem.
Qed.

Lemma put_tracked_pids t e : pids (set_inner (with_tracked t (e_inner e)) e) = pids e.
Proof. done. Qed.

Lemma reconcile_agree e e' :
  marks_agree e -> reconcile e = (Ok tt, e') -> marks_agree e'.
Proof.
  intros [Hnone Hagree]. unfold reconcile. unfold bind at 1, get.
  destruct (_ && _).
  { intros [= <-]. unfold marks_agree, pids, tracked. simpl. split; [done|]. intros pid.
    rewrite lookup_empty. split; [by intros ?%not_elem_of_empty|done]. }
  intros ([] & e1 & H1 & ([] & e2 & H2 & H3)%bind_Ok)%bind_Ok.
  assert (Ha1 : (forall pid, pid ∈ pids e1 <-> is_excluded (tracked e1 !! pid) = true) /\ tracked e1 = tracked e).
  { destruct (in_marker (e_inner e)) as [m|] eqn:Em; [by injection H1 as <-|].
    apply bind_Ok in H1 as ([] & e0 & H0 & H1). injection H1 as <-.
    unfold kernel_call in H0. assert (Hi : e_inner e0 = e_inner e).
    { destruct (e_faults e) as [|[] ?]; by simplify_eq. }
    unfold pids, tracked in *. simpl. rewrite Hi, (Hnone eq_refl). split; [|done]. intros pid.
    rewrite lookup_empty. split; [by intros ?%not_elem_of_empty|done]. }
  destruct Ha1 as [Ha1 Ht1].
  pose proof (on_marker_Ok _ _ _ _ H2) as (T2 & C2 & P2 & M2). apply sync_step_pids in H2.
  assert (Ha2 : forall pid, pid ∈ pids e2 <-> is_excluded (tracked e2 !! pid) = true)
    by (intros pid; by rewrite H2, T2, Ha1).
  destruct (negb _).
  - apply bind_Ok in H3 as ([] & e3 & H3 & H4). injection H4 as <-.
    apply unmark_Ok in H3 as (T3 & _ & _ & M3 & Hp3). split.
    + simpl. destruct (M3 M2) as [? Hm]. by rewrite Hm.
    + intros pid. rewrite put_tracked_pids, Hp3, Ha2. unfold tracked at 2. simpl. rewrite lookup_empty. simpl.
      split; [|done]. intros [Hx Hn]. exfalso. apply Hn. apply fst_retain_entries.
      fold (tracked e). rewrite <- Ht1, <- T2. unfold is_excluded in Hx.
      destruct (tracked e2 !! pid) as [t|]; [|done]. by exists t.
  - apply bind_Ok in H3 as (procs & e3 & Hscan & H3).
    assert (Hs : e_inner e3 = e_inner e2).
    { unfold scan, bind, kernel_call in Hscan. destruct (e_faults e2) as [|[] ?]; by simplify_eq. }
    apply bind_Ok in H3 as ([] & e4 & H4 & H5). apply bind_Ok in H5 as ([] & e5 & H5 & H6).
    injection H6 as <-. set (next := build_tracking _ procs) in *.
    apply unmark_Ok in H4 as (T4 & _ & _ & M4 & Hp4). apply mark_all_Ok in H5 as [M5 Hp5]. split.
    + simpl. rewrite Hs in M4. destruct (M5 (M4 M2)) as [? Hm]. by rewrite Hm.
    + intros pid. rewrite put_tracked_pids, Hp5, Hp4, !fst_retain_entries. unfold tracked. simpl.
      assert (Hp3 : pids e3 = pids e2) by (unfold pids; by rewrite Hs).
      rewrite Hp3, Ha2. unfold is_excluded. fold (tracked e). rewrite <- Ht1, <- T2. split.
      * intros [[Hx Hn]|(t & -> & Ht)]; [|done].
        destruct (tracked e2 !! pid) as [t|]; [|done]. destruct (next !! pid) as [t'|] eqn:En.
        -- destruct (tp_excluded t') eqn:Ex; [done|]. exfalso. apply Hn. exists t. split; [done|]. cbn [fst snd]. by rewrite Hx.
        -- exfalso. apply Hn. exists t. split; [done|]. cbn [fst snd]. by rewrite Hx.
      * destruct (next !! pid) as [t|]; [|done]. intros Hx. right. by exists t.
Qed.

Lemma untrack_agree pid e e' :
  is_Some (in_marker (e_inner e)) -> marks_agree e -> untrack pid e = (Ok tt, e') -> marks_agree e'.
Proof.
  intros Hm [_ Ha]. unfold untrack. unfold bind at 1, get, bind, put.
  set (e1 := set_inner _ e). destruct (is_excluded (in_tracked (e_inner e) !! pid)) eqn:Ex.
  - intros (_ & Hm' & Ht & Hp)%set_excluded_Ok. split; [destruct Hm' as [? Hm']; by rewrite Hm'|].
    intros q. rewrite Hp, Ht. simpl. change (pids e1) with (pids e). rewrite elem_of_difference, elem_of_singleton, Ha.
    unfold tracked. simpl. destruct (decide (q = pid)) as [->|]; [rewrite lookup_delete_eq; simpl; intuition done|].
    rewrite lookup_delete_ne by done. tauto.
  - intros [= <-]. split; [destruct Hm as [? Hm]; simpl; by rewrite Hm|].
    intros q. change (pids e1) with (pids e). rewrite Ha. unfold tracked. simpl.
    destruct (decide (q = pid)) as [->|]; [by rewrite lookup_delete_eq, Ex|by rewrite lookup_delete_ne].
Qed.

Lemma track_agree pid p e e' : marks_agree e -> track pid p e = (Ok tt, e') -> marks_agree e'.
Proof.
  intros [_ Ha]. intros ([] & e1 & (_ & Hm & Ht & Hp)%set_excluded_Ok & H2)%bind_Ok. injection H2 as <-.
  split; [destruct Hm as [? Hm]; simpl; by rewrite Hm|].
  intros q. change (pids (set_inner _ e1)) with (pids e1). rewrite Hp. unfold tracked in *. simpl. rewrite Ht.
  destruct (decide (q = pid)) as [->|Hne].
  - rewrite lookup_insert_eq. simpl. destruct (tp_excluded p); rewrite ?elem_of_union, ?elem_of_difference, elem_of_singleton; intuition done.
  - rewrite lookup_insert_ne by done. rewrite <- Ha.
    destruct (tp_excluded p); rewrite ?elem_of_union, ?elem_of_difference, elem_of_singleton; tauto.
Qed.

Lemma handle_event_agree event e e' :
  marks_agree e -> handle_event event e = (Ok tt, e') -> marks_agree e'.
Proof.
  intros Ha. unfold handle_event. destruct (in_marker (e_inner e)) as [m|] eqn:Em; [|by intros [= <-]].
  assert (Hm : is_Some (in_marker (e_inner e))) by by eexists.
  destruct event as [parent child|pid|pid].
  - destruct (match in_tracked (e_inner e) !! parent with Some _ => _ | None => _ end); [by apply track_agree|].
    by intros [= <-].
  - destruct (read_process pid _) as [info|]; [|by intros [= <-]].
    destruct (tracked_info _ _ info); [by apply track_agree|by apply untrack_agree].
  - by apply untrack_agree.
Qed.

(** while no kernel operation fails, the kernel marks exactly the processes the daemon tracks as
    excluded, through every process event and every reconciliation. *)
Theorem marks_follow_tracking e e' :
  marks_agree e ->
  (forall event, handle_event event e = (Ok tt, e') -> marks_agree e') /\
  (reconcile e = (Ok tt, e') -> marks_agree e').
Proof. intros Ha. split; [intros event; by apply handle_event_agree|by apply reconcile_agree]. Qed.
End Marks.

(** ** A mark that is never removed *)
Definition firefox (pid : Z) : ProcessInfo := mkProcess 1000 pid 1 ["/usr/bin/firefox"].
Definition firefox_inner : Inner :=
  mkInner {[1000 := mkSplitConfig Exclude ["/usr/bin/firefox"] []]} ∅ None ∅ ∅.
Definition leak_start : engine :=
  mkEngine firefox_inner (mkFs None None []) [] [false; false; false; false; true] [firefox 10; firefox 11].

(** The reconciliation fails after marking process 10 and before recording it as tracked; its exit is
    then ignored, and no later reconciliation removes the mark. *)
Lemma failed_reconcile_leaks :
  let e1 := (@reconcile example_lib leak_start).2 in
  let e2 := (handle_event (Exit 10) e1).2 in
  let gone := mkEngine e2.(e_inner) e2.(e_fs) e2.(e_trace) [] [firefox 11] in
  let '(r, e3) := @reconcile example_lib gone in
  is_ok (@reconcile example_lib leak_start).1 = false /\
  r = Ok tt /\ bool_decide (10 ∈ pids e3) = true /\ tracked e3 !! 10 = None.
Proof. vm_compute. repeat split. Qed.

Lemma marks_follow_tracking_witness :
  let e := mkEngine firefox_inner (mkFs None None []) [] [] [firefox 10; firefox 11] in
  marks_agree e /\ marks_agree (@reconcile example_lib e).2 /\
  bool_decide (11 ∈ pids (@reconcile example_lib e).2) = true.
Proof.
  intros e.
  assert (Ha : marks_agree e).
  { split; [reflexivity|]. intros pid. unfold pids, tracked. simpl. rewrite lookup_empty.
    split; [by intros ?%not_elem_of_empty|discriminate]. }
  split; [exact Ha|]. split; [|vm_compute; reflexivity].
  pose proof (proj2 (@marks_follow_tracking example_lib e (@reconcile example_lib e).2 Ha)) as H.
  apply H. vm_compute. reflexivity.
Defined.
