(* ===== verification/SplitProc.v ===== *)
(** Where the split-tunnelling daemon learns about processes: the frames of the kernel's process
    connector ([splitd/src/proc_events.rs]) and the files of [/proc] ([splitd/src/procfs.rs]).

    Buffers are lists of bytes; the daemon runs on little-endian machines, so the native-endian
    accessors read little-endian words.  Offsets are unbounded: [usize] has 64 bits and an offset
    never exceeds the buffer's length plus 2{^32}. *)
From S2P Require Export BpfSem SplitEngine RustStr.
Open Scope string_scope.
Open Scope Z_scope.
Open Scope list_scope.
Open Scope rust_scope.

(** ** Process connector frames *)
Definition CN_IDX_PROC : Z := 1.
Definition CN_VAL_PROC : Z := 1.
Definition PROC_CN_MCAST_LISTEN : Z := 1.
Definition PROC_CN_MCAST_IGNORE : Z := 2.
Definition PROC_EVENT_FORK : Z := 0x00000001.
Definition PROC_EVENT_EXEC : Z := 0x00000002.
Definition PROC_EVENT_EXIT : Z := 0x80000000.
Definition NLMSG_DONE : Z := 3.
Definition NLMSG_HEADER : Z := 16.
Definition CN_HEADER : Z := 20.

Definition buf_len (buffer : list Z) : Z := Z.of_nat (length buffer).

(** [buffer.get(offset..offset + n)]. *)
Definition get_bytes (buffer : list Z) (offset : Z) (n : nat) : option (list Z) :=
  if offset + Z.of_nat n <=? buf_len buffer
  then Some (take n (drop (Z.to_nat offset) buffer)) else None.
Definition get_u16 (buffer : list Z) (offset : Z) : option Z := option_map le_val (get_bytes buffer offset 2).
Definition get_u32 (buffer : list Z) (offset : Z) : option Z := option_map le_val (get_bytes buffer offset 4).

(** [buffer[offset..offset + n].copy_from_slice(..)]; every caller writes inside its buffer. *)
Definition put_bytes (bytes : list Z) (offset : Z) (buffer : list Z) : list Z :=
  take (Z.to_nat offset) buffer ++ bytes ++ drop (Z.to_nat offset + length bytes) buffer.
Definition put_u16 (offset value : Z) (buffer : list Z) : list Z := put_bytes (le_bytes 2 value) offset buffer.
Definition put_u32 (offset value : Z) (buffer : list Z) : list Z := put_bytes (le_bytes 4 value) offset buffer.

(** The message [subscribe] sends: [pid] is [std::process::id()]. *)
Definition subscribe_message (pid operation : Z) : list Z :=
  put_u32 36 operation (put_u16 32 4 (put_u32 20 CN_VAL_PROC (put_u32 16 CN_IDX_PROC
    (put_u32 12 pid (put_u16 4 NLMSG_DONE (put_u32 0 40 (replicate 40 0))))))).

(** The event of the message whose payload starts at [payload]. *)
Definition event_at (buffer : list Z) (payload : Z) : option ProcessEvent :=
  let what := unwrap_or (get_u32 buffer payload) 0 in
  let data := payload + 16 in
  if what =? PROC_EVENT_FORK then
    Some (Fork (unwrap_or (get_u32 buffer (data + 4)) 0) (unwrap_or (get_u32 buffer (data + 12)) 0))
  else if what =? PROC_EVENT_EXEC then Some (Exec (unwrap_or (get_u32 buffer (data + 4)) 0))
  else if what =? PROC_EVENT_EXIT then Some (Exit (unwrap_or (get_u32 buffer (data + 4)) 0))
  else None.

(** One turn of the loop of [parse_messages]: the event, if any, and the next offset; nothing when
    the loop ends. *)
Definition parse_message (buffer : list Z) (offset : Z) : option (option ProcessEvent * Z) :=
  if buf_len buffer <? offset + NLMSG_HEADER + CN_HEADER then None
  else
    let length := unwrap_or (get_u32 buffer offset) 0 in
    if (length <? NLMSG_HEADER + CN_HEADER) || (buf_len buffer <? offset + length) then None
    else
      let payload := offset + NLMSG_HEADER + CN_HEADER in
      let cn_length := unwrap_or (get_u16 buffer (offset + NLMSG_HEADER + 16)) 0 in
      Some (if (16 <=? cn_length) && (payload + cn_length <=? offset + length)
            then event_at buffer payload else None,
            offset + Z.land (length + 3) (Z.lnot 3)).

Definition opt_list {A : Type} (o : option A) : list A := match o with Some x => [x] | None => [] end.

Fixpoint parse_from (fuel : nat) (buffer : list Z) (offset : Z) : list ProcessEvent :=
  match fuel with
  | O => []
  | S fuel =>
      match parse_message buffer offset with
      | None => []
      | Some (event, next) => opt_list event ++ parse_from fuel buffer next
      end
  end.

(** Every turn advances, so the length of the buffer is enough fuel. *)
Definition parse_messages (buffer : list Z) : list ProcessEvent := parse_from (length buffer) buffer 0.

(** *** The receiving thread *)

(** What a call of [recv] returns, and what [try_send] makes of each event. *)
Inductive received : Type :=
  | RecvBytes (bytes : list Z)
  | RecvTimeout
  | RecvError.
Inductive try_send : Type :=
  | Sent
  | ChannelFull
  | ChannelClosed.

Definition RECEIVE_BUFFER : Z := 16 * 1024.

(** Offer the events in order: those sent, whether the dirty flag was raised, whether the thread goes
    on. *)
Fixpoint deliver (events : list ProcessEvent) (channel : list try_send) : list ProcessEvent * bool * bool :=
  match events with
  | [] => ([], false, true)
  | event :: events =>
      match channel with
      | ChannelClosed :: _ => ([], false, false)
      | ChannelFull :: channel =>
          let '(sent, _, continue) := deliver events channel in (sent, true, continue)
      | Sent :: channel =>
          let '(sent, dirty, continue) := deliver events channel in (event :: sent, dirty, continue)
      | [] => let '(sent, dirty, continue) := deliver events [] in (event :: sent, dirty, continue)
      end
  end.

(** One turn of [receive_loop]: a receive buffer that is completely filled may be truncated. *)
Definition receive_step (r : received) (channel : list try_send) : list ProcessEvent * bool * bool :=
  match r with
  | RecvTimeout => ([], false, true)
  | RecvError => ([], true, true)
  | RecvBytes bytes =>
      let '(sent, dirty, continue) := deliver (parse_messages bytes) channel in
      (sent, (buf_len bytes =? RECEIVE_BUFFER) || dirty, continue)
  end.

(** ** Files of [/proc] *)

Definition invalid_data (text : string) : io_error := mkIoError InvalidData text.

Fixpoint find_map {A B : Type} (f : A -> option B) (l : list A) : option B :=
  match l with
  | [] => None
  | x :: l => match f x with Some y => Some y | None => find_map f l end
  end.

Definition parse_uid (status : string) : result Z io_error :=
  let? raw := ok_or (and_then (find_map (strip_prefix "Uid:") (lines status))
                       (fun line => head (split_whitespace line)))
                (invalid_data "process UID missing") in
  ok_or (and_then (parse_uint 32 raw) (u_try_from 16)) (invalid_data "process UID unsupported").

Definition parse_ppid (stat : string) : result Z io_error :=
  let? suffix := ok_or (rsplit_once ") " stat) (invalid_data "process stat malformed") in
  ok_or (and_then (split_whitespace suffix !! 1%nat) (parse_uint 32)) (invalid_data "process parent missing").

(** [split(|byte| byte == 0)]. *)
Fixpoint split_nul (bytes : list Z) : list (list Z) :=
  match bytes with
  | [] => [[]]
  | b :: bytes =>
      if b =? 0 then [] :: split_nul bytes
      else match split_nul bytes with p :: ps => (b :: p) :: ps | [] => [[b]] end
  end.

Definition parse_cmdline (bytes : list Z) : string :=
  join " " (map from_utf8_lossy
    (retain (fun part => match part with [] => false | _ => true end) (split_nul bytes))).

(** The entries of [/proc]: names, and for a process the files the daemon reads, [None] where
    reading fails (or yields text that is not UTF-8 for [status] and [stat]). *)
Record proc_files : Type := mkProcFiles {
  pf_status : option string;
  pf_stat : option string;
  pf_exe : option string;
  pf_cmdline : option (list Z) }.

Definition proc_fs : Type := Z -> option proc_files.

Definition executable_identity (files : proc_files) : list string :=
  match files.(pf_exe) with
  | Some value => if is_empty value then [] else [value]
  | None => []
  end.
Definition cmdline_identity (files : proc_files) (identities : list string) : list string :=
  match files.(pf_cmdline) with
  | Some bytes =>
      let value := parse_cmdline bytes in
      if is_empty value || bool_decide (value ∈ identities) then identities else identities ++ [value]
  | None => identities
  end.

Definition unreadable (what : string) : io_error := mkIoError NotFound what.

Definition read_process_files (proc : proc_fs) (pid : Z) : result ProcessInfo io_error :=
  let? files := ok_or (proc pid) (unreadable "no process") in
  let? status := ok_or files.(pf_status) (unreadable "status") in
  let? uid := parse_uid status in
  let? stat := ok_or files.(pf_stat) (unreadable "stat") in
  let? ppid := parse_ppid stat in
  Ok (mkProcess uid pid ppid (cmdline_identity files (executable_identity files))).

(** [scan]: the directory's entries whose names are process ids and whose files can be read. *)
Definition scan_names (proc : proc_fs) (names : list string) : list ProcessInfo :=
  filter_map (fun name => and_then (parse_uint 32 name) (fun pid => res_ok (read_process_files proc pid))) names.

(** ** Lemmas: the parsing loop *)

Lemma aligned length : 0 <= length -> length <= Z.land (length + 3) (Z.lnot 3).
Proof.
  intros H. rewrite <- Z.ldiff_land. change 3 with (Z.ones 2) at 2. rewrite Z.ldiff_ones_r by lia.
  rewrite Z.shiftr_div_pow2, Z.shiftl_mul_pow2 by lia. change (2 ^ 2) with 4.
  pose proof (Z.div_mod (length + 3) 4 ltac:(lia)). pose proof (Z.mod_pos_bound (length + 3) 4). lia.
Qed.

Lemma aligned_id length : 0 <= length -> length mod 4 = 0 -> Z.land (length + 3) (Z.lnot 3) = length.
Proof.
  intros H Hm. rewrite <- Z.ldiff_land. change 3 with (Z.ones 2) at 2. rewrite Z.ldiff_ones_r by lia.
  rewrite Z.shiftr_div_pow2, Z.shiftl_mul_pow2 by lia. change (2 ^ 2) with 4.
  apply Z.div_exact in Hm; [|lia]. rewrite Hm at 1. replace (4 * (length / 4) + 3) with (3 + length / 4 * 4) by lia.
  rewrite Z.div_add by lia. change (3 / 4) with 0. lia.
Qed.

Lemma parse_message_advances buffer offset event next :
  parse_message buffer offset = Some (event, next) ->
  offset + 36 <= buf_len buffer /\ offset + 36 <= next.
Proof.
  unfold parse_message, NLMSG_HEADER, CN_HEADER. destruct (buf_len buffer <? _) eqn:E; [discriminate|].
  destruct ((_ <? _) || _) eqn:E2; [discriminate|]. apply Z.ltb_ge in E.
  apply orb_false_iff in E2 as [Hl _]. apply Z.ltb_ge in Hl. intros [= _ <-].
  pose proof (aligned (unwrap_or (get_u32 buffer offset) 0)). lia.
Qed.

(** The loop as the source writes it: it runs until [parse_message] ends it. *)
Inductive parses (buffer : list Z) : Z -> list ProcessEvent -> Prop :=
  | ParseEnd offset : parse_message buffer offset = None -> parses buffer offset []
  | ParseStep offset event next events :
      parse_message buffer offset = Some (event, next) -> parses buffer next events ->
      parses buffer offset (opt_list event ++ events).

Lemma parse_from_enough fuel buffer offset :
  buf_len buffer < offset + 36 * (Z.of_nat fuel + 1) -> parses buffer offset (parse_from fuel buffer offset).
Proof.
  revert offset. induction fuel as [|fuel IH]; intros offset H; simpl.
  - apply ParseEnd. destruct (parse_message buffer offset) as [[event next]|] eqn:E; [|done].
    apply parse_message_advances in E. lia.
  - destruct (parse_message buffer offset) as [[event next]|] eqn:E; [|by apply ParseEnd].
    eapply ParseStep; [done|]. apply IH. apply parse_message_advances in E. lia.
Qed.

Lemma parses_deterministic buffer offset events events' :
  parses buffer offset events -> parses buffer offset events' -> events = events'.
Proof.
  intros H. revert events'. induction H as [offset E|offset event next events E _ IH]; intros events' H';
    inversion H' as [? E'|? ? ? ? E' Hr]; subst; rewrite E' in E; try done.
  injection E as -> ->. f_equal. by apply IH.
Qed.

Lemma parses_bound buffer offset events :
  0 <= offset -> parses buffer offset events -> 36 * Z.of_nat (length events) <= Z.max 0 (buf_len buffer - offset).
Proof.
  intros H0 H. induction H as [offset E|offset event next events E _ IH]; simpl; [lia|].
  apply parse_message_advances in E. rewrite length_app. destruct event; simpl; lia.
Qed.

(** The loop always ends, in its only possible result, and reads at most one event per 36 bytes. *)
Lemma parse_messages_total buffer events :
  (parses buffer 0 events <-> events = parse_messages buffer) /\
  36 * Z.of_nat (length (parse_messages buffer)) <= buf_len buffer.
Proof.
  assert (Hp : parses buffer 0 (parse_messages buffer)).
  { apply parse_from_enough. unfold buf_len. lia. }
  split.
  - split; [|by intros ->]. intros H. by eapply parses_deterministic.
  - apply parses_bound in Hp; [|lia]. unfold buf_len in *. lia.
Qed.

(** *** Reading words out of concatenated bytes *)
Lemma get_bytes_app l m r n :
  length m = n -> get_bytes (l ++ m ++ r) (buf_len l) n = Some m.
Proof.
  intros H. unfold get_bytes, buf_len. rewrite !length_app.
  destruct (Z.leb_spec (Z.of_nat (length l) + Z.of_nat n) (Z.of_nat (length l + (length m + length r)))); [|lia].
  by rewrite Nat2Z.id, drop_app_length, <- H, take_app_length.
Qed.

Lemma get_word n l v r :
  0 <= v < 2 ^ (8 * Z.of_nat n) ->
  option_map le_val (get_bytes (l ++ le_bytes n v ++ r) (buf_len l) n) = Some v.
Proof.
  intros H. rewrite get_bytes_app by (unfold le_bytes; by rewrite length_map, length_seq).
  simpl. by rewrite le_val_le_bytes, Z.mod_small.
Qed.

(** ** Frames *)

(** A connector message as the kernel lays it out: the netlink header with its length, the connector
    header with the length of the event, the event's kind, processor and time stamp, and its words.
    For a fork these are the parent's thread and process ids, then the child's; for an exec and an
    exit the thread and process ids come first. *)
Record message : Type := mkMessage {
  m_header : list Z;
  m_connector : list Z;
  m_flags : list Z;
  m_what : Z;
  m_stamp : list Z;
  m_words : list Z }.

Definition words_bytes (ws : list Z) : list Z := concat (map (le_bytes 4) ws).
Definition vec_words (m : message) : Z := Z.of_nat (length m.(m_words)).

Definition frame (m : message) : list Z :=
  le_bytes 4 (52 + 4 * vec_words m) ++ m.(m_header) ++ m.(m_connector)
    ++ le_bytes 2 (16 + 4 * vec_words m) ++ m.(m_flags) ++ le_bytes 4 m.(m_what) ++ m.(m_stamp)
    ++ words_bytes m.(m_words).

Definition message_ok (m : message) : bool :=
  (length m.(m_header) =? 12)%nat && (length m.(m_connector) =? 16)%nat && (length m.(m_flags) =? 2)%nat
  && (length m.(m_stamp) =? 12)%nat && (4 <=? length m.(m_words))%nat && (vec_words m <? 16000)
  && in_u 32 m.(m_what) && forallb (in_u 32) m.(m_words).

Definition word (m : message) (i : nat) : Z := unwrap_or (m.(m_words) !! i) 0.
Definition event_of (m : message) : option ProcessEvent :=
  if m.(m_what) =? PROC_EVENT_FORK then Some (Fork (word m 1) (word m 3))
  else if m.(m_what) =? PROC_EVENT_EXEC then Some (Exec (word m 1))
  else if m.(m_what) =? PROC_EVENT_EXIT then Some (Exit (word m 1))
  else None.

Lemma get_at buffer offset n l v r :
  buffer = l ++ le_bytes n v ++ r -> offset = buf_len l -> in_u (8 * Z.of_nat n) v = true ->
  option_map le_val (get_bytes buffer offset n) = Some v.
Proof. intros -> -> H%andb_true_iff. apply get_word. lia. Qed.

Lemma buf_len_app a b : buf_len (a ++ b) = buf_len a + buf_len b.
Proof. unfold buf_len. rewrite length_app. lia. Qed.
Lemma buf_len_le n v : buf_len (le_bytes n v) = Z.of_nat n.
Proof. unfold buf_len, le_bytes. by rewrite length_map, length_seq. Qed.
Lemma words_bytes_cons w ws : words_bytes (w :: ws) = le_bytes 4 w ++ words_bytes ws.
Proof. reflexivity. Qed.
Lemma buf_len_words ws : buf_len (words_bytes ws) = 4 * Z.of_nat (length ws).
Proof.
  induction ws as [|w ws IH]; [done|].
  rewrite words_bytes_cons, buf_len_app, buf_len_le, IH. simpl length. lia.
Qed.

Lemma message_ok_inv m :
  message_ok m = true ->
  buf_len m.(m_header) = 12 /\ buf_len m.(m_connector) = 16 /\ buf_len m.(m_flags) = 2 /\
  buf_len m.(m_stamp) = 12 /\ 4 <= vec_words m < 16000 /\ in_u 32 m.(m_what) = true /\
  (exists w0 w1 w2 w3 ws, m.(m_words) = w0 :: w1 :: w2 :: w3 :: ws /\
     in_u 32 w1 = true /\ in_u 32 w3 = true).
Proof.
  unfold message_ok. rewrite !andb_true_iff, !Nat.eqb_eq, Nat.leb_le.
  intros (((((((H1 & H2) & H3) & H4) & H5) & H6) & H7) & H8). unfold buf_len, vec_words in *. split_and!; try lia; [done|].
  destruct (m_words m) as [|w0 [|w1 [|w2 [|w3 ws]]]]; simpl in H5; try lia.
  simpl in H8. rewrite !andb_true_iff in H8. exists w0, w1, w2, w3, ws. naive_solver.
Qed.

Lemma frame_len m : message_ok m = true -> buf_len (frame m) = 52 + 4 * vec_words m.
Proof.
  intros (H1 & H2 & H3 & H4 & H5 & _)%message_ok_inv. unfold frame.
  rewrite !buf_len_app, !buf_len_le, buf_len_words. unfold vec_words in *. lia.
Qed.

Ltac at_word l :=
  eapply (get_at _ _ _ l);
  [repeat match goal with b := _ : list Z |- _ => subst b end; rewrite <- ?app_assoc; reflexivity
  |rewrite ?buf_len_app, ?buf_len_le; lia|try done].

(** The event found at the payload of a frame inside a buffer. *)
Lemma event_at_frame m l r :
  message_ok m = true -> event_at (l ++ frame m ++ r) (buf_len l + 36) = event_of m.
Proof.
  intros (H1 & H2 & H3 & H4 & H5 & Hw & w0 & w1 & w2 & w3 & ws & E & Hw1 & Hw3)%message_ok_inv.
  unfold event_at, event_of, word, frame. rewrite E, !words_bytes_cons.
  set (len4 := le_bytes 4 _). set (len2 := le_bytes 2 _).
  set (front := l ++ len4 ++ m_header m ++ m_connector m ++ len2 ++ m_flags m).
  assert (Hf : buf_len front = buf_len l + 36).
  { unfold front, len4, len2. rewrite !buf_len_app, !buf_len_le. lia. }
  set (b := l ++ _).
  assert (G0 : get_u32 b (buf_len l + 36) = Some (m_what m)).
  { at_word front. }
  assert (G1 : get_u32 b (buf_len l + 36 + 16 + 4) = Some w1).
  { at_word (front ++ le_bytes 4 (m_what m) ++ m_stamp m ++ le_bytes 4 w0). }
  assert (G3 : get_u32 b (buf_len l + 36 + 16 + 12) = Some w3).
  { at_word (front ++ le_bytes 4 (m_what m) ++ m_stamp m ++ le_bytes 4 w0 ++ le_bytes 4 w1 ++ le_bytes 4 w2). }
  by rewrite G0, G1, G3.
Qed.

Lemma unwrap_Some {A : Type} (x d : A) : unwrap_or (Some x) d = x.
Proof. reflexivity. Qed.
Ltac in_range := unfold in_u; apply andb_true_iff; split; [apply Z.leb_le; lia|apply Z.ltb_lt; lia].

Lemma parse_message_frame m l r :
  message_ok m = true ->
  parse_message (l ++ frame m ++ r) (buf_len l) = Some (event_of m, buf_len l + buf_len (frame m)).
Proof.
  intros Hok. pose proof (message_ok_inv m Hok) as (H1 & H2 & H3 & H4 & H5 & _).
  pose proof (frame_len m Hok) as Hlen.
  pose proof (event_at_frame m l r Hok) as Hev.
  assert (Gl : get_u32 (l ++ frame m ++ r) (buf_len l) = Some (52 + 4 * vec_words m)).
  { unfold frame. at_word l. change (in_u 32 (52 + 4 * vec_words m) = true). in_range. }
  assert (Gc : get_u16 (l ++ frame m ++ r) (buf_len l + 16 + 16) = Some (16 + 4 * vec_words m)).
  { unfold frame. at_word (l ++ le_bytes 4 (52 + 4 * vec_words m) ++ m_header m ++ m_connector m).
    change (in_u 16 (16 + 4 * vec_words m) = true). in_range. }
  unfold parse_message, NLMSG_HEADER, CN_HEADER. rewrite Gl, unwrap_Some.
  assert (Hr : 0 <= buf_len r) by (unfold buf_len; lia).
  rewrite !buf_len_app, Hlen.
  destruct (_ <? _) eqn:E; [apply Z.ltb_lt in E; lia|clear E].
  destruct (_ || _) eqn:E; [apply orb_true_iff in E; rewrite !Z.ltb_lt in E; lia|clear E].
  rewrite Gc, unwrap_Some. destruct (_ && _) eqn:E; [clear E|apply andb_false_iff in E; rewrite !Z.leb_gt in E; lia].
  rewrite aligned_id by (try apply Z.mod_divide; try lia; exists (13 + vec_words m); lia).
  replace (buf_len l + 16 + 20) with (buf_len l + 36) by lia. by rewrite Hev.
Qed.

Lemma parses_frames ms l r :
  forallb message_ok ms = true -> buf_len r < 36 ->
  parses (l ++ concat (map frame ms) ++ r) (buf_len l) (filter_map event_of ms).
Proof.
  intros Hms Hr. revert l. induction ms as [|m ms IH]; intros l; cbn [map concat].
  - apply ParseEnd. unfold parse_message, NLMSG_HEADER, CN_HEADER. rewrite !buf_len_app.
    destruct (Z.ltb_spec (buf_len l + (buf_len [] + buf_len r)) (buf_len l + 16 + 20)) as [|Hle]; [done|].
    unfold buf_len in *. simpl in Hle. lia.
  - simpl in Hms. apply andb_true_iff in Hms as [Hm Hms].
    replace (filter_map event_of (m :: ms)) with (opt_list (event_of m) ++ filter_map event_of ms)
      by (simpl; by destruct (event_of m)).
    rewrite <- (app_assoc (frame m)). eapply ParseStep; [by apply parse_message_frame|].
    rewrite app_assoc, <- buf_len_app. by apply IH.
Qed.

(** Kernel frames survive the trip to the daemon: of a datagram that holds any well-formed
    connector messages (fork, exec, exit or other kinds, in any number and order) followed by less
    than a header's worth of bytes, [parse_messages] returns exactly the process events the messages
    carry, in order.  On any buffer at all the loop terminates in that one result, and never reports
    more than one event per 36 bytes. *)
Theorem connector_frames_roundtrip (ms : list message) (tail buffer : list Z) :
  forallb message_ok ms = true -> buf_len tail < 36 ->
  parse_messages (concat (map frame ms) ++ tail) = filter_map event_of ms /\
  parses buffer 0 (parse_messages buffer) /\
  36 * Z.of_nat (length (parse_messages buffer)) <= buf_len buffer.
Proof.
  intros Hms Ht. split_and!.
  - symmetry. apply parse_messages_total. exact (parses_frames ms [] tail Hms Ht).
  - by apply parse_messages_total.
  - apply (parse_messages_total buffer []).
Qed.

Definition example_messages : list message :=
  let m what ws := mkMessage (replicate 12 0) (replicate 16 0) [0; 0] what (replicate 12 7) ws in
  [m 1 [10; 10; 20; 20; 0; 0]; m 2 [20; 20; 0; 0]; m 4 [1; 2; 3; 4]; m 0x80000000 [21; 20; 0; 0; 0; 0]].

Example connector_frames_roundtrip_witness :
  parse_messages (concat (map frame example_messages) ++ [1; 2; 3]) = [Fork 10 20; Exec 20; Exit 20].
Proof.
  exact (proj1 (connector_frames_roundtrip example_messages [1; 2; 3] [] ltac:(vm_compute; reflexivity)
    ltac:(vm_compute; reflexivity))).
Defined.

(** A buffer filled to its size, a full channel and a failed [recv] all raise the dirty flag: no
    event is lost without a reconciliation to repair it. *)
Lemma deliver_lossless events channel :
  let '(sent, dirty, continue) := deliver events channel in
  sent `sublist_of` events /\ (dirty = false -> continue = true -> sent = events).
Proof.
  revert channel. induction events as [|event events IH]; intros channel; simpl; [done|].
  destruct channel as [|[| |] channel]; [specialize (IH [])| | |split; [apply sublist_nil_l|discriminate]];
    try specialize (IH channel); destruct (deliver events _) as [[sent dirty] continue]; destruct IH as [IH1 IH2].
  - split; [by apply sublist_skip|]. intros Hd Hc. f_equal. auto.
  - split; [by apply sublist_skip|]. intros Hd Hc. f_equal. auto.
  - split; [by apply sublist_cons|]. discriminate.
Qed.

Lemma receive_lossless r channel sent continue :
  receive_step r channel = (sent, false, continue) -> continue = true ->
  match r with
  | RecvBytes bytes => sent = parse_messages bytes /\ buf_len bytes <> RECEIVE_BUFFER
  | _ => sent = []
  end.
Proof.
  destruct r as [bytes| |]; simpl; [|by intros [= <- <-]|discriminate].
  pose proof (deliver_lossless (parse_messages bytes) channel) as H.
  destruct (deliver _ _) as [[sent' dirty] cont]. destruct H as [_ H]. intros [= -> Hd ->] Hc.
  apply orb_false_iff in Hd as [Hb ->]. split; [by apply H|]. by apply Z.eqb_neq.
Qed.

(** ** Lemmas: the files of [/proc] *)

(** The parent is read correctly whatever the process calls itself: only the text after the last
    [") "] counts, and the kernel's fields after the name hold no parenthesis. *)
Lemma parse_ppid_robust (before state rest : string) (ppid : Z) :
  0 <= ppid < 2 ^ 32 -> str_forall graphic state = true -> is_empty state = false ->
  contains_char ")" (" " +:+ state +:+ " " +:+ dec ppid +:+ " " +:+ rest) = false ->
  parse_ppid (before +:+ ") " +:+ state +:+ " " +:+ dec ppid +:+ " " +:+ rest) = Ok ppid.
Proof.
  intros Hp Hs Hn Hc. unfold parse_ppid.
  pose proof (rsplit_once_last ")" " " before _ Hc) as H.
  change (") " +:+ ?x) with (String ")" (" " +:+ x)). rewrite H.
  cbn [ok_or res_bind]. unfold split_whitespace.
  assert (exists n, String.length (state +:+ " " +:+ dec ppid +:+ " " +:+ rest) = S (S n)) as [n ->].
  { destruct state as [|a st]; [done|]. generalize (dec ppid +:+ " " +:+ rest). intros t.
    exists (String.length st + String.length t)%nat. rewrite !str_app_length.
    change (String.length (String a st)) with (S (String.length st)). change (String.length " ") with 1%nat. lia. }
  rewrite words_graphic by (done || by left).
  change (" " +:+ dec ppid +:+ " " +:+ rest) with (String " " (dec ppid +:+ " " +:+ rest)). rewrite words_space.
  rewrite words_graphic by (first [by apply dec_graphic; lia|by apply dec_nonempty; lia|by left]).
  cbn [lookup list_lookup and_then]. rewrite parse_uint_dec by lia. unfold u_try_from.
  replace (in_u 32 ppid) with true by (unfold in_u; lia). done.
Qed.

(** What the engine reads of a process in a scan is what its files say. *)
Lemma scan_reads proc names pid :
  read_process pid (scan_names proc names) =
    if existsb (fun name => bool_decide (parse_uint 32 name = Some pid)) names
    then res_ok (read_process_files proc pid) else None.
Proof.
  assert (Hpid : forall q info, read_process_files proc q = Ok info -> pi_pid info = q).
  { intros q info. unfold read_process_files. intros H. peel_all H. by rewrite <- H. }
  unfold read_process, scan_names. induction names as [|name names IH]; [done|]. cbn [filter_map existsb].
  destruct (parse_uint 32 name) as [q|] eqn:Eq; cbn [and_then].
  2: { rewrite bool_decide_eq_false_2 by done. exact IH. }
  destruct (decide (q = pid)) as [->|Hne].
  - rewrite bool_decide_eq_true_2 by done. cbn [orb].
    destruct (read_process_files proc pid) as [info|err] eqn:E; cbn [res_ok].
    + cbn [find_first]. by rewrite (Hpid _ _ E), Z.eqb_refl.
    + rewrite IH. by destruct (existsb _ _).
  - rewrite bool_decide_eq_false_2 by congruence. cbn [orb].
    destruct (read_process_files proc q) as [info|err] eqn:E; cbn [res_ok]; [|exact IH].
    cbn [find_first]. rewrite (Hpid _ _ E). by destruct (Z.eqb_spec q pid).
Qed.

(** The daemon reports an exit by process id, and the kernel sends one for every thread: when thread
    [tid] of a running process ends, the process is no longer tracked. *)
Lemma thread_exit_untracks (tid tgid : Z) (rest : list Z) (m : message) (e : engine) :
  m_what m = PROC_EVENT_EXIT -> m_words m = tid :: tgid :: rest -> tid <> tgid ->
  in_marker (e_inner e) <> None ->
  exists event, event_of m = Some event /\ in_tracked (e_inner (handle_event event e).2) !! tgid = None.
Proof.
  intros Hw Hm _ Hk. exists (Exit tgid). split.
  { unfold event_of, word. by rewrite Hw, Hm. }
  unfold handle_event. destruct (in_marker (e_inner e)) as [marker|] eqn:Em; [|done].
  unfold untrack, bind, get, put. destruct (is_excluded _); simpl; [|apply lookup_delete_eq].
  unfold on_marker. simpl. rewrite Em. destruct (set_excluded _ _ _) as [r k]. simpl. apply lookup_delete_eq.
Qed.
