(* ===== verification/SplitService.v ===== *)
(** The split-tunnelling daemon as its callers see it: the D-Bus service ([splitd/src/main.rs]) and the
    background tasks of the engine ([with_store] in [splitd/src/engine.rs] and [receive_loop] in
    [splitd/src/proc_events.rs]).

    The bus is a parameter: [unix_user] gives the user id behind a connection name, or the bus's
    error.  [OwnedValue]s are told apart as far as the service looks at them. *)
From S2P Require Export SplitProc SplitMarks.
Open Scope string_scope.
Open Scope Z_scope.
Open Scope list_scope.
Open Scope rust_scope.

(** [fdo::Error]: the three kinds the service creates, and errors of the bus itself. *)
Inductive fdo_error : Type :=
  | AccessDenied (text : string)
  | InvalidArgs (text : string)
  | Failed (text : string)
  | BusError (text : string).

Inductive OwnedValue : Type :=
  | VString (s : string)
  | VStrings (l : list string)
  | VOther.

#[export] Instance OwnedValue_eq_dec : EqDecision OwnedValue.
Proof. solve_decision. Defined.

Abbreviation dbus_dict := (gmap string OwnedValue).

Definition string_of_value (v : OwnedValue) : option string := match v with VString s => Some s | _ => None end.
Definition strings_of_value (v : OwnedValue) : option (list string) :=
  match v with VStrings l => Some l | _ => None end.

(** [values.remove(key).ok_or_else(..).and_then(..)]. *)
Definition required {A : Type} (values : dbus_dict) (key : string) (f : OwnedValue -> option A) (kind : string)
    : result A string :=
  let? v := ok_or (values !! key) (key +:+ " is required") in
  ok_or (f v) (key +:+ " must be " +:+ kind).

Section Dict.
Context {L : IpLib}.

Definition config_from_dbus (values : dbus_dict) : result SplitConfig string :=
  let? mode := required values "mode" string_of_value "a string" in
  let values := delete "mode" values in
  let? app_paths := required values "app_paths" strings_of_value "an array of strings" in
  let values := delete "app_paths" values in
  let? ip_ranges := required values "ip_ranges" strings_of_value "an array of strings" in
  let values := delete "ip_ranges" values in
  if negb (bool_decide (values = ∅)) then Err "unknown split-tunneling configuration key"
  else
    let? mode := SplitMode_parse mode in
    validate (mkSplitConfig mode app_paths ip_ranges).
End Dict.

Definition config_to_dbus (c : SplitConfig) : dbus_dict :=
  <["ip_ranges" := VStrings c.(sc_ip_ranges)]>
    (<["app_paths" := VStrings c.(sc_app_paths)]>
      (<["mode" := VString (SplitMode_as_str c.(sc_mode))]> ∅)).

(** ** The service's methods *)
Inductive method : Type :=
  | CallSetConfig (uid : Z) (config : dbus_dict)
  | CallGetConfig (uid : Z)
  | CallClearConfig (uid : Z)
  | CallLogStatus
  | CallSetDestinationPolicy (uid : Z) (ranges : list string)
  | CallGetDestinationPolicy (uid : Z)
  | CallSetKillSwitchBypass (uid : Z) (enabled : bool) (routes : list (string * string * string))
  | CallGetAllConfigs.

Inductive reply : Type :=
  | RUnit
  | RDict (values : dbus_dict)
  | RStrings (ranges : list string)
  | RDicts (configs : list (Z * dbus_dict)).

Definition MAX_CALL_ROUTES : Z := 8.

Section Service.
Context {L : IpLib} {J : JsonText}.
Context (ip : trace -> list string -> result string string) (ip_json : string -> result (list json) string).
(** The user behind a connection name ([GetConnectionUnixUser]). *)
Context (unix_user : string -> result Z fdo_error).

Definition caller_uid (sender : option string) : result Z fdo_error :=
  let? sender := ok_or sender (AccessDenied "D-Bus sender identity missing") in
  unix_user sender.

Definition authorize (sender : option string) (requested_uid : Z) : result unit fdo_error :=
  let? caller := caller_uid sender in
  if (caller =? 0) || (caller =? requested_uid) then Ok tt
  else Err (AccessDenied "split-tunneling configuration may only target the calling user").

Definition parse_routes (routes : list (string * string * string)) : result (list PhysicalRoute) fdo_error :=
  if MAX_CALL_ROUTES <? vec_len routes
  then Err (InvalidArgs "at most eight physical routes are accepted")
  else
    res_map_err InvalidArgs
      (res_collect (fun r : string * string * string => PhysicalRoute_parse r.1.1 r.1.2 r.2) routes).

(** Run an engine request and turn its error into a D-Bus error. *)
Definition on_engine (m : M engine unit) (e : engine) : result reply fdo_error * engine :=
  let '(r, e) := m e in
  (match r with Ok _ => Ok RUnit | Err error => Err (Failed error.(io_text)) end, e).

(** Go on with the value of a check that leaves the engine alone. *)
Definition checked {A : Type} (r : result A fdo_error) (k : A -> engine -> result reply fdo_error * engine)
    (e : engine) : result reply fdo_error * engine :=
  match r with Ok a => k a e | Err error => (Err error, e) end.

Definition serve (sender : option string) (m : method) (e : engine) : result reply fdo_error * engine :=
  match m with
  | CallSetConfig uid config =>
      checked (authorize sender uid) (fun _ =>
        checked (res_map_err InvalidArgs (config_from_dbus config)) (fun config =>
          on_engine (set_config ip ip_json true true uid config))) e
  | CallGetConfig uid =>
      checked (authorize sender uid) (fun _ e =>
        (Ok (RDict (unwrap_or (option_map config_to_dbus (get_config uid e)) ∅)), e)) e
  | CallClearConfig uid =>
      checked (authorize sender uid) (fun _ => on_engine (clear_config ip ip_json true true uid)) e
  | CallLogStatus => (Ok RUnit, e)
  | CallSetDestinationPolicy uid ranges =>
      checked (authorize sender uid) (fun _ =>
        checked (res_map_err InvalidArgs (validate_ip_ranges ranges)) (fun ranges =>
          on_engine (set_destination_policy true uid ranges))) e
  | CallGetDestinationPolicy uid =>
      checked (authorize sender uid) (fun _ e => (Ok (RStrings (destination_policy uid e)), e)) e
  | CallSetKillSwitchBypass uid enabled routes =>
      checked (authorize sender uid) (fun _ =>
        checked (parse_routes routes) (fun routes =>
          on_engine (set_kill_switch_bypass ip ip_json true true uid enabled routes))) e
  | CallGetAllConfigs =>
      checked (caller_uid sender) (fun caller e =>
        (Ok (RDicts (map (fun p : Z * SplitConfig => (p.1, config_to_dbus p.2))
               (retain (fun p : Z * SplitConfig => (caller =? 0) || (p.1 =? caller)) (get_all_configs e)))), e)) e
  end.

(** The user a method names. *)
Definition method_uid (m : method) : option Z :=
  match m with
  | CallSetConfig uid _ | CallGetConfig uid | CallClearConfig uid | CallSetDestinationPolicy uid _
  | CallGetDestinationPolicy uid | CallSetKillSwitchBypass uid _ _ => Some uid
  | CallLogStatus | CallGetAllConfigs => None
  end.
End Service.

(** ** Lemmas *)
Lemma retain_unique {K A : Type} `{EqDecision K} (p : K * A -> bool) (k : K) (l : list (K * A)) :
  NoDup (map fst l) -> (forall x, x ∈ l -> p x = bool_decide (x.1 = k)) ->
  retain p l = match find_first (fun x => bool_decide (x.1 = k)) l with Some x => [x] | None => [] end.
Proof.
  induction l as [|x l IH]; intros Hnd Hp; [done|]. cbn [map] in Hnd. apply NoDup_cons in Hnd as [Hx Hnd].
  cbn [retain find_first]. rewrite (Hp x) by left. rewrite IH by (done || (intros y Hy; apply Hp; by right)).
  case_bool_decide as Hk; [|done]. f_equal.
  destruct (find_first _ l) as [y|] eqn:E; [|done]. apply find_first_Some in E as [Hy Hyk].
  apply bool_decide_eq_true in Hyk. destruct Hx. rewrite Hk, <- Hyk. by apply list_elem_of_In, in_map, list_elem_of_In.
Qed.

Lemma own_entries {A : Type} (p : Z * A -> bool) uid (m : gmap Z A) :
  (forall x, p x = bool_decide (x.1 = uid)) ->
  retain p (entries m) = match m !! uid with Some v => [(uid, v)] | None => [] end.
Proof.
  intros Hp. assert (Hnd : NoDup (map fst (entries m))).
  { unfold entries. rewrite merge_sort_Permutation. apply NoDup_fst_map_to_list. }
  rewrite (retain_unique p uid) by done.
  destruct (find_first _ _) as [[k v]|] eqn:E.
  - apply find_first_Some in E as [Hin Hk]. apply bool_decide_eq_true in Hk. simpl in Hk. subst k.
    apply entries_elem in Hin. by rewrite Hin.
  - destruct (m !! uid) as [v|] eqn:Em; [|done]. apply entries_elem in Em.
    apply find_first_None in E. rewrite Forall_forall in E. specialize (E _ Em).
    by rewrite bool_decide_eq_true_2 in E.
Qed.

Section ServiceLemmas.
Context {L : IpLib} {LW : IpLaws L} {J : JsonText}.
Context (ip : trace -> list string -> result string string) (ip_json : string -> result (list json) string).
Context (unix_user : string -> result Z fdo_error).

Lemma config_dbus_roundtrip c : valid_config c -> config_from_dbus (config_to_dbus c) = Ok c.
Proof.
  intros Hv. unfold config_from_dbus, config_to_dbus, required.
  rewrite !lookup_insert_ne, lookup_insert_eq by done. cbn [ok_or res_bind string_of_value].
  set (d1 := delete "mode" _).
  assert (d1 = <["ip_ranges" := VStrings (sc_ip_ranges c)]> {["app_paths" := VStrings (sc_app_paths c)]}) as ->.
  { unfold d1. apply map_eq. intros k. destruct (decide (k = "mode")) as [->|]; [by simplify_map_eq|].
    destruct (decide (k = "ip_ranges")) as [->|]; [by simplify_map_eq|].
    destruct (decide (k = "app_paths")) as [->|]; by simplify_map_eq. }
  rewrite (lookup_insert_ne _ "ip_ranges" "app_paths"), lookup_singleton_eq by done. cbn [ok_or res_bind strings_of_value].
  rewrite delete_insert_ne, delete_singleton_eq, lookup_insert_eq by done. cbn [ok_or res_bind strings_of_value].
  rewrite delete_insert_eq, delete_empty, bool_decide_eq_true_2 by done. cbn [negb].
  assert (SplitMode_parse (SplitMode_as_str (sc_mode c)) = Ok (sc_mode c)) as -> by by destruct (sc_mode c).
  cbn [res_bind]. replace (mkSplitConfig _ _ _) with c by by destruct c. by apply validate_fixed.
Qed.

Lemma config_from_dbus_valid d c : config_from_dbus d = Ok c -> valid_config c.
Proof.
  unfold config_from_dbus. intros H. repeat peel H. by eapply validate_sound.
Qed.

Lemma parse_routes_valid routes rs : parse_routes routes = Ok rs -> Forall valid_route rs.
Proof.
  unfold parse_routes. intros H. destruct (_ <? _); [discriminate|].
  destruct (res_collect _ routes) as [l|] eqn:E; [|discriminate]. apply Ok_inj in H as ->.
  apply res_collect_Ok in E. induction E as [|x y xs ys Hxy _ IH]; constructor; [|done].
  by eapply parse_valid_route.
Qed.

(** One user's part of the daemon's state. *)
Definition policy_of (uid : Z) (e : engine) : option SplitConfig * option (list string) * option (list PhysicalRoute) :=
  (e.(e_inner).(in_configs) !! uid, e.(e_inner).(in_policies) !! uid, e.(e_inner).(in_bypass) !! uid).

Lemma request_frame q e uid :
  uid <> request_uid q -> policy_of uid (run_request ip ip_json q e).2 = policy_of uid e.
Proof.
  intros Hu. pose proof (request_outcome ip ip_json q e) as H.
  destruct (run_request ip ip_json q e) as [[[]|err] e']; simpl in *.
  - destruct H as [H _]. assert (policy_of uid e' = (ls_configs (state_of e') !! uid, ls_policies (state_of e') !! uid, ls_bypass (state_of e') !! uid)) as -> by done.
    rewrite H. unfold policy_of. destruct q as [u c|u|u b rs|u ranges]; simpl in *.
    + rewrite lookup_insert_ne by done. destruct (has_rules c); [done|]. by rewrite lookup_delete_ne.
    + by rewrite !lookup_delete_ne.
    + destruct b; [|by rewrite lookup_delete_ne]. case_bool_decide; [done|]. by rewrite lookup_insert_ne.
    + destruct ranges; [by rewrite lookup_delete_ne|by rewrite lookup_insert_ne].
  - destruct H as (Hc & Hp & Hb & _). unfold policy_of. unfold state_of, persisted, bypass_of in *. simpl in *.
    rewrite Hc, Hp. f_equal. destruct Hb as [->|(rs & _ & [->|[_ ->]])]; [done| |].
    + by rewrite lookup_delete_ne.
    + by rewrite lookup_insert_ne.
Qed.

Lemma authorize_Ok sender uid :
  authorize unix_user sender uid = Ok tt ->
  exists caller, caller_uid unix_user sender = Ok caller /\ (caller = 0 \/ caller = uid).
Proof.
  unfold authorize. destruct (caller_uid unix_user sender) as [caller|err]; [|discriminate]. cbn [res_bind].
  destruct (_ || _) eqn:E; [|discriminate]. intros _. exists caller. split; [done|]. bool_prop. lia.
Qed.

(** Every method either leaves the engine alone or runs one checked request of an authorized caller. *)
Lemma serve_requests sender m e :
  (forall uid, method_uid m = Some uid -> 0 <= uid < 2 ^ 16) ->
  (serve ip ip_json unix_user sender m e).2 = e \/
  exists q caller, caller_uid unix_user sender = Ok caller /\ (caller = 0 \/ caller = request_uid q) /\
    request_checked q /\ (serve ip ip_json unix_user sender m e).2 = (run_request ip ip_json q e).2.
Proof.
  intros Hu. unfold serve, checked, on_engine.
  destruct m as [uid d|uid|uid| |uid ranges|uid|uid b routes|]; simpl in Hu; try specialize (Hu uid eq_refl);
    try (destruct (authorize unix_user sender uid) as [[]|err] eqn:Ea; [apply authorize_Ok in Ea as (caller & Hc & Ha)|by left]);
    try (by left).
  - destruct (config_from_dbus d) as [c|err] eqn:Ed; [|by left]. simpl. right.
    exists (SetConfig uid c), caller. split_and!; try done; [split; [done|by eapply config_from_dbus_valid]|].
    simpl. by destruct (set_config _ _ _ _ _ _ _).
  - right. exists (ClearConfig uid), caller. split_and!; try done. simpl. by destruct (clear_config _ _ _ _ _ _).
  - destruct (validate_ip_ranges ranges) as [rs|err] eqn:Ev; [|by left]. simpl. right.
    exists (SetDestinationPolicy uid rs), caller. split_and!; try done; [split; [done|by eapply validate_ip_ranges_sound]|].
    simpl. by destruct (set_destination_policy _ _ _ _).
  - destruct (parse_routes routes) as [rs|err] eqn:Er; [|by left]. right.
    exists (SetKillSwitchBypass uid b rs), caller. split_and!; try done; [split; [done|by eapply parse_routes_valid]|].
    simpl. by destruct (set_kill_switch_bypass _ _ _ _ _ _ _ _).
  - destruct (caller_uid unix_user sender); by left.
Qed.

(** C22: The daemon isolates users from each other.  A call changes the daemon's state at most by one
    request, checked as [reachable_state_durable] requires, whose user is the caller's own unless the
    caller is root.  So whatever a caller other than root calls, with whatever arguments and whether
    it succeeds or not, every other user's configuration, destination policy and bypass stay the
    same; and the answers to its queries depend on its own policy only. *)
Theorem service_isolates_users sender m e caller :
  caller_uid unix_user sender = Ok caller -> caller <> 0 ->
  (forall uid, method_uid m = Some uid -> 0 <= uid < 2 ^ 16) ->
  ((serve ip ip_json unix_user sender m e).2 = e \/
   exists q, request_checked q /\ request_uid q = caller /\
     (serve ip ip_json unix_user sender m e).2 = (run_request ip ip_json q e).2) /\
  (forall uid, uid <> caller -> policy_of uid (serve ip ip_json unix_user sender m e).2 = policy_of uid e) /\
  (forall e2, policy_of caller e2 = policy_of caller e ->
     match m with
     | CallGetConfig _ | CallGetDestinationPolicy _ | CallGetAllConfigs | CallLogStatus =>
         (serve ip ip_json unix_user sender m e2).1 = (serve ip ip_json unix_user sender m e).1
     | _ => True
     end).
Proof.
  intros Hc H0 Hu. pose proof (serve_requests sender m e Hu) as Hs. split_and!.
  - destruct Hs as [->|(q & c & Hq1 & Hq2 & Hq3 & ->)]; [by left|right]. exists q.
    split_and!; try done. assert (c = caller) as -> by congruence. by destruct Hq2.
  - intros uid Huid. destruct Hs as [->|(q & c & Hq1 & Hq2 & Hq3 & ->)]; [done|]. apply request_frame.
    assert (c = caller) as -> by congruence. destruct Hq2; congruence.
  - intros e2 H. unfold policy_of in H. injection H as H1 H2 _.
    assert (Ha : forall u, authorize unix_user sender u = if decide (u = caller) then Ok tt else
        Err (AccessDenied "split-tunneling configuration may only target the calling user")).
    { intros u. unfold authorize. rewrite Hc. cbn [res_bind]. rewrite (proj2 (Z.eqb_neq caller 0) H0). cbn [orb].
      destruct (decide (u = caller)) as [->|]; [by rewrite Z.eqb_refl|].
      destruct (Z.eqb_spec caller u); [congruence|done]. }
    destruct m as [uid d|uid|uid| |uid ranges|uid|uid b routes|]; try done; unfold serve, checked; rewrite ?Ha, ?Hc.
    + case_decide as E; [subst; unfold get_config; by rewrite H1|done].
    + case_decide as E; [subst; unfold destination_policy; by rewrite H2|done].
    + simpl. unfold get_all_configs. rewrite !(own_entries _ caller); [by rewrite H1|..];
        intros x; rewrite (proj2 (Z.eqb_neq caller 0) H0); simpl; by rewrite bool_decide_decide; destruct (Z.eqb_spec x.1 caller); case_decide.
Qed.
End ServiceLemmas.

(** ** The background tasks *)
Definition SAFETY_RECONCILE_TICKS : Z := 6.

(** The engine with the channel of process events, the flag [reconciliation_needed] and the ticks
    since the last reconciliation. *)
Record daemon : Type := mkDaemon {
  d_engine : engine;
  d_queue : list ProcessEvent;
  d_dirty : bool;
  d_ticks : Z }.

Inductive action : Type :=
  | ActReceive (r : received) (channel : list try_send)
  | ActEvent
  | ActTick
  | ActCall (sender : option string) (m : method)
  (** The rest of the system: other processes, the routing tables, which calls will fail. *)
  | ActWorld (processes : list ProcessInfo) (t : trace) (faults : list bool).

Section Tasks.
Context {L : IpLib} {J : JsonText}.
Context (ip : trace -> list string -> result string string) (ip_json : string -> result (list json) string).
Context (unix_user : string -> result Z fdo_error).

Definition event_turn (d : daemon) : daemon :=
  match d.(d_queue) with
  | [] => d
  | event :: queue =>
      let '(r, e) := handle_event event d.(d_engine) in
      mkDaemon e queue (d.(d_dirty) || negb (is_ok r)) d.(d_ticks)
  end.

Definition tick_runs (d : daemon) : bool :=
  d.(d_dirty) || negb (saturating_add 8 d.(d_ticks) 1 <? SAFETY_RECONCILE_TICKS).

Definition reconcile_turn (d : daemon) : daemon :=
  if tick_runs d then
    let '(r, e) := reconcile d.(d_engine) in mkDaemon e d.(d_queue) (negb (is_ok r)) 0
  else mkDaemon d.(d_engine) d.(d_queue) false (saturating_add 8 d.(d_ticks) 1).

Definition act (a : action) (d : daemon) : daemon :=
  match a with
  | ActReceive r channel =>
      let '(sent, dirty, _) := receive_step r channel in
      mkDaemon d.(d_engine) (d.(d_queue) ++ sent) (d.(d_dirty) || dirty) d.(d_ticks)
  | ActEvent => event_turn d
  | ActTick => reconcile_turn d
  | ActCall sender m =>
      mkDaemon (serve ip ip_json unix_user sender m d.(d_engine)).2 d.(d_queue) d.(d_dirty) d.(d_ticks)
  | ActWorld processes t faults =>
      let e := d.(d_engine) in
      mkDaemon (mkEngine e.(e_inner) e.(e_fs) t faults processes) d.(d_queue) d.(d_dirty) d.(d_ticks)
  end.

Definition run (actions : list action) (d : daemon) : daemon := foldl (fun d a => act a d) d actions.

Definition is_tick (a : action) : bool := match a with ActTick => true | _ => false end.
Definition ticks (actions : list action) : Z := Z.of_nat (length (retain is_tick actions)).

(** The ticks that may pass before a reconciliation runs. *)
Definition budget (d : daemon) : Z := if d.(d_dirty) then 1 else SAFETY_RECONCILE_TICKS - d.(d_ticks).

(** What the daemon should track: nothing unless some policy looks at processes. *)
Definition expected_tracking (e : engine) : gmap Z TrackedProcess :=
  if existsb needs_process_tracking (map_values e.(e_inner).(in_configs))
  then build_tracking e.(e_inner).(in_configs) e.(e_processes) else ∅.

Lemma needs_rules c : needs_process_tracking c = true -> has_rules c = true.
Proof. unfold needs_process_tracking, has_rules. destruct (has_app_rules c); [done|]. simpl. by intros [_ ?]%andb_true_iff. Qed.

Lemma kernel_call_Ok what e e' :
  kernel_call what e = (Ok tt, e') -> e_inner e' = e_inner e /\ e_processes e' = e_processes e.
Proof. unfold kernel_call. destruct (e_faults e) as [|[] ?]; by intros [= <-]. Qed.

Lemma scan_Ok e ps e' : scan e = (Ok ps, e') -> e_inner e' = e_inner e /\ e_processes e' = e_processes e /\ ps = e_processes e.
Proof. intros ([] & e1 & H1 & H2)%bind_Ok. apply kernel_call_Ok in H1 as [? ?]. injection H2 as <- <-. by split_and!. Qed.

(** A successful reconciliation tracks exactly the processes there are. *)
Lemma reconcile_expected e e' : reconcile e = (Ok tt, e') -> tracked e' = expected_tracking e.
Proof.
  unfold reconcile. unfold bind at 1, get. unfold expected_tracking.
  destruct (_ && _) eqn:Er.
  { intros [= <-]. destruct (existsb needs_process_tracking _) eqn:En; [|done]. exfalso.
    apply andb_true_iff in Er as [Er _]. apply negb_true_iff, existsb_false in Er.
    apply existsb_exists in En as (c & Hc & Hn). rewrite Forall_forall in Er.
    apply list_elem_of_In, Er in Hc. by rewrite needs_rules in Hc. }
  intros ([] & e1 & H1 & ([] & e2 & H2 & H3)%bind_Ok)%bind_Ok.
  assert (Hp1 : e_processes e1 = e_processes e).
  { destruct (in_marker (e_inner e)); [by injection H1 as <-|].
    apply bind_Ok in H1 as ([] & e0 & H0 & H1). injection H1 as <-. by apply kernel_call_Ok in H0 as [_ ?]. }
  apply on_marker_Ok in H2 as (_ & _ & P2 & _).
  destruct (existsb needs_process_tracking _); cbn [negb] in H3.
  - apply bind_Ok in H3 as (procs & e3 & Hscan & H3). apply scan_Ok in Hscan as (_ & _ & ->).
    apply bind_Ok in H3 as ([] & e4 & _ & H5). apply bind_Ok in H5 as ([] & e5 & _ & H6).
    injection H6 as <-. unfold tracked. simpl. by rewrite P2, Hp1.
  - apply bind_Ok in H3 as ([] & e3 & H3 & H4). by injection H4 as <-.
Qed.

Definition ticks_ok (d : daemon) : Prop := 0 <= d.(d_ticks) < SAFETY_RECONCILE_TICKS.

Lemma act_waits a d :
  is_tick a = false -> ticks_ok d -> ticks_ok (act a d) /\ budget (act a d) <= budget d.
Proof.
  unfold ticks_ok, budget. intros Ha Ht.
  destruct a as [r ch| | |sender m|ps t fs]; try discriminate; simpl; try (split; [done|lia]).
  - destruct (receive_step r ch) as [[sent dirty] cont]. simpl. split; [done|].
    destruct (d_dirty d), dirty; simpl; lia.
  - unfold event_turn. destruct (d_queue d) as [|event q]; [split; [done|lia]|].
    destruct (handle_event event (d_engine d)) as [r e]. simpl. split; [done|].
    destruct (d_dirty d), (is_ok r); simpl; lia.
Qed.

Lemma tick_waits d :
  ticks_ok d -> tick_runs d = false -> ticks_ok (reconcile_turn d) /\ budget (reconcile_turn d) = budget d - 1.
Proof.
  unfold ticks_ok, budget, reconcile_turn, tick_runs, saturating_add, SAFETY_RECONCILE_TICKS. intros Ht Hr.
  rewrite Hr. simpl. apply orb_false_iff in Hr as [-> Hr]. apply negb_false_iff, Z.ltb_lt in Hr. lia.
Qed.

Lemma budget_positive d : ticks_ok d -> 1 <= budget d.
Proof. unfold ticks_ok, budget. destruct (d_dirty d); lia. Qed.

(** Within the budget some tick reconciles. *)
Lemma tick_reconciles actions d :
  ticks_ok d -> budget d <= ticks actions ->
  exists before after, actions = before ++ ActTick :: after /\ ticks before < budget d /\
    tick_runs (run before d) = true.
Proof.
  revert d. induction actions as [|a actions IH]; intros d Hd Hb.
  { pose proof (budget_positive d Hd). unfold ticks in Hb. simpl in Hb. lia. }
  destruct (is_tick a) eqn:Ha.
  - destruct a; try discriminate. destruct (tick_runs d) eqn:Hr.
    + exists [], actions. split_and!; [done| |done]. pose proof (budget_positive d Hd). unfold ticks. simpl. lia.
    + destruct (tick_waits d Hd Hr) as [Hd' Hb'].
      destruct (IH (reconcile_turn d) Hd') as (before & after & -> & Ht & Hrun).
      { unfold ticks in *. simpl in Hb. lia. }
      exists (ActTick :: before), after. split_and!; [done| |done]. unfold ticks in *. simpl. lia.
  - destruct (act_waits a d Ha Hd) as [Hd' Hb'].
    assert (Hta : forall l, ticks (a :: l) = ticks l) by (intros l; unfold ticks; simpl; by rewrite Ha).
    destruct (IH (act a d) Hd') as (before & after & -> & Ht & Hrun); [rewrite Hta in Hb; lia|].
    exists (a :: before), after. rewrite Hta. split_and!; [done|lia|done].
Qed.

Lemma reconcile_turn_result d :
  tick_runs d = true ->
  match (reconcile d.(d_engine)).1 with
  | Ok _ => tracked (reconcile_turn d).(d_engine) = expected_tracking d.(d_engine) /\ (reconcile_turn d).(d_dirty) = false
  | Err _ => budget (reconcile_turn d) = 1
  end.
Proof.
  intros Hr. unfold reconcile_turn. rewrite Hr. destruct (reconcile (d_engine d)) as [[[]|err] e] eqn:E; [|done].
  split; [|done]. by apply reconcile_expected in E.
Qed.

Lemma run_app l l' d : run (l ++ l') d = run l' (run l d).
Proof. apply foldl_app. Qed.

Lemma run_ticks_ok actions d : ticks_ok d -> ticks_ok (run actions d).
Proof.
  revert d. induction actions as [|a actions IH]; intros d Hd; [done|]. simpl. apply IH.
  destruct (is_tick a) eqn:Ha; [|by apply act_waits]. destruct a; try discriminate. simpl.
  destruct (tick_runs d) eqn:Hr; [|by apply tick_waits]. unfold reconcile_turn. rewrite Hr.
  destruct (reconcile _). unfold ticks_ok, SAFETY_RECONCILE_TICKS. simpl. lia.
Qed.

End Tasks.

(** The event of a new process is lost in a full channel; the next tick finds it. *)
Definition example_daemon : daemon :=
  mkDaemon (mkEngine firefox_inner (mkFs None None []) [] [] [firefox 10; firefox 11]) [] false 0.
Definition lost_event : action :=
  ActReceive (RecvBytes (concat (map frame example_messages))) [ChannelFull; ChannelFull; ChannelFull].


(** A user of the bus sets a configuration; another user's call on it is refused. *)
Lemma service_isolates_users_witness :
  let bus := fun s => if String.eqb s ":1.7" then Ok 1000 else Ok 1001 in
  let e := mkEngine (mkInner ∅ ∅ None ∅ ∅) (mkFs None None []) [] [] [] in
  let call s m e := @serve example_lib reached_text example_ip example_json bus (Some s) m e in
  let config := config_to_dbus (mkSplitConfig Exclude ["/usr/bin/firefox"] ["192.0.2.0/24"]) in
  let e1 := (call ":1.7" (CallSetConfig 1000 config) e).2 in
  policy_of 1001 e1 = policy_of 1001 e /\
  policy_of 1000 (call ":1.8" (CallClearConfig 1000) e1).2 = policy_of 1000 e1 /\
  (call ":1.7" (CallGetConfig 1000) e1).1 = Ok (RDict config).
Proof.
  intros bus e call config e1. split_and!.
  - refine (proj1 (proj2 (@service_isolates_users example_lib example_laws reached_text example_ip example_json bus
      (Some ":1.7") (CallSetConfig 1000 config) e 1000 eq_refl ltac:(discriminate) _)) 1001 ltac:(discriminate)).
    intros uid [= <-]. lia.
  - refine (proj1 (proj2 (@service_isolates_users example_lib example_laws reached_text example_ip example_json bus
      (Some ":1.8") (CallClearConfig 1000) e1 1001 eq_refl ltac:(discriminate) _)) 1000 ltac:(discriminate)).
    intros uid [= <-]. lia.
  - vm_compute. reflexivity.
Defined.
