(* ===== verification/SplitKernel.v ===== *)
(** The daemon, the kernel's maps and the eBPF programs together: attaching the programs ([SocketMarker::attach] of
    [splitd/src/bpf.rs]), the mark a socket leaves with, and the kernel self-test of [splitd/src/main.rs].

    The programs read the maps of [SplitMarker] through the interpreter of [BpfSem].  The lookup in a
    longest-prefix-match trie is the kernel's: the class [KernelTrie], with its documented behaviour. *)
From S2P Require Export SplitService.
From S2P Require BpfSem.
Import BpfSem (env, mkEnv, pid_tgid, uid_gid, ctx_bytes, key_size, map_lookup, le_val, is_some, destination_env, destination_excluded,
  destination_mark_policy, socket_mark_policy, destination_key, destination_address, range_key_size, is_byte, exec, imm64, shr64).
Open Scope string_scope.
Open Scope Z_scope.
Open Scope list_scope.
Open Scope rust_scope.

(** ** Prefixes *)

(** The bits of bytes, the most significant of each first. *)
Definition byte_bits (b : Z) : list bool := map (Z.testbit b) [7; 6; 5; 4; 3; 2; 1; 0].
Definition bits (bytes : list Z) : list bool := concat (map byte_bits bytes).
Definition same_prefix (n : Z) (x y : list Z) : bool := bool_decide (take (Z.to_nat n) (bits x) = take (Z.to_nat n) (bits y)).

(** [BPF_MAP_TYPE_LPM_TRIE]: a key is its length in bits and data; a stored key is a match for a key that is
    not shorter and starts with the same bits. *)
Definition lpm_match (stored key : list Z) : bool :=
  (le_val (take 4 stored) <=? le_val (take 4 key)) && same_prefix (le_val (take 4 stored)) (drop 4 stored) (drop 4 key).
Class KernelTrie : Type := mkKernelTrie { trie_lookup : gset LpmKey -> list Z -> option Z }.
Class TrieLaws (T : KernelTrie) : Prop := mkTrieLaws {
  trie_finds : forall s key, is_some (trie_lookup s key) = true <-> exists k, k ∈ s /\ lpm_match (key_bytes k) key = true }.

(** ** What the programs see *)

(** The descriptors of the maps, different from each other. *)
Record map_fds : Type := mkFds { fd_pid : Z; fd_mode : Z; fd_range4 : Z; fd_range6 : Z; fd_bypass4 : Z; fd_bypass6 : Z }.
Definition fds_list (f : map_fds) : list Z := [f.(fd_pid); f.(fd_mode); f.(fd_range4); f.(fd_range6); f.(fd_bypass4); f.(fd_bypass6)].
Definition fd_range (f : map_fds) (ipv6 : bool) : Z := if ipv6 then f.(fd_range6) else f.(fd_range4).
Definition fd_bypass (f : map_fds) (ipv6 : bool) : Z := if ipv6 then f.(fd_bypass6) else f.(fd_bypass4).

(** [bpf_sock_addr] of an attempt to reach an address: its family, the IPv4 and the IPv6 address. *)
Definition addr_octets (a : IpAddr) : list Z := match a with IpV4 o | IpV6 o => o end.
Definition addr_ctx (a : IpAddr) : list Z :=
  match a with IpV4 o => [2; 0; 0; 0] ++ o ++ replicate 16 0 | IpV6 o => [10; 0; 0; 0] ++ replicate 4 0 ++ o end.
Definition well_formed (a : IpAddr) : Prop := length (addr_octets a) = (if is_ipv4 a then 4 else 16)%nat /\ Forall is_byte (addr_octets a).

(** The process that creates or uses a socket, of the cgroup [user.slice] the programs are attached to. *)
Record caller : Type := mkCaller { ca_pid : Z; ca_tid : Z; ca_uid : Z; ca_gid : Z }.
Definition caller_ok (c : caller) : Prop := 0 <= c.(ca_pid) < 2 ^ 32 /\ 0 <= c.(ca_tid) < 2 ^ 32 /\ 0 <= c.(ca_uid) < 2 ^ 16.

Section Kernel.
Context {T : KernelTrie}.

Definition family_keys (ipv6 : bool) (s : gset (bool * LpmKey)) : gset LpmKey :=
  set_map snd (filter (fun k => k.1 = ipv6) s).

Definition marker_lookup (f : map_fds) (m : SocketMarker) (fd : Z) (key : list Z) : option Z :=
  if fd =? f.(fd_pid) then (if bool_decide (le_val key ∈ m.(pid_map)) then Some 1 else None)
  else if fd =? f.(fd_mode) then m.(mode_map) !! le_val key
  else if fd =? f.(fd_range4) then trie_lookup (family_keys false m.(range_map)) key
  else if fd =? f.(fd_range6) then trie_lookup (family_keys true m.(range_map)) key
  else if fd =? f.(fd_bypass4) then trie_lookup (family_keys false m.(bypass_map)) key
  else if fd =? f.(fd_bypass6) then trie_lookup (family_keys true m.(bypass_map)) key
  else None.

(** Key sizes as [SocketMarker::attach] creates the maps. *)
Definition marker_key_size (f : map_fds) (fd : Z) : nat :=
  if (fd =? f.(fd_pid)) || (fd =? f.(fd_mode)) then 4%nat
  else if (fd =? f.(fd_range4)) || (fd =? f.(fd_bypass4)) then 12%nat else 24%nat.

Definition marker_env (f : map_fds) (m : SocketMarker) (c : caller) (ctx : list Z) : env :=
  mkEnv (c.(ca_pid) * 2 ^ 32 + c.(ca_tid)) (c.(ca_gid) * 2 ^ 32 + c.(ca_uid)) ctx (marker_key_size f) (marker_lookup f m).

(** The mark of a socket after its creation, and after an attempt to reach an address; without programs
    attached nothing happens. *)
Definition run_program (program : option (list BpfInsn)) (e : env) (mark : Z) : option Z :=
  match program with Some p => option_map snd (exec (length p) e p (BpfSem.start mark)) | None => None end.
Definition socket_created (f : map_fds) (marker : option SocketMarker) (c : caller) : option Z :=
  match marker with
  | None => Some 0
  | Some m => run_program (socket_mark_program f.(fd_pid)) (marker_env f m c []) 0
  end.
Definition destination_reached (f : map_fds) (marker : option SocketMarker) (c : caller) (a : IpAddr) (mark : Z) : option Z :=
  match marker with
  | None => Some mark
  | Some m => let ipv6 := negb (is_ipv4 a) in
      run_program (destination_mark_program f.(fd_pid) f.(fd_mode) (fd_range f ipv6) (fd_bypass f ipv6) ipv6) (marker_env f m c (addr_ctx a)) mark
  end.
End Kernel.

(** ** Attaching the programs *)
Definition BPF_MAP_TYPE_HASH : Z := 1.
Definition BPF_MAP_TYPE_LPM_TRIE : Z := 11.
Definition BPF_F_NO_PREALLOC : Z := 1.
Definition BPF_PROG_TYPE_CGROUP_SOCK : Z := 9.
Definition BPF_PROG_TYPE_CGROUP_SOCK_ADDR : Z := 18.
Definition BPF_CGROUP_INET_SOCK_CREATE : Z := 2.
Definition BPF_CGROUP_INET4_CONNECT : Z := 10.
Definition BPF_CGROUP_INET6_CONNECT : Z := 11.
Definition BPF_CGROUP_UDP4_SENDMSG : Z := 14.
Definition BPF_CGROUP_UDP6_SENDMSG : Z := 15.
Definition MAX_TRACKED_PIDS : Z := 65536.
Definition MAX_USER_POLICIES : Z := 64.
Definition MAX_DESTINATIONS : Z := 64 * 256.

Record MapCreateAttr : Type := mkMapAttr {
  ma_type : Z;
  ma_key_size : nat;
  ma_value_size : nat;
  ma_max_entries : Z;
  ma_flags : Z;
  ma_name : list Z }.
Record loaded_program : Type := mkLoaded' { lp_type : Z; lp_attach : Z; lp_name : list Z; lp_code : list BpfInsn }.

(** The kernel's side: descriptors in order, the maps and programs behind them, what is attached to the cgroup as attach
    type and descriptor, and the calls that fail, with the verifier's log. *)
Record objects : Type := mkObjects {
  ob_next : Z;
  ob_maps : list (Z * MapCreateAttr);
  ob_programs : list (Z * loaded_program);
  ob_attached : list (Z * Z);
  ob_faults : list (option (io_error * string)) }.

Definition bpf_call {A : Type} (refusal : io_error -> string -> io_error) (f : objects -> A * objects) : M objects A := fun w =>
  match w.(ob_faults) with
  | Some (e, log) :: rest => (Err (refusal e log), mkObjects w.(ob_next) w.(ob_maps) w.(ob_programs) w.(ob_attached) rest)
  | None :: rest => let '(a, w) := f (mkObjects w.(ob_next) w.(ob_maps) w.(ob_programs) w.(ob_attached) rest) in (Ok a, w)
  | [] => let '(a, w) := f w in (Ok a, w)
  end.
Definition plain (e : io_error) (log : string) : io_error := e.
Definition with_name {A : Type} (name : string) (k : list Z -> M objects A) : M objects A :=
  match kernel_name name with
  | Some n => k n
  | None => throw (mkIoError InvalidInput "eBPF object names must contain 1 to 15 non-NUL bytes")
  end.

Definition create_map (name : string) (map_type : Z) (key_size : nat) (max_entries flags : Z) : M objects Z :=
  with_name name (fun n => bpf_call plain (fun w =>
    (w.(ob_next), mkObjects (w.(ob_next) + 1) (w.(ob_maps) ++ [(w.(ob_next), mkMapAttr map_type key_size 4 max_entries flags n)])
       w.(ob_programs) w.(ob_attached) w.(ob_faults)))).
Definition load_refusal (name : string) (e : io_error) (log : string) : io_error :=
  mkIoError e.(io_kind) ("unable to load split-tunneling eBPF program " +:+ name +:+ ": " +:+ e.(io_text) +:+
    (if is_empty (trim log) then "" else ": " +:+ trim log)).
Definition load_program (program_type attach_type : Z) (name : string) (code : list BpfInsn) : M objects Z :=
  with_name name (fun n => bpf_call (load_refusal name) (fun w =>
    (w.(ob_next), mkObjects (w.(ob_next) + 1) w.(ob_maps) (w.(ob_programs) ++ [(w.(ob_next), mkLoaded' program_type attach_type n code)])
       w.(ob_attached) w.(ob_faults)))).
Definition attach_program (program_fd attach_type : Z) : M objects unit :=
  bpf_call plain (fun w => (tt, mkObjects w.(ob_next) w.(ob_maps) w.(ob_programs) (w.(ob_attached) ++ [(attach_type, program_fd)]) w.(ob_faults))).
Definition detach_program (program_fd attach_type : Z) : M objects unit :=
  bpf_call plain (fun w => (tt, mkObjects w.(ob_next) w.(ob_maps) w.(ob_programs)
    (retain (fun p => negb (bool_decide (p = (attach_type, program_fd)))) w.(ob_attached)) w.(ob_faults))).

(** A program to attach; [None] if assembling it would panic. *)
Record program_spec : Type := mkSpec { ps_type : Z; ps_attach : Z; ps_name : string; ps_code : option (list BpfInsn) }.
Definition load_and_attach (s : program_spec) : M objects (Z * Z) :=
  match s.(ps_code) with
  | None => throw (io_other "eBPF label")
  | Some code =>
      let! program := load_program s.(ps_type) s.(ps_attach) s.(ps_name) code in
      attach_program program s.(ps_attach) ;;! ret (s.(ps_attach), program)
  end.
(** [Drop]: the last attached first; a failing call is ignored. *)
Definition drop_programs (programs : list (Z * Z)) : M objects unit :=
  for_each (fun p : Z * Z => ignore (detach_program p.2 p.1)) (rev programs).
Fixpoint attach_each (specs : list program_spec) (programs : list (Z * Z)) : M objects (list (Z * Z)) :=
  match specs with
  | [] => ret programs
  | s :: specs => attempt (load_and_attach s) (fun r =>
      match r with
      | Ok p => attach_each specs (programs ++ [p])
      | Err e => drop_programs programs ;;! throw e
      end)
  end.
Definition program_specs (f : map_fds) : list program_spec :=
  mkSpec BPF_PROG_TYPE_CGROUP_SOCK BPF_CGROUP_INET_SOCK_CREATE "proton_split" (socket_mark_program f.(fd_pid)) ::
  map (fun '(attach_type, ipv6, name) => mkSpec BPF_PROG_TYPE_CGROUP_SOCK_ADDR attach_type name
         (destination_mark_program f.(fd_pid) f.(fd_mode) (fd_range f ipv6) (fd_bypass f ipv6) ipv6))
    [(BPF_CGROUP_INET4_CONNECT, false, "proton_dst4"); (BPF_CGROUP_INET6_CONNECT, true, "proton_dst6");
     (BPF_CGROUP_UDP4_SENDMSG, false, "proton_udp4"); (BPF_CGROUP_UDP6_SENDMSG, true, "proton_udp6")].
(** [SocketMarker::attach]: the descriptors of the maps, and the attached programs. *)
Definition attach : M objects (map_fds * list (Z * Z)) :=
  let! pid := create_map "proton_pid_map" BPF_MAP_TYPE_HASH 4 MAX_TRACKED_PIDS 0 in
  let! mode := create_map "proton_uid_map" BPF_MAP_TYPE_HASH 4 MAX_USER_POLICIES 0 in
  let! range4 := create_map "proton_ip4_map" BPF_MAP_TYPE_LPM_TRIE 12 MAX_DESTINATIONS BPF_F_NO_PREALLOC in
  let! range6 := create_map "proton_ip6_map" BPF_MAP_TYPE_LPM_TRIE 24 MAX_DESTINATIONS BPF_F_NO_PREALLOC in
  let! bypass4 := create_map "proton_bp4_map" BPF_MAP_TYPE_LPM_TRIE 12 MAX_DESTINATIONS BPF_F_NO_PREALLOC in
  let! bypass6 := create_map "proton_bp6_map" BPF_MAP_TYPE_LPM_TRIE 24 MAX_DESTINATIONS BPF_F_NO_PREALLOC in
  bpf_call plain (fun w => (tt, w)) ;;!
  let f := mkFds pid mode range4 range6 bypass4 bypass6 in
  let! programs := attach_each (program_specs f) [] in
  ret (f, programs).

(** *** All or nothing *)
Definition calm_faults (w : objects) : Prop := Forall (eq None) w.(ob_faults).
(** At most one call fails. *)
Definition one_fault (w : objects) : Prop :=
  calm_faults w \/ exists before fault after, w.(ob_faults) = before ++ Some fault :: after /\ Forall (eq None) before /\ Forall (eq None) after.

(** From at most one failure to come, [m] succeeds as [Q] says, or fails as [E] says with no failure to come. *)
Definition runs_to {A : Type} (m : M objects A) (w : objects) (Q : A -> objects -> Prop) (E : objects -> Prop) : Prop :=
  match m w with (Ok a, w') => one_fault w' /\ Q a w' | (Err _, w') => calm_faults w' /\ E w' end.

Lemma attach_runs_bind {A B : Type} (m : M objects A) (k : A -> M objects B) w Q Q' E :
  runs_to m w Q E -> (forall a w', one_fault w' -> Q a w' -> runs_to (k a) w' Q' E) -> runs_to (bind m k) w Q' E.
Proof. unfold runs_to, bind. intros Hm Hk. destruct (m w) as [[a|e] w']; [destruct Hm; by apply Hk|done]. Qed.
Lemma attach_runs_ret {A : Type} (a : A) w (Q : A -> objects -> Prop) E : one_fault w -> Q a w -> runs_to (ret a) w Q E.
Proof. by split. Qed.

Definition with_ob_faults (l : list (option (io_error * string))) (w : objects) : objects :=
  mkObjects w.(ob_next) w.(ob_maps) w.(ob_programs) w.(ob_attached) l.
Lemma attach_runs_call {A : Type} refusal (f : objects -> A * objects) w (Q : A -> objects -> Prop) (E : objects -> Prop) :
  one_fault w -> (forall u, (f u).2.(ob_faults) = u.(ob_faults)) ->
  (forall l, let u := with_ob_faults l w in Q (f u).1 (f u).2 /\ E u) -> runs_to (bpf_call refusal f) w Q E.
Proof.
  intros Hw Hf H. unfold runs_to, bpf_call.
  assert (Hok : forall l, one_fault (with_ob_faults l w) -> let '(a, w') := f (with_ob_faults l w) in one_fault w' /\ Q a w').
  { intros l Hl. destruct (H l) as [HQ _]. specialize (Hf (with_ob_faults l w)). destruct (f _) as [a w']. cbn in *. split; [|done].
    unfold one_fault, calm_faults in *. by rewrite Hf. }
  destruct (ob_faults w) as [|[[e log]|] rest] eqn:El.
  - specialize (Hok []). replace (with_ob_faults [] w) with w in Hok by (destruct w; cbn in *; by subst). destruct (f w). apply Hok. left. unfold calm_faults. by rewrite El.
  - split; [|apply (H rest)]. destruct Hw as [Hw|(b & fault & a & Hl & Hb & Ha)]; [unfold calm_faults in Hw; rewrite El in Hw; by inversion Hw|].
    rewrite El in Hl. destruct b as [|x b]; injection Hl as Hx ->; [done|]. subst x. by inversion Hb.
  - specialize (Hok rest). unfold with_ob_faults in Hok. destruct (f _) as [a w']. apply Hok. destruct Hw as [Hw|(b & fault & a' & Hl & Hb & Ha)].
    + left. unfold calm_faults in *. rewrite El in Hw. by inversion Hw.
    + right. rewrite El in Hl. destruct b as [|x b]; [done|]. injection Hl as <- ->. exists b, fault, a'. cbn. by inversion Hb.
Qed.

Lemma detach_calm (p : Z * Z) w : calm_faults w -> exists w', ignore (detach_program p.2 p.1) w = (Ok tt, w') /\ calm_faults w' /\
  w'.(ob_attached) = retain (fun q => negb (bool_decide (q = p))) w.(ob_attached).
Proof.
  intros Hw. unfold ignore, attempt, detach_program, bpf_call, calm_faults in *. destruct p as [t d]. cbn [fst snd].
  destruct (ob_faults w) as [|x rest] eqn:E; [eexists; split; [done|]; split; [cbn; by rewrite ?E|done]|].
  inversion Hw as [|? ? <- Hr]; subst. by eexists.
Qed.
Lemma retain_both {A : Type} (f g : A -> bool) l : retain f (retain g l) = retain (fun x => g x && f x) l.
Proof. induction l as [|x l IH]; [done|]. cbn. destruct (g x); cbn; [by destruct (f x); rewrite ?IH|done]. Qed.
Lemma retain_ext {A : Type} (f g : A -> bool) l : (forall x, f x = g x) -> retain f l = retain g l.
Proof. intros H. induction l as [|x l IH]; [done|]. cbn. by rewrite H, IH. Qed.
Lemma detach_each l w : calm_faults w -> exists w', for_each (fun p : Z * Z => ignore (detach_program p.2 p.1)) l w = (Ok tt, w') /\ calm_faults w' /\
  w'.(ob_attached) = retain (fun p => negb (bool_decide (p ∈ l))) w.(ob_attached).
Proof.
  revert w. induction l as [|p l IH]; intros w Hw.
  - exists w. split_and!; [done..|]. symmetry. by apply retain_id, Forall_forall.
  - destruct (detach_calm p w Hw) as (w1 & E1 & H1 & A1). destruct (IH w1 H1) as (w2 & E2 & H2 & A2). exists w2.
    cbn [for_each]. unfold bind. rewrite E1. split_and!; [done..|]. rewrite A2, A1, retain_both. apply retain_ext. intros q.
    rewrite <- negb_orb, <- bool_decide_or. f_equal. apply bool_decide_ext. by rewrite elem_of_cons.
Qed.
(** Dropping the programs that were added leaves those that were there. *)
Lemma drop_added base programs w : calm_faults w -> w.(ob_attached) = base ++ programs -> (forall p, p ∈ programs -> p ∉ base) ->
  exists w', drop_programs programs w = (Ok tt, w') /\ calm_faults w' /\ w'.(ob_attached) = base.
Proof.
  intros Hw Ha Hd. destruct (detach_each (rev programs) w Hw) as (w' & E & H & A). exists w'. split_and!; [done..|].
  assert (Hrev : forall p, p ∈ rev programs <-> p ∈ programs) by (intros p; rewrite !list_elem_of_In; symmetry; apply in_rev).
  rewrite A, Ha, retain_app, retain_id.
  - replace (retain _ programs) with (@nil (Z * Z)); [by rewrite app_nil_r|]. symmetry. destruct (retain _ programs) as [|p l] eqn:Er; [done|].
    assert (Hp : p ∈ retain (fun p => negb (bool_decide (p ∈ rev programs))) programs) by (rewrite Er; left).
    apply retain_elem in Hp as [Hp Hn]. by rewrite bool_decide_eq_true_2 in Hn by by apply Hrev.
  - apply Forall_forall. intros p Hp. rewrite bool_decide_eq_false_2; [done|]. by intros Hq%Hrev%Hd.
Qed.

(** What one of the programs of a specification is in the kernel. *)
Definition carries (w : objects) (s : program_spec) (p : Z * Z) : Prop :=
  p.1 = s.(ps_attach) /\ exists n code, kernel_name s.(ps_name) = Some n /\ s.(ps_code) = Some code /\
    (p.2, mkLoaded' s.(ps_type) s.(ps_attach) n code) ∈ w.(ob_programs).
Definition good_spec (s : program_spec) : Prop := is_Some (kernel_name s.(ps_name)) /\ is_Some s.(ps_code).

Lemma load_runs s w : one_fault w -> good_spec s ->
  runs_to (load_and_attach s) w
    (fun p w' => p = (s.(ps_attach), w.(ob_next)) /\ carries w' s p /\ w'.(ob_next) = w.(ob_next) + 1 /\ w'.(ob_maps) = w.(ob_maps) /\
       w.(ob_programs) ⊆ w'.(ob_programs) /\ w'.(ob_attached) = w.(ob_attached) ++ [p])
    (fun w' => w'.(ob_attached) = w.(ob_attached)).
Proof.
  intros Hw [[n Hn] [code Hc]]. unfold load_and_attach. rewrite Hc. unfold load_program, with_name. rewrite Hn.
  eapply (attach_runs_bind _ _ _ (fun fd w' => fd = w.(ob_next) /\ w' = mkObjects (w.(ob_next) + 1) w.(ob_maps)
    (w.(ob_programs) ++ [(w.(ob_next), mkLoaded' s.(ps_type) s.(ps_attach) n code)]) w.(ob_attached) w'.(ob_faults))).
  { apply attach_runs_call; [done|done|]. by intros l. }
  intros fd w1 H1 [-> ->]. eapply (attach_runs_bind _ _ _ (fun _ w' => w' = mkObjects (w.(ob_next) + 1) w.(ob_maps)
    (w.(ob_programs) ++ [(w.(ob_next), mkLoaded' s.(ps_type) s.(ps_attach) n code)]) (w.(ob_attached) ++ [(s.(ps_attach), w.(ob_next))]) w'.(ob_faults))).
  { apply attach_runs_call; [done|done|]. by intros l. }
  intros _ w2 H2 ->. apply attach_runs_ret; [done|]. cbn. split_and!; try done; [|set_solver].
  split; [done|]. exists n, code. split_and!; [done..|]. cbn. set_solver.
Qed.

Lemma carries_mono w w' s p : w.(ob_programs) ⊆ w'.(ob_programs) -> carries w s p -> carries w' s p.
Proof. intros Hs [H1 (n & code & Hn & Hc & Hin)]. split; [done|]. exists n, code. by auto. Qed.
Lemma attach_each_runs base first specs : forall done_specs programs w,
  one_fault w -> Forall good_spec specs -> Forall2 (carries w) done_specs programs -> w.(ob_attached) = base ++ programs ->
  (forall p, p ∈ base -> p.2 < first) -> (forall p, p ∈ programs -> first <= p.2) -> first <= w.(ob_next) ->
  runs_to (attach_each specs programs) w
    (fun programs' w' => Forall2 (carries w') (done_specs ++ specs) programs' /\ w'.(ob_attached) = base ++ programs' /\ w'.(ob_maps) = w.(ob_maps))
    (fun w' => w'.(ob_attached) = base).
Proof.
  induction specs as [|s specs IH]; intros done_specs programs w Hw Hg Hd Ha Hb Hp Hn.
  { apply attach_runs_ret; [done|]. by rewrite app_nil_r. }
  inversion Hg as [|? ? Hs Hg']; subst. pose proof (load_runs s w Hw Hs) as H. unfold runs_to in *. cbn [attach_each]. unfold attempt.
  destruct (load_and_attach s w) as [[p|e] w1].
  - destruct H as [H1 (-> & Hc & Hn1 & Hm1 & Hsub & Ha1)].
    specialize (IH (done_specs ++ [s]) (programs ++ [(ps_attach s, ob_next w)]) w1 H1 Hg'). rewrite <- app_assoc, Hm1 in IH. apply IH; try done.
    + apply Forall2_app; [|by constructor]. eapply Forall2_impl; [exact Hd|]. intros ? ?. by apply carries_mono.
    + by rewrite Ha1, Ha, app_assoc.
    + intros q [Hq| ->%list_elem_of_singleton]%elem_of_app; [by apply Hp|done].
    + lia.
  - destruct H as [H1 Ha1]. destruct (drop_added base programs w1 H1) as (w2 & E & H2 & A2); [congruence| |].
    + intros q Hq Hq'. apply Hp in Hq. apply Hb in Hq'. lia.
    + unfold bind. by rewrite E.
Qed.

Lemma create_map_runs name n map_type key_size max flags w : one_fault w -> kernel_name name = Some n ->
  runs_to (create_map name map_type key_size max flags) w
    (fun fd w' => fd = w.(ob_next) /\ w'.(ob_next) = w.(ob_next) + 1 /\ w'.(ob_attached) = w.(ob_attached) /\
       w'.(ob_maps) = w.(ob_maps) ++ [(fd, mkMapAttr map_type key_size 4 max flags n)])
    (fun w' => w'.(ob_attached) = w.(ob_attached)).
Proof. intros Hw Hn. unfold create_map, with_name. rewrite Hn. by apply attach_runs_call. Qed.

Lemma specs_good f : Forall good_spec (program_specs f).
Proof.
  assert (Hd : forall b, is_Some (destination_mark_program f.(fd_pid) f.(fd_mode) (fd_range f b) (fd_bypass f b) b)).
  { intros b. destruct (BpfSem.programs_assemble f.(fd_pid) f.(fd_mode) (fd_range f b) (fd_bypass f b)) as (_ & H4 & H6). by destruct b. }
  unfold program_specs, good_spec. cbn [map]. repeat (apply Forall_cons; split; [split; cbn [ps_name ps_code]; [vm_compute; by eexists|]|]); [| | | | |by constructor].
  - by destruct (BpfSem.programs_assemble f.(fd_pid) 0 0 0) as (? & _).
  - apply Hd.
  - apply Hd.
  - apply Hd.
  - apply Hd.
Qed.

(** [SocketMarker::attach] is all or nothing: if no call fails the six maps have descriptors of their own and the key sizes the
    programs rely on, and exactly the five programs for these maps are attached; if a call fails the cgroup is left as it was. *)
Theorem attach_all_or_nothing w : one_fault w -> (forall p, p ∈ w.(ob_attached) -> p.2 < w.(ob_next)) ->
  runs_to attach w
    (fun '(f, programs) w' => NoDup (fds_list f) /\
       (exists maps, w'.(ob_maps) = w.(ob_maps) ++ maps /\ map fst maps = fds_list f /\
          forall fd attr, (fd, attr) ∈ maps -> attr.(ma_key_size) = marker_key_size f fd) /\
       Forall2 (carries w') (program_specs f) programs /\ w'.(ob_attached) = w.(ob_attached) ++ programs)
    (fun w' => w'.(ob_attached) = w.(ob_attached)).
Proof.
  intros Hw Hold. unfold attach. do 6 (eapply attach_runs_bind; [eapply create_map_runs; [eassumption|vm_compute; reflexivity]|];
    let a := fresh "a" in let w' := fresh "w" in let H := fresh "Hf" in let E := fresh "E" in let N := fresh "N" in let A := fresh "A" in let M := fresh "M" in
    intros a w' H (E & N & A & M); rewrite <- ?A in *).
  eapply (attach_runs_bind _ _ _ (fun _ w' => exists l, w' = with_ob_faults l w5)); [apply attach_runs_call; [done|done|intros l; split; [by exists l|done]]|].
  intros _ w6 Hf6 [l ->]. set (f := mkFds a a0 a1 a2 a3 a4).
  eapply attach_runs_bind.
  { eapply (attach_each_runs (ob_attached w5) (ob_next w) (program_specs f) [] []); try done; [apply specs_good|by rewrite app_nil_r|by intros p Hp%not_elem_of_nil|cbn; lia]. }
  intros programs w7 Hf7 (Hc & Ha & Hm). apply attach_runs_ret; [done|]. cbn [with_ob_faults ob_maps] in Hm. split_and!; [|eexists; split_and!|done|done].
  - unfold fds_list, f. cbn. repeat (apply NoDup_cons; split; [rewrite ?not_elem_of_cons; split_and?; try lia; apply not_elem_of_nil|]). by apply NoDup_nil.
  - rewrite Hm, M4, M3, M2, M1, M0, M, <- !app_assoc. cbn [app]. reflexivity.
  - done.
  - intros fd attr Hin. unfold marker_key_size, f. cbn. set_unfold in Hin. destruct_or! Hin; injection Hin as -> ->; cbn [ma_key_size];
      repeat match goal with |- context[?x =? ?y] => destruct (Z.eqb_spec x y); try lia; cbn [orb] end; done.

Qed.

(** ** The policy *)
Section Policy.
Context {L : IpLib}.

(** The range of a configuration holds an address. *)
Definition net_contains (n : IpNet) (a : IpAddr) : bool :=
  bool_decide (is_ipv4 (net_network n) = is_ipv4 a) && same_prefix (net_prefix_len n) (addr_octets (net_network n)) (addr_octets a).
Definition range_contains (a : IpAddr) (value : string) : bool :=
  match parse_ip_range value with Ok n => net_contains n a | Err _ => false end.

(** Whether a user's destination leaves the tunnel: always in the ranges of the destination policy; in the
    ranges of the configuration as its mode says; elsewhere as the application does. *)
Definition leaves_tunnel (configs : ConfigMap) (policies : PolicyMap) (uid : Z) (app : bool) (a : IpAddr) : bool :=
  existsb (range_contains a) (unwrap_or (policies !! uid) []) ||
  match configs !! uid with
  | Some c => if existsb (range_contains a) c.(sc_ip_ranges) then bool_decide (c.(sc_mode) = Exclude) else app
  | None => app
  end.

(** [ipnet]: an address has 4 or 16 octets, a prefix is no longer than the address. *)
Class IpShapes : Prop := mkIpShapes {
  net_shape : forall n, well_formed (net_network n) /\ 0 <= net_prefix_len n <= 8 * Z.of_nat (length (addr_octets (net_network n))) }.
End Policy.

(** ** Lemmas on prefixes *)
Lemma byte_bits_inj x y : is_byte x -> is_byte y -> byte_bits x = byte_bits y -> x = y.
Proof.
  unfold is_byte, byte_bits. intros Hx Hy [= H7 H6 H5 H4 H3 H2 H1 H0]. apply Z.bits_inj'. intros n Hn.
  destruct (Z.lt_ge_cases n 8) as [Hlt|Hge].
  - assert (n = 0 \/ n = 1 \/ n = 2 \/ n = 3 \/ n = 4 \/ n = 5 \/ n = 6 \/ n = 7) as Hc by lia. by destruct_or! Hc; subst.
  - assert (forall z, 0 <= z < 256 -> Z.testbit z n = false) as Hz; [|by rewrite !Hz].
    intros z Hz. destruct (decide (z = 0)) as [->|]; [apply Z.bits_0|]. apply Z.bits_above_log2; [lia|].
    assert (Z.log2 z < 8); [|lia]. apply Z.log2_lt_pow2; lia.
Qed.
Lemma bits_cons b l : bits (b :: l) = byte_bits b ++ bits l.
Proof. done. Qed.
Lemma bits_app x y : bits (x ++ y) = bits x ++ bits y.
Proof. unfold bits. by rewrite map_app, concat_app. Qed.
Lemma bits_length l : length (bits l) = (8 * length l)%nat.
Proof. induction l as [|b l IH]; [done|]. rewrite bits_cons, length_app, IH. cbn [length byte_bits map]. lia. Qed.
Lemma bits_inj x y : Forall is_byte x -> Forall is_byte y -> bits x = bits y -> x = y.
Proof.
  intros Hx. revert y. induction Hx as [|b x Hb _ IH]; intros y Hy H.
  - destruct y as [|c y]; [done|]. apply (f_equal length) in H. rewrite !bits_length in H. cbn in H. lia.
  - destruct Hy as [|c y Hc Hy]; [apply (f_equal length) in H; rewrite !bits_length in H; cbn in H; lia|].
    rewrite !bits_cons in H. apply app_inj_1 in H as [H1 H2]; [|done]. f_equal; [by apply byte_bits_inj|by apply IH].
Qed.
Lemma le_bytes_bytes n z : Forall is_byte (le_bytes n z).
Proof. unfold le_bytes. apply Forall_forall. intros b (i & -> & _)%list_elem_of_fmap. apply BpfSem.byte_at_range. Qed.
Lemma le_bytes_length n z : length (le_bytes n z) = n.
Proof. unfold le_bytes. by rewrite length_map, length_seq. Qed.
Lemma le_val_word z : 0 <= z < 2 ^ 32 -> le_val (le_bytes 4 z) = z.
Proof. intros Hz. rewrite BpfSem.le_val_le_bytes. apply Z.mod_small. exact Hz. Qed.

(** A stored key of one user against the full key of another's destination. *)
Lemma user_match uid uid' p p' octets address :
  0 <= uid < 2 ^ 32 -> 0 <= uid' < 2 ^ 32 -> 0 <= p <= p' -> p' < 2 ^ 31 ->
  lpm_match (key_bytes (mkLpmKey (32 + p) uid' octets)) (key_bytes (mkLpmKey (32 + p') uid address)) =
  bool_decide (uid' = uid) && same_prefix p octets address.
Proof.
  intros Hu Hu' Hp Hp'. unfold lpm_match, key_bytes. cbn [key_prefix_len key_uid key_address].
  rewrite !take_app_length', !drop_app_length' by (by rewrite le_bytes_length). rewrite !le_val_word by lia.
  replace (32 + p <=? 32 + p') with true by (symmetry; lia). cbn [andb]. unfold same_prefix. rewrite !bits_app.
  assert (Hw : forall u (l : list Z), take (Z.to_nat (32 + p)) (bits (le_bytes 4 u) ++ bits l) = bits (le_bytes 4 u) ++ take (Z.to_nat p) (bits l)).
  { intros u l. rewrite take_app, bits_length, le_bytes_length, take_ge by (rewrite bits_length, le_bytes_length; lia). do 2 f_equal. lia. }
  rewrite !Hw. rewrite <- bool_decide_and. apply bool_decide_ext. split.
  - intros H. apply app_inj_1 in H as [H1 H2]; [|by rewrite !bits_length, !le_bytes_length]. split; [|done].
    apply bits_inj in H1; [|apply le_bytes_bytes..]. by rewrite <- (le_val_word uid'), <- (le_val_word uid), H1.
  - by intros [-> ->].
Qed.

(** ** The programs decide as the policy *)
Section Decides.
Context {L : IpLib} {LS : IpShapes} {T : KernelTrie} {TL : TrieLaws T}.

Lemma range_key_Ok uid v n : parse_ip_range v = Ok n ->
  range_key uid v = Ok (negb (is_ipv4 (net_network n)), mkLpmKey (32 + net_prefix_len n) uid (addr_octets (net_network n))).
Proof. intros H. unfold range_key. rewrite H. by destruct (net_network n). Qed.

Lemma destination_key_of c a : well_formed a ->
  destination_key (negb (is_ipv4 a)) c.(ca_uid) (addr_ctx a) =
  mkLpmKey (32 + 8 * Z.of_nat (length (addr_octets a))) c.(ca_uid) (addr_octets a).
Proof.
  destruct a as [o|o]; intros [Hl _]; cbn in Hl; unfold destination_key; cbn [is_ipv4 negb]; unfold ipv4_key, ipv6_key, destination_address, addr_ctx.
  - replace (take 4 _) with o; [cbn [addr_octets]; by rewrite Hl|].
    rewrite drop_app_length' by done. by rewrite take_app_length' by (by rewrite Hl).
  - replace (take 16 _) with o; [cbn [addr_octets]; by rewrite Hl|].
    rewrite app_assoc, drop_app_length' by (by rewrite length_app). by rewrite take_ge by (by rewrite Hl).
Qed.

(** A user's tries hold a match exactly for the destinations in the ranges listed for that user. *)
Lemma trie_matches b m c a :
  exact m -> keys_in m.(m_configs) -> keys_in m.(m_policies) -> caller_ok c -> well_formed a ->
  is_some (trie_lookup (family_keys (negb (is_ipv4 a)) (trie b m)) (key_bytes (destination_key (negb (is_ipv4 a)) c.(ca_uid) (addr_ctx a)))) = true <->
  exists v, listed b m.(m_configs) m.(m_policies) c.(ca_uid) v /\ range_contains a v = true.
Proof.
  intros Hx Hc Hp (_ & _ & Hu) Ha. rewrite trie_finds, destination_key_of by done. unfold family_keys. pose proof (proj1 Ha) as Hlen.
  assert (Hone : forall uid v n, listed b (m_configs m) (m_policies m) uid v -> parse_ip_range v = Ok n ->
    is_ipv4 (net_network n) = is_ipv4 a ->
    lpm_match (key_bytes (mkLpmKey (32 + net_prefix_len n) uid (addr_octets (net_network n))))
      (key_bytes (mkLpmKey (32 + 8 * Z.of_nat (length (addr_octets a))) c.(ca_uid) (addr_octets a))) =
    bool_decide (uid = c.(ca_uid)) && same_prefix (net_prefix_len n) (addr_octets (net_network n)) (addr_octets a)).
  { intros uid v n Hl Hn Hf. pose proof (net_shape n) as [[Hnl _] Hpl]. rewrite Hf in Hnl.
    assert (0 <= uid < 2 ^ 16).
    { destruct b; destruct Hl as (x & Hl & _); [by eapply Hp|by eapply Hc]. }
    assert (length (addr_octets a) <= 16)%nat by (rewrite Hlen; destruct (is_ipv4 a); lia).
    apply user_match; [lia|lia| |lia]. rewrite Hnl, <- Hlen in Hpl. lia. }
  split.
  - intros (k & ((fam & k') & -> & [Hf Hin]%elem_of_filter)%elem_of_map & Hm). cbn in Hf, Hm. subst fam.
    apply (ex_tries _ Hx) in Hin as (uid & v & Hl & Hk). destruct (parse_ip_range v) as [n|e] eqn:En.
    2:{ unfold range_key in Hk. by rewrite En in Hk. }
    rewrite (range_key_Ok _ _ _ En) in Hk. apply Ok_inj in Hk. injection Hk as Hf Hk.
    assert (Hf' : is_ipv4 (net_network n) = is_ipv4 a) by (by destruct (is_ipv4 (net_network n)), (is_ipv4 a)).
    rewrite <- Hk, (Hone uid v n Hl En Hf') in Hm. apply andb_true_iff in Hm as [Hq%bool_decide_eq_true Hs]. subst uid.
    exists v. split; [done|]. unfold range_contains, net_contains. rewrite En, Hs, andb_true_r. by apply bool_decide_eq_true.
  - intros (v & Hl & Hr). unfold range_contains in Hr. destruct (parse_ip_range v) as [n|e] eqn:En; [|done].
    apply andb_true_iff in Hr as [Hf%bool_decide_eq_true Hs].
    eexists. split.
    + apply elem_of_map. exists (negb (is_ipv4 a), mkLpmKey (32 + net_prefix_len n) c.(ca_uid) (addr_octets (net_network n))).
      split; [done|]. apply elem_of_filter. split; [done|]. apply (ex_tries _ Hx). exists c.(ca_uid), v. split; [done|].
      by rewrite (range_key_Ok _ _ _ En), Hf.
    + cbn [snd]. rewrite (Hone c.(ca_uid) v n Hl En Hf), Hs. by rewrite bool_decide_eq_true_2.
Qed.

Lemma existsb_listed (f : string -> bool) (P : string -> Prop) l :
  (forall v, P v <-> v ∈ l) -> existsb f l = true <-> exists v, P v /\ f v = true.
Proof. intros H. rewrite existsb_exists. split; intros (v & Hv & Hf); exists v; (split; [|done]); [apply H|apply list_elem_of_In, H]; by try apply list_elem_of_In. Qed.
Lemma iff_bool (x y : bool) : (x = true <-> y = true) -> x = y.
Proof. destruct x, y; intros [H1 H2]; try done; [by rewrite H1|by rewrite H2]. Qed.

Lemma fds_differ f : NoDup (fds_list f) ->
  (f.(fd_mode) =? f.(fd_pid)) = false /\ forall ipv6 : bool,
  (fd_range f ipv6 =? f.(fd_pid)) = false /\ (fd_range f ipv6 =? f.(fd_mode)) = false /\
  (fd_bypass f ipv6 =? f.(fd_pid)) = false /\ (fd_bypass f ipv6 =? f.(fd_mode)) = false /\
  (fd_bypass f ipv6 =? f.(fd_range4)) = false /\ (fd_bypass f ipv6 =? f.(fd_range6)) = false /\
  (f.(fd_range6) =? f.(fd_range4)) = false /\ (f.(fd_bypass6) =? f.(fd_bypass4)) = false /\
  (f.(fd_range6) =? f.(fd_bypass4)) = false.
Proof.
  unfold fds_list. intros H. repeat (apply NoDup_cons in H as [? H]). clear H.
  repeat match goal with H : _ ∉ _ :: _ |- _ => apply not_elem_of_cons in H as [? H] end.
  split; [apply Z.eqb_neq; congruence|]. intros []; cbn [fd_range fd_bypass]; split_and!; apply Z.eqb_neq; congruence.
Qed.
Lemma lookup_range f m ipv6 key : NoDup (fds_list f) ->
  marker_lookup f m (fd_range f ipv6) key = trie_lookup (family_keys ipv6 (trie false m)) key.
Proof.
  intros (H0 & H)%fds_differ. destruct (H ipv6) as (R1 & R2 & B1 & B2 & B3 & B4 & R3 & B5 & B6).
  unfold marker_lookup. rewrite R1, R2. destruct ipv6; cbn [fd_range trie] in *; [by rewrite R3, Z.eqb_refl|by rewrite Z.eqb_refl].
Qed.
Lemma lookup_bypass f m ipv6 key : NoDup (fds_list f) ->
  marker_lookup f m (fd_bypass f ipv6) key = trie_lookup (family_keys ipv6 (trie true m)) key.
Proof.
  intros (H0 & H)%fds_differ. destruct (H ipv6) as (R1 & R2 & B1 & B2 & B3 & B4 & R3 & B5 & B6).
  unfold marker_lookup. rewrite B1, B2, B3, B4. destruct ipv6; cbn [fd_bypass trie] in *; [by rewrite B5, Z.eqb_refl|by rewrite Z.eqb_refl].
Qed.
Lemma lookup_pid f m c : caller_ok c ->
  is_some (marker_lookup f m f.(fd_pid) (le_bytes 4 (shr64 (c.(ca_pid) * 2 ^ 32 + c.(ca_tid)) 32))) = bool_decide (c.(ca_pid) ∈ m.(pid_map)).
Proof.
  intros (Hp & Ht & _). unfold shr64. rewrite Z.shiftr_div_pow2 by lia.
  rewrite Z.div_add_l, (Z.div_small (ca_tid c)), Z.add_0_r by lia.
  unfold marker_lookup. rewrite Z.eqb_refl, le_val_word by done. by case_bool_decide.
Qed.

(** What the destination programs read is what the policy says. *)
Lemma decides f m c a :
  NoDup (fds_list f) -> exact m -> keys_in m.(m_configs) -> keys_in m.(m_policies) -> caller_ok c -> well_formed a ->
  let ipv6 := negb (is_ipv4 a) in
  destination_excluded ipv6 (marker_env f m c (addr_ctx a)) f.(fd_pid) f.(fd_mode) (fd_range f ipv6) (fd_bypass f ipv6) =
  leaves_tunnel m.(m_configs) m.(m_policies) c.(ca_uid) (bool_decide (c.(ca_pid) ∈ m.(pid_map))) a.
Proof.
  intros Hf Hx Hc Hp Hcc Ha ipv6. unfold destination_excluded, marker_env. cbv [map_lookup pid_tgid uid_gid ctx_bytes].
  rewrite lookup_pid by done. pose proof Hcc as (_ & _ & Hu).
  replace ((c.(ca_gid) * 2 ^ 32 + c.(ca_uid)) mod 2 ^ 32) with c.(ca_uid) by (rewrite Z.add_comm, Z.mod_add, Z.mod_small; lia).
  rewrite lookup_range, lookup_bypass by done. subst ipv6.
  pose proof (trie_matches true m c a Hx Hc Hp Hcc Ha) as Hb. pose proof (trie_matches false m c a Hx Hc Hp Hcc Ha) as Hr.
  set (bypassed := is_some (trie_lookup (family_keys _ (trie true m)) _)) in *.
  set (ranged := is_some (trie_lookup (family_keys _ (trie false m)) _)) in *.
  unfold leaves_tunnel, BpfSem.excluded. f_equal.
  - apply iff_bool. rewrite Hb. symmetry. apply existsb_listed. intros v. cbn [listed].
    destruct (m_policies m !! ca_uid c) as [p|]; cbn [unwrap_or]; [|split; [by intros (? & ? & _)|by intros ?%not_elem_of_nil]].
    split; [by intros (? & [= <-] & ?)|intros ?; by exists p].
  - destruct (fds_differ f Hf) as [Hm _]. unfold marker_lookup. rewrite Hm, Z.eqb_refl, le_val_word by lia.
    destruct (m_configs m !! ca_uid c) as [cfg|] eqn:Ecfg.
    + assert (Hex : ranged = existsb (range_contains a) cfg.(sc_ip_ranges)).
      { apply iff_bool. rewrite Hr. symmetry. apply existsb_listed. intros v. cbn [listed]. rewrite Ecfg.
        split; [by intros (? & [= <-] & ?)|intros ?; by exists cfg]. }
      rewrite <- Hex. destruct (has_rules cfg) eqn:Eh.
      * rewrite (ex_modes _ Hx _ _ Ecfg Eh). destruct ranged; [|done]. unfold mode_value. by destruct (sc_mode cfg).
      * assert (Hn : cfg.(sc_ip_ranges) = []).
        { unfold has_rules in Eh. apply orb_false_iff in Eh as [_ Eh]. by destruct (sc_ip_ranges cfg). }
        rewrite Hn in Hex. cbn in Hex. rewrite Hex. by destruct (mode_map m !! ca_uid c).
    + assert (Hex : ranged = false).
      { destruct ranged; [|done]. destruct (proj1 Hr eq_refl) as (v & (? & Hl & _) & _). congruence. }
      rewrite Hex. by destruct (mode_map m !! ca_uid c).
Qed.
End Decides.

(** ** The daemon keeps the kernel's maps at its policy *)
Section Installed.
Context {L : IpLib}.

(** What the maps hold besides the processes, and what they were last set to. *)
Definition policy_part (m : SocketMarker) : gmap Z Z * gset (bool * LpmKey) * gset (bool * LpmKey) * ConfigMap * PolicyMap :=
  (m.(mode_map), m.(range_map), m.(bypass_map), m.(m_configs), m.(m_policies)).
Definition part_of (e : engine) := option_map policy_part e.(e_inner).(in_marker).
Definition rules_of (e : engine) : ConfigMap * PolicyMap := (e.(e_inner).(in_configs), e.(e_inner).(in_policies)).

Definition kernel_exact (e : engine) : Prop := match e.(e_inner).(in_marker) with Some m => exact m | None => True end.
Definition no_rules (e : engine) : Prop :=
  (forall uid c, e.(e_inner).(in_configs) !! uid = Some c -> has_rules c = false) /\
  (forall uid p, e.(e_inner).(in_policies) !! uid = Some p -> p = []).
(** The kernel is at the engine's policy: the maps hold it exactly, or nothing is attached as there are no rules. *)
Definition installed (e : engine) : Prop :=
  match e.(e_inner).(in_marker) with
  | Some m => exact m /\ (m.(m_configs), m.(m_policies)) = rules_of e
  | None => no_rules e
  end.

Lemma exact_part m m' : policy_part m' = policy_part m -> exact m -> exact m'.
Proof.
  intros [= H1 H2 H3 H4 H5] [Ht Hm]. split.
  - intros b k. rewrite H4, H5, <- Ht. destruct b; cbn; by rewrite ?H2, ?H3.
  - intros uid cfg. rewrite H4, H1. apply Hm.
Qed.

(** Marking processes leaves everything else alone. *)
Definition same_rules (e0 e : engine) : Prop := part_of e = part_of e0 /\ rules_of e = rules_of e0.
Lemma same_installed e0 e : same_rules e0 e -> installed e0 -> installed e.
Proof.
  unfold same_rules, part_of, installed, no_rules, rules_of. intros [Hp [= Hc Hq]].
  destruct (in_marker (e_inner e0)) as [m0|], (in_marker (e_inner e)) as [m|]; try discriminate Hp; rewrite Hc, Hq; [|done].
  cbn in Hp. apply (inj Some) in Hp. intros [Hx Hr]. split; [by eapply exact_part|]. by injection Hp as _ _ _ -> ->.
Qed.
Lemma keeps_mark e0 pid b : keeps (same_rules e0) (on_marker (set_excluded pid b)).
Proof.
  intros e [Hp Hr]. unfold on_marker, same_rules, part_of in *. destruct (in_marker (e_inner e)) as [m|] eqn:E; [|cbn; by rewrite E].
  unfold set_excluded, map_call. cbn [k_faults k_marker]. destruct (e_faults e) as [|[] rest]; by split.
Qed.
Lemma keeps_tracking e0 t : keeps (same_rules e0) (put (with_tracked t)).
Proof. by intros e. Qed.
Lemma keeps_unmark e0 l : keeps (same_rules e0) (unmark l).
Proof. apply keeps_for_each. intros. apply keeps_mark. Qed.

Lemma handle_event_same event e0 : keeps (same_rules e0) (handle_event event).
Proof.
  assert (Hu : forall pid, keeps (same_rules e0) (untrack pid)).
  { intros pid. apply keeps_bind; [by intros e|]. intros inner. apply keeps_bind; [by intros e|]. intros _.
    destruct (is_excluded _); [apply keeps_mark|by intros e]. }
  assert (Ht : forall pid p, keeps (same_rules e0) (track pid p)).
  { intros pid p. apply keeps_bind; [apply keeps_mark|]. intros _. by intros e. }
  intros e He. unfold handle_event. repeat case_match; first [by apply Hu|by apply Ht|done].
Qed.

Lemma same_refl e : same_rules e e.
Proof. by split. Qed.
Lemma bind_same {A B : Type} (m : M engine A) (k : A -> M engine B) e e' r :
  (forall a e1, m e = (Ok a, e1) -> keeps (same_rules e1) (k a)) -> bind m k e = (Ok r, e') -> exists a e1, m e = (Ok a, e1) /\ same_rules e1 e'.
Proof.
  intros Hk (a & e1 & H1 & H2)%bind_Ok. exists a, e1. split; [done|]. specialize (Hk a e1 H1 e1 (same_refl e1)). by rewrite H2 in Hk.
Qed.

Lemma sync_installs e e' configs policies :
  on_marker (sync_configs configs policies) e = (Ok tt, e') -> rules_of e = (configs, policies) -> kernel_exact e -> installed e'.
Proof.
  unfold on_marker, kernel_exact, installed. destruct (in_marker (e_inner e)) as [m|] eqn:Em; [|discriminate].
  destruct (sync_configs configs policies _) as [r k] eqn:E. intros [= -> <-] [= Hc Hq] Hx. cbn.
  apply sync_success in E as (Hk & -> & ->); [|done]. split; [done|]. unfold rules_of. cbn. by rewrite Hc, Hq.
Qed.

Lemma reconcile_installs e e' : kernel_exact e -> reconcile e = (Ok tt, e') -> installed e'.
Proof.
  intros Hx. unfold reconcile. unfold bind at 1, get. destruct (_ && _) eqn:En.
  { intros [= <-]. unfold installed. cbn. apply andb_true_iff in En as [H1%negb_true_iff H2%negb_true_iff]. split; cbn.
    - intros uid c Hc. destruct (has_rules c) eqn:Er; [|done]. rewrite <- H1. symmetry. apply existsb_exists. exists c. split; [|done].
      apply in_map_iff. exists (uid, c). split; [done|]. by apply list_elem_of_In, entries_elem.
    - intros uid p Hp. destruct p as [|v p]; [done|]. exfalso. rewrite <- not_true_iff_false in H2. apply H2. apply existsb_exists. exists (v :: p). split; [|done].
      apply in_map_iff. exists (uid, v :: p). split; [done|]. by apply list_elem_of_In, entries_elem. }
  intros ([] & e1 & H1 & H2)%bind_Ok.
  assert (He1 : kernel_exact e1 /\ rules_of e1 = rules_of e).
  { unfold kernel_exact in *. destruct (in_marker (e_inner e)) as [m|] eqn:Em; [injection H1 as <-; by rewrite Em|].
    apply bind_Ok in H1 as ([] & e0 & H0 & H1). injection H1 as <-. split; [apply fresh_exact|]. unfold kernel_call in H0.
    destruct (e_faults e) as [|[] ?]; by simplify_eq. }
  destruct He1 as [Hx1 Hr1]. apply bind_same in H2 as ([] & e2 & H2 & Hs).
  - apply (same_installed e2); [done|]. by eapply sync_installs; [exact H2|rewrite Hr1|].
  - intros _ e2 _. cbv beta. case_match.
    + apply keeps_bind; [apply keeps_unmark|]. intros _. apply keeps_tracking.
    + apply keeps_bind.
      { apply keeps_bind; [|by intros _ e3]. intros e3 He3. unfold kernel_call. by destruct (e_faults e3). }
      intros procs. apply keeps_bind; [apply keeps_unmark|]. intros _.
      apply keeps_bind; [apply keeps_for_each; intros; apply keeps_mark|]. intros _. apply keeps_tracking.
Qed.
End Installed.

(** ** The mark a socket leaves with *)
Section Marks.
Context {L : IpLib} {LS : IpShapes} {T : KernelTrie} {TL : TrieLaws T}.

(** Everything that runs between two requests. *)
Inductive daemon_move (e e' : engine) : Prop :=
  | move_reconcile : reconcile e = (Ok tt, e') -> daemon_move e e'
  | move_event event : handle_event event e = (Ok tt, e') -> daemon_move e e'.

Definition agrees (e : engine) : Prop := marks_agree e /\ installed e.
Lemma installed_exact e : installed e -> kernel_exact e.
Proof. unfold installed, kernel_exact. destruct (in_marker (e_inner e)); [by intros [? _]|done]. Qed.
Lemma move_agrees e e' : daemon_move e e' -> agrees e -> agrees e'.
Proof.
  intros [H|event H] [Ha Hi].
  - split; [by eapply reconcile_agree|]. by eapply reconcile_installs; [apply installed_exact|].
  - split; [by eapply handle_event_agree|]. apply (same_installed e); [|done].
    pose proof (handle_event_same event e e (same_refl e)) as Hs. by rewrite H in Hs.
Qed.

Lemma run_destination f ipv6 m c a mark :
  destination_env ipv6 (marker_env f m c (addr_ctx a)) f.(fd_pid) f.(fd_mode) (fd_range f ipv6) (fd_bypass f ipv6) -> 0 <= mark < 2 ^ 32 ->
  run_program (destination_mark_program f.(fd_pid) f.(fd_mode) (fd_range f ipv6) (fd_bypass f ipv6) ipv6) (marker_env f m c (addr_ctx a)) mark =
  Some (destination_mark_policy (destination_excluded ipv6 (marker_env f m c (addr_ctx a)) f.(fd_pid) f.(fd_mode) (fd_range f ipv6) (fd_bypass f ipv6)) mark).
Proof.
  intros He Hm. destruct (BpfSem.programs_assemble f.(fd_pid) f.(fd_mode) (fd_range f ipv6) (fd_bypass f ipv6)) as (_ & H4 & H6).
  assert (is_Some (destination_mark_program f.(fd_pid) f.(fd_mode) (fd_range f ipv6) (fd_bypass f ipv6) ipv6)) as [p Hp] by by destruct ipv6.
  unfold run_program. rewrite Hp. by rewrite (BpfSem.exec_destination ipv6 _ _ _ _ _ mark p He Hm Hp).
Qed.
Lemma env_ok f m c a : NoDup (fds_list f) -> well_formed a ->
  let ipv6 := negb (is_ipv4 a) in
  destination_env ipv6 (marker_env f m c (addr_ctx a)) f.(fd_pid) f.(fd_mode) (fd_range f ipv6) (fd_bypass f ipv6).
Proof.
  intros Hf [Hl Hb] ipv6. destruct (fds_differ f Hf) as [M H]. destruct (H ipv6) as (R1 & R2 & B1 & B2 & B3 & B4 & R3 & B5 & B6).
  unfold destination_env, marker_env. cbv [key_size ctx_bytes]. unfold marker_key_size. rewrite M, R1, R2, B1, B2, !Z.eqb_refl.
  assert (Hz : forall n, Forall is_byte (replicate n 0)) by (intros n; apply Forall_replicate; unfold is_byte; lia).
  subst ipv6. destruct a as [o|o]; cbn in *; rewrite ?B3, ?B5, ?B6, ?R3, ?Z.eqb_refl, ?orb_true_r; split_and!; try done.
  all: try (rewrite ?length_app, Hl; cbn; lia).
  all: repeat (constructor; [unfold is_byte; lia|]); first [done|apply Forall_app; split; [done|apply (Hz 16%nat)]].
Qed.

(** The marks of sockets, by the engine's state. *)
Lemma socket_mark f e c : agrees e -> caller_ok c ->
  socket_created f e.(e_inner).(in_marker) c = Some (if is_excluded (tracked e !! c.(ca_pid)) then FWMARK_VALUE else 0).
Proof.
  intros [[Hn Ha] _] Hc. specialize (Ha c.(ca_pid)). unfold socket_created, pids in *. destruct (in_marker (e_inner e)) as [m|]; [|by rewrite Hn, lookup_empty].
  destruct (BpfSem.programs_assemble f.(fd_pid) 0 0 0) as ([p Hp] & _). unfold run_program. rewrite Hp.
  unfold marker_env. rewrite (BpfSem.exec_socket _ _ _ _ _ [] f.(fd_pid) p); [|by unfold marker_key_size; rewrite Z.eqb_refl|done].
  cbn [option_map snd]. rewrite lookup_pid by done. f_equal. unfold socket_mark_policy.
  destruct (is_excluded _); [by rewrite bool_decide_eq_true_2 by tauto|]. rewrite bool_decide_eq_false_2; [done|]. by intros ?%Ha.
Qed.
Lemma destination_mark f e c a mark :
  agrees e -> keys_in e.(e_inner).(in_configs) -> keys_in e.(e_inner).(in_policies) -> NoDup (fds_list f) -> caller_ok c -> well_formed a ->
  mark = 0 \/ mark = FWMARK_VALUE -> is_Some e.(e_inner).(in_marker) ->
  destination_reached f e.(e_inner).(in_marker) c a mark =
  Some (if leaves_tunnel e.(e_inner).(in_configs) e.(e_inner).(in_policies) c.(ca_uid) (is_excluded (tracked e !! c.(ca_pid))) a then FWMARK_VALUE else 0).
Proof.
  intros [[_ Ha] Hi] Hkc Hkp Hf Hc Hw Hm [m Em]. specialize (Ha c.(ca_pid)). unfold destination_reached, installed, rules_of, pids in *. rewrite Em in *.
  destruct Hi as [Hx [= Hmc Hmp]].
  rewrite run_destination; [|by apply env_ok|destruct Hm as [-> | ->]; unfold FWMARK_VALUE; lia].
  rewrite decides by (done || by rewrite ?Hmc, ?Hmp). rewrite Hmc, Hmp.
  replace (bool_decide (c.(ca_pid) ∈ m.(pid_map))) with (is_excluded (tracked e !! c.(ca_pid))).
  2:{ destruct (is_excluded _); symmetry; [by apply bool_decide_eq_true_2, Ha|]. apply bool_decide_eq_false_2. by intros ?%Ha. }
  destruct (leaves_tunnel _ _ _ _ _); [done|]. unfold destination_mark_policy. destruct Hm as [-> | ->]; [done|by rewrite Z.eqb_refl].
Qed.
Lemma nothing_leaves e uid pid a : agrees e -> e.(e_inner).(in_marker) = None ->
  is_excluded (tracked e !! pid) = false /\ leaves_tunnel e.(e_inner).(in_configs) e.(e_inner).(in_policies) uid (is_excluded (tracked e !! pid)) a = false.
Proof.
  intros [[Hn _] Hi] Em. unfold installed in Hi. rewrite Em in Hi. destruct Hi as [Hc Hp]. rewrite Hn, lookup_empty by done. split; [done|].
  unfold leaves_tunnel. apply orb_false_iff. split.
  - destruct (in_policies (e_inner e) !! uid) as [p|] eqn:E; [|done]. by rewrite (Hp _ _ E).
  - destruct (in_configs (e_inner e) !! uid) as [c|] eqn:E; [|done]. specialize (Hc _ _ E). unfold has_rules in Hc.
    apply orb_false_iff in Hc as [_ Hc]. by destruct (sc_ip_ranges c).
Qed.

(** C2: The policy decides what leaves the tunnel.  Once the daemon has reconciled, and through any further successful
    reconciliations and process events, every socket gets the mark that the configured ranges and the tracked processes ask
    for: at its creation if its process is excluded; at every attempt to reach an address, whatever it reached before, if a
    range of the user's destination policy holds the address, or a range of the configuration does and the mode excludes,
    or none does and its process is excluded.  Nothing is attached only where nothing would leave. *)
Theorem packets_follow_policy f e0 e1 e c a :
  marks_agree e0 -> kernel_exact e0 -> reconcile e0 = (Ok tt, e1) -> rtc daemon_move e1 e ->
  keys_in e.(e_inner).(in_configs) -> keys_in e.(e_inner).(in_policies) -> NoDup (fds_list f) -> caller_ok c -> well_formed a ->
  let app := is_excluded (tracked e !! c.(ca_pid)) in
  let out := leaves_tunnel e.(e_inner).(in_configs) e.(e_inner).(in_policies) c.(ca_uid) app a in
  socket_created f e.(e_inner).(in_marker) c = Some (if app then FWMARK_VALUE else 0) /\
  (forall mark, mark = 0 \/ mark = FWMARK_VALUE -> is_Some e.(e_inner).(in_marker) ->
     destination_reached f e.(e_inner).(in_marker) c a mark = Some (if out then FWMARK_VALUE else 0)) /\
  (e.(e_inner).(in_marker) = None -> app = false /\ out = false).
Proof.
  intros Ha Hx Hr Hm Hkc Hkp Hf Hc Hw app out. assert (Hg : agrees e).
  { eapply rtc_invariant; [intros ? ?; apply move_agrees|split; [by eapply reconcile_agree|by eapply reconcile_installs]|exact Hm]. }
  split; [by apply socket_mark|]. split; [intros mark H0 Hs; by apply destination_mark|]. intros He. by apply nothing_leaves.
Qed.
End Marks.

(** ** The kernel self-test *)
Section SelfTest.
Context {L : IpLib} {T : KernelTrie} {J : JsonText}.
Context (ip : trace -> list string -> result string string) (ip_json : string -> result (list json) string).
(** The maps' descriptors and the test's own process, which runs as root. *)
Context (f : map_fds) (self : caller).

Definition ROOT_UID : Z := 0.

(** [getsockopt]: [None] if the kernel refused the socket or the attempt. *)
Definition assert_mark (actual : option Z) (expected : Z) (stage : string) : M engine unit :=
  kernel_call "getsockopt" ;;!
  match actual with
  | Some actual =>
      if actual =? expected then ret tt
      else throw (io_other (stage +:+ " mark mismatch: expected " +:+ dec expected +:+ ", got " +:+ dec actual))
  | None => throw (io_other stage)
  end.
Definition udp_socket : M engine (option Z) :=
  kernel_call "bind" ;;! let! inner := get in ret (socket_created f inner.(in_marker) self).
(** [let _ = socket.connect(..)], or [send_to]: the same programs run. *)
Definition reach (a : IpAddr) (socket : option Z) : M engine (option Z) :=
  let! inner := get in ret (match socket with Some mark => destination_reached f inner.(in_marker) self a mark | None => None end).

Definition assert_destination_mark (a : IpAddr) (expected : Z) (stage : string) : M engine unit :=
  let! socket := udp_socket in
  let! socket := reach a socket in
  assert_mark socket expected stage.
Definition assert_sendmsg_mark (a : IpAddr) (expected : Z) (stage : string) : M engine unit :=
  let! socket := udp_socket in
  let! socket := reach a socket in
  assert_mark socket expected stage.

(** [parse().expect("literal IPv6")]. *)
Definition literal (s : string) : M engine IpAddr :=
  match addr_from_str s with Some a => ret a | None => throw (io_other "literal IPv6") end.

Definition kernel_self_test : M engine unit :=
  start_engine ip false false ;;!
  set_destination_policy false ROOT_UID ["198.51.100.0/24"; "2001:db8:ffff::/48"] ;;!
  let! attached := (fun e => (Ok (status e).2, e)) in
  (if negb attached then throw (io_other "eBPF programs did not attach") else ret tt) ;;!
  assert_destination_mark (IpV4 [198; 51; 100; 1]) FWMARK_VALUE "IPv4 connect" ;;!
  assert_sendmsg_mark (IpV4 [198; 51; 100; 2]) FWMARK_VALUE "IPv4 UDP sendmsg" ;;!
  let! address := literal "2001:db8:ffff::1" in
  assert_destination_mark address FWMARK_VALUE "IPv6 connect" ;;!
  let! address := literal "2001:db8:ffff::2" in
  assert_sendmsg_mark address FWMARK_VALUE "IPv6 UDP sendmsg" ;;!
  set_destination_policy false ROOT_UID [] ;;!
  set_config ip ip_json false false ROOT_UID (mkSplitConfig Include [] ["192.0.2.0/24"]) ;;!
  let! socket := udp_socket in
  assert_mark socket FWMARK_VALUE "Include-mode socket create" ;;!
  let! socket := reach (IpV4 [192; 0; 2; 1]) socket in
  assert_mark socket 0 "Include-mode matching destination" ;;!
  clear_config ip ip_json false false ROOT_UID ;;!
  set_destination_policy false ROOT_UID [].
End SelfTest.

(** ** Runs in which no system call fails *)
Section Calm.
Context {L : IpLib}.

Definition calm_kernel (m : M kernel unit) : Prop := forall w, k_faults w = [] -> exists w', m w = (Ok tt, w') /\ k_faults w' = [].
Lemma calm_map_call g : calm_kernel (map_call g).
Proof. intros w Hw. unfold map_call. rewrite Hw. by eexists. Qed.
Lemma calm_then m k : calm_kernel m -> calm_kernel k -> calm_kernel (m ;;! k).
Proof. intros Hm Hk w (w1 & E1 & H1)%Hm. unfold bind. rewrite E1. by apply Hk. Qed.
Lemma calm_each {A : Type} (g : A -> M kernel unit) l : (forall x, x ∈ l -> calm_kernel (g x)) -> calm_kernel (for_each g l).
Proof.
  induction l as [|x l IH]; intros H; [by intros w Hw; exists w|]. apply calm_then; [apply H; by left|].
  apply IH. intros y Hy. apply H. by right.
Qed.
Lemma calm_ignore m : calm_kernel m -> calm_kernel (ignore m).
Proof. intros H w (w' & E & Hw)%H. unfold ignore, attempt. rewrite E. by exists w'. Qed.

(** Every range of the rules parses. *)
Definition rules_parse (rules : ConfigMap * PolicyMap) : Prop :=
  forall b uid v, listed b rules.1 rules.2 uid v -> is_ok (parse_ip_range v) = true.
Lemma calm_range (g : bool * LpmKey -> SocketMarker -> SocketMarker) uid v : is_ok (parse_ip_range v) = true ->
  calm_kernel (let! k := of_result (range_key uid v) in map_call (g k)).
Proof.
  intros H w Hw. unfold bind, of_result, range_key. destruct (parse_ip_range v) as [n|]; [|done].
  destruct (net_network n); by apply calm_map_call.
Qed.
Lemma calm_configs (g : Z * SplitConfig -> SocketMarker -> SocketMarker) (h : Z -> string -> M kernel unit) (c : ConfigMap) q l :
  rules_parse (c, q) -> (forall uid v, is_ok (parse_ip_range v) = true -> calm_kernel (h uid v)) -> (forall p, p ∈ l -> p ∈ entries c) ->
  calm_kernel (for_each (fun p : Z * SplitConfig => map_call (g p) ;;! for_each (h p.1) p.2.(sc_ip_ranges)) l).
Proof.
  intros Hp Hh Hl. apply calm_each. intros [uid cfg] Hin%Hl%entries_elem. apply calm_then; [apply calm_map_call|]. apply calm_each.
  intros v Hv. apply Hh. apply (Hp false uid v). by exists cfg.
Qed.
Lemma calm_policies (h : Z -> string -> M kernel unit) c (q : PolicyMap) :
  rules_parse (c, q) -> (forall uid v, is_ok (parse_ip_range v) = true -> calm_kernel (h uid v)) ->
  calm_kernel (for_each (fun p : Z * list string => for_each (h p.1) p.2) (entries q)).
Proof.
  intros Hp Hh. apply calm_each. intros [uid l] Hin%entries_elem. apply calm_each. intros v Hv. apply Hh. apply (Hp true uid v). by exists l.
Qed.
Lemma calm_replace oc oq nc nq : rules_parse (oc, oq) -> rules_parse (nc, nq) -> calm_kernel (replace_maps oc oq nc nq).
Proof.
  intros Ho Hn. unfold replace_maps. apply calm_then.
  { apply calm_each. intros [uid cfg] Hin%entries_elem. apply calm_then; [apply calm_ignore, calm_map_call|]. apply calm_each.
    intros v Hv. apply calm_range. apply (Ho false uid v). by exists cfg. }
  apply calm_then; [eapply (calm_policies _ oc oq); [done|intros; by apply calm_range]|].
  apply calm_then; [|eapply (calm_policies _ nc nq); [done|intros; by apply calm_range]].
  eapply (calm_configs _ _ nc nq); [done|intros; by apply calm_range|]. by intros p [Hp _]%retain_elem.
Qed.
Lemma calm_sync c q w : k_faults w = [] -> rules_parse (c, q) -> rules_parse (w.(k_marker).(m_configs), w.(k_marker).(m_policies)) ->
  exists w', sync_configs c q w = (Ok tt, w') /\ k_faults w' = [].
Proof.
  intros Hw Hn Ho. unfold sync_configs. destruct (_ && _); [by exists w|]. unfold attempt.
  destruct (calm_replace _ _ c q Ho Hn w Hw) as (w1 & -> & H1). by eexists.
Qed.
End Calm.

Section CalmEngine.
Context {L : IpLib} {J : JsonText}.
Context (ip : trace -> list string -> result string string) (ip_json : string -> result (list json) string).

(** At its policy, and nothing fails. *)
Record steady (e : engine) : Prop := mkSteady {
  st_agrees : agrees e;
  st_parse : rules_parse (rules_of e);
  st_calm : e.(e_faults) = [] }.

(** A successful step that only touches the marked processes. *)
Definition calm_step (m : M engine unit) : Prop := forall e, e.(e_faults) = [] -> is_Some e.(e_inner).(in_marker) ->
  exists e', m e = (Ok tt, e') /\ e'.(e_faults) = [] /\ is_Some e'.(e_inner).(in_marker).
Lemma calm_marker (m : M kernel unit) : calm_kernel m -> calm_step (on_marker m).
Proof.
  intros H e He [mk Em]. unfold on_marker. rewrite Em. destruct (H (mkKernel mk (e_faults e)) He) as (w & -> & Hw).
  eexists. split; [done|]. cbn. by rewrite Hw.
Qed.
Lemma calm_bind (m k : M engine unit) : calm_step m -> calm_step k -> calm_step (m ;;! k).
Proof. intros Hm Hk e He Hs. destruct (Hm e He Hs) as (e1 & E1 & H1 & S1). unfold bind. rewrite E1. by apply Hk. Qed.
Lemma calm_loop {A : Type} (g : A -> M engine unit) l : (forall x, calm_step (g x)) -> calm_step (for_each g l).
Proof. intros H. induction l as [|x l IH]; [by intros e He Hs; exists e|]. by apply calm_bind. Qed.
Lemma calm_track t : calm_step (put (with_tracked t)).
Proof. intros e He Hs. by eexists. Qed.
Lemma calm_excluded pid b : calm_step (on_marker (set_excluded pid b)).
Proof. apply calm_marker, calm_map_call. Qed.

Lemma calm_reconcile e : e.(e_faults) = [] -> rules_parse (rules_of e) ->
  (forall m, e.(e_inner).(in_marker) = Some m -> rules_parse (m.(m_configs), m.(m_policies))) ->
  exists e', reconcile e = (Ok tt, e') /\ e'.(e_faults) = [].
Proof.
  intros He Hr Hm. unfold reconcile. unfold bind at 1, get. destruct (_ && _); [by eexists|].
  set (start := match in_marker (e_inner e) with Some _ => _ | None => _ end).
  assert (exists e1 m, start e = (Ok tt, e1) /\ e1.(e_faults) = [] /\ e1.(e_inner).(in_marker) = Some m /\ rules_parse (m.(m_configs), m.(m_policies)))
    as (e1 & m & H1 & F1 & M1 & P1).
  { unfold start. destruct (in_marker (e_inner e)) as [m|] eqn:Em; [exists e, m; by rewrite Em; auto|].
    unfold bind, kernel_call. rewrite He. eexists _, _. split_and!; [done..|]. intros b uid v Hl. exfalso. cbn in Hl.
    by destruct b; destruct Hl as (? & H & _); rewrite lookup_empty in H. }
  unfold bind at 1. rewrite H1.
  unfold bind at 1. unfold on_marker at 1. rewrite M1. destruct (calm_sync (in_configs (e_inner e)) (in_policies (e_inner e)) (mkKernel m (e_faults e1)))
    as (w & -> & Hw); [done..|]. set (e2 := mkEngine _ _ _ _ _).
  assert (Hrest : forall k, calm_step k -> exists e', k e2 = (Ok tt, e') /\ e'.(e_faults) = []).
  { intros k Hk. destruct (Hk e2 Hw) as (e' & H & Hf & _); [by eexists|by exists e']. }
  case_match.
  - apply Hrest, calm_bind; [apply calm_loop; intros; apply calm_excluded|apply calm_track].
  - unfold scan, bind at 1. unfold bind at 1, kernel_call. change (e_faults e2) with (k_faults w). rewrite Hw.
    apply Hrest. apply calm_bind; [apply calm_loop; intros; apply calm_excluded|].
    apply calm_bind; [apply calm_loop; intros; apply calm_excluded|apply calm_track].
Qed.

Lemma keeps_processes ps : keeps (fun e => e.(e_processes) = ps) reconcile.
Proof.
  assert (Hm : forall m : M kernel unit, keeps (fun e => e.(e_processes) = ps) (on_marker m)).
  { intros m e He. unfold on_marker. destruct (in_marker _); [|done]. by destruct (m _). }
  assert (Hc : forall what, keeps (fun e => e.(e_processes) = ps) (kernel_call what)) by (intros what e He; unfold kernel_call; by destruct (e_faults e)).
  assert (Hl : forall (A : Type) (g : A -> M kernel unit) l, keeps (fun e => e.(e_processes) = ps) (for_each (fun x => on_marker (g x)) l))
    by (intros; apply keeps_for_each; intros; apply Hm).
  unfold reconcile, scan, unmark. apply keeps_bind; [by intros e|]. intros inner.
  repeat first [apply keeps_bind; [|intros ?] | apply Hm | apply Hc | apply Hl | case_match | by intros e He].
Qed.

(** A change of the rules that parses takes effect. *)
Lemma rules_put_inv (g : Inner -> Inner) e : (forall i, (g i).(in_marker) = i.(in_marker) /\ (g i).(in_tracked) = i.(in_tracked)) ->
  agrees e -> marks_agree (set_inner (g e.(e_inner)) e) /\ kernel_exact (set_inner (g e.(e_inner)) e).
Proof.
  intros Hg [[Hn Ha] Hi%installed_exact]. destruct (Hg (e_inner e)) as [H1 H2].
  unfold marks_agree, kernel_exact, pids, tracked in *. cbn. by rewrite H1, H2.
Qed.
Lemma calm_change (g : Inner -> Inner) e : steady e ->
  (forall i, (g i).(in_marker) = i.(in_marker) /\ (g i).(in_tracked) = i.(in_tracked)) ->
  let e0 := set_inner (g e.(e_inner)) e in rules_parse (rules_of e0) ->
  exists e', reconcile_and_save false e0 = (Ok tt, e') /\ steady e' /\ rules_of e' = rules_of e0 /\ tracked e' = expected_tracking e0 /\
    e'.(e_processes) = e.(e_processes) /\ (e'.(e_inner).(in_marker) = None -> no_rules e').
Proof.
  intros [Ha Hp Hc] Hg e0 Hr. destruct (rules_put_inv g e Hg Ha) as [Hma Hke].
  destruct (calm_reconcile e0 Hc Hr) as (e' & He & Hf).
  { intros m Hm. change (in_marker (e_inner e0)) with (in_marker (g (e_inner e))) in Hm. rewrite (proj1 (Hg _)) in Hm.
    destruct Ha as [_ Hi]. unfold installed in Hi. rewrite Hm in Hi. destruct Hi as [_ Hi]. by rewrite Hi. }
  pose proof (reconcile_view _ _ _ He) as Hv. apply view_eq in Hv as [Hs _]. injection Hs as H1 H2 _.
  exists e'. unfold reconcile_and_save, bind. rewrite He. unfold save_inner, bind, get, on_fs. cbn.
  assert (Hre : rules_of e' = rules_of e0) by (unfold rules_of; by rewrite H1, H2).
  assert (Hag : agrees e') by (split; [by eapply reconcile_agree|by eapply reconcile_installs]).
  split; [by destruct e'|]. split; [by split; rewrite ?Hre|]. split; [done|]. split; [by apply reconcile_expected|].
  split; [|by destruct Hag as [_ Hi]; unfold installed in Hi; intros Hn; rewrite Hn in Hi].
  pose proof (keeps_processes (e_processes e0) e0 eq_refl) as Hps. by rewrite He in Hps.
Qed.
End CalmEngine.

(** ** The self-test passes *)
Section Passes.
Context {L : IpLib} {LS : IpShapes} {T : KernelTrie} {TL : TrieLaws T} {J : JsonText}.
Context (ip : trace -> list string -> result string string) (ip_json : string -> result (list json) string).
Context (f : map_fds) (self : caller).

(** [std::net] and [ipnet] on the literals of the test. *)
Definition reads_literals : Prop :=
  range_contains (IpV4 [198; 51; 100; 1]) "198.51.100.0/24" = true /\ range_contains (IpV4 [198; 51; 100; 2]) "198.51.100.0/24" = true /\
  range_contains (IpV4 [192; 0; 2; 1]) "192.0.2.0/24" = true /\
  forall s, s = "2001:db8:ffff::1" \/ s = "2001:db8:ffff::2" ->
    exists a, addr_from_str s = Some a /\ well_formed a /\ range_contains a "2001:db8:ffff::/48" = true.

Definition test_ranges : list string := ["198.51.100.0/24"; "2001:db8:ffff::/48"].
Definition include_config : SplitConfig := mkSplitConfig Include [] ["192.0.2.0/24"].
(** The test's process is listed, with no ancestor of root's that is exempt from splitting. *)
Definition test_process (processes : list ProcessInfo) : Prop :=
  NoDup (map pi_pid processes) /\ (exists p, p ∈ processes /\ p.(pi_pid) = self.(ca_pid) /\ p.(pi_uid) = 0) /\
  ~ inherits {[0 := include_config]} processes self.(ca_pid).

Lemma contained_parses a v : range_contains a v = true -> is_ok (parse_ip_range v) = true.
Proof. unfold range_contains. by destruct (parse_ip_range v). Qed.

(** The rules of the test, by the user's configuration and destination policy. *)
Definition test_rules (config : bool) (policy : bool) : ConfigMap * PolicyMap :=
  (if config then {[0 := include_config]} else ∅, if policy then {[0 := test_ranges]} else ∅).
Lemma test_rules_parse config policy : reads_literals -> rules_parse (test_rules config policy).
Proof.
  intros (H1 & _ & H3 & H4) b uid v Hl. apply contained_parses in H1, H3.
  destruct (H4 _ (or_introl eq_refl)) as (a & _ & _ & H6%contained_parses).
  destruct b; destruct Hl as (x & Hx & Hv); cbn in Hx.
  - destruct policy; [|done]. apply lookup_singleton_Some in Hx as [_ <-]. unfold test_ranges in Hv. by set_unfold in Hv; destruct_or! Hv; subst.
  - destruct config; [|done]. apply lookup_singleton_Some in Hx as [_ <-]. cbn in Hv. by set_unfold in Hv; destruct_or! Hv; subst.
Qed.
Lemma test_keys config policy : keys_in (test_rules config policy).1 /\ keys_in (test_rules config policy).2.
Proof.
  split; intros k v Hk; cbn in Hk; [destruct config|destruct policy]; try done; apply lookup_singleton_Some in Hk as [<- _]; lia.
Qed.

(** Without rules nothing is attached. *)
Lemma idle_saved e e' : rules_of e = (∅, ∅) -> reconcile_and_save false e = (Ok tt, e') -> e'.(e_inner).(in_marker) = None.
Proof.
  intros [= Hc Hq] ([] & e1 & H1 & H2)%bind_Ok. revert H1. unfold reconcile, bind at 1, get. rewrite Hc, Hq.
  change (@map_values SplitConfig ∅) with (@nil SplitConfig). change (@map_values (list string) ∅) with (@nil (list string)). intros [= <-].
  by injection H2 as <-.
Qed.

(** The state between two requests of the test. *)
Record testing (processes : list ProcessInfo) (config policy : bool) (e : engine) : Prop := mkTesting {
  te_steady : steady e;
  te_rules : rules_of e = test_rules config policy;
  te_processes : e.(e_processes) = processes;
  te_tracked : tracked e = (if config then build_tracking (test_rules config policy).1 processes else ∅);
  te_attached : config || policy = true -> is_Some e.(e_inner).(in_marker);
  te_detached : config || policy = false -> e.(e_inner).(in_marker) = None }.

Lemma test_change processes config policy config' policy' (g : Inner -> Inner) e :
  reads_literals -> testing processes config policy e ->
  (forall i, (g i).(in_marker) = i.(in_marker) /\ (g i).(in_tracked) = i.(in_tracked)) ->
  ((g e.(e_inner)).(in_configs), (g e.(e_inner)).(in_policies)) = test_rules config' policy' ->
  exists e', reconcile_and_save false (set_inner (g e.(e_inner)) e) = (Ok tt, e') /\ testing processes config' policy' e'.
Proof.
  intros Hl [Hs Hr Hp Ht Hm] Hg Hnew. set (e0 := set_inner (g (e_inner e)) e).
  assert (He0 : rules_of e0 = test_rules config' policy') by exact Hnew.
  destruct (calm_change g e Hs Hg) as (e' & He & Hs' & Hr' & Ht' & Hp' & Hn'); [fold e0; rewrite He0; by apply test_rules_parse|]. fold e0 in He, Hr', Ht'.
  exists e'. split; [exact He|]. rewrite He0 in Hr'. split; [done|done|congruence| | |].
  - rewrite Ht'. unfold expected_tracking. change (in_configs (e_inner e0)) with (rules_of e0).1. rewrite He0. change (e_processes e0) with (e_processes e).
    rewrite Hp. by destruct config'.
  - intros Hany. destruct (in_marker (e_inner e')) as [m|]; [by eexists|]. exfalso. destruct (Hn' eq_refl) as [Hc Hq].
    unfold rules_of in Hr'. injection Hr' as E1 E2. rewrite E1 in Hc. rewrite E2 in Hq.
    destruct config'; [by pose proof (Hc 0 include_config ltac:(apply lookup_singleton_eq))|]. destruct policy'; [|done].
    by pose proof (Hq 0 test_ranges ltac:(apply lookup_singleton_eq)).
  - intros Hnone%orb_false_iff. apply (idle_saved e0 e'); [|exact He]. rewrite He0. by destruct Hnone as [-> ->].
Qed.

Lemma policy_request processes (config policy policy' : bool) e : reads_literals -> testing processes config policy e ->
  exists e', set_destination_policy false ROOT_UID (if policy' then test_ranges else []) e = (Ok tt, e') /\ testing processes config policy' e'.
Proof.
  intros Hl Ht. pose proof (te_rules _ _ _ _ Ht) as Hr. unfold rules_of in Hr. injection Hr as Hc Hp.
  unfold set_destination_policy, bind at 1, get. replace (over_limit ROOT_UID (e_inner e)) with false.
  2:{ unfold over_limit, configured_user_count. rewrite Hc, Hp. by destruct config, policy. }
  set (g := fun i => with_policies (match (if policy' then test_ranges else []) with [] => delete ROOT_UID i.(in_policies)
    | _ => <[ROOT_UID := if policy' then test_ranges else []]> i.(in_policies) end) i).
  destruct (test_change processes config policy config policy' g e Hl Ht) as (e' & He & Ht'); [done| |].
  { cbn. rewrite Hc, Hp. unfold test_rules. f_equal. by destruct policy, policy'. }
  exists e'. split; [|done]. unfold bind, put, attempt. fold g. by rewrite He.
Qed.
Lemma config_request processes e : reads_literals -> testing processes false false e ->
  exists e', set_config ip ip_json false false ROOT_UID include_config e = (Ok tt, e') /\ testing processes true false e'.
Proof.
  intros Hl Ht. pose proof (te_rules _ _ _ _ Ht) as Hr. unfold rules_of in Hr. injection Hr as Hc Hp.
  unfold set_config, bind at 1, get. replace (over_limit ROOT_UID (e_inner e)) with false.
  2:{ unfold over_limit, configured_user_count. by rewrite Hc, Hp. }
  destruct (test_change processes false false true false (fun i => with_configs (<[ROOT_UID := include_config]> i.(in_configs)) i) e Hl Ht)
    as (e' & He & Ht'); [done|cbn; by rewrite Hc, Hp|].
  exists e'. split; [|done]. unfold remove_bypass, ret, bind, put, attempt. cbn [andb]. by rewrite He.
Qed.
Lemma clear_request processes e : reads_literals -> testing processes true false e ->
  exists e', clear_config ip ip_json false false ROOT_UID e = (Ok tt, e') /\ testing processes false false e'.
Proof.
  intros Hl Ht. pose proof (te_rules _ _ _ _ Ht) as Hr. unfold rules_of in Hr. injection Hr as Hc Hp.
  unfold clear_config, bind at 1, get.
  destruct (test_change processes true false false false (fun i => with_configs (delete ROOT_UID i.(in_configs)) i) e Hl Ht)
    as (e' & He & Ht'); [done|cbn; by rewrite Hc, Hp|].
  exists e'. split; [|done]. unfold ret, bind, put, attempt. by rewrite He.
Qed.

Lemma test_app processes config policy e : test_process processes -> testing processes config policy e ->
  is_excluded (tracked e !! self.(ca_pid)) = config.
Proof.
  intros (Hnd & (p & Hp & Hpid & Hu) & Hni) Ht. rewrite (te_tracked _ _ _ _ Ht). destruct config; [|by rewrite lookup_empty].
  assert (build_tracking (test_rules true policy).1 processes !! self.(ca_pid) = Some (mkTracked 0 false true)) as ->; [|done].
  apply tracking_lookup; [done|]. exists p, include_config. rewrite Hu. cbn. split_and!; try done.
Qed.
Lemma calm_call processes config policy e what : testing processes config policy e -> kernel_call what e = (Ok tt, e).
Proof. intros Ht. unfold kernel_call. by rewrite (st_calm _ (te_steady _ _ _ _ Ht)). Qed.

Context (Hf : NoDup (fds_list f)) (Hself : caller_ok self) (Hroot : self.(ca_uid) = 0).

Lemma test_socket processes config policy e : test_process processes -> testing processes config policy e ->
  udp_socket f self e = (Ok (Some (if config then FWMARK_VALUE else 0)), e).
Proof.
  intros Hp Ht. unfold udp_socket, bind, get, ret. rewrite (calm_call _ _ _ _ _ Ht).
  rewrite (socket_mark f e self (st_agrees _ (te_steady _ _ _ _ Ht)) Hself). by rewrite (test_app _ _ _ _ Hp Ht).
Qed.
Lemma test_reach processes config policy e a : test_process processes -> testing processes config policy e -> config || policy = true ->
  well_formed a -> reach f self a (Some (if config then FWMARK_VALUE else 0)) e =
  (Ok (Some (if leaves_tunnel (test_rules config policy).1 (test_rules config policy).2 0 config a then FWMARK_VALUE else 0)), e).
Proof.
  intros Hp Ht Hany Ha. unfold reach, bind, get, ret. pose proof (te_rules _ _ _ _ Ht) as Hr.
  assert (Hc : in_configs (e_inner e) = (test_rules config policy).1) by by rewrite <- Hr.
  assert (Hq : in_policies (e_inner e) = (test_rules config policy).2) by by rewrite <- Hr. destruct (test_keys config policy).
  pose proof (destination_mark f e self a (if config then FWMARK_VALUE else 0) (st_agrees _ (te_steady _ _ _ _ Ht))) as Hd.
  rewrite Hc, Hq, Hroot, (test_app _ _ _ _ Hp Ht) in Hd. rewrite Hd; try done; [by destruct config; auto|by eapply te_attached].
Qed.
Lemma test_assert processes config policy e mark stage : testing processes config policy e ->
  assert_mark (Some mark) mark stage e = (Ok tt, e).
Proof. intros Ht. unfold assert_mark, bind, ret. by rewrite (calm_call _ _ _ _ _ Ht), Z.eqb_refl. Qed.

Lemma test_destination processes config policy e a stage : test_process processes -> testing processes config policy e -> config || policy = true ->
  well_formed a -> leaves_tunnel (test_rules config policy).1 (test_rules config policy).2 0 config a = true ->
  assert_destination_mark f self a FWMARK_VALUE stage e = (Ok tt, e).
Proof.
  intros Hp Ht Hany Ha Hl. unfold assert_destination_mark, bind. rewrite (test_socket _ _ _ _ Hp Ht), (test_reach _ _ _ _ _ Hp Ht Hany Ha), Hl.
  by eapply test_assert.
Qed.

Lemma start_test e : e.(e_faults) = [] -> exists e', start_engine ip false false e = (Ok tt, e') /\ testing e.(e_processes) false false e'.
Proof.
  intros He. eexists. split; [reflexivity|]. cbn. split; try done.
  split; [|by intros [] ? ? (? & ? & _)|done]. split; [|by split].
  split; [done|]. intros pid. unfold pids, tracked. cbn. rewrite lookup_empty. split; [by intros ?%not_elem_of_empty|done].
Qed.

(** C38: The kernel self-test accepts a working system.  On a machine where no system call fails and the address libraries read the
    test's literals, the test ends with success, whatever else runs: its sockets are marked at destinations of the
    destination policy over both families, a socket made in include mode carries the mark, loses it at a destination kept
    inside, and the rules of the test are gone at the end. *)
Theorem self_test_passes e :
  e.(e_faults) = [] -> reads_literals -> test_process e.(e_processes) ->
  exists e', kernel_self_test ip ip_json f self e = (Ok tt, e') /\ rules_of e' = (∅, ∅) /\ e'.(e_inner).(in_marker) = None.
Proof.
  intros He Hl Hp. set (ps := e.(e_processes)) in *. pose proof Hl as (A1 & A2 & A3 & A6). unfold kernel_self_test, literal.
  change ["198.51.100.0/24"; "2001:db8:ffff::/48"] with test_ranges. fold include_config.
  destruct (start_test e He) as (e1 & E1 & T1). unfold bind at 1. rewrite E1.
  destruct (policy_request ps false false true e1 Hl T1) as (e2 & E2 & T2). unfold bind at 1. rewrite E2.
  destruct (te_attached _ _ _ _ T2 eq_refl) as [m Em]. unfold bind at 1, bind at 1, status. rewrite Em. cbn [snd negb]. unfold ret at 1.
  assert (Hout : forall a, well_formed a -> range_contains a "198.51.100.0/24" || range_contains a "2001:db8:ffff::/48" = true ->
    forall stage, assert_destination_mark f self a FWMARK_VALUE stage e2 = (Ok tt, e2)).
  { intros a Ha Hin stage. eapply test_destination; [exact Hp|exact T2|done|done|].
    unfold leaves_tunnel. change (unwrap_or _ _) with test_ranges. unfold test_ranges. cbn [existsb].
    apply orb_true_iff in Hin as [-> | ->]; by rewrite ?orb_true_r. }
  assert (H4 : forall d, is_byte d -> well_formed (IpV4 [198; 51; 100; d])) by (intros d Hd; split; [done|repeat constructor; unfold is_byte in *; lia]).
  destruct (A6 _ (or_introl eq_refl)) as (x & X1 & X2 & X3). destruct (A6 _ (or_intror eq_refl)) as (y & Y1 & Y2 & Y3).
  unfold bind at 1. rewrite Hout; [|apply H4; unfold is_byte; lia|by rewrite A1].
  unfold bind at 1. change assert_sendmsg_mark with assert_destination_mark. rewrite Hout; [|apply H4; unfold is_byte; lia|by rewrite A2].
  unfold bind at 1. rewrite X1. unfold ret at 1. unfold bind at 1. rewrite Hout; [|done|by rewrite X3, orb_true_r].
  unfold bind at 1. rewrite Y1. unfold ret at 1. unfold bind at 1. rewrite Hout; [|done|by rewrite Y3, orb_true_r].
  destruct (policy_request ps false true false e2 Hl T2) as (e3 & E3 & T3). unfold bind at 1. rewrite E3.
  destruct (config_request ps e3 Hl T3) as (e4 & E4 & T4). unfold bind at 1. rewrite E4.
  unfold bind at 1. rewrite (test_socket _ _ _ _ Hp T4). unfold bind at 1. rewrite (test_assert _ _ _ _ _ _ T4).
  unfold bind at 1. rewrite (test_reach _ _ _ _ _ Hp T4 eq_refl) by (split; [done|repeat constructor; unfold is_byte; lia]).
  replace (leaves_tunnel _ _ _ _ _) with false.
  2:{ unfold leaves_tunnel. change ((test_rules true false).1 !! 0) with (Some include_config). change ((test_rules true false).2 !! 0) with (@None (list string)).
      cbn [unwrap_or sc_ip_ranges include_config existsb]. by rewrite A3. }
  unfold bind at 1. rewrite (test_assert _ _ _ _ _ _ T4).
  destruct (clear_request ps e4 Hl T4) as (e5 & E5 & T5). unfold bind at 1. rewrite E5.
  destruct (policy_request ps false false false e5 Hl T5) as (e6 & E6 & T6). exists e6. split; [exact E6|]. split; [apply (te_rules _ _ _ _ T6)|].
  by apply (te_detached _ _ _ _ T6).
Qed.
End Passes.

(** ** A concrete kernel, and the test on it *)
Definition scan_trie : KernelTrie :=
  mkKernelTrie (fun s key => if existsb (fun k => lpm_match (key_bytes k) key) (elements s) then Some 1 else None).
#[export] Instance scan_trie_laws : TrieLaws scan_trie.
Proof.
  split. intros s key. cbn. transitivity (existsb (fun k => lpm_match (key_bytes k) key) (elements s) = true); [by destruct (existsb _ _)|].
  rewrite existsb_exists. split; intros (k & Hin & Hk); exists k; (split; [|done]); [apply elem_of_elements, list_elem_of_In|apply list_elem_of_In, elem_of_elements]; done.
Qed.

Inductive test_net : Type := Net24 (third : bool) | Net48.
Definition test_host (d : Z) : IpAddr := IpV6 [32; 1; 13; 184; 255; 255; 0; 0; 0; 0; 0; 0; 0; 0; 0; d].
Definition test_net_address (n : test_net) : IpAddr :=
  match n with Net24 true => IpV4 [198; 51; 100; 0] | Net24 false => IpV4 [192; 0; 2; 0] | Net48 => test_host 0 end.
Definition test_lib : IpLib :=
  mkIpLib (fun s => if String.eqb s "2001:db8:ffff::1" then Some (test_host 1) else if String.eqb s "2001:db8:ffff::2" then Some (test_host 2) else None)
    (fun _ => "") test_net
    (fun s => if String.eqb s "198.51.100.0/24" then Some (Net24 true) else if String.eqb s "192.0.2.0/24" then Some (Net24 false)
              else if String.eqb s "2001:db8:ffff::/48" then Some Net48 else None)
    (fun _ => Net48) (fun n => n) (fun _ => "") test_net_address (fun n => match n with Net24 _ => 24 | Net48 => 48 end).
#[export] Instance test_shapes : @IpShapes test_lib.
Proof. split. intros [[]|]; cbn; (split; [split; [done|repeat constructor; unfold is_byte; lia]|lia]). Qed.
Definition test_fds : map_fds := mkFds 10 11 12 13 14 15.
Lemma test_fds_differ : NoDup (fds_list test_fds).
Proof. apply (bool_decide_unpack _). by vm_compute. Qed.

(** A user excludes a browser and a range; the browser's process and another one. *)
Definition browsing : engine :=
  mkEngine (mkInner {[1000 := mkSplitConfig Exclude ["/usr/bin/firefox"] ["192.0.2.0/24"]]} {[1000 := ["2001:db8:ffff::/48"]]} None ∅ ∅)
    (mkFs None None []) [] [] [firefox 10; mkProcess 1000 20 1 ["/usr/bin/curl"]].
Definition user (pid : Z) : caller := mkCaller pid pid 1000 1000.

Lemma packets_follow_policy_witness :
  let e := (@reconcile test_lib browsing).2 in
  let made pid := @socket_created scan_trie test_fds e.(e_inner).(in_marker) (user pid) in
  let reached pid a := @destination_reached scan_trie test_fds e.(e_inner).(in_marker) (user pid) a 0 in
  made 10 = Some FWMARK_VALUE /\ made 20 = Some 0 /\
  reached 10 (IpV4 [198; 51; 100; 7]) = Some FWMARK_VALUE /\ reached 20 (IpV4 [198; 51; 100; 7]) = Some 0 /\
  reached 20 (IpV4 [192; 0; 2; 7]) = Some FWMARK_VALUE /\ reached 20 (test_host 9) = Some FWMARK_VALUE.
Proof.
  intros e made reached.
  assert (Hr : @reconcile test_lib browsing = (Ok tt, e)) by (unfold e; by destruct (reconcile browsing) as [[[]|] ?] eqn:E; vm_compute in E).
  assert (Hk : keys_in e.(e_inner).(in_configs) /\ keys_in e.(e_inner).(in_policies)).
  { split; intros k v Hkv; vm_compute in Hkv; destruct (decide (k = 1000)) as [->|Hne]; try lia.
    - by change (({[1000 := mkSplitConfig Exclude ["/usr/bin/firefox"] ["192.0.2.0/24"]]} : ConfigMap) !! k = Some v) in Hkv; rewrite lookup_singleton_ne in Hkv.
    - by change (({[1000 := ["2001:db8:ffff::/48"]]} : PolicyMap) !! k = Some v) in Hkv; rewrite lookup_singleton_ne in Hkv. }
  assert (Ha : marks_agree browsing).
  { split; [done|]. intros pid. unfold pids, tracked. cbn. rewrite lookup_empty. split; [by intros ?%not_elem_of_empty|done]. }
  pose proof (fun pid a Hp => @packets_follow_policy test_lib test_shapes scan_trie scan_trie_laws test_fds browsing e e (user pid) a
    Ha I Hr (rtc_refl _ _) (proj1 Hk) (proj2 Hk) test_fds_differ Hp) as H.
  assert (Hu : forall pid, 0 <= pid < 100 -> caller_ok (user pid)) by (intros pid Hp; unfold caller_ok, user; cbn; lia).
  assert (H4 : forall a b c d, is_byte a -> is_byte b -> is_byte c -> is_byte d -> well_formed (IpV4 [a; b; c; d])) by (intros; split; [done|repeat (apply Forall_cons; split; [done|]); done]).
  assert (Hs : is_Some e.(e_inner).(in_marker)) by (vm_compute; by eexists).
  unfold made, reached. split_and!.
  - destruct (H 10 (IpV4 [198; 51; 100; 7])) as (-> & _); [apply Hu; lia|apply H4; unfold is_byte; lia|vm_compute; reflexivity].
  - destruct (H 20 (IpV4 [198; 51; 100; 7])) as (-> & _); [apply Hu; lia|apply H4; unfold is_byte; lia|vm_compute; reflexivity].
  - destruct (H 10 (IpV4 [198; 51; 100; 7])) as (_ & -> & _); [apply Hu; lia|apply H4; unfold is_byte; lia|vm_compute; reflexivity|by left|done].
  - destruct (H 20 (IpV4 [198; 51; 100; 7])) as (_ & -> & _); [apply Hu; lia|apply H4; unfold is_byte; lia|vm_compute; reflexivity|by left|done].
  - destruct (H 20 (IpV4 [192; 0; 2; 7])) as (_ & -> & _); [apply Hu; lia|apply H4; unfold is_byte; lia|vm_compute; reflexivity|by left|done].
  - destruct (H 20 (test_host 9)) as (_ & -> & _);
      [apply Hu; lia|split; [done|repeat constructor; unfold is_byte; lia]|vm_compute; reflexivity|by left|done].
Defined.

Definition root : caller := mkCaller 4242 4242 0 0.
Definition test_machine : engine :=
  mkEngine (mkInner ∅ ∅ None ∅ ∅) (mkFs None None []) [] [] [mkProcess 0 1 0 ["/usr/lib/systemd/systemd"]; mkProcess 0 4242 1 ["/usr/lib/proton-omarchy-splitd"]].
Lemma test_machine_process : @test_process root test_machine.(e_processes).
Proof.
  split; [apply (bool_decide_unpack _); by vm_compute|]. split; [eexists; split; [right; left|done]|].
  assert (Hm : forall p c, p ∈ test_machine.(e_processes) -> ({[0 := include_config]} : ConfigMap) !! p.(pi_uid) = Some c -> matches c p.(pi_identities) = false).
  { intros p c Hp [_ <-]%lookup_singleton_Some. cbn in Hp. set_unfold in Hp. by destruct_or! Hp; subst. }
  induction 1 as [p c Hp Hc Hd|p c Hp Hc Hi IH]; [by rewrite (Hm _ _ Hp Hc) in Hd|done].
Qed.

Lemma self_test_passes_witness :
  let J := mkJsonText (fun _ => "") (fun _ => None) (fun _ _ => "") in
  exists e', @kernel_self_test test_lib scan_trie J (fun _ _ => Err "") (fun _ => Err "") test_fds root test_machine = (Ok tt, e') /\
    e'.(e_inner).(in_marker) = None.
Proof.
  intros J. destruct (@self_test_passes test_lib test_shapes scan_trie scan_trie_laws J (fun _ _ => Err "") (fun _ => Err "") test_fds root test_fds_differ)
    with (e := test_machine) as (e' & He & _ & Hn).
  - unfold caller_ok, root. cbn. lia.
  - done.
  - done.
  - split_and!; [by vm_compute..|]. intros s [-> | ->]; [exists (test_host 1)|exists (test_host 2)];
      (split; [done|split; [split; [done|repeat constructor; unfold is_byte; lia]|by vm_compute]]).
  - apply test_machine_process.
  - exists e'. split; [exact He|exact Hn].
Defined.
