(* ===== verification/Backend.v ===== *)
(** The backend handle of [agent/src/backend.rs]: the methods and capabilities it advertises and the
    request path that brackets the backend's answer between [begin] and [finish] of the operation
    coordinator.

    Between the two other tasks may act on the coordinator, so a request is two steps:
    [request_begin] up to the hand-over to the backend task, [request_end] from its answer. *)
From S2P Require Export Operations.
Open Scope string_scope.
Open Scope Z_scope.
Open Scope list_scope.
Open Scope rust_scope.

Inductive BackendFlavor : Type :=
  | Native.

Definition NATIVE_METHODS : list string := [
  "account.get";
  "account.retry_restore";
  "account.refresh";
  "guest_hole.cancel";
  "account.upgrade_url";
  "report_issue.categories.get";
  "report_issue.submit";
  "diagnostics.get";
  "account.login";
  "account.submit_2fa";
  "account.authenticate_fido2";
  "account.submit_fido2_pin";
  "account.cancel_fido2";
  "account.logout";
  "locations.get";
  "servers.get";
  "servers.lookup";
  "feature.set";
  "protocol.set";
  "dns.set";
  "apps.get";
  "system.launch";
  "split_tunneling.set";
  "connection.observe";
  "connection.network_conflict_detection";
  "connection.connect";
  "connection.cancel";
  "connection.disconnect";
  "connection.feedback";
  "netshield.stats.get";
  "traffic.get" ].

Definition NATIVE_CAPABILITIES : list string := [
  "state.push";
  "operations.push";
  "operations.conflicts";
  "requests.concurrent";
  "device_location.read";
  "account.session";
  "account.refresh";
  "api.guest_hole.stealth";
  "account.login";
  "account.sso";
  "account.human_verification";
  "account.2fa";
  "account.2fa.security_key";
  "account.2fa.security_key_pin";
  "account.2fa.security_key_cancel";
  "account.web_upgrade";
  "report_issue.categories";
  "report_issue.submit";
  "servers.page";
  "servers.remote_lookup";
  "connection.observe";
  "connection.fastest";
  "connection.country";
  "connection.state";
  "connection.city";
  "connection.random_country";
  "connection.server";
  "connection.gateway";
  "connection.gateway_server";
  "connection.secure_core";
  "connection.secure_core_entry_country";
  "connection.p2p";
  "connection.tor";
  "feature.kill_switch";
  "feature.kill_switch_split_tunneling";
  "feature.netshield";
  "feature.vpn_accelerator";
  "feature.port_forwarding";
  "feature.anonymous_usage_statistics";
  "feature.moderate_nat";
  "feature.ipv6";
  "feature.ipv6_leak_protection";
  "feature.alternative_routing";
  "connection.feedback";
  "netshield.statistics";
  "protocol.settings";
  "dns.custom";
  "apps.catalog";
  "profiles.connect_and_go";
  "profiles.custom_dns";
  "profiles.lan_policy";
  "system.private_browsing";
  "split_tunneling.apps";
  "store.canonical";
  "store.migration.qt";
  "profiles.crud";
  "profiles.duplicate";
  "recents.canonical";
  "default_connection.canonical";
  "onboarding.preferences";
  "notifications.freedesktop";
  "network.insecure_wifi";
  "lifecycle.resume_reconnect" ].

Definition flavor_name (f : BackendFlavor) : string := match f with Native => "proton_rust" end.
Definition flavor_methods (f : BackendFlavor) : list string := match f with Native => NATIVE_METHODS end.
Definition flavor_capabilities (f : BackendFlavor) : list string := match f with Native => NATIVE_CAPABILITIES end.

Definition supports (f : BackendFlavor) (method : string) : bool :=
  existsb (String.eqb method) (flavor_methods f).

(** What becomes of a request handed to the backend task. *)
Inductive backend_answer : Type :=
  | TaskStopped
  | ReplyDropped
  | Answered (r : BackendResult).

Definition unavailable (message : string) : BackendError :=
  retryable true (BackendError_new "backend_unavailable" message).

Definition answer_result (a : backend_answer) : BackendResult :=
  match a with
  | TaskStopped => Err (unavailable "Proton backend task stopped")
  | ReplyDropped => Err (unavailable "Proton backend reply was dropped")
  | Answered r => r
  end.

Definition result_error {A : Type} (r : result A BackendError) : option BackendError :=
  match r with Ok _ => None | Err e => Some e end.

Definition request_begin (now : Z) (client method : string) (c : Coordinator)
    : result (option OperationLease) BackendError * Coordinator := begin now client method c.

Definition request_end (now : Z) (operation : option OperationLease) (a : backend_answer) (c : Coordinator)
    : BackendResult * Coordinator :=
  let r := answer_result a in (r, finish now operation (result_error r) c).


(** Whatever becomes of a request, the operation its lease owns is no longer active afterwards. *)
Lemma request_end_closes now lease a c o :
  ids_ok c -> owns_completion lease = true ->
  o ∈ active (registry (request_end now (Some lease) a c).2) -> op_id o <> lease_id lease.
Proof.
  intros Hids Hown. unfold request_end, finish. cbn [snd]. rewrite Hown. cbn [negb].
  destruct (remove_first (has_id (lease_id lease)) _) as [[x rest]|] eqn:E.
  - cbn [publish registry active]. pose proof (ids_ok_active c Hids) as Hnd.
    apply remove_first_Some in E as (Hx & l1 & l2 & Ha & ->). rewrite Ha in Hnd.
    intros Ho Heq. unfold has_id in Hx. bool_prop.
    assert (o = x) as -> by (eapply (ids_elem_unique (l1 ++ x :: l2)); [done| | |congruence]; set_solver).
    rewrite map_app in Hnd. apply NoDup_app in Hnd as (_ & Hd & Hn). cbn [map] in Hd, Hn.
    apply NoDup_cons in Hn as [Hn _]. apply elem_of_app in Ho as [Ho|Ho]; apply (list_elem_of_fmap_2 op_id) in Ho.
    + apply (Hd (op_id x)); [exact Ho|left].
    + by apply Hn.
  - apply remove_first_None in E. rewrite Forall_forall in E. intros Ho Heq. apply E in Ho.
    unfold has_id in Ho. rewrite Heq in Ho. by rewrite String.eqb_refl in Ho.
Qed.
