(* ===== verification/Session.v ===== *)
(** A client session of the agent ([agent/src/session.rs]): JSON lines in, responses and events out.

    A session is a state machine.  Its inputs are what the three arms of the [select!] receive: a line
    from the socket, the completion of a request task, a change of the published state.  What the
    tasks compute belongs to the backend and the store and comes in with the completion.
    serde_json's text forms and error texts are the class [Wire]. *)
From S2P Require Export Backend Json.
Open Scope string_scope.
Open Scope Z_scope.
Open Scope list_scope.
Open Scope rust_scope.

Class Wire : Type := mkWire {
  (** [serde_json::from_str::<Value>]: the value, or the text of the error. *)
  wire_parse : string -> result json string;
  (** [serde_json::to_string]. *)
  wire_print : json -> string;
  (** The text of the error for a value that is not of the expected structure. *)
  wire_type_error : json -> string;
  (** [serde_json::to_value] of the published state. *)
  snapshot_to_value : StateSnapshot -> json }.

Definition MAX_PENDING_REQUESTS_PER_CLIENT : nat := 32.

(** ** Decoding and encoding *)
(** A derived [Deserialize] takes the fields from an object by name, or from an array in their order; a
    field with a default may be left out, in an array only at the end. *)
Definition envelope_of_fields (v id message_type method params : option json) : option RequestEnvelope :=
  match v ?> as_u64 ?> u_try_from 16, id ?> as_str, message_type ?> as_str, method ?> as_str with
  | Some v, Some id, Some message_type, Some method => Some (mkRequestEnvelope v id message_type method (unwrap_or params Null))
  | _, _, _, _ => None
  end.
Definition envelope_of_json (j : json) : option RequestEnvelope :=
  match j with
  | Obj _ => envelope_of_fields (jget "v" j) (jget "id" j) (jget "type" j) (jget "method" j) (jget "params" j)
  | Arr [v; id; message_type; method] => envelope_of_fields (Some v) (Some id) (Some message_type) (Some method) None
  | Arr [v; id; message_type; method; params] => envelope_of_fields (Some v) (Some id) (Some message_type) (Some method) (Some params)
  | _ => None
  end.

Definition hello_of_fields (client client_version client_instance_id : option json) : option HelloParams :=
  match client ?> as_str, client_version ?> as_str, field_or "" as_str client_instance_id with
  | Some client, Some client_version, Some client_instance_id =>
      Some (mkHelloParams client client_version client_instance_id)
  | _, _, _ => None
  end.
Definition hello_of_json (j : json) : option HelloParams :=
  match j with
  | Obj _ => hello_of_fields (jget "client" j) (jget "client_version" j) (jget "client_instance_id" j)
  | Arr [client; client_version] => hello_of_fields (Some client) (Some client_version) None
  | Arr [client; client_version; client_instance_id] => hello_of_fields (Some client) (Some client_version) (Some client_instance_id)
  | _ => None
  end.
Example envelope_array :
  envelope_of_json (Arr [jnum 1; Str "7"; Str "request"; Str "hello"; Arr [Str "cli"; Str "1.0"]]) =
    Some (mkRequestEnvelope 1 "7" "request" "hello" (Arr [Str "cli"; Str "1.0"])) /\
  hello_of_json (Arr [Str "cli"; Str "1.0"]) = Some (mkHelloParams "cli" "1.0" "").
Proof. by vm_compute. Qed.

Definition error_to_json (e : ProtocolError) : json :=
  jobj ([("code", Str e.(pe_code)); ("message", Str e.(pe_message)); ("retryable", Bool e.(pe_retryable))]
        ++ match e.(pe_details) with Some d => [("details", d)] | None => [] end).

Definition message_to_json (m : ServerMessage) : json :=
  match m with
  | Response v id ok res error =>
      jobj ([("type", Str "response"); ("v", jnum v); ("id", jopt Str id); ("ok", Bool ok)]
            ++ match res with Some r => [("result", r)] | None => [] end
            ++ match error with Some e => [("error", error_to_json e)] | None => [] end)
  | Event v event data =>
      jobj [("type", Str "event"); ("v", jnum v); ("event", Str event); ("data", data)]
  end.

(** ** State *)

(** A request handed to the backend or the store. *)
Record task : Type := mkTask {
  t_id : string;
  t_client : string;
  t_method : string;
  t_params : json }.

Record session : Type := mkSession {
  se_id : Z;
  se_hello : bool;
  se_client : string;
  se_pending : list task;
  se_pending_ids : gset string }.

Definition session_new (id : Z) : session :=
  mkSession id false ("anonymous-session-" +:+ dec id) [] ∅.

Inductive input : Type :=
  | Line (text : string)
  | LineError
  | Eof
  (** The [n]th pending task has a result, or panicked. *)
  | Completed (n : nat) (r : BackendResult)
  | Panicked (n : nat)
  | StateChanged
  | StateClosed.

(** What a turn of the loop does: messages to send, a task to start, the next state; [None] when the
    session ends. *)
Definition turn : Type := list ServerMessage * option task * option session.

Definition reply (m : ServerMessage) (s : session) : turn := ([m], None, Some s).
Definition refuse (id : option string) (code message : string) (s : session) : turn :=
  reply (msg_error id code message) s.
Definition closed : turn := ([], None, None).

Definition opt_to_list {A : Type} (o : option A) : list A := match o with Some x => [x] | None => [] end.

(** ** Requests *)
Definition instance_char (a : ascii) : bool :=
  is_ascii_alphanumeric a || existsb (Ascii.eqb a) ["."; "_"; ":"; "-"]%char.

Definition hello_invalid (p : HelloParams) : bool :=
  is_empty (trim p.(hp_client)) || (64 <? str_len p.(hp_client)) || (64 <? str_len p.(hp_client_version))
  || (128 <? str_len p.(hp_client_instance_id))
  || (negb (is_empty p.(hp_client_instance_id)) && negb (str_forall instance_char p.(hp_client_instance_id))).

Definition instance_id (p : HelloParams) (session_id : Z) : string :=
  if is_empty (trim p.(hp_client_instance_id))
  then trim p.(hp_client) +:+ "-session-" +:+ dec session_id
  else trim p.(hp_client_instance_id).

Definition hello_result (p : HelloParams) (client_instance_id : string) (f : BackendFlavor) : json :=
  jobj [("protocol_version", jnum PROTOCOL_VERSION);
        ("server", Str "proton-omarchy-agent");
        ("mock_backend", Bool false);
        ("backend", Str (flavor_name f));
        ("client", Str p.(hp_client));
        ("client_instance_id", Str client_instance_id);
        ("request_methods", Arr (map Str (flavor_methods f ++ STORE_METHODS)));
        ("capabilities", Arr (map Str (flavor_capabilities f)))].

Definition too_many_error : ProtocolError :=
  mkProtocolError "too_many_pending_requests" "too many requests are pending for this client"
    (Some (jobj [("limit", jnum (Z.of_nat MAX_PENDING_REQUESTS_PER_CLIENT))])) true.

Definition enqueue (request : RequestEnvelope) (s : session) : turn :=
  if (MAX_PENDING_REQUESTS_PER_CLIENT <=? length s.(se_pending))%nat
  then reply (Response PROTOCOL_VERSION (Some request.(re_id)) false None (Some too_many_error)) s
  else if bool_decide (request.(re_id) ∈ s.(se_pending_ids))
  then refuse (Some request.(re_id)) "duplicate_request_id" "request id is already pending" s
  else
    let t := mkTask request.(re_id) s.(se_client) request.(re_method) request.(re_params) in
    ([], Some t,
     Some (mkSession s.(se_id) s.(se_hello) s.(se_client) (s.(se_pending) ++ [t])
             ({[request.(re_id)]} ∪ s.(se_pending_ids)))).

Section Session.
Context {W : Wire} (flavor : BackendFlavor).

Definition hello (request : RequestEnvelope) (snapshot : StateSnapshot) (s : session) : turn :=
  let id := Some request.(re_id) in
  if s.(se_hello) then refuse id "hello_already_completed" "hello may only be sent once per socket session" s
  else
    match hello_of_json request.(re_params) with
    | None => refuse id "invalid_params" (wire_type_error request.(re_params)) s
    | Some p =>
        if hello_invalid p then refuse id "invalid_params" "hello client fields have an invalid length" s
        else
          let client := instance_id p s.(se_id) in
          ([msg_ok request.(re_id) (hello_result p client flavor);
            msg_event "state.snapshot" (snapshot_to_value snapshot)], None,
           Some (mkSession s.(se_id) true client s.(se_pending) s.(se_pending_ids)))
    end.

Definition dispatch (request : RequestEnvelope) (snapshot : StateSnapshot) (s : session) : turn :=
  let method := request.(re_method) in
  if String.eqb method "hello" then hello request snapshot s
  else if String.eqb method "state.get"
  then reply (msg_ok request.(re_id) (snapshot_to_value snapshot)) s
  else if supports flavor method then enqueue request s
  else if existsb (String.eqb method) STORE_METHODS then enqueue request s
  else refuse (Some request.(re_id)) "method_not_found" "unknown request method" s.

(** The checks before a request is dispatched: the id and the error of the response. *)
Definition envelope_error (request : RequestEnvelope) (s : session) : option (option string * string * string) :=
  if negb (String.eqb request.(re_message_type) "request")
  then Some (Some request.(re_id), "invalid_type", "client frames must use type=request")
  else if negb (request.(re_v) =? PROTOCOL_VERSION)
  then Some (Some request.(re_id), "unsupported_version",
             "protocol version " +:+ dec PROTOCOL_VERSION +:+ " is required")
  else if is_empty (trim request.(re_id)) || (128 <? str_len request.(re_id))
  then Some (None, "invalid_request_id", "request id must contain between 1 and 128 characters")
  else if negb s.(se_hello) && negb (String.eqb request.(re_method) "hello")
  then Some (Some request.(re_id), "hello_required", "send hello before other requests")
  else None.

Definition decode (line : string) : result RequestEnvelope string :=
  let? j := wire_parse line in ok_or (envelope_of_json j) (wire_type_error j).

Definition on_line (line : string) (snapshot : StateSnapshot) (s : session) : turn :=
  match decode line with
  | Err error => refuse None "invalid_json" error s
  | Ok request =>
      match envelope_error request s with
      | Some (id, code, message) => refuse id code message s
      | None => dispatch request snapshot s
      end
  end.

Definition without_task (n : nat) (t : task) (s : session) : session :=
  mkSession s.(se_id) s.(se_hello) s.(se_client) (delete n s.(se_pending)) (s.(se_pending_ids) ∖ {[t.(t_id)]}).

Definition result_message (id : string) (r : BackendResult) : ServerMessage :=
  match r with
  | Ok result => msg_ok id result
  | Err error =>
      msg_error_with_details (Some id) error.(err_code) error.(err_message) error.(err_details) error.(err_retryable)
  end.

(** One turn of the loop; [snapshot] is the state published at that moment.  An arm that is not
    enabled does nothing. *)
Definition turn_of (i : input) (snapshot : StateSnapshot) (s : session) : turn :=
  match i with
  | Line text => on_line text snapshot s
  | LineError | Eof => closed
  | Completed n r =>
      match s.(se_pending) !! n with
      | Some t => reply (result_message t.(t_id) r) (without_task n t s)
      | None => ([], None, Some s)
      end
  | Panicked n =>
      ([], None,
       Some (mkSession s.(se_id) s.(se_hello) s.(se_client) (delete n s.(se_pending)) s.(se_pending_ids)))
  | StateChanged =>
      if s.(se_hello) then reply (msg_event "state.changed" (snapshot_to_value snapshot)) s
      else ([], None, Some s)
  | StateClosed => if s.(se_hello) then closed else ([], None, Some s)
  end.

(** [send]: a message too large for a frame ends the session. *)
Definition fits (m : ServerMessage) : bool := str_len (wire_print (message_to_json m)) <=? MAX_FRAME_BYTES.

(** The messages sent before the first that does not fit. *)
Fixpoint sendable (messages : list ServerMessage) : list ServerMessage :=
  match messages with
  | m :: messages => if fits m then m :: sendable messages else []
  | [] => []
  end.

Definition step (i : input) (snapshot : StateSnapshot) (s : session) : turn :=
  let '(messages, started, next) := turn_of i snapshot s in
  match find_first (fun m => negb (fits m)) messages with
  | None => (messages, started, next)
  | Some _ => (sendable messages, started, None)
  end.

(** A whole session: every message sent, every task started, and the final state. *)
Fixpoint run_session (inputs : list (input * StateSnapshot)) (s : session) : list ServerMessage * list task * option session :=
  match inputs with
  | [] => ([], [], Some s)
  | (i, snapshot) :: inputs =>
      let '(messages, started, next) := step i snapshot s in
      match next with
      | None => (messages, opt_to_list started, None)
      | Some s =>
          let '(messages', started', final) := run_session inputs s in
          (messages ++ messages', opt_to_list started ++ started', final)
      end
  end.
End Session.

(** ** What a session promises *)

(** The ids of the responses among messages. *)
Definition response_ids (messages : list ServerMessage) : list (option string) :=
  filter_map (fun m => match m with Response _ id _ _ _ => Some id | Event _ _ _ => None end) messages.
Definition is_event (m : ServerMessage) : bool := match m with Event _ _ _ => true | _ => false end.

Definition pending_ids (s : session) : list (option string) := map (fun t => Some t.(t_id)) s.(se_pending).

Definition id_ok (id : string) : Prop := is_empty (trim id) = false /\ str_len id <= 128.

Section Facts.
Context {W : Wire} (flavor : BackendFlavor).

(** The id a line's response must carry: the line's own, or none when the line has no usable one. *)
Definition line_id (line : string) : option string :=
  match decode line with
  | Err _ => None
  | Ok request =>
      if String.eqb request.(re_message_type) "request" && (request.(re_v) =? PROTOCOL_VERSION)
         && (is_empty (trim request.(re_id)) || (128 <? str_len request.(re_id)))
      then None else Some request.(re_id)
  end.

Definition input_ids (i : input) : list (option string) :=
  match i with Line text => [line_id text] | _ => [] end.

Definition is_panic (i : input) : bool := match i with Panicked _ => true | _ => false end.

(** The state of a session between turns. *)
Record session_ok (s : session) : Prop := {
  sok_hello : s.(se_hello) = false -> s.(se_pending) = [];
  sok_bound : (length s.(se_pending) <= MAX_PENDING_REQUESTS_PER_CLIENT)%nat;
  sok_nodup : NoDup (map t_id s.(se_pending));
  sok_ids : Forall (fun t => t.(t_id) ∈ s.(se_pending_ids)) s.(se_pending);
  sok_tasks : Forall (fun t => t.(t_client) = s.(se_client) /\ id_ok t.(t_id) /\
                (supports flavor t.(t_method) = true \/ t.(t_method) ∈ STORE_METHODS)) s.(se_pending) }.

(** A turn that leaves the state alone. *)
Definition quiet_turn (id : option string) (r : turn) (s : session) : Prop :=
  r.2 = Some s /\ r.1.2 = None /\ response_ids r.1.1 = [id] /\ forallb (fun m => negb (is_event m)) r.1.1 = true.

(** The turn that starts the task of a request. *)
Definition started_turn (request : RequestEnvelope) (s : session) (r : turn) : Prop :=
  let t := mkTask request.(re_id) s.(se_client) request.(re_method) request.(re_params) in
  r = ([], Some t, Some (mkSession s.(se_id) s.(se_hello) s.(se_client) (s.(se_pending) ++ [t])
                           ({[request.(re_id)]} ∪ s.(se_pending_ids)))) /\
  (length s.(se_pending) < MAX_PENDING_REQUESTS_PER_CLIENT)%nat /\ request.(re_id) ∉ s.(se_pending_ids).

Lemma enqueue_cases request s :
  quiet_turn (Some (re_id request)) (enqueue request s) s \/ started_turn request s (enqueue request s).
Proof.
  unfold enqueue. destruct (Nat.leb_spec MAX_PENDING_REQUESTS_PER_CLIENT (length (se_pending s))) as [|Hl]; [by left|].
  case_bool_decide as Hin; [by left|]. right. by split_and!.
Qed.

(** What a line can do: an answer at once, a completed hello, or a task for a request after hello. *)
Inductive line_turn (snapshot : StateSnapshot) (line : string) (s : session) : turn -> Prop :=
  | LineQuiet r : quiet_turn (line_id line) r s -> line_turn snapshot line s r
  | LineHello id res client :
      s.(se_hello) = false -> line_id line = Some id ->
      line_turn snapshot line s
        ([msg_ok id res; msg_event "state.snapshot" (snapshot_to_value snapshot)], None,
         Some (mkSession s.(se_id) true client s.(se_pending) s.(se_pending_ids)))
  | LineTask request r :
      s.(se_hello) = true -> line_id line = Some request.(re_id) -> id_ok request.(re_id) ->
      (supports flavor request.(re_method) = true \/ request.(re_method) ∈ STORE_METHODS) ->
      started_turn request s r -> line_turn snapshot line s r.

Lemma quiet_reply id m s : response_ids [m] = [id] -> is_event m = false -> quiet_turn id (reply m s) s.
Proof. intros H1 H2. split_and!; try done. simpl. by rewrite H2. Qed.

Lemma on_line_turn line snapshot s : line_turn snapshot line s (on_line flavor line snapshot s).
Proof.
  unfold on_line. destruct (decode line) as [request|error] eqn:Ed.
  2: { apply LineQuiet. unfold line_id. rewrite Ed. by apply quiet_reply. }
  assert (Hid : line_id line = if String.eqb (re_message_type request) "request" && (re_v request =? PROTOCOL_VERSION)
    && (is_empty (trim (re_id request)) || (128 <? str_len (re_id request))) then None else Some (re_id request)).
  { unfold line_id. by rewrite Ed. }
  unfold envelope_error. destruct (String.eqb (re_message_type request) "request"); cbn [negb andb] in *;
    [|apply LineQuiet; rewrite Hid; by apply quiet_reply].
  destruct (re_v request =? PROTOCOL_VERSION); cbn [negb andb] in *;
    [|apply LineQuiet; rewrite Hid; by apply quiet_reply].
  destruct (_ || _) eqn:Ei; [apply LineQuiet; rewrite Hid; by apply quiet_reply|].
  assert (Hok : id_ok (re_id request)) by (split; bool_prop; [done|lia]).
  destruct (se_hello s) eqn:Eh; cbn [negb andb].
  - unfold dispatch. destruct (String.eqb (re_method request) "hello").
    { unfold hello. rewrite Eh. apply LineQuiet. rewrite Hid. by apply quiet_reply. }
    destruct (String.eqb (re_method request) "state.get").
    { apply LineQuiet. rewrite Hid. by apply quiet_reply. }
    destruct (supports flavor (re_method request)) eqn:Es.
    { destruct (enqueue_cases request s); [apply LineQuiet; by rewrite Hid|]. eapply LineTask; eauto. }
    destruct (existsb _ STORE_METHODS) eqn:Em.
    { destruct (enqueue_cases request s); [apply LineQuiet; by rewrite Hid|]. eapply LineTask; eauto.
      right. apply existsb_exists in Em as (m & Hm & ->%String.eqb_eq). by apply list_elem_of_In. }
    apply LineQuiet. rewrite Hid. by apply quiet_reply.
  - destruct (String.eqb_spec (re_method request) "hello") as [E|]; cbn [negb];
      [|apply LineQuiet; rewrite Hid; by apply quiet_reply].
    unfold dispatch, hello. rewrite E, Eh. cbn [String.eqb].
    destruct (hello_of_json _) as [p|]; [|apply LineQuiet; rewrite Hid; by apply quiet_reply].
    destruct (hello_invalid p); [apply LineQuiet; rewrite Hid; by apply quiet_reply|]. by apply LineHello.
Qed.

(** The tasks a turn may start. *)
Definition task_ok (s : session) (t : task) : Prop :=
  s.(se_hello) = true /\ t.(t_client) = s.(se_client) /\ id_ok t.(t_id) /\
  (supports flavor t.(t_method) = true \/ t.(t_method) ∈ STORE_METHODS).

Lemma started_turn_ok request s r :
  session_ok s -> s.(se_hello) = true -> id_ok request.(re_id) ->
  (supports flavor request.(re_method) = true \/ request.(re_method) ∈ STORE_METHODS) ->
  started_turn request s r ->
  exists t s', r = ([], Some t, Some s') /\ session_ok s' /\ task_ok s t /\ se_hello s' = se_hello s /\
    pending_ids s' = pending_ids s ++ [Some request.(re_id)].
Proof.
  intros [Hh Hb Hnd Hids Ht] Hhello Hid Hm (-> & Hlen & Hnew). eexists _, _. split; [reflexivity|]. split_and!; try done.
  - split; simpl; try done.
    + rewrite Hhello. discriminate.
    + rewrite length_app. simpl. lia.
    + rewrite map_app. apply NoDup_app. split_and!; [done| |apply NoDup_singleton].
      intros x Hx ->%list_elem_of_singleton. apply (list_elem_of_fmap_1 t_id) in Hx as (t & E & Hin). simpl in E.
      rewrite Forall_forall in Hids. apply Hids in Hin. by rewrite <- E in Hin.
    + apply Forall_app. split; [|apply Forall_singleton; simpl; set_solver].
      eapply Forall_impl; [exact Hids|]. intros t' Ht'. apply elem_of_union. by right.
    + apply Forall_app. split; [done|]. by apply Forall_singleton.
  - unfold pending_ids. simpl. by rewrite map_app.
Qed.

Lemma without_task_ok n t s :
  session_ok s -> s.(se_pending) !! n = Some t -> session_ok (without_task n t s).
Proof.
  intros [Hh Hb Hnd Hids Ht] Hn. pose proof (delete_Permutation _ _ _ Hn) as Hp.
  assert (Hnd' : NoDup (t_id t :: map t_id (delete n (se_pending s)))).
  { change (NoDup (map t_id (t :: delete n (se_pending s)))). by rewrite <- Hp. }
  apply NoDup_cons in Hnd' as [Hnew Hnd'].
  split; simpl; try done; try by apply Forall_delete.
  - intros H. rewrite (Hh H) in Hn. discriminate.
  - rewrite (length_delete _ _ (mk_is_Some _ _ Hn)). lia.
  - rewrite Forall_forall in Hids |- *. intros t' Ht'. apply elem_of_difference. split.
    + apply Hids. rewrite Hp. by right.
    + rewrite elem_of_singleton. intros E. apply Hnew. rewrite <- E. by apply (list_elem_of_fmap_2 t_id).
Qed.

Lemma panicked_ok n s :
  session_ok s ->
  session_ok (mkSession s.(se_id) s.(se_hello) s.(se_client) (delete n s.(se_pending)) s.(se_pending_ids)).
Proof.
  intros [Hh Hb Hnd Hids Ht]. split; simpl; try by apply Forall_delete.
  - intros H. by rewrite (Hh H).
  - assert (length (delete n (se_pending s)) <= length (se_pending s))%nat; [|lia].
    apply sublist_length, sublist_delete.
  - eapply sublist_NoDup; [exact Hnd|]. change (fmap t_id (delete n (se_pending s)) `sublist_of` fmap t_id (se_pending s)).
    rewrite list_fmap_delete. apply sublist_delete.
Qed.

Lemma sendable_all messages :
  find_first (fun m => negb (fits m)) messages = None -> sendable messages = messages.
Proof.
  induction messages as [|m messages IH]; [done|]. simpl. destruct (fits m); [|done]. intros H. by rewrite IH.
Qed.

(** One turn that leaves the session open. *)
Lemma turn_ok i snapshot s messages started s' :
  session_ok s -> turn_of flavor i snapshot s = (messages, started, Some s') ->
  session_ok s' /\ (s.(se_hello) = true -> s'.(se_hello) = true /\ s'.(se_client) = s.(se_client)) /\
  (forall t, started = Some t -> task_ok s t) /\
  (s'.(se_hello) = false -> existsb is_event messages = false) /\
  (is_panic i = false -> response_ids messages ++ pending_ids s' ≡ₚ pending_ids s ++ input_ids i).
Proof.
  intros Hs. destruct i as [line| | |n r|n| |]; simpl; try discriminate.
  - intros E. pose proof (on_line_turn line snapshot s) as H. rewrite E in H.
    inversion H as [r (Hq1 & Hq2 & Hq3 & Hq4)|id res client Hh Hid E'|request r Hh Hid Hok Hm Ht E']; subst; simpl in *.
    + injection Hq1 as ->. subst. split_and!; try done.
      * intros _. clear -Hq4. induction messages as [|m l IH]; [done|]. simpl in *.
        apply andb_true_iff in Hq4 as [Hm Hl]. apply negb_true_iff in Hm. rewrite Hm. by apply IH.
      * intros _. rewrite Hq3. apply Permutation_app_comm.
    + split_and!; try done; try (intros ?; exfalso; congruence).
      * destruct Hs as [H1 H2 H3 H4 H5]. rewrite (H1 Hh) in *. split; simpl; try done.
      * intros _. rewrite Hid. unfold pending_ids. simpl. apply Permutation_cons_append.
    + destruct (started_turn_ok request s _ Hs Hh Hok Hm Ht) as (t & s1 & [= -> -> ->] & Hs1 & Htask & Hh1 & Hp).
      assert (Hc : se_client s1 = se_client s) by by destruct Ht as [[= -> ->] _].
      split_and!; try done; [intros _; split; congruence|by intros ? [= <-]|].
      intros _. by rewrite Hid, Hp.
  - destruct (se_pending s !! n) as [t|] eqn:En; [|intros [= <- <- <-]; split_and!; try done; by rewrite app_nil_r].
    intros [= <- <- <-]. split_and!; try done; [by apply without_task_ok| |].
    + intros _. by destruct r.
    + intros _. rewrite app_nil_r. unfold pending_ids. simpl.
      pose proof (Permutation_map (fun t => Some (t_id t)) (delete_Permutation _ _ _ En)) as Hp.
      cbn [map] in Hp. rewrite Hp. by destruct r.
  - intros [= <- <- <-]. split_and!; try done. by apply panicked_ok.
  - destruct (se_hello s) eqn:Eh; intros [= <- <- <-]; split_and!; try done; try congruence; by rewrite app_nil_r.
  - destruct (se_hello s); [discriminate|]. intros [= <- <- <-]. split_and!; try done. by rewrite app_nil_r.
Qed.

Lemma step_ok i snapshot s messages started s' :
  session_ok s -> step flavor i snapshot s = (messages, started, Some s') ->
  turn_of flavor i snapshot s = (messages, started, Some s').
Proof.
  intros _. unfold step. destruct (turn_of flavor i snapshot s) as [[ms st] next].
  by destruct (find_first _ ms).
Qed.

(** What a run has done so far. *)
Record run_ok (s : session) (inputs : list (input * StateSnapshot)) (messages : list ServerMessage)
    (started : list task) (s' : session) : Prop := {
  rk_session : session_ok s';
  rk_hello : s.(se_hello) = true -> s'.(se_hello) = true /\ s'.(se_client) = s.(se_client);
  rk_before : s'.(se_hello) = false -> existsb is_event messages = false /\ started = [];
  rk_tasks : Forall (fun t => t.(t_client) = s'.(se_client) /\ id_ok t.(t_id) /\
               (supports flavor t.(t_method) = true \/ t.(t_method) ∈ STORE_METHODS)) started;
  rk_ids : existsb is_panic (map fst inputs) = false ->
    response_ids messages ++ pending_ids s' ≡ₚ pending_ids s ++ concat (map input_ids (map fst inputs)) }.

Lemma response_ids_app l l' : response_ids (l ++ l') = response_ids l ++ response_ids l'.
Proof. unfold response_ids. induction l as [|m l IH]; [done|]. simpl. rewrite IH. by destruct m. Qed.

Lemma run_session_ok inputs s messages started s' :
  session_ok s -> run_session flavor inputs s = (messages, started, Some s') ->
  run_ok s inputs messages started s'.
Proof.
  revert s messages started. induction inputs as [|[i snapshot] inputs IH]; intros s messages started Hs; simpl.
  { intros [= <- <- <-]. split; try done. intros _. simpl. by rewrite app_nil_r. }
  destruct (step flavor i snapshot s) as [[ms st] [s1|]] eqn:E; [|discriminate].
  destruct (run_session flavor inputs s1) as [[ms' st'] fin] eqn:E'. intros [= <- <- ->].
  apply step_ok in E; [|done]. apply turn_ok in E as (Hs1 & Hh1 & Ht1 & He1 & Hp1); [|done].
  destruct (IH s1 _ _ Hs1 E') as [Hs' Hh' Hb' Ht' Hp'].
  assert (Hst : forall t, st = Some t -> se_hello s' = true /\ se_client s' = se_client s).
  { intros t Ht. apply Ht1 in Ht as (H & _). destruct (Hh1 H) as [H1 H2]. destruct (Hh' H1) as [H3 H4]. split; congruence. }
  split; try done.
  - intros H. destruct (Hh1 H) as [H1 H2]. destruct (Hh' H1) as [H3 H4]. split; congruence.
  - intros H. destruct (Hb' H) as [H1 ->]. rewrite existsb_app, H1, orb_false_r. split.
    + apply He1. destruct (se_hello s1); [|done]. destruct (Hh' eq_refl). congruence.
    + destruct st as [t|]; [|done]. destruct (Hst t eq_refl). congruence.
  - apply Forall_app. split; [|done]. destruct st as [t|]; [|constructor]. apply Forall_singleton.
    destruct (Ht1 t eq_refl) as (_ & Hc & H). destruct (Hst t eq_refl) as [_ Hc']. split; [congruence|done].
  - cbn [map existsb fst concat]. intros [Hi Hrest]%orb_false_iff. specialize (Hp1 Hi). specialize (Hp' Hrest).
    rewrite response_ids_app, <- app_assoc, Hp', app_assoc, Hp1, <- app_assoc. done.
Qed.

Lemma session_new_ok id : session_ok (session_new id).
Proof. split; simpl; try done; try constructor; unfold MAX_PENDING_REQUESTS_PER_CLIENT; lia. Qed.

(** C16: every request line gets exactly one response, and it carries the line's id.  However a session
    runs — malformed lines, refused requests, requests for the backend and the store completing in any
    order, state changes in between — as long as no task panics, the ids of the responses sent
    together with those of the requests still pending are exactly the ids of the lines received (none
    for a line without a usable id).  At any time at most 32 requests are pending, under different
    ids; before a successful [hello] nothing is started and no state is sent; every request started
    carries the client id the session took at [hello] and a method of the backend or the store. *)
Theorem session_answers_every_line id inputs messages started s :
  run_session flavor inputs (session_new id) = (messages, started, Some s) ->
  (existsb is_panic (map fst inputs) = false ->
     response_ids messages ++ pending_ids s ≡ₚ concat (map input_ids (map fst inputs))) /\
  (length s.(se_pending) <= 32)%nat /\ NoDup (map t_id s.(se_pending)) /\
  (s.(se_hello) = false -> existsb is_event messages = false /\ started = []) /\
  Forall (fun t => t.(t_client) = s.(se_client) /\ id_ok t.(t_id) /\
    (supports flavor t.(t_method) = true \/ t.(t_method) ∈ STORE_METHODS)) started.
Proof.
  intros E. apply run_session_ok in E as [[Hh Hb Hnd _ _] _ Hbefore Htasks Hids]; [|apply session_new_ok].
  split_and!; try done; by apply Hbefore.
Qed.
End Facts.

(** A line before hello is refused, hello is answered, and two requests complete out of order. *)
Definition request_json (id method : string) (params : json) : json :=
  jobj [("v", jnum 1); ("id", Str id); ("type", Str "request"); ("method", Str method); ("params", params)].
Definition example_wire : Wire :=
  mkWire (fun s =>
      if String.eqb s "1" then Ok (request_json "a" "account.get" Null)
      else if String.eqb s "2" then
        Ok (request_json "b" "hello" (jobj [("client", Str "ui"); ("client_version", Str "1")]))
      else if String.eqb s "3" then Ok (request_json "c" "account.get" Null)
      else if String.eqb s "4" then Ok (request_json "d" "profiles.list" Null)
      else Err "expected value")
    (fun _ => "") (fun _ => "invalid type") (fun _ => Null).

Lemma session_answers_every_line_witness :
  let inputs := map (fun i => (i, StateSnapshot_default))
    [Line "1"; Line "{"; Line "2"; Line "3"; Line "4"; Completed 1 (Ok Null); StateChanged; Line "3"] in
  let '(messages, started, s) := @run_session example_wire Native inputs (session_new 7) in
  response_ids messages = [Some "a"; None; Some "b"; Some "d"; Some "c"] /\
  map t_client started = ["ui-session-7"; "ui-session-7"] /\
  match s with
  | Some s => response_ids messages ++ pending_ids s ≡ₚ concat (map (@input_ids example_wire) (map fst inputs))
  | None => False
  end.
Proof.
  intros inputs.
  destruct (@run_session example_wire Native inputs (session_new 7)) as [[messages started] s] eqn:E.
  destruct s as [s|]; [|exfalso; revert E; vm_compute; discriminate].
  pose proof (proj1 (@session_answers_every_line example_wire Native 7 inputs messages started s E) eq_refl) as H.
  split; [|split; [|exact H]].
  - revert E. vm_compute. by intros [= <- <- <-].
  - revert E. vm_compute. by intros [= <- <- <-].
Defined.
