(* ===== verification/Server.v ===== *)
(** The agent's socket server ([agent/src/server.rs]): taking over the socket, counting sessions, and
    exiting when idle.

    Times are milliseconds of the monotonic clock.  Sessions run beside the accept loop; the loop sees
    how many are active.  [usize] counters do not overflow. *)
From S2P Require Export Operations Io.
Open Scope string_scope.
Open Scope Z_scope.
Open Scope list_scope.
Open Scope rust_scope.

Definition IDLE_EXIT_AFTER : Z := 30 * 1000.

(** ** The socket *)
Inductive path_kind : Type :=
  | Missing
  | OtherFile
  (** A socket file, and whether a process is listening behind it. *)
  | SocketFile (listening : bool).

(** What [connect] finds: an answer, nobody, or another error. *)
Inductive probe : Type :=
  | ProbeAccepted
  | ProbeRefused
  | ProbeFailed.

Definition addr_in_use : io_error := io_other "another proton-omarchy-agent is already listening".
Definition not_a_socket : io_error := mkIoError AlreadyExists "refusing to replace non-socket path".

(** [bind_socket]: its result and the file at the path afterwards.  [bind_ok] and [chmod_ok] are the
    outcomes of the system calls. *)
Definition bind_socket (probed : probe) (remove_ok bind_ok chmod_ok : bool) (at_path : path_kind)
    : result unit io_error * path_kind :=
  let bind_now at_path :=
    match at_path with
    | Missing =>
        if negb bind_ok then (Err (io_other "bind"), Missing)
        else ((if chmod_ok : bool then Ok tt else Err (io_other "chmod")), SocketFile true)
    | _ => (Err (io_other "address in use"), at_path)
    end in
  match at_path with
  | Missing => bind_now Missing
  | OtherFile => (Err not_a_socket, OtherFile)
  | SocketFile _ =>
      match probed with
      | ProbeAccepted => (Err addr_in_use, at_path)
      | ProbeFailed => (Err (io_other "connect"), at_path)
      | ProbeRefused => if remove_ok then bind_now Missing else (Err (io_other "unlink"), at_path)
      end
  end.

(** The environment systemd leaves for an activated service; [fd_path] is the address of descriptor
    3. *)
Record activation : Type := mkActivation {
  listen_pid : option string;
  listen_fds : option string;
  fd_path : option string }.

Definition activated_socket (expected_path : string) (pid : Z) (a : activation) : result bool io_error :=
  match a.(listen_pid) with
  | None => Ok false
  | Some text =>
      let? listen_pid := ok_or (parse_uint 32 text) (mkIoError InvalidInput "LISTEN_PID is not a valid process ID") in
      if negb (listen_pid =? pid) then Ok false
      else if negb (unwrap_or (a.(listen_fds) ?> parse_uint 32) 0 =? 1)
      then Err (mkIoError InvalidInput "systemd activation requires exactly one listener")
      else if bool_decide (a.(fd_path) = Some expected_path) then Ok true
      else Err (mkIoError InvalidInput "activated socket path does not match PROTON_OMARCHY_SOCKET_PATH")
  end.

(** [SocketCleanup::drop]: only an agent-owned socket file is removed. *)
Definition cleanup (agent_owned : bool) (at_path : path_kind) : path_kind :=
  match at_path with SocketFile _ => if agent_owned then Missing else at_path | _ => at_path end.

(** ** The accept loop *)
Definition should_stay_resident (s : StateSnapshot) : bool :=
  s.(ss_store).(cs_start_with_omarchy)
  || (match s.(ss_connection).(cn_status) with
      | ConnectionStatus_Connecting | ConnectionStatus_Connected => true
      | _ => false
      end)
  || match s.(ss_operations).(os_active) with [] => false | _ => true end.

Record server : Type := mkServer {
  active_sessions : Z;
  idle_since : option Z }.

Inductive server_input : Type :=
  | Accepted
  | AcceptFailed (e : io_error)
  | SessionEnded
  | IdleTick (now : Z) (snapshot : StateSnapshot).

(** One turn of the loop: the next state, or the loop's result. *)
Definition serve_turn (i : server_input) (s : server) : server + result unit io_error :=
  match i with
  | Accepted => inl (mkServer (s.(active_sessions) + 1) None)
  | AcceptFailed e => inr (Err e)
  | SessionEnded => inl (mkServer (s.(active_sessions) - 1) s.(idle_since))
  | IdleTick now snapshot =>
      if (0 <? s.(active_sessions)) || should_stay_resident snapshot
      then inl (mkServer s.(active_sessions) None)
      else
        let since := unwrap_or s.(idle_since) now in
        if IDLE_EXIT_AFTER <=? now - since then inr (Ok tt)
        else inl (mkServer s.(active_sessions) (Some since))
  end.

Fixpoint serve_loop (inputs : list server_input) (s : server) : server + result unit io_error :=
  match inputs with
  | [] => inl s
  | i :: inputs =>
      match serve_turn i s with
      | inl s => serve_loop inputs s
      | inr r => inr r
      end
  end.

(** ** Lemmas *)

(** A turn during which the agent has nothing to do. *)
Definition idle_turn (since : Z) (i : server_input) : Prop :=
  match i with
  | Accepted | AcceptFailed _ => False
  | SessionEnded => True
  | IdleTick now snapshot => should_stay_resident snapshot = false
  end.

(** Since it was noted as idle, the agent has seen nothing but idle ticks. *)
Definition idle_history (history : list server_input) (s : server) : Prop :=
  match s.(idle_since) with
  | None => True
  | Some since =>
      exists before snapshot after, history = before ++ IdleTick since snapshot :: after /\
        should_stay_resident snapshot = false /\ Forall (idle_turn since) after
  end.

Lemma serve_turn_history history i s s' :
  idle_history history s -> serve_turn i s = inl s' -> idle_history (history ++ [i]) s'.
Proof.
  unfold idle_history. intros Hs. destruct i as [|e| |now snapshot]; simpl; [by intros [= <-]|discriminate| |].
  - intros [= <-]. simpl. destruct (idle_since s) as [since|]; [|done].
    destruct Hs as (before & snap & after & -> & Hr & Hf). exists before, snap, (after ++ [SessionEnded]).
    rewrite <- app_assoc. split_and!; [done..|]. apply Forall_app. split; [done|]. by apply Forall_singleton.
  - destruct (_ || _) eqn:E; [by intros [= <-]|]. apply orb_false_iff in E as [_ Er].
    destruct (IDLE_EXIT_AFTER <=? _); [discriminate|]. intros [= <-]. simpl.
    destruct (idle_since s) as [since|]; simpl.
    + destruct Hs as (before & snap & after & -> & Hr & Hf). exists before, snap, (after ++ [IdleTick now snapshot]).
      rewrite <- app_assoc. split_and!; [done..|]. apply Forall_app. split; [done|]. by apply Forall_singleton.
    + exists history, snapshot, []. split_and!; [done..|constructor].
Qed.

(** The server exits on its own only after thirty seconds during which every tick saw it idle: no
    session was accepted, none was active at the last tick, no tunnel was up, nothing in progress,
    and it is not meant to start with the desktop. *)
Lemma serve_exits_only_idle inputs now snapshot s :
  serve_loop inputs (mkServer 0 None) = inl s -> serve_turn (IdleTick now snapshot) s = inr (Ok tt) ->
  active_sessions s <= 0 /\ should_stay_resident snapshot = false /\
  exists since before first after, inputs = before ++ IdleTick since first :: after /\
    IDLE_EXIT_AFTER <= now - since /\ should_stay_resident first = false /\ Forall (idle_turn since) after.
Proof.
  intros Hl Ht. assert (Hh : idle_history inputs s).
  { enough (H : forall inputs history s0, idle_history history s0 -> serve_loop inputs s0 = inl s ->
      idle_history (history ++ inputs) s) by (by apply (H inputs [] (mkServer 0 None))).
    clear. intros inputs. induction inputs as [|i inputs IH]; intros history s0 Hs0; simpl.
    - intros [= ->]. by rewrite app_nil_r.
    - destruct (serve_turn i s0) as [s1|] eqn:E; [|discriminate]. intros H.
      replace (history ++ i :: inputs) with ((history ++ [i]) ++ inputs) by by rewrite <- app_assoc. eapply IH; [|done]. by eapply serve_turn_history. }
  simpl in Ht. destruct (_ || _) eqn:E; [discriminate|]. apply orb_false_iff in E as [Ha Hr].
  apply Z.ltb_ge in Ha. destruct (Z.leb_spec IDLE_EXIT_AFTER (now - unwrap_or (idle_since s) now)) as [Hi|]; [|discriminate].
  unfold idle_history in Hh. destruct (idle_since s) as [since|].
  - destruct Hh as (before & first & after & -> & Hf & Hall). split_and!; [done..|].
    by exists since, before, first, after.
  - unfold IDLE_EXIT_AFTER in Hi. simpl in Hi. lia.
Qed.

(** Taking over the socket never removes a file that is not a socket, nor a socket somebody answers. *)
Lemma bind_socket_safe probed remove_ok bind_ok chmod_ok at_path r after :
  bind_socket probed remove_ok bind_ok chmod_ok at_path = (r, after) ->
  (at_path = OtherFile -> after = OtherFile /\ is_ok r = false) /\
  (forall listening, at_path = SocketFile listening -> probed <> ProbeRefused -> after = at_path /\ is_ok r = false) /\
  (is_ok r = true -> after = SocketFile true).
Proof.
  unfold bind_socket. intros H.
  destruct at_path as [| |listening], probed, remove_ok, bind_ok, chmod_ok; simpl in H; injection H as <- <-;
    split_and!; naive_solver.
Qed.

(** ** The configuration ([config.rs])

    The environment is a function; a path is its text, absolute when it begins with a slash. *)
Definition SOCKET_FILE_NAME : string := "proton-omarchy.sock".
Definition INSTALLED_NOTIFICATION_COMMAND : string := "/usr/bin/omarchy-notification-send".
Definition INSTALLED_STATUS_ICON_DIR : string := "/usr/share/proton-vpn-omarchy/status".
Record Config : Type := mkConfig {
  socket_path : string;
  store_path : string;
  legacy_store_path : string;
  lifecycle_path : string;
  notification_command : string;
  status_icon_dir : string }.
Definition is_absolute (path : string) : bool := starts_with "/" path.
Definition absolute_path (value name : string) : result string io_error :=
  if is_absolute value then Ok value else Err (mkIoError InvalidInput (name +:+ " must be an absolute path")).
(** A variable that must be absolute when it is set. *)
Definition path_or (env : string -> option string) (name : string) (fallback : result string io_error) : result string io_error :=
  match env name with Some value => absolute_path value name | None => fallback end.
Definition home_directory (env : string -> option string) (missing : string) : result string io_error :=
  let? home := ok_or (env "HOME") (mkIoError NotFound missing) in absolute_path home "HOME".
Definition from_env (env : string -> option string) : result Config io_error :=
  let? runtime_dir := ok_or (env "XDG_RUNTIME_DIR") (mkIoError NotFound "XDG_RUNTIME_DIR is required; refusing an insecure /tmp fallback") in
  if negb (is_absolute runtime_dir) then Err (mkIoError InvalidInput "XDG_RUNTIME_DIR must be an absolute path")
  else
    let? socket_path := path_or env "PROTON_OMARCHY_SOCKET_PATH" (Ok (path_join runtime_dir SOCKET_FILE_NAME)) in
    let? data_home := path_or env "XDG_DATA_HOME"
      (let? home := home_directory env "HOME or XDG_DATA_HOME is required for the canonical store" in Ok (path_join home ".local/share")) in
    let? store_path := path_or env "PROTON_OMARCHY_STORE_PATH" (Ok (path_join data_home "proton-vpn-omarchy/state-v1.json")) in
    let legacy_store_path := path_join data_home "Proton VPN for Omarchy/Proton VPN/connection-store.json" in
    let? config_home := path_or env "XDG_CONFIG_HOME"
      (let? home := home_directory env "HOME or XDG_CONFIG_HOME is required for lifecycle settings" in Ok (path_join home ".config")) in
    let lifecycle_path := path_join config_home "proton-vpn-omarchy/lifecycle.json" in
    let? notification_command := path_or env "PROTON_OMARCHY_NOTIFICATION_COMMAND" (Ok INSTALLED_NOTIFICATION_COMMAND) in
    let? status_icon_dir := path_or env "PROTON_OMARCHY_STATUS_ICON_DIR" (Ok INSTALLED_STATUS_ICON_DIR) in
    Ok (mkConfig socket_path store_path legacy_store_path lifecycle_path notification_command status_icon_dir).

Lemma path_join_absolute directory name : is_absolute directory = true -> is_absolute (path_join directory name) = true.
Proof.
  unfold path_join, is_absolute. destruct directory as [|c directory]; [done|]. cbn [is_empty]. intros Hd.
  assert (Hc : forall s, starts_with "/" (String c s) = true) by (intros s; unfold starts_with in *; cbn [strip_prefix] in *; by destruct (Ascii.eqb _ c)).
  destruct (strip_prefix "/" _); apply Hc.
Qed.
Lemma path_or_absolute env name fallback path :
  (forall p, fallback = Ok p -> is_absolute p = true) -> path_or env name fallback = Ok path -> is_absolute path = true.
Proof.
  intros Hf. unfold path_or, absolute_path. destruct (env name) as [value|]; [|apply Hf]. destruct (is_absolute value) eqn:E; [|done]. by intros [= <-].
Qed.
Lemma home_absolute env missing home : home_directory env missing = Ok home -> is_absolute home = true.
Proof. unfold home_directory, absolute_path. destruct (env "HOME") as [h|]; [|done]. cbn. destruct (is_absolute h) eqn:E; [|done]. by intros [= <-]. Qed.

(** Every path the agent works with is absolute, whatever the environment holds: nothing depends on the directory it is
    started in. *)
Theorem config_paths_absolute env c : from_env env = Ok c ->
  forallb is_absolute [c.(socket_path); c.(store_path); c.(legacy_store_path); c.(lifecycle_path); c.(notification_command); c.(status_icon_dir)] = true.
Proof.
  unfold from_env. intros H. peel_all H. subst c. cbn [forallb socket_path store_path legacy_store_path lifecycle_path notification_command status_icon_dir].
  match goal with E : negb (is_absolute ?d) = false |- _ => apply negb_false_iff in E; rename E into Hrun end.
  assert (Hconst : forall s p, is_absolute s = true -> Ok (E := io_error) s = Ok p -> is_absolute p = true) by (by intros s p Hs [= <-]).
  assert (Hhome : forall missing name p, (let? home := home_directory env missing in Ok (path_join home name)) = Ok p -> is_absolute p = true).
  { intros missing name p Hp. destruct (home_directory env missing) as [home|] eqn:Eh; [|done]. injection Hp as <-.
    by eapply path_join_absolute, home_absolute. }
  repeat match goal with
  | E : path_or env _ _ = Ok ?p |- _ =>
      assert (is_absolute p = true) by
        (eapply path_or_absolute; [|exact E]; intros q Hq; first [by eapply Hhome|eapply Hconst; [|exact Hq]; first [by apply path_join_absolute|done]]);
      revert E
  end.
  intros. rewrite !path_join_absolute by done. by repeat match goal with Ha : is_absolute _ = true |- _ => rewrite Ha; clear Ha end.
Qed.
Definition demo_env (name : string) : option string :=
  if String.eqb name "XDG_RUNTIME_DIR" then Some "/run/user/1000" else if String.eqb name "HOME" then Some "/home/u" else None.
Lemma config_paths_absolute_witness : exists c, from_env demo_env = Ok c /\ is_absolute c.(socket_path) = true.
Proof.
  eexists. split; [vm_compute; reflexivity|].
  pose proof (config_paths_absolute demo_env _ eq_refl) as H. by apply andb_true_iff in H as [H _].
Defined.
