(* ===== verification/Autoconnect.v ===== *)
(** Connecting at start-up and at sign-in ([agent/src/autoconnect.rs]).

    The task runs beside the rest of the agent, so everything it looks at may change between two
    looks.  A [surroundings] value is one history of the published state, the store's switch, the
    answers of backend and store and the state changes that arrive during each sleep, all indexed by a
    clock that advances at every look.  The task is a function of that history; the cursor carries the
    clock and the log of what the task did. *)
From S2P Require Export Operations.
Open Scope string_scope.
Open Scope Z_scope.
Open Scope list_scope.
Open Scope rust_scope.

Definition AUTOCONNECT_CLIENT_ID : string := "agent-autoconnect".
Definition MAX_ATTEMPTS : nat := 8.

Inductive AttemptOutcome : Type :=
  | WaitingForAccount
  | Finished
  | Interrupted.

Record surroundings : Type := mkSurroundings {
  state_at : nat -> StateSnapshot;
  (** [store.auto_connect_enabled()]. *)
  enabled_at : nat -> bool;
  backend_at : nat -> string -> json -> BackendResult;
  store_at : nat -> string -> json -> BackendResult;
  (** How many state changes arrive before the sleep that starts at this time is over, and whether a
      notification says that the channel is closed. *)
  wakes_at : nat -> nat;
  closed_at : nat -> bool }.

Inductive auto_event : Type :=
  | AskedBackend (t : nat) (method : string) (params : json)
  | AskedStore (t : nat) (method : string) (params : json)
  | SleepStarted (seconds : Z).

Record cursor : Type := mkCursor {
  clock : nat;
  log : list auto_event }.

(** A program that looks around and acts. *)
Definition St (A : Type) : Type := cursor -> A * cursor.
Definition st_ret {A : Type} (a : A) : St A := fun c => (a, c).
Definition st_bind {A B : Type} (m : St A) (k : A -> St B) : St B := fun c => let '(a, c) := m c in k a c.
Notation "'let%' x ':=' m 'in' k" := (st_bind m (fun x => k))
  (at level 10, x name, m at level 100, k at level 200) : rust_scope.

Definition tick {A : Type} (f : nat -> A) : St A := fun c => (f c.(clock), mkCursor (S c.(clock)) c.(log)).
Definition note (e : auto_event) : St unit := fun c => (tt, mkCursor c.(clock) (c.(log) ++ [e])).

(** ** What the task looks at *)
Definition recent_operation_ids (s : StateSnapshot) : gset string :=
  list_to_set (map op_id s.(ss_operations).(os_recent)).

Definition user_interrupted (s : StateSnapshot) (initial : gset string) : bool :=
  connection_sequence_interrupted s initial AUTOCONNECT_CLIENT_ID.

Definition live (s : StateSnapshot) : bool :=
  match s.(ss_connection).(cn_status) with
  | ConnectionStatus_Connecting | ConnectionStatus_Connected => true
  | _ => false
  end.
Definition connected (s : StateSnapshot) : bool :=
  match s.(ss_connection).(cn_status) with ConnectionStatus_Connected => true | _ => false end.

Section Autoconnect.
Context (env : surroundings).

Definition look : St StateSnapshot := tick (state_at env).
Definition enabled : St bool := tick (enabled_at env).
Definition ask_backend (method : string) (params : json) : St BackendResult := fun c =>
  (env.(backend_at) c.(clock) method params,
   mkCursor (S c.(clock)) (c.(log) ++ [AskedBackend c.(clock) method params])).
Definition ask_store (method : string) (params : json) : St BackendResult := fun c =>
  (env.(store_at) c.(clock) method params,
   mkCursor (S c.(clock)) (c.(log) ++ [AskedStore c.(clock) method params])).

Definition logged_in (account : json) : bool := unwrap_or (jget "logged_in" account ?> as_bool) false.

(** [attempt_once]: its result and the flag [authenticated]. *)
Definition attempt_once (initial : gset string) (authenticated : bool)
    : St (result unit BackendError * bool) :=
  let% on := enabled in
  if negb on then st_ret (Ok tt, authenticated)
  else
    let% account := ask_backend "account.get" (jobj []) in
    match account with
    | Err error => st_ret (Err error, authenticated)
    | Ok account =>
        if negb (logged_in account) then st_ret (Ok tt, authenticated)
        else
          let% observed := ask_backend "connection.observe" (jobj []) in
          match observed with
          | Err error => st_ret (Err error, true)
          | Ok _ =>
              let% s := look in
              if live s then st_ret (Ok tt, true)
              else
                let% on := enabled in
                if negb on then st_ret (Ok tt, true)
                else
                  let% s := look in
                  if user_interrupted s initial then st_ret (Ok tt, true)
                  else
                    let% resolved := ask_store "connection.resolve" (jobj []) in
                    match resolved with
                    | Err error => st_ret (Err error, true)
                    | Ok resolved =>
                        let% r := ask_backend "connection.connect"
                                    (unwrap_or (jget "connect_params" resolved) (jobj [])) in
                        match r with
                        | Err error => st_ret (Err error, true)
                        | Ok _ =>
                            match jget "recent" resolved with
                            | Some recent =>
                                let% _ := ask_store "recents.record" (jobj [("recent", recent)]) in
                                st_ret (Ok tt, true)
                            | None => st_ret (Ok tt, true)
                            end
                        end
                    end
          end
    end.

(** [(5 << index).min(60)] seconds. *)
Definition retry_delay (index : nat) : Z := Z.min (Z.shiftl 5 (Z.of_nat index)) 60.

(** The wait between two attempts, through [wakes] state changes; [None] when the sleep is over. *)
Fixpoint wait (initial : gset string) (wakes : nat) : St (option AttemptOutcome) :=
  let% s := look in
  if user_interrupted s initial then st_ret (Some Interrupted)
  else
    let% on := enabled in
    if negb on then st_ret (Some Finished)
    else
      let% s := look in
      if connected s then st_ret (Some Finished)
      else
        match wakes with
        | O => st_ret None
        | S wakes =>
            let% closed := tick (closed_at env) in
            if closed : bool then st_ret (Some Finished) else wait initial wakes
        end.

Definition is_retryable (r : result unit BackendError) : bool :=
  match r with Err error => error.(err_retryable) | Ok _ => false end.
Definition is_cancelled (r : result unit BackendError) : bool :=
  match r with Err error => is_cancelled_error error.(err_code) | Ok _ => false end.

Definition over (authenticated : bool) : AttemptOutcome :=
  if authenticated then Finished else WaitingForAccount.

(** The loop of [attempt] with [left] attempts left. *)
Fixpoint attempts (initial : gset string) (authenticated : bool) (left : nat) : St AttemptOutcome :=
  match left with
  | O => st_ret (over authenticated)
  | S rest =>
      let% s := look in
      if user_interrupted s initial then st_ret Interrupted
      else
        let% on := enabled in
        if negb on then st_ret (over authenticated)
        else
          let% ra := attempt_once initial authenticated in
          let% s := look in
          if user_interrupted s initial then st_ret Interrupted
          else if is_cancelled ra.1 then st_ret Interrupted
          else if negb (is_retryable ra.1) || bool_decide (rest = 0%nat) then st_ret (over ra.2)
          else
            let% _ := note (SleepStarted (retry_delay (MAX_ATTEMPTS - left))) in
            let% wakes := tick (wakes_at env) in
            let% stop := wait initial wakes in
            match stop with
            | Some outcome => st_ret outcome
            | None => attempts initial ra.2 rest
            end
  end.

Definition attempt (initial : gset string) : St AttemptOutcome := attempts initial false MAX_ATTEMPTS.

(** ** The task *)
Record watcher : Type := mkWatcher {
  previous_auto_connect : bool;
  previous_account : AccountStatus;
  user_stopped : bool;
  initial_operations : gset string }.

Definition signed_in (a : AccountStatus) : bool := bool_decide (a = AccountStatus_SignedIn).

(** The start of [run]. *)
Definition start : St watcher :=
  let% auto := enabled in
  let% s := look in
  let account := s.(ss_account).(acc_status) in
  let% s := look in
  let initial := recent_operation_ids s in
  let% on := enabled in
  if negb on then st_ret (mkWatcher auto account false initial)
  else
    let% outcome := attempt initial in
    match outcome with
    | Finished => let% s := look in st_ret (mkWatcher auto s.(ss_account).(acc_status) false initial)
    | Interrupted => st_ret (mkWatcher auto account true initial)
    | WaitingForAccount => st_ret (mkWatcher auto account false initial)
    end.

(** The decision on a state change: the new bookkeeping and whether to attempt a connection. *)
Definition decide_change (s : StateSnapshot) (w : watcher) : watcher * bool :=
  let auto := s.(ss_store).(cs_auto_connect) in
  let account := s.(ss_account).(acc_status) in
  let enabled_now := auto && negb w.(previous_auto_connect) in
  let session_became_ready := auto && signed_in account && negb (signed_in w.(previous_account)) in
  let stopped := w.(user_stopped) || user_interrupted s w.(initial_operations) in
  let stopped := negb enabled_now && stopped in
  let initial := if enabled_now then recent_operation_ids s else w.(initial_operations) in
  (mkWatcher auto account stopped initial, enabled_now || (session_became_ready && negb stopped)).

Definition on_change (w : watcher) : St watcher :=
  let% s := look in
  let '(w, go) := decide_change s w in
  if go : bool then
    let% outcome := attempt w.(initial_operations) in
    let stopped := match outcome with Interrupted => true | _ => w.(user_stopped) end in
    let% auto := enabled in
    let% s := look in
    st_ret (mkWatcher auto s.(ss_account).(acc_status) stopped w.(initial_operations))
  else st_ret w.

(** [run] through [n] state changes. *)
Fixpoint changes (n : nat) (w : watcher) : St watcher :=
  match n with
  | O => st_ret w
  | S n => let% w := on_change w in changes n w
  end.

Definition run (n : nat) : St watcher := let% w := start in changes n w.
End Autoconnect.

(** ** What the task may do *)
Section Facts.
Context (env : surroundings).

(** A connection is requested only in this situation: six looks in a row, the last one before the
    request, saw the switch on, a signed-in account, an answer to [connection.observe], no live
    tunnel, the switch still on and no interruption by the user; and the parameters are the ones the
    store resolved. *)
Definition connect_allowed (initial : gset string) (t : nat) (params : json) : Prop :=
  exists t0 account resolved,
    t = (7 + t0)%nat /\ env.(enabled_at) t0 = true /\
    env.(backend_at) (1 + t0) "account.get" (jobj []) = Ok account /\ logged_in account = true /\
    is_ok (env.(backend_at) (2 + t0) "connection.observe" (jobj [])) = true /\
    live (env.(state_at) (3 + t0)) = false /\ env.(enabled_at) (4 + t0) = true /\
    user_interrupted (env.(state_at) (5 + t0)) initial = false /\
    env.(store_at) (6 + t0) "connection.resolve" (jobj []) = Ok resolved /\
    params = unwrap_or (jget "connect_params" resolved) (jobj []).

Definition is_connect (e : auto_event) : bool :=
  match e with AskedBackend _ method _ => String.eqb method "connection.connect" | _ => false end.
Definition connects (l : list auto_event) : nat := length (retain is_connect l).
Definition sleeps (l : list auto_event) : list Z :=
  filter_map (fun e => match e with SleepStarted s => Some s | _ => None end) l.

Definition event_allowed (initial : gset string) (e : auto_event) : Prop :=
  match e with
  | AskedBackend t method params => method = "connection.connect" -> connect_allowed initial t params
  | _ => True
  end.

(** Running [m] only appends to the log, and what it appends satisfies [Q]. *)
Definition appends {A : Type} (Q : list auto_event -> Prop) (m : St A) : Prop :=
  forall c, exists l, (m c).2.(log) = c.(log) ++ l /\ Q l.

Lemma appends_nil {A : Type} (Q : list auto_event -> Prop) (m : St A) :
  (forall c, (m c).2.(log) = c.(log)) -> Q [] -> appends Q m.
Proof. intros H HQ c. exists []. by rewrite app_nil_r. Qed.

Lemma appends_bind {A B : Type} (P Q R : list auto_event -> Prop) (m : St A) (k : A -> St B) :
  appends P m -> (forall a, appends Q (k a)) -> (forall l l', P l -> Q l' -> R (l ++ l')) ->
  appends R (st_bind m k).
Proof.
  intros Hm Hk HR c. unfold st_bind. destruct (Hm c) as (l & Hl & HP). destruct (m c) as [a c1]. simpl in Hl.
  destruct (Hk a c1) as (l' & Hl' & HQ). exists (l ++ l'). split; [|by apply HR]. by rewrite Hl', Hl, app_assoc.
Qed.

(** Looks leave the log alone. *)
Lemma appends_look {A B : Type} Q (f : nat -> A) (k : A -> St B) :
  (forall a, appends Q (k a)) -> appends Q (st_bind (tick f) k).
Proof. intros Hk c. apply (Hk (f (clock c)) (mkCursor (S (clock c)) (log c))). Qed.

(** One attempt asks for at most one connection, and only when it is allowed; it never sleeps. *)
Definition attempt_log (initial : gset string) (l : list auto_event) : Prop :=
  Forall (event_allowed initial) l /\ (connects l <= 1)%nat /\ sleeps l = [].

Ltac log_entry :=
  lazymatch goal with
  | |- event_allowed _ (AskedBackend _ _ _) => simpl; let H := fresh in intros H; first [discriminate H|clear H]
  | |- event_allowed _ _ => exact I
  end.
Ltac log_end :=
  eexists; split; [rewrite <- ?app_assoc; reflexivity|];
  split_and!; [repeat (apply Forall_cons; split; [log_entry|]); try (by apply Forall_nil)|unfold connects; simpl; lia|reflexivity].

Ltac red_st := cbn beta iota zeta delta [clock log negb fst snd].

Lemma attempt_once_log initial authenticated : appends (attempt_log initial) (attempt_once env initial authenticated).
Proof.
  intros [t lg]. unfold attempt_once, enabled, look, tick, ask_backend, ask_store, st_bind, st_ret. red_st.
  destruct (enabled_at env t) eqn:E0; red_st; [|exists []; rewrite app_nil_r; split; [done|]; split_and!; [by apply Forall_nil|unfold connects; simpl; lia|done]].
  destruct (backend_at env (S t) "account.get" (jobj [])) as [account|] eqn:E1; red_st; [|log_end].
  destruct (logged_in account) eqn:E1'; red_st; [|log_end].
  destruct (backend_at env (S (S t)) "connection.observe" (jobj [])) as [obs|] eqn:E2; red_st; [|log_end].
  destruct (live (state_at env (S (S (S t))))) eqn:E3; red_st; [log_end|].
  destruct (enabled_at env (S (S (S (S t))))) eqn:E4; red_st; [|log_end].
  destruct (user_interrupted _ initial) eqn:E5; red_st; [log_end|].
  destruct (store_at env _ "connection.resolve" _) as [resolved|] eqn:E6; red_st; [|log_end].
  assert (Hc : connect_allowed initial (7 + t) (unwrap_or (jget "connect_params" resolved) (jobj []))).
  { exists t, account, resolved. change (2 + t)%nat with (S (S t)). rewrite E2. by split_and!. }
  destruct (backend_at env _ "connection.connect" _) as [r|]; red_st; [|log_end; exact Hc].
  destruct (jget "recent" resolved); red_st; log_end; exact Hc.
Qed.

Lemma wait_log initial wakes : appends (fun l => l = []) (wait env initial wakes).
Proof.
  apply appends_nil; [|done]. induction wakes as [|wakes IH]; intros [t lg]; cbn [wait];
    unfold st_bind, look, enabled, tick; red_st;
    destruct (user_interrupted (state_at env t) initial); red_st; try done; destruct (enabled_at env (S t)); red_st; try done;
    destruct (connected _); red_st; try done. destruct (closed_at env _); [done|]. apply IH.
Qed.

Lemma connects_app l l' : connects (l ++ l') = (connects l + connects l')%nat.
Proof. unfold connects. induction l as [|e l IH]; [done|]. simpl. destruct (is_connect e); simpl; lia. Qed.
Lemma sleeps_app l l' : sleeps (l ++ l') = sleeps l ++ sleeps l'.
Proof. unfold sleeps. induction l as [|e l IH]; [done|]. simpl. rewrite IH. by destruct e. Qed.

(** The log of a sequence of attempts with [left] left. *)
Definition attempts_log (initial : gset string) (left : nat) (l : list auto_event) : Prop :=
  Forall (event_allowed initial) l /\ (connects l <= left)%nat /\
  sleeps l `prefix_of` map retry_delay (seq (MAX_ATTEMPTS - left) (left - 1)).

Lemma attempts_log_nil initial left : attempts_log initial left [].
Proof. split_and!; [by apply Forall_nil|unfold connects; simpl; lia|apply prefix_nil]. Qed.

Lemma attempts_ok initial authenticated left :
  (left <= MAX_ATTEMPTS)%nat -> appends (attempts_log initial left) (attempts env initial authenticated left).
Proof.
  revert authenticated. induction left as [|rest IH]; intros authenticated Hl.
  { apply appends_nil; [done|apply attempts_log_nil]. }
  cbn [attempts]. apply appends_look. intros s.
  destruct (user_interrupted s initial); [by apply appends_nil, attempts_log_nil|].
  apply appends_look. intros on. destruct on; cbn [negb]; [|by apply appends_nil, attempts_log_nil].
  eapply (appends_bind (attempt_log initial) (fun l => l = [] \/
    exists l', l = SleepStarted (retry_delay (MAX_ATTEMPTS - S rest)) :: l' /\ (1 <= rest)%nat /\ attempts_log initial rest l'));
    [apply attempt_once_log| |].
  - intros [r authenticated']. apply appends_look. intros s'. cbn [fst snd].
    destruct (user_interrupted s' initial); [apply appends_nil; [done|by left]|].
    destruct (is_cancelled r); [apply appends_nil; [done|by left]|].
    destruct (_ || _) eqn:Er; [apply appends_nil; [done|by left]|].
    apply orb_false_iff in Er as [_ Er]. apply bool_decide_eq_false in Er.
    eapply (appends_bind (fun l => l = [SleepStarted (retry_delay (MAX_ATTEMPTS - S rest))])
      (attempts_log initial rest)); [|intros _|].
    + intros c. by eexists.
    + apply appends_look. intros wakes. eapply appends_bind; [apply wait_log| |].
      * intros [outcome|]; [by apply appends_nil, attempts_log_nil|]. apply IH. lia.
      * by intros l l' ->.
    + intros l l' -> Hl'. right. exists l'. split_and!; [done|lia|done].
  - intros l l' (H1 & H2 & H3) [->|(l'' & -> & Hr & H4 & H5 & H6)].
    { rewrite app_nil_r. split_and!; [done|lia|]. rewrite H3. apply prefix_nil. }
    split_and!.
    + apply Forall_app. split; [done|]. by constructor.
    + rewrite connects_app. change (connects (SleepStarted _ :: l'')) with (connects l''). lia.
    + rewrite sleeps_app, H3. cbn [app]. destruct rest as [|rest]; [lia|].
      replace (S (S rest) - 1)%nat with (S rest) by lia. cbn [seq map].
      replace (sleeps (SleepStarted (retry_delay (MAX_ATTEMPTS - S (S rest))) :: l''))
        with (retry_delay (MAX_ATTEMPTS - S (S rest)) :: sleeps l'') by done.
      apply prefix_cons. replace (S (MAX_ATTEMPTS - S (S rest)))%nat with (MAX_ATTEMPTS - S rest)%nat by lia.
      replace (S rest - 1)%nat with rest in H6 by lia. exact H6.
Qed.

(** A stopped task does nothing at a state change that does not switch automatic connection on. *)
Lemma stopped_change w t lg :
  user_stopped w = true ->
  (cs_auto_connect (ss_store (state_at env t)) = true -> previous_auto_connect w = true) ->
  exists w', on_change env w (mkCursor t lg) = (w', mkCursor (S t) lg) /\ user_stopped w' = true /\
    previous_auto_connect w' = cs_auto_connect (ss_store (state_at env t)).
Proof.
  intros Hs Hp. unfold on_change, st_bind, look, tick. cbn [clock log]. unfold decide_change.
  rewrite Hs. cbn [orb]. destruct (cs_auto_connect _) eqn:Ea.
  - rewrite Hp by done. cbn [andb negb orb]. rewrite andb_false_r. eexists. by split_and!.
  - cbn [andb negb orb]. eexists. by split_and!.
Qed.

Lemma stopped_changes n w t lg :
  user_stopped w = true ->
  (forall i, (i < n)%nat -> cs_auto_connect (ss_store (state_at env (t + i))) = true ->
     match i with
     | O => previous_auto_connect w = true
     | S j => cs_auto_connect (ss_store (state_at env (t + j))) = true
     end) ->
  (changes env n w (mkCursor t lg)).2 = mkCursor (t + n) lg.
Proof.
  revert w t. induction n as [|n IH]; intros w t Hs Hp; cbn [changes].
  { simpl. by rewrite Nat.add_0_r. }
  unfold st_bind. destruct (stopped_change w t lg Hs) as (w' & -> & Hs' & Ha').
  { intros H. apply (Hp 0%nat ltac:(lia)). by rewrite Nat.add_0_r. }
  rewrite (IH w' (S t) Hs'); [f_equal; lia|].
  intros i Hi. specialize (Hp (S i) ltac:(lia)). replace (t + S i)%nat with (S t + i)%nat in Hp by lia.
  intros H. specialize (Hp H). destruct i as [|j]; [by rewrite Ha'; rewrite Nat.add_0_r in Hp|].
  by replace (S t + j)%nat with (t + S j)%nat by lia.
Qed.

(** *** What the user's interruption does *)

(** An attempt that is not interrupted has looked, shortly before its end, and seen no interruption. *)
Definition looked {A : Type} (initial : gset string) (within : nat) (m : St A) (given_up : A -> Prop) : Prop :=
  forall c, let '(a, c') := m c in given_up a \/
    exists t, (c.(clock) <= t /\ t < c'.(clock) /\ c'.(clock) <= t + within)%nat /\
      user_interrupted (env.(state_at) t) initial = false.
(** The clock only advances. *)
Definition advances {A : Type} (m : St A) : Prop := forall c, (c.(clock) <= (m c).2.(clock))%nat.

Lemma advances_ret {A : Type} (a : A) : advances (st_ret a).
Proof. by intros c. Qed.
Lemma advances_tick {A : Type} (f : nat -> A) : advances (tick f).
Proof. intros c. simpl. lia. Qed.
Lemma advances_backend method params : advances (ask_backend env method params).
Proof. intros c. simpl. lia. Qed.
Lemma advances_store method params : advances (ask_store env method params).
Proof. intros c. simpl. lia. Qed.
Lemma advances_note e : advances (note e).
Proof. by intros c. Qed.
Lemma advances_bind {A B : Type} (m : St A) (k : A -> St B) : advances m -> (forall a, advances (k a)) -> advances (st_bind m k).
Proof.
  intros Hm Hk c. unfold st_bind. specialize (Hm c). destruct (m c) as [a c1]. cbn in Hm. specialize (Hk a c1). lia.
Qed.
Ltac advance := repeat first
  [ apply advances_ret | apply advances_tick | apply advances_backend | apply advances_store | apply advances_note
  | apply advances_bind; [|intros ?] | match goal with |- advances (if ?b then _ else _) => destruct b
  | |- advances (match ?b with _ => _ end) => destruct b end ].
Lemma attempt_once_advances initial authenticated : advances (attempt_once env initial authenticated).
Proof. unfold attempt_once, enabled, look. advance. Qed.

Definition interrupted_outcome (o : AttemptOutcome) : Prop := o = Interrupted.
Lemma wait_looked initial wakes :
  looked initial 4 (wait env initial wakes) (fun o => o = Some Interrupted).
Proof.
  induction wakes as [|wakes IH]; intros [t lg]; cbn [wait]; unfold st_bind, look, enabled, tick; red_st;
    (destruct (user_interrupted (state_at env t) initial) eqn:E; red_st; [by left|]);
    (destruct (enabled_at env (S t)); red_st; [|right; exists t; simpl; split; [lia|done]]);
    (destruct (connected _); red_st; [right; exists t; simpl; split; [lia|done]|]);
    [right; exists t; simpl; split; [lia|done]|].
  destruct (closed_at env _); [right; exists t; simpl; split; [lia|done]|].
  specialize (IH (mkCursor (S (S (S (S t)))) lg)). destruct (wait env initial wakes _) as [o c'].
  destruct IH as [H|(t' & Ht & H)]; [by left|right]. exists t'. cbn [clock] in *. split; [lia|done].
Qed.

(** After its first turn, at least: the first look of all may already end it. *)
Lemma attempts_looked initial authenticated left :
  (1 <= left <= MAX_ATTEMPTS)%nat -> looked initial 4 (attempts env initial authenticated left) interrupted_outcome.
Proof.
  revert authenticated. induction left as [|rest IH]; intros authenticated Hl [t lg]; [lia|].
  cbn [attempts]. unfold st_bind at 1, look, tick. red_st.
  destruct (user_interrupted (state_at env t) initial) eqn:E0; red_st; [by left|].
  unfold st_bind at 1, enabled, tick. red_st.
  destruct (enabled_at env (S t)); red_st; [|right; exists t; simpl; split; [lia|done]].
  unfold st_bind at 1. pose proof (attempt_once_advances initial authenticated (mkCursor (S (S t)) lg)) as Ha.
  destruct (attempt_once env initial authenticated _) as [[r authenticated'] [t1 lg1]]. cbn [fst snd clock] in *.
  unfold st_bind at 1, tick. red_st.
  destruct (user_interrupted (state_at env t1) initial) eqn:E1; red_st; [by left|].
  destruct (is_cancelled r); [by left|].
  destruct (_ || _) eqn:Er; [right; exists t1; simpl; split; [lia|done]|].
  apply orb_false_iff in Er as [_ Er]. apply bool_decide_eq_false in Er.
  unfold st_bind at 1, note. red_st. unfold st_bind at 1, tick. red_st. unfold st_bind at 1.
  match goal with |- context [wait env initial ?n ?c0] => pose proof (wait_looked initial n c0) as Hw; destruct (wait env initial n c0) as [stop [t2 lg2]] end.
  cbn [fst snd clock] in Hw. destruct stop as [outcome|].
  - destruct Hw as [[= ->]|(t' & Ht & H)]; [by left|right]. exists t'. simpl. split; [lia|done].
  - destruct Hw as [[=]|(t' & Ht & _)]. specialize (IH authenticated' ltac:(lia) (mkCursor t2 lg2)).
    destruct (attempts env initial authenticated' rest _) as [o c']. destruct IH as [H|(t3 & Ht3 & H)]; [by left|right].
    exists t3. cbn [clock] in *. split; [lia|done].
Qed.

(** A connection that was answered with a cancellation. *)
Definition cancelled_event (e : auto_event) : Prop :=
  match e with
  | AskedBackend t method params =>
      method = "connection.connect" /\ exists error, env.(backend_at) t method params = Err error /\ is_cancelled_error error.(err_code) = true
  | _ => False
  end.
(** What [m] appends holds such an answer only if it has given up. *)
Definition heeds {A : Type} (m : St A) (given_up : A -> Prop) : Prop :=
  forall c, let '(a, c') := m c in exists l, c'.(log) = c.(log) ++ l /\ (Exists cancelled_event l -> given_up a).
Ltac heed := eexists; split; [rewrite <- ?app_assoc; reflexivity|];
  cbn [app]; rewrite ?Exists_cons, ?Exists_nil; cbn [cancelled_event]; intros H; repeat destruct H as [H|H]; try done;
  destruct H as (H1 & error' & H2 & H3); try discriminate H1.
Lemma attempt_once_heeds initial authenticated :
  heeds (attempt_once env initial authenticated) (fun ra => is_cancelled ra.1 = true).
Proof.
  intros [t lg]. unfold attempt_once, enabled, look, tick, ask_backend, ask_store, st_bind, st_ret. red_st.
  destruct (enabled_at env t); red_st; [|exists []; rewrite app_nil_r; split; [done|by rewrite Exists_nil]].
  destruct (backend_at env (S t) "account.get" (jobj [])) as [account|]; red_st; [|heed].
  destruct (logged_in account); red_st; [|heed].
  destruct (backend_at env (S (S t)) "connection.observe" (jobj [])) as [obs|]; red_st; [|heed].
  destruct (live (state_at env (S (S (S t))))); red_st; [heed|].
  destruct (enabled_at env (S (S (S (S t))))); red_st; [|heed].
  destruct (user_interrupted _ initial); red_st; [heed|].
  destruct (store_at env _ "connection.resolve" _) as [resolved|]; red_st; [|heed].
  destruct (backend_at env _ "connection.connect" _) as [r|e] eqn:E; red_st.
  - destruct (jget "recent" resolved); red_st; heed; congruence.
  - heed. rewrite E in H2. injection H2 as <-. exact H3.
Qed.
Lemma attempts_heeds initial authenticated left :
  (left <= MAX_ATTEMPTS)%nat -> heeds (attempts env initial authenticated left) interrupted_outcome.
Proof.
  revert authenticated. induction left as [|rest IH]; intros authenticated Hl [t lg].
  { exists []. rewrite app_nil_r. split; [done|by rewrite Exists_nil]. }
  cbn [attempts]. unfold st_bind at 1, look, tick. red_st.
  destruct (user_interrupted (state_at env t) initial); red_st; [by exists []; rewrite app_nil_r|].
  unfold st_bind at 1, enabled, tick. red_st.
  destruct (enabled_at env (S t)); red_st; [|exists []; rewrite app_nil_r; split; [done|by rewrite Exists_nil]].
  unfold st_bind at 1. pose proof (attempt_once_heeds initial authenticated (mkCursor (S (S t)) lg)) as Ho.
  destruct (attempt_once env initial authenticated _) as [[r authenticated'] [t1 lg1]]. destruct Ho as (l & Hl1 & Hh). cbn [fst snd clock log] in *. subst lg1.
  unfold st_bind at 1, tick. red_st.
  destruct (user_interrupted (state_at env t1) initial); red_st; [by exists l|].
  destruct (is_cancelled r) eqn:Ec; [by exists l|].
  assert (Hno : ~ Exists cancelled_event l) by (intros H; by specialize (Hh H)).
  destruct (_ || _) eqn:Er; [by exists l|].
  unfold st_bind at 1, note. red_st. unfold st_bind at 1, tick. red_st. unfold st_bind at 1.
  match goal with |- context [wait env initial ?n ?c0] => destruct (wait_log initial n c0) as (l0 & Hl0 & ->); destruct (wait env initial n c0) as [stop [t2 lg2]] end.
  cbn [fst snd clock log] in Hl0. rewrite app_nil_r in Hl0. subst lg2.
  set (sleep := SleepStarted _). assert (Hno' : ~ Exists cancelled_event (l ++ [sleep])).
  { intros [H|H]%Exists_app; [done|]. by apply Exists_cons in H as [H|H%Exists_nil]. }
  destruct stop as [outcome|].
  { exists (l ++ [sleep]). simpl. rewrite app_assoc. split; [done|]. intros H. by destruct (Hno' H). }
  specialize (IH authenticated' ltac:(lia) (mkCursor t2 ((lg ++ l) ++ [sleep]))).
  destruct (attempts env initial authenticated' rest _) as [o c']. destruct IH as (l2 & Hl2 & Hh2).
  exists ((l ++ [sleep]) ++ l2). rewrite Hl2. cbn [log]. split; [by rewrite !app_assoc|].
  intros [H|H]%Exists_app; [by destruct (Hno' H)|by apply Hh2].
Qed.

(** The switch does not go from off to on in the next [n] state changes. *)
Definition stays_off (n : nat) (w : watcher) (t : nat) : Prop :=
  forall i, (i < n)%nat -> cs_auto_connect (ss_store (state_at env (t + i))) = true ->
    match i with
    | O => previous_auto_connect w = true
    | S j => cs_auto_connect (ss_store (state_at env (t + j))) = true
    end.
(** From here on the task asks nobody anything and never sleeps, until the switch goes from off to on. *)
Definition silent (w : watcher) (c : cursor) : Prop :=
  forall n, stays_off n w c.(clock) -> (changes env n w c).2 = mkCursor (c.(clock) + n) c.(log).
Lemma stopped_silent w c : user_stopped w = true -> silent w c.
Proof. intros Hs n Hn. destruct c as [t lg]. by apply stopped_changes. Qed.

(** Between two moments the user took the connection over: an interruption was published at the end of this time, or a
    connection that the task asked for was cancelled. *)
Definition told_off (initial : gset string) (from : nat) (l : list auto_event) (till : nat) : Prop :=
  (forall t, (from <= t)%nat -> (t < till)%nat -> (till <= t + 6)%nat -> user_interrupted (env.(state_at) t) initial = true) \/
  Exists cancelled_event l.

Lemma attempt_told_off initial c l :
  (attempt env initial c).2.(log) = c.(log) ++ l ->
  forall till, ((attempt env initial c).2.(clock) <= till)%nat -> (till <= (attempt env initial c).2.(clock) + 2)%nat ->
  told_off initial c.(clock) l till -> (attempt env initial c).1 = Interrupted.
Proof.
  intros Hl till H1 H2 Htold.
  pose proof (attempts_looked initial false MAX_ATTEMPTS ltac:(unfold MAX_ATTEMPTS; lia) c) as Ha.
  pose proof (attempts_heeds initial false MAX_ATTEMPTS ltac:(lia) c) as Hb. fold (attempt env initial) in Ha, Hb.
  destruct (attempt env initial c) as [o c']. cbn [fst snd] in *. destruct Ha as [H|(t & Ht & H)]; [done|].
  destruct Htold as [Htold|Htold]; [rewrite Htold in H; [done|lia..]|].
  destruct Hb as (l' & Hl' & Hh). apply Hh. rewrite Hl' in Hl. by apply app_inv_head in Hl as <-.
Qed.

(** One state change of a task that already runs. *)
Definition switched_on (s : StateSnapshot) (w : watcher) : bool :=
  s.(ss_store).(cs_auto_connect) && negb w.(previous_auto_connect).
Lemma change_told_off w c :
  let '(w', c') := on_change env w c in
  let s := env.(state_at) c.(clock) in
  let initial := if switched_on s w then recent_operation_ids s else w.(initial_operations) in
  exists l, c'.(log) = c.(log) ++ l /\
  (switched_on s w = false -> user_stopped w || user_interrupted s w.(initial_operations) = true ->
     l = [] /\ c'.(clock) = S c.(clock) /\ silent w' c') /\
  (switched_on s w = true \/ l <> [] -> told_off initial (S c.(clock)) l c'.(clock) -> silent w' c').
Proof.
  destruct c as [t lg]. cbn [clock log]. unfold on_change, st_bind at 1, look, tick. cbn [clock log]. fold (tick (state_at env)).
  set (s := state_at env t). unfold decide_change, switched_on. set (on := cs_auto_connect (ss_store s) && negb (previous_auto_connect w)).
  set (initial := if on then recent_operation_ids s else initial_operations w). cbv iota beta zeta.
  set (stopped := negb on && (user_stopped w || user_interrupted s (initial_operations w))).
  set (go := on || _). destruct go eqn:Ego.
  - unfold st_bind at 1. cbn [initial_operations user_stopped].
    destruct (attempts_ok initial false MAX_ATTEMPTS ltac:(done) (mkCursor (S t) lg)) as (l & Hl & _). fold (attempt env initial) in Hl.
    pose proof (attempt_told_off initial (mkCursor (S t) lg) l Hl) as Ht.
    destruct (attempt env initial (mkCursor (S t) lg)) as [outcome [t1 lg1]]. cbn [fst snd clock log] in *. subst lg1.
    unfold st_bind, enabled, tick, st_ret. cbn [clock log]. exists l. split; [done|]. split.
    + intros Hon Hst. exfalso. unfold go, stopped in Ego. rewrite Hon, Hst in Ego. cbn in Ego. by rewrite andb_false_r in Ego.
    + intros _ Htold. apply stopped_silent. cbn [user_stopped]. rewrite (Ht (S (S t1))); [done|lia|lia|done].
  - unfold st_ret. cbn [clock log]. exists []. rewrite app_nil_r. split; [done|]. split.
    + intros Hon Hst. split; [done|]. split; [done|]. apply stopped_silent. cbn [user_stopped]. unfold stopped. by rewrite Hon, Hst.
    + intros [Hon|Hl] _; [|done]. unfold go in Ego. by rewrite Hon in Ego.
Qed.

(** The start of the task, when the switch is on. *)
Lemma start_told_off c :
  env.(enabled_at) (3 + c.(clock)) = true ->
  let '(w, c') := start env c in
  exists l, c'.(log) = c.(log) ++ l /\
    (told_off (recent_operation_ids (env.(state_at) (2 + c.(clock)))) (4 + c.(clock)) l c'.(clock) -> silent w c').
Proof.
  destruct c as [t lg]. cbn [clock log]. intros Hon. unfold start, st_bind at 1 2 3 4, enabled, look, tick. cbn [clock log].
  change (enabled_at env (S (S (S t))) = true) in Hon. rewrite Hon. cbn [negb]. set (initial := recent_operation_ids (state_at env (S (S t)))).
  destruct (attempts_ok initial false MAX_ATTEMPTS ltac:(done) (mkCursor (S (S (S (S t)))) lg)) as (l & Hl & _). fold (attempt env initial) in Hl.
  pose proof (attempt_told_off initial (mkCursor (S (S (S (S t)))) lg) l Hl) as Ht. unfold st_bind at 1.
  destruct (attempt env initial (mkCursor (S (S (S (S t)))) lg)) as [outcome [t1 lg1]]. cbn [fst snd clock log] in *. subst lg1.
  destruct outcome; unfold st_bind, st_ret; cbn [clock log]; exists l; (split; [done|]); intros Htold.
  - discriminate (Ht t1 ltac:(lia) ltac:(lia) Htold).
  - discriminate (Ht (S t1) ltac:(lia) ltac:(lia) Htold).
  - by apply stopped_silent.
Qed.

End Facts.

(** A retryable failure, then success; and a stopped task. *)
Definition example_surroundings : surroundings :=
  mkSurroundings (fun _ => StateSnapshot_default) (fun _ => true)
    (fun t method _ =>
       if String.eqb method "account.get" then Ok (jobj [("logged_in", Bool true)])
       else if String.eqb method "connection.connect" then
         (if (t <? 10)%nat then Err (retryable true (BackendError_new "network" "no route")) else Ok Null)
       else Ok Null)
    (fun _ _ _ => Ok (jobj [("connect_params", jobj [("target", Str "CH")])])) (fun _ => 0%nat) (fun _ => false).

(** The connection is cancelled while the task starts. *)
Definition cancelled_surroundings : surroundings :=
  mkSurroundings (fun _ => StateSnapshot_default) (fun _ => true)
    (fun t method _ =>
       if String.eqb method "account.get" then Ok (jobj [("logged_in", Bool true)])
       else if String.eqb method "connection.connect" then Err (BackendError_new "connection_cancelled" "cancelled") else Ok Null)
    (fun _ _ _ => Ok (jobj [("connect_params", jobj [])])) (fun _ => 0%nat) (fun _ => false).

