(* ===== verification/Notifications.v ===== *)
(** Desktop notifications ([agent/src/notifications.rs]): which notices the published snapshots give rise to.

    The program that shows a notification is external: [answer] gives its exit status and output for the arguments
    it is started with, after the notices shown before.  A [desk] is the emitter together with these notices. *)
From S2P Require Export Protocol RustStr.
Open Scope string_scope.
Open Scope Z_scope.
Open Scope list_scope.
Open Scope rust_scope.

(** ** Texts *)
Record NotificationCatalog : Type := mkNotificationCatalog {
  nc_insecure_wifi_summary : string;
  nc_insecure_wifi_body : string;
  nc_port_forwarding_summary : string;
  nc_port_forwarding_body : string;
  nc_p2p_detected_summary : string;
  nc_p2p_detected_body : string;
  nc_connecting_summary : string;
  nc_connecting_body : string;
  nc_connected_summary : string;
  nc_connected_body : string;
  nc_disconnected_summary : string;
  nc_disconnected_body : string;
  nc_connection_error_summary : string;
  nc_connection_error_body : string;
  nc_two_factor_summary : string;
  nc_two_factor_body : string;
  nc_security_key_pin_summary : string;
  nc_security_key_pin_body : string;
  nc_touch_security_key_summary : string;
  nc_touch_security_key_body : string;
  nc_attention_summary : string;
  nc_attention_body : string;
  nc_operation_failed_summary : string;
  nc_operation_failed_body : string;
  nc_secure_server : string }.

Definition ENGLISH_NOTIFICATIONS : NotificationCatalog := {|
  nc_insecure_wifi_summary := "The Wi-Fi network is not secure";
  nc_insecure_wifi_body := "This network does not use WPA encryption. Connect to Proton VPN to protect your traffic.";
  nc_port_forwarding_summary := "Port forwarding is active";
  nc_port_forwarding_body := "Proton VPN assigned port {port}.";
  nc_p2p_detected_summary := "P2P traffic detected";
  nc_p2p_detected_body := "This server does not allow P2P for your plan. Connect to a P2P server.";
  nc_connecting_summary := "Proton VPN is connecting";
  nc_connecting_body := "Preparing a secure connection…";
  nc_connected_summary := "Proton VPN is connected";
  nc_connected_body := "Connected to {destination}";
  nc_disconnected_summary := "Proton VPN is disconnected";
  nc_disconnected_body := "Traffic is no longer using the VPN tunnel.";
  nc_connection_error_summary := "Proton VPN connection error";
  nc_connection_error_body := "Open the panel to review the error and try again.";
  nc_two_factor_summary := "Two-factor authentication";
  nc_two_factor_body := "Proton VPN is waiting for your code in the panel.";
  nc_security_key_pin_summary := "Your security key needs a PIN";
  nc_security_key_pin_body := "Return to the Proton VPN panel to enter it.";
  nc_touch_security_key_summary := "Touch your security key";
  nc_touch_security_key_body := "Authentication is continuing in the Proton VPN panel.";
  nc_attention_summary := "Proton VPN needs your attention";
  nc_attention_body := "Open the panel to continue authentication.";
  nc_operation_failed_summary := "Proton VPN operation failed";
  nc_operation_failed_body := "Open the panel to review the error and try again.";
  nc_secure_server := "a secure server" |}.

Definition SPANISH_NOTIFICATIONS : NotificationCatalog := {|
  nc_insecure_wifi_summary := "La red Wi-Fi no es segura";
  nc_insecure_wifi_body := "Esta red no usa cifrado WPA. Conéctate a Proton VPN para proteger tu tráfico.";
  nc_port_forwarding_summary := "Reenvío de puertos activo";
  nc_port_forwarding_body := "Proton VPN asignó el puerto {port}.";
  nc_p2p_detected_summary := "Tráfico P2P detectado";
  nc_p2p_detected_body := "Este servidor no permite P2P para tu plan. Conéctate a un servidor P2P.";
  nc_connecting_summary := "Proton VPN está conectando";
  nc_connecting_body := "Preparando una conexión segura…";
  nc_connected_summary := "Proton VPN está conectado";
  nc_connected_body := "Conectado a {destination}";
  nc_disconnected_summary := "Proton VPN está desconectado";
  nc_disconnected_body := "El tráfico ya no usa el túnel VPN.";
  nc_connection_error_summary := "Error de conexión de Proton VPN";
  nc_connection_error_body := "Abre el panel para ver el error y volver a intentarlo.";
  nc_two_factor_summary := "Verificación en dos pasos";
  nc_two_factor_body := "Proton VPN está esperando tu código en el panel.";
  nc_security_key_pin_summary := "Tu llave necesita un PIN";
  nc_security_key_pin_body := "Vuelve al panel de Proton VPN para ingresarlo.";
  nc_touch_security_key_summary := "Toca tu llave de seguridad";
  nc_touch_security_key_body := "La autenticación continúa en el panel de Proton VPN.";
  nc_attention_summary := "Proton VPN necesita tu atención";
  nc_attention_body := "Abre el panel para continuar la autenticación.";
  nc_operation_failed_summary := "La operación de Proton VPN falló";
  nc_operation_failed_body := "Abre el panel para revisar el error y volver a intentarlo.";
  nc_secure_server := "un servidor seguro" |}.

(** Up to the first separator. *)
Fixpoint language_tag (locale : string) : string :=
  match locale with
  | "" => ""
  | String c rest => if Ascii.eqb c "-" || Ascii.eqb c "_" then "" else String c (language_tag rest)
  end.
Definition notification_catalog (locale : string) : NotificationCatalog :=
  if String.eqb (to_ascii_lowercase (language_tag locale)) "es" then SPANISH_NOTIFICATIONS else ENGLISH_NOTIFICATIONS.

(** [str::replace]; [skip] characters of a match are still to be passed over. *)
Fixpoint replace_from (needle by_ : string) (skip : nat) (s : string) : string :=
  match s with
  | "" => ""
  | String c rest =>
      match skip with
      | S skip => replace_from needle by_ skip rest
      | O =>
          if starts_with needle s then by_ +:+ replace_from needle by_ (Nat.pred (String.length needle)) rest
          else String c (replace_from needle by_ O rest)
      end
  end.
Definition str_replace (needle by_ s : string) : string := replace_from needle by_ O s.

(** ** Messages *)
Inductive StatusIcon : Type :=
  | Icon_Information
  | Icon_Disconnected
  | Icon_Connecting
  | Icon_Connected.
Definition file_name (icon : StatusIcon) : string :=
  match icon with
  | Icon_Information => "ic_vpn_status_information.webp"
  | Icon_Disconnected => "ic_vpn_status_disconnected.webp"
  | Icon_Connecting => "ic_vpn_status_connecting.webp"
  | Icon_Connected => "ic_vpn_status_connected.webp"
  end.
Record NotificationMessage : Type := mkMessage {
  nm_icon : StatusIcon;
  nm_urgency : string;
  nm_summary : string;
  nm_body : string }.

Definition NOTIFICATION_OPEN_ACTION : string := "omarchy-shell shell summon proton.omarchy '{}'".
Definition arguments (icon_dir : string) (replacement_id : option Z) (m : NotificationMessage) : list string :=
  ["--app-name"; "Proton VPN"; "--image"; path_join icon_dir (file_name m.(nm_icon)); "--urgency"; m.(nm_urgency);
   "--exec"; NOTIFICATION_OPEN_ACTION; m.(nm_summary); m.(nm_body); "-p"; "-t"; "7000"]
  ++ match replacement_id with Some id => ["-r"; dec id] | None => [] end.

Definition is_connection_operation (o : OperationRecord) : bool :=
  bool_decide (o.(op_domain) = OperationDomain_TunnelConfiguration) && starts_with "connection." o.(op_kind).
Definition connection_signature (s : StateSnapshot) : string :=
  let c := s.(ss_connection) in
  unwrap_or c.(cn_country_code) "" +:+ ":" +:+ unwrap_or c.(cn_server_name) "" +:+ ":" +:+ unwrap_or c.(cn_protocol) "".
Definition connection_destination (s : StateSnapshot) (text : NotificationCatalog) : string :=
  let c := s.(ss_connection) in
  let filled := opt_filter (fun v => negb (is_empty v)) in
  unwrap_or (or_else (or_else (filled c.(cn_country_name)) (filled c.(cn_country_code))) (filled c.(cn_server_name))) text.(nc_secure_server).

(** ** The emitter *)
Record NotificationEmitter : Type := mkEmitter {
  em_connection_id : option Z;
  em_general_id : option Z;
  em_status : ConnectionStatus;
  em_signature : string;
  em_error_code : string;
  em_port : option Z;
  em_generation : Z;
  em_operation_id : string;
  em_attention : string }.
Definition emitter_new (initial : StateSnapshot) : NotificationEmitter :=
  mkEmitter None None initial.(ss_connection).(cn_status) (connection_signature initial)
    (unwrap_or initial.(ss_connection).(cn_error_code) "") initial.(ss_features).(fs_port_forwarding).(pf_active_port)
    initial.(ss_network_security).(ns_generation)
    (match initial.(ss_operations).(os_recent) with o :: _ => o.(op_id) | [] => "" end) "".

Definition set_connection_id (v : option Z) (e : NotificationEmitter) : NotificationEmitter :=
  let '(mkEmitter _ g s sg ec p n o a) := e in mkEmitter v g s sg ec p n o a.
Definition set_general_id (v : option Z) (e : NotificationEmitter) : NotificationEmitter :=
  let '(mkEmitter c _ s sg ec p n o a) := e in mkEmitter c v s sg ec p n o a.
Definition set_connection (s : ConnectionStatus) (sg ec : string) (e : NotificationEmitter) : NotificationEmitter :=
  let '(mkEmitter c g _ _ _ p n o a) := e in mkEmitter c g s sg ec p n o a.
Definition set_port (p : option Z) (e : NotificationEmitter) : NotificationEmitter :=
  let '(mkEmitter c g s sg ec _ n o a) := e in mkEmitter c g s sg ec p n o a.
Definition set_generation (n : Z) (e : NotificationEmitter) : NotificationEmitter :=
  let '(mkEmitter c g s sg ec p _ o a) := e in mkEmitter c g s sg ec p n o a.
Definition set_operation_id (o : string) (e : NotificationEmitter) : NotificationEmitter :=
  let '(mkEmitter c g s sg ec p n _ a) := e in mkEmitter c g s sg ec p n o a.
Definition set_attention (a : string) (e : NotificationEmitter) : NotificationEmitter :=
  let '(mkEmitter c g s sg ec p n o _) := e in mkEmitter c g s sg ec p n o a.

(** Which of the two notices on the screen a message replaces, and why it was sent. *)
Inductive topic : Type :=
  | OfConnection
  | OfPort
  | OfWifi
  | OfAttention
  | OfFailure.
Record notice : Type := mkNotice {
  no_topic : topic;
  no_replaces : option Z;
  no_message : NotificationMessage;
  no_answer : option Z }.
Record desk : Type := mkDesk {
  dk_emitter : NotificationEmitter;
  dk_shown : list notice }.

Section Emitter.
Context (icon_dir : string) (answer : list notice -> list string -> option (bool * list Z)).

Definition send_notification (shown : list notice) (replacement_id : option Z) (m : NotificationMessage) : option Z :=
  match answer shown (arguments icon_dir replacement_id m) with
  | Some (true, stdout) => from_utf8 stdout ?> fun text => parse_uint 32 (trim text)
  | _ => None
  end.

(** A message in the place of the connection, or of everything else. *)
Definition show (t : topic) (m : NotificationMessage) (d : desk) : desk :=
  let e := d.(dk_emitter) in
  let current := match t with OfConnection => e.(em_connection_id) | _ => e.(em_general_id) end in
  let sent := send_notification d.(dk_shown) current m in
  let id := or_else sent current in
  mkDesk (match t with OfConnection => set_connection_id id e | _ => set_general_id id e end) (d.(dk_shown) ++ [mkNotice t current m sent]).
Definition update (f : NotificationEmitter -> NotificationEmitter) (d : desk) : desk := mkDesk (f d.(dk_emitter)) d.(dk_shown).

Definition announced_connection (s : StateSnapshot) (locale : string) (e : NotificationEmitter) : option NotificationMessage :=
  let status := s.(ss_connection).(cn_status) in
  let previous := e.(em_status) in
  let changed := negb (bool_decide (status = previous)) in
  let details_changed := negb (String.eqb (connection_signature s) e.(em_signature)) in
  let error_code := unwrap_or s.(ss_connection).(cn_error_code) "" in
  let text := notification_catalog locale in
  if String.eqb error_code "p2p_not_allowed" && negb (String.eqb error_code e.(em_error_code))
  then Some (mkMessage Icon_Information "critical" text.(nc_p2p_detected_summary) text.(nc_p2p_detected_body))
  else match status with
  | ConnectionStatus_Connecting =>
      if changed then Some (mkMessage Icon_Connecting "normal" text.(nc_connecting_summary) text.(nc_connecting_body)) else None
  | ConnectionStatus_Connected =>
      if changed || details_changed
      then Some (mkMessage Icon_Connected "normal" text.(nc_connected_summary)
                   (str_replace "{destination}" (connection_destination s text) text.(nc_connected_body))) else None
  | ConnectionStatus_Disconnected =>
      if changed && bool_decide (previous ∈ [ConnectionStatus_Connecting; ConnectionStatus_Connected; ConnectionStatus_Error])
      then Some (mkMessage Icon_Disconnected "normal" text.(nc_disconnected_summary) text.(nc_disconnected_body)) else None
  | ConnectionStatus_Error =>
      if changed then Some (mkMessage Icon_Disconnected "critical" text.(nc_connection_error_summary) text.(nc_connection_error_body)) else None
  | ConnectionStatus_Unknown => None
  end.
Definition observe_connection (s : StateSnapshot) (locale : string) (enabled : bool) (d : desk) : desk :=
  let message := announced_connection s locale d.(dk_emitter) in
  let d := update (set_connection s.(ss_connection).(cn_status) (connection_signature s) (unwrap_or s.(ss_connection).(cn_error_code) "")) d in
  if enabled then match message with Some m => show OfConnection m d | None => d end else d.

Definition observe_port_forwarding (s : StateSnapshot) (locale : string) (enabled : bool) (d : desk) : desk :=
  let port := s.(ss_features).(fs_port_forwarding).(pf_active_port) in
  let changed := negb (bool_decide (port = d.(dk_emitter).(em_port))) in
  let d := update (set_port port) d in
  match opt_filter (fun _ => changed && enabled) port with
  | None => d
  | Some port =>
      let text := notification_catalog locale in
      show OfPort (mkMessage Icon_Information "normal" text.(nc_port_forwarding_summary)
        (str_replace "{port}" (dec port) text.(nc_port_forwarding_body))) d
  end.

Definition protected (status : ConnectionStatus) : bool :=
  match status with ConnectionStatus_Connecting | ConnectionStatus_Connected => true | _ => false end.
Definition observe_network_security (s : StateSnapshot) (locale : string) (enabled : bool) (d : desk) : desk :=
  let n := s.(ss_network_security) in
  let changed := negb (n.(ns_generation) =? d.(dk_emitter).(em_generation)) in
  if negb changed || negb enabled || negb n.(ns_known) || negb n.(ns_wifi_connected) || negb n.(ns_insecure_wifi) then
    if changed && (negb n.(ns_wifi_connected) || negb n.(ns_insecure_wifi)) then update (set_generation n.(ns_generation)) d else d
  else if protected s.(ss_connection).(cn_status) then d
  else
    let text := notification_catalog locale in
    show OfWifi (mkMessage Icon_Information "critical" text.(nc_insecure_wifi_summary) text.(nc_insecure_wifi_body))
      (update (set_generation n.(ns_generation)) d).

Definition attention_stages : list string :=
  ["auth.waiting_for_two_factor"; "auth.security_key_pin_required"; "auth.touch_security_key"; "auth.waiting_for_human_verification";
   "auth.waiting_for_sso"].
Definition needs_attention (o : OperationRecord) : bool := existsb (String.eqb o.(op_stage)) attention_stages.
Definition attention_text (stage : string) (text : NotificationCatalog) : string * string :=
  if String.eqb stage "auth.waiting_for_two_factor" then (text.(nc_two_factor_summary), text.(nc_two_factor_body))
  else if String.eqb stage "auth.security_key_pin_required" then (text.(nc_security_key_pin_summary), text.(nc_security_key_pin_body))
  else if String.eqb stage "auth.touch_security_key" then (text.(nc_touch_security_key_summary), text.(nc_touch_security_key_body))
  else (text.(nc_attention_summary), text.(nc_attention_body)).
Definition observe_attention_operation (s : StateSnapshot) (locale : string) (enabled : bool) (d : desk) : desk :=
  match find_first needs_attention s.(ss_operations).(os_active) with
  | None => update (set_attention "") d
  | Some o =>
      let key := o.(op_id) +:+ ":" +:+ o.(op_stage) in
      if String.eqb key d.(dk_emitter).(em_attention) then d
      else
        let d := update (set_attention key) d in
        if negb enabled then d
        else let '(summary, body) := attention_text o.(op_stage) (notification_catalog locale) in
             show OfAttention (mkMessage Icon_Information "normal" summary body) d
  end.

Definition observe_failed_operation (s : StateSnapshot) (locale : string) (enabled : bool) (d : desk) : desk :=
  match s.(ss_operations).(os_recent) with
  | [] => d
  | o :: _ =>
      if String.eqb o.(op_id) d.(dk_emitter).(em_operation_id) then d
      else
        let d := update (set_operation_id o.(op_id)) d in
        if negb enabled || negb (bool_decide (o.(op_state) = OperationStatus_Failed)) || is_connection_operation o
           || match o.(op_error) with None => true | Some _ => false end then d
        else
          let text := notification_catalog locale in
          show OfFailure (mkMessage Icon_Information "critical" text.(nc_operation_failed_summary) text.(nc_operation_failed_body)) d
  end.

Definition observe (s : StateSnapshot) (locale : string) (enabled port_forwarding_enabled : bool) (d : desk) : desk :=
  let d := observe_connection s locale enabled d in
  let d := observe_port_forwarding s locale (enabled && port_forwarding_enabled) d in
  let d := observe_network_security s locale enabled d in
  let d := observe_attention_operation s locale enabled d in
  observe_failed_operation s locale enabled d.

(** What the task reads at a change of the state. *)
Record look : Type := mkLook {
  lk_snapshot : StateSnapshot;
  lk_locale : string;
  lk_enabled : bool;
  lk_port_enabled : bool }.
Definition observe_look (l : look) (d : desk) : desk := observe l.(lk_snapshot) l.(lk_locale) l.(lk_enabled) l.(lk_port_enabled) d.
(** [run]. *)
Definition run_notifications (initial : StateSnapshot) (looks : list look) : desk :=
  fold_left (fun d l => observe_look l d) looks (mkDesk (emitter_new initial) []).

(** ** What one observation adds *)

(** What the emitter remembers of the state, without the notices on the screen. *)
Definition memory (e : NotificationEmitter) : ConnectionStatus * string * string * option Z * Z * string * string :=
  (e.(em_status), e.(em_signature), e.(em_error_code), e.(em_port), e.(em_generation), e.(em_operation_id), e.(em_attention)).
(** [d'] shows one more notice of the topic than [d], if [said]. *)
Definition adds (t : topic) (said : bool) (d d' : desk) : Prop :=
  exists n, n.(no_topic) = t /\ d'.(dk_shown) = d.(dk_shown) ++ (if said then [n] else []).

(** Every notice takes the place of the last one delivered there. *)
Definition of_connection (t : topic) : bool := match t with OfConnection => true | _ => false end.
Definition last_answer (place : bool) (shown : list notice) : option Z :=
  fold_left (fun id n => if Bool.eqb (of_connection n.(no_topic)) place then or_else n.(no_answer) id else id) shown None.
#[local] Arguments last_answer : simpl never.
Definition chained (shown : list notice) : Prop :=
  forall before n after, shown = before ++ n :: after -> n.(no_replaces) = last_answer (of_connection n.(no_topic)) before.
Definition on_screen (d : desk) : Prop :=
  d.(dk_emitter).(em_connection_id) = last_answer true d.(dk_shown) /\
  d.(dk_emitter).(em_general_id) = last_answer false d.(dk_shown) /\ chained d.(dk_shown).

Lemma show_memory t m d : memory (show t m d).(dk_emitter) = memory d.(dk_emitter).
Proof. destruct d as [[] shown], t; reflexivity. Qed.
Lemma show_adds t m f d : adds t true d (show t m (update f d)).
Proof. eexists. split; [|reflexivity]. reflexivity. Qed.
Lemma update_adds t f d : adds t false d (update f d).
Proof. exists (mkNotice t None (mkMessage Icon_Information "" "" "") None). split; [done|]. by rewrite app_nil_r. Qed.
Lemma same_adds t d : adds t false d d.
Proof. exists (mkNotice t None (mkMessage Icon_Information "" "" "") None). split; [done|]. by rewrite app_nil_r. Qed.

Lemma last_answer_app place shown n :
  last_answer place (shown ++ [n]) =
  if Bool.eqb (of_connection n.(no_topic)) place then or_else n.(no_answer) (last_answer place shown) else last_answer place shown.
Proof. unfold last_answer. by rewrite fold_left_app. Qed.
Lemma chained_app shown n :
  chained shown -> n.(no_replaces) = last_answer (of_connection n.(no_topic)) shown -> chained (shown ++ [n]).
Proof.
  intros H Hn before x after E. destruct after as [|y after _] using rev_ind.
  - apply app_inj_tail in E as [<- <-]. exact Hn.
  - rewrite app_comm_cons, app_assoc in E. apply app_inj_tail in E as [E _]. by eapply H.
Qed.
Lemma show_on_screen t m d : on_screen d -> on_screen (show t m d).
Proof.
  intros (Hc & Hg & H). unfold on_screen, show. cbn [dk_shown dk_emitter]. rewrite !last_answer_app. cbn [no_topic no_answer].
  destruct d as [[] shown]. cbn in *.
  destruct t; cbn; (split; [congruence|split; [congruence|apply chained_app; [done|cbn; congruence]]]).
Qed.
Definition keeps_ids (f : NotificationEmitter -> NotificationEmitter) : Prop :=
  forall e, (f e).(em_connection_id) = e.(em_connection_id) /\ (f e).(em_general_id) = e.(em_general_id).
Lemma update_on_screen f d : keeps_ids f -> on_screen d -> on_screen (update f d).
Proof. intros Hf (Hc & Hg & H). unfold on_screen, update. cbn. destruct (Hf d.(dk_emitter)) as [-> ->]. done. Qed.

(** A part of an observation: what it adds, what it does to the memory, and that the screen stays described. *)
Record part (t : topic) (said : bool) (f : NotificationEmitter -> NotificationEmitter) (d d' : desk) : Prop := mkPart {
  pt_adds : adds t said d d';
  pt_memory : memory d'.(dk_emitter) = memory (f d.(dk_emitter));
  pt_screen : on_screen d -> on_screen d' }.
Lemma part_show t m f d : keeps_ids f -> part t true f d (show t m (update f d)).
Proof. intros Hf. split; [apply show_adds|by rewrite show_memory|intros H; by apply show_on_screen, update_on_screen]. Qed.
Lemma part_update t f d : keeps_ids f -> part t false f d (update f d).
Proof. intros Hf. split; [apply update_adds|done|by apply update_on_screen]. Qed.
Lemma part_same t d : part t false (fun e => e) d d.
Proof. split; [apply same_adds|done|done]. Qed.
Lemma part_show_same t m d : part t true (fun e => e) d (show t m d).
Proof. destruct d as [e shown]. exact (part_show t m (fun e => e) (mkDesk e shown) (fun _ => conj eq_refl eq_refl)). Qed.

Ltac ids := by intros [].
#[local] Hint Extern 1 (keeps_ids _) => ids : core.
#[local] Hint Resolve part_show part_update part_same : core.

(** When each topic is due. *)
Definition connection_due (s : StateSnapshot) (e : NotificationEmitter) : bool :=
  match announced_connection s "" e with Some _ => true | None => false end.
Definition port_due (s : StateSnapshot) (e : NotificationEmitter) : bool :=
  match s.(ss_features).(fs_port_forwarding).(pf_active_port) with
  | Some port => negb (bool_decide (Some port = e.(em_port)))
  | None => false
  end.
Definition insecure (s : StateSnapshot) : bool :=
  let n := s.(ss_network_security) in n.(ns_known) && n.(ns_wifi_connected) && n.(ns_insecure_wifi) && negb (protected s.(ss_connection).(cn_status)).
Definition new_generation (s : StateSnapshot) (e : NotificationEmitter) : bool := negb (s.(ss_network_security).(ns_generation) =? e.(em_generation)).
Definition wifi_due (s : StateSnapshot) (e : NotificationEmitter) : bool := new_generation s e && insecure s.
Definition wifi_secure (s : StateSnapshot) : bool := negb s.(ss_network_security).(ns_wifi_connected) || negb s.(ss_network_security).(ns_insecure_wifi).
Definition attention_due (s : StateSnapshot) (e : NotificationEmitter) : bool :=
  match find_first needs_attention s.(ss_operations).(os_active) with
  | Some o => negb (String.eqb (o.(op_id) +:+ ":" +:+ o.(op_stage)) e.(em_attention))
  | None => false
  end.
Definition failure_due (s : StateSnapshot) (e : NotificationEmitter) : bool :=
  match s.(ss_operations).(os_recent) with
  | o :: _ => negb (String.eqb o.(op_id) e.(em_operation_id)) && bool_decide (o.(op_state) = OperationStatus_Failed) &&
              negb (is_connection_operation o) && match o.(op_error) with Some _ => true | None => false end
  | [] => false
  end.

Lemma announced_locale s locale e : (match announced_connection s locale e with Some _ => true | None => false end) = connection_due s e.
Proof.
  unfold connection_due, announced_connection. destruct (_ && _); [done|]. destruct (cn_status _); try done.
  - by destruct (_ && _).
  - by destruct (negb _).
  - by destruct (_ || _).
  - by destruct (negb _).
Qed.
Lemma connection_part s locale enabled d :
  part OfConnection (enabled && connection_due s d.(dk_emitter))
    (set_connection s.(ss_connection).(cn_status) (connection_signature s) (unwrap_or s.(ss_connection).(cn_error_code) ""))
    d (observe_connection s locale enabled d).
Proof.
  rewrite <- (announced_locale s locale). unfold observe_connection. destruct enabled, (announced_connection s locale _); cbn; auto.
Qed.
Lemma port_part s locale enabled d :
  part OfPort (enabled && port_due s d.(dk_emitter)) (set_port s.(ss_features).(fs_port_forwarding).(pf_active_port))
    d (observe_port_forwarding s locale enabled d).
Proof.
  unfold observe_port_forwarding, port_due. destruct (pf_active_port _) as [port|]; cbn; [|rewrite andb_false_r; auto].
  rewrite andb_comm. destruct (_ && enabled); auto.
Qed.
Lemma wifi_part s locale enabled d :
  part OfWifi (enabled && wifi_due s d.(dk_emitter))
    (if new_generation s d.(dk_emitter) && (wifi_secure s || (enabled && insecure s))
     then set_generation s.(ss_network_security).(ns_generation) else fun e => e)
    d (observe_network_security s locale enabled d).
Proof.
  unfold observe_network_security, wifi_due, insecure, new_generation, wifi_secure.
  destruct (_ =? _), enabled, (ns_known _), (ns_wifi_connected _), (ns_insecure_wifi _), (protected _); cbn; auto.
Qed.
Lemma attention_part s locale enabled d : exists f,
  part OfAttention (enabled && attention_due s d.(dk_emitter)) f d (observe_attention_operation s locale enabled d) /\
  forall e, (f e).(em_generation) = e.(em_generation) /\ (f e).(em_status) = e.(em_status) /\ (f e).(em_signature) = e.(em_signature) /\
    (f e).(em_error_code) = e.(em_error_code) /\ (f e).(em_port) = e.(em_port) /\ (f e).(em_operation_id) = e.(em_operation_id).
Proof.
  unfold observe_attention_operation, attention_due. destruct (find_first _ _) as [o|].
  - destruct (String.eqb _ _); cbn.
    + exists (fun e => e). rewrite andb_false_r. split; [auto|done].
    + rewrite andb_true_r. exists (set_attention (o.(op_id) +:+ ":" +:+ o.(op_stage))). split; [|by intros []].
      destruct enabled; cbn; [destruct (attention_text _ _)|]; auto.
  - exists (set_attention ""). rewrite andb_false_r. split; [auto|by intros []].
Qed.
Lemma failure_part s locale enabled d : exists f,
  part OfFailure (enabled && failure_due s d.(dk_emitter)) f d (observe_failed_operation s locale enabled d) /\
  forall e, (f e).(em_generation) = e.(em_generation) /\ (f e).(em_status) = e.(em_status) /\ (f e).(em_signature) = e.(em_signature) /\
    (f e).(em_error_code) = e.(em_error_code) /\ (f e).(em_port) = e.(em_port).
Proof.
  unfold observe_failed_operation, failure_due. destruct (os_recent _) as [|o rest].
  - exists (fun e => e). rewrite andb_false_r. split; [auto|done].
  - destruct (String.eqb _ _); cbn.
    + exists (fun e => e). rewrite andb_false_r. split; [auto|done].
    + exists (set_operation_id o.(op_id)). split; [|by intros []].
      destruct enabled, (bool_decide _), (is_connection_operation o), (op_error o); cbn; auto.
Qed.

(** ** Histories *)
Definition generation (s : StateSnapshot) : Z := s.(ss_network_security).(ns_generation).
Definition active_port (s : StateSnapshot) : option Z := s.(ss_features).(fs_port_forwarding).(pf_active_port).
Definition error_code (s : StateSnapshot) : string := unwrap_or s.(ss_connection).(cn_error_code) "".
Definition previous (initial : StateSnapshot) (looks : list look) : StateSnapshot := List.last (map lk_snapshot looks) initial.
(** The notices of a look, and their topics. *)
Definition news (initial : StateSnapshot) (before : list look) (l : look) : list notice :=
  drop (length (run_notifications initial before).(dk_shown)) (run_notifications initial (before ++ [l])).(dk_shown).
Definition topics (initial : StateSnapshot) (before : list look) (l : look) : list topic := map no_topic (news initial before l).

(** What makes the connection worth a notice. *)
Definition announces (old new : StateSnapshot) : Prop :=
  (error_code new = "p2p_not_allowed" /\ error_code old <> "p2p_not_allowed") \/
  let was := old.(ss_connection).(cn_status) in
  match new.(ss_connection).(cn_status) with
  | ConnectionStatus_Connecting => was <> ConnectionStatus_Connecting
  | ConnectionStatus_Connected => was <> ConnectionStatus_Connected \/ connection_signature new <> connection_signature old
  | ConnectionStatus_Disconnected => was <> ConnectionStatus_Disconnected /\ was <> ConnectionStatus_Unknown
  | ConnectionStatus_Error => was <> ConnectionStatus_Error
  | ConnectionStatus_Unknown => False
  end.

Definition said (b : bool) (t : topic) : list topic := if b then [t] else [].
Lemma adds_topics t b d d' new0 old :
  d.(dk_shown) = old ++ new0 -> adds t b d d' -> exists new, d'.(dk_shown) = old ++ new /\ map no_topic new = map no_topic new0 ++ said b t.
Proof.
  intros H (n & Hn & E). rewrite E, H, <- app_assoc. eexists. split; [reflexivity|]. rewrite map_app. f_equal.
  destruct b; cbn; congruence.
Qed.

Lemma last_snoc (initial : StateSnapshot) looks l : previous initial (looks ++ [l]) = l.(lk_snapshot).
Proof. unfold previous. rewrite map_app. apply last_last. Qed.
Lemma run_snoc initial looks l : run_notifications initial (looks ++ [l]) = observe_look l (run_notifications initial looks).
Proof. unfold run_notifications. by rewrite fold_left_app. Qed.

(** The emitter remembers the previous snapshot. *)
Definition remembers (e : NotificationEmitter) (s : StateSnapshot) : Prop :=
  e.(em_status) = s.(ss_connection).(cn_status) /\ e.(em_signature) = connection_signature s /\
  e.(em_error_code) = error_code s /\ e.(em_port) = active_port s.
Definition settles (l : look) (e : NotificationEmitter) : bool :=
  new_generation l.(lk_snapshot) e && (wifi_secure l.(lk_snapshot) || (l.(lk_enabled) && insecure l.(lk_snapshot))).

Lemma connection_due_announces s e old : remembers e old -> connection_due s e = true <-> announces old s.
Proof.
  intros (H1 & H2 & H3 & _). unfold connection_due, announced_connection, announces. rewrite H1, H2, H3.
  fold (error_code s). destruct (String.eqb (error_code s) "p2p_not_allowed") eqn:E1; cbn [andb].
  - apply String.eqb_eq in E1. rewrite E1. destruct (String.eqb "p2p_not_allowed" (error_code old)) eqn:E2; cbn [negb].
    + apply String.eqb_eq in E2. rewrite <- E2. destruct (cn_status (ss_connection s)), (cn_status (ss_connection old)); cbn;
        try (destruct (String.eqb _ _) eqn:E3; cbn; (apply String.eqb_eq in E3 || apply String.eqb_neq in E3)); naive_solver.
    + apply String.eqb_neq in E2. split; [intros _; left; split; [done|congruence]|done].
  - apply String.eqb_neq in E1. destruct (cn_status (ss_connection s)), (cn_status (ss_connection old)); cbn;
      try (destruct (String.eqb _ _) eqn:E3; cbn; (apply String.eqb_eq in E3 || apply String.eqb_neq in E3)); naive_solver.
Qed.
Lemma port_due_new s e old : remembers e old -> port_due s e = true <-> active_port s <> active_port old /\ active_port s <> None.
Proof.
  intros (_ & _ & _ & H). unfold port_due. rewrite H. unfold active_port. destruct (pf_active_port _) as [p|]; [|naive_solver].
  rewrite negb_true_iff, bool_decide_eq_false. naive_solver.
Qed.

Lemma memory_fields e e' : memory e = memory e' ->
  e.(em_status) = e'.(em_status) /\ e.(em_signature) = e'.(em_signature) /\ e.(em_error_code) = e'.(em_error_code) /\
  e.(em_port) = e'.(em_port) /\ e.(em_generation) = e'.(em_generation).
Proof. unfold memory. intros [=]. done. Qed.

Lemma observe_look_spec l d old :
  remembers d.(dk_emitter) old -> on_screen d ->
  let s := l.(lk_snapshot) in let e := d.(dk_emitter) in let d' := observe_look l d in
  (exists a x new, d'.(dk_shown) = d.(dk_shown) ++ new /\
    map no_topic new = said (l.(lk_enabled) && connection_due s e) OfConnection ++
      said (l.(lk_enabled) && l.(lk_port_enabled) && port_due s e) OfPort ++ said (l.(lk_enabled) && wifi_due s e) OfWifi ++
      said (l.(lk_enabled) && a) OfAttention ++ said (l.(lk_enabled) && x) OfFailure) /\
  remembers d'.(dk_emitter) s /\ on_screen d' /\
  d'.(dk_emitter).(em_generation) = if settles l e then generation s else e.(em_generation).
Proof.
  intros Hold Hscreen s e d'. unfold d', observe_look, observe. fold s.
  set (d1 := observe_connection s _ _ d). set (d2 := observe_port_forwarding s _ _ d1). set (d3 := observe_network_security s _ _ d2).
  set (d4 := observe_attention_operation s _ _ d3). set (d5 := observe_failed_operation s _ _ d4).
  destruct (connection_part s l.(lk_locale) l.(lk_enabled) d) as [A1 M1 S1]. fold d1 in A1, M1, S1. fold e in A1, M1.
  destruct (port_part s l.(lk_locale) (l.(lk_enabled) && l.(lk_port_enabled)) d1) as [A2 M2 S2]. fold d2 in A2, M2, S2.
  destruct (wifi_part s l.(lk_locale) l.(lk_enabled) d2) as [A3 M3 S3]. fold d3 in A3, M3, S3.
  destruct (attention_part s l.(lk_locale) l.(lk_enabled) d3) as (f4 & [A4 M4 S4] & F4). fold d4 in A4, M4, S4.
  destruct (failure_part s l.(lk_locale) l.(lk_enabled) d4) as (f5 & [A5 M5 S5] & F5). fold d5 in A5, M5, S5.
  apply memory_fields in M1, M2, M3, M4, M5. specialize (F4 d3.(dk_emitter)). specialize (F5 d4.(dk_emitter)).
  assert (E2 : port_due s d1.(dk_emitter) = port_due s e).
  { unfold port_due. replace (em_port (dk_emitter d1)) with e.(em_port); [done|]. destruct M1 as (_ & _ & _ & -> & _). by destruct e. }
  assert (G2 : d2.(dk_emitter).(em_generation) = e.(em_generation)).
  { destruct M2 as (_ & _ & _ & _ & ->), M1 as (_ & _ & _ & _ & H1). transitivity d1.(dk_emitter).(em_generation); [by destruct (dk_emitter d1)|].
    rewrite H1. by destruct e. }
  assert (E3 : new_generation s d2.(dk_emitter) = new_generation s e) by (unfold new_generation; by rewrite G2).
  unfold wifi_due in *. rewrite E2 in A2. rewrite E3 in A3, M3.
  split; [|split; [|split]].
  - exists (attention_due s d3.(dk_emitter)), (failure_due s d4.(dk_emitter)).
    destruct (adds_topics _ _ _ _ [] d.(dk_shown) ltac:(by rewrite app_nil_r) A1) as (n1 & H1 & T1).
    destruct (adds_topics _ _ _ _ _ _ H1 A2) as (n2 & H2 & T2). destruct (adds_topics _ _ _ _ _ _ H2 A3) as (n3 & H3 & T3).
    destruct (adds_topics _ _ _ _ _ _ H3 A4) as (n4 & H4 & T4). destruct (adds_topics _ _ _ _ _ _ H4 A5) as (n5 & H5 & T5).
    exists n5. split; [done|]. rewrite T5, T4, T3, T2, T1. cbn [map app]. by rewrite <- !app_assoc.
  - assert (Hset : forall (b : bool) e0, let e1 := (if b then set_generation s.(ss_network_security).(ns_generation) else fun e => e) e0 in
        e1.(em_status) = e0.(em_status) /\ e1.(em_signature) = e0.(em_signature) /\ e1.(em_error_code) = e0.(em_error_code) /\ e1.(em_port) = e0.(em_port))
      by (by intros [] []).
    destruct (Hset (new_generation s e && (wifi_secure s || (lk_enabled l && insecure s))) d2.(dk_emitter)) as (B1 & B2 & B3 & B4).
    assert (Hp : forall p e0, let e1 := set_port p e0 in e1.(em_status) = e0.(em_status) /\ e1.(em_signature) = e0.(em_signature) /\
        e1.(em_error_code) = e0.(em_error_code) /\ e1.(em_port) = p) by (by intros ? []).
    destruct (Hp s.(ss_features).(fs_port_forwarding).(pf_active_port) d1.(dk_emitter)) as (P1 & P2 & P3 & P4).
    assert (Hc : forall st sg ec e0, let e1 := set_connection st sg ec e0 in e1.(em_status) = st /\ e1.(em_signature) = sg /\ e1.(em_error_code) = ec)
      by (by intros ? ? ? []).
    destruct (Hc s.(ss_connection).(cn_status) (connection_signature s) (error_code s) e) as (C1 & C2 & C3).
    unfold remembers, error_code, active_port in *. split_and!; intuition congruence.
  - exact (S5 (S4 (S3 (S2 (S1 Hscreen))))).
  - destruct F5 as [F5 _], F4 as [F4 _], M5 as (_ & _ & _ & _ & M5), M4 as (_ & _ & _ & _ & M4), M3 as (_ & _ & _ & _ & M3).
    rewrite M5, F5, M4, F4, M3. unfold settles. fold s.
    destruct (new_generation s e && (wifi_secure s || (l.(lk_enabled) && insecure s))); [by destruct (dk_emitter d2)|exact G2].
Qed.

(** The state of a run. *)
Lemma run_state initial looks :
  let d := run_notifications initial looks in
  remembers d.(dk_emitter) (previous initial looks) /\ on_screen d /\
  d.(dk_emitter).(em_generation) ∈ generation initial :: map (fun l => generation l.(lk_snapshot)) looks.
Proof.
  induction looks as [|l looks IH] using rev_ind; cbn zeta in *.
  - split; [done|]. split; [|by left]. split; [done|]. split; [done|]. intros before n after E. by destruct before.
  - rewrite run_snoc, last_snoc. destruct IH as (Hr & Hs & Hg). destruct (observe_look_spec l _ _ Hr Hs) as (_ & H1 & H2 & H3).
    split; [done|]. split; [done|]. rewrite H3, map_app, app_comm_cons. apply elem_of_app.
    destruct (settles _ _); [right; by left|by left].
Qed.
Lemma news_spec initial before l :
  let d := run_notifications initial before in
  let e := d.(dk_emitter) in let s := l.(lk_snapshot) in
  (run_notifications initial (before ++ [l])).(dk_shown) = d.(dk_shown) ++ news initial before l /\
  exists a x, topics initial before l =
    said (l.(lk_enabled) && connection_due s e) OfConnection ++ said (l.(lk_enabled) && l.(lk_port_enabled) && port_due s e) OfPort ++
    said (l.(lk_enabled) && wifi_due s e) OfWifi ++ said (l.(lk_enabled) && a) OfAttention ++ said (l.(lk_enabled) && x) OfFailure.
Proof.
  cbn zeta. destruct (run_state initial before) as (Hr & Hs & _). destruct (observe_look_spec l _ _ Hr Hs) as ((a & x & new & H1 & H2) & _).
  unfold topics, news. rewrite run_snoc, H1, drop_app_length. split; [done|]. by exists a, x.
Qed.

Ltac topic_cases := unfold said; repeat match goal with |- context [if ?b then _ else _] => destruct b eqn:? end.
Lemma wifi_topic initial before l :
  OfWifi ∈ topics initial before l <->
  l.(lk_enabled) = true /\ insecure l.(lk_snapshot) = true /\
  new_generation l.(lk_snapshot) (run_notifications initial before).(dk_emitter) = true.
Proof.
  destruct (news_spec initial before l) as (_ & a & x & ->). cbn zeta. unfold wifi_due. rewrite !elem_of_app.
  split.
  - intros [H|[H|[H|[H|H]]]]; unfold said in H; destruct (_ && _) eqn:E in H; try set_solver.
    apply andb_true_iff in E as [-> E]. apply andb_true_iff in E as [-> ->]. done.
  - intros (-> & -> & ->). right; right; left. by left.
Qed.
(** After a warning about a network, the emitter holds on to its generation. *)
Lemma warned_generation initial before l rest :
  OfWifi ∈ topics initial before l -> Forall (fun r => generation r.(lk_snapshot) = generation l.(lk_snapshot)) rest ->
  (run_notifications initial (before ++ [l] ++ rest)).(dk_emitter).(em_generation) = generation l.(lk_snapshot).
Proof.
  intros Hw. induction rest as [|r rest IH] using rev_ind; intros Hall.
  - rewrite app_nil_r, run_snoc. destruct (run_state initial before) as (Hr & Hs & _).
    destruct (observe_look_spec l _ _ Hr Hs) as (_ & _ & _ & ->). apply wifi_topic in Hw as (H1 & H2 & H3).
    unfold settles. rewrite H1, H2, H3. by destruct (wifi_secure _).
  - apply Forall_app in Hall as [Hall Hlast]. apply Forall_inv in Hlast. specialize (IH Hall).
    rewrite !app_assoc, run_snoc, <- app_assoc. destruct (run_state initial (before ++ [l] ++ rest)) as (Hr & Hs & _).
    destruct (observe_look_spec r _ _ Hr Hs) as (_ & _ & _ & ->). by destruct (settles _ _).
Qed.

(** C35: Notifications follow the changes of the state.  A look at the state shows at most one notice of each kind, in a fixed
    order, and none while notifications are off; with them on, the connection is announced exactly when it changed in a way
    that matters, and a forwarded port exactly when it is new.  A warning about the Wi-Fi is only given for a network known
    to be insecure that the tunnel does not protect; a network not seen before is warned about at the first such look, and
    never twice while it stays the same network.  Every notice replaces the last one shown in its place. *)
Theorem notices_follow_changes initial before l :
  let new := l.(lk_snapshot) in let old := previous initial before in
  (run_notifications initial (before ++ [l])).(dk_shown) = (run_notifications initial before).(dk_shown) ++ news initial before l /\
  topics initial before l `sublist_of` [OfConnection; OfPort; OfWifi; OfAttention; OfFailure] /\
  (l.(lk_enabled) = false -> news initial before l = []) /\
  (OfConnection ∈ topics initial before l <-> l.(lk_enabled) = true /\ announces old new) /\
  (OfPort ∈ topics initial before l <->
   l.(lk_enabled) = true /\ l.(lk_port_enabled) = true /\ active_port new <> active_port old /\ active_port new <> None) /\
  (OfWifi ∈ topics initial before l -> l.(lk_enabled) = true /\ insecure new = true) /\
  (l.(lk_enabled) = true -> insecure new = true ->
   generation new ∉ generation initial :: map (fun l => generation l.(lk_snapshot)) before -> OfWifi ∈ topics initial before l) /\
  (forall first warned between, before = first ++ [warned] ++ between -> OfWifi ∈ topics initial first warned ->
   Forall (fun l => generation l.(lk_snapshot) = generation warned.(lk_snapshot)) (between ++ [l]) -> OfWifi ∉ topics initial before l) /\
  chained (run_notifications initial (before ++ [l])).(dk_shown).
Proof.
  intros new old. destruct (run_state initial before) as (Hr & _ & Hg). destruct (run_state initial (before ++ [l])) as (_ & (_ & _ & Hchain) & _).
  destruct (news_spec initial before l) as (Happ & a & x & Ht). cbn zeta in Ht.
  pose proof (connection_due_announces new _ _ Hr) as Hc. pose proof (port_due_new new _ _ Hr) as Hp. fold new in Ht. fold old in Hc, Hp.
  split; [done|]. split; [rewrite Ht; unfold said; repeat case_match; cbn; repeat constructor|]. split.
  { intros Hoff. rewrite Hoff in Ht. cbn in Ht. unfold topics in Ht. by apply map_eq_nil in Ht. }
  split. { rewrite <- Hc, Ht, !elem_of_app. unfold said. split; [|by intros [-> ->]; do 1 left; left].
    intros H. destruct (lk_enabled l), (connection_due _ _); cbn in H; try (split; done); exfalso; repeat case_match; set_solver. }
  split. { rewrite <- Hp, Ht, !elem_of_app. unfold said. split; [|by intros (-> & -> & ->); right; left; left].
    intros H. destruct (lk_enabled l), (lk_port_enabled l), (port_due _ _); cbn in H; try (split_and!; done); exfalso; repeat case_match; set_solver. }
  split. { intros H%wifi_topic. naive_solver. }
  split. { intros He Hi Hn. apply wifi_topic. split; [done|]. split; [done|]. unfold new_generation. apply negb_true_iff, Z.eqb_neq.
    intros E. apply Hn. unfold new, generation in *. by rewrite E. }
  split; [|done]. intros first warned between -> Hw Hall H. apply wifi_topic in H as (_ & _ & H).
  apply Forall_app in Hall as [Hall Hl]. apply Forall_inv in Hl. unfold new_generation in H.
  rewrite (warned_generation initial first warned between Hw Hall), <- Hl in H. unfold generation in H. by rewrite Z.eqb_refl in H.
Qed.
End Emitter.

(** ** A concrete history: an open network, seen twice *)
Definition on_open_wifi : StateSnapshot :=
  let '(mkStateSnapshot r a b c d _ f o st) := StateSnapshot_default in mkStateSnapshot r a b c d (mkNetworkSecurityState true true true 1) f o st.
Definition sample_look : look := mkLook on_open_wifi "es-MX" true true.
Definition sample_answer (shown : list notice) (args : list string) : option (bool * list Z) := Some (true, as_bytes "7").

Lemma notices_follow_changes_witness :
  OfWifi ∈ topics "/icons" sample_answer StateSnapshot_default [] sample_look /\
  OfWifi ∉ topics "/icons" sample_answer StateSnapshot_default [sample_look] sample_look /\
  map no_answer (news "/icons" sample_answer StateSnapshot_default [] sample_look) = [Some 7].
Proof.
  destruct (notices_follow_changes "/icons" sample_answer StateSnapshot_default [] sample_look) as (_ & _ & _ & _ & _ & _ & H & _).
  destruct (notices_follow_changes "/icons" sample_answer StateSnapshot_default [sample_look] sample_look) as (_ & _ & _ & _ & _ & _ & _ & H2 & _).
  assert (H1 : OfWifi ∈ topics "/icons" sample_answer StateSnapshot_default [] sample_look).
  { apply H; [reflexivity|reflexivity|]. apply (bool_decide_unpack _). vm_compute. exact I. }
  split; [exact H1|]. split; [|vm_compute; reflexivity].
  apply (H2 [] sample_look [] eq_refl H1). constructor; [reflexivity|constructor].
Defined.
