(* ===== verification/IpcBridge.v ===== *)
(** The stdio bridge of the desktop's front end ([agent/src/ipc_bridge.rs]): bounded lines from a reader to a writer.

    What the reader delivers is a list of chunks, each the result of one [read]; after the last one it is at its end.
    The writer's calls may fail, and a [write_all] that fails may have written a part. *)
From S2P Require Export Protocol Io.
Open Scope string_scope.
Open Scope Z_scope.
Open Scope list_scope.
Open Scope rust_scope.

Record bridge : Type := mkBridge {
  br_out : list Z;
  br_shut : bool;
  br_faults : list (option (nat * io_error)) }.

(** A call of the writer: the bytes it writes, all of them or those before a failure. *)
Definition writer_call (bytes : list Z) : M bridge unit := fun b =>
  match b.(br_faults) with
  | [] => (Ok tt, mkBridge (b.(br_out) ++ bytes) b.(br_shut) [])
  | None :: rest => (Ok tt, mkBridge (b.(br_out) ++ bytes) b.(br_shut) rest)
  | Some (n, e) :: rest => (Err e, mkBridge (b.(br_out) ++ take n bytes) b.(br_shut) rest)
  end.
Definition shutdown : M bridge unit := writer_call [] ;;! (fun b => (Ok tt, mkBridge b.(br_out) true b.(br_faults))).

Definition frame_too_long : io_error := mkIoError InvalidData "IPC frame exceeds 64 KiB".
(** [ErrorKind::UnexpectedEof]. *)
Definition incomplete_frame : io_error := mkIoError OtherKind "IPC stream ended with an incomplete frame".

(** The bytes of one chunk; the result is the frame begun. *)
Fixpoint forward_chunk (chunk frame : list Z) : M bridge (list Z) :=
  match chunk with
  | [] => ret frame
  | byte :: chunk =>
      if byte =? 10 then
        writer_call frame ;;! writer_call [10] ;;! writer_call [] ;;! forward_chunk chunk []
      else if Z.of_nat (length frame) =? MAX_FRAME_BYTES then throw frame_too_long
      else forward_chunk chunk (frame ++ [byte])
  end.
Fixpoint forward_loop (reads : list (result (list Z) io_error)) (frame : list Z) : M bridge unit :=
  match reads with
  | [] => match frame with [] => shutdown | _ => throw incomplete_frame end
  | Err e :: _ => throw e
  | Ok chunk :: reads => let! frame := forward_chunk chunk frame in forward_loop reads frame
  end.
Definition forward_frames (reads : list (result (list Z) io_error)) : M bridge unit := forward_loop reads [].

(** [run]: whichever direction ends first decides. *)
Definition run_bridge (connected : result unit io_error) (stdin_first : bool)
    (from_stdin from_socket : list (result (list Z) io_error)) (socket stdout : bridge) : result unit io_error * bridge * bridge :=
  match connected with
  | Err e => (Err e, socket, stdout)
  | Ok _ =>
      let '(r1, socket) := forward_frames from_stdin socket in
      let '(r2, stdout) := forward_frames from_socket stdout in
      (if stdin_first then r1 else r2, socket, stdout)
  end.

(** ** The specification: the lines of the whole input *)

(** The complete lines of [bytes], which continue [line], and what follows the last of them. *)
Fixpoint split_lines (line bytes : list Z) : list (list Z) * list Z :=
  match bytes with
  | [] => ([], line)
  | b :: bytes =>
      if b =? 10 then let '(lines, rest) := split_lines [] bytes in (line :: lines, rest)
      else split_lines (line ++ [b]) bytes
  end.
Definition short (line : list Z) : bool := Z.of_nat (length line) <=? MAX_FRAME_BYTES.
(** What the clients of the bridge see: the lines up to the first that is too long. *)
Fixpoint forwarded (lines : list (list Z)) (rest : list Z) : result unit io_error * list Z :=
  match lines with
  | line :: lines =>
      if short line then let '(r, out) := forwarded lines rest in (r, line ++ 10 :: out) else (Err frame_too_long, [])
  | [] => (if negb (short rest) then Err frame_too_long else match rest with [] => Ok tt | _ => Err incomplete_frame end, [])
  end.
Definition forward_spec (input : list Z) : result unit io_error * list Z :=
  let '(lines, rest) := split_lines [] input in forwarded lines rest.

(** ** Lemmas *)
Lemma split_lines_concat line bytes : let '(lines, rest) := split_lines line bytes in
  concat (map (fun l => l ++ [10]) lines) ++ rest = line ++ bytes.
Proof.
  revert line. induction bytes as [|b bytes IH]; intros line; cbn; [by rewrite app_nil_r|]. destruct (b =? 10) eqn:E.
  - apply Z.eqb_eq in E as ->. specialize (IH []). destruct (split_lines [] bytes) as [lines rest]. cbn. rewrite <- !app_assoc. cbn in *. by rewrite IH.
  - specialize (IH (line ++ [b])). destruct (split_lines (line ++ [b]) bytes) as [lines rest]. rewrite IH. by rewrite <- app_assoc.
Qed.
Lemma short_snoc line b : short (line ++ [b]) = (Z.of_nat (length line) + 1 <=? MAX_FRAME_BYTES).
Proof. unfold short. by rewrite length_app, Nat2Z.inj_add. Qed.
(** A line only grows until it ends. *)
Lemma split_lines_long line bytes : short line = false ->
  (let '(lines, rest) := split_lines line bytes in forwarded lines rest) = (Err frame_too_long, []).
Proof.
  revert line. induction bytes as [|b bytes IH]; intros line H; cbn; [by rewrite H|]. destruct (b =? 10).
  - destruct (split_lines [] bytes) as [lines rest]. cbn. by rewrite H.
  - apply IH. rewrite short_snoc. unfold short in H. lia.
Qed.

(** Writes without failures. *)
Definition quiet (out : list Z) (shut : bool) : bridge := mkBridge out shut [].
(** A chunk and the bytes [later] after it: either the chunk is forwarded, or a line is too long. *)
Lemma forward_chunk_quiet chunk frame out later :
  short frame = true ->
  match forward_chunk chunk frame (quiet out false) with
  | (Ok frame', b) => exists more, b = quiet (out ++ more) false /\ short frame' = true /\
      (let '(l, r) := split_lines frame (chunk ++ later) in forwarded l r) =
      (let '(l, r) := split_lines frame' later in let '(res, o) := forwarded l r in (res, more ++ o))
  | (Err e, b) => exists more, b = quiet (out ++ more) false /\
      (let '(l, r) := split_lines frame (chunk ++ later) in forwarded l r) = (Err e, more)
  end.
Proof.
  revert frame out. induction chunk as [|byte chunk IH]; intros frame out Hs; cbn [forward_chunk app].
  - exists []. rewrite app_nil_r. split; [done|]. split; [done|]. destruct (split_lines frame later) as [l r]. by destruct (forwarded l r).
  - cbn [split_lines]. destruct (byte =? 10) eqn:E.
    + cbn. specialize (IH [] (((out ++ frame) ++ [10]) ++ []) eq_refl). unfold bind. cbn. unfold quiet in IH.
      destruct (forward_chunk chunk [] _) as [[frame'|e] b]; destruct IH as (more & -> & IH).
      * exists (frame ++ 10 :: more). destruct IH as [Hs' IH]. split; [unfold quiet; f_equal; rewrite app_nil_r, <- !app_assoc; done|].
        split; [done|]. destruct (split_lines [] (chunk ++ later)) as [l r]. cbn. rewrite Hs, IH.
        destruct (split_lines frame' later) as [l' r']. destruct (forwarded l' r'). by rewrite <- app_assoc.
      * exists (frame ++ 10 :: more). split; [unfold quiet; f_equal; rewrite app_nil_r, <- !app_assoc; done|].
        destruct (split_lines [] (chunk ++ later)) as [l r]. cbn. by rewrite Hs, IH.
    + destruct (_ =? MAX_FRAME_BYTES) eqn:El.
      * exists []. rewrite app_nil_r. split; [done|]. apply split_lines_long. rewrite short_snoc. lia.
      * apply IH. rewrite short_snoc. unfold short in Hs. lia.
Qed.
Lemma forward_loop_quiet chunks frame out :
  short frame = true ->
  let '(r, b) := forward_loop (map Ok chunks) frame (quiet out false) in
  exists more, b = quiet (out ++ more) (is_ok r) /\
    (let '(l, rest) := split_lines frame (concat chunks) in forwarded l rest) = (r, more).
Proof.
  revert frame out. induction chunks as [|chunk chunks IH]; intros frame out Hs.
  - cbn. rewrite Hs. cbn. destruct frame; cbn; exists []; by rewrite ?app_nil_r.
  - cbn [map forward_loop concat]. unfold bind. pose proof (forward_chunk_quiet chunk frame out (concat chunks) Hs) as H.
    destruct (forward_chunk chunk frame _) as [[frame'|e] b].
    + destruct H as (more & -> & Hs' & H). specialize (IH frame' (out ++ more) Hs').
      destruct (forward_loop _ frame' _) as [r b']. destruct IH as (more' & -> & IH). rewrite H.
      destruct (split_lines frame' (concat chunks)) as [l rest]. rewrite IH. exists (more ++ more'). by rewrite app_assoc.
    + destruct H as (more & -> & H). exists more. by rewrite H.
Qed.

(** Failures of the writer only cut the output short. *)
Definition grows {A : Type} (m : M bridge A) : Prop := forall b, b.(br_out) `prefix_of` (m b).2.(br_out).
Definition cut {A : Type} (m : M bridge A) : Prop := forall b,
  let q := m (quiet b.(br_out) b.(br_shut)) in
  ((m b).1 = q.1 /\ (m b).2.(br_out) = q.2.(br_out) /\ (m b).2.(br_shut) = q.2.(br_shut) /\ q.2.(br_faults) = []) \/
  (is_ok (m b).1 = false /\ (m b).2.(br_out) `prefix_of` q.2.(br_out)).
Lemma grows_call bytes : grows (writer_call bytes).
Proof. intros b. unfold writer_call. destruct (br_faults b) as [|[[n e]|] rest]; cbn; by apply prefix_app_r. Qed.
Lemma grows_ret {A : Type} (r : result A io_error) : grows (fun b => (r, b)).
Proof. by intros b. Qed.
Lemma grows_bind {A B : Type} (m : M bridge A) (k : A -> M bridge B) : grows m -> (forall a, grows (k a)) -> grows (bind m k).
Proof.
  intros Hm Hk b. unfold bind. specialize (Hm b). destruct (m b) as [[a|e] b1]; [|done]. etrans; [exact Hm|apply Hk].
Qed.
Lemma cut_call bytes : cut (writer_call bytes).
Proof.
  intros b. unfold writer_call. destruct (br_faults b) as [|[[n e]|] rest]; cbn; [by left|right|by left].
  split; [done|]. apply prefix_app. exists (drop n bytes). by rewrite take_drop.
Qed.
Lemma cut_ret {A : Type} (r : result A io_error) : cut (fun b => (r, b)).
Proof. intros b. by left. Qed.
Lemma cut_bind {A B : Type} (m : M bridge A) (k : A -> M bridge B) :
  cut m -> (forall a, cut (k a)) -> (forall a, grows (k a)) -> cut (bind m k).
Proof.
  intros Hm Hk Hg b. unfold bind. specialize (Hm b). cbn zeta in *. destruct (m b) as [r b1], (m (quiet _ _)) as [rq bq]. cbn in *.
  destruct Hm as [(-> & H1 & H2 & H3)|[H1 H2]].
  - destruct rq as [a|e]; [|by left]. specialize (Hk a b1). rewrite H1, H2 in Hk. destruct bq as [o s f]. cbn in H3. subst f. exact Hk.
  - right. destruct r as [a|e]; [discriminate|]. split; [done|]. cbn. etrans; [exact H2|]. destruct rq as [a|e']; [apply Hg|done].
Qed.
Lemma forward_chunk_cut chunk frame : cut (forward_chunk chunk frame) /\ grows (forward_chunk chunk frame).
Proof.
  revert frame. induction chunk as [|byte chunk IH]; intros frame; cbn [forward_chunk]; [by split; [apply cut_ret|apply grows_ret]|].
  destruct (byte =? 10); [|destruct (_ =? _); [by split; [apply cut_ret|apply grows_ret]|apply IH]].
  assert (H : forall bytes (k : unit -> M bridge (list Z)), (forall u, cut (k u) /\ grows (k u)) -> cut (bind (writer_call bytes) k) /\ grows (bind (writer_call bytes) k)).
  { intros bytes k Hk. split; [apply cut_bind; [apply cut_call|apply Hk..]|apply grows_bind; [apply grows_call|apply Hk]]. }
  do 3 (apply H; intros _). apply IH.
Qed.
Lemma forward_loop_cut reads frame : cut (forward_loop reads frame) /\ grows (forward_loop reads frame).
Proof.
  revert frame. induction reads as [|[chunk|e] reads IH]; intros frame; cbn [forward_loop].
  - destruct frame; [|by split; [apply cut_ret|apply grows_ret]]. split.
    + apply cut_bind; [apply cut_call|intros _ b; by left|by intros _ b].
    + apply grows_bind; [apply grows_call|by intros _ b].
  - split; [apply cut_bind; [apply forward_chunk_cut|intros f; apply IH..]|apply grows_bind; [apply forward_chunk_cut|intros f; apply IH]].
  - by split; [apply cut_ret|apply grows_ret].
Qed.

(** The chunks that arrive before the reader fails, if it does. *)
Fixpoint delivered (reads : list (result (list Z) io_error)) : list (list Z) :=
  match reads with Ok chunk :: reads => chunk :: delivered reads | _ => [] end.
Lemma forward_loop_delivered reads frame out :
  (forward_loop reads frame (quiet out false)).2.(br_out) = (forward_loop (map Ok (delivered reads)) frame (quiet out false)).2.(br_out).
Proof.
  revert frame out. induction reads as [|[chunk|e] reads IH]; intros frame out; [done| |].
  - cbn [delivered map forward_loop]. unfold bind. destruct (forward_chunk_cut chunk frame) as [Hc _]. specialize (Hc (quiet out false)).
    assert (H : match forward_chunk chunk frame (quiet out false) with (Ok _, b) => exists o, b = quiet o false | _ => True end).
    { clear. revert frame out. induction chunk as [|byte chunk IH]; intros frame out; cbn [forward_chunk]; [by exists out|].
      destruct (byte =? 10); [|destruct (_ =? _); [done|apply IH]]. unfold bind. cbn. apply IH. }
    destruct (forward_chunk chunk frame _) as [[f|e] b]; [|done]. destruct H as [o ->]. apply IH.
  - cbn [delivered map forward_loop]. by destruct frame; cbn; rewrite ?app_nil_r.
Qed.

Lemma forwarded_lines lines rest : exists sent, sent `prefix_of` lines /\ Forall (fun l => short l = true) sent /\
  (forwarded lines rest).2 = concat (map (fun l => l ++ [10]) sent) /\ ((forwarded lines rest).1 = Ok tt -> sent = lines /\ rest = []).
Proof.
  induction lines as [|line lines IH]; cbn.
  - exists []. split; [done|]. split; [done|]. split; [done|]. destruct (negb _); [done|]. by destruct rest.
  - destruct (short line) eqn:E; [|exists []; split; [apply prefix_nil|done]].
    destruct IH as (sent & [more ->] & Hs & H1 & H2). destruct (forwarded _ rest) as [r o]. cbn in *. subst o.
    exists (line :: sent). split; [by exists more|]. split; [by constructor|]. cbn [map concat snd]. rewrite <- app_assoc. split; [done|].
    intros Hr. destruct (H2 Hr) as [E2 E3]. split; [by f_equal|done].
Qed.

(** ** Properties *)

(** C36: The bridge passes on exactly the complete lines of what it reads, up to the first that exceeds 64 KiB, however the
    input is cut into chunks: without failures its result and its output are those of the specification on the whole input,
    and the writer is shut down exactly when it succeeds.  It succeeds only if every byte was passed on.  Whatever calls of
    the reader and the writer fail, what was written is a prefix of these lines, none of them longer than the limit. *)
Theorem bridge_forwards_frames reads faults :
  (forall chunks, reads = map Ok chunks -> faults = [] ->
   forward_frames reads (mkBridge [] false faults) =
   (let '(r, out) := forward_spec (concat chunks) in (r, mkBridge out (is_ok r) [])) /\
   ((forward_spec (concat chunks)).1 = Ok tt -> (forward_spec (concat chunks)).2 = concat chunks)) /\
  (exists lines more,
    (forward_frames reads (mkBridge [] false faults)).2.(br_out) `prefix_of` concat (map (fun l => l ++ [10]) lines) /\
    Forall (fun l => short l = true) lines /\ concat (delivered reads) = concat (map (fun l => l ++ [10]) lines) ++ more).
Proof.
  unfold forward_frames, forward_spec. split.
  - intros chunks -> ->. pose proof (forward_loop_quiet chunks [] [] eq_refl) as H. unfold quiet in H.
    destruct (forward_loop _ [] _) as [r b]. destruct H as (out & -> & H).
    pose proof (split_lines_concat [] (concat chunks)) as Hs. destruct (split_lines [] (concat chunks)) as [lines rest]. rewrite H. split.
    + done.
    + intros Hr. destruct (forwarded_lines lines rest) as (sent & _ & _ & H1 & H2). rewrite H in H1, H2. cbn in *.
      destruct (H2 Hr) as [-> ->]. rewrite app_nil_r in Hs. by rewrite H1.
  - destruct (forward_loop_cut reads []) as [Hc _]. specialize (Hc (mkBridge [] false faults)). cbn zeta in Hc. cbn [br_out br_shut] in Hc.
    pose proof (forward_loop_delivered reads [] []) as Hd. pose proof (forward_loop_quiet (delivered reads) [] [] eq_refl) as H.
    destruct (forward_loop (map Ok (delivered reads)) [] _) as [r b]. destruct H as (out & -> & H). cbn in Hd.
    pose proof (split_lines_concat [] (concat (delivered reads))) as Hs. destruct (split_lines [] _) as [lines rest].
    destruct (forwarded_lines lines rest) as (sent & [more ->] & H1 & H2 & _). rewrite H in H2. cbn in H2.
    exists sent, (concat (map (fun l => l ++ [10]) more) ++ rest). split; [|split; [done|]].
    + rewrite <- H2, <- Hd. destruct Hc as [(_ & -> & _)|[_ Hp]]; done.
    + cbn [app] in Hs. rewrite <- Hs, map_app, concat_app, <- app_assoc. done.
Qed.

(** ** A concrete input: two lines in three chunks, and a reader that fails after the first *)
Lemma bridge_forwards_frames_witness :
  forward_frames (map Ok [[111]; [110; 10; 116]; [10]]) (mkBridge [] false []) = (Ok tt, mkBridge [111; 110; 10; 116; 10] true []) /\
  exists lines : list (list Z),
    (forward_frames [Ok [111; 10; 116]; Err frame_too_long] (mkBridge [] false [])).2.(br_out) `prefix_of` concat (map (fun l => l ++ [10]) lines).
Proof.
  destruct (bridge_forwards_frames (map Ok [[111]; [110; 10; 116]; [10]]) []) as [H _].
  destruct (H [[111]; [110; 10; 116]; [10]] eq_refl eq_refl) as [H1 _]. split; [rewrite H1; vm_compute; reflexivity|].
  destruct (bridge_forwards_frames [Ok [111; 10; 116]; Err frame_too_long] []) as [_ (lines & more & H2 & _)]. exists lines. exact H2.
Defined.
