(* ===== verification/NativeErr.v ===== *)
(** [NativeError] of [agent/src/native_backend/mod.rs], the error type inside the native backend, and
    its translation to the [BackendError] clients see. *)
From S2P Require Export Protocol.
Open Scope string_scope.
Open Scope Z_scope.
Open Scope list_scope.
Open Scope rust_scope.

Record NativeError : Type := mkNativeError {
  ne_code : string;
  ne_message : string;
  ne_details : option json;
  ne_retryable : bool;
  ne_source : option string }.

Abbreviation NativeResult A := (result A NativeError).

Definition NativeError_new (code message : string) : NativeError := mkNativeError code message None false None.
Definition ne_with_details (details : json) (e : NativeError) : NativeError :=
  mkNativeError e.(ne_code) e.(ne_message) (Some details) e.(ne_retryable) e.(ne_source).
Definition ne_set_retryable (r : bool) (e : NativeError) : NativeError :=
  mkNativeError e.(ne_code) e.(ne_message) e.(ne_details) r e.(ne_source).
Definition ne_with_source (source : string) (e : NativeError) : NativeError :=
  mkNativeError e.(ne_code) e.(ne_message) e.(ne_details) e.(ne_retryable) (Some source).

Definition backend_error (e : NativeError) : BackendError :=
  let error := retryable e.(ne_retryable) (BackendError_new e.(ne_code) e.(ne_message)) in
  let details := unwrap_or (e.(ne_details) ?> as_object) ∅ in
  let details := match e.(ne_source) with Some s => <["source" := Str s]> details | None => details end in
  if bool_decide (details = ∅) then error else with_details (Obj details) error.

(** The error type of a handler's answer. *)
Definition native_answer (r : NativeResult json) : BackendResult := res_map_err backend_error r.

(** Code, retryability and every detail but [source] reach the client unchanged. *)
Lemma backend_error_faithful e key v :
  err_code (backend_error e) = ne_code e /\ err_retryable (backend_error e) = ne_retryable e /\
  (key <> "source" -> (ne_details e ?> jget key) = Some v -> (err_details (backend_error e) ?> jget key) = Some v).
Proof.
  unfold backend_error. set (d := match ne_source e with Some _ => _ | None => _ end).
  split_and!; [by case_bool_decide..|]. intros Hk Hd.
  assert (Hv : d !! key = Some v).
  { destruct (ne_details e) as [j|]; [|discriminate]. simpl in Hd. destruct j as [| | | | |m]; try discriminate.
    simpl in Hd. unfold d. simpl. destruct (ne_source e); [by rewrite lookup_insert_ne|done]. }
  case_bool_decide as H; [by rewrite H, lookup_empty in Hv|]. exact Hv.
Qed.
