(* ===== verification/CatalogModel.v ===== *)
(** The server catalog's data ([agent/src/native_backend/models.rs]) and the validation of a server's
    endpoint ([agent/src/native_backend/server_validation.rs]).

    Loads and features are machine integers with their bounds kept by the decoder; scores and
    coordinates are doubles.  Cryptography and serde_json's compact text form are the class
    [ServerCrypto]. *)
From Stdlib Require Import SpecFloat.
From S2P Require Export NativeErr SplitModel.
Open Scope string_scope.
Open Scope Z_scope.
Open Scope list_scope.
Open Scope rust_scope.

Definition FEATURE_SECURE_CORE : Z := Z.shiftl 1 0.
Definition FEATURE_TOR : Z := Z.shiftl 1 1.
Definition FEATURE_P2P : Z := Z.shiftl 1 2.
Definition FEATURE_STREAMING : Z := Z.shiftl 1 3.
Definition FEATURE_IPV6 : Z := Z.shiftl 1 4.
Definition FEATURE_RESTRICTED : Z := Z.shiftl 1 5.
Definition FEATURE_PARTNER : Z := Z.shiftl 1 6.
Definition FEATURE_DOUBLE_RESTRICTED : Z := Z.shiftl 1 7.
Definition FEATURE_B2B : Z := Z.lor FEATURE_RESTRICTED FEATURE_DOUBLE_RESTRICTED.
Definition FEATURE_NON_STANDARD : Z :=
  Z.lor (Z.lor (Z.lor (Z.lor FEATURE_SECURE_CORE FEATURE_TOR) FEATURE_RESTRICTED) FEATURE_PARTNER)
    FEATURE_DOUBLE_RESTRICTED.

Record PhysicalServer : Type := mkPhysical {
  ph_id : string;
  ph_entry_ip : string;
  ph_exit_ip : string;
  ph_domain : string;
  ph_status : Z;
  ph_x25519_public_key : string;
  ph_label : option string;
  ph_signature : option string;
  ph_extra : gmap string json }.

Record ServerLocation : Type := mkLocation {
  loc_lat : option spec_float;
  loc_long : option spec_float }.

Record LogicalServer : Type := mkLogical {
  ls_id : string;
  ls_name : string;
  ls_entry_country : string;
  ls_exit_country : string;
  ls_host_country : option string;
  ls_city : string;
  ls_state : string;
  ls_region : option string;
  ls_domain : string;
  ls_tier : Z;
  ls_features : Z;
  ls_load : Z;
  ls_score : spec_float;
  ls_status : Z;
  ls_location : ServerLocation;
  ls_servers : list PhysicalServer;
  ls_vpn_gateway_id : option string;
  ls_gateway_name : string;
  ls_extra : gmap string json }.

Record ServerCatalog : Type := mkCatalog {
  cat_expiration_time : spec_float;
  cat_loads_expiration_time : spec_float;
  cat_max_tier : Z;
  cat_logical_servers : list LogicalServer;
  cat_extra : gmap string json }.

(** [server.state = state]. *)
Definition set_state (state : string) (l : LogicalServer) : LogicalServer :=
  mkLogical l.(ls_id) l.(ls_name) l.(ls_entry_country) l.(ls_exit_country) l.(ls_host_country) l.(ls_city)
    state l.(ls_region) l.(ls_domain) l.(ls_tier) l.(ls_features) l.(ls_load) l.(ls_score) l.(ls_status)
    l.(ls_location) l.(ls_servers) l.(ls_vpn_gateway_id) l.(ls_gateway_name) l.(ls_extra).

(** [features & bits != 0]. *)
Definition has_feature (bits : Z) (l : LogicalServer) : bool := negb (Z.land l.(ls_features) bits =? 0).

Definition active (p : PhysicalServer) : bool := p.(ph_status) =? 1.
Definition enabled (l : LogicalServer) : bool := (l.(ls_status) =? 1) && existsb active l.(ls_servers).
Definition maintenance (l : LogicalServer) : bool := negb (enabled l).
Definition standard (l : LogicalServer) : bool := Z.land l.(ls_features) FEATURE_NON_STANDARD =? 0.
Definition gateway_name (l : LogicalServer) : string :=
  if is_empty l.(ls_gateway_name) then unwrap_or (get_str l.(ls_extra) "GatewayName") "" else l.(ls_gateway_name).
Definition host_country_code (l : LogicalServer) : option string :=
  opt_filter (fun code => negb (is_empty code)) (option_map trim l.(ls_host_country)).

(** The crate [isocountry]: the English name of a country code, whatever its case. *)
Class Countries : Type := mkCountries { iso_country_name : string -> option string }.

Definition country_name `{Countries} (code : string) : string :=
  unwrap_or (iso_country_name code) (to_ascii_uppercase code).

Definition jfloat (f : spec_float) : json := Number (Float f).

Definition serialized `{Countries} (l : LogicalServer) : gmap string json :=
  list_to_map [
    ("id", Str l.(ls_id));
    ("name", Str l.(ls_name));
    ("country_code", Str l.(ls_exit_country));
    ("country_name", Str (country_name l.(ls_exit_country)));
    ("entry_country_code", Str l.(ls_entry_country));
    ("entry_country_name", Str (country_name l.(ls_entry_country)));
    ("state", Str l.(ls_state));
    ("city", Str (if is_empty l.(ls_city) then l.(ls_state) else l.(ls_city)));
    ("latitude", jopt jfloat l.(ls_location).(loc_lat));
    ("longitude", jopt jfloat l.(ls_location).(loc_long));
    ("load", jnum l.(ls_load));
    ("tier", jnum l.(ls_tier));
    ("enabled", Bool (enabled l));
    ("maintenance", Bool (maintenance l));
    ("secure_core", Bool (has_feature FEATURE_SECURE_CORE l));
    ("tor", Bool (has_feature FEATURE_TOR l));
    ("p2p", Bool (has_feature FEATURE_P2P l));
    ("streaming", Bool (has_feature FEATURE_STREAMING l));
    ("ipv6", Bool (has_feature FEATURE_IPV6 l));
    ("restricted", Bool (has_feature FEATURE_B2B l));
    ("partner", Bool (has_feature FEATURE_PARTNER l));
    ("smart_routing", Bool (match host_country_code l with Some _ => true | None => false end));
    ("host_country_code", jopt Str (host_country_code l));
    ("host_country_name", jopt (fun code => Str (country_name code)) (host_country_code l));
    ("gateway_name", Str (gateway_name l))].

(** ** Validation of an endpoint *)
Class ServerCrypto : Type := mkServerCrypto {
  (** Standard base64 with padding; the decoded bytes. *)
  base64_decode : string -> option string;
  (** The text of the error for what is not base64. *)
  base64_refusal : string -> string;
  VerifyingKey : Type;
  Signature : Type;
  signature_from_slice : string -> option Signature;
  verify_strict : VerifyingKey -> string -> Signature -> bool;
  (** [VerifyingKey::from_public_key_der] of the pinned key. *)
  pinned_key : VerifyingKey;
  (** [serde_json::to_vec]. *)
  json_compact : json -> string }.

Definition invalid_server : NativeError :=
  ne_set_retryable true (NativeError_new "server_validation_failed"
    "The VPN server could not be verified. Refresh the server list and try again.").

Section Validation.
Context {L : IpLib} {C : ServerCrypto}.

Definition signed_payload (p : PhysicalServer) : string :=
  json_compact (jobj [("Server", jobj [("EntryIP", Str p.(ph_entry_ip)); ("Label", jopt Str p.(ph_label))])]).

Definition is_ascii (s : string) : bool := str_forall (fun a => byte a <? 128) s.

Definition validate_with_key (p : PhysicalServer) (key : VerifyingKey) : NativeResult unit :=
  if bool_decide (addr_from_str p.(ph_entry_ip) = None)
     || match p.(ph_label) with Some label => negb (is_ascii label) | None => false end
     || negb (str_len p.(ph_x25519_public_key) =? 44)
     || match base64_decode p.(ph_x25519_public_key) with Some key => negb (str_len key =? 32) | None => true end
  then Err invalid_server
  else
    let? signature := ok_or (opt_filter (fun s => str_len s =? 88) p.(ph_signature)) invalid_server in
    let? signature := ok_or (base64_decode signature) invalid_server in
    let? signature := ok_or (signature_from_slice signature) invalid_server in
    if verify_strict key (signed_payload p) signature then Ok tt else Err invalid_server.

Definition validate_server (p : PhysicalServer) : NativeResult unit := validate_with_key p pinned_key.

(** An accepted endpoint has an address, a 32-byte key and a signature, by the pinned key, of exactly
    its address and label; in particular nothing else of it is protected. *)
Lemma validate_server_sound p :
  validate_server p = Ok tt ->
  (exists a, addr_from_str p.(ph_entry_ip) = Some a) /\
  (exists key, base64_decode p.(ph_x25519_public_key) = Some key /\ str_len key = 32) /\
  (exists text bytes signature, p.(ph_signature) = Some text /\ base64_decode text = Some bytes /\
     signature_from_slice bytes = Some signature /\ verify_strict pinned_key (signed_payload p) signature = true).
Proof.
  unfold validate_server, validate_with_key. destruct (_ || _) eqn:E; [discriminate|].
  rewrite !orb_false_iff in E. destruct E as (((Ea & _) & _) & Ek). apply bool_decide_eq_false in Ea.
  intros H. split_and!.
  - destruct (addr_from_str _) as [addr|]; [by exists addr|done].
  - destruct (base64_decode (ph_x25519_public_key p)) as [key|]; [|discriminate].
    exists key. split; [done|]. apply negb_false_iff in Ek. by apply Z.eqb_eq.
  - destruct (ph_signature p) as [text|]; [|discriminate]. cbn [opt_filter] in H.
    destruct (str_len text =? 88); [|discriminate]. cbn [ok_or res_bind] in H.
    destruct (base64_decode text) as [bytes|] eqn:Eb; [|discriminate]. cbn [ok_or res_bind] in H.
    destruct (signature_from_slice bytes) as [signature|] eqn:Es; [|discriminate]. cbn [ok_or res_bind] in H.
    destruct (verify_strict _ _ _) eqn:Ev; [|discriminate]. by exists text, bytes, signature.
Qed.
End Validation.
