(* ===== verification/Catalog.v ===== *)
(** Choosing a server ([agent/src/native_backend/catalog.rs], [ServerCatalog::select]).

    References to catalog entries are their positions, so that two equal entries stay different
    candidates ([ptr::eq]).  Random draws are the parameter [draw]: the [k]th call of [choose] on a list
    of length [n > 0] takes the element at [draw k n], reduced to the length. *)
From Stdlib Require Import SpecFloat.
From S2P Require Export CatalogModel StoreProfiles.
Open Scope string_scope.
Open Scope Z_scope.
Open Scope list_scope.
Open Scope rust_scope.

(** ** States of cities *)
Abbreviation CityStates := (gmap (string * string) (gset string)).

Definition add_city_state (states : CityStates) (l : LogicalServer) : CityStates :=
  if negb (is_empty l.(ls_city)) && negb (is_empty (trim l.(ls_state)))
  then
    let key := (l.(ls_exit_country), l.(ls_city)) in
    <[key := {[l.(ls_state)]} ∪ unwrap_or (states !! key) ∅]> states
  else states.
Definition city_states (c : ServerCatalog) : CityStates := foldl add_city_state ∅ c.(cat_logical_servers).

Definition canonical_state (l : LogicalServer) (states : CityStates) : string :=
  if negb (is_empty (trim l.(ls_state))) then l.(ls_state)
  else
    match states !! (l.(ls_exit_country), l.(ls_city)) with
    | Some found => match elements found with [state] => state | _ => "" end
    | None => ""
    end.

Definition has_endpoint_signatures (c : ServerCatalog) : bool :=
  let endpoints := retain CatalogModel.active (concat (map ls_servers c.(cat_logical_servers))) in
  match endpoints with
  | [] => false
  | _ => forallb (fun p => match p.(ph_signature) with Some s => negb (is_empty s) | None => false end) endpoints
  end.

Definition excluded_location_matches (location : ExcludedLocation) (l : LogicalServer) (state : string) : bool :=
  if has_feature FEATURE_SECURE_CORE l && String.eqb location.(el_kind) "country"
     && eq_ignore_ascii_case l.(ls_entry_country) location.(el_country_code)
  then true
  else if negb (eq_ignore_ascii_case l.(ls_exit_country) location.(el_country_code)) then false
  else if String.eqb location.(el_kind) "country" then true
  else if String.eqb location.(el_kind) "state" then eq_ignore_ascii_case state location.(el_state)
  else if String.eqb location.(el_kind) "city" then
    (is_empty location.(el_state) || eq_ignore_ascii_case state location.(el_state))
    && eq_ignore_ascii_case l.(ls_city) location.(el_city)
  else false.

(** ** The request *)
Record selection : Type := mkSelection {
  sl_server_name : string;
  sl_country_code : string;
  sl_entry_country_code : string;
  sl_state : string;
  sl_city : string;
  sl_gateway_name : string;
  sl_secure_core : bool;
  sl_p2p : bool;
  sl_tor : bool;
  sl_random : bool;
  sl_random_server : bool;
  sl_exclude_my_country : bool;
  sl_free_random : bool;
  sl_exclude_server_name : string }.

Definition object_string (target : gmap string json) (key : string) : string :=
  trim (unwrap_or (get_str target key) "").
Definition object_bool (target : gmap string json) (key : string) : bool := unwrap_or (get_bool target key) false.

Definition invalid_params (message : string) : NativeError := NativeError_new "invalid_params" message.

Definition selection_of (target : gmap string json) : selection :=
  mkSelection (object_string target "server_name") (to_ascii_uppercase (object_string target "country_code"))
    (to_ascii_uppercase (object_string target "entry_country_code")) (object_string target "state")
    (object_string target "city") (object_string target "gateway_name") (object_bool target "secure_core")
    (object_bool target "p2p") (object_bool target "tor") (object_bool target "random")
    (object_bool target "random_server") (object_bool target "exclude_my_country")
    (object_bool target "free_random") (object_string target "exclude_server_name").

Definition bool_count (b : bool) : Z := if b then 1 else 0.

(** The checks on the request; [device_country] is already trimmed and in upper case. *)
Definition selection_error (s : selection) (device_country : string) : option NativeError :=
  let feature_count := bool_count s.(sl_secure_core) + bool_count s.(sl_p2p) + bool_count s.(sl_tor) in
  if (1 <? feature_count) || (negb (is_empty s.(sl_gateway_name)) && (0 <? feature_count))
  then Some (invalid_params "Gateway, Secure Core, P2P and Tor target modes cannot be combined")
  else if (negb (is_empty s.(sl_state)) || negb (is_empty s.(sl_city))) && is_empty s.(sl_country_code)
  then Some (invalid_params "State/city connection targets require country_code")
  else if negb (is_empty s.(sl_entry_country_code)) && negb s.(sl_secure_core)
  then Some (invalid_params "Secure Core entry-country targets require secure_core")
  else if s.(sl_random) && s.(sl_random_server)
  then Some (invalid_params "Country-random and server-random selection cannot be combined")
  else if s.(sl_exclude_my_country) && is_empty device_country
  then Some (ne_set_retryable true (NativeError_new "device_location_unavailable"
               "The current country is unavailable, so it cannot be excluded"))
  else None.

(** ** Candidates *)
Section Select.
Context (states : CityStates) (s : selection) (tier : Z) (excluded : list ExcludedLocation)
        (device_country : string).

Definition admits (l : LogicalServer) : bool :=
  (is_empty s.(sl_gateway_name) || String.eqb (gateway_name l) s.(sl_gateway_name))
  && (is_empty s.(sl_country_code) || String.eqb l.(ls_exit_country) s.(sl_country_code))
  && (negb s.(sl_exclude_my_country) || negb (eq_ignore_ascii_case l.(ls_exit_country) device_country))
  && (is_empty s.(sl_entry_country_code) || eq_ignore_ascii_case l.(ls_entry_country) s.(sl_entry_country_code))
  && (is_empty s.(sl_state) || eq_ignore_ascii_case (canonical_state l states) s.(sl_state))
  && (is_empty s.(sl_city) || eq_ignore_ascii_case l.(ls_city) s.(sl_city))
  && (negb s.(sl_secure_core) || has_feature FEATURE_SECURE_CORE l)
  && (negb s.(sl_p2p) || has_feature FEATURE_P2P l)
  && (negb s.(sl_tor) || has_feature FEATURE_TOR l)
  && (s.(sl_secure_core) || s.(sl_p2p) || s.(sl_tor) || negb (is_empty s.(sl_gateway_name)) || standard l)
  && (negb s.(sl_free_random) || (l.(ls_tier) =? 0))
  && (is_empty s.(sl_exclude_server_name) || negb (eq_ignore_ascii_case l.(ls_name) s.(sl_exclude_server_name))).

Definition explicit_location : bool :=
  negb (is_empty s.(sl_server_name)) || negb (is_empty s.(sl_country_code))
  || negb (is_empty s.(sl_entry_country_code)) || negb (is_empty s.(sl_state))
  || negb (is_empty s.(sl_city)) || negb (is_empty s.(sl_gateway_name)).

(** Whether the excluded locations apply, and whether a server is outside all of them. *)
Definition exclusions_apply : bool :=
  (0 <? tier) && negb explicit_location && match excluded with [] => false | _ => true end.
Definition not_excluded (l : LogicalServer) : bool :=
  negb (existsb (fun location => excluded_location_matches location l (canonical_state l states)) excluded).

Definition offered (l : LogicalServer) : bool := admits l && (negb exclusions_apply || not_excluded l).

(** [partial_cmp(..).unwrap_or(Equal)], and the stable sort it drives. *)
Definition score_cmp (a b : LogicalServer) : comparison := unwrap_or (SFcompare a.(ls_score) b.(ls_score)) Eq.

Abbreviation candidate := (nat * LogicalServer)%type.

Fixpoint insert_score (x : candidate) (l : list candidate) : list candidate :=
  match l with
  | [] => [x]
  | y :: l' => match score_cmp x.2 y.2 with Gt => y :: insert_score x l' | _ => x :: l end
  end.
Definition sort_by_score (l : list candidate) : list candidate := foldr insert_score [] l.

(** A [BTreeSet] of strings, in order. *)
Fixpoint insert_country (x : string) (l : list string) : list string :=
  match l with
  | [] => [x]
  | y :: l' =>
      match String.compare x y with
      | Lt => x :: l
      | Eq => l
      | Gt => y :: insert_country x l'
      end
  end.
Definition countries_of (l : list candidate) : list string :=
  foldl (fun set c => insert_country c.2.(ls_exit_country) set) [] l.

Context (draw : nat -> nat -> nat).

Definition choose {A : Type} (k : nat) (l : list A) : option A := l !! (draw k (length l) mod length l)%nat.

Definition all_candidates_excluded : NativeError :=
  NativeError_new "all_candidates_excluded"
    "Every available server for this connection is in Excluded locations".

(** The logical server of one turn and the number of draws made so far. *)
Definition pick (available : list candidate) (k : nat) : NativeResult (option candidate * nat) :=
  if negb (is_empty s.(sl_server_name))
  then Ok (find_first (fun c => eq_ignore_ascii_case c.2.(ls_name) s.(sl_server_name)) available, k)
  else
    let admitted := retain (fun c : candidate => admits c.2) available in
    let candidates := if exclusions_apply then retain (fun c => not_excluded c.2) admitted else admitted in
    if exclusions_apply && match admitted with [] => false | _ => true end
       && match candidates with [] => true | _ => false end
    then Err all_candidates_excluded
    else
      let '(candidates, k) :=
        if s.(sl_random) || s.(sl_free_random) then
          let country := choose k (countries_of candidates) in
          (retain (fun c => bool_decide (country = Some c.2.(ls_exit_country))) candidates, S k)
        else (candidates, k) in
      if s.(sl_random_server) then Ok (choose k candidates, S k)
      else Ok (head (sort_by_score candidates), k).

Definition server_not_found : NativeError :=
  NativeError_new "server_not_found" "No available Proton server matches this target".
Definition no_verified_endpoint : NativeError :=
  ne_set_retryable true (NativeError_new "server_validation_failed"
    "No verified endpoint is available for this connection").
Definition feature_mismatch : NativeError :=
  NativeError_new "server_feature_mismatch" "Selected server does not provide the requested feature".

Definition lacks_feature (l : LogicalServer) : bool :=
  (s.(sl_secure_core) && negb (has_feature FEATURE_SECURE_CORE l))
  || (s.(sl_p2p) && negb (has_feature FEATURE_P2P l))
  || (s.(sl_tor) && negb (has_feature FEATURE_TOR l)).

Context (validate : PhysicalServer -> NativeResult unit).

Definition verified (l : LogicalServer) : list PhysicalServer :=
  retain (fun p => CatalogModel.active p && is_ok (validate p)) l.(ls_servers).

Record ConnectionTarget : Type := mkTarget {
  tg_logical : LogicalServer;
  tg_physical : PhysicalServer }.

(** The loop: every turn without a verified endpoint removes a server, so the number of servers is
    enough fuel. *)
Fixpoint select_loop (fuel : nat) (available : list candidate) (rejected : bool) (k : nat)
    : NativeResult ConnectionTarget :=
  match fuel with
  | O => Err server_not_found
  | S fuel =>
      let? '(found, k) := pick available k in
      let? c := ok_or found (if rejected then no_verified_endpoint else server_not_found) in
      if lacks_feature c.2 then Err feature_mismatch
      else
        match choose k (verified c.2) with
        | Some physical => Ok (mkTarget (set_state (canonical_state c.2 states) c.2) physical)
        | None =>
            let available := retain (fun d : candidate => negb (Nat.eqb d.1 c.1)) available in
            if negb (is_empty s.(sl_server_name)) || match available with [] => true | _ => false end
            then Err no_verified_endpoint
            else select_loop fuel available true (S k)
        end
  end.

Definition available_servers (c : ServerCatalog) : list candidate :=
  retain (fun p : candidate => enabled p.2 && (p.2.(ls_tier) <=? tier))
    (imap (fun i l => (i, l)) c.(cat_logical_servers)).
End Select.

Definition select_validated (draw : nat -> nat -> nat) (validate : PhysicalServer -> NativeResult unit)
    (c : ServerCatalog) (params : json) (tier : Z) (excluded : list ExcludedLocation) (device_country : string)
    : NativeResult ConnectionTarget :=
  match jget "target" params ?> as_object with
  | None => Err (invalid_params "target must be a JSON object")
  | Some target =>
      let s := selection_of target in
      let device_country := to_ascii_uppercase (trim device_country) in
      match selection_error s device_country with
      | Some e => Err e
      | None =>
          let available := available_servers tier c in
          select_loop (city_states c) s tier excluded device_country draw validate (S (length available))
            available false 0
      end
  end.

Definition select `{IpLib} `{ServerCrypto} (draw : nat -> nat -> nat) (c : ServerCatalog) (params : json)
    (tier : Z) (excluded : list ExcludedLocation) (device_country : string) : NativeResult ConnectionTarget :=
  select_validated draw validate_server c params tier excluded device_country.
