(* ===== verification/CatalogSelect.v ===== *)
(** Correctness of the server selection: what it returns, that the best server wins, and that it finds
    a server whenever there is one. *)
From Stdlib Require Import SpecFloat.
From S2P Require Export Catalog.
Open Scope string_scope.
Open Scope Z_scope.
Open Scope list_scope.
Open Scope rust_scope.

(** ** Scores are ordered *)

(** The doubles other than NaN in their order, as triples of integers in lexicographic order. *)
Definition score_key (f : spec_float) : Z * Z * Z :=
  match f with
  | S754_zero _ | S754_nan => (0, 0, 0)
  | S754_infinity true => (-2, 0, 0)
  | S754_infinity false => (2, 0, 0)
  | S754_finite false m e => (1, e, Z.pos m)
  | S754_finite true m e => (-1, - e, - Z.pos m)
  end.
Definition is_nan (f : spec_float) : bool := match f with S754_nan => true | _ => false end.

Definition lex (a b : Z * Z * Z) : Prop :=
  a.1.1 < b.1.1 \/ (a.1.1 = b.1.1 /\ (a.1.2 < b.1.2 \/ (a.1.2 = b.1.2 /\ a.2 <= b.2))).

Lemma lex_trans a b c : lex a b -> lex b c -> lex a c.
Proof. unfold lex. lia. Qed.
Lemma lex_total a b : lex a b \/ lex b a.
Proof. unfold lex. lia. Qed.

Lemma SFcompare_lex f g :
  is_nan f = false -> is_nan g = false ->
  unwrap_or (SFcompare f g) Eq <> Gt <-> lex (score_key f) (score_key g).
Proof.
  unfold lex. destruct f as [[]|[]| |[] m e], g as [[]|[]| |[] m' e']; try discriminate; intros _ _; simpl;
    try (split; [intros; lia|intros; discriminate]); try (split; [congruence|intros; lia]).
  - destruct (Z.compare_spec e e') as [->|He|He]; simpl; [|split; [congruence|lia]|split; [lia|congruence]].
    change (PosDef.Pos.compare_cont Eq m m') with (Pos.compare m m').
    destruct (Pos.compare_spec m m') as [->|Hm|Hm]; simpl; split; try congruence; lia.
  - destruct (Z.compare_spec e e') as [->|He|He]; simpl; [|split; [lia|congruence]|split; [congruence|lia]].
    change (PosDef.Pos.compare_cont Eq m m') with (Pos.compare m m').
    destruct (Pos.compare_spec m m') as [->|Hm|Hm]; simpl; split; try congruence; lia.
Qed.

Section Best.
Context (nan_free : LogicalServer -> Prop) (Hnan : forall l, nan_free l -> is_nan (ls_score l) = false).

Definition no_worse (a b : LogicalServer) : Prop := score_cmp a b <> Gt.

Lemma no_worse_lex a b :
  nan_free a -> nan_free b -> no_worse a b <-> lex (score_key (ls_score a)) (score_key (ls_score b)).
Proof. intros Ha Hb. apply SFcompare_lex; by apply Hnan. Qed.

Lemma insert_score_perm x l : insert_score x l ≡ₚ x :: l.
Proof.
  induction l as [|y l IH]; [done|]. simpl. destruct (score_cmp x.2 y.2); try done.
  rewrite IH. apply Permutation_swap.
Qed.
Lemma sort_by_score_perm l : sort_by_score l ≡ₚ l.
Proof. induction l as [|x l IH]; [done|]. simpl. by rewrite insert_score_perm, IH. Qed.

Lemma head_best l c :
  Forall (fun d : nat * LogicalServer => nan_free d.2) l -> head (sort_by_score l) = Some c ->
  forall d, d ∈ l -> no_worse c.2 d.2.
Proof.
  revert c. induction l as [|x l IH]; intros c Hn; [discriminate|]. apply Forall_cons in Hn as [Hx Hl]. simpl.
  assert (Hself : forall a, nan_free a -> no_worse a a) by (intros a Ha; rewrite no_worse_lex by done; unfold lex; lia).
  destruct (sort_by_score l) as [|y ys] eqn:Es.
  - intros [= <-] d Hd. assert (Hnil : l = []) by (apply Permutation_nil_r; rewrite <- Es; symmetry; apply sort_by_score_perm).
    subst l. apply list_elem_of_singleton in Hd as ->. by apply Hself.
  - specialize (IH y Hl eq_refl). assert (Hy : nan_free y.2).
    { rewrite Forall_forall in Hl. apply Hl. rewrite <- (sort_by_score_perm l), Es. left. }
    assert (Hall : forall d, d ∈ l -> nan_free d.2) by (intros d Hd; rewrite Forall_forall in Hl; by apply Hl).
    assert (Hstep : forall a d, nan_free a -> no_worse a y.2 -> d ∈ l -> no_worse a d.2).
    { intros a d Ha Hay Hd. rewrite no_worse_lex by auto. apply lex_trans with (score_key (ls_score y.2));
        rewrite <- no_worse_lex by auto; auto. }
    cbn [insert_score]. destruct (score_cmp x.2 y.2) eqn:Ec; intros [= <-] d [->|Hd]%elem_of_cons; auto.
    + apply Hstep; [done| |done]. unfold no_worse. congruence.
    + apply Hstep; [done| |done]. unfold no_worse. congruence.
    + destruct (lex_total (score_key (ls_score y.2)) (score_key (ls_score x.2))) as [H|H];
        rewrite <- no_worse_lex in H by done; [done|]. by destruct H.
Qed.
End Best.

(** ** One turn *)
Section Turn.
Context (states : CityStates) (s : selection) (tier : Z) (excluded : list ExcludedLocation)
        (device_country : string) (draw : nat -> nat -> nat) (validate : PhysicalServer -> NativeResult unit).

Notation admits := (admits states s device_country).
Notation offered := (offered states s tier excluded device_country).
Notation pick := (pick states s tier excluded device_country draw).
Notation select_loop := (select_loop states s tier excluded device_country draw validate).
Notation verified := (verified validate).

(** The request leaves nothing to chance. *)
Definition by_score : bool :=
  is_empty s.(sl_server_name) && negb s.(sl_random) && negb s.(sl_free_random) && negb s.(sl_random_server).

Lemma choose_elem {A : Type} k (l : list A) x : choose draw k l = Some x -> x ∈ l.
Proof. apply list_elem_of_lookup_2. Qed.

Lemma choose_nonempty {A : Type} k (l : list A) : l <> [] -> is_Some (choose draw k l).
Proof.
  intros Hl. apply lookup_lt_is_Some_2. apply Nat.mod_upper_bound. by destruct l.
Qed.

Lemma insert_country_elem x l y : y ∈ insert_country x l <-> y = x \/ y ∈ l.
Proof.
  induction l as [|z l IH]; simpl; [set_solver|].
  destruct (String.compare x z) eqn:E.
  - apply String.compare_eq_iff in E as ->. set_solver.
  - set_solver.
  - rewrite elem_of_cons, IH, elem_of_cons. tauto.
Qed.

Lemma countries_elem l country :
  country ∈ countries_of l <-> exists c, c ∈ l /\ ls_exit_country c.2 = country.
Proof.
  unfold countries_of. enough (H : forall acc, country ∈ foldl (fun set c => insert_country c.2.(ls_exit_country) set) acc l
    <-> country ∈ acc \/ exists c, c ∈ l /\ ls_exit_country c.2 = country).
  { rewrite H, elem_of_nil. tauto. }
  induction l as [|c l IH]; intros acc; simpl.
  - split; [tauto|]. intros [?|(c & Hc & _)]; [done|by apply elem_of_nil in Hc].
  - rewrite IH, insert_country_elem. split.
    + intros [[->|?]|(d & Hd & E)]; [right; exists c; split; [left|done]|by left|right; exists d; split; [by right|done]].
    + intros [?|(d & [->|Hd]%elem_of_cons & E)]; [tauto|left; left; congruence|right; by exists d].
Qed.

Lemma offered_elem available c :
  c ∈ (let admitted := retain (fun c : nat * LogicalServer => admits c.2) available in
       if exclusions_apply s tier excluded then retain (fun c => not_excluded states excluded c.2) admitted else admitted)
  <-> c ∈ available /\ offered c.2 = true.
Proof.
  cbv zeta. unfold Catalog.offered. destruct (exclusions_apply s tier excluded); cbn [negb orb];
    rewrite ?retain_elem, ?andb_true_iff, ?andb_true_r; tauto.
Qed.

Lemma offered_features l : offered l = true -> lacks_feature s l = false.
Proof.
  unfold Catalog.offered, Catalog.admits, lacks_feature. intros H. bool_prop.
  destruct (sl_secure_core s), (sl_p2p s), (sl_tor s), (has_feature FEATURE_SECURE_CORE l),
    (has_feature FEATURE_P2P l), (has_feature FEATURE_TOR l); naive_solver.
Qed.

Lemma pick_sound available k c k' :
  pick available k = Ok (Some c, k') ->
  c ∈ available /\
  (if is_empty s.(sl_server_name) then offered c.2 = true
   else eq_ignore_ascii_case c.2.(ls_name) s.(sl_server_name) = true) /\
  (by_score = true -> (forall d, d ∈ available -> is_nan (ls_score d.2) = false) ->
   forall d, d ∈ available -> offered d.2 = true -> no_worse c.2 d.2).
Proof.
  unfold Catalog.pick, by_score. destruct (is_empty (sl_server_name s)) eqn:En; cbn [negb andb].
  2: { intros [= H _]. apply find_first_Some in H as [Hc Hn]. by split_and!. }
  pose proof (offered_elem available) as Hoff. cbv zeta in Hoff.
  set (candidates := if exclusions_apply s tier excluded then _ else _) in *.
  destruct (_ && _); [discriminate|].
  destruct (sl_random s || sl_free_random s) eqn:Er.
  - intros H. assert (Hc : c ∈ candidates).
    { set (kept := retain _ candidates) in H. enough (c ∈ kept) as Hk by (by apply retain_elem in Hk as [? _]).
      destruct (sl_random_server s); injection H as H _; [by eapply choose_elem|].
      apply head_Some_elem_of in H. by rewrite sort_by_score_perm in H. }
    apply Hoff in Hc as [Ha Ho]. split_and!; [done..|]. destruct (sl_random s), (sl_free_random s); discriminate.
  - apply orb_false_iff in Er as [-> ->]. destruct (sl_random_server s); cbn [negb andb].
    + intros [= H _]. apply choose_elem, Hoff in H as [Ha Ho]. by split_and!.
    + intros [= H _]. assert (Hc : c ∈ candidates).
      { apply head_Some_elem_of in H. by rewrite sort_by_score_perm in H. }
      apply Hoff in Hc as [Ha Ho]. split_and!; [done..|]. intros _ Hnan d Hd Hod.
      apply (head_best (fun l => is_nan (ls_score l) = false) ltac:(done) candidates); [|done|by apply Hoff].
      apply Forall_forall. intros e [He _]%Hoff. by apply Hnan.
Qed.

Lemma pick_complete available k c :
  is_empty s.(sl_server_name) = true -> c ∈ available -> offered c.2 = true ->
  exists d k', pick available k = Ok (Some d, k').
Proof.
  intros En Hc Ho. unfold Catalog.pick. rewrite En. cbn [negb].
  pose proof (offered_elem available) as Hoff. cbv zeta in Hoff.
  set (candidates := if exclusions_apply s tier excluded then _ else _) in *.
  assert (Hin : c ∈ candidates) by by apply Hoff.
  assert (Hne : candidates <> []) by (intros E; rewrite E in Hin; by apply elem_of_nil in Hin).
  assert (match candidates with [] => true | _ => false end = false) as -> by by destruct candidates.
  rewrite andb_false_r.
  assert (Hlast : forall (l : list (nat * LogicalServer)) j, l <> [] -> exists d k',
    (if sl_random_server s then Ok (choose draw j l, S j) else Ok (head (sort_by_score l), j))
      = (Ok (Some d, k') : NativeResult _)).
  { intros l j Hl. destruct (sl_random_server s).
    - destruct (choose_nonempty j l Hl) as [d ->]. by eexists _, _.
    - destruct (sort_by_score l) as [|d ds] eqn:Es; [|by eexists _, _]. destruct Hl.
      apply Permutation_nil_r. by rewrite <- Es, sort_by_score_perm. }
  destruct (sl_random s || sl_free_random s); [|by apply Hlast]. apply Hlast.
  assert (Hcs : countries_of candidates <> []).
  { intros E. assert (Hin' : ls_exit_country c.2 ∈ countries_of candidates) by (apply countries_elem; by exists c).
    rewrite E in Hin'. by apply elem_of_nil in Hin'. }
  destruct (choose_nonempty k _ Hcs) as [country Hcountry]. rewrite Hcountry.
  apply choose_elem, countries_elem in Hcountry as (d & Hd & Hdc). intros E.
  assert (Hd' : d ∈ retain (fun c => bool_decide (Some country = Some (ls_exit_country c.2))) candidates)
    by (apply retain_elem; split; [done|]; apply bool_decide_eq_true; by rewrite Hdc).
  rewrite E in Hd'. by apply elem_of_nil in Hd'.
Qed.

(** ** The loop *)

(** What a returned target is, and that nothing available and verifiable is better. *)
Definition good_target (available : list (nat * LogicalServer)) (t : ConnectionTarget) : Prop :=
  exists c, c ∈ available /\ tg_logical t = set_state (canonical_state c.2 states) c.2 /\
    tg_physical t ∈ verified c.2 /\ lacks_feature s c.2 = false /\
    (if is_empty s.(sl_server_name) then offered c.2 = true
     else eq_ignore_ascii_case c.2.(ls_name) s.(sl_server_name) = true) /\
    (by_score = true -> (forall d, d ∈ available -> is_nan (ls_score d.2) = false) ->
     forall d, d ∈ available -> offered d.2 = true -> verified d.2 <> [] -> no_worse c.2 d.2).

Lemma same_position (available : list (nat * LogicalServer)) c d :
  NoDup (map fst available) -> c ∈ available -> d ∈ available -> c.1 = d.1 -> c = d.
Proof.
  intros Hnd Hc Hd E. induction available as [|x l IH]; [by apply elem_of_nil in Hc|].
  cbn [map] in Hnd. apply NoDup_cons in Hnd as [Hx Hnd].
  assert (Hmap : forall y, y ∈ l -> y.1 ∈ map fst l) by (intros y Hy; by apply (list_elem_of_fmap_2 fst)).
  apply elem_of_cons in Hc as [->|Hc], Hd as [->|Hd]; try done.
  - destruct Hx. rewrite E. by apply Hmap.
  - destruct Hx. rewrite <- E. by apply Hmap.
  - by apply IH.
Qed.

Lemma select_loop_spec fuel available rejected k :
  NoDup (map fst available) -> (length available < fuel)%nat ->
  (forall t, select_loop fuel available rejected k = Ok t -> good_target available t) /\
  (is_empty s.(sl_server_name) = true ->
   (exists d, d ∈ available /\ offered d.2 = true /\ verified d.2 <> []) ->
   exists t, select_loop fuel available rejected k = Ok t).
Proof.
  revert available rejected k. induction fuel as [|fuel IH]; intros available rejected k Hnd Hlen; [lia|].
  cbn [Catalog.select_loop]. destruct (pick available k) as [[[c|] k1]|e] eqn:Ep; cbn [res_bind ok_or].
  2,3: (split; [destruct rejected; discriminate|]; intros En (d & Hd & Ho & _);
    destruct (pick_complete available k d En Hd Ho) as (? & ? & H); congruence).
  pose proof (pick_sound _ _ _ _ Ep) as (Hc & Hname & Hbest).
  destruct (lacks_feature s c.2) eqn:El.
  { split; [discriminate|]. intros En _. rewrite En in Hname. apply offered_features in Hname. congruence. }
  destruct (choose draw k1 (verified c.2)) as [p|] eqn:Ev.
  { apply choose_elem in Ev. split; [|by eexists]. intros t Ht. apply Ok_inj in Ht as <-.
    exists c. split_and!; try done. intros. by apply Hbest. }
  assert (Hnone : verified c.2 = []).
  { destruct (verified c.2) as [|p ps] eqn:E; [done|]. rewrite <- E in Ev.
    destruct (choose_nonempty k1 (verified c.2)) as [x Hx]; [congruence|]. congruence. }
  set (rest := retain (fun d : nat * LogicalServer => negb (Nat.eqb d.1 c.1)) available).
  assert (Hrest : forall d, d ∈ rest <-> d ∈ available /\ d <> c).
  { intros d. unfold rest. rewrite retain_elem, negb_true_iff, Nat.eqb_neq. split.
    - intros [Hd Hne]. split; [done|]. by intros ->.
    - intros [Hd Hne]. split; [done|]. intros E. apply Hne. by apply (same_position available). }
  destruct (negb (is_empty (sl_server_name s))) eqn:En; cbn [orb].
  { split; [discriminate|]. intros E. by rewrite E in En. }
  apply negb_false_iff in En.
  assert (Hlen' : (length rest < fuel)%nat).
  { assert (Hsub : (length (c :: rest) <= length available)%nat); [|simpl in Hsub; lia].
    apply submseteq_length. apply NoDup_submseteq.
    - apply NoDup_cons. split; [rewrite Hrest; tauto|]. apply (NoDup_fmap_1 fst).
      eapply sublist_NoDup; [exact Hnd|]. change (fmap fst rest `sublist_of` fmap fst available).
      apply fmap_sublist. apply retain_sublist.
    - intros d [->|Hd]%elem_of_cons; [done|]. by apply Hrest in Hd as [? _]. }
  assert (Hnd' : NoDup (map fst rest)).
  { eapply sublist_NoDup; [exact Hnd|]. change (fmap fst rest `sublist_of` fmap fst available).
    apply fmap_sublist. apply retain_sublist. }
  destruct (IH rest true (S k1) Hnd' Hlen') as [IHs IHc].
  assert (Hcomplete : (exists d, d ∈ available /\ offered d.2 = true /\ verified d.2 <> []) ->
    exists d, d ∈ rest /\ offered d.2 = true /\ verified d.2 <> []).
  { intros (d & Hd & Ho & Hv). exists d. split_and!; try done. apply Hrest. split; [done|]. by intros ->. }
  destruct rest as [|r rs] eqn:Er.
  { split; [discriminate|]. intros _ H. destruct (Hcomplete H) as (d & Hd & _). by apply elem_of_nil in Hd. }
  rewrite <- Er in *. split; [|intros _ H; apply IHc; [done|by apply Hcomplete]].
  intros t Ht. destruct (IHs t Ht) as (c' & Hc' & H1 & H2 & H3 & H4 & H5).
  exists c'. apply Hrest in Hc' as [Hc' _]. split_and!; try done.
  intros Hs Hnan d Hd Hod Hvd. apply H5; try done.
  - intros e [He _]%Hrest. by apply Hnan.
  - apply Hrest. split; [done|]. by intros ->.
Qed.
End Turn.

(** ** The whole selection *)
Lemma imap_fst {A : Type} (l : list A) (f : nat -> nat) : map fst (imap (fun i x => (f i, x)) l) = map f (seq 0 (length l)).
Proof.
  revert f. induction l as [|x l IH]; intros f; [done|]. rewrite imap_cons. cbn [map fst length seq]. f_equal.
  rewrite <- seq_shift, map_map. exact (IH (f ∘ S)).
Qed.

Lemma available_nodup tier c : NoDup (map fst (available_servers tier c)).
Proof.
  assert (Hnd : NoDup (map fst (imap (fun i l => (i, l)) (cat_logical_servers c)))).
  { pose proof (imap_fst (cat_logical_servers c) id) as H. cbn in H. rewrite H, map_id. apply NoDup_ListNoDup, seq_NoDup. }
  eapply sublist_NoDup; [exact Hnd|].
  exact (fmap_sublist fst _ _ (retain_sublist _ (imap (fun i l => (i, l)) (cat_logical_servers c)))).
Qed.

Lemma available_elem tier c i l :
  (i, l) ∈ available_servers tier c <-> cat_logical_servers c !! i = Some l /\ enabled l = true /\ ls_tier l <= tier.
Proof.
  unfold available_servers. rewrite retain_elem, andb_true_iff. cbn [snd]. rewrite Z.leb_le.
  enough (H : (i, l) ∈ imap (fun i l => (i, l)) (cat_logical_servers c) <-> cat_logical_servers c !! i = Some l)
    by (rewrite H; tauto).
  rewrite list_elem_of_lookup. setoid_rewrite list_lookup_imap. split.
  - intros (j & Hj). destruct (cat_logical_servers c !! j) eqn:E; simpl in Hj; [|discriminate].
    by injection Hj as <- <-.
  - intros H. exists i. by rewrite H.
Qed.

(** C13: the selection is sound, complete and picks the best.  Whatever the random draws, a returned
    target is an entry of the catalog that is enabled and within the account's tier, with an active
    physical server whose endpoint [validate] accepted; it has the requested features, and it has the
    requested name or passes every filter of the request and (for an automatic choice of a paid
    account) lies outside every excluded location.  When no server is named and nothing is left to
    chance, no server that passes the filters and has a verifiable endpoint has a lower score.  And the
    selection never gives up while such a server exists: rejected endpoints only remove servers that
    have no verifiable endpoint. *)
Theorem selection_sound_and_complete draw validate c params tier excluded device target :
  (jget "target" params ?> as_object) = Some target ->
  let s := selection_of target in
  let device_country := to_ascii_uppercase (trim device) in
  selection_error s device_country = None ->
  let states := city_states c in
  let ok l := enabled l = true /\ ls_tier l <= tier /\ offered states s tier excluded device_country l = true /\
              verified validate l <> [] in
  (forall t, select_validated draw validate c params tier excluded device = Ok t ->
     exists l, l ∈ cat_logical_servers c /\ tg_logical t = set_state (canonical_state l states) l /\
       enabled l = true /\ ls_tier l <= tier /\
       tg_physical t ∈ ls_servers l /\ CatalogModel.active (tg_physical t) = true /\
       is_ok (validate (tg_physical t)) = true /\ lacks_feature s l = false /\
       (if is_empty (sl_server_name s) then offered states s tier excluded device_country l = true
        else eq_ignore_ascii_case (ls_name l) (sl_server_name s) = true) /\
       (by_score s = true -> (forall l', l' ∈ cat_logical_servers c -> is_nan (ls_score l') = false) ->
        forall l', l' ∈ cat_logical_servers c -> ok l' -> no_worse l l')) /\
  (is_empty (sl_server_name s) = true -> (exists l, l ∈ cat_logical_servers c /\ ok l) ->
   exists t, select_validated draw validate c params tier excluded device = Ok t).
Proof.
  intros Ht s device_country He states ok. unfold select_validated. rewrite Ht. fold s device_country. rewrite He.
  destruct (select_loop_spec states s tier excluded device_country draw validate
    (S (length (available_servers tier c))) (available_servers tier c) false 0 (available_nodup tier c) ltac:(lia))
    as [Hsound Hcomplete].
  split.
  - intros t Hok. destruct (Hsound t Hok) as ([i l] & Hc & H1 & H2 & H3 & H4 & H5). cbn [snd] in *.
    apply available_elem in Hc as (Hl & Hen & Htier). apply retain_elem in H2 as [Hp Hv%andb_true_iff].
    exists l. split_and!; try done; try tauto; [by eapply list_elem_of_lookup_2|].
    intros Hs Hnan l' Hl' (Hen' & Htier' & Ho' & Hv'). apply list_elem_of_lookup in Hl' as [j Hj].
    apply (H5 Hs) with (d := (j, l')); try done; [|by apply available_elem].
    intros [m d] Hd. apply available_elem in Hd as (Hd & _). apply Hnan. by eapply list_elem_of_lookup_2.
  - intros En (l & Hl & Hen & Htier & Ho & Hv). apply Hcomplete; [done|].
    apply list_elem_of_lookup in Hl as [i Hi]. exists (i, l). split_and!; try done. by apply available_elem.
Qed.

(** ** Examples *)
Definition example_physical (id : string) : PhysicalServer := mkPhysical id "192.0.2.1" "192.0.2.1" "" 1 "" None None ∅.
Definition example_server (name country : string) (score : Z) : LogicalServer :=
  mkLogical name name country country None "" "" None "" 0 0 10 (f64_of_Z score) 1 (mkLocation None None)
    [example_physical name] None "" ∅.
Definition example_catalog : ServerCatalog :=
  mkCatalog (f64_of_Z 0) (f64_of_Z 0) 2 [example_server "CH#1" "CH" 1; example_server "DE#1" "DE" 2; example_server "US#1" "US" 3] ∅.
Definition any_target : json := jobj [("target", jobj [])].
(** The best server's endpoint does not verify. *)
Definition example_validate (p : PhysicalServer) : NativeResult unit :=
  if String.eqb p.(ph_id) "CH#1" then Err invalid_server else Ok tt.

Lemma selection_sound_and_complete_witness :
  let run := select_validated (fun _ _ => 0%nat) example_validate example_catalog any_target 2 [] "" in
  res_map (fun t => ls_name (tg_logical t)) run = Ok "DE#1" /\
  exists t, run = Ok t /\ exists l, l ∈ cat_logical_servers example_catalog /\
    tg_logical t = set_state (canonical_state l (city_states example_catalog)) l /\ enabled l = true.
Proof.
  intros run. split; [vm_compute; reflexivity|].
  pose proof (selection_sound_and_complete (fun _ _ => 0%nat) example_validate example_catalog any_target 2 [] "" ∅
    ltac:(vm_compute; reflexivity) ltac:(vm_compute; reflexivity)) as [Hs _].
  destruct run as [t|e] eqn:E; [|exfalso; revert E; vm_compute; discriminate].
  exists t. split; [reflexivity|]. destruct (Hs t E) as (l & H1 & H2 & H3 & _). exists l. split; [exact H1|]. split; [exact H2|exact H3].
Defined.

(** When every server outside the excluded locations fails validation, the error blames the excluded
    locations although they do not cover every available server. *)
Lemma exclusions_blamed_for_validation :
  let excluded := [mkExcluded "country" "DE" "" ""; mkExcluded "country" "US" "" ""] in
  match select_validated (fun _ _ => 0%nat) example_validate example_catalog any_target 2 excluded "" with
  | Err e => ne_code e = "all_candidates_excluded"
  | Ok _ => False
  end /\
  forallb (fun l => existsb (fun location => excluded_location_matches location l "") excluded)
    (cat_logical_servers example_catalog) = false.
Proof. vm_compute. repeat split. Qed.
