(* ===== verification/CatalogPages.v ===== *)
(** Listing the catalog: pages of servers for a search, and the tree of locations
    ([servers_page] and [locations] of [agent/src/native_backend/catalog.rs]).

    The crate unicode_normalization and [char::to_lowercase] are the class [SearchText]. *)
From S2P Require Export Catalog.
Open Scope string_scope.
Open Scope Z_scope.
Open Scope list_scope.
Open Scope rust_scope.

Class SearchText : Type := mkSearchText {
  (** [nfd()], without combining marks, in lower case. *)
  fold_text : string -> string }.

Definition MAX_SERVER_QUERY_BYTES : Z := 256.

(** ** Search text *)
Section Text.
Context {T : SearchText}.

Definition normalize_search (value : string) : string := fold_text (trim value).

Fixpoint str_filter (p : ascii -> bool) (s : string) : string :=
  match s with
  | "" => ""
  | String a s => if p a then String a (str_filter p s) else str_filter p s
  end.
Definition is_separator (a : ascii) : bool := Ascii.eqb a "#" || Ascii.eqb a "-".

Definition compact_server_name (value : string) : string :=
  str_filter (fun a => negb (is_separator a)) (String.concat "" (split_whitespace (normalize_search value))).

(** Whether the last character of the reversed text begins a word after it. *)
Definition boundary (reversed : string) : bool :=
  match reversed with
  | "" => true
  | String a _ => is_separator a || match strip_ws_rev reversed with Some _ => true | None => false end
  end.

(** [match_indices(query).any(..)] on [s], whose reversed prefix is [before]: matches do not
    overlap. *)
Fixpoint match_at_boundary (fuel : nat) (query before s : string) : bool :=
  match fuel with
  | O => false
  | S fuel =>
      match strip_prefix query s with
      | Some rest =>
          if boundary before then true
          else if is_empty query then false else match_at_boundary fuel query (str_rev_app query before) rest
      | None =>
          match s with
          | "" => false
          | String a r => match_at_boundary fuel query (String a before) r
          end
      end
  end.

Definition server_name_match_rank (name query compact_query : string) : option Z :=
  if is_empty query then Some 0
  else
    let normalized_name := normalize_search name in
    let compact_name := compact_server_name normalized_name in
    if String.eqb normalized_name query || (negb (is_empty compact_query) && String.eqb compact_name compact_query)
    then Some 0
    else if starts_with query normalized_name
            || (negb (is_empty compact_query) && starts_with compact_query compact_name)
    then Some 1
    else if match_at_boundary (S (String.length normalized_name)) query "" normalized_name then Some 2
    else None.
End Text.

(** The query of a remote lookup in canonical form: letters, then a number after [#]. *)
Fixpoint split_at_digit (s : string) : option (string * string) :=
  match s with
  | "" => None
  | String a r =>
      if is_ascii_digit a then Some ("", s)
      else match split_at_digit r with Some (p, d) => Some (String a p, d) | None => None end
  end.
Fixpoint count_alphabetic (s : string) : Z :=
  match s with "" => 0 | String a s => (if is_ascii_alphabetic a then 1 else 0) + count_alphabetic s end.

Definition canonical_server_lookup_query (value : string) : option string :=
  let trimmed := trim value in
  if is_empty trimmed || (128 <? str_len trimmed)
     || negb (str_forall (fun a => is_ascii_alphanumeric a || is_separator a) trimmed)
  then None
  else
    match split_at_digit (to_ascii_uppercase trimmed) with
    | None => None
    | Some (prefix, digits) =>
        if (count_alphabetic prefix <? 2)
           || negb (str_forall (fun a => is_ascii_alphabetic a || is_separator a) prefix)
        then None
        else if contains_char "#" prefix then Some (prefix +:+ digits)
        else
          match str_rev prefix with
          | String "-"%char r => Some (str_rev r +:+ "#" +:+ digits)
          | _ => Some (prefix +:+ "#" +:+ digits)
          end
    end.

(** ** Pages *)
Definition param_string (params : json) (key : string) : string :=
  trim (unwrap_or (jget key params ?> as_str) "").

Definition bounded_u64 (value : option json) (default maximum : Z) : NativeResult Z :=
  let value := unwrap_or (value ?> as_u64) default in
  if maximum <? value then Err (invalid_params "Numeric request parameter is out of range") else Ok value.

Definition then_cmp (c d : comparison) : comparison := match c with Eq => d | _ => c end.
Definition cmp_bool (a b : bool) : comparison :=
  match a, b with false, true => Lt | true, false => Gt | _, _ => Eq end.
Definition cmp_rank (a b : option Z) : comparison :=
  match a, b with
  | None, None => Eq
  | None, Some _ => Lt
  | Some _, None => Gt
  | Some x, Some y => Z.compare x y
  end.

Section Pages.
Context {T : SearchText} {C : Countries}.

Record page_query : Type := mkPageQuery {
  pq_query : string;
  pq_country_code : string;
  pq_gateway_name : string;
  pq_feature : string;
  pq_scope : string }.

Definition listed (q : page_query) (tier : Z) (l : LogicalServer) : bool :=
  (l.(ls_tier) <=? tier)
  && (is_empty q.(pq_country_code) || String.eqb l.(ls_exit_country) q.(pq_country_code))
  && (is_empty q.(pq_gateway_name) || String.eqb (gateway_name l) q.(pq_gateway_name))
  && (if String.eqb q.(pq_scope) "consumer" then is_empty (gateway_name l)
      else if String.eqb q.(pq_scope) "gateways" then negb (is_empty (gateway_name l))
      else true)
  && (if String.eqb q.(pq_feature) "standard" then standard l
      else if String.eqb q.(pq_feature) "secure_core" then has_feature FEATURE_SECURE_CORE l
      else if String.eqb q.(pq_feature) "p2p" then has_feature FEATURE_P2P l
      else if String.eqb q.(pq_feature) "tor" then has_feature FEATURE_TOR l
      else true)
  && (is_empty q.(pq_query)
      || match server_name_match_rank l.(ls_name) q.(pq_query) (compact_server_name q.(pq_query)) with
         | Some _ => true | None => false
         end).

Definition page_cmp (q : page_query) (left right : LogicalServer) : comparison :=
  let rank l := server_name_match_rank l.(ls_name) q.(pq_query) (compact_server_name q.(pq_query)) in
  then_cmp (cmp_rank (rank left) (rank right))
  (then_cmp (String.compare (country_name left.(ls_exit_country)) (country_name right.(ls_exit_country)))
  (then_cmp (cmp_bool (negb (has_feature FEATURE_SECURE_CORE left)) (negb (has_feature FEATURE_SECURE_CORE right)))
  (then_cmp (String.compare (country_name left.(ls_entry_country)) (country_name right.(ls_entry_country)))
  (then_cmp (String.compare left.(ls_city) right.(ls_city))
    (String.compare left.(ls_name) right.(ls_name)))))).

(** [sort_by]: stable. *)
Fixpoint insert_page (q : page_query) (x : LogicalServer) (l : list LogicalServer) : list LogicalServer :=
  match l with
  | [] => [x]
  | y :: l' => match page_cmp q x y with Gt => y :: insert_page q x l' | _ => x :: l end
  end.
Definition sort_page (q : page_query) (l : list LogicalServer) : list LogicalServer := foldr (insert_page q) [] l.

Definition listing (c : ServerCatalog) (q : page_query) (tier : Z) : list LogicalServer :=
  sort_page q (retain (listed q tier) c.(cat_logical_servers)).

Definition page_of (offset limit : Z) (l : list LogicalServer) : list LogicalServer :=
  take (Z.to_nat limit) (drop (Z.to_nat offset) l).

Definition page_entry (states : CityStates) (l : LogicalServer) : json :=
  Obj (<["state" := Str (canonical_state l states)]> (serialized l)).

Definition servers_page (c : ServerCatalog) (params : json) (tier : Z) : NativeResult json :=
  let? offset := bounded_u64 (jget "offset" params) 0 1000000 in
  let? limit := bounded_u64 (jget "limit" params) 100 100 in
  let raw_query := param_string params "query" in
  if MAX_SERVER_QUERY_BYTES <? str_len raw_query
  then Err (invalid_params ("query must be at most " +:+ dec MAX_SERVER_QUERY_BYTES +:+ " bytes"))
  else
    let q := mkPageQuery (normalize_search raw_query) (to_ascii_uppercase (param_string params "country_code"))
               (param_string params "gateway_name") (to_ascii_lowercase (param_string params "feature"))
               (to_ascii_lowercase (param_string params "scope")) in
    if negb (existsb (String.eqb q.(pq_feature)) [""; "all"; "standard"; "secure_core"; "p2p"; "tor"])
    then Err (invalid_params "Unknown server feature filter")
    else if negb (is_empty q.(pq_gateway_name)) && negb (existsb (String.eqb q.(pq_feature)) [""; "all"])
    then Err (invalid_params "Gateway and consumer feature filters cannot be combined")
    else if negb (existsb (String.eqb q.(pq_scope)) [""; "all"; "consumer"; "gateways"])
    then Err (invalid_params "Unknown server search scope")
    else
      let servers := listing c q tier in
      Ok (jobj [("offset", jnum offset); ("limit", jnum limit); ("total", jnum (Z.of_nat (length servers)));
                ("query", Str q.(pq_query)); ("country_code", Str q.(pq_country_code));
                ("gateway_name", Str q.(pq_gateway_name)); ("feature", Str q.(pq_feature));
                ("scope", Str q.(pq_scope));
                ("servers", Arr (map (page_entry (city_states c)) (page_of offset limit servers)))]).
End Pages.

(** ** Locations *)

(** A [BTreeMap] with string keys read in order. *)
Definition sorted_entries {A : Type} (m : gmap string A) : list (string * A) :=
  merge_sort (fun a b : string * A => String.le a.1 b.1) (map_to_list m).
Definition sorted_set (s : gset string) : list string := merge_sort String.le (elements s).

Abbreviation string_sets := (gmap string (gset string)).
Abbreviation subdivision_map := (gmap string string_sets).

Definition add_to {K : Type} `{Countable K} (key : K) (value : string) (m : gmap K (gset string)) : gmap K (gset string) :=
  <[key := {[value]} ∪ unwrap_or (m !! key) ∅]> m.

(** [increment] and [set_feature] on a JSON object. *)
Definition increment (key : string) (value : gmap string json) : gmap string json :=
  <[key := jnum (unwrap_or (get_u64 value key) 0 + 1)]> value.
Definition set_feature (key : string) (on : bool) (value : gmap string json) : gmap string json :=
  if on then <[key := Bool true]> value else value.

Definition insert_subdivision (country_code : string) (l : LogicalServer) (state : string) (m : subdivision_map)
    : subdivision_map :=
  let states := unwrap_or (m !! country_code) ∅ in
  let cities := unwrap_or (states !! state) ∅ in
  let cities := if is_empty l.(ls_city) then cities else {[l.(ls_city)]} ∪ cities in
  <[country_code := <[state := cities]> states]> m.

Definition serialized_subdivisions (m : string_sets) : list json * list string :=
  foldl (fun acc entry =>
    let cities := sorted_set entry.2 in
    if is_empty entry.1 then (acc.1, acc.2 ++ cities)
    else (acc.1 ++ [jobj [("name", Str entry.1); ("cities", Arr (map Str cities))]], acc.2))
    ([], []) (sorted_entries m).

Record tree : Type := mkTree {
  tr_countries : gmap string (gmap string json);
  tr_gateways : gmap string (gmap string json);
  tr_subdivisions : subdivision_map;
  tr_p2p_subdivisions : subdivision_map;
  tr_host_countries : string_sets;
  tr_secure_core_entries : string_sets }.

Section Locations.
Context {C : Countries}.

Definition new_gateway (name : string) : gmap string json :=
  list_to_map [("name", Str name); ("server_count", jnum 0); ("available_server_count", jnum 0)].
Definition new_country (code : string) (l : LogicalServer) : gmap string json :=
  list_to_map [("code", Str code); ("name", Str (country_name l.(ls_exit_country)));
    ("server_count", jnum 0); ("available_server_count", jnum 0); ("standard", Bool false);
    ("secure_core", Bool false); ("p2p", Bool false); ("tor", Bool false); ("streaming", Bool false)].

Definition count_server (l : LogicalServer) (entry : gmap string json) : gmap string json :=
  let entry := increment "server_count" entry in
  if enabled l then increment "available_server_count" entry else entry.

Definition count_country (l : LogicalServer) (entry : gmap string json) : gmap string json :=
  set_feature "streaming" (has_feature FEATURE_STREAMING l)
    (set_feature "tor" (has_feature FEATURE_TOR l)
      (set_feature "p2p" (has_feature FEATURE_P2P l)
        (set_feature "secure_core" (has_feature FEATURE_SECURE_CORE l)
          (set_feature "standard" (standard l) (count_server l entry))))).

(** Servers not offered to consumers by country. *)
Definition not_consumer (l : LogicalServer) : bool :=
  has_feature FEATURE_B2B l || has_feature FEATURE_PARTNER l || is_empty l.(ls_exit_country).

Definition add_server (states : CityStates) (t : tree) (l : LogicalServer) : tree :=
  let name := gateway_name l in
  if negb (is_empty name) then
    let entry := unwrap_or (t.(tr_gateways) !! name) (new_gateway name) in
    mkTree t.(tr_countries) (<[name := count_server l entry]> t.(tr_gateways)) t.(tr_subdivisions)
      t.(tr_p2p_subdivisions) t.(tr_host_countries) t.(tr_secure_core_entries)
  else if not_consumer l then t
  else
    let code := to_ascii_uppercase l.(ls_exit_country) in
    let state := canonical_state l states in
    mkTree
      (<[code := count_country l (unwrap_or (t.(tr_countries) !! code) (new_country code l))]> t.(tr_countries))
      t.(tr_gateways)
      (if standard l then insert_subdivision code l state t.(tr_subdivisions) else t.(tr_subdivisions))
      (if has_feature FEATURE_P2P l then insert_subdivision code l state t.(tr_p2p_subdivisions)
       else t.(tr_p2p_subdivisions))
      (match host_country_code l with Some host => add_to code host t.(tr_host_countries)
                                    | None => t.(tr_host_countries) end)
      (if has_feature FEATURE_SECURE_CORE l && negb (is_empty l.(ls_entry_country))
       then add_to code (to_ascii_uppercase l.(ls_entry_country)) t.(tr_secure_core_entries)
       else t.(tr_secure_core_entries)).

Definition empty_tree : tree := mkTree ∅ ∅ ∅ ∅ ∅ ∅.

Definition country_list (codes : list string) : json :=
  Arr (map (fun code => jobj [("code", Str code); ("name", Str (country_name code))]) codes).

(** The country's object with its subdivisions. *)
Definition complete_country (t : tree) (code : string) (entry : gmap string json) : gmap string json :=
  let '(states, cities) := serialized_subdivisions (unwrap_or (t.(tr_subdivisions) !! code) ∅) in
  let '(p2p_states, p2p_cities) := serialized_subdivisions (unwrap_or (t.(tr_p2p_subdivisions) !! code) ∅) in
  <["secure_core_entries" := country_list (sorted_set (unwrap_or (t.(tr_secure_core_entries) !! code) ∅))]>
  (<["p2p_states" := Arr p2p_states]> (<["p2p_cities" := Arr (map Str p2p_cities)]>
  (<["states" := Arr states]> (<["cities" := Arr (map Str cities)]>
  (<["smart_routing_countries" := country_list (sorted_set (unwrap_or (t.(tr_host_countries) !! code) ∅))]> entry))))).

(** The stable sort by name. *)
Definition cmp_name (a b : option string) : comparison :=
  match a, b with
  | None, None => Eq
  | None, Some _ => Lt
  | Some _, None => Gt
  | Some x, Some y => String.compare x y
  end.
Fixpoint insert_name (x : gmap string json) (l : list (gmap string json)) : list (gmap string json) :=
  match l with
  | [] => [x]
  | y :: l' => match cmp_name (get_str x "name") (get_str y "name") with Gt => y :: insert_name x l' | _ => x :: l end
  end.

Definition location_tree (c : ServerCatalog) (tier : Z) : tree :=
  foldl (add_server (city_states c)) empty_tree (retain (fun l => l.(ls_tier) <=? tier) c.(cat_logical_servers)).

Definition locations (c : ServerCatalog) (tier : Z) : json :=
  let t := location_tree c tier in
  let countries := map (fun p => complete_country t p.1 p.2) (sorted_entries t.(tr_countries)) in
  jobj [("countries", Arr (map Obj (foldr insert_name [] countries)));
        ("gateways", Arr (map (fun p => Obj p.2) (sorted_entries t.(tr_gateways))))].
End Locations.

(** ** Lemmas *)

(** Consecutive pages list every server exactly once, in order. *)
Lemma pages_cover (limit : Z) (n : nat) (l : list LogicalServer) :
  0 <= limit ->
  concat (map (fun i => page_of (Z.of_nat i * limit) limit l) (seq 0 n)) = take (n * Z.to_nat limit) l.
Proof.
  intros Hl. induction n as [|n IH]; [done|].
  rewrite seq_S, map_app, concat_app, IH. cbn [map concat]. rewrite app_nil_r. unfold page_of.
  replace (Z.to_nat (Z.of_nat (0 + n) * limit)) with (n * Z.to_nat limit)%nat by lia.
  rewrite take_take_drop. f_equal. lia.
Qed.

Lemma insert_page_perm `{SearchText} `{Countries} q x l : insert_page q x l ≡ₚ x :: l.
Proof.
  induction l as [|y l IH]; [done|]. simpl. destruct (page_cmp q x y); try done. rewrite IH. apply Permutation_swap.
Qed.

(** The listing holds exactly the servers that match. *)
Lemma listing_perm `{SearchText} `{Countries} c q tier :
  listing c q tier ≡ₚ retain (listed q tier) (cat_logical_servers c).
Proof.
  unfold listing, sort_page. induction (retain _ _) as [|x l IH]; [done|]. simpl. by rewrite insert_page_perm, IH.
Qed.

(** *** What the location tree counts *)
Section Counts.
Context {C : Countries} (states : CityStates).

(** The consumer servers of a country, and how many of a list satisfy a test. *)
Definition consumer_of (code : string) (l : LogicalServer) : bool :=
  is_empty (gateway_name l) && negb (not_consumer l) && String.eqb (to_ascii_uppercase l.(ls_exit_country)) code.
Definition count (p : LogicalServer -> bool) (l : list LogicalServer) : Z := Z.of_nat (length (retain p l)).

Lemma count_snoc p l x : count p (l ++ [x]) = count p l + (if p x then 1 else 0).
Proof. unfold count. rewrite retain_app, length_app. simpl. destruct (p x); simpl; lia. Qed.

Lemma u64_increment_eq k v : get_u64 (increment k v) k = Some (unwrap_or (get_u64 v k) 0 + 1).
Proof. unfold increment, get_u64 at 1. by rewrite lookup_insert_eq. Qed.
Lemma u64_increment_ne k k' v : k <> k' -> get_u64 (increment k v) k' = get_u64 v k'.
Proof. intros H. unfold increment, get_u64. by rewrite lookup_insert_ne. Qed.
Lemma u64_feature k b k' v : k <> k' -> get_u64 (set_feature k b v) k' = get_u64 v k'.
Proof. intros H. unfold set_feature, get_u64. destruct b; [|done]. by rewrite lookup_insert_ne. Qed.
Lemma bool_increment k k' v : k <> k' -> get_bool (increment k v) k' = get_bool v k'.
Proof. intros H. unfold increment, get_bool. by rewrite lookup_insert_ne. Qed.
Lemma bool_feature_eq k b v : get_bool (set_feature k b v) k = if b then Some true else get_bool v k.
Proof. unfold set_feature, get_bool. destruct b; [|done]. by rewrite lookup_insert_eq. Qed.
Lemma bool_feature_ne k b k' v : k <> k' -> get_bool (set_feature k b v) k' = get_bool v k'.
Proof. intros H. unfold set_feature, get_bool. destruct b; [|done]. by rewrite lookup_insert_ne. Qed.

(** The tests behind the flags of a country. *)
Definition country_flags : list (string * (LogicalServer -> bool)) :=
  [("standard", standard); ("secure_core", has_feature FEATURE_SECURE_CORE); ("p2p", has_feature FEATURE_P2P);
   ("tor", has_feature FEATURE_TOR); ("streaming", has_feature FEATURE_STREAMING)].

(** One server counted in a country's object. *)
Lemma count_country_spec l entry n m :
  get_u64 entry "server_count" = Some n -> get_u64 entry "available_server_count" = Some m ->
  get_u64 (count_country l entry) "server_count" = Some (n + 1) /\
  get_u64 (count_country l entry) "available_server_count" = Some (m + (if enabled l then 1 else 0)) /\
  Forall (fun flag => forall b, get_bool entry flag.1 = Some b ->
    get_bool (count_country l entry) flag.1 = Some (b || flag.2 l)) country_flags.
Proof.
  intros Hn Hm. unfold count_country, count_server. split_and!.
  - rewrite !u64_feature by done. destruct (enabled l); [rewrite u64_increment_ne by done|]; by rewrite u64_increment_eq, Hn.
  - rewrite !u64_feature by done. destruct (enabled l).
    + rewrite u64_increment_eq, u64_increment_ne by done. by rewrite Hm.
    + rewrite u64_increment_ne by done. rewrite Hm. f_equal. lia.
  - repeat (apply Forall_cons; split); try apply Forall_nil; try done; cbn [fst snd]; intros b Hb;
      rewrite ?bool_feature_ne, bool_feature_eq, ?bool_feature_ne by done;
      destruct (enabled l); rewrite ?bool_increment by done; rewrite Hb;
      match goal with |- (if ?x then _ else _) = _ => destruct x end; by destruct b.
Qed.

(** The object of a country tells the truth about the servers counted so far. *)
Definition country_truth (servers : list LogicalServer) (code : string) (entry : option (gmap string json)) : Prop :=
  match entry with
  | None => count (consumer_of code) servers = 0
  | Some e =>
      get_u64 e "server_count" = Some (count (consumer_of code) servers) /\
      get_u64 e "available_server_count" = Some (count (fun l => consumer_of code l && enabled l) servers) /\
      Forall (fun flag => get_bool e flag.1 = Some (existsb (fun l => consumer_of code l && flag.2 l) servers)) country_flags
  end.

Lemma existsb_snoc {A : Type} (p : A -> bool) l x : existsb p (l ++ [x]) = existsb p l || p x.
Proof. rewrite existsb_app. simpl. by rewrite orb_false_r. Qed.

Lemma truth_other servers code entry l :
  consumer_of code l = false -> country_truth servers code entry -> country_truth (servers ++ [l]) code entry.
Proof.
  intros Hl. unfold country_truth. destruct entry as [e|]; rewrite !count_snoc, !Hl; cbn [andb]; rewrite !Z.add_0_r; [|done].
  intros (H1 & H2 & H3). split_and!; [done..|]. eapply Forall_impl; [exact H3|]. intros flag Hf.
  by rewrite existsb_snoc, Hl, orb_false_r.
Qed.

Lemma country_entry_truth servers code :
  forall t, t = foldl (add_server states) empty_tree servers -> country_truth servers code (tr_countries t !! code).
Proof.
  induction servers as [|l servers IH] using rev_ind; intros t ->; [done|].
  rewrite foldl_app. cbn [foldl]. set (t := foldl _ _ servers) in *. specialize (IH t eq_refl).
  unfold add_server. destruct (negb (is_empty (gateway_name l))) eqn:Eg.
  { apply truth_other; [|done]. unfold consumer_of. apply negb_true_iff in Eg. by rewrite Eg. }
  destruct (not_consumer l) eqn:En.
  { apply truth_other; [|done]. unfold consumer_of. rewrite En. by rewrite andb_false_r. }
  cbn [tr_countries]. remember (to_ascii_uppercase (ls_exit_country l)) as code' eqn:Ecode.
  assert (Hc : consumer_of code l = String.eqb code' code).
  { unfold consumer_of. apply negb_false_iff in Eg. by rewrite Eg, En, <- Ecode. }
  destruct (String.eqb_spec code' code) as [->|Hne].
  2: { rewrite lookup_insert_ne by done. by apply truth_other. }
  rewrite lookup_insert_eq. unfold country_truth.
  assert (He : exists e, unwrap_or (tr_countries t !! code) (new_country code l) = e /\
    get_u64 e "server_count" = Some (count (consumer_of code) servers) /\
    get_u64 e "available_server_count" = Some (count (fun l => consumer_of code l && enabled l) servers) /\
    Forall (fun flag => get_bool e flag.1 = Some (existsb (fun l => consumer_of code l && flag.2 l) servers)) country_flags).
  { eexists. split; [done|]. destruct (tr_countries t !! code) as [e|]; [exact IH|].
    assert (Hnone : retain (consumer_of code) servers = []).
    { unfold country_truth, count in IH. by destruct (retain _ servers). }
    assert (Hall : forall p, retain (fun l => consumer_of code l && p l) servers = []).
    { intros p. clear -Hnone. induction servers as [|x xs IHx]; [done|]. simpl in *.
      destruct (consumer_of code x); [discriminate|]. by apply IHx. }
    assert (Hex : forall p, existsb (fun l => consumer_of code l && p l) servers = false).
    { intros p. clear -Hnone. induction servers as [|x xs IHx]; [done|]. simpl in *.
      destruct (consumer_of code x); [discriminate|]. by apply IHx. }
    unfold count. rewrite Hnone, Hall. split_and!; [done..|].
    apply Forall_forall. intros [key p] Hf. cbn [fst snd]. rewrite Hex.
    repeat (apply elem_of_cons in Hf as [[= -> ->]|Hf]; [reflexivity|]). by apply elem_of_nil in Hf. }
  destruct He as (e & -> & H1 & H2 & H3).
  destruct (count_country_spec l e _ _ H1 H2) as (G1 & G2 & G3). rewrite !count_snoc, Hc. cbn [andb].
  split_and!; [done|by rewrite G2|]. rewrite Forall_forall in H3, G3 |- *. intros flag Hf.
  rewrite (G3 flag Hf _ (H3 flag Hf)). by rewrite existsb_snoc, Hc.
Qed.
End Counts.

(** The countries listed are exactly those with a consumer server within the tier, and each country's
    numbers and flags are those of its consumer servers. *)
Lemma locations_truth `{Countries} c tier code :
  let visible := retain (fun l => l.(ls_tier) <=? tier) c.(cat_logical_servers) in
  country_truth visible code (tr_countries (location_tree c tier) !! code).
Proof. intros visible. by apply (country_entry_truth (city_states c)). Qed.
