(* ===== verification/Support.v ===== *)
(** Problem reports and diagnostics ([agent/src/native_backend/support.rs]): the categories of a report, its checks
    and text, the logs that go with it, and the summary of the diagnostics.

    The journal and [/etc/os-release] are the class [SupportHost]; the bundled categories are the text of a data
    file, a parameter. *)
From S2P Require Export NativeErr.
From S2P Require Import Json.
From S2P Require Import RustStr CatalogPages.
Open Scope string_scope.
Open Scope Z_scope.
Open Scope list_scope.
Open Scope rust_scope.

Definition CATEGORY_ENDPOINT : string := "/vpn/v1/featureconfig/dynamic-bug-reports".
Definition REPORT_ENDPOINT : string := "/core/v4/reports/bug".
Definition REPORT_TITLE : string := "Report from Proton VPN for Omarchy (unofficial community client)".
Definition REPORT_CLIENT : string := "Linux GUI".
Definition REPORT_CLIENT_VERSION : string := "0.9.11".
Definition COMMUNITY_REPOSITORY : string := "https://github.com/48hoursnonstop/proton-vpn-omarchy".
Definition MAX_FIELDS : Z := 32.
Definition MAX_LOG_BYTES : Z := 2 * 1024 * 1024.
Definition REPORT_LOG_LINES : Z := 5000.
Definition DIAGNOSTIC_LOG_LINES : Z := 1.

Record ReportRequest : Type := mkReportRequest {
  rr_category : string;
  rr_email : string;
  rr_fields : gmap string string;
  rr_include_logs : bool }.
Record LogAttachment : Type := mkLogAttachment {
  la_source : string;
  la_filename : string;
  la_data : list Z }.
Record LogCollection : Type := mkLogCollection {
  lc_attachments : list LogAttachment;
  lc_failures : list string }.

(** ** Categories *)
Definition invalid_category : NativeError :=
  NativeError_new "report_categories_invalid" "Proton returned an invalid report issue category".
Definition alias_value (object : gmap string json) (first second : string) : option json := or_else (object !! first) (object !! second).
Definition alias_string (object : gmap string json) (first second : string) : string :=
  unwrap_or (option_map trim (alias_value object first second ?> as_str)) "".
Definition alias_array (object : gmap string json) (first second : string) : NativeResult (list json) :=
  ok_or (alias_value object first second ?> as_array) invalid_category.

Definition normalize_suggestion (value : json) : NativeResult json :=
  let? suggestion := ok_or (as_object value) invalid_category in
  let text := alias_string suggestion "Text" "text" in
  if is_empty text then Err invalid_category
  else Ok (jobj [("text", Str text); ("link", Str (alias_string suggestion "Link" "link"))]).
Definition normalize_field (value : json) : NativeResult json :=
  let? field := ok_or (as_object value) invalid_category in
  let label := alias_string field "Label" "label" in
  let submit := alias_string field "SubmitLabel" "submit_label" in
  let kind := alias_string field "Type" "type" in
  if is_empty label || is_empty submit || negb (String.eqb kind "TextSingleLine" || String.eqb kind "TextMultiLine") then Err invalid_category
  else Ok (jobj [("label", Str label); ("submit_label", Str submit); ("type", Str kind);
                 ("placeholder", Str (alias_string field "Placeholder" "placeholder"));
                 ("is_mandatory", Bool (unwrap_or (alias_value field "IsMandatory" "is_mandatory" ?> as_bool) true))]).
Definition normalize_category (value : json) : NativeResult json :=
  let? category := ok_or (as_object value) invalid_category in
  let label := alias_string category "Label" "label" in
  let submit_label := alias_string category "SubmitLabel" "submit_label" in
  let? suggestions := alias_array category "Suggestions" "suggestions" in
  let? fields := alias_array category "InputFields" "input_fields" in
  if is_empty label || is_empty submit_label then Err invalid_category
  else
    let? suggestions := res_collect normalize_suggestion suggestions in
    let? fields := res_collect normalize_field fields in
    Ok (jobj [("label", Str label); ("submit_label", Str submit_label); ("suggestions", Arr suggestions); ("input_fields", Arr fields)]).
Definition normalize_categories (value : json) : NativeResult (list json) :=
  let? categories := ok_or (as_array value) (NativeError_new "report_categories_invalid" "Report issue Categories must be a list") in
  let? normalized := res_collect normalize_category categories in
  match normalized with [] => Err invalid_category | _ => Ok normalized end.

(** ** The request *)
Definition report_invalid (message : string) : NativeError := NativeError_new "invalid_params" message.
Definition required_report_string (params : json) (name : string) (maximum : Z) : NativeResult string :=
  let value := unwrap_or (option_map trim (jget name params ?> as_str)) "" in
  if is_empty value || (maximum <? str_len value)
  then Err (report_invalid (name +:+ " must contain between 1 and " +:+ dec maximum +:+ " bytes"))
  else Ok value.

(** [chars().any(char::is_whitespace)]; in UTF-8 no encoding starts inside another. *)
Fixpoint has_whitespace (s : string) : bool :=
  match strip_ws s with
  | Some _ => true
  | None => match s with "" => false | String _ rest => has_whitespace rest end
  end.
(** [split_once] and [rsplit_once] of an ASCII character. *)
Fixpoint split_at_first (c : ascii) (s : string) : option (string * string) :=
  match s with
  | "" => None
  | String a rest =>
      if Ascii.eqb a c then Some ("", rest)
      else match split_at_first c rest with Some (l, r) => Some (String a l, r) | None => None end
  end.
Fixpoint split_at_last (c : ascii) (s : string) : option (string * string) :=
  match s with
  | "" => None
  | String a rest =>
      match split_at_last c rest with
      | Some (l, r) => Some (String a l, r)
      | None => if Ascii.eqb a c then Some ("", rest) else None
      end
  end.
Definition valid_email (value : string) : bool :=
  if has_whitespace value then false
  else match split_at_first "@" value with
  | None => false
  | Some (local, domain) =>
      negb (is_empty local) && match split_at_last "." domain with Some (name, suffix) => negb (is_empty name) && negb (is_empty suffix) | None => false end
  end.

Definition fields_error : NativeError := report_invalid "fields must be an object with at most 32 entries".
(** One field; the fields come in the order of their keys as sent. *)
Definition add_field (fields : gmap string string) (raw : string * json) : NativeResult (gmap string string) :=
  let key := trim raw.1 in
  let? value := ok_or (as_str raw.2) (report_invalid "report field keys and values must be strings") in
  if is_empty key || (512 <? str_len key) || (8192 <? str_len value) then Err (report_invalid "report field has an invalid length")
  else Ok (<[key := value]> fields).
Fixpoint add_fields (fields : gmap string string) (raw : list (string * json)) : NativeResult (gmap string string) :=
  match raw with
  | [] => Ok fields
  | x :: raw => let? fields := add_field fields x in add_fields fields raw
  end.
Definition report_request (params : json) : NativeResult ReportRequest :=
  let? category := required_report_string params "category" 256 in
  let? email := required_report_string params "email" 320 in
  if negb (valid_email email) then Err (report_invalid "email must be a valid email address")
  else
    let? raw_fields := ok_or (jget "fields" params ?> as_object) fields_error in
    if MAX_FIELDS <? Z.of_nat (size raw_fields) then Err fields_error
    else
      let? fields := add_fields ∅ (sorted_entries raw_fields) in
      let? include_logs := ok_or (match jget "include_logs" params with Some v => as_bool v | None => Some false end)
        (report_invalid "include_logs must be a boolean") in
      Ok (mkReportRequest category email fields include_logs).

(** ** Diagnostics *)
Record DiagnosticSummary : Type := mkDiagnosticSummary {
  ds_os : string;
  ds_os_version : string;
  ds_backend_version : string;
  ds_signed_in : bool;
  ds_catalog_loaded : bool;
  ds_client_config_loaded : bool;
  ds_tunnel_state : string;
  ds_protocol : option string;
  ds_protocols : list string;
  ds_api_reachable : bool;
  ds_tls_pin_verified : bool;
  ds_log_sources_available : Z;
  ds_log_source_failures : Z }.
Definition yes_no (value : bool) : string := if value then "yes" else "no".
Definition newline : string := String "010" "".
Definition diagnostic_summary (d : DiagnosticSummary) : string :=
  let os := if is_empty d.(ds_os_version) then d.(ds_os) else d.(ds_os) +:+ " " +:+ d.(ds_os_version) in
  let protocol := unwrap_or (opt_filter (fun v => negb (is_empty v)) d.(ds_protocol)) "none" in
  join newline [
    "Proton VPN for Omarchy diagnostics (sanitized)"; "Core: " +:+ d.(ds_backend_version); "OS: " +:+ os;
    "Signed in: " +:+ yes_no d.(ds_signed_in); "Catalog loaded: " +:+ yes_no d.(ds_catalog_loaded);
    "Client config loaded: " +:+ yes_no d.(ds_client_config_loaded); "Tunnel state: " +:+ d.(ds_tunnel_state);
    "Active protocol: " +:+ protocol; "Available protocols: " +:+ join ", " d.(ds_protocols);
    "Proton API reachable: " +:+ yes_no d.(ds_api_reachable); "TLS pin verified: " +:+ yes_no d.(ds_tls_pin_verified);
    "Diagnostic sources available: " +:+ dec d.(ds_log_sources_available) +:+ "/" +:+
      dec (d.(ds_log_sources_available) + d.(ds_log_source_failures));
    "Raw journals: not included"].

(** ** The host *)
Class SupportHost (W : Type) : Type := mkSupportHost {
  (** [fs::read_to_string("/etc/os-release")]. *)
  su_os_release : W -> option string;
  (** The exit status, standard output and standard error of a command, or why it did not start. *)
  su_command : string -> list string -> W -> result (bool * list Z * list Z) string * W }.

(** [trim_matches] of one ASCII character. *)
Fixpoint drop_char (c : ascii) (s : string) : string :=
  match s with String a rest => if Ascii.eqb a c then drop_char c rest else s | "" => "" end.
Definition trim_char (c : ascii) (s : string) : string := str_rev (drop_char c (str_rev (drop_char c s))).
Definition quote : ascii := "034".
Definition release_values (content : string) : gmap string string :=
  fold_left (fun m line => match split_at_first "=" line with
    | Some (key, value) => <[key := trim_char quote (trim value)]> m
    | None => m
    end) (lines content) ∅.

Section Host.
Context {W : Type} {SH : SupportHost W}.

Definition os_release (w : W) : string * string :=
  let values := match su_os_release w with Some content => release_values content | None => ∅ end in
  let distribution := unwrap_or (values !! "ID") "linux" in
  let version := unwrap_or (or_else (values !! "VERSION_ID") (values !! "BUILD_ID")) "" in
  (distribution +:+ " (Hyprland)", version).

Definition log_specs : list (string * string * list string) :=
  let common := ["--no-pager"; "--utc"; "--since=-1d"; "--no-hostname"] in
  [("agent", "ProtonOmarchyAgent.log", ["--user"; "-u"; "proton-omarchy-agent.service"] ++ common);
   ("network_manager", "NetworkManager.log", ["-u"; "NetworkManager"] ++ common);
   ("split_tunneling", "SplitTunneling.log", ["-u"; "proton.VPN.service"] ++ common)].
(** One journal; [saturating_sub] keeps the end of a long one. *)
Definition collect_log (max_lines : Z) (spec : string * string * list string) (acc : LogCollection * W) : LogCollection * W :=
  let '(source, filename, args) := spec in
  let '(result, w) := acc in
  let fail text := mkLogCollection result.(lc_attachments) (result.(lc_failures) ++ [source +:+ ": " +:+ text]) in
  let '(answer, w) := su_command "/usr/bin/journalctl" (["--lines"; dec max_lines] ++ args) w in
  (match answer with
   | Ok (true, stdout, _) =>
       let start := Z.to_nat (Z.max 0 (Z.of_nat (length stdout) - MAX_LOG_BYTES)) in
       mkLogCollection (result.(lc_attachments) ++ [mkLogAttachment source filename (drop start stdout)]) result.(lc_failures)
   | Ok (false, _, stderr) =>
       let detail := trim (from_utf8_lossy stderr) in
       fail (if is_empty detail then "journal capture failed" else detail)
   | Err error => fail error
   end, w).
Definition collect_logs_bounded (max_lines : Z) (w : W) : LogCollection * W :=
  fold_left (fun acc spec => collect_log max_lines spec acc) log_specs (mkLogCollection [] [], w).
Definition collect_logs : W -> LogCollection * W := collect_logs_bounded REPORT_LOG_LINES.
Definition collect_log_metadata : W -> LogCollection * W := collect_logs_bounded DIAGNOSTIC_LOG_LINES.
End Host.

Section Bundle.
Context {J : JsonText} (bundled_categories : string).

Definition fallback_categories : NativeResult (list json) :=
  let? payload := ok_or (json_parse bundled_categories)
    (ne_with_source (json_refusal "Value" bundled_categories)
      (NativeError_new "report_categories_invalid" "Bundled report categories are invalid")) in
  normalize_categories (unwrap_or (jget "categories" payload) Null).
End Bundle.

Definition report_description (request : ReportRequest) : string :=
  let lines := ["Client: Proton VPN for Omarchy"; "Distribution: unofficial community client"; "Core version: " +:+ REPORT_CLIENT_VERSION;
                "Repository: " +:+ COMMUNITY_REPOSITORY; ""; "Category: " +:+ request.(rr_category); ""]
    ++ flat_map (fun p => if is_empty (trim p.2) then [] else [p.1; p.2; ""]) (sorted_entries request.(rr_fields)) in
  trim_end (join newline lines) +:+ newline.

(** ** Lemmas *)
Lemma trimmed_alias object first second : trim (alias_string object first second) = alias_string object first second.
Proof. unfold alias_string. destruct (_ ?> as_str); cbn; [apply trim_idem|reflexivity]. Qed.

Lemma alias_known object first second text :
  object !! first = None -> object !! second = Some (Str text) -> alias_string object first second = trim text.
Proof. intros H1 H2. unfold alias_string, alias_value. rewrite H1, H2. reflexivity. Qed.
Lemma alias_list object first second l :
  object !! first = None -> object !! second = Some (Arr l) -> alias_array object first second = Ok l.
Proof. intros H1 H2. unfold alias_array, alias_value. rewrite H1, H2. reflexivity. Qed.
(** The fields of an object written here, read again. *)
Ltac read_again :=
  repeat match goal with
  | |- context [alias_string ?m ?a ?b] => erewrite (alias_known m a b) by reflexivity
  | |- context [alias_array ?m ?a ?b] => erewrite (alias_list m a b) by reflexivity
  end; rewrite ?trimmed_alias, ?trim_idem.

(** A value that the same normalization leaves alone. *)
Definition settled (f : json -> NativeResult json) (v : json) : Prop := f v = Ok v.
Lemma suggestion_settled v w : normalize_suggestion v = Ok w -> settled normalize_suggestion w.
Proof.
  unfold settled. intros H. unfold normalize_suggestion in H. destruct (as_object v) as [m|]; cbn [ok_or res_bind] in H; [|discriminate].
  destruct (is_empty (alias_string m "Text" "text")) eqn:E; [discriminate|]. injection H as <-.
  remember (alias_string m "Text" "text") as text eqn:Et. remember (alias_string m "Link" "link") as link eqn:El.
  assert (trim text = text /\ trim link = link) as [H1 H2] by (subst; by rewrite !trimmed_alias). clear Et El.
  unfold normalize_suggestion. cbn [as_object jobj ok_or res_bind]. read_again. by rewrite H1, H2, E.
Qed.
Lemma field_settled v w : normalize_field v = Ok w -> settled normalize_field w.
Proof.
  unfold settled. intros H. unfold normalize_field in H. destruct (as_object v) as [m|]; cbn [ok_or res_bind] in H; [|discriminate].
  remember (alias_string m "Label" "label") as label eqn:E1. remember (alias_string m "SubmitLabel" "submit_label") as submit eqn:E2.
  remember (alias_string m "Type" "type") as kind eqn:E3. remember (alias_string m "Placeholder" "placeholder") as hint eqn:E4.
  destruct (_ || _) eqn:E; [discriminate|]. injection H as <-.
  assert (trim label = label /\ trim submit = submit /\ trim kind = kind /\ trim hint = hint) as (H1 & H2 & H3 & H4) by (subst; by rewrite !trimmed_alias).
  clear E1 E2 E3 E4. unfold normalize_field. cbn [as_object jobj ok_or res_bind]. read_again. rewrite H1, H2, H3, H4, E.
  by destruct (unwrap_or (alias_value m "IsMandatory" "is_mandatory" ?> as_bool) true).
Qed.
Lemma collect_settled (f : json -> NativeResult json) l l' :
  (forall v w, f v = Ok w -> settled f w) -> res_collect f l = Ok l' -> res_collect f l' = Ok l'.
Proof.
  intros Hf. revert l'. induction l as [|v l IH]; intros l'; cbn; [by intros [= <-]|].
  destruct (f v) as [w|] eqn:E; [|discriminate]. cbn. destruct (res_collect f l) as [ws|]; [|discriminate]. intros [= <-].
  cbn. rewrite (Hf _ _ E). cbn. by rewrite IH.
Qed.
Lemma category_settled v w : normalize_category v = Ok w -> settled normalize_category w.
Proof.
  unfold settled. intros H. unfold normalize_category in H. destruct (as_object v) as [m|]; cbn [ok_or res_bind] in H; [|discriminate].
  remember (alias_string m "Label" "label") as label eqn:E1. remember (alias_string m "SubmitLabel" "submit_label") as submit eqn:E2.
  destruct (alias_array m "Suggestions" _) as [sg|]; cbn [res_bind] in H; [|discriminate].
  destruct (alias_array m "InputFields" _) as [fd|]; cbn [res_bind] in H; [|discriminate].
  destruct (_ || _) eqn:E; [discriminate|]. destruct (res_collect normalize_suggestion sg) as [sg'|] eqn:Es; cbn [res_bind] in H; [|discriminate].
  destruct (res_collect normalize_field fd) as [fd'|] eqn:Ef; cbn [res_bind] in H; [|discriminate]. injection H as <-.
  assert (trim label = label /\ trim submit = submit) as [H1 H2] by (subst; by rewrite !trimmed_alias). clear E1 E2.
  unfold normalize_category. cbn [as_object jobj ok_or res_bind]. read_again. cbn [res_bind]. rewrite H1, H2, E.
  rewrite (collect_settled _ _ _ suggestion_settled Es). cbn [res_bind]. by rewrite (collect_settled _ _ _ field_settled Ef).
Qed.

(** What a checked report is. *)
Record report_ok (r : ReportRequest) : Prop := mkReportOk {
  ro_category : 0 < str_len r.(rr_category) <= 256;
  ro_email : 0 < str_len r.(rr_email) <= 320 /\ valid_email r.(rr_email) = true;
  ro_count : (size r.(rr_fields) <= 32)%nat;
  ro_fields : map_Forall (fun key value => 0 < str_len key <= 512 /\ trim key = key /\ str_len value <= 8192) r.(rr_fields) }.

Lemma nonempty_len s : is_empty s = false -> 0 < str_len s.
Proof. destruct s; [discriminate|]. unfold str_len. cbn [String.length]. lia. Qed.
Lemma required_bounds params name maximum v : required_report_string params name maximum = Ok v -> 0 < str_len v <= maximum.
Proof.
  unfold required_report_string. destruct (_ || _) eqn:E; [discriminate|]. intros [= <-].
  apply orb_false_iff in E as [E1%nonempty_len E2]. lia.
Qed.
Lemma add_fields_ok fields raw out :
  add_fields fields raw = Ok out ->
  map_Forall (fun key value => 0 < str_len key <= 512 /\ trim key = key /\ str_len value <= 8192) fields ->
  map_Forall (fun key value => 0 < str_len key <= 512 /\ trim key = key /\ str_len value <= 8192) out /\
  (size out <= size fields + length raw)%nat.
Proof.
  revert fields. induction raw as [|[key v] raw IH]; intros fields; cbn [add_fields]; [intros [= <-]; split; [done|cbn; lia]|].
  destruct (add_field fields (key, v)) as [fields'|] eqn:E; cbn [res_bind]; [|discriminate]. intros H Hf.
  unfold add_field in E. cbn [fst snd] in E. destruct (as_str v) as [text|]; cbn [ok_or res_bind] in E; [|discriminate].
  destruct (_ || _) eqn:Eb in E; [discriminate|]. injection E as <-.
  apply orb_false_iff in Eb as [Eb E3]. apply orb_false_iff in Eb as [E1%nonempty_len E2].
  destruct (IH _ H) as [H1 H2]. { apply map_Forall_insert_2; [|done]. rewrite trim_idem. split; [lia|]. split; [done|lia]. }
  split; [done|]. rewrite map_size_insert in H2. cbn [length]. destruct (fields !! trim key); cbn in H2; lia.
Qed.
Lemma sorted_entries_length {A : Type} (m : gmap string A) : length (sorted_entries m) = size m.
Proof. unfold sorted_entries. rewrite merge_sort_Permutation. apply length_map_to_list. Qed.
Lemma report_request_ok params r :
  report_request params = Ok r ->
  report_ok r /\ (r.(rr_include_logs) = true -> jget "include_logs" params = Some (Bool true)).
Proof.
  unfold report_request. destruct (required_report_string params "category" 256) as [category|] eqn:E1; cbn [res_bind]; [|discriminate].
  destruct (required_report_string params "email" 320) as [email|] eqn:E2; cbn [res_bind]; [|discriminate].
  destruct (valid_email email) eqn:Em; cbn [negb]; [|discriminate].
  destruct (jget "fields" params ?> as_object) as [raw|]; cbn [ok_or res_bind]; [|discriminate].
  destruct (MAX_FIELDS <? Z.of_nat (size raw)) eqn:El; [discriminate|].
  destruct (add_fields ∅ (sorted_entries raw)) as [fields|] eqn:Ef; cbn [res_bind]; [|discriminate].
  destruct (match jget "include_logs" params with Some v => as_bool v | None => Some false end) as [logs|] eqn:Eg; cbn [ok_or res_bind]; [|discriminate].
  intros [= <-]. destruct (add_fields_ok _ _ _ Ef) as [Hf Hs]; [apply map_Forall_empty|].
  rewrite sorted_entries_length, map_size_empty in Hs. unfold MAX_FIELDS in El. split.
  - split; cbn; [by eapply required_bounds|split; [by eapply required_bounds|done]|lia|done].
  - cbn. intros ->. destruct (jget "include_logs" params) as [v|]; [|discriminate]. by destruct v; try discriminate; injection Eg as ->.
Qed.

(** Every journal is either attached, its last 2 MiB at most, or reported as missing. *)
Definition logs_ok (n : nat) (c : LogCollection) : Prop :=
  (length c.(lc_attachments) + length c.(lc_failures))%nat = n /\
  Forall (fun a => Z.of_nat (length a.(la_data)) <= MAX_LOG_BYTES) c.(lc_attachments).
Lemma collect_log_ok {W : Type} {SH : SupportHost W} max_lines spec n acc :
  logs_ok n acc.1 -> logs_ok (S n) (collect_log max_lines spec acc).1.
Proof.
  destruct spec as [[source filename] args], acc as [c w]. cbn [fst]. intros [Hn Hf]. unfold collect_log.
  destruct (su_command _ _ w) as [[[[[] stdout] stderr]|e] w']; cbn [fst]; unfold logs_ok; cbn [lc_attachments lc_failures]; rewrite length_app;
    cbn [length]; (split; [lia|]); try done.
  apply Forall_app. split; [done|]. constructor; [|constructor]. cbn [la_data]. rewrite length_drop. unfold MAX_LOG_BYTES. lia.
Qed.
Lemma collected_logs_ok {W : Type} {SH : SupportHost W} max_lines w : logs_ok 3 (collect_logs_bounded max_lines w).1.
Proof.
  unfold collect_logs_bounded, log_specs. cbn [fold_left]. do 3 apply collect_log_ok. split; [done|constructor].
Qed.

(** ** Properties *)

(** The categories of problem reports have a normal form: what the normalization accepts is not empty, and normalizing
    the normalized list again, as the front end hands it on, changes nothing, whatever of the two spellings of the keys the
    server used. *)
Theorem categories_are_stable value l :
  normalize_categories value = Ok l -> l <> [] /\ normalize_categories (Arr l) = Ok l.
Proof.
  unfold normalize_categories. destruct (as_array value) as [raw|]; cbn [ok_or res_bind]; [|discriminate].
  destruct (res_collect normalize_category raw) as [l0|] eqn:E; cbn [res_bind]; [|discriminate]. intros H.
  assert (l0 = l /\ l <> []) as [-> Hl] by (destruct l0; [discriminate|injection H as <-; done]). split; [done|].
  cbn [as_array ok_or res_bind]. rewrite (collect_settled _ _ _ category_settled E). cbn [res_bind]. by destruct l.
Qed.

(** ** A concrete list of categories *)
Definition sample_categories : json :=
  Arr [jobj [("Label", Str " Other "); ("submit_label", Str "other"); ("Suggestions", Arr [jobj [("Text", Str "Restart")]]);
             ("InputFields", Arr [jobj [("Label", Str "What?"); ("SubmitLabel", Str "what"); ("Type", Str "TextMultiLine")]])]].
Definition normalized_categories : list json := match normalize_categories sample_categories with Ok l => l | Err _ => [] end.
Lemma categories_are_stable_witness :
  normalize_categories sample_categories = Ok normalized_categories /\ normalized_categories <> [] /\
  normalize_categories (Arr normalized_categories) = Ok normalized_categories.
Proof.
  assert (H : normalize_categories sample_categories = Ok normalized_categories) by (vm_compute; reflexivity).
  split; [exact H|]. exact (categories_are_stable sample_categories normalized_categories H).
Defined.
