(* ===== verification/Launcher.v ===== *)
(** Desktop applications and the Connect and Go launcher ([agent/src/native_backend/apps.rs], [system_launch.rs]): which
    applications are listed, and which programs are started.

    The file system and the environment are the class [FileTree], the same during one call; [shell_words] and the
    order of a hash map are part of it.  Starting a program and asking for the default browser change the world, and
    the programs started are recorded.  The crate [url] is the class [Urls]. *)
From S2P Require Export NativeErr.
From S2P Require Import RustStr.
Open Scope string_scope.
Open Scope Z_scope.
Open Scope list_scope.
Open Scope rust_scope.

(** ** Desktop files *)
Record file_stat : Type := mkFileStat {
  st_is_dir : bool;
  st_is_file : bool;
  st_len : Z;
  st_mode : Z;
  st_dev : Z;
  st_ino : Z }.
Record InstalledApp : Type := mkInstalledApp {
  desktop_id : string;
  app_name : string;
  app_exec : string }.
Class FileTree : Type := mkFileTree {
  ft_env : string -> option string;
  ft_canonical : string -> option string;
  (** [fs::metadata], which follows links. *)
  ft_stat : string -> option file_stat;
  (** The entries that [read_dir] yields, with the type of each: a directory or not, [None] when it is unknown. *)
  ft_entries : string -> option (list (string * option bool));
  ft_read : string -> option (list Z);
  (** [into_values] of a hash map. *)
  ft_values : list InstalledApp -> list InstalledApp;
  (** [str::to_lowercase]. *)
  ft_lowercase : string -> string;
  shell_split : string -> option (list string) }.

Definition MAX_RESULTS : Z := 100.
Definition MAX_QUERY_BYTES : Z := 256.
Definition MAX_DESKTOP_FILES : nat := 10000.
Definition MAX_DESKTOP_DEPTH : nat := 32.
Definition MAX_DESKTOP_FILE_BYTES : Z := 1024 * 1024.

(** [Path::extension] and [Path::file_name] of a path that ends in a name. *)
Definition split_last (sep : ascii) (s : string) : option (string * string) :=
  match split_char sep (str_rev s) with
  | last :: ((_ :: _) as before) => Some (join (String sep "") (rev (map str_rev before)), str_rev last)
  | _ => None
  end.
Definition path_name (path : string) : string := match split_last "/" path with Some (_, name) => name | None => path end.
Definition extension (name : string) : option string :=
  match split_last "." name with Some (stem, ext) => if is_empty stem then None else Some ext | None => None end.
(** What comes before the first occurrence of [sep], as [split_once]. *)
Fixpoint before_first (sep s : string) : option string :=
  match strip_prefix sep s with
  | Some _ => Some ""
  | None => match s with "" => None | String c r => option_map (String c) (before_first sep r) end
  end.
Fixpoint split_key (s : string) : option (string * string) :=
  match s with
  | "" => None
  | String c r => if Ascii.eqb c "=" then Some ("", r) else option_map (fun kv => (String c kv.1, kv.2)) (split_key r)
  end.

(** What a scan has found and seen. *)
Record scan : Type := mkScan {
  sc_files : list string;
  sc_seen : gset string;
  sc_directories : gset (Z * Z) }.
Definition full (s : scan) : bool := (MAX_DESKTOP_FILES <=? length s.(sc_files))%nat.

Section Apps.
Context {F : FileTree}.

(** [env::var]. *)
Definition env_text (name : string) : option string := ft_env name ?> (fun value => from_utf8 (as_bytes value)).

(** [levels] may still be entered. *)
Fixpoint collect_desktop_files (levels : nat) (root : string) (s : scan) : scan :=
  match levels with
  | O => s
  | S levels =>
      if full s then s
      else match ft_stat root with
      | None => s
      | Some st =>
          if negb st.(st_is_dir) || bool_decide ((st.(st_dev), st.(st_ino)) ∈ s.(sc_directories)) then s
          else
            let s := mkScan s.(sc_files) s.(sc_seen) ({[(st.(st_dev), st.(st_ino))]} ∪ s.(sc_directories)) in
            match ft_entries root with
            | None => s
            | Some entries =>
                foldl (fun s entry =>
                  if full s then s
                  else
                    let path := path_join root entry.1 in
                    match entry.2 with
                    | None => s
                    | Some true => collect_desktop_files levels path s
                    | Some false =>
                        if bool_decide (extension entry.1 = Some "desktop") && negb (bool_decide (path ∈ s.(sc_seen)))
                        then mkScan (s.(sc_files) ++ [path]) ({[path]} ∪ s.(sc_seen)) s.(sc_directories)
                        else s
                    end) s entries
            end
      end
  end.
Definition application_roots : list string :=
  (match ft_env "XDG_DATA_HOME" with
   | Some data_home => [path_join data_home "applications"]
   | None => match ft_env "HOME" with Some home => [path_join home ".local/share/applications"] | None => [] end
   end)
  ++ map (fun directory => path_join directory "applications")
       (split_char ":" (unwrap_or (ft_env "XDG_DATA_DIRS") "/usr/local/share:/usr/share")).
Fixpoint scan_roots (roots : list string) (s : scan) : scan :=
  match roots with
  | [] => s
  | root :: roots =>
      let s := collect_desktop_files (S MAX_DESKTOP_DEPTH) (unwrap_or (ft_canonical root) root) s in
      if full s then s else scan_roots roots s
  end.
Definition desktop_files : list string := (scan_roots application_roots (mkScan [] ∅ ∅)).(sc_files).

(** ** One desktop file *)
Fixpoint desktop_unescape (value : string) : string :=
  match value with
  | "" => ""
  | String "\" r =>
      match r with
      | "" => "\"
      | String "s" r => String " " (desktop_unescape r)
      | String "n" r => String "010" (desktop_unescape r)
      | String "t" r => String "009" (desktop_unescape r)
      | String "r" r => String "013" (desktop_unescape r)
      | String c r => String c (desktop_unescape r)
      end
  | String c r => String c (desktop_unescape r)
  end.
Definition truthy (value : option string) : bool :=
  match value with Some value => eq_ignore_ascii_case value "true" || String.eqb value "1" | None => false end.

Definition locale_preferences : list string :=
  let raw := unwrap_or (or_else (opt_filter (fun value => negb (is_empty value)) (env_text "LC_MESSAGES")) (env_text "LANG")) "" in
  let locale := replace_char "-" "_" (hd "" (split_char "." raw)) in
  if negb (is_empty locale) && negb (String.eqb locale "C") && negb (String.eqb locale "POSIX")
  then locale :: match before_first "_" locale with Some language => [language] | None => [] end
  else [].
Definition localized_name (values : gmap string string) : option string :=
  let named key := opt_filter (fun value => negb (is_empty value)) (values !! key) in
  or_else (head (omap (fun locale => named ("Name[" +:+ locale +:+ "]")) locale_preferences)) (named "Name").

(** [0o111]. *)
Definition EXECUTE_BITS : Z := 73.
Definition executable_file (path : string) : bool :=
  match ft_stat path with Some st => st.(st_is_file) && negb (Z.land st.(st_mode) EXECUTE_BITS =? 0) | None => false end.
Definition resolve_executable (command : string) : option string :=
  if contains_char "/" command then (if executable_file command then Some command else None)
  else
    ft_env "PATH" ?> fun path => option_map (fun found => from_utf8_lossy (as_bytes found))
      (find_first executable_file (map (fun directory => path_join directory command) (split_char ":" path))).
Definition app_executable (command : string) : option string :=
  if starts_with "flatpak " command || starts_with "/usr/bin/flatpak " command
  then Some (trim (unwrap_or (before_first "@@" command) command))
  else
    match shell_split command with
    | Some (first :: _) =>
        match strip_prefix "/snap/bin/" first with
        | Some name => Some ("/snap/" +:+ hd name (split_whitespace name) +:+ "/")
        | None => resolve_executable first
        end
    | _ => None
    end.

(** The keys of the section [Desktop Entry]; the last of a name counts. *)
Definition desktop_line (st : bool * gmap string string) (raw_line : string) : bool * gmap string string :=
  let line := trim raw_line in
  if starts_with "[" line && starts_with "]" (str_rev line) then (String.eqb line "[Desktop Entry]", st.2)
  else if negb st.1 || is_empty line || starts_with "#" line then st
  else match split_key line with
  | Some (key, value) => (st.1, <[key := desktop_unescape value]> st.2)
  | None => st
  end.
Definition desktop_values (raw : string) : gmap string string := (foldl desktop_line (false, ∅) (lines raw)).2.
Definition desktop_text (path : string) : option string :=
  match ft_stat path with
  | Some st =>
      if negb st.(st_is_file) || (MAX_DESKTOP_FILE_BYTES <? st.(st_len)) then None
      else
        match option_map (take (Z.to_nat (MAX_DESKTOP_FILE_BYTES + 1))) (ft_read path) with
        | Some bytes => if MAX_DESKTOP_FILE_BYTES <? Z.of_nat (length bytes) then None else from_utf8 bytes
        | None => None
        end
  | None => None
  end.
Definition app_of (path : string) (values : gmap string string) : option InstalledApp :=
  if negb (String.eqb (unwrap_or (values !! "Type") "Application") "Application")
     || truthy (values !! "Hidden") || truthy (values !! "NoDisplay")
  then None
  else
    match localized_name values, values !! "Exec" ?> (fun command => app_executable (trim command)), from_utf8 (as_bytes (path_name path)) with
    | Some name, Some executable, Some id => Some (mkInstalledApp id name executable)
    | _, _, _ => None
    end.
Definition parse_desktop_file (path : string) : option InstalledApp :=
  desktop_text path ?> (fun raw => app_of path (desktop_values raw)).
Definition desktop_id_exists (id : string) : bool :=
  let id := trim id in
  if is_empty id || (255 <? str_len id) || contains_char "/" id || negb (starts_with (str_rev ".desktop") (str_rev id)) then false
  else existsb (fun path => match from_utf8 (as_bytes (path_name path)) with Some name => String.eqb name id | None => false end
                            && match parse_desktop_file path with Some _ => true | None => false end) desktop_files.

(** ** The list *)
Definition invalid_app_page (name : string) (maximum : Z) : NativeError :=
  NativeError_new "invalid_params" (name +:+ " must be an integer between " +:+ dec (if String.eqb name "limit" then 1 else 0) +:+ " and " +:+ dec maximum).
Definition unsigned_param (params : json) (name : string) (default maximum : Z) : NativeResult Z :=
  let value := unwrap_or (jget name params ?> as_u64) default in
  if (maximum <? value) || (String.eqb name "limit" && (value =? 0)) then Err (invalid_app_page name maximum) else Ok value.

Definition own_program (probe : string) : bool :=
  str_contains "proton vpn" probe || str_contains "proton-vpn" probe || str_contains "proton-omarchy" probe.
Definition probe_of (app : InstalledApp) : string := ft_lowercase (app.(app_name) +:+ " " +:+ app.(app_exec)).
Definition hidden_from (query : string) (app : InstalledApp) : bool :=
  own_program (probe_of app) || (negb (is_empty query) && negb (str_contains query (probe_of app))).
(** [entry(...).or_insert(app)]. *)
Definition or_insert (by_executable : gmap string InstalledApp) (app : InstalledApp) : gmap string InstalledApp :=
  match by_executable !! app.(app_exec) with Some _ => by_executable | None => <[app.(app_exec) := app]> by_executable end.
Definition visible_apps (query : string) : list InstalledApp :=
  filter_map (fun path => opt_filter (fun app => negb (hidden_from query app)) (parse_desktop_file path)) desktop_files.
Definition by_name (a b : InstalledApp) : Prop := String.le (ft_lowercase a.(app_name)) (ft_lowercase b.(app_name)).
Fixpoint insert_app (app : InstalledApp) (l : list InstalledApp) : list InstalledApp :=
  match l with
  | [] => [app]
  | other :: l' => if decide (by_name app other) then app :: l else other :: insert_app app l'
  end.
(** [sort_by_key]: stable. *)
Definition sort_apps (l : list InstalledApp) : list InstalledApp := foldr insert_app [] l.
Definition listed_apps (query : string) : list InstalledApp :=
  sort_apps (ft_values (map snd (map_to_list (foldl or_insert ∅ (visible_apps query))))).
Definition app_json (app : InstalledApp) : json :=
  jobj [("id", Str app.(desktop_id)); ("name", Str app.(app_name)); ("executable", Str app.(app_exec))].
Definition query_too_long : NativeError :=
  NativeError_new "invalid_params" ("query must be at most " +:+ dec MAX_QUERY_BYTES +:+ " bytes").
Definition list_apps (params : json) : NativeResult json :=
  let? offset := unsigned_param params "offset" 0 100000 in
  let? limit := unsigned_param params "limit" 100 MAX_RESULTS in
  let query := trim (unwrap_or (jget "query" params ?> as_str) "") in
  if MAX_QUERY_BYTES <? str_len query then Err query_too_long
  else
    let query := ft_lowercase query in
    let apps := listed_apps query in
    Ok (jobj [("offset", jnum offset); ("limit", jnum limit); ("total", jnum (Z.of_nat (length apps))); ("query", Str query);
              ("apps", Arr (map app_json (take (Z.to_nat limit) (drop (Z.to_nat offset) apps))))]).
End Apps.

(** ** Starting programs *)

(** [Url::parse]: the scheme, the host and the text of the parsed address. *)
Record url : Type := mkUrl {
  url_scheme : string;
  url_host : option string;
  url_text : string }.
Class Urls : Type := mkUrls { url_parse : string -> option url }.
(** Starting a program without waiting for it, and the answer of [xdg-settings get default-web-browser] within
    [PROCESS_TIMEOUT]: its success and its output, or an error; [None] when it takes too long. *)
Class Programs (W : Type) : Type := mkPrograms {
  pr_spawn : string -> list string -> W -> result unit string * W;
  pr_default_browser : W -> option (result (bool * list Z) string) * W }.

Definition MAX_URL_CHARS : Z := 2048.
Definition launch_error (code message : string) : NativeError := NativeError_new code message.
Definition private_unavailable (message : string) : NativeError := NativeError_new "private_browsing_unavailable" message.

Definition launch_string (params : json) (key : string) (max_chars : Z) : NativeResult string :=
  let value := trim (unwrap_or (jget key params ?> as_str) "") in
  if max_chars <? chars_count value
  then Err (NativeError_new "invalid_params" (key +:+ " exceeds " +:+ dec max_chars +:+ " characters"))
  else Ok value.
Definition is_web (u : url) : bool := (String.eqb u.(url_scheme) "http" || String.eqb u.(url_scheme) "https") && match u.(url_host) with Some _ => true | None => false end.
Definition normalized_web_url {U : Urls} (raw : string) : NativeResult url :=
  let raw := trim raw in
  let formatted := if str_contains ":/" raw then raw else "https://" +:+ raw in
  let? u := ok_or (url_parse formatted) (NativeError_new "invalid_url" "Connect and Go requires a valid web URL") in
  if is_web u then Ok u else Err (NativeError_new "invalid_url" "Connect and Go supports HTTP and HTTPS websites").

Definition BRAVE : list string := ["/usr/bin/brave-origin"; "/usr/bin/brave-browser"; "/usr/bin/brave"].
Definition CHROMIUM : list string := ["/usr/bin/chromium"; "/usr/bin/chromium-browser"].
Definition CHROME : list string := ["/usr/bin/google-chrome-stable"; "/usr/bin/google-chrome"].
Definition EDGE : list string := ["/usr/bin/microsoft-edge-stable"; "/usr/bin/microsoft-edge"].
Definition VIVALDI : list string := ["/usr/bin/vivaldi-stable"; "/usr/bin/vivaldi"].
Definition FIREFOX : list string := ["/usr/bin/firefox"; "/usr/bin/librewolf"; "/usr/bin/floorp"].
Definition private_browser_command (id : string) : option (list string * string) :=
  if str_contains "brave" id then Some (BRAVE, "--incognito")
  else if str_contains "chromium" id then Some (CHROMIUM, "--incognito")
  else if str_contains "google-chrome" id || String.eqb id "chrome.desktop" then Some (CHROME, "--incognito")
  else if str_contains "microsoft-edge" id then Some (EDGE, "--inprivate")
  else if str_contains "vivaldi" id then Some (VIVALDI, "--incognito")
  else if str_contains "firefox" id || str_contains "librewolf" id || str_contains "floorp" id then Some (FIREFOX, "--private-window")
  else None.

Section Launch.
Context {F : FileTree} {U : Urls} {W : Type} {P : Programs W}.

(** The world with the programs whose start was asked for. *)
Abbreviation desk := (W * list (string * list string))%type.

Definition spawn_detached (program : string) (args : list string) (d : desk) : NativeResult unit * desk :=
  let '(r, w) := pr_spawn program args d.1 in
  (res_map_err (fun error => ne_with_source error (NativeError_new "launch_failed" "Unable to launch the Connect and Go target")) r,
   (w, d.2 ++ [(program, args)])).
Definition is_file (path : string) : bool := match ft_stat path with Some st => st.(st_is_file) | None => false end.
(** The default browser and its flag for a private window. *)
Definition private_browser (answer : option (result (bool * list Z) string)) : NativeResult (string * string) :=
  let? output := ok_or answer (private_unavailable "Browser detection timed out") in
  let? output := res_map_err (fun error => ne_with_source error (private_unavailable "Unable to detect the default web browser")) output in
  if negb output.1 then Err (private_unavailable "Unable to detect the default web browser")
  else
    let id := to_ascii_lowercase (trim (from_utf8_lossy output.2)) in
    let? found := ok_or (private_browser_command id) (private_unavailable "The default browser has no known private-window command") in
    let? browser := ok_or (find_first is_file found.1) (private_unavailable "The default browser executable could not be found") in
    Ok (browser, found.2).
Definition launch_private_browser (address : string) (d : desk) : NativeResult unit * desk :=
  let '(answer, w) := pr_default_browser d.1 in
  match private_browser answer with
  | Err e => (Err e, (w, d.2))
  | Ok (browser, flag) => spawn_detached browser [flag; address] (w, d.2)
  end.

Definition launched (r : NativeResult unit * desk) (answer : json) : NativeResult json * desk :=
  (match r.1 with Ok _ => Ok answer | Err e => Err e end, r.2).
Definition launch_website (params : json) (d : desk) : NativeResult json * desk :=
  match (let? raw := launch_string params "url" MAX_URL_CHARS in normalized_web_url raw) with
  | Err e => (Err e, d)
  | Ok u =>
      let private := unwrap_or (jget "private_browsing" params ?> as_bool) false in
      launched (if private then launch_private_browser u.(url_text) d else spawn_detached "/usr/bin/gio" ["open"; u.(url_text)] d)
        (jobj [("launched", Bool true); ("mode", Str "website"); ("private_browsing", Bool private)])
  end.
Definition launch_application (params : json) (d : desk) : NativeResult json * desk :=
  match launch_string params "desktop_id" 255 with
  | Err e => (Err e, d)
  | Ok id =>
      if negb (desktop_id_exists id)
      then (Err (NativeError_new "application_unavailable" "The selected desktop application is no longer installed"), d)
      else launched (spawn_detached "/usr/bin/gtk-launch" [id] d)
             (jobj [("launched", Bool true); ("mode", Str "application"); ("desktop_id", Str id)])
  end.
Definition launch (params : json) (d : desk) : NativeResult json * desk :=
  match launch_string params "mode" 32 with
  | Err e => (Err e, d)
  | Ok mode =>
      if String.eqb mode "website" then launch_website params d
      else if String.eqb mode "application" then launch_application params d
      else (Err (NativeError_new "invalid_params" "mode must be website or application"), d)
  end.
End Launch.

(** ** The scan *)
Section Scan.
Context {F : FileTree}.

(** Bounded, without repetitions, desktop files only. *)
Definition scan_sound (s : scan) : Prop :=
  (length s.(sc_files) <= MAX_DESKTOP_FILES)%nat /\ NoDup s.(sc_files) /\ (forall f, f ∈ s.(sc_files) -> f ∈ s.(sc_seen)).
Lemma scan_add s path : scan_sound s -> full s = false -> path ∉ s.(sc_seen) ->
  scan_sound (mkScan (s.(sc_files) ++ [path]) ({[path]} ∪ s.(sc_seen)) s.(sc_directories)).
Proof.
  intros (Hl & Hd & Hs) Hf%Nat.leb_gt Hp. split_and!; cbn [sc_files sc_seen].
  - rewrite length_app, Nat.add_1_r. exact Hf.
  - apply NoDup_app. split; [done|]. split; [|apply NoDup_singleton].
    intros f Hf' H%list_elem_of_singleton. subst f. by apply Hp, Hs.
  - intros f [H|H%list_elem_of_singleton]%elem_of_app; set_solver.
Qed.
Lemma collect_sound levels root s : scan_sound s -> scan_sound (collect_desktop_files levels root s).
Proof.
  revert root s. induction levels as [|levels IH]; intros root s Hs; [done|]. cbn [collect_desktop_files].
  destruct (full s); [done|]. destruct (ft_stat root) as [st|]; [|done]. destruct (_ || _); [done|].
  destruct (ft_entries root) as [entries|]; [|done].
  set (s0 := mkScan _ _ _). assert (Hs0 : scan_sound s0) by done. clearbody s0. clear Hs s. revert s0 Hs0.
  induction entries as [|[name kind] entries IHe]; intros s Hs; [done|]. cbn [foldl]. apply IHe.
  destruct (full s) eqn:Hf; [done|]. destruct kind as [[]|]; cbn [fst snd]; [by apply IH| |done].
  destruct (bool_decide (extension name = Some "desktop") && _) eqn:E; [|done].
  apply andb_true_iff in E as [_ E%negb_true_iff%bool_decide_eq_false]. by apply scan_add.
Qed.
Lemma roots_sound roots s : scan_sound s -> scan_sound (scan_roots roots s).
Proof.
  revert s. induction roots as [|root roots IH]; intros s Hs; [done|]. cbn [scan_roots].
  destruct (full _); [by apply collect_sound|]. by apply IH, collect_sound.
Qed.
Lemma desktop_files_bounded : (length desktop_files <= MAX_DESKTOP_FILES)%nat /\ NoDup desktop_files.
Proof.
  destruct (roots_sound application_roots (mkScan [] ∅ ∅)) as (Hl & Hd & _); [|done].
  split_and!; [cbn; apply Nat.le_0_l|apply NoDup_nil_2|]. intros f Hf. by apply elem_of_nil in Hf.
Qed.
End Scan.

(** ** The list *)
Section Listing.
Context {F : FileTree} (values_permute : forall l, ft_values l ≡ₚ l).

Definition same_executable (e : string) (app : InstalledApp) : bool := String.eqb app.(app_exec) e.
Lemma or_insert_lookup l m e :
  foldl or_insert m l !! e = match m !! e with Some app => Some app | None => find_first (same_executable e) l end.
Proof.
  revert m. induction l as [|app l IH]; intros m; cbn [foldl find_first]; [by destruct (m !! e)|].
  rewrite IH. unfold or_insert, same_executable. destruct (m !! app.(app_exec)) as [found|] eqn:E.
  - destruct (m !! e) eqn:Em; [done|]. destruct (String.eqb_spec app.(app_exec) e) as [<-|]; [congruence|done].
  - destruct (String.eqb_spec app.(app_exec) e) as [<-|Hne]; [by rewrite lookup_insert_eq, E|by rewrite lookup_insert_ne].
Qed.
Lemma insert_app_perm app l : insert_app app l ≡ₚ app :: l.
Proof.
  induction l as [|other l IH]; [done|]. cbn [insert_app]. destruct (decide _); [done|]. rewrite IH. by constructor.
Qed.
Lemma sort_apps_perm l : sort_apps l ≡ₚ l.
Proof. induction l as [|app l IH]; [done|]. cbn [sort_apps foldr]. rewrite insert_app_perm. by constructor. Qed.
Lemma insert_app_sorted app l : Sorted by_name l -> Sorted by_name (insert_app app l).
Proof.
  assert (Hle : forall a b, ~ by_name a b -> by_name b a).
  { intros a b Hn. unfold by_name in *. by destruct (total String.le (ft_lowercase (app_name a)) (ft_lowercase (app_name b))). }
  induction 1 as [|other l Hl IH Hhd]; [by repeat constructor|]. cbn [insert_app].
  destruct (decide (by_name app other)) as [Ha|Ha]; [by repeat constructor|]. constructor; [done|].
  destruct l as [|next l]; cbn [insert_app]; [by constructor; apply Hle|].
  destruct (decide _); [by constructor; apply Hle|]. constructor. by inversion Hhd.
Qed.
Lemma sort_apps_sorted l : Sorted by_name (sort_apps l).
Proof. induction l as [|app l IH]; [constructor|]. by apply insert_app_sorted. Qed.

Lemma listed_apps_perm query : listed_apps query ≡ₚ map snd (map_to_list (foldl or_insert ∅ (visible_apps query))).
Proof. unfold listed_apps. by rewrite sort_apps_perm, values_permute. Qed.
Lemma listed_iff query app : app ∈ listed_apps query <-> find_first (same_executable app.(app_exec)) (visible_apps query) = Some app.
Proof.
  rewrite listed_apps_perm, list_elem_of_fmap. split.
  - intros ([e found] & -> & Hf%elem_of_map_to_list). cbn [snd]. rewrite or_insert_lookup, lookup_empty in Hf.
    pose proof Hf as [_ He]%find_first_Some. apply String.eqb_eq in He. by rewrite He.
  - intros Hf. exists (app.(app_exec), app). split; [done|]. apply elem_of_map_to_list. by rewrite or_insert_lookup, lookup_empty.
Qed.
Lemma listed_distinct query : NoDup (map app_exec (listed_apps query)).
Proof.
  rewrite (Permutation_map _ (listed_apps_perm query)), map_map.
  erewrite (map_ext_in _ fst); [apply NoDup_fst_map_to_list|].
  intros [e app] Hin%list_elem_of_In%elem_of_map_to_list. cbn. rewrite or_insert_lookup, lookup_empty in Hin.
  apply find_first_Some in Hin as [_ He]. by apply String.eqb_eq.
Qed.
End Listing.

(** The applications that are listed: of the visible ones, the first of each executable, in the order of their names,
    whatever order the hash map has; an answer is a page of at most 100 of them. *)
Theorem apps_listed {F : FileTree} params answer :
  (forall l, ft_values l ≡ₚ l) -> list_apps params = Ok answer ->
  exists query offset limit, limit <= 100 /\ str_len (trim (unwrap_or (jget "query" params ?> as_str) "")) <= 256 /\
    let apps := listed_apps query in
    jget "total" answer = Some (jnum (Z.of_nat (length apps))) /\
    jget "apps" answer = Some (Arr (map app_json (take (Z.to_nat limit) (drop (Z.to_nat offset) apps)))) /\
    Sorted by_name apps /\ NoDup (map app_exec apps) /\
    (forall app, app ∈ apps <-> find_first (same_executable app.(app_exec)) (visible_apps query) = Some app) /\
    (forall app, app ∈ apps -> exists path, path ∈ desktop_files /\ parse_desktop_file path = Some app /\ hidden_from query app = false).
Proof.
  intros Hperm Hl. unfold list_apps in Hl. destruct (unsigned_param params "offset" 0 100000) as [offset|] eqn:Eo; [|done].
  destruct (unsigned_param params "limit" 100 MAX_RESULTS) as [limit|] eqn:El; [|done]. cbn [res_bind] in Hl.
  destruct (MAX_QUERY_BYTES <? _) eqn:Eq; [done|]. injection Hl as <-. apply Z.ltb_ge in Eq.
  eexists _, offset, limit. cbv zeta. split; [|split; [exact Eq|]].
  - unfold unsigned_param in El. destruct (_ || _) eqn:E; [done|]. injection El as <-.
    apply orb_false_iff in E as [E%Z.ltb_ge _]. exact E.
  - split; [reflexivity|]. split; [reflexivity|].
    split; [apply sort_apps_sorted|]. split; [by apply listed_distinct|]. split; [by intros app; apply listed_iff|].
    intros app Happ%listed_iff; [|done]. apply find_first_Some in Happ as [Hv _]. unfold visible_apps in Hv.
    revert Hv. generalize (@desktop_files F). intros files. induction files as [|path files IH]; cbn [filter_map]; [by intros ?%elem_of_nil|].
    destruct (opt_filter _ (parse_desktop_file path)) as [found|] eqn:E.
    + intros [->|Hv]%elem_of_cons.
      * exists path. destruct (parse_desktop_file path) as [a|]; [|done]. cbn in E. destruct (hidden_from _ a) eqn:Eh; [done|].
        injection E as ->. split; [left|done].
      * destruct (IH Hv) as (p & Hp & H). exists p. split; [by right|done].
    + intros Hv. destruct (IH Hv) as (p & Hp & H). exists p. split; [by right|done].
Qed.

(** ** What is started *)
Inductive allowed_start {F : FileTree} {U : Urls} : string * list string -> Prop :=
  | Opened raw u : url_parse raw = Some u -> is_web u = true -> allowed_start ("/usr/bin/gio", ["open"; u.(url_text)])
  | OpenedPrivately raw u id browser candidates flag :
      url_parse raw = Some u -> is_web u = true -> private_browser_command id = Some (candidates, flag) ->
      browser ∈ candidates -> is_file browser = true -> allowed_start (browser, [flag; u.(url_text)])
  | StartedApplication path app id :
      path ∈ desktop_files -> parse_desktop_file path = Some app -> from_utf8 (as_bytes (path_name path)) = Some id ->
      is_empty id = false -> contains_char "/" id = false -> allowed_start ("/usr/bin/gtk-launch", [id]).

Section Confined.
Context {F : FileTree} {U : Urls} {W : Type} {P : Programs W}.

(** At most one program is started, an allowed one, and on success exactly one. *)
Definition confined {A : Type} (d : W * list (string * list string)) (r : NativeResult A * (W * list (string * list string))) : Prop :=
  exists l, r.2.2 = d.2 ++ l /\ (length l <= 1)%nat /\ (is_ok r.1 = true -> length l = 1%nat) /\ Forall allowed_start l.
Lemma confined_nothing {A : Type} d w (e : NativeError) : confined d (Err (A := A) e, (w, d.2)).
Proof. exists []. rewrite app_nil_r. split_and!; [done|cbn; lia|done|constructor]. Qed.
Lemma confined_spawn program args d w :
  allowed_start (program, args) -> confined d (spawn_detached program args (w, d.2)).
Proof.
  intros Ha. unfold spawn_detached. destruct (pr_spawn program args _) as [r w']. exists [(program, args)]. split_and!; [done|cbn; lia|done|by constructor].
Qed.
Lemma confined_launched d r (answer : json) : confined d r -> confined d (launched r answer).
Proof. intros (l & H1 & H2 & H3 & H4). exists l. split_and!; [done..| |done]. unfold launched. by destruct r.1. Qed.

Lemma web_url raw u : normalized_web_url raw = Ok u -> exists text, url_parse text = Some u /\ is_web u = true.
Proof.
  unfold normalized_web_url. set (text := if str_contains _ _ then _ else _). destruct (url_parse text) as [v|] eqn:E; [|done]. cbn.
  destruct (is_web v) eqn:Ew; [|done]. intros [= ->]. by exists text.
Qed.
Lemma private_browser_known answer browser flag : private_browser answer = Ok (browser, flag) ->
  exists id candidates, private_browser_command id = Some (candidates, flag) /\ browser ∈ candidates /\ is_file browser = true.
Proof.
  unfold private_browser. destruct answer as [[[[] out]|]|]; cbn; try done. set (id := to_ascii_lowercase _).
  destruct (private_browser_command id) as [[candidates fl]|] eqn:Ec; [|done]. cbn.
  destruct (find_first is_file candidates) as [found|] eqn:Ef; [|done]. cbn. intros [= <- <-].
  apply find_first_Some in Ef as [Hin Hf]. by exists id, candidates.
Qed.
Lemma confined_website params d : confined d (launch_website params d).
Proof.
  destruct d as [w log]. unfold launch_website. destruct (let? raw := _ in normalized_web_url raw) as [u|e] eqn:E; [|apply (confined_nothing (w, log))].
  destruct (launch_string params "url" MAX_URL_CHARS) as [raw|]; [|done]. cbn in E. apply web_url in E as (text & Ht & Hw).
  apply confined_launched. destruct (unwrap_or _ false).
  - unfold launch_private_browser. cbn. destruct (pr_default_browser w) as [answer w'].
    destruct (private_browser answer) as [[browser flag]|e] eqn:Eb; [|apply (confined_nothing (w, log))].
    apply private_browser_known in Eb as (id & candidates & Hc & Hin & Hf).
    apply (confined_spawn _ _ (w, log)). by eapply OpenedPrivately.
  - apply (confined_spawn _ _ (w, log)). by eapply Opened.
Qed.
Lemma existing_id id : desktop_id_exists id = true -> allowed_start ("/usr/bin/gtk-launch", [trim id]).
Proof.
  unfold desktop_id_exists. destruct (_ || _) eqn:E; [done|].
  apply orb_false_iff in E as [[[E1 E2]%orb_false_iff E3]%orb_false_iff E4].
  rewrite existsb_exists. intros (path & Hp & [H1 H2]%andb_true_iff).
  destruct (from_utf8 _) as [name|] eqn:En; [|done]. apply String.eqb_eq in H1. subst name.
  destruct (parse_desktop_file path) as [app|] eqn:Ea; [|done]. by eapply StartedApplication; [apply list_elem_of_In| | | |].
Qed.
Lemma confined_application params d : confined d (launch_application params d).
Proof.
  destruct d as [w log]. unfold launch_application. destruct (launch_string params "desktop_id" 255) as [id|e] eqn:El; [|apply (confined_nothing (w, log))].
  destruct (desktop_id_exists id) eqn:Ei; [|apply (confined_nothing (w, log))]. apply confined_launched, (confined_spawn _ _ (w, log)).
  apply existing_id in Ei. unfold launch_string in El. destruct (_ <? _); [done|]. injection El as <-. by rewrite trim_idem in Ei.
Qed.
End Confined.

(** Connect and Go starts at most one program, whatever it is asked for, and exactly one when it succeeds: the
    desktop's opener or an installed browser in private mode on an address with a host and the scheme http or https, or the
    launcher of a visible desktop file that was found in the directories of applications, by its name without a
    directory. *)
Theorem launch_confined {F : FileTree} {U : Urls} {W : Type} {P : Programs W} params (d : W * list (string * list string)) :
  confined d (launch params d).
Proof.
  destruct d as [w log]. unfold launch. destruct (launch_string params "mode" 32) as [mode|e]; [|apply (confined_nothing (w, log))].
  destruct (String.eqb mode "website"); [apply confined_website|]. destruct (String.eqb mode "application"); [apply confined_application|].
  apply (confined_nothing (w, log)).
Qed.

(** ** A desktop with two applications *)
Definition demo_file (name : string) (extra : string) : list Z :=
  as_bytes ("[Desktop Entry]" +:+ String "010" ("Type=Application" +:+ String "010" (name +:+ String "010" ("Exec=/bin/tool %U" +:+ String "010" extra)))).
Definition demo_tree (first second : list Z) : FileTree := {|
  ft_env name := if String.eqb name "XDG_DATA_HOME" then Some "/data" else if String.eqb name "XDG_DATA_DIRS" then Some "/none" else None;
  ft_canonical path := Some path;
  ft_stat path :=
    if String.eqb path "/data/applications" then Some (mkFileStat true false 0 0 1 1)
    else if starts_with "/data/applications/" path || String.eqb path "/bin/tool" then Some (mkFileStat false true 100 EXECUTE_BITS 1 2)
    else None;
  ft_entries path := if String.eqb path "/data/applications" then Some [("b.desktop", Some false); ("a.txt", Some false); ("a.desktop", Some false)] else None;
  ft_read path := if String.eqb path "/data/applications/a.desktop" then Some first else Some second;
  ft_values l := rev l;
  ft_lowercase := to_ascii_lowercase;
  shell_split command := Some (split_whitespace command) |}.
Definition demo_desktop : FileTree := demo_tree (demo_file "Name=Editor" "") (demo_file "Name=Mail\s2" "Hidden=false").
Example demo_scan : desktop_files (F := demo_desktop) = ["/data/applications/b.desktop"; "/data/applications/a.desktop"].
Proof. vm_compute. reflexivity. Qed.
(** Both start the same program: the one found first is listed. *)
Example demo_list : listed_apps (F := demo_desktop) "" = [mkInstalledApp "b.desktop" "Mail 2" "/bin/tool"].
Proof. vm_compute. reflexivity. Qed.
(** The key of a line is not trimmed: an entry that is written with a space before the equals sign has no name, and is
    not listed. *)
Example spaced_key_unlisted :
  parse_desktop_file (F := demo_tree (demo_file "Name = Editor" "") []) "/data/applications/a.desktop" = None /\
  parse_desktop_file (F := demo_tree (demo_file "Name=Editor" "") []) "/data/applications/a.desktop" = Some (mkInstalledApp "a.desktop" "Editor" "/bin/tool").
Proof. vm_compute. by split. Qed.

Lemma apps_listed_witness :
  exists answer, list_apps (F := demo_desktop) (jobj [("limit", jnum 1)]) = Ok answer /\
    exists query, NoDup (map app_exec (listed_apps (F := demo_desktop) query)).
Proof.
  assert (Hok : is_ok (list_apps (F := demo_desktop) (jobj [("limit", jnum 1)])) = true) by (vm_compute; reflexivity).
  destruct (list_apps (F := demo_desktop) (jobj [("limit", jnum 1)])) as [answer|] eqn:E; [|discriminate Hok].
  exists answer. split; [reflexivity|].
  destruct (apps_listed (F := demo_desktop) _ _ (fun l => symmetry (Permutation_rev l)) E) as (query & offset & limit & _ & _ & _ & _ & _ & Hd & _).
  exists query. exact Hd.
Defined.
