(* ===== verification/WebAuth.v ===== *)
(** The isolated browser ([agent/src/native_backend/web_auth.rs]): organization sign-in and human verification in a
    browser window driven over a private pipe.

    What the browser sends is a list of arrivals, each the result of one [read] or the moment a deadline passes; the end
    of the stream is an empty [read], and after the last arrival nothing comes any more although the pipe stays open.
    A wait within a timeout then ends with its deadline, one outside never ends ([Blocked]).  Deadlines are noticed
    while the pipe is read.  Starting the browser is a
    sequence of calls that may each fail.  The crate [url] and the text form of JSON are parameters. *)
From S2P Require Export NativeErr IpcBridge.
From S2P Require Import CatalogPages.
From S2P Require Import NativeErr.
Open Scope string_scope.
Open Scope Z_scope.
Open Scope list_scope.
Open Scope rust_scope.

(** The parts of a parsed address; the port is [port_or_known_default]. *)
Record web_url : Type := mkWebUrl {
  wu_scheme : string;
  wu_host : option string;
  wu_port : option Z;
  wu_path : string;
  wu_fragment : option string }.
Class WebText : Type := mkWebText {
  wt_parse_url : string -> option web_url;
  (** The address of the sign-in with the challenge as last segment, and of the CAPTCHA with the token. *)
  wt_sso_url : string -> string;
  wt_captcha_url : string -> string;
  (** [form_urlencoded::parse]. *)
  wt_form : string -> list (string * string);
  (** [serde_json::to_string] of a value, and [from_slice] with the text of its error. *)
  wt_print : json -> string;
  wt_read : list Z -> result json string }.

Definition MAX_CDP_MESSAGE_BYTES : Z := 1024 * 1024.
Definition web_error (code message error : string) : NativeError := ne_with_source error (NativeError_new code message).

(** ** The pipe *)
Inductive arrival : Type :=
  | Chunk (bytes : list Z)
  | ReadFailed (error : string)
  | Late.
(** [CdpClient], with the messages sent on it. *)
Record CdpClient : Type := mkCdpClient {
  cdp_reader : list arrival;
  cdp_writer : bridge;
  cdp_buffer : list Z;
  cdp_next_id : Z;
  cdp_session : option string;
  cdp_sent : list json }.
Definition set_reader (reader : list arrival) (buffer : list Z) (c : CdpClient) : CdpClient :=
  mkCdpClient reader c.(cdp_writer) buffer c.(cdp_next_id) c.(cdp_session) c.(cdp_sent).
Definition set_session (session : option string) (c : CdpClient) : CdpClient :=
  mkCdpClient c.(cdp_reader) c.(cdp_writer) c.(cdp_buffer) c.(cdp_next_id) session c.(cdp_sent).
Definition CdpClient_new (reader : list arrival) (writer : bridge) : CdpClient := mkCdpClient reader writer [] 1 None [].

(** How a wait on the pipe ends: with a result, with the deadline, not at all because nothing more arrives and there is
    no deadline, or out of fuel. *)
Inductive waited (A : Type) : Type :=
  | Finished (r : NativeResult A)
  | DeadlinePassed
  | Blocked
  | OutOfFuel.
Arguments Finished {A} r.
Arguments DeadlinePassed {A}.
Arguments Blocked {A}.
Arguments OutOfFuel {A}.
Definition CM (A : Type) : Type := CdpClient -> waited A * CdpClient.
Definition cm_ret {A : Type} (a : A) : CM A := fun c => (Finished (Ok a), c).
Definition cm_throw {A : Type} (e : NativeError) : CM A := fun c => (Finished (Err e), c).
Definition cm_bind {A B : Type} (m : CM A) (k : A -> CM B) : CM B := fun c =>
  match m c with
  | (Finished (Ok a), c') => k a c'
  | (Finished (Err e), c') => (Finished (Err e), c')
  | (DeadlinePassed, c') => (DeadlinePassed, c')
  | (Blocked, c') => (Blocked, c')
  | (OutOfFuel, c') => (OutOfFuel, c')
  end.
Notation "'let$' x ':=' m 'in' k" := (cm_bind m (fun x => k)) (at level 10, x name, m at level 100, k at level 200) : rust_scope.
Notation "m ';;$' k" := (cm_bind m (fun _ => k)) (at level 100, k at level 200, right associativity) : rust_scope.

(** The first message of the buffer that is not empty with what follows it, or the rest in which none is complete. *)
Fixpoint pop_message (message buffer : list Z) : (list Z * list Z) + list Z :=
  match buffer with
  | [] => inr message
  | byte :: buffer =>
      if byte =? 0 then match message with [] => pop_message [] buffer | _ => inl (message, buffer) end
      else pop_message (message ++ [byte]) buffer
  end.
Definition browser_closed : NativeError := NativeError_new "web_auth_cancelled" "The isolated browser window was closed".
Definition message_too_long : NativeError := NativeError_new "web_auth_failed" "Browser control message exceeds the size limit".
(** [timed]: inside a timeout. *)
Fixpoint read_pipe_message (timed : bool) (reader : list arrival) (buffer : list Z) : waited (list Z) * list arrival * list Z :=
  match pop_message [] buffer with
  | inl (message, rest) => (Finished (Ok message), reader, rest)
  | inr rest =>
      match reader with
      | [] => (if timed then DeadlinePassed else Blocked, reader, rest)
      | Chunk [] :: _ => (Finished (Err browser_closed), reader, rest)
      | ReadFailed error :: reader => (Finished (Err (web_error "web_auth_failed" "Browser channel failed" error)), reader, rest)
      | Late :: reader => if timed then (DeadlinePassed, reader, rest) else read_pipe_message timed reader rest
      | Chunk bytes :: reader =>
          if MAX_CDP_MESSAGE_BYTES <? Z.of_nat (length rest + length bytes) then (Finished (Err message_too_long), reader, rest)
          else read_pipe_message timed reader (rest ++ bytes)
      end
  end.
Definition command_too_long : io_error := mkIoError InvalidData "browser command exceeds the size limit".
Definition write_pipe_message (payload : list Z) : M bridge unit :=
  if MAX_CDP_MESSAGE_BYTES <? Z.of_nat (length payload) then throw command_too_long
  else writer_call payload ;;! writer_call [0] ;;! writer_call [].

(** ** Commands and events *)
Section Cdp.
Context {T : WebText}.

Definition next_message (timed : bool) : CM json := fun c =>
  let '(o, reader, buffer) := read_pipe_message timed c.(cdp_reader) c.(cdp_buffer) in
  (match o with
   | Finished (Ok bytes) => Finished (res_map_err (web_error "web_auth_failed" "Browser returned an invalid control message") (wt_read bytes))
   | Finished (Err e) => Finished (Err e)
   | DeadlinePassed => DeadlinePassed
   | Blocked => Blocked
   | OutOfFuel => OutOfFuel
   end, set_reader reader buffer c).
Definition command_json (id : Z) (method : string) (params : json) (session : option string) : json :=
  jobj ([("id", jnum id); ("method", Str method); ("params", params)]
        ++ match session with Some session => [("sessionId", Str session)] | None => [] end).
Definition send_with_session (method : string) (params : json) (session : option string) : CM Z := fun c =>
  let id := c.(cdp_next_id) in
  let message := command_json id method params session in
  let '(written, writer) := write_pipe_message (as_bytes (wt_print message)) c.(cdp_writer) in
  (Finished (match written with
             | Ok _ => Ok id
             | Err e => Err (web_error "web_auth_failed" "Browser channel failed" e.(io_text))
             end),
   mkCdpClient c.(cdp_reader) writer c.(cdp_buffer) ((id + 1) mod 2 ^ 64) c.(cdp_session) (c.(cdp_sent) ++ [message])).
Definition not_attached : NativeError := NativeError_new "web_auth_failed" "The browser page is not attached".
Definition send (method : string) (params : json) : CM Z := fun c =>
  match c.(cdp_session) with None => cm_throw not_attached c | Some _ => send_with_session method params c.(cdp_session) c end.

(** Each turn reads one message. *)
Fixpoint await_reply (fuel : nat) (timed : bool) (id : Z) : CM json :=
  match fuel with
  | O => fun c => (OutOfFuel, c)
  | S fuel =>
      let$ message := next_message timed in
      if negb (bool_decide ((jget "id" message ?> as_u64) = Some id)) then await_reply fuel timed id
      else match jget "error" message with
      | Some error => cm_throw (NativeError_new "web_auth_failed" ("Browser automation failed: " +:+ wt_print error))
      | None => cm_ret (unwrap_or (jget "result" message) Null)
      end
  end.
Definition command_with_session (fuel : nat) (timed : bool) (method : string) (params : json) (session : option string) : CM json :=
  let$ id := send_with_session method params session in await_reply fuel timed id.
Definition command (fuel : nat) (method : string) (params : json) : CM json := fun c =>
  match c.(cdp_session) with
  | None => cm_throw not_attached c
  | Some _ => command_with_session fuel false method params c.(cdp_session) c
  end.
Definition root_command (fuel : nat) (timed : bool) (method : string) (params : json) : CM json :=
  command_with_session fuel timed method params None.
Definition is_event (session : option string) (message : json) : bool :=
  match jget "method" message with Some _ => bool_decide ((jget "sessionId" message ?> as_str) = session) | None => false end.
Fixpoint next_event (fuel : nat) : CM json :=
  match fuel with
  | O => fun c => (OutOfFuel, c)
  | S fuel =>
      let$ message := next_message true in
      fun c => if is_event c.(cdp_session) message then cm_ret message c else next_event fuel c
  end.

(** ** What events say *)
Definition page_target_id (targets : json) : option string :=
  jget "targetInfos" targets ?> as_array
  ?> find_first (fun target => bool_decide ((jget "type" target ?> as_str) = Some "page"))
  ?> jget "targetId" ?> as_str.
Definition header_json (name value : string) : json := jobj [("name", Str name); ("value", Str value)].
Definition header_array (headers : option json) : list json :=
  match headers ?> as_object with
  | Some headers => filter_map (fun entry => option_map (header_json entry.1) (as_str entry.2)) (sorted_entries headers)
  | None => []
  end.
Definition set_header (headers : list json) (name value : string) : list json :=
  retain (fun header => negb (match jget "name" header ?> as_str with Some candidate => eq_ignore_ascii_case candidate name | None => false end)) headers
  ++ [header_json name value].
Definition one (v : option json) : list string := match v ?> as_str with Some s => [s] | None => [] end.
Definition navigation_urls (method : string) (params : json) : list string :=
  if String.eqb method "Page.frameNavigated" then one (jget "frame" params ?> jget "url")
  else if String.eqb method "Page.navigatedWithinDocument" then one (jget "url" params)
  else if String.eqb method "Network.requestWillBeSent" then one (jget "request" params ?> jget "url")
  else [].
(** The last value of a key, as collected into a map. *)
Definition form_values (fields : list (string * string)) : gmap string string := foldl (fun m kv => <[kv.1 := kv.2]> m) ∅ fields.
Definition is_callback (u : web_url) : bool :=
  String.eqb u.(wu_scheme) "https" && bool_decide (u.(wu_host) = Some "vpn-api.proton.me") && bool_decide (u.(wu_port) = Some 443)
  && String.eqb u.(wu_path) "/sso/login".
Definition sso_callback_token (candidate expected_uid : string) : option string :=
  wt_parse_url candidate ?> fun u =>
  if negb (is_callback u) then None
  else
    u.(wu_fragment) ?> fun fragment =>
    let values := form_values (wt_form fragment) in
    if bool_decide (values !! "uid" = Some expected_uid) then opt_filter (fun token => negb (is_empty token)) (values !! "token") else None.
Definition captcha_response_token (payload : string) : option string :=
  match wt_read (as_bytes payload) with
  | Err _ => None
  | Ok value =>
      (match as_str value with
       | Some encoded => match wt_read (as_bytes encoded) with Ok value => Some value | Err _ => None end
       | None => Some value
       end) ?> fun value =>
      if bool_decide ((or_else (jget "type" value) (jget "Type" value) ?> as_str) = Some "pm_captcha")
      then opt_filter (fun token => negb (is_empty token)) (or_else (jget "token" value) (jget "Token" value) ?> as_str)
      else None
  end.

(** ** Starting and ending the browser *)
Inductive open_call : Type :=
  | CreateDirectory
  | SecureDirectory
  | CommandPair
  | ResponsePair
  | CommandNonblocking
  | ResponseNonblocking
  | CommandDuplicate
  | ResponseDuplicate
  | Spawn
  | CommandStream
  | ResponseStream.
Definition open_calls : list open_call :=
  [CreateDirectory; SecureDirectory; CommandPair; ResponsePair; CommandNonblocking; ResponseNonblocking; CommandDuplicate; ResponseDuplicate;
   Spawn; CommandStream; ResponseStream].
Definition open_message (call : open_call) : string :=
  match call with
  | CreateDirectory => "Unable to create the isolated browser profile"
  | SecureDirectory => "Unable to secure the isolated browser profile"
  | CommandPair => "Unable to create the private browser command pipe"
  | ResponsePair => "Unable to create the private browser response pipe"
  | CommandNonblocking | CommandDuplicate | CommandStream => "Invalid browser command pipe"
  | ResponseNonblocking | ResponseDuplicate | ResponseStream => "Invalid browser response pipe"
  | Spawn => "Unable to start the isolated Brave window"
  end.
Inductive browser_event : Type :=
  | DirectoryCreated
  | BrowserStarted
  | BrowserKilled
  | DirectoryRemoved.
Definition browser_command (profile_dir : string) : string * list string :=
  ("/usr/bin/brave-origin",
   ["--user-data-dir=" +:+ profile_dir; "--remote-debugging-pipe"; "--no-first-run"; "--no-default-browser-check"; "--disable-sync";
    "--app=about:blank"]).
Definition call_event (call : open_call) : list browser_event :=
  match call with CreateDirectory => [DirectoryCreated] | Spawn => [BrowserStarted] | _ => [] end.
(** A child that is dropped is killed; the directory stays. *)
Definition dropped_child (done : list browser_event) : list browser_event :=
  if existsb (fun e => match e with BrowserStarted => true | _ => false end) done then [BrowserKilled] else [].
Fixpoint open_browser (failure : open_call -> option string) (calls : list open_call) (done : list browser_event) : NativeResult unit * list browser_event :=
  match calls with
  | [] => (Ok tt, done)
  | call :: calls =>
      match failure call with
      | None => open_browser failure calls (done ++ call_event call)
      | Some error => (Err (web_error "web_auth_unavailable" (open_message call) error), done ++ dropped_child done)
      end
  end.

(** [attach_page]: [alive] is the answer of [try_wait] at each look, [Ok (Some status)] when the browser has ended. *)
Fixpoint attach_page (fuel : nat) (alive : nat -> result (option string) string) (looks : nat) : CM unit :=
  match fuel with
  | O => fun c => (OutOfFuel, c)
  | S fuel' =>
      match alive looks with
      | Err error => cm_throw (web_error "web_auth_unavailable" "Unable to inspect Brave" error)
      | Ok (Some status) => cm_throw (NativeError_new "web_auth_unavailable" ("The isolated Brave window exited with " +:+ status))
      | Ok None =>
          let$ targets := root_command fuel true "Target.getTargets" (jobj []) in
          match page_target_id targets with
          | None => attach_page fuel' alive (S looks)
          | Some id =>
              let$ attached := root_command fuel true "Target.attachToTarget" (jobj [("targetId", Str id); ("flatten", Bool true)]) in
              match jget "sessionId" attached ?> as_str with
              | Some session => fun c => cm_ret tt (set_session (Some session) c)
              | None => attach_page fuel' alive (S looks)
              end
          end
      end
  end.
(** [tokio::time::timeout]. *)
Definition within_timeout {A : Type} (late : NativeError) (m : CM A) : CM A := fun c =>
  match m c with (DeadlinePassed, c) => (Finished (Err late), c) | r => r end.

(** ** The two uses *)
Definition sso_turn (initial_url uid access_token : string) (message : json) : CM (option string) :=
  let method := unwrap_or (jget "method" message ?> as_str) "" in
  let params := unwrap_or (jget "params" message) Null in
  if String.eqb method "Fetch.requestPaused" then
    match jget "requestId" params ?> as_str with
    | None => cm_throw (NativeError_new "sso_failed" "Invalid browser request")
    | Some request_id =>
        let request := unwrap_or (jget "request" params) Null in
        let headers := header_array (jget "headers" request) in
        let headers := if String.eqb (unwrap_or (jget "url" request ?> as_str) "") initial_url
                       then set_header (set_header headers "x-pm-uid" uid) "Authorization" ("Bearer " +:+ access_token)
                       else headers in
        send "Fetch.continueRequest" (jobj [("requestId", Str request_id); ("headers", Arr headers)]) ;;$ cm_ret None
    end
  else cm_ret (head (filter_map (fun candidate => sso_callback_token candidate uid) (navigation_urls method params))).
Definition captcha_turn (message : json) : CM (option string) :=
  let params := unwrap_or (jget "params" message) Null in
  cm_ret (
    if bool_decide ((jget "method" message ?> as_str) = Some "Runtime.bindingCalled")
       && bool_decide ((jget "name" params ?> as_str) = Some "__protonOmarchyWebMessage")
    then captcha_response_token (unwrap_or (jget "payload" params ?> as_str) "") else None).
Fixpoint event_loop (fuel : nat) (turn : json -> CM (option string)) : CM string :=
  match fuel with
  | O => fun c => (OutOfFuel, c)
  | S fuel' =>
      let$ message := next_event fuel in
      let$ token := turn message in
      match token with Some token => cm_ret token | None => event_loop fuel' turn end
  end.
Definition captcha_script : string := "
                (() => {
                  const send = message => {
                    try {
                      window.__protonOmarchyWebMessage(JSON.stringify(message));
                    } catch (_) {}
                  };
                  window.chrome = window.chrome || {};
                  window.chrome.webview = window.chrome.webview || {};
                  window.chrome.webview.postMessage = send;
                })();
            ".
Definition sso_session (fuel : nat) (initial_url uid access_token : string) : CM string :=
  command fuel "Page.enable" (jobj []) ;;$
  command fuel "Fetch.enable" (jobj [("patterns", Arr [jobj [("urlPattern", Str initial_url); ("resourceType", Str "Document");
                                                            ("requestStage", Str "Request")]])]) ;;$
  command fuel "Network.enable" (jobj []) ;;$
  send "Page.navigate" (jobj [("url", Str initial_url)]) ;;$
  within_timeout (NativeError_new "sso_timeout" "Organization SSO timed out") (event_loop fuel (sso_turn initial_url uid access_token)).
Definition captcha_session (fuel : nat) (url : string) : CM string :=
  command fuel "Page.enable" (jobj []) ;;$
  command fuel "Runtime.enable" (jobj []) ;;$
  command fuel "Page.setBypassCSP" (jobj [("enabled", Bool true)]) ;;$
  command fuel "Runtime.addBinding" (jobj [("name", Str "__protonOmarchyWebMessage")]) ;;$
  command fuel "Page.addScriptToEvaluateOnNewDocument" (jobj [("source", Str captcha_script)]) ;;$
  send "Page.navigate" (jobj [("url", Str url)]) ;;$
  within_timeout (NativeError_new "human_verification_timeout" "Human verification timed out") (event_loop fuel captcha_turn).

(** A browser is opened and attached to, used, and ended whatever happened, once its use is over. *)
Definition ended {A : Type} (r : waited A) : list browser_event :=
  match r with Blocked | OutOfFuel => [] | _ => [BrowserKilled; DirectoryRemoved] end.
Definition browser_unready : NativeError :=
  NativeError_new "web_auth_unavailable" "The isolated Brave window did not become ready".
Definition with_browser (fuel : nat) (failure : open_call -> option string) (alive : nat -> result (option string) string)
    (use : CM string) (c : CdpClient) : waited string * CdpClient * list browser_event :=
  match open_browser failure open_calls [] with
  | (Err e, events) => (Finished (Err e), c, events)
  | (Ok _, events) =>
      let '(r, c) := (within_timeout browser_unready (attach_page fuel alive 0) ;;$ use) c in
      (r, c, events ++ ended r)
  end.
Definition complete_sso (fuel : nat) failure alive (challenge uid access_token : string) (reader : list arrival) (writer : bridge) :=
  with_browser fuel failure alive (sso_session fuel (wt_sso_url challenge) uid access_token) (CdpClient_new reader writer).
Definition solve_captcha (fuel : nat) failure alive (token : string) (reader : list arrival) (writer : bridge) :=
  with_browser fuel failure alive (captcha_session fuel (wt_captcha_url token)) (CdpClient_new reader writer).
End Cdp.

(** ** The loops end *)
Definition weight (a : arrival) : nat := match a with Chunk bytes => S (length bytes) | _ => 1%nat end.
Fixpoint weights (reader : list arrival) : nat := match reader with [] => 0%nat | a :: reader => (weight a + weights reader)%nat end.
Definition unread (reader : list arrival) (buffer : list Z) : nat := (length buffer + weights reader)%nat.
Definition pending (c : CdpClient) : nat := unread c.(cdp_reader) c.(cdp_buffer).

Lemma pop_message_shrinks message buffer :
  match pop_message message buffer with
  | inl (m, rest) => m <> [] /\ (length rest < length buffer)%nat
  | inr rest => (length rest <= length message + length buffer)%nat
  end.
Proof.
  revert message. induction buffer as [|b buffer IH]; intros message; cbn [pop_message]; [lia|]. destruct (b =? 0).
  - destruct message as [|x message]; [|cbn; split; [done|lia]].
    specialize (IH []). destruct (pop_message [] buffer) as [[m rest]|rest]; cbn in *; [|lia]. split; [apply IH|destruct IH; lia].
  - specialize (IH (message ++ [b])). destruct (pop_message _ buffer) as [[m rest]|rest]; rewrite ?length_app in IH; cbn in *; [|lia].
    split; [apply IH|destruct IH; lia].
Qed.
Lemma read_shrinks timed reader buffer :
  let '(o, reader', buffer') := read_pipe_message timed reader buffer in
  (unread reader' buffer' <= unread reader buffer)%nat /\ o <> OutOfFuel /\
  (forall m, o = Finished (Ok m) -> m <> [] /\ (unread reader' buffer' < unread reader buffer)%nat).
Proof.
  unfold unread. revert buffer. induction reader as [|a reader IH]; intros buffer; cbn [read_pipe_message];
    pose proof (pop_message_shrinks [] buffer) as Hpop; destruct (pop_message [] buffer) as [[m rest]|rest]; cbn in Hpop.
  1, 3: destruct Hpop as [Hm Hr]; split; [lia|]; split; [done|]; intros ? [= <-]; split; [done|lia].
  - destruct timed; (split; [cbn; lia|done]).
  - destruct a as [[|b bytes]|error|]; [split; [cbn; lia|done]| |split; [cbn; lia|done]|].
    + destruct (_ <? _); [split; [cbn; lia|done]|]. specialize (IH (rest ++ b :: bytes)).
      destruct (read_pipe_message timed reader (rest ++ b :: bytes)) as [[o reader'] buffer'].
      rewrite length_app in IH. cbn in *. destruct IH as (H1 & H2 & H3). split; [lia|]. split; [done|]. intros m Ho. destruct (H3 m Ho). split; [done|lia].
    + destruct timed; [split; [cbn; lia|done]|]. specialize (IH rest). destruct (read_pipe_message false reader rest) as [[o reader'] buffer'].
      cbn in *. destruct IH as (H1 & H2 & H3). split; [lia|]. split; [done|]. intros m Ho. destruct (H3 m Ho). split; [done|lia].
Qed.

(** Nothing becomes unread again, and what is sent has the property [ok]. *)
Section Progress.
Context {T : WebText} (ok : json -> Prop).

Definition onward (c c' : CdpClient) : Prop :=
  (pending c' <= pending c)%nat /\ exists l, c'.(cdp_sent) = c.(cdp_sent) ++ l /\ Forall ok l.
Definition moves {A : Type} (m : CM A) : Prop := forall c, onward c (m c).2.
Definition ends_within {A : Type} (fuel : nat) (m : CM A) : Prop := forall c, (pending c < fuel)%nat -> (m c).1 <> OutOfFuel.
(** A success has read something. *)
Definition consumes {A : Type} (m : CM A) : Prop := forall c a c', m c = (Finished (Ok a), c') -> (pending c' < pending c)%nat.

Lemma onward_refl c : onward c c.
Proof. split; [done|]. exists []. by rewrite app_nil_r. Qed.
Lemma onward_trans c1 c2 c3 : onward c1 c2 -> onward c2 c3 -> onward c1 c3.
Proof.
  intros [H1 (l1 & E1 & F1)] [H2 (l2 & E2 & F2)]. split; [lia|]. exists (l1 ++ l2). rewrite E2, E1, <- app_assoc. split; [done|by apply Forall_app].
Qed.
Lemma moves_bind {A B : Type} (m : CM A) (k : A -> CM B) : moves m -> (forall a, moves (k a)) -> moves (cm_bind m k).
Proof.
  intros Hm Hk c. specialize (Hm c). unfold cm_bind. destruct (m c) as [[[a|e]| | |] c']; cbn in *; try done.
  eapply onward_trans; [exact Hm|apply Hk].
Qed.
Lemma moves_pure {A : Type} (m : CM A) : (forall c, (m c).2 = c) -> moves m.
Proof. intros Hm c. rewrite Hm. apply onward_refl. Qed.
Lemma moves_timeout {A : Type} late (m : CM A) : moves m -> moves (within_timeout late m).
Proof. intros Hm c. specialize (Hm c). unfold within_timeout. by destruct (m c) as [[| | |] c']. Qed.
Lemma commands_end_bind {A B : Type} fuel (m : CM A) (k : A -> CM B) :
  moves m -> ends_within fuel m -> (forall a, ends_within fuel (k a)) -> ends_within fuel (cm_bind m k).
Proof.
  intros Hv Hm Hk c Hc. specialize (Hm c Hc). specialize (Hv c). unfold cm_bind. destruct (m c) as [[[a|e]| | |] c']; cbn in *; try done.
  apply Hk. destruct Hv. lia.
Qed.
(** After something was read, less fuel is enough. *)
Lemma ends_consumed {A B : Type} fuel (m : CM A) (k : A -> CM B) :
  consumes m -> ends_within (S fuel) m -> (forall a, ends_within fuel (k a)) -> ends_within (S fuel) (cm_bind m k).
Proof.
  intros Hv Hm Hk c Hc. specialize (Hm c Hc). specialize (Hv c). unfold cm_bind. destruct (m c) as [[[a|e]| | |] c']; cbn in *; try done.
  apply Hk. specialize (Hv a c' eq_refl). lia.
Qed.
Lemma ends_pure {A : Type} fuel (m : CM A) : (forall c, (m c).1 <> OutOfFuel) -> ends_within fuel m.
Proof. intros Hm c _. apply Hm. Qed.
Lemma ends_less {A : Type} fuel fuel' (m : CM A) : (fuel <= fuel')%nat -> ends_within fuel' m -> ends_within fuel m.
Proof. intros Hf Hm c Hc. apply Hm. lia. Qed.
Lemma ends_timeout {A : Type} fuel late (m : CM A) : ends_within fuel m -> ends_within fuel (within_timeout late m).
Proof. intros Hm c Hc. specialize (Hm c Hc). unfold within_timeout. by destruct (m c) as [[| | |] c']. Qed.
Lemma consumes_bind {A B : Type} (m : CM A) (k : A -> CM B) : consumes m -> (forall a, moves (k a)) -> consumes (cm_bind m k).
Proof.
  intros Hm Hk c b c' Hr. unfold cm_bind in Hr. destruct (m c) as [[[a|e]| | |] c1] eqn:E; try done.
  specialize (Hm _ _ _ E). pose proof (Hk a c1) as [Hp _]. rewrite Hr in Hp. cbn in Hp. lia.
Qed.

Lemma next_message_shrinks timed c :
  onward c (next_message timed c).2 /\ (next_message timed c).1 <> OutOfFuel /\
  (forall v, (next_message timed c).1 = Finished (Ok v) -> (pending (next_message timed c).2 < pending c)%nat).
Proof.
  unfold next_message, onward, pending. pose proof (read_shrinks timed c.(cdp_reader) c.(cdp_buffer)) as Hr.
  destruct (read_pipe_message timed _ _) as [[o reader] buffer]. cbn [fst snd set_reader cdp_reader cdp_buffer cdp_sent]. destruct Hr as (H1 & H2 & H3).
  split; [split; [exact H1|]; exists []; by rewrite app_nil_r|]. split; [by destruct o as [[]| | |]|].
  intros v Hv. destruct o as [[m|e]| | |]; try done. by apply (H3 m).
Qed.
Lemma next_message_moves timed : moves (next_message timed).
Proof. intros c. apply next_message_shrinks. Qed.
Lemma next_message_ends timed fuel : ends_within fuel (next_message timed).
Proof. intros c _. apply next_message_shrinks. Qed.
Lemma next_message_consumes timed : consumes (next_message timed).
Proof. intros c v c' E. pose proof (next_message_shrinks timed c) as (_ & _ & H). rewrite E in H. by apply (H v). Qed.
Lemma send_moves method params session : (forall id, ok (command_json id method params session)) -> moves (send_with_session method params session).
Proof.
  intros Hok c. unfold send_with_session. destruct (write_pipe_message _ _) as [written writer]. split; [done|]. cbn. eexists. split; [done|]. by constructor.
Qed.
Lemma send_ends method params session fuel : ends_within fuel (send_with_session method params session).
Proof. intros c _. unfold send_with_session. by destruct (write_pipe_message _ _) as [[] ?]. Qed.

Lemma await_moves fuel timed id : moves (await_reply fuel timed id).
Proof.
  induction fuel as [|fuel IH]; [by apply moves_pure|]. cbn [await_reply]. apply moves_bind; [apply next_message_moves|intros v].
  destruct (negb _); [done|]. by destruct (jget "error" v); apply moves_pure.
Qed.
Lemma await_ends fuel timed id : ends_within fuel (await_reply fuel timed id).
Proof.
  induction fuel as [|fuel IH]; [by intros c Hc%Nat.nlt_0_r|]. cbn [await_reply].
  apply ends_consumed; [apply next_message_consumes|apply next_message_ends|intros v].
  destruct (negb _); [done|]. by destruct (jget "error" v); apply ends_pure.
Qed.
Lemma await_consumes fuel timed id : consumes (await_reply fuel timed id).
Proof.
  destruct fuel as [|fuel]; [by intros c v c'|]. cbn [await_reply]. apply consumes_bind; [apply next_message_consumes|intros v].
  destruct (negb _); [apply await_moves|]. by destruct (jget "error" v); apply moves_pure.
Qed.
Lemma next_event_moves fuel : moves (next_event fuel).
Proof.
  induction fuel as [|fuel IH]; [by apply moves_pure|]. cbn [next_event]. apply moves_bind; [apply next_message_moves|intros v c].
  destruct (is_event _ v); [apply onward_refl|apply IH].
Qed.
Lemma next_event_ends fuel : ends_within fuel (next_event fuel).
Proof.
  induction fuel as [|fuel IH]; [by intros c Hc%Nat.nlt_0_r|]. cbn [next_event].
  apply ends_consumed; [apply next_message_consumes|apply next_message_ends|intros v c Hc]. destruct (is_event _ v); [done|by apply IH].
Qed.
Lemma next_event_consumes fuel : consumes (next_event fuel).
Proof.
  destruct fuel as [|fuel]; [by intros c v c'|]. cbn [next_event]. apply consumes_bind; [apply next_message_consumes|intros v c].
  destruct (is_event _ v); [apply onward_refl|apply next_event_moves].
Qed.

Context (ok_commands : forall id session, ok (command_json id "Target.getTargets" (jobj []) session)).
Context (ok_attach : forall id session target, ok (command_json id "Target.attachToTarget" (jobj [("targetId", Str target); ("flatten", Bool true)]) session)).

Lemma command_session_moves fuel timed method params session :
  (forall id, ok (command_json id method params session)) -> moves (command_with_session fuel timed method params session).
Proof. intros Hok. apply moves_bind; [by apply send_moves|intros id; apply await_moves]. Qed.
Lemma command_session_consumes fuel timed method params session : consumes (command_with_session fuel timed method params session).
Proof.
  intros c v c' Hr. unfold command_with_session, cm_bind, send_with_session in Hr. destruct (write_pipe_message _ _) as [[]]; [|done].
  cbn in Hr. by apply await_consumes in Hr.
Qed.
Lemma command_session_ends fuel timed method params session : ends_within fuel (command_with_session fuel timed method params session).
Proof.
  intros c Hc. unfold command_with_session, cm_bind, send_with_session. destruct (write_pipe_message _ _) as [[]]; [|done].
  cbn. by apply await_ends.
Qed.
Lemma command_moves fuel method params : (forall id session, ok (command_json id method params session)) -> moves (command fuel method params).
Proof. intros Hok c. unfold command. destruct (cdp_session c); [by apply command_session_moves|apply onward_refl]. Qed.
Lemma command_ends fuel method params : ends_within fuel (command fuel method params).
Proof. intros c Hc. unfold command. destruct (cdp_session c); [by apply command_session_ends|done]. Qed.
Lemma page_send_moves method params : (forall id session, ok (command_json id method params session)) -> moves (send method params).
Proof. intros Hok c. unfold send. destruct (cdp_session c); [by apply send_moves|apply onward_refl]. Qed.
Lemma page_send_ends fuel method params : ends_within fuel (send method params).
Proof. intros c Hc. unfold send. destruct (cdp_session c); [by eapply send_ends|done]. Qed.

Lemma attach_moves fuel alive looks : moves (attach_page fuel alive looks).
Proof.
  revert looks. induction fuel as [|fuel IH]; intros looks; [by apply moves_pure|]. cbn [attach_page].
  destruct (alive looks) as [[status|]|error]; [by apply moves_pure| |by apply moves_pure].
  apply moves_bind; [by apply command_session_moves|intros targets]. destruct (page_target_id targets) as [target|]; [|apply IH].
  apply moves_bind; [by apply command_session_moves|intros attached]. destruct (_ ?> as_str); [|apply IH].
  intros c. split; [done|]. exists []. by rewrite app_nil_r.
Qed.
Lemma attach_ends fuel alive looks : ends_within fuel (attach_page fuel alive looks).
Proof.
  revert looks. induction fuel as [|fuel IH]; intros looks; [by intros c Hc%Nat.nlt_0_r|]. cbn [attach_page].
  destruct (alive looks) as [[status|]|error]; [by apply ends_pure| |by apply ends_pure].
  apply ends_consumed; [apply command_session_consumes|apply command_session_ends|intros targets].
  destruct (page_target_id targets) as [target|]; [|apply IH].
  apply commands_end_bind; [by apply command_session_moves|eapply ends_less; [|apply command_session_ends]; lia|intros attached].
  destruct (_ ?> as_str); [by apply ends_pure|apply IH].
Qed.
Lemma event_loop_moves fuel turn : (forall v, moves (turn v)) -> moves (event_loop fuel turn).
Proof.
  intros Ht. induction fuel as [|fuel IH]; [by apply moves_pure|]. cbn [event_loop].
  apply moves_bind; [apply next_event_moves|intros v]. apply moves_bind; [apply Ht|intros [token|]; [by apply moves_pure|exact IH]].
Qed.
Lemma event_loop_ends fuel turn : (forall v, moves (turn v)) -> (forall v n, ends_within n (turn v)) -> ends_within fuel (event_loop fuel turn).
Proof.
  intros Hm Ht. induction fuel as [|fuel IH]; [by intros c Hc%Nat.nlt_0_r|]. cbn [event_loop].
  apply ends_consumed; [apply next_event_consumes|apply next_event_ends|intros v].
  apply commands_end_bind; [apply Hm|apply Ht|intros [token|]; [by apply ends_pure|exact IH]].
Qed.
End Progress.
Lemma moves_weaken {T : WebText} (ok ok' : json -> Prop) {A : Type} (m : CM A) : (forall v, ok v -> ok' v) -> moves ok m -> moves ok' m.
Proof. intros Hok Hm c. destruct (Hm c) as [Hp (l & Hl & Hf)]. split; [done|]. exists l. split; [done|]. by eapply Forall_impl. Qed.

(** *** Outside a timeout no deadline is noticed *)
Section Prompt.
Context {T : WebText}.
Definition prompt {A : Type} (m : CM A) : Prop := forall c, (m c).1 <> DeadlinePassed.

Lemma read_prompt reader buffer : (read_pipe_message false reader buffer).1.1 <> DeadlinePassed.
Proof.
  revert buffer. induction reader as [|a reader IH]; intros buffer; cbn [read_pipe_message]; destruct (pop_message [] buffer) as [[m rest]|rest]; try done.
  destruct a as [[|b bytes]|error|]; try done. by destruct (_ <? _).
Qed.
Lemma prompt_bind {A B : Type} (m : CM A) (k : A -> CM B) : prompt m -> (forall a, prompt (k a)) -> prompt (cm_bind m k).
Proof. intros Hm Hk c. specialize (Hm c). unfold cm_bind. destruct (m c) as [[[a|e]| | |] c']; try done. apply Hk. Qed.
Lemma prompt_pure {A : Type} (m : CM A) : (forall c, (m c).1 <> DeadlinePassed) -> prompt m.
Proof. done. Qed.
Lemma prompt_timeout {A : Type} late (m : CM A) : prompt (within_timeout late m).
Proof. intros c. unfold within_timeout. by destruct (m c) as [[| | |] c']. Qed.
Lemma next_message_prompt : prompt (next_message false).
Proof.
  intros c. unfold next_message. pose proof (read_prompt c.(cdp_reader) c.(cdp_buffer)) as H.
  destruct (read_pipe_message _ _ _) as [[o reader] buffer]. cbn in *. by destruct o as [[]| | |].
Qed.
Lemma await_prompt fuel id : prompt (await_reply fuel false id).
Proof.
  induction fuel as [|fuel IH]; [done|]. cbn [await_reply]. apply prompt_bind; [apply next_message_prompt|intros v].
  destruct (negb _); [done|]. by destruct (jget "error" v).
Qed.
Lemma send_prompt method params session : prompt (send_with_session method params session).
Proof. intros c. unfold send_with_session. by destruct (write_pipe_message _ _) as [[]]. Qed.
Lemma page_send_prompt method params : prompt (send method params).
Proof. intros c. unfold send. destruct (cdp_session c); [apply send_prompt|done]. Qed.
Lemma command_prompt fuel method params : prompt (command fuel method params).
Proof.
  intros c. unfold command. destruct (cdp_session c); [|done]. unfold command_with_session.
  apply prompt_bind; [apply send_prompt|intros id; apply await_prompt].
Qed.
End Prompt.

(** *** Inside a timeout no wait is without end; outside, only an open and silent pipe makes one *)
Section Blocking.
Context {T : WebText}.
Definition arrived (a : arrival) : Prop := match a with Chunk (_ :: _) | Late => True | _ => False end.
Definition bounded {A : Type} (m : CM A) : Prop := forall c, (m c).1 <> Blocked.
(** What was read on the way to a success, and everything there was to read if it waits for ever, is alive; and what was
    sent until then has the property [ok]. *)
Definition listens {A : Type} (m : CM A) : Prop := forall c,
  match (m c).1 with
  | Finished (Ok _) => exists read, c.(cdp_reader) = read ++ (m c).2.(cdp_reader) /\ Forall arrived read
  | Blocked => Forall arrived c.(cdp_reader)
  | _ => True
  end.

Lemma read_listens timed reader buffer :
  let '(o, reader', _) := read_pipe_message timed reader buffer in
  match o with
  | Finished (Ok _) => exists read, reader = read ++ reader' /\ Forall arrived read
  | Blocked => timed = false /\ Forall arrived reader
  | _ => True
  end.
Proof.
  revert buffer. induction reader as [|a reader IH]; intros buffer; cbn [read_pipe_message];
    destruct (pop_message [] buffer) as [[m rest]|rest]; try (by exists []); [by destruct timed; [|split]|].
  destruct a as [[|b bytes]|error|]; [done| |done|].
  - destruct (_ <? _); [done|]. specialize (IH (rest ++ b :: bytes)). destruct (read_pipe_message timed reader _) as [[o reader'] buffer'].
    destruct o as [[v|e]| | |]; [|done|done| |done].
    + destruct IH as (read & -> & Hl). exists (Chunk (b :: bytes) :: read). split; [done|by constructor].
    + destruct IH as [-> Hl]. split; [done|by constructor].
  - destruct timed; [done|]. specialize (IH rest). destruct (read_pipe_message false reader rest) as [[o reader'] buffer'].
    destruct o as [[v|e]| | |]; [|done|done| |done].
    + destruct IH as (read & -> & Hl). exists (Late :: read). split; [done|by constructor].
    + destruct IH as [_ Hl]. split; [done|by constructor].
Qed.
Lemma next_message_bounded : bounded (next_message true).
Proof.
  intros c. unfold next_message. pose proof (read_listens true c.(cdp_reader) c.(cdp_buffer)) as H.
  destruct (read_pipe_message _ _ _) as [[o reader] buffer]. cbn. destruct o as [[]| | |]; try done. by destruct H.
Qed.
Lemma next_message_listens timed : listens (next_message timed).
Proof.
  intros c. unfold next_message. pose proof (read_listens timed c.(cdp_reader) c.(cdp_buffer)) as H.
  destruct (read_pipe_message _ _ _) as [[o reader] buffer]. cbn. destruct o as [[m|e]| | |]; try done; [|by destruct H].
  by destruct (wt_read m).
Qed.
Lemma bounded_bind {A B : Type} (m : CM A) (k : A -> CM B) : bounded m -> (forall a, bounded (k a)) -> bounded (cm_bind m k).
Proof. intros Hm Hk c. specialize (Hm c). unfold cm_bind. destruct (m c) as [[[a|e]| | |] c']; try done. apply Hk. Qed.
Lemma listens_bind {A B : Type} (m : CM A) (k : A -> CM B) : listens m -> (forall a, listens (k a)) -> listens (cm_bind m k).
Proof.
  intros Hm Hk c. specialize (Hm c). unfold cm_bind. destruct (m c) as [[[a|e]| | |] c1]; cbn in *; try done.
  destruct Hm as (read & Hr & Hl). specialize (Hk a c1). destruct (k a c1) as [[[b|e]| | |] c2]; cbn in *; try done.
  - destruct Hk as (read' & Hr' & Hl'). exists (read ++ read'). rewrite Hr, Hr', app_assoc. split; [done|by apply Forall_app].
  - rewrite Hr. by apply Forall_app.
Qed.
(** What only writes, or looks. *)
Lemma listens_quiet {A : Type} (m : CM A) : (forall c, (m c).2.(cdp_reader) = c.(cdp_reader) /\ (m c).1 <> Blocked) -> listens m.
Proof. intros Hm c. destruct (Hm c) as [Hr Hb]. destruct (m c) as [[[a|e]| | |] c']; cbn in *; try done. exists []. by rewrite Hr. Qed.
Lemma send_session_quiet method params session c :
  (send_with_session method params session c).2.(cdp_reader) = c.(cdp_reader) /\ (send_with_session method params session c).1 <> Blocked.
Proof. unfold send_with_session. by destruct (write_pipe_message _ _) as [[] ?]. Qed.
Lemma send_quiet method params c : (send method params c).2.(cdp_reader) = c.(cdp_reader) /\ (send method params c).1 <> Blocked.
Proof. unfold send. destruct (cdp_session c); [apply send_session_quiet|done]. Qed.
Lemma await_bounded fuel id : bounded (await_reply fuel true id).
Proof.
  induction fuel as [|fuel IH]; [done|]. cbn [await_reply]. apply bounded_bind; [apply next_message_bounded|intros v].
  destruct (negb _); [done|]. by destruct (jget "error" v).
Qed.
Lemma await_listens fuel timed id : listens (await_reply fuel timed id).
Proof.
  induction fuel as [|fuel IH]; [done|]. cbn [await_reply]. apply listens_bind; [apply next_message_listens|intros v].
  destruct (negb _); [done|]. by destruct (jget "error" v); apply listens_quiet.
Qed.
Lemma command_session_listens fuel timed method params session : listens (command_with_session fuel timed method params session).
Proof. apply listens_bind; [apply listens_quiet, send_session_quiet|intros id; apply await_listens]. Qed.
Lemma command_listens fuel method params : listens (command fuel method params).
Proof. intros c. unfold command. destruct (cdp_session c); [apply command_session_listens|done]. Qed.
Lemma root_bounded fuel method params : bounded (root_command fuel true method params).
Proof. apply bounded_bind; [intros c; apply send_session_quiet|intros id; apply await_bounded]. Qed.
Lemma next_event_bounded fuel : bounded (next_event fuel).
Proof.
  induction fuel as [|fuel IH]; [done|]. cbn [next_event]. apply bounded_bind; [apply next_message_bounded|intros v c].
  destruct (is_event _ v); [done|apply IH].
Qed.
Lemma event_loop_bounded fuel turn : (forall v, bounded (turn v)) -> bounded (event_loop fuel turn).
Proof.
  intros Ht. induction fuel as [|fuel IH]; [done|]. cbn [event_loop]. apply bounded_bind; [apply next_event_bounded|intros v].
  apply bounded_bind; [apply Ht|intros [token|]; [done|exact IH]].
Qed.
Lemma attach_bounded fuel alive looks : bounded (attach_page fuel alive looks).
Proof.
  revert looks. induction fuel as [|fuel IH]; intros looks; [done|]. cbn [attach_page]. destruct (alive looks) as [[status|]|error]; [done| |done].
  apply bounded_bind; [apply root_bounded|intros targets]. destruct (page_target_id targets) as [target|]; [|apply IH].
  apply bounded_bind; [apply root_bounded|intros attached]. by destruct (_ ?> as_str); [|apply IH].
Qed.
Lemma attach_listens fuel alive looks : listens (attach_page fuel alive looks).
Proof.
  revert looks. induction fuel as [|fuel IH]; intros looks; [done|]. cbn [attach_page]. destruct (alive looks) as [[status|]|error]; [done| |done].
  apply listens_bind; [apply command_session_listens|intros targets]. destruct (page_target_id targets) as [target|]; [|apply IH].
  apply listens_bind; [apply command_session_listens|intros attached]. destruct (_ ?> as_str); [by apply listens_quiet|apply IH].
Qed.
Lemma timeout_bounded {A : Type} late (m : CM A) : bounded m -> bounded (within_timeout late m).
Proof. intros Hm c. specialize (Hm c). unfold within_timeout. by destruct (m c) as [[| | |] c']. Qed.
Lemma timeout_listens {A : Type} late (m : CM A) : listens m -> listens (within_timeout late m).
Proof. intros Hm c. specialize (Hm c). unfold within_timeout. by destruct (m c) as [[| | |] c']. Qed.

(** A run that waits for ever has only sent messages with the property [ok], its first one [opening]. *)
Definition stuck (ok : json -> Prop) {A : Type} (m : CM A) : Prop := forall c c', m c = (Blocked, c') ->
  Forall arrived c.(cdp_reader) /\ exists l, c'.(cdp_sent) = c.(cdp_sent) ++ l /\ Forall ok l.
Lemma stuck_never ok {A : Type} (m : CM A) : bounded m -> stuck ok m.
Proof. intros Hm c c' E. specialize (Hm c). by rewrite E in Hm. Qed.
Lemma stuck_bind ok {A B : Type} (m : CM A) (k : A -> CM B) :
  listens m -> moves ok m -> (forall a, stuck ok (k a)) -> stuck ok (cm_bind m k).
Proof.
  intros Hl Hm Hk c c'. specialize (Hl c). specialize (Hm c) as [_ Hm]. unfold cm_bind. destruct (m c) as [[[a|e]| | |] c1]; cbn in *; try done.
  - intros E. destruct (Hk a c1 c' E) as [Hlive (l' & Hl' & Hok')]. destruct Hl as (read & -> & Hr). destruct Hm as (l & Hs & Hok).
    split; [by apply Forall_app|]. exists (l ++ l'). rewrite Hl', Hs, app_assoc. split; [done|by apply Forall_app].
  - intros [= <-]. done.
Qed.
End Blocking.

(** A command is sent before its reply is waited for. *)
Lemma command_sends {T : WebText} fuel method params c r c' :
  command fuel method params c = (r, c') -> r = Blocked \/ (exists v, r = Finished (Ok v)) ->
  exists id session, command_json id method params session ∈ c'.(cdp_sent).
Proof.
  unfold command. destruct (cdp_session c) as [session|]; [|by intros [= <- <-] [?|[? ?]]]. unfold command_with_session, cm_bind.
  destruct (send_with_session method params (Some session) c) as [[[id|e]| | |] c1] eqn:E; try (by intros [= <- <-] [?|[? ?]]).
  2: { pose proof (send_session_quiet method params (Some session) c) as [_ Hb]. by rewrite E in Hb. }
  assert (Hin : exists id, command_json id method params (Some session) ∈ c1.(cdp_sent)).
  { unfold send_with_session in E. destruct (write_pipe_message _ _) as [w ?]. injection E as _ <-. exists c.(cdp_next_id). cbn. apply elem_of_app. right. by left. }
  intros E' _. destruct Hin as [id' Hin]. exists id', (Some session).
  pose proof (await_moves (fun _ => True) fuel false id c1) as [_ (l & Hl & _)]. rewrite E' in Hl. cbn in Hl. rewrite Hl. apply elem_of_app. by left.
Qed.
Lemma opening_sent {T : WebText} {A : Type} fuel method params (k : json -> CM A) c c' :
  (forall v, moves (fun _ => True) (k v)) -> cm_bind (command fuel method params) k c = (Blocked, c') ->
  exists id session, command_json id method params session ∈ c'.(cdp_sent).
Proof.
  intros Hk. unfold cm_bind. destruct (command fuel method params c) as [[[v|e]| | |] c1] eqn:E; try done.
  - intros E'. destruct (command_sends _ _ _ _ _ _ E ltac:(right; by eexists)) as (id & session & Hin). exists id, session.
    pose proof (Hk v c1) as [_ (l & Hl & _)]. rewrite E' in Hl. cbn in Hl. rewrite Hl. apply elem_of_app. by left.
  - intros [= <-]. apply (command_sends _ _ _ _ _ _ E). by left.
Qed.

(** The setting up of the page: what is sent before it is told where to go. *)
Definition not_navigate (message : json) : Prop := jget "method" message <> Some (Str "Page.navigate").
Lemma command_method id method params session : jget "method" (command_json id method params session) = Some (Str method).
Proof. by destruct session. Qed.
Lemma set_up id method params session : method <> "Page.navigate" -> not_navigate (command_json id method params session).
Proof. intros Hm. unfold not_navigate. rewrite command_method. congruence. Qed.

(** *** The browser *)
Definition browser_ends : list (list browser_event) :=
  [[]; [DirectoryCreated]; [DirectoryCreated; BrowserStarted; BrowserKilled];
   [DirectoryCreated; BrowserStarted; BrowserKilled; DirectoryRemoved]].
Lemma open_browser_cases failure :
  match open_browser failure open_calls [] with
  | (Ok _, events) => events = [DirectoryCreated; BrowserStarted]
  | (Err _, events) => events ∈ take 3 browser_ends
  end.
Proof.
  unfold open_calls, browser_ends. cbn -[web_error].
  repeat (destruct (failure _); [cbn -[web_error]; rewrite !elem_of_cons; by auto|cbn -[web_error]]). done.
Qed.
(** A use that can wait for ever only while it sets the page up. *)
Lemma with_browser_ends {T : WebText} fuel failure alive use c :
  (pending c < fuel)%nat -> prompt use -> ends_within fuel use -> stuck not_navigate use ->
  let '(r, c', events) := with_browser fuel failure alive use c in
  (exists a, r = Finished a) /\ events ∈ browser_ends /\
    (forall t, r = Finished (Ok t) -> events = [DirectoryCreated; BrowserStarted; BrowserKilled; DirectoryRemoved])
  \/ r = Blocked /\ events = [DirectoryCreated; BrowserStarted] /\ Forall arrived c.(cdp_reader) /\
     (exists l, c'.(cdp_sent) = c.(cdp_sent) ++ l /\ Forall not_navigate l) /\ exists c1, use c1 = (Blocked, c').
Proof.
  intros Hc Hp Hu Hs. unfold with_browser. pose proof (open_browser_cases failure) as Ho.
  destruct (open_browser failure open_calls []) as [[[]|e] events].
  - subst events.
    assert (He : ends_within fuel (within_timeout browser_unready (attach_page fuel alive 0) ;;$ use)).
    { apply (commands_end_bind (fun _ => True)); [by apply moves_timeout, attach_moves|by eapply ends_timeout, (attach_ends (fun _ => True))|done]. }
    assert (Hd : prompt (within_timeout browser_unready (attach_page fuel alive 0) ;;$ use)).
    { by apply prompt_bind; [apply prompt_timeout|]. }
    assert (Hk : stuck not_navigate (within_timeout browser_unready (attach_page fuel alive 0) ;;$ use)).
    { apply stuck_bind; [apply timeout_listens, attach_listens|by apply moves_timeout, attach_moves; intros; apply set_up|done]. }
    specialize (He c Hc). specialize (Hd c). specialize (Hk c).
    destruct ((_ ;;$ use) c) as [r c'] eqn:E. cbn in He, Hd. destruct r as [a| | |]; [left|done|right|done].
    + split; [by exists a|]. split; [set_solver|done].
    + destruct (Hk c' eq_refl) as [Hl Hsent]. split_and!; [done..|]. unfold cm_bind in E.
      pose proof (timeout_bounded browser_unready _ (attach_bounded fuel alive 0) c) as Hb.
      destruct (within_timeout browser_unready (attach_page fuel alive 0) c) as [[[[]|e]| | |] c1]; try done. by exists c1.
  - left. split; [by eexists|]. split; [set_solver|done].
Qed.
Lemma event_loop_token {T : WebText} fuel turn c token c' :
  event_loop fuel turn c = (Finished (Ok token), c') ->
  exists message session c1 c2, is_event session message = true /\ turn message c1 = (Finished (Ok (Some token)), c2).
Proof.
  revert c. induction fuel as [|fuel IH]; intros c; [done|]. cbn [event_loop]. unfold cm_bind at 1.
  destruct (next_event (S fuel) c) as [[[message|e]| | |] c1] eqn:E; try done.
  assert (He : exists session, is_event session message = true).
  { clear IH. revert c E. generalize (S fuel). intros n. induction n as [|n IHn]; intros c; [done|]. cbn [next_event]. unfold cm_bind at 1.
    destruct (next_message true c) as [[[v|e]| | |] c2]; try done. destruct (is_event c2.(cdp_session) v) eqn:Ev; [|apply IHn].
    intros [= -> ->]. by eexists. }
  destruct He as [session He]. unfold cm_bind. destruct (turn message c1) as [[[[t|]|e]| | |] c2] eqn:Et; try done.
  - intros [= -> ->]. by exists message, session, c1, c'.
  - apply IH.
Qed.
Lemma bind_token {A B : Type} (m : CM A) (k : A -> CM B) c b c' :
  cm_bind m k c = (Finished (Ok b), c') -> exists a c1, m c = (Finished (Ok a), c1) /\ k a c1 = (Finished (Ok b), c').
Proof. unfold cm_bind. destruct (m c) as [[[a|e]| | |] c1]; try done. by exists a, c1. Qed.
Lemma timeout_token {A : Type} late (m : CM A) c b c' : within_timeout late m c = (Finished (Ok b), c') -> m c = (Finished (Ok b), c').
Proof. unfold within_timeout. by destruct (m c) as [[| | |] c1]. Qed.
Lemma with_browser_token {T : WebText} fuel failure alive use c token c' events :
  with_browser fuel failure alive use c = (Finished (Ok token), c', events) -> exists c1, use c1 = (Finished (Ok token), c').
Proof.
  unfold with_browser. destruct (open_browser _ _ _) as [[[]|e] ev]; [|done].
  destruct ((_ ;;$ use) c) as [r c2] eqn:E. intros [= -> -> _]. apply bind_token in E as (? & c1 & _ & H). by exists c1.
Qed.

(** *** Organization sign-in *)
Inductive sso_sent (initial_url uid access_token : string) : json -> Prop :=
  | SentSetup id session method params :
      (method, params) ∈ [("Target.getTargets", jobj []); ("Page.enable", jobj []); ("Network.enable", jobj []);
        ("Fetch.enable", jobj [("patterns", Arr [jobj [("urlPattern", Str initial_url); ("resourceType", Str "Document"); ("requestStage", Str "Request")]])]);
        ("Page.navigate", jobj [("url", Str initial_url)])] ->
      sso_sent initial_url uid access_token (command_json id method params session)
  | SentAttach id session target :
      sso_sent initial_url uid access_token (command_json id "Target.attachToTarget" (jobj [("targetId", Str target); ("flatten", Bool true)]) session)
  | SentUnchanged id session request_id request :
      unwrap_or (jget "url" request ?> as_str) "" <> initial_url ->
      sso_sent initial_url uid access_token (command_json id "Fetch.continueRequest"
        (jobj [("requestId", Str request_id); ("headers", Arr (header_array (jget "headers" request)))]) session)
  | SentCredentials id session request_id request :
      unwrap_or (jget "url" request ?> as_str) "" = initial_url ->
      sso_sent initial_url uid access_token (command_json id "Fetch.continueRequest"
        (jobj [("requestId", Str request_id);
               ("headers", Arr (set_header (set_header (header_array (jget "headers" request)) "x-pm-uid" uid) "Authorization" ("Bearer " +:+ access_token)))]) session).
Section Sso.
Context {T : WebText} (initial_url uid access_token : string).
Abbreviation sent := (sso_sent initial_url uid access_token).

Lemma sso_turn_moves v : moves sent (sso_turn initial_url uid access_token v).
Proof.
  unfold sso_turn. destruct (String.eqb _ _); [|by apply moves_pure]. destruct (_ ?> as_str) as [request_id|]; [|by apply moves_pure].
  apply moves_bind; [|intros _; by apply moves_pure]. apply page_send_moves. intros id session.
  destruct (String.eqb_spec (unwrap_or (jget "url" (unwrap_or (jget "request" (unwrap_or (jget "params" v) Null)) Null) ?> as_str) "") initial_url).
  - by apply SentCredentials.
  - by apply SentUnchanged.
Qed.
Lemma sso_turn_ends v n : ends_within n (sso_turn initial_url uid access_token v).
Proof.
  unfold sso_turn. destruct (String.eqb _ _); [|by apply ends_pure]. destruct (_ ?> as_str) as [request_id|]; [|by apply ends_pure].
  intros c Hc. unfold cm_bind. pose proof (page_send_ends n "Fetch.continueRequest") as Hs.
  match goal with |- context [send _ ?params] => specialize (Hs params c Hc) end. by destruct (send _ _ c) as [[[]| | |] c'].
Qed.
Lemma sso_session_moves fuel : moves sent (sso_session fuel initial_url uid access_token).
Proof.
  unfold sso_session.
  repeat (apply moves_bind; [first [apply command_moves|apply page_send_moves]; intros id session; apply SentSetup; set_solver|intros ?]).
  apply moves_timeout, event_loop_moves, sso_turn_moves.
Qed.
Lemma sso_session_ends fuel : ends_within fuel (sso_session fuel initial_url uid access_token).
Proof.
  unfold sso_session.
  repeat (apply (commands_end_bind (fun _ => True)); [by first [apply command_moves|apply page_send_moves]|first [apply (command_ends (fun _ => True))|apply page_send_ends]|intros ?]).
  apply ends_timeout. eapply event_loop_ends; [apply sso_turn_moves|intros v n; apply sso_turn_ends].
Qed.
Lemma sso_session_prompt fuel : prompt (sso_session fuel initial_url uid access_token).
Proof.
  unfold sso_session. repeat (apply prompt_bind; [first [apply command_prompt|apply page_send_prompt]|intros ?]). apply prompt_timeout.
Qed.
Lemma sso_turn_bounded v : bounded (sso_turn initial_url uid access_token v).
Proof.
  unfold sso_turn. destruct (String.eqb _ _); [|done]. destruct (_ ?> as_str); [|done].
  apply bounded_bind; [intros c; apply send_quiet|done].
Qed.
Lemma sso_session_stuck fuel : stuck not_navigate (sso_session fuel initial_url uid access_token).
Proof.
  unfold sso_session.
  do 3 (apply stuck_bind; [apply command_listens|apply command_moves; intros; by apply set_up|intros _]).
  apply stuck_never, bounded_bind; [intros c; apply send_quiet|intros _]. apply timeout_bounded, event_loop_bounded, sso_turn_bounded.
Qed.
Lemma sso_sent_only fuel failure alive c r c' events :
  with_browser fuel failure alive (sso_session fuel initial_url uid access_token) c = (r, c', events) ->
  exists l, c'.(cdp_sent) = c.(cdp_sent) ++ l /\ Forall sent l.
Proof.
  unfold with_browser. destruct (open_browser _ _ _) as [[[]|e] ev].
  - destruct ((_ ;;$ _) c) as [r2 c2] eqn:E. intros [= -> -> _].
    assert (Hm : moves sent (within_timeout browser_unready (attach_page fuel alive 0) ;;$ sso_session fuel initial_url uid access_token)).
    { apply moves_bind; [|intros _; apply sso_session_moves]. apply moves_timeout, attach_moves; intros; [apply SentSetup; set_solver|apply SentAttach]. }
    specialize (Hm c) as [_ Hl]. by rewrite E in Hl.
  - intros [= _ <- _]. exists []. by rewrite app_nil_r.
Qed.
(** What a token is taken from: the callback of the sign-in service for the session that was begun. *)
Definition callback_token (candidate token : string) : Prop :=
  exists u fragment, wt_parse_url candidate = Some u /\ is_callback u = true /\ u.(wu_fragment) = Some fragment /\
    form_values (wt_form fragment) !! "uid" = Some uid /\ form_values (wt_form fragment) !! "token" = Some token /\ token <> "".
Lemma callback_sound candidate token : sso_callback_token candidate uid = Some token -> callback_token candidate token.
Proof.
  unfold sso_callback_token, callback_token. destruct (wt_parse_url candidate) as [u|]; [|done]. cbn. destruct (is_callback u) eqn:Eu; [|done]. cbn.
  destruct (wu_fragment u) as [fragment|] eqn:Ef; [|done]. cbn. case_bool_decide as Hu; [|done].
  destruct (form_values (wt_form fragment) !! "token") as [t|] eqn:Et; [|done]. cbn. destruct (is_empty t) eqn:Ee; [done|]. intros [= <-].
  exists u, fragment. split_and!; [done..|]. intros ->. discriminate Ee.
Qed.
Lemma sso_turn_token v c token c' : sso_turn initial_url uid access_token v c = (Finished (Ok (Some token)), c') ->
  exists candidate, candidate ∈ navigation_urls (unwrap_or (jget "method" v ?> as_str) "") (unwrap_or (jget "params" v) Null) /\ callback_token candidate token.
Proof.
  unfold sso_turn. destruct (String.eqb _ _).
  - destruct (_ ?> as_str); [|intros Hr; discriminate Hr]. intros (? & ? & _ & Hr)%bind_token. discriminate Hr.
  - intros [= Hh _]. induction (navigation_urls _ _) as [|candidate urls IH]; [done|]. cbn [filter_map] in Hh.
    destruct (sso_callback_token candidate uid) as [t|] eqn:Et.
    + injection Hh as ->. exists candidate. split; [left|by apply callback_sound].
    + destruct (IH Hh) as (u & Hu & H). exists u. split; [by right|done].
Qed.
End Sso.

(** What a browser that was started and then keeps silent makes of a sign-in: the program waits for the reply to one of
    the commands that set the page up, which have no deadline; it has sent the first of them and not yet told the page where
    to go, and the browser, which has neither ended nor closed the pipe, is still running. *)
Definition waits_for_browser (reader : list arrival) (c : CdpClient) (events : list browser_event) : Prop :=
  Forall arrived reader /\ events = [DirectoryCreated; BrowserStarted] /\
  (exists id session, command_json id "Page.enable" (jobj []) session ∈ c.(cdp_sent)) /\ Forall not_navigate c.(cdp_sent).

(** C40: Signing in through an organization.  The attempt ends, whatever the browser sends or leaves unsent, with one
    exception: while the page is set up, between the start of the browser and the navigation, the commands have no
    deadline, so that a browser that keeps the pipe open without answering holds the attempt there for ever
    ([waits_for_browser]; the start of the browser and the sign-in itself end by their deadlines).  The access token
    leaves it only in the answer to a request for exactly the address of the sign-in; everything else that is sent is one
    of the fixed commands or a request's own headers.  A token is returned only if an event of the page named the service's
    callback -- over https, on its host, port and path -- with the identifier of this session.  When the attempt ends, a
    browser that was started has been killed, and on success its profile is removed. *)
Theorem sso_confined {T : WebText} fuel failure alive challenge uid access_token reader writer :
  (unread reader [] < fuel)%nat ->
  let '(r, c, events) := complete_sso fuel failure alive challenge uid access_token reader writer in
  ((exists a, r = Finished a) /\ events ∈ browser_ends \/ r = Blocked /\ waits_for_browser reader c events) /\
  Forall (sso_sent (wt_sso_url challenge) uid access_token) c.(cdp_sent) /\
  (forall token, r = Finished (Ok token) ->
     events = [DirectoryCreated; BrowserStarted; BrowserKilled; DirectoryRemoved] /\
     exists message session candidate, is_event session message = true /\
       candidate ∈ navigation_urls (unwrap_or (jget "method" message ?> as_str) "") (unwrap_or (jget "params" message) Null) /\
       callback_token uid candidate token).
Proof.
  intros Hf. unfold complete_sso.
  pose proof (with_browser_ends fuel failure alive (sso_session fuel (wt_sso_url challenge) uid access_token) (CdpClient_new reader writer) Hf
    (sso_session_prompt _ _ _ _) (sso_session_ends _ _ _ _) (sso_session_stuck _ _ _ _)) as He.
  destruct (with_browser _ _ _ _ _) as [[r c] events] eqn:E. split; [|split].
  - destruct He as [(H1 & H2 & _)|(-> & H1 & H2 & (l & H3 & H4) & c1 & H5)]; [by left|right]. split; [done|]. split_and!; [done|done| |by rewrite H3].
    eapply opening_sent; [|exact H5]. intros v. apply (moves_weaken (sso_sent (wt_sso_url challenge) uid access_token)); [done|].
    repeat (apply moves_bind; [first [apply command_moves|apply page_send_moves]; intros id session; apply SentSetup; set_solver|intros ?]).
    apply moves_timeout, event_loop_moves, sso_turn_moves.
  - apply sso_sent_only in E as (l & Hl & Hs). by rewrite Hl.
  - intros token ->. destruct He as [(_ & _ & H3)|(? & _)]; [|done]. split; [by apply (H3 token)|].
    apply with_browser_token in E as [c1 E]. unfold sso_session in E.
    repeat (apply bind_token in E as (? & ? & _ & E)). apply timeout_token, event_loop_token in E as (message & session & c2 & c3 & Hev & Ht).
    apply sso_turn_token in Ht as (candidate & Hc & Hk). by exists message, session, candidate.
Qed.

(** *** Human verification *)
Section Captcha.
Context {T : WebText}.
Lemma captcha_turn_moves (ok : json -> Prop) v : moves ok (captcha_turn v).
Proof. by apply moves_pure. Qed.
Lemma captcha_session_ends fuel url : ends_within fuel (captcha_session fuel url).
Proof.
  unfold captcha_session.
  repeat (apply (commands_end_bind (fun _ => True)); [by first [apply command_moves|apply page_send_moves]|first [apply (command_ends (fun _ => True))|apply page_send_ends]|intros ?]).
  apply ends_timeout, (event_loop_ends (fun _ => True)); [apply captcha_turn_moves|intros v n; by apply ends_pure].
Qed.
Lemma captcha_session_stuck fuel url : stuck not_navigate (captcha_session fuel url).
Proof.
  unfold captcha_session.
  do 5 (apply stuck_bind; [apply command_listens|apply command_moves; intros; by apply set_up|intros _]).
  apply stuck_never, bounded_bind; [intros c; apply send_quiet|intros _]. by apply timeout_bounded, event_loop_bounded.
Qed.
Lemma captcha_session_prompt fuel url : prompt (captcha_session fuel url).
Proof.
  unfold captcha_session. repeat (apply prompt_bind; [first [apply command_prompt|apply page_send_prompt]|intros ?]). apply prompt_timeout.
Qed.

(** Human verification ends under the same condition, and its token is the one that a message of the page to the program's
    own binding carries. *)
Theorem captcha_confined fuel failure alive challenge reader writer :
  (unread reader [] < fuel)%nat ->
  let '(r, c, events) := solve_captcha fuel failure alive challenge reader writer in
  ((exists a, r = Finished a) /\ events ∈ browser_ends \/ r = Blocked /\ waits_for_browser reader c events) /\
  (forall token, r = Finished (Ok token) ->
     events = [DirectoryCreated; BrowserStarted; BrowserKilled; DirectoryRemoved] /\
     exists message session payload, is_event session message = true /\
       (jget "method" message ?> as_str) = Some "Runtime.bindingCalled" /\
       (jget "name" (unwrap_or (jget "params" message) Null) ?> as_str) = Some "__protonOmarchyWebMessage" /\
       captcha_response_token payload = Some token).
Proof.
  intros Hf. unfold solve_captcha.
  pose proof (with_browser_ends fuel failure alive (captcha_session fuel (wt_captcha_url challenge)) (CdpClient_new reader writer) Hf
    (captcha_session_prompt _ _) (captcha_session_ends _ _) (captcha_session_stuck _ _)) as He.
  destruct (with_browser _ _ _ _ _) as [[r c] events] eqn:E. split.
  { destruct He as [(H1 & H2 & _)|(-> & H1 & H2 & (l & H3 & H4) & c1 & H5)]; [by left|right]. split; [done|]. split_and!; [done|done| |by rewrite H3].
    eapply opening_sent; [|exact H5]. intros v.
    repeat (apply moves_bind; [first [by apply command_moves|by apply page_send_moves]|intros ?]).
    apply moves_timeout, event_loop_moves; intros ?; apply captcha_turn_moves. }
  intros token ->. destruct He as [(_ & _ & H3)|(? & _)]; [|done]. split; [by apply (H3 token)|]. apply with_browser_token in E as [c1 E]. unfold captcha_session in E.
  repeat (apply bind_token in E as (? & ? & _ & E)). apply timeout_token, event_loop_token in E as (message & session & c2 & c3 & Hev & Ht).
  unfold captcha_turn in Ht. destruct (bool_decide _ && bool_decide _) eqn:Eb; [|discriminate Ht].
  apply andb_true_iff in Eb as [Hm%bool_decide_eq_true Hn%bool_decide_eq_true].
  exists message, session, (unwrap_or (jget "payload" (unwrap_or (jget "params" message) Null) ?> as_str) ""). split_and!; [done..|].
  by injection Ht.
Qed.
End Captcha.

(** ** A sign-in *)
Definition demo_reply (id : Z) (result : json) : json := jobj [("id", jnum id); ("result", result)].
Definition demo_paused (address : string) : json :=
  jobj [("method", Str "Fetch.requestPaused"); ("sessionId", Str "s");
        ("params", jobj [("requestId", Str "r"); ("request", jobj [("url", Str address); ("headers", jobj [("authorization", Str "page")])])])].
Definition demo_navigated (address : string) : json :=
  jobj [("method", Str "Page.frameNavigated"); ("sessionId", Str "s"); ("params", jobj [("frame", jobj [("url", Str address)])])].
Definition demo_messages : gmap string json := list_to_map [
  ("1", demo_reply 1 (jobj [("targetInfos", Arr [jobj [("type", Str "page"); ("targetId", Str "t")]])]));
  ("2", demo_reply 2 (jobj [("sessionId", Str "s")]));
  ("3", demo_reply 3 Null); ("4", demo_reply 4 Null); ("5", demo_reply 5 Null);
  ("paused", demo_paused "sso/c"); ("elsewhere", demo_paused "evil"); ("callback", demo_navigated "back"); ("other", demo_navigated "other")].
Definition demo_web : WebText := {|
  wt_parse_url address :=
    if String.eqb address "back" then Some (mkWebUrl "https" (Some "vpn-api.proton.me") (Some 443) "/sso/login" (Some "f"))
    else Some (mkWebUrl "https" (Some "example.com") (Some 443) "/sso/login" (Some "f"));
  wt_sso_url challenge := "sso/" +:+ challenge;
  wt_captcha_url token := "captcha/" +:+ token;
  wt_form _ := [("token", "granted"); ("uid", "me")];
  wt_print _ := "message";
  wt_read bytes := match demo_messages !! string_of_bytes bytes with Some v => Ok v | None => Err "expected value" end |}.
Definition arriving (messages : list string) : list arrival := [Chunk (concat (map (fun m => as_bytes m ++ [0]) messages))].
Abbreviation demo_attempt reader :=
  (complete_sso (T := demo_web) 200 (fun _ => None) (fun _ => Ok None) "c" "me" "secret" reader (mkBridge [] false [])).
Abbreviation demo_sign_in messages := (demo_attempt (arriving messages)).
Definition signed_in : list string := ["1"; "2"; "3"; "4"; "5"; "elsewhere"; "paused"; "other"; "callback"].

Example signs_in_with_token : (demo_sign_in signed_in).1.1 = Finished (Ok "granted").
Proof. vm_compute. reflexivity. Qed.
(** The browser is closed before the callback. *)
Example closed_window : (demo_attempt (arriving (take 7 signed_in) ++ [Chunk []])).1.1 = Finished (Err browser_closed) /\
  (demo_attempt (arriving (take 7 signed_in) ++ [Chunk []])).2 = [DirectoryCreated; BrowserStarted; BrowserKilled; DirectoryRemoved].
Proof. vm_compute. by split. Qed.
(** The browser falls silent: before it is ready, during the sign-in, and in between, where nothing ends the wait. *)
Example silent_at_start : (demo_sign_in (take 1 signed_in)).1.1 = Finished (Err browser_unready).
Proof. vm_compute. reflexivity. Qed.
Example silent_in_sign_in : (demo_sign_in (take 7 signed_in)).1.1 = Finished (Err (NativeError_new "sso_timeout" "Organization SSO timed out")).
Proof. vm_compute. reflexivity. Qed.
Example silent_browser_blocks :
  (demo_sign_in (take 3 signed_in)).1.1 = Blocked /\ (demo_sign_in (take 3 signed_in)).2 = [DirectoryCreated; BrowserStarted].
Proof. vm_compute. by split. Qed.
(** The profile is only removed once the browser was started and its pipes were taken over: when the program is not
    installed, every attempt leaves a directory. *)
Example failed_start_leaves_profile :
  open_browser (fun call => match call with Spawn => Some "not found" | _ => None end) open_calls [] =
  (Err (web_error "web_auth_unavailable" "Unable to start the isolated Brave window" "not found"), [DirectoryCreated]).
Proof. reflexivity. Qed.

Lemma sso_confined_witness :
  exists c events, demo_sign_in signed_in = (Finished (Ok "granted"), c, events) /\
    Forall (sso_sent "sso/c" "me" "secret") c.(cdp_sent) /\ exists candidate, callback_token (T := demo_web) "me" candidate "granted".
Proof.
  assert (Hu : (unread (arriving signed_in) [] < 200)%nat) by (vm_compute; lia).
  pose proof signs_in_with_token as Hr.
  pose proof (sso_confined (T := demo_web) 200 (fun _ => None) (fun _ => Ok None) "c" "me" "secret" (arriving signed_in) (mkBridge [] false []) Hu) as Hs.
  destruct (complete_sso 200 _ _ _ _ _ _ _) as [[r c] events]. cbn [fst] in Hr. subst r.
  destruct Hs as (_ & Hsent & Htoken). destruct (Htoken "granted" eq_refl) as (_ & message & session & candidate & _ & _ & Hc).
  exists c, events. split; [reflexivity|]. split; [exact Hsent|]. exists candidate. exact Hc.
Defined.
