(* ===== verification/AltRouting.v ===== *)
(** Alternative routing ([agent/src/native_backend/alternative_routing.rs]): when the API cannot be
    reached, a TXT record fetched over DNS-over-HTTPS names another host for it.

    DNS messages are lists of bytes and offsets are natural numbers: a [usize] has 64 bits and an
    offset never exceeds a message's length by more than 2{^16}, so [checked_add] never fails.  The
    HTTP client is a parameter: [query_provider] takes what it returned, [resolve] the providers'
    results in the order in which they complete. *)
From S2P Require Export NativeErr RustStr.
Open Scope string_scope.
Open Scope Z_scope.
Open Scope list_scope.
Open Scope rust_scope.

Definition API_HOST : string := "vpn-api.proton.me".
Definition AR_SUFFIX : string := ".protonpro.xyz".
Definition MAX_DNS_RESPONSE_BYTES : nat := Z.to_nat 65535.

Record AlternativeRoute : Type := mkAlternativeRoute { ar_host : string; ar_valid_for : Z }.

Definition invalid_dns_response (detail : string) : NativeError :=
  ne_with_source detail
    (NativeError_new "alternative_routing_response_invalid" "The alternative-routing DNS response is invalid").

(** ** Host names *)
Definition ends_with_char (c : ascii) (s : string) : bool :=
  match str_rev s with String a _ => Ascii.eqb a c | "" => false end.
Definition valid_label (label : string) : bool :=
  negb (is_empty label) && (str_len label <=? 63) && negb (starts_with "-" label) && negb (ends_with_char "-" label)
  && str_forall (fun a => is_ascii_alphanumeric a || Ascii.eqb a "-") label.
Definition valid_hostname (host : string) : bool :=
  negb (is_empty host) && (str_len host <=? 253) && forallb valid_label (split_char "." host).

(** [trim_end_matches(c)]. *)
Fixpoint drop_chars (c : ascii) (s : string) : string :=
  match s with
  | String a s' => if Ascii.eqb a c then drop_chars c s' else s
  | "" => ""
  end.
Definition trim_end_matches (c : ascii) (s : string) : string := str_rev (drop_chars c (str_rev s)).

(** ** Queries *)

(** [u16::to_be_bytes] and [u32::to_be_bytes]. *)
Definition be16 (z : Z) : list Z := [z / 256 mod 256; z mod 256].
Definition be32 (z : Z) : list Z := be16 (z / 65536) ++ be16 z.

(** [label.len() as u8] followed by the label's bytes. *)
Definition push_label (label : string) : list Z := (str_len label mod 256) :: as_bytes label.

Definition build_txt_query (host : string) : NativeResult (list Z) :=
  if negb (valid_hostname host)
  then Err (NativeError_new "alternative_routing_invalid_host"
              "The generated alternative-routing lookup host is invalid")
  else Ok (be16 0x5056 ++ be16 0x0100 ++ be16 1 ++ be16 0 ++ be16 0 ++ be16 0
           ++ flat_map push_label (split_char "." host) ++ [0] ++ be16 16 ++ be16 1).

(** ** Responses *)

(** [message.get(offset..offset + n)]. *)
Definition get_range (message : list Z) (offset n : nat) : option (list Z) :=
  if (offset + n <=? length message)%nat then Some (take n (drop offset message)) else None.
Definition be_val (bytes : list Z) : Z := foldl (fun v b => 256 * v + b) 0 bytes.
Definition read_u16 (message : list Z) (offset : nat) : NativeResult Z :=
  let? bytes := ok_or (get_range message offset 2) (invalid_dns_response "DNS integer is truncated") in
  Ok (be_val bytes).
Definition read_u32 (message : list Z) (offset : nat) : NativeResult Z :=
  let? bytes := ok_or (get_range message offset 4) (invalid_dns_response "DNS integer is truncated") in
  Ok (be_val bytes).

(** A computation that may also fail to return: [None] stands for a panic (an index out of range) or
    for fuel that ran out. *)
Abbreviation running A := (option (NativeResult A)).
Definition run_bind {A B : Type} (r : running A) (k : A -> running B) : running B :=
  match r with
  | Some (Ok x) => k x
  | Some (Err e) => Some (Err e)
  | None => None
  end.
Notation "'let!' x ':=' r 'in' k" := (run_bind r (fun x => k))
  (at level 200, x name, k at level 200, right associativity) : rust_scope.

(** [checked_add(n)] bounded by [bound]. *)
Definition advance (offset n bound : nat) (detail : string) : NativeResult nat :=
  ok_or (if (offset + n <=? bound)%nat then Some (offset + n)%nat else None) (invalid_dns_response detail).

Fixpoint skip_dns_name (fuel : nat) (message : list Z) (offset : nat) : running nat :=
  match fuel with
  | O => None
  | S fuel =>
      let! len := Some (ok_or (message !! offset) (invalid_dns_response "DNS name is truncated")) in
      if len =? 0 then Some (Ok (offset + 1)%nat)
      else if Z.land len 0xc0 =? 0xc0 then
        let! _ := Some (ok_or (message !! (offset + 1)%nat)
                          (invalid_dns_response "DNS compression pointer is truncated")) in
        Some (Ok (offset + 2)%nat)
      else if negb (Z.land len 0xc0 =? 0) || (63 <? len) then
        Some (Err (invalid_dns_response "DNS label length is invalid"))
      else
        let! offset := Some (advance (offset + 1) (Z.to_nat len) (length message) "DNS label is truncated") in
        skip_dns_name fuel message offset
  end.
(** Every label takes a byte of the message. *)
Definition skip_name (message : list Z) (offset : nat) : running nat :=
  skip_dns_name (S (length message)) message offset.

Fixpoint skip_questions (n : nat) (message : list Z) (offset : nat) : running nat :=
  match n with
  | O => Some (Ok offset)
  | S n =>
      let! offset := skip_name message offset in
      let! offset := Some (advance offset 4 (length message) "DNS question is truncated") in
      skip_questions n message offset
  end.

(** The character strings of a TXT record between [cursor] and [end_]. *)
Fixpoint txt_parts (fuel : nat) (message : list Z) (cursor end_ : nat) (text : list Z) : running (list Z) :=
  if (end_ <=? cursor)%nat then Some (Ok text)
  else
    match fuel, message !! cursor with
    | S fuel, Some part_len =>
        let! part_end := Some (advance (cursor + 1) (Z.to_nat part_len) end_ "DNS TXT record is truncated") in
        txt_parts fuel message part_end end_ (text ++ take (part_end - (cursor + 1)) (drop (cursor + 1) message))
    | _, _ => None
    end.

Definition txt_route (text : list Z) (ttl : Z) : option AlternativeRoute :=
  match from_utf8 text with
  | None => None
  | Some host =>
      let host := to_ascii_lowercase (trim_end_matches "." (trim host)) in
      if valid_hostname host then Some (mkAlternativeRoute host (Z.max ttl 60)) else None
  end.

(** One turn of the loop over the answers: the route it adds, and the next record's offset. *)
Definition read_answer (message : list Z) (offset : nat) : running (option AlternativeRoute * nat) :=
  let! offset := skip_name message offset in
  let! record_type := Some (read_u16 message offset) in
  let! class := Some (read_u16 message (offset + 2)) in
  let! ttl := Some (read_u32 message (offset + 4)) in
  let! data_len := Some (read_u16 message (offset + 8)) in
  let! end_ := Some (advance (offset + 10) (Z.to_nat data_len) (length message) "DNS record is truncated") in
  if (record_type =? 16) && (class =? 1) then
    let! text := txt_parts (length message) message (offset + 10) end_ [] in
    Some (Ok (txt_route text ttl, end_))
  else Some (Ok (None, end_)).

Definition push_route (routes : list AlternativeRoute) (route : option AlternativeRoute) : list AlternativeRoute :=
  match route with Some r => routes ++ [r] | None => routes end.

Fixpoint read_answers (n : nat) (message : list Z) (offset : nat) (routes : list AlternativeRoute)
    : running (list AlternativeRoute) :=
  match n with
  | O => Some (Ok routes)
  | S n =>
      let! answer := read_answer message offset in
      read_answers n message (snd answer) (push_route routes (fst answer))
  end.

Definition parse_txt_response (message : list Z) : running (list AlternativeRoute) :=
  if (length message <? 12)%nat then Some (Err (invalid_dns_response "DNS header is truncated"))
  else
    let! id := Some (read_u16 message 0) in
    if negb (id =? 0x5056) then Some (Err (invalid_dns_response "DNS transaction ID does not match"))
    else
      let! flags := Some (read_u16 message 2) in
      if (Z.land flags 0x8000 =? 0) || negb (Z.land flags 0x000f =? 0)
      then Some (Err (invalid_dns_response "DNS query was not answered successfully"))
      else
        let! questions := Some (read_u16 message 4) in
        let! answers := Some (read_u16 message 6) in
        let! offset := skip_questions (Z.to_nat questions) message 12 in
        read_answers (Z.to_nat answers) message offset [].

(** ** The exchange with a provider *)
Record http_answer : Type := mkHttpAnswer {
  ha_status : Z;
  ha_content_length : option Z;
  ha_chunks : list (result (list Z) string) }.

Definition is_success (status : Z) : bool := (200 <=? status) && (status <? 300).
Definition is_server_error (status : Z) : bool := (500 <=? status) && (status <? 600).

Fixpoint read_body (chunks : list (result (list Z) string)) (bytes : list Z) : NativeResult (list Z) :=
  match chunks with
  | [] => Ok bytes
  | Err source :: _ =>
      Err (ne_with_source source (NativeError_new "alternative_routing_response_invalid"
                                    "The DNS-over-HTTPS response could not be read"))
  | Ok chunk :: chunks =>
      if (MAX_DNS_RESPONSE_BYTES <? length bytes + length chunk)%nat
      then Err (invalid_dns_response "DNS response exceeds the size limit")
      else read_body chunks (bytes ++ chunk)
  end.

(** The built-in addresses parse, so the first error of the source cannot occur; [client] is the
    client's construction and [send] its request. *)
Definition query_provider (client : result unit string) (send : result http_answer string)
    : running (list AlternativeRoute) :=
  let! _ := Some (res_map_err (fun source => ne_with_source source (NativeError_new
              "alternative_routing_unavailable" "Unable to initialize the DNS-over-HTTPS client")) client) in
  let! response := Some (res_map_err (fun source => ne_set_retryable true (ne_with_source source (NativeError_new
              "alternative_routing_unavailable" "A DNS-over-HTTPS provider could not be reached"))) send) in
  if negb (is_success response.(ha_status)) then
    Some (Err (ne_set_retryable (is_server_error response.(ha_status)) (NativeError_new
      "alternative_routing_unavailable"
      ("A DNS-over-HTTPS provider returned HTTP " +:+ dec response.(ha_status)))))
  else if (match response.(ha_content_length) with
           | Some n => Z.of_nat MAX_DNS_RESPONSE_BYTES <? n | None => false end)
  then Some (Err (invalid_dns_response "DNS response exceeds the size limit"))
  else
    let! bytes := Some (read_body response.(ha_chunks) []) in
    parse_txt_response bytes.

(** [error.to_string()]. *)
Definition ne_to_string (e : NativeError) : string :=
  match e.(ne_source) with
  | Some source => e.(ne_code) +:+ ": " +:+ e.(ne_message) +:+ " (" +:+ source +:+ ")"
  | None => e.(ne_code) +:+ ": " +:+ e.(ne_message)
  end.

Fixpoint first_route (completed : list (NativeResult (list AlternativeRoute))) (last_error : option string)
    : NativeResult AlternativeRoute :=
  match completed with
  | [] =>
      Err (ne_set_retryable true
        (ne_with_source (unwrap_or last_error "no DNS-over-HTTPS provider responded")
          (NativeError_new "alternative_routing_unavailable" "No Proton alternative API route could be resolved")))
  | Ok (route :: _) :: _ => Ok route
  | Ok [] :: completed => first_route completed (Some "a provider returned no alternative route")
  | Err error :: completed => first_route completed (Some (ne_to_string error))
  end.

Definition query_host (base32 : string -> string) : string := "d" +:+ base32 API_HOST +:+ AR_SUFFIX.

(** [query] is given what was asked and answers what the providers said, as they complete. *)
Definition resolve (base32 : string -> string) (query : list Z -> list (NativeResult (list AlternativeRoute)))
    : NativeResult AlternativeRoute :=
  let? bytes := build_txt_query (query_host base32) in
  first_route (query bytes) None.

(** ** Lemmas: the parser returns on every input *)
Lemma run_bind_Some {A B : Type} (r : running A) (k : A -> running B) :
  r <> None -> (forall x, r = Some (Ok x) -> k x <> None) -> run_bind r k <> None.
Proof. destruct r as [[x|e]|]; simpl; intros H Hk; [by apply Hk|done|done]. Qed.

Lemma run_bind_Ok {A B : Type} (r : running A) (k : A -> running B) y :
  run_bind r k = Some (Ok y) -> exists x, r = Some (Ok x) /\ k x = Some (Ok y).
Proof. destruct r as [[x|e]|]; simpl; intros H; [by exists x|discriminate|discriminate]. Qed.

Lemma advance_Ok offset n bound detail o : advance offset n bound detail = Ok o -> o = (offset + n)%nat /\ (o <= bound)%nat.
Proof. unfold advance. destruct (Nat.leb_spec (offset + n) bound); simpl; intros H'; [inversion H'; lia|discriminate]. Qed.

(** Peel the binds of a run that succeeded, or show that none of them is lost. *)
Ltac run_ok H := let x := fresh "x" in let E := fresh "E" in apply run_bind_Ok in H as (x & E & H).
Ltac run_total := apply run_bind_Some; [try discriminate|let x := fresh "x" in let E := fresh "E" in intros x E].

Lemma skip_dns_name_total fuel message offset :
  (0 < fuel)%nat -> (length message < offset + fuel)%nat -> skip_dns_name fuel message offset <> None.
Proof.
  revert offset. induction fuel as [|fuel IH]; intros offset H0 Hf.
  - lia.
  - cbn [skip_dns_name]. run_total. repeat (split_match; try discriminate).
    + run_total. discriminate.
    + run_total. inversion E0 as [E']. apply advance_Ok in E' as [-> Hle]. apply IH; lia.
Qed.

Lemma skip_name_total message offset : skip_name message offset <> None.
Proof. apply skip_dns_name_total; lia. Qed.

Lemma txt_parts_total fuel message cursor end_ text :
  (end_ <= length message)%nat -> (end_ <= cursor + fuel)%nat -> txt_parts fuel message cursor end_ text <> None.
Proof.
  intros Hend. revert cursor text. induction fuel as [|fuel IH]; intros cursor text Hf; cbn [txt_parts].
  - replace (end_ <=? cursor)%nat with true; [discriminate|]. symmetry. apply Nat.leb_le. lia.
  - destruct (Nat.leb_spec end_ cursor) as [|Hlt]; [discriminate|].
    destruct (lookup_lt_is_Some_2 message cursor ltac:(lia)) as [b Hb]. rewrite Hb.
    run_total. inversion E as [E']. apply advance_Ok in E' as [-> _]. apply IH. lia.
Qed.

Lemma skip_questions_total n message offset : skip_questions n message offset <> None.
Proof.
  revert offset. induction n as [|n IH]; intros offset; [discriminate|]. cbn [skip_questions].
  run_total; [apply skip_name_total|]. run_total. apply IH.
Qed.

Lemma read_answer_total message offset : read_answer message offset <> None.
Proof.
  unfold read_answer. run_total; [apply skip_name_total|]. do 5 run_total.
  destruct (_ && _); [|discriminate]. run_total; [|discriminate].
  inversion E4 as [E']. apply advance_Ok in E' as [_ E']. apply txt_parts_total; lia.
Qed.

Lemma read_answers_total n message offset routes : read_answers n message offset routes <> None.
Proof.
  revert offset routes. induction n as [|n IH]; intros offset routes; [discriminate|]. cbn [read_answers].
  run_total; [apply read_answer_total|apply IH].
Qed.

Lemma parse_txt_response_total message : parse_txt_response message <> None.
Proof.
  unfold parse_txt_response. split_match; [discriminate|]. run_total. split_match; [discriminate|]. run_total.
  split_match; [discriminate|]. do 2 run_total. run_total; [apply skip_questions_total|apply read_answers_total].
Qed.

(** *** What is returned *)
Lemma ascii_lower_idem a : ascii_lower (ascii_lower a) = ascii_lower a.
Proof. by destruct a as [[] [] [] [] [] [] [] []]. Qed.

Lemma to_ascii_lowercase_idem s : to_ascii_lowercase (to_ascii_lowercase s) = to_ascii_lowercase s.
Proof.
  unfold to_ascii_lowercase. induction s as [|a s IH]; [done|]. cbn [str_map].
  by rewrite ascii_lower_idem, IH.
Qed.

(** A route the API client may use: a lower-case host name, kept for at least a minute. *)
Definition usable (route : AlternativeRoute) : Prop :=
  valid_hostname route.(ar_host) = true /\ to_ascii_lowercase route.(ar_host) = route.(ar_host) /\ 60 <= route.(ar_valid_for).

Lemma txt_route_usable text ttl route : txt_route text ttl = Some route -> usable route.
Proof.
  unfold txt_route. destruct (from_utf8 text) as [host|]; [|discriminate].
  destruct (valid_hostname _) eqn:E; [|discriminate]. intros H. inversion H. split_and!; simpl; [done| |lia].
  apply to_ascii_lowercase_idem.
Qed.

Lemma read_answer_usable message offset a : read_answer message offset = Some (Ok a) -> forall r, fst a = Some r -> usable r.
Proof.
  unfold read_answer. intros H r Hr. do 6 run_ok H. destruct (_ && _).
  - run_ok H. inversion H; subst. by eapply txt_route_usable.
  - inversion H; subst. discriminate.
Qed.

Lemma read_answers_usable n message offset routes routes' :
  Forall usable routes -> read_answers n message offset routes = Some (Ok routes') ->
  Forall usable routes' /\ (length routes' <= length routes + n)%nat.
Proof.
  revert offset routes. induction n as [|n IH]; intros offset routes Hu H; cbn [read_answers] in H.
  - inversion H; subst. split; [done|lia].
  - run_ok H. pose proof (read_answer_usable _ _ _ E) as Hx. destruct x as [[r|] o]; simpl in *.
    + apply IH in H as [H1 H2]; [|apply Forall_app; split; [done|by repeat constructor; apply Hx]].
      split; [done|]. rewrite length_app in H2. simpl in H2. lia.
    + apply IH in H as [H1 H2]; [|done]. split; [done|lia].
Qed.

Lemma read_u16_range message offset z : Forall (fun b => 0 <= b < 256) message -> read_u16 message offset = Ok z -> 0 <= z < 65536.
Proof.
  intros Hb. unfold read_u16, get_range. destruct (Nat.leb_spec (offset + 2) (length message)) as [Hle|]; [|discriminate].
  cbn [ok_or res_bind]. intros H. apply Ok_inj in H as <-.
  destruct (drop offset message) as [|b0 [|b1 rest]] eqn:E.
  - apply (f_equal length) in E. rewrite length_drop in E. simpl in E. lia.
  - apply (f_equal length) in E. rewrite length_drop in E. simpl in E. lia.
  - assert (Hd : Forall (fun b => 0 <= b < 256) (b0 :: b1 :: rest)) by (rewrite <- E; by apply Forall_drop).
    inversion Hd as [|? ? H0 Hd']; subst. inversion Hd' as [|? ? H1 _]; subst.
    unfold be_val. cbn [take foldl]. rewrite take_0. cbn [foldl]. lia.
Qed.

(** ** Well-formed responses

    The encoding of a response, independent of the parser: names are labels closed by the root or by
    a compression pointer, and a record holds the character strings of a TXT record of class IN or
    other data. *)
Record dns_name : Type := mkDnsName { dn_labels : list (list Z); dn_pointer : option (Z * Z) }.
Inductive record_data : Type :=
  | TxtData (parts : list (list Z))
  | OtherData (record_type class : Z) (data : list Z).
Record dns_record : Type := mkDnsRecord { rr_name : dns_name; rr_ttl : Z; rr_data : record_data }.

Definition encode_string (s : list Z) : list Z := Z.of_nat (length s) :: s.
Definition encode_name (n : dns_name) : list Z :=
  flat_map encode_string n.(dn_labels)
  ++ match n.(dn_pointer) with None => [0] | Some (high, low) => [0xc0 + high; low] end.
Definition encode_question (q : dns_name * (Z * Z)) : list Z := encode_name q.1 ++ be16 q.2.1 ++ be16 q.2.2.
Definition record_type_of (d : record_data) : Z := match d with TxtData _ => 16 | OtherData t _ _ => t end.
Definition record_class_of (d : record_data) : Z := match d with TxtData _ => 1 | OtherData _ c _ => c end.
Definition record_bytes (d : record_data) : list Z :=
  match d with TxtData parts => flat_map encode_string parts | OtherData _ _ data => data end.
Definition encode_record (r : dns_record) : list Z :=
  encode_name r.(rr_name) ++ be16 (record_type_of r.(rr_data)) ++ be16 (record_class_of r.(rr_data)) ++ be32 r.(rr_ttl)
  ++ be16 (Z.of_nat (length (record_bytes r.(rr_data)))) ++ record_bytes r.(rr_data).
Definition encode_response (flags : Z) (questions : list (dns_name * (Z * Z))) (records : list dns_record)
    (trailing : list Z) : list Z :=
  be16 0x5056 ++ be16 flags ++ be16 (Z.of_nat (length questions)) ++ be16 (Z.of_nat (length records)) ++ [0; 0; 0; 0]
  ++ flat_map encode_question questions ++ flat_map encode_record records ++ trailing.

Definition wf_name (n : dns_name) : Prop :=
  Forall (fun l => (1 <= length l <= 63)%nat) n.(dn_labels)
  /\ match n.(dn_pointer) with None => True | Some (high, _) => 0 <= high < 64 end.
Definition wf_data (d : record_data) : Prop :=
  Z.of_nat (length (record_bytes d)) < 65536
  /\ 0 <= record_type_of d < 65536 /\ 0 <= record_class_of d < 65536
  /\ match d with OtherData t c _ => ~ (t = 16 /\ c = 1) | TxtData _ => True end.
Definition wf_record (r : dns_record) : Prop := wf_name r.(rr_name) /\ 0 <= r.(rr_ttl) < 2 ^ 32 /\ wf_data r.(rr_data).

(** The route a record stands for. *)
Definition record_route (r : dns_record) : option AlternativeRoute :=
  match r.(rr_data) with TxtData parts => txt_route (concat parts) r.(rr_ttl) | OtherData _ _ _ => None end.

(** *** Reading at the end of a prefix *)
Lemma get_range_at pre x post : get_range (pre ++ x ++ post) (length pre) (length x) = Some x.
Proof.
  unfold get_range. rewrite !length_app. replace (_ <=? _)%nat with true by (symmetry; apply Nat.leb_le; lia).
  by rewrite drop_app_length, take_app_length.
Qed.

Lemma read_u16_at pre z post : 0 <= z < 65536 -> read_u16 (pre ++ be16 z ++ post) (length pre) = Ok z.
Proof.
  intros Hz. unfold read_u16. change 2%nat with (length (be16 z)). rewrite get_range_at.
  unfold be_val, be16. cbn [ok_or res_bind foldl]. f_equal. rewrite (Z.mod_small (z / 256)) by (split; [apply Z.div_pos|apply Z.div_lt_upper_bound]; lia).
  pose proof (Z.div_mod z 256). lia.
Qed.

Lemma read_u32_at pre z post : 0 <= z < 2 ^ 32 -> read_u32 (pre ++ be32 z ++ post) (length pre) = Ok z.
Proof.
  intros Hz. unfold read_u32. change 4%nat with (length (be32 z)). rewrite get_range_at.
  unfold be_val, be32, be16. cbn [ok_or res_bind foldl app]. f_equal.
  pose proof (Z.div_mod z 256). pose proof (Z.div_mod (z / 65536) 256).
  assert (z / 65536 / 256 < 256) by (rewrite Z.div_div by lia; apply Z.div_lt_upper_bound; lia).
  rewrite (Z.mod_small (z / 65536 / 256)) by (split; [apply Z.div_pos; [apply Z.div_pos|]; lia|lia]).
  assert (z / 65536 = z / 256 / 256) by (rewrite Z.div_div by lia; done).
  pose proof (Z.div_mod (z / 256) 256). lia.
Qed.

Lemma lookup_at (pre post : list Z) b : (pre ++ b :: post) !! length pre = Some b.
Proof. by apply list_lookup_middle. Qed.

Lemma label_length_bits n : (n <= 63)%nat -> Z.land (Z.of_nat n) 0xc0 = 0.
Proof.
  intros Hn. assert (H : Forall (fun i => Z.land (Z.of_nat i) 0xc0 = 0) (seq 0 64)).
  { apply Forall_forall. intros i Hi. apply elem_of_seq in Hi.
    do 64 (destruct i as [|i]; [reflexivity|]). lia. }
  eapply Forall_forall in H; [exact H|]. apply elem_of_seq. lia.
Qed.

Lemma pointer_bits high : 0 <= high < 64 -> Z.land (0xc0 + high) 0xc0 = 0xc0 /\ 0xc0 + high <> 0.
Proof.
  intros Hh. split; [|lia]. assert (H : Forall (fun i => Z.land (0xc0 + Z.of_nat i) 0xc0 = 0xc0) (seq 0 64)).
  { apply Forall_forall. intros i Hi. apply elem_of_seq in Hi. do 64 (destruct i as [|i]; [reflexivity|]). lia. }
  rewrite <- (Z2Nat.id high) by lia. eapply Forall_forall in H; [exact H|]. apply elem_of_seq. lia.
Qed.

(** The same at any offset: the equations are left to the list automation below. *)
Lemma read_u16_eq message offset pre z post :
  message = pre ++ be16 z ++ post -> offset = length pre -> 0 <= z < 65536 -> read_u16 message offset = Ok z.
Proof. intros -> -> H. by apply read_u16_at. Qed.
Lemma read_u32_eq message offset pre z post :
  message = pre ++ be32 z ++ post -> offset = length pre -> 0 <= z < 2 ^ 32 -> read_u32 message offset = Ok z.
Proof. intros -> -> H. by apply read_u32_at. Qed.
Lemma advance_eq offset n bound detail : (offset + n <= bound)%nat -> advance offset n bound detail = Ok (offset + n)%nat.
Proof. intros H. unfold advance. by replace (offset + n <=? bound)%nat with true by (symmetry; apply Nat.leb_le; lia). Qed.

Ltac same_list := rewrite <- ?app_assoc; reflexivity.
Ltac same_length := rewrite ?length_app; cbn [length app be16 be32]; lia.

Lemma skip_name_at fuel pre n post :
  wf_name n -> (length n.(dn_labels) < fuel)%nat ->
  skip_dns_name fuel (pre ++ encode_name n ++ post) (length pre) = Some (Ok (length (pre ++ encode_name n))).
Proof.
  destruct n as [labels pointer]. unfold wf_name, encode_name. cbn [dn_labels dn_pointer]. intros [Hl Hp] Hf.
  revert pre fuel Hf. induction Hl as [|l labels Hl _ IH]; intros pre [|fuel] Hf; try (simpl in Hf; lia); cbn [flat_map app skip_dns_name].
  - destruct pointer as [[high low]|].
    + destruct (pointer_bits high Hp) as [Hb Hz]. cbn [app]. rewrite lookup_at. cbn [ok_or run_bind].
      rewrite (proj2 (Z.eqb_neq _ _) Hz), Hb, Z.eqb_refl.
      replace ((pre ++ 192 + high :: low :: post) !! (length pre + 1)%nat) with (Some low).
      2: { symmetry. rewrite lookup_app_r by lia. by replace (length pre + 1 - length pre)%nat with 1%nat by lia. }
      cbn [ok_or run_bind]. do 2 f_equal. same_length.
    + cbn [app]. rewrite lookup_at. cbn [ok_or run_bind]. do 2 f_equal. same_length.
  - change (encode_string l) with (Z.of_nat (length l) :: l). cbn [app]. rewrite <- !app_assoc. rewrite lookup_at. cbn [ok_or run_bind].
    rewrite label_length_bits by lia. replace (Z.of_nat (length l) =? 0) with false by lia.
    replace (63 <? Z.of_nat (length l)) with false by lia. cbn [Z.eqb negb orb].
    rewrite Nat2Z.id, advance_eq by (rewrite length_app; cbn [length]; rewrite !length_app; lia). cbn [run_bind].
    specialize (IH (pre ++ encode_string l) fuel ltac:(simpl in Hf; lia)).
    change (encode_string l) with (Z.of_nat (length l) :: l) in IH. rewrite <- !app_assoc in IH. cbn [app] in IH.
    rewrite length_app in IH. cbn [length] in IH.
    replace (length pre + 1 + length l)%nat with (length pre + S (length l))%nat by lia. exact IH.
Qed.

Lemma encode_name_length n : (length n.(dn_labels) < length (encode_name n))%nat.
Proof.
  destruct n as [labels pointer]. unfold encode_name. cbn [dn_labels dn_pointer].
  induction labels as [|l labels IH].
  - destruct pointer as [[? ?]|]; simpl; lia.
  - cbn [flat_map length]. rewrite <- app_assoc, length_app. unfold encode_string at 1. cbn [length]. lia.
Qed.

Lemma skip_name_eq message offset pre n post :
  message = pre ++ encode_name n ++ post -> offset = length pre -> wf_name n ->
  skip_name message offset = Some (Ok (length pre + length (encode_name n))%nat).
Proof.
  intros -> -> Hn. unfold skip_name. rewrite skip_name_at, length_app; [done|done|].
  pose proof (encode_name_length n). rewrite !length_app. lia.
Qed.

Lemma txt_parts_at fuel pre parts post text :
  (length parts <= fuel)%nat ->
  txt_parts fuel (pre ++ flat_map encode_string parts ++ post) (length pre)
    (length pre + length (flat_map encode_string parts)) text = Some (Ok (text ++ concat parts)).
Proof.
  revert fuel pre text. induction parts as [|p parts IH]; intros fuel pre text Hf.
  - simpl. rewrite Nat.add_0_r, app_nil_r. destruct fuel; cbn [txt_parts]; by rewrite Nat.leb_refl.
  - destruct fuel as [|fuel]; [simpl in Hf; lia|]. cbn [flat_map txt_parts concat].
    change (encode_string p) with (Z.of_nat (length p) :: p). cbn [app length]. rewrite <- !app_assoc, length_app.
    replace (_ <=? length pre)%nat with false by (symmetry; apply Nat.leb_gt; lia).
    rewrite lookup_at, Nat2Z.id, advance_eq by lia. cbn [run_bind].
    replace (take _ (drop (length pre + 1) _)) with p.
    2: { rewrite drop_app_ge by lia. replace (length pre + 1 - length pre)%nat with 1%nat by lia. cbn [drop].
         rewrite drop_0, Nat.add_comm, Nat.add_sub. by rewrite take_app_length. }
    specialize (IH fuel (pre ++ encode_string p) (text ++ p) ltac:(simpl in Hf; lia)).
    change (encode_string p) with (Z.of_nat (length p) :: p) in IH. rewrite <- !app_assoc in IH. cbn [app] in IH. rewrite length_app in IH. cbn [length] in IH.
    replace (length pre + 1 + length p)%nat with (length pre + S (length p))%nat by lia.
    replace (length pre + S (length p + length (flat_map encode_string parts)))%nat
      with (length pre + S (length p) + length (flat_map encode_string parts))%nat by lia.
    exact IH.
Qed.

Lemma concat_parts_length parts : (length parts <= length (flat_map encode_string parts))%nat.
Proof. induction parts as [|p parts IH]; [done|]. cbn [flat_map length]. rewrite length_app. unfold encode_string at 1. cbn [length]. lia. Qed.

Lemma read_answer_at pre r post :
  wf_record r ->
  read_answer (pre ++ encode_record r ++ post) (length pre)
  = Some (Ok (record_route r, length (pre ++ encode_record r))).
Proof.
  destruct r as [name ttl data]. unfold wf_record, wf_data. cbn [rr_name rr_ttl rr_data].
  intros (Hn & Httl & Hlen & Ht & Hc & Hd). unfold encode_record. cbn [rr_name rr_ttl rr_data].
  set (t := record_type_of data) in *. set (c := record_class_of data) in *. set (bytes := record_bytes data) in *.
  set (message := pre ++ _ ++ post). set (at_ := (length pre + length (encode_name name))%nat).
  assert (Hm : forall i z tail p, message = p ++ be16 z ++ tail -> (at_ + i)%nat = length p -> 0 <= z < 65536 ->
                 read_u16 message (at_ + i) = Ok z) by (intros; eapply read_u16_eq; eassumption).
  unfold read_answer.
  rewrite (skip_name_eq message _ pre name (be16 t ++ be16 c ++ be32 ttl ++ be16 (Z.of_nat (length bytes)) ++ bytes ++ post))
    by (unfold message; same_list || done). cbn [run_bind]. fold at_.
  rewrite (read_u16_eq message at_ (pre ++ encode_name name) t (be16 c ++ be32 ttl ++ be16 (Z.of_nat (length bytes)) ++ bytes ++ post))
    by (first [unfold message; same_list | unfold at_; same_length | lia]).
  rewrite (Hm 2%nat c (be32 ttl ++ be16 (Z.of_nat (length bytes)) ++ bytes ++ post) (pre ++ encode_name name ++ be16 t))
    by (first [unfold message; same_list | unfold at_; same_length | lia]).
  rewrite (read_u32_eq message (at_ + 4) (pre ++ encode_name name ++ be16 t ++ be16 c) ttl (be16 (Z.of_nat (length bytes)) ++ bytes ++ post))
    by (first [unfold message; same_list | unfold at_; same_length | lia]).
  rewrite (Hm 8%nat (Z.of_nat (length bytes)) (bytes ++ post) (pre ++ encode_name name ++ be16 t ++ be16 c ++ be32 ttl))
    by (first [unfold message; same_list | unfold at_; same_length | lia]).
  cbn [run_bind]. rewrite Nat2Z.id, advance_eq by (unfold message, at_; same_length). cbn [run_bind].
  assert (Hend : (at_ + 10 + length bytes)%nat
    = length (pre ++ encode_name name ++ be16 t ++ be16 c ++ be32 ttl ++ be16 (Z.of_nat (length bytes)) ++ bytes)) by (unfold at_; same_length).
  rewrite <- Hend. destruct data as [parts|t' c' other]; cbn [record_route rr_data] in *.
  - unfold t, c. cbn [record_type_of record_class_of Z.eqb andb].
    pose proof (txt_parts_at (length message)
      (pre ++ encode_name name ++ be16 t ++ be16 c ++ be32 ttl ++ be16 (Z.of_nat (length bytes))) parts post []) as H.
    replace ((pre ++ _) ++ flat_map encode_string parts ++ post) with message in H by (unfold message; cbn [record_bytes]; same_list).
    replace (length (pre ++ _)) with (at_ + 10)%nat in H by (unfold at_; same_length).
    change (flat_map encode_string parts) with bytes in H. rewrite H; [done|].
    pose proof (concat_parts_length parts). unfold message, bytes. cbn [record_bytes]. rewrite !length_app. lia.
  - unfold t, c. cbn [record_type_of record_class_of].
    destruct (Z.eqb_spec t' 16), (Z.eqb_spec c' 1); try done. by destruct Hd.
Qed.

Lemma skip_questions_at questions pre post :
  Forall (fun q => wf_name q.1) questions ->
  skip_questions (length questions) (pre ++ flat_map encode_question questions ++ post) (length pre)
  = Some (Ok (length (pre ++ flat_map encode_question questions))).
Proof.
  intros H. revert pre. induction H as [|q questions Hq _ IH]; intros pre; cbn [length flat_map skip_questions].
  - by rewrite app_nil_r.
  - set (message := pre ++ _ ++ post).
    rewrite (skip_name_eq message _ pre q.1 (be16 q.2.1 ++ be16 q.2.2 ++ flat_map encode_question questions ++ post))
      by (first [unfold message, encode_question at 1; same_list | done]).
    cbn [run_bind]. rewrite advance_eq by (unfold message, encode_question at 1; same_length). cbn [run_bind].
    specialize (IH (pre ++ encode_question q)). unfold message. rewrite <- !app_assoc in *.
    replace (length pre + length (encode_name q.1) + 4)%nat with (length (pre ++ encode_question q))
      by (unfold encode_question; same_length). exact IH.
Qed.

Lemma read_answers_at records pre post routes :
  Forall wf_record records ->
  read_answers (length records) (pre ++ flat_map encode_record records ++ post) (length pre) routes
  = Some (Ok (routes ++ filter_map record_route records)).
Proof.
  intros H. revert pre routes. induction H as [|r records Hr _ IH]; intros pre routes; cbn [length flat_map read_answers filter_map].
  - by rewrite app_nil_r.
  - rewrite <- app_assoc, read_answer_at by done. cbn [run_bind fst snd].
    specialize (IH (pre ++ encode_record r) (push_route routes (record_route r))). rewrite <- !app_assoc in IH. rewrite IH.
    destruct (record_route r); cbn [push_route]; [by rewrite <- app_assoc|done].
Qed.

Lemma push_label_encode label : valid_label label = true -> push_label label = encode_string (as_bytes label).
Proof.
  unfold valid_label, push_label, encode_string. rewrite !andb_true_iff. intros H. rewrite as_bytes_length.
  unfold str_len in *. rewrite Z.mod_small by lia. done.
Qed.

Lemma valid_label_length label : valid_label label = true -> (1 <= length (as_bytes label) <= 63)%nat.
Proof.
  unfold valid_label, str_len. rewrite as_bytes_length, !andb_true_iff. intros H.
  destruct H as [[[[Hn H] _] _] _]. destruct label; [discriminate|].
  apply Z.leb_le in H. revert H. cbn [String.length]. intros H. lia.
Qed.

(** The question of a query. *)
Definition host_question (host : string) : dns_name * (Z * Z) :=
  (mkDnsName (map as_bytes (split_char "." host)) None, (16, 1)).

Lemma query_question host query :
  build_txt_query host = Ok query ->
  query = be16 0x5056 ++ be16 0x0100 ++ be16 1 ++ [0; 0; 0; 0; 0; 0] ++ encode_question (host_question host)
  /\ wf_name (host_question host).1.
Proof.
  unfold build_txt_query, valid_hostname. destruct (_ && _) eqn:E; [|discriminate]. cbn [negb]. intros H. apply Ok_inj in H as <-.
  apply andb_true_iff in E as [_ E]. rewrite forallb_forall in E. unfold host_question, encode_question, encode_name, wf_name.
  cbn [fst snd dn_labels dn_pointer]. split.
  - assert (Hl : flat_map push_label (split_char "." host) = flat_map encode_string (map as_bytes (split_char "." host))).
    { rewrite !flat_map_concat_map, map_map. f_equal. apply map_ext_in. intros l Hl. by apply push_label_encode, E. }
    rewrite Hl. change [0; 0; 0; 0; 0; 0] with (be16 0 ++ be16 0 ++ be16 0). rewrite <- !app_assoc. reflexivity.
  - split; [|done]. apply Forall_map, Forall_forall. intros l Hl. apply valid_label_length, E. by apply list_elem_of_In.
Qed.

Lemma read_body_bound chunks bytes body :
  (length bytes <= MAX_DNS_RESPONSE_BYTES)%nat -> read_body chunks bytes = Ok body ->
  (length body <= MAX_DNS_RESPONSE_BYTES)%nat /\ exists parts, chunks = map Ok parts /\ body = bytes ++ concat parts.
Proof.
  revert bytes. induction chunks as [|[chunk|source] chunks IH]; intros bytes Hb H; cbn [read_body] in H; [| |discriminate].
  - apply Ok_inj in H as <-. split; [done|]. exists []. by rewrite app_nil_r.
  - destruct (Nat.ltb_spec MAX_DNS_RESPONSE_BYTES (length bytes + length chunk)); [discriminate|].
    apply IH in H as (H1 & parts & -> & ->); [|by rewrite length_app].
    split; [done|]. exists (chunk :: parts). cbn [map concat]. by rewrite <- app_assoc.
Qed.

Lemma first_route_Ok completed last_error route :
  first_route completed last_error = Ok route ->
  exists before routes after, completed = before ++ Ok (route :: routes) :: after
    /\ Forall (fun r => forall route' routes', r <> Ok (route' :: routes')) before.
Proof.
  revert last_error. induction completed as [|[[|r routes]|e] completed IH]; intros le H; cbn [first_route] in H.
  - discriminate.
  - destruct (IH _ H) as (b & rs & a & -> & Hb). exists (Ok [] :: b), rs, a. split; [done|]. constructor; [done|done].
  - apply Ok_inj in H as ->. by exists [], routes, completed.
  - destruct (IH _ H) as (b & rs & a & -> & Hb). exists (Err e :: b), rs, a. split; [done|]. constructor; [done|done].
Qed.

Lemma parse_usable message routes :
  parse_txt_response message = Some (Ok routes) ->
  Forall usable routes /\ (Forall (fun b => 0 <= b < 256) message -> (length routes < Z.to_nat 65536)%nat).
Proof.
  unfold parse_txt_response. split_match; [discriminate|]. intros H. run_ok H. split_match_in H; [discriminate|].
  run_ok H. split_match_in H; [discriminate|]. do 3 run_ok H.
  apply read_answers_usable in H as [H1 H2]; [|constructor]. split; [done|]. intros Hb.
  injection E2 as E2. apply read_u16_range in E2; [|done]. cbn [length] in H2. lia.
Qed.

(** C11: The DNS side of alternative routing returns on whatever a provider sends: the parser never indexes outside the message and never
    runs out of fuel, on any message; an exchange reads at most 65535 bytes and parses exactly the body received; every
    route is a lower-case host name kept for at least a minute, fewer than 65536 of them; and [resolve] takes the first
    route of the first provider that completes with one. *)
Theorem alternative_routing_returns :
  (forall message, exists r, parse_txt_response message = Some r)
  /\ (forall message routes, parse_txt_response message = Some (Ok routes) ->
        Forall usable routes /\ (Forall (fun b => 0 <= b < 256) message -> (length routes < Z.to_nat 65536)%nat))
  /\ (forall client send, exists r, query_provider client send = Some r /\
        forall routes, r = Ok routes -> exists answer parts,
          client = Ok tt /\ send = Ok answer /\ is_success answer.(ha_status) = true
          /\ answer.(ha_chunks) = map Ok parts /\ (length (concat parts) <= Z.to_nat 65535)%nat
          /\ parse_txt_response (concat parts) = Some (Ok routes))
  /\ (forall base32 query route, resolve base32 query = Ok route ->
        exists bytes before routes after, build_txt_query (query_host base32) = Ok bytes
          /\ query bytes = before ++ Ok (route :: routes) :: after
          /\ Forall (fun r => forall route' routes', r <> Ok (route' :: routes')) before).
Proof.
  assert (Hp : forall message, exists r, parse_txt_response message = Some r).
  { intros message. pose proof (parse_txt_response_total message). destruct (parse_txt_response message) as [r|]; [by exists r|done]. }
  split_and!; [exact Hp|apply parse_usable| |].
  - intros [[]|e] send; [|by eexists]. unfold query_provider. cbn [res_map_err run_bind].
    destruct send as [answer|e]; [|by eexists]. cbn [res_map_err run_bind].
    destruct (is_success (ha_status answer)) eqn:Es; [|by eexists]. cbn [negb]. split_match; [by eexists|].
    destruct (read_body (ha_chunks answer) []) as [bytes|e] eqn:E; [|by eexists]. cbn [run_bind].
    destruct (Hp bytes) as [r Hr]. exists r. split; [done|]. intros routes ->.
    apply read_body_bound in E as (Hl & parts & Hc & ->); [|apply Nat.le_0_l].
    exists answer, parts. split_and!; [done|done|done|done|exact Hl|exact Hr].
  - intros base32 query route. unfold resolve. intros H. peel H.
    apply first_route_Ok in H as (before & routes & after & H1 & H2). by eexists _, before, routes, after.
Qed.

(** The DNS codec is correct: a query carries the host's labels as one well-formed TXT question, and a well-formed response -- labels
    or compressed names, any questions, TXT records split into character strings, records of other types or
    classes, bytes after the answers -- is read back as exactly the routes its TXT records name, in order. *)
Theorem dns_codec_roundtrip :
  (forall host query, build_txt_query host = Ok query ->
     query = be16 0x5056 ++ be16 0x0100 ++ be16 1 ++ [0; 0; 0; 0; 0; 0] ++ encode_question (host_question host)
     /\ wf_name (host_question host).1)
  /\ (forall flags questions records trailing,
        0 <= flags < 65536 -> Z.land flags 0x8000 <> 0 -> Z.land flags 0x000f = 0 ->
        Z.of_nat (length questions) < 65536 -> Z.of_nat (length records) < 65536 ->
        Forall (fun q => wf_name q.1) questions -> Forall wf_record records ->
        parse_txt_response (encode_response flags questions records trailing)
        = Some (Ok (filter_map record_route records))).
Proof.
  split; [exact query_question|]. intros flags questions records trailing Hf Hq Hr Hn Hm Hwq Hwr.
  unfold encode_response. set (body := flat_map encode_question questions ++ flat_map encode_record records ++ trailing).
  set (message := be16 0x5056 ++ _). unfold parse_txt_response.
  replace (length message <? 12)%nat with false by (symmetry; apply Nat.ltb_ge; unfold message; same_length).
  rewrite (read_u16_eq message 0 [] 0x5056 (be16 flags ++ be16 (Z.of_nat (length questions)) ++ be16 (Z.of_nat (length records)) ++ [0; 0; 0; 0] ++ body))
    by (first [reflexivity|lia]). cbn [run_bind Z.eqb Pos.eqb negb].
  rewrite (read_u16_eq message 2 (be16 0x5056) flags (be16 (Z.of_nat (length questions)) ++ be16 (Z.of_nat (length records)) ++ [0; 0; 0; 0] ++ body))
    by (first [reflexivity|lia]). cbn [run_bind].
  replace (Z.land flags 0x8000 =? 0) with false by lia. rewrite Hr. cbn [orb Z.eqb negb].
  rewrite (read_u16_eq message 4 (be16 0x5056 ++ be16 flags) (Z.of_nat (length questions)) (be16 (Z.of_nat (length records)) ++ [0; 0; 0; 0] ++ body))
    by (first [reflexivity|lia]). cbn [run_bind].
  rewrite (read_u16_eq message 6 (be16 0x5056 ++ be16 flags ++ be16 (Z.of_nat (length questions))) (Z.of_nat (length records)) ([0; 0; 0; 0] ++ body))
    by (first [reflexivity|lia]). cbn [run_bind]. rewrite !Nat2Z.id.
  set (header := be16 0x5056 ++ be16 flags ++ be16 (Z.of_nat (length questions)) ++ be16 (Z.of_nat (length records)) ++ [0; 0; 0; 0]).
  change message with (header ++ body). unfold body. change 12%nat with (length header).
  rewrite skip_questions_at by done. cbn [run_bind].
  rewrite (app_assoc header). by rewrite read_answers_at.
Qed.

(** A compressed TXT answer to the query for [example.test], and one whose record is split. *)
Lemma dns_codec_roundtrip_witness :
  match build_txt_query "example.test" with
  | Ok query => length query = 30%nat
  | Err _ => False
  end /\
  parse_txt_response (encode_response 0x8180 [host_question "example.test"]
    [mkDnsRecord (mkDnsName [] (Some (0, 12))) 120 (TxtData [as_bytes "Route.protonvpn.net."]);
     mkDnsRecord (mkDnsName [[97]] None) 5 (TxtData [as_bytes " a."; as_bytes "b"]);
     mkDnsRecord (mkDnsName [[97]] None) 5 (OtherData 1 1 [1; 2; 3; 4]);
     mkDnsRecord (mkDnsName [[97]] None) 5 (TxtData [as_bytes "https://example.test"])] [7])
  = Some (Ok [mkAlternativeRoute "route.protonvpn.net" 120; mkAlternativeRoute "a.b" 60]).
Proof.
  split; [reflexivity|]. rewrite (proj2 dns_codec_roundtrip).
  - vm_compute. reflexivity.
  - lia.
  - discriminate.
  - reflexivity.
  - reflexivity.
  - reflexivity.
  - repeat constructor; simpl; lia.
  - repeat constructor; simpl; lia.
Defined.

(** The header of the source's test: the generated look-up name is a valid query. *)
Example lookup_name_is_valid :
  is_ok (build_txt_query "dOZYG4LLBOBUS44DSN52G63RONVSQ.protonpro.xyz") = true.
Proof. reflexivity. Qed.

Lemma alternative_routing_returns_witness :
  let provider := fun bytes =>
    match query_provider (Ok tt) (Ok (mkHttpAnswer 200 None
      [Ok (take 5 (encode_response 0x8180 [] [mkDnsRecord (mkDnsName [] (Some (0, 12))) 30 (TxtData [as_bytes "a.b"])] []));
       Ok (drop 5 (encode_response 0x8180 [] [mkDnsRecord (mkDnsName [] (Some (0, 12))) 30 (TxtData [as_bytes "a.b"])] []))])) with
    | Some r => [Err (invalid_dns_response (dec (Z.of_nat (length bytes)))); r]
    | None => []
    end in
  resolve (fun _ => "X") provider = Ok (mkAlternativeRoute "a.b" 60)
  /\ exists bytes before routes after, build_txt_query (query_host (fun _ => "X")) = Ok bytes
       /\ provider bytes = before ++ Ok (mkAlternativeRoute "a.b" 60 :: routes) :: after
       /\ Forall (fun r => forall route' routes', r <> Ok (route' :: routes')) before.
Proof.
  intros provider. assert (H : resolve (fun _ => "X") provider = Ok (mkAlternativeRoute "a.b" 60)) by (vm_compute; reflexivity).
  split; [exact H|]. exact (proj2 (proj2 (proj2 alternative_routing_returns)) _ _ _ H).
Defined.
