(* ===== verification/GuestDns.v ===== *)
(** The DNS exchange of the recovery tunnel ([agent/src/native_backend/guest_hole/dns.rs]): one query for the
    API's host and the parser of its reply.  Messages are lists of bytes; an address is the list of its four
    octets.  The socket is left out: what it receives is the argument of [parse]. *)
From S2P Require Export AltRouting.
Open Scope string_scope.
Open Scope Z_scope.
Open Scope list_scope.
Open Scope rust_scope.

Definition dns_error (source : string) : NativeError :=
  ne_set_retryable true (ne_with_source source
    (NativeError_new "guest_hole_dns_failed" "The recovery tunnel could not resolve the Proton API")).
Definition invalid_reply : NativeError :=
  ne_set_retryable true (NativeError_new "guest_hole_dns_failed" "The recovery DNS reply is invalid").

Definition query (id : Z) : list Z :=
  be16 id ++ [1; 0; 0; 1; 0; 0; 0; 0; 0; 0] ++ flat_map push_label (split_char "." "vpn-api.proton.me") ++ [0; 0; 1; 0; 1].

(** At most [n] labels. *)
Fixpoint skip_labels (n : nat) (data : list Z) (offset : nat) : NativeResult nat :=
  match n with
  | O => Err (dns_error "name exceeds limit")
  | S n =>
      let? byte := ok_or (data !! offset) (dns_error "truncated name") in
      if byte =? 0 then Ok (S offset)
      else if 192 <=? byte then
        let? low := ok_or (data !! S offset) (dns_error "truncated pointer") in
        if Z.of_nat (length data) <=? Z.lor (Z.shiftl (Z.land byte 63) 8) low then Err (dns_error "invalid pointer")
        else Ok (S (S offset))
      else if (1 <=? byte) && (byte <=? 63) then
        let offset := (S offset + Z.to_nat byte)%nat in
        if (length data <? offset)%nat then Err (dns_error "truncated label") else skip_labels n data offset
      else Err (dns_error "invalid label")
  end.
Definition skip_query_name : list Z -> nat -> NativeResult nat := skip_labels 128.

(** Neither unspecified, loopback, multicast nor broadcast. *)
Definition routable (a : list Z) : bool :=
  negb (bool_decide (a = [0; 0; 0; 0])) && negb (bool_decide (head a = Some 127))
  && negb (match head a with Some b => (224 <=? b) && (b <=? 239) | None => false end)
  && negb (bool_decide (a = [255; 255; 255; 255])).

(** One turn of the loop over the answers: the address it adds and the next record's offset. *)
Definition read_record (data : list Z) (offset : nat) : NativeResult (option (list Z) * nat) :=
  let? offset := skip_query_name data offset in
  let? header := ok_or (get_range data offset 10) invalid_reply in
  let len := Z.to_nat (be_val (drop 8 header)) in
  let offset := (offset + 10)%nat in
  let? bytes := ok_or (get_range data offset len) invalid_reply in
  Ok (if bool_decide (take 4 header = [0; 1; 0; 1]) && bool_decide (len = 4%nat) && routable bytes then Some bytes else None,
      (offset + len)%nat).
Fixpoint read_records (n : nat) (data : list Z) (offset : nat) : NativeResult (list (list Z) * nat) :=
  match n with
  | O => Ok ([], offset)
  | S n =>
      let? record := read_record data offset in
      let? rest := read_records n data record.2 in
      Ok (match record.1 with Some a => a :: rest.1 | None => rest.1 end, rest.2)
  end.

(** The order of the addresses, and [dedup]. *)
Definition address_le (a b : list Z) : Prop := be_val a <= be_val b.
#[export] Instance address_le_dec a b : Decision (address_le a b).
Proof. unfold address_le. solve_decision. Defined.
Fixpoint dedup (l : list (list Z)) : list (list Z) :=
  match l with
  | [] => []
  | a :: l => if bool_decide (head l = Some a) then dedup l else a :: dedup l
  end.

Definition reply_header (data : list Z) (id : Z) : bool :=
  (12 <=? length data)%nat && bool_decide (take 2 data = be16 id) && (Z.land (unwrap_or (data !! 2%nat) 0) 0x82 =? 0x80)
  && (Z.land (unwrap_or (data !! 3%nat) 0) 15 =? 0) && bool_decide (take 2 (drop 4 data) = [0; 1]).

Definition parse (data : list Z) (id : Z) : NativeResult (list (list Z)) :=
  if negb (reply_header data id) then Err invalid_reply
  else
    let answers := be_val (take 2 (drop 6 data)) in
    if 64 <? answers then Err invalid_reply
    else
      let? offset := skip_query_name data 12 in
      if (length data <? offset + 4)%nat then Err invalid_reply
      else
        let? records := read_records (Z.to_nat answers) data (offset + 4) in
        let addresses := dedup (merge_sort address_le records.1) in
        match addresses with [] => Err invalid_reply | _ => Ok addresses end.

(** A reply as a resolver sends it: the query's name, flags that say so and compressed address records. *)
Definition address_record (a : list Z) : list Z := [0xc0; 12; 0; 1; 0; 1; 0; 0; 0; 60; 0; 4] ++ a.
Definition reply (id : Z) (addresses : list (list Z)) : list Z :=
  be16 id ++ [0x81; 0x80; 0; 1] ++ be16 (Z.of_nat (length addresses)) ++ [0; 0; 0; 0] ++ drop 12 (query id)
  ++ concat (map address_record addresses).

(** The source's test. *)
Example reply_accepted : parse (reply 42 [[203; 0; 113; 7]]) 42 = Ok [[203; 0; 113; 7]].
Proof. vm_compute. reflexivity. Qed.
Example reply_unrelated : is_ok (parse (reply 42 [[203; 0; 113; 7]]) 43) = false.
Proof. vm_compute. reflexivity. Qed.

(** ** Lemmas *)
Lemma dedup_subset l a : a ∈ dedup l -> a ∈ l.
Proof.
  induction l as [|b l IH]; [done|]. cbn. case_bool_decide; intros H'; [by apply elem_of_cons; right; apply IH|].
  apply elem_of_cons in H' as [->|H']; apply elem_of_cons; [by left|right; by apply IH].
Qed.
Lemma dedup_complete l a : a ∈ l -> a ∈ dedup l.
Proof.
  induction l as [|b l IH]; [done|]. cbn. intros [->|H']%elem_of_cons; case_bool_decide as E.
  - apply IH. destruct l; [discriminate|]. injection E as ->. apply elem_of_cons. by left.
  - apply elem_of_cons. by left.
  - by apply IH.
  - apply elem_of_cons. right. by apply IH.
Qed.
Definition octets (a : list Z) : Prop := length a = 4%nat /\ Forall (fun b => 0 <= b < 256) a.
Lemma be_val_inj a b : octets a -> octets b -> be_val a = be_val b -> a = b.
Proof.
  intros [Ha Fa] [Hb Fb]. destruct a as [|a0 [|a1 [|a2 [|a3 [|]]]]]; try discriminate. destruct b as [|b0 [|b1 [|b2 [|b3 [|]]]]]; try discriminate.
  repeat match goal with H : Forall _ (_ :: _) |- _ => apply Forall_cons in H as [? H] end.
  unfold be_val. cbn [foldl]. intros H'. assert (a0 = b0 /\ a1 = b1 /\ a2 = b2 /\ a3 = b3) as (-> & -> & -> & ->) by lia. done.
Qed.
(** A sorted list of addresses without repetitions. *)
Definition ascending : list (list Z) -> Prop := StronglySorted (fun a b => be_val a < be_val b).
Lemma dedup_ascending l : Forall octets l -> StronglySorted address_le l -> ascending (dedup l).
Proof.
  intros Hb Hs. induction Hs as [|a l Hs IH Ha]; [by constructor|]. apply Forall_cons in Hb as [Hb0 Hb]. specialize (IH Hb). cbn.
  case_bool_decide as E; [done|]. constructor; [done|]. rewrite Forall_forall. intros b Hin%dedup_subset.
  rewrite Forall_forall in Ha, Hb. pose proof (Ha _ Hin) as Hle. unfold address_le in Hle.
  destruct (decide (be_val a = be_val b)) as [He|He]; [|lia]. apply be_val_inj in He as ->; [|done|by apply Hb].
  destruct l as [|c l]; [by apply elem_of_nil in Hin|]. exfalso. apply E. cbn. f_equal.
  apply be_val_inj; [apply Hb, elem_of_cons; by left|done|].
  assert (be_val b <= be_val c) by (apply Ha, elem_of_cons; by left).
  apply elem_of_cons in Hin as [->|Hin]; [done|]. inversion Hs as [|? ? ? Hc]; subst. rewrite Forall_forall in Hc.
  pose proof (Hc _ Hin) as Hcb. unfold address_le in Hcb. lia.
Qed.

(** A record of the message at [offset] that holds the address [a]. *)
Definition recorded (data : list Z) (a : list Z) : Prop :=
  exists offset header, get_range data offset 10 = Some header /\ take 4 header = [0; 1; 0; 1] /\
    be_val (drop 8 header) = 4 /\ get_range data (offset + 10) 4 = Some a /\ routable a = true.
Lemma read_records_sound n data offset l end_ a :
  read_records n data offset = Ok (l, end_) -> Forall (fun b => 0 <= b < 256) data -> a ∈ l -> recorded data a /\ octets a.
Proof.
  intros H' Hd. revert offset l end_ H'. induction n as [|n IH]; intros offset l end_ H' Hin.
  { injection H' as <- _. by apply elem_of_nil in Hin. }
  cbn in H'. unfold read_record in H'. destruct (skip_query_name data offset) as [o|]; [|discriminate]. cbn in H'.
  destruct (get_range data o 10) as [header|] eqn:Eh; [|discriminate]. cbn [res_bind ok_or] in H'.
  destruct (get_range data (o + 10) (Z.to_nat (be_val (drop 8 header)))) as [bytes|] eqn:Eb; [|discriminate]. cbn [res_bind ok_or fst snd] in H'.
  destruct (read_records n data _) as [[rest e]|] eqn:Er; [|discriminate]. cbn [res_bind fst snd] in H'.
  destruct (bool_decide_reflect (take 4 header = [0; 1; 0; 1])) as [Ht|]; [|injection H' as <- _; by eapply IH].
  destruct (bool_decide_reflect (Z.to_nat (be_val (drop 8 header)) = 4%nat)) as [Hl|]; [|injection H' as <- _; by eapply IH].
  destruct (routable bytes) eqn:Hr; cbn [andb] in H'; [|injection H' as <- _; by eapply IH]. injection H' as <- _.
  apply elem_of_cons in Hin as [->|Hin]; [|by eapply IH]. rewrite Hl in Eb. split.
  - exists o, header. split_and!; [done|done|lia|done|done].
  - unfold get_range in Eb. destruct (o + 10 + 4 <=? length data)%nat eqn:El; [|discriminate]. injection Eb as <-. apply Nat.leb_le in El.
    split; [rewrite length_take, length_drop; lia|]. by apply Forall_take, Forall_drop.
Qed.

(** ** Replies *)
Lemma skip_pointer rest_len data offset :
  (offset + 1 < length data)%nat -> data !! offset = Some 0xc0 -> data !! S offset = Some 12 -> (rest_len > 0)%nat -> 12 < Z.of_nat (length data) ->
  skip_labels rest_len data offset = Ok (S (S offset)).
Proof.
  intros Hl H0 H1 Hn H12. destruct rest_len; [lia|]. cbn [skip_labels]. rewrite H0. cbn [ok_or res_bind]. rewrite H1. cbn [ok_or res_bind].
  change (0xc0 =? 0) with false. change (192 <=? 0xc0) with true. cbn iota.
  replace (Z.lor (Z.shiftl (Z.land 192 63) 8) 12) with 12 by done. by replace (Z.of_nat (length data) <=? 12) with false by lia.
Qed.
Lemma get_range_app pre mid post : get_range (pre ++ mid ++ post) (length pre) (length mid) = Some mid.
Proof.
  unfold get_range. rewrite !length_app. replace (length pre + length mid <=? _)%nat with true by (symmetry; apply Nat.leb_le; lia).
  by rewrite drop_app_length, take_app_length.
Qed.

Lemma read_address pre a post :
  length a = 4%nat -> routable a = true -> (12 <= length pre)%nat ->
  read_record (pre ++ address_record a ++ post) (length pre) = Ok (Some a, length (pre ++ address_record a)).
Proof.
  intros Hl Hr Hp. unfold read_record, skip_query_name. set (data := pre ++ address_record a ++ post).
  assert (Hd : data = pre ++ [0xc0; 12] ++ [0; 1; 0; 1; 0; 0; 0; 60; 0; 4] ++ a ++ post) by done.
  rewrite skip_pointer; [| |by rewrite Hd, lookup_app_r, Nat.sub_diag|rewrite Hd, lookup_app_r by lia; by replace (S (length pre) - length pre)%nat with 1%nat by lia|lia|];
    [|unfold data, address_record; rewrite !length_app; cbn [length]; lia..].
  cbn [res_bind].
  assert (get_range data (S (S (length pre))) 10 = Some [0; 1; 0; 1; 0; 0; 0; 60; 0; 4]) as ->.
  { rewrite Hd, app_assoc. replace (S (S (length pre))) with (length (pre ++ [0xc0; 12])) by (rewrite length_app; cbn; lia).
    exact (get_range_app _ [0; 1; 0; 1; 0; 0; 0; 60; 0; 4] _). }
  cbn [ok_or res_bind]. replace (Z.to_nat (be_val (drop 8 _))) with 4%nat by done.
  assert (get_range data (S (S (length pre)) + 10) 4 = Some a) as ->.
  { rewrite Hd, app_assoc, app_assoc. replace (S (S (length pre)) + 10)%nat with (length ((pre ++ [0xc0; 12]) ++ [0; 1; 0; 1; 0; 0; 0; 60; 0; 4])) by (rewrite !length_app; cbn; lia).
    pose proof (get_range_app ((pre ++ [0xc0; 12]) ++ [0; 1; 0; 1; 0; 0; 0; 60; 0; 4]) a post) as Hg. by rewrite Hl in Hg. }
  cbn [ok_or res_bind]. rewrite Hr. cbn. do 2 f_equal. rewrite !length_app. cbn [length address_record app]. lia.
Qed.
Lemma read_addresses pre l :
  (12 <= length pre)%nat -> Forall (fun a => length a = 4%nat /\ routable a = true) l ->
  read_records (length l) (pre ++ concat (map address_record l)) (length pre) = Ok (l, length (pre ++ concat (map address_record l))).
Proof.
  revert pre. induction l as [|a l IH]; intros pre Hp Hl; cbn [length read_records map concat].
  { by rewrite app_nil_r. }
  apply Forall_cons in Hl as [[H1 H2] Hl]. rewrite read_address by done. cbn [res_bind fst snd].
  rewrite (app_assoc pre). rewrite IH; [done| |done]. rewrite length_app. lia.
Qed.

Definition question : list Z := drop 12 (query 0).
Lemma skip_question i1 i2 f1 f2 c1 c2 n1 n2 rest :
  skip_query_name ([i1; i2; f1; f2; c1; c2; n1; n2; 0; 0; 0; 0] ++ question ++ rest) 12 = Ok 31%nat.
Proof. vm_compute. reflexivity. Qed.

Lemma be_val_be16 n : 0 <= n < 65536 -> be_val (be16 n) = n.
Proof. intros H'. unfold be_val, be16. cbn [foldl]. Z.to_euclidean_division_equations. lia. Qed.

Lemma sorted_ascending l : Forall octets l -> ascending (dedup (merge_sort address_le l)).
Proof.
  intros Hl. apply dedup_ascending; [by rewrite merge_sort_Permutation|].
  apply StronglySorted_merge_sort; unfold address_le; [intros a b c; lia|intros a b; lia].
Qed.
Lemma sorted_elements l a : a ∈ dedup (merge_sort address_le l) <-> a ∈ l.
Proof.
  split.
  - intros H'%dedup_subset. by rewrite merge_sort_Permutation in H'.
  - intros H'. apply dedup_complete. by rewrite merge_sort_Permutation.
Qed.

Lemma parse_reply id addresses :
  (length addresses <= 64)%nat -> Forall (fun a => octets a /\ routable a = true) addresses ->
  parse (reply id addresses) id =
    match dedup (merge_sort address_le addresses) with [] => Err invalid_reply | l => Ok l end.
Proof.
  intros Hn Ha. set (n := Z.of_nat (length addresses)). assert (Hv : be_val (be16 n) = n) by (apply be_val_be16; lia).
  assert (E : reply id addresses = (be16 id ++ [0x81; 0x80; 0; 1] ++ be16 n ++ [0; 0; 0; 0] ++ question) ++ concat (map address_record addresses)).
  { unfold reply. by rewrite <- !app_assoc. }
  unfold parse. rewrite E. set (pre := be16 id ++ _). assert (Hpre : length pre = 35%nat) by (unfold pre; rewrite !length_app; reflexivity).
  assert (reply_header (pre ++ concat (map address_record addresses)) id = true) as ->.
  { unfold reply_header. rewrite length_app, Hpre. unfold pre, be16. cbn. by rewrite bool_decide_eq_true_2. }
  cbn [negb]. replace (be_val (take 2 (drop 6 _))) with n by (rewrite <- Hv; done).
  replace (64 <? n) with false by lia.
  replace (skip_query_name (pre ++ _) 12) with (Ok (E := NativeError) 31%nat) by (symmetry; apply skip_question).
  cbn [res_bind]. replace (length _ <? 31 + 4)%nat with false by (symmetry; apply Nat.ltb_ge; rewrite length_app, Hpre; lia).
  unfold n. rewrite Nat2Z.id. change (31 + 4)%nat with 35%nat. rewrite <- Hpre, read_addresses; [cbn [res_bind fst]; by destruct (dedup _)|lia|].
  eapply Forall_impl; [exact Ha|]. intros a [[Hl _] Hr]. by split.
Qed.

(** The recovery tunnel believes only an answer to its own query: what the parser accepts carries the query's
    identifier, and every address it returns is a public IPv4 address of an address record of the message, in
    ascending order and without repetitions; it never returns an empty list.  It accepts the reply a resolver sends, with
    exactly its addresses. *)
Theorem guest_dns_reply_trusted data id addresses :
  Forall (fun b => 0 <= b < 256) data ->
  (forall l, parse data id = Ok l -> l <> [] /\ ascending l /\ take 2 data = be16 id /\ (forall a, a ∈ l -> recorded data a)) /\
  ((1 <= length addresses <= 64)%nat -> Forall (fun a => octets a /\ routable a = true) addresses ->
   exists l, parse (reply id addresses) id = Ok l /\ ascending l /\ (forall a, a ∈ l <-> a ∈ addresses)).
Proof.
  intros Hd. split.
  - intros l. unfold parse. destruct (reply_header data id) eqn:Eh; [|discriminate]. cbn [negb].
    destruct (64 <? _); [discriminate|]. destruct (skip_query_name data 12) as [o|]; [|discriminate]. cbn [res_bind].
    destruct (length data <? o + 4)%nat; [discriminate|].
    destruct (read_records _ data (o + 4)) as [[records end_]|] eqn:Er; [|discriminate]. cbn [res_bind fst].
    assert (Hr : forall a, a ∈ records -> recorded data a /\ octets a) by (intros a; by eapply read_records_sound).
    destruct (dedup (merge_sort address_le records)) as [|b l'] eqn:El; [discriminate|]. intros [= <-]. rewrite <- El. split_and!.
    + by rewrite El.
    + apply sorted_ascending. rewrite Forall_forall. intros a Ha. by apply Hr.
    + unfold reply_header in Eh. repeat (apply andb_true_iff in Eh as [Eh ?]).
      by match goal with H' : bool_decide (take 2 data = _) = true |- _ => apply bool_decide_eq_true in H' end.
    + intros a Ha%dedup_subset. rewrite merge_sort_Permutation in Ha. by apply Hr.
  - intros Hn Ha. exists (dedup (merge_sort address_le addresses)). rewrite parse_reply by (done || lia).
    assert (Ho : Forall octets addresses) by (eapply Forall_impl; [exact Ha|]; by intros a []).
    split_and!; [|by apply sorted_ascending|apply sorted_elements].
    destruct (dedup _) eqn:E; [|done]. destruct addresses as [|a addresses]; [cbn in Hn; lia|].
    assert (Hin : a ∈ dedup (merge_sort address_le (a :: addresses))) by (apply sorted_elements, elem_of_cons; by left).
    rewrite E in Hin. by apply elem_of_nil in Hin.
Qed.

Lemma guest_dns_reply_trusted_witness :
  parse (reply 42 [[203; 0; 113; 9]; [203; 0; 113; 7]]) 42 = Ok [[203; 0; 113; 7]; [203; 0; 113; 9]] /\
  (forall l, parse (reply 42 [[203; 0; 113; 9]; [203; 0; 113; 7]]) 42 = Ok l -> l <> []) /\
  (exists l, parse (reply 42 [[203; 0; 113; 9]; [203; 0; 113; 7]]) 42 = Ok l /\ ascending l).
Proof.
  split; [vm_compute; reflexivity|].
  destruct (guest_dns_reply_trusted (reply 42 [[203; 0; 113; 9]; [203; 0; 113; 7]]) 42 [[203; 0; 113; 9]; [203; 0; 113; 7]]) as [H1 H2].
  - refine (proj1 (bool_decide_eq_true (Forall (fun b => 0 <= b < 256) (reply 42 [[203; 0; 113; 9]; [203; 0; 113; 7]]))) _). vm_compute. reflexivity.
  - split; [intros l Hl; by apply (H1 l Hl)|]. destruct H2 as (l & Hl & Ha & _); [cbn; lia| |by exists l].
    repeat constructor; cbn; lia.
Defined.
