(* ===== verification/NativeSettings.v ===== *)
(** The settings of the native backend ([agent/src/native_backend/models.rs]) with their JSON form, the
    settings a connection runs with, and the checks on the parameters of the requests that change
    settings (the free functions of [agent/src/native_backend/mod.rs]).

    Which protocols are installed is the pair of flags [ProtunInstalled], [OpenVpnInstalled]
    ([Path::exists] on two descriptor files); addresses and networks are parsed by [IpLib]. *)
From S2P Require Export Json CatalogModel.
Open Scope string_scope.
Open Scope Z_scope.
Open Scope list_scope.
Open Scope rust_scope.

(** ** Data *)
Abbreviation json_map := (gmap string json).

Record CustomDns : Type := mkCustomDns {
  cd_enabled : bool;
  cd_ip_list : list json;
  cd_extra : json_map }.

Record SplitTunnelingConfig : Type := mkSplitTunnelingConfig {
  st_mode : string;
  st_app_paths : list string;
  st_ip_ranges : list string;
  st_extra : json_map }.

Record SplitTunnelingSettings : Type := mkSplitTunnelingSettings {
  sts_enabled : bool;
  sts_mode : string;
  sts_config_by_mode : gmap string SplitTunnelingConfig;
  sts_extra : json_map }.

Record SettingsFeatures : Type := mkSettingsFeatures {
  sf_netshield : Z;
  sf_moderate_nat : bool;
  sf_vpn_accelerator : bool;
  sf_port_forwarding : bool;
  sf_split_tunneling : SplitTunnelingSettings;
  sf_extra : json_map }.

Record NativeSettings : Type := mkNativeSettings {
  ns_protocol : string;
  ns_killswitch : Z;
  ns_custom_dns : CustomDns;
  ns_ipv6 : bool;
  ns_ipv6_leak_protection : bool;
  ns_alternative_routing : bool;
  ns_allow_lan_connections : bool;
  ns_allow_local_dns : bool;
  ns_anonymous_crash_reports : bool;
  ns_share_statistics : bool;
  ns_privacy_consent_version : Z;
  ns_features : SettingsFeatures;
  ns_extra : json_map }.

Definition CustomDns_default : CustomDns := mkCustomDns false [] ∅.
Definition SplitTunnelingConfig_new (mode : string) : SplitTunnelingConfig := mkSplitTunnelingConfig mode [] [] ∅.
Definition default_split_mode : string := "exclude".
Definition default_split_configs : gmap string SplitTunnelingConfig :=
  {["exclude" := SplitTunnelingConfig_new "exclude"; "include" := SplitTunnelingConfig_new "include"]}.
Definition SplitTunnelingSettings_default : SplitTunnelingSettings :=
  mkSplitTunnelingSettings false default_split_mode default_split_configs ∅.
Definition SettingsFeatures_default : SettingsFeatures :=
  mkSettingsFeatures 0 false true false SplitTunnelingSettings_default ∅.
Definition default_protocol : string := "wireguard".
Definition current_privacy_consent_version : Z := 1.
Definition NativeSettings_default : NativeSettings :=
  mkNativeSettings default_protocol 0 CustomDns_default true true true false false false false
    current_privacy_consent_version SettingsFeatures_default ∅.

Definition split_config (s : SplitTunnelingSettings) (mode : string) : SplitTunnelingConfig :=
  unwrap_or (s.(sts_config_by_mode) !! mode) (SplitTunnelingConfig_new mode).

(** *** Field updates *)
Definition set_protocol (v : string) (s : NativeSettings) : NativeSettings :=
  let '(mkNativeSettings _ b c d e f g h i j k l m) := s in mkNativeSettings v b c d e f g h i j k l m.
Definition set_killswitch (v : Z) (s : NativeSettings) : NativeSettings :=
  let '(mkNativeSettings a _ c d e f g h i j k l m) := s in mkNativeSettings a v c d e f g h i j k l m.
Definition set_custom_dns (v : CustomDns) (s : NativeSettings) : NativeSettings :=
  let '(mkNativeSettings a b _ d e f g h i j k l m) := s in mkNativeSettings a b v d e f g h i j k l m.
Definition set_ipv6 (v : bool) (s : NativeSettings) : NativeSettings :=
  let '(mkNativeSettings a b c _ e f g h i j k l m) := s in mkNativeSettings a b c v e f g h i j k l m.
Definition set_ipv6_leak_protection (v : bool) (s : NativeSettings) : NativeSettings :=
  let '(mkNativeSettings a b c d _ f g h i j k l m) := s in mkNativeSettings a b c d v f g h i j k l m.
Definition set_alternative_routing (v : bool) (s : NativeSettings) : NativeSettings :=
  let '(mkNativeSettings a b c d e _ g h i j k l m) := s in mkNativeSettings a b c d e v g h i j k l m.
Definition set_allow_lan_connections (v : bool) (s : NativeSettings) : NativeSettings :=
  let '(mkNativeSettings a b c d e f _ h i j k l m) := s in mkNativeSettings a b c d e f v h i j k l m.
Definition set_allow_local_dns (v : bool) (s : NativeSettings) : NativeSettings :=
  let '(mkNativeSettings a b c d e f g _ i j k l m) := s in mkNativeSettings a b c d e f g v i j k l m.
Definition set_telemetry (crash statistics : bool) (version : Z) (s : NativeSettings) : NativeSettings :=
  let '(mkNativeSettings a b c d e f g h _ _ _ l m) := s in
  mkNativeSettings a b c d e f g h crash statistics version l m.
Definition set_share_statistics (v : bool) (s : NativeSettings) : NativeSettings :=
  set_telemetry s.(ns_anonymous_crash_reports) v s.(ns_privacy_consent_version) s.
Definition set_features (v : SettingsFeatures) (s : NativeSettings) : NativeSettings :=
  let '(mkNativeSettings a b c d e f g h i j k _ m) := s in mkNativeSettings a b c d e f g h i j k v m.
Definition set_netshield (v : Z) (f : SettingsFeatures) : SettingsFeatures :=
  let '(mkSettingsFeatures _ b c d e x) := f in mkSettingsFeatures v b c d e x.
Definition set_moderate_nat (v : bool) (f : SettingsFeatures) : SettingsFeatures :=
  let '(mkSettingsFeatures a _ c d e x) := f in mkSettingsFeatures a v c d e x.
Definition set_vpn_accelerator (v : bool) (f : SettingsFeatures) : SettingsFeatures :=
  let '(mkSettingsFeatures a b _ d e x) := f in mkSettingsFeatures a b v d e x.
Definition set_port_forwarding (v : bool) (f : SettingsFeatures) : SettingsFeatures :=
  let '(mkSettingsFeatures a b c _ e x) := f in mkSettingsFeatures a b c v e x.
Definition set_split (v : SplitTunnelingSettings) (f : SettingsFeatures) : SettingsFeatures :=
  let '(mkSettingsFeatures a b c d _ x) := f in mkSettingsFeatures a b c d v x.
Definition on_features (g : SettingsFeatures -> SettingsFeatures) (s : NativeSettings) : NativeSettings :=
  set_features (g s.(ns_features)) s.

(** ** JSON form

    [#[serde(flatten)]] on [extra] keeps the fields the structure does not name, so a file written by
    another version keeps them; integers are bounded by their type. *)
Definition without (keys : list string) (m : json_map) : json_map := foldr delete m keys.
Definition flatten (fields : list (string * json)) (extra : json_map) : json :=
  Obj (list_to_map fields ∪ extra).
Definition u8_of_json (j : json) : option Z := as_u64 j ?> u_try_from 8.
Definition opt_then {A B : Type} (o : option A) (k : A -> option B) : option B :=
  match o with Some a => k a | None => None end.
Notation "'let??' x ':=' o 'in' k" := (opt_then o (fun x => k))
  (at level 200, x name, k at level 200, right associativity) : rust_scope.

Definition dns_keys : list string := ["enabled"; "ip_list"].
Definition dns_to_json (d : CustomDns) : json :=
  flatten [("enabled", Bool d.(cd_enabled)); ("ip_list", Arr d.(cd_ip_list))] d.(cd_extra).
Definition dns_of_json (j : json) : option CustomDns :=
  let?? m := as_object j in
  let?? enabled := field_or false as_bool (m !! "enabled") in
  let?? ip_list := field_or [] as_array (m !! "ip_list") in
  Some (mkCustomDns enabled ip_list (without dns_keys m)).

Definition split_config_keys : list string := ["mode"; "app_paths"; "ip_ranges"].
Definition split_config_to_json (c : SplitTunnelingConfig) : json :=
  flatten [("mode", Str c.(st_mode)); ("app_paths", strs_to_json c.(st_app_paths)); ("ip_ranges", strs_to_json c.(st_ip_ranges))]
    c.(st_extra).
Definition split_config_of_json (j : json) : option SplitTunnelingConfig :=
  let?? m := as_object j in
  let?? mode := field_or default_split_mode as_str (m !! "mode") in
  let?? app_paths := field_or [] strs_of_json (m !! "app_paths") in
  let?? ip_ranges := field_or [] strs_of_json (m !! "ip_ranges") in
  Some (mkSplitTunnelingConfig mode app_paths ip_ranges (without split_config_keys m)).

Definition split_keys : list string := ["enabled"; "mode"; "config_by_mode"].
Definition split_to_json (s : SplitTunnelingSettings) : json :=
  flatten [("enabled", Bool s.(sts_enabled)); ("mode", Str s.(sts_mode));
           ("config_by_mode", smap_to_json split_config_to_json s.(sts_config_by_mode))] s.(sts_extra).
Definition split_of_json (j : json) : option SplitTunnelingSettings :=
  let?? m := as_object j in
  let?? enabled := field_or false as_bool (m !! "enabled") in
  let?? mode := field_or default_split_mode as_str (m !! "mode") in
  let?? configs := field_or default_split_configs (smap_of_json split_config_of_json) (m !! "config_by_mode") in
  Some (mkSplitTunnelingSettings enabled mode configs (without split_keys m)).

Definition features_keys : list string :=
  ["netshield"; "moderate_nat"; "vpn_accelerator"; "port_forwarding"; "split_tunneling"].
Definition features_to_json (f : SettingsFeatures) : json :=
  flatten [("netshield", jnum f.(sf_netshield)); ("moderate_nat", Bool f.(sf_moderate_nat));
           ("vpn_accelerator", Bool f.(sf_vpn_accelerator)); ("port_forwarding", Bool f.(sf_port_forwarding));
           ("split_tunneling", split_to_json f.(sf_split_tunneling))] f.(sf_extra).
Definition features_of_json (j : json) : option SettingsFeatures :=
  let?? m := as_object j in
  let?? netshield := field_or 0 u8_of_json (m !! "netshield") in
  let?? moderate_nat := field_or false as_bool (m !! "moderate_nat") in
  let?? vpn_accelerator := field_or true as_bool (m !! "vpn_accelerator") in
  let?? port_forwarding := field_or false as_bool (m !! "port_forwarding") in
  let?? split := field_or SplitTunnelingSettings_default split_of_json (m !! "split_tunneling") in
  Some (mkSettingsFeatures netshield moderate_nat vpn_accelerator port_forwarding split (without features_keys m)).

Definition settings_keys : list string :=
  ["protocol"; "killswitch"; "custom_dns"; "ipv6"; "ipv6_leak_protection"; "alternative_routing";
   "allow_lan_connections"; "allow_local_dns"; "anonymous_crash_reports"; "share_statistics";
   "privacy_consent_version"; "features"].
Definition settings_to_json (s : NativeSettings) : json :=
  flatten [("protocol", Str s.(ns_protocol)); ("killswitch", jnum s.(ns_killswitch));
           ("custom_dns", dns_to_json s.(ns_custom_dns)); ("ipv6", Bool s.(ns_ipv6));
           ("ipv6_leak_protection", Bool s.(ns_ipv6_leak_protection));
           ("alternative_routing", Bool s.(ns_alternative_routing));
           ("allow_lan_connections", Bool s.(ns_allow_lan_connections));
           ("allow_local_dns", Bool s.(ns_allow_local_dns));
           ("anonymous_crash_reports", Bool s.(ns_anonymous_crash_reports));
           ("share_statistics", Bool s.(ns_share_statistics));
           ("privacy_consent_version", jnum s.(ns_privacy_consent_version));
           ("features", features_to_json s.(ns_features))] s.(ns_extra).
Definition settings_of_json (j : json) : option NativeSettings :=
  let?? m := as_object j in
  let?? protocol := field_or default_protocol as_str (m !! "protocol") in
  let?? killswitch := field_or 0 u8_of_json (m !! "killswitch") in
  let?? custom_dns := field_or CustomDns_default dns_of_json (m !! "custom_dns") in
  let?? ipv6 := field_or true as_bool (m !! "ipv6") in
  let?? leak := field_or true as_bool (m !! "ipv6_leak_protection") in
  let?? routing := field_or true as_bool (m !! "alternative_routing") in
  let?? lan := field_or false as_bool (m !! "allow_lan_connections") in
  let?? local_dns := field_or false as_bool (m !! "allow_local_dns") in
  let?? crash := field_or false as_bool (m !! "anonymous_crash_reports") in
  let?? statistics := field_or false as_bool (m !! "share_statistics") in
  let?? consent := field_or 0 u8_of_json (m !! "privacy_consent_version") in
  let?? features := field_or SettingsFeatures_default features_of_json (m !! "features") in
  Some (mkNativeSettings protocol killswitch custom_dns ipv6 leak routing lan local_dns crash statistics consent
          features (without settings_keys m)).

(** ** The split-tunnelling rules the desktop offers *)
Definition LAN_BYPASS_RANGES : list string :=
  ["10.128.0.0/9"; "10.64.0.0/10"; "10.32.0.0/11"; "10.16.0.0/12"; "10.8.0.0/13"; "10.4.0.0/14";
   "10.0.0.0/15"; "10.3.0.0/16"; "10.2.128.0/17"; "10.2.64.0/18"; "10.2.32.0/19"; "10.2.16.0/20";
   "10.2.8.0/21"; "10.2.4.0/22"; "10.2.2.0/23"; "10.2.1.0/24"; "10.2.0.128/25"; "10.2.0.64/26";
   "10.2.0.32/27"; "10.2.0.16/28"; "10.2.0.8/29"; "10.2.0.4/30"; "10.2.0.2/31"; "10.2.0.0/32";
   "172.16.0.0/12"; "192.168.0.0/16"; "169.254.0.0/16"; "fc00::/7"; "fe80::/10"].
Definition LOCAL_NAME_BYPASS_RANGES : list string :=
  ["224.0.0.251/32"; "224.0.0.252/32"; "ff02::fb/128"; "ff02::1:3/128"].

(** ** Names *)
Definition native_invalid_params (message : string) : NativeError := NativeError_new "invalid_params" message.

Definition normalized_protocol (value : string) : string :=
  let value := to_ascii_lowercase (trim value) in
  let named name := String.eqb value name in
  if named "smart" || named "protun-smart" then "protun-smart"
  else if named "wireguard" || named "wireguard-udp" || named "protun-udp" then "protun-udp"
  else if named "wireguard-tcp" || named "protun-tcp" then "protun-tcp"
  else if named "wireguard-tls" || named "stealth" || named "protun-tls" then "protun-tls"
  else value.

Definition kill_switch_name (value : Z) : string :=
  if value =? 2 then "advanced" else if value =? 1 then "standard" else "off".
Definition kill_switch_value (value : string) : option Z :=
  let value := to_ascii_lowercase (trim value) in
  let named name := String.eqb value name in
  if named "off" then Some 0
  else if named "standard" || named "on" then Some 1
  else if named "advanced" || named "permanent" then Some 2
  else None.

Class Installed : Type := mkInstalled { protun_installed : bool; openvpn_installed : bool }.

Definition available_protocol `{Installed} (protocol : string) : bool :=
  let named name := String.eqb protocol name in
  if named "protun-smart" || named "protun-udp" || named "protun-tcp" || named "protun-tls" then protun_installed
  else if named "openvpn-udp" || named "openvpn-tcp" then openvpn_installed
  else false.
Definition available_protocols `{Installed} : list string :=
  (if protun_installed then ["protun-smart"; "protun-udp"; "protun-tcp"; "protun-tls"] else [])
  ++ (if openvpn_installed then ["openvpn-udp"; "openvpn-tcp"] else []).

Definition nonempty_str (m : json_map) (key : string) : bool :=
  match get_str m key with Some s => negb (is_empty s) | None => false end.

Definition connection_trigger (params : json) : string :=
  match jget "profile_settings" params with
  | Some _ => "profile"
  | None =>
      match jget "target" params ?> as_object with
      | Some target =>
          if nonempty_str target "gateway_name" && nonempty_str target "server_name" then "gateways_server"
          else if nonempty_str target "gateway_name" then "gateways_gateway"
          else if nonempty_str target "server_name" then "countries_server"
          else if nonempty_str target "country_code" then "countries_country"
          else "connection_card"
      | None => "connection_card"
      end
  end.

Definition connection_profile_id (params : json) : NativeResult (option string) :=
  match jget "profile_id" params with
  | None | Some Null => Ok None
  | Some value =>
      let? profile_id := ok_or (as_str value) (native_invalid_params "profile_id must be a string") in
      if is_empty profile_id || (128 <? str_len profile_id) || has_control profile_id
      then Err (native_invalid_params "profile_id must contain 1 to 128 non-control bytes")
      else Ok (Some profile_id)
  end.

(** ** Feature flags *)
Definition get_either (lower upper : string) (v : json) : option json := or_else (jget lower v) (jget upper v).
Definition feature_flag (payload : json) (name : string) : option json :=
  get_either "toggles" "Toggles" payload ?> as_array ?>
  find_first (fun toggle =>
    match get_either "Name" "name" toggle ?> as_str with
    | Some candidate => eq_ignore_ascii_case candidate name
    | None => false
    end).
Definition feature_flag_enabled (payload : json) (name : string) : bool :=
  unwrap_or (feature_flag payload name ?> get_either "enabled" "Enabled" ?> as_bool) false.
Definition feedback_auto_dismiss_seconds (payload : json) : Z :=
  unwrap_or
    (opt_filter (fun seconds => (1 <=? seconds) && (seconds <=? 300))
       (feature_flag payload "IsConnectionFeedbackEnabled" ?> get_either "variant" "Variant"
        ?> get_either "payload" "Payload" ?> get_either "value" "Value"
        ?> (fun value => or_else (as_u64 value) (as_str value ?> parse_uint 64)))) 10.

(** ** Parameters *)
Definition bool_feature_value (params : json) (feature : string) : NativeResult bool :=
  ok_or (jget "value" params ?> as_bool) (native_invalid_params (feature +:+ " value must be boolean")).
Definition require_paid_feature (tier : Z) (feature : string) : NativeResult unit :=
  if tier =? 0 then Err (NativeError_new "feature_restricted" (feature +:+ " requires a paid Proton VPN plan")) else Ok tt.

Definition optional_profile_bool (raw : json_map) (key : string) (default : bool) : NativeResult bool :=
  match raw !! key with
  | None => Ok default
  | Some value => ok_or (as_bool value) (native_invalid_params ("profile " +:+ key +:+ " must be boolean"))
  end.
Definition optional_profile_policy (raw : json_map) (key : string) : NativeResult (option bool) :=
  match raw !! key with
  | None | Some Null => Ok None
  | Some value =>
      res_map Some (ok_or (as_bool value) (native_invalid_params ("profile " +:+ key +:+ " must be boolean or null")))
  end.

(** The [Display] of [std::net::AddrParseError]. *)
Definition addr_parse_error : string := "invalid IP address syntax".

Section Addresses.
Context {L : IpLib}.

(** The canonical forms of the listed addresses, blanks skipped and repetitions dropped. *)
Fixpoint dns_servers (not_a_string invalid : NativeError) (seen : list string) (servers : list json)
    : NativeResult (list string) :=
  match servers with
  | [] => Ok []
  | raw :: servers =>
      let? value := ok_or (as_str raw) not_a_string in
      if is_empty (trim value) then dns_servers not_a_string invalid seen servers
      else
        let? address := ok_or (addr_from_str (trim value)) (ne_with_source addr_parse_error invalid) in
        let text := addr_to_string address in
        if bool_decide (text ∈ seen) then dns_servers not_a_string invalid seen servers
        else let? rest := dns_servers not_a_string invalid (text :: seen) servers in Ok (text :: rest)
  end.

Definition dns_entry (ip : string) : json := jobj [("ip", Str ip); ("enabled", Bool true)].
Definition invalid_dns (message : string) : NativeError := NativeError_new "invalid_dns" message.

Definition profile_custom_dns (value : option json) : NativeResult (option CustomDns) :=
  match value with
  | None => Ok None
  | Some value =>
      let? object := ok_or (as_object value) (native_invalid_params "profile custom_dns must be an object") in
      let mode := to_ascii_lowercase (trim (unwrap_or (get_str object "mode") "inherit")) in
      if String.eqb mode "inherit" then Ok None
      else if String.eqb mode "off" then Ok (Some CustomDns_default)
      else if negb (String.eqb mode "custom")
      then Err (native_invalid_params "profile custom DNS mode must be inherit, off or custom")
      else
        let? servers := ok_or (object !! "servers" ?> as_array)
                          (invalid_dns "A custom DNS profile requires an array of DNS server IPs") in
        if 16 <? vec_len servers then Err (invalid_dns "A profile can contain at most 16 custom DNS servers")
        else
          let? normalized := dns_servers (invalid_dns "Profile DNS servers must be strings")
                               (invalid_dns "Invalid profile DNS IP") [] servers in
          if match normalized with [] => true | _ => false end
          then Err (invalid_dns "A custom DNS profile requires at least one DNS server")
          else Ok (Some (mkCustomDns true (map dns_entry normalized) ∅))
  end.

(** [dns.set]: the check of the request, and the settings it leads to. *)
Definition dns_request (params : json) : NativeResult (bool * list string) :=
  let? enabled := ok_or (jget "enabled" params ?> as_bool) (native_invalid_params "enabled must be a boolean") in
  let limit := native_invalid_params "servers must be an array with at most 16 IP addresses" in
  let? raw := ok_or (jget "servers" params ?> as_array) limit in
  if 16 <? vec_len raw then Err limit
  else
    let? normalized := dns_servers (native_invalid_params "DNS servers must be strings")
                         (invalid_dns "Invalid custom DNS IP") [] raw in
    if enabled && match normalized with [] => true | _ => false end
    then Err (invalid_dns "At least one valid DNS IP is required when custom DNS is enabled")
    else Ok (enabled, normalized).
Definition dns_settings (request : bool * list string) (s : NativeSettings) : NativeSettings :=
  set_custom_dns (mkCustomDns request.1 (map dns_entry request.2) s.(ns_custom_dns).(cd_extra)) s.

(** ** The settings of a connection *)
Context {I : Installed}.

Definition protocol_unavailable (protocol : string) : NativeError :=
  NativeError_new "protocol_unavailable" ("VPN protocol is unavailable: " +:+ protocol).

Definition netshield_level_of (raw : json_map) : NativeResult Z :=
  match raw !! "netshield_level" with
  | None => Ok 2
  | Some value =>
      ok_or (opt_filter (fun level => level <=? 2) (as_u64 value))
        (native_invalid_params "profile netshield_level must be an integer from 0 through 2")
  end.

Definition profile_conflict (message : string) : NativeError := NativeError_new "profile_settings_conflict" message.

Definition with_profile_dns (custom_dns : option CustomDns) (netshield_enabled : bool) (s : NativeSettings) : NativeSettings :=
  match custom_dns with
  | Some dns => set_custom_dns dns s
  | None =>
      if netshield_enabled
      then set_custom_dns (mkCustomDns false s.(ns_custom_dns).(cd_ip_list) s.(ns_custom_dns).(cd_extra)) s
      else s
  end.

Definition effective_connection_settings (params : json) (global : NativeSettings) (tier : Z)
    : NativeResult (NativeSettings * string * bool) :=
  match jget "profile_settings" params with
  | None =>
      let protocol := normalized_protocol global.(ns_protocol) in
      if negb (available_protocol protocol) then Err (protocol_unavailable protocol)
      else Ok (global, protocol, false)
  | Some raw =>
      let? raw := ok_or (as_object raw) (native_invalid_params "profile_settings must be a JSON object") in
      let protocol := unwrap_or (option_map normalized_protocol (get_str raw "protocol")) "protun-smart" in
      if negb (available_protocol protocol) then Err (protocol_unavailable protocol)
      else
        let? netshield_enabled := optional_profile_bool raw "netshield_enabled" true in
        let? netshield_level := netshield_level_of raw in
        let? moderate_nat := optional_profile_bool raw "moderate_nat" false in
        let? port_forwarding := optional_profile_bool raw "port_forwarding" false in
        let? custom_dns := profile_custom_dns (raw !! "custom_dns") in
        let? allow_lan := optional_profile_policy raw "allow_lan_connections" in
        let? allow_dns := optional_profile_policy raw "allow_local_dns" in
        if (tier =? 0) && (netshield_enabled || moderate_nat || port_forwarding)
        then Err (NativeError_new "feature_unavailable"
                    "Profile NetShield, Moderate NAT and port forwarding require a paid plan")
        else if moderate_nat && port_forwarding
        then Err (profile_conflict "Moderate NAT and port forwarding cannot be enabled together")
        else if netshield_enabled && match custom_dns with Some dns => dns.(cd_enabled) | None => false end
        then Err (profile_conflict "Custom DNS and NetShield cannot be enabled in the same profile")
        else
          let s := set_protocol protocol global in
          let s := on_features (set_netshield (if netshield_enabled then netshield_level else 0)) s in
          let s := on_features (set_moderate_nat moderate_nat) s in
          let s := on_features (set_port_forwarding port_forwarding) s in
          let s := with_profile_dns custom_dns netshield_enabled s in
          let s := match allow_lan with Some allow => set_allow_lan_connections allow s | None => s end in
          let s := match allow_dns with Some allow => set_allow_local_dns allow s | None => s end in
          Ok (s, protocol, true)
  end.

(** ** Split-tunnelling requests *)
Definition MAX_SPLIT_APPS : Z := 128.
Definition MAX_SPLIT_APP_PATH_BYTES : Z := 4096.
Definition MAX_SPLIT_IP_RANGES : Z := 256.
Definition invalid_split_apps (message : string) : NativeError := NativeError_new "invalid_split_apps" message.
Definition invalid_split_ranges (message : string) : NativeError := NativeError_new "invalid_split_ip_ranges" message.

Definition bad_app (value : string) : bool :=
  str_exists (fun a => Ascii.eqb a "000" || Ascii.eqb a "010" || Ascii.eqb a "013") value
  || (MAX_SPLIT_APP_PATH_BYTES <? str_len value).

Fixpoint split_apps (seen : list string) (apps : list json) : NativeResult (list string) :=
  match apps with
  | [] => Ok []
  | raw :: apps =>
      let? value := ok_or (as_str raw) (invalid_split_apps "App entries must be strings") in
      let value := trim value in
      if is_empty value then split_apps seen apps
      else if bad_app value
      then Err (invalid_split_apps "App entry contains invalid characters or is too long")
      else if bool_decide (value ∈ seen) then split_apps seen apps
      else let? rest := split_apps (value :: seen) apps in Ok (value :: rest)
  end.

Definition agent_ip_range (value : string) : NativeResult string :=
  res_map (fun n => net_to_string (net_trunc n))
    (match net_from_str value with
     | Some n => Ok n
     | None =>
         match addr_from_str value with
         | Some a => Ok (net_of_addr a)
         | None => Err (ne_with_source addr_parse_error
                          (invalid_split_ranges ("Invalid IP address or CIDR range: " +:+ value)))
         end
     end).

Fixpoint split_ranges (seen : list string) (ranges : list json) : NativeResult (list string) :=
  match ranges with
  | [] => Ok []
  | raw :: ranges =>
      let? value := ok_or (as_str raw) (invalid_split_ranges "IP range entries must be strings") in
      let value := trim value in
      if is_empty value then split_ranges seen ranges
      else
        let? network := agent_ip_range value in
        if bool_decide (network ∈ seen) then split_ranges seen ranges
        else let? rest := split_ranges (network :: seen) ranges in Ok (network :: rest)
  end.

Definition split_request_config (params : json) (request_name mode : string) (previous : SplitTunnelingConfig)
    : NativeResult SplitTunnelingConfig :=
  let raw := unwrap_or (jget request_name params) (jobj []) in
  let? object := ok_or (as_object raw) (native_invalid_params "standard/inverse configs must be objects") in
  let raw_apps := unwrap_or (object !! "app_paths") (Arr []) in
  let? apps := ok_or (as_array raw_apps) (invalid_split_apps "app_paths must be an array") in
  if MAX_SPLIT_APPS <? vec_len apps
  then Err (invalid_split_apps ("app_paths must contain at most " +:+ dec MAX_SPLIT_APPS +:+ " entries"))
  else
    let? app_paths := split_apps [] apps in
    let raw_ranges := unwrap_or (object !! "ip_ranges") (strs_to_json previous.(st_ip_ranges)) in
    let? ranges := ok_or (as_array raw_ranges) (invalid_split_ranges "ip_ranges must be an array") in
    if MAX_SPLIT_IP_RANGES <? vec_len ranges
    then Err (invalid_split_ranges ("ip_ranges must contain at most " +:+ dec MAX_SPLIT_IP_RANGES +:+ " entries"))
    else
      let? ip_ranges := split_ranges [] ranges in
      Ok (mkSplitTunnelingConfig mode app_paths ip_ranges previous.(st_extra)).
End Addresses.

(** ** Small helpers of the handlers *)
Definition dns_value (value : json) : option string :=
  match value with
  | Str s => Some s
  | Obj m =>
      if unwrap_or (get_bool m "enabled") true then or_else (m !! "ip") (m !! "address") ?> as_str else None
  | _ => None
  end.

Definition migrate_legacy_privacy_defaults (s : NativeSettings) : bool * NativeSettings :=
  if 1 <=? s.(ns_privacy_consent_version) then (false, s) else (true, set_telemetry false false 1 s).

Definition AUTO_LOGIN_BASE_URL : string := "https://account.proton.me/lite".
Definition upgrade_url (selector modal_source : string) : string :=
  let redirect := "proton-vpn://refresh-account"
    +:+ (if is_empty modal_source then "" else "?modal-source=" +:+ modal_source) in
  AUTO_LOGIN_BASE_URL +:+ "?action=subscribe-account&fullscreen=off&redirect=" +:+ redirect
  +:+ "&start=compare&type=upgrade&app=vpn#selector=" +:+ selector.

Definition with_network_conflicts (error : NativeError) (conflicts : list string) : NativeError :=
  match conflicts with
  | [] => error
  | _ =>
      ne_set_retryable true (ne_with_details
        (jobj [("interfaces", strs_to_json conflicts); ("underlying_code", Str error.(ne_code));
               ("underlying_error", Str error.(ne_message))])
        (NativeError_new "network_conflict_detected"
           "Another active VPN or tunnel interface might be preventing Proton VPN from connecting"))
  end.

Definition take_required_param (params : json) (name : string) (max_bytes : Z) (trimmed : bool)
    : NativeResult string * json :=
  match params with
  | Obj m =>
      let params := Obj (delete name m) in
      match m !! name with
      | Some (Str value) =>
          let value := if trimmed then trim value else value in
          if is_empty value || (max_bytes <? str_len value)
          then (Err (native_invalid_params (name +:+ " must contain between 1 and " +:+ dec max_bytes +:+ " bytes")), params)
          else (Ok value, params)
      | _ => (Err (native_invalid_params (name +:+ " is required")), params)
      end
  | _ => (Err (native_invalid_params (name +:+ " is required")), params)
  end.

Definition login_error_code (stage code : string) : string :=
  if String.eqb code "human_verification_required" || String.eqb code "sso_required" then code
  else if String.eqb stage "two_factor" && String.eqb code "authentication_expired" then "two_factor_session_expired"
  else if String.eqb stage "two_factor" && String.eqb code "authentication_failed" then "two_factor_failed"
  else if String.eqb stage "credentials" && String.eqb code "authentication_failed" then "login_failed"
  else code.
Definition login_error (error : NativeError) (stage : string) : NativeError :=
  let code := login_error_code stage error.(ne_code) in
  let details := unwrap_or (error.(ne_details) ?> as_object) ∅ in
  mkNativeError code error.(ne_message) (Some (Obj (<["auth_stage" := Str stage]> details)))
    (String.eqb code "login_failed" || String.eqb code "two_factor_failed" || error.(ne_retryable)) error.(ne_source).

(** The change [feature.set] makes to the settings: the [match] on the feature's name, the [tier] being
    that of the session ([0] without one). *)
Definition setting_conflict (message : string) : NativeError := NativeError_new "setting_conflict" message.
Definition netshield_request (params : json) : NativeResult Z :=
  let range := native_invalid_params "netshield value must be an integer from 0 through 2" in
  let? level := ok_or (jget "value" params ?> as_u64) range in
  if 2 <? level then Err range else Ok level.

Definition change_feature (feature : string) (params : json) (tier : Z) (s : NativeSettings) : NativeResult NativeSettings :=
  let named name := String.eqb feature name in
  let flag := bool_feature_value params feature in
  if named "anonymous_crash_reports"
  then Err (NativeError_new "feature_unavailable" "Anonymous crash reports are unavailable in this build")
  else if named "anonymous_usage_statistics" then let? v := flag in Ok (set_share_statistics v s)
  else if named "kill_switch" then
    let? mode := ok_or ((jget "value" params ?> as_str) ?> kill_switch_value)
                   (native_invalid_params "kill_switch value must be off, standard or advanced") in
    Ok (set_killswitch mode s)
  else if named "netshield" then
    let? _ := require_paid_feature tier "NetShield" in
    let? level := netshield_request params in
    if (0 <? level) && s.(ns_custom_dns).(cd_enabled)
    then Err (setting_conflict "Disable Custom DNS before enabling NetShield")
    else Ok (on_features (set_netshield level) s)
  else if named "vpn_accelerator" then
    let? _ := require_paid_feature tier "VPN Accelerator" in
    let? v := flag in Ok (on_features (set_vpn_accelerator v) s)
  else if named "moderate_nat" then
    let? _ := require_paid_feature tier "Moderate NAT" in
    let? enabled := flag in
    if enabled && s.(ns_features).(sf_port_forwarding)
    then Err (setting_conflict "Disable port forwarding before enabling Moderate NAT")
    else Ok (on_features (set_moderate_nat enabled) s)
  else if named "ipv6" then let? v := flag in Ok (set_ipv6 v s)
  else if named "ipv6_leak_protection" then let? v := flag in Ok (set_ipv6_leak_protection v s)
  else if named "alternative_routing" then let? v := flag in Ok (set_alternative_routing v s)
  else if named "allow_lan_connections" then let? v := flag in Ok (set_allow_lan_connections v s)
  else if named "allow_local_dns" then let? v := flag in Ok (set_allow_local_dns v s)
  else if named "port_forwarding" then
    let? _ := require_paid_feature tier "Port forwarding" in
    let? enabled := flag in
    if enabled && s.(ns_features).(sf_moderate_nat)
    then Err (setting_conflict "Moderate NAT and port forwarding cannot be enabled together")
    else Ok (on_features (set_port_forwarding enabled) s)
  else Err (native_invalid_params "Unknown feature").

(** ** Lemmas: the JSON form *)
Lemma without_lookup keys (m : json_map) k : without keys m !! k = if bool_decide (k ∈ keys) then None else m !! k.
Proof.
  unfold without. induction keys as [|key keys IH]; simpl; [done|].
  destruct (decide (k = key)) as [->|Hk].
  - rewrite lookup_delete_eq, bool_decide_eq_true_2; [done|by left].
  - rewrite lookup_delete_ne, IH by done. do 2 case_bool_decide; set_solver.
Qed.

(** The fields a structure names do not occur among its unknown ones. *)
Definition keys_free (keys : list string) (extra : json_map) : Prop := Forall (fun k => extra !! k = None) keys.

Lemma without_flatten (fields : list (string * json)) extra :
  keys_free fields.*1 extra -> without fields.*1 (list_to_map fields ∪ extra) = extra.
Proof.
  intros H. apply map_eq. intros k. rewrite without_lookup. case_bool_decide as Hk.
  - symmetry. by eapply Forall_forall in H.
  - rewrite lookup_union_r; [done|]. by apply not_elem_of_list_to_map_1.
Qed.

Lemma flatten_field (fields : list (string * json)) (extra : json_map) k v :
  NoDup fields.*1 -> (k, v) ∈ fields -> (list_to_map fields ∪ extra : json_map) !! k = Some v.
Proof. intros Hn Hk. apply lookup_union_Some_l. by apply elem_of_list_to_map_1. Qed.

Ltac closed_nodup := cbn [fmap list_fmap fst]; apply (bool_decide_unpack _); vm_compute; exact I.
Ltac member := first [left; reflexivity | right; member].
(** Read the fields of a structure back, then its unknown ones. *)
Ltac read_fields :=
  repeat (erewrite flatten_field; [|closed_nodup|member]); cbn [field_or opt_then];
  rewrite ?strs_roundtrip; cbn [as_str as_bool as_array opt_then].

Lemma u8_roundtrip z : 0 <= z < 256 -> u8_of_json (jnum z) = Some z.
Proof. intros Hz. unfold u8_of_json, jnum, u_try_from. cbn. replace (in_u 8 z) with true by (unfold in_u; lia). done. Qed.

Lemma dns_roundtrip d : keys_free dns_keys d.(cd_extra) -> dns_of_json (dns_to_json d) = Some d.
Proof.
  destruct d as [enabled ip_list extra]. cbn [cd_extra]. intros H. unfold dns_of_json, dns_to_json, flatten.
  cbn [as_object opt_then cd_enabled cd_ip_list cd_extra]. read_fields.
  do 2 f_equal. by apply (without_flatten [("enabled", _); ("ip_list", _)]).
Qed.

Lemma split_config_roundtrip c : keys_free split_config_keys c.(st_extra) -> split_config_of_json (split_config_to_json c) = Some c.
Proof.
  destruct c as [mode apps ranges extra]. cbn [st_extra]. intros H. unfold split_config_of_json, split_config_to_json, flatten.
  cbn [as_object opt_then st_mode st_app_paths st_ip_ranges st_extra]. read_fields.
  do 2 f_equal. by apply (without_flatten [("mode", _); ("app_paths", _); ("ip_ranges", _)]).
Qed.

Lemma split_roundtrip s :
  keys_free split_keys s.(sts_extra) -> map_Forall (fun _ c => keys_free split_config_keys c.(st_extra)) s.(sts_config_by_mode) ->
  split_of_json (split_to_json s) = Some s.
Proof.
  destruct s as [enabled mode configs extra]. cbn [sts_extra sts_config_by_mode]. intros H Hc.
  unfold split_of_json, split_to_json, flatten. cbn [as_object opt_then sts_enabled sts_mode sts_config_by_mode sts_extra].
  read_fields. rewrite smap_roundtrip; [|intros k v Hv; apply split_config_roundtrip; exact (Hc k v Hv)]. cbn [opt_then].
  do 2 f_equal. by apply (without_flatten [("enabled", _); ("mode", _); ("config_by_mode", _)]).
Qed.

Lemma features_roundtrip f :
  0 <= f.(sf_netshield) < 256 -> keys_free features_keys f.(sf_extra) ->
  keys_free split_keys f.(sf_split_tunneling).(sts_extra) ->
  map_Forall (fun _ c => keys_free split_config_keys c.(st_extra)) f.(sf_split_tunneling).(sts_config_by_mode) ->
  features_of_json (features_to_json f) = Some f.
Proof.
  destruct f as [netshield nat acc pf split extra]. cbn [sf_netshield sf_extra sf_split_tunneling]. intros Hn H Hs Hc.
  unfold features_of_json, features_to_json, flatten.
  cbn [as_object opt_then sf_netshield sf_moderate_nat sf_vpn_accelerator sf_port_forwarding sf_split_tunneling sf_extra].
  read_fields. rewrite u8_roundtrip by done. cbn [opt_then]. rewrite split_roundtrip by done. cbn [opt_then].
  do 2 f_equal. by apply (without_flatten [("netshield", _); ("moderate_nat", _); ("vpn_accelerator", _); ("port_forwarding", _); ("split_tunneling", _)]).
Qed.

(** Settings as the program holds them: integers fit their type and a known field is never also an
    unknown one. *)
Record storable (s : NativeSettings) : Prop := mkStorable {
  so_killswitch : 0 <= s.(ns_killswitch) < 256;
  so_consent : 0 <= s.(ns_privacy_consent_version) < 256;
  so_netshield : 0 <= s.(ns_features).(sf_netshield) < 256;
  so_extra : keys_free settings_keys s.(ns_extra);
  so_dns : keys_free dns_keys s.(ns_custom_dns).(cd_extra);
  so_features : keys_free features_keys s.(ns_features).(sf_extra);
  so_split : keys_free split_keys s.(ns_features).(sf_split_tunneling).(sts_extra);
  so_configs : map_Forall (fun _ c => keys_free split_config_keys c.(st_extra))
                 s.(ns_features).(sf_split_tunneling).(sts_config_by_mode) }.

Lemma settings_roundtrip s : storable s -> settings_of_json (settings_to_json s) = Some s.
Proof.
  destruct s as [p k d i6 lk ar lan ld cr st cv f extra]. intros [H1 H2 H3 H4 H5 H6 H7 H8].
  cbn [ns_killswitch ns_privacy_consent_version ns_features ns_extra ns_custom_dns] in *.
  unfold settings_of_json, settings_to_json, flatten.
  cbn [as_object opt_then ns_protocol ns_killswitch ns_custom_dns ns_ipv6 ns_ipv6_leak_protection ns_alternative_routing
       ns_allow_lan_connections ns_allow_local_dns ns_anonymous_crash_reports ns_share_statistics
       ns_privacy_consent_version ns_features ns_extra].
  read_fields. rewrite !u8_roundtrip, dns_roundtrip, features_roundtrip by done. cbn [opt_then].
  do 2 f_equal.
  by apply (without_flatten [("protocol", _); ("killswitch", _); ("custom_dns", _); ("ipv6", _); ("ipv6_leak_protection", _);
    ("alternative_routing", _); ("allow_lan_connections", _); ("allow_local_dns", _); ("anonymous_crash_reports", _);
    ("share_statistics", _); ("privacy_consent_version", _); ("features", _)]).
Qed.

(** What is read satisfies it: every file that is accepted is kept when it is written again. *)
Lemma keys_free_without keys m : keys_free keys (without keys m).
Proof. apply Forall_forall. intros k Hk. rewrite without_lookup. by rewrite bool_decide_eq_true_2. Qed.

Lemma opt_then_Some {A B : Type} (o : option A) (k : A -> option B) b :
  opt_then o k = Some b <-> exists a, o = Some a /\ k a = Some b.
Proof. destruct o as [a|]; simpl; [|split; [discriminate|by intros (? & ? & _)]]. split; [by exists a|by intros (? & [= <-] & ?)]. Qed.

Ltac then_some H := repeat (apply opt_then_Some in H; let x := fresh "x" in let E := fresh "E" in destruct H as (x & E & H)).

Lemma field_or_u8 d j z : 0 <= d < 256 -> field_or d u8_of_json j = Some z -> 0 <= z < 256.
Proof.
  unfold field_or, u8_of_json, and_then. destruct j as [j|]; [|intros Hd [= <-]; exact Hd].
  destruct (as_u64 j) as [n|]; [|discriminate]. intros _ H. unfold u_try_from, in_u in H.
  destruct (_ && _) eqn:E; [|discriminate]. injection H as <-. bool_prop. lia.
Qed.

Lemma split_config_of_json_free j c : split_config_of_json j = Some c -> keys_free split_config_keys c.(st_extra).
Proof. unfold split_config_of_json. intros H. then_some H. apply (inj Some) in H as <-. apply keys_free_without. Qed.

Lemma smap_of_json_Forall {A : Type} (g : json -> option A) (P : A -> Prop) j m :
  (forall j a, g j = Some a -> P a) -> smap_of_json g j = Some m -> map_Forall (fun _ a => P a) m.
Proof.
  intros Hg H. unfold smap_of_json in H. destruct (as_object j) as [o|]; [|discriminate].
  destruct (opt_collect _ (map_to_list o)) as [l|] eqn:E; [|discriminate]. injection H as <-.
  apply opt_collect_Some in E. intros k a Hk. apply elem_of_list_to_map_2 in Hk.
  apply list_elem_of_lookup in Hk as [i Hi]. destruct (Forall2_lookup_r _ _ _ _ _ E Hi) as ([k' j'] & _ & Hj).
  simpl in Hj. destruct (g j') as [b|] eqn:Eg; [|discriminate]. injection Hj as _ <-. by eapply Hg.
Qed.

Lemma split_of_json_storable j s :
  split_of_json j = Some s ->
  keys_free split_keys s.(sts_extra) /\ map_Forall (fun _ c => keys_free split_config_keys c.(st_extra)) s.(sts_config_by_mode).
Proof.
  unfold split_of_json. intros H. then_some H. apply (inj Some) in H as <-. cbn [sts_extra sts_config_by_mode].
  split; [apply keys_free_without|]. destruct (_ !! "config_by_mode"); cbn [field_or] in *.
  - eapply smap_of_json_Forall; [|eassumption]. apply split_config_of_json_free.
  - match goal with HH : Some default_split_configs = Some _ |- _ => apply (inj Some) in HH as <- end.
    intros k c Hk. unfold default_split_configs in Hk.
    apply lookup_insert_Some in Hk as [[_ <-]|[_ Hk]]; [by repeat constructor|].
    apply lookup_singleton_Some in Hk as [_ <-]. by repeat constructor.
Qed.

Lemma default_split_storable : keys_free split_keys SplitTunnelingSettings_default.(sts_extra) /\
  map_Forall (fun _ c => keys_free split_config_keys c.(st_extra)) SplitTunnelingSettings_default.(sts_config_by_mode).
Proof. apply (split_of_json_storable (jobj [])). vm_compute. reflexivity. Qed.

Lemma features_of_json_storable j f :
  features_of_json j = Some f ->
  0 <= f.(sf_netshield) < 256 /\ keys_free features_keys f.(sf_extra) /\
  keys_free split_keys f.(sf_split_tunneling).(sts_extra) /\
  map_Forall (fun _ c => keys_free split_config_keys c.(st_extra)) f.(sf_split_tunneling).(sts_config_by_mode).
Proof.
  unfold features_of_json. intros H. then_some H. apply (inj Some) in H as <-. cbn [sf_netshield sf_extra sf_split_tunneling].
  split; [eapply field_or_u8; [|eassumption]; lia|]. split; [apply keys_free_without|].
  destruct (_ !! "split_tunneling"); cbn [field_or] in *; [by eapply split_of_json_storable|].
  match goal with HH : Some SplitTunnelingSettings_default = Some _ |- _ => apply (inj Some) in HH as <- end. apply default_split_storable.
Qed.

Lemma settings_of_json_storable j s : settings_of_json j = Some s -> storable s.
Proof.
  unfold settings_of_json. intros H. then_some H. apply (inj Some) in H as <-.
  assert (Hf : 0 <= x11.(sf_netshield) < 256 /\ keys_free features_keys x11.(sf_extra) /\
    keys_free split_keys x11.(sf_split_tunneling).(sts_extra) /\
    map_Forall (fun _ c => keys_free split_config_keys c.(st_extra)) x11.(sf_split_tunneling).(sts_config_by_mode)).
  { destruct (_ !! "features"); cbn [field_or] in *; [by eapply features_of_json_storable|].
    match goal with HH : Some SettingsFeatures_default = Some _ |- _ => apply (inj Some) in HH as <- end.
    destruct default_split_storable. split_and!; [done..|by repeat constructor|done|done]. }
  destruct Hf as (Hn & Hx & Hs & Hc).
  split; cbn [ns_killswitch ns_privacy_consent_version ns_features ns_extra ns_custom_dns];
    [eapply field_or_u8; [|eassumption]; lia..|exact Hn|apply keys_free_without| |exact Hx|exact Hs|exact Hc].
  destruct (_ !! "custom_dns") as [jd|]; cbn [field_or] in *.
  - match goal with HH : dns_of_json jd = Some _ |- _ => unfold dns_of_json in HH; then_some HH; apply (inj Some) in HH as <- end.
    apply keys_free_without.
  - match goal with HH : Some CustomDns_default = Some _ |- _ => apply (inj Some) in HH as <- end. by repeat constructor.
Qed.

(** ** Lemmas: addresses and paths *)
Lemma str_exists_mono (p q : ascii -> bool) s :
  (forall a, p a = true -> q a = true) -> str_exists q s = false -> str_exists p s = false.
Proof.
  intros Hpq. induction s as [|a s IH]; simpl; [done|]. intros [Ha Hs]%orb_false_iff.
  rewrite IH by done. destruct (p a) eqn:E; [|done]. by rewrite Hpq in Ha.
Qed.

Lemma bad_app_good v : bad_app v = false -> bad_value v = false.
Proof.
  unfold bad_app, bad_value. intros [H1 H2]%orb_false_iff. change MAX_PATH_BYTES with MAX_SPLIT_APP_PATH_BYTES. rewrite H2.
  unfold contains_char. eapply str_exists_mono; [|exact H1]. intros a Ha. apply Ascii.eqb_eq in Ha as <-. done.
Qed.

Section Addresses.
Context {L : IpLib}.

(** The canonical text of an address. *)
Definition address_text (s : string) : Prop := exists text a, addr_from_str text = Some a /\ s = addr_to_string a.

Lemma dns_servers_spec e1 e2 seen servers r :
  dns_servers e1 e2 seen servers = Ok r ->
  NoDup r /\ Forall (fun s => address_text s /\ s ∉ seen) r /\ (length r <= length servers)%nat /\
  (forall text, Str text ∈ servers -> is_empty (trim text) = false ->
     exists a, addr_from_str (trim text) = Some a /\ addr_to_string a ∈ seen ++ r).
Proof.
  revert seen r. induction servers as [|raw servers IH]; intros seen r H; cbn [dns_servers] in H.
  { apply Ok_inj in H as <-. split_and!; [constructor|constructor|done|]. intros t Ht. by apply elem_of_nil in Ht. }
  destruct raw as [| | |value| |]; cbn [as_str ok_or res_bind] in H; try discriminate.
  destruct (is_empty (trim value)) eqn:Ev.
  { apply IH in H as (H1 & H2 & H3 & H4). split_and!; [done|done|cbn [length]; lia|].
    intros text [Ht|Ht]%elem_of_cons Hn; [congruence|by apply H4]. }
  destruct (addr_from_str (trim value)) as [a|] eqn:Ea; cbn [ok_or res_bind] in H; [|discriminate].
  case_bool_decide as Hs.
  - apply IH in H as (H1 & H2 & H3 & H4). split_and!; [done|done|cbn [length]; lia|].
    intros text [Ht|Ht]%elem_of_cons Hn; [|by apply H4]. injection Ht as ->. exists a. split; [done|].
    apply elem_of_app. by left.
  - destruct (dns_servers e1 e2 _ servers) as [rest|] eqn:E; cbn [res_bind] in H; [|discriminate]. apply Ok_inj in H as <-.
    apply IH in E as (H1 & H2 & H3 & H4). split_and!.
    + constructor; [|done]. intros Hin. eapply Forall_forall in H2; [|exact Hin]. destruct H2 as [_ H2]. apply H2. left.
    + constructor; [split; [by exists (trim value), a|done]|]. eapply Forall_impl; [exact H2|]. intros s [Hx Hy].
      split; [done|]. intros Hin. apply Hy. by right.
    + cbn [length]. lia.
    + intros text [Ht|Ht]%elem_of_cons Hn.
      * injection Ht as ->. exists a. split; [done|]. apply elem_of_app. right. left.
      * destruct (H4 text Ht Hn) as (b & Hb & Hin). exists b. split; [done|].
        apply elem_of_app in Hin as [[->|Hin]%elem_of_cons|Hin]; apply elem_of_app;
          [right; left|by left|right; by right].
Qed.

(** A list of servers as [profile_custom_dns] and [dns.set] build it. *)
Definition servers_ok (l : list string) : Prop := NoDup l /\ Forall address_text l /\ (length l <= 16)%nat.

Lemma dns_servers_ok e1 e2 servers r :
  (16 <? vec_len servers) = false -> dns_servers e1 e2 [] servers = Ok r -> servers_ok r.
Proof.
  intros Hlen H. apply dns_servers_spec in H as (H1 & H2 & H3 & _). split_and!; [done| |].
  - eapply Forall_impl; [exact H2|]. by intros s [Hs _].
  - unfold vec_len in Hlen. lia.
Qed.

Lemma profile_custom_dns_ok value d :
  profile_custom_dns value = Ok (Some d) ->
  d = CustomDns_default \/ exists l, l <> [] /\ servers_ok l /\ d = mkCustomDns true (map dns_entry l) ∅.
Proof.
  unfold profile_custom_dns. destruct value as [value|]; [|discriminate].
  destruct (as_object value) as [object|]; [|discriminate]. cbn [ok_or res_bind].
  split_match; [discriminate|]. split_match; [intros [= <-]; by left|]. split_match; [discriminate|].
  intros H. peel H. split_match_in H; [discriminate|]. peel H.
  destruct a0 as [|ip r]; [discriminate|]. cbn in H. injection H as <-. right. exists (ip :: r).
  split_and!; [done| |done]. by eapply dns_servers_ok.
Qed.

Lemma split_apps_spec seen apps r :
  split_apps seen apps = Ok r ->
  NoDup r /\ Forall (fun s => (is_empty s = false /\ bad_value s = false) /\ s ∉ seen) r /\ (length r <= length apps)%nat.
Proof.
  revert seen r. induction apps as [|raw apps IH]; intros seen r H; cbn [split_apps] in H.
  { apply Ok_inj in H as <-. split_and!; [constructor|constructor|done]. }
  destruct raw as [| | |value| |]; cbn [as_str ok_or res_bind] in H; try discriminate.
  destruct (is_empty (trim value)) eqn:Ev; [apply IH in H as (H1 & H2 & H3); split_and!; [done|done|cbn [length]; lia]|].
  destruct (bad_app (trim value)) eqn:Eb; [discriminate|]. case_bool_decide as Hs;
    [apply IH in H as (H1 & H2 & H3); split_and!; [done|done|cbn [length]; lia]|].
  destruct (split_apps (_ :: seen) apps) as [rest|] eqn:E; cbn [res_bind] in H; [|discriminate]. apply Ok_inj in H as <-.
  apply IH in E as (H1 & H2 & H3). split_and!; [| |cbn [length]; lia].
  - constructor; [|done]. intros Hin. eapply Forall_forall in H2; [|exact Hin]. destruct H2 as [_ H2]. apply H2. left.
  - constructor; [split; [split; [done|by apply bad_app_good]|done]|]. eapply Forall_impl; [exact H2|]. intros s [Hx Hy].
    split; [done|]. intros Hin. apply Hy. by right.
Qed.

Context {LW : IpLaws L}.

Lemma agent_ip_range_canonical v s : agent_ip_range v = Ok s -> canonical s.
Proof.
  unfold agent_ip_range. destruct (match net_from_str v with Some n => Ok n | None => _ end) as [n|]; [|discriminate].
  cbn [res_map]. intros [= <-]. exists (net_trunc n). split; [done|apply net_trunc_trunc].
Qed.

Lemma split_ranges_spec seen ranges r :
  split_ranges seen ranges = Ok r ->
  NoDup r /\ Forall (fun s => canonical s /\ s ∉ seen) r /\ (length r <= length ranges)%nat.
Proof.
  revert seen r. induction ranges as [|raw ranges IH]; intros seen r H; cbn [split_ranges] in H.
  { apply Ok_inj in H as <-. split_and!; [constructor|constructor|done]. }
  destruct raw as [| | |value| |]; cbn [as_str ok_or res_bind] in H; try discriminate.
  destruct (is_empty (trim value)) eqn:Ev; [apply IH in H as (H1 & H2 & H3); split_and!; [done|done|cbn [length]; lia]|].
  destruct (agent_ip_range (trim value)) as [network|] eqn:En; cbn [res_bind] in H; [|discriminate].
  case_bool_decide as Hs; [apply IH in H as (H1 & H2 & H3); split_and!; [done|done|cbn [length]; lia]|].
  destruct (split_ranges (_ :: seen) ranges) as [rest|] eqn:E; cbn [res_bind] in H; [|discriminate]. apply Ok_inj in H as <-.
  apply IH in E as (H1 & H2 & H3). split_and!; [| |cbn [length]; lia].
  - constructor; [|done]. intros Hin. eapply Forall_forall in H2; [|exact Hin]. destruct H2 as [_ H2]. apply H2. left.
  - constructor; [split; [by eapply agent_ip_range_canonical|done]|]. eapply Forall_impl; [exact H2|]. intros s [Hx Hy].
    split; [done|]. intros Hin. apply Hy. by right.
Qed.

(** What the agent accepts for the desktop is what the daemon asks for. *)
Lemma split_request_valid params name mode previous c m :
  split_request_config params name mode previous = Ok c ->
  valid_config (mkSplitConfig m c.(st_app_paths) c.(st_ip_ranges)) /\ c.(st_mode) = mode /\ c.(st_extra) = previous.(st_extra).
Proof.
  unfold split_request_config. intros H. peel H. peel H. destruct (MAX_SPLIT_APPS <? _) eqn:Happs; [discriminate|].
  peel H. peel H. destruct (MAX_SPLIT_IP_RANGES <? _) eqn:Hranges; [discriminate|]. peel H. apply Ok_inj in H as <-.
  cbn [st_app_paths st_ip_ranges st_mode st_extra]. split; [|done].
  match goal with HH : split_apps _ _ = Ok _ |- _ => apply split_apps_spec in HH as (A1 & A2 & A3) end.
  match goal with HH : split_ranges _ _ = Ok _ |- _ => apply split_ranges_spec in HH as (B1 & B2 & B3) end.
  unfold vec_len, MAX_SPLIT_APPS, MAX_SPLIT_IP_RANGES in *. split; cbn [sc_app_paths sc_ip_ranges].
  - unfold vec_len, MAX_PATHS. lia.
  - done.
  - eapply Forall_impl; [exact A2|]. by intros s [Hs _].
  - split; [unfold vec_len, MAX_IP_RANGES; lia|done|]. eapply Forall_impl; [exact B2|]. by intros s [Hs _].
Qed.
End Addresses.

(** ** The settings of a connection *)

(** The settings Proton's servers accept together. *)
Definition compatible_settings (s : NativeSettings) : Prop :=
  s.(ns_features).(sf_netshield) <= 2 /\
  ~ (s.(ns_features).(sf_moderate_nat) = true /\ s.(ns_features).(sf_port_forwarding) = true) /\
  (0 < s.(ns_features).(sf_netshield) -> s.(ns_custom_dns).(cd_enabled) = false).

Lemma available_normalized `{Installed} p : available_protocol p = true -> normalized_protocol p = p.
Proof.
  unfold available_protocol. rewrite ?orb_true_iff, ?String.eqb_eq.
  destruct (String.eqb_spec p "protun-smart") as [->|]; [reflexivity|].
  destruct (String.eqb_spec p "protun-udp") as [->|]; [reflexivity|].
  destruct (String.eqb_spec p "protun-tcp") as [->|]; [reflexivity|].
  destruct (String.eqb_spec p "protun-tls") as [->|]; [reflexivity|]. cbn [orb].
  destruct (String.eqb_spec p "openvpn-udp") as [->|]; [reflexivity|].
  destruct (String.eqb_spec p "openvpn-tcp") as [->|]; [reflexivity|]. discriminate.
Qed.

(** The profile's choices laid over the global settings. *)
Definition overlaid (protocol : string) (level : Z) (nat_ pf : bool) (dns : CustomDns) (lan local : bool)
    (global : NativeSettings) : NativeSettings :=
  set_allow_local_dns local (set_allow_lan_connections lan (set_custom_dns dns
    (on_features (fun f => set_port_forwarding pf (set_moderate_nat nat_ (set_netshield level f)))
      (set_protocol protocol global)))).

(** The settings of a connection.  Without profile settings a connection runs with exactly the global settings.  With them, on
    success, it runs with the global settings in everything but protocol, NetShield, NAT, port forwarding, DNS
    and the two bypass policies -- the kill switch, IPv6 protection, telemetry and split tunnelling are never a
    profile's to change --, the result is a combination the servers accept, a free account gets none of the
    paid features, and custom DNS is inherited, switched off or a list of at most 16 distinct addresses.
    The protocol is always an installed one, in canonical form. *)
Theorem connection_settings_sound `{IpLib} `{Installed} params global tier s protocol applied :
  effective_connection_settings params global tier = Ok (s, protocol, applied) ->
  available_protocol protocol = true /\ normalized_protocol protocol = protocol /\
  (jget "profile_settings" params = None <-> applied = false) /\
  (applied = false -> s = global /\ protocol = normalized_protocol global.(ns_protocol)) /\
  (applied = true -> exists level nat_ pf dns lan local,
     s = overlaid protocol level nat_ pf dns lan local global /\ compatible_settings s /\
     (tier = 0 -> level = 0 /\ nat_ = false /\ pf = false) /\
     (dns = CustomDns_default \/ (exists l, l <> [] /\ servers_ok l /\ dns = mkCustomDns true (map dns_entry l) ∅) \/
      dns = global.(ns_custom_dns) \/ dns = mkCustomDns false global.(ns_custom_dns).(cd_ip_list) global.(ns_custom_dns).(cd_extra))).
Proof.
  unfold effective_connection_settings. destruct (jget "profile_settings" params) as [raw|].
  2: { destruct (available_protocol _) eqn:Ea; [|discriminate]. intros [= <- <- <-].
       split_and!; [done|by apply available_normalized|done|done|discriminate]. }
  intros Hok. peel Hok. destruct (available_protocol _) eqn:Ea in Hok; [|discriminate]. cbn [negb] in Hok.
  peel Hok. peel Hok. peel Hok. peel Hok. peel Hok. peel Hok. peel Hok.
  destruct (_ && _) eqn:Etier in Hok; [discriminate|]. destruct (_ && _) eqn:Enat in Hok; [discriminate|].
  destruct (_ && _) eqn:Edns in Hok; [discriminate|]. injection Hok as <- <- <-.
  split_and!; [exact Ea|by apply available_normalized|done|discriminate|intros _].
  match goal with HH : profile_custom_dns _ = Ok ?d |- _ => rename d into profile_dns; rename HH into Hdns end.
  match goal with HH : optional_profile_bool _ "netshield_enabled" _ = Ok ?d |- _ => rename d into shield end.
  match goal with HH : netshield_level_of _ = Ok ?d |- _ => rename d into level; rename HH into Hlevel end.
  match goal with HH : optional_profile_bool _ "moderate_nat" _ = Ok ?d |- _ => rename d into nat_ end.
  match goal with HH : optional_profile_bool _ "port_forwarding" _ = Ok ?d |- _ => rename d into pf end.
  match goal with HH : optional_profile_policy _ "allow_lan_connections" = Ok ?d |- _ => rename d into lan end.
  match goal with HH : optional_profile_policy _ "allow_local_dns" = Ok ?d |- _ => rename d into local end.
  destruct global as [p k d i6 lk ar gl gd cr st cv [ns nat0 acc pf0 split fx] x].
  set (inherited := if shield then mkCustomDns false d.(cd_ip_list) d.(cd_extra) else d).
  exists (if shield then level else 0), nat_, pf, (unwrap_or profile_dns inherited), (unwrap_or lan gl), (unwrap_or local gd).
  split; [by destruct profile_dns, shield, lan, local|]. split.
  - assert (Hl : level <= 2).
    { revert Hlevel. unfold netshield_level_of. destruct (_ !! "netshield_level"); [|intros [= <-]; done].
      unfold opt_filter. destruct (as_u64 _) as [n|]; [|discriminate]. simpl. destruct (Z.leb_spec n 2); [|discriminate].
      intros [= <-]. done. }
    destruct profile_dns, shield, lan, local; split; simpl in *; try lia; split; try (intros [-> ->]; discriminate); try lia;
      intros _; done.
  - split.
    + intros ->. by destruct shield, nat_, pf.
    + destruct profile_dns as [dns|]; cbn [unwrap_or default].
      * apply profile_custom_dns_ok in Hdns as [->|Hdns]; [by left|by right; left].
      * right; right. unfold inherited. destruct shield; cbn [ns_custom_dns]; [by right|by left].
Qed.

(** What the agent accepts for split tunnelling, the privileged daemon accepts unchanged: same mode, paths and ranges; only the
    other fields of the stored configuration are kept from before. *)
Theorem agent_config_accepted {L : IpLib} {LW : IpLaws L} params name mode previous c m :
  split_request_config params name mode previous = Ok c ->
  validate (mkSplitConfig m c.(st_app_paths) c.(st_ip_ranges)) = Ok (mkSplitConfig m c.(st_app_paths) c.(st_ip_ranges)) /\
  c.(st_mode) = mode /\ c.(st_extra) = previous.(st_extra).
Proof.
  intros H. destruct (split_request_valid _ _ _ _ _ m H) as (Hv & Hm & Hx). split; [by apply validate_fixed|done].
Qed.

(** Settings survive a restart: what the program holds is read back from its JSON form, unknown fields of other versions
    included, and whatever file is accepted is held, and so written, without loss. *)
Theorem settings_file_roundtrip :
  (forall s, storable s -> settings_of_json (settings_to_json s) = Some s) /\
  (forall j s, settings_of_json j = Some s -> storable s /\ settings_of_json (settings_to_json s) = Some s).
Proof.
  split; [exact settings_roundtrip|]. intros j s H. apply settings_of_json_storable in H. split; [done|by apply settings_roundtrip].
Qed.


(** One branch of [change_feature] in which nothing remains but its equations. *)
Ltac plain H := peel_all H; subst; cbn; auto.

(** [feature.set] keeps the settings compatible. *)
Lemma change_feature_compatible feature params tier s s' :
  compatible_settings s -> change_feature feature params tier s = Ok s' -> compatible_settings s'.
Proof.
  intros (H1 & H2 & H3) H. unfold change_feature in H.
  destruct s as [p k d i6 lk ar gl gd cr st cv [ns nat0 acc pf0 split fx] x]. unfold compatible_settings in *.
  cbn [ns_features sf_netshield sf_moderate_nat sf_port_forwarding ns_custom_dns] in *.
  split_match_in H; [discriminate|]. split_match_in H; [plain H|]. split_match_in H; [plain H|].
  split_match_in H.
  { peel H. peel H. destruct (_ && _) eqn:Ec in H; [discriminate|]. apply Ok_inj in H as <-. cbn.
    match goal with HH : netshield_request _ = Ok ?l |- _ => rename l into level; rename HH into Hl end.
    unfold netshield_request in Hl. peel Hl. destruct (2 <? _) eqn:E2 in Hl; [discriminate|]. apply Ok_inj in Hl as <-.
    split_and!; [lia|done|]. intros Hpos. by apply andb_false_iff in Ec as [Ec|Ec]; [lia|]. }
  split_match_in H; [plain H|].
  split_match_in H.
  { peel H. peel H. destruct (_ && _) eqn:Ec in H; [discriminate|]. apply Ok_inj in H as <-. cbn.
    split_and!; [done| |done]. intros [-> ->]. discriminate. }
  do 5 (split_match_in H; [plain H|]).
  split_match_in H; [|discriminate].
  peel H. peel H. destruct (_ && _) eqn:Ec in H; [discriminate|]. apply Ok_inj in H as <-. cbn.
  split_and!; [done| |done]. intros [-> ->]. discriminate.
Qed.

(** [dns.set] does not: it switches custom DNS on whatever NetShield's level is, the combination that
    [feature.set] refuses to create from the other side. *)
Lemma dns_request_ignores_netshield `{IpLib} params request s :
  dns_request params = Ok request -> request.1 = true -> 0 < s.(ns_features).(sf_netshield) ->
  ~ compatible_settings (dns_settings request s).
Proof.
  intros _ Hr Hs (_ & _ & H3). destruct s as [p k d i6 lk ar gl gd cr st cv f x]. unfold dns_settings, set_custom_dns in H3.
  cbn in *. rewrite H3 in Hr; [discriminate|done].
Qed.

(** ** The tunnel's gateway is never bypassed *)

(** The addresses of a range written [a.b.c.d/n], as an interval of 32-bit numbers. *)
Definition ipv4_interval (range : string) : option (Z * Z) :=
  match split_char "/" range with
  | [address; prefix] =>
      match map (parse_uint 8) (split_char "." address), parse_uint 8 prefix with
      | [Some a; Some b; Some c; Some d], Some n =>
          let base := ((a * 256 + b) * 256 + c) * 256 + d in
          Some (base / 2 ^ (32 - n) * 2 ^ (32 - n), base / 2 ^ (32 - n) * 2 ^ (32 - n) + 2 ^ (32 - n))
      | _, _ => None
      end
  | _ => None
  end.
Definition ipv4_bypassed (address : Z) (ranges : list string) : bool :=
  existsb (fun range => match ipv4_interval range with
                        | Some (low, high) => (low <=? address) && (address <? high)
                        | None => false
                        end) ranges.

(** 10.2.0.1. *)
Definition TUNNEL_GATEWAY : Z := 0x0A020001.

Lemma filter_map_elem {A B : Type} (f : A -> option B) l y : y ∈ filter_map f l <-> exists x, x ∈ l /\ f x = Some y.
Proof.
  induction l as [|x l IH]; cbn [filter_map].
  - split; [intros H; by apply elem_of_nil in H|intros (x & H & _); by apply elem_of_nil in H].
  - destruct (f x) as [z|] eqn:E; rewrite ?elem_of_cons, IH; split.
    + intros [->|(x' & Hx & Hf)]; [exists x; split; [by left|done]|exists x'; split; [by right|done]].
    + intros (x' & [->|Hx]%elem_of_cons & Hf); [left; congruence|right; by exists x'].
    + intros (x' & Hx & Hf). exists x'. split; [by right|done].
    + intros (x' & [->|Hx]%elem_of_cons & Hf); [congruence|by exists x'].
Qed.

(** The address lies in the interval; or it does, unless it lies above. *)
Ltac within low high := exists (low, high); split; [apply (bool_decide_unpack _); vm_compute; exact I|simpl; lia].
Ltac below address low high := destruct (Z.lt_ge_cases address high); [within low high|].

(** Allowing LAN connections lets exactly the private and link-local IPv4 addresses past the tunnel (10/8, 172.16/12, 192.168/16,
    169.254/16), except the one address that must stay inside: the gateway 10.2.0.1, where the session's control channel answers. *)
Theorem lan_bypass_spares_gateway (address : Z) :
  0 <= address < 2 ^ 32 ->
  ipv4_bypassed address LAN_BYPASS_RANGES = true <->
  address <> TUNNEL_GATEWAY /\
  (address / 2 ^ 24 = 10 \/ address / 2 ^ 20 = 172 * 16 + 1 \/ address / 2 ^ 16 = 192 * 256 + 168 \/
   address / 2 ^ 16 = 169 * 256 + 254).
Proof.
  intros Ha. unfold ipv4_bypassed. rewrite existsb_exists.
  assert (Hd : forall n q, 0 <= n -> address / 2 ^ n = q <-> q * 2 ^ n <= address < (q + 1) * 2 ^ n).
  { intros n q Hn. assert (0 < 2 ^ n) by (apply Z.pow_pos_nonneg; lia). pose proof (Z.div_mod address (2 ^ n)).
    pose proof (Z.mod_pos_bound address (2 ^ n)). split; [intros <-; nia|]. intros [? ?]. nia. }
  rewrite !Hd by lia. unfold TUNNEL_GATEWAY.
  set (bounds := filter_map ipv4_interval LAN_BYPASS_RANGES).
  assert (Hb : bounds = ltac:(let b := eval vm_compute in (filter_map ipv4_interval LAN_BYPASS_RANGES) in exact b))
    by (vm_compute; reflexivity).
  transitivity (exists b, b ∈ bounds /\ b.1 <= address < b.2).
  - unfold bounds. split.
    + intros (range & Hin & Hr). destruct (ipv4_interval range) as [[low high]|] eqn:E; [|discriminate].
      exists (low, high). split; [|simpl; lia]. apply filter_map_elem. exists range. split; [by apply list_elem_of_In|done].
    + intros ([low high] & (range & Hin & E)%filter_map_elem & Hr). exists range. split; [by apply list_elem_of_In|].
      rewrite E. simpl in Hr. lia.
  - rewrite Hb. clear Hb bounds Hd. split.
    + intros ([low high] & Hin & Hr). rewrite !elem_of_cons in Hin. simpl in Hr.
      repeat (destruct Hin as [[= -> ->]|Hin]; [lia|]). by apply elem_of_nil in Hin.
    + intros [Hne [H|[H|[H|H]]]].
      * below address 167772160 167903232.
        below address 167903232 167903233.
        below address 167903234 167903236.
        below address 167903236 167903240.
        below address 167903240 167903248.
        below address 167903248 167903264.
        below address 167903264 167903296.
        below address 167903296 167903360.
        below address 167903360 167903488.
        below address 167903488 167903744.
        below address 167903744 167904256.
        below address 167904256 167905280.
        below address 167905280 167907328.
        below address 167907328 167911424.
        below address 167911424 167919616.
        below address 167919616 167936000.
        below address 167936000 167968768.
        below address 167968768 168034304.
        below address 168034304 168296448.
        below address 168296448 168820736.
        below address 168820736 169869312.
        below address 169869312 171966464.
        below address 171966464 176160768.
        within 176160768 184549376.
      * within 2886729728 2887778304.
      * within 3232235520 3232301056.
      * within 2851995648 2852061184.
Qed.

(** ** Witnesses *)
Definition example_installed : Installed := mkInstalled true false.

Lemma connection_settings_sound_witness :
  let params := jobj [("profile_settings", jobj [("protocol", Str "WireGuard-TCP "); ("netshield_enabled", Bool false);
    ("port_forwarding", Bool true); ("custom_dns", jobj [("mode", Str "custom"); ("servers", Arr [Str " 192.0.2.1"; Str "192.0.2.1"])])])] in
  exists s, @effective_connection_settings example_lib example_installed params NativeSettings_default 2 = Ok (s, "protun-tcp", true) /\
    compatible_settings s /\ s.(ns_custom_dns).(cd_ip_list) = [dns_entry "192.0.2.1"] /\
    s.(ns_killswitch) = NativeSettings_default.(ns_killswitch).
Proof.
  intros params. eexists. split; [vm_compute; reflexivity|]. split.
  - assert (H : @effective_connection_settings example_lib example_installed params NativeSettings_default 2 =
      Ok (overlaid "protun-tcp" 0 false true (mkCustomDns true [dns_entry "192.0.2.1"] ∅) false false NativeSettings_default, "protun-tcp", true))
      by (vm_compute; reflexivity).
    apply connection_settings_sound in H as (_ & _ & _ & _ & H). destruct (H eq_refl) as (? & ? & ? & ? & ? & ? & _ & Hc & _).
    exact Hc.
  - split; vm_compute; reflexivity.
Defined.

Lemma agent_config_accepted_witness :
  let params := jobj [("standard", jobj [("app_paths", Arr [Str " /usr/bin/firefox"; Str "/usr/bin/firefox"]);
    ("ip_ranges", Arr [Str "192.0.2.42/24"; Str "192.0.2.1"])])] in
  let c := mkSplitTunnelingConfig "exclude" ["/usr/bin/firefox"] ["192.0.2.0/24"] ∅ in
  @split_request_config example_lib params "standard" "exclude" (SplitTunnelingConfig_new "exclude") = Ok c /\
  @validate example_lib (mkSplitConfig Exclude ["/usr/bin/firefox"] ["192.0.2.0/24"]) =
    Ok (mkSplitConfig Exclude ["/usr/bin/firefox"] ["192.0.2.0/24"]).
Proof.
  intros params c. assert (H : @split_request_config example_lib params "standard" "exclude" (SplitTunnelingConfig_new "exclude") = Ok c)
    by (vm_compute; reflexivity).
  split; [exact H|]. exact (proj1 (@agent_config_accepted example_lib example_laws _ _ _ _ _ Exclude H)).
Defined.

Lemma settings_file_roundtrip_witness :
  let j := jobj [("killswitch", jnum 2); ("FutureSetting", jobj [("enabled", Bool true)]); ("features", jobj [("netshield", jnum 1)])] in
  match settings_of_json j with
  | Some s => s.(ns_killswitch) = 2 /\ s.(ns_extra) !! "FutureSetting" = Some (jobj [("enabled", Bool true)]) /\
              storable s /\ settings_of_json (settings_to_json s) = Some s
  | None => False
  end.
Proof.
  intros j. destruct (settings_of_json j) as [s|] eqn:E; [|vm_compute in E; discriminate].
  assert (Hs : Some (s.(ns_killswitch), s.(ns_extra) !! "FutureSetting") = Some (2, Some (jobj [("enabled", Bool true)]))).
  { change (option_map (fun s => (s.(ns_killswitch), s.(ns_extra) !! "FutureSetting")) (Some s) = Some (2, Some (jobj [("enabled", Bool true)]))).
    rewrite <- E. vm_compute. reflexivity. }
  injection Hs as H1 H2. split; [exact H1|]. split; [exact H2|]. exact (proj2 settings_file_roundtrip j s E).
Defined.

Lemma lan_bypass_spares_gateway_witness :
  ipv4_bypassed TUNNEL_GATEWAY LAN_BYPASS_RANGES = false /\ ipv4_bypassed (TUNNEL_GATEWAY + 1) LAN_BYPASS_RANGES = true.
Proof.
  split; [reflexivity|]. apply (proj2 (lan_bypass_spares_gateway (TUNNEL_GATEWAY + 1) ltac:(vm_compute; split; congruence))).
  split; [discriminate|left; reflexivity].
Defined.

Example kill_switch_names_round_trip : map (fun mode => kill_switch_value (kill_switch_name mode)) [0; 1; 2] = [Some 0; Some 1; Some 2].
Proof. reflexivity. Qed.
