(* ===== verification/NetSettings.v ===== *)
(** NetworkManager connection settings in [agent/src/native_backend/network.rs]: the profiles the agent
    builds for a tunnel, the settings it hands to NetworkManager for them and for the kill switch, and
    what it reads back from the settings of a connection.

    Settings are maps of maps of D-Bus variants.  Cryptography and random values are parameters; so is
    the user's name and id.  Serialized JSON is [json_compact] and [json_parse]. *)
From S2P Require Export Catalog NativeSettings RustStr.
Open Scope string_scope.
Open Scope Z_scope.
Open Scope list_scope.
Open Scope rust_scope.

(** ** The session and the client configuration ([models.rs]) *)
Record VpnCertificate : Type := mkVpnCertificate {
  vc_certificate : string;
  vc_client_key : string;
  vc_client_key_fingerprint : string;
  vc_expiration_time : Z;
  vc_refresh_time : Z;
  vc_server_public_key : string;
  vc_server_public_key_mode : string;
  vc_extra : json_map }.

Record VpnLocation : Type := mkVpnLocation {
  vl_ip : string;
  vl_country : string;
  vl_isp : string;
  vl_lat : option SpecFloat.spec_float;
  vl_long : option SpecFloat.spec_float }.

Record VpnSessionData : Type := mkVpnSessionData {
  vs_vpninfo : json;
  vs_certificate : VpnCertificate;
  vs_ed25519_privatekey : string;
  vs_location : VpnLocation }.

Record SessionData : Type := mkSessionData {
  sd_uid : string;
  sd_access_token : string;
  sd_refresh_token : string;
  sd_scopes : list string;
  sd_account_name : string;
  sd_credentialless : bool;
  sd_environment : string;
  sd_vpn : VpnSessionData;
  sd_extra : json_map }.

Definition is_authenticated (s : SessionData) : bool :=
  negb (is_empty s.(sd_uid)) && negb (is_empty s.(sd_access_token)) && negb (is_empty s.(sd_refresh_token))
  && negb (is_empty s.(sd_account_name)).
Definition session_tier (s : SessionData) : Z :=
  unwrap_or (jget "VPN" s.(sd_vpn).(vs_vpninfo) ?> as_object ?> (fun vpn => vpn !! "MaxTier") ?> as_u64 ?> u_try_from 8) 0.

Record ProtocolPorts : Type := mkProtocolPorts { pp_udp : list Z; pp_tcp : list Z; pp_tls : list Z }.
Record ClientConfig : Type := mkClientConfig {
  cc_wire_guard : ProtocolPorts;
  cc_open_vpn : ProtocolPorts;
  cc_smart_protocol : json;
  cc_extra : json_map }.

(** ** Variants and settings *)
Inductive variant : Type :=
  | VStr (s : string)
  | VBool (b : bool)
  | VInt (z : Z)
  | VStrs (l : list string)
  | VAddresses (l : list (string * Z))
  | VDict (m : gmap string string).

Abbreviation PropMap := (gmap string variant).
Abbreviation nm_settings := (gmap string PropMap).

Definition variant_str (v : variant) : option string := match v with VStr s => Some s | _ => None end.
Definition variant_dict (v : variant) : option (gmap string string) := match v with VDict m => Some m | _ => None end.
Definition props (l : list (string * variant)) : PropMap := list_to_map (rev l).

Definition PROTUN_SERVICE : string := "org.freedesktop.NetworkManager.protun".
Definition OPENVPN_SERVICE : string := "org.freedesktop.NetworkManager.openvpn".
Definition PROTUN_INTERFACE : string := "proton0".
Definition PROTON_OMARCHY_OWNER_KEY : string := "proton-omarchy-owner".
Definition PROTON_OMARCHY_OWNER_VALUE : string := "rust-v2".
Definition PROTON_OMARCHY_PROFILE_ID_KEY : string := "proton-omarchy-profile-id".
Definition GUEST_HOLE_PURPOSE : string := "proton-omarchy-guest-hole".
Definition PROTON_OMARCHY_STABLE_ID : string := "proton-omarchy-rust-v2".
Definition IPV6_LEAK_CONNECTION_ID : string := "pvpn-killswitch-ipv6".
Definition IPV6_LEAK_INTERFACE : string := "ipv6leakintrf0".
Definition KILL_SWITCH_CONNECTION_ID : string := "pvpn-killswitch".
Definition KILL_SWITCH_PERMANENT_CONNECTION_ID : string := "pvpn-killswitch-perm".
Definition KILL_SWITCH_INTERFACE : string := "pvpnksintrf0".
Definition KILL_SWITCH_PERMANENT_INTERFACE : string := "pvpnksintrf1".

(** ** Profiles *)
Record ProtunProfile : Type := mkProtunProfile {
  pt_id : string;
  pt_uuid : string;
  pt_protocol : string;
  pt_profile_id : option string;
  pt_settings_json : string;
  pt_private_key : string;
  pt_enable_ipv6 : bool;
  pt_custom_dns_v4 : list string;
  pt_custom_dns_v6 : list string;
  pt_guest_interface : option string }.

Record OpenVpnProfile : Type := mkOpenVpnProfile {
  ov_id : string;
  ov_uuid : string;
  ov_protocol : string;
  ov_profile_id : option string;
  ov_remote : string;
  ov_domain : string;
  ov_passphrase : string;
  ov_credential_dir : string;
  ov_enable_ipv6 : bool;
  ov_custom_dns_v4 : list string;
  ov_custom_dns_v6 : list string }.

Inductive VpnProfile : Type :=
  | Protun (p : ProtunProfile)
  | OpenVpn (p : OpenVpnProfile).

Definition profile_id_of (p : VpnProfile) : string := match p with Protun p => p.(pt_id) | OpenVpn p => p.(ov_id) end.
Definition profile_uuid (p : VpnProfile) : string := match p with Protun p => p.(pt_uuid) | OpenVpn p => p.(ov_uuid) end.
Definition profile_protocol_of (p : VpnProfile) : string :=
  match p with Protun p => p.(pt_protocol) | OpenVpn p => p.(ov_protocol) end.
Definition profile_store (p : VpnProfile) : option string :=
  match p with Protun p => p.(pt_profile_id) | OpenVpn p => p.(ov_profile_id) end.

Definition normalize_protocol (protocol : string) : string :=
  let named name := String.eqb protocol name in
  if named "smart" then "protun-smart"
  else if named "wireguard" || named "wireguard-udp" then "protun-udp"
  else if named "wireguard-tcp" then "protun-tcp"
  else if named "wireguard-tls" || named "stealth" then "protun-tls"
  else protocol.

(** [replace(',', r"\,")] and the removal of every backslash. *)
Definition backslash : ascii := "092".
Fixpoint escape_commas (s : string) : string :=
  match s with
  | "" => ""
  | String a s => if Ascii.eqb a "," then String backslash (String "," (escape_commas s)) else String a (escape_commas s)
  end.
Fixpoint remove_backslashes (s : string) : string :=
  match s with
  | "" => ""
  | String a s => if Ascii.eqb a backslash then remove_backslashes s else String a (remove_backslashes s)
  end.

Class ProfileCrypto : Type := mkProfileCrypto {
  base64_encode : list Z -> string;
  sha512 : list Z -> list Z;
  (** [encrypted_openvpn_private_key]: the encrypted PEM of a seed under a passphrase. *)
  encrypted_openvpn_private_key : string -> string -> NativeResult string }.

Section Profiles.
Context {L : IpLib} {C : ServerCrypto} {J : JsonText} {P : ProfileCrypto}.

Definition dns_entry_of (entry : json) : bool * string :=
  match entry with
  | Str s => (true, s)
  | Obj o => (unwrap_or (get_bool o "enabled") true, unwrap_or (or_else (o !! "ip") (o !! "address") ?> as_str) "")
  | _ => (false, "")
  end.
Fixpoint enabled_dns (entries : list json) : list string * list string :=
  match entries with
  | [] => ([], [])
  | entry :: entries =>
      let '(v4, v6) := enabled_dns entries in
      let '(enabled, value) := dns_entry_of entry in
      if negb enabled || is_empty value then (v4, v6)
      else
        match addr_from_str value with
        | Some (IpV4 _) => (value :: v4, v6)
        | Some (IpV6 _) => (v4, value :: v6)
        | None => (v4, v6)
        end
  end.
Definition custom_dns_of (s : NativeSettings) : list string * list string :=
  if s.(ns_custom_dns).(cd_enabled) then enabled_dns s.(ns_custom_dns).(cd_ip_list) else ([], []).

Definition vpn_credentials_invalid (message : string) : NativeError := NativeError_new "vpn_credentials_invalid" message.

Definition clamp (digest : list Z) : list Z :=
  alter (fun b => Z.lor (Z.land b 127) 64) 31%nat (alter (fun b => Z.land b 248) 0%nat (take 32 digest)).
Definition wireguard_private_key (ed25519_seed_b64 : string) : NativeResult string :=
  let? seed := ok_or (base64_decode ed25519_seed_b64)
                 (ne_with_source (base64_refusal ed25519_seed_b64)
                    (vpn_credentials_invalid "The stored Proton VPN private key is not valid base64")) in
  if negb (str_len seed =? 32)
  then Err (vpn_credentials_invalid "The stored Proton VPN private key has an invalid length")
  else Ok (base64_encode (clamp (sha512 (as_bytes seed)))).

Definition peer_json (name endpoint public_key : string) (udp tcp tls : list Z) : json :=
  jobj [("id", Str name); ("endpoint", Str endpoint); ("public-key", Str public_key); ("udp-ports", Arr (map jnum udp));
        ("tcp-ports", Arr (map jnum tcp)); ("tls-ports", Arr (map jnum tls)); ("priority", jnum 0)].
Definition protun_json (peer : json) : json :=
  jobj [("version", jnum 1); ("peers", Arr [peer]); ("pcap-file", Null)].

Definition no_ports (message : string) : NativeError := NativeError_new "protocol_unavailable" message.

(** The ports of each transport for a protocol. *)
Definition protun_ports (protocol : string) (ports : ProtocolPorts) : option (list Z * list Z * list Z) :=
  let named name := String.eqb protocol name in
  if named "protun-smart" || named "smart" then Some (ports.(pp_udp), ports.(pp_tcp), ports.(pp_tls))
  else if named "wireguard" || named "wireguard-udp" || named "protun-udp" then Some (ports.(pp_udp), [], [])
  else if named "protun-tcp" || named "wireguard-tcp" then Some ([], ports.(pp_tcp), [])
  else if named "protun-tls" || named "wireguard-tls" || named "stealth" then Some ([], [], ports.(pp_tls))
  else None.

Definition ipv6_wanted (settings : NativeSettings) (target : ConnectionTarget) : bool :=
  settings.(ns_ipv6) && has_feature FEATURE_IPV6 target.(tg_logical).

Definition ProtunProfile_new (uuid : string) (target : ConnectionTarget) (protocol : string) (session : SessionData)
    (config : ClientConfig) (settings : NativeSettings) (profile_id : option string) : NativeResult ProtunProfile :=
  let? _ := validate_server target.(tg_physical) in
  let? '(udp, tcp, tls) := ok_or (protun_ports protocol config.(cc_wire_guard))
    (no_ports ("The Rust backend cannot create a ProTun profile for " +:+ protocol)) in
  if match udp, tcp, tls with [], [], [] => true | _, _, _ => false end
  then Err (no_ports "The Proton client configuration provides no ports for this protocol")
  else
    let peer := peer_json target.(tg_logical).(ls_name) target.(tg_physical).(ph_entry_ip)
                  target.(tg_physical).(ph_x25519_public_key) udp tcp tls in
    let? private_key := wireguard_private_key session.(sd_vpn).(vs_ed25519_privatekey) in
    let '(v4, v6) := custom_dns_of settings in
    Ok (mkProtunProfile ("ProtonVPN " +:+ target.(tg_logical).(ls_name)) uuid (normalize_protocol protocol) profile_id
          (escape_commas (json_compact (protun_json peer))) private_key (ipv6_wanted settings target) v4 v6 None).

(** The guest-hole profile; [key] is random. *)
Definition ProtunProfile_guest (uuid : string) (key : list Z) (uid : Z) (name ip public_key : string) : ProtunProfile :=
  mkProtunProfile "ProtonVPN Guest Hole" uuid "protun-tls" None
    (escape_commas (json_compact (protun_json (peer_json name ip public_key [] [] [443])))) (base64_encode key) false [] []
    (Some ("pvgh" +:+ dec uid)).

Definition HEX (d : Z) : ascii := hex_digit d.
Definition hex_encode (bytes : list Z) : string :=
  foldr (fun b s => String (HEX (Z.shiftr b 4)) (String (HEX (Z.land b 0x0f)) s)) "" bytes.

(** What [OpenVpnProfile::new] checks and computes before it creates the credentials: the protocol, its
    ports, the passphrase and the encrypted key. *)
Definition openvpn_inputs (random : list Z) (target : ConnectionTarget) (protocol : string) (session : SessionData)
    (config : ClientConfig) : NativeResult (string * list Z * string * string) :=
  let? _ := validate_server target.(tg_physical) in
  let protocol := normalize_protocol protocol in
  let? ports :=
    (if String.eqb protocol "openvpn-udp" then Ok config.(cc_open_vpn).(pp_udp)
     else if String.eqb protocol "openvpn-tcp" then Ok config.(cc_open_vpn).(pp_tcp)
     else Err (no_ports ("The Rust backend cannot create an OpenVPN profile for " +:+ protocol))) in
  if match ports with [] => true | _ => false end
  then Err (no_ports "The Proton client configuration provides no ports for this OpenVPN protocol")
  else if is_empty (trim target.(tg_logical).(ls_domain))
  then Err (NativeError_new "server_invalid" "The selected Proton server has no certificate domain")
  else if negb (str_contains "-----BEGIN CERTIFICATE-----" session.(sd_vpn).(vs_certificate).(vc_certificate))
  then Err (vpn_credentials_invalid "The stored Proton VPN certificate is missing or invalid")
  else
    let passphrase := hex_encode random in
    let? private_key := encrypted_openvpn_private_key session.(sd_vpn).(vs_ed25519_privatekey) passphrase in
    Ok (protocol, ports, passphrase, private_key).

(** [credentials] is the outcome of creating the credential directory and its four files; a failure
    after the directory exists removes it, as does the source. *)
Definition OpenVpnProfile_new (uuid : string) (random : list Z) (credentials : string -> NativeResult string)
    (target : ConnectionTarget) (protocol : string) (session : SessionData) (config : ClientConfig)
    (settings : NativeSettings) (profile_id : option string) : NativeResult OpenVpnProfile :=
  let? '(protocol, ports, passphrase, private_key) := openvpn_inputs random target protocol session config in
  let? directory := credentials private_key in
  let remote := join ", " (map (fun port => target.(tg_physical).(ph_entry_ip) +:+ ":" +:+ dec port) ports) in
  let '(v4, v6) := custom_dns_of settings in
  Ok (mkOpenVpnProfile ("ProtonVPN " +:+ target.(tg_logical).(ls_name)) uuid protocol profile_id remote
        target.(tg_logical).(ls_domain) passphrase directory (ipv6_wanted settings target) v4 v6).

Definition is_openvpn (protocol : string) : bool :=
  String.eqb (normalize_protocol protocol) "openvpn-udp" || String.eqb (normalize_protocol protocol) "openvpn-tcp".
Definition VpnProfile_new (uuid : string) (random : list Z) (credentials : string -> NativeResult string)
    (target : ConnectionTarget) (protocol : string) (session : SessionData) (config : ClientConfig)
    (settings : NativeSettings) (profile_id : option string) : NativeResult VpnProfile :=
  if is_openvpn protocol
  then res_map OpenVpn (OpenVpnProfile_new uuid random credentials target protocol session config settings profile_id)
  else res_map Protun (ProtunProfile_new uuid target protocol session config settings profile_id).
End Profiles.

(** ** Settings handed to NetworkManager

    [prop] inserts: a repeated name keeps its last value. *)
Section Build.
Context (username : string) (uid : Z).

Definition permissions : variant := VStrs ["user:" +:+ username +:+ ":"].

Definition protun_connection (p : ProtunProfile) : PropMap :=
  props ([("id", VStr p.(pt_id)); ("uuid", VStr p.(pt_uuid)); ("type", VStr "vpn"); ("llmnr", VInt 0);
          ("stable-id", VStr PROTON_OMARCHY_STABLE_ID);
          ("interface-name", VStr (unwrap_or p.(pt_guest_interface) PROTUN_INTERFACE)); ("permissions", permissions)]
         ++ match p.(pt_guest_interface) with Some _ => [("autoconnect", VBool false)] | None => [] end).

Definition protun_dns (custom : list string) (gateway : string) : list (string * variant) :=
  match custom with
  | [] => [("dns-data", VStrs [gateway]); ("dns-search", VStrs ["~"])]
  | _ => [("dns-data", VStrs custom)]
  end.

Definition protun_ipv4 (p : ProtunProfile) : PropMap :=
  props ([("method", VStr "manual"); ("address-data", VAddresses [("10.2.0.2", 32)]); ("auto-route-ext-gw", VInt 0);
          ("dns-priority", VInt (-1500)); ("ignore-auto-dns", VBool true)] ++ protun_dns p.(pt_custom_dns_v4) "10.2.0.1").
Definition protun_ipv6 (p : ProtunProfile) : PropMap :=
  if p.(pt_enable_ipv6)
  then props ([("method", VStr "manual"); ("address-data", VAddresses [("2a07:b944::2:2", 128)]); ("auto-route-ext-gw", VInt 0);
               ("dns-priority", VInt (-1500)); ("ignore-auto-dns", VBool true)] ++ protun_dns p.(pt_custom_dns_v6) "2a07:b944::2:1")
  else props [("method", VStr "disabled")].

Definition store_id_entry (profile_id : option string) (data : gmap string string) : gmap string string :=
  match profile_id with Some id => <[PROTON_OMARCHY_PROFILE_ID_KEY := id]> data | None => data end.

Definition protun_data (p : ProtunProfile) : gmap string string :=
  let data := {["settings" := p.(pt_settings_json); "private-key-flags" := "0";
                PROTON_OMARCHY_OWNER_KEY := PROTON_OMARCHY_OWNER_VALUE]} : gmap string string in
  let data := store_id_entry p.(pt_profile_id) data in
  match p.(pt_guest_interface) with Some _ => <[GUEST_HOLE_PURPOSE := dec uid]> data | None => data end.

Definition vpn_settings (service : string) (data secrets : gmap string string) : PropMap :=
  props [("service-type", VStr service); ("data", VDict data); ("secrets", VDict secrets); ("persistent", VBool false)].

Definition protun_settings (p : ProtunProfile) : nm_settings :=
  {["connection" := protun_connection p; "ipv4" := protun_ipv4 p; "ipv6" := protun_ipv6 p;
    "vpn" := vpn_settings PROTUN_SERVICE (protun_data p) {["private-key" := p.(pt_private_key)]}]}.

Definition openvpn_connection (p : OpenVpnProfile) : PropMap :=
  props [("id", VStr p.(ov_id)); ("uuid", VStr p.(ov_uuid)); ("type", VStr "vpn"); ("llmnr", VInt 0);
         ("interface-name", VStr PROTUN_INTERFACE); ("autoconnect", VBool false);
         ("stable-id", VStr PROTON_OMARCHY_STABLE_ID); ("permissions", permissions)].
Definition openvpn_dns (custom : list string) : list (string * variant) :=
  match custom with [] => [] | _ => [("dns-data", VStrs custom); ("ignore-auto-dns", VBool true)] end.
Definition openvpn_ipv4 (p : OpenVpnProfile) : PropMap :=
  props ([("method", VStr "auto"); ("dns-priority", VInt (-1500))] ++ openvpn_dns p.(ov_custom_dns_v4)).
Definition openvpn_ipv6 (p : OpenVpnProfile) : PropMap :=
  if p.(ov_enable_ipv6)
  then props ([("method", VStr "auto"); ("dns-priority", VInt (-1500))] ++ openvpn_dns p.(ov_custom_dns_v6))
  else props [("method", VStr "disabled")].

Definition openvpn_data (p : OpenVpnProfile) : gmap string string :=
  let file name := p.(ov_credential_dir) +:+ "/" +:+ name in
  let data := {["ca" := file "ca.pem"; "cert" := file "certificate.pem"; "key" := file "private-key.pem";
                "tls-crypt" := file "tls-crypt.pem"; "connection-type" := "tls"; "remote" := p.(ov_remote);
                "remote-random" := "yes"; "cipher" := "AES-256-GCM"; "dev" := PROTUN_INTERFACE; "dev-type" := "tun";
                "mssfix" := "0"]} : gmap string string in
  let data := <["tunnel-mtu" := "1500"]> (<["reneg-seconds" := "0"]> (<["remote-cert-tls" := "server"]>
                (<["verify-x509-name" := "name:" +:+ p.(ov_domain)]> (<["cert-pass-flags" := "0"]> data)))) in
  let data := if String.eqb p.(ov_protocol) "openvpn-tcp" then <["proto-tcp" := "yes"]> data else data in
  let data := if p.(ov_enable_ipv6) then <["tun-ipv6" := "yes"]> (<["push-peer-info" := "yes"]> data) else data in
  store_id_entry p.(ov_profile_id) data.

Definition openvpn_settings (p : OpenVpnProfile) : nm_settings :=
  {["connection" := openvpn_connection p; "ipv4" := openvpn_ipv4 p; "ipv6" := openvpn_ipv6 p;
    "vpn" := vpn_settings OPENVPN_SERVICE (openvpn_data p) {["cert-pass" := p.(ov_passphrase)]}]}.

Definition dbus_settings (p : VpnProfile) : nm_settings :=
  match p with Protun p => protun_settings p | OpenVpn p => openvpn_settings p end.

(** The blocking IPv6 half that both protections share. *)
Definition blocking_ipv6 : PropMap :=
  props [("method", VStr "manual"); ("address-data", VAddresses [("fdeb:446c:912d:8da::", 64)]); ("dns-data", VStrs ["::1"]);
         ("dns-priority", VInt (-1400)); ("route-metric", VInt 95); ("gateway", VStr "fdeb:446c:912d:8da::1");
         ("ignore-auto-dns", VBool true)].

Definition ipv6_leak_settings (uuid : string) : nm_settings :=
  {["connection" := props [("id", VStr IPV6_LEAK_CONNECTION_ID); ("uuid", VStr uuid); ("type", VStr "dummy");
       ("interface-name", VStr IPV6_LEAK_INTERFACE); ("autoconnect", VBool true); ("permissions", permissions);
       ("stable-id", VStr PROTON_OMARCHY_STABLE_ID)];
    "dummy" := ∅; "ipv4" := props [("method", VStr "disabled")]; "ipv6" := blocking_ipv6]}.

Definition kill_switch_settings (uuid id interface : string) (permanent : bool) : nm_settings :=
  {["connection" := props ([("id", VStr id); ("uuid", VStr uuid); ("type", VStr "dummy"); ("interface-name", VStr interface);
       ("autoconnect", VBool permanent); ("stable-id", VStr PROTON_OMARCHY_STABLE_ID)]
       ++ if permanent then [] else [("permissions", permissions)]);
    "dummy" := ∅;
    "ipv4" := props [("method", VStr "manual"); ("address-data", VAddresses [("100.85.0.1", 24)]); ("dns-data", VStrs ["0.0.0.0"]);
       ("dns-priority", VInt (-1400)); ("route-metric", VInt 98); ("gateway", VStr "100.85.0.1"); ("ignore-auto-dns", VBool true)];
    "ipv6" := blocking_ipv6]}.
End Build.

(** ** Reading the settings of a connection *)
Definition setting (s : nm_settings) (section key : string) : option variant :=
  match s !! section with Some m => m !! key | None => None end.
Definition setting_str (s : nm_settings) (section key : string) : option string := setting s section key ?> variant_str.

Definition service_type (s : nm_settings) : option string := setting_str s "vpn" "service-type".
Definition connection_id (s : nm_settings) : option string := setting_str s "connection" "id".
Definition vpn_data_string (s : nm_settings) (key : string) : option string :=
  (setting s "vpn" "data" ?> variant_dict) ?> (fun data => data !! key).
Definition connection_owned (s : nm_settings) : bool :=
  bool_decide (setting_str s "connection" "stable-id" = Some PROTON_OMARCHY_STABLE_ID).
Definition profile_owned (s : nm_settings) : bool :=
  bool_decide (vpn_data_string s PROTON_OMARCHY_OWNER_KEY = Some PROTON_OMARCHY_OWNER_VALUE) || connection_owned s.
Definition profile_store_id (s : nm_settings) : option string :=
  opt_filter (fun value => negb (is_empty value) && (str_len value <=? 128) && negb (has_control value))
    (vpn_data_string s PROTON_OMARCHY_PROFILE_ID_KEY).
Definition tunnel_service (s : nm_settings) : bool :=
  bool_decide (service_type s = Some PROTUN_SERVICE) || bool_decide (service_type s = Some OPENVPN_SERVICE).
Definition proton_system_profile (s : nm_settings) : bool :=
  match connection_id s with
  | Some id => String.eqb id IPV6_LEAK_CONNECTION_ID || String.eqb id KILL_SWITCH_CONNECTION_ID
               || String.eqb id KILL_SWITCH_PERMANENT_CONNECTION_ID
  | None => false
  end || tunnel_service s.

Definition nonempty_ports (value : option json) : bool :=
  match value ?> as_array with Some (_ :: _) => true | _ => false end.

(** [split([',', ' ', '\t']).find(|value| !value.is_empty())]. *)
Definition is_remote_separator (a : ascii) : bool := Ascii.eqb a "," || Ascii.eqb a " " || Ascii.eqb a "009".
Fixpoint first_remote (s current : string) : option string :=
  match s with
  | "" => if is_empty current then None else Some (str_rev current)
  | String a s =>
      if is_remote_separator a
      then if is_empty current then first_remote s "" else Some (str_rev current)
      else first_remote s (String a current)
  end.

Section Read.
Context {J : JsonText}.

Definition first_peer (s : nm_settings) : option json :=
  vpn_data_string s "settings" ?> (fun text => json_parse (remove_backslashes text)) ?> jget "peers" ?> as_array ?> head.

Definition ports_protocol (udp tcp tls : bool) : string :=
  match udp, tcp, tls with
  | false, false, true => "protun-tls"
  | false, true, false => "protun-tcp"
  | true, false, false => "protun-udp"
  | _, _, _ => "protun-smart"
  end.

Definition profile_protocol (s : nm_settings) : option string :=
  if bool_decide (service_type s = Some OPENVPN_SERVICE) then
    Some (if bool_decide (vpn_data_string s "proto-tcp" = Some "yes") then "openvpn-tcp" else "openvpn-udp")
  else
    option_map (fun peer => ports_protocol (nonempty_ports (jget "udp-ports" peer)) (nonempty_ports (jget "tcp-ports" peer))
                              (nonempty_ports (jget "tls-ports" peer))) (first_peer s).

Definition profile_endpoint (s : nm_settings) : option string :=
  if bool_decide (service_type s = Some OPENVPN_SERVICE) then
    match vpn_data_string s "remote" ?> (fun remote => first_remote remote "") with
    | None => None
    | Some first =>
        match strip_prefix "[" first with
        | Some bracketed => if contains_char "]" bracketed then head (split_char "]" bracketed) else None
        | None => head (split_char ":" first)
        end
    end
  else first_peer s ?> jget "endpoint" ?> as_str.
End Read.

(** ** Lemmas *)
Lemma unescape_commas s : contains_char backslash s = false -> remove_backslashes (escape_commas s) = s.
Proof.
  unfold contains_char. induction s as [|a s IH]; cbn [str_exists]; [done|]. intros [Ha Hs]%orb_false_iff.
  apply Ascii.eqb_neq in Ha. cbn [escape_commas]. destruct (Ascii.eqb_spec a ",") as [->|Hc].
  - cbn [remove_backslashes]. cbn [Ascii.eqb]. by rewrite IH.
  - cbn [remove_backslashes]. destruct (Ascii.eqb_spec a backslash) as [->|]; [done|]. by rewrite IH.
Qed.

Lemma props_lookup (l : list (string * variant)) k v : NoDup l.*1 -> (k, v) ∈ l -> props l !! k = Some v.
Proof.
  intros Hn Hk. unfold props. apply elem_of_list_to_map_1.
  - change (rev l).*1 with (map fst (rev l)). rewrite map_rev, <- Permutation_rev. exact Hn.
  - apply list_elem_of_In, in_rev. rewrite rev_involutive. by apply list_elem_of_In.
Qed.

(** Look a closed name up in [props] of a closed list of names, or in a chain of insertions. *)
Ltac read_props :=
  match goal with
  | |- Some _ = Some _ => reflexivity
  | |- _ => apply props_lookup; [cbn [app fmap list_fmap fst]; apply (bool_decide_unpack _); vm_compute; exact I|member]
  end.
Ltac read_section := unfold setting; simplify_map_eq.

Lemma protun_reads u uid p :
  let s := protun_settings u uid p in
  setting s "connection" "id" = Some (VStr p.(pt_id)) /\ setting s "connection" "stable-id" = Some (VStr PROTON_OMARCHY_STABLE_ID) /\
  setting s "vpn" "service-type" = Some (VStr PROTUN_SERVICE) /\ setting s "vpn" "data" = Some (VDict (protun_data uid p)) /\
  setting s "ipv4" "dns-priority" = Some (VInt (-1500)) /\ setting s "ipv4" "ignore-auto-dns" = Some (VBool true).
Proof.
  intros s. unfold s, setting, protun_settings. simplify_map_eq.
  split_and!; unfold protun_connection, vpn_settings, protun_ipv4, protun_dns;
    destruct (pt_guest_interface p), (pt_custom_dns_v4 p); read_props.
Qed.

Lemma protun_data_reads uid p :
  protun_data uid p !! "settings" = Some p.(pt_settings_json) /\
  protun_data uid p !! PROTON_OMARCHY_OWNER_KEY = Some PROTON_OMARCHY_OWNER_VALUE /\
  protun_data uid p !! PROTON_OMARCHY_PROFILE_ID_KEY = p.(pt_profile_id) /\
  protun_data uid p !! GUEST_HOLE_PURPOSE = match p.(pt_guest_interface) with Some _ => Some (dec uid) | None => None end.
Proof.
  unfold protun_data, store_id_entry, PROTON_OMARCHY_PROFILE_ID_KEY, PROTON_OMARCHY_OWNER_KEY, GUEST_HOLE_PURPOSE.
  destruct (pt_profile_id p), (pt_guest_interface p); split_and!; simplify_map_eq; done.
Qed.

Lemma openvpn_reads u p :
  let s := openvpn_settings u p in
  setting s "connection" "id" = Some (VStr p.(ov_id)) /\ setting s "connection" "stable-id" = Some (VStr PROTON_OMARCHY_STABLE_ID) /\
  setting s "vpn" "service-type" = Some (VStr OPENVPN_SERVICE) /\ setting s "vpn" "data" = Some (VDict (openvpn_data p)) /\
  setting s "ipv4" "dns-priority" = Some (VInt (-1500)).
Proof.
  intros s. unfold s, setting, openvpn_settings. simplify_map_eq.
  split_and!; unfold openvpn_connection, vpn_settings, openvpn_ipv4, openvpn_dns; destruct (ov_custom_dns_v4 p); read_props.
Qed.

Lemma openvpn_data_reads p :
  openvpn_data p !! "remote" = Some p.(ov_remote) /\
  openvpn_data p !! PROTON_OMARCHY_PROFILE_ID_KEY = p.(ov_profile_id) /\
  openvpn_data p !! "proto-tcp" = (if String.eqb p.(ov_protocol) "openvpn-tcp" then Some "yes" else None) /\
  openvpn_data p !! GUEST_HOLE_PURPOSE = None.
Proof.
  unfold openvpn_data, store_id_entry, PROTON_OMARCHY_PROFILE_ID_KEY, GUEST_HOLE_PURPOSE.
  destruct (String.eqb (ov_protocol p) "openvpn-tcp"), (ov_profile_id p), (ov_enable_ipv6 p); split_and!; simplify_map_eq; done.
Qed.

Lemma str_rev_app_nil w : w <> "" -> forall cur, str_rev_app w cur <> "".
Proof.
  induction w as [|a w IH]; [done|]. intros _ cur. cbn [str_rev_app]. destruct w as [|b w]; [done|]. by apply IH.
Qed.

Lemma first_remote_app w s cur :
  str_forall (fun a => negb (is_remote_separator a)) w = true -> first_remote (w +:+ s) cur = first_remote s (str_rev_app w cur).
Proof.
  revert cur. induction w as [|a w IH]; intros cur H; [done|]. cbn [str_forall] in H. apply andb_true_iff in H as [Ha Hw].
  change (String a w +:+ s) with (String a (w +:+ s)). cbn [first_remote str_rev_app].
  apply negb_true_iff in Ha. rewrite Ha. by apply IH.
Qed.

Lemma first_remote_more s cur : cur <> "" -> exists t, first_remote s cur = Some (str_rev cur +:+ t).
Proof.
  revert cur. induction s as [|a s IH]; intros cur Hc; cbn [first_remote].
  - exists "". rewrite str_app_nil. by destruct cur.
  - destruct (is_remote_separator a); [exists ""; rewrite str_app_nil; by destruct cur|].
    destruct (IH (String a cur) ltac:(done)) as [t Ht]. exists (String a t). rewrite Ht. f_equal.
    unfold str_rev at 1. cbn [str_rev_app]. rewrite str_rev_app_spec, <- str_app_assoc. done.
Qed.

Lemma split_char_head c w s : contains_char c w = false -> head (split_char c (w +:+ String c s)) = Some w.
Proof.
  unfold contains_char. induction w as [|a w IH]; intros H.
  - change ("" +:+ String c s) with (String c s). cbn [split_char]. by rewrite Ascii.eqb_refl.
  - cbn [str_exists] in H. apply orb_false_iff in H as [Ha Hw]. change (String a w +:+ String c s) with (String a (w +:+ String c s)).
    cbn [split_char]. rewrite Ascii.eqb_sym, Ha. specialize (IH Hw).
    destruct (split_char c (w +:+ String c s)) as [|p ps]; [discriminate|]. injection IH as ->. done.
Qed.

(** The address of a remote that separators, brackets and colons do not disturb: an IPv4 address. *)
Definition plain_address (s : string) : bool :=
  negb (is_empty s) && str_forall (fun a => negb (is_remote_separator a)) s && negb (contains_char ":" s) && negb (starts_with "[" s).

Lemma remote_endpoint ip rest :
  plain_address ip = true ->
  exists t, first_remote (ip +:+ ":" +:+ rest) "" = Some (ip +:+ String ":" t) /\
            strip_prefix "[" (ip +:+ String ":" t) = None /\ head (split_char ":" (ip +:+ String ":" t)) = Some ip.
Proof.
  unfold plain_address. rewrite !andb_true_iff, !negb_true_iff. intros [[[He Hs] Hc] Hb].
  destruct (first_remote_more rest (String ":" (str_rev_app ip "")) ltac:(done)) as [t Ht]. exists t. split_and!.
  - rewrite first_remote_app by done. change (":" +:+ rest) with (String ":" rest). cbn [first_remote is_remote_separator Ascii.eqb orb].
    unfold is_remote_separator. cbn. rewrite Ht. f_equal. unfold str_rev at 1. cbn [str_rev_app].
    rewrite str_rev_app_spec. change (str_rev_app ip "") with (str_rev ip). rewrite str_rev_involutive, <- str_app_assoc. done.
  - unfold starts_with in Hb. destruct ip as [|a ip]; [done|]. cbn [strip_prefix] in Hb.
    change (String a ip +:+ String ":" t) with (String a (ip +:+ String ":" t)). cbn [strip_prefix].
    by destruct (Ascii.eqb "[" a).
  - by apply split_char_head.
Qed.

Section Reading.
Context {L : IpLib} {C : ServerCrypto} {J : JsonText} {P : ProfileCrypto}.

Lemma first_peer_protun u uid p peer :
  p.(pt_settings_json) = escape_commas (json_compact (protun_json peer)) ->
  json_parse (json_compact (protun_json peer)) = Some (protun_json peer) ->
  contains_char backslash (json_compact (protun_json peer)) = false -> first_peer (protun_settings u uid p) = Some peer.
Proof.
  intros Hj Hp Hb. unfold first_peer, vpn_data_string. destruct (protun_reads u uid p) as (_ & _ & _ & Hd & _).
  cbv zeta in Hd. rewrite Hd. cbn [and_then variant_dict]. rewrite (proj1 (protun_data_reads uid p)). cbn [and_then].
  rewrite Hj, unescape_commas, Hp by done. reflexivity.
Qed.

Lemma ProtunProfile_new_inv uuid target protocol session config settings store p :
  ProtunProfile_new uuid target protocol session config settings store = Ok p ->
  validate_server target.(tg_physical) = Ok tt /\ p.(pt_uuid) = uuid /\ p.(pt_profile_id) = store /\
  p.(pt_protocol) = normalize_protocol protocol /\ p.(pt_guest_interface) = None /\
  exists udp tcp tls, protun_ports protocol config.(cc_wire_guard) = Some (udp, tcp, tls) /\
    ~ (udp = [] /\ tcp = [] /\ tls = []) /\
    p.(pt_settings_json) = escape_commas (json_compact (protun_json (peer_json target.(tg_logical).(ls_name)
      target.(tg_physical).(ph_entry_ip) target.(tg_physical).(ph_x25519_public_key) udp tcp tls))).
Proof.
  unfold ProtunProfile_new. intros H. destruct (validate_server _) as [[]|]; [|discriminate]. cbn [res_bind] in H.
  destruct (protun_ports protocol _) as [[[udp tcp] tls]|]; [|discriminate]. cbn [ok_or res_bind] in H.
  destruct (match udp with [] => _ | _ => _ end) eqn:E; [discriminate|]. peel H. destruct (custom_dns_of settings) as [v4 v6].
  apply Ok_inj in H as <-. cbn. split_and!; try done. exists udp, tcp, tls. split_and!; try done. by intros (-> & -> & ->).
Qed.

Lemma openvpn_inputs_inv random target protocol session config proto ports passphrase key :
  openvpn_inputs random target protocol session config = Ok (proto, ports, passphrase, key) ->
  validate_server target.(tg_physical) = Ok tt /\ proto = normalize_protocol protocol /\ ports <> [] /\
  (proto = "openvpn-udp" \/ proto = "openvpn-tcp").
Proof.
  unfold openvpn_inputs. intros H. destruct (validate_server _) as [[]|]; [|discriminate]. cbn [res_bind] in H. cbv zeta in H.
  match type of H with res_bind ?r _ = _ => destruct r as [l|] eqn:Ep end; [|discriminate]. cbn [res_bind] in H.
  destruct l as [|port l]; [discriminate|]. split_match_in H; [discriminate|]. split_match_in H; [discriminate|].
  peel H. apply Ok_inj in H. injection H as <- <- <- <-. split_and!; [done..|].
  destruct (String.eqb_spec (normalize_protocol protocol) "openvpn-udp"); [by left|].
  destruct (String.eqb_spec (normalize_protocol protocol) "openvpn-tcp"); [by right|discriminate].
Qed.

Lemma OpenVpnProfile_new_inv uuid random credentials target protocol session config settings store p :
  OpenVpnProfile_new uuid random credentials target protocol session config settings store = Ok p ->
  validate_server target.(tg_physical) = Ok tt /\ p.(ov_uuid) = uuid /\ p.(ov_profile_id) = store /\
  p.(ov_protocol) = normalize_protocol protocol /\
  (p.(ov_protocol) = "openvpn-udp" \/ p.(ov_protocol) = "openvpn-tcp") /\
  exists rest, p.(ov_remote) = target.(tg_physical).(ph_entry_ip) +:+ ":" +:+ rest.
Proof.
  unfold OpenVpnProfile_new. intros H. destruct (openvpn_inputs _ _ _ _ _) as [[[[proto ports] passphrase] key]|] eqn:E; [|discriminate].
  destruct (openvpn_inputs_inv _ _ _ _ _ _ _ _ _ E) as (Hv & -> & Hne & Hp). cbn [res_bind] in H. peel H.
  destruct (custom_dns_of settings) as [v4 v6]. apply Ok_inj in H as <-. cbn [ov_uuid ov_profile_id ov_protocol ov_remote].
  split_and!; [done..|]. destruct ports as [|port ports]; [done|]. cbn [map].
  destruct ports as [|port' ports]; cbn [map join]; [by eexists|]. eexists. rewrite <- !str_app_assoc. reflexivity.
Qed.

Definition store_id_ok (value : string) : bool := negb (is_empty value) && (str_len value <=? 128) && negb (has_control value).

Lemma ports_protocol_of protocol ports udp tcp tls name endpoint key :
  protun_ports protocol ports = Some (udp, tcp, tls) -> ~ (udp = [] /\ tcp = [] /\ tls = []) ->
  normalize_protocol protocol <> "protun-smart" ->
  let peer := peer_json name endpoint key udp tcp tls in
  ports_protocol (nonempty_ports (jget "udp-ports" peer)) (nonempty_ports (jget "tcp-ports" peer))
    (nonempty_ports (jget "tls-ports" peer)) = normalize_protocol protocol.
Proof.
  intros Hp Hne Hs peer.
  assert (Hports : forall l, nonempty_ports (Some (Arr (map jnum l))) = match l with [] => false | _ => true end) by (by intros []).
  change (jget "udp-ports" peer) with (Some (Arr (map jnum udp))). change (jget "tcp-ports" peer) with (Some (Arr (map jnum tcp))).
  change (jget "tls-ports" peer) with (Some (Arr (map jnum tls))). rewrite !Hports. clear Hports peer.
  unfold protun_ports in Hp. unfold normalize_protocol in *.
  destruct (String.eqb_spec protocol "protun-smart") as [->|]; [done|].
  destruct (String.eqb_spec protocol "smart") as [->|]; [done|].
  destruct (String.eqb_spec protocol "wireguard") as [->|];
    [|destruct (String.eqb_spec protocol "wireguard-udp") as [->|]; [|destruct (String.eqb_spec protocol "protun-udp") as [->|]]].
  1-3: injection Hp as <- <- <-; destruct (pp_udp ports); [by destruct Hne|done].
  destruct (String.eqb_spec protocol "protun-tcp") as [->|]; [|destruct (String.eqb_spec protocol "wireguard-tcp") as [->|]].
  1-2: injection Hp as <- <- <-; destruct (pp_tcp ports); [by destruct Hne|done].
  destruct (String.eqb_spec protocol "protun-tls") as [->|];
    [|destruct (String.eqb_spec protocol "wireguard-tls") as [->|]; [|destruct (String.eqb_spec protocol "stealth") as [->|]; [|discriminate]]].
  all: injection Hp as <- <- <-; destruct (pp_tls ports); [by destruct Hne|done].
Qed.

End Reading.

(** ** Witness: an automatic tunnel to a server with two transports *)
Definition example_key : string := "AAAAAAAAAAAAAAAAAAAAAAAAAAAAAAAAAAAAAAAAAAA=".
Definition example_signature : string :=
  "AAAAAAAAAAAAAAAAAAAAAAAAAAAAAAAAAAAAAAAAAAAAAAAAAAAAAAAAAAAAAAAAAAAAAAAAAAAAAAAAAAAAAA==".
Definition example_bytes : string := "0123456789abcdef0123456789abcdef".
Definition example_crypto : ServerCrypto :=
  mkServerCrypto (fun _ => Some example_bytes) (fun _ => "") unit unit (fun _ => Some tt) (fun _ _ _ => true) tt (fun _ => "{,}").
Definition example_target : ConnectionTarget :=
  let physical := mkPhysical "p" "192.0.2.1" "192.0.2.1" "" 1 example_key None (Some example_signature) ∅ in
  mkTarget (mkLogical "l" "MX#1" "MX" "MX" None "" "" None "node.example" 0 0 0 SpecFloat.S754_nan 1 (mkLocation None None)
              [physical] None "" ∅) physical.
Definition example_ports : ClientConfig :=
  mkClientConfig (mkProtocolPorts [51820] [443] []) (mkProtocolPorts [1194] [] []) Null ∅.
Definition example_peer : json := peer_json "MX#1" "192.0.2.1" example_key [51820] [] [].
Definition example_text : JsonText := mkJsonText (fun _ => "") (fun _ => Some (protun_json example_peer)) (fun _ _ => "").
Definition example_profile_crypto : ProfileCrypto := mkProfileCrypto (fun _ => "key") (fun _ => []) (fun _ _ => Ok "pem").
Definition example_session : SessionData :=
  mkSessionData "u" "a" "r" [] "name" false "prod"
    (mkVpnSessionData (jobj []) (mkVpnCertificate "" "" "" 0 0 "" "" ∅) "seed" (mkVpnLocation "" "" "" None None)) ∅.


(** An IPv6 endpoint is written into an OpenVPN remote without brackets, and read back as its first
    group. *)
Example openvpn_ipv6_remote :
  first_remote ("2001:db8::1" +:+ ":" +:+ dec 1194) "" = Some "2001:db8::1:1194" /\
  head (split_char ":" "2001:db8::1:1194") = Some "2001".
Proof. split; reflexivity. Qed.
