(* ===== verification/SecretStore.v ===== *)
(** The private sessions in the desktop's keyring ([agent/src/native_backend/secret_store.rs]): the envelope
    of a session, the index of the accounts, the import of a session of Proton's own clients and the sign-out.

    The keyring is the trait [SecretService] of the source, a class whose calls may fail in every way; base64,
    base32 and the [derive]d form of a session are a class too. *)
From S2P Require Export NetSettings Json.
Open Scope string_scope.
Open Scope Z_scope.
Open Scope list_scope.
Open Scope rust_scope.

Definition SERVICE : string := "Proton VPN for Omarchy".
Definition LEGACY_SERVICE : string := "Proton".
Definition ACCOUNT_INDEX : string := "accounts-v1".
Definition LEGACY_ACCOUNT_INDEX : string := "proton-sso-accounts".
Definition LEGACY_IMPORT_MARKER : string := "legacy-import-v1".
Definition LEGACY_IMPORT_COMPLETE : string := "complete".
Definition SESSION_ENVELOPE_PREFIX : string := "pvom1:".
Definition INDEX_ENVELOPE_PREFIX : string := "pvom-index1:".
Definition MAX_ACCOUNTS : nat := 32.
Definition MAX_ACCOUNT_NAME_BYTES : Z := 256.
Definition MAX_SESSION_BYTES : Z := 1024 * 1024.
Definition MAX_SESSION_ENVELOPE_BYTES : Z := 1400 * 1024.
Definition MAX_INDEX_BYTES : Z := 16 * 1024.
Definition MAX_INDEX_ENVELOPE_BYTES : Z := 24 * 1024.

(** [keyring::Error]: what the program tells apart. *)
Inductive KeyringError : Type :=
  | NoEntry
  | Ambiguous (matching : Z)
  | KeyringFailed (text : string).

(** The trait [SecretService]. *)
Class Keyring (W : Type) : Type := mkKeyring {
  kr_read : string -> string -> W -> result string KeyringError * W;
  kr_write_private : string -> string -> W -> result unit KeyringError * W;
  kr_delete_private : string -> W -> result unit KeyringError * W;
  (** The text of [keyring::Error::NoEntry]. *)
  kr_no_entry : string }.

Class SecretCodec : Type := mkSecretCodec {
  (** [URL_SAFE_NO_PAD], and [BASE32_NOPAD]. *)
  url64_encode : string -> string;
  url64_decode : string -> option string;
  base32_encode : string -> string;
  (** [serde_json::to_vec] and [from_slice] of a session. *)
  session_to_text : SessionData -> result string string;
  session_of_text : string -> option SessionData }.

(** ** Names *)
Definition valid_account_name (account_name : string) : bool :=
  negb (is_empty (trim account_name)) && (str_len account_name <=? MAX_ACCOUNT_NAME_BYTES) && negb (has_control account_name).
Definition session_invalid (message : string) : NativeError := NativeError_new "session_invalid" message.
Definition validate_account_name (account_name : string) : NativeResult unit :=
  if valid_account_name account_name then Ok tt
  else Err (session_invalid ("A Proton account name must contain between 1 and " +:+ dec MAX_ACCOUNT_NAME_BYTES
              +:+ " bytes and no control characters")).

(** The loop of [normalized_accounts], with what it has collected. *)
Fixpoint normalize_into (collected accounts : list string) : list string :=
  match accounts with
  | [] => collected
  | account :: accounts =>
      if valid_account_name account && negb (bool_decide (account ∈ collected)) then
        let collected := collected ++ [account] in
        if (length collected =? MAX_ACCOUNTS)%nat then collected else normalize_into collected accounts
      else normalize_into collected accounts
  end.
Definition normalized_accounts : list string -> list string := normalize_into [].

(** The control characters are single bytes. *)
Definition escape_control (a : ascii) : string :=
  let b := byte a in
  if b =? 8 then "\b" else if b =? 12 then "\f" else if b =? 10 then "\n" else if b =? 13 then "\r" else if b =? 9 then "\t"
  else if b <=? 0x1f then "\u" +:+ hex_fmt 4 b else String a "".
Fixpoint escape_legacy_control_characters (raw : string) : string :=
  match raw with "" => "" | String a raw => escape_control a +:+ escape_legacy_control_characters raw end.

Section Codec.
Context {J : JsonText} {C : ServerCrypto} {K : SecretCodec}.

Definition private_account_key (account_name : string) : string := "account-v1-" +:+ to_ascii_lowercase (base32_encode account_name).
Definition legacy_account_key (account_name : string) : string := "proton-sso-account-" +:+ to_ascii_lowercase (base32_encode account_name).

(** ** Envelopes *)
Definition encode_envelope (prefix : string) (max_bytes max_envelope : Z) (json too_large too_large_encoded : string) : NativeResult string :=
  if max_bytes <? str_len json then Err (session_invalid too_large)
  else
    let encoded := prefix +:+ url64_encode json in
    if max_envelope <? str_len encoded then Err (session_invalid too_large_encoded) else Ok encoded.
Definition decode_envelope (prefix : string) (max_bytes max_envelope : Z) (raw : string) : option string :=
  if max_envelope <? str_len raw then None
  else
    let?? encoded := strip_prefix prefix raw in
    let?? decoded := url64_decode encoded in
    if max_bytes <? str_len decoded then None else Some decoded.

Definition encode_session (session : SessionData) : NativeResult string :=
  let? json := res_map_err (fun error => ne_with_source error (session_invalid "Unable to serialize the Proton session")) (session_to_text session) in
  encode_envelope SESSION_ENVELOPE_PREFIX MAX_SESSION_BYTES MAX_SESSION_ENVELOPE_BYTES json
    "The Proton session exceeds the storage size limit" "The encoded Proton session exceeds the storage size limit".
Definition decode_session (raw : string) : option SessionData :=
  decode_envelope SESSION_ENVELOPE_PREFIX MAX_SESSION_BYTES MAX_SESSION_ENVELOPE_BYTES raw ?> session_of_text.
Definition encode_account_index (accounts : list string) : NativeResult string :=
  encode_envelope INDEX_ENVELOPE_PREFIX MAX_INDEX_BYTES MAX_INDEX_ENVELOPE_BYTES (json_compact (strs_to_json accounts))
    "The Proton account index exceeds the storage size limit" "The encoded Proton account index exceeds the storage size limit".
Definition accounts_of_text (text : string) : option (list string) := json_parse text ?> strs_of_json.
Definition decode_account_index (raw : string) : option (list string) :=
  decode_envelope INDEX_ENVELOPE_PREFIX MAX_INDEX_BYTES MAX_INDEX_ENVELOPE_BYTES raw ?> accounts_of_text.
Definition decode_legacy_session (raw : string) : option SessionData :=
  if MAX_SESSION_BYTES <? str_len raw then None
  else match session_of_text raw with
       | Some session => Some session
       | None => session_of_text (escape_legacy_control_characters raw)
       end.
End Codec.

(** ** Reading from the desktop *)

(** [dbus_secret_service]: every answer may be an error, whose text is what [keyring] makes of it. *)
Class Desktop (W : Type) : Type := mkDesktop {
  DesktopItem : Type;
  dk_connect : W -> result unit string * W;
  (** The items with these attributes: the unlocked and the locked ones. *)
  dk_search : list (string * string) -> W -> result (list DesktopItem * list DesktopItem) string * W;
  (** The default collection; [false] when there is none. *)
  dk_default_collection : W -> result bool string * W;
  dk_unlock_collection : W -> result unit string * W;
  dk_search_collection : list (string * string) -> W -> result (list DesktopItem) string * W;
  dk_credential : DesktopItem -> W -> result unit string * W;
  dk_unlock : DesktopItem -> W -> result unit string * W;
  dk_password : DesktopItem -> W -> result string string * W }.

Section Reading.
Context {W : Type} {D : Desktop W}.

Definition desk_bind {A B : Type} (f : W -> result A string * W) (k : A -> W -> result B KeyringError * W) : W -> result B KeyringError * W := fun w =>
  match f w with
  | (Ok a, w) => k a w
  | (Err text, w) => (Err (KeyringFailed text), w)
  end.
(** The credentials of ambiguous items, each of which may fail. *)
Fixpoint desk_credentials (items : list DesktopItem) (w : W) : result unit string * W :=
  match items with
  | [] => (Ok tt, w)
  | item :: items => match dk_credential item w with (Ok _, w) => desk_credentials items w | (Err text, w) => (Err text, w) end
  end.
Definition desk_choose (items : list DesktopItem) : W -> result string KeyringError * W :=
  match items with
  | [] => fun w => (Err NoEntry, w)
  | [item] => desk_bind (dk_unlock item) (fun _ => desk_bind (dk_password item) (fun password w => (Ok password, w)))
  | _ => desk_bind (desk_credentials items) (fun _ w => (Err (Ambiguous (Z.of_nat (length items))), w))
  end.
(** [SecretStore::read]: the items of this program's target, or else those of the default collection. *)
Definition desktop_read (service username : string) : W -> result string KeyringError * W :=
  let attributes := [("service", service); ("username", username)] in
  desk_bind dk_connect (fun _ =>
  desk_bind (dk_search (attributes ++ [("target", "default")])) (fun found =>
  match found.1 ++ found.2 with
  | [] =>
      desk_bind dk_default_collection (fun exists_collection w =>
        if exists_collection : bool
        then desk_bind dk_unlock_collection (fun _ => desk_bind (dk_search_collection attributes) desk_choose) w
        else (Err NoEntry, w))
  | items => desk_choose items
  end)).
End Reading.

(** ** The store *)
Section Monad.
Context {W : Type}.
Definition Keys (B : Type) : Type := W -> NativeResult B * W.
Definition keys_ret {B : Type} (b : B) : Keys B := fun w => (Ok b, w).
Definition keys_throw {B : Type} (e : NativeError) : Keys B := fun w => (Err e, w).
Definition keys_result {B : Type} (b : NativeResult B) : Keys B := fun w => (b, w).
Definition keys_bind {A B : Type} (m : Keys A) (k : A -> Keys B) : Keys B := fun w =>
  match m w with
  | (Ok a, w) => k a w
  | (Err e, w) => (Err e, w)
  end.
(** A call of the keyring with its own result as the value. *)
Definition keys_call {B : Type} (f : W -> result B KeyringError * W) : Keys (result B KeyringError) := fun w => let '(b, w) := f w in (Ok b, w).
End Monad.
Arguments Keys W B : clear implicits.

Notation "'let~' x ':=' m 'in' k" := (keys_bind m (fun x => k)) (at level 200, x name, k at level 200, right associativity) : rust_scope.
Notation "m ';;~' k" := (keys_bind m (fun _ => k)) (at level 100, k at level 200, right associativity) : rust_scope.

Section Store.
Context {W : Type} {R : Keyring W} {J : JsonText} {C : ServerCrypto} {K : SecretCodec}.

Definition keyring_error (action : string) (error : KeyringError) : NativeError :=
  let source := match error with
                | Ambiguous matching => dec matching +:+ " matching credentials found in secure storage"
                | NoEntry => kr_no_entry
                | KeyringFailed text => text
                end in
  ne_set_retryable true (ne_with_source source
    (NativeError_new "secret_service_error" ("Unable to " +:+ action +:+ " using the desktop Secret Service"))).

(** An entry, [None] where there is none. *)
Definition read_entry (service username action : string) : Keys W (option string) :=
  let~ raw := keys_call (kr_read service username) in
  match raw with
  | Ok value => keys_ret (Some value)
  | Err NoEntry => keys_ret None
  | Err error => keys_throw (keyring_error action error)
  end.
Definition write_entry (username value action : string) : Keys W unit :=
  let~ written := keys_call (kr_write_private username value) in keys_result (res_map_err (keyring_error action) written).

Definition load_private_accounts : Keys W (list string) :=
  let~ raw := read_entry SERVICE ACCOUNT_INDEX "read private account index" in
  keys_ret (unwrap_or (raw ?> decode_account_index) []).
Definition store_private_accounts (encoded : string) : Keys W unit := write_entry ACCOUNT_INDEX encoded "store private account index".
Definition legacy_import_complete : Keys W bool :=
  let~ value := read_entry SERVICE LEGACY_IMPORT_MARKER "read legacy import marker" in
  keys_ret (bool_decide (value = Some LEGACY_IMPORT_COMPLETE)).
Definition mark_legacy_import_complete : Keys W unit :=
  let~ complete := legacy_import_complete in
  if complete : bool then keys_ret tt else write_entry LEGACY_IMPORT_MARKER LEGACY_IMPORT_COMPLETE "store legacy import marker".

(** The loop over the accounts: the first entry that holds the account's own session. *)
Fixpoint first_session (service : string) (key : string -> string) (decode : string -> option SessionData) (action : string)
    (accounts : list string) : Keys W (option SessionData) :=
  match accounts with
  | [] => keys_ret None
  | account :: accounts =>
      let~ raw := read_entry service (key account) action in
      match raw ?> decode with
      | Some session =>
          if String.eqb session.(sd_account_name) account && is_authenticated session then keys_ret (Some session)
          else first_session service key decode action accounts
      | None => first_session service key decode action accounts
      end
  end.
Definition load_private_default : Keys W (option SessionData) :=
  let~ accounts := load_private_accounts in
  first_session SERVICE private_account_key decode_session "read Proton VPN for Omarchy session" (normalized_accounts accounts).
Definition load_legacy_default : Keys W (option SessionData) :=
  let~ raw := read_entry LEGACY_SERVICE LEGACY_ACCOUNT_INDEX "read legacy Proton account index" in
  match raw with
  | None => keys_ret None
  | Some value =>
      if str_len value <=? MAX_INDEX_BYTES then
        first_session LEGACY_SERVICE legacy_account_key decode_legacy_session "read legacy Proton session"
          (normalized_accounts (unwrap_or (accounts_of_text value) []))
      else keys_ret None
  end.

Definition save (session : SessionData) : Keys W unit :=
  keys_result (validate_account_name session.(sd_account_name)) ;;~
  if negb (is_authenticated session) then keys_throw (session_invalid "The Proton session is missing authentication fields")
  else
    let~ previous := load_private_accounts in
    let accounts := normalized_accounts (session.(sd_account_name) :: previous) in
    let~ raw := keys_result (encode_session session) in
    let~ index := keys_result (encode_account_index accounts) in
    write_entry (private_account_key session.(sd_account_name)) raw "store Proton VPN for Omarchy session" ;;~
    (if bool_decide (accounts = previous) then keys_ret tt else store_private_accounts index) ;;~
    mark_legacy_import_complete.

Definition load_default : Keys W (option SessionData) :=
  let~ private := load_private_default in
  match private with
  | Some session => keys_ret (Some session)
  | None =>
      let~ complete := legacy_import_complete in
      if complete : bool then keys_ret None
      else
        let~ legacy := load_legacy_default in
        match legacy with
        | None => keys_ret None
        | Some session => save session ;;~ keys_ret (Some session)
        end
  end.

Definition delete (account_name : string) : Keys W unit :=
  keys_result (validate_account_name account_name) ;;~
  let~ previous := load_private_accounts in
  let accounts := normalized_accounts (List.filter (fun account => negb (String.eqb account account_name)) previous) in
  let~ index := keys_result (encode_account_index accounts) in
  mark_legacy_import_complete ;;~
  let~ deleted := keys_call (kr_delete_private (private_account_key account_name)) in
  match deleted with
  | Ok _ | Err NoEntry => if bool_decide (accounts = previous) then keys_ret tt else store_private_accounts index
  | Err error => keys_throw (keyring_error "delete Proton VPN for Omarchy session" error)
  end.
End Store.

(** ** The keyring as a map *)
Abbreviation keychain := (gmap (string * string) string).

(** Documented behaviour: a reading changes nothing and tells what is there, or fails; a mutation that reports
    success has happened, one that fails may have. *)
Record keyring_laws {W : Type} {R : Keyring W} (view : W -> keychain) : Prop := mkKeyringLaws {
  kl_read : forall service username w, view (kr_read service username w).2 = view w;
  kl_found : forall service username w value, (kr_read service username w).1 = Ok value -> view w !! (service, username) = Some value;
  kl_missing : forall service username w, (kr_read service username w).1 = Err NoEntry -> view w !! (service, username) = None;
  kl_write : forall username value w,
    view (kr_write_private username value w).2 = <[(SERVICE, username) := value]> (view w) \/
    ((kr_write_private username value w).1 <> Ok tt /\ view (kr_write_private username value w).2 = view w);
  kl_delete : forall username w,
    view (kr_delete_private username w).2 = base.delete (SERVICE, username) (view w) \/
    ((exists e, (kr_delete_private username w).1 = Err e /\ e <> NoEntry) /\ view (kr_delete_private username w).2 = view w) }.

Record codec_laws {J : JsonText} {C : ServerCrypto} {K : SecretCodec} : Prop := mkCodecLaws {
  url64_back : forall text, url64_decode (url64_encode text) = Some text;
  session_back : forall session text, session_to_text session = Ok text -> session_of_text text = Some session;
  index_back : forall accounts, json_parse (json_compact (strs_to_json accounts)) = Some (strs_to_json accounts) }.

(** What the program promises, as functions of the map. *)
Section Spec.
Context {J : JsonText} {C : ServerCrypto} {K : SecretCodec}.

Definition spec_index (v : keychain) : list string := unwrap_or (v !! (SERVICE, ACCOUNT_INDEX) ?> decode_account_index) [].
Definition spec_marked (v : keychain) : bool := bool_decide (v !! (SERVICE, LEGACY_IMPORT_MARKER) = Some LEGACY_IMPORT_COMPLETE).
Definition session_at (service : string) (key : string -> string) (decode : string -> option SessionData) (v : keychain) (account : string)
    : option SessionData :=
  let?? session := v !! (service, key account) ?> decode in
  if String.eqb session.(sd_account_name) account && is_authenticated session then Some session else None.
Definition spec_private (v : keychain) : option SessionData :=
  head (omap (session_at SERVICE private_account_key decode_session v) (normalized_accounts (spec_index v))).
Definition spec_legacy (v : keychain) : option SessionData :=
  let?? value := v !! (LEGACY_SERVICE, LEGACY_ACCOUNT_INDEX) in
  if str_len value <=? MAX_INDEX_BYTES
  then head (omap (session_at LEGACY_SERVICE legacy_account_key decode_legacy_session v)
               (normalized_accounts (unwrap_or (accounts_of_text value) [])))
  else None.
(** A session of our own, else one to import unless an import or a sign-out has happened. *)
Definition spec_load (v : keychain) : option SessionData :=
  match spec_private v with
  | Some session => Some session
  | None => if spec_marked v then None else spec_legacy v
  end.
End Spec.

(** Only these entries of this program's service differ. *)
Definition touches (usernames : list string) (v v' : keychain) : Prop :=
  forall p, v' !! p <> v !! p -> exists username, username ∈ usernames /\ p = (SERVICE, username).

Lemma touches_refl us v : touches us v v.
Proof. by intros p Hp. Qed.
Lemma touches_trans us v v' v'' : touches us v v' -> touches us v' v'' -> touches us v v''.
Proof. intros H1 H2 p Hp. destruct (decide (v' !! p = v !! p)) as [E|E]; [apply H2; congruence|by apply H1]. Qed.
Lemma touches_insert us v username value : username ∈ us -> touches us v (<[(SERVICE, username) := value]> v).
Proof.
  intros Hu p Hp. exists username. split; [done|]. destruct (decide (p = (SERVICE, username))) as [|E]; [done|].
  by rewrite lookup_insert_ne in Hp.
Qed.
Lemma touches_delete us v username : username ∈ us -> touches us v (base.delete (SERVICE, username) v).
Proof.
  intros Hu p Hp. exists username. split; [done|]. destruct (decide (p = (SERVICE, username))) as [|E]; [done|].
  by rewrite lookup_delete_ne in Hp.
Qed.

(** ** Names and envelopes *)
Lemma normalize_into_prefix accounts : forall collected, collected `prefix_of` normalize_into collected accounts.
Proof.
  induction accounts as [|a l IH]; intros c; cbn; [done|]. destruct (_ && _); [|apply IH].
  destruct (_ =? _)%nat; [by eexists|]. etrans; [|apply IH]. by eexists.
Qed.
Lemma normalize_into_subset accounts : forall collected x, x ∈ normalize_into collected accounts -> x ∈ collected \/ x ∈ accounts.
Proof.
  induction accounts as [|a l IH]; intros c x Hx; cbn in *; [by left|].
  assert (forall x, x ∈ c ++ [a] -> x ∈ c \/ x ∈ a :: l) as Hc.
  { intros y [Hy|Hy%list_elem_of_singleton]%elem_of_app; [by left|right; subst; left]. }
  destruct (_ && _); [destruct (_ =? _)%nat; [by apply Hc|]|]; apply IH in Hx as [Hx|Hx]; try by right; right.
  - by apply Hc.
  - by left.
Qed.
Lemma normalized_head account accounts : valid_account_name account = true -> exists l, normalized_accounts (account :: accounts) = account :: l.
Proof.
  intros Hv. unfold normalized_accounts. cbn. rewrite Hv. cbn.
  destruct (normalize_into_prefix accounts [account]) as [l Hl]. exists l. by rewrite Hl.
Qed.
Lemma normalized_subset accounts x : x ∈ normalized_accounts accounts -> x ∈ accounts.
Proof. intros [Hx|Hx]%normalize_into_subset; [by apply not_elem_of_nil in Hx|done]. Qed.

Section Envelopes.
Context {J : JsonText} {C : ServerCrypto} {K : SecretCodec} (laws : codec_laws).

Lemma envelope_opens prefix max_bytes max_envelope json e1 e2 raw :
  encode_envelope prefix max_bytes max_envelope json e1 e2 = Ok raw -> decode_envelope prefix max_bytes max_envelope raw = Some json.
Proof.
  unfold encode_envelope, decode_envelope. destruct (max_bytes <? str_len json) eqn:Hb; [done|].
  destruct (max_envelope <? _) eqn:He; intros [= <-]. rewrite He, strip_prefix_app. cbn. rewrite (url64_back laws). cbn. by rewrite Hb.
Qed.
Lemma session_opens session raw : encode_session session = Ok raw -> decode_session raw = Some session.
Proof.
  unfold encode_session, decode_session. destruct (session_to_text session) as [text|e] eqn:Ht; [|done]. cbn. intros Hr%envelope_opens.
  rewrite Hr. cbn. by apply (session_back laws).
Qed.
Lemma index_opens accounts raw : encode_account_index accounts = Ok raw -> decode_account_index raw = Some accounts.
Proof.
  unfold encode_account_index, decode_account_index. intros Hr%envelope_opens. rewrite Hr. cbn. unfold accounts_of_text.
  rewrite (index_back laws). apply strs_roundtrip.
Qed.
Lemma private_key_apart account : private_account_key account <> ACCOUNT_INDEX /\ private_account_key account <> LEGACY_IMPORT_MARKER.
Proof. split; unfold private_account_key; cbn; discriminate. Qed.
End Envelopes.

(** ** Runs *)
Section Runs.
Context {W : Type} {R : Keyring W} {J : JsonText} {C : ServerCrypto} {K : SecretCodec}.
Context (view : W -> keychain) (laws : keyring_laws view).

(** A run that changes nothing and, if it returns a value, the one a function of the map gives. *)
Definition reads {B : Type} (m : Keys W B) (f : keychain -> B) : Prop :=
  forall w, view (m w).2 = view w /\ forall b, (m w).1 = Ok b -> b = f (view w).

Lemma secret_reads_ret {B : Type} (b : B) : reads (keys_ret b) (fun _ => b).
Proof. intros w. split; [done|]. by intros b' [= ->]. Qed.
Lemma secret_reads_bind {A B : Type} (m : Keys W A) (k : A -> Keys W B) (f : keychain -> A) (g : A -> keychain -> B) :
  reads m f -> (forall a, reads (k a) (g a)) -> reads (keys_bind m k) (fun v => g (f v) v).
Proof.
  intros Hm Hk w. unfold keys_bind. destruct (Hm w) as [Hv Ha]. destruct (m w) as [[a|e] w'] eqn:E; cbn in *; [|by split].
  destruct (Hk a w') as [Hv' Hb]. rewrite Hv', Hv. split; [done|]. intros b Hr. rewrite (Hb b Hr), Hv. by rewrite (Ha a eq_refl).
Qed.
Lemma reads_ext {B : Type} (m : Keys W B) (f g : keychain -> B) : reads m f -> (forall v, f v = g v) -> reads m g.
Proof. intros Hm He w. destruct (Hm w) as [Hv Hb]. split; [done|]. intros b Hr. rewrite <- He. by apply Hb. Qed.

Lemma read_entry_reads service username action : reads (read_entry service username action) (fun v => v !! (service, username)).
Proof.
  intros w. pose proof (kl_read _ laws service username w) as Hv. pose proof (kl_found _ laws service username w) as Hf.
  pose proof (kl_missing _ laws service username w) as Hm. unfold read_entry, keys_bind, keys_call.
  destruct (kr_read service username w) as [[value|[]] w'] eqn:E; cbn in *; split; try done; intros b [= <-]; [by rewrite (Hf value)|by rewrite Hm].
Qed.
Lemma accounts_reads : reads load_private_accounts spec_index.
Proof.
  refine (reads_ext _ _ _ (secret_reads_bind _ _ _ (fun raw _ => unwrap_or (raw ?> decode_account_index) []) (read_entry_reads _ _ _) _) _); [|done].
  intros raw. apply secret_reads_ret.
Qed.
Lemma complete_reads : reads legacy_import_complete spec_marked.
Proof.
  refine (reads_ext _ _ _ (secret_reads_bind _ _ _ (fun value _ => bool_decide (value = Some LEGACY_IMPORT_COMPLETE)) (read_entry_reads _ _ _) _) _); [|done].
  intros raw. apply secret_reads_ret.
Qed.
Lemma first_session_reads service key decode action accounts :
  reads (first_session service key decode action accounts) (fun v => head (omap (session_at service key decode v) accounts)).
Proof.
  induction accounts as [|account accounts IH]; [apply (secret_reads_ret None)|].
  cbn [first_session]. refine (reads_ext _ _ _ (secret_reads_bind _ _ _
    (fun raw v => match raw ?> decode with
                  | Some session => if String.eqb session.(sd_account_name) account && is_authenticated session then Some session
                                    else head (omap (session_at service key decode v) accounts)
                  | None => head (omap (session_at service key decode v) accounts)
                  end) (read_entry_reads _ _ _) _) _).
  - intros raw. destruct (raw ?> decode) as [session|]; [|exact IH]. destruct (_ && _); [apply secret_reads_ret|exact IH].
  - intros v. cbn. unfold session_at at 3. destruct (_ ?> decode) as [session|]; [|done]. cbn. by destruct (_ && _).
Qed.
Lemma private_reads : reads load_private_default spec_private.
Proof.
  refine (reads_ext _ _ _ (secret_reads_bind _ _ _ (fun accounts v =>
    head (omap (session_at SERVICE private_account_key decode_session v) (normalized_accounts accounts))) accounts_reads _) _); [|done].
  intros accounts. apply first_session_reads.
Qed.
Lemma legacy_reads : reads load_legacy_default spec_legacy.
Proof.
  refine (reads_ext _ _ _ (secret_reads_bind _ _ _ (fun raw v =>
    let?? value := raw in
    if str_len value <=? MAX_INDEX_BYTES
    then head (omap (session_at LEGACY_SERVICE legacy_account_key decode_legacy_session v) (normalized_accounts (unwrap_or (accounts_of_text value) [])))
    else None) (read_entry_reads _ _ _) _) _); [|done].
  intros [value|]; [|apply (secret_reads_ret None)]. cbn. destruct (_ <=? _); [apply first_session_reads|apply (secret_reads_ret None)].
Qed.

(** A run whose effect on the map is described by its outcome. *)
Definition changes {B : Type} (P : keychain -> Prop) (m : Keys W B) (Q : NativeResult B -> keychain -> Prop) : Prop :=
  forall w, P (view w) -> Q (m w).1 (view (m w).2).
Lemma changes_bind {A B : Type} (P : keychain -> Prop) (m : Keys W A) (k : A -> Keys W B) (M : A -> keychain -> Prop) (Q : NativeResult B -> keychain -> Prop) :
  changes P m (fun r v => match r with Ok a => M a v | Err e => Q (Err e) v end) -> (forall a, changes (M a) (k a) Q) ->
  changes P (keys_bind m k) Q.
Proof.
  intros Hm Hk w Hw. unfold keys_bind. specialize (Hm w Hw). destruct (m w) as [[a|e] w'] eqn:E; cbn in *; [|done]. by apply Hk.
Qed.
Lemma changes_read {A B : Type} (P : keychain -> Prop) (m : Keys W A) (f : keychain -> A) (k : A -> Keys W B) (Q : NativeResult B -> keychain -> Prop) :
  reads m f -> (forall v e, P v -> Q (Err e) v) -> (forall a, changes (fun v => P v /\ a = f v) (k a) Q) -> changes P (keys_bind m k) Q.
Proof.
  intros Hm He Hk. apply (changes_bind _ _ _ (fun a v => P v /\ a = f v)); [|done].
  intros w Hw. destruct (Hm w) as [Hv Ha]. destruct (m w) as [[a|e] w'] eqn:E; cbn in *; rewrite Hv; [|by apply He]. split; [done|by apply Ha].
Qed.
Lemma changes_result {A B : Type} (P : keychain -> Prop) (r : NativeResult A) (k : A -> Keys W B) (Q : NativeResult B -> keychain -> Prop) :
  (forall v e, P v -> Q (Err e) v) -> (forall a, r = Ok a -> changes P (k a) Q) -> changes P (keys_bind (keys_result r) k) Q.
Proof. intros He Hk w Hw. unfold keys_bind, keys_result. destruct r as [a|e]; cbn; [by apply Hk|by apply He]. Qed.
Lemma changes_ret {B : Type} (P : keychain -> Prop) (b : B) (Q : NativeResult B -> keychain -> Prop) : (forall v, P v -> Q (Ok b) v) -> changes P (keys_ret b) Q.
Proof. intros HQ w Hw. by apply HQ. Qed.
Lemma changes_pre {B : Type} (P P' : keychain -> Prop) (m : Keys W B) Q : (forall v, P' v -> P v) -> changes P m Q -> changes P' m Q.
Proof. intros HP Hm w Hw. by apply Hm, HP. Qed.

Lemma write_changes (P : keychain -> Prop) (username value action : string) (Q : NativeResult unit -> keychain -> Prop) :
  (forall v, P v -> Q (Ok tt) (<[(SERVICE, username) := value]> v)) ->
  (forall v e, P v -> Q (Err e) v /\ Q (Err e) (<[(SERVICE, username) := value]> v)) ->
  changes P (write_entry username value action) Q.
Proof.
  intros Ho He w Hw. pose proof (kl_write _ laws username value w) as Hk. unfold write_entry, keys_bind, keys_call, keys_result.
  destruct (kr_write_private username value w) as [[[]|e] w'] eqn:E; cbn in *.
  - destruct Hk as [->|[Hk _]]; [by apply Ho|done].
  - destruct Hk as [->|[_ ->]]; by apply He.
Qed.
Lemma mark_changes (P : keychain -> Prop) (Q : NativeResult unit -> keychain -> Prop) :
  (forall v, P v -> spec_marked v = true -> Q (Ok tt) v) ->
  (forall v, P v -> Q (Ok tt) (<[(SERVICE, LEGACY_IMPORT_MARKER) := LEGACY_IMPORT_COMPLETE]> v)) ->
  (forall v e, P v -> Q (Err e) v /\ Q (Err e) (<[(SERVICE, LEGACY_IMPORT_MARKER) := LEGACY_IMPORT_COMPLETE]> v)) ->
  changes P mark_legacy_import_complete Q.
Proof.
  intros Hm Ho He. eapply changes_read; [apply complete_reads|intros v e Hv; by apply He|]. intros [].
  - apply changes_ret. intros v [Hv Hc]. by apply Hm.
  - apply write_changes; [intros v [Hv _]; by apply Ho|intros v e [Hv _]; by apply He].
Qed.
End Runs.

(** ** Saving, loading and signing out *)
Section Facts.
Context {W : Type} {R : Keyring W} {J : JsonText} {C : ServerCrypto} {K : SecretCodec}.
Context (view : W -> keychain) (laws : keyring_laws view) (codec : codec_laws).

(** The entries a change of an account's session may write. *)
Definition private_entries (account : string) : list string := [private_account_key account; ACCOUNT_INDEX; LEGACY_IMPORT_MARKER].
Lemma entry_key account : private_account_key account ∈ private_entries account. Proof. left. Qed.
Lemma entry_index account : ACCOUNT_INDEX ∈ private_entries account. Proof. right. left. Qed.
Lemma entry_marker account : LEGACY_IMPORT_MARKER ∈ private_entries account. Proof. do 2 right. left. Qed.

Lemma index_other v p value : p <> (SERVICE, ACCOUNT_INDEX) -> spec_index (<[p := value]> v) = spec_index v.
Proof. intros Hp. unfold spec_index. by rewrite lookup_insert_ne. Qed.
Lemma index_deleted v p : p <> (SERVICE, ACCOUNT_INDEX) -> spec_index (base.delete p v) = spec_index v.
Proof. intros Hp. unfold spec_index. by rewrite lookup_delete_ne. Qed.
Lemma index_stored v accounts index : encode_account_index accounts = Ok index -> spec_index (<[(SERVICE, ACCOUNT_INDEX) := index]> v) = accounts.
Proof. intros Hi%(index_opens codec). unfold spec_index. rewrite lookup_insert_eq. cbn. by rewrite Hi. Qed.
Lemma marked_inserted v : spec_marked (<[(SERVICE, LEGACY_IMPORT_MARKER) := LEGACY_IMPORT_COMPLETE]> v) = true.
Proof. unfold spec_marked. rewrite lookup_insert_eq. by apply bool_decide_eq_true_2. Qed.
Lemma marked_other v p value : p <> (SERVICE, LEGACY_IMPORT_MARKER) -> spec_marked (<[p := value]> v) = spec_marked v.
Proof. intros Hp. unfold spec_marked. by rewrite lookup_insert_ne. Qed.
Lemma key_apart account : (SERVICE, private_account_key account) <> (SERVICE, ACCOUNT_INDEX) /\ (SERVICE, private_account_key account) <> (SERVICE, LEGACY_IMPORT_MARKER).
Proof. destruct (private_key_apart account). split; congruence. Qed.
Lemma index_marker_apart : (SERVICE, ACCOUNT_INDEX) <> (SERVICE, LEGACY_IMPORT_MARKER).
Proof. discriminate. Qed.

(** What a finished save leaves: the session's entry, first in the index, and no import to come. *)
Definition saved (session : SessionData) (v : keychain) : Prop :=
  exists raw l, decode_session raw = Some session /\ v !! (SERVICE, private_account_key session.(sd_account_name)) = Some raw /\
    is_authenticated session = true /\ normalized_accounts (spec_index v) = session.(sd_account_name) :: l /\ spec_marked v = true.

Lemma saved_loads session v : saved session v -> spec_load v = Some session.
Proof.
  intros (raw & l & Hd & Hv & Ha & Hl & _). unfold spec_load, spec_private. rewrite Hl. cbn. unfold session_at at 1. rewrite Hv. cbn.
  rewrite Hd. cbn. by rewrite String.eqb_refl, Ha.
Qed.

(** With the index as it was or rewritten, what remains is the marker. *)
Lemma save_marks session v0 raw l :
  decode_session raw = Some session -> is_authenticated session = true ->
  changes view (fun v => touches (private_entries session.(sd_account_name)) v0 v /\
             v !! (SERVICE, private_account_key session.(sd_account_name)) = Some raw /\
             normalized_accounts (spec_index v) = session.(sd_account_name) :: l)
    mark_legacy_import_complete
    (fun r v => touches (private_entries session.(sd_account_name)) v0 v /\ (r = Ok tt -> saved session v)).
Proof.
  intros Hd Ha. destruct (key_apart session.(sd_account_name)) as [Hki Hkm]. pose proof index_marker_apart as Him.
  assert (forall v, touches (private_entries session.(sd_account_name)) v0 v ->
    touches (private_entries session.(sd_account_name)) v0 (<[(SERVICE, LEGACY_IMPORT_MARKER) := LEGACY_IMPORT_COMPLETE]> v)) as Ht.
  { intros v Hv. eapply touches_trans; [exact Hv|]. apply touches_insert, entry_marker. }
  apply (mark_changes view laws).
  - intros v (Hv & Hk & Hl) Hm. split; [done|]. intros _. by exists raw, l.
  - intros v (Hv & Hk & Hl). split; [by apply Ht|]. intros _. exists raw, l.
    rewrite lookup_insert_ne, index_other by done. split; [done|]. split; [done|]. split; [done|]. split; [done|apply marked_inserted].
  - intros v e (Hv & Hk & Hl). by split; split; [|done|apply Ht|done].
Qed.

Lemma save_changes session v0 :
  changes view (fun v => v = v0) (save session)
    (fun r v => touches (private_entries session.(sd_account_name)) v0 v /\ (r = Ok tt -> saved session v)).
Proof.
  set (a := session.(sd_account_name)). destruct (key_apart a) as [Hki Hkm].
  assert (forall v e, v = v0 -> touches (private_entries a) v0 v /\ (@Err unit NativeError e = Ok tt -> saved session v)) as Hnone.
  { intros v e ->. split; [apply touches_refl|done]. }
  unfold save. apply changes_result; [exact Hnone|]. intros [] Hvalid.
  assert (valid_account_name a = true) as Hname. { unfold validate_account_name in Hvalid. fold a in Hvalid. by destruct (valid_account_name a). }
  destruct (is_authenticated session) eqn:Hauth; cbn [negb]; [|intros w Hw; by apply Hnone].
  eapply changes_read; [by apply accounts_reads|exact Hnone|]. intros previous.
  apply changes_result; [intros v e [Hv _]; by apply Hnone|]. intros raw Hraw%(session_opens codec).
  apply changes_result; [intros v e [Hv _]; by apply Hnone|]. intros index Hindex.
  destruct (normalized_head a previous Hname) as [l Hl].
  destruct (normalized_head a l Hname) as [l' Hl'].
  set (v1 := <[(SERVICE, private_account_key a) := raw]> v0).
  assert (touches (private_entries a) v0 v1) as Ht1 by (apply touches_insert, entry_key).
  apply (changes_bind view _ _ _ (fun _ v => v = v1 /\ previous = spec_index v0)).
  { apply (write_changes view laws); [by intros v [-> ->]|]. intros v e [-> _]. split; (split; [|done]); [apply touches_refl|exact Ht1]. }
  intros _. apply (changes_bind view _ _ _ (fun _ v => touches (private_entries a) v0 v /\
    v !! (SERVICE, private_account_key a) = Some raw /\ normalized_accounts (spec_index v) = a :: l')).
  - change (session.(sd_account_name)) with a. destruct (bool_decide_reflect (normalized_accounts (a :: previous) = previous)) as [E|E].
    + apply changes_ret. intros v [-> ->]. split; [done|]. unfold v1. rewrite lookup_insert_eq, index_other by done.
      split; [done|]. rewrite <- E, Hl. exact Hl'.
    + apply (write_changes view laws).
      * intros v [-> _]. split; [eapply touches_trans; [exact Ht1|]; apply touches_insert, entry_index|].
        rewrite (index_stored _ _ _ Hindex), lookup_insert_ne by done. unfold v1. rewrite lookup_insert_eq. split; [done|].
        change (session.(sd_account_name)) with a. by rewrite Hl.
      * intros v e [-> _]. split; (split; [|done]); [exact Ht1|].
        eapply touches_trans; [exact Ht1|]. apply touches_insert, entry_index.
  - intros _. by apply save_marks.
Qed.

Lemma load_changes v0 :
  changes view (fun v => v = v0) load_default
    (fun r v => forall x, r = Ok x -> x = spec_load v0 /\ spec_load v = x /\ (x = spec_private v0 -> v = v0) /\
       (v <> v0 -> spec_marked v0 = false /\ exists session, x = Some session /\ touches (private_entries session.(sd_account_name)) v0 v)).
Proof.
  assert (forall x, x = spec_load v0 -> forall x', @Ok (option SessionData) NativeError x = Ok x' -> x' = spec_load v0 /\ spec_load v0 = x' /\ (x' = spec_private v0 -> v0 = v0) /\
    (v0 <> v0 -> spec_marked v0 = false /\ exists session, x' = Some session /\ touches (private_entries session.(sd_account_name)) v0 v0)) as Hsame.
  { intros x -> x' [= <-]. done. }
  unfold load_default. eapply changes_read; [by apply private_reads|done|]. intros private.
  destruct private as [session|].
  { apply changes_ret. intros v [-> Hp]. apply Hsame. unfold spec_load. by rewrite <- Hp. }
  eapply changes_read; [by apply complete_reads|done|]. intros [].
  { apply changes_ret. intros v [[-> Hp] Hc]. apply Hsame. unfold spec_load. by rewrite <- Hp, <- Hc. }
  eapply changes_read; [by apply legacy_reads|done|]. intros [session|].
  2: { apply changes_ret. intros v [[[-> Hp] Hc] Hl]. apply Hsame. unfold spec_load. by rewrite <- Hp, <- Hc. }
  intros w [[[Hw Hp] Hc] Hl]. unfold keys_bind. pose proof (save_changes session v0 w Hw) as [Ht Hs].
  destruct (save session w) as [[[]|e] w'] eqn:E; cbn in *; intros x [= <-]. subst v0.
  split; [unfold spec_load; by rewrite <- Hp, <- Hc|]. split; [by apply saved_loads, Hs|]. split; [by rewrite <- Hp|].
  intros _. split; [done|]. by exists session.
Qed.

(** A load that imports has saved what it returns. *)
Lemma load_imports w x :
  (load_default w).1 = Ok x -> spec_private (view w) = None ->
  match x with
  | Some session => saved session (view (load_default w).2) /\ spec_marked (view w) = false /\
      touches (private_entries session.(sd_account_name)) (view w) (view (load_default w).2)
  | None => True
  end.
Proof.
  intros Hx Hn. set (v0 := view w) in *.
  assert (changes view (fun v => v = v0) load_default (fun r v => match r with
    | Ok (Some session) => saved session v /\ spec_marked v0 = false /\ touches (private_entries session.(sd_account_name)) v0 v
    | _ => True end)) as Hc; [|specialize (Hc w eq_refl); rewrite Hx in Hc; exact Hc].
  unfold load_default. eapply changes_read; [by apply private_reads|done|]. intros private.
  destruct private as [session|]; [apply changes_ret; intros v [-> Hp]; congruence|].
  eapply changes_read; [by apply complete_reads|done|]. intros []; [by apply changes_ret|].
  eapply changes_read; [by apply legacy_reads|done|]. intros [session|]; [|by apply changes_ret].
  intros w1 [[[Hw1 _] Hm] _]. unfold keys_bind. pose proof (save_changes session v0 w1 Hw1) as [Ht Hs].
  destruct (save session w1) as [[[]|e] w2]; cbn in *; [|done]. split; [by apply Hs|]. split; [congruence|done].
Qed.

Definition signed_out (account : string) (v : keychain) : Prop :=
  spec_marked v = true /\ v !! (SERVICE, private_account_key account) = None /\ account ∉ spec_index v.

Lemma delete_changes account v0 :
  changes view (fun v => v = v0) (SecretStore.delete account)
    (fun r v => touches (private_entries account) v0 v /\ (v = v0 \/ spec_marked v = true) /\ (r = Ok tt -> signed_out account v)).
Proof.
  destruct (key_apart account) as [Hki Hkm]. pose proof index_marker_apart as Him.
  assert (forall v e, v = v0 -> touches (private_entries account) v0 v /\ (v = v0 \/ spec_marked v = true) /\
    (@Err unit NativeError e = Ok tt -> signed_out account v)) as Hnone.
  { intros v e ->. split; [apply touches_refl|]. by split; [left|]. }
  unfold SecretStore.delete. apply changes_result; [exact Hnone|]. intros _ _.
  eapply changes_read; [by apply accounts_reads|exact Hnone|]. intros previous.
  set (accounts := normalized_accounts _).
  assert (account ∉ accounts) as Hout.
  { intros [_ Hx]%normalized_subset%list_elem_of_In%filter_In. by rewrite String.eqb_refl in Hx. }
  apply changes_result; [intros v e [Hv _]; by apply Hnone|]. intros index Hindex.
  apply (changes_bind view _ _ _ (fun _ v => touches (private_entries account) v0 v /\ spec_marked v = true /\ spec_index v = previous)).
  { apply (mark_changes view laws).
    - intros v [-> ->] Hm. by split; [apply touches_refl|].
    - intros v [-> ->]. split; [apply touches_insert, entry_marker|]. split; [apply marked_inserted|by rewrite index_other].
    - intros v e [-> _]. split; [by apply Hnone|]. split; [apply touches_insert, entry_marker|].
      split; [right; apply marked_inserted|done]. }
  intros _ w (Ht & Hm & Hi). unfold keys_bind, keys_call. pose proof (kl_delete _ laws (private_account_key account) w) as Hd.
  destruct (kr_delete_private (private_account_key account) w) as [deleted w1] eqn:E. cbn in Hd |- *.
  assert (touches (private_entries account) v0 (view w1) /\ spec_marked (view w1) = true /\ spec_index (view w1) = previous) as (Ht1 & Hm1 & Hi1).
  { destruct Hd as [Hd|[_ Hd]]; rewrite Hd; [|done]. split; [eapply touches_trans; [exact Ht|]; apply touches_delete, entry_key|].
    rewrite index_deleted by done. split; [|done]. unfold spec_marked. rewrite lookup_delete_ne by done. exact Hm. }
  assert ((exists e, deleted = Err e /\ e <> NoEntry) \/ (view w1 !! (SERVICE, private_account_key account) = None /\
    changes view (fun v => v = view w1) (if bool_decide (accounts = previous) then keys_ret tt else store_private_accounts index)
      (fun r v => touches (private_entries account) v0 v /\ (v = v0 \/ spec_marked v = true) /\ (r = Ok tt -> signed_out account v)))) as Hrest.
  { destruct Hd as [Hd|[Hd _]]; [right|by left]. assert (view w1 !! (SERVICE, private_account_key account) = None) as Hk by by rewrite Hd, lookup_delete_eq.
    split; [done|]. destruct (bool_decide_reflect (accounts = previous)) as [Ea|Ea].
    - apply changes_ret. intros v ->. split; [done|]. split; [by right|]. intros _. split; [done|]. split; [done|]. by rewrite Hi1, <- Ea.
    - assert (touches (private_entries account) v0 (<[(SERVICE, ACCOUNT_INDEX) := index]> (view w1)) /\
        spec_marked (<[(SERVICE, ACCOUNT_INDEX) := index]> (view w1)) = true) as [Ht2 Hm2].
      { split; [eapply touches_trans; [exact Ht1|]; apply touches_insert, entry_index|]. by rewrite marked_other. }
      apply (write_changes view laws).
      + intros v ->. split; [done|]. split; [by right|]. intros _. split; [done|].
        rewrite lookup_insert_ne, (index_stored _ _ _ Hindex) by done. by split.
      + intros v e ->. by split; (split; [|split; [right|]]). }
  assert (forall B (e : NativeError), touches (private_entries account) v0 (view w1) /\ (view w1 = v0 \/ spec_marked (view w1) = true) /\
    (@Err B NativeError e = Err e -> @Err unit NativeError e = Ok tt -> signed_out account (view w1))) as Hfail.
  { intros B e. split; [done|]. by split; [right|]. }
  destruct Hrest as [(e & -> & He)|[_ Hrest]]; [by destruct e; cbn; (split; [done|split; [by right|done]])|].
  by destruct deleted as [[]|[]]; cbn; try (apply (Hrest w1); done); (split; [done|split; [by right|done]]).
Qed.

Lemma private_is_indexed session v : spec_private v = Some session -> session.(sd_account_name) ∈ spec_index v.
Proof.
  unfold spec_private. intros Hs. apply normalized_subset. revert Hs. generalize (normalized_accounts (spec_index v)). intros l.
  induction l as [|account l IH]; [done|]. cbn. unfold session_at at 1. destruct (_ ?> decode_session) as [found|]; cbn; [|intros Hs; right; by apply IH].
  destruct (String.eqb_spec (sd_account_name found) account) as [E|E]; cbn; [|intros Hs; right; by apply IH].
  destruct (is_authenticated found); cbn; [intros [= <-]; rewrite E; left|intros Hs; right; by apply IH].
Qed.

(** *** The mark of an import stays *)
Definition keeps_mark {B : Type} (m : Keys W B) : Prop :=
  changes view (fun v => spec_marked v = true) m (fun _ v => spec_marked v = true).

Lemma keeps_mark_bind {A B : Type} (m : Keys W A) (k : A -> Keys W B) :
  keeps_mark m -> (forall a, keeps_mark (k a)) -> keeps_mark (keys_bind m k).
Proof.
  intros Hm Hk. apply (changes_bind view _ _ _ (fun _ v => spec_marked v = true)); [|exact Hk].
  intros w Hw. specialize (Hm w Hw). by destruct (m w) as [[a|e] w'].
Qed.
Lemma keeps_mark_reads {B : Type} (m : Keys W B) f : reads view m f -> keeps_mark m.
Proof. intros Hm w Hw. destruct (Hm w) as [Hv _]. cbn. by rewrite Hv. Qed.
Lemma keeps_mark_pure {B : Type} (m : Keys W B) : (forall w, (m w).2 = w) -> keeps_mark m.
Proof. intros Hm w Hw. cbn. by rewrite Hm. Qed.
Lemma keeps_mark_write username value action :
  (SERVICE, username) <> (SERVICE, LEGACY_IMPORT_MARKER) -> keeps_mark (write_entry username value action).
Proof. intros Hne. apply (write_changes view laws); intros v; intros; (try split); by rewrite ?marked_other. Qed.
Lemma keeps_mark_mark : keeps_mark mark_legacy_import_complete.
Proof. apply (mark_changes view laws); [done|intros; apply marked_inserted|]. intros v e Hv. split; [done|apply marked_inserted]. Qed.

Lemma save_keeps_mark session : keeps_mark (save session).
Proof.
  destruct (key_apart session.(sd_account_name)) as [Hki Hkm]. pose proof index_marker_apart as Him. unfold save.
  apply keeps_mark_bind; [by apply keeps_mark_pure|intros _]. destruct (negb _); [by apply keeps_mark_pure|].
  apply keeps_mark_bind; [eapply keeps_mark_reads; by apply accounts_reads|intros previous].
  do 2 (apply keeps_mark_bind; [by apply keeps_mark_pure|intros ?]).
  apply keeps_mark_bind; [by apply keeps_mark_write|intros _].
  apply keeps_mark_bind; [destruct (bool_decide _); [by apply keeps_mark_pure|by apply keeps_mark_write]|intros _].
  apply keeps_mark_mark.
Qed.
Lemma load_keeps_mark : keeps_mark load_default.
Proof.
  unfold load_default. apply keeps_mark_bind; [eapply keeps_mark_reads; by apply private_reads|]. intros [session|]; [by apply keeps_mark_pure|].
  apply keeps_mark_bind; [eapply keeps_mark_reads; by apply complete_reads|]. intros []; [by apply keeps_mark_pure|].
  apply keeps_mark_bind; [eapply keeps_mark_reads; by apply legacy_reads|]. intros [session|]; [|by apply keeps_mark_pure].
  apply keeps_mark_bind; [apply save_keeps_mark|intros _]. by apply keeps_mark_pure.
Qed.
Lemma delete_keeps_mark account : keeps_mark (SecretStore.delete account).
Proof.
  destruct (key_apart account) as [Hki Hkm]. pose proof index_marker_apart as Him. unfold SecretStore.delete.
  apply keeps_mark_bind; [by apply keeps_mark_pure|intros _].
  apply keeps_mark_bind; [eapply keeps_mark_reads; by apply accounts_reads|intros previous].
  apply keeps_mark_bind; [by apply keeps_mark_pure|intros index].
  apply keeps_mark_bind; [apply keeps_mark_mark|intros _].
  apply keeps_mark_bind.
  - intros w Hw. unfold keys_call. pose proof (kl_delete _ laws (private_account_key account) w) as Hd.
    destruct (kr_delete_private _ w) as [deleted w1]. cbn in *.
    destruct Hd as [->|[_ ->]]; [|done]. unfold spec_marked. by rewrite lookup_delete_ne.
  - intros [[]|[]]; try (by apply keeps_mark_pure); (destruct (bool_decide _); [by apply keeps_mark_pure|by apply keeps_mark_write]).
Qed.

(** What may happen to the keyring: the program's operations, whatever they return, and other programs, which leave the
    entries of this program's service alone. *)
Inductive keyring_step : W -> W -> Prop :=
  | step_save session w : keyring_step w (save session w).2
  | step_load w : keyring_step w (load_default w).2
  | step_delete account w : keyring_step w (SecretStore.delete account w).2
  | step_others w w' : (forall username, view w' !! (SERVICE, username) = view w !! (SERVICE, username)) -> keyring_step w w'.

Lemma mark_stays w w' : spec_marked (view w) = true -> rtc keyring_step w w' -> spec_marked (view w') = true.
Proof.
  intros Hm Hr. eapply (rtc_invariant keyring_step (fun w => spec_marked (view w) = true)); [|exact Hm|exact Hr].
  clear -laws codec. intros w w' [session|?|account|? ? Ho] Hw;
    [by apply save_keeps_mark|by apply load_keeps_mark|by apply delete_keeps_mark|unfold spec_marked in *; by rewrite Ho].
Qed.

(** Under a mark a load only reads, and what it returns is the program's own. *)
Lemma marked_load w x :
  spec_marked (view w) = true -> (load_default w).1 = Ok x -> x = spec_private (view w) /\ view (load_default w).2 = view w.
Proof.
  intros Hm Hx. destruct (load_changes (view w) w eq_refl x Hx) as (Hl & _ & Hp & _).
  assert (x = spec_private (view w)) as E. { rewrite Hl. unfold spec_load. by destruct (spec_private (view w)); rewrite ?Hm. }
  split; [done|]. by apply Hp.
Qed.

Lemma saved_private session v : saved session v -> spec_private v = Some session /\ spec_marked v = true.
Proof.
  intros Hs. pose proof (saved_loads session v Hs) as Hl. destruct Hs as (raw & l & Hd & Hv & Ha & Hn & Hm). split; [|done].
  unfold spec_load in Hl. rewrite Hm in Hl. by destruct (spec_private v).
Qed.

(** C32: The store refines its specification on the map.  A save that succeeds makes its session the one that is loaded,
    leaves the mark of an import and writes only the account's entries.  A load that succeeds returns what the
    specification says and leaves that session as the program's own.  If there was none before, it has imported it, which
    happens only without a mark: it has written only the account's entries and left the mark; in every other case it
    has written nothing.  A mark stays, whatever saves, loads, sign-outs and other programs follow and whatever fails,
    and from then on every load that succeeds returns the program's own session and writes nothing: there is at most
    one import. *)
Theorem saved_session_is_default :
  (forall session w, let v' := view (save session w).2 in
     touches (private_entries session.(sd_account_name)) (view w) v' /\
     ((save session w).1 = Ok tt -> spec_load v' = Some session /\ spec_marked v' = true)) /\
  (forall w x, (load_default w).1 = Ok x -> let v' := view (load_default w).2 in
     x = spec_load (view w) /\ spec_private v' = x /\
     match spec_private (view w), x with
     | None, Some session =>
         spec_marked (view w) = false /\ spec_marked v' = true /\ touches (private_entries session.(sd_account_name)) (view w) v'
     | _, _ => v' = view w
     end) /\
  (forall w w' x, spec_marked (view w) = true -> rtc keyring_step w w' ->
     spec_marked (view w') = true /\
     ((load_default w').1 = Ok x -> x = spec_private (view w') /\ view (load_default w').2 = view w')).
Proof.
  split_and!.
  - intros session w. destruct (save_changes session (view w) w eq_refl) as [Ht Hs]. split; [done|]. intros Ho. specialize (Hs Ho).
    split; [by apply saved_loads|by apply saved_private in Hs as []].
  - intros w x Ho. pose proof (load_changes (view w) w eq_refl x Ho) as (Hx & Hl & Hp & Ht). split; [done|].
    pose proof (load_imports w x Ho) as Hi. destruct (spec_private (view w)) as [private|] eqn:E.
    + assert (x = Some private) as -> by (rewrite Hx; unfold spec_load; by rewrite E). rewrite (Hp eq_refl). done.
    + destruct x as [session|]; [|rewrite (Hp eq_refl); by rewrite E]. specialize (Hi eq_refl) as (Hsv & Hm & Hto).
      apply saved_private in Hsv as []. by split_and!.
  - intros w w' x Hm Hr. pose proof (mark_stays w w' Hm Hr) as Hm'. split; [done|]. by apply marked_load.
Qed.

(** C33: Signing an account out, whatever call fails, leaves the keyring as it was or keeps every later load from
    importing a session of another client; only the account's entries change. A sign-out that succeeds has deleted
    the session, and no later load returns a session of that account. *)
Theorem sign_out_is_durable account w :
  let v' := view (SecretStore.delete account w).2 in
  touches (private_entries account) (view w) v' /\
  (v' = view w \/ forall w', view w' = v' -> forall x, (load_default w').1 = Ok x -> x = spec_private v' /\ view (load_default w').2 = v') /\
  ((SecretStore.delete account w).1 = Ok tt ->
     v' !! (SERVICE, private_account_key account) = None /\
     forall w', view w' = v' -> forall session, (load_default w').1 = Ok (Some session) -> session.(sd_account_name) <> account).
Proof.
  cbn zeta. destruct (delete_changes account (view w) w eq_refl) as (Ht & Hm & Ho). split; [done|].
  assert (forall v, spec_marked v = true -> forall w', view w' = v -> forall x, (load_default w').1 = Ok x -> x = spec_private v /\ view (load_default w').2 = v) as Hmarked.
  { intros v Hv w' <- x Hx. destruct (load_changes (view w') w' eq_refl x Hx) as (Hl & _ & Hp & _).
    assert (x = spec_private (view w')) as E. { rewrite Hl. unfold spec_load. by destruct (spec_private (view w')); rewrite ?Hv. }
    split; [done|]. by apply Hp. }
  split; [destruct Hm as [Hm|Hm]; [by left|right; by apply Hmarked]|].
  intros Hok. destruct (Ho Hok) as (Hv & Hk & Hi). split; [done|]. intros w' Hw session Hs.
  destruct (Hmarked _ Hv w' Hw _ Hs) as [E _]. symmetry in E. apply private_is_indexed in E. intros E'. by rewrite E' in E.
Qed.
End Facts.
