(* ===== verification/SecretExample.v ===== *)
(** A keyring in memory with calls that fail when told to, and what the store does with it. *)
From S2P Require Export SecretStore.
Open Scope string_scope.
Open Scope Z_scope.
Open Scope list_scope.
Open Scope rust_scope.

(** ** Texts *)

(** A list of strings: every character after a one, a zero at the end of each. *)
Fixpoint demo_word (s : string) : string := match s with "" => "0" | String a s => String "1" (String a (demo_word s)) end.
Fixpoint demo_words (l : list string) : string := match l with [] => "" | s :: l => demo_word s +:+ demo_words l end.
Fixpoint demo_unwords (text word : string) : option (list string) :=
  match text with
  | "" => if is_empty word then Some [] else None
  | String "0" text => match demo_unwords text "" with Some l => Some (str_rev word :: l) | None => None end
  | String _ (String a text) => demo_unwords text (String a word)
  | _ => None
  end.
Lemma demo_word_back s : forall acc rest, demo_unwords (demo_word s +:+ rest) acc =
  match demo_unwords rest "" with Some l => Some ((str_rev_app acc s) :: l) | None => None end.
Proof. induction s as [|a s IH]; intros acc rest; [done|]. exact (IH (String a acc) rest). Qed.
Lemma demo_words_back l : demo_unwords (demo_words l) "" = Some l.
Proof. induction l as [|s l IH]; [done|]. change (demo_words (s :: l)) with (demo_word s +:+ demo_words l). rewrite demo_word_back, IH. by destruct s. Qed.

Definition plain_session (name token : string) : SessionData :=
  mkSessionData "uid" token "refresh" [] name false ""
    (mkVpnSessionData Null (mkVpnCertificate "" "" "" 0 0 "" "" ∅) "" (mkVpnLocation "" "" "" None None)) ∅.
#[local] Instance demo_text : JsonText :=
  mkJsonText (fun _ => "") (fun text => option_map strs_to_json (demo_unwords text "")) (fun _ _ => "refused").
#[local] Instance demo_crypto : ServerCrypto :=
  mkServerCrypto Some (fun _ => "") unit unit (fun _ => None) (fun _ _ _ => false) tt
    (fun j => match strs_of_json j with Some l => demo_words l | None => "" end).
(** Only sessions that have nothing but a name and a token have a text. *)
#[local] Instance demo_codec : SecretCodec :=
  mkSecretCodec (fun text => text) Some (fun text => text)
    (fun s => match s with
              | mkSessionData uid token refresh scopes name plain environment (mkVpnSessionData Null (mkVpnCertificate a b c d e f g extra) key
                  (mkVpnLocation h i j None None)) extra' =>
                  if bool_decide ((uid = "uid" /\ refresh = "refresh" /\ scopes = [] /\ plain = false /\ environment = "" /\ key = "") /\
                       (a = "" /\ b = "" /\ c = "" /\ d = 0 /\ e = 0 /\ f = "" /\ g = "") /\ (h = "" /\ i = "" /\ j = "") /\
                       map_to_list extra = [] /\ map_to_list extra' = [])
                  then Ok (demo_words [name; token]) else Err "unsupported"
              | _ => Err "unsupported"
              end)
    (fun text => match demo_unwords text "" with Some [name; token] => Some (plain_session name token) | _ => None end).

Lemma demo_codec_laws : codec_laws.
Proof.
  split; [done| |].
  - intros [uid token refresh scopes name plain environment [vpninfo [a b c d e f g extra] key [h i j [|] [|]]] extra'] text; destruct vpninfo; cbn; try discriminate.
    case_bool_decide as Hp; [|discriminate]. intros [= <-]. destruct_and! Hp. subst.
    pose proof (demo_words_back [name; token]) as Hb. cbn in Hb. rewrite Hb. unfold plain_session.
    repeat match goal with H : map_to_list _ = [] |- _ => apply map_to_list_empty_iff in H; rewrite H end. done.
  - intros l.
    change (option_map strs_to_json (demo_unwords (match strs_of_json (strs_to_json l) with Some l => demo_words l | None => "" end) "")
            = Some (strs_to_json l)).
    by rewrite strs_roundtrip, demo_words_back.
Qed.

(** ** The keyring *)

(** The entries, and whether each of the next mutations fails. *)
Definition demo_world : Type := keychain * list bool.
Definition demo_mutation (f : keychain -> result unit KeyringError * keychain) (w : demo_world) : result unit KeyringError * demo_world :=
  match w.2 with
  | true :: fails => (Err (KeyringFailed "locked"), (w.1, fails))
  | _ => let '(r, v) := f w.1 in (r, (v, tail w.2))
  end.
#[local] Instance demo_keyring : Keyring demo_world :=
  mkKeyring demo_world
    (fun service username w => (match w.1 !! (service, username) with Some value => Ok value | None => Err NoEntry end, w))
    (fun username value => demo_mutation (fun v => (Ok tt, <[(SERVICE, username) := value]> v)))
    (fun username => demo_mutation (fun v =>
       (match v !! (SERVICE, username) with Some _ => Ok tt | None => Err NoEntry end, base.delete (SERVICE, username) v)))
    "no entry".
Lemma demo_laws : keyring_laws (fun w : demo_world => w.1).
Proof.
  split.
  - done.
  - intros service username w value. cbn. destruct (_ !! _); congruence.
  - intros service username w. cbn. by destruct (_ !! _).
  - intros username value [v [|[] l]]; cbn; [by left|right; by split|by left].
  - intros username [v [|[] l]]; cbn; [by left|right; split; [by eexists|done]|by left].
Qed.

(** A session of Proton's own clients, in the form their keyring leaves it. *)
Definition legacy_chain : keychain :=
  <[(LEGACY_SERVICE, LEGACY_ACCOUNT_INDEX) := demo_words ["ada"]]>
  (<[(LEGACY_SERVICE, legacy_account_key "ada") := demo_words ["ada"; "old"]]> ∅).
Definition imported : demo_world := (load_default (legacy_chain, [])).2.

Example import_happens : (load_default (legacy_chain, [])).1 = Ok (Some (plain_session "ada" "old")).
Proof. vm_compute. reflexivity. Qed.
(** The keyring locks before the marker is written: nothing is lost, the import is tried again. *)
Example import_fails : (load_default (legacy_chain, [true])).1 =
  Err (keyring_error "store Proton VPN for Omarchy session" (KeyringFailed "locked")) /\ (load_default (legacy_chain, [true])).2.1 = legacy_chain.
Proof. split; vm_compute; reflexivity. Qed.
(** A sign-out whose last call fails: the index still lists the account, whose session is gone. *)
Example interrupted_sign_out :
  let w := SecretStore.delete "ada" (imported.1, [false; true]) in
  is_ok w.1 = false /\ (load_default w.2).1 = Ok None.
Proof. split; vm_compute; reflexivity. Qed.

Lemma saved_session_is_default_witness :
  let after_save := (save (plain_session "bob" "new") imported).2 in
  spec_private imported.1 = Some (plain_session "ada" "old") /\ spec_marked imported.1 = true /\
  spec_load after_save.1 = Some (plain_session "bob" "new") /\ spec_marked after_save.1 = true /\
  (load_default after_save).2.1 = after_save.1.
Proof.
  intros after_save.
  destruct (saved_session_is_default (fun w : demo_world => w.1) demo_laws demo_codec_laws) as (Hsave & Hload & Hmark).
  assert ((load_default (legacy_chain, [])).1 = Ok (Some (plain_session "ada" "old"))) as Hi by (vm_compute; reflexivity).
  assert ((save (plain_session "bob" "new") imported).1 = Ok tt) as Ho by (vm_compute; reflexivity).
  assert ((load_default after_save).1 = Ok (Some (plain_session "bob" "new"))) as Hn by (vm_compute; reflexivity).
  destruct (Hload _ _ Hi) as (_ & Hp & Hm). change (spec_private imported.1 = Some (plain_session "ada" "old")) in Hp.
  assert (spec_private legacy_chain = None) as E by (vm_compute; reflexivity). cbn [fst] in Hm. rewrite E in Hm.
  destruct Hm as (_ & Hm & _). change (spec_marked imported.1 = true) in Hm.
  destruct (Hsave (plain_session "bob" "new") imported) as [_ Hs]. specialize (Hs Ho) as [Hs _].
  destruct (Hmark imported after_save (Some (plain_session "bob" "new")) Hm) as [Hm' Hl]; [apply rtc_once, step_save|].
  split; [exact Hp|]. split; [exact Hm|]. split; [exact Hs|]. split; [exact Hm'|]. exact (proj2 (Hl Hn)).
Defined.
Lemma sign_out_is_durable_witness :
  let w := SecretStore.delete "ada" imported in
  w.1 = Ok tt /\ w.2.1 !! (SERVICE, private_account_key "ada") = None /\
  forall session, (load_default w.2).1 = Ok (Some session) -> session.(sd_account_name) <> "ada".
Proof.
  assert ((SecretStore.delete "ada" imported).1 = Ok tt) as Ho by (vm_compute; reflexivity).
  destruct (proj2 (proj2 (sign_out_is_durable (fun w : demo_world => w.1) demo_laws demo_codec_laws "ada" imported)) Ho) as [Hk Hl].
  split; [exact Ho|split; [exact Hk|exact (Hl _ eq_refl)]].
Defined.
