(* ===== verification/NetManager.v ===== *)
(** The agent's use of NetworkManager ([agent/src/native_backend/network.rs]): observing tunnels,
    activating and removing them, and reconciling the kill switch.

    NetworkManager is the class [NetworkManager]: what each call reads in a state of the system and what
    it changes.  Reads do not change the state; the properties of an active connection are read together
    with the list it is in.  A run lists the states it goes through, one after every command, so that
    what holds meanwhile can be stated; [Running] is the outcome of a loop whose fuel ran out. *)
From S2P Require Export NetSettings.
Open Scope string_scope.
Open Scope Z_scope.
Open Scope list_scope.
Open Scope rust_scope.

(** ** NetworkManager *)
Record active_connection : Type := mkActive {
  ac_path : string;
  ac_id : option string;
  ac_uuid : option string;
  ac_connection : option string;
  ac_vpn : option bool;
  ac_vpn_state : option Z;
  ac_state : option Z;
  ac_type : option string;
  ac_interfaces : list (option string) }.

(** The configuration of a device in one address family: the [address] of each entry of its address data,
    its gateway, and its name servers ([nameserver_data]; [nameservers], numbers for IPv4 and bytes for IPv6). *)
Record ip_config : Type := mkIpConfig {
  ic_addresses : result (list (option string)) string;
  ic_gateway : option string;
  ic_nameserver_data : list (option string);
  ic_nameservers4 : list Z;
  ic_nameservers6 : list (list Z) }.

Record access_point : Type := mkAccessPoint {
  ap_ssid : result (list Z) string;
  ap_wpa_flags : result Z string;
  ap_rsn_flags : result Z string }.

(** A device.  A configuration or access point is [None] if it cannot be read or there is none. *)
Record nm_device : Type := mkDevice {
  dv_state : option Z;
  dv_type : option Z;
  dv_interface : result string string;
  dv_ip4 : option ip_config;
  dv_ip6 : option ip_config;
  dv_access_point : option access_point }.

Class NetworkManager (W : Type) : Type := mkNetworkManager {
  nm_bus : W -> result unit string;
  nm_active : W -> result (list active_connection) string;
  nm_profiles : W -> result (list string) string;
  nm_settings_of : W -> string -> option nm_settings;
  nm_devices : W -> result (list nm_device) string;
  nm_check_enabled : W -> option bool;
  nm_primary : W -> option string;
  nm_type_of : W -> string -> option string;
  nm_set_check : bool -> W -> result unit string * W;
  (** [AddConnection] when [true], [AddConnectionUnsaved] otherwise. *)
  nm_add : bool -> nm_settings -> W -> result string string * W;
  nm_activate : string -> string -> W -> result string string * W;
  nm_deactivate : string -> W -> result unit string * W;
  nm_delete : string -> W -> result unit string * W;
  (** [nmcli device modify]: whether it could be invoked, and its error output when it fails. *)
  nm_modify : string -> string -> string -> W -> result (result unit string) string * W;
  (** [fs::remove_dir_all] on the directory that holds the credentials of a tunnel. *)
  os_remove_credentials : string -> W -> W }.

Definition nm_error (action source : string) : NativeError :=
  ne_set_retryable true (ne_with_source source
    (NativeError_new "networkmanager_error" ("Unable to " +:+ action +:+ " through NetworkManager"))).

(** ** Runs *)
Inductive outcome (A : Type) : Type :=
  | Done (r : NativeResult A)
  | Running.
Arguments Done {A} r.
Arguments Running {A}.

Inductive TunnelState : Type :=
  | Disconnected
  | Connecting
  | Connected
  | TunnelError.
#[export] Instance TunnelState_eq_dec : EqDecision TunnelState.
Proof. solve_decision. Defined.

Record TunnelObservation : Type := mkObservation {
  to_state : TunnelState;
  to_active_path : option string;
  to_connection_path : option string;
  to_id : option string;
  to_uuid : option string;
  to_protocol : option string;
  to_endpoint : option string;
  to_profile_id : option string;
  to_owned : bool }.

Definition no_tunnel : TunnelObservation := mkObservation Disconnected None None None None None None None false.

Section Manager.
Context {W : Type} {N : NetworkManager W}.

Definition NM (A : Type) : Type := W -> outcome A * W * list W.
Definition nm_ret {A : Type} (a : A) : NM A := fun s => (Done (Ok a), s, []).
Definition nm_throw {A : Type} (e : NativeError) : NM A := fun s => (Done (Err e), s, []).
Definition nm_bind {A B : Type} (m : NM A) (k : A -> NM B) : NM B := fun s =>
  match m s with
  | (Done (Ok a), s, seen) => let '(r, s, seen') := k a s in (r, s, seen ++ seen')
  | (Done (Err e), s, seen) => (Done (Err e), s, seen)
  | (Running, s, seen) => (Running, s, seen)
  end.
(** The run of [m] with its result as a value. *)
Definition nm_try {A B : Type} (m : NM A) (k : NativeResult A -> NM B) : NM B := fun s =>
  match m s with
  | (Done r, s, seen) => let '(r', s, seen') := k r s in (r', s, seen ++ seen')
  | (Running, s, seen) => (Running, s, seen)
  end.
Definition nm_read {A : Type} (f : W -> NativeResult A) : NM A := fun s => (Done (f s), s, []).
Definition nm_call {A : Type} (f : W -> result A string * W) (error : string -> NativeError) : NM A := fun s =>
  let '(r, s) := f s in (Done (res_map_err error r), s, [s]).
Definition nm_effect (f : W -> W) : NM unit := fun s => (Done (Ok tt), f s, [f s]).
End Manager.

Notation "'let^' x ':=' m 'in' k" := (nm_bind m (fun x => k))
  (at level 200, x name, k at level 200, right associativity) : rust_scope.
Notation "m ';;^' k" := (nm_bind m (fun _ => k)) (at level 100, k at level 200, right associativity) : rust_scope.

Section Network.
Context {W : Type} {N : NetworkManager W} {J : JsonText} (username : string) (uid : Z).

Definition system_bus : NM (W := W) unit := nm_read (fun s => res_map_err (nm_error "connect to NetworkManager") (nm_bus s)).
Definition active_connections : NM (W := W) (list active_connection) :=
  nm_read (fun s => res_map_err (nm_error "list active NetworkManager connections") (nm_active s)).
Definition list_connections (what : string) : NM (W := W) (list string) :=
  nm_read (fun s => res_map_err (nm_error ("list " +:+ what)) (nm_profiles s)).
Definition settings_now (s : W) (c : option string) : option nm_settings := c ?> nm_settings_of s.

(** *** Observation *)
Definition tunnel_state (vpn_state : Z) : TunnelState :=
  if vpn_state =? 5 then Connected
  else if (vpn_state =? 1) || (vpn_state =? 2) || (vpn_state =? 3) || (vpn_state =? 4) then Connecting
  else if vpn_state =? 6 then TunnelError
  else Disconnected.

(** The observation of one active connection, if it is a tunnel of the kind asked for. *)
Definition observe_active (s : W) (uuid : option string) (a : active_connection) : option TunnelObservation :=
  if negb (unwrap_or a.(ac_vpn) false) then None
  else
    match a.(ac_connection), settings_now s a.(ac_connection) with
    | Some connection, Some settings =>
        if match uuid with
           | Some uuid => negb (bool_decide (a.(ac_uuid) = Some uuid))
           | None => match vpn_data_string settings GUEST_HOLE_PURPOSE with Some _ => true | None => false end
           end
        then None
        else if negb (tunnel_service settings) then None
        else
          let owned := profile_owned settings in
          Some (mkObservation (tunnel_state (unwrap_or a.(ac_vpn_state) 0)) (Some a.(ac_path)) (Some connection)
                  a.(ac_id) a.(ac_uuid) (profile_protocol settings) (profile_endpoint settings)
                  (if owned then profile_store_id settings else None) owned)
    | _, _ => None
    end.

Fixpoint find_map_opt {A B : Type} (f : A -> option B) (l : list A) : option B :=
  match l with
  | [] => None
  | x :: l => match f x with Some y => Some y | None => find_map_opt f l end
  end.

Definition observe_matching (uuid : option string) : NM (W := W) TunnelObservation :=
  system_bus ;;^
  let^ actives := active_connections in
  nm_read (fun s => Ok (unwrap_or (find_map_opt (observe_active s uuid) actives) no_tunnel)).
Definition observe : NM (W := W) TunnelObservation := observe_matching None.
Definition observe_uuid (uuid : string) : NM (W := W) TunnelObservation := observe_matching (Some uuid).

(** *** Looking connections up *)
Definition settings_connection_by_id_owned (id : string) : NM (W := W) (option string) :=
  let^ paths := list_connections "NetworkManager profiles" in
  nm_read (fun s => Ok (find_first (fun path =>
    match nm_settings_of s path with
    | Some settings => bool_decide (connection_id settings = Some id) && connection_owned settings
    | None => false
    end) paths)).

Definition is_owned_active (s : W) (id : string) (a : active_connection) : bool :=
  bool_decide (a.(ac_id) = Some id)
  && match settings_now s a.(ac_connection) with Some settings => connection_owned settings | None => false end.
Definition active_owned_connection_by_id (id : string) : NM (W := W) (option string) :=
  let^ actives := active_connections in
  nm_read (fun s => Ok (option_map ac_path (find_first (is_owned_active s id) actives))).
Definition active_connection_by_id (id : string) : NM (W := W) (option string) :=
  let^ actives := active_connections in
  nm_ret (option_map ac_path (find_first (fun a => bool_decide (a.(ac_id) = Some id)) actives)).

(** *** Removal of a protection *)
Definition tolerate_race (id : string) (r : NativeResult unit) : NM (W := W) unit :=
  match r with
  | Ok _ => nm_ret tt
  | Err e =>
      let^ still := active_owned_connection_by_id id in
      match still with Some _ => nm_throw e | None => nm_ret tt end
  end.

Fixpoint deactivate_all (fuel : nat) (id : string) (removed : bool) : NM (W := W) bool :=
  match fuel with
  | O => fun s => (Running, s, [])
  | S fuel =>
      let^ found := active_owned_connection_by_id id in
      match found with
      | None => nm_ret removed
      | Some path =>
          nm_try (nm_call (nm_deactivate path) (nm_error "deactivate Proton protection connection")) (fun r =>
            tolerate_race id r ;;^ deactivate_all fuel id true)
      end
  end.

Fixpoint delete_each (matches : nm_settings -> bool) (action : string) (paths : list string) (removed : bool) : NM (W := W) bool :=
  match paths with
  | [] => nm_ret removed
  | path :: paths =>
      let^ settings := nm_read (fun s => Ok (nm_settings_of s path)) in
      if match settings with Some settings => matches settings | None => false end
      then nm_call (nm_delete path) (nm_error action) ;;^ delete_each matches action paths true
      else delete_each matches action paths removed
  end.

Definition owned_with_id (id : string) (settings : nm_settings) : bool :=
  bool_decide (connection_id settings = Some id) && connection_owned settings.

(** [fuel] bounds the [while let] loop. *)
Definition remove_owned_connections_by_id (fuel : nat) (id : string) : NM (W := W) bool :=
  system_bus ;;^
  let^ removed := deactivate_all fuel id false in
  let^ paths := list_connections "NetworkManager profiles" in
  delete_each (owned_with_id id) "remove Proton protection connection" paths removed.

(** *** The kill switch *)
Definition disable_connectivity_check : NM (W := W) unit :=
  let^ enabled := nm_read (fun s => Ok (unwrap_or (nm_check_enabled s) false)) in
  if enabled then nm_call (nm_set_check false) (nm_error "disable NetworkManager connectivity checking") else nm_ret tt.

Definition add_connection (persistent : bool) (settings : nm_settings) (action : string) : NM (W := W) string :=
  nm_call (nm_add persistent settings) (nm_error action).
Definition activate (connection specific action : string) : NM (W := W) string :=
  nm_call (nm_activate connection specific) (nm_error action).
Definition DBUS_ROOT : string := "/".

(** The part [ensure_ipv6_leak_protection] and [ensure_full_kill_switch] have in common: activate the
    connection with this id unless one is active, reusing the stored profile if there is one. *)
Definition profile_for (id : string) (persistent : bool) (settings : nm_settings) (create : string) : NM (W := W) string :=
  let^ existing := settings_connection_by_id_owned id in
  match existing with
  | Some path => nm_ret path
  | None => add_connection persistent settings create
  end.
Definition ensure_active (id : string) (persistent : bool) (settings : nm_settings) (create activation : string)
    : NM (W := W) unit :=
  let^ active := active_connection_by_id id in
  match active with
  | Some _ => nm_ret tt
  | None =>
      let^ path := profile_for id persistent settings create in
      activate path DBUS_ROOT activation ;;^ nm_ret tt
  end.

Definition ensure_ipv6_leak_protection (uuid : string) : NM (W := W) unit :=
  system_bus ;;^
  disable_connectivity_check ;;^
  ensure_active IPV6_LEAK_CONNECTION_ID false (ipv6_leak_settings username uuid)
    "create IPv6 leak protection" "activate IPv6 leak protection".

Definition kill_switch_id (permanent : bool) : string :=
  if permanent then KILL_SWITCH_PERMANENT_CONNECTION_ID else KILL_SWITCH_CONNECTION_ID.
Definition kill_switch_interface (permanent : bool) : string :=
  if permanent then KILL_SWITCH_PERMANENT_INTERFACE else KILL_SWITCH_INTERFACE.

Definition ensure_full_kill_switch (fuel : nat) (uuid : string) (permanent : bool) : NM (W := W) unit :=
  system_bus ;;^
  disable_connectivity_check ;;^
  let id := kill_switch_id permanent in
  ensure_active id permanent (kill_switch_settings username uuid id (kill_switch_interface permanent) permanent)
    (if permanent then "create permanent Kill Switch" else "create standard Kill Switch") "activate Kill Switch" ;;^
  remove_owned_connections_by_id fuel (kill_switch_id (negb permanent)) ;;^ nm_ret tt.

Definition kill_switch_route_unavailable (message : string) : NativeError :=
  NativeError_new "kill_switch_route_unavailable" message.

Definition eligible_device (d : nm_device) : option string :=
  if negb (unwrap_or d.(dv_state) 0 =? 100)
     || negb ((unwrap_or d.(dv_type) 0 =? 1) || (unwrap_or d.(dv_type) 0 =? 2)) then None
  else d.(dv_ip4) ?> fun config => opt_filter (fun gateway => negb (is_empty gateway)) (Some (unwrap_or config.(ic_gateway) "")).

Fixpoint modify_routes (server_ip property : string) (devices : list nm_device) (eligible : nat) : NM (W := W) nat :=
  match devices with
  | [] => nm_ret eligible
  | d :: devices =>
      match eligible_device d with
      | None => modify_routes server_ip property devices eligible
      | Some gateway =>
          let^ interface := nm_read (fun _ => res_map_err (nm_error "read the physical interface name") d.(dv_interface)) in
          let^ output := nm_call (nm_modify interface property (server_ip +:+ "/32 " +:+ gateway))
            (fun error => kill_switch_route_unavailable ("Could not invoke NetworkManager: " +:+ error)) in
          match output with
          | Err details =>
              nm_throw (kill_switch_route_unavailable
                (if is_empty details then "NetworkManager could not apply the VPN server bypass route"
                 else "NetworkManager could not apply the VPN server bypass route: " +:+ details))
          | Ok _ => modify_routes server_ip property devices (S eligible)
          end
      end
  end.

Context {L : IpLib}.
Definition is_ipv4_text (s : string) : bool := match addr_from_str s with Some (IpV4 _) => true | _ => false end.

Definition modify_server_route (server_ip : string) (add : bool) : NM (W := W) unit :=
  if negb (is_ipv4_text server_ip)
  then nm_throw (NativeError_new "kill_switch_route_invalid" "The VPN server has no valid IPv4 endpoint for Kill Switch")
  else
    system_bus ;;^
    let^ devices := nm_read (fun s => res_map_err (nm_error "list NetworkManager devices") (nm_devices s)) in
    let^ eligible := modify_routes server_ip (if add then "+ipv4.routes" else "-ipv4.routes") devices 0 in
    if add && (eligible =? 0)%nat
    then nm_throw (ne_set_retryable true
           (kill_switch_route_unavailable "No active Ethernet or Wi-Fi gateway can reach the VPN server"))
    else nm_ret tt.

Definition opt_route (server_ip : option string) (add : bool) : NM (W := W) unit :=
  match server_ip with Some ip => modify_server_route ip add | None => nm_ret tt end.
Definition remove_ipv6_leak_protection (fuel : nat) : NM (W := W) bool := remove_owned_connections_by_id fuel IPV6_LEAK_CONNECTION_ID.

Definition should_block (mode : Z) (tunnel_active : bool) : bool := (mode =? 2) || ((mode =? 1) && tunnel_active).

Definition reconcile_kill_switch (fuel : nat) (uuid : string) (mode : Z) (tunnel_active : bool) (server_ip : option string)
    (ipv6_leak_protection : bool) : NM (W := W) unit :=
  if 2 <? mode
  then nm_throw (NativeError_new "invalid_kill_switch" "Kill Switch mode must be off, standard or advanced")
  else if negb (should_block mode tunnel_active) then
    remove_owned_connections_by_id fuel KILL_SWITCH_CONNECTION_ID ;;^
    remove_owned_connections_by_id fuel KILL_SWITCH_PERMANENT_CONNECTION_ID ;;^
    (if negb (mode =? 0) then opt_route server_ip false else nm_ret tt) ;;^
    if tunnel_active && ipv6_leak_protection then ensure_ipv6_leak_protection uuid
    else remove_ipv6_leak_protection fuel ;;^ nm_ret tt
  else
    ensure_full_kill_switch fuel uuid (mode =? 2) ;;^
    remove_ipv6_leak_protection fuel ;;^
    opt_route server_ip tunnel_active.

Definition network_blocked : NM (W := W) bool :=
  system_bus ;;^
  let^ standard := active_connection_by_id KILL_SWITCH_CONNECTION_ID in
  let^ blocking := match standard with
                   | Some _ => nm_ret true
                   | None =>
                       let^ permanent := active_connection_by_id KILL_SWITCH_PERMANENT_CONNECTION_ID in
                       nm_ret (match permanent with Some _ => true | None => false end)
                   end in
  if negb blocking then nm_ret false
  else let^ o := observe in nm_ret (negb (bool_decide (o.(to_state) = Connected))).

(** *** Tunnels *)
Definition best_parent (s : W) : string :=
  match nm_primary s with
  | None => DBUS_ROOT
  | Some primary =>
      if String.eqb primary DBUS_ROOT then DBUS_ROOT
      else match nm_type_of s primary with
           | Some kind => if existsb (String.eqb kind) ["802-3-ethernet"; "802-11-wireless"; "gsm"; "cdma"; "bridge"]
                          then primary else DBUS_ROOT
           | None => DBUS_ROOT
           end
  end.

(** [cleanup_credentials]: only an OpenVPN profile has any. *)
Definition cleanup_credentials (profile : VpnProfile) : NM (W := W) unit :=
  match profile with OpenVpn p => nm_effect (os_remove_credentials p.(ov_uuid)) | Protun _ => nm_ret tt end.

Definition nm_connect (profile : VpnProfile) : NM (W := W) TunnelObservation :=
  system_bus ;;^
  let^ connection :=
    nm_try (add_connection false (dbus_settings username uid profile) "create the temporary Proton VPN profile") (fun r =>
      match r with
      | Ok connection => nm_ret connection
      | Err e => cleanup_credentials profile ;;^ nm_throw e
      end) in
  let^ specific := nm_read (fun s => Ok (best_parent s)) in
  nm_try (activate connection specific "activate the Proton VPN profile") (fun r =>
    match r with
    | Ok active =>
        nm_ret (mkObservation Connecting (Some active) (Some connection) (Some (profile_id_of profile))
                  (Some (profile_uuid profile)) (Some (profile_protocol_of profile)) None (profile_store profile) true)
    | Err e =>
        nm_try (nm_call (nm_delete connection) (nm_error "")) (fun _ => cleanup_credentials profile ;;^ nm_throw e)
    end).

Definition disconnect_observation (o : TunnelObservation) : NM (W := W) bool :=
  match o.(to_active_path) with
  | None => nm_ret false
  | Some active =>
      system_bus ;;^
      nm_call (nm_deactivate active) (nm_error "deactivate the Proton VPN connection") ;;^
      match o.(to_connection_path) with
      | None => nm_ret true
      | Some connection => nm_try (nm_call (nm_delete connection) (nm_error "")) (fun _ => nm_ret true)
      end
  end.

Definition owned_with_uuid (uuid : string) (settings : nm_settings) : bool :=
  bool_decide (setting_str settings "connection" "uuid" = Some uuid) && profile_owned settings.
Definition delete_inactive_owned_profile (uuid : string) : NM (W := W) unit :=
  system_bus ;;^
  let^ paths := list_connections "temporary profiles" in
  delete_each (owned_with_uuid uuid) "delete temporary profile" paths false ;;^ nm_ret tt.

Definition disconnect_uuid (uuid : string) : NM (W := W) bool :=
  let^ o := observe_uuid uuid in
  let^ disconnected := if bool_decide (o.(to_uuid) = Some uuid) then disconnect_observation o else nm_ret false in
  nm_effect (os_remove_credentials uuid) ;;^
  delete_inactive_owned_profile uuid ;;^ nm_ret disconnected.

(** The loop of [cleanup_guest_profiles]. *)
Fixpoint cleanup_guests (paths : list string) : NM (W := W) unit :=
  match paths with
  | [] => nm_ret tt
  | path :: paths =>
      let^ settings := nm_read (fun s => Ok (nm_settings_of s path)) in
      match settings with
      | None => cleanup_guests paths
      | Some settings =>
          if negb (bool_decide (vpn_data_string settings GUEST_HOLE_PURPOSE = Some (dec uid))) || negb (profile_owned settings)
          then cleanup_guests paths
          else match setting_str settings "connection" "uuid" with
               | Some uuid => disconnect_uuid uuid ;;^ cleanup_guests paths
               | None => cleanup_guests paths
               end
      end
  end.
Definition cleanup_guest_profiles : NM (W := W) unit :=
  system_bus ;;^
  let^ paths := list_connections "recovery profiles" in
  cleanup_guests paths.
End Network.
