(* ===== verification/Credentials.v ===== *)
(** The credential files of OpenVPN tunnels ([agent/src/native_backend/network.rs]: [openvpn_root], [openvpn_credential_dir],
    [write_private_file], the part of [OpenVpnProfile::new] that creates them, and their removal).

    The file system is a map of directories with their permissions and one of files with theirs, paths compared as text.
    A system call fails as the disk's faults say, and may then have done part of its work. *)
From S2P Require Export Io NetManager.
Open Scope string_scope.
Open Scope Z_scope.
Open Scope list_scope.
Open Scope rust_scope.

(** How a call fails: its error, how much of a text was written, which files a removal kept. *)
Record disk_fault : Type := mkDiskFault {
  df_error : io_error;
  df_written : nat;
  df_kept : string -> bool }.
Record cred_disk : Type := mkCredDisk {
  cd_dirs : gmap string Z;
  cd_files : gmap string (Z * string);
  cd_umask : Z;
  cd_faults : list (option disk_fault) }.

(** ** The file system *)
Definition with_cd_faults (l : list (option disk_fault)) (d : cred_disk) : cred_disk := mkCredDisk d.(cd_dirs) d.(cd_files) d.(cd_umask) l.
Definition with_dirs (m : gmap string Z) (d : cred_disk) : cred_disk := mkCredDisk m d.(cd_files) d.(cd_umask) d.(cd_faults).
Definition with_files (m : gmap string (Z * string)) (d : cred_disk) : cred_disk := mkCredDisk d.(cd_dirs) m d.(cd_umask) d.(cd_faults).

(** A call that does [full] or, when it fails, [partial]. *)
Definition os_call (partial : disk_fault -> cred_disk -> cred_disk) (full : cred_disk -> cred_disk) : M cred_disk unit := fun d =>
  match d.(cd_faults) with
  | Some fault :: rest => (Err fault.(df_error), partial fault (with_cd_faults rest d))
  | None :: rest => (Ok tt, full (with_cd_faults rest d))
  | [] => (Ok tt, full d)
  end.
Definition nothing (fault : disk_fault) (d : cred_disk) : cred_disk := d.

Definition exists_path (path : string) (d : cred_disk) : bool :=
  bool_decide (is_Some (d.(cd_dirs) !! path)) || bool_decide (is_Some (d.(cd_files) !! path)).
Definition already_exists : io_error := mkIoError AlreadyExists "File exists (os error 17)".
Definition masked (mode : Z) (d : cred_disk) : Z := Z.land mode (Z.lnot d.(cd_umask)).

(** [fs::create_dir]: mode 0777 less the mask. *)
Definition create_dir (path : string) : M cred_disk unit := fun d =>
  if exists_path path d then (Err already_exists, d)
  else os_call nothing (fun d => with_dirs (<[path := masked 0x1ff d]> d.(cd_dirs)) d) d.
(** [fs::create_dir_all]: the directories on the way, from the top. *)
Fixpoint ancestors (above s : string) : list string :=
  match s with
  | "" => [above]
  | String c s =>
      if Ascii.eqb c "/" && negb (is_empty above) then above :: ancestors (above +:+ String c "") s
      else ancestors (above +:+ String c "") s
  end.
Definition create_dir_all (path : string) : M cred_disk unit :=
  for_each (fun p => fun d => if bool_decide (is_Some (d.(cd_dirs) !! p)) then (Ok tt, d) else create_dir p d) (ancestors "" path).
Definition set_permissions (path : string) (mode : Z) : M cred_disk unit :=
  os_call nothing (fun d => with_dirs (<[path := mode]> d.(cd_dirs)) d).
(** [OpenOptions::create_new]: never a file that is there. *)
Definition open_new (path : string) (mode : Z) : M cred_disk unit := fun d =>
  if exists_path path d then (Err already_exists, d)
  else os_call nothing (fun d => with_files (<[path := (masked mode d, "")]> d.(cd_files)) d) d.
Definition put_contents (path contents : string) (d : cred_disk) : cred_disk :=
  with_files (alter (fun f => (f.1, contents)) path d.(cd_files)) d.
Definition write_all (path contents : string) : M cred_disk unit :=
  os_call (fun fault => put_contents path (String.substring 0 fault.(df_written) contents)) (put_contents path contents).
Definition under (directory path : string) : bool := starts_with (directory +:+ "/") path.
Definition remove_dir_all (directory : string) : M cred_disk unit :=
  os_call
    (fun fault d => with_files (base.filter (fun f => negb (under directory f.1) || fault.(df_kept) f.1 = true) d.(cd_files)) d)
    (fun d => with_dirs (base.filter (fun f => negb (under directory f.1 || String.eqb f.1 directory) = true) d.(cd_dirs))
                (with_files (base.filter (fun f => negb (under directory f.1) = true) d.(cd_files)) d)).

(** ** The credentials *)
Definition vpn_credentials_unavailable (message : string) (e : io_error) : NativeError :=
  ne_with_source e.(io_text) (NativeError_new "vpn_credentials_unavailable" message).

Definition CR (A : Type) : Type := cred_disk -> NativeResult A * cred_disk.
Definition cr_try {A B : Type} (m : CR A) (k : NativeResult A -> CR B) : CR B := fun d => let '(r, d) := m d in k r d.
Definition cr_result {A : Type} (r : NativeResult A) : CR A := fun d => (r, d).
Definition cr_bind {A B : Type} (m : CR A) (k : A -> CR B) : CR B :=
  cr_try m (fun r => match r with Ok a => k a | Err e => cr_result (Err e) end).
(** [.map_err(..)?]. *)
Definition cr_io (error : io_error -> NativeError) (m : M cred_disk unit) : CR unit := fun d =>
  let '(r, d) := m d in (res_map_err error r, d).
Notation "'let%' x ':=' m 'in' k" := (cr_bind m (fun x => k)) (at level 200, x name, k at level 200, right associativity) : rust_scope.
Notation "m ';;%' k" := (cr_bind m (fun _ => k)) (at level 100, k at level 200, right associativity) : rust_scope.

(** [XDG_RUNTIME_DIR], [Uuid::parse_str] and the two texts built into the program. *)
Record openvpn_env : Type := mkOpenVpnEnv {
  oe_runtime_dir : option string;
  oe_parse_uuid : string -> result unit string;
  oe_ca : string;
  oe_tls_crypt : string }.

Section Credentials.
Context (v : openvpn_env).

Definition openvpn_root : NativeResult string :=
  let? runtime := ok_or v.(oe_runtime_dir)
    (NativeError_new "environment_invalid" "XDG_RUNTIME_DIR is required to protect temporary OpenVPN credentials") in
  Ok (path_join runtime "proton-omarchy/openvpn").

(** Mode 0700. *)
Definition PRIVATE_DIR : Z := 0x1c0.
Definition openvpn_credential_dir (uuid : string) : CR string :=
  cr_result (res_map_err (fun e => ne_with_source e (NativeError_new "profile_invalid" "The OpenVPN profile UUID is invalid")) (v.(oe_parse_uuid) uuid)) ;;%
  let% root := cr_result openvpn_root in
  cr_io (vpn_credentials_unavailable "Unable to create the protected OpenVPN credential directory") (create_dir_all root) ;;%
  cr_io (vpn_credentials_unavailable "Unable to protect the OpenVPN credential directory") (set_permissions root PRIVATE_DIR) ;;%
  let directory := path_join root uuid in
  cr_io (vpn_credentials_unavailable "Unable to create the temporary OpenVPN credential set") (create_dir directory) ;;%
  cr_io (vpn_credentials_unavailable "Unable to protect the temporary OpenVPN credential set") (set_permissions directory PRIVATE_DIR) ;;%
  cr_result (Ok directory).

(** Mode 0600. *)
Definition PRIVATE_FILE : Z := 0x180.
Definition write_private_file (path contents : string) : CR unit :=
  cr_io (vpn_credentials_unavailable ("Unable to create protected VPN credential " +:+ path)) (open_new path PRIVATE_FILE) ;;%
  cr_io (vpn_credentials_unavailable ("Unable to write protected VPN credential " +:+ path)) (write_all path contents).

(** The files of [OpenVpnProfile::new], by name. *)
Definition credential_files (directory certificate private_key : string) : list (string * string) :=
  [(path_join directory "ca.pem", v.(oe_ca)); (path_join directory "certificate.pem", certificate);
   (path_join directory "private-key.pem", private_key); (path_join directory "tls-crypt.pem", v.(oe_tls_crypt))].
Fixpoint write_files (files : list (string * string)) : CR unit :=
  match files with
  | [] => cr_result (Ok tt)
  | (path, contents) :: files => write_private_file path contents ;;% write_files files
  end.
Definition create_credentials (uuid certificate private_key : string) : CR string :=
  let% directory := openvpn_credential_dir uuid in
  cr_try (write_files (credential_files directory certificate private_key)) (fun written =>
    match written with
    | Ok _ => cr_result (Ok directory)
    | Err e => cr_try (cr_io (vpn_credentials_unavailable "") (remove_dir_all directory)) (fun _ => cr_result (Err e))
    end).

Definition cleanup_openvpn_credentials (uuid : string) (d : cred_disk) : cred_disk :=
  match v.(oe_parse_uuid) uuid, openvpn_root with
  | Ok _, Ok root => (remove_dir_all (path_join root uuid) d).2
  | _, _ => d
  end.

(** [OpenVpnProfile::new] with its files. *)
Definition new_openvpn_profile {L : IpLib} {C : ServerCrypto} {P : ProfileCrypto} (uuid : string) (random : list Z) (target : ConnectionTarget) (protocol : string) (session : SessionData)
    (config : ClientConfig) (settings : NativeSettings) (profile_id : option string) : CR OpenVpnProfile := fun d =>
  match openvpn_inputs random target protocol session config with
  | Err e => (Err e, d)
  | Ok (_, _, _, private_key) =>
      let '(directory, d) := create_credentials uuid session.(sd_vpn).(vs_certificate).(vc_certificate) private_key d in
      (OpenVpnProfile_new uuid random (fun _ => directory) target protocol session config settings profile_id, d)
  end.
End Credentials.

(** ** Runs *)
Definition cr_keeps {A : Type} (I : cred_disk -> Prop) (m : CR A) : Prop := forall d, I d -> I (m d).2.
Lemma cr_keeps_result {A : Type} I (r : NativeResult A) : cr_keeps I (cr_result r).
Proof. by intros d. Qed.
Lemma cr_keeps_try {A B : Type} I (m : CR A) (k : NativeResult A -> CR B) : cr_keeps I m -> (forall r, cr_keeps I (k r)) -> cr_keeps I (cr_try m k).
Proof. intros Hm Hk d Hd. unfold cr_try. specialize (Hm d Hd). destruct (m d). by apply Hk. Qed.
Lemma cr_keeps_bind {A B : Type} I (m : CR A) (k : A -> CR B) : cr_keeps I m -> (forall a, cr_keeps I (k a)) -> cr_keeps I (cr_bind m k).
Proof. intros Hm Hk. apply cr_keeps_try; [done|]. intros [a|e]; [apply Hk|apply cr_keeps_result]. Qed.
Lemma cr_keeps_io I error m : keeps I m -> cr_keeps I (cr_io error m).
Proof. intros H d Hd. unfold cr_io. specialize (H d Hd). by destruct (m d). Qed.
Lemma cr_bind_Ok {A B : Type} (m : CR A) (k : A -> CR B) d b d' : cr_bind m k d = (Ok b, d') -> exists a d1, m d = (Ok a, d1) /\ k a d1 = (Ok b, d').
Proof. unfold cr_bind, cr_try. destruct (m d) as [[a|e] d1]; [eauto|discriminate]. Qed.
Lemma cr_io_Ok error m d d' : cr_io error m d = (Ok tt, d') -> m d = (Ok tt, d').
Proof. unfold cr_io. destruct (m d) as [[[]|e] d1]; [by intros [= ->]|discriminate]. Qed.

Lemma keeps_os I partial full : (forall l d, I d -> I (with_cd_faults l d)) -> (forall fault d, I d -> I (partial fault d)) -> (forall d, I d -> I (full d)) ->
  keeps I (os_call partial full).
Proof. intros Hl Hp Hf d Hd. unfold os_call. destruct (cd_faults d) as [|[fault|] rest]; cbn; auto. Qed.
Lemma os_Ok partial full d d' : os_call partial full d = (Ok tt, d') -> exists l, d' = full (with_cd_faults l d).
Proof.
  unfold os_call. destruct (cd_faults d) as [|[fault|] rest] eqn:E; [|discriminate|].
  - intros [= <-]. exists []. f_equal. destruct d. cbn in *. by subst.
  - intros [= <-]. by exists rest.
Qed.

(** ** Counting failures *)
Definition failures (l : list (option disk_fault)) : nat := length (omap id l).
(** At least [n] of the calls made between the two disks have failed. *)
Definition failed (n : nat) (d d' : cred_disk) : Prop := exists used, d.(cd_faults) = used ++ d'.(cd_faults) /\ (n <= failures used)%nat.

Lemma failed_trans n m d d1 d2 : failed n d d1 -> failed m d1 d2 -> failed (n + m) d d2.
Proof.
  intros (u1 & E1 & H1) (u2 & E2 & H2). exists (u1 ++ u2). rewrite E1, E2, app_assoc. split; [done|].
  unfold failures in *. rewrite omap_app, length_app. lia.
Qed.
Lemma failed_same d d' : d'.(cd_faults) = d.(cd_faults) -> failed 0 d d'.
Proof. intros E. exists []. rewrite E. split; [done|unfold failures; simpl; lia]. Qed.

Lemma os_failed partial full d :
  (forall fault x, (partial fault x).(cd_faults) = x.(cd_faults)) -> (forall x, (full x).(cd_faults) = x.(cd_faults)) ->
  failed (if (os_call partial full d).1 then 0 else 1) d (os_call partial full d).2.
Proof.
  intros Hp Hf. unfold os_call. destruct (cd_faults d) as [|[fault|] rest] eqn:E; cbn.
  - apply failed_same, Hf.
  - exists [Some fault]. rewrite Hp, E. split; [done|cbn; lia].
  - exists [None]. rewrite Hf, E. split; [done|cbn; lia].
Qed.

(** Runs that only use up faults. *)
Definition uses {A : Type} (m : CR A) : Prop := forall d, failed 0 d (m d).2.
Lemma uses_result {A : Type} (r : NativeResult A) : uses (cr_result r).
Proof. intros d. by apply failed_same. Qed.
Lemma uses_bind {A B : Type} (m : CR A) (k : A -> CR B) : uses m -> (forall a, uses (k a)) -> uses (cr_bind m k).
Proof.
  intros Hm Hk d. unfold cr_bind, cr_try. specialize (Hm d). destruct (m d) as [[a|e] d1]; [|exact Hm].
  exact (failed_trans 0 0 d d1 _ Hm (Hk a d1)).
Qed.
Lemma uses_io error (m : M cred_disk unit) : (forall d, failed 0 d (m d).2) -> uses (cr_io error m).
Proof. intros Hm d. unfold cr_io. specialize (Hm d). by destruct (m d). Qed.
Lemma failed_any n d d' : failed n d d' -> failed 0 d d'.
Proof. intros (used & E & _). exists used. split; [done|lia]. Qed.
Lemma create_dir_uses path d : failed 0 d (create_dir path d).2.
Proof.
  unfold create_dir. destruct (exists_path path d); [by apply failed_same|].
  eapply failed_any. by apply os_failed.
Qed.
Lemma create_dir_all_uses path d : failed 0 d (create_dir_all path d).2.
Proof.
  unfold create_dir_all. revert d. induction (ancestors "" path) as [|a l IH]; intros d; [by apply failed_same|].
  cbn [for_each]. unfold bind. assert (Ha : failed 0 d ((if bool_decide (is_Some (cd_dirs d !! a)) then (Ok tt, d) else create_dir a d).2)).
  { case_bool_decide; [by apply failed_same|apply create_dir_uses]. }
  destruct (if bool_decide _ then _ else _) as [[[]|e] d1]; [|exact Ha]. exact (failed_trans 0 0 d d1 _ Ha (IH d1)).
Qed.
Lemma set_permissions_uses path mode d : failed 0 d (set_permissions path mode d).2.
Proof. eapply failed_any. by apply os_failed. Qed.
Lemma remove_uses directory d : failed 0 d (remove_dir_all directory d).2.
Proof. eapply failed_any. by apply os_failed. Qed.
Lemma remove_fails directory d : is_ok (remove_dir_all directory d).1 = false -> failed 1 d (remove_dir_all directory d).2.
Proof.
  intros Hr. assert (H := os_failed
    (fun fault d => with_files (base.filter (fun f => negb (under directory f.1) || fault.(df_kept) f.1 = true) d.(cd_files)) d)
    (fun d => with_dirs (base.filter (fun f => negb (under directory f.1 || String.eqb f.1 directory) = true) d.(cd_dirs))
                (with_files (base.filter (fun f => negb (under directory f.1) = true) d.(cd_files)) d)) d ltac:(done) ltac:(done)).
  fold (remove_dir_all directory) in H. by destruct (remove_dir_all directory d) as [[[]|e] d'].
Qed.

(** Writing new files fails only if a call does. *)
Lemma write_uses path contents d : exists_path path d = false ->
  failed (if (write_private_file path contents d).1 then 0 else 1) d (write_private_file path contents d).2.
Proof.
  intros He. unfold write_private_file, cr_bind, cr_try, cr_io, open_new. rewrite He.
  assert (Ho := os_failed nothing (fun d => with_files (<[path := (masked PRIVATE_FILE d, "")]> d.(cd_files)) d) d ltac:(done) ltac:(done)).
  destruct (os_call _ _ d) as [[[]|e] d1]; cbn [res_map_err fst snd] in *; [|exact Ho].
  assert (Hw : failed (if (write_all path contents d1).1 then 0 else 1) d1 (write_all path contents d1).2) by by apply os_failed.
  destruct (write_all path contents d1) as [[[]|e] d2]; cbn in *; [exact (failed_trans 0 0 d d1 d2 Ho Hw)|exact (failed_trans 0 1 d d1 d2 Ho Hw)].
Qed.

(** A file of a directory in a disk: its mode is read by nobody else, and so is the directory's. *)
Definition private_mode (mode : Z) : Prop := Z.land mode 0x3f = 0.
Lemma masked_private d : private_mode (masked PRIVATE_FILE d).
Proof.
  unfold private_mode, masked, PRIVATE_FILE. rewrite (Z.land_comm 0x180), <- Z.land_assoc. change (Z.land 0x180 0x3f) with 0. apply Z.land_0_r.
Qed.

Section Facts.
Context (v : openvpn_env) (directory : string).

(** What holds of the disk while the directory is being filled. *)
Record filling (before : gmap string (Z * string)) (d : cred_disk) : Prop := mkFilling {
  fi_dir : d.(cd_dirs) !! directory = Some PRIVATE_DIR;
  fi_outside : forall p, under directory p = false -> d.(cd_files) !! p = before !! p;
  fi_private : forall p f, d.(cd_files) !! p = Some f -> under directory p = true -> private_mode f.1 }.

Lemma filling_faults before l d : filling before d -> filling before (with_cd_faults l d).
Proof. by intros [H1 H2 H3]. Qed.
Lemma filling_open before path : under directory path = true -> keeps (filling before) (open_new path PRIVATE_FILE).
Proof.
  intros Hu d Hd. unfold open_new. destruct (exists_path path d); [done|]. revert d Hd.
  apply keeps_os; [intros; by apply filling_faults|done|]. intros d [H1 H2 H3]. split; cbn; [done| |].
  - intros p Hp. rewrite lookup_insert_ne; [by apply H2|]. intros ->. congruence.
  - intros p f [[<- <-]|[_ Hf]]%lookup_insert_Some Hp; [apply masked_private|by eapply H3].
Qed.
Lemma filling_put before path contents d : under directory path = true -> filling before d -> filling before (put_contents path contents d).
Proof.
  intros Hu [H1 H2 H3]. split; cbn; [done| |].
  - intros p Hp. rewrite lookup_alter_ne; [by apply H2|]. intros ->. congruence.
  - intros p f [(<- & g & Hg & ->)|[_ Hf]]%lookup_alter_Some Hp; [by apply (H3 path g)|by eapply H3].
Qed.
Lemma filling_write before path contents : under directory path = true -> cr_keeps (filling before) (write_private_file path contents).
Proof.
  intros Hu. apply cr_keeps_bind; [by apply cr_keeps_io, filling_open|]. intros _. apply cr_keeps_io.
  apply keeps_os; [intros; by apply filling_faults|intros; by apply filling_put..].
Qed.
Lemma filling_files before files : Forall (fun f => under directory f.1 = true) files -> cr_keeps (filling before) (write_files files).
Proof.
  induction 1 as [|[path contents] files Hu _ IH]; [apply cr_keeps_result|]. apply cr_keeps_bind; [by apply filling_write|]. by intros _.
Qed.

(** A file that was written holds its contents. *)
Lemma write_Ok path contents d d' : write_private_file path contents d = (Ok tt, d') ->
  d'.(cd_files) = <[path := (masked PRIVATE_FILE d, contents)]> d.(cd_files) /\ d'.(cd_umask) = d.(cd_umask).
Proof.
  intros ([] & d1 & H1%cr_io_Ok & H2%cr_io_Ok)%cr_bind_Ok. unfold open_new in H1. destruct (exists_path path d); [discriminate|].
  apply os_Ok in H1 as [l1 ->]. apply os_Ok in H2 as [l2 ->]. cbn. split; [|done]. by rewrite alter_insert_eq.
Qed.
Lemma files_Ok files : forall d d', write_files files d = (Ok tt, d') ->
  d'.(cd_files) = foldl (fun m f => <[f.1 := (masked PRIVATE_FILE d, f.2)]> m) d.(cd_files) files.
Proof.
  induction files as [|[path contents] files IH]; intros d d' H; [by injection H as <-|].
  apply cr_bind_Ok in H as ([] & d1 & H1 & H2). apply write_Ok in H1 as [Hf Hu]. rewrite (IH _ _ H2), Hf. cbn. unfold masked. by rewrite Hu.
Qed.
End Facts.

(** ** What creating and removing credentials does *)
Lemma ends_plain s : contains_char "/" s = false -> strip_prefix "/" (str_rev s) = None.
Proof.
  intros H. destruct (str_rev s) as [|a r] eqn:E; [done|]. change (strip_prefix "/" (String a r)) with (if Ascii.eqb "/" a then Some r else None). destruct (Ascii.eqb_spec "/" a) as [<-|]; [|done]. exfalso.
  assert (Hs : s = str_rev r +:+ "/") by (rewrite <- (str_rev_involutive s), E; exact (str_rev_append "/" r)).
  rewrite Hs in H. clear -H. induction (str_rev r) as [|b t IH]; [done|]. unfold contains_char in *. cbn in H. apply orb_false_iff in H as [_ H]. by apply IH.
Qed.
Section Outcome.
Context (v : openvpn_env).

(** [Uuid::parse_str]: the text of an identifier is a plain name. *)
Definition uuids_plain : Prop := forall u, v.(oe_parse_uuid) u = Ok tt -> is_empty u = false /\ contains_char "/" u = false.
(** The directory of a file or a directory is there. *)
Definition parented (directory : string) (d : cred_disk) : Prop :=
  forall p, exists_path p d = true -> under directory p = true -> is_Some (d.(cd_dirs) !! directory).
(** The files of a disk after the credentials were written. *)
Definition with_credentials (directory certificate private_key : string) (mode : Z) (files : gmap string (Z * string)) : gmap string (Z * string) :=
  foldl (fun m f => <[f.1 := (mode, f.2)]> m) files (credential_files v directory certificate private_key).

Lemma keeps_dir path directory : keeps (fun d => is_Some (d.(cd_dirs) !! directory)) (create_dir path).
Proof.
  intros d Hd. unfold create_dir. destruct (exists_path path d); [done|]. revert d Hd. apply (keeps_os (fun d => is_Some (d.(cd_dirs) !! directory))); [done|done|].
  intros d Hd. cbn. destruct (decide (path = directory)) as [->|]; [by rewrite lookup_insert_eq|by rewrite lookup_insert_ne].
Qed.
Lemma keeps_dirs path directory : keeps (fun d => is_Some (d.(cd_dirs) !! directory)) (create_dir_all path).
Proof. apply keeps_for_each. intros p _ d Hd. case_bool_decide; [done|by apply keeps_dir]. Qed.
Lemma keeps_permissions path mode directory : keeps (fun d => is_Some (d.(cd_dirs) !! directory)) (set_permissions path mode).
Proof.
  apply keeps_os; [done|done|]. intros d Hd. cbn. destruct (decide (path = directory)) as [->|]; [by rewrite lookup_insert_eq|by rewrite lookup_insert_ne].
Qed.
(** Directories do not touch files. *)
Lemma keeps_files files path : keeps (fun d => d.(cd_files) = files) (create_dir path).
Proof. intros d Hd. unfold create_dir. destruct (exists_path path d); [done|]. revert d Hd. by apply (keeps_os (fun d => d.(cd_files) = files)). Qed.
Lemma dir_keeps_files files uuid : cr_keeps (fun d => d.(cd_files) = files) (openvpn_credential_dir v uuid).
Proof.
  unfold openvpn_credential_dir.
  repeat first [apply cr_keeps_result | apply cr_keeps_bind; [|intros ?] | apply cr_keeps_io]; try apply keeps_files; try by apply keeps_os.
  apply keeps_for_each. intros p _ d Hd. case_bool_decide; [done|by apply keeps_files].
Qed.
Lemma dir_Ok uuid directory d d' : openvpn_credential_dir v uuid d = (Ok directory, d') ->
  exists root, openvpn_root v = Ok root /\ directory = path_join root uuid /\ v.(oe_parse_uuid) uuid = Ok tt /\
    d.(cd_dirs) !! directory = None /\ d'.(cd_dirs) !! directory = Some PRIVATE_DIR /\ d'.(cd_files) = d.(cd_files).
Proof.
  intros H. pose proof (dir_keeps_files d.(cd_files) uuid d eq_refl) as Hf. rewrite H in Hf. cbn in Hf. unfold openvpn_credential_dir in H.
  apply cr_bind_Ok in H as ([] & d1 & H1 & H). injection H1 as Hu <-. destruct (oe_parse_uuid v uuid) as [[]|] eqn:Eu; [|discriminate Hu].
  apply cr_bind_Ok in H as (root & d1 & H1 & H). injection H1 as Hr <-.
  apply cr_bind_Ok in H as ([] & d1 & H1%cr_io_Ok & H). apply cr_bind_Ok in H as ([] & d2 & H2%cr_io_Ok & H).
  apply cr_bind_Ok in H as ([] & d3 & H3%cr_io_Ok & H). apply cr_bind_Ok in H as ([] & d4 & H4%cr_io_Ok & H). injection H as <- <-.
  exists root. split_and!; try done.
  - apply eq_None_not_Some. intros Hs. pose proof (keeps_dirs root (path_join root uuid) d Hs) as Hs1. rewrite H1 in Hs1.
    pose proof (keeps_permissions root PRIVATE_DIR (path_join root uuid) d1 Hs1) as Hs2. rewrite H2 in Hs2. cbn in Hs2.
    unfold create_dir, exists_path in H3. by rewrite bool_decide_eq_true_2 in H3.
  - apply os_Ok in H4 as [l ->]. cbn. by rewrite lookup_insert_eq.
Qed.

Lemma joined_ends root name : is_empty name = false -> contains_char "/" name = false ->
  is_empty (path_join root name) = false /\ strip_prefix "/" (str_rev (path_join root name)) = None.
Proof.
  intros Hn Hc. assert (H : forall x, is_empty (x +:+ name) = false /\ strip_prefix "/" (str_rev (x +:+ name)) = None).
  { intros x. split; [destruct x; [exact Hn|done]|]. rewrite str_rev_append. apply ends_plain in Hc.
    destruct (str_rev name) as [|a r] eqn:E; 
      [|change ((if Ascii.eqb "/" a then Some (r +:+ str_rev x) else None) = None); change ((if Ascii.eqb "/" a then Some r else None) = None) in Hc; by destruct (Ascii.eqb "/" a)]. exfalso. destruct name as [|b t]; [done|].
    assert (String b t = "") by by rewrite <- (str_rev_involutive (String b t)), E. done. }
  unfold path_join. destruct (is_empty root); [apply (H "")|]. destruct (strip_prefix "/" (str_rev root)); [apply H|].
  rewrite str_app_assoc. apply H.
Qed.
Lemma joined_under directory name : is_empty directory = false -> strip_prefix "/" (str_rev directory) = None -> under directory (path_join directory name) = true.
Proof.
  intros He Hs. unfold path_join, under, starts_with. rewrite He, Hs, str_app_assoc. by rewrite strip_prefix_app.
Qed.

Lemma no_files directory d p : parented directory d -> d.(cd_dirs) !! directory = None -> under directory p = true -> d.(cd_files) !! p = None.
Proof.
  intros Hp Hn Hu. destruct (d.(cd_files) !! p) as [f|] eqn:E; [|done]. destruct (Hp p) as [? H]; [|done|congruence].
  unfold exists_path. rewrite E. apply orb_true_r.
Qed.
Lemma no_dirs directory d p : parented directory d -> d.(cd_dirs) !! directory = None -> under directory p = true -> d.(cd_dirs) !! p = None.
Proof.
  intros Hp Hn Hu. destruct (d.(cd_dirs) !! p) as [f|] eqn:E; [|done]. destruct (Hp p) as [? H]; [|done|congruence].
  unfold exists_path. by rewrite E.
Qed.

(** What is under a directory has a longer path. *)
Lemma under_longer directory p : under directory p = true -> (String.length directory < String.length p)%nat.
Proof.
  unfold under, starts_with. destruct (strip_prefix (directory +:+ "/") p) as [r|] eqn:E; [|done]. intros _. apply strip_prefix_Some in E as ->.
  rewrite !str_app_length. simpl. lia.
Qed.
Lemma ancestors_length s : forall above p, p ∈ ancestors above s -> (String.length p <= String.length above + String.length s)%nat.
Proof.
  induction s as [|c s IH]; intros above p; cbn [ancestors]; [intros ->%list_elem_of_singleton; simpl; lia|].
  assert (Hc : (String.length (above +:+ String c "") = S (String.length above))%nat) by (rewrite str_app_length; simpl; lia).
  destruct (_ && _); [intros [->|Hp]%elem_of_cons|intros Hp]; simpl; try lia; apply IH in Hp; rewrite Hc in Hp; lia.
Qed.
Lemma joined_length root name : (String.length root <= String.length (path_join root name))%nat.
Proof.
  unfold path_join. destruct (is_empty root) eqn:E; [destruct root; [simpl; lia|done]|].
  destruct (strip_prefix "/" (str_rev root)); rewrite !str_app_length; lia.
Qed.

Definition bare (directory : string) (d : cred_disk) : Prop := forall p, under directory p = true -> d.(cd_dirs) !! p = None.
Lemma bare_insert directory q mode d : (String.length q <= String.length directory)%nat -> bare directory d -> bare directory (with_dirs (<[q := mode]> d.(cd_dirs)) d).
Proof.
  intros Hq Hd p Hp. cbn. rewrite lookup_insert_ne; [by apply Hd|]. intros ->. apply under_longer in Hp. lia.
Qed.
Lemma bare_create directory q : (String.length q <= String.length directory)%nat -> keeps (bare directory) (create_dir q).
Proof.
  intros Hq d Hd. unfold create_dir. destruct (exists_path q d); [done|]. revert d Hd. apply keeps_os; [done|done|].
  intros d Hd. by apply bare_insert.
Qed.
Lemma bare_dir root uuid : openvpn_root v = Ok root -> cr_keeps (bare (path_join root uuid)) (openvpn_credential_dir v uuid).
Proof.
  intros Hr. pose proof (joined_length root uuid) as Hlen. unfold openvpn_credential_dir. rewrite Hr.
  apply cr_keeps_bind; [apply cr_keeps_result|intros []]. intros d. unfold cr_bind at 1, cr_try at 1, cr_result at 1. revert d.
  repeat first [apply cr_keeps_result | apply cr_keeps_bind; [|intros ?] | apply cr_keeps_io].
  - apply keeps_for_each. intros p Hp d Hd. case_bool_decide; [done|]. apply bare_create; [|done]. apply ancestors_length in Hp. simpl in Hp. lia.
  - apply keeps_os; [done|done|]. intros d Hd. by apply bare_insert.
  - by apply bare_create.
  - apply keeps_os; [done|done|]. intros d Hd. by apply bare_insert.
Qed.
Lemma dir_uses uuid : uses (openvpn_credential_dir v uuid).
Proof.
  unfold openvpn_credential_dir.
  repeat first [apply uses_result | apply uses_bind; [|intros ?] | apply uses_io; intros ?];
    first [apply create_dir_all_uses|apply set_permissions_uses|apply create_dir_uses].
Qed.

(** The four files are different, and writing them fails only if a call does. *)
Lemma files_fail files : forall d,
  NoDup (map fst files) -> (forall f, f ∈ files -> exists_path f.1 d = false) ->
  failed (if (write_files files d).1 then 0 else 1) d (write_files files d).2.
Proof.
  induction files as [|[path contents] files IH]; intros d Hn He; [by apply failed_same|].
  apply NoDup_cons in Hn as [Hnot Hn]. cbn [write_files]. pose proof (write_uses path contents d (He (path, contents) ltac:(left))) as Hw.
  unfold cr_bind, cr_try. destruct (write_private_file path contents d) as [[[]|e] d1] eqn:Ew; cbn [fst snd] in *; [|exact Hw].
  assert (Hd1 : d1.(cd_dirs) = d.(cd_dirs)).
  { assert (H : cr_keeps (fun x => x.(cd_dirs) = d.(cd_dirs)) (write_private_file path contents)).
    { apply cr_keeps_bind; [apply cr_keeps_io|intros _; apply cr_keeps_io; by apply (keeps_os (fun x => x.(cd_dirs) = d.(cd_dirs)))].
      intros x Hx. unfold open_new. destruct (exists_path path x); [done|]. revert x Hx. by apply (keeps_os (fun x => x.(cd_dirs) = d.(cd_dirs))). }
    specialize (H d eq_refl). by rewrite Ew in H. }
  pose proof (write_Ok path contents d d1 Ew) as [Hf _].
  assert (IH1 : failed (if (write_files files d1).1 then 0 else 1) d1 (write_files files d1).2).
  { apply IH; [done|]. intros f Hin. specialize (He f ltac:(by right)). unfold exists_path in *. rewrite Hd1, Hf, lookup_insert_ne; [done|].
    intros ->. apply Hnot. by apply (list_elem_of_fmap_2 fst). }
  exact (failed_trans 0 _ d d1 _ Hw IH1).
Qed.
Lemma credential_paths directory certificate private_key :
  is_empty directory = false -> strip_prefix "/" (str_rev directory) = None ->
  NoDup (map fst (credential_files v directory certificate private_key)).
Proof.
  intros He Hs. assert (Hj : forall name, path_join directory name = directory +:+ "/" +:+ name).
  { intros name. unfold path_join. by rewrite He, Hs. }
  cbn. rewrite !Hj. assert (Hne : forall a b, a <> b -> directory +:+ a <> directory +:+ b).
  { intros a b Hab E. by apply append_inj_l in E. }
  repeat (apply NoDup_cons; split; [rewrite ?not_elem_of_cons; repeat split; try (apply Hne; discriminate); apply not_elem_of_nil|]). apply NoDup_nil_2.
Qed.

(** Removing the directory that was filled takes the disk's files back to what they were. *)
Lemma removed_again directory before d d' : filling directory before d -> (forall p, under directory p = true -> before !! p = None) ->
  remove_dir_all directory d = (Ok tt, d') -> d'.(cd_files) = before.
Proof.
  intros [_ Ho _] Hb [l ->]%os_Ok. cbn. apply map_eq. intros p. destruct (under directory p) eqn:E.
  - rewrite (Hb p E). apply map_lookup_filter_None. right. intros f _. cbn. by rewrite E.
  - rewrite <- (Ho p E). destruct (cd_files d !! p) as [f|] eqn:Ef.
    + apply map_lookup_filter_Some. split; [done|]. cbn. by rewrite E.
    + apply map_lookup_filter_None. by left.
Qed.
Lemma removal_filling directory before d : filling directory before d -> is_ok (remove_dir_all directory d).1 = false -> filling directory before (remove_dir_all directory d).2.
Proof.
  unfold remove_dir_all, os_call. intros [H1 H2 H3]. destruct (cd_faults d) as [|[fault|] rest]; [done| |done]. intros _. cbn. split; cbn; [done| |].
  - intros p Hp. rewrite <- (H2 p Hp). destruct (cd_files d !! p) as [f|] eqn:Ef.
    + apply map_lookup_filter_Some. split; [done|]. cbn. by rewrite Hp.
    + apply map_lookup_filter_None. by left.
  - intros p f [Hf _]%map_lookup_filter_Some. by apply H3.
Qed.

(** C39: The credentials of a tunnel stay private and leave no trace.  Whatever calls fail: files outside the tunnel's own directory are not
    touched; every new file is in it, readable for its owner only, with the directory closed to others before the first file
    exists; a success made the directory and exactly the four files with their contents, and removing the credentials takes
    the disk's files back to what they were; a failure in which at most one system call failed leaves the disk's files exactly
    as they were (only if a second one, the removal of the directory, fails too, files may stay). *)
Theorem credentials_private uuid certificate private_key d root :
  uuids_plain -> openvpn_root v = Ok root -> let directory := path_join root uuid in parented directory d ->
  let '(r, d') := create_credentials v uuid certificate private_key d in
  (forall p, under directory p = false -> d'.(cd_files) !! p = d.(cd_files) !! p) /\
  (forall p f, d'.(cd_files) !! p = Some f -> d.(cd_files) !! p = None ->
     under directory p = true /\ private_mode f.1 /\ d'.(cd_dirs) !! directory = Some PRIVATE_DIR) /\
  match r with
  | Ok made =>
      made = directory /\ d.(cd_dirs) !! directory = None /\
      (exists mode, private_mode mode /\ d'.(cd_files) = with_credentials directory certificate private_key mode d.(cd_files)) /\
      (d'.(cd_faults) = [] -> (cleanup_openvpn_credentials v uuid d').(cd_files) = d.(cd_files))
  | Err _ => exists used, d.(cd_faults) = used ++ d'.(cd_faults) /\ ((failures used <= 1)%nat -> d'.(cd_files) = d.(cd_files))
  end.
Proof.
  intros Hplain Hroot directory Hpar. unfold create_credentials. unfold cr_bind at 1, cr_try at 1.
  pose proof (dir_uses uuid d) as Hused. pose proof (bare_dir root uuid Hroot d) as Hbare.
  destruct (openvpn_credential_dir v uuid d) as [[made|e] d1] eqn:Ed; cbn [snd] in Hused, Hbare.
  2:{ pose proof (dir_keeps_files d.(cd_files) uuid d eq_refl) as Hf. rewrite Ed in Hf. cbn in *. rewrite Hf.
      split_and!; [done|by intros p f -> ?|]. destruct Hused as (used & Hused & _). by exists used. }
  apply dir_Ok in Ed as (root' & Hr & -> & Hu & Hno & Hyes & Hf). rewrite Hroot in Hr. injection Hr as <-. fold directory in Hno, Hyes, Hbare |- *.
  destruct (Hplain _ Hu) as [He Hc]. destruct (joined_ends root uuid He Hc) as [Hde Hds]. fold directory in Hde, Hds.
  assert (Hnone : forall p, under directory p = true -> d.(cd_files) !! p = None) by (intros p; by apply no_files).
  assert (Hb : bare directory d1) by (apply Hbare; intros p; by apply no_dirs).
  assert (Hfill : filling directory d.(cd_files) d1).
  { split; [done|by rewrite Hf|]. intros p f Hp Hup. rewrite Hf, Hnone in Hp; done. }
  set (files := credential_files v directory certificate private_key).
  assert (Hall : Forall (fun f => under directory f.1 = true) files) by (repeat (apply Forall_cons; split; [by apply joined_under|]); done).
  pose proof (filling_files directory d.(cd_files) files Hall d1 Hfill) as Hfill2.
  assert (Hfail : failed (if (write_files files d1).1 then 0 else 1) d1 (write_files files d1).2).
  { apply files_fail; [by apply credential_paths|]. intros f Hin. rewrite Forall_forall in Hall. specialize (Hall f Hin).
    unfold exists_path. by rewrite (Hb _ Hall), Hf, (Hnone _ Hall). }
  unfold cr_try at 1. destruct (write_files files d1) as [[[]|e] d2] eqn:Ew; cbn [fst snd] in Hfill2, Hfail.
  - cbn. destruct Hfill2 as [G1 G2 G3]. split_and!; [done| |done|done| |].
    + intros p f Hp Hn. destruct (under directory p) eqn:Eu; [split_and!; [done|by eapply G3|done]|]. rewrite G2 in Hp by done. congruence.
    + exists (masked PRIVATE_FILE d1). split; [apply masked_private|]. apply files_Ok in Ew. by rewrite Ew, Hf.
    + intros Hcalm. unfold cleanup_openvpn_credentials. rewrite Hu, Hroot. fold directory.
      apply (removed_again directory d.(cd_files) d2); [by split|done|]. unfold remove_dir_all, os_call. by rewrite Hcalm.
  - pose proof (failed_trans 0 1 d d1 d2 Hused Hfail) as Hone. pose proof (remove_uses directory d2) as Hrem. pose proof (remove_fails directory d2) as Htwo.
    unfold cr_try, cr_io, cr_result. destruct (remove_dir_all directory d2) as [[[]|e2] d3] eqn:Er; cbn [res_map_err fst snd is_ok] in *.
    + pose proof (removed_again directory d.(cd_files) d2 d3 Hfill2 Hnone Er) as E3. rewrite E3. split_and!; [done|by intros p f -> ?|].
      destruct (failed_trans 1 0 d d2 d3 Hone Hrem) as (used & Hused3 & _). by exists used.
    + pose proof (removal_filling directory d.(cd_files) d2 Hfill2) as H. rewrite Er in H. destruct (H eq_refl) as [G1 G2 G3]. cbn in *. split_and!; [done| |].
      * intros p f Hp Hn. destruct (under directory p) eqn:Eu; [split_and!; [done|by eapply G3|done]|]. rewrite G2 in Hp by done. congruence.
      * destruct (failed_trans 1 1 d d2 d3 Hone (Htwo eq_refl)) as (used & Hused3 & Hn). exists used. split; [done|]. lia.
Qed.
End Outcome.

(** ** Activation *)
Section Activation.
Context {W : Type} {N : NetworkManager W} (v : openvpn_env).

(** NetworkManager beside the disk. *)
Definition on_manager {A : Type} (f : W -> A * W) (s : W * cred_disk) : A * (W * cred_disk) := let '(a, w) := f s.1 in (a, (w, s.2)).
#[local] Instance with_disk : NetworkManager (W * cred_disk) := {
  nm_bus s := nm_bus s.1;
  nm_active s := nm_active s.1;
  nm_profiles s := nm_profiles s.1;
  nm_settings_of s := nm_settings_of s.1;
  nm_devices s := nm_devices s.1;
  nm_check_enabled s := nm_check_enabled s.1;
  nm_primary s := nm_primary s.1;
  nm_type_of s := nm_type_of s.1;
  nm_set_check b := on_manager (nm_set_check b);
  nm_add b settings := on_manager (nm_add b settings);
  nm_activate c o := on_manager (nm_activate c o);
  nm_deactivate p := on_manager (nm_deactivate p);
  nm_delete c := on_manager (nm_delete c);
  nm_modify i p r := on_manager (nm_modify i p r);
  os_remove_credentials uuid s := (s.1, cleanup_openvpn_credentials v uuid s.2) }.

(** An activation that succeeds keeps the credentials; one that fails removes them, unless it was the bus that could not be
    reached. *)
Lemma connect_credentials {J : JsonText} username uid p w d :
  match nm_connect username uid (OpenVpn p) (w, d) with
  | (Done (Ok _), (_, d'), _) => d' = d
  | (Done (Err _), (_, d'), _) => d' = if is_ok (nm_bus w) then cleanup_openvpn_credentials v p.(ov_uuid) d else d
  | (Running, _, _) => False
  end.
Proof.
  unfold nm_connect, system_bus, add_connection, activate, nm_bind at 1, nm_read at 1. cbn [nm_bus with_disk fst].
  destruct (nm_bus w) as [[]|e]; [|done]. cbn [res_map_err].
  unfold nm_bind, nm_try, nm_call, nm_read, cleanup_credentials, nm_effect, nm_throw, nm_ret. cbn [nm_add nm_activate nm_delete os_remove_credentials with_disk].
  unfold on_manager. cbn [fst snd]. destruct (nm_add false _ w) as [[c|e] w1]; cbn; [|done].
  destruct (nm_activate c _ w1) as [[a|e] w2]; cbn; [done|]. by destruct (nm_delete c w2) as [[] w3].
Qed.
End Activation.

(** ** A disk that fails, and a bus that cannot be reached *)
Definition demo_env : openvpn_env :=
  mkOpenVpnEnv (Some "/run/user/1000") (fun u => if String.eqb u "uuid-1" then Ok tt else Err "invalid") "CA" "TLS".
Definition demo_fault : disk_fault := mkDiskFault (io_other "No space left on device") 3 (fun _ => true).
Definition empty_disk (faults : list (option disk_fault)) : cred_disk := mkCredDisk {["/run" := 0x1ed; "/run/user" := 0x1ed; "/run/user/1000" := 0x1c0]} ∅ 0x12 faults.
Definition demo_directory : string := "/run/user/1000/proton-omarchy/openvpn/uuid-1".

Lemma demo_parented faults p : exists_path p (empty_disk faults) = true -> under demo_directory p = true -> False.
Proof.
  intros He Hu. apply under_longer in Hu. change (String.length demo_directory) with 44%nat in Hu. unfold exists_path in He. cbn [cd_dirs cd_files empty_disk] in He.
  rewrite lookup_empty in He. rewrite (bool_decide_eq_false_2 (is_Some None)) in He by by intros [? ?]. rewrite orb_false_r in He.
  apply bool_decide_eq_true in He as [m Hm].
  repeat (apply lookup_insert_Some in Hm as [[<- _]|[_ Hm]]; [cbn in Hu; lia|]). apply lookup_singleton_Some in Hm as [<- _]. cbn in Hu. lia.
Qed.

Lemma credentials_private_witness :
  let made := create_credentials demo_env "uuid-1" "CERT" "KEY" (empty_disk []) in
  let refused := create_credentials demo_env "uuid-1" "CERT" "KEY" (empty_disk (replicate 9 None ++ [Some demo_fault])) in
  made.1 = Ok demo_directory /\ made.2.(cd_files) !! (demo_directory +:+ "/private-key.pem") = Some (0x180, "KEY") /\
  (cleanup_openvpn_credentials demo_env "uuid-1" made.2).(cd_files) = ∅ /\ is_ok refused.1 = false /\ refused.2.(cd_files) = ∅.
Proof.
  assert (Hplain : uuids_plain demo_env).
  { intros u. cbn. destruct (String.eqb_spec u "uuid-1") as [->|]; [by split|discriminate]. }
  assert (Hpar : forall faults, parented demo_directory (empty_disk faults)) by (intros faults p Hp Hup; exfalso; revert Hp Hup; apply demo_parented).
  intros made refused.
  pose proof (credentials_private demo_env "uuid-1" "CERT" "KEY" (empty_disk []) "/run/user/1000/proton-omarchy/openvpn" Hplain eq_refl (Hpar _)) as H1.
  pose proof (credentials_private demo_env "uuid-1" "CERT" "KEY" (empty_disk (replicate 9 None ++ [Some demo_fault])) "/run/user/1000/proton-omarchy/openvpn" Hplain eq_refl (Hpar _)) as H2.
  fold made in H1. fold refused in H2. assert (Hm : is_ok made.1 = true) by by vm_compute. assert (Hc : made.2.(cd_faults) = []) by by vm_compute.
  assert (Hx : is_ok refused.1 = false) by by vm_compute. assert (Hone : refused.2.(cd_faults) = []) by by vm_compute.
  assert (Hk : made.2.(cd_files) !! (demo_directory +:+ "/private-key.pem") = Some (0x180, "KEY")) by by vm_compute.
  clearbody made refused. destruct made as [[m|e] d1]; [|discriminate Hm]. destruct H1 as (_ & _ & -> & _ & _ & Hclean).
  split; [reflexivity|]. split; [exact Hk|]. split; [exact (Hclean Hc)|].
  split; [exact Hx|]. destruct refused as [[m|e] d2]; [discriminate Hx|]. destruct H2 as (_ & _ & used & Hu & Hfiles). apply Hfiles.
  cbn [snd] in Hone. rewrite Hone, app_nil_r in Hu. rewrite <- Hu. unfold failures. simpl. lia.
Defined.
