(* ===== verification/Api.v ===== *)
(** Requests to the Proton API ([agent/src/native_backend/api.rs]): routes, certificate pins, the retry loop,
    responses and errors.

    The HTTP client, the X.509 parser, DNS-over-HTTPS and the browser that solves a challenge are parameters.  A
    run works on the shared state of [ProtonApi]; at every wait other tasks may change what they can reach of it.
    Everything that goes out is appended to a log.  Times are in milliseconds. *)
From S2P Require AltRouting.
From S2P Require Export NetManager.
Open Scope string_scope.
Open Scope Z_scope.
Open Scope list_scope.
Open Scope rust_scope.

Definition API_BASE : string := "https://vpn-api.proton.me".
Definition SIGNED_CATALOG_ENDPOINT : string :=
  "/vpn/v1/logicals?SecureCoreFilter=all&WithState=true&SignServer=Server.EntryIP,Server.Label".
Definition MAX_API_RESPONSE_BYTES : Z := 4 * 1024 * 1024.
Definition MAX_SERVER_CATALOG_BYTES : Z := 64 * 1024 * 1024.
Definition TLS_PINS : list string :=
  ["CT56BhOTmj5ZIPgb/xD5mH8rY3BLo/MlhP7oPyJUEDo="; "35Dx28/uzN3LeltkCBQ8RHK0tlNSa2kCpCRGNp34Gxc=";
   "qYIukVc63DEITct8sFT7ebIq5qsWmuscaIKeJx+5J5A="].
Definition ALTERNATIVE_TLS_PINS : list string :=
  ["EU6TS9MO0L/GsDHvVc9D5fChYLNy5JdGYpJw0ccgetM="; "iKPIHPnDNqdkvOnTClQ8zQAIKG0XavaPkcEo0LBAABA=";
   "MSlVrBCdL0hKyczvgYVSRNm88RicyY04Q2y5qrBt0xA="; "C2UxW0T1Ckl9s+8cXfjXxlEqwAfPM4HiW2y3UdtBeCw="].

(** ** Routes *)
Inductive ApiRoute : Type :=
  | DirectRoute
  | AlternativeHost (host : string)
  | AccountRoute.

Definition route_url (r : ApiRoute) (endpoint : string) : string :=
  match r with
  | DirectRoute => API_BASE +:+ endpoint
  | AlternativeHost host => "https://" +:+ host +:+ endpoint
  | AccountRoute => "https://account.proton.me/api" +:+ endpoint
  end.
(** The path of that URL: what precedes the query. *)
Definition url_path (r : ApiRoute) (endpoint : string) : string :=
  let path := match split_char "?" endpoint with path :: _ => path | [] => "" end in
  match r with AccountRoute => "/api" +:+ path | _ => path end.
Definition route_pins (r : ApiRoute) : list string :=
  match r with AlternativeHost _ => ALTERNATIVE_TLS_PINS | _ => TLS_PINS end.
Definition is_alternative (r : ApiRoute) : bool := match r with AlternativeHost _ => true | _ => false end.
Definition route_label (r : ApiRoute) : string :=
  match r with DirectRoute => "direct" | AlternativeHost _ => "alternative" | AccountRoute => "account" end.

(** ** Sessions, requests and responses *)
Record ApiSession : Type := mkApiSession {
  as_uid : string;
  as_access_token : string;
  as_refresh_token : string;
  as_scopes : list string;
  as_account_name : string;
  as_credentialless : bool;
  as_two_factor : option json }.
Definition needs_two_factor (s : ApiSession) : bool := existsb (String.eqb "twofactor") s.(as_scopes).

Inductive api_body : Type :=
  | NoBody
  | JsonBody (body : json)
  | FormBody (fields : list (string * string)) (files : list (string * string * string)).
(** What is sent on every route: the headers of the session and the token are added by the loop. *)
Record api_request : Type := mkApiRequest {
  rq_method : string;
  rq_endpoint : string;
  rq_body : api_body;
  rq_session : option ApiSession }.

Record api_response : Type := mkApiResponse {
  rp_certificate : option string;
  rp_status : Z;
  rp_retry_after : option string;
  rp_content_type : option string;
  rp_content_length : option Z;
  rp_chunks : list (result string string) }.

Class ApiNet (W : Type) : Type := mkApiNet {
  (** One HTTP exchange on a route, with the verification token: the response or the text of the error. *)
  net_send : ApiRoute -> api_request -> option string -> W -> result api_response string * W;
  net_now : W -> Z;
  net_sleep : Z -> W -> W;
  (** The answers of the DNS-over-HTTPS providers to a query, in the order of their completion. *)
  net_doh : list Z -> W -> list (NativeResult (list AltRouting.AlternativeRoute)) * W;
  net_base32 : string -> string;
  (** [web_auth::solve_captcha]. *)
  net_captcha : string -> W -> NativeResult string * W;
  (** The base64 text of the SHA-256 digest of a certificate's public key, or the parser's error. *)
  net_pin : string -> result string string }.

Inductive api_event : Type :=
  | Sent (route : ApiRoute) (request : api_request) (token : option string) (answer : result api_response string)
  | Waited (ms : Z)
  | Solved (ok : bool)
  | AuthStage (stage : string).

Section Api.
Context {W : Type} {N : ApiNet W} {J : JsonText}.

(** ** Responses *)
Definition validate_tls_pin (response : api_response) (pins : list string) : NativeResult unit :=
  let? certificate := ok_or response.(rp_certificate)
    (NativeError_new "tls_pinning_unavailable" "The Proton API peer certificate was not available for pinning") in
  let? pin := res_map_err (fun error => ne_with_source error
    (NativeError_new "tls_certificate_invalid" "Unable to parse Proton's TLS certificate")) (net_pin certificate) in
  if existsb (String.eqb pin) pins then Ok tt
  else Err (NativeError_new "tls_pin_mismatch" "Proton API TLS pin verification failed").

(** ** The verifier of the TLS handshake *)
Record PinnedVerifier : Type := mkPinnedVerifier { pv_pins : list string; pv_verify_chain : bool }.
(** [tls::config]. *)
Definition tls_config (alternative : bool) : PinnedVerifier :=
  mkPinnedVerifier (if alternative then ALTERNATIVE_TLS_PINS else TLS_PINS) (negb alternative).
(** The client of a route. *)
Definition client_for_route (r : ApiRoute) : PinnedVerifier :=
  match r with DirectRoute | AccountRoute => tls_config false | AlternativeHost _ => tls_config true end.
(** [webpki] is the verification of the chain and the name with the roots of the Web. *)
Definition verify_server_cert (webpki : string -> result unit string) (v : PinnedVerifier) (certificate : string) : result unit string :=
  let? _ := (if v.(pv_verify_chain) then webpki certificate else Ok tt) in
  let? pin := res_map_err (fun _ => "invalid peer certificate: BadEncoding") (net_pin certificate) in
  if existsb (String.eqb pin) v.(pv_pins) then Ok tt else Err "unexpected error: Proton TLS pin mismatch".

(** A handshake that succeeds has authenticated the server: with a key pinned for the route, and on the two routes that verify
    names with a chain of the Web; the check of the response then finds the same key again. *)
Lemma handshake_authenticates webpki r certificate :
  verify_server_cert webpki (client_for_route r) certificate = Ok tt ->
  (exists pin, net_pin certificate = Ok pin /\ pin ∈ route_pins r) /\ (is_alternative r = false -> webpki certificate = Ok tt) /\
  forall response, response.(rp_certificate) = Some certificate -> validate_tls_pin response (route_pins r) = Ok tt.
Proof.
  unfold verify_server_cert. intros H. destruct (if pv_verify_chain _ then _ else _) as [[]|e] eqn:Ec; [|discriminate]. cbn [res_bind] in H.
  destruct (net_pin certificate) as [pin|e] eqn:Ep; [|discriminate]. cbn [res_map_err res_bind] in H.
  replace (pv_pins (client_for_route r)) with (route_pins r) in H by by destruct r. destruct (existsb _ _) eqn:Ex; [|discriminate]. split_and!.
  - exists pin. split; [done|]. apply existsb_exists in Ex as (pin' & Hin & <-%String.eqb_eq). by apply list_elem_of_In.
  - by destruct r.
  - intros response Hr. unfold validate_tls_pin. rewrite Hr. cbn [ok_or res_bind]. rewrite Ep. cbn [res_map_err res_bind]. by rewrite Ex.
Qed.

Definition response_body_limit (path : string) : Z :=
  let path := match strip_prefix "/api" path with Some path => path | None => path end in
  if existsb (String.eqb path) ["/vpn/v2"; "/vpn/v1/logicals"; "/vpn/v2/logicals"]
  then MAX_SERVER_CATALOG_BYTES else MAX_API_RESPONSE_BYTES.

Definition invalid_response_error (status : Z) (route : ApiRoute) (content_type : string) (body_bytes : Z) (reason : string) : NativeError :=
  ne_set_retryable true (ne_with_details
    (jobj [("http_status", jnum status); ("content_type", Str content_type); ("body_bytes", jnum body_bytes);
           ("route", Str (route_label route)); ("reason", Str reason)])
    (NativeError_new "api_response_invalid" "Proton returned an invalid API response")).

Definition USIZE_MAX : Z := 2 ^ 64 - 1.
Definition saturating_add (a b : Z) : Z := Z.min (a + b) USIZE_MAX.

(** The loop over the chunks of a body. *)
Fixpoint read_response (limit : Z) (invalid : Z -> string -> NativeError) (chunks : list (result string string)) (body : string)
    : NativeResult string :=
  match chunks with
  | [] => Ok body
  | Err error :: _ => Err (ne_with_source error (invalid (str_len body) "response body could not be read"))
  | Ok chunk :: chunks =>
      let total := saturating_add (str_len body) (str_len chunk) in
      if limit <? total then Err (invalid total "response exceeds the size limit")
      else read_response limit invalid chunks (body +:+ chunk)
  end.

(** [take(80)] of the characters of a header, which are ASCII. *)
Definition content_type_of (response : api_response) : string := String.substring 0 80 (unwrap_or response.(rp_content_type) "unknown").
Definition retry_after_of (response : api_response) : option Z :=
  let?? seconds := response.(rp_retry_after) ?> parse_uint 64 in Some (Z.min seconds 8).

Definition decode_api_response (route : ApiRoute) (endpoint : string) (response : api_response) : NativeResult (Z * option Z * json) :=
  let limit := response_body_limit (url_path route endpoint) in
  let status := response.(rp_status) in
  let invalid := invalid_response_error status route (content_type_of response) in
  if match response.(rp_content_length) with Some length => limit <? length | None => false end
  then Err (invalid (limit + 1) "response exceeds the size limit")
  else
    let? body := read_response limit invalid response.(rp_chunks) "" in
    let? payload := ok_or (json_parse body)
      (ne_with_source (json_refusal "Value" body) (invalid (str_len body) "response body is not valid JSON")) in
    Ok (status, retry_after_of response, payload).

Definition human_verification_challenge (code : Z) (payload : json) : option string :=
  if negb ((code =? 9001) || (code =? 12087)) then None
  else
    let?? details := jget "Details" payload in
    let supports_captcha :=
      match jget "HumanVerificationMethods" details ?> as_array with
      | Some methods => existsb (fun method => eq_ignore_ascii_case method "captcha") (filter_map as_str methods)
      | None => false
      end in
    if negb supports_captcha then None
    else
      let?? token := jget "HumanVerificationToken" details ?> as_str in
      if negb (is_empty token) && (str_len token <=? 8192) then Some token else None.

(** The code, the message without one of Proton's, and whether to try again. *)
Definition error_class (status code : Z) : string * string * bool :=
  if code =? 8002 then ("authentication_failed", "Incorrect Proton credentials or verification code", false)
  else if code =? 8100 then ("sso_required", "This Proton account must sign in with organization SSO", false)
  else if ((status =? 422) && (code =? 9001)) || (code =? 12087)
  then ("human_verification_required", "Proton requires additional human verification", false)
  else if status =? 401 then ("authentication_expired", "The Proton session has expired", false)
  else if status =? 403 then ("api_scope_missing", "The Proton session lacks a required scope", false)
  else if status =? 429 then ("api_rate_limited", "The Proton API rate limit was reached", true)
  else if (500 <=? status) && (status <=? 599) then ("api_server_error", "The Proton API is temporarily unavailable", true)
  else ("api_error", "The Proton API rejected the request", false).
Definition api_error (status code : Z) (payload : json) : NativeError :=
  let '(native_code, fallback, retryable) := error_class status code in
  let message :=
    match jget "Error" payload ?> as_str with
    | Some value => if negb (is_empty value) && (str_len value <=? 240) then value else fallback
    | None => fallback
    end in
  ne_set_retryable retryable (ne_with_details (jobj [("api_code", Number (if code <? 0 then NegInt code else PosInt code)); ("http_status", jnum status)])
    (NativeError_new native_code message)).

Definition invalid_api_response (field : string) : NativeError :=
  NativeError_new "api_response_invalid" ("Proton API response is missing " +:+ field).
Definition required_string (value : json) (key : string) : NativeResult string :=
  ok_or (let?? text := jget key value ?> as_str in if is_empty text then None else Some text) (invalid_api_response key).
Definition string_array (value : json) (key : string) : NativeResult (list string) :=
  ok_or (let?? values := jget key value ?> as_array in Some (filter_map as_str values)) (invalid_api_response key).
Definition api_session_from_auth (response : json) (account_name : string) : NativeResult ApiSession :=
  let? uid := required_string response "UID" in
  let? access_token := required_string response "AccessToken" in
  let? refresh_token := required_string response "RefreshToken" in
  let? scopes := string_array response "Scopes" in
  Ok (mkApiSession uid access_token refresh_token scopes account_name false (jget "2FA" response)).

(** ** The shared state *)
Record ProtonApi : Type := mkProtonApi {
  ap_world : W;
  ap_alternative_enabled : bool;
  (** The cached route and the time at which it expires. *)
  ap_cache : option (ApiRoute * Z);
  (** Whether [human_verification] is held. *)
  ap_verifying : bool;
  ap_log : list api_event }.
Definition set_ap_world (w : W) (a : ProtonApi) : ProtonApi :=
  mkProtonApi w a.(ap_alternative_enabled) a.(ap_cache) a.(ap_verifying) a.(ap_log).
Definition set_ap_cache (cache : option (ApiRoute * Z)) (a : ProtonApi) : ProtonApi :=
  mkProtonApi a.(ap_world) a.(ap_alternative_enabled) cache a.(ap_verifying) a.(ap_log).
Definition set_ap_verifying (held : bool) (a : ProtonApi) : ProtonApi :=
  mkProtonApi a.(ap_world) a.(ap_alternative_enabled) a.(ap_cache) held a.(ap_log).
Definition add_ap_log (l : list api_event) (a : ProtonApi) : ProtonApi :=
  mkProtonApi a.(ap_world) a.(ap_alternative_enabled) a.(ap_cache) a.(ap_verifying) (a.(ap_log) ++ l).

(** What other tasks do during a wait; [held] says that this task holds [human_verification]. *)
Context (meanwhile : ProtonApi -> ProtonApi).
Definition api_others (held : bool) (a : ProtonApi) : ProtonApi :=
  let a' := meanwhile a in
  mkProtonApi a.(ap_world) a'.(ap_alternative_enabled) a'.(ap_cache) (if held then a.(ap_verifying) else a'.(ap_verifying)) a.(ap_log).

Definition API (B : Type) : Type := ProtonApi -> outcome B * ProtonApi.
Definition api_ret {B : Type} (b : B) : API B := fun a => (Done (Ok b), a).
Definition api_throw {B : Type} (e : NativeError) : API B := fun a => (Done (Err e), a).
Definition api_result {B : Type} (b : NativeResult B) : API B := fun a => (Done b, a).
Definition api_bind {B C : Type} (m : API B) (k : B -> API C) : API C := fun a =>
  match m a with
  | (Done (Ok b), a) => k b a
  | (Done (Err e), a) => (Done (Err e), a)
  | (Running, a) => (Running, a)
  end.
Definition api_get {B : Type} (f : ProtonApi -> B) : API B := fun a => (Done (Ok (f a)), a).
Definition api_modify (f : ProtonApi -> ProtonApi) : API unit := fun a => (Done (Ok tt), f a).
(** A wait for the outside, whose answer is the value. *)
Definition api_ask {B : Type} (held : bool) (f : W -> B * W) (entry : B -> list api_event) : API B := fun a =>
  let '(b, w) := f a.(ap_world) in (Done (Ok b), api_others held (add_ap_log (entry b) (set_ap_world w a))).
End Api.
Arguments ProtonApi W : clear implicits.
Arguments API W B : clear implicits.

Notation "'let$' x ':=' m 'in' k" := (api_bind m (fun x => k))
  (at level 200, x name, k at level 200, right associativity) : rust_scope.
Notation "m ';;$' k" := (api_bind m (fun _ => k)) (at level 100, k at level 200, right associativity) : rust_scope.

Section Requests.
Context {W : Type} {N : ApiNet W} {J : JsonText} (meanwhile : ProtonApi W -> ProtonApi W).

(** ** Choosing a route *)
Definition initial_route : API W ApiRoute :=
  let$ enabled := api_get (fun a => a.(ap_alternative_enabled)) in
  if negb enabled then api_ret DirectRoute
  else
    let$ cache := api_get (fun a => a.(ap_cache)) in
    let$ now := api_get (fun a => net_now a.(ap_world)) in
    match cache with
    | Some (route, expires_at) =>
        if now <? expires_at then api_ret route else api_modify (set_ap_cache None) ;;$ api_ret DirectRoute
    | None => api_ret DirectRoute
    end.

Definition resolve_alternative (w : W) : NativeResult AltRouting.AlternativeRoute * W :=
  match AltRouting.build_txt_query (AltRouting.query_host net_base32) with
  | Err e => (Err e, w)
  | Ok query => let '(answers, w) := net_doh query w in (AltRouting.resolve net_base32 (fun _ => answers), w)
  end.

Definition cache_route (route : ApiRoute) (seconds : Z) : API W unit :=
  api_modify (fun a => set_ap_cache (Some (route, net_now a.(ap_world) + 1000 * seconds)) a).

Definition route_after_transport_failure (current : ApiRoute) (tried_alternative : bool) : API W (option ApiRoute) :=
  let$ enabled := api_get (fun a => a.(ap_alternative_enabled)) in
  if negb enabled then api_ret None
  else
    match current with
    | AccountRoute => api_modify (set_ap_cache None) ;;$ api_ret None
    | _ =>
        let$ resolved :=
          (if negb (is_alternative current) && negb tried_alternative
           then let$ r := api_ask meanwhile false resolve_alternative (fun _ => []) in
                api_ret (match r with Ok route => Some route | Err _ => None end)
           else api_ret None) in
        match resolved with
        | Some route =>
            cache_route (AlternativeHost route.(AltRouting.ar_host)) route.(AltRouting.ar_valid_for) ;;$
            api_ret (Some (AlternativeHost route.(AltRouting.ar_host)))
        | None => cache_route AccountRoute 120 ;;$ api_ret (Some AccountRoute)
        end
    end.

(** ** The challenge *)
Definition verification_in_progress : NativeError :=
  NativeError_new "human_verification_in_progress" "Another Proton human verification is already in progress".
Definition verification_failed : NativeError :=
  NativeError_new "human_verification_failed" "Proton returned an invalid human-verification token".

Definition solve_human_verification (challenge : string) : API W string := fun a =>
  if a.(ap_verifying) then (Done (Err verification_in_progress), a)
  else
    let '(o, a) :=
      (let$ answer := api_ask meanwhile true (net_captcha challenge)
                        (fun answer => [AuthStage "auth.waiting_for_human_verification"; Solved (is_ok answer)]) in
       let$ token := api_result answer in
       if is_empty token || (8192 <? str_len token) then api_throw verification_failed
       else api_modify (add_ap_log [AuthStage "auth.completing_human_verification"]) ;;$ api_ret token) (set_ap_verifying true a) in
    (o, set_ap_verifying false a).

(** ** The retry loop *)
Definition api_unreachable (source : string) : NativeError :=
  ne_set_retryable true (ne_with_source source (NativeError_new "api_unreachable" "The Proton API could not be reached")).
Definition is_transient (status : Z) : bool := (status =? 408) || (status =? 502) || (status =? 429) || (status =? 503).
Definition payload_code (payload : json) : Z := unwrap_or (jget "Code" payload ?> as_i64) 0.
Definition accepted_status (status code : Z) : bool := (200 <=? status) && (status <=? 299) && ((code =? 1000) || (code =? 1001)).
Definition api_sleep (ms : Z) : API W unit := api_ask meanwhile false (fun w => (tt, net_sleep ms w)) (fun _ => [Waited ms]).

(** The loop of [request_direct] and of [post_multipart]; [delay] is the pause after a transient refusal, in
    seconds, given the header [Retry-After]. *)
Fixpoint retry_loop (fuel : nat) (request : api_request) (delay : option Z -> Z) (route : ApiRoute) (tried_alternative : bool)
    (transient_attempt : Z) (token : option string) : API W json :=
  match fuel with
  | O => fun a => (Running, a)
  | S fuel =>
      let$ answer := api_ask meanwhile false (net_send route request token) (fun answer => [Sent route request token answer]) in
      (* The next route after a failure of the transport, or what follows without one. *)
      let rerouted (otherwise : API W json) : API W json :=
        let$ next := route_after_transport_failure route tried_alternative in
        match next with
        | Some next => retry_loop fuel request delay next (tried_alternative || is_alternative next) transient_attempt token
        | None => otherwise
        end in
      match answer with
      | Err source =>
          rerouted (if transient_attempt <? 2
                    then api_sleep (250 * (transient_attempt + 1)) ;;$
                         retry_loop fuel request delay route tried_alternative (transient_attempt + 1) token
                    else api_throw (api_unreachable source))
      | Ok response =>
          match validate_tls_pin response (route_pins route) with
          | Err error => rerouted (api_throw error)
          | Ok _ =>
              match decode_api_response route request.(rq_endpoint) response with
              | Err error => rerouted (api_throw error)
              | Ok (status, retry_after, payload) =>
                  let code := payload_code payload in
                  if accepted_status status code then api_ret payload
                  else
                    match (match token with None => human_verification_challenge code payload | Some _ => None end) with
                    | Some challenge =>
                        let$ token := solve_human_verification challenge in
                        retry_loop fuel request delay route tried_alternative transient_attempt (Some token)
                    | None =>
                        if (transient_attempt <? 2) && is_transient status
                        then api_sleep (1000 * delay retry_after) ;;$
                             retry_loop fuel request delay route tried_alternative (transient_attempt + 1) token
                        else api_throw (api_error status code payload)
                    end
              end
          end
      end
  end.

(** Two transient failures, two changes of the route and one challenge leave at most six exchanges. *)
Definition MAX_EXCHANGES : nat := 6.
Definition start_request (request : api_request) (delay : option Z -> Z) : API W json :=
  let$ route := initial_route in
  retry_loop MAX_EXCHANGES request delay route (is_alternative route) 0 None.

Definition request_direct (method endpoint : string) (body : option json) (session : option ApiSession) : API W json :=
  start_request (mkApiRequest method endpoint (match body with Some body => JsonBody body | None => NoBody end) session)
    (fun retry_after => unwrap_or retry_after 1).
Definition post_multipart (endpoint : string) (fields : list (string * string)) (files : list (string * string * string))
    (session : option ApiSession) : API W json :=
  start_request (mkApiRequest "POST" endpoint (FormBody fields files) session) (fun _ => 1).
End Requests.

(** ** What a request does *)
Section Facts.
Context {W : Type} {N : ApiNet W} {J : JsonText} (meanwhile : ProtonApi W -> ProtonApi W).

Definition exchanges (l : list api_event) : list (ApiRoute * option string) :=
  filter_map (fun e => match e with Sent route _ token _ => Some (route, token) | _ => None end) l.
Definition waits (l : list api_event) : list Z := filter_map (fun e => match e with Waited ms => Some ms | _ => None end) l.
Definition challenges (l : list api_event) : list bool := filter_map (fun e => match e with Solved ok => Some ok | _ => None end) l.

(** The direct host comes before the alternative ones, the account host last. *)
Definition rank (r : ApiRoute) : nat := match r with DirectRoute => 0 | AlternativeHost _ => 1 | AccountRoute => 2 end.
Fixpoint ranks_from (r : nat) (l : list (ApiRoute * option string)) : Prop :=
  match l with [] => True | (route, _) :: l => (r <= rank route)%nat /\ ranks_from (rank route) l end.

(** The answer comes from a peer whose key is pinned for the route; the payload is its body. *)
Definition genuine (request : api_request) (route : ApiRoute) (response : api_response) (payload : json) : Prop :=
  (exists certificate pin, response.(rp_certificate) = Some certificate /\ net_pin certificate = Ok pin /\ pin ∈ route_pins route) /\
  (exists body, read_response (response_body_limit (url_path route request.(rq_endpoint)))
     (invalid_response_error response.(rp_status) route (content_type_of response)) response.(rp_chunks) "" = Ok body /\
     json_parse body = Some payload) /\
  accepted_status response.(rp_status) (payload_code payload) = true.
Definition ends_genuinely (request : api_request) (l : list api_event) (payload : json) : Prop :=
  exists l0 route token response, l = l0 ++ [Sent route request token (Ok response)] /\ genuine request route response payload.

Record exchange_log (request : api_request) (route : ApiRoute) (sends pauses solves : nat) (o : outcome json) (l : list api_event) : Prop := {
  xl_done : o <> Running;
  xl_sends : (length (exchanges l) <= sends)%nat;
  xl_waits : (length (waits l) <= pauses)%nat /\ Forall (fun ms => 0 <= ms <= 8000) (waits l);
  xl_solves : (length (challenges l) <= solves)%nat;
  xl_ranks : ranks_from (rank route) (exchanges l);
  xl_ok : forall payload, o = Done (Ok payload) -> ends_genuinely request l payload }.

Lemma ends_cons request e l payload : ends_genuinely request l payload -> ends_genuinely request (e :: l) payload.
Proof. intros (l0 & route & token & response & -> & H). by exists (e :: l0), route, token, response. Qed.
Lemma ranks_weaken r r' l : (r <= r')%nat -> ranks_from r' l -> ranks_from r l.
Proof. destruct l as [|[route token] l]; [done|]. intros H [H1 H2]. split; [lia|done]. Qed.

Lemma log_error request route sends pauses solves e : exchange_log request route sends pauses solves (Done (Err e)) [].
Proof. constructor; [done|apply Nat.le_0_l|split; [apply Nat.le_0_l|by apply Forall_nil]|apply Nat.le_0_l|done|done]. Qed.
Lemma log_sent request route route' sends pauses solves token answer o l :
  (rank route <= rank route')%nat -> exchange_log request route' sends pauses solves o l ->
  exchange_log request route (S sends) pauses solves o (Sent route request token answer :: l).
Proof.
  intros Hr [H1 H2 H3 H4 H5 H6]. constructor; [done|by apply le_n_S|done|done| |].
  - split; [done|]. by eapply ranks_weaken.
  - intros payload Ho. by apply ends_cons, H6.
Qed.
Lemma log_wait request route sends pauses solves ms o l :
  0 <= ms <= 8000 -> exchange_log request route sends pauses solves o l -> exchange_log request route sends (S pauses) solves o (Waited ms :: l).
Proof.
  intros Hm [H1 H2 [H3 H3'] H4 H5 H6]. constructor; [done|done| |done|done|].
  - split; [by apply le_n_S|]. by constructor.
  - intros payload Ho. by apply ends_cons, H6.
Qed.
Lemma log_challenge request route sends pauses solves ok o l :
  exchange_log request route sends pauses solves o l ->
  exchange_log request route sends pauses (S solves) o (AuthStage "auth.waiting_for_human_verification" :: Solved ok :: l).
Proof.
  intros [H1 H2 H3 H4 H5 H6]. constructor; [done|done|done|by apply le_n_S|done|]. intros payload Ho. by do 2 apply ends_cons; apply H6.
Qed.
Lemma log_stage request route sends pauses solves stage o l :
  exchange_log request route sends pauses solves o l -> exchange_log request route sends pauses solves o (AuthStage stage :: l).
Proof. intros [H1 H2 H3 H4 H5 H6]. constructor; [done..|]. intros payload Ho. by apply ends_cons, H6. Qed.
Lemma log_more request route sends sends' pauses pauses' solves solves' o l :
  (sends <= sends')%nat -> (pauses <= pauses')%nat -> (solves <= solves')%nat ->
  exchange_log request route sends pauses solves o l -> exchange_log request route sends' pauses' solves' o l.
Proof. intros Hs Hp Hv [H1 H2 [H3 H3'] H4 H5 H6]. constructor; [done|lia|split; [lia|done]|lia|done|done]. Qed.

(** ** Runs *)
Definition api_yields {B : Type} (m : API W B) (a : ProtonApi W) (Q : outcome B -> list api_event -> ProtonApi W -> Prop) : Prop :=
  exists l, (m a).2.(ap_log) = a.(ap_log) ++ l /\ Q (m a).1 l (m a).2.

Lemma api_yields_done {B : Type} (o : NativeResult B) a (Q : outcome B -> list api_event -> ProtonApi W -> Prop) :
  Q (Done o) [] a -> api_yields (api_result o) a Q.
Proof. intros H. exists []. by rewrite app_nil_r. Qed.
Lemma api_yields_get {B C : Type} (f : ProtonApi W -> B) (k : B -> API W C) a Q :
  api_yields (k (f a)) a Q -> api_yields (api_bind (api_get f) k) a Q.
Proof. done. Qed.
Lemma api_yields_modify {C : Type} f (k : unit -> API W C) a (Q : outcome C -> list api_event -> ProtonApi W -> Prop) :
  (f a).(ap_log) = a.(ap_log) -> api_yields (k tt) (f a) Q -> api_yields (api_bind (api_modify f) k) a Q.
Proof. intros Hf (l & H1 & H2). exists l. split; [|exact H2]. by rewrite <- Hf. Qed.
Lemma api_yields_ask {B C : Type} held (f : W -> B * W) entry (k : B -> API W C) a (Q : outcome C -> list api_event -> ProtonApi W -> Prop) :
  (forall b a', a'.(ap_log) = a.(ap_log) ++ entry b -> (f a.(ap_world)).1 = b ->
     api_yields (k b) a' (fun o l a'' => Q o (entry b ++ l) a'')) ->
  api_yields (api_bind (api_ask meanwhile held f entry) k) a Q.
Proof.
  intros H. unfold api_yields, api_bind, api_ask. destruct (f (ap_world a)) as [b w] eqn:E.
  destruct (H b (api_others meanwhile held (add_ap_log (entry b) (set_ap_world w a))) ltac:(by destruct a) eq_refl) as (l & H1 & H2).
  exists (entry b ++ l). split; [|exact H2]. rewrite H1. cbn. by rewrite app_assoc.
Qed.

Lemma reroute_ok current tried a :
  exists next a', route_after_transport_failure meanwhile current tried a = (Done (Ok next), a') /\ a'.(ap_log) = a.(ap_log) /\
    match next with Some next => (rank current < rank next)%nat /\ a.(ap_alternative_enabled) = true | None => True end.
Proof.
  unfold route_after_transport_failure, api_bind, api_get, cache_route, api_modify, api_ret, api_ask.
  destruct (ap_alternative_enabled a) eqn:Ee; cbn [negb]; [|by exists None, a].
  destruct current as [|host|]; cbn [is_alternative negb andb].
  - destruct (negb tried); [|by eexists _, _; split; [done|]; split; [by destruct a|split; [cbn; lia|]]].
    destruct (resolve_alternative (ap_world a)) as [[route|e] w]; eexists _, _; (split; [done|]); (split; [|split; [cbn; lia|done]]);
      destruct a; cbn; by rewrite app_nil_r.
  - by eexists _, _; split; [done|]; split; [by destruct a|split; [cbn; lia|]].
  - by eexists None, _; split; [done|]; split; [by destruct a|].
Qed.
Lemma reroute_log {C : Type} current tried (k : option ApiRoute -> API W C) a Q :
  (forall next a', a'.(ap_log) = a.(ap_log) ->
     match next with Some next => (rank current < rank next)%nat | None => True end -> api_yields (k next) a' Q) ->
  api_yields (api_bind (route_after_transport_failure meanwhile current tried) k) a Q.
Proof.
  intros H. destruct (reroute_ok current tried a) as (next & a' & E & Hl & Hn). unfold api_yields, api_bind. rewrite E.
  destruct (H next a' Hl ltac:(by destruct next as [next|]; [destruct Hn|])) as (l & H1 & H2). exists l. by rewrite <- Hl.
Qed.

(** The human verification takes one challenge, and returns. *)
Lemma solve_log {C : Type} challenge (k : string -> API W C) a (Q : outcome C -> list api_event -> ProtonApi W -> Prop) :
  (forall e a' l, l = [] \/ (exists ok, l = [AuthStage "auth.waiting_for_human_verification"; Solved ok]) -> Q (Done (Err e)) l a') ->
  (forall token a', api_yields (k token) a' (fun o l a'' =>
     Q o (AuthStage "auth.waiting_for_human_verification" :: Solved true :: AuthStage "auth.completing_human_verification" :: l) a'')) ->
  api_yields (api_bind (solve_human_verification meanwhile challenge) k) a Q.
Proof.
  intros He Hk. unfold api_yields, api_bind at 1 2 3, solve_human_verification.
  destruct (ap_verifying a); [exists []; rewrite app_nil_r; split; [done|]; apply He; by left|].
  unfold api_bind, api_ask, api_result, api_throw, api_modify, api_ret.
  destruct (net_captcha challenge _) as [[token|e] w]; cbn [is_ok].
  - destruct (is_empty token || _).
    + eexists. split; [destruct a; reflexivity|]. apply He. right. by eexists.
    + match goal with |- exists l, (k token ?a').2.(ap_log) = _ /\ _ => destruct (Hk token a') as (l & H1 & H2) end.
      eexists. split; [|exact H2]. rewrite H1. destruct a; cbn. by rewrite <- !app_assoc.
  - eexists. split; [destruct a; reflexivity|]. apply He. right. by eexists.
Qed.

(** ** The loop *)
Definition budget (route : ApiRoute) (transient_attempt : Z) (token : option string) : nat :=
  1 + (2 - rank route) + Z.to_nat (2 - transient_attempt) + match token with None => 1 | Some _ => 0 end.
Definition tokens_left (token : option string) : nat := match token with None => 1 | Some _ => 0 end.
Definition short_delay (delay : option Z -> Z) : Prop :=
  forall r, match r with Some s => 0 <= s <= 8 | None => True end -> 0 <= delay r <= 8.

Lemma parse_uint_bound bits text n : parse_uint bits text = Some n -> 0 <= n.
Proof.
  unfold parse_uint. destruct (is_empty _); [discriminate|]. destruct (digits_value _ _ _); [|discriminate]. intros H%u_try_from_Some. lia.
Qed.
Lemma retry_after_short response : match retry_after_of response with Some s => 0 <= s <= 8 | None => True end.
Proof.
  unfold retry_after_of, opt_then. destruct (rp_retry_after response) as [text|]; cbn; [|done].
  destruct (parse_uint 64 text) as [n|] eqn:E; cbn; [|done]. apply parse_uint_bound in E. lia.
Qed.
Lemma decode_Ok route endpoint response status retry payload :
  decode_api_response route endpoint response = Ok (status, retry, payload) ->
  status = response.(rp_status) /\ retry = retry_after_of response /\
  exists body, read_response (response_body_limit (url_path route endpoint))
    (invalid_response_error response.(rp_status) route (content_type_of response)) response.(rp_chunks) "" = Ok body /\
    json_parse body = Some payload.
Proof.
  unfold decode_api_response. intros Hd.
  destruct (match rp_content_length response with Some _ => _ | None => _ end); [discriminate|].
  destruct (read_response _ _ _ _) as [body|] eqn:E; [|discriminate]. cbn in Hd.
  destruct (json_parse body) eqn:Ej; [|discriminate]. cbn in Hd. injection Hd as <- <- <-. split_and!; [done..|by exists body].
Qed.
Lemma decode_genuine (request : api_request) route response status retry payload :
  validate_tls_pin response (route_pins route) = Ok tt ->
  decode_api_response route request.(rq_endpoint) response = Ok (status, retry, payload) ->
  accepted_status status (payload_code payload) = true -> genuine request route response payload.
Proof.
  unfold validate_tls_pin. intros Hp (-> & _ & body & Hb & Hj)%decode_Ok Ha. split; [|split; [by exists body|done]].
  destruct (rp_certificate response) as [certificate|]; [|discriminate]. cbn in Hp. exists certificate.
  destruct (net_pin certificate) as [pin|] eqn:E; [|discriminate]. cbn in Hp. exists pin. split_and!; [done|done|].
  destruct (existsb _ _) eqn:Ex; [|discriminate]. apply existsb_exists in Ex as (pin' & Hin & <-%String.eqb_eq). by apply list_elem_of_In.
Qed.

Definition loop_log (request : api_request) (route : ApiRoute) (transient : Z) (token : option string) : outcome json -> list api_event -> Prop :=
  exchange_log request route (budget route transient token) (Z.to_nat (2 - transient)) (tokens_left token).
Lemma log_final request route pauses solves token response payload n :
  genuine request route response payload ->
  exchange_log request route (S n) pauses solves (Done (Ok payload)) ([Sent route request token (Ok response)] ++ []).
Proof.
  intros Hg. constructor; [done|by apply le_n_S, Nat.le_0_l|split; [apply Nat.le_0_l|by apply Forall_nil]|apply Nat.le_0_l|by split|].
  intros payload' [= <-]. by exists [], route, token, response.
Qed.

(** After a failure of the transport the loop goes on with a later route, or ends like [otherwise]. *)
Lemma retry_reroute fuel request delay route tried transient token answer :
  (forall route tried transient token a, 0 <= transient <= 2 -> (budget route transient token <= fuel)%nat ->
     api_yields (retry_loop meanwhile fuel request delay route tried transient token) a (fun o l _ => loop_log request route transient token o l)) ->
  0 <= transient <= 2 -> (budget route transient token <= S fuel)%nat ->
  forall otherwise : API W json,
  (forall a, api_yields otherwise a (fun o l _ =>
     exchange_log request route (pred (budget route transient token)) (Z.to_nat (2 - transient)) (tokens_left token) o l)) ->
  forall a, api_yields (api_bind (route_after_transport_failure meanwhile route tried) (fun next =>
    match next with
    | Some next => retry_loop meanwhile fuel request delay next (tried || is_alternative next) transient token
    | None => otherwise
    end)) a (fun o l _ => loop_log request route transient token o ([Sent route request token answer] ++ l)).
Proof.
  intros IH Ht Hf otherwise Ho a. apply reroute_log. intros [next|] a2 _ Hn.
  - destruct (IH next (tried || is_alternative next) transient token a2 Ht) as (l & H1 & H2);
      [unfold budget in *; destruct next, route; cbn [rank] in *; lia|].
    exists l. split; [done|]. eapply (log_more _ _ (S (budget next transient token)));
      [unfold budget; destruct next, route; cbn [rank] in *; lia|done|done|]. apply (log_sent _ _ next); [lia|done].
  - destruct (Ho a2) as (l & H1 & H2). exists l. split; [done|].
    apply (log_more _ _ (S (pred (budget route transient token))) _ (Z.to_nat (2 - transient)) _ (tokens_left token));
      [unfold budget; lia|done|done|]. by apply (log_sent _ _ route).
Qed.

Lemma retry_loop_log fuel request delay route tried transient token a :
  short_delay delay -> 0 <= transient <= 2 -> (budget route transient token <= fuel)%nat ->
  api_yields (retry_loop meanwhile fuel request delay route tried transient token) a (fun o l _ =>
    loop_log request route transient token o l).
Proof.
  intros Hdelay. revert route tried transient token a. induction fuel as [|fuel IH]; intros route tried transient token a Ht Hf.
  { unfold budget in Hf. lia. }
  cbn [retry_loop]. apply api_yields_ask. intros answer a1 _ _. cbn beta zeta iota.
  assert (Hnext := retry_reroute fuel request delay route tried transient token answer IH Ht Hf).
  assert (Hsleep : forall ms a', 0 <= ms <= 8000 -> transient <? 2 = true ->
    api_yields (api_sleep meanwhile ms ;;$ retry_loop meanwhile fuel request delay route tried (transient + 1) token) a' (fun o l _ =>
      exchange_log request route (pred (budget route transient token)) (Z.to_nat (2 - transient)) (tokens_left token) o l)).
  { intros ms a' Hms Hlt. apply api_yields_ask. intros _ a2 _ _.
    destruct (IH route tried (transient + 1) token a2 ltac:(lia) ltac:(unfold budget in *; lia)) as (l & H1 & H2). exists l. split; [done|].
    eapply (log_more _ _ (budget route (transient + 1) token) _ (S (Z.to_nat (2 - (transient + 1)))));
      [unfold budget; lia|lia|done|]. by apply log_wait. }
  assert (Hthrow : forall n p v e a', api_yields (api_throw e : API W json) a' (fun o l _ => exchange_log request route n p v o l)).
  { intros n p v e a'. exists []. split; [by rewrite app_nil_r|apply log_error]. }
  destruct answer as [response|source]; [|apply Hnext; intros a'; destruct (transient <? 2) eqn:Hlt; [apply Hsleep; [lia|done]|apply Hthrow]].
  destruct (validate_tls_pin response (route_pins route)) as [[]|e] eqn:Ep; [|apply Hnext; intros a'; apply Hthrow].
  destruct (decode_api_response route _ response) as [[[status retry] payload]|e] eqn:Ed; [|apply Hnext; intros a'; apply Hthrow].
  destruct (accepted_status status (payload_code payload)) eqn:Ea.
  { exists []. split; [by rewrite app_nil_r|]. apply log_final. by eapply decode_genuine. }
  assert (Hlater : forall n p v o l, (S n <= budget route transient token)%nat -> exchange_log request route n p v o l ->
    exchange_log request route (budget route transient token) p v o ([Sent route request token (Ok response)] ++ l)).
  { intros n p v o l Hn Hl. eapply (log_more _ _ (S n)); [done..|]. by apply (log_sent _ _ route). }
  destruct (match token with None => _ | Some _ => None end) as [challenge|] eqn:Ec.
  - destruct token; [discriminate|]. apply solve_log.
    + intros e a2 l Hl. apply (Hlater 0%nat); [unfold budget; lia|].
      destruct Hl as [->|[ok ->]]; [apply log_error|]. by apply log_challenge, log_error.
    + intros token a2. destruct (IH route tried transient (Some token) a2 Ht ltac:(unfold budget in *; lia)) as (l & H1 & H2).
      exists l. split; [done|]. eapply Hlater; [|by apply log_challenge, log_stage]. unfold budget. lia.
  - destruct (transient <? 2) eqn:Hlt; cbn [andb].
    + destruct (is_transient status).
      * destruct (Hsleep (1000 * delay retry) a1) as (l & H1 & H2); [|done|].
        { apply decode_Ok in Ed as (_ & -> & _). pose proof (Hdelay _ (retry_after_short response)). lia. }
        exists l. split; [done|]. eapply Hlater; [|done]. unfold budget. lia.
      * exists []. split; [by rewrite app_nil_r|]. apply (Hlater 0%nat); [unfold budget; lia|apply log_error].
    + exists []. split; [by rewrite app_nil_r|]. apply (Hlater 0%nat); [unfold budget; lia|apply log_error].
Qed.

(** ** Without alternative routing *)
Definition off (a : ProtonApi W) : Prop := a.(ap_alternative_enabled) = false.
Lemma exchanges_app l l' : exchanges (l ++ l') = exchanges l ++ exchanges l'.
Proof. induction l as [|e l IH]; [done|]. unfold exchanges in *. cbn. destruct e; cbn; by rewrite IH. Qed.
Definition only_direct {B : Type} (o : outcome B) (l : list api_event) (a : ProtonApi W) : Prop :=
  Forall (fun x => x.1 = DirectRoute) (exchanges l).
Lemma direct_ask {B C : Type} held (f : W -> B * W) entry (k : B -> API W C) a :
  (forall a', off (meanwhile a')) ->
  (forall b, Forall (fun x => x.1 = DirectRoute) (exchanges (entry b))) ->
  (forall b a', off a' -> api_yields (k b) a' only_direct) ->
  api_yields (api_bind (api_ask meanwhile held f entry) k) a only_direct.
Proof.
  intros Hm He Hk. unfold api_yields, api_bind, api_ask. destruct (f (ap_world a)) as [b w].
  destruct (Hk b (api_others meanwhile held (add_ap_log (entry b) (set_ap_world w a)))) as (l & H1 & H2); [apply Hm|].
  exists (entry b ++ l). rewrite H1. cbn. rewrite app_assoc. split; [done|].
  unfold only_direct in *. rewrite exchanges_app. by apply Forall_app.
Qed.
Lemma direct_stop {B : Type} (o : NativeResult B) a : api_yields (api_result o) a only_direct.
Proof. apply api_yields_done. by apply Forall_nil. Qed.
Lemma direct_reroute {C : Type} current tried (k : option ApiRoute -> API W C) a :
  off a -> (forall a', off a' -> api_yields (k None) a' only_direct) ->
  api_yields (api_bind (route_after_transport_failure meanwhile current tried) k) a only_direct.
Proof.
  unfold off. intros Ha Hk. unfold api_yields, api_bind at 1 2 3, route_after_transport_failure, api_bind, api_get. rewrite Ha. cbn [negb]. by apply Hk.
Qed.

Lemma direct_solve {C : Type} challenge (k : string -> API W C) a :
  (forall a', off (meanwhile a')) -> off a -> (forall token a', off a' -> api_yields (k token) a' only_direct) ->
  api_yields (api_bind (solve_human_verification meanwhile challenge) k) a only_direct.
Proof.
  intros Hm Ha Hk. unfold api_yields, api_bind at 1 2 3, solve_human_verification.
  destruct (ap_verifying a); [exists []; rewrite app_nil_r; by split; [|apply Forall_nil]|].
  unfold api_bind, api_ask, api_result, api_throw, api_modify, api_ret.
  destruct (net_captcha challenge _) as [[token|e] w]; cbn [is_ok].
  - destruct (is_empty token || _).
    + eexists. split; [destruct a; reflexivity|by apply Forall_nil].
    + match goal with |- exists l, (k token ?a').2.(ap_log) = _ /\ _ => destruct (Hk token a' ltac:(apply Hm)) as (l & H1 & H2) end.
      exists ([AuthStage "auth.waiting_for_human_verification"; Solved true; AuthStage "auth.completing_human_verification"] ++ l).
      split; [rewrite H1; destruct a; cbn; by rewrite <- !app_assoc|]. unfold only_direct in *. by rewrite exchanges_app.
  - eexists. split; [destruct a; reflexivity|by apply Forall_nil].
Qed.

Lemma retry_direct fuel request delay tried transient token a :
  (forall a', off (meanwhile a')) -> off a ->
  api_yields (retry_loop meanwhile fuel request delay DirectRoute tried transient token) a only_direct.
Proof.
  intros Hm. revert transient token a. induction fuel as [|fuel IH]; intros transient token a Ha.
  { exists []. rewrite app_nil_r. split; [done|by apply Forall_nil]. }
  cbn [retry_loop]. apply direct_ask; [done|by intros; repeat constructor|]. intros answer a1 Ha1. cbn beta zeta.
  assert (Hsleep : forall ms a', off a' ->
    api_yields (api_sleep meanwhile ms ;;$ retry_loop meanwhile fuel request delay DirectRoute tried (transient + 1) token) a' only_direct).
  { intros ms a' _. apply direct_ask; [done|by intros; apply Forall_nil|]. intros _ a2 Ha2. by apply IH. }
  destruct answer as [response|source];
    [|apply direct_reroute; [done|]; intros a' Ha'; destruct (transient <? 2); [by apply Hsleep|apply direct_stop]].
  destruct (validate_tls_pin _ _) as [[]|e]; [|apply direct_reroute; [done|]; intros; apply direct_stop].
  destruct (decode_api_response _ _ _) as [[[status retry] payload]|e]; [|apply direct_reroute; [done|]; intros; apply direct_stop].
  destruct (accepted_status _ _); [apply direct_stop|].
  destruct (match token with None => _ | Some _ => None end) as [challenge|].
  - apply direct_solve; [done..|]. intros token' a2 Ha2. by apply IH.
  - destruct (_ && _); [by apply Hsleep|apply direct_stop].
Qed.

Lemma start_request_log request delay a :
  short_delay delay ->
  exists route l, (start_request meanwhile request delay a).2.(ap_log) = a.(ap_log) ++ l /\
    exchange_log request route 6 2 1 (start_request meanwhile request delay a).1 l.
Proof.
  intros Hd. assert (Hr : exists route a', initial_route a = (Done (Ok route), a') /\ a'.(ap_log) = a.(ap_log)).
  { unfold initial_route, api_bind, api_get, api_modify, api_ret. destruct (negb _); [by eexists _, _|].
    destruct (ap_cache a) as [[route expires]|]; [|by eexists _, _]. destruct (_ <? _); eexists _, _; by (split; [done|destruct a]). }
  destruct Hr as (route & a' & E & Hl). unfold start_request, api_bind. rewrite E.
  destruct (retry_loop_log MAX_EXCHANGES request delay route (is_alternative route) 0 None a') as (l & H1 & H2);
    [done|lia|unfold budget, MAX_EXCHANGES, rank; destruct route; lia|]. exists route, l. rewrite <- Hl. split; [done|].
  eapply log_more; [..|exact H2]; unfold budget, tokens_left, rank; try destruct route; lia.
Qed.
Lemma start_request_direct request delay a :
  (forall a', off (meanwhile a')) -> off a ->
  exists l, (start_request meanwhile request delay a).2.(ap_log) = a.(ap_log) ++ l /\ Forall (fun x => x.1 = DirectRoute) (exchanges l).
Proof.
  intros Hm Ha. unfold start_request, initial_route, api_bind, api_get. rewrite Ha. cbn [negb api_ret is_alternative]. by apply retry_direct.
Qed.

(** C28: A request to the API ends, whatever the network answers: after at most six exchanges, two pauses of
    at most eight seconds and one challenge.  It never goes back from a fallback to an earlier kind of host.
    When it succeeds, the last exchange was answered by a peer whose key is pinned for the route it went over,
    within the size limit, with a success, and the result is that answer.  While alternative routing is off,
    everything goes to the direct host. *)
Theorem api_requests_bounded_and_pinned method endpoint body session fields files a :
  (let run := request_direct meanwhile method endpoint body session a in
   exists route l, run.2.(ap_log) = a.(ap_log) ++ l /\
     exchange_log (mkApiRequest method endpoint (match body with Some body => JsonBody body | None => NoBody end) session) route 6 2 1 run.1 l) /\
  (let run := post_multipart meanwhile endpoint fields files session a in
   exists route l, run.2.(ap_log) = a.(ap_log) ++ l /\
     exchange_log (mkApiRequest "POST" endpoint (FormBody fields files) session) route 6 2 1 run.1 l) /\
  ((forall a', (meanwhile a').(ap_alternative_enabled) = false) -> a.(ap_alternative_enabled) = false ->
   (exists l, (request_direct meanwhile method endpoint body session a).2.(ap_log) = a.(ap_log) ++ l /\
      Forall (fun x => x.1 = DirectRoute) (exchanges l)) /\
   (exists l, (post_multipart meanwhile endpoint fields files session a).2.(ap_log) = a.(ap_log) ++ l /\
      Forall (fun x => x.1 = DirectRoute) (exchanges l))).
Proof.
  split_and!.
  - apply start_request_log. unfold short_delay, unwrap_or. intros [seconds|]; cbn; lia.
  - apply start_request_log. intros r _. cbn. lia.
  - intros Hm Ha. by split; apply start_request_direct.
Qed.
End Facts.

(** A network that answers from a script; the certificates are their own pins. *)
Definition script : Type := list (result api_response string).
Definition script_net : ApiNet script :=
  mkApiNet script (fun _ _ _ w => match w with [] => (Err "offline", []) | answer :: w => (answer, w) end) (fun _ => 0) (fun _ w => w)
    (fun _ w => ([Ok [AltRouting.mkAlternativeRoute "alternative.example" 60]], w)) (fun s => s) (fun _ w => (Ok "solved", w)) (fun c => Ok c).
Definition answer_text : JsonText :=
  mkJsonText (fun _ => "") (fun text => if String.eqb text "ok" then Some (jobj [("Code", jnum 1000)]) else Some (jobj [("Code", jnum 2000)])) (fun _ _ => "").
Definition answered (pins : list string) (status : Z) (body : string) : result api_response string :=
  Ok (mkApiResponse (head pins) status None None None [Ok body]).
(** Others leave the switch as it is said to be. *)
Definition switched (enabled : bool) (a : ProtonApi script) : ProtonApi script :=
  mkProtonApi a.(ap_world) enabled a.(ap_cache) a.(ap_verifying) a.(ap_log).
Definition script_run (enabled : bool) (answers : script) : outcome json * ProtonApi script :=
  request_direct (N := script_net) (J := answer_text) (switched enabled) "GET" "/vpn/v2" None None (mkProtonApi answers enabled None false []).

(** The direct host is unreachable, the alternative one presents a foreign key, the account host answers busy and then fine. *)
Example fallback_run :
  let run := script_run true [Err "blocked"; answered TLS_PINS 200 "ok"; answered TLS_PINS 503 "busy"; answered TLS_PINS 200 "ok"] in
  run.1 = Done (Ok (jobj [("Code", jnum 1000)])) /\
  map fst (exchanges run.2.(ap_log)) = [DirectRoute; AlternativeHost "alternative.example"; AccountRoute; AccountRoute] /\
  waits run.2.(ap_log) = [1000].
Proof. vm_compute. by split_and!. Qed.

Lemma api_requests_bounded_and_pinned_witness :
  let run := script_run false [Err "blocked"; answered TLS_PINS 503 "busy"; answered TLS_PINS 200 "ok"] in
  run.1 = Done (Ok (jobj [("Code", jnum 1000)])) /\ length (exchanges run.2.(ap_log)) = 3%nat /\
  (exists l, run.2.(ap_log) = [] ++ l /\ Forall (fun x => x.1 = DirectRoute) (exchanges l)).
Proof.
  intros run. split; [vm_compute; reflexivity|]. split; [vm_compute; reflexivity|].
  destruct (api_requests_bounded_and_pinned (N := script_net) (J := answer_text) (switched false) "GET" "/vpn/v2" None None [] []
    (mkProtonApi [Err "blocked"; answered TLS_PINS 503 "busy"; answered TLS_PINS 200 "ok"] false None false []))
    as (_ & _ & H).
  destruct (H (fun _ => eq_refl) eq_refl) as [Hd _]. exact Hd.
Defined.
