(* ===== verification/Fido.v ===== *)
(** Security keys ([agent/src/native_backend/fido2.rs]): the request offered by a session, and the exchange of PINs with
    the authenticator while it runs.

    The exchange has four parties: the worker that runs [authenticate], the thread that handles the authenticator's
    status updates, the requests that submit a PIN, and the requests that cancel.  Each works on the shared
    [FidoOperation] by single locked accesses; a [step] is one such access, so that any interleaving is a list of
    steps.  The authenticator and its USB transport are the crate [authenticator]: what it reports comes in with the
    steps.  A channel to it is a number; base64 decoding, SHA-256 and the crate's serialization of the client data are
    parameters. *)
From S2P Require Export Api.
From S2P Require Import RustStr.
Open Scope string_scope.
Open Scope Z_scope.
Open Scope list_scope.
Open Scope rust_scope.

(** ** The request *)
Inductive Transport : Type :=
  | USB
  | NFC
  | BLE
  | Internal.
Inductive UserVerificationRequirement : Type :=
  | Required
  | Preferred
  | Discouraged.
Record credential : Type := mkCredential {
  pk_id : list Z;
  pk_transports : list Transport }.
Record FidoRequest : Type := mkFidoRequest {
  fr_authentication_options : json;
  fr_challenge : list Z;
  fr_rp_id : string;
  fr_allow_list : list credential;
  fr_user_verification : UserVerificationRequirement }.
Record FidoAssertion : Type := mkFidoAssertion {
  fa_authentication_options : json;
  fa_client_data : list Z;
  fa_authenticator_data : list Z;
  fa_signature : list Z;
  fa_credential_id : list Z }.

(** The three engines tried in turn: URL-safe without padding, URL-safe, standard. *)
Class Base64 : Type := mkBase64 {
  b64_engines : list (string -> option (list Z)) }.

Definition invalid_options (field : string) : NativeError :=
  NativeError_new "fido2_options_invalid" ("Proton returned invalid WebAuthn " +:+ field).
Fixpoint first_decoded (engines : list (string -> option (list Z))) (encoded : string) : option (list Z) :=
  match engines with
  | [] => None
  | engine :: engines => match engine encoded with Some decoded => Some decoded | None => first_decoded engines encoded end
  end.
Definition fido_label (label : string) : bool :=
  negb (is_empty label) && (str_len label <=? 63) && negb (starts_with "-" label) && negb (starts_with "-" (str_rev label))
  && str_forall (fun c => is_ascii_alphanumeric c || Ascii.eqb c "-") label.
Definition valid_rp_id (rp_id : string) : bool :=
  (str_len rp_id <=? 253) && str_forall (fun c => byte c <? 128) rp_id && negb (starts_with "." rp_id)
  && negb (starts_with "." (str_rev rp_id)) && forallb fido_label (split_char "." rp_id).

Section Request.
Context {B : Base64}.

Definition decode_bytes (value : json) (field : string) : NativeResult (list Z) :=
  match as_array value with
  | Some values => res_collect (fun v => ok_or (as_u64 v ?> u_try_from 8) (invalid_options field)) values
  | None =>
      let? encoded := ok_or (opt_filter (fun s => negb (is_empty s)) (option_map trim (as_str value))) (invalid_options field) in
      ok_or (first_decoded b64_engines encoded) (invalid_options field)
  end.
Definition transport_of (name : string) : option Transport :=
  if String.eqb name "usb" then Some USB else if String.eqb name "nfc" then Some NFC
  else if String.eqb name "ble" then Some BLE else if String.eqb name "internal" then Some Internal else None.
Definition parse_credential (value : json) : NativeResult credential :=
  let? object := ok_or (as_object value) (invalid_options "allowCredentials") in
  if negb (bool_decide (get_str object "type" = Some "public-key")) then Err (invalid_options "allowCredentials.type")
  else
    let? raw := ok_or (object !! "id") (invalid_options "allowCredentials.id") in
    let? id := decode_bytes raw "allowCredentials.id" in
    if (length id =? 0)%nat || (1024 <? Z.of_nat (length id)) then Err (invalid_options "allowCredentials.id")
    else
      let transports := match object !! "transports" ?> as_array with
        | Some values => filter_map (fun v => as_str v ?> transport_of) values
        | None => []
        end in
      Ok (mkCredential id transports).
Definition verification_of (name : string) : option UserVerificationRequirement :=
  if String.eqb name "required" then Some Required else if String.eqb name "preferred" then Some Preferred
  else if String.eqb name "discouraged" then Some Discouraged else None.
Definition from_session (session : ApiSession) : NativeResult FidoRequest :=
  let? options := ok_or (opt_filter (fun v => negb (bool_decide (v = Null)))
      (session.(as_two_factor) ?> jget "FIDO2" ?> jget "AuthenticationOptions"))
    (NativeError_new "fido2_not_supported" "This Proton authentication session does not offer a security key") in
  let? public_key := ok_or (jget "publicKey" options ?> as_object) (invalid_options "publicKey") in
  let? raw_challenge := ok_or (public_key !! "challenge") (invalid_options "challenge") in
  let? challenge := decode_bytes raw_challenge "challenge" in
  if (length challenge =? 0)%nat || (1024 <? Z.of_nat (length challenge)) then Err (invalid_options "challenge")
  else
    let? rp_id := ok_or (opt_filter valid_rp_id (option_map trim (get_str public_key "rpId"))) (invalid_options "rpId") in
    let? raw_list := ok_or (public_key !! "allowCredentials" ?> as_array) (invalid_options "allowCredentials") in
    let? allow_list := res_collect parse_credential raw_list in
    if (length allow_list =? 0)%nat || (128 <? length allow_list)%nat then Err (invalid_options "allowCredentials")
    else
      let? user_verification := ok_or (verification_of (unwrap_or (get_str public_key "userVerification") "preferred"))
        (invalid_options "userVerification") in
      Ok (mkFidoRequest options challenge (to_ascii_lowercase rp_id) allow_list user_verification).
End Request.

(** Lower-case letters, digits, hyphens and dots: nothing that could end the host of an origin. *)
Definition host_char (c : ascii) : bool := is_ascii_lower c || is_ascii_digit c || Ascii.eqb c "-" || Ascii.eqb c ".".
Lemma split_char_forall a p s : forallb (str_forall p) (split_char a s) = true -> str_forall (fun c => Ascii.eqb c a || p c) s = true.
Proof.
  induction s as [|c s IH]; [done|]. cbn. destruct (Ascii.eqb c a) eqn:E; cbn.
  - exact IH.
  - destruct (split_char a s) as [|q qs]; cbn; rewrite !andb_true_iff; [intros [[-> _] _]; by rewrite IH|].
    intros [[H1 H2] H3]. split; [exact H1|]. apply IH. cbn. by rewrite H2, H3.
Qed.
Lemma forall_lower p q s : (forall c, p c = true -> q (ascii_lower c) = true) -> str_forall p s = true -> str_forall q (to_ascii_lowercase s) = true.
Proof.
  intros Hpq. unfold to_ascii_lowercase. induction s as [|c s IH]; [done|]. cbn. intros [H1 H2]%andb_true_iff. by rewrite (Hpq _ H1), IH.
Qed.
Lemma str_forall_weaken p q s : (forall c, p c = true -> q c = true) -> str_forall p s = true -> str_forall q s = true.
Proof. intros Hpq. induction s as [|c s IH]; [done|]. cbn. intros [H1 H2]%andb_true_iff. by rewrite (Hpq _ H1), IH. Qed.
Definition rp_char (c : ascii) : bool := Ascii.eqb c "." || (is_ascii_alphanumeric c || Ascii.eqb c "-").
Lemma rp_char_lower c : rp_char c = true -> host_char (ascii_lower c) = true.
Proof. destruct c as [[] [] [] [] [] [] [] []]; vm_compute; congruence. Qed.
Lemma valid_rp_id_host s : valid_rp_id s = true -> str_forall host_char (to_ascii_lowercase s) = true.
Proof.
  unfold valid_rp_id. intros H. apply andb_true_iff in H as [_ H]. apply (forall_lower rp_char); [exact rp_char_lower|].
  apply split_char_forall. rewrite forallb_forall in H |- *. intros l Hl. specialize (H l Hl). unfold fido_label in H.
  by apply andb_true_iff in H as [_ H].
Qed.
Lemma opt_filter_Some {A : Type} (p : A -> bool) o a : opt_filter p o = Some a -> o = Some a /\ p a = true.
Proof. destruct o as [b|]; cbn; [|done]. destruct (p b) eqn:E; [|done]. by intros [= ->]. Qed.
Lemma host_of_filter {E : Type} o (e : E) s : ok_or (opt_filter valid_rp_id o) e = Ok s -> str_forall host_char (to_ascii_lowercase s) = true.
Proof. destruct (opt_filter valid_rp_id o) eqn:Ho; [|done]. intros [= ->]. apply opt_filter_Some in Ho as [_ Hs]. by apply valid_rp_id_host. Qed.
Lemma parse_credential_bounded {B : Base64} v c : parse_credential v = Ok c -> 1 <= Z.of_nat (length c.(pk_id)) <= 1024.
Proof.
  unfold parse_credential. intros H. peel_all H. subst c. cbn.
  match goal with E : orb _ _ = false |- _ => apply orb_false_iff in E as [?%Nat.eqb_neq ?%Z.ltb_ge] end. lia.
Qed.

(** What the authenticator is asked to sign for is well-formed: a bounded challenge, a host name that is the whole host of
    the origin, and between one and 128 bounded credentials. *)
Theorem request_well_formed {B : Base64} session r : from_session session = Ok r ->
  1 <= Z.of_nat (length r.(fr_challenge)) <= 1024 /\ str_forall host_char r.(fr_rp_id) = true /\
  (1 <= length r.(fr_allow_list) <= 128)%nat /\ Forall (fun c => 1 <= Z.of_nat (length c.(pk_id)) <= 1024) r.(fr_allow_list).
Proof.
  unfold from_session. intros H. peel_all H. subst r. cbn.
  repeat match goal with E : orb _ _ = false |- _ => apply orb_false_iff in E as [?%Nat.eqb_neq ?] end.
  rewrite Z.ltb_ge, Nat.ltb_ge in *. split_and!; try lia.
  - match goal with E : ok_or (opt_filter valid_rp_id _) _ = _ |- _ => by apply host_of_filter in E end.
  - match goal with E : res_collect parse_credential _ = _ |- _ => apply res_collect_Ok in E; apply (Forall2_Forall_r _ _ _ _ E) end.
    apply Forall_true. intros v c. apply parse_credential_bounded.
Qed.

(** ** The operation *)
Inductive PinOutcome : Type :=
  | Accepted
  | Invalid (retries : option Z)
  | Failed (code message : string).

Record FidoOperation : Type := mkFidoOperation {
  fo_manager : bool;
  fo_pending_pin : option nat;
  fo_pin_reply : option nat;
  fo_cancelled : bool }.
Definition FidoOperation_new : FidoOperation := mkFidoOperation false None None false.
Definition set_manager (v : bool) (o : FidoOperation) : FidoOperation :=
  mkFidoOperation v o.(fo_pending_pin) o.(fo_pin_reply) o.(fo_cancelled).
Definition set_pending_pin (v : option nat) (o : FidoOperation) : FidoOperation :=
  mkFidoOperation o.(fo_manager) v o.(fo_pin_reply) o.(fo_cancelled).
Definition set_pin_reply (v : option nat) (o : FidoOperation) : FidoOperation :=
  mkFidoOperation o.(fo_manager) o.(fo_pending_pin) v o.(fo_cancelled).
Definition set_cancelled (o : FidoOperation) : FidoOperation :=
  mkFidoOperation o.(fo_manager) o.(fo_pending_pin) o.(fo_pin_reply) true.

(** The authenticator's status updates; a sender of PINs is the number of its channel. *)
Inductive StatusUpdate : Type :=
  | PresenceRequired
  | SelectDeviceNotice
  | PinRequired (channel : nat)
  | InvalidPin (channel : nat) (retries : option Z)
  | PinNotSet
  | PinBlocked
  | PinAuthBlocked
  | UvBlocked
  | PinIsTooShort
  | PinIsTooLong
  | InvalidUv
  | SelectResultNotice
  | InteractiveManagement.

(** What the handling of a status does to the operation, in order, and the stage it publishes at the end. *)
Inductive access : Type :=
  | Reply (outcome : PinOutcome)
  | RequestPin (channel : nat).
Definition handle_status (status : StatusUpdate) : list access * option string :=
  match status with
  | PresenceRequired => ([Reply Accepted], Some "auth.touch_security_key")
  | SelectDeviceNotice => ([], Some "auth.select_security_key")
  | PinRequired channel => ([RequestPin channel], Some "auth.security_key_pin_required")
  | InvalidPin channel retries => ([Reply (Invalid retries); RequestPin channel], Some "auth.security_key_pin_required")
  | PinNotSet => ([Reply (Failed "fido2_pin_not_set" "The security key needs a PIN before it can be used")], None)
  | PinBlocked => ([Reply (Failed "fido2_pin_blocked" "The security key PIN is blocked")], None)
  | PinAuthBlocked => ([Reply (Failed "fido2_pin_auth_blocked" "Too many PIN attempts; reconnect the security key")], None)
  | UvBlocked => ([Reply (Failed "fido2_user_verification_blocked" "Security-key user verification is blocked")], None)
  | PinIsTooShort => ([Reply (Failed "fido2_pin_too_short" "The security-key PIN is too short")], None)
  | PinIsTooLong => ([Reply (Failed "fido2_pin_too_long" "The security-key PIN is too long")], None)
  | InvalidUv => ([], Some "auth.verifying_security_key_user")
  | SelectResultNotice => ([], Some "auth.verifying_security_key")
  | InteractiveManagement => ([], None)
  end.

(** A submission of a PIN: between its accesses, waiting for its reply, or answered. *)
Inductive submission : Type :=
  | Taken (channel : nat)
  | Registered (channel : nat)
  | Refused
  | Waiting
  | TimedOut
  | Answered (answer : NativeResult unit).
(** The receiving end of a reply: nothing yet, an outcome, or a sender that is gone. *)
Inductive inbox : Type :=
  | Open
  | Holds (outcome : PinOutcome)
  | Closed.
(** How far [authenticate] is, with what the device answered. *)
Inductive worker : Type :=
  | NotStarted
  | Starting
  | Signing
  | Collected (succeeded : bool)
  | Draining (succeeded : bool)
  | Closing (cancelled succeeded : bool)
  | Ended (cancelled succeeded : bool).

(** The operation with the submissions made to it, the worker, the status being handled and how much of it is
    done, and the number of requests that have set the flag and not yet replied. *)
Record exchange : Type := mkExchange {
  ex_operation : FidoOperation;
  ex_submissions : gmap nat (submission * inbox);
  ex_worker : worker;
  ex_status : StatusUpdate * nat;
  ex_cancelling : nat }.
Definition exchange_new : exchange := mkExchange FidoOperation_new ∅ NotStarted (InteractiveManagement, 0%nat) 0.
Definition on_operation (f : FidoOperation -> FidoOperation) (x : exchange) : exchange :=
  mkExchange (f x.(ex_operation)) x.(ex_submissions) x.(ex_worker) x.(ex_status) x.(ex_cancelling).
Definition set_submission (i : nat) (v : submission * inbox) (x : exchange) : exchange :=
  mkExchange x.(ex_operation) (<[i := v]> x.(ex_submissions)) x.(ex_worker) x.(ex_status) x.(ex_cancelling).
Definition set_worker (v : worker) (x : exchange) : exchange :=
  mkExchange x.(ex_operation) x.(ex_submissions) v x.(ex_status) x.(ex_cancelling).
Definition set_status (v : StatusUpdate * nat) (x : exchange) : exchange :=
  mkExchange x.(ex_operation) x.(ex_submissions) x.(ex_worker) v x.(ex_cancelling).
Definition set_cancelling (v : nat) (x : exchange) : exchange :=
  mkExchange x.(ex_operation) x.(ex_submissions) x.(ex_worker) x.(ex_status) v.
Abbreviation slot x := (x.(ex_operation).(fo_pin_reply)).

(** The sender in the slot is used, or dropped: the submission it belongs to finds that in its inbox. *)
Definition put_inbox (v : inbox) (i : nat) (x : exchange) : exchange :=
  match x.(ex_submissions) !! i with Some (s, _) => set_submission i (s, v) x | None => x end.
Definition take_reply (v : inbox) (x : exchange) : exchange :=
  match slot x with Some i => on_operation (set_pin_reply None) (put_inbox v i x) | None => x end.
Definition reply (outcome : PinOutcome) : exchange -> exchange := take_reply (Holds outcome).
Definition request_pin (channel : nat) : exchange -> exchange := on_operation (set_pending_pin (Some channel)).
Definition clear_pin : exchange -> exchange := on_operation (set_pending_pin None).
Definition clear_manager : exchange -> exchange := on_operation (set_manager false).
Definition perform (a : access) : exchange -> exchange :=
  match a with Reply outcome => reply outcome | RequestPin channel => request_pin channel end.

(** *** Submitting a PIN, one access at a time *)
Definition pin_too_long : NativeError := NativeError_new "invalid_params" "The security-key PIN is too long".
Definition pin_not_requested (message : string) : NativeError := NativeError_new "fido2_pin_not_requested" message.
Definition pin_already_submitted : NativeError := NativeError_new "fido2_pin_already_submitted" "A security-key PIN is already being checked".
Definition operation_ended : NativeError :=
  NativeError_new "fido2_operation_ended" "Security-key authentication ended before the PIN was checked".
Definition pin_timeout : NativeError := ne_set_retryable true (NativeError_new "fido2_timeout" "The security key did not answer in time").
Definition outcome_result (outcome : PinOutcome) : NativeResult unit :=
  match outcome with
  | Accepted => Ok tt
  | Invalid retries =>
      Err (ne_set_retryable true (ne_with_details (jobj [("retries_remaining", jopt jnum retries)])
             (NativeError_new "fido2_pin_invalid" "The security-key PIN was not accepted")))
  | Failed code message => Err (NativeError_new code message)
  end.

Definition take_pending (i : nat) (pin : string) (x : exchange) : exchange :=
  if 255 <? str_len pin then set_submission i (Answered (Err pin_too_long), Open) x
  else match x.(ex_operation).(fo_pending_pin) with
  | None => set_submission i (Answered (Err (pin_not_requested "The security key is not requesting a PIN")), Open) x
  | Some channel => set_submission i (Taken channel, Open) (on_operation (set_pending_pin None) x)
  end.
(** [replace]: the sender that was in the slot is dropped, and so is the channel of this submission. *)
Definition register_reply (i channel : nat) (x : exchange) : exchange :=
  match slot x with
  | Some _ => set_submission i (Answered (Err pin_already_submitted), Open) (on_operation (set_pin_reply (Some i)) (take_reply Closed x))
  | None => set_submission i (Registered channel, Open) (on_operation (set_pin_reply (Some i)) x)
  end.
Definition send_pin (i : nat) (listening : bool) (v : inbox) : exchange -> exchange :=
  set_submission i (if listening then Waiting else Refused, v).
(** A reply that has come is read before a timeout is noticed. *)
Definition read_reply (i : nat) (v : inbox) (x : exchange) : option exchange :=
  match v with
  | Open => None
  | Holds outcome => Some (set_submission i (Answered (outcome_result outcome), v) x)
  | Closed => Some (set_submission i (Answered (Err operation_ended), v) x)
  end.
(** Whatever sender is in the slot is dropped. *)
Definition abandon (i : nat) (error : NativeError) (x : exchange) : exchange :=
  let x := take_reply Closed x in
  match x.(ex_submissions) !! i with Some (_, v) => set_submission i (Answered (Err error), v) x | None => x end.

(** *** Cancelling, and the end of [authenticate] *)
Definition cancelled_outcome : PinOutcome := Failed "fido2_cancelled" "Security-key authentication was cancelled".
Definition cancel_flag (x : exchange) : exchange := set_cancelling (S x.(ex_cancelling)) (on_operation set_cancelled x).
Definition cancel_reply (n : nat) (x : exchange) : exchange := reply cancelled_outcome (set_cancelling n x).
(** The last access of a cancelling request, and its answer; [refusal] is the error of [manager.cancel()]. *)
Definition cancel_manager (refusal : option string) (o : FidoOperation) : NativeResult unit :=
  if o.(fo_manager) then
    match refusal with
    | None => Ok tt
    | Some source => Err (ne_with_source source (NativeError_new "fido2_cancel_failed" "The security-key operation could not be cancelled"))
    end
  else Err (NativeError_new "fido2_operation_not_active" "Security-key authentication is no longer waiting for a device").
Definition close (cancelled succeeded : bool) (x : exchange) : exchange :=
  set_worker (Ended cancelled succeeded)
    (if cancelled then reply cancelled_outcome x else if succeeded then reply Accepted x else x).

(** ** Steps *)
Inductive step : Type :=
  | Start (available : bool)
  | Sign (started : bool)
  | Status (status : StatusUpdate)
  | Handle
  | Result (succeeded : bool)
  | ClearPin
  | Decide
  | Close
  | CancelFlag
  | CancelReply
  | Submit (i : nat) (pin : string)
  | Register (i : nat)
  | Send (i : nat) (listening : bool)
  | Read (i : nat)
  | TimeOut (i : nat)
  | GiveUp (i : nat).

Definition next_access (x : exchange) : option access := (handle_status x.(ex_status).1).1 !! x.(ex_status).2.
(** [None]: not a step that can be taken now. *)
Definition fido_step (s : step) (x : exchange) : option exchange :=
  match s, x.(ex_worker) with
  | Start available, NotStarted =>
      Some (if available then set_worker Starting (on_operation (set_manager true) x) else set_worker (Ended false false) x)
  | Sign started, Starting => Some (if started then set_worker Signing x else set_worker (Ended false false) (clear_manager x))
  | Status status, (Signing | Collected _ | Draining _) =>
      match next_access x with None => Some (set_status (status, 0%nat) x) | Some _ => None end
  | Handle, _ =>
      match next_access x with
      | Some a => Some (set_status (x.(ex_status).1, S x.(ex_status).2) (perform a x))
      | None => None
      end
  | Result succeeded, Signing => Some (set_worker (Collected succeeded) (clear_manager x))
  | ClearPin, Collected succeeded => Some (set_worker (Draining succeeded) (clear_pin x))
  | Decide, Draining succeeded =>
      match next_access x with
      | None => Some (set_worker (Closing x.(ex_operation).(fo_cancelled) succeeded) x)
      | Some _ => None
      end
  | Close, Closing cancelled succeeded => Some (close cancelled succeeded x)
  | CancelFlag, _ => Some (cancel_flag x)
  | CancelReply, _ => match x.(ex_cancelling) with S n => Some (cancel_reply n x) | O => None end
  | Submit i pin, _ => match x.(ex_submissions) !! i with None => Some (take_pending i pin x) | Some _ => None end
  | Register i, _ => match x.(ex_submissions) !! i with Some (Taken channel, _) => Some (register_reply i channel x) | _ => None end
  | Send i listening, _ => match x.(ex_submissions) !! i with Some (Registered _, v) => Some (send_pin i listening v x) | _ => None end
  | Read i, _ => match x.(ex_submissions) !! i with Some (Waiting, v) => read_reply i v x | _ => None end
  | TimeOut i, _ => match x.(ex_submissions) !! i with Some (Waiting, Open) => Some (set_submission i (TimedOut, Open) x) | _ => None end
  | GiveUp i, _ =>
      match x.(ex_submissions) !! i with
      | Some (Refused, _) => Some (abandon i (pin_not_requested "The security key stopped requesting a PIN") x)
      | Some (TimedOut, _) => Some (abandon i pin_timeout x)
      | _ => None
      end
  | _, _ => None
  end.
Fixpoint fido_run (steps : list step) (x : exchange) : option exchange :=
  match steps with
  | [] => Some x
  | s :: steps => match fido_step s x with Some x => fido_run steps x | None => None end
  end.

(** ** The arguments of the authenticator and the assertion ([authenticate]) *)
Record SignArgs : Type := mkSignArgs {
  sa_client_data_hash : list Z;
  sa_origin : string;
  sa_relying_party_id : string;
  sa_allow_list : list credential;
  sa_user_verification_req : UserVerificationRequirement }.
(** An [AuthenticatorError]: whether it is [CancelledByUser], and its text. *)
Record device_error : Type := mkDeviceError {
  de_cancelled_by_user : bool;
  de_text : string }.
(** What the device signed: the credential it names, the authenticator data and the signature. *)
Record device_answer : Type := mkDeviceAnswer {
  da_credential : option (list Z);
  da_auth_data : list Z;
  da_signature : list Z }.
(** [serde_json::to_vec] of the [CollectedClientData] of a challenge and an origin, and SHA-256. *)
Class ClientData : Type := mkClientData {
  cd_json : list Z -> string -> result (list Z) string;
  cd_sha256 : list Z -> list Z }.

Definition fido_error (error : device_error) : NativeError :=
  let lower := to_ascii_lowercase error.(de_text) in
  let build code message retryable := ne_set_retryable retryable (ne_with_source error.(de_text) (NativeError_new code message)) in
  if error.(de_cancelled_by_user) then build "fido2_cancelled" "Security-key authentication was cancelled" false
  else if str_contains "timeout" lower || str_contains "not allowed" lower
  then build "fido2_timeout" "No eligible security key answered in time" true
  else if str_contains "pin" lower then build "fido2_pin_failed" "The security key could not verify its PIN" true
  else if str_contains "not supported" lower || str_contains "unsupported" lower
  then build "fido2_unsupported" "The security key does not support this Proton request" false
  else build "fido2_device_error" "The security key could not complete authentication" true.
Definition origin (request : FidoRequest) : string := "https://" +:+ request.(fr_rp_id).
Definition client_data {CD : ClientData} (request : FidoRequest) : NativeResult (list Z) :=
  res_map_err (fun error => ne_with_source error
    (NativeError_new "fido2_client_data_invalid" "Unable to serialize the WebAuthn request"))
    (cd_json request.(fr_challenge) (origin request)).
Definition fallback_credential_id (request : FidoRequest) : option (list Z) :=
  match request.(fr_allow_list) with [c] => Some c.(pk_id) | _ => None end.
Definition sign_args {CD : ClientData} (request : FidoRequest) (client_data : list Z) : SignArgs :=
  mkSignArgs (cd_sha256 client_data) (origin request) request.(fr_rp_id) request.(fr_allow_list) request.(fr_user_verification).
(** The answer of [authenticate] once its worker has ended.  [None]: the device's callback was dropped. *)
Definition worker_failed (error : string) : NativeError :=
  ne_with_source error (NativeError_new "fido2_worker_failed" "The security-key transport stopped unexpectedly").
Definition assertion_of (request : FidoRequest) (client_data : list Z) (cancelled : bool)
    (answer : result (result device_answer device_error) string) : NativeResult FidoAssertion :=
  if cancelled then Err (NativeError_new "fido2_cancelled" "Security-key authentication was cancelled")
  else
    let? answer := res_map_err worker_failed answer in
    let? answer := res_map_err fido_error answer in
    let? id := ok_or (or_else answer.(da_credential) (fallback_credential_id request))
      (NativeError_new "fido2_response_invalid" "The security key did not return a credential identifier") in
    Ok (mkFidoAssertion request.(fr_authentication_options) client_data answer.(da_auth_data) answer.(da_signature) id).

(** ** The exchange is sound *)

(** The outcome that a step replies with. *)
Definition replies (s : step) (x : exchange) : option PinOutcome :=
  match s with
  | Handle => match next_access x with Some (Reply outcome) => Some outcome | _ => None end
  | CancelReply => Some cancelled_outcome
  | Close =>
      match x.(ex_worker) with
      | Closing true _ => Some cancelled_outcome
      | Closing false true => Some Accepted
      | _ => None
      end
  | _ => None
  end.
(** The device said that the PIN was good: it asks for a touch, or it has signed. *)
Definition device_accepted (s : step) (x : exchange) : Prop :=
  (s = Handle /\ x.(ex_status).1 = PresenceRequired) \/ (s = Close /\ x.(ex_worker) = Closing false true).
Lemma accepted_by_device s x : replies s x = Some Accepted -> device_accepted s x.
Proof.
  unfold replies, device_accepted, next_access. intros Hr. destruct s; try discriminate Hr.
  - left. split; [done|]. destruct x.(ex_status) as [st n]. cbn in *.
    destruct st, n as [|[|[|n]]]; cbn in Hr; congruence.
  - right. split; [done|]. by destruct x.(ex_worker) as [| | | | |[] []|].
Qed.

(** A submission that is waiting, or about to, with nothing in its inbox. *)
Definition waits (i : nat) (x : exchange) : Prop :=
  match x.(ex_submissions) !! i with Some ((Registered _ | Waiting), Open) => True | _ => False end.
Definition fits (i : nat) (u : submission) (v : inbox) (x : exchange) : Prop :=
  match u with
  | Registered _ | Waiting => v = Open -> slot x = Some i
  | Answered (Ok _) => v = Holds Accepted
  | _ => True
  end.
Definition sound (x : exchange) : Prop :=
  (forall i, slot x = Some i -> exists u, x.(ex_submissions) !! i = Some (u, Open)) /\
  (forall i u v, x.(ex_submissions) !! i = Some (u, v) -> fits i u v x).

Lemma take_lookup v x i :
  (take_reply v x).(ex_submissions) !! i =
  if decide (slot x = Some i) then option_map (fun e => (e.1, v)) (x.(ex_submissions) !! i) else x.(ex_submissions) !! i.
Proof.
  unfold take_reply, put_inbox. destruct (slot x) as [j|] eqn:Es; [|by rewrite decide_False].
  destruct (decide (Some j = Some i)) as [[= ->]|Hij].
  - destruct (x.(ex_submissions) !! i) as [[u w]|] eqn:E; cbn; [by rewrite lookup_insert_eq|by rewrite E].
  - assert (j <> i) by congruence. destruct (x.(ex_submissions) !! j) as [[u w]|] eqn:E; cbn; [by rewrite lookup_insert_ne|done].
Qed.
Lemma take_slot v x : slot (take_reply v x) = None.
Proof. unfold take_reply. by destruct (slot x) eqn:E. Qed.
Lemma take_worker v x : (take_reply v x).(ex_worker) = x.(ex_worker).
Proof. unfold take_reply, put_inbox. destruct (slot x); [|done]. by destruct (x.(ex_submissions) !! _) as [[? ?]|]. Qed.
Lemma take_cancelled v x : (take_reply v x).(ex_operation).(fo_cancelled) = x.(ex_operation).(fo_cancelled).
Proof. unfold take_reply, put_inbox. destruct (slot x); [|done]. by destruct (x.(ex_submissions) !! _) as [[? ?]|]. Qed.

Lemma sound_ext x x' : x'.(ex_submissions) = x.(ex_submissions) -> slot x' = slot x -> sound x -> sound x'.
Proof. intros H1 H2 [Ha Hb]. split; [by rewrite H1, H2|]. intros i u v. rewrite H1. intros Hl. specialize (Hb _ _ _ Hl). by destruct u; cbn in *; rewrite ?H2. Qed.
Lemma sound_take v x : v <> Open -> sound x -> sound (take_reply v x).
Proof.
  intros Hv [Ha Hb]. split; [intros i; by rewrite take_slot|]. intros i u w. rewrite take_lookup.
  destruct (decide (slot x = Some i)) as [Hs|Hs].
  - destruct (Ha _ Hs) as [u' Hu]. rewrite Hu. cbn. intros [= <- <-]. specialize (Hb _ _ _ Hu). destruct u'; cbn in *; [done..|].
    by destruct answer.
  - intros Hl. specialize (Hb _ _ _ Hl). destruct u; cbn in *; try done; intros ->; by specialize (Hb eq_refl).
Qed.
(** A submission gets on while its inbox stays as it is. *)
Lemma sound_set i u v x :
  (slot x = Some i -> v = Open) -> fits i u v x -> sound x -> sound (set_submission i (u, v) x).
Proof.
  intros Hv Hf [Ha Hb]. split.
  - intros j Hj. cbn in *. destruct (decide (i = j)) as [->|Hij]; [rewrite lookup_insert_eq, Hv by done; eauto|].
    rewrite lookup_insert_ne by done. by apply Ha.
  - intros j u' v'. cbn. destruct (decide (i = j)) as [->|Hij]; [rewrite lookup_insert_eq; by intros [= <- <-]|].
    rewrite lookup_insert_ne by done. apply Hb.
Qed.
(** A submission puts its sender in the empty slot. *)
Lemma sound_register i u x :
  slot x = None -> match u with Answered (Ok _) => False | _ => True end -> sound x ->
  sound (set_submission i (u, Open) (on_operation (set_pin_reply (Some i)) x)).
Proof.
  intros Hs Hu [Ha Hb]. split.
  - intros j. cbn. intros [= <-]. rewrite lookup_insert_eq. eauto.
  - intros j u' v'. cbn. destruct (decide (i = j)) as [->|Hij].
    + rewrite lookup_insert_eq. intros [= <- <-]. destruct u; try done. by destruct answer.
    + rewrite lookup_insert_ne by done. intros Hl. specialize (Hb _ _ _ Hl).
      destruct u'; cbn [fits] in *; try exact Hb; intros ->; exfalso; specialize (Hb eq_refl); rewrite Hs in Hb; discriminate.
Qed.
Lemma slot_inbox x i u v : sound x -> x.(ex_submissions) !! i = Some (u, v) -> slot x = Some i -> v = Open.
Proof. intros [Ha _] Hl Hs. destruct (Ha _ Hs) as [u' Hu]. congruence. Qed.

Lemma take_some v x i u w : x.(ex_submissions) !! i = Some (u, w) ->
  exists w', (take_reply v x).(ex_submissions) !! i = Some (u, w').
Proof. intros Hl. rewrite take_lookup, Hl. destruct (decide _); cbn; eauto. Qed.
Lemma sound_perform a x : sound x -> sound (perform a x).
Proof. destruct a; [by apply sound_take|by apply sound_ext]. Qed.
Lemma sound_abandon i u w error x : x.(ex_submissions) !! i = Some (u, w) -> sound x -> sound (abandon i error x).
Proof.
  intros Hl Hs. unfold abandon. destruct (take_some Closed x i u w Hl) as [w' Hw]. rewrite Hw.
  apply sound_set; [by rewrite take_slot|done|by apply sound_take].
Qed.
Lemma sound_submit i pin x : x.(ex_submissions) !! i = None -> sound x -> sound (take_pending i pin x).
Proof.
  intros Hl Hs. unfold take_pending.
  assert (Hn : slot x <> Some i) by (intros Hi; destruct (proj1 Hs _ Hi) as [u Hu]; congruence).
  destruct (255 <? str_len pin); [by apply sound_set|]. destruct x.(ex_operation).(fo_pending_pin); [|by apply sound_set].
  apply sound_set; [done|done|by apply (sound_ext x)].
Qed.
Lemma sound_read i v x x' : x.(ex_submissions) !! i = Some (Waiting, v) -> read_reply i v x = Some x' -> sound x -> sound x'.
Proof.
  intros Hl Hr Hs. unfold read_reply in Hr. destruct v as [|outcome|]; [done| |]; injection Hr as <-.
  - apply sound_set; [by intros Hi; apply (slot_inbox _ _ _ _ Hs Hl)| |done]. by destruct outcome.
  - apply sound_set; [by intros Hi; apply (slot_inbox _ _ _ _ Hs Hl)|done|done].
Qed.
Ltac step_cases H :=
  cbn [fido_step] in H;
  repeat match type of H with context [match ?e with _ => _ end] => destruct e eqn:?; try discriminate H end;
  try (injection H as <-).
Lemma fido_step_sound s x x' : fido_step s x = Some x' -> sound x -> sound x'.
Proof.
  intros Hstep Hs. destruct s; step_cases Hstep; try by apply (sound_ext x).
  - by apply (sound_ext (perform a x)), sound_perform.
  - unfold close. apply (sound_ext (if cancelled then reply cancelled_outcome x else if succeeded then reply Accepted x else x)); [done..|].
    destruct cancelled, succeeded; by try apply sound_take.
  - by apply sound_take; [|apply (sound_ext x)].
  - by apply sound_submit.
  - unfold register_reply. destruct (slot x) eqn:E; [|by apply sound_register].
    apply sound_register; [by rewrite take_slot|done|by apply sound_take].
  - apply sound_set; [by intros Hi; apply (slot_inbox _ _ _ _ Hs Heqo)| |done].
    destruct listening; [|done]. apply (proj2 Hs _ _ _ Heqo).
  - by eapply sound_read.
  - by apply sound_set.
  - by eapply sound_abandon.
  - by eapply sound_abandon.
Qed.
Lemma fido_run_app l l' x : fido_run (l ++ l') x = match fido_run l x with Some y => fido_run l' y | None => None end.
Proof. revert x. induction l as [|s l IH]; intros x; [done|]. cbn. by destruct (fido_step s x). Qed.
Lemma run_sound l x x' : fido_run l x = Some x' -> sound x -> sound x'.
Proof.
  revert x. induction l as [|s l IH]; intros x; cbn; [by intros [= ->]|].
  destruct (fido_step s x) as [y|] eqn:E; [|done]. intros Hr Hs. apply (IH y); [done|]. by eapply fido_step_sound.
Qed.
Lemma new_sound : sound exchange_new.
Proof. by split. Qed.

(** What is in an inbox was replied to its submission while its sender was in the slot. *)
Definition replied (l : list step) (i : nat) (outcome : PinOutcome) : Prop :=
  exists before s y after, l = before ++ s :: after /\ fido_run before exchange_new = Some y /\ slot y = Some i /\ replies s y = Some outcome.
Lemma replied_app l l' i outcome : replied l i outcome -> replied (l ++ l') i outcome.
Proof. intros (b & s & y & a & -> & H). exists b, s, y, (a ++ l'). by rewrite <- app_assoc. Qed.
Definition held (i : nat) (outcome : PinOutcome) (x : exchange) : Prop := exists u, x.(ex_submissions) !! i = Some (u, Holds outcome).
Lemma held_take i outcome v x : held i outcome (take_reply v x) -> held i outcome x \/ (slot x = Some i /\ v = Holds outcome).
Proof.
  intros [u Hu]. rewrite take_lookup in Hu. destruct (decide (slot x = Some i)) as [Hs|Hs]; [|left; by exists u].
  destruct (x.(ex_submissions) !! i) as [[u' w]|]; [|done]. injection Hu as _ ->. by right.
Qed.
Lemma held_set i outcome j u v x : held i outcome (set_submission j (u, v) x) -> (j = i /\ v = Holds outcome) \/ held i outcome x.
Proof.
  intros [u' Hu]. cbn in Hu. destruct (decide (j = i)) as [->|Hij].
  - rewrite lookup_insert_eq in Hu. injection Hu as _ ->. by left.
  - rewrite lookup_insert_ne in Hu by done. right. by exists u'.
Qed.
Lemma held_reply i outcome o x : held i outcome (reply o x) -> held i outcome x \/ (slot x = Some i /\ o = outcome).
Proof. intros [?|[? [= ->]]]%held_take; auto. Qed.
Lemma held_drop i outcome x : held i outcome (take_reply Closed x) -> held i outcome x.
Proof. by intros [?|[_ ?]]%held_take. Qed.
Lemma held_abandon i outcome j error x : held i outcome (abandon j error x) -> held i outcome x.
Proof.
  unfold abandon. destruct ((take_reply Closed x).(ex_submissions) !! j) as [[u v]|] eqn:E; [|apply held_drop].
  intros [[-> ->]|Hh]%held_set; [|by apply held_drop]. apply held_drop. by exists u.
Qed.
Lemma step_held s x x' i outcome :
  fido_step s x = Some x' -> held i outcome x' -> held i outcome x \/ (slot x = Some i /\ replies s x = Some outcome).
Proof.
  intros Hstep Hh. destruct s; step_cases Hstep; try (by left).
  - unfold replies. rewrite Heqo. destruct a; [|by left]. apply (held_reply i outcome outcome0 x) in Hh as [?|[? ->]]; auto.
  - unfold replies. rewrite Heqw. unfold close in Hh. destruct cancelled.
    + apply (held_reply i outcome cancelled_outcome x) in Hh as [?|[? <-]]; auto.
    + destruct succeeded; [|by left]. apply (held_reply i outcome Accepted x) in Hh as [?|[? <-]]; auto.
  - apply (held_reply i outcome cancelled_outcome (set_cancelling n x)) in Hh as [?|[? <-]]; auto.
  - left. unfold take_pending in Hh. repeat case_match; by apply held_set in Hh as [[_ ?]|?].
  - left. unfold register_reply in Hh. destruct (slot x); apply held_set in Hh as [[_ ?]|?]; [done| |done|done].
    by apply (held_drop i outcome x).
  - left. apply held_set in Hh as [[-> ->]|?]; [by eexists|done].
  - left. unfold read_reply in Hstep. case_match; [done|..]; injection Hstep as <-; apply held_set in Hh as [[-> ?]|?]; try done; simplify_eq; by eexists.
  - left. by apply held_set in Hh as [[_ ?]|?].
  - left. by apply held_abandon in Hh.
  - left. by apply held_abandon in Hh.
Qed.
Lemma run_held l x i outcome : fido_run l exchange_new = Some x -> held i outcome x -> replied l i outcome.
Proof.
  revert x. induction l as [|s l IH] using rev_ind; intros x.
  - cbn. intros [= <-] [u Hu]. done.
  - rewrite fido_run_app. destruct (fido_run l exchange_new) as [y|] eqn:E; [|done]. cbn. destruct (fido_step s y) as [z|] eqn:Ez; [|done].
    intros [= <-] Hh. destruct (step_held _ _ _ _ _ Ez Hh) as [Hy|[Hs Hr]]; [by apply replied_app, (IH y)|].
    exists l, s, y, []. by rewrite E.
Qed.

(** *** A submission can always finish by itself *)
Definition own (i : nat) (s : step) : bool :=
  match s with Register j | Send j _ | Read j | TimeOut j | GiveUp j => (i =? j)%nat | _ => false end.
Definition finishes_within (n : nat) (i : nat) (x : exchange) : Prop :=
  exists l x' a v, (length l <= n)%nat /\ forallb (own i) l = true /\ fido_run l x = Some x' /\ x'.(ex_submissions) !! i = Some (Answered a, v).
Lemma finishes_step s n i x x' : own i s = true -> fido_step s x = Some x' -> finishes_within n i x' -> finishes_within (S n) i x.
Proof.
  intros Ho Hs (l & y & a & v & Hn & Hl & Hr & Hy). exists (s :: l), y, a, v. cbn. rewrite Ho, Hl, Hs. split_and!; [lia|done..].
Qed.
Lemma answered_finishes n i a v x : x.(ex_submissions) !! i = Some (Answered a, v) -> finishes_within n i x.
Proof. intros Hx. exists [], x, a, v. split_and!; [cbn; lia|done..]. Qed.
Lemma giving_up_finishes i u w x : x.(ex_submissions) !! i = Some (u, w) -> u = Refused \/ u = TimedOut -> finishes_within 1 i x.
Proof.
  intros Hl Hu. assert (exists e, fido_step (GiveUp i) x = Some (abandon i e x)) as [e He]
    by (destruct Hu as [-> | ->]; cbn; rewrite Hl; by eexists).
  eapply (finishes_step (GiveUp i)); [apply Nat.eqb_refl|exact He|]. unfold abandon. destruct (take_some Closed x i u w Hl) as [w' Hw]. rewrite Hw.
  eapply answered_finishes. cbn. apply lookup_insert_eq.
Qed.
Lemma waiting_finishes i w x : x.(ex_submissions) !! i = Some (Waiting, w) -> finishes_within 2 i x.
Proof.
  intros Hl. destruct w.
  - eapply (finishes_step (TimeOut i)); [apply Nat.eqb_refl|cbn; by rewrite Hl|].
    eapply giving_up_finishes; [cbn; apply lookup_insert_eq|by right].
  - eapply (finishes_step (Read i)); [apply Nat.eqb_refl|cbn; by rewrite Hl|]. eapply answered_finishes. cbn. apply lookup_insert_eq.
  - eapply (finishes_step (Read i)); [apply Nat.eqb_refl|cbn; by rewrite Hl|]. eapply answered_finishes. cbn. apply lookup_insert_eq.
Qed.
Lemma registered_finishes i c w x : x.(ex_submissions) !! i = Some (Registered c, w) -> finishes_within 3 i x.
Proof.
  intros Hl. eapply (finishes_step (Send i true)); [apply Nat.eqb_refl|cbn; by rewrite Hl|].
  eapply waiting_finishes. cbn. apply lookup_insert_eq.
Qed.
Lemma finishes_more n m i x : (n <= m)%nat -> finishes_within n i x -> finishes_within m i x.
Proof. intros Hn (l & y & a & v & Hl & H). exists l, y, a, v. split; [lia|done]. Qed.
Lemma submission_finishes i e x : x.(ex_submissions) !! i = Some e -> finishes_within 4 i x.
Proof.
  destruct e as [[c|c| | | |a] w]; intros Hl.
  - eapply (finishes_step (Register i)); [apply Nat.eqb_refl|cbn; by rewrite Hl|]. unfold register_reply. destruct (slot x).
    + eapply answered_finishes. cbn. apply lookup_insert_eq.
    + eapply registered_finishes. cbn. apply lookup_insert_eq.
  - by eapply finishes_more, registered_finishes; [lia|].
  - eapply finishes_more, giving_up_finishes; [lia|exact Hl|by left].
  - by eapply finishes_more, waiting_finishes; [lia|].
  - eapply finishes_more, giving_up_finishes; [lia|exact Hl|by right].
  - by eapply answered_finishes.
Qed.

(** *** Cancelling *)
Definition undecided (w : worker) : Prop := match w with Closing _ _ | Ended _ _ => False | _ => True end.
Definition doomed (x : exchange) : Prop :=
  x.(ex_operation).(fo_cancelled) = true /\ match x.(ex_worker) with Closing false true | Ended false true => False | _ => True end.
Lemma doomed_ext x x' :
  x'.(ex_operation).(fo_cancelled) = x.(ex_operation).(fo_cancelled) -> x'.(ex_worker) = x.(ex_worker) -> doomed x -> doomed x'.
Proof. unfold doomed. by intros -> ->. Qed.
Lemma doomed_take v x : doomed x -> doomed (take_reply v x).
Proof. apply doomed_ext; [apply take_cancelled|apply take_worker]. Qed.
Lemma doomed_abandon i e x : doomed x -> doomed (abandon i e x).
Proof. intros Hd. unfold abandon. destruct ((take_reply Closed x).(ex_submissions) !! i) as [[u v]|]; [|by apply doomed_take]. by apply (doomed_ext (take_reply Closed x)), doomed_take. Qed.
Lemma step_doomed s x x' : fido_step s x = Some x' -> doomed x -> doomed x'.
Proof.
  intros Hstep Hd. pose proof Hd as [Hc Hw]. destruct s; step_cases Hstep; try by apply (doomed_ext x).
  all: try by (split; [exact Hc|cbn; rewrite ?Hc]).
  - apply (doomed_ext (perform a x)); [done..|]. destruct a; [by apply doomed_take|by apply (doomed_ext x)].
  - split; [|by destruct cancelled, succeeded].
    destruct cancelled, succeeded; cbn -[take_reply]; unfold reply; by rewrite ?take_cancelled.
  - by apply doomed_take, (doomed_ext x).
  - unfold take_pending. repeat case_match; by apply (doomed_ext x).
  - unfold register_reply. destruct (slot x); [|by apply (doomed_ext x)]. by apply (doomed_ext (take_reply Closed x)), doomed_take.
  - clear Hw. unfold read_reply in Hstep. case_match; [done|injection Hstep as <-..]; by apply (doomed_ext x).
  - by apply doomed_abandon.
  - by apply doomed_abandon.
Qed.
Lemma run_doomed l x x' : fido_run l x = Some x' -> doomed x -> doomed x'.
Proof.
  revert x. induction l as [|s l IH]; intros x; cbn; [by intros [= ->]|].
  destruct (fido_step s x) as [y|] eqn:E; [|done]. intros Hr Hd. apply (IH y); [done|]. by eapply step_doomed.
Qed.

Lemma waits_slot x i : sound x -> waits i x -> slot x = Some i.
Proof.
  intros [_ Hb] Hw. unfold waits in Hw. destruct (x.(ex_submissions) !! i) as [[u v]|] eqn:E; [|done].
  specialize (Hb _ _ _ E). destruct u, v; try done; by apply Hb.
Qed.
Lemma close_empties c ok x : c || ok = true -> slot (close c ok x) = None.
Proof. intros Hc. unfold close. destruct c, ok; try discriminate Hc; cbn -[take_reply]; apply take_slot. Qed.

(** C37: The exchange of security-key PINs.  However its parties interleave: a submission is told that its PIN was accepted only
    if, while its sender was registered, the device asked for a touch or had signed without a cancellation; at most one
    submission waits for an answer that has not come; every submission can end by at most four steps of its own; once the
    operation was cancelled before the worker looked, the authentication does not succeed; and an authentication that
    was cancelled or succeeded leaves nobody waiting. *)
Theorem pin_exchange_sound l x : fido_run l exchange_new = Some x ->
  (forall i v, x.(ex_submissions) !! i = Some (Answered (Ok tt), v) ->
   exists before s y after, l = before ++ s :: after /\ fido_run before exchange_new = Some y /\ slot y = Some i /\ device_accepted s y) /\
  (forall i j, waits i x -> waits j x -> i = j) /\
  (forall i e, x.(ex_submissions) !! i = Some e -> finishes_within 4 i x) /\
  (x.(ex_operation).(fo_cancelled) = true -> undecided x.(ex_worker) ->
   forall l' x', fido_run l' x = Some x' -> x'.(ex_worker) <> Ended false true) /\
  (forall c ok i, x.(ex_worker) = Closing c ok -> c || ok = true -> ~ waits i (close c ok x)).
Proof.
  intros Hr. pose proof (run_sound _ _ _ Hr new_sound) as Hs. split_and!.
  - intros i v Hi. pose proof (proj2 Hs _ _ _ Hi) as ->.
    destruct (run_held l x i Accepted Hr) as (b & s & y & a & -> & Hb & Hy & Hrep); [by eexists|].
    exists b, s, y, a. split_and!; [done..|by apply accepted_by_device].
  - intros i j Hi%waits_slot Hj%waits_slot; [congruence|done..].
  - intros i e. apply submission_finishes.
  - intros Hc Hu l' x' Hr'. destruct (run_doomed _ _ _ Hr') as [_ Hw].
    + split; [done|]. by destruct x.(ex_worker).
    + intros Hx. by rewrite Hx in Hw.
  - intros c ok i Hw Hc Hi.
    assert (Hclose : fido_step Close x = Some (close c ok x)) by (cbn; by rewrite Hw).
    apply waits_slot in Hi; [|by eapply fido_step_sound]. by rewrite close_empties in Hi.
Qed.

(** *** Runs *)
Definition asked_pin : list step := [Start true; Sign true; Status (PinRequired 7); Handle; Submit 1 "1234"; Register 1; Send 1 true].
Definition answer_at (i : nat) (x : exchange) : option submission := option_map fst (x.(ex_submissions) !! i).
Definition accepted_run : list step := asked_pin ++ [Status PresenceRequired; Handle; Read 1].
Lemma pin_exchange_sound_witness :
  exists x, fido_run accepted_run exchange_new = Some x /\
    answer_at 1 x = Some (Answered (Ok tt)) /\ (forall i j, waits i x -> waits j x -> i = j).
Proof.
  assert (Ha : option_map (answer_at 1) (fido_run accepted_run exchange_new) = Some (Some (Answered (Ok tt)))) by (vm_compute; reflexivity).
  destruct (fido_run accepted_run exchange_new) as [x|] eqn:E; [|discriminate Ha]. injection Ha as Ha.
  exists x. split; [reflexivity|]. split; [exact Ha|]. exact (proj1 (proj2 (pin_exchange_sound accepted_run x E))).
Defined.

(** The device fails while it checks the PIN: nobody replies, and the submission itself keeps the sender alive, so
    that it can only wait for its timeout. *)
Definition device_failed : list step := asked_pin ++ [Result false; ClearPin; Decide; Close].
Example failed_key_leaves_pin_waiting :
  exists x, fido_run device_failed exchange_new = Some x /\ x.(ex_worker) = Ended false false /\
    answer_at 1 x = Some Waiting /\ fido_step (Read 1) x = None /\
    option_map (answer_at 1) (fido_run [TimeOut 1; GiveUp 1] x) = Some (Some (Answered (Err pin_timeout))).
Proof. vm_compute. eexists. repeat split. Qed.
(** A second PIN while one is being checked is refused, and takes the first one's sender away: the first is told that
    the authentication ended, although it succeeds. *)
Example second_pin_loses_both :
  exists x, fido_run (asked_pin ++ [Status (PinRequired 8); Handle; Submit 2 "1234"; Register 2; Read 1; Status PresenceRequired; Handle;
                                    Result true; ClearPin; Decide; Close]) exchange_new = Some x /\
    x.(ex_worker) = Ended false true /\
    answer_at 1 x = Some (Answered (Err operation_ended)) /\ answer_at 2 x = Some (Answered (Err pin_already_submitted)).
Proof. vm_compute. eexists. repeat split. Qed.
