(* ===== verification/NetLaws.v ===== *)
(** What the kill switch guarantees, from the documented behaviour of NetworkManager.

    [NmLaws] states that behaviour on the part of the system that matters here, its active connections
    and its stored profiles: reads report them, and each command changes them as its documentation
    says, or fails without effect; deactivation may fail because the connection has gone meanwhile, and
    may take an unsaved profile with it. *)
From S2P Require Export NetManager.
Open Scope string_scope.
Open Scope Z_scope.
Open Scope list_scope.
Open Scope rust_scope.

Record world : Type := mkWorld {
  w_active : list active_connection;
  w_profiles : gmap string nm_settings }.

Definition not_path (p : string) (a : active_connection) : bool := negb (String.eqb a.(ac_path) p).
Definition not_using (c : string) (a : active_connection) : bool := negb (bool_decide (a.(ac_connection) = Some c)).

Class NmLaws (W : Type) {N : NetworkManager W} : Type := mkNmLaws {
  world_of : W -> world;
  reads_active : forall s l, nm_active s = Ok l -> l = (world_of s).(w_active);
  reads_profiles : forall s l, nm_profiles s = Ok l -> forall p, p ∈ l <-> is_Some ((world_of s).(w_profiles) !! p);
  reads_settings : forall s p, nm_settings_of s p = (world_of s).(w_profiles) !! p;
  (** The id of an active connection is its profile's. *)
  active_paths : forall s, NoDup (map ac_path (world_of s).(w_active));
  active_id : forall s a c st, a ∈ (world_of s).(w_active) -> a.(ac_connection) = Some c ->
    (world_of s).(w_profiles) !! c = Some st -> a.(ac_id) = connection_id st;
  set_check_same : forall b s, world_of (nm_set_check b s).2 = world_of s;
  modify_same : forall i p r s, world_of (nm_modify i p r s).2 = world_of s;
  credentials_same : forall u s, world_of (os_remove_credentials u s) = world_of s;
  add_effect : forall b st s,
    match nm_add b st s with
    | (Ok p, s') => (world_of s).(w_profiles) !! p = None /\
                    world_of s' = mkWorld (world_of s).(w_active) (<[p := st]> (world_of s).(w_profiles))
    | (Err _, s') => world_of s' = world_of s
    end;
  activate_effect : forall c o s,
    match nm_activate c o s with
    | (Ok p, s') => exists a, a.(ac_path) = p /\ a.(ac_connection) = Some c /\
                    (forall st, (world_of s).(w_profiles) !! c = Some st -> a.(ac_id) = connection_id st) /\
                    world_of s' = mkWorld ((world_of s).(w_active) ++ [a]) (world_of s).(w_profiles)
    | (Err _, s') => world_of s' = world_of s
    end;
  deactivate_effect : forall p s, let '(r, s') := nm_deactivate p s in
    ((world_of s').(w_active) = retain (not_path p) (world_of s).(w_active) \/
     r <> Ok tt /\ (world_of s').(w_active) = (world_of s).(w_active)) /\
    ((world_of s').(w_profiles) = (world_of s).(w_profiles) \/
     exists a c, a ∈ (world_of s).(w_active) /\ a.(ac_path) = p /\ a.(ac_connection) = Some c /\
       (world_of s').(w_profiles) = delete c (world_of s).(w_profiles));
  delete_effect : forall c s,
    match nm_delete c s with
    | (Ok _, s') => (world_of s').(w_profiles) = delete c (world_of s).(w_profiles) /\
                    ((world_of s').(w_active) = (world_of s).(w_active) \/
                     (world_of s').(w_active) = retain (not_using c) (world_of s).(w_active))
    | (Err _, s') => world_of s' = world_of s
    end }.

(** ** Runs in general *)
Section Runs.
Context {W : Type} {N : NetworkManager W}.

(** Every state of a run is related to its first. *)
Definition along {A : Type} (R : W -> W -> Prop) (m : NM (W := W) A) : Prop :=
  forall s r s' seen, m s = (r, s', seen) -> R s s' /\ Forall (R s) seen.

Section Along.
Context (R : W -> W -> Prop) {HR : Reflexive R} {HT : Transitive R}.

Lemma along_pure {A : Type} (f : W -> NativeResult A) : along R (nm_read f).
Proof. intros s r s' seen [= <- <- <-]. split; [reflexivity|constructor]. Qed.
Lemma along_ret {A : Type} (a : A) : along R (nm_ret a).
Proof. intros s r s' seen [= <- <- <-]. split; [reflexivity|constructor]. Qed.
Lemma along_throw {A : Type} e : along R (nm_throw (A := A) e).
Proof. intros s r s' seen [= <- <- <-]. split; [reflexivity|constructor]. Qed.

Lemma Forall_further s s1 seen : R s s1 -> Forall (R s1) seen -> Forall (R s) seen.
Proof. intros H Hs. eapply Forall_impl; [exact Hs|]. intros v Hv. by transitivity s1. Qed.

Lemma along_bind {A B : Type} (m : NM A) (k : A -> NM B) : along R m -> (forall a, along R (k a)) -> along R (nm_bind m k).
Proof.
  intros Hm Hk s r s' seen H. unfold nm_bind in H. destruct (m s) as [[[[a|e]|] s1] seen1] eqn:E.
  - destruct (k a s1) as [[r2 s2] seen2] eqn:Ek. injection H as <- <- <-. destruct (Hm _ _ _ _ E) as [H1 F1].
    destruct (Hk a _ _ _ _ Ek) as [H2 F2]. split; [by transitivity s1|]. apply Forall_app. split; [done|by eapply Forall_further].
  - injection H as <- <- <-. by apply (Hm _ _ _ _ E).
  - injection H as <- <- <-. by apply (Hm _ _ _ _ E).
Qed.

Lemma along_try {A B : Type} (m : NM A) (k : NativeResult A -> NM B) : along R m -> (forall r, along R (k r)) -> along R (nm_try m k).
Proof.
  intros Hm Hk s r s' seen H. unfold nm_try in H. destruct (m s) as [[[r1|] s1] seen1] eqn:E.
  - destruct (k r1 s1) as [[r2 s2] seen2] eqn:Ek. injection H as <- <- <-. destruct (Hm _ _ _ _ E) as [H1 F1].
    destruct (Hk r1 _ _ _ _ Ek) as [H2 F2]. split; [by transitivity s1|]. apply Forall_app. split; [done|by eapply Forall_further].
  - injection H as <- <- <-. by apply (Hm _ _ _ _ E).
Qed.

Lemma along_call {A : Type} (f : W -> result A string * W) error : (forall s, R s (f s).2) -> along R (nm_call f error).
Proof.
  intros Hf s r s' seen H. unfold nm_call in H. pose proof (Hf s) as Hs. destruct (f s) as [r1 s1]. injection H as <- <- <-.
  split; [done|by constructor].
Qed.
End Along.

(** From a state satisfying [P] the run ends, and if it succeeds its result and last state satisfy
    [Q]. *)
Definition runs {A : Type} (P : W -> Prop) (m : NM (W := W) A) (Q : A -> W -> Prop) : Prop :=
  forall s, P s ->
  match m s with
  | (Done (Ok a), s', _) => Q a s'
  | (Done (Err _), _, _) => True
  | (Running, _, _) => False
  end.

Lemma runs_bind {A B : Type} (P : W -> Prop) (m : NM A) (k : A -> NM B) (Q : A -> W -> Prop) (Q' : B -> W -> Prop) :
  runs P m Q -> (forall a, runs (Q a) (k a) Q') -> runs P (nm_bind m k) Q'.
Proof.
  intros Hm Hk s HP. unfold nm_bind. specialize (Hm s HP). destruct (m s) as [[[[a|e]|] s1] seen1]; try done.
  specialize (Hk a s1 Hm). by destruct (k a s1) as [[[[b|e]|] s2] seen2].
Qed.

Lemma runs_ret {A : Type} (P : W -> Prop) (a : A) (Q : A -> W -> Prop) : (forall s, P s -> Q a s) -> runs P (nm_ret a) Q.
Proof. intros H s HP. by apply H. Qed.
Lemma runs_throw {A : Type} (P : W -> Prop) e (Q : A -> W -> Prop) : runs P (nm_throw e) Q.
Proof. by intros s HP. Qed.
Lemma runs_read {A : Type} (P : W -> Prop) (f : W -> NativeResult A) (Q : A -> W -> Prop) :
  (forall s a, P s -> f s = Ok a -> Q a s) -> runs P (nm_read f) Q.
Proof. intros H s HP. unfold nm_read. destruct (f s) eqn:E; [by eapply H|done]. Qed.
Lemma runs_call {A : Type} (P : W -> Prop) (f : W -> result A string * W) error (Q : A -> W -> Prop) :
  (forall s a s', P s -> f s = (Ok a, s') -> Q a s') -> runs P (nm_call f error) Q.
Proof. intros H s HP. unfold nm_call. destruct (f s) as [[a|e] s'] eqn:E; cbn; [by eapply H|done]. Qed.
Lemma runs_weaken {A : Type} (P P' : W -> Prop) (m : NM A) (Q Q' : A -> W -> Prop) :
  runs P' m Q' -> (forall s, P s -> P' s) -> (forall a s, Q' a s -> Q a s) -> runs P m Q.
Proof.
  intros Hm HP HQ s Hs. specialize (Hm s (HP s Hs)). destruct (m s) as [[[[a|e]|] s1] seen1]; [|done|done]. by apply HQ.
Qed.
(** A run that ends keeps what its steps keep. *)
Lemma runs_along {A : Type} (R : W -> W -> Prop) (P : W -> Prop) (m : NM A) (Q : A -> W -> Prop) (P' : W -> Prop) :
  along R m -> (forall s s', P s -> R s s' -> P' s') -> runs P m Q -> runs P m (fun a s => Q a s /\ P' s).
Proof.
  intros Ha HP Hm s Hs. specialize (Hm s Hs). pose proof (Ha s) as Hs'. destruct (m s) as [[[[a|e]|] s1] seen1]; [|done|done].
  split; [done|]. eapply HP; [exact Hs|]. by apply (Hs' _ _ _ eq_refl).
Qed.
End Runs.

#[export] Hint Resolve along_pure along_ret along_throw runs_throw : core.

(** ** What each step changes *)
Section Steps.
Context {W : Type} {N : NetworkManager W} {LW : NmLaws W}.

Definition actives (s : W) : list active_connection := (world_of s).(w_active).
Definition profiles (s : W) : gmap string nm_settings := (world_of s).(w_profiles).

(** The active connection runs an owned profile with this id. *)
Definition runs_owned (s : W) (id : string) (a : active_connection) : Prop :=
  a.(ac_id) = Some id /\ exists c st, a.(ac_connection) = Some c /\ profiles s !! c = Some st /\ connection_owned st = true.

(** Only owned connections and profiles with this id are gone. *)
Record sheds (id : string) (s s' : W) : Prop := mkSheds {
  sh_active : forall a, a ∈ actives s' -> a ∈ actives s;
  sh_kept : forall a, a ∈ actives s -> a ∈ actives s' \/ runs_owned s id a;
  sh_profiles : forall c st, profiles s' !! c = Some st -> profiles s !! c = Some st;
  sh_stored : forall c st, profiles s !! c = Some st -> profiles s' !! c = Some st \/ owned_with_id id st = true;
  sh_length : (length (actives s') <= length (actives s))%nat }.

#[export] Instance sheds_reflexive id : Reflexive (sheds id).
Proof. intros s. split; auto. Qed.

Lemma runs_owned_before id id' s s' a : sheds id' s s' -> runs_owned s' id a -> runs_owned s id a.
Proof. intros H (Hi & c & st & Hc & Hp & Ho). split; [done|]. exists c, st. split_and!; [done|by apply (sh_profiles _ _ _ H)|done]. Qed.

#[export] Instance sheds_transitive id : Transitive (sheds id).
Proof.
  intros s1 s2 s3 H12 H23. split.
  - intros a Ha. by apply (sh_active _ _ _ H12), (sh_active _ _ _ H23).
  - intros a Ha. destruct (sh_kept _ _ _ H12 a Ha) as [H|H]; [|by right].
    destruct (sh_kept _ _ _ H23 a H) as [H'|H']; [by left|right; by eapply runs_owned_before].
  - intros c st Hc. by apply (sh_profiles _ _ _ H12), (sh_profiles _ _ _ H23).
  - intros c st Hc. destruct (sh_stored _ _ _ H12 c st Hc) as [H|H]; [|by right]. by apply (sh_stored _ _ _ H23).
  - pose proof (sh_length _ _ _ H12). pose proof (sh_length _ _ _ H23). lia.
Qed.

Lemma sheds_same id s s' : world_of s' = world_of s -> sheds id s s'.
Proof. intros H. split; unfold actives, profiles; rewrite H; auto. Qed.

(** Deactivating an owned connection with this id. *)
Lemma deactivate_sheds id s p a c st :
  a ∈ actives s -> a.(ac_path) = p -> NoDup (map ac_path (actives s)) -> a.(ac_id) = Some id -> a.(ac_connection) = Some c ->
  profiles s !! c = Some st -> connection_owned st = true -> sheds id s (nm_deactivate p s).2.
Proof.
  intros Ha Hp Hn Hi Hc Hst Ho. pose proof (deactivate_effect p s) as H. destruct (nm_deactivate p s) as [r s']. destruct H as [H1 H2]. cbn.
  assert (Hsame : forall b, b ∈ actives s -> ac_path b = p -> b = a).
  { intros b Hb Hbp. apply list_elem_of_lookup in Hb as [i Hb]. apply list_elem_of_lookup in Ha as [j Ha'].
    assert (i = j); [|congruence]. eapply NoDup_lookup; [exact Hn| |].
    - apply list_lookup_fmap_Some. exists b. split; [reflexivity|exact Hb].
    - apply list_lookup_fmap_Some. exists a. split; [congruence|exact Ha']. }
  assert (Hid : connection_id st = Some id) by (rewrite <- (active_id s a c st); done).
  split; unfold actives, profiles in *.
  - intros b. destruct H1 as [-> | [_ ->]]; [|done]. intros Hb. by apply retain_elem in Hb as [Hb _].
  - intros b Hb. destruct H1 as [-> | [_ ->]]; [|by left]. destruct (String.eqb_spec (ac_path b) p) as [Hbp|Hbp].
    + right. rewrite (Hsame b Hb Hbp). split; [done|]. by exists c, st.
    + left. apply retain_elem. split; [done|]. unfold not_path. by destruct (String.eqb_spec (ac_path b) p).
  - intros c' st'. destruct H2 as [-> | (b & c2 & Hb & Hbp & Hc2 & ->)]; [done|]. by intros [_ H]%lookup_delete_Some.
  - intros c' st' Hc'. destruct H2 as [-> | (b & c2 & Hb & Hbp & Hc2 & ->)]; [by left|].
    destruct (decide (c' = c2)) as [->|Hne]; [|left; by rewrite lookup_delete_ne].
    right. rewrite (Hsame b Hb Hbp) in Hc2. rewrite Hc in Hc2. injection Hc2 as ->. rewrite Hst in Hc'. injection Hc' as <-.
    unfold owned_with_id. by rewrite Hid, bool_decide_eq_true_2, Ho.
  - destruct H1 as [-> | [_ ->]]; [apply retain_length|done].
Qed.

Lemma delete_sheds id s c st : profiles s !! c = Some st -> owned_with_id id st = true -> sheds id s (nm_delete c s).2.
Proof.
  intros Hc Ho. pose proof (delete_effect c s) as H. destruct (nm_delete c s) as [[[]|e] s']; [|by apply sheds_same].
  destruct H as [H1 H2]. cbn. unfold owned_with_id in Ho. apply andb_true_iff in Ho as [Hid%bool_decide_eq_true Ho].
  split; unfold actives, profiles in *.
  - intros b. destruct H2 as [-> | ->]; [done|]. intros Hb. by apply retain_elem in Hb as [Hb _].
  - intros b Hb. destruct H2 as [-> | ->]; [by left|]. destruct (decide (ac_connection b = Some c)) as [Hbc|Hbc].
    + right. split; [by rewrite (active_id s b c st)|]. by exists c, st.
    + left. apply retain_elem. split; [done|]. unfold not_using. by rewrite bool_decide_eq_false_2.
  - intros c' st' Hc'. rewrite H1 in Hc'. by apply lookup_delete_Some in Hc' as [_ Hc'].
  - intros c' st' Hc'. rewrite H1. destruct (decide (c' = c)) as [->|Hne]; [|left; by rewrite lookup_delete_ne].
    right. rewrite Hc in Hc'. injection Hc' as <-. unfold owned_with_id. by rewrite Hid, bool_decide_eq_true_2, Ho.
  - destruct H2 as [-> | ->]; [done|apply retain_length].
Qed.

(** *** Removing a protection *)
Definition owned_active_at (s : W) (id : string) : NativeResult (option string) :=
  match nm_active s with
  | Ok l => Ok (option_map ac_path (find_first (is_owned_active s id) l))
  | Err e => Err (nm_error "list active NetworkManager connections" e)
  end.

Lemma active_owned_run s id : active_owned_connection_by_id id s = (Done (owned_active_at s id), s, []).
Proof.
  unfold active_owned_connection_by_id, active_connections, nm_bind, nm_read, owned_active_at. by destruct (nm_active s).
Qed.

Lemma owned_active_Some s id p :
  owned_active_at s id = Ok (Some p) ->
  exists a c st, a ∈ actives s /\ a.(ac_path) = p /\ a.(ac_id) = Some id /\ a.(ac_connection) = Some c /\
    profiles s !! c = Some st /\ connection_owned st = true.
Proof.
  unfold owned_active_at. destruct (nm_active s) as [l|] eqn:E; [|discriminate]. apply reads_active in E as ->.
  destruct (find_first _ _) as [a|] eqn:F; [|discriminate]. intros [= <-]. apply find_first_Some in F as [Ha Ho].
  unfold is_owned_active in Ho. apply andb_true_iff in Ho as [Hi%bool_decide_eq_true Ho].
  unfold settings_now in Ho. destruct (ac_connection a) as [c|] eqn:Hc; [|discriminate]. cbn in Ho. rewrite reads_settings in Ho.
  destruct (w_profiles (world_of s) !! c) as [st|] eqn:Hst; [|discriminate]. by exists a, c, st.
Qed.

Lemma owned_active_None s id : owned_active_at s id = Ok None -> forall a, a ∈ actives s -> ~ runs_owned s id a.
Proof.
  unfold owned_active_at. destruct (nm_active s) as [l|] eqn:E; [|discriminate]. apply reads_active in E as ->.
  destruct (find_first _ _) as [a|] eqn:F; [discriminate|]. intros _ a Ha (Hi & c & st & Hc & Hp & Ho).
  apply find_first_None in F. eapply Forall_forall in F; [|exact Ha]. unfold is_owned_active, settings_now in F.
  rewrite Hi, bool_decide_eq_true_2, Hc in F by done. cbn in F. rewrite reads_settings in F. unfold profiles in Hp. by rewrite Hp, Ho in F.
Qed.

Lemma deactivate_found id s p : owned_active_at s id = Ok (Some p) ->
  sheds id s (nm_deactivate p s).2 /\
  (forall r s', nm_deactivate p s = (r, s') -> (length (actives s') < length (actives s))%nat \/ r <> Ok tt /\ actives s' = actives s).
Proof.
  intros H. destruct (owned_active_Some _ _ _ H) as (a & c & st & Ha & Hp & Hi & Hc & Hst & Ho). split.
  - eapply deactivate_sheds; try done. apply active_paths.
  - intros r s' E. pose proof (deactivate_effect p s) as D. rewrite E in D. destruct D as [[D | [D1 D2]] _]; [left|by right].
    unfold actives. rewrite D. clear -Ha Hp. unfold actives in Ha. induction (w_active (world_of s)) as [|b l IH]; [by apply elem_of_nil in Ha|].
    apply elem_of_cons in Ha as [<-|Ha]; cbn [retain].
    + unfold not_path at 1. rewrite (proj2 (String.eqb_eq _ _) Hp). cbn. pose proof (retain_length (not_path p) l). lia.
    + specialize (IH Ha). destruct (not_path p b); cbn [length]; lia.
Qed.

Lemma tolerate_race_run id r s : tolerate_race id r s =
  (Done match r with
        | Ok _ => Ok tt
        | Err e => match owned_active_at s id with Ok (Some _) => Err e | Ok None => Ok tt | Err e' => Err e' end
        end, s, []).
Proof.
  unfold tolerate_race. destruct r as [[]|e]; [done|]. unfold nm_bind. rewrite active_owned_run.
  by destruct (owned_active_at s id) as [[p|]|].
Qed.

(** One turn of the loop. *)
Lemma deactivate_all_step fuel id removed s :
  deactivate_all (S fuel) id removed s =
  match owned_active_at s id with
  | Err e => (Done (Err e), s, [])
  | Ok None => (Done (Ok removed), s, [])
  | Ok (Some p) =>
      let '(r, s1) := nm_deactivate p s in
      match (match r with
             | Ok _ => Ok tt
             | Err e => match owned_active_at s1 id with
                        | Ok (Some _) => Err (nm_error "deactivate Proton protection connection" e)
                        | Ok None => Ok tt
                        | Err e' => Err e'
                        end
             end) with
      | Err e => (Done (Err e), s1, [s1])
      | Ok _ => let '(r, s2, seen) := deactivate_all fuel id true s1 in (r, s2, s1 :: seen)
      end
  end.
Proof.
  cbn [deactivate_all]. unfold nm_bind at 1. rewrite active_owned_run. destruct (owned_active_at s id) as [[p|]|e]; [|done|done].
  unfold nm_try, nm_call. destruct (nm_deactivate p s) as [r s1]. cbn. unfold nm_bind. rewrite tolerate_race_run.
  destruct r as [[]|e]; cbn.
  - by destruct (deactivate_all fuel id true s1) as [[r2 s2] seen2].
  - destruct (owned_active_at s1 id) as [[p'|]|e']; [done| |done]. by destruct (deactivate_all fuel id true s1) as [[r2 s2] seen2].
Qed.

Lemma deactivate_all_along fuel id removed : along (sheds id) (deactivate_all fuel id removed).
Proof.
  revert removed. induction fuel as [|fuel IH]; intros removed s r s' seen H; [injection H as <- <- <-; split; [reflexivity|constructor]|].
  rewrite deactivate_all_step in H. destruct (owned_active_at s id) as [[p|]|e] eqn:E;
    [|injection H as <- <- <-; split; [reflexivity|constructor]..].
  destruct (deactivate_found id s p E) as [Hs _]. destruct (nm_deactivate p s) as [r1 s1]. cbn in Hs.
  destruct (match r1 with Ok _ => _ | Err _ => _ end) as [u|e]; [|injection H as <- <- <-; split; [done|constructor; [done|constructor]]].
  destruct (deactivate_all fuel id true s1) as [[r2 s2] seen2] eqn:E2. injection H as <- <- <-.
  destruct (IH _ _ _ _ _ E2) as [H2 F2]. split; [by transitivity s1|]. constructor; [done|by eapply Forall_further; [apply sheds_transitive|done|done]].
Qed.

Lemma deactivate_all_runs n fuel id removed :
  (n + 1 < fuel)%nat ->
  runs (fun s => (length (actives s) <= n)%nat) (deactivate_all fuel id removed) (fun _ s => forall a, a ∈ actives s -> ~ runs_owned s id a).
Proof.
  revert n removed. induction fuel as [|fuel IH]; intros n removed Hf s Hs; [lia|]. cbv beta in Hs. rewrite deactivate_all_step.
  destruct (owned_active_at s id) as [[p|]|e] eqn:E; [|by apply owned_active_None|done].
  destruct (deactivate_found id s p E) as [_ Hd]. destruct (nm_deactivate p s) as [r1 s1]. specialize (Hd r1 s1 eq_refl).
  destruct (match r1 with Ok _ => _ | Err _ => _ end) as [u|e] eqn:Er; [|done].
  destruct Hd as [Hd | [Hr Ha]].
  - assert (Hpos : (0 < n)%nat) by lia. specialize (IH (n - 1)%nat true ltac:(lia) s1 ltac:(cbv beta; lia)).
    by destruct (deactivate_all fuel id true s1) as [[[[b|e]|] s2] seen2].
  - assert (Hn : owned_active_at s1 id = Ok None).
    { destruct r1 as [[]|e]; [done|]. by destruct (owned_active_at s1 id) as [[p'|]|e']. }
    destruct fuel as [|fuel]; [lia|]. rewrite deactivate_all_step, Hn. by apply owned_active_None.
Qed.

Lemma delete_each_along id action paths removed : along (sheds id) (delete_each (owned_with_id id) action paths removed).
Proof.
  revert removed. induction paths as [|c paths IH]; intros removed; cbn [delete_each]; [apply along_ret, _|].
  intros s r s' seen H. unfold nm_bind at 1, nm_read in H. rewrite reads_settings in H.
  destruct (w_profiles (world_of s) !! c) as [st|] eqn:Hc; [destruct (owned_with_id id st) eqn:Ho|].
  - unfold nm_bind, nm_call in H. pose proof (delete_sheds id s c st Hc Ho) as Hd. destruct (nm_delete c s) as [[u|e] s1]; cbn in H, Hd.
    + destruct (delete_each _ _ paths true s1) as [[r2 s2] seen2] eqn:E. injection H as <- <- <-. destruct (IH _ _ _ _ _ E) as [H2 F2].
      split; [by transitivity s1|]. constructor; [done|by eapply Forall_further; [apply sheds_transitive|done|done]].
    + injection H as <- <- <-. split; [done|by constructor].
  - destruct (delete_each _ _ paths removed s) as [[r2 s2] seen2] eqn:E. injection H as <- <- <-. by apply (IH _ _ _ _ _ E).
  - destruct (delete_each _ _ paths removed s) as [[r2 s2] seen2] eqn:E. injection H as <- <- <-. by apply (IH _ _ _ _ _ E).
Qed.

(** No owned profile with this id is stored, and none is active. *)
Definition cleared (id : string) (s : W) : Prop :=
  (forall c st, profiles s !! c = Some st -> owned_with_id id st = false) /\ (forall a, a ∈ actives s -> ~ runs_owned s id a).

Lemma cleared_sheds id id' s s' : sheds id' s s' -> cleared id s -> cleared id s'.
Proof.
  intros H [Hp Ha]. split; [intros c st Hc; eapply Hp; by apply (sh_profiles _ _ _ H)|].
  intros a Ha' Ho. apply (Ha a); [by apply (sh_active _ _ _ H)|by eapply runs_owned_before].
Qed.

Lemma delete_each_runs id action paths removed :
  runs (fun s => forall c st, profiles s !! c = Some st -> owned_with_id id st = true -> c ∈ paths)
       (delete_each (owned_with_id id) action paths removed)
       (fun _ s => forall c st, profiles s !! c = Some st -> owned_with_id id st = false).
Proof.
  revert removed. induction paths as [|c paths IH]; intros removed; cbn [delete_each].
  - apply runs_ret. intros s Hs c st Hc. destruct (owned_with_id id st) eqn:Ho; [|done]. by apply Hs, elem_of_nil in Hc.
  - set (P := fun s : W => forall c' st, profiles s !! c' = Some st -> owned_with_id id st = true -> c' ∈ c :: paths).
    eapply (runs_bind _ _ _ (fun o s => P s /\ o = profiles s !! c)).
    { apply runs_read. intros s o HP [= <-]. split; [done|]. by rewrite reads_settings. }
    intros o. destruct (match o with Some st => owned_with_id id st | None => false end) eqn:E.
    + eapply (runs_bind _ _ _ (fun _ s => forall c' st, profiles s !! c' = Some st -> owned_with_id id st = true -> c' ∈ paths)); [|intros; apply IH].
      apply runs_call. intros s u s' [HP _] H c' st' Hc' Ho. pose proof (delete_effect c s) as D. rewrite H in D. destruct D as [D _].
      unfold profiles in Hc'. rewrite D in Hc'. apply lookup_delete_Some in Hc' as [Hne Hc'].
      destruct (proj1 (elem_of_cons _ _ _) (HP c' st' Hc' Ho)) as [->|]; done.
    + eapply runs_weaken; [apply IH| |done]. intros s [HP ->] c' st' Hc' Ho.
      destruct (proj1 (elem_of_cons _ _ _) (HP c' st' Hc' Ho)) as [->|]; [|done]. by rewrite Hc', Ho in E.
Qed.

Lemma remove_owned_along fuel id : along (sheds id) (remove_owned_connections_by_id fuel id).
Proof.
  unfold remove_owned_connections_by_id. apply along_bind; [apply _|apply along_pure, _|intros _].
  apply along_bind; [apply _|apply deactivate_all_along|intros removed].
  apply along_bind; [apply _|apply along_pure, _|intros paths]. apply delete_each_along.
Qed.

Lemma remove_owned_runs n fuel id :
  (n + 1 < fuel)%nat ->
  runs (fun s => (length (actives s) <= n)%nat) (remove_owned_connections_by_id fuel id) (fun _ s => cleared id s).
Proof.
  intros Hf. unfold remove_owned_connections_by_id. eapply (runs_bind _ _ _ (fun _ s => (length (actives s) <= n)%nat)); [by apply runs_read|intros _].
  eapply runs_bind; [by apply (deactivate_all_runs n)|intros removed].
  set (I := fun s : W => forall a, a ∈ actives s -> ~ runs_owned s id a).
  eapply (runs_bind _ _ _ (fun paths s => (forall c st, profiles s !! c = Some st -> owned_with_id id st = true -> c ∈ paths) /\ I s)).
  - apply runs_read. intros s paths HI H. split; [|done]. intros c st Hc _. destruct (nm_profiles s) as [l|] eqn:E; [|done].
    cbn in H. injection H as <-. apply (reads_profiles s l E). by exists st.
  - intros paths. eapply runs_weaken; [eapply (runs_along _ (fun s => _ /\ I s) _ _ I (delete_each_along id _ paths removed))| |].
    + intros s s' [_ HI] Hsh a Ha Ho. apply (HI a); [by apply (sh_active _ _ _ Hsh)|by eapply runs_owned_before].
    + eapply runs_weaken; [apply delete_each_runs| |by intros ? ? H; exact H]. intros s [H _]. exact H.
    + intros s H. exact H.
    + intros _ s [Hp Ha]. by split.
Qed.
End Steps.
