(* ===== verification/NetExample.v ===== *)
(** A NetworkManager that satisfies [NmLaws]: its state is a list of active connections and a table of
    profiles; a command whose outcome would be inconsistent fails without effect.  It shows that the laws
    can hold and serves the concrete runs. *)
From S2P Require Export NetLaws.
Open Scope string_scope.
Open Scope Z_scope.
Open Scope list_scope.
Open Scope rust_scope.

Definition consistent_active (m : gmap string nm_settings) (a : active_connection) : bool :=
  match a.(ac_connection) with
  | Some c => match m !! c with Some st => bool_decide (a.(ac_id) = connection_id st) | None => true end
  | None => true
  end.
Definition consistent (w : world) : bool :=
  bool_decide (NoDup (map ac_path w.(w_active))) && forallb (consistent_active w.(w_profiles)) w.(w_active).
Definition example_system : Type := { w : world | consistent w = true }.

Definition attempt {A : Type} (a : A) (w : world) (s : example_system) : result A string * example_system :=
  match Bool.bool_dec (consistent w) true with
  | left H => (Ok a, exist _ w H)
  | right _ => (Err "inconsistent", s)
  end.

Definition example_active (path c : string) (st : option nm_settings) : active_connection :=
  let vpn := bool_decide (opt_filter tunnel_service st <> None) in
  mkActive path (st ?> connection_id) (st ?> fun st => setting_str st "connection" "uuid") (Some c) (Some vpn)
    (if vpn then Some 5 else None) (Some 2) (st ?> fun st => setting_str st "connection" "type") [].

Definition example_add (st : nm_settings) (s : example_system) : result string string * example_system :=
  let '(mkWorld active profiles) := proj1_sig s in
  let path := "/settings/" +:+ dec (Z.of_nat (size profiles)) in
  if bool_decide (profiles !! path = None) then attempt path (mkWorld active (<[path := st]> profiles)) s
  else (Err "exists", s).
Definition example_activate (c : string) (s : example_system) : result string string * example_system :=
  let '(mkWorld active profiles) := proj1_sig s in
  let path := "/active/" +:+ dec (Z.of_nat (length active)) +:+ c in
  attempt path (mkWorld (active ++ [example_active path c (profiles !! c)]) profiles) s.
Definition example_deactivate (p : string) (s : example_system) : result unit string * example_system :=
  let '(mkWorld active profiles) := proj1_sig s in
  attempt tt (mkWorld (retain (not_path p) active) profiles) s.
Definition example_delete (c : string) (s : example_system) : result unit string * example_system :=
  let '(mkWorld active profiles) := proj1_sig s in
  attempt tt (mkWorld (retain (not_using c) active) (delete c profiles)) s.

#[export] Instance example_manager : NetworkManager example_system := {
  nm_bus _ := Ok tt;
  nm_active s := Ok (proj1_sig s).(w_active);
  nm_profiles s := Ok (map fst (map_to_list (proj1_sig s).(w_profiles)));
  nm_settings_of s p := (proj1_sig s).(w_profiles) !! p;
  nm_devices _ := Ok [mkDevice (Some 100) (Some 1) (Ok "eth0") (Some (mkIpConfig (Ok []) (Some "192.168.1.1") [] [] [])) None None];
  nm_check_enabled _ := Some true;
  nm_primary _ := None;
  nm_type_of _ _ := None;
  nm_set_check _ s := (Ok tt, s);
  nm_add _ st s := example_add st s;
  nm_activate c _ s := example_activate c s;
  nm_deactivate := example_deactivate;
  nm_delete := example_delete;
  nm_modify _ _ _ s := (Ok (Ok tt), s);
  os_remove_credentials _ s := s }.

Lemma attempt_spec {A : Type} (a : A) w s :
  match attempt a w s with (Ok b, s') => b = a /\ proj1_sig s' = w | (Err _, s') => s' = s end.
Proof. unfold attempt. by destruct (Bool.bool_dec _ _). Qed.

Lemma consistent_ids (s : example_system) a c st :
  a ∈ (proj1_sig s).(w_active) -> a.(ac_connection) = Some c -> (proj1_sig s).(w_profiles) !! c = Some st -> a.(ac_id) = connection_id st.
Proof.
  destruct s as [w H]. cbn. unfold consistent in H. apply andb_true_iff in H as [_ H]. intros Ha Hc Hst.
  rewrite forallb_forall in H. apply list_elem_of_In in Ha. specialize (H a Ha). unfold consistent_active in H.
  rewrite Hc, Hst in H. by apply bool_decide_eq_true in H.
Qed.

#[export, refine] Instance manager_laws : NmLaws example_system := { world_of s := proj1_sig s }.
Proof.
  - by intros s l [= <-].
  - intros s l [= <-] p. split.
    + intros H. apply list_elem_of_In, in_map_iff in H as ([p' st] & <- & H). apply list_elem_of_In, elem_of_map_to_list in H. by exists st.
    + intros [st H]. apply list_elem_of_In, in_map_iff. exists (p, st). split; [done|]. by apply list_elem_of_In, elem_of_map_to_list.
  - done.
  - intros [w H]. cbn. unfold consistent in H. apply andb_true_iff in H as [H _]. by apply bool_decide_eq_true in H.
  - exact consistent_ids.
  - done.
  - done.
  - done.
  - intros b st s. cbn. unfold example_add. destruct (proj1_sig s) as [active profiles] eqn:E.
    case_bool_decide as Hf; [|done]. pose proof (attempt_spec ("/settings/" +:+ dec (Z.of_nat (size profiles)))
      (mkWorld active (<["/settings/" +:+ dec (Z.of_nat (size profiles)) := st]> profiles)) s) as H.
    destruct (attempt _ _ s) as [[p|e] s']; [|by subst]. destruct H as [-> ->]. done.
  - intros c o s. cbn. unfold example_activate. destruct (proj1_sig s) as [active profiles] eqn:E.
    match goal with |- context [attempt ?a ?w s] => pose proof (attempt_spec a w s) as H; destruct (attempt a w s) as [[p|e] s'] end;
      [|by subst]. destruct H as [-> ->]. eexists. split_and!; [| | |reflexivity]; [done..|]. cbn. by intros st ->.
  - intros p s. cbn. unfold example_deactivate. destruct (proj1_sig s) as [active profiles] eqn:E.
    match goal with |- context [attempt ?a ?w s] => pose proof (attempt_spec a w s) as H; destruct (attempt a w s) as [[[]|e] s'] end.
    + destruct H as [_ ->]. split; by left.
    + subst s'. rewrite E. split; [by right|by left].
  - intros c s. cbn. unfold example_delete. destruct (proj1_sig s) as [active profiles] eqn:E.
    match goal with |- context [attempt ?a ?w s] => pose proof (attempt_spec a w s) as H; destruct (attempt a w s) as [[[]|e] s'] end.
    + destruct H as [_ ->]. split; [done|by right].
    + by subst s'; rewrite E.
Defined.

(** A system with a home network and the standard kill switch up. *)
Definition home_settings : nm_settings := {["connection" := props [("id", VStr "home"); ("type", VStr "802-3-ethernet")]]}.
Definition home_active : active_connection := example_active "/active/home" "/settings/home" (Some home_settings).
Definition standard_settings : nm_settings :=
  kill_switch_settings "user" "uuid-0" KILL_SWITCH_CONNECTION_ID KILL_SWITCH_INTERFACE false.
Definition example_world : world :=
  mkWorld [home_active; example_active "/active/ks" "/settings/ks" (Some standard_settings)]
    {["/settings/home" := home_settings; "/settings/ks" := standard_settings]}.
Definition example_state : example_system := exist _ example_world (@eq_refl bool true <: consistent example_world = true).
