(* ===== verification/NetDevices.v ===== *)
(** What the agent reads about the physical network ([agent/src/native_backend/network.rs]): other VPNs that
    may conflict, the default routes that bypass the tunnel, local name servers, the identity of the
    network and the security of the Wi-Fi. *)
From S2P Require Export NetManager.
From S2P Require Import CatalogPages NetExample.
Open Scope string_scope.
Open Scope Z_scope.
Open Scope list_scope.
Open Scope rust_scope.

Class Devices (W : Type) : Type := mkDevices {
  (** The names under [/sys/class/net], with the contents of [operstate] if it can be read. *)
  sys_net : W -> option (list (string * option string));
  (** [ip -j route show table main default] for IPv4 or, when [true], IPv6: whether it could be run, and its
      output, or its error output when it fails. *)
  ip_default_routes : bool -> W -> result (result string string) string }.

(** ** Pure helpers *)
Definition octet (n : nat) (octets : list Z) : Z := unwrap_or (octets !! n) 0.

(** [Ipv4Addr::is_private], [is_link_local] and [is_loopback]; for IPv6 the loopback address, unique local
    addresses and link-local ones. *)
Definition is_local_resolver (address : IpAddr) : bool :=
  match address with
  | IpV4 a =>
      ((octet 0 a =? 10) || ((octet 0 a =? 172) && (Z.land (octet 1 a) 240 =? 16)) || ((octet 0 a =? 192) && (octet 1 a =? 168)))
      || ((octet 0 a =? 169) && (octet 1 a =? 254))
      || (octet 0 a =? 127)
  | IpV6 a =>
      let first := octet 0 a * 256 + octet 1 a in
      bool_decide (a = [0; 0; 0; 0; 0; 0; 0; 0; 0; 0; 0; 0; 0; 0; 0; 1])
      || (Z.land first 0xfe00 =? 0xfc00) || (Z.land first 0xffc0 =? 0xfe80)
  end.

Definition conflict_label (id : string) (interface : option string) : string :=
  match opt_filter (fun interface => negb (is_empty interface)) interface with
  | Some interface => if eq_ignore_ascii_case id interface then interface else id +:+ " (" +:+ interface +:+ ")"
  | None => id
  end.

Definition TUNNEL_PREFIXES : list string := ["tun"; "tap"; "wg"; "tailscale"; "warp"; "zt"; "ham"; "nordlynx"; "mullvad"; "ivpn"; "pia"].
Definition is_conflicting_tunnel_name (name : string) : bool :=
  let name := to_ascii_lowercase name in
  if existsb (String.eqb name) [PROTUN_INTERFACE; IPV6_LEAK_INTERFACE; KILL_SWITCH_INTERFACE; KILL_SWITCH_PERMANENT_INTERFACE]
  then false
  else existsb (fun prefix => starts_with prefix name) TUNNEL_PREFIXES.

Definition wifi_is_secure (wpa_flags rsn_flags : Z) : bool := negb (wpa_flags =? 0) || negb (rsn_flags =? 0).

(** A device with state 100 (activated) of type 1 (Ethernet) or 2 (Wi-Fi). *)
Definition is_physical (d : nm_device) : bool :=
  (unwrap_or d.(dv_state) 0 =? 100) && ((unwrap_or d.(dv_type) 0 =? 1) || (unwrap_or d.(dv_type) 0 =? 2)).

Section Devices.
Context {W : Type} {N : NetworkManager W} {D : Devices W} {J : JsonText} {L : IpLib}.

Definition devices_for (action : string) : NM (W := W) (list nm_device) :=
  nm_read (fun s => res_map_err (nm_error action) (nm_devices s)).

(** ** Conflicting tunnels *)
Definition conflict_of (s : W) (a : active_connection) : option string :=
  if negb (unwrap_or a.(ac_state) 0 =? 2) then None
  else
    let?? settings := settings_now s a.(ac_connection) in
    if profile_owned settings || proton_system_profile settings then None
    else
      let kind := to_ascii_lowercase (unwrap_or a.(ac_type) "") in
      if unwrap_or a.(ac_vpn) false || String.eqb kind "vpn" || String.eqb kind "wireguard"
      then Some (conflict_label (unwrap_or a.(ac_id) "VPN") (head (omap id a.(ac_interfaces))))
      else None.
Definition unmanaged_conflict (entry : string * option string) : option string :=
  if is_conflicting_tunnel_name entry.1
     && match entry.2 with Some state => existsb (String.eqb (trim state)) ["up"; "unknown"] | None => false end
  then Some entry.1 else None.

(** Labels that differ only in case come in the unspecified order of the hash set, here that of [elements]. *)
Definition sort_conflicts (conflicts : gset string) : list string :=
  take 16 (merge_sort (fun a b => String.le (to_ascii_lowercase a) (to_ascii_lowercase b)) (elements conflicts)).
Definition conflicting_interfaces : NM (W := W) (list string) :=
  system_bus ;;^
  let^ actives := active_connections in
  nm_read (fun s => Ok (sort_conflicts (list_to_set
    (omap (conflict_of s) actives ++ omap unmanaged_conflict (unwrap_or (sys_net s) []))))).

(** ** Default routes *)
Definition U64_MAX : Z := 2 ^ 64 - 1.
Definition physical_route_unavailable (message : string) : NativeError := NativeError_new "physical_route_unavailable" message.

Definition physical_interfaces (devices : list nm_device) : gset string :=
  list_to_set (omap (fun d =>
    if is_physical d then match d.(dv_interface) with Ok i => if is_empty i then None else Some i | Err _ => None end else None) devices).

(** A default route as (metric, gateway, interface). *)
Definition route_of (physical : gset string) (value : json) : option (Z * string * string) :=
  let?? interface := jget "dev" value ?> as_str in
  if bool_decide (interface ∈ physical)
  then Some (unwrap_or (jget "metric" value ?> as_u64) U64_MAX, unwrap_or (jget "gateway" value ?> as_str) "", interface)
  else None.
(** The order of [(u64, &String)]. *)
Definition route_le (a b : Z * string * string) : bool :=
  (a.1.1 <? b.1.1) || ((a.1.1 =? b.1.1) && String.leb a.2 b.2).
(** [min_by]: the first of the least elements. *)
Fixpoint min_route (best : option (Z * string * string)) (l : list (Z * string * string)) : option (Z * string * string) :=
  match l with
  | [] => best
  | r :: l => min_route (match best with Some b => if route_le b r then Some b else Some r | None => Some r end) l
  end.

Definition family_routes (physical : gset string) (v6 : bool) (s : W) : NativeResult (option (Z * string * string)) :=
  let? output := res_map_err (fun e => ne_with_source e (physical_route_unavailable "Unable to inspect the physical default route"))
                   (ip_default_routes v6 s) in
  match output with
  | Err stderr =>
      Err (ne_with_details (jobj [("family", Str (if v6 then "ipv6" else "ipv4")); ("stderr", Str (trim stderr))])
             (physical_route_unavailable "The kernel did not return the physical default route"))
  | Ok stdout =>
      let? values := ok_or (json_parse stdout ?> as_array)
                       (ne_with_source (json_refusal "Vec<Value>" stdout)
                          (physical_route_unavailable "The kernel returned an invalid default-route description")) in
      Ok (min_route None (omap (route_of physical) values))
  end.

Definition route_triple (family : string) (r : option (Z * string * string)) : list (string * string * string) :=
  match r with Some (_, gateway, interface) => [(family, gateway, interface)] | None => [] end.

Definition physical_default_routes : NM (W := W) (list (string * string * string)) :=
  system_bus ;;^
  let^ devices := devices_for "list NetworkManager devices" in
  let physical := physical_interfaces devices in
  let^ v4 := nm_read (family_routes physical false) in
  let^ v6 := nm_read (family_routes physical true) in
  let routes := route_triple "ipv4" v4 ++ route_triple "ipv6" v6 in
  if match routes with [] => true | _ => false end
  then nm_throw (ne_set_retryable true
         (physical_route_unavailable "No active Ethernet or Wi-Fi default route is available for split tunneling"))
  else nm_ret routes.

(** ** Name servers *)
Definition resolver (a : IpAddr) : option string := if is_local_resolver a then Some (addr_to_string a) else None.

(** [u32::to_ne_bytes] on a little-endian machine. *)
Definition ne_bytes (n : Z) : list Z := [n mod 256; n / 256 mod 256; n / 65536 mod 256; n / 16777216 mod 256].

Definition device_resolvers (d : nm_device) : list string :=
  if negb (is_physical d) then []
  else
    match d.(dv_ip4) with
    | Some c =>
        omap (fun entry => (entry ?> addr_from_str) ?> resolver) c.(ic_nameserver_data)
        ++ omap (fun n => resolver (IpV4 (ne_bytes n))) c.(ic_nameservers4)
    | None => []
    end
    ++ match d.(dv_ip6) with
       | Some c => omap (fun bytes => if (length bytes =? 16)%nat then resolver (IpV6 bytes) else None) c.(ic_nameservers6)
       | None => []
       end.
Definition physical_dns_servers : NM (W := W) (list string) :=
  system_bus ;;^
  let^ devices := devices_for "list NetworkManager devices" in
  nm_ret (sorted_set (list_to_set (concat (map device_resolvers devices)))).

(** ** The identity of the network and the security of the Wi-Fi *)
Definition config_identity (interface : string) (c : ip_config) : NativeResult (list string) :=
  let? addresses := res_map_err (nm_error "read physical addresses") c.(ic_addresses) in
  Ok (map (fun a => interface +:+ ":" +:+ a) (omap id addresses) ++ [interface +:+ ":gateway:" +:+ unwrap_or c.(ic_gateway) ""]).
Definition opt_identity (interface : string) (c : option ip_config) : NativeResult (list string) :=
  match c with Some c => config_identity interface c | None => Ok [] end.
Fixpoint identity_of (devices : list nm_device) : NativeResult (list string) :=
  match devices with
  | [] => Ok []
  | d :: devices =>
      if negb (is_physical d) then identity_of devices
      else
        let? interface := res_map_err (nm_error "read physical interface") d.(dv_interface) in
        let? v4 := opt_identity interface d.(dv_ip4) in
        let? v6 := opt_identity interface d.(dv_ip6) in
        let? rest := identity_of devices in
        Ok (v4 ++ v6 ++ rest)
  end.
Definition physical_network_identity : NM (W := W) (list string) :=
  system_bus ;;^
  let^ devices := devices_for "list physical devices" in
  nm_read (fun _ => res_map (merge_sort String.le) (identity_of devices)).

Record WifiSecurityObservation : Type := mkWifi {
  wf_identity : list Z;
  wf_secure : bool }.

Definition wifi_of (d : nm_device) : NativeResult (option WifiSecurityObservation) :=
  if negb (unwrap_or d.(dv_state) 0 =? 100) || negb (unwrap_or d.(dv_type) 0 =? 2) then Ok None
  else
    match d.(dv_access_point) with
    | None => Ok None
    | Some ap =>
        let? interface := res_map_err (nm_error "read the active Wi-Fi interface") d.(dv_interface) in
        let? ssid := res_map_err (nm_error "read the active Wi-Fi identity") ap.(ap_ssid) in
        let? wpa := res_map_err (nm_error "read Wi-Fi WPA capabilities") ap.(ap_wpa_flags) in
        let? rsn := res_map_err (nm_error "read Wi-Fi RSN capabilities") ap.(ap_rsn_flags) in
        Ok (Some (mkWifi (as_bytes interface ++ 0 :: ssid) (wifi_is_secure wpa rsn)))
    end.

(** The order of byte strings. *)
Fixpoint bytes_lt (a b : list Z) : bool :=
  match a, b with
  | _, [] => false
  | [], _ => true
  | x :: a, y :: b => (x <? y) || ((x =? y) && bytes_lt a b)
  end.
(** [sort_by] and [next]: the first of the least identities. *)
Fixpoint wifi_first (best : option WifiSecurityObservation) (devices : list nm_device) : NativeResult (option WifiSecurityObservation) :=
  match devices with
  | [] => Ok best
  | d :: devices =>
      let? o := wifi_of d in
      wifi_first (match best, o with
                  | Some b, Some w => if bytes_lt w.(wf_identity) b.(wf_identity) then o else best
                  | None, _ => o
                  | _, None => best
                  end) devices
  end.
Definition wifi_security : NM (W := W) (option WifiSecurityObservation) :=
  system_bus ;;^
  let^ devices := devices_for "list NetworkManager devices" in
  nm_read (fun _ => wifi_first None devices).
End Devices.

(** ** Lemmas *)
Lemma leb_transitive (a b c : string) : String.leb a b = true -> String.leb b c = true -> String.leb a c = true.
Proof. intros H1%Is_true_true H2%Is_true_true. apply Is_true_true. by apply (transitivity (R := String.le) (y := b)). Qed.

Lemma route_le_total a b : route_le a b = false -> route_le b a = true.
Proof.
  unfold route_le. intros [H1 H2]%orb_false_iff. apply Z.ltb_ge in H1. apply orb_true_iff.
  destruct (Z.eqb_spec a.1.1 b.1.1) as [E|E]; [|left; lia]. right. cbn in H2. rewrite E, Z.eqb_refl. cbn.
  destruct (String.leb_total a.2 b.2) as [H|H]; [by rewrite H in H2|done].
Qed.
Lemma route_le_reflexive a : route_le a a = true.
Proof. destruct (route_le a a) eqn:E; [done|]. by rewrite <- E, route_le_total. Qed.
Lemma route_le_transitive a b c : route_le a b = true -> route_le b c = true -> route_le a c = true.
Proof.
  unfold route_le. rewrite !orb_true_iff, !andb_true_iff, !Z.ltb_lt, !Z.eqb_eq.
  intros [H1|[H1 L1]] [H2|[H2 L2]]; [left; lia..|]. right. split; [lia|by eapply leb_transitive].
Qed.

(** [min_route] returns a least route. *)
Lemma min_route_spec best l r :
  min_route best l = Some r ->
  (best = Some r \/ r ∈ l) /\ (forall x, best = Some x \/ x ∈ l -> route_le r x = true).
Proof.
  revert best. induction l as [|y l IH]; intros best H; cbn in H.
  - subst best. split; [by left|]. intros x [[= ->]|Hx]; [apply route_le_reflexive|by apply elem_of_nil in Hx].
  - destruct (IH _ H) as [Hr Hmin]. destruct best as [b|]; [destruct (route_le b y) eqn:E|].
    + split; [destruct Hr as [Hr|Hr]; [by left|right; by right]|]. intros x [Hx|Hx]; [by apply Hmin; left|].
      apply elem_of_cons in Hx as [->|Hx]; [|apply Hmin; by right].
      eapply route_le_transitive; [by apply Hmin; left|exact E].
    + split; [destruct Hr as [[= ->]|Hr]; right; [by left|by right]|]. intros x [[= ->]|Hx].
      * eapply route_le_transitive; [by apply Hmin; left|by apply route_le_total].
      * apply elem_of_cons in Hx as [->|Hx]; apply Hmin; [by left|by right].
    + split; [destruct Hr as [[= ->]|Hr]; right; [by left|by right]|]. intros x [[=]|Hx].
      apply elem_of_cons in Hx as [->|Hx]; apply Hmin; [by left|by right].
Qed.

Section Properties.
Context {W : Type} {N : NetworkManager W} {D : Devices W} {J : JsonText} {L : IpLib}.

(** The interface of an activated Ethernet or Wi-Fi device. *)
Definition physical_interface (s : W) (interface : string) : Prop :=
  exists devices d, nm_devices s = Ok devices /\ d ∈ devices /\ is_physical d = true /\ d.(dv_interface) = Ok interface /\ interface <> "".

Lemma physical_interfaces_spec devices interface :
  interface ∈ physical_interfaces devices <->
  exists d, d ∈ devices /\ is_physical d = true /\ d.(dv_interface) = Ok interface /\ interface <> "".
Proof.
  unfold physical_interfaces. rewrite elem_of_list_to_set, list_elem_of_omap. split.
  - intros (d & Hd & H). exists d. destruct (is_physical d); [|done]. destruct (dv_interface d) as [i|]; [|done].
    destruct i as [|c i]; [done|]. injection H as <-. by split_and!.
  - intros (d & Hd & Hp & Hi & Hne). exists d. split; [done|]. rewrite Hp, Hi. by destruct interface.
Qed.

(** A default route that the kernel reports for the family over a physical interface, none being preferred to it. *)
Definition best_default_route (s : W) (v6 : bool) (gateway interface : string) : Prop :=
  exists devices stdout values metric,
    nm_devices s = Ok devices /\ ip_default_routes v6 s = Ok (Ok stdout) /\ json_parse stdout = Some (Arr values) /\
    (metric, gateway, interface) ∈ omap (route_of (physical_interfaces devices)) values /\
    forall r, r ∈ omap (route_of (physical_interfaces devices)) values -> route_le (metric, gateway, interface) r = true.

Lemma route_of_physical devices value r : route_of (physical_interfaces devices) value = Some r -> r.2 ∈ physical_interfaces devices.
Proof.
  unfold route_of, opt_then. destruct (jget "dev" value ?> as_str) as [i|]; [|discriminate]. case_bool_decide; [|discriminate].
  intros H'. by injection H' as <-.
Qed.

Lemma family_routes_best s v6 devices o family gateway interface :
  nm_devices s = Ok devices -> family_routes (physical_interfaces devices) v6 s = Ok o ->
  (family, gateway, interface) ∈ route_triple (if v6 then "ipv6" else "ipv4") o ->
  family = (if v6 then "ipv6" else "ipv4") /\ best_default_route s v6 gateway interface /\ physical_interface s interface.
Proof.
  intros Hd H Hin. unfold family_routes in H. destruct (ip_default_routes v6 s) as [[stdout|]|] eqn:Eo; [|discriminate..]. cbn in H.
  destruct (json_parse stdout) as [j|] eqn:Ej; [|discriminate]. cbn in H. destruct j; try discriminate. cbn in H. injection H as <-.
  destruct (min_route None _) as [[[m g] i]|] eqn:Em; [|by apply elem_of_nil in Hin]. cbn in Hin. apply list_elem_of_singleton in Hin.
  injection Hin as -> -> ->. destruct (min_route_spec _ _ _ Em) as [[[=]|Hr] Hmin].
  split_and!; [done| |].
  - exists devices, stdout. eexists _, m. split_and!; [done..|exact Hr|]. intros r Hr'. apply Hmin. by right.
  - apply list_elem_of_omap in Hr as (value & _ & Hv). apply route_of_physical, physical_interfaces_spec in Hv as (d & H).
    exists devices, d. tauto.
Qed.

Lemma resolver_local a text : resolver a = Some text -> exists a, is_local_resolver a = true /\ text = addr_to_string a.
Proof. unfold resolver. intros H. exists a. destruct (is_local_resolver a); [by injection H as <-|discriminate]. Qed.
Lemma device_resolvers_local d text :
  text ∈ device_resolvers d -> exists a, is_local_resolver a = true /\ text = addr_to_string a.
Proof.
  unfold device_resolvers. destruct (is_physical d); cbn [negb]; [|by intros ?%elem_of_nil]. intros [H|H]%elem_of_app.
  - destruct (dv_ip4 d) as [c|]; [|by apply elem_of_nil in H]. apply elem_of_app in H as [H|H]; apply list_elem_of_omap in H as (x & _ & H).
    + destruct (x ?> addr_from_str) as [a|]; [|discriminate]. by apply resolver_local in H.
    + by apply resolver_local in H.
  - destruct (dv_ip6 d) as [c|]; [|by apply elem_of_nil in H]. apply list_elem_of_omap in H as (x & _ & H).
    destruct (length x =? 16)%nat; [|discriminate]. by apply resolver_local in H.
Qed.

(** What may go past the tunnel.  The routes handed to the privileged daemon for split tunnelling under the kill switch are, for
    each address family at most one, a default route of the kernel over an activated Ethernet or Wi-Fi interface, of the lowest
    metric there is; having none is an error, never an empty bypass.  The name servers that may be asked directly are private,
    link-local or loopback addresses, whatever the network announces. *)
Theorem bypass_is_physical s :
  (forall routes s' seen, physical_default_routes s = (Done (Ok routes), s', seen) ->
     s' = s /\ routes <> [] /\ (length routes <= 2)%nat /\
     forall family gateway interface, (family, gateway, interface) ∈ routes ->
       physical_interface s interface /\
       exists v6 : bool, family = (if v6 then "ipv6" else "ipv4") /\ best_default_route s v6 gateway interface) /\
  (forall servers s' seen, physical_dns_servers s = (Done (Ok servers), s', seen) ->
     s' = s /\ NoDup servers /\
     forall text, text ∈ servers -> exists a, is_local_resolver a = true /\ text = addr_to_string a).
Proof.
  split.
  - intros routes s' seen H. unfold physical_default_routes, nm_bind, system_bus, devices_for, nm_read, nm_throw, nm_ret in H.
    destruct (nm_bus s) as [[]|]; [|discriminate]. cbn -[family_routes physical_interfaces] in H.
    destruct (nm_devices s) as [devices|] eqn:Ed; [|discriminate]. cbn -[family_routes physical_interfaces] in H.
    destruct (family_routes _ false s) as [v4|] eqn:E4; [|discriminate]. destruct (family_routes _ true s) as [v6|] eqn:E6; [|discriminate].
    assert (Hr : routes = route_triple "ipv4" v4 ++ route_triple "ipv6" v6 /\ routes <> [] /\ s' = s).
    { destruct (route_triple "ipv4" v4 ++ route_triple "ipv6" v6); [discriminate|]. by injection H as <- <- _. }
    destruct Hr as (-> & Hne & ->). split_and!; [done|done|destruct v4 as [[[]]|], v6 as [[[]]|]; cbn; lia|].
    intros family gateway interface [Hin|Hin]%elem_of_app.
    + destruct (family_routes_best s false _ _ _ _ _ Ed E4 Hin) as (? & ? & ?). split; [done|]. by exists false.
    + destruct (family_routes_best s true _ _ _ _ _ Ed E6 Hin) as (? & ? & ?). split; [done|]. by exists true.
  - intros servers s' seen H. unfold physical_dns_servers, nm_bind, system_bus, devices_for, nm_read, nm_ret in H.
    destruct (nm_bus s) as [[]|]; [|discriminate]. cbn -[sorted_set] in H.
    destruct (nm_devices s) as [devices|] eqn:Ed; [|discriminate]. cbn -[sorted_set] in H. injection H as <- <- _.
    unfold sorted_set. split_and!; [done|rewrite merge_sort_Permutation; apply NoDup_elements|].
    intros text Ht. rewrite merge_sort_Permutation, elem_of_elements, elem_of_list_to_set in Ht.
    apply list_elem_of_In, in_concat in Ht as (l & Hl & Ht). apply in_map_iff in Hl as (d & <- & _). apply list_elem_of_In in Ht.
    by apply device_resolvers_local in Ht.
Qed.

End Properties.

(** ** A concrete network: two default routes over [eth0] and one over a tunnel *)
Definition route_json (dev gateway : string) (metric : Z) : json :=
  jobj [("dev", Str dev); ("gateway", Str gateway); ("metric", jnum metric)].
Definition routes_text : JsonText := mkJsonText (fun _ => "")
  (fun text => if String.eqb text "v4" then Some (Arr [route_json "tun0" "10.8.0.1" 50; route_json "eth0" "192.168.1.254" 200; route_json "eth0" "192.168.1.1" 100])
               else Some (Arr [])) (fun _ _ => "").
#[export] Instance example_devices : Devices example_system := {
  sys_net _ := Some [("tun0", Some "unknown"); ("eth0", Some "up")];
  ip_default_routes v6 _ := Ok (Ok (if v6 then "v6" else "v4")) }.

Lemma bypass_is_physical_witness :
  exists routes seen, physical_default_routes (J := routes_text) example_state = (Done (Ok routes), example_state, seen) /\
    routes = [("ipv4", "192.168.1.1", "eth0")] /\ physical_interface example_state "eth0".
Proof.
  exists [("ipv4", "192.168.1.1", "eth0")], []. 
  assert (H : physical_default_routes (J := routes_text) example_state = (Done (Ok [("ipv4", "192.168.1.1", "eth0")]), example_state, [])) by reflexivity.
  split_and!; [exact H|reflexivity|].
  destruct (proj1 (bypass_is_physical (J := routes_text) (L := example_lib) example_state) _ _ _ H) as (_ & _ & _ & HP).
  by destruct (HP "ipv4" "192.168.1.1" "eth0" ltac:(by left)).
Defined.
