(* ===== verification/Lifecycle.v ===== *)
(** Reconnecting after a suspension and after a lost tunnel, and watching the Wi-Fi
    ([agent/src/native_backend/lifecycle.rs]).

    The tasks look at the same surroundings as the automatic connection, under a client name of their own:
    [reconnect_after_resume], [monitor_connection] and [handle_sleep_signals] are functions of one history.
    [monitor_wifi] turns what NetworkManager answers into the published snapshot. *)
From S2P Require Import NetDevices.
From S2P Require Export Autoconnect.
Open Scope string_scope.
Open Scope Z_scope.
Open Scope list_scope.
Open Scope rust_scope.

Definition LIFECYCLE_CLIENT_ID : string := "agent-lifecycle".
(** In seconds. *)
Definition RESUME_RETRY_DELAYS : list Z := [0; 1; 2; 4; 8; 15].

Definition sequence_interrupted (s : StateSnapshot) (initial : gset string) : bool :=
  connection_sequence_interrupted s initial LIFECYCLE_CLIENT_ID.
Definition vpn_is_active (s : StateSnapshot) : bool := live s.
Definition should_reconnect (was_active auto_connect : bool) : bool := was_active || auto_connect.
Definition account_signed_in (s : StateSnapshot) : bool := signed_in s.(ss_account).(acc_status).

Definition selection (was_active : bool) : json :=
  if was_active then jobj [("selection", jobj [("type", Str "last")])] else jobj [].

Section Lifecycle.
Context (env : surroundings).

(** [!was_active && !store.auto_connect_enabled()]: the switch is looked at only when it matters. *)
Definition switched_off (was_active : bool) : St bool :=
  if was_active then st_ret false else let% on := enabled env in st_ret (negb on).

(** The wait before an attempt, through [wakes] state changes: whether the task gives up. *)
Fixpoint resume_wait (initial : gset string) (was_active : bool) (wakes : nat) : St bool :=
  let% s := look env in
  if sequence_interrupted s initial then st_ret true
  else
    let% off := switched_off was_active in
    if off : bool then st_ret true
    else
      match wakes with
      | O => st_ret false
      | S wakes =>
          let% closed := tick (closed_at env) in
          if closed : bool then st_ret true else resume_wait initial was_active wakes
      end.

Definition pause (initial : gset string) (was_active : bool) (delay : Z) : St bool :=
  if delay =? 0 then st_ret false
  else
    let% _ := note (SleepStarted delay) in
    let% wakes := tick (wakes_at env) in
    resume_wait initial was_active wakes.

Definition record_recent (resolved : json) : St unit :=
  match jget "recent" resolved with
  | Some recent => let% _ := ask_store env "recents.record" (jobj [("recent", recent)]) in st_ret tt
  | None => st_ret tt
  end.

(** One turn of the loop after its pause: whether another one follows. *)
Definition resume_once (initial : gset string) (was_active : bool) : St bool :=
  let% s := look env in
  if sequence_interrupted s initial then st_ret false
  else
    let% s := look env in
    if negb (account_signed_in s) then st_ret true
    else
      let% off := switched_off was_active in
      if off : bool then st_ret false
      else
        let% observed := ask_backend env "connection.observe" (jobj []) in
        if negb (is_ok observed) then st_ret true
        else
          let% s := look env in
          if vpn_is_active s then st_ret false
          else
            let% s := look env in
            if sequence_interrupted s initial then st_ret false
            else
              let% off := switched_off was_active in
              if off : bool then st_ret false
              else
                let% resolved := ask_store env "connection.resolve" (selection was_active) in
                match resolved with
                | Err _ => st_ret true
                | Ok resolved =>
                    let% r := ask_backend env "connection.connect" (unwrap_or (jget "connect_params" resolved) (jobj [])) in
                    match r with
                    | Ok _ => let% _ := record_recent resolved in st_ret false
                    | Err error => st_ret (error.(err_retryable) && negb (is_cancelled_error error.(err_code)))
                    end
                end.

Fixpoint resume_attempts (initial : gset string) (was_active : bool) (delays : list Z) : St unit :=
  match delays with
  | [] => st_ret tt
  | delay :: delays =>
      let% stop := pause initial was_active delay in
      if stop : bool then st_ret tt
      else
        let% more := resume_once initial was_active in
        if more : bool then resume_attempts initial was_active delays else st_ret tt
  end.

Definition reconnect_after_resume (was_active : bool) : St unit :=
  let% on := enabled env in
  if negb (should_reconnect was_active on)
  then let% _ := ask_backend env "connection.observe" (jobj []) in st_ret tt
  else
    let% s := look env in
    resume_attempts (recent_operation_ids s) was_active RESUME_RETRY_DELAYS.

(** ** The connection monitor *)
Definition own_tunnel (observed : json) : bool :=
  bool_decide (jget "status" observed ?> as_str = Some "connected") && bool_decide (jget "owned" observed ?> as_bool = Some true).
Definition tunnel_lost (observed : json) : bool :=
  bool_decide (jget "status" observed ?> as_str = Some "disconnected") || bool_decide (jget "status" observed ?> as_str = Some "error").
Definition other_tunnel (observed : json) : bool :=
  bool_decide (jget "status" observed ?> as_str = Some "connected") && negb (own_tunnel observed).

(** One tick of [monitor_connection]; the state is [owned_operations]. *)
Definition monitor_turn (owned : option (gset string)) : St (option (gset string)) :=
  let% before := look env in
  if negb (account_signed_in before) then st_ret None
  else if negb (bool_decide (before.(ss_operations).(os_active) = [])) then st_ret owned
  else
    let% observed := ask_backend env "connection.observe" (jobj []) in
    match observed with
    | Err _ => st_ret owned
    | Ok observed =>
        if own_tunnel observed then st_ret (Some (recent_operation_ids before))
        else if tunnel_lost observed then
          match owned with
          | None => st_ret None
          | Some baseline =>
              let% s := look env in
              if sequence_interrupted s baseline then st_ret None
              else let% _ := reconnect_after_resume true in st_ret None
          end
        else if other_tunnel observed then st_ret None
        else st_ret owned
    end.
Fixpoint monitor_connection (n : nat) (owned : option (gset string)) : St (option (gset string)) :=
  match n with
  | O => st_ret owned
  | S n => let% owned := monitor_turn owned in monitor_connection n owned
  end.

(** ** Suspension *)

(** A signal of [handle_sleep_signals]; the state is [active_before_sleep]. *)
Definition sleep_signal (sleeping : bool) (before : option bool) : St (option bool) :=
  if sleeping then let% s := look env in st_ret (Some (vpn_is_active s))
  else
    match before with
    | None => st_ret None
    | Some was_active => let% _ := reconnect_after_resume was_active in st_ret None
    end.
Fixpoint handle_sleep_signals (signals : list bool) (before : option bool) : St (option bool) :=
  match signals with
  | [] => st_ret before
  | sleeping :: signals => let% before := sleep_signal sleeping before in handle_sleep_signals signals before
  end.
End Lifecycle.

(** ** Wi-Fi security *)
#[global] Instance WifiSecurityObservation_eq_dec : EqDecision WifiSecurityObservation.
Proof. solve_decision. Defined.

Definition revised (s : StateSnapshot) : StateSnapshot := set_ss_revision (wrapping_add 64 s.(ss_revision) 1) s.

(** One tick of [monitor_wifi], with what NetworkManager answered; the state is [previous]. *)
Definition wifi_turn (result : NativeResult (option WifiSecurityObservation)) (s : StateSnapshot)
    (previous : option WifiSecurityObservation) : StateSnapshot * option WifiSecurityObservation :=
  let network := s.(ss_network_security) in
  match result with
  | Ok current =>
      let changed := negb (bool_decide (current = previous)) in
      let connected := match current with Some _ => true | None => false end in
      let insecure := match current with Some observation => negb observation.(wf_secure) | None => false end in
      let publish := negb network.(ns_known) || negb (Bool.eqb network.(ns_wifi_connected) connected)
                     || negb (Bool.eqb network.(ns_insecure_wifi) insecure) || changed in
      (if publish
       then revised (set_ss_network_security
              (mkNetworkSecurityState true connected insecure
                 (if changed then wrapping_add 64 network.(ns_generation) 1 else network.(ns_generation))) s)
       else s, current)
  | Err _ =>
      (if network.(ns_known)
       then revised (set_ss_network_security
              (mkNetworkSecurityState false network.(ns_wifi_connected) network.(ns_insecure_wifi) network.(ns_generation)) s)
       else s, previous)
  end.
Fixpoint monitor_wifi (results : list (NativeResult (option WifiSecurityObservation))) (s : StateSnapshot)
    (previous : option WifiSecurityObservation) : StateSnapshot * option WifiSecurityObservation :=
  match results with
  | [] => (s, previous)
  | result :: results => let '(s, previous) := wifi_turn result s previous in monitor_wifi results s previous
  end.

(** ** What the tasks may do *)
Section Facts.
Context (env : surroundings).

(** The situation in which a reconnection may be requested: in this order the task saw a signed-in account, an
    answer to [connection.observe], no tunnel up or coming up, no interruption since [initial] and, unless a
    tunnel was up before, the switch on; and the store resolved the parameters. *)
Definition resume_allowed (initial : gset string) (was_active : bool) (t : nat) (params : json) : Prop :=
  exists t1 t2 t3 t4 t5 t6 resolved,
    (t1 < t2 /\ t2 < t3 /\ t3 < t4 /\ t4 < t5 /\ t5 <= t6 /\ t6 < t)%nat /\
    account_signed_in (env.(state_at) t1) = true /\
    is_ok (env.(backend_at) t2 "connection.observe" (jobj [])) = true /\
    vpn_is_active (env.(state_at) t3) = false /\
    sequence_interrupted (env.(state_at) t4) initial = false /\
    (was_active = true \/ env.(enabled_at) t5 = true) /\
    env.(store_at) t6 "connection.resolve" (selection was_active) = Ok resolved /\
    params = unwrap_or (jget "connect_params" resolved) (jobj []).

Definition resume_event (from : nat) (initial : gset string) (was_active : bool) (e : auto_event) : Prop :=
  match e with
  | AskedBackend t method params => method = "connection.connect" -> (from <= t)%nat /\ resume_allowed initial was_active t params
  | _ => True
  end.
(** The request failed, may be repeated and was not cancelled. *)
Definition repeatable (e : auto_event) : Prop :=
  match e with
  | AskedBackend t method params =>
      exists error, env.(backend_at) t method params = Err error /\ error.(err_retryable) = true /\
        is_cancelled_error error.(err_code) = false
  | _ => True
  end.
(** A connection is followed by another one only when it is repeatable. *)
Fixpoint patient (l : list auto_event) : Prop :=
  match l with
  | [] => True
  | e :: l => (is_connect e = true -> connects l <> 0%nat -> repeatable e) /\ patient l
  end.

Lemma patient_app l l' :
  patient l -> patient l' -> (connects l' <> 0%nat -> Forall (fun e => is_connect e = true -> repeatable e) l) -> patient (l ++ l').
Proof.
  induction l as [|e l IH]; intros Hl Hl' Hr; [done|]. destruct Hl as [He Hl]. split.
  - intros Hc Hn. destruct (decide (connects l' = 0%nat)) as [E|E].
    + apply He; [done|]. rewrite connects_app in Hn. lia.
    + specialize (Hr E). inversion Hr; subst. by auto.
  - apply IH; [done..|]. intros E. specialize (Hr E). by inversion Hr.
Qed.
Lemma patient_one l : (connects l <= 1)%nat -> patient l.
Proof.
  induction l as [|e l IH]; intros H; [done|]. unfold connects in *. cbn in *.
  destruct (is_connect e); cbn in *; (split; [|apply IH; unfold connects; lia]); [intros _ Hn; unfold connects in Hn; lia|done].
Qed.

(** A run that appends [l] and takes the clock from [t] to [t']. *)
Definition yields {A : Type} (m : St A) (t : nat) (Q : A -> list auto_event -> nat -> Prop) : Prop :=
  forall lg, exists l t', (m (mkCursor t lg)).2 = mkCursor t' (lg ++ l) /\ (t <= t')%nat /\ Q (m (mkCursor t lg)).1 l t'.

Lemma yields_ret {A : Type} (a : A) t (Q : A -> list auto_event -> nat -> Prop) : Q a [] t -> yields (st_ret a) t Q.
Proof. intros HQ lg. exists [], t. by rewrite app_nil_r. Qed.
Lemma yields_look {A B : Type} (f : nat -> A) (k : A -> St B) t Q :
  yields (k (f t)) (S t) Q -> yields (st_bind (tick f) k) t Q.
Proof. intros H lg. destruct (H lg) as (l & t' & Hr & Ht & HQ). exists l, t'. split_and!; [exact Hr|lia|exact HQ]. Qed.
Lemma yields_note {B : Type} e (k : unit -> St B) t Q :
  yields (k tt) t (fun b l t' => Q b (e :: l) t') -> yields (st_bind (note e) k) t Q.
Proof.
  intros H lg. destruct (H (lg ++ [e])) as (l & t' & Hr & Ht & HQ). exists (e :: l), t'.
  split_and!; [|lia|exact HQ]. unfold st_bind, note. cbn [clock log]. by rewrite Hr, <- app_assoc.
Qed.
Lemma yields_ask {B : Type} method params (k : BackendResult -> St B) t Q :
  yields (k (env.(backend_at) t method params)) (S t) (fun b l t' => Q b (AskedBackend t method params :: l) t') ->
  yields (st_bind (ask_backend env method params) k) t Q.
Proof.
  intros H lg. destruct (H (lg ++ [AskedBackend t method params])) as (l & t' & Hr & Ht & HQ).
  exists (AskedBackend t method params :: l), t'. split_and!; [|lia|exact HQ]. unfold st_bind, ask_backend. cbn [clock log].
  by rewrite Hr, <- app_assoc.
Qed.
Lemma yields_store {B : Type} method params (k : BackendResult -> St B) t Q :
  yields (k (env.(store_at) t method params)) (S t) (fun b l t' => Q b (AskedStore t method params :: l) t') ->
  yields (st_bind (ask_store env method params) k) t Q.
Proof.
  intros H lg. destruct (H (lg ++ [AskedStore t method params])) as (l & t' & Hr & Ht & HQ).
  exists (AskedStore t method params :: l), t'. split_and!; [|lia|exact HQ]. unfold st_bind, ask_store. cbn [clock log].
  by rewrite Hr, <- app_assoc.
Qed.
Lemma yields_bind {A B : Type} (m : St A) (k : A -> St B) t (P : A -> list auto_event -> nat -> Prop) Q :
  yields m t P -> (forall a l t1, (t <= t1)%nat -> P a l t1 -> yields (k a) t1 (fun b l' t2 => Q b (l ++ l') t2)) -> yields (st_bind m k) t Q.
Proof.
  intros Hm Hk lg. destruct (Hm lg) as (l & t1 & Hr & Ht & HP). unfold st_bind. destruct (m (mkCursor t lg)) as [a c]. cbn in *. subst c.
  destruct (Hk _ _ _ Ht HP (lg ++ l)) as (l' & t2 & Hr' & Ht' & HQ). exists (l ++ l'), t2. rewrite Hr', app_assoc. split_and!; [done|lia|done].
Qed.
Lemma yields_mono {A : Type} (m : St A) t (P Q : A -> list auto_event -> nat -> Prop) :
  yields m t P -> (forall a l t', (t <= t')%nat -> P a l t' -> Q a l t') -> yields m t Q.
Proof. intros Hm H lg. destruct (Hm lg) as (l & t' & Hr & Ht & HP). exists l, t'. split_and!; [done|done|by apply H]. Qed.

(** The switch is looked at only without a tunnel to restore. *)
Lemma yields_switch {B : Type} was_active (k : bool -> St B) t Q :
  (forall t1, (t <= t1 <= S t)%nat -> (was_active = true \/ (t1 = S t /\ env.(enabled_at) t = true)) -> yields (k false) t1 Q) ->
  (was_active = false -> yields (k true) (S t) Q) -> yields (st_bind (switched_off env was_active) k) t Q.
Proof.
  intros Hon Hoff. unfold switched_off. destruct was_active.
  - intros lg. apply (Hon t); [lia|by left].
  - intros lg. specialize (Hon (S t)). unfold st_bind, enabled, tick. cbn [clock log].
    destruct (enabled_at env t); cbn [negb]; unfold st_ret; cbn beta iota zeta.
    + destruct (Hon ltac:(lia) ltac:(by right) lg) as (l & t' & ? & ? & ?). exists l, t'. split_and!; [done|lia|done].
    + destruct (Hoff eq_refl lg) as (l & t' & ? & ? & ?). exists l, t'. split_and!; [done|lia|done].
Qed.

(** The log of one turn: at most one connection, a last one that may be repeated if another turn follows. *)
Definition turn_log (from : nat) (initial : gset string) (was_active more : bool) (l : list auto_event) : Prop :=
  Forall (resume_event from initial was_active) l /\ (connects l <= 1)%nat /\ sleeps l = [] /\
  (more = true -> Forall (fun e => is_connect e = true -> repeatable e) l).
Lemma turn_nil from initial was_active more : turn_log from initial was_active more [].
Proof. split_and!; [by apply Forall_nil|unfold connects; simpl; lia|done|intros _; by apply Forall_nil]. Qed.
Lemma turn_entry from initial was_active more e l :
  (forall seconds, e <> SleepStarted seconds) -> is_connect e = false -> resume_event from initial was_active e ->
  turn_log from initial was_active more l -> turn_log from initial was_active more (e :: l).
Proof.
  intros Hs Hc He (H1 & H2 & H3 & H4). split_and!.
  - by constructor.
  - unfold connects in *. cbn. by rewrite Hc.
  - unfold sleeps in *. destruct e; [done..|by destruct (Hs seconds)].
  - intros Hm. constructor; [congruence|by apply H4].
Qed.
Lemma turn_connect from initial was_active more t params l :
  connects l = 0%nat -> sleeps l = [] -> Forall (resume_event from initial was_active) l ->
  (from <= t)%nat -> resume_allowed initial was_active t params ->
  (more = true -> l = [] /\ repeatable (AskedBackend t "connection.connect" params)) ->
  turn_log from initial was_active more (AskedBackend t "connection.connect" params :: l).
Proof.
  intros H1 H2 H3 Hf Ha Hm. split_and!.
  - by constructor.
  - unfold connects in *. cbn. lia.
  - exact H2.
  - intros E. destruct (Hm E) as [-> Hr]. by repeat constructor.
Qed.

Ltac entries := repeat (apply turn_entry; [by intros|done|done|]).
Ltac quiet_turn := apply yields_ret; entries; apply turn_nil.

Lemma resume_once_log initial was_active t :
  yields (resume_once env initial was_active) t (fun more l _ => turn_log t initial was_active more l).
Proof.
  unfold resume_once. apply yields_look. destruct (sequence_interrupted _ initial); [by apply yields_ret, turn_nil|].
  apply yields_look. destruct (account_signed_in _) eqn:E1; cbn [negb]; [|by apply yields_ret, turn_nil].
  apply yields_switch; [|by intros _; apply yields_ret, turn_nil]. intros t1 Ht1 _.
  apply yields_ask. destruct (is_ok _) eqn:E2; cbn [negb]; [|quiet_turn].
  apply yields_look. destruct (vpn_is_active _) eqn:E3; [quiet_turn|].
  apply yields_look. destruct (sequence_interrupted (state_at env (S (S t1))) initial) eqn:E4; [quiet_turn|].
  apply yields_switch; [|intros _; quiet_turn]. intros t2 Ht2 Hon.
  apply yields_store. destruct (store_at env t2 _ _) as [resolved|error] eqn:E5;
    [|quiet_turn].
  assert (Ha : resume_allowed initial was_active (S t2) (unwrap_or (jget "connect_params" resolved) (jobj []))).
  { exists (S t), t1, (S t1), (S (S t1)), (if was_active then t2 else S (S (S t1))), t2, resolved.
    split; [destruct was_active; lia|]. do 4 (split; [done|]). split; [|done].
    destruct Hon as [->|[-> Hon]]; [by left|]. destruct was_active; [by left|by right]. }
  apply yields_ask. destruct (backend_at env (S t2) _ _) as [answer|error] eqn:E6.
  - unfold record_recent. destruct (jget "recent" resolved) as [recent|]; [|apply yields_ret; entries; apply turn_connect; [done|done|by apply Forall_nil|lia|done|discriminate]].
    apply yields_bind with (P := fun _ l _ => l = [AskedStore (S (S t2)) "recents.record" (jobj [("recent", recent)])]).
    + apply yields_store. by apply yields_ret.
    + intros _ l t3 _ ->. apply yields_ret. entries.
      apply turn_connect; [done|done|by repeat constructor|lia|done|discriminate].
  - apply yields_ret. entries.
    apply turn_connect; [done|done|by apply Forall_nil|lia|done|]. intros [Hr Hc]%andb_true_iff. apply negb_true_iff in Hc.
    split; [done|]. by exists error.
Qed.

Lemma resume_wait_log initial was_active wakes t : yields (resume_wait env initial was_active wakes) t (fun _ l _ => l = []).
Proof.
  revert t. induction wakes as [|wakes IH]; intros t; cbn [resume_wait]; apply yields_look;
    (destruct (sequence_interrupted _ _); [by apply yields_ret|]); (apply yields_switch; [|by intros _; apply yields_ret]); intros t1 _ _;
    [by apply yields_ret|]. apply yields_look. destruct (closed_at env t1); [by apply yields_ret|]. apply IH.
Qed.
Definition paused (delay : Z) : list auto_event := if delay =? 0 then [] else [SleepStarted delay].
Lemma pause_log initial was_active delay t : yields (pause env initial was_active delay) t (fun _ l _ => l = paused delay).
Proof.
  unfold pause, paused. destruct (delay =? 0); [by apply yields_ret|]. apply yields_note, yields_look.
  eapply yields_mono; [apply resume_wait_log|]. by intros _ l t' _ ->.
Qed.

(** The log of the remaining attempts. *)
Definition resume_log (from : nat) (initial : gset string) (was_active : bool) (delays : list Z) (l : list auto_event) : Prop :=
  Forall (resume_event from initial was_active) l /\ (connects l <= length delays)%nat /\
  sleeps l `prefix_of` retain (fun d => negb (d =? 0)) delays /\ patient l.
Lemma resume_nil from initial was_active delays : resume_log from initial was_active delays [].
Proof. split_and!; [by apply Forall_nil|unfold connects; simpl; lia|apply prefix_nil|done]. Qed.
Lemma resume_pause from initial was_active delay delays l :
  Forall (resume_event from initial was_active) l -> (connects l <= S (length delays))%nat ->
  sleeps l `prefix_of` retain (fun d => negb (d =? 0)) delays -> patient l ->
  resume_log from initial was_active (delay :: delays) (paused delay ++ l).
Proof.
  intros H1 H2 H3 H4. unfold paused, resume_log. cbn [retain length filter]. destruct (delay =? 0) eqn:E; cbn [negb app].
  - by split_and!.
  - split_and!; [by constructor|done| |by split].
    change (sleeps (SleepStarted delay :: l)) with (delay :: sleeps l). by apply prefix_cons.
Qed.
Lemma resume_turn from initial was_active delay delays l l' :
  turn_log from initial was_active true l -> resume_log from initial was_active delays l' ->
  resume_log from initial was_active (delay :: delays) (paused delay ++ l ++ l').
Proof.
  intros (H1 & H2 & H3 & H4) (H1' & H2' & H3' & H4'). apply resume_pause.
  - by apply Forall_app.
  - rewrite connects_app. lia.
  - by rewrite sleeps_app, H3.
  - apply patient_app; [by apply patient_one|done|intros _; by apply H4].
Qed.
Lemma resume_last from initial was_active more delay delays l :
  turn_log from initial was_active more l -> resume_log from initial was_active (delay :: delays) (paused delay ++ l).
Proof.
  intros (H1 & H2 & H3 & _). apply resume_pause; [done|lia| |by apply patient_one]. rewrite H3. apply prefix_nil.
Qed.
Lemma turn_later from from' initial was_active more l :
  (from <= from')%nat -> turn_log from' initial was_active more l -> turn_log from initial was_active more l.
Proof.
  intros Hf (H1 & H2). split; [|done]. eapply Forall_impl; [exact H1|]. intros [t method params|? ? ?|?]; [|done..].
  cbn. intros Hx Hm. destruct (Hx Hm). split; [lia|done].
Qed.

Lemma resume_attempts_log from initial was_active delays t :
  (from <= t)%nat -> yields (resume_attempts env initial was_active delays) t (fun _ l _ => resume_log from initial was_active delays l).
Proof.
  revert t. induction delays as [|delay delays IH]; intros t Hf; cbn [resume_attempts]; [by apply yields_ret, resume_nil|].
  eapply yields_bind; [apply pause_log|]. intros stop l0 t0 Ht0 ->. destruct stop.
  { apply yields_ret. eapply resume_last, turn_nil. Unshelve. exact false. }
  eapply yields_bind; [apply resume_once_log|]. intros more l1 t1 Ht1 Hl1.
  apply (turn_later from) in Hl1; [|lia]. destruct more.
  - eapply yields_mono; [apply IH; lia|]. intros ? l t' _ Hl. by apply resume_turn.
  - apply yields_ret. rewrite app_nil_r. by eapply resume_last.
Qed.

Lemma reconnect_log was_active t :
  yields (reconnect_after_resume env was_active) t (fun _ l _ =>
    if should_reconnect was_active (enabled_at env t)
    then resume_log t (recent_operation_ids (state_at env (S t))) was_active RESUME_RETRY_DELAYS l
    else l = [AskedBackend (S t) "connection.observe" (jobj [])]).
Proof.
  unfold reconnect_after_resume. apply yields_look. destruct (should_reconnect was_active (enabled_at env t)); cbn [negb].
  - apply yields_look. apply resume_attempts_log. lia.
  - apply yields_ask. by apply yields_ret.
Qed.

(** ** The monitor's memory *)

(** The observation at [t] found the backend's own tunnel up, and [baseline] holds the operations known before it. *)
Definition owned_at (t : nat) (baseline : gset string) : Prop :=
  exists observed, env.(backend_at) (S t) "connection.observe" (jobj []) = Ok observed /\ own_tunnel observed = true /\
    account_signed_in (env.(state_at) t) = true /\ baseline = recent_operation_ids (env.(state_at) t).
(** What the monitor remembers, it has seen since [from]. *)
Definition remembers (from : nat) (owned : option (gset string)) (now : nat) : Prop :=
  match owned with None => True | Some baseline => exists t, (from <= t /\ S t < now)%nat /\ owned_at t baseline end.

(** A connection requested by the monitor: its own tunnel was up, was later found lost, and nothing had
    interrupted in between. *)
Definition monitor_event (from : nat) (e : auto_event) : Prop :=
  match e with
  | AskedBackend t method params => method = "connection.connect" ->
      exists t0 t1 t2 baseline initial observed,
        (from <= t0 /\ t0 < t1 /\ t1 < t2 /\ t2 < t)%nat /\ owned_at t0 baseline /\
        env.(backend_at) t1 "connection.observe" (jobj []) = Ok observed /\ tunnel_lost observed = true /\
        sequence_interrupted (env.(state_at) t2) baseline = false /\
        resume_allowed initial true t params
  | _ => True
  end.

Lemma monitor_turn_log from owned t :
  (from <= t)%nat -> remembers from owned t ->
  yields (monitor_turn env owned) t (fun owned l t' => Forall (monitor_event from) l /\ remembers from owned t').
Proof.
  intros Hf Hm. assert (Hkeep : forall t' : nat, (t <= t')%nat -> remembers from owned t').
  { intros t' Ht. destruct owned as [b|]; [|done]. destruct Hm as (t0 & H1 & H2). exists t0. split; [lia|done]. }
  unfold monitor_turn. apply yields_look. destruct (account_signed_in _) eqn:E0; cbn [negb]; [|by apply yields_ret].
  destruct (bool_decide _); cbn [negb]; [|by apply yields_ret; split; [|apply Hkeep; lia]].
  apply yields_ask. destruct (backend_at env (S t) _ _) as [observed|] eqn:E1;
    [|by apply yields_ret; split; [repeat constructor|apply Hkeep; lia]].
  destruct (own_tunnel observed) eqn:E2.
  { apply yields_ret. split; [by repeat constructor|]. exists t. split; [lia|]. by exists observed. }
  destruct (tunnel_lost observed) eqn:E3;
    [|destruct (other_tunnel observed); apply yields_ret; (split; [by repeat constructor|]); [done|apply Hkeep; lia]].
  destruct owned as [baseline|]; [|by apply yields_ret; split; [repeat constructor|]].
  apply yields_look. destruct (sequence_interrupted _ _) eqn:E4; [by apply yields_ret; split; [repeat constructor|]|].
  eapply yields_bind; [apply reconnect_log|]. intros u l t1 Ht1 Hl. apply yields_ret. cbn in Hl. split; [|done].
  rewrite app_nil_r. constructor; [done|]. destruct Hl as [Hl _]. eapply Forall_impl; [exact Hl|].
  intros [t2 method params|? ? ?|?]; [|done..]. cbn. intros Hx Hc. destruct (Hx Hc) as [Ht2 Ha].
  destruct Hm as (t0 & Ht0 & Ho). exists t0, (S t), (S (S t)), baseline, (recent_operation_ids (state_at env (S (S (S (S t)))))), observed.
  split_and!; [lia..|done|done|done|done|done].
Qed.
Lemma monitor_log from owned n t :
  (from <= t)%nat -> remembers from owned t ->
  yields (monitor_connection env n owned) t (fun _ l _ => Forall (monitor_event from) l).
Proof.
  revert owned t. induction n as [|n IH]; intros owned t Hf Hm; cbn [monitor_connection]; [by apply yields_ret, Forall_nil|].
  eapply yields_bind; [by apply monitor_turn_log|]. intros owned' l t1 Ht1 [Hl Hm'].
  eapply yields_mono; [apply IH; [lia|done]|]. intros ? l' t2 _ Hl'. by apply Forall_app.
Qed.

(** ** One reconnection *)

(** What a reconnection begun at [t] asks for: only an observation without a tunnel before and with the switch
    off; otherwise at most six connections, patiently, each in the situation that allows it. *)
Record resumption (was_active : bool) (t : nat) (l : list auto_event) : Prop := mkReconnection {
  rc_off : should_reconnect was_active (env.(enabled_at) t) = false -> l = [AskedBackend (S t) "connection.observe" (jobj [])];
  rc_six : (connects l <= 6)%nat;
  rc_pauses : sleeps l `prefix_of` [1; 2; 4; 8; 15];
  rc_patient : patient l;
  rc_allowed : forall t' params, AskedBackend t' "connection.connect" params ∈ l ->
    (t <= t')%nat /\ resume_allowed (recent_operation_ids (env.(state_at) (S t))) was_active t' params }.

Lemma reconnect_spec was_active t : yields (reconnect_after_resume env was_active) t (fun _ l _ => resumption was_active t l).
Proof.
  eapply yields_mono; [apply reconnect_log|]. intros ? l t' _ Hl.
  destruct (should_reconnect was_active (enabled_at env t)) eqn:E.
  - destruct Hl as (H1 & H2 & H3 & H4). split; [congruence|exact H2|exact H3|exact H4|]. intros t0 params Hin.
    rewrite Forall_forall in H1. by apply (H1 _ Hin).
  - subst l. split; [done|cbn; lia|apply prefix_nil|by split|]. intros t0 params Hin%list_elem_of_singleton. discriminate.
Qed.

(** Nothing stands in the way of a connection. *)
Record clear_way (was_active : bool) (t : nat) : Prop := mkClearWay {
  cw_signed : forall n, account_signed_in (env.(state_at) n) = true;
  cw_down : forall n, vpn_is_active (env.(state_at) n) = false;
  cw_free : forall n, sequence_interrupted (env.(state_at) n) (recent_operation_ids (env.(state_at) (S t))) = false;
  cw_on : forall n, was_active = true \/ env.(enabled_at) n = true;
  cw_observed : forall n, is_ok (env.(backend_at) n "connection.observe" (jobj [])) = true;
  cw_resolved : forall n, is_ok (env.(store_at) n "connection.resolve" (selection was_active)) = true }.

Lemma yields_on {B : Type} was_active (k : bool -> St B) t Q :
  (forall n, was_active = true \/ env.(enabled_at) n = true) ->
  (forall t1, yields (k false) t1 Q) -> yields (st_bind (switched_off env was_active) k) t Q.
Proof.
  intros Hon Hk. unfold switched_off. destruct was_active; [apply Hk|]. destruct (Hon t) as [|Ht]; [done|].
  change (yields (st_bind (tick (enabled_at env)) (fun on => k (negb on))) t Q).
  apply yields_look. rewrite Ht. apply Hk.
Qed.

Lemma clear_way_connects was_active t :
  clear_way was_active t -> yields (reconnect_after_resume env was_active) t (fun _ l _ => (0 < connects l)%nat).
Proof.
  intros [Hs Hd Hf Hon Ho Hr]. unfold reconnect_after_resume. apply yields_look.
  assert (should_reconnect was_active (enabled_at env t) = true) as ->.
  { unfold should_reconnect. destruct (Hon t) as [->| ->]; [done|apply orb_true_r]. }
  cbn [negb]. apply yields_look. change RESUME_RETRY_DELAYS with (0 :: tail RESUME_RETRY_DELAYS).
  generalize (tail RESUME_RETRY_DELAYS). intros rest. cbn [resume_attempts].
  eapply yields_bind; [unfold pause; apply (yields_ret false _ (fun a l _ => a = false /\ l = [])); done|].
  intros stop l0 t0 _ [-> ->]. cbn [app].
  apply yields_bind with (P := fun _ l _ => (0 < connects l)%nat).
  2: { intros more l t1 _ Hl. destruct more; [|apply yields_ret; rewrite app_nil_r; exact Hl].
       eapply yields_mono; [apply (resume_attempts_log 0); lia|]. intros _ l' t2 _ _. rewrite connects_app. lia. }
  unfold resume_once. apply yields_look. rewrite Hf. apply yields_look. rewrite Hs. cbn [negb].
  apply yields_on; [done|]. intros t1. apply yields_ask. rewrite Ho. cbn [negb]. apply yields_look. rewrite Hd.
  apply yields_look. rewrite Hf. apply yields_on; [done|]. intros t2. apply yields_store. specialize (Hr t2).
  destruct (store_at env t2 _ _) as [resolved|]; [|done]. apply yields_ask. destruct (backend_at env _ _ _).
  - eapply yields_bind with (P := fun _ _ _ => True).
    + unfold record_recent. destruct (jget "recent" resolved); [apply yields_store|]; by apply yields_ret.
    + intros _ l t3 _ _. apply yields_ret. unfold connects. cbn. lia.
  - apply yields_ret. unfold connects. cbn. lia.
Qed.

(** ** Suspensions *)
(** The wake-ups among the signals that end a suspension the task has seen begin. *)
Fixpoint wakeups (asleep : bool) (signals : list bool) : nat :=
  match signals with
  | [] => 0
  | true :: signals => wakeups true signals
  | false :: signals => (if asleep then 1 else 0) + wakeups false signals
  end.

(** A connection requested after a suspension that began at [t0], when the tunnel was as recorded, by the
    reconnection that began at the wake-up at [t1]. *)
Definition after_suspension (from : nat) (t : nat) (params : json) : Prop :=
  exists t0 t1, (from <= t0 /\ t0 < t1 /\ t1 <= t)%nat /\
    resume_allowed (recent_operation_ids (env.(state_at) (S t1))) (vpn_is_active (env.(state_at) t0)) t params.

Definition recorded_before (from : nat) (before : option bool) (now : nat) : Prop :=
  match before with
  | None => True
  | Some was_active => exists t0, (from <= t0 < now)%nat /\ was_active = vpn_is_active (env.(state_at) t0)
  end.

Lemma sleep_signal_spec sleeping before t :
  yields (sleep_signal env sleeping before) t (fun after l t' =>
    if sleeping : bool then after = Some (vpn_is_active (env.(state_at) t)) /\ l = [] /\ t' = S t
    else after = None /\
      match before with None => l = [] | Some was_active => resumption was_active t l end).
Proof.
  unfold sleep_signal. destruct sleeping; [by apply yields_look, yields_ret|].
  destruct before as [was_active|]; [|by apply yields_ret].
  eapply yields_bind; [apply reconnect_spec|]. intros ? l t' _ Hl. apply yields_ret. by rewrite app_nil_r.
Qed.

Lemma sleep_signals_spec from signals before t :
  (from <= t)%nat -> recorded_before from before t ->
  yields (handle_sleep_signals env signals before) t (fun _ l _ =>
    (connects l <= 6 * wakeups (if before then true else false) signals)%nat /\
    (forall t' params, AskedBackend t' "connection.connect" params ∈ l -> after_suspension from t' params)).
Proof.
  revert before t. induction signals as [|sleeping signals IH]; intros before t Hf Hb; cbn [handle_sleep_signals].
  { apply yields_ret. split; [unfold connects; cbn; lia|]. by intros ? ? ?%elem_of_nil. }
  eapply yields_bind; [apply sleep_signal_spec|]. intros after l t1 Ht1 Hl. destruct sleeping.
  - destruct Hl as (-> & -> & ->). eapply yields_mono; [apply IH; [lia|]; exists t; split; [lia|done]|]. by intros ? l' t2 _ Hl'.
  - destruct Hl as [-> Hl]. eapply yields_mono; [apply IH; [lia|done]|]. intros ? l' t2 _ [Hn Hc].
    destruct before as [was_active|]; cbn in Hl |- *; [|subst l; by split].
    destruct Hb as (t0 & Ht0 & ->). split; [rewrite connects_app; pose proof (rc_six _ _ _ Hl); lia|].
    intros t' params [Hin|Hin]%elem_of_app; [|by apply Hc]. destruct (rc_allowed _ _ _ Hl t' params Hin) as [Ht' Ha].
    exists t0, t. split; [lia|done].
Qed.

(** ** One tick of the monitor *)
(** The monitor finds lost the tunnel it remembers as its own, and nothing has interrupted since. *)
Definition lost_at (owned : option (gset string)) (t : nat) (baseline : gset string) : Prop :=
  account_signed_in (env.(state_at) t) = true /\ (env.(state_at) t).(ss_operations).(os_active) = [] /\
  owned = Some baseline /\
  sequence_interrupted (env.(state_at) (S (S t))) baseline = false /\
  exists observed, env.(backend_at) (S t) "connection.observe" (jobj []) = Ok observed /\ tunnel_lost observed = true.

Definition one_reconnection (owned' : option (gset string)) (t : nat) (l : list auto_event) : Prop :=
  owned' = None /\ exists l', l = AskedBackend (S t) "connection.observe" (jobj []) :: l' /\ resumption true (S (S (S t))) l'.
Definition only_observed (t : nat) (l : list auto_event) : Prop :=
  l = [] \/ l = [AskedBackend (S t) "connection.observe" (jobj [])].

Lemma lost_not_own observed : tunnel_lost observed = true -> own_tunnel observed = false.
Proof.
  unfold tunnel_lost, own_tunnel. destruct (jget "status" observed ?> as_str) as [s|]; [|done].
  intros H. apply andb_false_iff. left. apply bool_decide_eq_false. intros [= ->]. revert H. by rewrite !bool_decide_eq_false_2.
Qed.

Lemma monitor_turn_spec owned t :
  yields (monitor_turn env owned) t (fun owned' l _ =>
    (exists baseline, lost_at owned t baseline) /\ one_reconnection owned' t l \/
    (forall baseline, ~ lost_at owned t baseline) /\ only_observed t l).
Proof.
  unfold monitor_turn. apply yields_look. destruct (account_signed_in _) eqn:E0; cbn [negb].
  2: { apply yields_ret. right. split; [|by left]. intros b (H & _). congruence. }
  destruct (bool_decide _) eqn:Ea; cbn [negb]; [apply bool_decide_eq_true in Ea|apply bool_decide_eq_false in Ea].
  2: { apply yields_ret. right. split; [|by left]. by intros b (_ & H & _). }
  apply yields_ask. destruct (backend_at env (S t) _ _) as [observed|] eqn:E1.
  2: { apply yields_ret. right. split; [|by right]. intros b (_ & _ & _ & _ & o & H & _). congruence. }
  destruct (own_tunnel observed) eqn:E2.
  { apply yields_ret. right. split; [|by right]. intros b (_ & _ & _ & _ & o & H & Hl).
    assert (o = observed) as -> by congruence. apply lost_not_own in Hl. congruence. }
  destruct (tunnel_lost observed) eqn:E3.
  2: { destruct (other_tunnel observed); apply yields_ret; right; (split; [|by right]); intros b (_ & _ & _ & _ & o & H & Hl); congruence. }
  destruct owned as [baseline|].
  2: { apply yields_ret. right. split; [|by right]. by intros b (_ & _ & H & _). }
  apply yields_look. destruct (sequence_interrupted _ _) eqn:E4.
  { apply yields_ret. right. split; [|by right]. intros b (_ & _ & [= ->] & H & _). congruence. }
  eapply yields_bind; [apply reconnect_spec|]. intros u l t1 Ht1 Hl. apply yields_ret. left. split.
  - exists baseline. split_and!; [done..|]. by exists observed.
  - split; [done|]. exists l. split; [by rewrite app_nil_r|done].
Qed.

End Facts.

(** The published snapshot follows the last answer: known, with the network's state and security, after an
    answer; unknown after a failure.  The generation counts the changes of what was observed, and the revision
    moves exactly when something is published. *)
Lemma wifi_turn_publishes result s previous :
  let '(s', previous') := wifi_turn result s previous in
  match result with
  | Ok current =>
      previous' = current /\ ns_known (ss_network_security s') = true /\
      ns_wifi_connected (ss_network_security s') = match current with Some _ => true | None => false end /\
      ns_insecure_wifi (ss_network_security s') = match current with Some w => negb w.(wf_secure) | None => false end /\
      ns_generation (ss_network_security s') =
        (if decide (current = previous) then ns_generation (ss_network_security s) else wrapping_add 64 (ns_generation (ss_network_security s)) 1)
  | Err _ => previous' = previous /\ ns_known (ss_network_security s') = false /\
      ns_generation (ss_network_security s') = ns_generation (ss_network_security s)
  end /\
  (s' = s \/ ss_revision s' = wrapping_add 64 (ss_revision s) 1).
Proof.
  destruct s as [revision account backend connection location [known wifi insecure generation] features operations store].
  unfold wifi_turn. cbn. destruct result as [current|e].
  - destruct (bool_decide_reflect (current = previous)) as [->|Hc].
    + rewrite decide_True by done. cbn [negb]. rewrite orb_false_r.
      destruct known, wifi, insecure, previous as [[identity []]|]; cbn; split_and!; try done; try (by left); by right.
    + rewrite decide_False by done. cbn [negb]. rewrite orb_true_r. cbn. split_and!; try done. by right.
  - destruct known; cbn; split_and!; try done; [by right|by left].
Qed.

(** ** A suspension with the tunnel up *)
Definition signed_in_state (status : ConnectionStatus) : StateSnapshot :=
  set_ss_connection (mkConnectionState true status None None None None None None None None None None None None false false None None None None None None [])
    (set_ss_account (mkAccountState AccountStatus_SignedIn None None false false false false) StateSnapshot_default).
(** The tunnel is up at first, and down after the suspension; the switch is off. *)
Definition suspended : surroundings :=
  mkSurroundings (fun t => signed_in_state (if (t =? 0)%nat then ConnectionStatus_Connected else ConnectionStatus_Disconnected))
    (fun _ => false) (fun _ _ _ => Ok Null) (fun _ _ _ => Ok (jobj [("connect_params", jobj [("target", Str "CH")])]))
    (fun _ => 0%nat) (fun _ => false).


(** After the suspension nothing stands in the way. *)
Example clear_way_possible :
  clear_way (mkSurroundings (fun _ => signed_in_state ConnectionStatus_Disconnected) suspended.(enabled_at)
    suspended.(backend_at) suspended.(store_at) suspended.(wakes_at) suspended.(closed_at)) true 1.
Proof. split; intros n; first [left; reflexivity|vm_compute; reflexivity]. Qed.
