(* ===== verification/KillSwitch.v ===== *)
(** The kill switch ([reconcile_kill_switch] and [modify_server_route] of
    [agent/src/native_backend/network.rs]): reconciliation ends, puts the one protection asked for in place
    and removes the others, never leaves the network unprotected on the way, and never touches what it does
    not own.  All of it holds over the documented behaviour of NetworkManager, [NmLaws]. *)
From S2P Require Export NetLaws.
From S2P Require Import NetExample.
Open Scope string_scope.
Open Scope Z_scope.
Open Scope list_scope.
Open Scope rust_scope.

Section KillSwitch.
Context {W : Type} {N : NetworkManager W} {LW : NmLaws W} {J : JsonText} {L : IpLib} (username : string) (uid : Z).

(** ** Steps that leave connections and profiles alone *)
Definition same (s s' : W) : Prop := world_of s' = world_of s.
#[local] Instance same_reflexive : Reflexive same.
Proof. by intros s. Qed.
#[local] Instance same_transitive : Transitive same.
Proof. intros s1 s2 s3 H12 H23. unfold same in *. congruence. Qed.

Lemma connectivity_same : along same disable_connectivity_check.
Proof.
  apply along_bind; [apply _|apply along_pure, _|intros enabled]. destruct enabled; [|apply along_ret, _].
  apply along_call. intros s. apply set_check_same.
Qed.

Lemma modify_routes_same ip property devices eligible : along same (modify_routes ip property devices eligible).
Proof.
  revert eligible. induction devices as [|d devices IH]; intros eligible; cbn [modify_routes]; [apply along_ret, _|].
  destruct (eligible_device d) as [gateway|]; [|apply IH]. apply along_bind; [apply _|apply along_pure, _|intros interface].
  apply along_bind; [apply _|apply along_call; intros s; apply modify_same|intros output].
  destruct output; [apply IH|apply along_throw, _].
Qed.

Lemma server_route_same ip add : along same (modify_server_route ip add).
Proof.
  unfold modify_server_route. destruct (is_ipv4_text ip); cbn [negb]; [|apply along_throw, _].
  apply along_bind; [apply _|apply along_pure, _|intros _]. apply along_bind; [apply _|apply along_pure, _|intros devices].
  apply along_bind; [apply _|apply modify_routes_same|intros eligible]. destruct (_ && _); [apply along_throw, _|apply along_ret, _].
Qed.
Lemma opt_route_same ip add : along same (opt_route ip add).
Proof. destruct ip; [apply server_route_same|apply along_ret, _]. Qed.

(** A run that cannot loop. *)
Definition ends {A : Type} (m : NM (W := W) A) : Prop := runs (fun _ => True) m (fun _ _ => True).
Lemma net_ends_bind {A B : Type} (m : NM (W := W) A) (k : A -> NM B) : ends m -> (forall a, ends (k a)) -> ends (nm_bind m k).
Proof. apply runs_bind. Qed.
Lemma ends_read {A : Type} (f : W -> NativeResult A) : ends (nm_read f).
Proof. by apply runs_read. Qed.
Lemma net_ends_call {A : Type} (f : W -> result A string * W) error : ends (nm_call f error).
Proof. by apply runs_call. Qed.
Lemma ends_ret {A : Type} (a : A) : ends (nm_ret (W := W) a).
Proof. by apply runs_ret. Qed.
Lemma ends_throw {A : Type} e : ends (nm_throw (W := W) (A := A) e).
Proof. apply runs_throw. Qed.
#[local] Hint Resolve ends_read net_ends_call ends_ret ends_throw : core.

Lemma keeps_same {A : Type} (m : NM (W := W) A) (I : W -> Prop) :
  along same m -> ends m -> (forall s s', same s s' -> I s -> I s') -> runs I m (fun _ => I).
Proof.
  intros Ha He HI s Hs. specialize (He s Logic.I). destruct (m s) as [[[[a|e]|] s'] seen] eqn:E; [|done|done].
  eapply HI; [by apply (Ha _ _ _ _ E)|done].
Qed.

Lemma blocking_connectivity_ends : ends disable_connectivity_check.
Proof. apply net_ends_bind; [auto|]. intros [|]; auto. Qed.
Lemma blocking_routes_ends ip property devices eligible : ends (modify_routes ip property devices eligible).
Proof.
  revert eligible. induction devices as [|d devices IH]; intros eligible; cbn [modify_routes]; [auto|].
  destruct (eligible_device d) as [gateway|]; [|apply IH]. apply net_ends_bind; [auto|intros interface].
  apply net_ends_bind; [auto|intros output]. destruct output; [apply IH|auto].
Qed.
Lemma opt_route_ends ip add : ends (opt_route ip add).
Proof.
  destruct ip as [ip|]; [|apply ends_ret]. cbn. unfold modify_server_route. destruct (is_ipv4_text ip); cbn [negb]; [|auto].
  apply net_ends_bind; [apply ends_read|intros _]. apply net_ends_bind; [auto|intros devices].
  apply net_ends_bind; [apply blocking_routes_ends|intros eligible]. destruct (_ && _); auto.
Qed.

(** ** Putting a protection in place *)

(** A connection with this id is active. *)
Definition up (id : string) (s : W) : Prop := exists a, a ∈ actives s /\ a.(ac_id) = Some id.

Lemma up_same id s s' : same s s' -> up id s -> up id s'.
Proof. unfold same, up, actives. by intros ->. Qed.
Lemma cleared_same id s s' : same s s' -> cleared id s -> cleared id s'.
Proof. unfold same, cleared, runs_owned, actives, profiles. by intros ->. Qed.
Lemma up_sheds id id' s s' : id <> id' -> sheds id' s s' -> up id s -> up id s'.
Proof.
  intros Hne H (a & Ha & Hi). destruct (sh_kept _ _ _ H a Ha) as [Ha'|[Hi' _]]; [by exists a|congruence].
Qed.

Lemma active_by_id_spec id s o s' seen :
  active_connection_by_id id s = (Done (Ok o), s', seen) ->
  s' = s /\ seen = [] /\ match o with Some _ => up id s | None => ~ up id s end.
Proof.
  unfold active_connection_by_id, active_connections, nm_bind, nm_read, nm_ret.
  destruct (nm_active s) as [l|] eqn:E; [|discriminate]. cbn. intros H. injection H as <- <- <-. split_and!; [done..|].
  apply reads_active in E as ->. destruct (find_first _ _) as [a|] eqn:F; cbn.
  - apply find_first_Some in F as [Ha Hi%bool_decide_eq_true]. by exists a.
  - intros (a & Ha & Hi). apply find_first_None in F. eapply Forall_forall in F; [|exact Ha]. cbn in F.
    by rewrite bool_decide_eq_true_2 in F.
Qed.

Lemma stored_by_id_spec id s :
  match settings_connection_by_id_owned id s with
  | (Done (Ok (Some c)), s', seen) => s' = s /\ seen = [] /\ exists st, profiles s !! c = Some st /\ owned_with_id id st = true
  | (Done _, s', seen) => s' = s /\ seen = []
  | (Running, _, _) => False
  end.
Proof.
  unfold settings_connection_by_id_owned, list_connections, nm_bind, nm_read.
  destruct (nm_profiles s) as [l|] eqn:E; [|done]. cbn. destruct (find_first _ l) as [c|] eqn:F; [|done].
  split_and!; [done..|]. apply find_first_Some in F as [_ Hc]. rewrite reads_settings in Hc. unfold profiles.
  destruct (w_profiles (world_of s) !! c) as [st|]; [|done]. by exists st.
Qed.

(** Only connections and profiles with this id have been added, the profiles owned. *)
Record grows (id : string) (s s' : W) : Prop := mkGrows {
  gr_active : forall a, a ∈ actives s -> a ∈ actives s';
  gr_new : forall a, a ∈ actives s' -> a ∈ actives s \/ a.(ac_id) = Some id;
  gr_profiles : forall c st, profiles s !! c = Some st -> profiles s' !! c = Some st;
  gr_stored : forall c st, profiles s' !! c = Some st -> profiles s !! c = Some st \/ owned_with_id id st = true }.
#[local] Instance grows_reflexive id : Reflexive (grows id).
Proof. intros s. split; auto. Qed.
#[local] Instance grows_transitive id : Transitive (grows id).
Proof.
  intros s1 s2 s3 H12 H23. split.
  - intros a Ha. by apply (gr_active _ _ _ H23), (gr_active _ _ _ H12).
  - intros a Ha. destruct (gr_new _ _ _ H23 a Ha) as [H|H]; [by apply (gr_new _ _ _ H12)|by right].
  - intros c st Hc. by apply (gr_profiles _ _ _ H23), (gr_profiles _ _ _ H12).
  - intros c st Hc. destruct (gr_stored _ _ _ H23 c st Hc) as [H|H]; [by apply (gr_stored _ _ _ H12)|by right].
Qed.
Lemma grows_same id s s' : same s s' -> grows id s s'.
Proof. unfold same. intros H. split; unfold actives, profiles; rewrite H; auto. Qed.

Lemma activate_grows id c st o s :
  profiles s !! c = Some st -> owned_with_id id st = true ->
  match nm_activate c o s with
  | (Ok _, s') => grows id s s' /\ up id s' /\ (length (actives s') <= S (length (actives s)))%nat
  | (Err _, s') => same s s'
  end.
Proof.
  intros Hc Ho. pose proof (activate_effect c o s) as H. destruct (nm_activate c o s) as [[p|e] s']; [|done].
  destruct H as (a & _ & _ & Hi & H). specialize (Hi st Hc). unfold owned_with_id in Ho.
  apply andb_true_iff in Ho as [Hid%bool_decide_eq_true _]. rewrite Hid in Hi. unfold up. split_and!.
  - split; unfold actives, profiles; rewrite H; cbn; auto.
    + intros b Hb. apply elem_of_app. by left.
    + intros b Hb. apply elem_of_app in Hb as [Hb|Hb]; [by left|]. apply list_elem_of_singleton in Hb as ->. by right.
  - exists a. split; [|done]. unfold actives. rewrite H. apply elem_of_app. right. by apply list_elem_of_singleton.
  - unfold actives. rewrite H. cbn. rewrite length_app. cbn. lia.
Qed.

Lemma add_grows id b st s :
  owned_with_id id st = true ->
  match nm_add b st s with
  | (Ok c, s') => grows id s s' /\ profiles s' !! c = Some st /\ actives s' = actives s
  | (Err _, s') => same s s'
  end.
Proof.
  intros Ho. pose proof (add_effect b st s) as H. destruct (nm_add b st s) as [[c|e] s']; [|done]. destruct H as [Hn H].
  unfold actives, profiles. rewrite H. cbn. split_and!; [|by rewrite lookup_insert_eq|done].
  split; unfold actives, profiles; rewrite H; cbn; auto.
  - intros c' st' Hc'. destruct (decide (c = c')) as [<-|Hne]; [congruence|by rewrite lookup_insert_ne].
  - intros c' st' Hc'. destruct (decide (c = c')) as [<-|Hne].
    + rewrite lookup_insert_eq in Hc'. injection Hc' as <-. by right.
    + rewrite lookup_insert_ne in Hc' by done. by left.
Qed.

(** The profile [ensure_active] goes on with: a stored one, or the new one. *)
Lemma profile_for_spec id persistent st create s r s' seen :
  owned_with_id id st = true ->
  profile_for id persistent st create s = (r, s', seen) ->
  r <> Running /\ grows id s s' /\ Forall (grows id s) seen /\ actives s' = actives s /\
  (forall c, r = Done (Ok c) -> exists st', profiles s' !! c = Some st' /\ owned_with_id id st' = true).
Proof.
  intros Ho. unfold profile_for, nm_bind. pose proof (stored_by_id_spec id s) as Hs.
  destruct (settings_connection_by_id_owned id s) as [[[[[c|]|e]|] s0] seen0]; [| | |done].
  - destruct Hs as (-> & -> & st' & Hc & Ho'). intros H. injection H as <- <- <-.
    split_and!; [done|reflexivity|constructor|done|]. intros c' [= <-]. by exists st'.
  - destruct Hs as [-> ->]. unfold add_connection, nm_call. pose proof (add_grows id persistent st s Ho) as Ha.
    destruct (nm_add persistent st s) as [[c|e] s1]; cbn; intros H; injection H as <- <- <-.
    + destruct Ha as (Hg & Hc & Hsame). split_and!; [done|done|by constructor|done|]. intros c' [= <-]. by exists st.
    + pose proof (grows_same id _ _ Ha). unfold same in Ha.
      split_and!; [done|done|by constructor|by unfold actives; rewrite Ha|done].
  - destruct Hs as [-> ->]. intros H. injection H as <- <- <-. split_and!; [done|reflexivity|constructor|done|done].
Qed.

Lemma ensure_active_run id persistent st create activation s r s' seen :
  owned_with_id id st = true ->
  ensure_active id persistent st create activation s = (r, s', seen) ->
  r <> Running /\ grows id s s' /\ Forall (grows id s) seen /\ (length (actives s') <= S (length (actives s)))%nat /\
  (r = Done (Ok tt) -> up id s').
Proof.
  intros Ho. unfold ensure_active. unfold nm_bind at 1. destruct (active_connection_by_id id s) as [[[[[p|]|e]|] s0] seen0] eqn:E.
  - apply active_by_id_spec in E as (-> & -> & Hup). intros H. injection H as <- <- <-.
    split_and!; [done|reflexivity|constructor|lia|done].
  - apply active_by_id_spec in E as (-> & -> & _). unfold nm_bind at 1.
    destruct (profile_for id persistent st create s) as [[[[c|e]|] s1] seen1] eqn:Em;
      apply (profile_for_spec _ _ _ _ _ _ _ _ Ho) in Em as (Hr & Hg & Hseen & Hlen & Hc); [| |done].
    + destruct (Hc c eq_refl) as (st' & Hst' & Ho'). unfold activate, nm_bind, nm_call, nm_ret.
      pose proof (activate_grows id c st' DBUS_ROOT s1 Hst' Ho') as Ha.
      destruct (nm_activate c DBUS_ROOT s1) as [[p|e] s2]; cbn; intros H; injection H as <- <- <-.
      * destruct Ha as (Hg2 & Hup & Hl). rewrite Hlen in Hl. pose proof (transitivity Hg Hg2).
        split_and!; [done|done|apply Forall_app; split; [done|by constructor]|done|done].
      * pose proof (transitivity Hg (grows_same id _ _ Ha)). unfold same in Ha.
        split_and!; [done|done|apply Forall_app; split; [done|by constructor]| |done].
        unfold actives in *. rewrite Ha, Hlen. lia.
    + intros H. injection H as <- <- <-. rewrite Hlen. split_and!; [done|done|done|lia|done].
  - unfold active_connection_by_id, active_connections, nm_bind, nm_read, nm_ret in E. destruct (nm_active s); [discriminate|].
    injection E as <- <- <-. intros H. injection H as <- <- <-. split_and!; [done|reflexivity|constructor|lia|done].
  - unfold active_connection_by_id, active_connections, nm_bind, nm_read, nm_ret in E. by destruct (nm_active s).
Qed.

Lemma cleared_grows id id' s s' : id <> id' -> grows id' s s' -> cleared id s -> cleared id s'.
Proof.
  intros Hne H [Hp Ha]. split.
  - intros c st Hc. destruct (gr_stored _ _ _ H c st Hc) as [Hc'|Ho]; [by eapply Hp|]. unfold owned_with_id in *.
    apply andb_true_iff in Ho as [Hi%bool_decide_eq_true _]. rewrite Hi, bool_decide_eq_false_2; [done|]. intros [= <-]. done.
  - intros a Ha' (Hi & c & st & Hc & Hst & Ho). destruct (gr_new _ _ _ H a Ha') as [Hold|Hnew]; [|congruence].
    destruct (gr_stored _ _ _ H c st Hst) as [Hst'|Ho'].
    + apply (Ha a Hold). split; [done|]. by exists c, st.
    + apply andb_true_iff in Ho' as [Hi'%bool_decide_eq_true _]. rewrite (active_id s' a c st) in Hi by done. congruence.
Qed.
Lemma up_grows id id' s s' : grows id' s s' -> up id s -> up id s'.
Proof. intros H (a & Ha & Hi). exists a. split; [by apply (gr_active _ _ _ H)|done]. Qed.

(** ** Runs and the states on the way

    From a state satisfying [P] the run ends, [I] holds in every state it goes through, and if it succeeds
    its last state satisfies [Q]. *)
Definition tracks {A : Type} (P : W -> Prop) (m : NM (W := W) A) (I : W -> Prop) (Q : W -> Prop) : Prop :=
  forall s r s' seen, P s -> m s = (r, s', seen) ->
  r <> Running /\ I s' /\ Forall I seen /\ (forall a, r = Done (Ok a) -> Q s').

Lemma tracks_bind {A B : Type} (P I Q Q' : W -> Prop) (m : NM A) (k : A -> NM B) :
  tracks P m I Q -> (forall a, tracks Q (k a) I Q') -> tracks P (nm_bind m k) I Q'.
Proof.
  intros Hm Hk s r s' seen HP H. unfold nm_bind in H. destruct (m s) as [[[[a|e]|] s1] seen1] eqn:E;
    destruct (Hm _ _ _ _ HP E) as (Hr & HI & Hseen & HQ); [| |done].
  - destruct (k a s1) as [[r2 s2] seen2] eqn:Ek. injection H as <- <- <-.
    destruct (Hk a _ _ _ _ (HQ a eq_refl) Ek) as (Hr2 & HI2 & Hseen2 & HQ2). split_and!; [done|done|by apply Forall_app|done].
  - injection H as <- <- <-. by split_and!.
Qed.
Lemma tracks_of {A : Type} (R : W -> W -> Prop) (P I Q : W -> Prop) (m : NM (W := W) A) :
  along R m -> runs P m (fun _ => Q) -> (forall s s', P s -> R s s' -> I s') -> tracks P m I Q.
Proof.
  intros Ha Hm HI s r s' seen HP E. destruct (Ha _ _ _ _ E) as [HR Hseen]. specialize (Hm s HP). rewrite E in Hm. split_and!.
  - by intros ->.
  - by eapply HI.
  - eapply Forall_impl; [exact Hseen|]. intros v Hv. by eapply HI.
  - by intros a ->.
Qed.
Lemma tracks_weaken {A : Type} (P P' I I' Q Q' : W -> Prop) (m : NM (W := W) A) :
  tracks P' m I' Q' -> (forall s, P s -> P' s) -> (forall s, I' s -> I s) -> (forall s, Q' s -> Q s) -> tracks P m I Q.
Proof.
  intros Hm HP HI HQ s r s' seen Hs E. destruct (Hm _ _ _ _ (HP s Hs) E) as (Hr & Hi & Hseen & Hq).
  split_and!; [done|by apply HI|by eapply Forall_impl|intros a Ha; by eapply HQ, Hq].
Qed.
(** A step that leaves the world alone keeps what depends on the world only. *)
Definition of_world (P : W -> Prop) : Prop := forall s s', same s s' -> P s -> P s'.
Lemma tracks_same {A : Type} (P I : W -> Prop) (m : NM (W := W) A) :
  along same m -> ends m -> of_world P -> (forall s, P s -> I s) -> tracks P m I P.
Proof.
  intros Ha He HP HI. eapply tracks_of; [exact Ha|by apply keeps_same|]. intros s s' Hs Hsame. eapply HI, HP; done.
Qed.
Lemma tracks_ret {A : Type} (P I : W -> Prop) (a : A) : (forall s, P s -> I s) -> tracks P (nm_ret a) I P.
Proof. intros HI s r s' seen HP [= <- <- <-]. split_and!; [done|by apply HI|constructor|done]. Qed.

Definition at_most (n : nat) (s : W) : Prop := (length (actives s) <= n)%nat.

Lemma remove_tracks n fuel id (K I : W -> Prop) :
  (n + 1 < fuel)%nat -> (forall s s', sheds id s s' -> K s -> K s') -> (forall s, K s -> I s) ->
  tracks (fun s => K s /\ at_most n s) (remove_owned_connections_by_id fuel id) I (fun s => (K s /\ cleared id s) /\ at_most n s).
Proof.
  intros Hf HK HI. set (P := fun s => K s /\ at_most n s).
  assert (HP : forall s s', P s -> sheds id s s' -> P s').
  { intros s s' [Hs Hn] H. split; [by eapply HK|]. unfold at_most in *. pose proof (sh_length _ _ _ H). lia. }
  eapply tracks_of; [apply remove_owned_along| |intros s s' Hs H; apply HI; by destruct (HP s s' Hs H)].
  eapply runs_weaken; [eapply (runs_along _ P _ _ P (remove_owned_along fuel id) HP)|done|].
  - eapply runs_weaken; [by apply (remove_owned_runs n)|by intros s [_ H]|by intros a s H; exact H].
  - intros _ s [Hc [HKs Hn]]. done.
Qed.

Lemma ensure_tracks n id persistent st create activation (K I : W -> Prop) :
  owned_with_id id st = true -> (forall s s', grows id s s' -> K s -> K s') -> (forall s, K s -> I s) ->
  tracks (fun s => K s /\ at_most n s) (ensure_active id persistent st create activation) I (fun s => (K s /\ up id s) /\ at_most (S n) s).
Proof.
  intros Ho HK HI s r s' seen [Hs Hn] E. destruct (ensure_active_run _ _ _ _ _ _ _ _ _ Ho E) as (Hr & Hg & Hseen & Hlen & Hup).
  unfold at_most in *. split_and!; [done|by eapply HI, HK| |].
  - eapply Forall_impl; [exact Hseen|]. intros v Hv. by eapply HI, HK.
  - intros [] ->. split_and!; [by eapply HK|by apply Hup|lia].
Qed.

(** A property of connections and profiles. *)
Lemma of_world_and (P Q : W -> Prop) : of_world P -> of_world Q -> of_world (fun s => P s /\ Q s).
Proof. intros HP HQ s s' H [Hp Hq]. split; [by eapply HP|by eapply HQ]. Qed.
Lemma of_world_at_most n : of_world (at_most n).
Proof. intros s s' H. unfold at_most, actives. by rewrite H. Qed.
Lemma of_world_up id : of_world (up id).
Proof. intros s s'. apply up_same. Qed.
Lemma of_world_cleared id : of_world (cleared id).
Proof. intros s s'. apply cleared_same. Qed.
Lemma of_world_const (P : Prop) : of_world (fun _ => P).
Proof. by intros s s' _. Qed.
#[local] Hint Resolve of_world_and of_world_at_most of_world_up of_world_cleared of_world_const : core.

Lemma system_bus_same : along same system_bus.
Proof. apply along_pure, _. Qed.
Lemma system_bus_ends : ends system_bus.
Proof. apply ends_read. Qed.

Lemma kill_switch_owned uuid id interface permanent : owned_with_id id (kill_switch_settings username uuid id interface permanent) = true.
Proof.
  unfold owned_with_id. assert (connection_id (kill_switch_settings username uuid id interface permanent) = Some id) as ->
    by (by destruct permanent). rewrite bool_decide_eq_true_2 by done. by destruct permanent.
Qed.
Lemma ipv6_leak_owned uuid : owned_with_id IPV6_LEAK_CONNECTION_ID (ipv6_leak_settings username uuid) = true.
Proof. reflexivity. Qed.

Lemma kill_switch_ids_differ permanent : kill_switch_id permanent <> kill_switch_id (negb permanent).
Proof. by destruct permanent. Qed.
Lemma kill_switch_not_leak permanent : kill_switch_id permanent <> IPV6_LEAK_CONNECTION_ID.
Proof. by destruct permanent. Qed.

(** One of the two kill switches is up. *)
Definition blocked (s : W) : Prop := exists permanent, up (kill_switch_id permanent) s.

Lemma full_kill_switch_tracks n fuel uuid permanent (H : Prop) :
  (S n + 1 < fuel)%nat ->
  tracks (fun s => (H -> blocked s) /\ at_most n s) (ensure_full_kill_switch username fuel uuid permanent) (fun s => H -> blocked s)
    (fun s => (up (kill_switch_id permanent) s /\ cleared (kill_switch_id (negb permanent)) s) /\ at_most (S n) s).
Proof.
  intros Hf. assert (Hw : of_world (fun s => (H -> blocked s) /\ at_most n s)).
  { apply of_world_and; [|auto]. intros s s' Hs Hb h. destruct (Hb h) as [p Hp]. exists p. by eapply up_same. }
  unfold ensure_full_kill_switch. eapply tracks_bind; [apply tracks_same; [apply system_bus_same|apply system_bus_ends|exact Hw|by intros s []]|intros _].
  eapply tracks_bind; [apply tracks_same; [apply connectivity_same|apply blocking_connectivity_ends|exact Hw|by intros s []]|intros _].
  eapply tracks_bind; [apply (ensure_tracks n _ _ _ _ _ (fun s => H -> blocked s)); [apply kill_switch_owned| |done]|intros _].
  - intros s s' Hg Hb h. destruct (Hb h) as [p Hp]. exists p. by eapply up_grows.
  - eapply tracks_bind; [|intros _; apply tracks_ret; intros s [[Hu _] _] _; by exists permanent].
    eapply tracks_weaken; [apply (remove_tracks (S n) _ _ (up (kill_switch_id permanent)) (fun s => H -> blocked s) Hf)|..].
    + intros s s' Hs Hu. eapply up_sheds; [apply kill_switch_ids_differ|exact Hs|exact Hu].
    + intros s Hu _. by exists permanent.
    + by intros s [[_ Hu] Hn].
    + done.
    + done.
Qed.

Lemma of_world_blocked (H : Prop) : of_world (fun s => H -> blocked s).
Proof. intros s s' Hs Hb h. destruct (Hb h) as [p Hp]. exists p. by eapply up_same. Qed.

(** ** Specification *)

(** The protection a reconciliation is to leave in place. *)
Definition protection_for (mode : Z) (tunnel_active ipv6_leak_protection : bool) : option string :=
  if should_block mode tunnel_active then Some (kill_switch_id (mode =? 2))
  else if tunnel_active && ipv6_leak_protection then Some IPV6_LEAK_CONNECTION_ID
  else None.
Definition PROTECTIONS : list string := [KILL_SWITCH_CONNECTION_ID; KILL_SWITCH_PERMANENT_CONNECTION_ID; IPV6_LEAK_CONNECTION_ID].

(** That protection is active, and of the others nothing the program owns is stored or active. *)
Definition protects (o : option string) (s : W) : Prop :=
  (forall id, o = Some id -> up id s) /\ (forall id, id ∈ PROTECTIONS -> o <> Some id -> cleared id s).

Lemma protects_blocking permanent s :
  up (kill_switch_id permanent) s -> cleared (kill_switch_id (negb permanent)) s -> cleared IPV6_LEAK_CONNECTION_ID s ->
  protects (Some (kill_switch_id permanent)) s.
Proof.
  intros Hu Hc Hl. split; [by intros id [= <-]|]. intros id Hid Hne.
  repeat (apply elem_of_cons in Hid as [->|Hid]); [| | |by apply elem_of_nil in Hid]; destruct permanent; done.
Qed.
Lemma protects_open o s :
  cleared KILL_SWITCH_CONNECTION_ID s -> cleared KILL_SWITCH_PERMANENT_CONNECTION_ID s ->
  match o with Some id => id = IPV6_LEAK_CONNECTION_ID /\ up id s | None => cleared IPV6_LEAK_CONNECTION_ID s end -> protects o s.
Proof.
  intros H1 H2 H3. split; [by intros id ->; destruct H3|]. intros id Hid Hne.
  repeat (apply elem_of_cons in Hid as [->|Hid]); [done..| |by apply elem_of_nil in Hid].
  destruct o as [i|]; [by destruct H3 as [-> _]|done].
Qed.

Lemma reconcile_blocking n fuel uuid mode tunnel_active ip leak (H : Prop) :
  (S n + 1 < fuel)%nat -> mode <= 2 -> should_block mode tunnel_active = true ->
  tracks (fun s => (H -> blocked s) /\ at_most n s) (reconcile_kill_switch username fuel uuid mode tunnel_active ip leak)
    (fun s => H -> blocked s) (protects (protection_for mode tunnel_active leak)).
Proof.
  intros Hf Hm Hb. unfold reconcile_kill_switch, protection_for. rewrite Hb. replace (2 <? mode) with false by lia. cbn [negb].
  eapply tracks_bind; [by apply full_kill_switch_tracks|intros _]. set (id := kill_switch_id (mode =? 2)).
  assert (Hid : forall s, up id s -> H -> blocked s) by (intros s Hu _; by exists (mode =? 2)).
  eapply tracks_bind; [apply (remove_tracks (S n) fuel _ (fun s => up id s /\ cleared (kill_switch_id (negb (mode =? 2))) s)); [done| |]|intros _].
  - intros s s' Hs [Hu Hc]. split; [eapply up_sheds; [apply kill_switch_not_leak|done|done]|by eapply cleared_sheds].
  - intros s [Hu _]. by apply Hid.
  - set (P := fun s => ((up id s /\ cleared (kill_switch_id (negb (mode =? 2))) s) /\ cleared IPV6_LEAK_CONNECTION_ID s) /\ at_most (S n) s).
    eapply (tracks_weaken P P _ (fun s => H -> blocked s) _ P); [|done|done|intros s [[[Hu Hc] Hl] _]; by apply protects_blocking].
    apply tracks_same; [apply opt_route_same|apply opt_route_ends|unfold P; auto|]. intros s [[[Hu _] _] _]. by apply Hid.
Qed.

Lemma ipv6_leak_tracks n uuid (K I : W -> Prop) :
  (forall s s', grows IPV6_LEAK_CONNECTION_ID s s' -> K s -> K s') -> (forall s, K s -> I s) ->
  tracks (fun s => K s /\ at_most n s) (ensure_ipv6_leak_protection username uuid) I
    (fun s => (K s /\ up IPV6_LEAK_CONNECTION_ID s) /\ at_most (S n) s).
Proof.
  intros HK HI. assert (Hw : of_world (fun s => K s /\ at_most n s)).
  { apply of_world_and; [|auto]. intros s s' Hs. apply HK. by apply grows_same. }
  unfold ensure_ipv6_leak_protection.
  eapply tracks_bind; [apply tracks_same; [apply system_bus_same|apply system_bus_ends|exact Hw|intros s []; by apply HI]|intros _].
  eapply tracks_bind; [apply tracks_same; [apply connectivity_same|apply blocking_connectivity_ends|exact Hw|intros s []; by apply HI]|intros _].
  by apply ensure_tracks; [apply ipv6_leak_owned|..].
Qed.

Lemma reconcile_open n fuel uuid mode tunnel_active ip leak :
  (n + 1 < fuel)%nat -> mode <= 2 -> should_block mode tunnel_active = false ->
  tracks (at_most n) (reconcile_kill_switch username fuel uuid mode tunnel_active ip leak) (fun _ => True)
    (protects (protection_for mode tunnel_active leak)).
Proof.
  intros Hf Hm Hb. unfold reconcile_kill_switch, protection_for. rewrite Hb. replace (2 <? mode) with false by lia. cbn [negb].
  eapply tracks_weaken; [|intros s Hs; exact (conj Logic.I Hs)|by intros s Hs; exact Hs|by intros s Hs; exact Hs].
  eapply tracks_bind; [by apply (remove_tracks n fuel _ (fun _ => True))|intros _].
  eapply tracks_bind.
  { apply (remove_tracks n fuel _ (fun s => True /\ cleared KILL_SWITCH_CONNECTION_ID s) (fun _ => True)); [done| |done].
    intros s s' Hs [_ Hc]. split; [done|by eapply cleared_sheds]. }
  intros _. set (P := fun s => (True /\ cleared KILL_SWITCH_CONNECTION_ID s) /\ cleared KILL_SWITCH_PERMANENT_CONNECTION_ID s).
  eapply (tracks_bind _ _ (fun s => P s /\ at_most n s)).
  { unfold P. destruct (negb (mode =? 0)); [|by apply tracks_ret].
    apply tracks_same; [apply opt_route_same|apply opt_route_ends|apply of_world_and; auto|done]. }
  intros _. destruct (tunnel_active && leak).
  - eapply tracks_weaken; [apply (ipv6_leak_tracks n uuid P (fun _ => True)); [|done]|done|done|].
    + intros s s' Hg [[_ H1] H2]. split; [split; [done|]|]; (eapply cleared_grows; [|exact Hg|eassumption]; done).
    + intros s [[[[_ H1] H2] Hu] _]. by apply protects_open.
  - eapply tracks_bind; [apply (remove_tracks n fuel _ P (fun _ => True)); [done| |done]|intros _; cbv beta].
    + intros s s' Hs [[_ H1] H2]. split; [split; [done|]|]; by eapply cleared_sheds.
    + eapply tracks_weaken; [by apply tracks_ret|intros s Hs; exact Hs|done|]. intros s [[[[_ H1] H2] Hu] _]. by apply protects_open.
Qed.

(** ** What is not touched *)

(** A connection of another id, or one that runs a profile the program does not own. *)
Definition foreign (s : W) (a : active_connection) : Prop :=
  (forall id, id ∈ PROTECTIONS -> a.(ac_id) <> Some id) \/
  exists c st, a.(ac_connection) = Some c /\ profiles s !! c = Some st /\ connection_owned st = false.
Definition ours (st : nm_settings) : Prop := exists id, id ∈ PROTECTIONS /\ owned_with_id id st = true.

Record spares (s s' : W) : Prop := mkSpares {
  sp_active : forall a, a ∈ actives s -> foreign s a -> a ∈ actives s';
  sp_profiles : forall c st, profiles s !! c = Some st -> ~ ours st -> profiles s' !! c = Some st;
  sp_new : forall c st, profiles s' !! c = Some st -> profiles s !! c = Some st \/ ours st }.

Lemma unowned_not_ours st : connection_owned st = false -> ~ ours st.
Proof. intros H (id & _ & Ho). unfold owned_with_id in Ho. by rewrite H, andb_false_r in Ho. Qed.
Lemma foreign_spares s s' a : spares s s' -> foreign s a -> foreign s' a.
Proof.
  intros H [Hi|(c & st & Hc & Hst & Ho)]; [by left|]. right. exists c, st. split_and!; [done| |done].
  apply (sp_profiles _ _ H); [done|by apply unowned_not_ours].
Qed.
#[local] Instance spares_reflexive : Reflexive spares.
Proof. intros s. split; auto. Qed.
#[local] Instance spares_transitive : Transitive spares.
Proof.
  intros s1 s2 s3 H12 H23. split.
  - intros a Ha Hf. apply (sp_active _ _ H23); [by apply (sp_active _ _ H12)|by eapply foreign_spares].
  - intros c st Hc Ho. apply (sp_profiles _ _ H23); [by apply (sp_profiles _ _ H12)|done].
  - intros c st Hc. destruct (sp_new _ _ H23 c st Hc) as [H|H]; [by apply (sp_new _ _ H12)|by right].
Qed.

Lemma sheds_spares id s s' : id ∈ PROTECTIONS -> sheds id s s' -> spares s s'.
Proof.
  intros Hid H. split.
  - intros a Ha Hf. destruct (sh_kept _ _ _ H a Ha) as [|(Hi & c & st & Hc & Hst & Ho)]; [done|].
    destruct Hf as [Hf|(c' & st' & Hc' & Hst' & Ho')]; [by destruct (Hf id Hid)|congruence].
  - intros c st Hc Ho. destruct (sh_stored _ _ _ H c st Hc) as [|Ho']; [done|]. destruct Ho. by exists id.
  - intros c st Hc. left. by apply (sh_profiles _ _ _ H).
Qed.
Lemma grows_spares id s s' : id ∈ PROTECTIONS -> grows id s s' -> spares s s'.
Proof.
  intros Hid H. split.
  - intros a Ha _. by apply (gr_active _ _ _ H).
  - intros c st Hc _. by apply (gr_profiles _ _ _ H).
  - intros c st Hc. destruct (gr_stored _ _ _ H c st Hc) as [|Ho]; [by left|right; by exists id].
Qed.
Lemma same_spares s s' : same s s' -> spares s s'.
Proof. unfold same. intros H. split; unfold actives, profiles; rewrite H; auto. Qed.

Lemma along_weaken {A : Type} (R R' : W -> W -> Prop) (m : NM (W := W) A) : (forall s s', R s s' -> R' s s') -> along R m -> along R' m.
Proof. intros H Hm s r s' seen E. destruct (Hm _ _ _ _ E) as [H1 H2]. split; [by apply H|]. eapply Forall_impl; [exact H2|apply H]. Qed.

Lemma kill_switch_protection permanent : kill_switch_id permanent ∈ PROTECTIONS.
Proof. apply (bool_decide_unpack _). by destruct permanent. Qed.
Lemma leak_protection : IPV6_LEAK_CONNECTION_ID ∈ PROTECTIONS.
Proof. apply (bool_decide_unpack _). done. Qed.

Lemma remove_spares fuel id : id ∈ PROTECTIONS -> along spares (remove_owned_connections_by_id fuel id).
Proof. intros Hid. eapply along_weaken; [intros s s'; by apply sheds_spares|apply remove_owned_along]. Qed.
Lemma ensure_spares id persistent st create activation :
  id ∈ PROTECTIONS -> owned_with_id id st = true -> along spares (ensure_active id persistent st create activation).
Proof.
  intros Hid Ho s r s' seen E. destruct (ensure_active_run _ _ _ _ _ _ _ _ _ Ho E) as (_ & Hg & Hseen & _).
  split; [by eapply grows_spares|]. eapply Forall_impl; [exact Hseen|]. intros v. by apply grows_spares.
Qed.
Lemma harmless {A : Type} (m : NM (W := W) A) : along same m -> along spares m.
Proof. apply along_weaken. exact same_spares. Qed.

Lemma reconcile_spares fuel uuid mode tunnel_active ip leak :
  along spares (reconcile_kill_switch username fuel uuid mode tunnel_active ip leak).
Proof.
  pose proof (kill_switch_protection false : KILL_SWITCH_CONNECTION_ID ∈ _). pose proof (kill_switch_protection true : KILL_SWITCH_PERMANENT_CONNECTION_ID ∈ _).
  pose proof leak_protection. unfold reconcile_kill_switch. destruct (2 <? mode); [apply along_throw, _|].
  destruct (negb (should_block mode tunnel_active)).
  - apply along_bind; [apply _|by apply remove_spares|intros _]. apply along_bind; [apply _|by apply remove_spares|intros _].
    apply along_bind; [apply _|destruct (negb (mode =? 0)); [apply harmless, opt_route_same|apply along_ret, _]|intros _].
    destruct (tunnel_active && leak).
    + unfold ensure_ipv6_leak_protection. apply along_bind; [apply _|apply harmless, system_bus_same|intros _].
      apply along_bind; [apply _|apply harmless, connectivity_same|intros _]. apply ensure_spares; [done|apply ipv6_leak_owned].
    + apply along_bind; [apply _|by apply remove_spares|intros _; apply along_ret, _].
  - apply along_bind; [apply _| |intros _].
    + unfold ensure_full_kill_switch. apply along_bind; [apply _|apply harmless, system_bus_same|intros _].
      apply along_bind; [apply _|apply harmless, connectivity_same|intros _].
      apply along_bind; [apply _|apply ensure_spares; [apply kill_switch_protection|apply kill_switch_owned]|intros _].
      apply along_bind; [apply _|apply remove_spares, kill_switch_protection|intros _; apply along_ret, _].
    + apply along_bind; [apply _|by apply remove_spares|intros _]. apply harmless, opt_route_same.
Qed.

(** ** Properties *)

(** C1: Reconciling the kill switch.  Whatever the system looks like, it ends, in as many turns of the removal loop as there are
    active connections and a few; if it succeeds, the protection that the mode, the tunnel and the setting ask for is active and
    nothing of the other protections that the program owns is left, neither active nor stored; a mode above 2 is refused. *)
Theorem reconcile_reaches_protection fuel uuid mode tunnel_active ip leak s r s' seen :
  (length (actives s) + 2 < fuel)%nat ->
  reconcile_kill_switch username fuel uuid mode tunnel_active ip leak s = (r, s', seen) ->
  r <> Running /\
  (r = Done (Ok tt) -> mode <= 2 /\ protects (protection_for mode tunnel_active leak) s').
Proof.
  intros Hf H. destruct (decide (mode <= 2)) as [Hm|Hm].
  - destruct (should_block mode tunnel_active) eqn:Hb.
    + destruct (reconcile_blocking (length (actives s)) fuel uuid mode tunnel_active ip leak False ltac:(lia) Hm Hb s r s' seen)
        as (Hr & _ & _ & HQ); [by split; [|unfold at_most; lia]|done|]. split; [done|]. intros ->. by split; [|eapply HQ].
    + destruct (reconcile_open (length (actives s)) fuel uuid mode tunnel_active ip leak ltac:(lia) Hm Hb s r s' seen)
        as (Hr & _ & _ & HQ); [unfold at_most; lia|done|]. split; [done|]. intros ->. by split; [|eapply HQ].
  - unfold reconcile_kill_switch in H. replace (2 <? mode) with true in H by lia. injection H as <- <- <-. by split.
Qed.

(** C7: On the way.  In every state a reconciliation goes through, connections and profiles that are not the program's are
    untouched, and only its own protections have been added; and while the mode asks for blocking, a network that a kill switch
    blocks stays blocked in every one of those states -- also on changing from one kill switch to the other, and when a step
    fails. *)
Theorem reconcile_never_opens fuel uuid mode tunnel_active ip leak s r s' seen :
  (length (actives s) + 2 < fuel)%nat ->
  reconcile_kill_switch username fuel uuid mode tunnel_active ip leak s = (r, s', seen) ->
  Forall (spares s) (s' :: seen) /\
  (mode <= 2 -> should_block mode tunnel_active = true -> blocked s -> Forall blocked (s' :: seen)).
Proof.
  intros Hf H. split; [destruct (reconcile_spares _ _ _ _ _ _ _ _ _ _ H); by constructor|]. intros Hm Hb Hs.
  destruct (reconcile_blocking (length (actives s)) fuel uuid mode tunnel_active ip leak True ltac:(lia) Hm Hb s r s' seen)
    as (_ & HI & Hseen & _); [by split; [|unfold at_most; lia]|done|]. apply Forall_cons. split; [by apply HI|]. eapply Forall_impl; [exact Hseen|]. intros v Hv. by apply Hv.
Qed.
End KillSwitch.

(** ** A concrete run: from the standard to the permanent kill switch *)
Definition example_run : outcome unit * example_system * list example_system :=
  reconcile_kill_switch (L := example_lib) "user" 10 "uuid-1" 2 true (Some "192.0.2.1") true example_state.
Definition example_run_length : option nat := match example_run with (Done (Ok _), _, seen) => Some (length seen) | _ => None end.
Lemma example_run_ends : exists s' seen, example_run = (Done (Ok tt), s', seen) /\ length seen = 6%nat.
Proof.
  assert (H : example_run_length = Some 6%nat) by (vm_compute; reflexivity). unfold example_run_length in H.
  destruct example_run as [[[[[]|]|] s'] seen]; [|discriminate..]. exists s', seen. split; [reflexivity|congruence].
Qed.

Lemma reconcile_reaches_protection_witness :
  exists s' seen, example_run = (Done (Ok tt), s', seen) /\ protects (Some KILL_SWITCH_PERMANENT_CONNECTION_ID) s'.
Proof.
  destruct example_run_ends as (s' & seen & H & _). exists s', seen. split; [exact H|].
  assert (Hf : (length (actives example_state) + 2 < 10)%nat) by (apply Nat.ltb_lt; vm_compute; reflexivity).
  destruct (reconcile_reaches_protection (L := example_lib) "user" 10 "uuid-1" 2 true (Some "192.0.2.1") true _ _ _ _ Hf H) as [_ HP].
  exact (proj2 (HP eq_refl)).
Defined.

Lemma reconcile_never_opens_witness :
  exists s' seen, example_run = (Done (Ok tt), s', seen) /\ length seen = 6%nat /\ Forall blocked (s' :: seen) /\
    Forall (fun v => home_active ∈ actives v) (s' :: seen).
Proof.
  destruct example_run_ends as (s' & seen & H & Hl). exists s', seen. split; [exact H|]. split; [exact Hl|].
  assert (Hf : (length (actives example_state) + 2 < 10)%nat) by (apply Nat.ltb_lt; vm_compute; reflexivity).
  destruct (reconcile_never_opens (L := example_lib) "user" 10 "uuid-1" 2 true (Some "192.0.2.1") true _ _ _ _ Hf H) as [Hs Hb]. split.
  - apply Hb; [lia|reflexivity|]. exists false. eexists. split; [apply elem_of_cons; right; apply elem_of_cons; by left|vm_compute; reflexivity].
  - eapply Forall_impl; [exact Hs|]. intros v Hv. apply (sp_active _ _ Hv); [apply elem_of_cons; by left|].
    left. intros id Hid E. vm_compute in E. injection E as <-. repeat (apply elem_of_cons in Hid as [Hid|Hid]; [discriminate Hid|]).
    by apply elem_of_nil in Hid.
Defined.
