(* ===== verification/LocalAgent.v ===== *)
(** The Proton Local Agent as the backend sees it ([agent/src/native_backend/local_agent.rs]): its status
    messages, the snapshot kept of them, the features requested for a connection, and how a session is
    confirmed ([wait_for_local_agent_ready] of [mod.rs]).

    The messages are those of the vendored [local-agent-rs] crate; its connection is the class
    [AgentLib]. *)
From S2P Require Export NetSettings.
Open Scope string_scope.
Open Scope Z_scope.
Open Scope list_scope.
Open Scope rust_scope.

(** ** Messages *)
Inductive AgentState : Type :=
  | AgentConnected
  | AgentHardJailed.
#[export] Instance AgentState_eq_dec : EqDecision AgentState.
Proof. solve_decision. Defined.

Record AgentFeatures : Type := mkAgentFeatures {
  af_netshield_level : option Z;
  af_randomized_nat : option bool;
  af_split_tcp : option bool;
  af_port_forwarding : option bool;
  af_forwarded_port : option Z;
  af_jail : option bool;
  af_bouncing : option string }.
#[export] Instance AgentFeatures_eq_dec : EqDecision AgentFeatures.
Proof. solve_decision. Defined.

Record AgentReason : Type := mkAgentReason { ar_code : Z; ar_description : string }.
Record ConnectionDetails : Type := mkConnectionDetails {
  de_device_ip : option string;
  de_device_country : option string;
  de_server_ipv4 : option string;
  de_server_ipv6 : option string }.
Record NetshieldStats : Type := mkNetshieldStats {
  nt_malware : option Z;
  nt_ads : option Z;
  nt_tracker : option Z }.

(** [sm_statistics] is [features_statistics] with its only field. *)
Record StatusMessage : Type := mkStatusMessage {
  sm_state : AgentState;
  sm_reason : option AgentReason;
  sm_features : option AgentFeatures;
  sm_details : option ConnectionDetails;
  sm_statistics : option (option NetshieldStats) }.

Inductive AgentUpdate : Type :=
  | AgentStatus (status : StatusMessage)
  | AgentError (error : string)
  | AgentStopped.

Record AgentSnapshot : Type := mkAgentSnapshot {
  as_connected : bool;
  as_hard_jailed : bool;
  as_reason_code : option Z;
  as_reason : option string;
  as_forwarded_port : option Z;
  as_device_ip : option string;
  as_device_country : option string;
  as_server_ipv4 : option string;
  as_server_ipv6 : option string;
  as_netshield_malware : option Z;
  as_netshield_ads : option Z;
  as_netshield_trackers : option Z }.
Definition AgentSnapshot_default : AgentSnapshot :=
  mkAgentSnapshot false false None None None None None None None None None None.

Definition from_status (status : StatusMessage) : AgentSnapshot :=
  let statistics := match status.(sm_statistics) with Some s => s | None => None end in
  mkAgentSnapshot (bool_decide (status.(sm_state) = AgentConnected)) (bool_decide (status.(sm_state) = AgentHardJailed))
    (option_map ar_code status.(sm_reason)) (option_map ar_description status.(sm_reason))
    (status.(sm_features) ?> af_forwarded_port) (status.(sm_details) ?> de_device_ip) (status.(sm_details) ?> de_device_country)
    (status.(sm_details) ?> de_server_ipv4) (status.(sm_details) ?> de_server_ipv6)
    (statistics ?> nt_malware) (statistics ?> nt_ads) (statistics ?> nt_tracker).

Definition requested_features (netshield : Z) (moderate_nat vpn_accelerator port_forwarding : bool) (bouncing : string) : AgentFeatures :=
  mkAgentFeatures (Some netshield) (Some (negb moderate_nat)) (Some vpn_accelerator) (Some port_forwarding) None None
    (if is_empty bouncing then None else Some bouncing).

Definition connection_agent_features (s : NativeSettings) (target : ConnectionTarget) : AgentFeatures :=
  let f := s.(ns_features) in
  requested_features f.(sf_netshield) f.(sf_moderate_nat) f.(sf_vpn_accelerator) f.(sf_port_forwarding)
    (unwrap_or target.(tg_physical).(ph_label) "").

(** ** Connection *)
Definition LOCAL_AGENT_TIMEOUT_SECONDS : Z := 10.

(** An error of the crate: its text, and whether it is [Error::TokioElapsed]. *)
Record agent_lib_error : Type := mkAgentLibError { ae_elapsed : bool; ae_text : string }.

Class AgentLib (W : Type) : Type := mkAgentLib {
  AgentHandle : Type;
  agent_connect : string -> string -> string -> Z -> W -> result AgentHandle agent_lib_error * W;
  agent_request_features : AgentHandle -> AgentFeatures -> Z -> W -> result unit agent_lib_error * W;
  agent_request_status : AgentHandle -> option bool -> Z -> W -> result unit agent_lib_error * W;
  (** What the update channel of a handle delivers within the given number of milliseconds ([None] means that no
      limit applies): a [None] at the end says that it was closed. *)
  agent_updates : AgentHandle -> option Z -> W -> list (option AgentUpdate) * W;
  (** [SigningKey::to_pkcs8_pem] of a seed of 32 bytes. *)
  to_pkcs8_pem : string -> result string string }.

Definition agent_error (text : string) : NativeError :=
  ne_set_retryable true (ne_with_source text
    (NativeError_new "local_agent_failed" "The encrypted Proton Local Agent channel failed")).
Definition connect_error (e : agent_lib_error) : NativeError :=
  if e.(ae_elapsed)
  then ne_set_retryable true (NativeError_new "local_agent_connect_timeout" "The VPN tunnel has not made the Proton Local Agent reachable yet")
  else agent_error e.(ae_text).

Definition private_key_invalid (message : string) : NativeError := NativeError_new "vpn_private_key_invalid" message.
Definition private_key_pem {W : Type} {A : AgentLib W} {C : ServerCrypto} (session : SessionData) : NativeResult string :=
  let? seed := ok_or (base64_decode (trim session.(sd_vpn).(vs_ed25519_privatekey)))
                 (ne_with_source (base64_refusal (trim session.(sd_vpn).(vs_ed25519_privatekey)))
                    (private_key_invalid "The Proton VPN Ed25519 private key is invalid")) in
  if negb (str_len seed =? 32) then Err (private_key_invalid "The Proton VPN Ed25519 private key has an invalid length")
  else
    res_map_err (fun e => ne_with_source e (private_key_invalid "Unable to encode the Proton VPN private key for Local Agent"))
      (to_pkcs8_pem seed).

(** ** Confirmation of a session *)
Definition REASON_CODE_CERTIFICATE_EXPIRED : Z := 86101.
Definition TWO_FACTOR_REASONS : list Z := [86120; 86121; 86122].
Definition MAX_SESSIONS_REASONS : list Z := [86110; 86111; 86112; 86113; 86114; 86115].
Definition REASON_CODE_USER_TORRENT_NOT_ALLOWED : Z := 86153.
Definition local_agent_reason_code (reason : option Z) : string :=
  match reason with
  | Some code =>
      if code =? REASON_CODE_CERTIFICATE_EXPIRED then "vpn_certificate_expired"
      else if existsb (Z.eqb code) TWO_FACTOR_REASONS then "two_factor_required"
      else if existsb (Z.eqb code) MAX_SESSIONS_REASONS then "maximum_sessions_reached"
      else if code =? REASON_CODE_USER_TORRENT_NOT_ALLOWED then "p2p_not_allowed"
      else "local_agent_jailed"
  | None => "local_agent_jailed"
  end.

Definition agent_disconnected (message : string) : NativeError :=
  ne_set_retryable true (NativeError_new "local_agent_disconnected" message).
Definition jailed_error (s : AgentSnapshot) : NativeError :=
  ne_with_details (jobj [("reason_code", jopt jnum s.(as_reason_code))])
    (NativeError_new (local_agent_reason_code s.(as_reason_code)) (unwrap_or s.(as_reason) "Proton restricted this VPN session")).

(** [None] while the channel has delivered nothing that decides; the updates left in the channel. *)
Fixpoint wait_for_local_agent_ready (updates : list (option AgentUpdate))
    : option (NativeResult AgentSnapshot) * list (option AgentUpdate) :=
  match updates with
  | [] => (None, [])
  | None :: updates => (Some (Err (agent_disconnected "The Proton Local Agent connection closed unexpectedly")), updates)
  | Some (AgentStatus status) :: updates =>
      let snapshot := from_status status in
      if snapshot.(as_connected) then (Some (Ok snapshot), updates)
      else if snapshot.(as_hard_jailed) then (Some (Err (jailed_error snapshot)), updates)
      else wait_for_local_agent_ready updates
  | Some (AgentError error) :: updates =>
      (Some (Err (ne_set_retryable true (ne_with_source error
         (NativeError_new "local_agent_failed" "Proton rejected the requested VPN session features")))), updates)
  | Some AgentStopped :: updates =>
      (Some (Err (agent_disconnected "The Proton Local Agent connection stopped before confirming the VPN session")), updates)
  end.

Lemma wait_ready_connected updates s rest : wait_for_local_agent_ready updates = (Some (Ok s), rest) ->
  s.(as_connected) = true /\ exists before status, updates = before ++ Some (AgentStatus status) :: rest /\ s = from_status status /\
    forall u, u ∈ before -> exists status', u = Some (AgentStatus status') /\ (from_status status').(as_connected) = false.
Proof.
  induction updates as [|u updates IH]; [discriminate|]. cbn [wait_for_local_agent_ready].
  destruct u as [[status|error|]|]; try discriminate. destruct (as_connected (from_status status)) eqn:E.
  - intros [= <- <-]. split; [done|]. exists [], status. split_and!; [done..|]. by intros u ?%elem_of_nil.
  - destruct (as_hard_jailed (from_status status)); [discriminate|]. intros H. destruct (IH H) as (Hc & before & status' & -> & -> & Hb).
    split; [done|]. exists (Some (AgentStatus status) :: before), status'. split_and!; [done..|].
    intros u Hu. apply elem_of_cons in Hu as [->|Hu]; [by exists status|by apply Hb].
Qed.
