(* ===== verification/SettingsFile.v ===== *)
(** The settings file of the native backend: the atomic replacement of [settings_store.rs] and the loading
    of [agent/src/native_backend/mod.rs] ([load_json], [load_cached_state]).

    The directory is the settings file and a temporary file, with a stream that decides which system calls
    fail and with what error. *)
From S2P Require Export NativeSettings.
Open Scope string_scope.
Open Scope Z_scope.
Open Scope list_scope.
Open Scope rust_scope.

Record settings_disk : Type := mkSettingsDisk {
  kd_file : option string;
  kd_temp : option string;
  kd_faults : list (option string) }.

(** Operations on the directory; what was done before an error stays done. *)
Definition SD (A : Type) : Type := settings_disk -> NativeResult A * settings_disk.
Definition sd_ret {A : Type} (a : A) : SD A := fun d => (Ok a, d).
Definition sd_throw {A : Type} (e : NativeError) : SD A := fun d => (Err e, d).
Definition sd_try {A B : Type} (m : SD A) (k : NativeResult A -> SD B) : SD B := fun d => let '(r, d) := m d in k r d.
Definition sd_then {A B : Type} (m : SD A) (k : A -> SD B) : SD B :=
  sd_try m (fun r => match r with Ok a => k a | Err e => sd_throw e end).
Notation "m ';;&' k" := (sd_then m (fun _ => k)) (at level 100, k at level 200, right associativity) : rust_scope.

Definition with_faults (faults : list (option string)) (d : settings_disk) : settings_disk :=
  mkSettingsDisk d.(kd_file) d.(kd_temp) faults.
(** A system call, with the translation of its error. *)
Definition disk_call (error : string -> NativeError) : SD unit := fun d =>
  match d.(kd_faults) with
  | Some e :: rest => (Err (error e), with_faults rest d)
  | None :: rest => (Ok tt, with_faults rest d)
  | [] => (Ok tt, d)
  end.
Definition put_file (text : option string) : SD unit := fun d => (Ok tt, mkSettingsDisk text d.(kd_temp) d.(kd_faults)).
Definition put_temp_file (text : option string) : SD unit := fun d => (Ok tt, mkSettingsDisk d.(kd_file) text d.(kd_faults)).

Section Store.
Context {J : JsonText} (path temp_path : string).

Definition settings_error (action at_path source : string) : NativeError :=
  ne_with_source source (NativeError_new "settings_write_failed" ("Unable to " +:+ action +:+ " Proton settings at " +:+ at_path)).

(** The closure of [save_serialized]: a name that exists makes [create_new] fail; the attempt to
    synchronise the directory may fail unnoticed. *)
Definition replace_settings (bytes : string) : SD unit :=
  disk_call (settings_error "create temporary" temp_path) ;;&
  put_temp_file (Some "") ;;&
  disk_call (settings_error "write" temp_path) ;;&
  put_temp_file (Some bytes) ;;&
  disk_call (settings_error "write" temp_path) ;;&
  put_temp_file (Some (bytes +:+ String "010" "")) ;;&
  disk_call (settings_error "write" temp_path) ;;&
  disk_call (settings_error "replace" path) ;;&
  put_file (Some (bytes +:+ String "010" "")) ;;&
  put_temp_file None ;;&
  sd_try (disk_call (settings_error "" path)) (fun _ => sd_ret tt).

Definition save_serialized (bytes : string) : SD unit :=
  disk_call (settings_error "create" path) ;;&
  sd_try (replace_settings bytes) (fun r =>
    match r with
    | Ok _ => sd_ret tt
    | Err e => sd_try (disk_call (settings_error "" path) ;;& put_temp_file None) (fun _ => sd_throw e)
    end).
(** [json_print] is [to_vec_pretty]. *)
Definition save_settings (s : NativeSettings) : SD unit := save_serialized (json_print (settings_to_json s)).

(** ** Loading *)
Definition MAX_CACHE_BYTES : Z := 4 * 1024 * 1024.
Definition cache_unavailable (e : string) : NativeError :=
  ne_set_retryable true (ne_with_source e (NativeError_new "cache_unavailable" ("Unable to read Proton cache file " +:+ path))).
Definition cache_too_large : NativeError :=
  NativeError_new "cache_invalid" ("Proton cache file exceeds the size limit: " +:+ path).
Definition cache_invalid (e : string) : NativeError :=
  ne_set_retryable true (ne_with_source e (NativeError_new "cache_invalid" ("Proton cache file is invalid: " +:+ path))).

(** A missing file fails the first call; the file does not change between the two reads. *)
Definition load_json {A : Type} (name : string) (of_json : json -> option A) : SD A := fun d =>
  match d.(kd_file) with
  | None => (Err (cache_unavailable "No such file or directory (os error 2)"), d)
  | Some bytes =>
      sd_then (disk_call cache_unavailable) (fun _ =>
        if MAX_CACHE_BYTES <? str_len bytes then sd_throw cache_too_large
        else
          disk_call cache_unavailable ;;&
          match json_parse bytes ?> of_json with Some a => sd_ret a | None => sd_throw (cache_invalid (json_refusal name bytes)) end) d
  end.

(** The settings part of [load_cached_state]. *)
Definition load_settings (d : settings_disk) : NativeSettings * settings_disk :=
  let '(r, d) := load_json "NativeSettings" settings_of_json d in
  let settings := match r with Ok s => s | Err _ => NativeSettings_default end in
  let '(changed, settings) := migrate_legacy_privacy_defaults settings in
  if changed then (settings, (save_settings settings d).2) else (settings, d).

(** ** Lemmas *)

(** The text of saved settings. *)
Definition settings_text (s : NativeSettings) : string := json_print (settings_to_json s) +:+ String "010" "".

(** A replacement leaves the old file if it fails and the new one if it succeeds. *)
Definition replaced_file (old new : option string) (out : NativeResult unit * settings_disk) : Prop :=
  out.2.(kd_file) = if is_ok out.1 then new else old.

Lemma disk_call_file error d : (disk_call error d).2.(kd_file) = d.(kd_file).
Proof. unfold disk_call. by destruct (kd_faults d) as [|[e|] rest]. Qed.
Lemma replaced_call old new error (k : unit -> SD unit) d :
  d.(kd_file) = old -> (forall d', d'.(kd_file) = old -> replaced_file old new (k tt d')) ->
  replaced_file old new (sd_then (disk_call error) k d).
Proof.
  intros Hd Hk. unfold sd_then, sd_try. pose proof (disk_call_file error d) as Hf. destruct (disk_call error d) as [[[]|e] d'].
  - apply Hk. cbn in Hf. congruence.
  - unfold replaced_file. cbn in *. congruence.
Qed.
Lemma replaced_temp old new text (k : unit -> SD unit) d :
  d.(kd_file) = old -> (forall d', d'.(kd_file) = old -> replaced_file old new (k tt d')) ->
  replaced_file old new (sd_then (put_temp_file text) k d).
Proof. intros Hd Hk. by apply Hk. Qed.

Lemma replace_settings_replaced bytes d :
  replaced_file d.(kd_file) (Some (bytes +:+ String "010" "")) (replace_settings bytes d).
Proof.
  unfold replace_settings. remember d.(kd_file) as old eqn:Ho.
  repeat (first [apply replaced_call | apply replaced_temp]; [cbn; congruence|clear; intros d Ho]).
  unfold sd_then, sd_try, put_file, put_temp_file. pose proof (disk_call_file (settings_error "" path)
    (mkSettingsDisk (Some (bytes +:+ String "010" "")) None (kd_faults d))) as H.
  cbn [kd_file kd_temp kd_faults] in *. unfold replaced_file. destruct (disk_call _ _) as [[[]|e] d']; exact H.
Qed.

Lemma save_serialized_replaced bytes d :
  replaced_file d.(kd_file) (Some (bytes +:+ String "010" "")) (save_serialized bytes d).
Proof.
  unfold save_serialized. apply replaced_call; [done|]. intros d1 H1. rewrite <- H1. unfold sd_try at 1.
  pose proof (replace_settings_replaced bytes d1) as Hr.
  destruct (replace_settings _ d1) as [[[]|e] d2]; [exact Hr|]. unfold replaced_file in *. cbn [is_ok fst snd] in Hr.
  unfold sd_try, sd_then, sd_try, put_temp_file, sd_throw. pose proof (disk_call_file (settings_error "" path) d2) as Hd.
  destruct (disk_call _ d2) as [[[]|e'] d3]; cbn in *; congruence.
Qed.
Lemma settings_save_replaced s d : replaced_file d.(kd_file) (Some (settings_text s)) (save_settings s d).
Proof. apply save_serialized_replaced. Qed.

Lemma load_json_file {A : Type} name (of_json : json -> option A) d : (load_json name of_json d).2.(kd_file) = d.(kd_file).
Proof.
  unfold load_json. destruct (kd_file d) as [bytes|] eqn:E; [|done]. unfold sd_then, sd_try.
  pose proof (disk_call_file cache_unavailable d) as H1. destruct (disk_call _ d) as [[[]|e] d1]; cbn in *; [|congruence].
  destruct (MAX_CACHE_BYTES <? _); [cbn; congruence|]. pose proof (disk_call_file cache_unavailable d1) as H2.
  destruct (disk_call _ d1) as [[[]|e] d2]; cbn in *; [|congruence]. destruct (json_parse bytes ?> of_json); cbn; congruence.
Qed.

Lemma load_json_Ok {A : Type} name (of_json : json -> option A) d a d' :
  load_json name of_json d = (Ok a, d') -> exists bytes, kd_file d = Some bytes /\ json_parse bytes ?> of_json = Some a.
Proof.
  unfold load_json. destruct (kd_file d) as [bytes|]; [|discriminate]. unfold sd_then, sd_try.
  destruct (disk_call _ d) as [[[]|e] d1]; [|discriminate]. destruct (MAX_CACHE_BYTES <? _); [discriminate|].
  destruct (disk_call _ d1) as [[[]|e] d2]; [|discriminate]. intros H. exists bytes. split; [done|].
  destruct (json_parse bytes ?> of_json); [by injection H as -> _|discriminate].
Qed.

(** ** Properties *)

(** The settings file.  Whatever system calls fail, saving leaves the file with the complete new text, and says so, or exactly as it
    was, and reports the error.  Settings that were saved and whose text fits the limit of the cache are loaded again exactly,
    with both telemetry switches as stored; and whatever the file holds and whichever calls fail, loading gives settings whose
    switches are off unless the stored settings carry the consent of this version. *)
Theorem settings_file_atomic s d :
  storable s -> json_roundtrips (settings_to_json s) ->
  replaced_file d.(kd_file) (Some (settings_text s)) (save_settings s d) /\
  (1 <= s.(ns_privacy_consent_version) -> str_len (settings_text s) <= MAX_CACHE_BYTES ->
   forall temp, load_settings (mkSettingsDisk (Some (settings_text s)) temp []) = (s, mkSettingsDisk (Some (settings_text s)) temp [])) /\
  (let '(loaded, _) := load_settings d in
   (loaded.(ns_share_statistics) = true \/ loaded.(ns_anonymous_crash_reports) = true ->
    exists bytes, d.(kd_file) = Some bytes /\ json_parse bytes ?> settings_of_json = Some loaded /\ 1 <= loaded.(ns_privacy_consent_version))).
Proof.
  intros Hs Hj. split_and!.
  - apply settings_save_replaced.
  - intros Hc Hl temp. unfold load_settings, load_json. cbn [kd_file]. unfold sd_then, sd_try, disk_call, sd_ret. cbn [kd_faults].
    replace (MAX_CACHE_BYTES <? str_len (settings_text s)) with false by lia. change (json_parse (settings_text s) = Some (settings_to_json s)) in Hj.
    assert (json_parse (settings_text s) ?> settings_of_json = Some s) as -> by (rewrite Hj; exact (settings_roundtrip s Hs)). unfold migrate_legacy_privacy_defaults.
    cbn [kd_faults]. cbv beta iota. by rewrite (proj2 (Z.leb_le _ _) Hc).
  - unfold load_settings. destruct (load_json "NativeSettings" settings_of_json d) as [r d1] eqn:E.
    destruct (migrate_legacy_privacy_defaults _) as [changed loaded] eqn:M. cut (loaded.(ns_share_statistics) = true \/ loaded.(ns_anonymous_crash_reports) = true ->
      exists bytes, kd_file d = Some bytes /\ json_parse bytes ?> settings_of_json = Some loaded /\ 1 <= loaded.(ns_privacy_consent_version));
      [by destruct changed|]. intros Hon. unfold migrate_legacy_privacy_defaults in M.
    destruct r as [s0|e]; [|vm_compute in M; injection M as _ <-; by destruct Hon].
    destruct (1 <=? ns_privacy_consent_version s0) eqn:Ec; injection M as _ <-; [|unfold set_telemetry in Hon; destruct s0; by destruct Hon].
    destruct (load_json_Ok _ _ _ _ _ E) as (bytes & Hf & Hp). exists bytes. split_and!; [done..|lia].
Qed.
End Store.

(** ** Witness: a first save on a disk that is full, and a later one *)
Definition consented : NativeSettings := set_telemetry false true 1 NativeSettings_default.
Definition consented_text : JsonText := mkJsonText (fun _ => "{}") (fun _ => Some (settings_to_json consented)) (fun _ _ => "").
Lemma consented_storable : storable consented.
Proof. apply (settings_of_json_storable (settings_to_json consented)). vm_compute. reflexivity. Qed.

Lemma settings_file_atomic_witness :
  let full := mkSettingsDisk (Some "old") None [None; None; Some "No space left on device"] in
  let text := @settings_text consented_text consented in
  replaced_file (Some "old") (Some text) (@save_settings consented_text "s" "t" consented full) /\
  is_ok (@save_settings consented_text "s" "t" consented full).1 = false /\
  (@load_settings consented_text "s" "t" (mkSettingsDisk (Some text) None [])).1 = consented.
Proof.
  intros full text.
  destruct (@settings_file_atomic consented_text "s" "t" consented full consented_storable eq_refl) as (H1 & H2 & _).
  split; [exact H1|]. split; [vm_compute; reflexivity|].
  assert (Hc : 1 <= consented.(ns_privacy_consent_version)) by (vm_compute; discriminate).
  assert (Hl : str_len (@settings_text consented_text consented) <= MAX_CACHE_BYTES) by (vm_compute; discriminate).
  exact (f_equal fst (H2 Hc Hl None)).
Defined.
