(* ===== verification/Runtime.v ===== *)
(** The runtime of the native backend ([NativeRuntime] of [agent/src/native_backend/mod.rs]): its state, the
    monad its handlers run in, and what they do to the outside.

    A handler runs on the whole runtime: the world (NetworkManager, the privileged daemon, the Local Agent,
    the clock), the shared [RuntimeState] and the fields beside it.  Every call that waits lets the other
    tasks of the backend run, whose effect on the runtime is an arbitrary function, [meanwhile]; what a
    held lock protects they leave alone.  What the program does to the outside is appended to a log. *)
From S2P Require Export NetDevices LocalAgent SettingsFile.
From S2P Require Api.
From S2P Require Import CatalogPages.
Open Scope string_scope.
Open Scope Z_scope.
Open Scope list_scope.
Open Scope rust_scope.

(** ** State *)
Record TrafficSample : Type := mkTrafficSample {
  ts_rx : Z;
  ts_tx : Z;
  ts_observed_at : Z }.

(** [telemetry::ConnectionFeedbackSession]. *)
Record ConnectionFeedbackSession : Type := mkFeedback {
  fb_started_at : Z;
  fb_target : ConnectionTarget;
  fb_protocol : string;
  fb_trigger : string;
  fb_user_feedback : string;
  fb_viewed : bool;
  fb_sent : bool;
  fb_dismissed : bool }.

(** [RuntimeState]; the deadlines are in milliseconds. *)
Record RuntimeState : Type := mkRuntimeState {
  rs_session : option SessionData;
  rs_session_restore_pending : bool;
  rs_catalog : option ServerCatalog;
  rs_client_config : option ClientConfig;
  rs_settings : NativeSettings;
  rs_selected : option ConnectionTarget;
  rs_traffic : option TrafficSample;
  rs_feedback_enabled : bool;
  rs_feedback_seconds : Z;
  rs_feedback_session : option ConnectionFeedbackSession;
  rs_pending_trigger : string;
  rs_physical_location_known : bool;
  rs_location_identity : option (list string);
  rs_location_retry_after : option Z;
  rs_remote_refresh_after : option Z }.

(** A restored session: nothing is pending any more. *)
Definition set_rs_session (v : option SessionData) (s : RuntimeState) : RuntimeState :=
  let '(mkRuntimeState _ _ c d e f g h i j k l m n o) := s in mkRuntimeState v false c d e f g h i j k l m n o.
Definition set_rs_settings (v : NativeSettings) (s : RuntimeState) : RuntimeState :=
  let '(mkRuntimeState a b c d _ f g h i j k l m n o) := s in mkRuntimeState a b c d v f g h i j k l m n o.
Definition set_rs_selected (v : option ConnectionTarget) (s : RuntimeState) : RuntimeState :=
  let '(mkRuntimeState a b c d e _ g h i j k l m n o) := s in mkRuntimeState a b c d e v g h i j k l m n o.
Definition set_rs_traffic (v : option TrafficSample) (s : RuntimeState) : RuntimeState :=
  let '(mkRuntimeState a b c d e f _ h i j k l m n o) := s in mkRuntimeState a b c d e f v h i j k l m n o.
Definition set_rs_feedback_session (v : option ConnectionFeedbackSession) (s : RuntimeState) : RuntimeState :=
  let '(mkRuntimeState a b c d e f g h i _ k l m n o) := s in mkRuntimeState a b c d e f g h i v k l m n o.
Definition set_rs_pending_trigger (v : string) (s : RuntimeState) : RuntimeState :=
  let '(mkRuntimeState a b c d e f g h i j _ l m n o) := s in mkRuntimeState a b c d e f g h i j v l m n o.

(** What only a holder of [auth_write] changes. *)
Definition keep_session (old s : RuntimeState) : RuntimeState :=
  let '(mkRuntimeState _ _ c d e f g h i j k l m n o) := s in
  mkRuntimeState old.(rs_session) old.(rs_session_restore_pending) c d e f g h i j k l m n o.

(** ** The outside *)

(** The methods of the privileged daemon. *)
Inductive split_call : Type :=
  | SetConfig (uid : Z) (mode : string) (app_paths ip_ranges : list string)
  | ClearConfig (uid : Z)
  | SetDestinationPolicy (uid : Z) (ranges : list string)
  | SetKillSwitchBypass (uid : Z) (enabled : bool) (routes : list (string * string * string)).

Class Host (W : Type) : Type := mkHost {
  (** [Instant::now] in milliseconds, and [tokio::time::sleep]. *)
  ho_now : W -> Z;
  ho_sleep : Z -> W -> W;
  ho_split_bus : W -> result unit string;
  ho_split : split_call -> W -> result unit string * W;
  (** [libc::getuid]. *)
  ho_uid : Z;
  ho_uuid : W -> string * W;
  ho_random : W -> list Z * W;
  (** The creation of the credential directory of an OpenVPN profile with its four files. *)
  ho_credentials : string -> string -> W -> NativeResult string * W;
  (** [StoreHandle::excluded_locations]. *)
  ho_excluded : W -> list ExcludedLocation;
  (** [settings_store::save_value] on the file of the statistics. *)
  ho_save_statistics : json -> W -> NativeResult unit * W;
  (** The random choices of a server selection. *)
  ho_draw : W -> nat -> nat -> nat;
  (** Whether a waiting call is given up at once when the attempt it belongs to has ended. *)
  ho_noticed : W -> bool }.

(** What the program does to the outside, with whether it succeeded. *)
Inductive action : Type :=
  | Reconciled (mode : Z) (tunnel_active : bool) (server_ip : option string) (leak : bool) (ok : bool)
  | Activated (profile : VpnProfile) (ok : bool)
  | Deactivated (uuid : string) (ok : bool)
  | Observed (ok : bool)
  | SplitCalled (call : split_call) (ok : bool)
  | AgentStarted (domain : string) (ok : bool)
  | AgentConfirmed (snapshot : AgentSnapshot)
  | AgentStoppedByUs
  | FeaturesRequested (features : AgentFeatures) (ok : bool)
  | Saved (settings : NativeSettings) (ok : bool)
  | CleanupStarted (uuid : string)
  | RoutingSwitched (alternative : bool)
  | StatisticsCleared (ok : bool)
  | StatisticsFlushed
  | SecretSaved (session : SessionData) (ok : bool)
  | SecretDeleted (account_name : string) (ok : bool)
  | CacheSaved (what : string) (ok : bool)
  | CacheRemoved (what : string) (ok : bool)
  | ApiAsked (method endpoint : string) (ok : bool)
  | SessionRevoked (ok : bool)
  | TelemetryQueued (feedback : ConnectionFeedbackSession) (session : SessionData) (settings : NativeSettings) (exclusions : bool)
  | Emitted (event : string) (data : json).

Record locks : Type := mkLocks {
  lk_network : bool;
  lk_settings : bool;
  lk_auth : bool }.

Section Runtime.
Context {W : Type} {N : NetworkManager W} {A : AgentLib W}.

Record NativeRuntime : Type := mkRuntime {
  rt_world : W;
  rt_state : RuntimeState;
  rt_disk : settings_disk;
  rt_agent : option AgentHandle;
  rt_snapshot : AgentSnapshot;
  rt_owned_uuid : option string;
  rt_split_available : bool;
  rt_policy_available : bool;
  rt_policy_override : option (bool * bool);
  rt_bypass_active : bool;
  rt_attempt : Z;
  rt_pending_auth : option Api.ApiSession;
  rt_locks : locks;
  rt_log : list action }.

Definition set_world (v : W) (r : NativeRuntime) : NativeRuntime :=
  let '(mkRuntime _ b c d e f g h i j k n l m) := r in mkRuntime v b c d e f g h i j k n l m.
Definition set_rt_state (v : RuntimeState) (r : NativeRuntime) : NativeRuntime :=
  let '(mkRuntime a _ c d e f g h i j k n l m) := r in mkRuntime a v c d e f g h i j k n l m.
Definition set_settings_disk (v : settings_disk) (r : NativeRuntime) : NativeRuntime :=
  let '(mkRuntime a b _ d e f g h i j k n l m) := r in mkRuntime a b v d e f g h i j k n l m.
Definition set_agent (v : option AgentHandle) (r : NativeRuntime) : NativeRuntime :=
  let '(mkRuntime a b c _ e f g h i j k n l m) := r in mkRuntime a b c v e f g h i j k n l m.
Definition set_snapshot (v : AgentSnapshot) (r : NativeRuntime) : NativeRuntime :=
  let '(mkRuntime a b c d _ f g h i j k n l m) := r in mkRuntime a b c d v f g h i j k n l m.
Definition set_owned_uuid (v : option string) (r : NativeRuntime) : NativeRuntime :=
  let '(mkRuntime a b c d e _ g h i j k n l m) := r in mkRuntime a b c d e v g h i j k n l m.
Definition set_split_available (v : bool) (r : NativeRuntime) : NativeRuntime :=
  let '(mkRuntime a b c d e f _ h i j k n l m) := r in mkRuntime a b c d e f v h i j k n l m.
Definition set_policy_available (v : bool) (r : NativeRuntime) : NativeRuntime :=
  let '(mkRuntime a b c d e f g _ i j k n l m) := r in mkRuntime a b c d e f g v i j k n l m.
Definition set_override (v : option (bool * bool)) (r : NativeRuntime) : NativeRuntime :=
  let '(mkRuntime a b c d e f g h _ j k n l m) := r in mkRuntime a b c d e f g h v j k n l m.
Definition set_bypass_active (v : bool) (r : NativeRuntime) : NativeRuntime :=
  let '(mkRuntime a b c d e f g h i _ k n l m) := r in mkRuntime a b c d e f g h i v k n l m.
Definition set_attempt (v : Z) (r : NativeRuntime) : NativeRuntime :=
  let '(mkRuntime a b c d e f g h i j _ n l m) := r in mkRuntime a b c d e f g h i j v n l m.
Definition set_pending_auth (v : option Api.ApiSession) (r : NativeRuntime) : NativeRuntime :=
  let '(mkRuntime a b c d e f g h i j k _ l m) := r in mkRuntime a b c d e f g h i j k v l m.
Definition set_locks (v : locks) (r : NativeRuntime) : NativeRuntime :=
  let '(mkRuntime a b c d e f g h i j k n _ m) := r in mkRuntime a b c d e f g h i j k n v m.
Definition add_log (v : list action) (r : NativeRuntime) : NativeRuntime :=
  let '(mkRuntime a b c d e f g h i j k n l m) := r in mkRuntime a b c d e f g h i j k n l (m ++ v).
Definition on_state (f : RuntimeState -> RuntimeState) (r : NativeRuntime) : NativeRuntime := set_rt_state (f r.(rt_state)) r.

(** ** Other tasks *)
Context (meanwhile : NativeRuntime -> NativeRuntime).

(** The tunnel's owner and the policy override are written under [network_write] only, the settings and their
    file under [settings_write], the session and the sign-in that waits under [auth_write]; the log holds this
    task's actions. *)
Definition others (r : NativeRuntime) : NativeRuntime :=
  let r' := meanwhile r in
  let network := r.(rt_locks).(lk_network) in
  let settings := r.(rt_locks).(lk_settings) in
  let auth := r.(rt_locks).(lk_auth) in
  let state := if settings then set_rs_settings r.(rt_state).(rs_settings) r'.(rt_state) else r'.(rt_state) in
  mkRuntime r.(rt_world)
    (if auth then keep_session r.(rt_state) state else state)
    (if settings then r.(rt_disk) else r'.(rt_disk))
    r'.(rt_agent) r'.(rt_snapshot)
    (if network then r.(rt_owned_uuid) else r'.(rt_owned_uuid))
    r'.(rt_split_available) r'.(rt_policy_available)
    (if network then r.(rt_policy_override) else r'.(rt_policy_override))
    r'.(rt_bypass_active) r'.(rt_attempt) (if auth then r.(rt_pending_auth) else r'.(rt_pending_auth)) r.(rt_locks) r.(rt_log).

(** ** The monad *)
Definition RT (B : Type) : Type := NativeRuntime -> outcome B * NativeRuntime.
Definition rt_ret {B : Type} (b : B) : RT B := fun r => (Done (Ok b), r).
Definition rt_throw {B : Type} (e : NativeError) : RT B := fun r => (Done (Err e), r).
Definition rt_bind {B C : Type} (m : RT B) (k : B -> RT C) : RT C := fun r =>
  match m r with
  | (Done (Ok b), r) => k b r
  | (Done (Err e), r) => (Done (Err e), r)
  | (Running, r) => (Running, r)
  end.
(** The run of [m] with its result as a value. *)
Definition rt_try {B C : Type} (m : RT B) (k : NativeResult B -> RT C) : RT C := fun r =>
  match m r with
  | (Done b, r) => k b r
  | (Running, r) => (Running, r)
  end.
Definition rt_get {B : Type} (f : NativeRuntime -> B) : RT B := fun r => (Done (Ok (f r)), r).
Definition rt_result {B : Type} (b : NativeResult B) : RT B := fun r => (Done b, r).
Definition rt_modify (f : NativeRuntime -> NativeRuntime) : RT unit := fun r => (Done (Ok tt), f r).
Definition rt_log_action (a : action) : RT unit := rt_modify (add_log [a]).
Definition rt_ignore {B : Type} (m : RT B) : RT unit := rt_try m (fun _ => rt_ret tt).

Definition outcome_ok {B : Type} (o : outcome B) : bool := match o with Done (Ok _) => true | _ => false end.
(** A run against NetworkManager on a blocking thread. *)
Definition rt_nm {B : Type} (m : NM (W := W) B) (entry : bool -> list action) : RT B := fun r =>
  let '(o, w, _) := m r.(rt_world) in (o, others (add_log (entry (outcome_ok o)) (set_world w r))).
(** Any other call that waits. *)
Definition rt_ext {B : Type} (f : W -> NativeResult B * W) (entry : bool -> list action) : RT B := fun r =>
  let '(b, w) := f r.(rt_world) in (Done b, others (add_log (entry (is_ok b)) (set_world w r))).
(** A wait without any effect of its own. *)
Definition rt_wait : RT unit := fun r => (Done (Ok tt), others r).
Definition emit (event : string) (data : json) : RT unit := rt_log_action (Emitted event data).
Definition stage (method name : string) (cancelable : bool) : RT unit :=
  emit "operation.stage" (jobj [("method", Str method); ("stage", Str name); ("cancelable", Bool cancelable)]).
End Runtime.
Arguments NativeRuntime W {A}.
Arguments RT {W A} B.

Notation "'let@' x ':=' m 'in' k" := (rt_bind m (fun x => k))
  (at level 200, x name, k at level 200, right associativity) : rust_scope.
Notation "'let@' ' x ':=' m 'in' k" := (rt_bind m (fun x => k))
  (at level 200, x strict pattern, k at level 200, right associativity) : rust_scope.
Notation "m ';;@' k" := (rt_bind m (fun _ => k)) (at level 100, k at level 200, right associativity) : rust_scope.
