(* ===== verification/NativeOps.v ===== *)
(** The operations the requests of the native backend share ([agent/src/native_backend/mod.rs],
    [split_tunnel.rs]): the calls to the privileged daemon, destination policy, the kill switch with the
    split-tunnelling bypass, persistence of the settings, and the events published to clients. *)
From S2P Require Export Runtime.
From S2P Require Import CatalogPages.
From S2P Require Export NativeSettings.
Open Scope string_scope.
Open Scope Z_scope.
Open Scope list_scope.
Open Scope rust_scope.

(** ** Names *)
Definition tunnel_state_name (s : TunnelState) : string :=
  match s with Disconnected => "disconnected" | Connecting => "connecting" | Connected => "connected" | TunnelError => "error" end.
Definition NATIVE_VERSION : string := "0.9.11/rust-v2".
Definition jstr (s : string) : json := Str s.
Definition jflag (b : bool) : json := jobj [("enabled", Bool b)].

Definition catalog_unavailable : NativeError :=
  ne_set_retryable true (NativeError_new "catalog_unavailable" "The Proton server catalog is not available in the local cache").
Definition client_config_unavailable : NativeError :=
  ne_set_retryable true (NativeError_new "client_config_unavailable" "The Proton client configuration is not available in the local cache").

Section Ops.
Context {W : Type} {N : NetworkManager W} {D : Devices W} {A : AgentLib W} {H : Host W}.
Context {J : JsonText} {L : IpLib} {C : ServerCrypto} {Cn : Countries} {I : Installed}.
Context (username : string) (meanwhile : NativeRuntime W -> NativeRuntime W) (fuel : nat) (settings_path settings_temp : string).

Abbreviation RT' := (RT (W := W)).
Abbreviation nm m entry := (rt_nm meanwhile m entry).
Abbreviation ext f entry := (rt_ext meanwhile f entry).

(** ** The privileged daemon ([split_tunnel.rs]) *)
Definition split_error (action source : string) : NativeError :=
  ne_set_retryable true (ne_with_source source (NativeError_new "split_tunneling_unavailable"
    ("Unable to " +:+ action +:+ " the Proton-compatible split tunneling service"))).
Definition current_uid : NativeResult Z :=
  ok_or (u_try_from 16 ho_uid) (NativeError_new "split_tunneling_uid_unsupported"
    "The Proton-compatible split tunneling service only supports 16-bit user IDs").

(** One call: the bus, the caller's uid, then the method. *)
Definition split_method (action : string) (call : Z -> split_call) : RT' unit :=
  let@ bus := rt_get (fun r => ho_split_bus r.(rt_world)) in
  rt_result (res_map_err (split_error "connect to") bus) ;;@
  let@ uid := rt_result current_uid in
  ext (fun w => let '(b, w) := ho_split (call uid) w in (res_map_err (split_error action) b, w))
    (fun ok => [SplitCalled (call uid) ok]).

Definition split_apply (enabled : bool) (config : SplitTunnelingConfig) : RT' unit :=
  if enabled
  then split_method "apply" (fun uid => SetConfig uid config.(st_mode) config.(st_app_paths) config.(st_ip_ranges))
  else split_method "clear" ClearConfig.

(** ** Destination policy *)
Definition local_dns_invalid : NativeError :=
  ne_with_source addr_parse_error (NativeError_new "local_dns_invalid" "NetworkManager returned an invalid physical DNS server").
Fixpoint dns_ranges (servers : list string) : NativeResult (list string) :=
  match servers with
  | [] => Ok []
  | server :: servers =>
      let? address := ok_or (addr_from_str server) local_dns_invalid in
      let? rest := dns_ranges servers in
      Ok ((addr_to_string address +:+ (match address with IpV4 _ => "/32" | IpV6 _ => "/128" end)) :: rest)
  end.

Definition destination_policy_unavailable : NativeError :=
  NativeError_new "destination_policy_unavailable" "LAN and local DNS policy require the Proton Omarchy Rust split service".
Definition apply_destination_policy (settings : NativeSettings) : RT' unit :=
  let@ available := rt_get rt_policy_available in
  if negb available then rt_throw destination_policy_unavailable
  else
    let lan := if settings.(ns_allow_lan_connections) then LAN_BYPASS_RANGES else [] in
    let@ dns := (if settings.(ns_allow_local_dns)
                 then let@ servers := nm physical_dns_servers (fun _ => []) in
                      let@ ranges := rt_result (dns_ranges servers) in
                      rt_ret (LOCAL_NAME_BYPASS_RANGES ++ ranges)
                 else rt_ret []) in
    split_method "apply destination policy through" (fun uid => SetDestinationPolicy uid (sorted_set (list_to_set (lan ++ dns)))).

Definition policy_of (s : NativeSettings) : bool * bool := (s.(ns_allow_lan_connections), s.(ns_allow_local_dns)).
Definition apply_connection_destination_policy (global effective : NativeSettings) : RT' unit :=
  if bool_decide (policy_of global = policy_of effective) then rt_modify (set_override None)
  else apply_destination_policy effective ;;@ rt_modify (set_override (Some (policy_of effective))).
Definition restore_global_destination_policy : RT' unit :=
  let@ override := rt_get rt_policy_override in
  match override with
  | None => rt_ret tt
  | Some _ =>
      let@ global := rt_get (fun r => r.(rt_state).(rs_settings)) in
      apply_destination_policy global ;;@ rt_modify (set_override None)
  end.

(** ** The tunnel *)
Definition observe_blocking : RT' TunnelObservation := nm observe (fun ok => [Observed ok]).

Definition emit_backend_state (initialization_error : option string) : RT' unit :=
  rt_try (nm network_blocked (fun _ => [])) (fun blocked =>
    emit "backend" (jobj [("kind", Str "proton_rust"); ("core_available", Bool (bool_decide (initialization_error = None)));
      ("connection_available", Bool (protun_installed || openvpn_installed)); ("connection_availability_known", Bool true);
      ("settings_known", Bool (bool_decide (initialization_error = None))); ("connector_initialized", Bool true);
      ("network_blocked_known", Bool (is_ok blocked)); ("network_blocked", Bool (match blocked with Ok b => b | Err _ => false end));
      ("core_version", Str NATIVE_VERSION); ("error", jopt Str initialization_error)])).

(** ** Kill switch *)
Definition kill_switch_run (mode : Z) (tunnel_active : bool) (server_ip : option string) (leak : bool) : RT' unit :=
  let@ uuid := ext (fun w => let '(u, w) := ho_uuid w in (Ok u, w)) (fun _ => []) in
  nm (NetManager.reconcile_kill_switch username fuel uuid mode tunnel_active server_ip leak)
    (fun ok => [Reconciled mode tunnel_active server_ip leak ok]).
Definition reconcile_kill_switch (mode : Z) (tunnel_active : bool) (server_ip : option string) (leak : bool) : RT' unit :=
  kill_switch_run mode tunnel_active server_ip leak ;;@ emit_backend_state None.

Definition bypass_wanted (s : NativeSettings) : bool :=
  negb (s.(ns_killswitch) =? 0) && s.(ns_features).(sf_split_tunneling).(sts_enabled).
Definition reconcile_split_kill_switch_bypass (settings : NativeSettings) (tunnel_active : bool) : RT' unit :=
  let enabled := tunnel_active && bypass_wanted settings in
  let@ active := rt_get rt_bypass_active in
  if negb enabled && negb (bypass_wanted settings) && negb active then rt_ret tt
  else
    let@ routes := (if enabled then nm physical_default_routes (fun _ => []) else rt_ret []) in
    split_method "configure Kill Switch bypass through" (fun uid => SetKillSwitchBypass uid enabled routes) ;;@
    rt_modify (set_bypass_active enabled).

(** ** Settings *)
Definition persist_settings (settings : NativeSettings) : RT' unit := fun r =>
  let '(result, disk) := save_settings settings_path settings_temp settings r.(rt_disk) in
  let r := add_log [Saved settings (is_ok result)] (set_settings_disk disk r) in
  match result with
  | Ok _ => (Done (Ok tt), on_state (set_rs_settings settings) (others meanwhile r))
  | Err e => (Done (Err e), others meanwhile r)
  end.
End Ops.
