(* ===== verification/NativeEvents.v ===== *)
(** The events the native backend publishes ([emit_connection], [emit_features], [emit_device_location] of
    [agent/src/native_backend/mod.rs]) and the requests that only observe. *)
From S2P Require Export NativeOps.
From S2P Require Import CatalogPages.
From S2P Require Export NativeSettings.
Open Scope string_scope.
Open Scope Z_scope.
Open Scope list_scope.
Open Scope rust_scope.

Section Events.
Context {W : Type} {N : NetworkManager W} {D : Devices W} {A : AgentLib W} {H : Host W}.
Context {J : JsonText} {L : IpLib} {C : ServerCrypto} {Cn : Countries} {I : Installed}.
Context (meanwhile : NativeRuntime W -> NativeRuntime W).

Abbreviation RT' := (RT (W := W)).

(** ** The connection *)

(** The server an unexplained tunnel runs to, by the name and endpoint of its profile. *)
Definition guess_target (catalog : ServerCatalog) (o : TunnelObservation) : option ConnectionTarget :=
  let?? id := o.(to_id) in
  let server_name := unwrap_or (strip_prefix "ProtonVPN " id) id in
  let?? logical := find_first (fun l => eq_ignore_ascii_case l.(ls_name) server_name) catalog.(cat_logical_servers) in
  let up p := p.(ph_status) =? 1 in
  let?? physical := or_else
    (o.(to_endpoint) ?> fun endpoint => find_first (fun p => String.eqb p.(ph_entry_ip) endpoint && up p) logical.(ls_servers))
    (find_first up logical.(ls_servers)) in
  Some (mkTarget logical physical).
Definition with_guess (o : TunnelObservation) (s : RuntimeState) : RuntimeState :=
  match s.(rs_selected), s.(rs_catalog) with
  | None, Some catalog => match guess_target catalog o with Some t => set_rs_selected (Some t) s | None => s end
  | _, _ => s
  end.

Definition feedback_new (now : Z) (target : ConnectionTarget) (protocol trigger : string) : ConnectionFeedbackSession :=
  mkFeedback now target protocol trigger "unknown" false false false.
Definition with_feedback (now : Z) (o : TunnelObservation) (protocol : string) (s : RuntimeState) : RuntimeState :=
  match s.(rs_feedback_session), s.(rs_selected) with
  | None, Some target =>
      if bool_decide (o.(to_state) = Connected)
      then set_rs_feedback_session (Some (feedback_new now target protocol s.(rs_pending_trigger))) s else s
  | _, _ => s
  end.

Definition is_secure_core (o : option ConnectionTarget) : bool :=
  match o with Some target => has_feature FEATURE_SECURE_CORE target.(tg_logical) | None => false end.
Definition server_details (agent : AgentSnapshot) (target : ConnectionTarget) (m : gmap string json) : gmap string json :=
  <["device_country" := jopt Str agent.(as_device_country)]> (<["device_ip" := jopt Str agent.(as_device_ip)]>
  (<["server_ipv6" := jopt Str agent.(as_server_ipv6)]>
  (<["server_ip" := Str (unwrap_or agent.(as_server_ipv4) target.(tg_physical).(ph_exit_ip))]> m))).
Definition server_json (o : TunnelObservation) (agent : AgentSnapshot) (selected : option ConnectionTarget) : json :=
  match selected with
  | None => Null
  | Some target =>
      match o.(to_state) with
      | Disconnected => Null
      | Connected => Obj (server_details agent target (serialized target.(tg_logical)))
      | _ => Obj (serialized target.(tg_logical))
      end
  end.

Definition connection_event (o : TunnelObservation) (agent : AgentSnapshot) (selected : option ConnectionTarget)
    (protocol : string) (error : option string) : json :=
  let restriction := if agent.(as_hard_jailed) then agent.(as_reason_code) else None in
  jobj [("observation_known", Bool true); ("status", Str (tunnel_state_name o.(to_state)));
        ("profile_id", jopt Str o.(to_profile_id)); ("server", server_json o agent selected); ("protocol", Str protocol);
        ("secure_core", Bool (is_secure_core selected)); ("error", jopt Str error);
        ("error_code", jopt Str (option_map (fun code => local_agent_reason_code (Some code)) restriction));
        ("restriction_reason_code", jopt jnum restriction)].

(** What a tunnel that is down leaves behind. *)
Definition after_observation (o : TunnelObservation) (s : RuntimeState) : RuntimeState :=
  if bool_decide (o.(to_state) = Disconnected)
  then set_rs_traffic None (set_rs_selected None (set_rs_feedback_session None s)) else s.
Definition queued_feedback (o : TunnelObservation) (exclusions : bool) (s : RuntimeState) : list action :=
  match s.(rs_feedback_session), s.(rs_session) with
  | Some feedback, Some session =>
      if bool_decide (o.(to_state) = Disconnected) && s.(rs_settings).(ns_share_statistics)
      then [TelemetryQueued feedback session s.(rs_settings) exclusions] else []
  | _, _ => []
  end.

Definition emit_connection (o : TunnelObservation) (error : option string) : RT' unit := fun r =>
  let state := with_guess o r.(rt_state) in
  let protocol := unwrap_or o.(to_protocol) (normalized_protocol state.(rs_settings).(ns_protocol)) in
  let state := with_feedback (ho_now r.(rt_world)) o protocol state in
  let exclusions := match ho_excluded r.(rt_world) with [] => false | _ => true end in
  (Done (Ok tt),
   add_log (Emitted "connection" (connection_event o r.(rt_snapshot) state.(rs_selected) protocol error)
            :: queued_feedback o exclusions state)
     (set_rt_state (after_observation o state) r)).

(** ** Features *)
Definition split_part (c : SplitTunnelingConfig) : json :=
  jobj [("app_paths", strs_to_json c.(st_app_paths)); ("ip_ranges", strs_to_json c.(st_ip_ranges))].
Definition split_state (value : SplitTunnelingSettings) (available ip_ranges_supported : bool) : json :=
  jobj [("mode", Str (if negb value.(sts_enabled) then "off" else if String.eqb value.(sts_mode) "include" then "inverse" else "standard"));
        ("availability_known", Bool true); ("available", Bool available); ("app_paths_supported", Bool available);
        ("ip_ranges_supported", Bool ip_ranges_supported); ("standard", split_part (split_config value "exclude"));
        ("inverse", split_part (split_config value "include"))].

Definition is_some {B : Type} (o : option B) : bool := match o with Some _ => true | None => false end.

Definition writes_json (signed_in paid split_available policy_available : bool) : json :=
  jobj [("protocol", Bool signed_in); ("kill_switch", Bool true); ("netshield", Bool paid); ("vpn_accelerator", Bool paid);
        ("anonymous_crash_reports", Bool false); ("anonymous_usage_statistics", Bool signed_in); ("moderate_nat", Bool paid);
        ("ipv6", Bool signed_in); ("ipv6_leak_protection", Bool signed_in); ("alternative_routing", Bool true);
        ("allow_lan_connections", Bool (signed_in && policy_available)); ("allow_local_dns", Bool (signed_in && policy_available));
        ("custom_dns", Bool signed_in); ("secure_core", Bool signed_in); ("split_tunneling", Bool (signed_in && split_available));
        ("port_forwarding", Bool paid)].

Definition feedback_json (s : RuntimeState) : json :=
  let flag f := match s.(rs_feedback_session) with Some feedback => f feedback | None => false end in
  jobj [("available", Bool (is_some s.(rs_session) && s.(rs_settings).(ns_share_statistics) && s.(rs_feedback_enabled)
                            && flag (fun f => negb f.(fb_dismissed)) && negb (flag fb_sent)));
        ("viewed", Bool (flag fb_viewed)); ("sent", Bool (flag fb_sent)); ("auto_dismiss_seconds", jnum s.(rs_feedback_seconds))].

Definition features_event (s : RuntimeState) (agent : AgentSnapshot) (split_available policy_available : bool) : json :=
  let g := s.(rs_settings) in
  let f := g.(ns_features) in
  let signed_in := is_some s.(rs_session) in
  let paid := match s.(rs_session) with Some session => 0 <? session_tier session | None => false end in
  let protocols := strs_to_json available_protocols in
  jobj [("protocol", jobj [("selected", Str (normalized_protocol g.(ns_protocol))); ("available", protocols); ("profile_available", protocols)]);
        ("kill_switch", jobj [("mode", Str (kill_switch_name g.(ns_killswitch)))]);
        ("netshield", jobj [("level", jnum f.(sf_netshield));
           ("statistics_known", Bool (is_some agent.(as_netshield_malware) || is_some agent.(as_netshield_ads) || is_some agent.(as_netshield_trackers)));
           ("malware_blocked", jnum (unwrap_or agent.(as_netshield_malware) 0)); ("ads_blocked", jnum (unwrap_or agent.(as_netshield_ads) 0));
           ("trackers_blocked", jnum (unwrap_or agent.(as_netshield_trackers) 0))]);
        ("vpn_accelerator", jflag f.(sf_vpn_accelerator)); ("anonymous_crash_reports", jflag false);
        ("anonymous_usage_statistics", jflag g.(ns_share_statistics)); ("connection_feedback", feedback_json s);
        ("moderate_nat", jflag f.(sf_moderate_nat)); ("ipv6", jflag g.(ns_ipv6)); ("ipv6_leak_protection", jflag g.(ns_ipv6_leak_protection));
        ("alternative_routing", jflag g.(ns_alternative_routing)); ("allow_lan_connections", jflag g.(ns_allow_lan_connections));
        ("allow_local_dns", jflag g.(ns_allow_local_dns)); ("secure_core", Bool (is_secure_core s.(rs_selected)));
        ("split_tunneling", split_state f.(sf_split_tunneling) split_available policy_available);
        ("port_forwarding", jobj [("enabled", Bool f.(sf_port_forwarding)); ("active_port", jopt jnum agent.(as_forwarded_port))]);
        ("custom_dns", jobj [("enabled", Bool g.(ns_custom_dns).(cd_enabled));
           ("servers", strs_to_json (if g.(ns_custom_dns).(cd_enabled) then omap dns_value g.(ns_custom_dns).(cd_ip_list) else []))]);
        ("writes", writes_json signed_in paid split_available policy_available);
        ("known", Bool true); ("writable", Bool signed_in)].
Definition emit_features : RT' unit := fun r =>
  (Done (Ok tt), add_log [Emitted "features"
     (features_event r.(rt_state) r.(rt_snapshot) r.(rt_split_available) r.(rt_policy_available))] r).

Definition emit_device_location : RT' unit := fun r =>
  (Done (Ok tt),
   match r.(rt_state).(rs_session) with
   | None => r
   | Some session =>
       let location := session.(sd_vpn).(vs_location) in
       add_log [Emitted "device_location"
         (jobj [("known", Bool r.(rt_state).(rs_physical_location_known)); ("ip_address", Str location.(vl_ip));
                ("country_code", Str location.(vl_country)); ("isp", Str location.(vl_isp));
                ("latitude", jopt jfloat location.(vl_lat)); ("longitude", jopt jfloat location.(vl_long))])] r
   end).

(** ** Requests *)
Definition ensure_session_restored (s : RuntimeState) : NativeResult unit :=
  if s.(rs_session_restore_pending)
  then Err (ne_set_retryable true (NativeError_new "keyring_unavailable" "Waiting for the desktop keyring to restore the saved Proton session"))
  else Ok tt.
Definition session_of (s : RuntimeState) : NativeResult (SessionData * Z) :=
  let? _ := ensure_session_restored s in
  let? session := ok_or s.(rs_session) (NativeError_new "not_authenticated" "Sign in to Proton before using VPN controls") in
  Ok (session, session_tier session).
Definition require_session : RT' (SessionData * Z) := fun r => (Done (session_of r.(rt_state)), r).

Definition connection_observe : RT' json :=
  require_session ;;@
  let@ o := observe_blocking meanwhile in
  emit_connection o None ;;@ emit_features ;;@
  rt_ret (jobj [("observation_known", Bool true); ("status", Str (tunnel_state_name o.(to_state)));
                ("owned", Bool o.(to_owned)); ("connector_initialized", Bool true)]).

Definition netshield_stats : RT' json :=
  let@ o := observe_blocking meanwhile in
  if negb (bool_decide (o.(to_state) = Connected))
  then rt_ret (jobj [("requested", Bool false); ("reason", Str "not_connected")])
  else
    let@ agent := rt_get rt_agent in
    let@ handle := rt_result (ok_or agent (NativeError_new "connection_not_owned"
                     "Reconnect with the native backend before requesting NetShield statistics")) in
    rt_ext meanwhile (fun w => let '(b, w) := agent_request_status handle (Some true) LOCAL_AGENT_TIMEOUT_SECONDS w in
                     (res_map_err (fun e => agent_error e.(ae_text)) b, w)) (fun _ => []) ;;@
    rt_ret (jobj [("requested", Bool true)]).
End Events.
