(* ===== verification/NativeConn.v ===== *)
(** The connection state machine of the native backend ([connection_connect], [connection_cancel],
    [connection_disconnect] and the teardown of an owned tunnel in
    [agent/src/native_backend/mod.rs]).

    A connection attempt is a number; cancelling or disconnecting takes the next one, which an attempt in
    progress notices at its next look.  Waiting beside [wait_for_connection_cancel] is [race_cancel], a
    deadline is [within].  The loop that polls the tunnel has fuel. *)
From S2P Require Export NativeEvents.
From S2P Require Import CatalogPages.
From S2P Require Export NativeSettings.
Open Scope string_scope.
Open Scope Z_scope.
Open Scope list_scope.
Open Scope rust_scope.

Definition CONNECTION_TIMEOUT : Z := 45000.
Definition LOCAL_AGENT_READY_TIMEOUT : Z := 20000.
Definition CONNECTION_POLL_INTERVAL : Z := 125.

(** The tunnel a new connection may replace: only one that this program owns and knows. *)
Definition replacement_connection_uuid (o : TunnelObservation) (owned_uuid : option string) : NativeResult (option string) :=
  if bool_decide (o.(to_state) = Disconnected) then Ok None
  else
    match o.(to_owned), o.(to_uuid), owned_uuid with
    | true, Some active_uuid, Some known_uuid =>
        if String.eqb active_uuid known_uuid then Ok (Some active_uuid)
        else Err (NativeError_new "connection_active" "The active VPN connection belongs to another client and cannot be replaced")
    | _, _, _ => Err (NativeError_new "connection_active" "The active VPN connection belongs to another client and cannot be replaced")
    end.

Definition connection_cancelled : NativeError := NativeError_new "connection_cancelled" "VPN connection attempt was cancelled".
Definition connection_timeout : NativeError :=
  ne_set_retryable true (NativeError_new "connection_timeout" "VPN connection timed out before the tunnel became ready").
Definition connection_failed (message protocol : string) : NativeError :=
  ne_set_retryable true (ne_with_details (jobj [("protocol", Str protocol)]) (NativeError_new "connection_failed" message)).
Definition accepted : json := jobj [("accepted", Bool true)].

Section Conn.
Context {W : Type} {N : NetworkManager W} {D : Devices W} {A : AgentLib W} {H : Host W}.
Context {J : JsonText} {L : IpLib} {C : ServerCrypto} {P : ProfileCrypto} {Cn : Countries} {I : Installed}.
Context (username : string) (meanwhile : NativeRuntime W -> NativeRuntime W) (fuel : nat).

Abbreviation RT' := (RT (W := W)).
Abbreviation observe_now := (observe_blocking meanwhile).
Abbreviation kill_switch := (kill_switch_run username meanwhile fuel).

(** ** Attempts, locks, races *)
Definition next_attempt : RT' Z := fun r =>
  let attempt := (r.(rt_attempt) + 1) mod 2 ^ 64 in (Done (Ok attempt), set_attempt attempt r).
Definition check_connection_attempt (attempt : Z) : RT' unit := fun r =>
  (Done (if r.(rt_attempt) =? attempt then Ok tt else Err connection_cancelled), r).

(** [tokio::select!], biased, of [wait_for_connection_cancel] and [m]: the former is asked first; while [m]
    runs it looks every [CONNECTION_POLL_INTERVAL], so [m] may still end before a change is noticed. *)
Definition race_cancel {B : Type} (attempt : Z) (m : RT' B) : RT' B :=
  check_connection_attempt attempt ;;@
  rt_try m (fun result r =>
    if negb (r.(rt_attempt) =? attempt) && ho_noticed r.(rt_world) then (Done (Err connection_cancelled), r)
    else (Done result, r)).
(** [tokio::time::timeout_at]: the result of [m] unless it comes too late. *)
Definition within {B : Type} (deadline : Z) (late : NativeError) (m : RT' B) : RT' B :=
  rt_try m (fun result r => (Done (if deadline <? ho_now r.(rt_world) then Err late else result), r)).

(** [let _guard = self.network_write.lock().await;] for the rest of a handler; the waiting itself is the
    caller's.  The lock is not reentrant: a task that waits for it while it holds it waits for ever. *)
Definition hold_network (held : bool) (r : NativeRuntime W) : NativeRuntime W :=
  set_locks (mkLocks held r.(rt_locks).(lk_settings) r.(rt_locks).(lk_auth)) r.
Definition with_network {B : Type} (m : RT' B) : RT' B := fun r =>
  if r.(rt_locks).(lk_network) then (Running, r)
  else let '(o, r) := m (hold_network true r) in (o, hold_network false r).

(** [let _auth = self.auth_write.lock().await;] for the rest of a handler. *)
Definition hold_auth (held : bool) (r : NativeRuntime W) : NativeRuntime W :=
  set_locks (mkLocks r.(rt_locks).(lk_network) r.(rt_locks).(lk_settings) held) r.
Definition with_auth {B : Type} (m : RT' B) : RT' B := fun r =>
  if r.(rt_locks).(lk_auth) then (Running, r)
  else let '(o, r) := m (hold_auth true r) in (o, hold_auth false r).

(** ** Teardown *)
Definition stop_local_agent : RT' unit :=
  rt_modify (fun r => add_log [AgentStoppedByUs] (set_snapshot AgentSnapshot_default (set_agent None r))).

Definition selected_ip (r : NativeRuntime W) : option string :=
  option_map (fun t => t.(tg_physical).(ph_entry_ip)) r.(rt_state).(rs_selected).
Definition disconnect_uuid_run (uuid : string) : RT' bool :=
  rt_nm meanwhile (disconnect_uuid uuid) (fun ok => [Deactivated uuid ok]).

(** What follows once nothing bypasses the tunnel any more. *)
Definition take_down (settings : NativeSettings) (server_ip : option string) (uuid : string) : RT' unit :=
  stop_local_agent ;;@
  disconnect_uuid_run uuid ;;@
  kill_switch settings.(ns_killswitch) false server_ip settings.(ns_ipv6_leak_protection) ;;@
  rt_modify (fun r => on_state (fun s => set_rs_traffic None (set_rs_selected None s)) (set_owned_uuid None r)) ;;@
  let@ o := observe_now in
  emit_connection o None ;;@ emit_features.
Definition disconnect_owned_inner (uuid : string) : RT' unit :=
  let@ settings := rt_get (fun r => r.(rt_state).(rs_settings)) in
  let@ server_ip := rt_get selected_ip in
  reconcile_split_kill_switch_bypass meanwhile settings false ;;@
  restore_global_destination_policy meanwhile ;;@
  take_down settings server_ip uuid.

Definition disconnect_inner : RT' unit :=
  let@ owned := rt_get rt_owned_uuid in
  match owned with Some uuid => disconnect_owned_inner uuid | None => rt_ret tt end.
Definition cleanup_owned_connection (uuid : string) : RT' unit :=
  rt_log_action (CleanupStarted uuid) ;;@ rt_ignore (disconnect_owned_inner uuid).

Definition connection_cancel : RT' json :=
  let@ cancelled := next_attempt in
  stage "connection.connect" "tunnel.cancelling" false ;;@
  rt_wait meanwhile ;;@
  with_network (
    let@ current := rt_get rt_attempt in
    if negb (current =? cancelled) then rt_ret accepted
    else disconnect_inner ;;@ rt_ret accepted).

Definition connection_disconnect : RT' json :=
  let@ _ := next_attempt in
  stage "connection.disconnect" "tunnel.disconnecting" false ;;@
  rt_wait meanwhile ;;@
  with_network (
    let@ owned := rt_get rt_owned_uuid in
    let@ uuid := rt_result (ok_or owned (NativeError_new "connection_not_owned" "The active VPN connection belongs to another Proton client")) in
    disconnect_owned_inner uuid ;;@ rt_ret accepted).

Definition disconnect_after_local_agent_rejection : RT' unit :=
  let@ _ := next_attempt in
  let@ owned := rt_get rt_owned_uuid in
  match owned with
  | None => rt_ret tt
  | Some uuid => rt_wait meanwhile ;;@ with_network (rt_ignore (disconnect_owned_inner uuid))
  end.

(** ** The Local Agent *)
Definition agent_start (domain : string) (session : SessionData) (features : option AgentFeatures) : RT' AgentHandle :=
  if is_empty (trim domain)
  then rt_throw (NativeError_new "local_agent_domain_missing" "The selected Proton server has no Local Agent domain")
  else
    let@ key := rt_result (private_key_pem session) in
    let@ handle := rt_ext meanwhile (fun w =>
        let '(b, w) := agent_connect domain key session.(sd_vpn).(vs_certificate).(vc_certificate) LOCAL_AGENT_TIMEOUT_SECONDS w in
        (res_map_err connect_error b, w)) (fun ok => [AgentStarted domain ok]) in
    match features with
    | None => rt_ret handle
    | Some f =>
        rt_ext meanwhile (fun w =>
          let '(b, w) := agent_request_features handle f LOCAL_AGENT_TIMEOUT_SECONDS w in
          (res_map_err (fun e => agent_error e.(ae_text)) b, w)) (fun ok => [FeaturesRequested f ok]) ;;@
        rt_ret handle
    end.

Definition local_agent_timeout : NativeError :=
  ne_set_retryable true (NativeError_new "local_agent_timeout" "The Proton Local Agent did not confirm the VPN session in time").
(** [timeout(LOCAL_AGENT_READY_TIMEOUT, wait_for_local_agent_ready(updates))]. *)
Definition await_ready (handle : AgentHandle) (late : NativeError) : RT' AgentSnapshot :=
  rt_ext meanwhile (fun w =>
    let '(updates, w) := agent_updates handle (Some LOCAL_AGENT_READY_TIMEOUT) w in
    (match (wait_for_local_agent_ready updates).1 with Some result => result | None => Err late end, w)) (fun _ => []).

(** ** Connecting *)
Record connection_plan : Type := mkPlan {
  pl_target : ConnectionTarget;
  pl_client_config : ClientConfig;
  pl_global : NativeSettings;
  pl_settings : NativeSettings;
  pl_protocol : string;
  pl_profile_applied : bool }.

Definition plan_of (params : json) (session : SessionData) (tier : Z) (r : NativeRuntime W) : NativeResult connection_plan :=
  let s := r.(rt_state) in
  let? catalog := ok_or s.(rs_catalog) catalog_unavailable in
  let? config := ok_or s.(rs_client_config) client_config_unavailable in
  let? '(settings, protocol, applied) := effective_connection_settings params s.(rs_settings) tier in
  let? target := Catalog.select (ho_draw r.(rt_world)) catalog params tier (ho_excluded r.(rt_world))
                   (if s.(rs_physical_location_known) then session.(sd_vpn).(vs_location).(vl_country) else "") in
  Ok (mkPlan target config s.(rs_settings) settings protocol applied).

(** [VpnProfile::new], with the random values and the files it takes from the outside. *)
Definition new_profile (p : connection_plan) (session : SessionData) (profile_id : option string) : RT' VpnProfile :=
  let@ uuid := rt_ext meanwhile (fun w => let '(u, w) := ho_uuid w in (Ok u, w)) (fun _ => []) in
  let@ random := rt_ext meanwhile (fun w => let '(b, w) := ho_random w in (Ok b, w)) (fun _ => []) in
  let@ directory := (if is_openvpn p.(pl_protocol)
                     then match openvpn_inputs random p.(pl_target) p.(pl_protocol) session p.(pl_client_config) with
                          | Ok (_, _, _, key) => rt_ext meanwhile (fun w => let '(b, w) := ho_credentials uuid key w in (Ok b, w)) (fun _ => [])
                          | Err e => rt_throw e
                          end
                     else rt_ret (Ok "")) in
  rt_result (VpnProfile_new uuid random (fun _ => directory) p.(pl_target) p.(pl_protocol) session p.(pl_client_config)
               p.(pl_settings) profile_id).

Definition connecting_event (p : connection_plan) (profile_id : option string) (status : string) (error : option NativeError)
    (conflicts : list string) : json :=
  jobj [("observation_known", Bool true); ("status", Str status); ("profile_id", jopt Str profile_id);
        ("server", Obj (serialized p.(pl_target).(tg_logical))); ("protocol", Str p.(pl_protocol));
        ("secure_core", Bool (has_feature FEATURE_SECURE_CORE p.(pl_target).(tg_logical)));
        ("error", jopt (fun e => Str e.(ne_message)) error); ("error_code", jopt (fun e => Str e.(ne_code)) error);
        ("network_conflicts", strs_to_json conflicts)].
Definition connected_answer (p : connection_plan) : json :=
  jobj [("accepted", Bool true); ("server", Obj (serialized p.(pl_target).(tg_logical))); ("protocol", Str p.(pl_protocol));
        ("profile_settings_applied", Bool p.(pl_profile_applied));
        ("secure_core", Bool (has_feature FEATURE_SECURE_CORE p.(pl_target).(tg_logical)))].

(** Every failure after the activation but one. *)
Definition fail_cleaning {B : Type} (uuid : string) (e : NativeError) : RT' B := cleanup_owned_connection uuid ;;@ rt_throw e.

(** The tunnel is up and the session confirmed. *)
Definition confirm_session (p : connection_plan) (attempt : Z) (uuid : string) (o : TunnelObservation) (handle : AgentHandle) : RT' json :=
  rt_modify (set_agent (Some handle)) ;;@
  rt_try (race_cancel attempt (await_ready handle local_agent_timeout)) (fun readiness =>
    match readiness with
    | Err e => fail_cleaning uuid e
    | Ok ready =>
        rt_modify (fun r => add_log [AgentConfirmed ready] (set_snapshot ready r)) ;;@
        emit_connection o None ;;@ emit_features ;;@
        rt_ret (connected_answer p)
    end).

(** The polling loop, from its activation at [started_at]. *)
Fixpoint connect_loop (polls : nat) (p : connection_plan) (session : SessionData) (tier attempt started_at : Z) (uuid : string)
    (conflicts : list string) : RT' json :=
  match polls with
  | O => fun r => (Running, r)
  | S polls =>
      let again := connect_loop polls p session tier attempt started_at uuid conflicts in
      let deadline := started_at + CONNECTION_TIMEOUT in
      let@ current := rt_get rt_attempt in
      if negb (current =? attempt) then fail_cleaning uuid connection_cancelled
      else
        let@ o := observe_now in
        let@ now := rt_get (fun r => ho_now r.(rt_world)) in
        match o.(to_state) with
        | Connected =>
            rt_try (reconcile_split_kill_switch_bypass meanwhile p.(pl_settings) true) (fun secured =>
              match secured with
              | Err e => fail_cleaning uuid e
              | Ok _ =>
                  stage "connection.connect" "tunnel.securing_session" true ;;@
                  let requested := if 0 <? tier then Some (connection_agent_features p.(pl_settings) p.(pl_target)) else None in
                  rt_try (race_cancel attempt (within deadline connection_timeout
                            (agent_start p.(pl_target).(tg_logical).(ls_domain) session requested))) (fun started =>
                    match started with
                    | Ok handle => confirm_session p attempt uuid o handle
                    | Err e =>
                        let@ now := rt_get (fun r => ho_now r.(rt_world)) in
                        if String.eqb e.(ne_code) "local_agent_connect_timeout" && (now <? deadline) then again
                        else fail_cleaning uuid e
                    end)
              end)
        | TunnelError =>
            let e := with_network_conflicts (connection_failed "NetworkManager reported that the VPN tunnel failed" p.(pl_protocol)) conflicts in
            emit_connection o (Some e.(ne_message)) ;;@ fail_cleaning uuid e
        | _ =>
            if bool_decide (o.(to_state) = Disconnected) && (2000 <=? now - started_at)
            then fail_cleaning uuid (with_network_conflicts
                   (connection_failed "The VPN service stopped before the tunnel became ready" p.(pl_protocol)) conflicts)
            else if deadline <=? now
            then fail_cleaning uuid (with_network_conflicts
                   (ne_set_retryable true (ne_with_details (jobj [("protocol", Str p.(pl_protocol))]) connection_timeout)) conflicts)
            else
              rt_ext meanwhile (fun w => (Ok tt, ho_sleep CONNECTION_POLL_INTERVAL w)) (fun _ => []) ;;@ again
        end
  end.

(** [reconcile_kill_switch], then [connect], on one blocking thread. *)
Definition activate_tunnel (p : connection_plan) (profile : VpnProfile) : RT' TunnelObservation :=
  let reconcile active := kill_switch p.(pl_settings).(ns_killswitch) active (Some p.(pl_target).(tg_physical).(ph_entry_ip))
                            p.(pl_settings).(ns_ipv6_leak_protection) in
  reconcile true ;;@
  rt_try (rt_nm meanwhile (nm_connect username ho_uid profile) (fun ok => [Activated profile ok])) (fun activation =>
    match activation with
    | Ok o => rt_ret o
    | Err e => rt_ignore (reconcile false) ;;@ rt_throw e
    end).

(** The tunnel of this program that is up gives way to the new one. *)
Definition replace_owned (o : TunnelObservation) : RT' unit :=
  let@ owned := rt_get rt_owned_uuid in
  let@ replaced := rt_result (replacement_connection_uuid o owned) in
  match replaced with
  | None => rt_ret tt
  | Some uuid =>
      stage "connection.connect" "tunnel.disconnecting" true ;;@
      disconnect_owned_inner uuid ;;@
      let@ o := observe_now in
      if bool_decide (o.(to_state) = Disconnected) then rt_ret tt
      else rt_throw (ne_set_retryable true (NativeError_new "disconnect_failed" "The active VPN connection did not stop before reconnecting"))
  end.

Definition select_server (params : json) : RT' (SessionData * Z * connection_plan) :=
  let@ '(session, tier) := require_session in
  rt_modify (on_state (set_rs_pending_trigger (connection_trigger params))) ;;@
  stage "connection.connect" "tunnel.selecting_server" true ;;@
  let@ plan := rt_get (plan_of params session tier) in
  let@ p := rt_result plan in
  rt_ret (session, tier, p).

(** From the policy for the destinations on. *)
Definition establish (p : connection_plan) (session : SessionData) (tier attempt : Z) (profile_id : option string)
    (profile : VpnProfile) (conflicts : list string) : RT' json :=
  apply_connection_destination_policy meanwhile p.(pl_global) p.(pl_settings) ;;@
  rt_try (check_connection_attempt attempt) (fun current =>
  match current with
  | Err e => restore_global_destination_policy meanwhile ;;@ rt_throw e
  | Ok _ =>
      stage "connection.connect" "tunnel.connecting" true ;;@
      emit "connection" (connecting_event p profile_id "connecting" None conflicts) ;;@
      rt_try (activate_tunnel p profile) (fun activation =>
      match activation with
      | Err e =>
          let e := with_network_conflicts e conflicts in
          restore_global_destination_policy meanwhile ;;@
          emit "connection" (connecting_event p profile_id "error" (Some e) conflicts) ;;@
          rt_throw e
      | Ok activation =>
          rt_modify (fun r => on_state (fun s => set_rs_traffic None (set_rs_selected (Some p.(pl_target)) s))
                                (set_owned_uuid activation.(to_uuid) r)) ;;@
          let@ started_at := rt_get (fun r => ho_now r.(rt_world)) in
          connect_loop fuel p session tier attempt started_at (profile_uuid profile) conflicts
      end)
  end).
(** What follows the choice of the server. *)
Definition connect_planned (p : connection_plan) (session : SessionData) (tier attempt : Z) (profile_id : option string) : RT' json :=
  let@ current := observe_now in
  check_connection_attempt attempt ;;@
  replace_owned current ;;@
  let@ profile := new_profile p session profile_id in
  rt_try (rt_nm meanwhile conflicting_interfaces (fun _ => [])) (fun found =>
    establish p session tier attempt profile_id profile (match found with Ok conflicts => conflicts | Err _ => [] end)).
(** The part that runs under [network_write]. *)
Definition connect_locked (params : json) (attempt : Z) (profile_id : option string) : RT' json :=
  let@ '(session, tier, p) := select_server params in connect_planned p session tier attempt profile_id.

(** [prepare] is the refreshing of the session, the certificate and the catalog, in a task of its own. *)
Definition prepared (prepare : RuntimeState -> W -> NativeResult unit * RuntimeState * W) : RT' unit := fun r =>
  let '(b, state, w) := prepare r.(rt_state) r.(rt_world) in (Done b, others meanwhile (set_rt_state state (set_world w r))).
Definition connection_connect (prepare : RuntimeState -> W -> NativeResult unit * RuntimeState * W) (params : json) : RT' json :=
  let@ attempt := next_attempt in
  race_cancel attempt (prepared prepare) ;;@
  let@ profile_id := rt_result (connection_profile_id params) in
  race_cancel attempt (rt_wait meanwhile) ;;@
  race_cancel attempt (rt_wait meanwhile) ;;@
  with_network (connect_locked params attempt profile_id).
End Conn.
