(* ===== verification/RuntimeLaws.v ===== *)
(** Reasoning about handlers of the native backend: Hoare triples for the monad of [Runtime], and protocols.

    A protocol is an automaton over the actions a handler performs on the outside.  [along ph own] says that
    the actions performed since [start] lead the automaton to the phase [ph], while [network_write] is held
    and the tunnel's owner is [own]; its rules turn a handler's effects into moves of the automaton. *)
From S2P Require Export NativeConn.
From S2P Require Import CatalogPages.
From S2P Require Export NativeSettings.
Open Scope string_scope.
Open Scope Z_scope.
Open Scope list_scope.
Open Scope rust_scope.

Section Triples.
Context {W : Type} {N : NetworkManager W} {A : AgentLib W} (meanwhile : NativeRuntime W -> NativeRuntime W).
Abbreviation RT' := (RT (W := W)).
Abbreviation assertion := (NativeRuntime W -> Prop).

Definition triple {B : Type} (Pre : assertion) (m : RT' B) (Q : B -> assertion) (E : NativeError -> assertion) : Prop :=
  forall r o r', Pre r -> m r = (o, r') ->
  match o with Done (Ok b) => Q b r' | Done (Err e) => E e r' | Running => True end.

Section Rules.
Context {B C : Type}.
Implicit Types (P R : assertion) (m : RT' B).

Lemma triple_ret P (b : B) (Q : B -> assertion) E : (forall r, P r -> Q b r) -> triple P (rt_ret b) Q E.
Proof. intros H r o r' Hr [= <- <-]. by apply H. Qed.
Lemma triple_throw P e (Q : B -> assertion) E : (forall r, P r -> E e r) -> triple P (rt_throw e) Q E.
Proof. intros H r o r' Hr [= <- <-]. by apply H. Qed.
Lemma triple_result P (b : NativeResult B) (Q : B -> assertion) E :
  (forall x r, b = Ok x -> P r -> Q x r) -> (forall e r, b = Err e -> P r -> E e r) -> triple P (rt_result b) Q E.
Proof. intros HQ HE r o r' Hr [= <- <-]. destruct b; [by apply HQ|by apply HE]. Qed.
Lemma triple_get P (f : NativeRuntime W -> B) (Q : B -> assertion) E : (forall r, P r -> Q (f r) r) -> triple P (rt_get f) Q E.
Proof. intros H r o r' Hr [= <- <-]. by apply H. Qed.
Lemma triple_modify P f (Q : unit -> assertion) E : (forall r, P r -> Q tt (f r)) -> triple P (rt_modify f) Q E.
Proof. intros H r o r' Hr [= <- <-]. by apply H. Qed.
Lemma triple_bind P m (k : B -> RT' C) (R : B -> assertion) Q E :
  triple P m R E -> (forall b, triple (R b) (k b) Q E) -> triple P (rt_bind m k) Q E.
Proof.
  intros Hm Hk r o r' Hr. unfold rt_bind. destruct (m r) as [[[b|e]|] r1] eqn:E1; pose proof (Hm _ _ _ Hr E1) as H1; cbn in H1.
  - by apply Hk.
  - by intros [= <- <-].
  - by intros [= <- <-].
Qed.
Lemma triple_try P m (k : NativeResult B -> RT' C) (R : B -> assertion) (X : NativeError -> assertion) Q E :
  triple P m R X -> (forall b, triple (R b) (k (Ok b)) Q E) -> (forall e, triple (X e) (k (Err e)) Q E) ->
  triple P (rt_try m k) Q E.
Proof.
  intros Hm Hok Herr r o r' Hr. unfold rt_try. destruct (m r) as [[[b|e]|] r1] eqn:E1; pose proof (Hm _ _ _ Hr E1) as H1; cbn in H1.
  - by apply Hok.
  - by apply Herr.
  - by intros [= <- <-].
Qed.
Lemma triple_weaken P P' m (Q Q' : B -> assertion) (E E' : NativeError -> assertion) :
  triple P m Q E -> (forall r, P' r -> P r) -> (forall b r, Q b r -> Q' b r) -> (forall e r, E e r -> E' e r) -> triple P' m Q' E'.
Proof. intros H HP HQ HE r o r' Hr Hm. specialize (H _ _ _ (HP _ Hr) Hm). destruct o as [[b|e]|]; auto. Qed.
Lemma triple_loosen P m (Q : B -> assertion) (E E' : NativeError -> assertion) :
  triple P m Q E -> (forall e r, E e r -> E' e r) -> triple P m Q E'.
Proof. intros H HE. by eapply triple_weaken. Qed.
Lemma triple_pre P P' m Q E : (forall r, P' r -> P r) -> triple P m Q E -> triple P' m Q E.
Proof. intros H Hm. eapply triple_weaken; eauto. Qed.
Lemma triple_fact (F : Prop) P m Q E : (F -> triple P m Q E) -> triple (fun r => F /\ P r) m Q E.
Proof. intros H r o r' [HF Hr] Hm. by eapply H. Qed.
Lemma triple_or P P' m Q E : triple P m Q E -> triple P' m Q E -> triple (fun r => P r \/ P' r) m Q E.
Proof. intros H1 H2 r o r' [Hr|Hr]; [by apply H1|by apply H2]. Qed.
Lemma triple_some {X : Type} (P : X -> assertion) m Q E : (forall x, triple (P x) m Q E) -> triple (fun r => exists x, P x r) m Q E.
Proof. intros H r o r' [x Hr] Hm. by eapply H. Qed.
End Rules.

Section Steps.
Context {B C : Type}.
Implicit Types (P R : assertion).
Lemma triple_then P (m : RT' C) (k : C -> RT' B) R Q E :
  triple P m (fun _ => R) E -> (forall b, triple R (k b) Q E) -> triple P (rt_bind m k) Q E.
Proof. apply triple_bind. Qed.
Lemma triple_read P (f : NativeRuntime W -> C) (k : C -> RT' B) Q E :
  (forall b, triple (fun r => f r = b /\ P r) (k b) Q E) -> triple P (rt_bind (rt_get f) k) Q E.
Proof. intros H. eapply triple_bind; [|exact H]. by apply triple_get. Qed.
Lemma triple_take P (f : NativeRuntime W -> C) (k : C -> RT' B) Q E :
  (forall b, triple P (k b) Q E) -> triple P (rt_bind (rt_get f) k) Q E.
Proof. intros H. apply triple_read. intros b. eapply triple_pre; [|apply H]. by intros r [_ Hr]. Qed.
Lemma triple_check P (b : NativeResult C) (k : C -> RT' B) Q E :
  (forall x, b = Ok x -> triple P (k x) Q E) -> (forall e r, b = Err e -> P r -> E e r) -> triple P (rt_bind (rt_result b) k) Q E.
Proof.
  intros HQ HE. eapply (triple_bind _ _ _ (fun x r => b = Ok x /\ P r)); [by apply triple_result|]. intros x. by apply triple_fact, HQ.
Qed.
End Steps.

Lemma triple_ignore {B : Type} (P : assertion) (m : RT' B) (Q : unit -> assertion) E :
  triple P m (fun _ => Q tt) (fun _ => Q tt) -> triple P (rt_ignore m) Q E.
Proof. intros H. eapply triple_try; [exact H|intros ?; by apply triple_ret..]. Qed.

(** ** What the others leave alone *)
Lemma others_log r : (others meanwhile r).(rt_log) = r.(rt_log).
Proof. done. Qed.
Lemma others_locks r : (others meanwhile r).(rt_locks) = r.(rt_locks).
Proof. done. Qed.
Lemma others_owned r : r.(rt_locks).(lk_network) = true -> (others meanwhile r).(rt_owned_uuid) = r.(rt_owned_uuid).
Proof. intros H. unfold others. cbn. by rewrite H. Qed.

(** ** Protocols *)
Section Protocol.
Context {phase : Type} (advance : phase -> action -> option phase) (first : phase) (start : list action).

Fixpoint walk (ph : phase) (l : list action) : option phase :=
  match l with [] => Some ph | a :: l => match advance ph a with Some ph => walk ph l | None => None end end.

Lemma walk_app ph l1 l2 : walk ph (l1 ++ l2) = match walk ph l1 with Some ph => walk ph l2 | None => None end.
Proof. revert ph. induction l1 as [|a l1 IH]; intros ph; [done|]. cbn. destruct (advance ph a); [apply IH|done]. Qed.

Definition along (ph : phase) (own : option string) : assertion := fun r =>
  r.(rt_locks).(lk_network) = true /\ r.(rt_owned_uuid) = own /\
  exists l, r.(rt_log) = start ++ l /\ walk first l = Some ph.

Lemma along_log ph ph' own l r : along ph own r -> walk ph l = Some ph' -> along ph' own (add_log l r).
Proof.
  intros (Hl & Ho & l0 & Hlog & Hw) H. destruct r. cbn in *. split_and!; [done..|]. exists (l0 ++ l). rewrite Hlog, <- app_assoc.
  by rewrite walk_app, Hw.
Qed.
Lemma along_others ph own r : along ph own r -> along ph own (others meanwhile r).
Proof. intros (Hl & Ho & Hlog). split_and!; [done| |done]. by rewrite others_owned. Qed.
(** A change of what the assertion does not speak of. *)
Lemma along_frame ph own r r' :
  r'.(rt_locks) = r.(rt_locks) -> r'.(rt_owned_uuid) = r.(rt_owned_uuid) -> r'.(rt_log) = r.(rt_log) -> along ph own r -> along ph own r'.
Proof. intros H1 H2 H3 (Hl & Ho & Hlog). unfold along. by rewrite H1, H2, H3. Qed.

Context {B : Type}.
Lemma along_nm ph own (m : NM (W := W) B) entry yes no :
  walk ph (entry true) = Some yes -> walk ph (entry false) = Some no ->
  triple (along ph own) (rt_nm meanwhile m entry) (fun b r => along yes own r) (fun e r => along no own r).
Proof.
  intros Hy Hn r o r' Hr. unfold rt_nm. destruct (m (rt_world r)) as [[o' w] s]. intros [= <- <-].
  destruct o' as [[b|e]|]; [| |done]; apply along_others; eapply along_log; [|exact Hy| |exact Hn];
    (eapply along_frame; [| | |exact Hr]; by destruct r).
Qed.
Lemma along_ext ph own (f : W -> NativeResult B * W) entry yes no :
  walk ph (entry true) = Some yes -> walk ph (entry false) = Some no ->
  triple (along ph own) (rt_ext meanwhile f entry)
    (fun b r => (exists w, (f w).1 = Ok b) /\ along yes own r) (fun e r => (exists w, (f w).1 = Err e) /\ along no own r).
Proof.
  intros Hy Hn r o r' Hr. unfold rt_ext. destruct (f (rt_world r)) as [b w] eqn:Ef. intros [= <- <-].
  destruct b as [b|e]; (split; [exists (rt_world r); by rewrite Ef|]); apply along_others; eapply along_log; [|exact Hy| |exact Hn];
    (eapply along_frame; [| | |exact Hr]; by destruct r).
Qed.

Lemma along_draw ph own (f : W -> B * W) E :
  triple (along ph own) (rt_ext meanwhile (fun w => let '(b, w) := f w in (Ok b, w)) (fun _ => [])) (fun _ => along ph own) E.
Proof.
  intros r o r' Hr. unfold rt_ext. destruct (f (rt_world r)) as [b w]. intros [= <- <-]. apply along_others.
  eapply along_log; [|done]. eapply along_frame; [| | |exact Hr]; by destruct r.
Qed.
Lemma along_modify ph own own' f E :
  (forall r, (f r).(rt_locks) = r.(rt_locks)) -> (forall r, r.(rt_owned_uuid) = own -> (f r).(rt_owned_uuid) = own') ->
  (forall r, (f r).(rt_log) = r.(rt_log)) -> triple (along ph own) (rt_modify f) (fun _ => along ph own') E.
Proof.
  intros H1 H2 H3. apply triple_modify. intros r (Hl & Ho & Hlog). unfold along. rewrite H1, H3. split_and!; [done| |done]. by apply H2.
Qed.
Lemma along_action ph own a ph' E :
  advance ph a = Some ph' -> triple (along ph own) (rt_log_action a) (fun _ => along ph' own) E.
Proof. intros H. apply triple_modify. intros r Hr. eapply along_log; [exact Hr|]. cbn. by rewrite H. Qed.
Lemma along_wait ph own E : triple (along ph own) (rt_wait meanwhile) (fun _ => along ph own) E.
Proof. intros r o r' Hr [= <- <-]. by apply along_others. Qed.
End Protocol.
End Triples.

(** ** Shared operations *)
Section Shared.
Context {W : Type} {N : NetworkManager W} {D : Devices W} {A : AgentLib W} {H : Host W}.
Context {J : JsonText} {L : IpLib} {C : ServerCrypto} {P : ProfileCrypto} {Cn : Countries} {I : Installed}.
Context (username : string) (meanwhile : NativeRuntime W -> NativeRuntime W) (fuel : nat).
Context {phase : Type} (advance : phase -> action -> option phase) (first : phase) (start : list action).
Abbreviation along' := (along advance first start).
Abbreviation stays ph own m := (triple (along' ph own) m (fun _ => along' ph own) (fun _ => along' ph own)).

(** Events, calls to the privileged daemon and observations do not leave a quiet phase. *)
Record quiet (ph : phase) : Prop := mkQuiet {
  qt_emit : forall event data, advance ph (Emitted event data) = Some ph;
  qt_split : forall call ok, advance ph (SplitCalled call ok) = Some ph;
  qt_observe : forall ok, advance ph (Observed ok) = Some ph;
  qt_telemetry : forall f s g x, advance ph (TelemetryQueued f s g x) = Some ph }.

Lemma emit_along ph own event data E :
  advance ph (Emitted event data) = Some ph -> triple (along' ph own) (emit event data) (fun _ => along' ph own) E.
Proof. apply along_action. Qed.

Lemma split_method_along ph own action call yes :
  (forall uid, advance ph (SplitCalled (call uid) true) = Some yes) -> (forall uid, advance ph (SplitCalled (call uid) false) = Some ph) ->
  triple (along' ph own) (split_method meanwhile action call) (fun _ => along' yes own) (fun _ => along' ph own).
Proof.
  intros Hy Hn. unfold split_method. apply triple_take. intros bus. apply triple_check; [intros _ _|done].
  apply triple_check; [intros uid _|done]. eapply triple_weaken; [apply along_ext| | |].
  - cbn. by rewrite Hy.
  - cbn. by rewrite Hn.
  - done.
  - by intros _ r [_ Hr].
  - by intros _ r [_ Hr].
Qed.

Lemma apply_policy_along ph own settings yes :
  (forall uid ranges, advance ph (SplitCalled (SetDestinationPolicy uid ranges) true) = Some yes) ->
  (forall uid ranges, advance ph (SplitCalled (SetDestinationPolicy uid ranges) false) = Some ph) ->
  triple (along' ph own) (apply_destination_policy meanwhile settings) (fun _ => along' yes own) (fun _ => along' ph own).
Proof.
  intros Hy Hn. unfold apply_destination_policy. apply triple_take. intros available.
  destruct (negb available); [by apply triple_throw|]. apply (triple_then _ _ _ (along' ph own)).
  - destruct settings.(ns_allow_local_dns); [|by apply triple_ret].
    eapply triple_then; [by apply along_nm|intros servers]. apply triple_check; [intros ranges _; by apply triple_ret|done].
  - intros dns. apply split_method_along; intros uid; [apply Hy|apply Hn].
Qed.
Lemma apply_destination_policy_along ph own settings : quiet ph -> stays ph own (apply_destination_policy meanwhile settings).
Proof. intros Hq. apply apply_policy_along; intros; by apply qt_split. Qed.
Lemma override_along ph own v E : triple (along' ph own) (rt_modify (set_override v)) (fun _ => along' ph own) E.
Proof. by apply along_modify; intros []. Qed.
Lemma apply_connection_policy_along ph own global effective :
  quiet ph -> stays ph own (apply_connection_destination_policy meanwhile global effective).
Proof.
  intros Hq. unfold apply_connection_destination_policy. case_bool_decide; [apply override_along|].
  eapply triple_then; [by apply apply_destination_policy_along|intros _]. apply override_along.
Qed.
Lemma restore_global_along ph own : quiet ph -> stays ph own (restore_global_destination_policy meanwhile).
Proof.
  intros Hq. unfold restore_global_destination_policy. apply triple_take. intros [o|]; [|by apply triple_ret].
  apply triple_take. intros global. eapply triple_then; [by apply apply_destination_policy_along|intros _]. apply override_along.
Qed.

(** The call that configures the bypass, made unless neither the settings nor the last call ask for it. *)
Lemma bypass_along_from ph own active settings tunnel_active yes :
  (forall uid routes, advance ph (SplitCalled (SetKillSwitchBypass uid (tunnel_active && bypass_wanted settings) routes) true) = Some yes) ->
  (forall call, advance ph (SplitCalled call false) = Some ph) ->
  triple (fun r => r.(rt_bypass_active) = active /\ along' ph own r)
    (reconcile_split_kill_switch_bypass meanwhile settings tunnel_active)
    (fun _ r => along' yes own r \/ (bypass_wanted settings = false /\ active = false /\ along' ph own r)) (fun _ => along' ph own).
Proof.
  intros Hy Hn. unfold reconcile_split_kill_switch_bypass. apply triple_read. intros active'.
  apply (triple_pre (fun r => active' = active /\ along' ph own r)); [intros r (? & ? & ?); by split; [congruence|]|].
  apply triple_fact. intros ->.
  destruct (negb _ && negb _ && negb active) eqn:Hskip.
  { apply triple_ret. intros r Hr. right. apply andb_true_iff in Hskip as [Hskip Ha%negb_true_iff].
    apply andb_true_iff in Hskip as [_ Hskip%negb_true_iff]. done. }
  apply (triple_then _ _ _ (along' ph own)); [destruct (tunnel_active && _); [by apply along_nm|by apply triple_ret]|intros routes].
  eapply triple_then; [apply split_method_along; [intros uid; apply Hy|intros uid; apply Hn]|intros _].
  eapply triple_weaken; [by apply (along_modify advance first start yes own own); intros []|by intros r Hr; exact Hr|by left|by intros e r Hr; exact Hr].
Qed.
Lemma bypass_along ph own settings tunnel_active yes :
  (forall uid routes, advance ph (SplitCalled (SetKillSwitchBypass uid (tunnel_active && bypass_wanted settings) routes) true) = Some yes) ->
  (forall call, advance ph (SplitCalled call false) = Some ph) ->
  triple (along' ph own) (reconcile_split_kill_switch_bypass meanwhile settings tunnel_active)
    (fun _ r => along' yes own r \/ (bypass_wanted settings = false /\ along' ph own r)) (fun _ => along' ph own).
Proof.
  intros Hy Hn r o r' Hr E. pose proof (bypass_along_from ph own _ settings tunnel_active yes Hy Hn r o r' (conj eq_refl Hr) E) as HQ.
  destruct o as [[b|e]|]; [|done..]. destruct HQ as [HQ|(? & _ & ?)]; [by left|by right].
Qed.

Lemma observe_along ph own yes no :
  advance ph (Observed true) = Some yes -> advance ph (Observed false) = Some no ->
  triple (along' ph own) (observe_blocking meanwhile) (fun _ => along' yes own) (fun _ => along' no own).
Proof. intros Hy Hn. apply along_nm; cbn; [by rewrite Hy|by rewrite Hn]. Qed.
Lemma kill_switch_along ph own mode tunnel_active ip leak yes no :
  advance ph (Reconciled mode tunnel_active ip leak true) = Some yes -> advance ph (Reconciled mode tunnel_active ip leak false) = Some no ->
  triple (along' ph own) (kill_switch_run username meanwhile fuel mode tunnel_active ip leak) (fun _ => along' yes own) (fun _ => along' no own).
Proof.
  intros Hy Hn. unfold kill_switch_run. eapply triple_then; [apply along_draw|intros uuid].
  apply along_nm; cbn; [by rewrite Hy|by rewrite Hn].
Qed.
Lemma publish_along ph own o error E :
  (forall event data, advance ph (Emitted event data) = Some ph) ->
  (forall f s g x, advance ph (TelemetryQueued f s g x) = Some ph) ->
  triple (along' ph own) (emit_connection o error) (fun _ => along' ph own) E.
Proof.
  intros He Ht r x r' Hr [= <- <-]. eapply along_log; [eapply along_frame; [| | |exact Hr]; by destruct r|].
  cbn. rewrite He. unfold queued_feedback. repeat case_match; cbn; by rewrite ?Ht.
Qed.
Lemma emit_connection_along ph own o error E : quiet ph -> triple (along' ph own) (emit_connection o error) (fun _ => along' ph own) E.
Proof. intros [He _ _ Ht]. by apply publish_along. Qed.
Lemma emit_features_along ph own E : quiet ph -> triple (along' ph own) emit_features (fun _ => along' ph own) E.
Proof. intros Hq r x r' Hr [= <- <-]. eapply along_log; [exact Hr|]. cbn. by rewrite (qt_emit _ Hq). Qed.

(** ** Races and deadlines *)
Abbreviation assertion := (NativeRuntime W -> Prop).
Lemma race_cancel_along {B : Type} P0 attempt (m : RT (W := W) B) (Q : B -> assertion) (X : NativeError -> assertion) :
  triple P0 m Q X -> (forall r, P0 r -> X connection_cancelled r) -> (forall b r, Q b r -> X connection_cancelled r) ->
  (forall e r, X e r -> X connection_cancelled r) -> triple P0 (race_cancel attempt m) Q X.
Proof.
  intros Hm H0 HQ HX. unfold race_cancel. eapply (triple_then _ _ _ P0).
  - intros r o r' Hr [= <- <-]. destruct (rt_attempt r =? attempt); [exact Hr|by apply H0].
  - intros _. eapply triple_try; [exact Hm| |].
    + intros b r o r' Hr. destruct (_ && _); intros [= <- <-]; [by eapply HQ|done].
    + intros e r o r' Hr. destruct (_ && _); intros [= <- <-]; [by eapply HX|done].
Qed.
Lemma within_along {B : Type} P0 deadline late (m : RT (W := W) B) (Q : B -> assertion) (X : NativeError -> assertion) :
  triple P0 m Q X -> (forall b r, Q b r -> X late r) -> (forall e r, X e r -> X late r) -> triple P0 (within deadline late m) Q X.
Proof.
  intros Hm HQ HX. unfold within. eapply triple_try; [exact Hm| |].
  - intros b r o r' Hr. destruct (deadline <? _); intros [= <- <-]; [by eapply HQ|done].
  - intros e r o r' Hr. destruct (deadline <? _); intros [= <- <-]; [by eapply HX|done].
Qed.

(** ** Teardown *)

(** A phase in which the tunnel [uuid] may be taken down. *)
Record tearing (ph : phase) (uuid : string) : Prop := mkTearing {
  td_quiet : quiet ph;
  td_stop : advance ph AgentStoppedByUs = Some ph;
  td_deactivate : forall ok, advance ph (Deactivated uuid ok) = Some ph;
  td_reconcile : forall mode ip leak ok, advance ph (Reconciled mode false ip leak ok) = Some ph }.

Lemma stop_along ph ph' own E : advance ph AgentStoppedByUs = Some ph' -> triple (along' ph own) stop_local_agent (fun _ => along' ph' own) E.
Proof.
  intros Hs. apply triple_modify. intros r Hr. eapply along_log; [eapply along_frame; [| | |exact Hr]; by destruct r|]. cbn. by rewrite Hs.
Qed.

(** With the tunnel's owner left open on failure. *)
Lemma triple_loosely {B : Type} ph own ph' (m : RT (W := W) B) R :
  triple (along' ph own) m R (fun _ => along' ph' own) -> triple (along' ph own) m R (fun _ r => exists own, along' ph' own r).
Proof. intros Hm. eapply triple_weaken; [exact Hm|done|done|]. intros e r Hr. by exists own. Qed.

Lemma disconnect_owned_along ph own uuid :
  tearing ph uuid ->
  triple (along' ph own) (disconnect_owned_inner username meanwhile fuel uuid)
    (fun _ => along' ph None) (fun _ r => exists own, along' ph own r).
Proof.
  intros [Hq Hs Hd Hk]. unfold disconnect_owned_inner, take_down. apply triple_take. intros settings. apply triple_take. intros ip.
  eapply (triple_then _ _ _ (along' ph own)).
  { eapply triple_weaken; [apply (bypass_along ph own settings false ph); intros; apply (qt_split _ Hq)|done|by intros _ r [Hp|[_ Hp]]|intros e r Hr; by exists own]. }
  intros _. eapply triple_then; [apply triple_loosely; by apply (restore_global_along ph own)|intros _].
  eapply triple_then; [by apply stop_along|intros _].
  eapply triple_then; [apply triple_loosely; apply (along_nm meanwhile advance first start ph own _ _ ph ph); cbn; by rewrite Hd|intros _].
  eapply triple_then; [apply triple_loosely; by apply (kill_switch_along ph own)|intros _].
  eapply triple_then; [apply (along_modify advance first start ph own None); by intros []|intros _].
  eapply triple_then; [apply triple_loosely; by apply (observe_along ph None ph ph); apply qt_observe|intros o].
  eapply triple_then; [by apply emit_connection_along|intros _]. by apply emit_features_along.
Qed.

Lemma disconnect_inner_along ph own :
  (forall uuid, own = Some uuid -> tearing ph uuid) ->
  triple (along' ph own) (disconnect_inner username meanwhile fuel)
    (fun _ => along' ph None) (fun _ r => exists own, along' ph own r).
Proof.
  intros Ht. apply triple_read. intros owned. apply (triple_pre (fun r => owned = own /\ along' ph own r)).
  { intros r [Ho Hr]. split; [|done]. destruct Hr as (_ & Hr & _). congruence. }
  apply triple_fact. intros ->. destruct own as [uuid|]; [by apply disconnect_owned_along, Ht|by apply triple_ret].
Qed.
Lemma cleanup_along ph ph' own uuid E :
  advance ph (CleanupStarted uuid) = Some ph' -> tearing ph' uuid ->
  triple (along' ph own) (cleanup_owned_connection username meanwhile fuel uuid) (fun _ r => exists own, along' ph' own r) E.
Proof.
  intros Hc Ht. eapply triple_then; [by apply along_action|intros _]. apply triple_ignore.
  eapply triple_weaken; [by apply disconnect_owned_along|done|intros ? r Hr; by exists None|done].
Qed.
End Shared.
