(* ===== verification/NativeProtocol.v ===== *)
(** The connection protocol: what a connection attempt ([connect_locked] of [NativeConn]) may do to the outside
    and in which order, as an automaton over actions, and the theorem that the handler follows it.

    The automaton knows the tunnel the program owned when the attempt took [network_write] and the plan of
    the attempt.  Up to the activation it only lets the owned tunnel go down; then the kill switch is
    reconciled for the new server, the tunnel activated, the bypass of the split tunnelling secured, the Local
    Agent reached and the session confirmed; anything else is a cleanup of the tunnel that was activated. *)
From S2P Require Export RuntimeLaws.
From S2P Require Import CatalogPages.
From S2P Require Export NativeSettings.
Open Scope string_scope.
Open Scope Z_scope.
Open Scope list_scope.
Open Scope rust_scope.

Inductive phase : Type :=
  | Preparing
  | Refused
  | Guarded
  | Active (profile : VpnProfile) (secured : bool)
  | Unseen (profile : VpnProfile)
  | Joined (profile : VpnProfile)
  | Confirmed (profile : VpnProfile) (snapshot : AgentSnapshot)
  | Cleaning (profile : VpnProfile).

Definition keep_if (b : bool) (ph : phase) : option phase := if b then Some ph else None.
Definition is_quiet (a : action) : bool :=
  match a with Emitted _ _ | SplitCalled _ _ | Observed _ | TelemetryQueued _ _ _ _ => true | _ => false end.
(** The teardown of the tunnel [uuid]. *)
Definition is_teardown (uuid : string) (a : action) : bool :=
  match a with
  | AgentStoppedByUs => true
  | Deactivated u _ => String.eqb u uuid
  | Reconciled _ tunnel_active _ _ _ => negb tunnel_active
  | _ => is_quiet a
  end.

Definition advance (own : option string) (p : connection_plan) (ph : phase) (a : action) : option phase :=
  let s := p.(pl_settings) in
  match ph with
  | Preparing =>
      match a with
      | Reconciled mode true ip leak ok =>
          keep_if (bool_decide ((mode, ip, leak) = (s.(ns_killswitch), Some p.(pl_target).(tg_physical).(ph_entry_ip), s.(ns_ipv6_leak_protection))))
            (if ok then Guarded else Refused)
      | _ => keep_if (match own with Some uuid => is_teardown uuid a | None => is_quiet a end) Preparing
      end
  | Refused => keep_if (is_teardown "" a && match a with Deactivated _ _ => false | _ => true end) Refused
  | Guarded => match a with Activated profile ok => Some (if ok then Active profile false else Refused) | _ => None end
  | Active profile secured =>
      match a with
      | Observed ok => Some (if ok then ph else Unseen profile)
      | SplitCalled (SetKillSwitchBypass _ enabled _) true => Some (Active profile enabled)
      | AgentStarted domain ok =>
          keep_if ((secured || negb (bypass_wanted s)) && String.eqb domain p.(pl_target).(tg_logical).(ls_domain))
            (if ok then Joined profile else ph)
      | CleanupStarted uuid => keep_if (String.eqb uuid (profile_uuid profile)) (Cleaning profile)
      | _ => keep_if (is_quiet a) ph
      end
  | Unseen _ => None
  | Joined profile =>
      match a with
      | FeaturesRequested features _ => keep_if (bool_decide (features = connection_agent_features s p.(pl_target))) ph
      | AgentConfirmed snapshot => keep_if snapshot.(as_connected) (Confirmed profile snapshot)
      | CleanupStarted uuid => keep_if (String.eqb uuid (profile_uuid profile)) (Cleaning profile)
      | _ => None
      end
  | Confirmed _ _ => keep_if (is_quiet a) ph
  | Cleaning profile => keep_if (is_teardown (profile_uuid profile) a) ph
  end.

(** The phases in which a failed attempt may leave the protocol. *)
Definition settled (ph : phase) : bool :=
  match ph with Preparing | Refused | Unseen _ | Cleaning _ => true | _ => false end.

Section Connecting.
Context {W : Type} {N : NetworkManager W} {D : Devices W} {A : AgentLib W} {H : Host W}.
Context {J : JsonText} {L : IpLib} {C : ServerCrypto} {P : ProfileCrypto} {Cn : Countries} {I : Installed}.
Context (username : string) (meanwhile : NativeRuntime W -> NativeRuntime W) (fuel : nat).
Context (owner : option string) (p : connection_plan) (start : list action).
Abbreviation along' := (along (advance owner p) Preparing start).
Abbreviation assertion := (NativeRuntime W -> Prop).

Lemma quiet_phase ph :
  (forall a, is_quiet a = true -> advance owner p ph a = Some ph) -> quiet (advance owner p) ph.
Proof. intros Hq. split; intros; by apply Hq. Qed.
Lemma tearing_phase ph uuid :
  (forall a, is_teardown uuid a = true -> advance owner p ph a = Some ph) -> tearing (advance owner p) ph uuid.
Proof. intros Ht. split; [apply quiet_phase; intros a Ha; apply Ht; by destruct a|intros; apply Ht; cbn; rewrite ?String.eqb_refl; done..]. Qed.

Lemma preparing_quiet : quiet (advance owner p) Preparing.
Proof. apply quiet_phase. intros a Ha. destruct a; try done; cbn; by destruct owner. Qed.
Lemma preparing_tearing uuid : owner = Some uuid -> tearing (advance owner p) Preparing uuid.
Proof. intros Ho. apply tearing_phase. intros a Ha. rewrite Ho. destruct a; try done; cbn in *; [by destruct tunnel_active|by rewrite Ha]. Qed.
Lemma refused_quiet : quiet (advance owner p) Refused.
Proof. apply quiet_phase. by intros []. Qed.
Lemma confirmed_quiet profile snapshot : quiet (advance owner p) (Confirmed profile snapshot).
Proof. apply quiet_phase. intros a Ha. cbn. by rewrite Ha. Qed.
Lemma cleaning_tearing profile : tearing (advance owner p) (Cleaning profile) (profile_uuid profile).
Proof. apply tearing_phase. intros a Ha. cbn. by rewrite Ha. Qed.

(** ** Failures *)
Definition left_settled : assertion := fun r => exists ph own, settled ph = true /\ along' ph own r.
Lemma settle ph own r : settled ph = true -> along' ph own r -> left_settled r.
Proof. intros Hs Hr. by exists ph, own. Qed.

(** The phases from which a cleanup is allowed. *)
Definition cleanable (profile : VpnProfile) (ph : phase) : Prop := ph = Joined profile \/ exists secured, ph = Active profile secured.

Lemma fail_cleaning_settles {B : Type} profile own ph e (Q : B -> assertion) :
  cleanable profile ph ->
  triple (along' ph own) (fail_cleaning username meanwhile fuel (profile_uuid profile) e) Q (fun _ => left_settled).
Proof.
  intros Hc. assert (Ha : advance owner p ph (CleanupStarted (profile_uuid profile)) = Some (Cleaning profile)).
  { destruct Hc as [->|[secured ->]]; cbn; by rewrite String.eqb_refl. }
  unfold fail_cleaning. eapply triple_bind; [apply (cleanup_along _ _ _ _ _ _ _ _ _ _ _ Ha), cleaning_tearing|].
  intros []. apply triple_some. intros own'. apply triple_throw. intros r Hr. by apply (settle (Cleaning profile) own').
Qed.

(** ** The session *)
Definition RETRY : string := "local_agent_connect_timeout".
(** A failed start either has not reached the Local Agent, or has and is not tried again. *)
Definition not_started (profile : VpnProfile) (secured : bool) (own : option string) (e : NativeError) : assertion := fun r =>
  along' (Active profile secured) own r \/ (e.(ne_code) <> RETRY /\ along' (Joined profile) own r).

Definition features_for (tier : Z) : option AgentFeatures := if 0 <? tier then Some (connection_agent_features p.(pl_settings) p.(pl_target)) else None.
Lemma agent_start_along profile secured own session tier :
  secured || negb (bypass_wanted p.(pl_settings)) = true ->
  triple (along' (Active profile secured) own)
    (agent_start meanwhile p.(pl_target).(tg_logical).(ls_domain) session (features_for tier))
    (fun _ => along' (Joined profile) own) (not_started profile secured own).
Proof.
  intros Hs. unfold agent_start. destruct (is_empty _); [apply triple_throw; by left|].
  apply triple_check; [intros key _|by left].
  eapply triple_then.
  - eapply triple_weaken; [apply (along_ext meanwhile (advance owner p) Preparing start (Active profile secured) own _ _ (Joined profile) (Active profile secured))| | |].
    + cbn. by rewrite Hs, String.eqb_refl.
    + cbn. by rewrite Hs, String.eqb_refl.
    + done.
    + by intros b r [_ Hr].
    + intros e r [_ Hr]. by left.
  - intros handle. unfold features_for. destruct (0 <? tier); [|by apply triple_ret].
    eapply triple_then.
    + eapply triple_weaken; [apply (along_ext meanwhile (advance owner p) Preparing start (Joined profile) own _ _ (Joined profile) (Joined profile))| | |].
      * cbn. by rewrite bool_decide_eq_true_2.
      * cbn. by rewrite bool_decide_eq_true_2.
      * done.
      * by intros b r [_ Hr].
      * intros e r [[w Hw] Hr]. right. split; [|done]. destruct (agent_request_features _ _ _ w) as [[|x] w']; [discriminate|by injection Hw as <-].
    + intros _. by apply triple_ret.
Qed.

Lemma await_ready_along ph own handle late :
  triple (along' ph own) (await_ready meanwhile handle late)
    (fun snapshot r => snapshot.(as_connected) = true /\ along' ph own r) (fun _ => along' ph own).
Proof.
  eapply triple_weaken; [by apply along_ext|done| |by intros e r [_ Hr]].
  intros snapshot r [[w Hw] Hr]. split; [|done]. destruct (agent_updates handle _ w) as [updates w'].
  destruct (wait_for_local_agent_ready updates) as [[[s|]|] rest] eqn:E; try discriminate. injection Hw as <-.
  by apply wait_ready_connected in E as [? _].
Qed.

(** The result of an attempt: the session is confirmed, or the failure settled. *)
Definition confirmed (profile : VpnProfile) (answer : json) : assertion := fun r =>
  answer = connected_answer p /\ exists snapshot own, along' (Confirmed profile snapshot) own r.
Abbreviation concludes Pre m profile := (triple Pre m (confirmed profile) (fun _ => left_settled)).

Lemma confirm_session_concludes profile own attempt o handle :
  concludes (along' (Joined profile) own) (confirm_session username meanwhile fuel p attempt (profile_uuid profile) o handle) profile.
Proof.
  unfold confirm_session. eapply triple_then; [by apply (along_modify (advance owner p) Preparing start (Joined profile) own own); intros []|intros _].
  eapply triple_try; [apply race_cancel_along; [apply (await_ready_along (Joined profile) own)|done|by intros ? r [_ Hr]|done]| |].
  - intros ready. apply triple_fact. intros Hready.
    eapply (triple_then _ _ _ (along' (Confirmed profile ready) own)).
    { apply triple_modify. intros r Hr. eapply along_log; [eapply along_frame; [| | |exact Hr]; by destruct r|]. cbn. by rewrite Hready. }
    intros _. eapply triple_then; [apply emit_connection_along, confirmed_quiet|intros _].
    eapply triple_then; [apply emit_features_along, confirmed_quiet|intros _].
    apply triple_ret. intros r Hr. split; [done|]. by exists ready, own.
  - intros e. apply fail_cleaning_settles. by left.
Qed.

Lemma connect_loop_concludes profile polls secured own session tier attempt started_at conflicts :
  concludes (along' (Active profile secured) own)
    (connect_loop username meanwhile fuel polls p session tier attempt started_at (profile_uuid profile) conflicts) profile.
Proof.
  revert secured. induction polls as [|polls IH]; intros secured; [by intros r o r' _ [= <- <-]|]. cbn [connect_loop].
  assert (Hfail : forall e, concludes (along' (Active profile secured) own) (fail_cleaning username meanwhile fuel (profile_uuid profile) e) profile).
  { intros e. apply fail_cleaning_settles. right. by exists secured. }
  apply triple_take. intros current. destruct (negb (current =? attempt)); [apply Hfail|].
  eapply triple_then; [eapply triple_weaken; [by apply (observe_along meanwhile (advance owner p) Preparing start (Active profile secured) own (Active profile secured) (Unseen profile))|done..|]|intros o].
  { intros e r Hr. by apply (settle (Unseen profile) own). }
  apply triple_take. intros now.
  assert (Hrest : concludes (along' (Active profile secured) own)
     (if bool_decide (o.(to_state) = Disconnected) && (2000 <=? now - started_at)
      then fail_cleaning username meanwhile fuel (profile_uuid profile) (with_network_conflicts
             (connection_failed "The VPN service stopped before the tunnel became ready" p.(pl_protocol)) conflicts)
      else if started_at + CONNECTION_TIMEOUT <=? now
      then fail_cleaning username meanwhile fuel (profile_uuid profile) (with_network_conflicts
             (ne_set_retryable true (ne_with_details (jobj [("protocol", Str p.(pl_protocol))]) connection_timeout)) conflicts)
      else rt_ext meanwhile (fun w => (Ok tt, ho_sleep CONNECTION_POLL_INTERVAL w)) (fun _ => []) ;;@
           connect_loop username meanwhile fuel polls p session tier attempt started_at (profile_uuid profile) conflicts) profile).
  { destruct (_ && _); [apply Hfail|]. destruct (_ <=? now); [apply Hfail|].
    eapply triple_then; [|intros _; apply IH].
    eapply triple_weaken; [by apply (along_ext meanwhile (advance owner p) Preparing start (Active profile secured) own)|done|by intros ? r [_ Hr]|].
    intros e r [[w Hw] _]. discriminate Hw. }
  destruct o.(to_state) eqn:Hstate; [exact Hrest|exact Hrest| |].
  2:{ eapply triple_then; [by apply publish_along|intros _; apply Hfail]. }
  clear Hrest. eapply triple_try; [apply (bypass_along meanwhile (advance owner p) Preparing start (Active profile secured) own _ true (Active profile (bypass_wanted p.(pl_settings))))| |].
  - intros uid routes. cbn. done.
  - by intros [].
  - intros []. apply (triple_pre (fun r => exists secured', secured' || negb (bypass_wanted p.(pl_settings)) = true /\ along' (Active profile secured') own r)).
    { intros r [Hr|[Hw Hr]]; [exists (bypass_wanted p.(pl_settings))|exists secured; rewrite Hw]; by rewrite orb_negb_r || rewrite orb_true_r. }
    apply triple_some. intros secured'. apply triple_fact. intros Hs.
    eapply triple_then; [by apply emit_along|intros _].
    eapply triple_try; [apply race_cancel_along; [apply within_along; [by apply (agent_start_along profile secured' own session tier)| |]|..]| |].
    all: try by intros; right.
    + intros e r [Hr|[_ Hr]]; [by left|by right].
    + intros r Hr. by left.
    + intros e r [Hr|[_ Hr]]; [by left|by right].
    + intros handle. apply confirm_session_concludes.
    + intros e. apply triple_take. intros now'. destruct (String.eqb e.(ne_code) _ && (now' <? _)) eqn:Hagain.
      * apply andb_true_iff in Hagain as [Hc%String.eqb_eq _]. eapply triple_pre; [|apply (IH secured')].
        by intros r [Hr|[Hn _]].
      * apply triple_or; [apply fail_cleaning_settles; right; by exists secured'|].
        apply triple_fact. intros _. apply fail_cleaning_settles. by left.
  - intros e. apply Hfail.
Qed.

(** ** Up to the activation *)
Lemma activate_tunnel_along own profile :
  triple (along' Preparing own) (activate_tunnel username meanwhile fuel p profile)
    (fun _ => along' (Active profile false) own) (fun _ => along' Refused own).
Proof.
  unfold activate_tunnel.
  eapply triple_then; [apply (kill_switch_along username meanwhile fuel (advance owner p) Preparing start Preparing own); cbn;
    by rewrite bool_decide_eq_true_2|intros ?].
  eapply triple_try; [by apply (along_nm meanwhile (advance owner p) Preparing start Guarded own)|intros o; by apply triple_ret|intros e].
  apply (triple_then _ _ _ (along' Refused own)).
  - apply triple_ignore. by apply (kill_switch_along username meanwhile fuel (advance owner p) Preparing start Refused own).
  - intros []. by apply triple_throw.
Qed.

Definition prepared_owner : assertion := fun r => exists own, along' Preparing own r.
Lemma prepared_settled r : prepared_owner r -> left_settled r.
Proof. intros [own Hr]. by apply (settle Preparing own). Qed.

Lemma replace_owned_along o :
  triple (along' Preparing owner) (replace_owned username meanwhile fuel o) (fun _ => prepared_owner) (fun _ => left_settled).
Proof.
  unfold replace_owned. apply triple_read. intros owned. apply (triple_pre (fun r => owned = owner /\ along' Preparing owner r)).
  { intros r [Ho Hr]. split; [|done]. destruct Hr as (_ & Hr & _). congruence. }
  apply triple_fact. intros ->. apply triple_check; [intros replaced Hrep|by intros; apply (settle Preparing owner)].
  destruct replaced as [uuid|]; [|apply triple_ret; intros r Hr; by exists owner].
  assert (Ho : owner = Some uuid).
  { revert Hrep. unfold replacement_connection_uuid. case_bool_decide; [done|]. destruct (to_owned o), (to_uuid o), owner; try done.
    destruct (String.eqb_spec s s0) as [->|]; [congruence|done]. }
  eapply triple_then; [apply emit_along, preparing_quiet|intros _].
  eapply triple_then; [eapply triple_weaken; [apply (disconnect_owned_along username meanwhile fuel (advance owner p) Preparing start Preparing owner);
    by apply preparing_tearing|done..|]|intros _]; [intros ? r; apply prepared_settled|].
  eapply triple_then; [eapply triple_weaken; [apply (observe_along meanwhile (advance owner p) Preparing start Preparing None Preparing Preparing);
    apply (qt_observe _ _ preparing_quiet)|done..|]|intros o']; [by intros e r Hr; apply (settle Preparing None)|].
  case_bool_decide; [apply triple_ret; intros r Hr; by exists None|]. apply triple_throw. intros r Hr. by apply (settle Preparing None).
Qed.

(** A profile made from the plan. *)
Definition is_profile (session : SessionData) (profile_id : option string) (profile : VpnProfile) : Prop :=
  exists uuid random credentials,
    VpnProfile_new uuid random credentials p.(pl_target) p.(pl_protocol) session p.(pl_client_config) p.(pl_settings) profile_id = Ok profile.
Lemma new_profile_along own session profile_id :
  triple (along' Preparing own) (new_profile meanwhile p session profile_id)
    (fun profile r => is_profile session profile_id profile /\ along' Preparing own r) (fun _ => along' Preparing own).
Proof.
  unfold new_profile. eapply triple_then; [apply along_draw|intros uuid]. eapply triple_then; [apply along_draw|intros random].
  apply (triple_then _ _ _ (along' Preparing own)).
  - destruct (is_openvpn _); [|by apply triple_ret]. destruct (openvpn_inputs _ _ _ _ _) as [[[[? ?] ?] key]|e]; [|by apply triple_throw].
    apply along_draw.
  - intros directory. apply triple_result; [|done]. intros profile r Hp Hr. split; [|done]. by exists uuid, random, (fun _ => directory).
Qed.

Lemma preparing_settled own r : along' Preparing own r -> left_settled r.
Proof. by apply settle. Qed.

Lemma establish_concludes own session tier attempt profile_id profile conflicts :
  concludes (along' Preparing own) (establish username meanwhile fuel p session tier attempt profile_id profile conflicts) profile.
Proof.
  unfold establish.
  eapply triple_then; [eapply triple_weaken; [apply apply_connection_policy_along, preparing_quiet|done|done|intros ? r; apply preparing_settled]|intros ?].
  apply (triple_try _ _ _ (fun _ => along' Preparing own) (fun _ => along' Preparing own)).
  { intros r o r' Hr [= <- <-]. by destruct (rt_attempt r =? attempt). }
  2:{ intros e. eapply triple_then; [eapply triple_weaken; [apply restore_global_along, preparing_quiet|done|done|intros ? r; apply preparing_settled]|intros ?].
      apply triple_throw, preparing_settled. }
  intros ?. eapply triple_then; [apply emit_along, preparing_quiet|intros ?]. eapply triple_then; [apply emit_along, preparing_quiet|intros ?].
  assert (Hrefused : forall r, along' Refused own r -> left_settled r) by (intros r; by apply settle).
  eapply triple_try; [apply activate_tunnel_along|intros activation|intros e].
  - eapply triple_then; [apply (along_modify (advance owner p) Preparing start (Active profile false) own activation.(to_uuid)); by intros []|intros ?].
    apply triple_take. intros started_at. apply connect_loop_concludes.
  - eapply triple_then; [eapply triple_weaken; [apply restore_global_along, refused_quiet|done|done|intros ? r; apply Hrefused]|intros ?].
    eapply triple_then; [apply emit_along, refused_quiet|intros ?]. by apply triple_throw.
Qed.

Lemma connect_planned_concludes attempt session tier profile_id :
  triple (along' Preparing owner) (connect_planned username meanwhile fuel p session tier attempt profile_id)
    (fun answer r => exists profile, is_profile session profile_id profile /\ confirmed profile answer r) (fun _ => left_settled).
Proof.
  unfold connect_planned.
  eapply triple_then; [eapply triple_weaken; [apply (observe_along meanwhile (advance owner p) Preparing start Preparing owner Preparing Preparing);
    apply (qt_observe _ _ preparing_quiet)|done|done|intros ? r; apply preparing_settled]|intros current].
  apply (triple_then _ _ _ (along' Preparing owner)).
  { intros r o r' Hr [= <- <-]. destruct (rt_attempt r =? attempt); [exact Hr|by eapply preparing_settled]. }
  intros ?. eapply triple_then; [apply replace_owned_along|intros ?]. apply triple_some. intros own.
  eapply triple_bind; [eapply triple_weaken; [apply new_profile_along|done|done|intros ? r; apply preparing_settled]|intros profile].
  apply triple_fact. intros Hprofile.
  apply (triple_try _ _ _ (fun _ => along' Preparing own) (fun _ => along' Preparing own));
    [by apply (along_nm meanwhile (advance owner p) Preparing start Preparing own)|intros found|intros ?].
  all: eapply triple_weaken; [apply establish_concludes|done|intros answer r Hr; by exists profile|done].
Qed.
End Connecting.

(** ** The protocol is followed *)
Section Follows.
Context {W : Type} {N : NetworkManager W} {D : Devices W} {A : AgentLib W} {H : Host W}.
Context {J : JsonText} {L : IpLib} {C : ServerCrypto} {P : ProfileCrypto} {Cn : Countries} {I : Installed}.
Context (username : string) (meanwhile : NativeRuntime W -> NativeRuntime W) (fuel : nat).

(** The choice of the server publishes its stage and gives up, or has a plan. *)
Lemma select_server_run params r o r' :
  select_server params r = (o, r') ->
  (exists e l, o = Done (Err e) /\ r'.(rt_log) = r.(rt_log) ++ l /\ forallb is_quiet l = true) \/
  (exists session tier p, o = Done (Ok (session, tier, p)) /\ session_of r.(rt_state) = Ok (session, tier) /\ plan_of params session tier r = Ok p /\
     r'.(rt_locks) = r.(rt_locks) /\ r'.(rt_owned_uuid) = r.(rt_owned_uuid) /\
     exists event data, r'.(rt_log) = r.(rt_log) ++ [Emitted event data]).
Proof.
  unfold select_server, rt_bind, require_session. destruct (session_of _) as [[session tier]|e] eqn:Es.
  2:{ intros [= <- <-]. left. exists e, []. by rewrite app_nil_r. }
  cbn [rt_modify stage emit rt_log_action rt_get rt_result rt_ret].
  match goal with |- context [plan_of params session tier ?r0] => replace (plan_of params session tier r0) with (plan_of params session tier r) end;
    [|by destruct r as [? [] ? ? ? ? ? ? ? ? ? ? ? ?]].
  destruct (plan_of params session tier r) as [p|e] eqn:E; intros [= <- <-].
  - right. exists session, tier, p. split_and!; [done|done|exact E|by destruct r..|]. do 2 eexists. by destruct r.
  - left. exists e. eexists. split; [done|]. split; [by destruct r|done].
Qed.

End Follows.
