(* ===== verification/NativeTeardown.v ===== *)
(** Taking a tunnel down: the order in which [disconnect_owned_inner] removes what protects and what bypasses
    it, and which requests may take which tunnel down. *)
From S2P Require Export RuntimeLaws.
From S2P Require Import CatalogPages.
From S2P Require Export NativeSettings.
Open Scope string_scope.
Open Scope Z_scope.
Open Scope list_scope.
Open Scope rust_scope.

(** [Shielded]: the bypass of the kill switch may be in place; [Overridden]: a destination policy of a profile is. *)
Inductive teardown_phase : Type :=
  | Shielded
  | Overridden
  | Clear
  | AgentDown
  | TunnelDown
  | Reverted.
#[export] Instance teardown_phase_eq_dec : EqDecision teardown_phase.
Proof. solve_decision. Defined.

Record teardown : Type := mkTeardown {
  dn_uuid : string;
  dn_settings : NativeSettings;
  dn_server_ip : option string;
  dn_bypass : bool;
  dn_policy : bool }.
Definition after_bypass (t : teardown) : teardown_phase := if t.(dn_policy) then Overridden else Clear.
Definition entry_phase (t : teardown) : teardown_phase := if t.(dn_bypass) then Shielded else after_bypass t.

Definition descend (t : teardown) (ph : teardown_phase) (a : action) : option teardown_phase :=
  match ph, a with
  | Shielded, SplitCalled (SetKillSwitchBypass _ false _) true => Some (after_bypass t)
  | Overridden, SplitCalled (SetDestinationPolicy _ _) true => Some Clear
  | Shielded, SplitCalled _ false | Overridden, SplitCalled _ false => Some ph
  | Clear, AgentStoppedByUs => Some AgentDown
  | AgentDown, Deactivated uuid ok => if String.eqb uuid t.(dn_uuid) then Some (if ok then TunnelDown else AgentDown) else None
  | TunnelDown, Reconciled mode false ip leak ok =>
      if bool_decide ((mode, ip, leak) = (t.(dn_settings).(ns_killswitch), t.(dn_server_ip), t.(dn_settings).(ns_ipv6_leak_protection)))
      then Some (if ok then Reverted else TunnelDown) else None
  | Reverted, (Observed _ | Emitted _ _ | TelemetryQueued _ _ _ _) => Some Reverted
  | _, _ => None
  end.

Section Teardown.
Context {W : Type} {N : NetworkManager W} {D : Devices W} {A : AgentLib W} {H : Host W}.
Context {J : JsonText} {L : IpLib} {C : ServerCrypto} {P : ProfileCrypto} {Cn : Countries} {I : Installed}.
Context (username : string) (meanwhile : NativeRuntime W -> NativeRuntime W) (fuel : nat).
Abbreviation assertion := (NativeRuntime W -> Prop).

(** ** The policy override under the lock *)
Definition guarded (ov : option (bool * bool)) : assertion := fun r => r.(rt_locks).(lk_network) = true /\ r.(rt_policy_override) = ov.
Abbreviation keeps ov m := (triple (guarded ov) m (fun _ => guarded ov) (fun _ => guarded ov)).

Lemma guarded_others ov r : guarded ov r -> guarded ov (others meanwhile r).
Proof. intros [Hl Ho]. split; [done|]. unfold others. cbn. by rewrite Hl. Qed.
Lemma guarded_frame ov r r' : r'.(rt_locks) = r.(rt_locks) -> r'.(rt_policy_override) = r.(rt_policy_override) -> guarded ov r -> guarded ov r'.
Proof. unfold guarded. by intros -> ->. Qed.
Lemma guarded_nm {B : Type} ov (m : NM (W := W) B) entry : keeps ov (rt_nm meanwhile m entry).
Proof.
  intros r o r' Hr. unfold rt_nm. destruct (m _) as [[o' w] s]. intros [= <- <-].
  destruct o' as [[b|e]|]; [| |done]; apply guarded_others; (eapply guarded_frame; [| |exact Hr]; by destruct r).
Qed.
Lemma guarded_ext {B : Type} ov (f : W -> NativeResult B * W) entry : keeps ov (rt_ext meanwhile f entry).
Proof.
  intros r o r' Hr. unfold rt_ext. destruct (f _) as [b w]. intros [= <- <-].
  destruct b as [b|e]; apply guarded_others; (eapply guarded_frame; [| |exact Hr]; by destruct r).
Qed.
Lemma split_method_guarded ov action call : keeps ov (split_method meanwhile action call).
Proof.
  unfold split_method. apply triple_take. intros bus. apply triple_check; [intros _ _|done].
  apply triple_check; [intros uid _|done]. apply guarded_ext.
Qed.
Lemma bypass_guarded ov settings tunnel_active : keeps ov (reconcile_split_kill_switch_bypass meanwhile settings tunnel_active).
Proof.
  unfold reconcile_split_kill_switch_bypass. apply triple_take. intros active. destruct (_ && _); [by apply triple_ret|].
  apply (triple_then _ _ _ (guarded ov)); [destruct (tunnel_active && _); [apply guarded_nm|by apply triple_ret]|intros routes].
  eapply triple_then; [apply split_method_guarded|intros ?]. apply triple_modify. intros r. apply guarded_frame; by destruct r.
Qed.

Lemma triple_both {B : Type} (P1 P2 : assertion) (m : RT (W := W) B) Q1 Q2 E1 E2 :
  triple P1 m Q1 E1 -> triple P2 m Q2 E2 ->
  triple (fun r => P1 r /\ P2 r) m (fun b r => Q1 b r /\ Q2 b r) (fun e r => E1 e r /\ E2 e r).
Proof.
  intros H1 H2 r o r' [Hr1 Hr2] E. specialize (H1 _ _ _ Hr1 E). specialize (H2 _ _ _ Hr2 E). destruct o as [[b|e]|]; done.
Qed.

(** ** The order *)
Section Order.
Context (t : teardown) (start : list action) (own : option string).
Abbreviation along' := (along (descend t) (entry_phase t) start).
Definition kept : assertion := fun r => exists ph, ph <> Reverted /\ along' ph own r.

Lemma keep ph r : ph <> Reverted -> along' ph own r -> kept r.
Proof. intros Hp Hr. by exists ph. Qed.

Lemma restore_overridden ov :
  bool_decide (ov <> None) = t.(dn_policy) ->
  triple (fun r => along' (after_bypass t) own r /\ guarded ov r) (restore_global_destination_policy meanwhile)
    (fun _ => along' Clear own) (fun _ => kept).
Proof.
  intros Hov. unfold restore_global_destination_policy. apply triple_read. intros ov'.
  apply (triple_pre (fun r => ov' = ov /\ along' (after_bypass t) own r)).
  { intros r (Ho & Hr & _ & Hg). split; [congruence|done]. }
  apply triple_fact. intros ->. unfold after_bypass. rewrite <- Hov. destruct ov as [o|]; cbn.
  - apply triple_take. intros global. eapply triple_then.
    + eapply triple_weaken; [by apply (apply_policy_along meanwhile (descend t) (entry_phase t) start Overridden own global Clear)|done|done|].
      intros e r. by apply (keep Overridden).
    + intros ?. apply override_along.
  - by apply triple_ret.
Qed.

Lemma take_down_descends :
  triple (along' Clear own) (take_down username meanwhile fuel t.(dn_settings) t.(dn_server_ip) t.(dn_uuid))
    (fun _ => along' Reverted None) (fun _ r => kept r \/ along' Reverted None r).
Proof.
  unfold take_down.
  eapply triple_then; [by apply (stop_along (descend t) (entry_phase t) start Clear AgentDown own)|intros ?].
  eapply triple_then; [eapply triple_weaken; [apply (along_nm meanwhile (descend t) (entry_phase t) start AgentDown own _ _ TunnelDown AgentDown);
    cbn; by rewrite String.eqb_refl|done|intros ? r Hr; exact Hr|intros e r Hr; left; by apply (keep AgentDown)]|intros ?].
  eapply triple_then; [eapply triple_weaken; [apply (kill_switch_along username meanwhile fuel (descend t) (entry_phase t) start TunnelDown own _ _ _ _ Reverted TunnelDown);
    cbn; by rewrite bool_decide_eq_true_2|done|intros ? r Hr; exact Hr|intros e r Hr; left; by apply (keep TunnelDown)]|intros ?].
  eapply triple_then; [apply (along_modify (descend t) (entry_phase t) start Reverted own None); by intros []|intros ?].
  eapply triple_then; [eapply triple_weaken; [by apply (observe_along meanwhile (descend t) (entry_phase t) start Reverted None Reverted Reverted)|done|done|by right]|intros o].
  eapply triple_then; [apply (publish_along (descend t) (entry_phase t) start Reverted None); [intros; reflexivity|intros; reflexivity]|intros ?].
  intros r x r' Hr [= <- <-]. by eapply along_log; [exact Hr|].
Qed.

(** The bypass, which is in place if the settings or the last call ask for it. *)
Lemma bypass_removed ov settings active :
  bypass_wanted settings || active = t.(dn_bypass) ->
  triple (fun r => (r.(rt_bypass_active) = active /\ along' (entry_phase t) own r) /\ guarded ov r)
    (reconcile_split_kill_switch_bypass meanwhile settings false)
    (fun _ r => along' (after_bypass t) own r /\ guarded ov r) (fun _ => kept).
Proof.
  intros Hb. destruct (dn_bypass t) eqn:Ht; pose proof (eq_refl (entry_phase t)) as He; unfold entry_phase in He at 2; rewrite Ht in He.
  - eapply triple_weaken; [apply triple_both; [apply (bypass_along_from meanwhile (descend t) (entry_phase t) start Shielded own active settings false (after_bypass t))|apply bypass_guarded]| | |].
    + done.
    + by intros [| | |? []].
    + intros r [[Ha Hr] Hg]. split; [|exact Hg]. split; [done|]. by rewrite <- He.
    + intros _ r [[Hr|(Hw & Ha & _)] Hg]; [done|]. by rewrite Hw, Ha in Hb.
    + intros e r [Hr _]. by apply (keep Shielded).
  - apply orb_false_iff in Hb as [Hw ->]. unfold reconcile_split_kill_switch_bypass. apply triple_read. intros active. rewrite Hw.
    apply (triple_pre (fun r => active = false /\ (along' (after_bypass t) own r /\ guarded ov r))).
    { intros r (Ha & (Hb & Hr) & Hg). split_and!; [congruence|by rewrite <- He|by apply Hg..]. }
    apply triple_fact. intros ->. by apply triple_ret.
Qed.
End Order.

(** The teardown the state of [r] asks for, and the order in which the code goes through it. *)
Definition teardown_of (uuid : string) (r : NativeRuntime W) : teardown :=
  let s := r.(rt_state).(rs_settings) in
  mkTeardown uuid s (selected_ip r) (bypass_wanted s || r.(rt_bypass_active)) (bool_decide (r.(rt_policy_override) <> None)).

Lemma disconnect_descends uuid r :
  r.(rt_locks).(lk_network) = true ->
  let t := teardown_of uuid r in
  triple (fun r' => r' = r) (disconnect_owned_inner username meanwhile fuel uuid)
    (fun _ => along (descend t) (entry_phase t) r.(rt_log) Reverted None)
    (fun _ r' => kept t r.(rt_log) r.(rt_owned_uuid) r' \/ along (descend t) (entry_phase t) r.(rt_log) Reverted None r').
Proof.
  intros Hl t. set (s := r.(rt_state).(rs_settings)).
  assert (Hstart : (r.(rt_bypass_active) = r.(rt_bypass_active) /\ along (descend t) (entry_phase t) r.(rt_log) (entry_phase t) r.(rt_owned_uuid) r) /\
    guarded r.(rt_policy_override) r).
  { split; [split; [reflexivity|]|by split]. split_and!; [exact Hl|reflexivity|]. exists []. by rewrite app_nil_r. }
  unfold disconnect_owned_inner. apply triple_read. intros settings. apply triple_read. intros ip.
  apply (triple_pre (fun r' => settings = s /\ (ip = selected_ip r /\
    ((r'.(rt_bypass_active) = r.(rt_bypass_active) /\ along (descend t) (entry_phase t) r.(rt_log) (entry_phase t) r.(rt_owned_uuid) r') /\
     guarded r.(rt_policy_override) r')))).
  { by intros r1 (Hip & Hs & ->). }
  apply triple_fact. intros ->. apply triple_fact. intros ->.
  eapply triple_bind; [eapply triple_weaken; [by apply (bypass_removed t r.(rt_log) r.(rt_owned_uuid) r.(rt_policy_override) s r.(rt_bypass_active))|intros r1 Hr1; exact Hr1|intros ? r1 Hr1; exact Hr1|by left]|intros ?].
  eapply triple_then; [eapply triple_weaken; [by apply (restore_overridden t r.(rt_log) r.(rt_owned_uuid) r.(rt_policy_override))|intros r1 Hr1; exact Hr1|intros ? r1 Hr1; exact Hr1|by left]|intros ?].
  apply (take_down_descends t).
Qed.

(** No way down passes the deactivation. *)
Lemma descent_deactivates t ph l :
  ph <> TunnelDown -> ph <> Reverted -> walk (descend t) ph l = Some Reverted -> Deactivated t.(dn_uuid) true ∈ l.
Proof.
  revert ph. induction l as [|a l IH]; intros ph H1 H2; cbn; [congruence|].
  destruct (descend t ph a) as [ph'|] eqn:E; [|done]. intros Hw.
  destruct (decide (ph' = TunnelDown)) as [->|Hd].
  - destruct ph; cbn in E; try done.
    all: unfold after_bypass in *; repeat case_match; simplify_eq; try done.
    match goal with H : String.eqb _ _ = true |- _ => apply String.eqb_eq in H; subst end. by left.
  - right. apply (IH ph'); [done| |exact Hw]. intros ->. destruct ph; cbn in E; unfold after_bypass in *; repeat case_match; simplify_eq.
Qed.

Lemma disconnect_deactivates uuid r o r' :
  r.(rt_locks).(lk_network) = true -> disconnect_owned_inner username meanwhile fuel uuid r = (Done (Ok o), r') ->
  exists l, r'.(rt_log) = r.(rt_log) ++ l /\ Deactivated uuid true ∈ l.
Proof.
  intros Hl E. destruct (disconnect_descends uuid r Hl r _ r' eq_refl E) as (_ & _ & l & Hlog & Hw).
  exists l. split; [exact Hlog|]. apply (descent_deactivates (teardown_of uuid r) _ _) in Hw; [exact Hw|..];
    unfold entry_phase, after_bypass; by repeat case_match.
Qed.

End Teardown.
