(* ===== verification/NativeEnds.v ===== *)
(** The work of the connection requests under [network_write] comes to an end: the loop that polls the tunnel is bounded
    by the clock, the loop that deactivates connections by their number. *)
From S2P Require Import NetLaws.
From S2P Require Export RuntimeLaws.
From S2P Require Import CatalogPages.
From S2P Require Export NativeSettings.
Open Scope string_scope.
Open Scope Z_scope.
Open Scope list_scope.
Open Scope rust_scope.

(** What is known of the clock: it does not run backwards during the calls of the polling loop, a sleep lasts
    as long as asked, and a connection to the Local Agent is given up only after its time. *)
Class ClockLaws (W : Type) {A : AgentLib W} {H : Host W} : Prop := mkClockLaws {
  sleep_passes : forall ms w, ho_now w + ms <= ho_now (ho_sleep ms w);
  split_passes : forall call w, ho_now w <= ho_now (ho_split call w).2;
  connect_passes : forall domain key certificate seconds w,
    let '(b, w') := agent_connect domain key certificate seconds w in
    ho_now w + (match b with Err e => if e.(ae_elapsed) then 1000 * seconds else 0 | Ok _ => 0 end) <= ho_now w' }.

(** ** Programs without loops of their own *)
Section NmEnds.
Context {W : Type} {N : NetworkManager W}.
Definition nm_ends {B : Type} (m : NM (W := W) B) : Prop := forall w, (m w).1.1 <> Running.
(** Only reads. *)
Definition nm_reads {B : Type} (m : NM (W := W) B) : Prop := forall w, (m w).1.1 <> Running /\ (m w).1.2 = w.

Lemma reads_ends {B : Type} (m : NM (W := W) B) : nm_reads m -> nm_ends m.
Proof. intros Hm w. apply Hm. Qed.
Lemma reads_ret {B : Type} (b : B) : nm_reads (nm_ret b).
Proof. by intros w. Qed.
Lemma reads_throw {B : Type} e : nm_reads (nm_throw (A := B) e).
Proof. by intros w. Qed.
Lemma reads_read {B : Type} (f : W -> NativeResult B) : nm_reads (nm_read f).
Proof. by intros w. Qed.
Lemma reads_bind {B C : Type} (m : NM (W := W) B) (k : B -> NM C) : nm_reads m -> (forall b, nm_reads (k b)) -> nm_reads (nm_bind m k).
Proof.
  intros Hm Hk w. unfold nm_bind. destruct (Hm w) as [H1 H2]. destruct (m w) as [[[[b|e]|] w'] seen]; cbn in *; subst; try done.
  specialize (Hk b w). by destruct (k b w) as [[o w'] seen'].
Qed.
Lemma ends_call {B : Type} (f : W -> result B string * W) error : nm_ends (nm_call f error).
Proof. intros w. unfold nm_call. by destruct (f w). Qed.
Lemma ends_effect f : nm_ends (nm_effect f).
Proof. by intros w. Qed.
Lemma ends_bind {B C : Type} (m : NM (W := W) B) (k : B -> NM C) : nm_ends m -> (forall b, nm_ends (k b)) -> nm_ends (nm_bind m k).
Proof.
  intros Hm Hk w. unfold nm_bind. specialize (Hm w). destruct (m w) as [[[[b|e]|] w'] seen]; try done.
  specialize (Hk b w'). by destruct (k b w') as [[o w''] seen'].
Qed.
Lemma ends_try {B C : Type} (m : NM (W := W) B) (k : NativeResult B -> NM C) : nm_ends m -> (forall b, nm_ends (k b)) -> nm_ends (nm_try m k).
Proof.
  intros Hm Hk w. unfold nm_try. specialize (Hm w). destruct (m w) as [[[b|] w'] seen]; try done.
  specialize (Hk b w'). by destruct (k b w') as [[o w''] seen'].
Qed.
End NmEnds.

(** Walks over a program of the monad of NetworkManager. *)
Create HintDb nm_ends.
Ltac nm_walk := repeat first
  [ progress intros
  | solve [auto 2 with nm_ends]
  | apply reads_ret | apply reads_throw | apply reads_read | apply ends_call | apply ends_effect
  | apply reads_bind | apply ends_bind | apply ends_try
  | match goal with |- nm_ends (if ?b then _ else _) => destruct b | |- nm_reads (if ?b then _ else _) => destruct b
                  | |- nm_ends (match ?b with _ => _ end) => destruct b | |- nm_reads (match ?b with _ => _ end) => destruct b end
  | apply reads_ends, reads_ret | apply reads_ends, reads_throw | apply reads_ends, reads_read ].

Section Programs.
Context {W : Type} {N : NetworkManager W} {D : Devices W} {J : JsonText} {L : IpLib}.

Lemma observe_reads uuid : nm_reads (observe_matching uuid).
Proof. unfold observe_matching, system_bus, active_connections. nm_walk. Qed.
Lemma conflicts_reads : nm_reads conflicting_interfaces.
Proof. unfold conflicting_interfaces, system_bus, active_connections. nm_walk. Qed.
Lemma routes_reads : nm_reads physical_default_routes.
Proof. unfold physical_default_routes, system_bus, devices_for. nm_walk. Qed.
Lemma dns_reads : nm_reads physical_dns_servers.
Proof. unfold physical_dns_servers, system_bus, devices_for. nm_walk. Qed.
Lemma delete_each_ends matches action paths removed : nm_ends (delete_each matches action paths removed).
Proof. revert removed. induction paths as [|path paths IH]; intros removed; cbn [delete_each]; nm_walk; apply IH. Qed.
(** A loop settles: from some fuel on its outcome is the same, and it has one. *)
Definition nm_settles {B : Type} (m : nat -> NM (W := W) B) : Prop :=
  forall w, exists fuel o, o.1.1 <> Running /\ forall n, (fuel <= n)%nat -> m n w = o.
Lemma nm_settles_const {B : Type} (m : NM (W := W) B) : nm_ends m -> nm_settles (fun _ => m).
Proof. intros Hm w. exists 0%nat, (m w). split; [apply Hm|done]. Qed.
Lemma nm_settles_bind {B C' : Type} (m : nat -> NM (W := W) B) (k : nat -> B -> NM C') :
  nm_settles m -> (forall b, nm_settles (fun n => k n b)) -> nm_settles (fun n => nm_bind (m n) (k n)).
Proof.
  intros Hm Hk w. destruct (Hm w) as (n1 & [[o w1] seen1] & Ho & H1). destruct o as [[b|e]|]; [| |done].
  - destruct (Hk b w1) as (n2 & [[o2 w2] seen2] & Ho2 & H2). exists (n1 + n2)%nat, (o2, w2, seen1 ++ seen2). split; [exact Ho2|].
    intros n Hn. unfold nm_bind. rewrite H1, H2 by lia. done.
  - exists n1, (Done (Err e), w1, seen1). split; [done|]. intros n Hn. unfold nm_bind. by rewrite H1.
Qed.

(** With more fuel than there are active connections, [deactivate_all] ends, and what more fuel there is makes no difference. *)
Context {LW : NmLaws W}.
Lemma deactivate_all_more fuel extra id : forall removed w,
  (deactivate_all fuel id removed w).1.1 <> Running -> deactivate_all (fuel + extra) id removed w = deactivate_all fuel id removed w.
Proof.
  induction fuel as [|fuel IH]; intros removed w; [done|]. cbn [Nat.add deactivate_all]. unfold nm_bind at 1 3 5.
  destruct (active_owned_connection_by_id id w) as [[[[[path|]|e]|] w1] seen1]; try done.
  unfold nm_try. destruct (nm_call _ _ w1) as [[[r|] w2] seen2]; try done.
  unfold nm_bind at 1 2 3. destruct (tolerate_race id r w2) as [[[[u|e]|] w3] seen3]; try done.
  specialize (IH true w3). destruct (deactivate_all fuel id true w3) as [[o w4] seen4]. intros Ho. by rewrite IH.
Qed.
Lemma deactivate_all_settles id removed : nm_settles (fun fuel => deactivate_all fuel id removed).
Proof.
  intros w. set (n := length (world_of w).(w_active)). exists (n + 2)%nat, (deactivate_all (n + 2) id removed w).
  assert (Hrun : (deactivate_all (n + 2) id removed w).1.1 <> Running).
  { pose proof (deactivate_all_runs n (n + 2) id removed ltac:(lia) w (le_n n)) as H.
    by destruct (deactivate_all (n + 2) id removed w) as [[[[b|e]|] w1] seen]. }
  split; [exact Hrun|]. intros m Hm. replace m with (n + 2 + (m - (n + 2)))%nat by lia. by apply deactivate_all_more.
Qed.

Lemma connect_ends_nm username uid profile : nm_ends (nm_connect username uid profile).
Proof. unfold nm_connect, system_bus, add_connection, activate, cleanup_credentials. nm_walk. Qed.
Lemma disconnect_uuid_ends uuid : nm_ends (disconnect_uuid uuid).
Proof.
  unfold disconnect_uuid, observe_uuid, delete_inactive_owned_profile, disconnect_observation, list_connections, system_bus.
  apply ends_bind; [apply reads_ends, observe_reads|]. nm_walk. apply delete_each_ends.
Qed.
End Programs.

(** ** Handlers *)
Section Handlers.
Context {W : Type} {N : NetworkManager W} {A : AgentLib W} {H : Host W} (meanwhile : NativeRuntime W -> NativeRuntime W).
Abbreviation assertion := (NativeRuntime W -> Prop).
Definition finishes {B : Type} (P : assertion) (m : RT (W := W) B) : Prop := forall r, P r -> (m r).1 <> Running.
Abbreviation ends m := (finishes (fun _ => True) m).

Lemma finishes_weaken {B : Type} (P P' : assertion) (m : RT (W := W) B) : finishes P m -> (forall r, P' r -> P r) -> finishes P' m.
Proof. intros Hm Hp r Hr. by apply Hm, Hp. Qed.
Lemma finishes_ends {B : Type} (P : assertion) (m : RT (W := W) B) : ends m -> finishes P m.
Proof. intros Hm. by eapply finishes_weaken. Qed.
Lemma finishes_bind {B C : Type} P (m : RT (W := W) B) (k : B -> RT C) (Q : B -> assertion) E :
  finishes P m -> triple P m Q E -> (forall b, finishes (Q b) (k b)) -> finishes P (rt_bind m k).
Proof.
  intros Hm Ht Hk r Hr. unfold rt_bind. specialize (Hm r Hr). destruct (m r) as [[[b|e]|] r1] eqn:E1; try done.
  by apply Hk, (Ht _ _ _ Hr E1).
Qed.
Lemma finishes_try {B C : Type} P (m : RT (W := W) B) (k : NativeResult B -> RT C) (Q : B -> assertion) E :
  finishes P m -> triple P m Q E -> (forall b, finishes (Q b) (k (Ok b))) -> (forall e, finishes (E e) (k (Err e))) -> finishes P (rt_try m k).
Proof.
  intros Hm Ht Hk He r Hr. unfold rt_try. specialize (Hm r Hr). destruct (m r) as [[[b|e]|] r1] eqn:E1; try done.
  - by apply Hk, (Ht _ _ _ Hr E1).
  - by apply He, (Ht _ _ _ Hr E1).
Qed.
Lemma rt_ends_bind {B C : Type} (m : RT (W := W) B) (k : B -> RT C) : ends m -> (forall b, ends (k b)) -> ends (rt_bind m k).
Proof. intros Hm Hk. eapply (finishes_bind _ _ _ (fun _ _ => True) (fun _ _ => True)); [done| |done]. by intros r [[b|e]|]. Qed.
Lemma rt_ends_try {B C : Type} (m : RT (W := W) B) (k : NativeResult B -> RT C) : ends m -> (forall b, ends (k b)) -> ends (rt_try m k).
Proof. intros Hm Hk. eapply (finishes_try _ _ _ (fun _ _ => True) (fun _ _ => True)); [done| |done..]. by intros r [[b|e]|]. Qed.
Lemma rt_ends_ignore {B : Type} (m : RT (W := W) B) : ends m -> ends (rt_ignore m).
Proof. intros Hm. by apply rt_ends_try. Qed.
Lemma rt_ends_nm {B : Type} (m : NM (W := W) B) entry : nm_ends m -> ends (rt_nm meanwhile m entry).
Proof. intros Hm r _. unfold rt_nm. specialize (Hm (rt_world r)). by destruct (m _) as [[o w] s]. Qed.
Lemma rt_ends_ext {B : Type} (f : W -> NativeResult B * W) entry : ends (rt_ext meanwhile f entry).
Proof. intros r _. unfold rt_ext. by destruct (f _). Qed.
Lemma race_cancel_ends {B : Type} P attempt (m : RT (W := W) B) : finishes P m -> finishes P (race_cancel attempt m).
Proof.
  intros Hm. unfold race_cancel. eapply (finishes_bind _ _ _ (fun _ => P) (fun _ _ => True)).
  - by intros r _.
  - intros r o r' Hr [= <- <-]. by case_match.
  - intros _. eapply (finishes_try _ _ _ (fun _ _ => True) (fun _ _ => True)); [done|by intros r [[b|e]|]|..]; intros b r _; by case_match.
Qed.
Lemma within_ends {B : Type} P deadline late (m : RT (W := W) B) : finishes P m -> finishes P (within deadline late m).
Proof.
  intros Hm. unfold within. eapply (finishes_try _ _ _ (fun _ _ => True) (fun _ _ => True)); [done|by intros r [[b|e]|]|..]; intros b r _; by case_match.
Qed.
(** ** Handlers with loops: from some fuel on the outcome is the same, and there is one *)
Definition settled {B : Type} (run : nat -> outcome B * NativeRuntime W) : Prop :=
  exists fuel o, o.1 <> Running /\ forall n, (fuel <= n)%nat -> run n = o.
Definition settles {B : Type} (P : assertion) (m : nat -> RT (W := W) B) : Prop := forall r, P r -> settled (fun n => m n r).

Lemma settles_const {B : Type} P (m : RT (W := W) B) : finishes P m -> settles P (fun _ => m).
Proof. intros Hm r Hr. exists 0%nat, (m r). split; [by apply Hm|done]. Qed.
Lemma settles_weaken {B : Type} (P P' : assertion) (m : nat -> RT (W := W) B) : settles P m -> (forall r, P' r -> P r) -> settles P' m.
Proof. intros Hm Hp r Hr. by apply Hm, Hp. Qed.
Lemma settles_try {B C : Type} P (m : nat -> RT (W := W) B) (k : nat -> NativeResult B -> RT C) (Q : B -> assertion) E :
  settles P m -> (forall n, triple P (m n) Q E) ->
  (forall b, settles (Q b) (fun n => k n (Ok b))) -> (forall e, settles (E e) (fun n => k n (Err e))) ->
  settles P (fun n => rt_try (m n) (k n)).
Proof.
  intros Hm Ht Hk He r Hr. destruct (Hm r Hr) as (n1 & [o r1] & Ho & H1). pose proof (Ht n1 r o r1 Hr (H1 n1 (le_n _))) as Hq.
  destruct o as [[b|e]|]; [| |done].
  - destruct (Hk b r1 Hq) as (n2 & o2 & Ho2 & H2). exists (n1 + n2)%nat, o2. split; [exact Ho2|].
    intros n Hn. unfold rt_try. rewrite H1 by lia. apply H2. lia.
  - destruct (He e r1 Hq) as (n2 & o2 & Ho2 & H2). exists (n1 + n2)%nat, o2. split; [exact Ho2|].
    intros n Hn. unfold rt_try. rewrite H1 by lia. apply H2. lia.
Qed.
Lemma settles_bind {B C : Type} P (m : nat -> RT (W := W) B) (k : nat -> B -> RT C) (Q : B -> assertion) E :
  settles P m -> (forall n, triple P (m n) Q E) -> (forall b, settles (Q b) (fun n => k n b)) -> settles P (fun n => rt_bind (m n) (k n)).
Proof.
  intros Hm Ht Hk r Hr. destruct (Hm r Hr) as (n1 & [o r1] & Ho & H1). pose proof (Ht n1 r o r1 Hr (H1 n1 (le_n _))) as Hq.
  destruct o as [[b|e]|]; [| |done].
  - destruct (Hk b r1 Hq) as (n2 & o2 & Ho2 & H2). exists (n1 + n2)%nat, o2. split; [exact Ho2|].
    intros n Hn. unfold rt_bind. rewrite H1 by lia. apply H2. lia.
  - exists n1, (Done (Err e), r1). split; [done|]. intros n Hn. unfold rt_bind. by rewrite H1.
Qed.
(** It is enough to look at the fuel from some point on. *)
Lemma settles_from {B : Type} enough P (m' m : nat -> RT (W := W) B) :
  (forall n r, (enough <= n)%nat -> m n r = m' n r) -> settles P m' -> settles P m.
Proof.
  intros Heq Hm r Hr. destruct (Hm r Hr) as (n1 & o & Ho & H1). exists (n1 + enough)%nat, o. split; [exact Ho|].
  intros n Hn. rewrite Heq by lia. apply H1. lia.
Qed.
Abbreviation settle m := (settles (fun _ => True) m).
Lemma settles_all {B : Type} (P : assertion) (m : nat -> RT (W := W) B) : settle m -> settles P m.
Proof. intros Hm. by eapply settles_weaken. Qed.
Lemma rt_settles_bind {B C : Type} (m : nat -> RT (W := W) B) (k : nat -> B -> RT C) :
  settle m -> (forall b, settle (fun n => k n b)) -> settle (fun n => rt_bind (m n) (k n)).
Proof. intros Hm Hk. eapply (settles_bind _ _ _ (fun _ _ => True) (fun _ _ => True)); [done| |done]. by intros n r [[b|e]|]. Qed.
Lemma rt_settles_try {B C : Type} (m : nat -> RT (W := W) B) (k : nat -> NativeResult B -> RT C) :
  settle m -> (forall b, settle (fun n => k n b)) -> settle (fun n => rt_try (m n) (k n)).
Proof. intros Hm Hk. eapply (settles_try _ _ _ (fun _ _ => True) (fun _ _ => True)); [done| |done..]. by intros n r [[b|e]|]. Qed.
Lemma rt_settles_ignore {B : Type} (m : nat -> RT (W := W) B) : settle m -> settle (fun n => rt_ignore (m n)).
Proof. intros Hm. apply (rt_settles_try _ (fun _ _ => rt_ret tt)); [done|]. intros b. by apply settles_const. Qed.
Lemma rt_settles_nm {B : Type} (m : nat -> NM (W := W) B) entry : nm_settles m -> settle (fun n => rt_nm meanwhile (m n) entry).
Proof.
  intros Hm r _. destruct (Hm (rt_world r)) as (n1 & [[o w] seen] & Ho & H1).
  exists n1, (o, others meanwhile (add_log (entry (outcome_ok o)) (set_world w r))). split; [exact Ho|].
  intros n Hn. unfold rt_nm. by rewrite H1.
Qed.
End Handlers.

Create HintDb rt_ends.
Ltac rt_walk := repeat first
  [ progress intros
  | solve [auto 2 with rt_ends]
  | apply race_cancel_ends | apply within_ends
  | apply rt_ends_bind | apply rt_ends_try | apply rt_ends_ignore | apply rt_ends_ext | apply rt_ends_nm
  | match goal with |- finishes _ (if ?b then _ else _) => destruct b | |- finishes _ (match ?b with _ => _ end) => destruct b end
  | (intros ? _; done) ].

(** The same for programs that settle; what does not depend on the fuel ends. *)
Create HintDb rt_settles.
Ltac settle_walk := repeat first
  [ progress intros
  | solve [auto 2 with rt_settles]
  | solve [apply settles_const; rt_walk]
  | apply rt_settles_bind | apply rt_settles_try | apply rt_settles_ignore | apply rt_settles_nm
  | match goal with |- settles _ (fun _ => if ?b then _ else _) => destruct b | |- settles _ (fun _ => match ?b with _ => _ end) => destruct b end
  | progress cbv beta ].
Ltac nm_settle_walk := repeat first
  [ progress intros
  | solve [auto 2 with nm_ends]
  | solve [apply nm_settles_const; nm_walk]
  | apply nm_settles_bind
  | match goal with |- nm_settles (fun _ => if ?b then _ else _) => destruct b | |- nm_settles (fun _ => match ?b with _ => _ end) => destruct b end
  | progress cbv beta ].

Section Ends.
Context {W : Type} {N : NetworkManager W} {D : Devices W} {A : AgentLib W} {H : Host W}.
Context {J : JsonText} {L : IpLib} {C : ServerCrypto} {P : ProfileCrypto} {Cn : Countries} {I : Installed}.
Context {LW : NmLaws W} {CL : ClockLaws W}.
Context (username : string) (meanwhile : NativeRuntime W -> NativeRuntime W).
Abbreviation ends m := (finishes (fun _ => True) m).
Abbreviation settle m := (settles (fun _ => True) m).

#[local] Hint Resolve deactivate_all_settles : nm_ends.
Lemma delete_each_ends' matches action paths removed : nm_ends (W := W) (delete_each matches action paths removed).
Proof. apply delete_each_ends. Qed.
#[local] Hint Resolve delete_each_ends' : nm_ends.
Lemma remove_owned_settles id : nm_settles (W := W) (fun fuel => remove_owned_connections_by_id fuel id).
Proof. unfold remove_owned_connections_by_id, system_bus, list_connections. nm_settle_walk. Qed.
Lemma ensure_active_ends id persistent st create activation : nm_ends (W := W) (ensure_active id persistent st create activation).
Proof.
  unfold ensure_active, active_connection_by_id, profile_for, settings_connection_by_id_owned, active_connections, list_connections, add_connection,
    activate. nm_walk.
Qed.
Lemma connectivity_ends : nm_ends (W := W) disable_connectivity_check.
Proof. unfold disable_connectivity_check. nm_walk. Qed.
Lemma modify_routes_ends ip property devices eligible : nm_ends (W := W) (modify_routes ip property devices eligible).
Proof. revert eligible. induction devices as [|d devices IH]; intros eligible; cbn [modify_routes]; nm_walk; apply IH. Qed.
#[local] Hint Resolve remove_owned_settles ensure_active_ends connectivity_ends modify_routes_ends : nm_ends.
Lemma server_route_ends ip add : nm_ends (W := W) (modify_server_route ip add).
Proof. unfold modify_server_route, system_bus. nm_walk. Qed.
#[local] Hint Resolve server_route_ends : nm_ends.
Lemma kill_switch_settles uuid mode tunnel_active ip leak :
  nm_settles (W := W) (fun fuel => NetManager.reconcile_kill_switch username fuel uuid mode tunnel_active ip leak).
Proof.
  unfold NetManager.reconcile_kill_switch, opt_route, ensure_ipv6_leak_protection, ensure_full_kill_switch, remove_ipv6_leak_protection, system_bus.
  nm_settle_walk.
Qed.
#[local] Hint Resolve kill_switch_settles : rt_settles.
#[local] Hint Resolve reads_ends observe_reads routes_reads dns_reads conflicts_reads connect_ends_nm disconnect_uuid_ends : rt_ends.

Lemma split_method_ends action call : ends (split_method meanwhile action call).
Proof. unfold split_method. rt_walk. Qed.
#[local] Hint Resolve split_method_ends : rt_ends.
Lemma observe_ends : ends (observe_blocking meanwhile).
Proof. apply rt_ends_nm, reads_ends, observe_reads. Qed.
#[local] Hint Resolve observe_ends : rt_ends.
Lemma bypass_ends settings tunnel_active : ends (reconcile_split_kill_switch_bypass meanwhile settings tunnel_active).
Proof. unfold reconcile_split_kill_switch_bypass. rt_walk. Qed.
#[local] Hint Resolve bypass_ends : rt_ends.
Lemma kill_switch_run_settles mode tunnel_active ip leak :
  settle (fun fuel => kill_switch_run username meanwhile fuel mode tunnel_active ip leak).
Proof. unfold kill_switch_run. settle_walk. Qed.
#[local] Hint Resolve kill_switch_run_settles : rt_settles.
Lemma policy_ends settings : ends (apply_destination_policy meanwhile settings).
Proof. unfold apply_destination_policy. rt_walk. Qed.
#[local] Hint Resolve policy_ends : rt_ends.
Lemma restore_ends : ends (restore_global_destination_policy meanwhile).
Proof. unfold restore_global_destination_policy. rt_walk. Qed.
#[local] Hint Resolve restore_ends : rt_ends.
Lemma connection_policy_ends global effective : ends (apply_connection_destination_policy meanwhile global effective).
Proof. unfold apply_connection_destination_policy. rt_walk. Qed.
#[local] Hint Resolve connection_policy_ends : rt_ends.
Lemma disconnect_owned_settles uuid : settle (fun fuel => disconnect_owned_inner username meanwhile fuel uuid).
Proof. unfold disconnect_owned_inner, take_down, disconnect_uuid_run. settle_walk. Qed.
#[local] Hint Resolve disconnect_owned_settles : rt_settles.
Lemma disconnect_settles : settle (fun fuel => disconnect_inner username meanwhile fuel).
Proof. unfold disconnect_inner. settle_walk. Qed.
Lemma fail_cleaning_ends {B : Type} uuid e : settle (fun fuel => fail_cleaning (B := B) username meanwhile fuel uuid e).
Proof. unfold fail_cleaning, cleanup_owned_connection. settle_walk. Qed.
#[local] Hint Resolve fail_cleaning_ends : rt_settles.
Lemma agent_start_ends domain session features : ends (agent_start meanwhile domain session features).
Proof. unfold agent_start. rt_walk. Qed.
#[local] Hint Resolve agent_start_ends : rt_ends.
Lemma confirm_session_settles p attempt uuid o handle : settle (fun fuel => confirm_session username meanwhile fuel p attempt uuid o handle).
Proof. unfold confirm_session, await_ready. settle_walk. Qed.
Lemma activate_tunnel_settles p profile : settle (fun fuel => activate_tunnel username meanwhile fuel p profile).
Proof. unfold activate_tunnel. settle_walk. Qed.
Lemma new_profile_ends p session profile_id : ends (new_profile meanwhile p session profile_id).
Proof. unfold new_profile. rt_walk. Qed.
Lemma replace_owned_settles o : settle (fun fuel => replace_owned username meanwhile fuel o).
Proof. unfold replace_owned. settle_walk. Qed.
Lemma select_server_ends params : ends (select_server params).
Proof. unfold select_server. rt_walk. Qed.

(** ** The polling loop *)
Definition since (t : Z) (r : NativeRuntime W) : Prop := t <= ho_now r.(rt_world).
Abbreviation flows t m := (triple (since t) m (fun _ => since t) (fun _ => since t)).

Lemma since_world t r r' : r'.(rt_world) = r.(rt_world) -> since t r -> since t r'.
Proof. unfold since. by intros ->. Qed.
Lemma since_reads {B : Type} t (m : NM (W := W) B) entry : nm_reads m -> flows t (rt_nm meanwhile m entry).
Proof.
  intros Hm r o r' Hr. unfold rt_nm. destruct (Hm (rt_world r)) as [_ Hw]. destruct (m _) as [[o' w] s]. cbn in Hw. subst w. intros [= <- <-].
  destruct o' as [[b|e]|]; [| |done]; (eapply since_world; [|exact Hr]; by destruct r).
Qed.
Lemma since_ext {B : Type} t (f : W -> NativeResult B * W) entry (u : NativeResult B -> Z) :
  (forall w, ho_now w + u (f w).1 <= ho_now (f w).2) ->
  triple (since t) (rt_ext meanwhile f entry) (fun b => since (t + u (Ok b))) (fun e => since (t + u (Err e))).
Proof.
  intros Hf r o r' Hr. unfold rt_ext. specialize (Hf (rt_world r)). unfold since in *. destruct (f _) as [b w]. cbn in Hf. intros [= <- <-].
  destruct b as [b|e]; destruct r; cbn in *; lia.
Qed.
Lemma since_bypass t settings tunnel_active : flows t (reconcile_split_kill_switch_bypass meanwhile settings tunnel_active).
Proof.
  unfold reconcile_split_kill_switch_bypass. apply triple_take. intros active. destruct (_ && _); [by apply triple_ret|].
  apply (triple_then _ _ _ (since t)); [destruct (tunnel_active && _); [apply since_reads, routes_reads|by apply triple_ret]|intros routes].
  apply (triple_then _ _ _ (since t)).
  - unfold split_method. apply triple_take. intros bus. apply triple_check; [intros _ _|done]. apply triple_check; [intros uid _|done].
    eapply triple_weaken; [apply (since_ext t _ _ (fun _ => 0))|done|..]; [|intros ? r; unfold since; lia..].
    intros w. pose proof (split_passes (SetKillSwitchBypass uid ((tunnel_active && bypass_wanted settings)) routes) w).
    destruct (ho_split _ w) as [b w']. cbn in *. lia.
  - intros ?. apply triple_modify. intros r. apply since_world. by destruct r.
Qed.
Lemma since_agent_start t domain session features :
  triple (since t) (agent_start meanwhile domain session features) (fun _ _ => True)
    (fun e r => e.(ne_code) = "local_agent_connect_timeout" -> since (t + 10000) r).
Proof.
  unfold agent_start. destruct (is_empty _); [by apply triple_throw|]. apply triple_check; [intros key _|].
  2:{ intros e r He Hr Hc. exfalso. revert He. unfold private_key_pem, private_key_invalid, ok_or, res_map_err.
      destruct (base64_decode _) as [seed|]; cbn; [|by intros [= <-]]. destruct (negb _); [by intros [= <-]|].
      destruct (to_pkcs8_pem seed); [done|]. by intros [= <-]. }
  eapply (triple_then _ _ _ (fun _ => True)).
  - eapply triple_weaken; [apply (since_ext t _ _ (fun b => match b with Err e => if String.eqb e.(ne_code) "local_agent_connect_timeout" then 10000 else 0 | Ok _ => 0 end))|done|done|].
    + intros w. pose proof (connect_passes domain key session.(sd_vpn).(vs_certificate).(vc_certificate) LOCAL_AGENT_TIMEOUT_SECONDS w) as Hc.
      unfold LOCAL_AGENT_TIMEOUT_SECONDS in *. destruct (agent_connect _ _ _ _ w) as [[b|[[] text]] w']; cbn in *; lia.
    + intros e r Hr Hc. cbv beta iota in Hr. by rewrite Hc in Hr.
  - intros handle. destruct features as [f|]; [|by apply triple_ret]. eapply (triple_then _ _ _ (fun _ => True)); [|intros ?; by apply triple_ret].
    intros r o r' _. unfold rt_ext. destruct (agent_request_features _ _ _ _) as [[b|e] w]; intros [= <- <-]; [done|]. cbn. discriminate.
Qed.

(** The loop with [f fuel] polls: once these are enough for the time that is left, it settles. *)
Lemma connect_loop_settles p session tier attempt started_at uuid conflicts k : forall (f : nat -> nat) t,
  started_at + CONNECTION_TIMEOUT - t <= CONNECTION_POLL_INTERVAL * (Z.of_nat k - 1) -> (1 <= k)%nat ->
  (exists enough, forall n, (enough <= n)%nat -> (k <= f n)%nat) ->
  settles (since t) (fun n => connect_loop username meanwhile n (f n) p session tier attempt started_at uuid conflicts).
Proof.
  unfold CONNECTION_POLL_INTERVAL. induction k as [|k IH]; intros f t Ht Hk [enough Hf]; [lia|].
  apply (settles_from enough _ (fun n => connect_loop username meanwhile n (S (pred (f n))) p session tier attempt started_at uuid conflicts)).
  { intros n r Hn. specialize (Hf n Hn). by replace (S (pred (f n))) with (f n) by lia. }
  cbn [connect_loop].
  assert (Hnext : forall t', t + 125 <= t' -> t < started_at + CONNECTION_TIMEOUT -> settles (since t') (fun n => connect_loop username meanwhile n (pred (f n)) p session tier attempt started_at uuid conflicts)).
  { intros t' Ht' Hlt. apply (IH (fun n => pred (f n))); [lia|lia|]. exists enough. intros n Hn. specialize (Hf n Hn). lia. }
  clear IH.
  assert (Hfail : forall P' e, settles P' (fun n => fail_cleaning (B := json) username meanwhile n uuid e)) by (intros; apply settles_all, fail_cleaning_ends).
  apply (settles_bind _ (fun _ => rt_get rt_attempt) _ (fun _ => since t) (fun _ => since t));
    [apply settles_const; by intros r _|intros n; by apply triple_get|intros current].
  destruct (negb _); [apply Hfail|].
  apply (settles_bind _ (fun _ => observe_blocking meanwhile) _ (fun _ => since t) (fun _ => since t));
    [apply settles_const, finishes_ends, observe_ends|intros n; apply since_reads, observe_reads|intros o].
  apply (settles_bind _ (fun _ => rt_get (fun r => ho_now r.(rt_world))) _ (fun now r => now = ho_now r.(rt_world) /\ since t r) (fun _ => since t));
    [apply settles_const; by intros r _|intros n; by apply triple_get|intros now].
  assert (Hrest : settles (fun r => now = ho_now r.(rt_world) /\ since t r) (fun n =>
      if bool_decide (o.(to_state) = Disconnected) && (2000 <=? now - started_at)
      then fail_cleaning username meanwhile n uuid (with_network_conflicts
             (connection_failed "The VPN service stopped before the tunnel became ready" p.(pl_protocol)) conflicts)
      else if started_at + CONNECTION_TIMEOUT <=? now
      then fail_cleaning username meanwhile n uuid (with_network_conflicts
             (ne_set_retryable true (ne_with_details (jobj [("protocol", Str p.(pl_protocol))]) connection_timeout)) conflicts)
      else rt_ext meanwhile (fun w => (Ok tt, ho_sleep 125 w)) (fun _ => []) ;;@
           connect_loop username meanwhile n (pred (f n)) p session tier attempt started_at uuid conflicts)).

  { destruct (_ && _); [apply Hfail|]. destruct (_ <=? now) eqn:Hd; [apply Hfail|].
    intros r [Hnow Hr]. unfold since in Hr.
    apply (settles_bind (since now) (fun _ => rt_ext meanwhile (fun w => (Ok tt, ho_sleep 125 w)) (fun _ => [])) (fun n _ => connect_loop username meanwhile n (pred (f n)) p session tier attempt started_at uuid conflicts)
      (fun _ => since (now + 125)) (fun _ => since (now + 125))).
    - apply settles_const, finishes_ends, rt_ends_ext.
    - intros n. apply (since_ext now _ _ (fun _ => 125)). intros w. apply sleep_passes.
    - intros ?. apply Hnext; lia.
    - unfold since. lia. }
  destruct o.(to_state); [exact Hrest|exact Hrest| |].
  2:{ apply settles_all. settle_walk. }
  apply (settles_weaken (since t)); [|by intros r [_ Hr]]. clear Hrest.
  apply (settles_try _ (fun _ => reconcile_split_kill_switch_bypass meanwhile p.(pl_settings) true) _ (fun _ => since t) (fun _ => since t));
    [apply settles_const, finishes_ends, bypass_ends|intros n; apply since_bypass| |intros e; apply Hfail].
  intros ?. apply (settles_bind _ (fun _ => stage "connection.connect" "tunnel.securing_session" true) _ (fun _ => since t) (fun _ => since t));
    [apply settles_const; by intros r _|intros n; by apply triple_modify; intros [] Hr|intros ?].
  apply (settles_try _ (fun _ => race_cancel attempt (within (started_at + CONNECTION_TIMEOUT) connection_timeout
      (agent_start meanwhile p.(pl_target).(tg_logical).(ls_domain) session
        (if 0 <? tier then Some (connection_agent_features p.(pl_settings) p.(pl_target)) else None)))) _
    (fun _ _ => True) (fun e r => e.(ne_code) = "local_agent_connect_timeout" -> since (t + 10000) r)).
  - apply settles_const, finishes_ends, race_cancel_ends, within_ends, agent_start_ends.
  - intros n. apply race_cancel_along; [apply within_along; [apply (since_agent_start t)|by intros|by intros]|by intros..].
  - intros handle. apply confirm_session_settles.
  - intros e. apply (settles_bind _ (fun _ => rt_get (fun r => ho_now r.(rt_world))) _
      (fun now r => now = ho_now r.(rt_world) /\ (e.(ne_code) = "local_agent_connect_timeout" -> since (t + 10000) r)) (fun _ _ => True));
      [apply settles_const; by intros r _|intros n; by apply triple_get|intros now'].
    destruct (String.eqb_spec e.(ne_code) "local_agent_connect_timeout") as [Hc|Hc]; [|apply Hfail].
    destruct (now' <? _) eqn:Hlt; [|apply Hfail].
    intros r [Hnow Hr]. unfold since in Hr. specialize (Hr Hc). apply (Hnext (t + 10000)); [lia|lia|]. exact Hr.
Qed.

Lemma establish_settles p session tier attempt profile_id profile conflicts :
  settle (fun fuel => establish username meanwhile fuel p session tier attempt profile_id profile conflicts).
Proof.
  unfold establish. apply rt_settles_bind; [apply settles_const, connection_policy_ends|intros ?].
  apply rt_settles_try; [apply settles_const; by intros r _|intros [?|e]; [|settle_walk]].
  apply rt_settles_bind; [apply settles_const; by intros r _|intros ?]. apply rt_settles_bind; [apply settles_const; by intros r _|intros ?].
  apply rt_settles_try; [apply activate_tunnel_settles|intros [activation|e]; [|settle_walk]].
  apply rt_settles_bind; [apply settles_const; by intros r _|intros ?]. intros r _.
  refine (connect_loop_settles _ _ _ _ (ho_now r.(rt_world)) _ _ 361 (fun n => n) (ho_now r.(rt_world)) _ _ _ r _);
    [unfold CONNECTION_TIMEOUT, CONNECTION_POLL_INTERVAL; lia|lia|by exists 361%nat|unfold since; lia].
Qed.
Lemma connect_locked_settles params attempt profile_id : settle (fun fuel => connect_locked username meanwhile fuel params attempt profile_id).
Proof.
  unfold connect_locked. apply rt_settles_bind; [apply settles_const, select_server_ends|intros [[session tier] p]].
  unfold connect_planned. apply rt_settles_bind; [apply settles_const, observe_ends|intros o].
  apply rt_settles_bind; [apply settles_const; by intros r _|intros ?].
  apply rt_settles_bind; [apply replace_owned_settles|intros ?]. apply rt_settles_bind; [apply settles_const, new_profile_ends|intros profile].
  apply rt_settles_try; [apply settles_const, rt_ends_nm, reads_ends, conflicts_reads|intros found]. apply establish_settles.
Qed.

(** C5: What a connection request does under [network_write] comes to an end, whatever NetworkManager, the Local Agent and the
    split tunnelling service answer and whatever the other tasks do between its calls.  A clock that does not run backwards and the effects of
    NetworkManager's calls are all that is relied on: choosing a server, replacing the tunnel there is, protecting, activating,
    polling and cleaning up after a failure end, as the teardown of the owned tunnel and of a given one does.  The polling loop needs at
    most 361 looks at the tunnel, which fill the 45 seconds of an attempt: each is followed by a pause of 125 milliseconds or by a
    Local Agent that did not answer in its time.  Waiting for [network_write] itself is not part of this. *)
Theorem connection_requests_end params attempt profile_id uuid r :
  settled (fun fuel => connect_locked username meanwhile fuel params attempt profile_id r) /\
  settled (fun fuel => disconnect_inner username meanwhile fuel r) /\
  settled (fun fuel => disconnect_owned_inner username meanwhile fuel uuid r) /\
  (forall p session tier conflicts polls, (361 <= polls)%nat ->
    settled (fun fuel => connect_loop username meanwhile fuel polls p session tier attempt (ho_now r.(rt_world)) uuid conflicts r)).
Proof.
  split_and!; [by apply connect_locked_settles|by apply disconnect_settles|by apply disconnect_owned_settles|].
  intros p session tier conflicts polls Hp.
  apply (connect_loop_settles _ _ _ _ (ho_now r.(rt_world)) _ _ 361 (fun _ => polls) (ho_now r.(rt_world)));
    [unfold CONNECTION_TIMEOUT, CONNECTION_POLL_INTERVAL; lia|lia|by exists 0%nat|unfold since; lia].
Qed.
End Ends.
