(* ===== verification/GuestHole.v ===== *)
(** Recovery of the API through a temporary tunnel ([agent/src/native_backend/guest_hole.rs]).

    When a request fails in its transport and an operation of the user needs it, the request is repeated
    through a tunnel to one of Proton's bootstrap servers, brought up for this request and removed after it.
    The published operations, the cancellation counter and whether the requesting task still waits are a history
    that is looked at anew each time; the sockets bound to the tunnel are parameters. *)
From S2P Require Export Operations GuestDns Api.
From S2P Require Export NativeEnds.
From S2P Require Import CatalogPages.
From S2P Require Export NativeSettings.
Open Scope string_scope.
Open Scope Z_scope.
Open Scope list_scope.
Open Scope rust_scope.

Definition MAX_RECOVERY_ATTEMPTS : nat := 5.

Record Endpoint : Type := mkEndpoint {
  ep_name : string;
  ep_ip : string;
  ep_public_key : string }.
(** [Operation]. *)
Record RecoveryOperation : Type := mkRecoveryOperation {
  ro_id : string;
  ro_method : string;
  ro_generation : Z }.
(** What [cancelled] looks at: the cancellation counter, the published operations and whether the requesting
    task is gone. *)
Record recovery_view : Type := mkRecoveryView {
  rv_generation : Z;
  rv_snapshot : StateSnapshot;
  rv_closed : bool }.

(** How the request through the tunnel races with its deadline and the cancellation. *)
Inductive race : Type :=
  | RaceAnswered
  | RaceTimeout
  | RaceCancelled.

Class RecoveryNet (W : Type) : Type := mkRecoveryNet {
  (** [guest_hole_servers.json]. *)
  rn_builtin : string;
  rn_shuffle : list Endpoint -> W -> list Endpoint * W;
  (** The servers of the cached catalog, shuffled, if it can be loaded. *)
  rn_catalog : W -> option (list LogicalServer) * W;
  rn_dns_id : W -> Z * W;
  (** One UDP exchange through an interface. *)
  rn_dns : string -> list Z -> W -> result (list Z) string * W;
  (** The HTTP client bound to an interface and to addresses, or the error of its construction. *)
  rn_bind : string -> list (list Z) -> result (ApiNet W) string }.

Inductive hole_event : Type :=
  | HoleStage (method stage : string) (cancelable : bool)
  | TunnelRequested (uuid : string) (ok : bool)
  | TunnelSeen (uuid : string) (state : TunnelState)
  | HoleAsked (ok : bool)
  | TunnelRemoved (uuid : string) (ok : bool).

(** ** Which requests are repeated *)
Definition recoverable_kind (kind : string) : bool :=
  existsb (String.eqb kind) ["account.login"; "account.submit_2fa"; "account.authenticate_fido2"; "account.refresh"; "connection.connect"].
Definition cancelling (o : OperationRecord) : bool := str_contains "cancelling" o.(op_stage).
Definition recovery_operation (v : recovery_view) : option RecoveryOperation :=
  let?? o := find_first (fun o => recoverable_kind o.(op_kind)) v.(rv_snapshot).(ss_operations).(os_active) in
  if cancelling o then None else Some (mkRecoveryOperation o.(op_id) o.(op_kind) v.(rv_generation)).
Definition recovery_cancelled (op : RecoveryOperation) (v : recovery_view) : bool :=
  v.(rv_closed) || negb (v.(rv_generation) =? op.(ro_generation))
  || negb (existsb (fun o => String.eqb o.(op_id) op.(ro_id) && negb (cancelling o)) v.(rv_snapshot).(ss_operations).(os_active)).
Definition transport_failure (code : string) : bool :=
  existsb (String.eqb code) ["api_unreachable"; "tls_pin_mismatch"; "api_response_invalid"; "api_response_too_large"].

Definition cancelled_error : NativeError := NativeError_new "guest_hole_cancelled" "Temporary API recovery was cancelled".
Definition vpn_active_error : NativeError := NativeError_new "guest_hole_vpn_active" "Disconnect the existing VPN before API recovery".
Definition network_blocked_error : NativeError :=
  NativeError_new "guest_hole_network_blocked" "The active kill switch blocks temporary API recovery".
Definition cleanup_failed (e : NativeError) : NativeError :=
  ne_with_source (AltRouting.ne_to_string e) (NativeError_new "guest_hole_cleanup_failed" "The temporary recovery tunnel could not be removed").
Definition retry_error (code message : string) : NativeError := ne_set_retryable true (NativeError_new code message).

(** ** The servers *)
Section Endpoints.
Context {W : Type} {R : RecoveryNet W} {J : JsonText} {L : IpLib} {C : ServerCrypto}.

Definition is_ipv4 (text : string) : bool := match addr_from_str text with Some (IpV4 _) => true | _ => false end.
Definition builtin_endpoint (logical server : json) : option Endpoint :=
  let?? ip := jget "EntryIP" server ?> as_str in
  let?? key := jget "X25519PublicKey" server ?> as_str in
  if is_ipv4 ip && match base64_decode key with Some bytes => str_len bytes =? 32 | None => false end
  then Some (mkEndpoint (unwrap_or (jget "Name" logical ?> as_str) "Recovery") ip key) else None.
Definition builtin_endpoints : NativeResult (list Endpoint) :=
  let? servers := ok_or (json_parse rn_builtin ?> as_array)
    (ne_with_source (json_refusal "Vec<Value>" rn_builtin)
       (NativeError_new "guest_hole_invalid_bootstrap" "The bundled recovery catalog is invalid")) in
  let endpoints := flat_map (fun logical => omap (builtin_endpoint logical) (unwrap_or (jget "Servers" logical ?> as_array) [])) servers in
  match endpoints with
  | [] => Err (NativeError_new "guest_hole_unavailable" "The bundled recovery catalog has no Stealth endpoints")
  | _ => Ok endpoints
  end.

Definition catalog_endpoint (server : LogicalServer) : option Endpoint :=
  if enabled server && standard server then
    let?? physical := find_first (fun p => (p.(ph_status) =? 1) && is_ok (validate_server p)) server.(ls_servers) in
    Some (mkEndpoint server.(ls_name) physical.(ph_entry_ip) physical.(ph_x25519_public_key))
  else None.
Definition recovery_endpoints (w : W) : NativeResult (list Endpoint) * W :=
  match builtin_endpoints with
  | Err e => (Err e, w)
  | Ok builtin =>
      let '(builtin, w) := rn_shuffle builtin w in
      let '(servers, w) := rn_catalog w in
      let endpoints := take 3 (omap catalog_endpoint (unwrap_or servers [])) in
      (Ok (endpoints ++ take (MAX_RECOVERY_ATTEMPTS - length endpoints) builtin), w)
  end.
End Endpoints.

(** ** Runs *)
Section Hole.
Context {W : Type} {N : NetworkManager W} {D : Devices W} {H : Host W} {NA : ApiNet W} {R : RecoveryNet W}.
Context {J : JsonText} {L : IpLib} {C : ServerCrypto} {P : ProfileCrypto}.
Context (username : string) (meanwhile : ProtonApi W -> ProtonApi W) (view_at : nat -> recovery_view) (race_at : nat -> race).

Record hole : Type := mkHole {
  hl_api : ProtonApi W;
  hl_looks : nat;
  hl_log : list hole_event }.
Definition HoleRun (B : Type) : Type := hole -> outcome B * hole.
Definition hole_ret {B : Type} (b : B) : HoleRun B := fun h => (Done (Ok b), h).
Definition hole_throw {B : Type} (e : NativeError) : HoleRun B := fun h => (Done (Err e), h).
Definition hole_bind {B K : Type} (m : HoleRun B) (k : B -> HoleRun K) : HoleRun K := fun h =>
  match m h with
  | (Done (Ok b), h) => k b h
  | (Done (Err e), h) => (Done (Err e), h)
  | (Running, h) => (Running, h)
  end.
Definition hole_try {B K : Type} (m : HoleRun B) (k : NativeResult B -> HoleRun K) : HoleRun K := fun h =>
  match m h with
  | (Done b, h) => k b h
  | (Running, h) => (Running, h)
  end.
Definition hole_log (l : list hole_event) (h : hole) : hole := mkHole h.(hl_api) h.(hl_looks) (h.(hl_log) ++ l).
Definition hole_note (e : hole_event) : HoleRun unit := fun h => (Done (Ok tt), hole_log [e] h).
Definition hole_look {B : Type} (f : nat -> B) : HoleRun B := fun h => (Done (Ok (f h.(hl_looks))), mkHole h.(hl_api) (S h.(hl_looks)) h.(hl_log)).
Definition hole_now : HoleRun Z := fun h => (Done (Ok (ho_now h.(hl_api).(ap_world))), h).
(** A run against NetworkManager on a blocking thread, and another call that waits. *)
Definition hole_nm {B : Type} (m : NM (W := W) B) (entry : NativeResult B -> list hole_event) : HoleRun B := fun h =>
  match m h.(hl_api).(ap_world) with
  | (Done b, w, _) => (Done b, hole_log (entry b) (mkHole (api_others meanwhile false (set_ap_world w h.(hl_api))) h.(hl_looks) h.(hl_log)))
  | (Running, w, _) => (Running, mkHole (set_ap_world w h.(hl_api)) h.(hl_looks) h.(hl_log))
  end.
Definition hole_ext {B : Type} (f : W -> NativeResult B * W) : HoleRun B := fun h =>
  let '(b, w) := f h.(hl_api).(ap_world) in
  (Done b, mkHole (api_others meanwhile false (set_ap_world w h.(hl_api))) h.(hl_looks) h.(hl_log)).
End Hole.
Arguments hole W : clear implicits.
Arguments HoleRun W B : clear implicits.

Notation "'let#' x ':=' m 'in' k" := (hole_bind m (fun x => k))
  (at level 200, x name, k at level 200, right associativity) : rust_scope.
Notation "m ';;#' k" := (hole_bind m (fun _ => k)) (at level 100, k at level 200, right associativity) : rust_scope.

Section Recovery.
Context {W : Type} {N : NetworkManager W} {D : Devices W} {H : Host W} {NA : ApiNet W} {R : RecoveryNet W}.
Context {J : JsonText} {L : IpLib} {C : ServerCrypto} {P : ProfileCrypto}.
Context (username : string) (meanwhile : ProtonApi W -> ProtonApi W) (view_at : nat -> recovery_view) (race_at : nat -> race).
Context (op : RecoveryOperation).

Definition interface_name : string := "pvgh" +:+ dec ho_uid.
Definition check_cancelled : HoleRun W unit :=
  let# v := hole_look view_at in
  if recovery_cancelled op v then hole_throw cancelled_error else hole_ret tt.

(** No tunnel, no other VPN and no kill switch. *)
Definition recovery_allowed : NM (W := W) unit :=
  let^ observation := observe in
  (if negb (bool_decide (observation.(to_state) = Disconnected)) then nm_throw vpn_active_error
   else
     let^ conflicts := conflicting_interfaces in
     match conflicts with [] => nm_ret tt | _ => nm_throw vpn_active_error end) ;;^
  let^ blocked := network_blocked in
  if blocked : bool then nm_throw network_blocked_error else nm_ret tt.

(** [dns::resolve_api]. *)
Definition resolve_api (interface : string) (w : W) : NativeResult (list (list Z)) * W :=
  let '(id, w) := rn_dns_id w in
  let '(answer, w) := rn_dns interface (GuestDns.query id) w in
  (let? data := res_map_err GuestDns.dns_error answer in GuestDns.parse data id, w).

(** The wait for the tunnel, polled until [deadline]. *)
Fixpoint await_tunnel (polls : nat) (uuid : string) (deadline : Z) : HoleRun W unit :=
  match polls with
  | O => fun h => (Running, h)
  | S polls =>
      check_cancelled ;;#
      let# observation := hole_nm meanwhile (observe_uuid uuid)
        (fun o => match o with Ok o => [TunnelSeen uuid o.(to_state)] | Err _ => [] end) in
      match observation.(to_state) with
      | Connected => hole_ret tt
      | TunnelError => hole_throw (retry_error "guest_hole_failed" "The recovery tunnel did not start")
      | _ =>
          let# now := hole_now in
          if deadline <=? now then hole_throw (retry_error "guest_hole_timeout" "The recovery tunnel timed out")
          else hole_ext meanwhile (fun w => (Ok tt, ho_sleep 125 w)) ;;# await_tunnel polls uuid deadline
      end
  end.
Definition TUNNEL_POLLS : nat := 121.

(** [request_direct] of the bound client: alternative routing is off, and it has a cache of its own. *)
Definition bound_request (bound : ApiNet W) (method endpoint : string) (body : option json) (session : option ApiSession) : HoleRun W json :=
  fun h =>
  let a := h.(hl_api) in
  let '(o, a') := request_direct (N := bound)
    (fun a => let a' := meanwhile a in mkProtonApi a.(ap_world) false a.(ap_cache) a'.(ap_verifying) a.(ap_log))
    method endpoint body session (mkProtonApi a.(ap_world) false None a.(ap_verifying) a.(ap_log)) in
  (o, mkHole (api_others meanwhile false
                (mkProtonApi a'.(ap_world) a.(ap_alternative_enabled) a.(ap_cache) a'.(ap_verifying) a'.(ap_log))) h.(hl_looks)
        (h.(hl_log) ++ [HoleAsked (match o with Done (Ok _) => true | _ => false end)])).

(** The request through the tunnel; a race that is lost abandons it. *)
Definition ask_through (method endpoint : string) (body : option json) (session : option ApiSession) : HoleRun W json :=
  let# addresses := hole_ext meanwhile (resolve_api interface_name) in
  check_cancelled ;;#
  hole_note (HoleStage op.(ro_method) "guest_hole.requesting" true) ;;#
  match rn_bind interface_name addresses with
  | Err error => hole_throw (ne_with_source error (NativeError_new "guest_hole_failed" "Unable to bind the recovery API transport"))
  | Ok bound =>
      let# outcome := hole_look race_at in
      match outcome with
      | RaceAnswered => bound_request bound method endpoint body session
      | RaceTimeout => hole_throw (retry_error "guest_hole_timeout" "The recovery API request timed out")
      | RaceCancelled => hole_throw cancelled_error
      end
  end.

Definition guest_profile (endpoint : Endpoint) (w : W) : NativeResult ProtunProfile * W :=
  let '(key, w) := ho_random w in
  let '(uuid, w) := ho_uuid w in
  (Ok (ProtunProfile_guest uuid key ho_uid endpoint.(ep_name) endpoint.(ep_ip) endpoint.(ep_public_key)), w).

(** One candidate, with the cleanup that precedes everything that follows. *)
Definition try_endpoint (endpoint : Endpoint) (method path : string) (body : option json) (session : option ApiSession)
    (next : NativeError -> HoleRun W json) : HoleRun W json :=
  check_cancelled ;;#
  hole_note (HoleStage op.(ro_method) "guest_hole.connecting" true) ;;#
  let# profile := hole_ext meanwhile (guest_profile endpoint) in
  let uuid := profile.(pt_uuid) in
  hole_try (hole_nm meanwhile (nm_connect username ho_uid (Protun profile)) (fun o => [TunnelRequested uuid (is_ok o)])) (fun started =>
  hole_try (match started with
            | Ok _ =>
                let# now := hole_now in
                await_tunnel TUNNEL_POLLS uuid (now + 15000) ;;#
                ask_through method path body session
            | Err e => hole_throw e
            end) (fun attempted =>
  hole_note (HoleStage op.(ro_method) "guest_hole.cleaning_up" false) ;;#
  hole_try (hole_nm meanwhile (disconnect_uuid uuid) (fun o => [TunnelRemoved uuid (is_ok o)])) (fun removed =>
  match removed with
  | Err e => hole_throw (cleanup_failed e)
  | Ok _ =>
      match attempted with
      | Ok value => hole_ret value
      | Err error =>
          if String.eqb error.(ne_code) "guest_hole_cancelled"
             || (negb (transport_failure error.(ne_code)) && negb (starts_with "guest_hole_" error.(ne_code)))
          then hole_throw error else next error
      end
  end))).
Fixpoint try_endpoints (endpoints : list Endpoint) (method path : string) (body : option json) (session : option ApiSession)
    (last_error : NativeError) : HoleRun W json :=
  match endpoints with
  | [] => hole_throw last_error
  | endpoint :: endpoints =>
      try_endpoint endpoint method path body session (fun error => try_endpoints endpoints method path body session error)
  end.

(** [Recovery::run], while the recovery lock is held. *)
Definition recovery_run (method path : string) (body : option json) (session : option ApiSession) : HoleRun W json :=
  check_cancelled ;;#
  hole_nm meanwhile recovery_allowed (fun _ => []) ;;#
  let# endpoints := hole_ext meanwhile recovery_endpoints in
  try_endpoints (take MAX_RECOVERY_ATTEMPTS endpoints) method path body session
    (retry_error "guest_hole_unavailable" "No recovery server is available").

(** [Recovery::request] after the wait for the recovery lock, during which the requesting task may go away. *)
Definition recovery_request (method path : string) (body : option json) (session : option ApiSession) : HoleRun W json :=
  let# v := hole_look view_at in
  if v.(rv_closed) then hole_throw (NativeError_new "guest_hole_failed" "The recovery request stopped")
  else recovery_run method path body session.
End Recovery.

Section Request.
Context {W : Type} {N : NetworkManager W} {D : Devices W} {H : Host W} {NA : ApiNet W} {R : RecoveryNet W}.
Context {J : JsonText} {L : IpLib} {C : ServerCrypto} {P : ProfileCrypto}.
Context (username : string) (meanwhile : ProtonApi W -> ProtonApi W) (view_at : nat -> recovery_view) (race_at : nat -> race).

(** [ProtonApi::request]; the operation is chosen before the first exchange. *)
Definition request (method endpoint : string) (body : option json) (session : option ApiSession) : HoleRun W json :=
  let# v := hole_look view_at in
  let# enabled := (fun h => (Done (Ok h.(hl_api).(ap_alternative_enabled)), h)) in
  let operation := if negb enabled || String.eqb endpoint "/vpn/v1/location" then None else recovery_operation v in
  hole_try (fun h => let '(o, a) := request_direct meanwhile method endpoint body session h.(hl_api) in (o, mkHole a h.(hl_looks) h.(hl_log)))
    (fun result =>
       match result, operation with
       | Err error, Some op =>
           if transport_failure error.(ne_code) then recovery_request username meanwhile view_at race_at op method endpoint body session
           else hole_throw error
       | Err error, None => hole_throw error
       | Ok value, _ => hole_ret value
       end).
End Request.

(** ** The protocol of the temporary tunnel *)
Inductive hole_phase : Type :=
  | NoTunnel
  | Rising (uuid : string)
  | Usable (uuid : string).
Definition hole_advance (ph : hole_phase) (e : hole_event) : option hole_phase :=
  match e, ph with
  | HoleStage _ _ _, _ => Some ph
  | TunnelRequested uuid _, NoTunnel => Some (Rising uuid)
  | TunnelSeen uuid state, Rising uuid' =>
      if String.eqb uuid uuid' then Some (if bool_decide (state = Connected) then Usable uuid else ph) else None
  | HoleAsked _, Usable _ => Some ph
  | TunnelRemoved uuid _, Rising uuid' => if String.eqb uuid uuid' then Some NoTunnel else None
  | TunnelRemoved uuid _, Usable uuid' => if String.eqb uuid uuid' then Some NoTunnel else None
  | _, _ => None
  end.
Fixpoint hole_walk (ph : hole_phase) (l : list hole_event) : option hole_phase :=
  match l with
  | [] => Some ph
  | e :: l => match hole_advance ph e with Some ph => hole_walk ph l | None => None end
  end.
Lemma hole_walk_app ph l l' : hole_walk ph (l ++ l') = match hole_walk ph l with Some ph => hole_walk ph l' | None => None end.
Proof. revert ph. induction l as [|e l IH]; intros ph; [done|]. cbn. by destruct (hole_advance ph e). Qed.

Definition requested (l : list hole_event) : list string :=
  filter_map (fun e => match e with TunnelRequested uuid _ => Some uuid | _ => None end) l.
Lemma requested_app l l' : requested (l ++ l') = requested l ++ requested l'.
Proof. induction l as [|e l IH]; [done|]. unfold requested in *. cbn. destruct e; cbn; by rewrite IH. Qed.
Definition fails_removal (e : hole_event) : bool := match e with TunnelRemoved _ ok => negb ok | _ => false end.
(** A failed removal ends the run with an error that says so. *)
Definition removal_ends {B : Type} (o : outcome B) (l : list hole_event) : Prop :=
  forall l1 e l2, l = l1 ++ e :: l2 -> fails_removal e = true -> l2 = [] /\ exists e, o = Done (Err (cleanup_failed e)).
Lemma removal_quiet {B : Type} (o : outcome B) l : Forall (fun e => fails_removal e = false) l -> removal_ends o l.
Proof. intros Hl l1 e l2 -> He. apply Forall_app in Hl as [_ Hl]. apply Forall_cons in Hl as [Hl _]. congruence. Qed.
Lemma removal_app {B : Type} (o : outcome B) l l' :
  Forall (fun e => fails_removal e = false) l -> removal_ends o l' -> removal_ends o (l ++ l').
Proof.
  induction l as [|x l IH]; intros Hl Hl'; [done|]. apply Forall_cons in Hl as [Hx Hl]. intros [|y l1] e l2 E He.
  - injection E as -> _. congruence.
  - injection E as -> E. by eapply IH.
Qed.

Section Facts.
Context {W : Type} {N : NetworkManager W} {D : Devices W} {H : Host W} {NA : ApiNet W} {R : RecoveryNet W}.
Context {J : JsonText} {L : IpLib} {C : ServerCrypto} {P : ProfileCrypto}.
Context (username : string) (meanwhile : ProtonApi W -> ProtonApi W) (view_at : nat -> recovery_view) (race_at : nat -> race).
Context (sleeps : forall ms w, ho_now w + ms <= ho_now (ho_sleep ms w)).
Context (op : RecoveryOperation).

Definition hole_yields {B : Type} (m : HoleRun W B) (h : hole W) (Q : outcome B -> list hole_event -> hole W -> Prop) : Prop :=
  exists l, (m h).2.(hl_log) = h.(hl_log) ++ l /\ Q (m h).1 l (m h).2.

Lemma hy_done {B : Type} (o : NativeResult B) (h : hole W) (Q : outcome B -> list hole_event -> hole W -> Prop) :
  Q (Done o) [] h -> hole_yields (fun h => (Done o, h)) h Q.
Proof. intros HQ. exists []. by rewrite app_nil_r. Qed.
(** A first step without a log of its own. *)
Lemma hy_silent {B K : Type} (m : HoleRun W B) (k : B -> HoleRun W K) h h' (b : NativeResult B) Q :
  m h = (Done b, h') -> h'.(hl_log) = h.(hl_log) ->
  match b with Ok b => hole_yields (k b) h' Q | Err e => Q (Done (Err e)) [] h' end -> hole_yields (hole_bind m k) h Q.
Proof.
  intros E Hl HQ. unfold hole_yields, hole_bind. rewrite E. destruct b as [b|e].
  - destruct HQ as (l & H1 & H2). exists l. by rewrite <- Hl.
  - exists []. by rewrite app_nil_r.
Qed.
Lemma hy_bind {B K : Type} (m : HoleRun W B) (k : B -> HoleRun W K) h (M : outcome B -> list hole_event -> hole W -> Prop) Q :
  hole_yields m h M ->
  (forall b l h', M (Done (Ok b)) l h' -> hole_yields (k b) h' (fun o l' h'' => Q o (l ++ l') h'')) ->
  (forall e l h', M (Done (Err e)) l h' -> Q (Done (Err e)) l h') ->
  (forall l h', ~ M Running l h') -> hole_yields (hole_bind m k) h Q.
Proof.
  intros (l & Hl & HM) Hk He Hr. unfold hole_yields, hole_bind. destruct (m h) as [[[b|e]|] h']; cbn in *.
  - destruct (Hk _ _ _ HM) as (l' & H1 & H2). exists (l ++ l'). by rewrite H1, Hl, app_assoc.
  - exists l. split; [done|by apply He].
  - by destruct (Hr _ _ HM).
Qed.
Lemma hy_try {B K : Type} (m : HoleRun W B) (k : NativeResult B -> HoleRun W K) h (M : outcome B -> list hole_event -> hole W -> Prop) Q :
  hole_yields m h M -> (forall b l h', M (Done b) l h' -> hole_yields (k b) h' (fun o l' h'' => Q o (l ++ l') h'')) ->
  (forall l h', ~ M Running l h') -> hole_yields (hole_try m k) h Q.
Proof.
  intros (l & Hl & HM) Hk Hr. unfold hole_yields, hole_try. destruct (m h) as [[b|] h']; cbn in *.
  - destruct (Hk _ _ _ HM) as (l' & H1 & H2). exists (l ++ l'). by rewrite H1, Hl, app_assoc.
  - by destruct (Hr _ _ HM).
Qed.
Lemma hy_mono {B : Type} (m : HoleRun W B) h (M Q : outcome B -> list hole_event -> hole W -> Prop) :
  hole_yields m h M -> (forall o l h', M o l h' -> Q o l h') -> hole_yields m h Q.
Proof. intros (l & Hl & HM) HQ. exists l. split; [done|by apply HQ]. Qed.
Lemma hy_note {K : Type} e (k : unit -> HoleRun W K) h Q :
  (forall h', ho_now h'.(hl_api).(ap_world) = ho_now h.(hl_api).(ap_world) -> hole_yields (k tt) h' (fun o l h' => Q o (e :: l) h')) ->
  hole_yields (hole_bind (hole_note e) k) h Q.
Proof.
  intros HQ. destruct (HQ (hole_log [e] h) eq_refl) as (l & H1 & H2). exists (e :: l). unfold hole_bind, hole_note.
  split; [|exact H2]. rewrite H1. destruct h; cbn. by rewrite <- app_assoc.
Qed.
(** A check of the cancellation. *)
Lemma hy_check {K : Type} (k : unit -> HoleRun W K) h Q :
  (forall h', Q (Done (Err cancelled_error)) [] h') ->
  (forall h', ho_now h'.(hl_api).(ap_world) = ho_now h.(hl_api).(ap_world) -> hole_yields (k tt) h' Q) ->
  hole_yields (hole_bind (check_cancelled view_at op) k) h Q.
Proof.
  intros He Hk. eapply (hy_silent _ _ _ (mkHole h.(hl_api) (S h.(hl_looks)) h.(hl_log))
    (if recovery_cancelled op (view_at h.(hl_looks)) then Err cancelled_error else Ok tt)); [|done|].
  - unfold check_cancelled, hole_bind, hole_look. by destruct (recovery_cancelled op _).
  - destruct (recovery_cancelled op _); [apply He|by apply Hk].
Qed.
Lemma hy_ext {B K : Type} (f : W -> NativeResult B * W) (k : B -> HoleRun W K) h Q :
  (forall e w h', (f w).1 = Err e -> Q (Done (Err e)) [] h') ->
  (forall b h', (f h.(hl_api).(ap_world)).1 = Ok b -> ho_now h'.(hl_api).(ap_world) = ho_now (f h.(hl_api).(ap_world)).2 -> hole_yields (k b) h' Q) ->
  hole_yields (hole_bind (hole_ext meanwhile f) k) h Q.
Proof.
  intros He Hk. specialize (He) as He. destruct (f h.(hl_api).(ap_world)) as [b w] eqn:E.
  eapply (hy_silent _ _ _ (mkHole (api_others meanwhile false (set_ap_world w h.(hl_api))) h.(hl_looks) h.(hl_log)) b);
    [unfold hole_ext; by rewrite E|done|]. destruct b as [b|e].
  - by apply Hk.
  - eapply (He e h.(hl_api).(ap_world)). by rewrite E.
Qed.
(** A run against NetworkManager that ends. *)
Lemma hy_nm {B : Type} (m : NM (W := W) B) entry h :
  nm_ends m -> hole_yields (hole_nm meanwhile m entry) h (fun o l _ => exists b, o = Done b /\ l = entry b).
Proof.
  intros Hm. specialize (Hm h.(hl_api).(ap_world)). unfold hole_yields, hole_nm. destruct (m _) as [[[b|] w] seen]; [|done].
  exists (entry b). split; [done|]. by exists b.
Qed.

(** A read leaves the world alone. *)
Lemma hy_reads {B : Type} (m : NM (W := W) B) entry h :
  nm_reads m -> hole_yields (hole_nm meanwhile m entry) h (fun o l h' =>
    exists b, o = Done b /\ l = entry b /\ ho_now h'.(hl_api).(ap_world) = ho_now h.(hl_api).(ap_world)).
Proof.
  intros Hm. destruct (Hm h.(hl_api).(ap_world)) as [H1 H2]. unfold hole_yields, hole_nm. destruct (m _) as [[[b|] w] seen]; [|done].
  cbn in H2. subst w. exists (entry b). split; [done|]. by exists b.
Qed.

(** A part of a run that neither requests nor removes a tunnel. *)
Record calm {B : Type} (ph ph' : hole_phase) (o : outcome B) (l : list hole_event) : Prop := {
  cm_ends : o <> Running;
  cm_walk : hole_walk ph l = Some ph';
  cm_requested : requested l = [];
  cm_removals : Forall (fun e => fails_removal e = false) l }.
Lemma calm_nil {B : Type} ph (o : NativeResult B) : calm ph ph (Done o) [].
Proof. by constructor. Qed.
Lemma calm_cons {B : Type} ph ph1 ph' (o : outcome B) e l :
  hole_advance ph e = Some ph1 -> requested [e] = [] -> fails_removal e = false -> calm ph1 ph' o l -> calm ph ph' o (e :: l).
Proof.
  intros Ha Hr Hf [H1 H2 H3 H4]. constructor; [done|by cbn; rewrite Ha| |by constructor].
  change (e :: l) with ([e] ++ l). by rewrite requested_app, Hr.
Qed.

Definition settled (uuid : string) (o : outcome unit) : hole_phase := match o with Done (Ok _) => Usable uuid | _ => Rising uuid end.
Lemma await_log polls uuid deadline h :
  (1 <= polls)%nat -> deadline <= ho_now h.(hl_api).(ap_world) + 125 * (Z.of_nat polls - 1) ->
  hole_yields (await_tunnel meanwhile view_at op polls uuid deadline) h (fun o l _ => calm (Rising uuid) (settled uuid o) o l).
Proof.
  revert h. induction polls as [|polls IH]; intros h Hp Hd; [lia|]. cbn [await_tunnel]. apply hy_check; [intros h'; apply calm_nil|].
  intros h1 H1. eapply hy_bind; [apply hy_reads, observe_reads| | |].
  - intros observation l h2 (b & [= <-] & -> & H2). cbn [app].
    assert (Hseen : forall o l, observation.(to_state) <> Connected -> calm (Rising uuid) (settled uuid o) o l ->
      calm (Rising uuid) (settled uuid o) o (TunnelSeen uuid (to_state observation) :: l)).
    { intros o l Hs Hc. eapply calm_cons; [|done..|exact Hc]. cbn. by rewrite String.eqb_refl, bool_decide_eq_false_2. }
    assert (Hpoll : observation.(to_state) <> Connected -> observation.(to_state) <> TunnelError ->
      hole_yields (let# now := hole_now in
          if deadline <=? now then hole_throw (retry_error "guest_hole_timeout" "The recovery tunnel timed out")
          else hole_ext meanwhile (fun w => (Ok tt, ho_sleep 125 w)) ;;# await_tunnel meanwhile view_at op polls uuid deadline) h2
        (fun o l _ => calm (Rising uuid) (settled uuid o) o (TunnelSeen uuid (to_state observation) :: l))).
    { intros Hs _. apply hy_silent with (h' := h2) (b := Ok (ho_now h2.(hl_api).(ap_world))); [done|done|].
      destruct (deadline <=? _) eqn:Ed; [apply hy_done, Hseen; [done|apply calm_nil]|]. apply Z.leb_gt in Ed. apply hy_ext; [done|].
      intros [] h3 _ H3. eapply hy_mono; [apply IH|intros o l h4 Hc; by apply Hseen].
      - destruct polls; [|lia]. lia.
      - rewrite H3. cbn. pose proof (sleeps 125 h2.(hl_api).(ap_world)). lia. }
    destruct (to_state observation) eqn:Es; [by apply Hpoll..| |].
    + apply hy_done. eapply calm_cons; [|done..|apply calm_nil]. cbn. by rewrite String.eqb_refl.
    + apply hy_done. apply Hseen; [done|apply calm_nil].
  - intros e l h2 (b & [= <-] & -> & _). apply calm_nil.
  - by intros l h2 (b & ? & _).
Qed.

Lemma ask_log uuid method path body session h :
  hole_yields (ask_through meanwhile view_at race_at op method path body session) h (fun o l _ =>
    calm (Usable uuid) (Usable uuid) o l /\ forall value, o = Done (Ok value) -> HoleAsked true ∈ l).
Proof.
  unfold ask_through. apply hy_ext; [intros; split; [apply calm_nil|done]|]. intros addresses h1 _ _.
  apply hy_check; [intros; split; [apply calm_nil|done]|]. intros h2 _. apply hy_note. intros h3 _.
  assert (Hstop : forall e (h : hole W), hole_yields (hole_throw e : HoleRun W json) h (fun o l _ =>
    calm (Usable uuid) (Usable uuid) o (HoleStage (ro_method op) "guest_hole.requesting" true :: l) /\
    forall value, o = Done (Ok value) -> HoleAsked true ∈ HoleStage (ro_method op) "guest_hole.requesting" true :: l)).
  { intros e h0. apply hy_done. split; [|done]. by eapply calm_cons; [..|apply calm_nil]. }
  destruct (rn_bind _ addresses) as [bound|error]; [|apply Hstop].
  eapply hy_silent; [reflexivity|done|]. destruct (race_at _); [|apply Hstop..].
  unfold hole_yields, bound_request. cbn [hl_api hl_log].
  match goal with |- context [request_direct ?m method path body session ?a] =>
    destruct (start_request_log (N := bound) m (mkApiRequest method path (match body with Some body => JsonBody body | None => NoBody end) session)
      (fun retry_after => unwrap_or retry_after 1) a) as (route & l & _ & Hx); [intros [seconds|]; cbn; lia|];
    change (start_request (N := bound) m _ _ a) with (request_direct (N := bound) m method path body session a) in Hx;
    destruct (request_direct m method path body session a) as [o a'] end.
  cbn in Hx. destruct Hx as [Hends _ _ _ _ _]. eexists. split; [reflexivity|]. cbn [fst]. split.
  - do 2 (eapply calm_cons; [reflexivity|done..|]). destruct o as [o|]; [apply calm_nil|done].
  - intros value ->. apply elem_of_cons. right. apply elem_of_cons. by left.
Qed.

(** From one tunnel-free moment to the next. *)
Record tidy (n : nat) (o : outcome json) (l : list hole_event) : Prop := {
  ty_ends : o <> Running;
  ty_walk : hole_walk NoTunnel l = Some NoTunnel;
  ty_requested : (length (requested l) <= n)%nat;
  ty_removals : removal_ends o l;
  ty_asked : forall value, o = Done (Ok value) -> HoleAsked true ∈ l }.
Lemma tidy_stop n e : tidy n (Done (Err e)) [].
Proof. constructor; [done|done|apply Nat.le_0_l|by apply removal_quiet|done]. Qed.
Lemma tidy_app n l o l' :
  hole_walk NoTunnel l = Some NoTunnel -> (length (requested l) <= 1)%nat -> Forall (fun e => fails_removal e = false) l ->
  tidy n o l' -> tidy (S n) o (l ++ l').
Proof.
  intros H1 H2 H3 [H4 H5 H6 H7 H8]. constructor; [done|by rewrite hole_walk_app, H1| |by apply removal_app|].
  - rewrite requested_app, length_app. lia.
  - intros value Ho. apply elem_of_app. right. by eapply H8.
Qed.
Lemma tidy_stage n o l method stage cancelable : tidy n o l -> tidy n o (HoleStage method stage cancelable :: l).
Proof.
  intros [H1 H2 H3 H4 H5]. constructor; [done|done|done| |].
  - apply (removal_app o [HoleStage method stage cancelable]); [by repeat constructor|done].
  - intros value Ho. apply elem_of_cons. right. by eapply H5.
Qed.

(** The part of an attempt between the request of the tunnel and its removal. *)
Lemma attempt_log uuid (started : NativeResult TunnelObservation) method path body session h :
  hole_yields (match started with
               | Ok _ =>
                   let# now := hole_now in
                   await_tunnel meanwhile view_at op TUNNEL_POLLS uuid (now + 15000) ;;#
                   ask_through meanwhile view_at race_at op method path body session
               | Err e => hole_throw e
               end : HoleRun W json) h (fun o l _ =>
    (exists ph, (ph = Rising uuid \/ ph = Usable uuid) /\ calm (Rising uuid) ph o l) /\
    forall value, o = Done (Ok value) -> HoleAsked true ∈ l).
Proof.
  destruct started as [observation|e]; [|apply hy_done; split; [exists (Rising uuid); split; [by left|apply calm_nil]|done]].
  apply hy_silent with (h' := h) (b := Ok (ho_now h.(hl_api).(ap_world))); [done|done|].
  eapply hy_bind; [apply await_log; [unfold TUNNEL_POLLS; lia|unfold TUNNEL_POLLS; lia]| | |].
  - intros [] l h1 Hc. eapply hy_mono; [apply (ask_log uuid)|]. intros o l' h2 [Hc' Ha]. split.
    + exists (Usable uuid). split; [by right|]. destruct Hc as [_ C2 C3 C4], Hc' as [D1 D2 D3 D4]. constructor; [done| | |by apply Forall_app].
      * rewrite hole_walk_app, C2. exact D2.
      * by rewrite requested_app, C3, D3.
    + intros value Ho. apply elem_of_app. right. by eapply Ha.
  - intros e l h1 Hc. split; [|done]. exists (Rising uuid). split; [by left|]. by destruct Hc.
  - intros l h1 Hc. by destruct Hc.
Qed.

Lemma try_endpoint_log n endpoint method path body session next h :
  (forall error h', hole_yields (next error) h' (fun o l _ => tidy n o l)) ->
  hole_yields (try_endpoint username meanwhile view_at race_at op endpoint method path body session next) h (fun o l _ => tidy (S n) o l).
Proof.
  intros Hnext. unfold try_endpoint. apply hy_check; [intros; apply tidy_stop|]. intros h1 _. apply hy_note. intros h2 _.
  apply hy_ext; [intros; apply tidy_stage, tidy_stop|]. intros profile h3 _ _. cbn beta zeta. remember (pt_uuid profile) as uuid eqn:Euuid. clear Euuid.
  eapply hy_try; [apply hy_nm, connect_ends_nm| |by intros l h' (b & ? & _)]. intros started l0 h4 (b & [= <-] & ->). cbn beta.
  eapply hy_try; [apply (attempt_log uuid)| |by intros l h' [(ph & _ & Hc) _]; destruct Hc].
  intros attempted l h5 [(ph & Hph & Hc) Hask]. cbn beta. apply hy_note. intros h6 _.
  eapply hy_try; [apply hy_nm, disconnect_uuid_ends| |by intros l' h' (b & ? & _)]. intros removed l1 h7 (b & [= <-] & ->). cbn beta.
  assert (Hw : forall ok, hole_walk NoTunnel ([TunnelRequested uuid (is_ok started)] ++ l ++
    HoleStage (ro_method op) "guest_hole.cleaning_up" false :: [TunnelRemoved uuid ok]) = Some NoTunnel).
  { intros ok. cbn. rewrite hole_walk_app. destruct Hc as [_ -> _ _]. destruct Hph as [-> | ->]; cbn; by rewrite String.eqb_refl. }
  assert (Hr : forall ok, requested ([TunnelRequested uuid (is_ok started)] ++ l ++
    HoleStage (ro_method op) "guest_hole.cleaning_up" false :: [TunnelRemoved uuid ok]) = [uuid]).
  { intros ok. rewrite !requested_app. by destruct Hc as [_ _ -> _]. }
  destruct removed as [removed|e].
  - assert (Hf : Forall (fun e => fails_removal e = false) ([TunnelRequested uuid (is_ok started)] ++ l ++
      HoleStage (ro_method op) "guest_hole.cleaning_up" false :: [TunnelRemoved uuid true])).
    { apply Forall_app. split; [by repeat constructor|]. apply Forall_app. split; [by destruct Hc|by repeat constructor]. }
    assert (Hgo : forall o l', tidy n o l' -> tidy (S n) o (HoleStage (ro_method op) "guest_hole.connecting" true ::
      [TunnelRequested uuid (is_ok started)] ++ l ++ HoleStage (ro_method op) "guest_hole.cleaning_up" false :: [TunnelRemoved uuid true] ++ l')).
    { intros o l' Ht. apply tidy_stage. pose proof (tidy_app n _ o l' (Hw true) ltac:(by rewrite Hr) Hf Ht) as Ht'.
      by rewrite <- !app_assoc in Ht'. }
    destruct attempted as [value|error].
    + apply hy_done. rewrite app_nil_r. apply tidy_stage. constructor; [done|by apply Hw|by rewrite Hr; cbn; lia|by apply removal_quiet|].
      intros v Ho. apply elem_of_app. right. apply elem_of_app. left. by eapply Hask.
    + destruct (_ || _); [apply hy_done; by apply Hgo, tidy_stop|]. eapply hy_mono; [apply Hnext|]. intros o l' h8 Ht. by apply Hgo.
  - apply hy_done. rewrite app_nil_r. apply tidy_stage. constructor; [done|by apply Hw|by rewrite Hr; cbn; lia| |done].
    change (is_ok (Err e)) with false.
    assert ([TunnelRequested uuid (is_ok started)] ++ l ++ HoleStage (ro_method op) "guest_hole.cleaning_up" false :: [TunnelRemoved uuid false]
      = ([TunnelRequested uuid (is_ok started)] ++ l ++ [HoleStage (ro_method op) "guest_hole.cleaning_up" false]) ++ [TunnelRemoved uuid false]) as E
      by (by rewrite <- !app_assoc). rewrite E. apply removal_app.
    + apply Forall_app. split; [by repeat constructor|]. apply Forall_app. split; [by destruct Hc|by repeat constructor].
    + intros [|x l'] y l2 Hy _; [injection Hy as <- <-; split; [done|by exists e]|]. destruct l'; discriminate.
Qed.

Lemma try_endpoints_log endpoints method path body session last h :
  hole_yields (try_endpoints username meanwhile view_at race_at op endpoints method path body session last) h
    (fun o l _ => tidy (length endpoints) o l).
Proof.
  revert last h. induction endpoints as [|endpoint endpoints IH]; intros last h; cbn [try_endpoints length]; [apply hy_done, tidy_stop|].
  apply try_endpoint_log. intros error h'. apply IH.
Qed.

Lemma blocked_reads : nm_reads network_blocked.
Proof. unfold network_blocked, active_connection_by_id, active_connections, system_bus. nm_walk. Qed.
Lemma allowed_reads : nm_reads recovery_allowed.
Proof.
  unfold recovery_allowed. apply reads_bind; [apply observe_reads|]. intros o. apply reads_bind.
  - destruct (negb _); [apply reads_throw|]. apply reads_bind; [apply conflicts_reads|]. intros c. destruct c; [apply reads_ret|apply reads_throw].
  - intros _. apply reads_bind; [apply blocked_reads|]. intros b. destruct b; [apply reads_throw|apply reads_ret].
Qed.

End Facts.
