(* ===== verification/ConnExample.v ===== *)
(** A concrete connection: a host on which the program connects and disconnects, two on which a failure leaves
    the network in a state the program does not clean up, and one on which the tunnel never comes up. *)
From S2P Require Export NativeProtocol NativeTeardown NativeEnds NetExample.
From S2P Require Import CatalogPages.
From S2P Require Export NativeSettings.
Open Scope string_scope.
Open Scope Z_scope.
Open Scope list_scope.
Open Scope rust_scope.

(** [dm_lost]: NetworkManager cannot be reached while a tunnel is up; [dm_refuses]: no route can be set. *)
Record demo : Type := mkDemo {
  dm_now : Z;
  dm_lost : bool;
  dm_refuses : bool;
  dm_system : example_system }.
Definition on_system {B : Type} (f : example_system -> B * example_system) (w : demo) : B * demo :=
  let '(b, s) := f w.(dm_system) in (b, mkDemo w.(dm_now) w.(dm_lost) w.(dm_refuses) s).
Definition tunnel_up (w : demo) : bool := existsb (fun a => unwrap_or a.(ac_vpn) false) (proj1_sig w.(dm_system)).(w_active).

#[export] Instance demo_manager : NetworkManager demo := {
  nm_bus w := if w.(dm_lost) && tunnel_up w then Err "gone" else Ok tt;
  nm_active w := nm_active w.(dm_system);
  nm_profiles w := nm_profiles w.(dm_system);
  nm_settings_of w := nm_settings_of w.(dm_system);
  nm_devices w := nm_devices w.(dm_system);
  nm_check_enabled _ := Some false;
  nm_primary _ := None;
  nm_type_of _ _ := None;
  nm_set_check _ w := (Ok tt, w);
  nm_add b st := on_system (nm_add b st);
  nm_activate c o := on_system (nm_activate c o);
  nm_deactivate p := on_system (nm_deactivate p);
  nm_delete c := on_system (nm_delete c);
  nm_modify _ _ _ w := (Ok (if w.(dm_refuses) then Err "no such device" else Ok tt), w);
  os_remove_credentials _ w := w }.
#[export] Instance demo_devices : Devices demo := {
  sys_net _ := None;
  ip_default_routes v6 _ := Ok (Ok (if v6 then "v6" else "v4")) }.
#[export] Instance demo_agent : AgentLib demo := {
  AgentHandle := unit;
  agent_connect _ _ _ _ w := (Ok tt, w);
  agent_request_features _ _ _ w := (Ok tt, w);
  agent_request_status _ _ _ w := (Ok tt, w);
  agent_updates _ _ w := ([Some (AgentStatus (mkStatusMessage AgentConnected None None None None))], w);
  to_pkcs8_pem seed := Ok seed }.
#[export] Instance demo_host : Host demo := {
  ho_now := dm_now;
  ho_sleep ms w := mkDemo (w.(dm_now) + ms) w.(dm_lost) w.(dm_refuses) w.(dm_system);
  ho_split_bus _ := Ok tt;
  ho_split _ w := (Ok tt, w);
  ho_uid := 1000;
  ho_uuid w := ("uuid-" +:+ dec (Z.of_nat (size (proj1_sig w.(dm_system)).(w_profiles))), w);
  ho_random w := ([1; 2; 3], w);
  ho_credentials uuid _ w := (Ok ("/run/" +:+ uuid), w);
  ho_excluded _ := [];
  ho_save_statistics _ w := (Ok tt, w);
  ho_draw _ _ _ := 0%nat;
  ho_noticed _ := true }.
Definition demo_countries : Countries := mkCountries (fun _ => None).
Definition demo_installed : Installed := mkInstalled true false.

Definition home_world : world := mkWorld [home_active] {["/settings/home" := home_settings]}.
Definition home_state : example_system := exist _ home_world (@eq_refl bool true <: consistent home_world = true).
(** The standard kill switch and split tunnelling are on. *)
Definition demo_settings : NativeSettings :=
  set_killswitch 1 (set_ipv6_leak_protection false
    (on_features (set_split (mkSplitTunnelingSettings true "exclude" ∅ ∅)) NativeSettings_default)).
Definition demo_runtime (lost refuses : bool) : NativeRuntime demo :=
  mkRuntime (mkDemo 0 lost refuses home_state)
    (mkRuntimeState (Some example_session) false
       (Some (mkCatalog SpecFloat.S754_nan SpecFloat.S754_nan 2 [example_target.(tg_logical)] ∅)) (Some example_ports)
       demo_settings None None false 0 None "" false None None None)
    (mkSettingsDisk None None []) None AgentSnapshot_default None true true None false 1 None (mkLocks true false false) [].
Definition demo_params : json := jobj [("target", jobj [("kind", Str "fastest")])].

Definition demo_run (lost refuses : bool) : outcome json * NativeRuntime demo :=
  connect_locked (J := routes_text) (L := example_lib) (Cn := demo_countries) (C := example_crypto) (P := example_profile_crypto) (I := demo_installed)
    "user" (fun r => r) 400 demo_params 1 None (demo_runtime lost refuses).

(** The end of a run, for evaluation: whether it succeeded, or the code of its error; the length of its log;
    whether a tunnel is up; whether the network is blocked; whether a cleanup was started. *)
Definition run_end (x : outcome json * NativeRuntime demo) : option (option string) * nat * bool * outcome bool * bool :=
  (match x.1 with Done (Ok _) => Some None | Done (Err e) => Some (Some e.(ne_code)) | Running => None end,
   length x.2.(rt_log), tunnel_up x.2.(rt_world), (network_blocked (J := routes_text) x.2.(rt_world)).1.1,
   existsb (fun a => match a with CleanupStarted _ => true | _ => false end) x.2.(rt_log)).

Example demo_connects : run_end (demo_run false false) = (Some None, 13%nat, true, Done (Ok false), false).
Proof. vm_compute. reflexivity. Qed.

(** NetworkManager fails to answer once: the attempt fails, and its tunnel stays up. *)
Example lost_tunnel_stays :
  let x := run_end (demo_run true false) in
  x.1.1.1.1 = Some (Some "networkmanager_error") /\ x.1.1.2 = true /\ x.2 = false.
Proof. vm_compute. auto. Qed.

(** The route to the server cannot be set: there is no tunnel, and the standard kill switch blocks the network. *)
Example refused_route_blocks :
  run_end (demo_run false true) = (Some (Some "kill_switch_route_unavailable"), 6%nat, false, Done (Ok true), false).
Proof. vm_compute. reflexivity. Qed.


(** The end of the connection that came up. *)
Definition demo_disconnect : outcome unit * NativeRuntime demo :=
  disconnect_owned_inner (J := routes_text) (L := example_lib) (Cn := demo_countries) (I := demo_installed) "user" (fun r => r) 400 "uuid-1" (demo_run false false).2.
Example demo_disconnects :
  (match demo_disconnect.1 with Done (Ok _) => true | _ => false end, length demo_disconnect.2.(rt_log), tunnel_up demo_disconnect.2.(rt_world))
    = (true, 20%nat, false).
Proof. vm_compute. reflexivity. Qed.
Lemma demo_holds : (demo_run false false).2.(rt_locks).(lk_network) = true.
Proof. vm_compute. reflexivity. Qed.


(** The demonstration's NetworkManager and clock keep the laws. *)
Lemma on_system_world {B : Type} (f : example_system -> B * example_system) (w : demo) :
  on_system f w = ((f w.(dm_system)).1, mkDemo w.(dm_now) w.(dm_lost) w.(dm_refuses) (f w.(dm_system)).2).
Proof. unfold on_system. by destruct (f _). Qed.
#[export, refine] Instance demo_laws : NmLaws demo := { world_of w := proj1_sig w.(dm_system) }.
Proof.
  - intros s. exact (reads_active s.(dm_system)).
  - intros s. exact (reads_profiles s.(dm_system)).
  - intros s. exact (reads_settings s.(dm_system)).
  - intros s. exact (active_paths s.(dm_system)).
  - intros s. exact (active_id s.(dm_system)).
  - done.
  - done.
  - done.
  - intros b st s. pose proof (add_effect b st s.(dm_system)) as E. cbn [nm_add demo_manager]. rewrite on_system_world.
    by destruct (nm_add b st s.(dm_system)) as [[] ?].
  - intros c o s. pose proof (activate_effect c o s.(dm_system)) as E. cbn [nm_activate demo_manager]. rewrite on_system_world.
    by destruct (nm_activate c o s.(dm_system)) as [[] ?].
  - intros p s. pose proof (deactivate_effect p s.(dm_system)) as E. cbn [nm_deactivate demo_manager]. rewrite on_system_world.
    by destruct (nm_deactivate p s.(dm_system)) as [? ?].
  - intros c s. pose proof (delete_effect c s.(dm_system)) as E. cbn [nm_delete demo_manager]. rewrite on_system_world.
    by destruct (nm_delete c s.(dm_system)) as [[] ?].
Defined.
#[export] Instance demo_clock : ClockLaws demo.
Proof. split; intros; cbn; lia. Qed.

(** The standard kill switch is still active, from before, and it is off in the settings: connecting deactivates it. *)
Definition protected_runtime : NativeRuntime demo :=
  let r := demo_runtime false false in
  on_state (fun s => set_rs_settings (set_killswitch 0 s.(rs_settings)) s) (set_world (mkDemo 0 false false example_state) r).
Definition protected_run (fuel : nat) : outcome json * NativeRuntime demo :=
  connect_locked (J := routes_text) (L := example_lib) (Cn := demo_countries) (C := example_crypto) (P := example_profile_crypto) (I := demo_installed)
    "user" (fun r => r) fuel demo_params 1 None protected_runtime.
Example protected_connects :
  let '(end_, active) := (run_end (protected_run 2), map ac_id (proj1_sig (protected_run 2).2.(rt_world).(dm_system)).(w_active)) in
  (protected_run 1).1 = Running /\ end_.1.1.1.1 = Some None /\
  map ac_id (proj1_sig protected_runtime.(rt_world).(dm_system)).(w_active) = [Some "home"; Some KILL_SWITCH_CONNECTION_ID] /\
  active = [Some "home"; Some "ProtonVPN MX#1"].
Proof. vm_compute. auto. Qed.

Lemma connection_requests_end_witness :
  (361 <= 361)%nat /\ settled protected_run /\
  settled (fun fuel => connect_loop (J := routes_text) (L := example_lib) (C := example_crypto) (Cn := demo_countries) (I := demo_installed) "user" (fun r => r) fuel 361
    (mkPlan example_target example_ports demo_settings demo_settings "wireguard-udp" false) example_session 2 1 0 "uuid-0" [] protected_runtime).
Proof.
  split; [lia|].
  pose proof (connection_requests_end (J := routes_text) (L := example_lib) (C := example_crypto) (P := example_profile_crypto) (Cn := demo_countries)
    (I := demo_installed) "user" (fun r => r) demo_params 1 None "uuid-0" protected_runtime) as (Hconnect & _ & _ & Hloop).
  split; [exact Hconnect|]. apply Hloop. lia.
Defined.
