(* ===== verification/NativeRequests.v ===== *)
(** The requests that change settings ([protocol_set], [feature_set], [dns_set] and [split_tunneling_set] of
    [agent/src/native_backend/mod.rs]) and the feedback on a connection.

    They run under [settings_write]; a change that concerns the tunnel is applied first and taken back if it, or
    saving the settings, fails. *)
From S2P Require Export NativeConn.
From S2P Require Import CatalogPages.
From S2P Require Export NativeSettings.
Open Scope string_scope.
Open Scope Z_scope.
Open Scope list_scope.
Open Scope rust_scope.

Definition one_of (names : list string) (feature : string) : bool := existsb (String.eqb feature) names.
Definition local_only : string -> bool :=
  one_of ["anonymous_usage_statistics"; "alternative_routing"; "allow_lan_connections"; "allow_local_dns"].
Definition is_local_agent_feature : string -> bool := one_of ["netshield"; "vpn_accelerator"; "port_forwarding"; "moderate_nat"].
Definition is_protection_feature : string -> bool := one_of ["kill_switch"; "ipv6_leak_protection"].
Definition is_policy_feature : string -> bool := one_of ["allow_lan_connections"; "allow_local_dns"].

Definition live_features_unavailable : NativeError :=
  NativeError_new "connection_not_owned" "Reconnect with the native backend before changing live connection features".
Definition empty_statistics : json := jobj [("StatisticalEvents", Arr [])].

(** [ConnectionFeedbackSession::update_feedback]. *)
Definition update_feedback (value : string) (f : ConnectionFeedbackSession) : ConnectionFeedbackSession :=
  let dismissed := f.(fb_dismissed) || String.eqb value "dismissed" in
  let rated := String.eqb value "positive" || String.eqb value "negative" in
  let sent := f.(fb_sent) || rated in
  let user_feedback := if rated then value else if f.(fb_sent) then f.(fb_user_feedback) else "ignore" in
  mkFeedback f.(fb_started_at) f.(fb_target) f.(fb_protocol) f.(fb_trigger) user_feedback true sent dismissed.

Section Requests.
Context {W : Type} {N : NetworkManager W} {D : Devices W} {A : AgentLib W} {H : Host W}.
Context {J : JsonText} {L : IpLib} {C : ServerCrypto} {P : ProfileCrypto} {Cn : Countries} {I : Installed}.
Context (username : string) (meanwhile : NativeRuntime W -> NativeRuntime W) (fuel : nat) (settings_path settings_temp : string).

Abbreviation RT' := (RT (W := W)).
Abbreviation observe_now := (observe_blocking meanwhile).
Abbreviation reconcile := (NativeOps.reconcile_kill_switch username meanwhile fuel).
Abbreviation bypass := (reconcile_split_kill_switch_bypass meanwhile).
Abbreviation persist := (persist_settings meanwhile settings_path settings_temp).

(** [let _write = self.settings_write.lock().await;] for the rest of a handler. *)
Definition hold_settings (held : bool) (r : NativeRuntime W) : NativeRuntime W :=
  set_locks (mkLocks r.(rt_locks).(lk_network) held r.(rt_locks).(lk_auth)) r.
Definition with_settings {B : Type} (m : RT' B) : RT' B := fun r =>
  if r.(rt_locks).(lk_settings) then (Running, r)
  else let '(o, r) := m (hold_settings true r) in (o, hold_settings false r).
Definition settings_now_of (r : NativeRuntime W) : NativeSettings := r.(rt_state).(rs_settings).

(** ** Protocol and DNS *)
Definition protocol_locked (value : string) : RT' json :=
  let@ settings := rt_get settings_now_of in
  persist (set_protocol value settings) ;;@
  stage "protocol.set" "settings.applied" false ;;@
  emit_features ;;@
  rt_ret (jobj [("applied", Bool true); ("protocol", Str value)]).
Definition protocol_set (params : json) : RT' json :=
  require_session ;;@
  let@ value := rt_result (ok_or (opt_filter (fun v => negb (is_empty v)) (option_map normalized_protocol (jget "value" params ?> as_str)))
                  (native_invalid_params "protocol value is required")) in
  if negb (available_protocol value) then rt_throw (protocol_unavailable value)
  else
    let@ o := observe_now in
    if negb (bool_decide (o.(to_state) = Disconnected))
    then rt_throw (NativeError_new "connection_active" "VPN protocol can only be changed while disconnected")
    else
      rt_wait meanwhile ;;@ with_settings (protocol_locked value).

Definition dns_locked (request : bool * list string) : RT' json :=
  let@ settings := rt_get settings_now_of in
  persist (dns_settings request settings) ;;@
  stage "dns.set" "settings.applied" false ;;@
  emit_features ;;@
  rt_ret (jobj [("applied", Bool true); ("enabled", Bool request.1); ("servers", strs_to_json request.2)]).
Definition dns_set (params : json) : RT' json :=
  require_session ;;@
  let@ request := rt_result (dns_request params) in
  rt_wait meanwhile ;;@ with_settings (dns_locked request).

(** ** Features *)
Definition revert_protection (previous : NativeSettings) (active : bool) (server_ip : option string) : RT' unit :=
  rt_ignore (reconcile previous.(ns_killswitch) active server_ip previous.(ns_ipv6_leak_protection)) ;;@
  rt_ignore (bypass previous active).

Definition apply_kill_switch (previous settings : NativeSettings) (active : bool) (server_ip : option string) : RT' unit :=
  (if (settings.(ns_killswitch) =? 0) && negb (previous.(ns_killswitch) =? 0)
   then bypass previous false ;;@ reconcile previous.(ns_killswitch) false server_ip previous.(ns_ipv6_leak_protection)
   else rt_ret tt) ;;@
  rt_try (reconcile settings.(ns_killswitch) active server_ip settings.(ns_ipv6_leak_protection) ;;@ bypass settings active)
    (fun applied => match applied with
                    | Ok _ => rt_ret tt
                    | Err e => revert_protection previous active server_ip ;;@ rt_throw e
                    end).
Definition apply_leak_protection (previous settings : NativeSettings) (active : bool) (server_ip : option string) : RT' unit :=
  rt_try (reconcile settings.(ns_killswitch) active server_ip settings.(ns_ipv6_leak_protection))
    (fun applied => match applied with
                    | Ok _ => rt_ret tt
                    | Err e => revert_protection previous active server_ip ;;@ rt_throw e
                    end).

Definition request_features (handle : AgentHandle) (features : AgentFeatures) : RT' unit :=
  rt_ext meanwhile (fun w =>
    let '(b, w) := agent_request_features handle features LOCAL_AGENT_TIMEOUT_SECONDS w in
    (res_map_err (fun e => agent_error e.(ae_text)) b, w)) (fun ok => [FeaturesRequested features ok]).
Definition apply_to_agent (settings : NativeSettings) : RT' unit :=
  let@ selected := rt_get (fun r => r.(rt_state).(rs_selected)) in
  let@ target := rt_result (ok_or selected (NativeError_new "connection_state_unknown" "The active Proton server could not be identified")) in
  let@ agent := rt_get rt_agent in
  let@ handle := rt_result (ok_or agent live_features_unavailable) in
  request_features handle (connection_agent_features settings target).

(** What is done before the settings are saved; whether anything was applied to what is running. *)
Definition apply_live (feature : string) (previous settings : NativeSettings) (active : bool) (server_ip : option string) : RT' bool :=
  let at_once := active || (settings.(ns_killswitch) =? 2) in
  let@ protected := (if String.eqb feature "kill_switch" then apply_kill_switch previous settings active server_ip ;;@ rt_ret at_once
                     else if String.eqb feature "ipv6_leak_protection" then apply_leak_protection previous settings active server_ip ;;@ rt_ret at_once
                     else rt_ret false) in
  let@ requested := (if active && is_local_agent_feature feature then apply_to_agent settings ;;@ rt_ret true else rt_ret protected) in
  let@ override := rt_get rt_policy_override in
  if is_policy_feature feature && negb (is_some override) then apply_destination_policy meanwhile settings ;;@ rt_ret true
  else rt_ret requested.

(** What is done when the settings could not be saved. *)
Definition revert_live (feature : string) (previous : NativeSettings) (active live : bool) (server_ip : option string) : RT' unit :=
  if is_protection_feature feature then revert_protection previous active server_ip
  else if is_policy_feature feature && live then rt_ignore (apply_destination_policy meanwhile previous)
  else if live then
    let@ selected := rt_get (fun r => r.(rt_state).(rs_selected)) in
    let@ agent := rt_get rt_agent in
    match selected, agent with
    | Some target, Some handle => rt_ignore (request_features handle (connection_agent_features previous target))
    | _, _ => rt_ret tt
    end
  else rt_ret tt.

Definition flush_statistics_queue : RT' unit := fun r =>
  (Done (Ok tt), if is_some r.(rt_state).(rs_session) && r.(rt_state).(rs_settings).(ns_share_statistics)
                 then add_log [StatisticsFlushed] r else r).
(** What follows a saved change. *)
Definition after_saving (feature : string) : RT' unit :=
  if String.eqb feature "anonymous_usage_statistics" then
    let@ settings := rt_get settings_now_of in
    if negb settings.(ns_share_statistics)
    then rt_ext meanwhile (ho_save_statistics empty_statistics) (fun ok => [StatisticsCleared ok])
    else flush_statistics_queue
  else if String.eqb feature "alternative_routing" then
    let@ settings := rt_get settings_now_of in rt_log_action (RoutingSwitched settings.(ns_alternative_routing))
  else rt_ret tt.

Definition feature_locked (feature : string) (params : json) (tier : Z) : RT' json :=
  let@ previous := rt_get settings_now_of in
  let@ settings := rt_result (change_feature feature params tier previous) in
  let@ o := observe_now in
  let active := bool_decide (o.(to_state) = Connected) in
  if active && negb o.(to_owned) && negb (local_only feature) then rt_throw live_features_unavailable
  else
    let@ server_ip := rt_get (fun r => if active then selected_ip r else None) in
    let@ live := apply_live feature previous settings active server_ip in
    rt_try (persist settings) (fun saved =>
      match saved with
      | Err e => revert_live feature previous active live server_ip ;;@ rt_throw e
      | Ok _ =>
          after_saving feature ;;@
          stage "feature.set" "settings.applied" false ;;@
          emit_features ;;@
          rt_ret (jobj [("applied", Bool true); ("applied_live", Bool live);
                        ("reconnect_required", Bool (String.eqb feature "ipv6" && active))])
      end).

Definition feature_set (params : json) : RT' json :=
  let feature := to_ascii_lowercase (trim (unwrap_or (jget "feature" params ?> as_str) "")) in
  let@ session := rt_get (fun r => r.(rt_state).(rs_session)) in
  if negb (is_some session) && negb (one_of ["kill_switch"; "alternative_routing"] feature)
  then rt_throw (NativeError_new "not_authenticated" "Sign in to Proton VPN first")
  else
    let tier := match session with Some session => session_tier session | None => 0 end in
    if String.eqb feature "split_tunneling"
    then rt_throw (NativeError_new "invalid_method" "Use split_tunneling.set so app lists and mode stay atomic")
    else if String.eqb feature "secure_core"
    then rt_throw (NativeError_new "invalid_method" "Secure Core is connection-derived; use connection.connect")
    else rt_wait meanwhile ;;@ with_settings (feature_locked feature params tier).

(** ** Split tunnelling *)
Definition split_mode_of (mode_name : string) : NativeResult string :=
  if String.eqb mode_name "standard" then Ok "exclude"
  else if String.eqb mode_name "inverse" then Ok "include"
  else Err (native_invalid_params "mode must be standard or inverse").
Definition split_request_mode (params : json) (enabled : bool) : string :=
  let mode_name := to_ascii_lowercase (trim (unwrap_or (jget "mode" params ?> as_str) "standard")) in
  if String.eqb mode_name "off" && negb enabled then "standard" else mode_name.

(** The settings asked for. *)
Definition split_change (params : json) (enabled : bool) (mode : string) (previous : NativeSettings) : NativeResult NativeSettings :=
  let split := previous.(ns_features).(sf_split_tunneling) in
  let? standard := split_request_config params "standard" "exclude" (split_config split "exclude") in
  let? inverse := split_request_config params "inverse" "include" (split_config split "include") in
  let active := if String.eqb mode "include" then inverse else standard in
  if enabled && match active.(st_app_paths), active.(st_ip_ranges) with [], [] => true | _, _ => false end
  then Err (NativeError_new "split_tunneling_empty_selection"
              "The active Split Tunneling mode requires at least one application or IP range")
  else Ok (on_features (set_split (mkSplitTunnelingSettings enabled mode
             (<["include" := inverse]> (<["exclude" := standard]> split.(sts_config_by_mode))) split.(sts_extra))) previous).

Definition split_apply_of (s : NativeSettings) : RT' unit :=
  let split := s.(ns_features).(sf_split_tunneling) in
  split_apply meanwhile split.(sts_enabled) (split_config split split.(sts_mode)).
Definition revert_split (previous : NativeSettings) (tunnel_active : bool) : RT' unit :=
  rt_ignore (split_apply_of previous) ;;@ rt_ignore (bypass previous tunnel_active).

Definition split_locked (params : json) (enabled : bool) (mode_name mode : string) : RT' json :=
  let@ previous := rt_get settings_now_of in
  let@ settings := rt_result (split_change params enabled mode previous) in
  let@ o := observe_now in
  let tunnel_active := bool_decide (o.(to_state) = Connected) in
  if tunnel_active && negb o.(to_owned)
  then rt_throw (NativeError_new "connection_not_owned" "Reconnect with the native backend before changing Split Tunneling")
  else
    stage "split_tunneling.set" "settings.applying_split_tunneling" false ;;@
    (if tunnel_active && bypass_wanted previous then bypass previous false else rt_ret tt) ;;@
    rt_try (split_apply_of settings) (fun applied =>
    match applied with
    | Err e => rt_ignore (bypass previous tunnel_active) ;;@ rt_throw e
    | Ok _ =>
        rt_try (bypass settings tunnel_active) (fun routed =>
        match routed with
        | Err e => revert_split previous tunnel_active ;;@ rt_throw e
        | Ok _ =>
            rt_try (persist settings) (fun saved =>
            match saved with
            | Err e => rt_ignore (bypass settings false) ;;@ revert_split previous tunnel_active ;;@ rt_throw e
            | Ok _ =>
                emit_features ;;@
                let@ available := rt_get rt_policy_available in
                rt_ret (jobj [("applied", Bool true); ("enabled", Bool enabled); ("mode", Str mode_name);
                              ("app_paths_supported", Bool true); ("ip_ranges_supported", Bool available)])
            end)
        end)
    end).

Definition split_tunneling_set (params : json) : RT' json :=
  require_session ;;@
  let@ available := rt_get rt_split_available in
  if negb available
  then rt_throw (NativeError_new "split_tunneling_unavailable" "Proton split tunneling service is unavailable on this system")
  else
    let@ enabled := rt_result (ok_or (jget "enabled" params ?> as_bool) (native_invalid_params "enabled must be a boolean")) in
    let mode_name := split_request_mode params enabled in
    let@ mode := rt_result (split_mode_of mode_name) in
    rt_wait meanwhile ;;@ with_settings (split_locked params enabled mode_name mode).

(** ** Feedback *)
Definition feedback_unavailable (message : string) : NativeError := NativeError_new "connection_feedback_unavailable" message.
Definition record_feedback (value : string) (s : RuntimeState) : NativeResult ConnectionFeedbackSession :=
  if negb s.(rs_settings).(ns_share_statistics) || negb s.(rs_feedback_enabled)
  then Err (feedback_unavailable "Connection feedback is unavailable for this session")
  else
    let? feedback := ok_or s.(rs_feedback_session) (feedback_unavailable "Connect Proton VPN before submitting connection feedback") in
    if (feedback.(fb_sent) || feedback.(fb_dismissed)) && negb (one_of ["viewed"; "dismissed"] value)
    then Err (NativeError_new "connection_feedback_already_sent" "Connection feedback was already submitted for this session")
    else Ok (update_feedback value feedback).
Definition connection_feedback (params : json) : RT' json :=
  let value := to_ascii_lowercase (trim (unwrap_or (jget "value" params ?> as_str) "")) in
  if negb (one_of ["viewed"; "positive"; "negative"; "dismissed"] value)
  then rt_throw (native_invalid_params "Connection feedback must be viewed, positive, negative or dismissed")
  else
    let@ recorded := rt_get (fun r => record_feedback value r.(rt_state)) in
    let@ feedback := rt_result recorded in
    rt_modify (on_state (set_rs_feedback_session (Some feedback))) ;;@
    (if String.eqb value "dismissed" then rt_ret tt else stage "connection.feedback" "support.feedback_recorded" false) ;;@
    emit_features ;;@
    rt_ret (jobj [("recorded", Bool true); ("sent", Bool feedback.(fb_sent))]).
End Requests.
