(* ===== verification/NativeTransactions.v ===== *)
(** A change of the settings is a transaction: what the handlers of [NativeRequests] leave in memory and on
    disk. *)
From S2P Require Export NativeRequests RuntimeLaws.
From S2P Require Import CatalogPages.
From S2P Require Export NativeSettings.
Open Scope string_scope.
Open Scope Z_scope.
Open Scope list_scope.
Open Scope rust_scope.

Section Transactions.
Context {W : Type} {N : NetworkManager W} {D : Devices W} {A : AgentLib W} {H : Host W}.
Context {J : JsonText} {L : IpLib} {C : ServerCrypto} {P : ProfileCrypto} {Cn : Countries} {I : Installed}.
Context (username : string) (meanwhile : NativeRuntime W -> NativeRuntime W) (fuel : nat) (settings_path settings_temp : string).
Abbreviation assertion := (NativeRuntime W -> Prop).

(** The settings in memory, the file, and whether the lock is held. *)
Definition stored (s : NativeSettings) (file : option string) : assertion := fun r =>
  r.(rt_locks).(lk_settings) = true /\ settings_now_of r = s /\ r.(rt_disk).(kd_file) = file.
Abbreviation keeps s file m := (triple (stored s file) m (fun _ => stored s file) (fun _ => stored s file)).

Lemma stored_others s file r : stored s file r -> stored s file (others meanwhile r).
Proof.
  intros (Hl & Hs & Hd). unfold stored, others, settings_now_of in *. cbn. rewrite Hl. split_and!; [done| |done].
  unfold set_rs_settings, keep_session. by destruct (rt_state (meanwhile r)), (lk_auth _).
Qed.
Lemma stored_frame s file r r' :
  r'.(rt_locks) = r.(rt_locks) -> r'.(rt_state).(rs_settings) = r.(rt_state).(rs_settings) -> r'.(rt_disk) = r.(rt_disk) ->
  stored s file r -> stored s file r'.
Proof. intros H1 H2 H3. unfold stored, settings_now_of. by rewrite H1, H2, H3. Qed.
Lemma stored_modify s file f :
  (forall r, (f r).(rt_locks) = r.(rt_locks)) -> (forall r, (f r).(rt_state).(rs_settings) = r.(rt_state).(rs_settings)) ->
  (forall r, (f r).(rt_disk) = r.(rt_disk)) -> keeps s file (rt_modify f).
Proof. intros H1 H2 H3. apply triple_modify. intros r. by apply stored_frame. Qed.
Lemma stored_nm {B : Type} s file (m : NM (W := W) B) entry : keeps s file (rt_nm meanwhile m entry).
Proof.
  intros r o r' Hr. unfold rt_nm. destruct (m _) as [[o' w] seen]. intros [= <- <-].
  destruct o' as [[b|e]|]; [| |done]; apply stored_others; (eapply stored_frame; [| | |exact Hr]; by destruct r).
Qed.
Lemma stored_ext {B : Type} s file (f : W -> NativeResult B * W) entry : keeps s file (rt_ext meanwhile f entry).
Proof.
  intros r o r' Hr. unfold rt_ext. destruct (f _) as [b w]. intros [= <- <-].
  destruct b as [b|e]; apply stored_others; (eapply stored_frame; [| | |exact Hr]; by destruct r).
Qed.
Lemma stored_ret {B : Type} s file (b : B) : keeps s file (rt_ret b).
Proof. by apply triple_ret. Qed.
Lemma stored_throw {B : Type} s file e : keeps s file (rt_throw (B := B) e).
Proof. by apply triple_throw. Qed.
Lemma stored_get {B : Type} s file (f : NativeRuntime W -> B) : keeps s file (rt_get f).
Proof. by apply triple_get. Qed.
Lemma stored_result {B : Type} s file (b : NativeResult B) : keeps s file (rt_result b).
Proof. by apply triple_result. Qed.
Lemma stored_bind {B B' : Type} s file (m : RT (W := W) B) (k : B -> RT B') :
  keeps s file m -> (forall b, keeps s file (k b)) -> keeps s file (rt_bind m k).
Proof. intros Hm Hk. eapply triple_then; [exact Hm|exact Hk]. Qed.
Lemma stored_try {B B' : Type} s file (m : RT (W := W) B) (k : NativeResult B -> RT B') :
  keeps s file m -> (forall b, keeps s file (k b)) -> keeps s file (rt_try m k).
Proof. intros Hm Hk. eapply triple_try; [exact Hm|intros; apply Hk..]. Qed.
Lemma stored_log s file a : keeps s file (rt_log_action a).
Proof. by apply stored_modify; intros []. Qed.
Lemma stored_features s file : keeps s file emit_features.
Proof. intros r o r' Hr [= <- <-]. eapply stored_frame; [| | |exact Hr]; by destruct r. Qed.
End Transactions.

Ltac stored_walk := repeat first
  [ progress intros
  | apply stored_ret | apply stored_throw | apply stored_get | apply stored_result | apply stored_log | apply stored_features
  | apply stored_nm | apply stored_ext
  | apply stored_bind | apply stored_try
  | match goal with |- triple _ (if ?b then _ else _) _ _ => destruct b | |- triple _ (match ?b with _ => _ end) _ _ => destruct b end
  | (apply stored_modify; by intros []) ].

Section Bodies.
Context {W : Type} {N : NetworkManager W} {D : Devices W} {A : AgentLib W} {H : Host W}.
Context {J : JsonText} {L : IpLib} {C : ServerCrypto} {P : ProfileCrypto} {Cn : Countries} {I : Installed}.
Context (username : string) (meanwhile : NativeRuntime W -> NativeRuntime W) (fuel : nat) (settings_path settings_temp : string).
Abbreviation assertion := (NativeRuntime W -> Prop).
Abbreviation keeps s file m := (triple (stored s file) m (fun _ => stored s file) (fun _ => stored s file)).

Lemma stored_backend_state s file error : keeps s file (emit_backend_state meanwhile error).
Proof. unfold emit_backend_state, emit. stored_walk. Qed.
Lemma stored_reconcile s file mode active ip leak : keeps s file (NativeOps.reconcile_kill_switch username meanwhile fuel mode active ip leak).
Proof. unfold NativeOps.reconcile_kill_switch, kill_switch_run. stored_walk. Qed.
Lemma stored_bypass s file settings active : keeps s file (reconcile_split_kill_switch_bypass meanwhile settings active).
Proof. unfold reconcile_split_kill_switch_bypass, split_method. stored_walk. Qed.
Lemma stored_apply_live s file feature previous settings active ip :
  keeps s file (apply_live username meanwhile fuel feature previous settings active ip).
Proof. unfold apply_live, apply_kill_switch. stored_walk. Qed.
Lemma stored_revert_live s file feature previous active live ip :
  keeps s file (revert_live username meanwhile fuel feature previous active live ip).
Proof. unfold revert_live. stored_walk. Qed.

Lemma stored_persist s file settings :
  triple (stored s file) (persist_settings meanwhile settings_path settings_temp settings)
    (fun _ => stored settings (Some (settings_text settings))) (fun _ => stored s file).
Proof.
  intros r o r' Hr. unfold persist_settings. pose proof (settings_save_replaced settings_path settings_temp settings (rt_disk r)) as Hd.
  unfold replaced_file in Hd. destruct (save_settings _ _ _ _) as [[[]|e] disk]; cbn in Hd; intros [= <- <-].
  - destruct Hr as (Hl & Hs & Hf). unfold stored, others, settings_now_of. destruct r as [w st dk ag sn ow sp po ov by_ at_ pa lk lg]; cbn in *. rewrite Hl.
    split_and!; [done| |done]. unfold set_rs_settings, keep_session. by destruct (rt_state (meanwhile _)), (lk_auth lk).
  - apply stored_others. destruct Hr as (Hl & Hs & Hf). unfold stored, settings_now_of. destruct r; cbn in *. split_and!; [done|done|congruence].
Qed.

(** ** The four bodies *)
Inductive settings_request : Type :=
  | ProtocolRequest (value : string)
  | DnsRequest (request : bool * list string)
  | FeatureRequest (feature : string) (params : json) (tier : Z)
  | SplitRequest (params : json) (enabled : bool) (mode_name mode : string).
Definition requested_change (q : settings_request) (s : NativeSettings) : NativeResult NativeSettings :=
  match q with
  | ProtocolRequest value => Ok (set_protocol value s)
  | DnsRequest request => Ok (dns_settings request s)
  | FeatureRequest feature params tier => change_feature feature params tier s
  | SplitRequest params enabled _ mode => split_change params enabled mode s
  end.
Definition request_body (q : settings_request) : RT (W := W) json :=
  match q with
  | ProtocolRequest value => protocol_locked meanwhile settings_path settings_temp value
  | DnsRequest request => dns_locked meanwhile settings_path settings_temp request
  | FeatureRequest feature params tier => feature_locked username meanwhile fuel settings_path settings_temp feature params tier
  | SplitRequest params enabled mode_name mode => split_locked meanwhile settings_path settings_temp params enabled mode_name mode
  end.

Definition committed (q : settings_request) (s : NativeSettings) : assertion := fun r =>
  exists s', requested_change q s = Ok s' /\ stored s' (Some (settings_text s')) r.
Definition clears_statistics (q : settings_request) : Prop :=
  match q with FeatureRequest feature _ _ => feature = "anonymous_usage_statistics" | _ => False end.
Abbreviation transacts q s file m :=
  (triple (stored s file) m (fun _ => committed q s) (fun _ r => stored s file r \/ (clears_statistics q /\ committed q s r))).

(** What only publishes cannot fail. *)
Lemma features_stored s file E : triple (stored s file) emit_features (fun _ => stored s file) E.
Proof. intros r o r' Hr [= <- <-]. eapply stored_frame; [| | |exact Hr]; by destruct r. Qed.
Lemma announced s file method answer E :
  triple (B := json) (stored s file) (stage method "settings.applied" false ;;@ emit_features ;;@ rt_ret answer) (fun _ => stored s file) E.
Proof.
  eapply triple_then; [apply triple_modify; intros r Hr; eapply stored_frame; [| | |exact Hr]; by destruct r|intros ?].
  eapply triple_then; [apply features_stored|intros ?]. by apply triple_ret.
Qed.
Lemma persist_then q s file s' (k : unit -> RT (W := W) json) (E : NativeError -> assertion) :
  requested_change q s = Ok s' -> (forall e r, stored s file r -> E e r) ->
  triple (stored s' (Some (settings_text s'))) (k tt) (fun _ => stored s' (Some (settings_text s'))) E ->
  triple (stored s file) (rt_bind (persist_settings meanwhile settings_path settings_temp s') k) (fun _ => committed q s) E.
Proof.
  intros Hc HE Hk. eapply triple_then; [eapply triple_loosen; [apply stored_persist|exact HE]|intros []].
  eapply triple_weaken; [exact Hk|done|intros ? r Hr; by exists s'|done].
Qed.

Lemma protocol_transacts s file value : transacts (ProtocolRequest value) s file (request_body (ProtocolRequest value)).
Proof.
  apply triple_read. intros s0. apply (triple_pre (fun r => s0 = s /\ stored s file r)); [intros r (Hs0 & Hl & Hs & Hf); by split; [congruence|]|].
  apply triple_fact. intros ->. apply persist_then; [done|by left|apply announced].
Qed.
Lemma dns_transacts s file request : transacts (DnsRequest request) s file (request_body (DnsRequest request)).
Proof.
  apply triple_read. intros s0. apply (triple_pre (fun r => s0 = s /\ stored s file r)); [intros r (Hs0 & Hl & Hs & Hf); by split; [congruence|]|].
  apply triple_fact. intros ->. apply persist_then; [done|by left|apply announced].
Qed.
Lemma after_saving_stored s file feature :
  triple (stored s file) (after_saving meanwhile feature) (fun _ => stored s file)
    (fun _ r => feature = "anonymous_usage_statistics" /\ stored s file r).
Proof.
  unfold after_saving. destruct (String.eqb_spec feature "anonymous_usage_statistics") as [->|].
  - apply (triple_loosen _ _ _ (fun _ => stored s file)); [|intros e r Hr; by split]. unfold flush_statistics_queue. stored_walk.
    intros r o r' Hr [= <- <-]. destruct (_ && _); [|done]. eapply stored_frame; [| | |exact Hr]; by destruct r.
  - destruct (String.eqb feature "alternative_routing"); [|by apply triple_ret].
    apply triple_take. intros settings. apply triple_modify. intros r Hr. eapply stored_frame; [| | |exact Hr]; by destruct r.
Qed.

Lemma feature_transacts s file feature params tier :
  transacts (FeatureRequest feature params tier) s file (request_body (FeatureRequest feature params tier)).
Proof.
  cbn [request_body]. unfold feature_locked. apply triple_read. intros s0.
  apply (triple_pre (fun r => s0 = s /\ stored s file r)); [intros r (Hs0 & Hl & Hs & Hf); by split; [congruence|]|].
  apply triple_fact. intros ->. apply triple_check; [intros s' Hc|by left].
  eapply triple_then; [eapply triple_loosen; [apply (stored_nm meanwhile s file)|by left]|intros o].
  destruct (_ && negb (local_only feature)); [apply triple_throw; by left|]. apply triple_take. intros server_ip.
  eapply triple_then; [eapply triple_loosen; [apply stored_apply_live|by left]|intros live].
  eapply triple_try; [apply stored_persist| |].
  - intros ?. eapply triple_then; [eapply triple_weaken; [apply (after_saving_stored s' (Some (settings_text s')))|done|intros ? r Hr; exact Hr|]|intros ?].
    + intros e r [Hst Hr]. right. split; [exact Hst|]. by exists s'.
    + eapply triple_weaken; [apply announced|done|intros ? r Hr; by exists s'|intros e r Hr; exact Hr].
  - intros e. eapply triple_then; [eapply triple_loosen; [apply stored_revert_live|by left]|intros ?].
    apply triple_throw. by left.
Qed.
Lemma split_transacts s file params enabled mode_name mode :
  transacts (SplitRequest params enabled mode_name mode) s file (request_body (SplitRequest params enabled mode_name mode)).
Proof.
  cbn [request_body]. unfold split_locked. apply triple_read. intros s0.
  apply (triple_pre (fun r => s0 = s /\ stored s file r)); [intros r (Hs0 & Hl & Hs & Hf); by split; [congruence|]|].
  apply triple_fact. intros ->. apply triple_check; [intros s' Hc|by left].
  eapply triple_then; [eapply triple_loosen; [apply (stored_nm meanwhile s file)|by left]|intros o].
  destruct (_ && negb _); [apply triple_throw; by left|].
  eapply triple_then; [eapply triple_loosen; [apply (stored_log s file)|by left]|intros ?].
  assert (Hsplit : forall s0, keeps s file (split_apply_of meanwhile s0)).
  { intros s0. unfold split_apply_of, split_apply, split_method. stored_walk. }
  assert (Hrevert : forall e, transacts (SplitRequest params enabled mode_name mode) s file
            (revert_split meanwhile s (bool_decide (o.(to_state) = Connected)) ;;@ rt_throw (B := json) e)).
  { intros e. apply (triple_loosen _ _ _ (fun _ => stored s file)); [|by left]. apply (triple_then _ _ _ (stored s file)).
    - unfold revert_split. apply stored_bind; [apply stored_try; [apply Hsplit|intros; apply stored_ret]|
        intros ?; apply stored_try; [apply stored_bypass|intros; apply stored_ret]].
    - intros ?. by apply triple_throw. }
  apply (triple_then _ _ _ (stored s file)).
  { apply (triple_loosen _ _ _ (fun _ => stored s file)); [|by left]. destruct (_ && bypass_wanted s); [apply stored_bypass|apply stored_ret]. }
  intros ?. eapply triple_try; [apply Hsplit|intros ?|intros e].
  2:{ apply (triple_then _ _ _ (stored s file)); [apply (triple_loosen _ _ _ (fun _ => stored s file)); [apply stored_try; [apply stored_bypass|intros; apply stored_ret]|by left]|intros ?].
      apply triple_throw. by left. }
  eapply triple_try; [apply stored_bypass|intros ?|intros e; apply Hrevert].
  eapply triple_try; [apply stored_persist|intros ?|intros e].
  2:{ apply (triple_then _ _ _ (stored s file)); [apply (triple_loosen _ _ _ (fun _ => stored s file)); [apply stored_try; [apply stored_bypass|intros; apply stored_ret]|by left]|intros ?].
      apply Hrevert. }
  eapply triple_then; [apply features_stored|intros ?]. apply triple_take. intros available. apply triple_ret. intros r Hr. by exists s'.
Qed.

(** C6: A change of the settings is a transaction.  Whatever fails on the way and whatever other tasks do, a request that ends leaves
    the settings in memory and their file both as they were, and then it failed; or both as it asked for -- the change applied
    to the settings it found, the complete text of the new ones -- and then it succeeded, unless it was to clear the statistics
    and only that failed. *)
Theorem settings_transactions q r o r' :
  r.(rt_locks).(lk_settings) = true -> request_body q r = (Done o, r') ->
  let file r := r.(rt_disk).(kd_file) in
  (settings_now_of r' = settings_now_of r /\ file r' = file r /\ is_ok o = false) \/
  (exists s, requested_change q (settings_now_of r) = Ok s /\ settings_now_of r' = s /\ file r' = Some (settings_text s) /\
     (is_ok o = false -> clears_statistics q)).
Proof.
  intros Hl E file.
  assert (HT : transacts q (settings_now_of r) (file r) (request_body q)).
  { destruct q; [apply protocol_transacts|apply dns_transacts|apply feature_transacts|apply split_transacts]. }
  assert (Hr : stored (settings_now_of r) (file r) r) by done.
  specialize (HT r (Done o) r' Hr E). destruct o as [answer|e]; cbn in HT.
  - right. destruct HT as (s & Hc & _ & Hs & Hf). by exists s.
  - destruct HT as [(_ & Hs & Hf)|[Hq (s & Hc & _ & Hs & Hf)]]; [by left|right; by exists s].
Qed.
End Bodies.
