(* ===== verification/Telemetry.v ===== *)
(** Anonymous statistics ([agent/src/native_backend/telemetry.rs]): the event of a finished connection, and the
    queue of events in a file, which is sent when the API can be reached.

    Queueing and sending hold [telemetry_write]; turning the statistics off clears the file without it, so that
    what happens to the file in the gaps of a worker is an argument, [gap]. *)
From Stdlib Require Import SpecFloat.
From S2P Require Export NativeRequests.
From S2P Require Import CatalogPages.
From S2P Require Export NativeSettings.
Open Scope string_scope.
Open Scope Z_scope.
Open Scope list_scope.
Open Scope rust_scope.

Definition MAX_EVENTS : nat := 100.
Definition MAX_FILE_BYTES : Z := 1024 * 1024.

(** ** The event of a connection *)
Definition protocol_dimension (value : string) : string :=
  if String.eqb value "openvpn-udp" then "openvpn_udp"
  else if String.eqb value "openvpn-tcp" then "openvpn_tcp"
  else if NativeRequests.one_of ["protun-udp"; "wireguard-udp"; "wireguard"] value then "protun_udp"
  else if NativeRequests.one_of ["protun-tcp"; "wireguard-tcp"] value then "protun_tcp"
  else if NativeRequests.one_of ["protun-tls"; "wireguard-tls"; "stealth"] value then "protun_tls"
  else "n/a".
Definition string_dimension (value : string) : string := if is_empty (trim value) then "n/a" else value.
Definition bool_dimension (b : bool) : json := Str (if b then "true" else "false").

(** The names whose condition holds, sorted. *)
Definition named (conditions : list (bool * string)) : list string :=
  merge_sort String.le (map snd (List.filter fst conditions)).
Definition server_features (logical : LogicalServer) : list string :=
  named [(logical.(ls_tier) =? 0, "free"); (has_feature FEATURE_IPV6 logical, "ipv6"); (has_feature FEATURE_P2P logical, "p2p");
         (has_feature (Z.lor FEATURE_B2B FEATURE_PARTNER) logical, "partnership");
         (has_feature FEATURE_SECURE_CORE logical, "secureCore"); (has_feature FEATURE_STREAMING logical, "streaming");
         (has_feature FEATURE_TOR logical, "tor")].
Definition client_features (settings : NativeSettings) (has_active_exclusions : bool) : list string :=
  let features := settings.(ns_features) in
  named [(settings.(ns_custom_dns).(cd_enabled), "custom_dns"); (has_active_exclusions, "connection_preferences");
         (negb (settings.(ns_killswitch) =? 0), "kill_switch"); (features.(sf_moderate_nat), "moderate_nat");
         (negb (features.(sf_netshield) =? 0), "netshield"); (features.(sf_port_forwarding), "port_forwarding");
         (features.(sf_split_tunneling).(sts_enabled), "split_tunneling")].
Definition user_tier (tier : Z) : string :=
  if tier =? 0 then "free" else if (tier =? 1) || (tier =? 2) then "paid" else if tier =? 3 then "internal" else "n/a".

(** [Duration::as_secs_f64] of a duration in milliseconds. *)
Definition as_secs_f64 (elapsed : Z) : spec_float :=
  SFadd 53 1024 (f64_of_Z (elapsed / 1000)) (SFdiv 53 1024 (f64_of_Z (elapsed mod 1000 * 1000000)) (f64_of_Z 1000000000)).
Definition session_length (elapsed : Z) : spec_float := SFmul 53 1024 (as_secs_f64 elapsed) (f64_of_Z 1000).

Definition dimensions (f : ConnectionFeedbackSession) (session : SessionData) (settings : NativeSettings) (exclusions : bool) : json :=
  let logical := f.(fb_target).(tg_logical) in
  let location := session.(sd_vpn).(vs_location) in
  let client := client_features settings exclusions in
  jobj [("outcome", Str "success"); ("user_tier", Str (user_tier (session_tier session))); ("vpn_status", Str "on");
        ("vpn_trigger", Str f.(fb_trigger)); ("network_type", Str "n/a"); ("server_features", Str (join "," (server_features logical)));
        ("vpn_country", Str (string_dimension logical.(ls_exit_country))); ("user_country", Str (string_dimension location.(vl_country)));
        ("protocol", Str (protocol_dimension f.(fb_protocol))); ("server", Str (string_dimension logical.(ls_name)));
        ("entry_ip", Str (string_dimension f.(fb_target).(tg_physical).(ph_entry_ip))); ("port", Str "n/a");
        ("isp", Str (string_dimension location.(vl_isp)));
        ("is_ipv6_enabled", bool_dimension (settings.(ns_ipv6) && has_feature FEATURE_IPV6 logical));
        ("has_active_exclusions", bool_dimension exclusions); ("failure_reason", Str "n/a");
        ("is_smart_protocol", bool_dimension (NativeRequests.one_of ["smart"; "protun-smart"] settings.(ns_protocol)));
        ("client_features", Str (match client with [] => "none" | _ => join "," client end));
        ("tenure", Str "unknown"); ("user_feedback", Str f.(fb_user_feedback))].
Definition event (now : Z) (f : ConnectionFeedbackSession) (session : SessionData) (settings : NativeSettings) (exclusions : bool) : json :=
  jobj [("MeasurementGroup", Str "vpn.any.connection"); ("Event", Str "vpn_disconnection");
        ("Values", jobj [("session_length", Number (Float (session_length (now - f.(fb_started_at)))))]);
        ("Dimensions", dimensions f session settings exclusions)].

Definition valid_event (value : json) : bool :=
  bool_decide (jget "MeasurementGroup" value ?> as_str = Some "vpn.any.connection") &&
  bool_decide (jget "Event" value ?> as_str = Some "vpn_disconnection") &&
  is_some (jget "Values" value ?> as_object) && is_some (jget "Dimensions" value ?> as_object).

(** ** The queue *)
Definition queue_json (events : list json) : json := jobj [("StatisticalEvents", Arr events)].
(** The body of [POST /data/v1/stats/multiple]. *)
Definition delivery (events : list json) : json := jobj [("EventInfo", Arr events)].
Definition newest (events : list json) : list json := drop (length events - MAX_EVENTS) events.
Definition events_of (value : json) : list json :=
  take MAX_EVENTS (List.filter valid_event (unwrap_or (jget "StatisticalEvents" value ?> as_array) [])).

Section Queue.
Context {J : JsonText} (path temp_path : string).

Definition queue_error (source : string) : NativeError :=
  ne_with_source source (NativeError_new "statistics_queue_unavailable" ("Unable to read anonymous statistics at " +:+ path)).
Definition queue_too_large : NativeError := NativeError_new "statistics_queue_invalid" "The anonymous statistics queue is too large".
Definition queue_invalid (source : string) : NativeError :=
  ne_with_source source (NativeError_new "statistics_queue_invalid" "The anonymous statistics queue is invalid").

(** [json_print] is [to_vec] here; a file that is missing fails [metadata] with [NotFound]. *)
Definition save_value (value : json) : SD unit := save_serialized path temp_path (json_print value).
Definition load : SD (list json) := fun d =>
  sd_then (disk_call queue_error) (fun _ =>
    match d.(kd_file) with
    | None => sd_ret []
    | Some bytes =>
        if MAX_FILE_BYTES <? str_len bytes then sd_throw queue_too_large
        else sd_then (disk_call queue_error) (fun _ =>
          match json_parse bytes with
          | None => sd_throw (queue_invalid (json_refusal "Value" bytes))
          | Some value => sd_ret (events_of value)
          end)
    end) d.
Definition clear : SD unit := save_value (queue_json []).

(** What the worker's gaps let in: nothing, or the user turning the statistics off. *)
Context (gap : nat -> settings_disk -> settings_disk).
Definition at_gap (n : nat) : SD unit := fun d => (Ok tt, gap n d).

Definition enqueue (event : json) : SD (list json) :=
  sd_then load (fun events =>
  at_gap 0 ;;&
  let events := newest (events ++ [event]) in
  save_value (queue_json events) ;;&
  sd_ret events).

(** The events posted, if any, and the file after it. *)
Definition send (post : json -> bool) (events : list json) (d : settings_disk) : option (list json) * settings_disk :=
  match events with
  | [] => (None, d)
  | _ => (Some events, if post (delivery events) then (clear (gap 2 (gap 1 d))).2 else gap 1 d)
  end.
Definition enqueue_and_flush (post : json -> bool) (event : json) (d : settings_disk) : option (list json) * settings_disk :=
  match enqueue event d with
  | (Ok events, d) => send post events d
  | (Err _, d) => (None, d)
  end.
Definition flush_existing (post : json -> bool) (d : settings_disk) : option (list json) * settings_disk :=
  match load d with
  | (Ok events, d) => send post events d
  | (Err _, d) => (None, d)
  end.
End Queue.

(** ** Tasks *)

(** What changes the queue: the end of a connection, with the API's answer, a flush, and turning the statistics off. *)
Inductive task : Type :=
  | Finished (event : json) (accepted : bool)
  | Flushed (accepted : bool)
  | TurnedOff.
(** A task, the events it posted, and whether the API took them. *)
Record entry : Type := mkEntry {
  en_task : task;
  en_sent : option (list json) }.
Definition accepted_by (t : task) : bool := match t with Finished _ a | Flushed a => a | TurnedOff => false end.

Section Run.
Context {J : JsonText} (path temp_path : string).

Definition perform (t : task) (d : settings_disk) : entry * settings_disk :=
  let '(sent, d) := match t with
    | Finished event accepted => enqueue_and_flush path temp_path (fun _ d => d) (fun _ => accepted) event d
    | Flushed accepted => flush_existing path temp_path (fun _ d => d) (fun _ => accepted) d
    | TurnedOff => (None, (clear path temp_path d).2)
    end in (mkEntry t sent, d).
Fixpoint perform_all (tasks : list task) (d : settings_disk) : list entry * settings_disk :=
  match tasks with
  | [] => ([], d)
  | t :: tasks =>
      let '(e, d) := perform t d in
      let '(es, d) := perform_all tasks d in (e :: es, d)
  end.

(** What a file holds, if it can be read. *)
Definition stored (file : option string) : option (list json) :=
  match file with None => Some [] | Some bytes => option_map events_of (json_parse bytes) end.
(** The events that entered the queue, the batches posted and those the API took. *)
Definition recorded (es : list entry) : list json :=
  flat_map (fun e => match e.(en_task), e.(en_sent) with Finished event _, Some _ => [event] | _, _ => [] end) es.
Definition taken_batches (es : list entry) : list (list json) :=
  flat_map (fun e => match e.(en_sent) with Some batch => if accepted_by e.(en_task) then [batch] else [] | None => [] end) es.
Definition posted_batches (es : list entry) : list (list json) :=
  flat_map (fun e => match e.(en_sent) with Some batch => [batch] | None => [] end) es.

(** ** Lemmas *)
Context (known : json -> Prop) (Hj : forall events, Forall known events -> json_roundtrips (queue_json events)).
Definition sound (e : json) : Prop := valid_event e = true /\ known e.

Lemma events_of_queue events : events_of (queue_json events) = take MAX_EVENTS (List.filter valid_event events).
Proof. reflexivity. Qed.
Lemma events_of_valid events :
  Forall (fun e => valid_event e = true) events -> (length events <= MAX_EVENTS)%nat -> events_of (queue_json events) = events.
Proof.
  intros Hv Hl. rewrite events_of_queue.
  assert (List.filter valid_event events = events) as ->; [|by apply take_ge].
  clear Hl. induction Hv as [|e l He Hv IH]; [done|]. cbn. by rewrite He, IH.
Qed.
Lemma stored_events file q :
  stored file = Some q -> Forall (fun e => valid_event e = true) q /\ (length q <= MAX_EVENTS)%nat.
Proof.
  assert (H : forall v, Forall (fun e => valid_event e = true) (events_of v) /\ (length (events_of v) <= MAX_EVENTS)%nat).
  { intros v. unfold events_of. split; [|rewrite length_take; lia]. apply Forall_take, Forall_forall.
    intros x Hx. by apply list_elem_of_In, filter_In in Hx as [_ Hx]. }
  unfold stored. destruct file as [bytes|]; [|intros [= <-]; split; [done|cbn; lia]].
  destruct (json_parse bytes) as [v|]; [|discriminate]. intros [= <-]. apply H.
Qed.
Lemma newest_length events : (length (newest events) <= MAX_EVENTS)%nat.
Proof. unfold newest. rewrite length_drop. lia. Qed.
Lemma newest_suffix events : exists p, events = p ++ newest events.
Proof. exists (take (length events - MAX_EVENTS) events). symmetry. apply take_drop. Qed.

Lemma value_saved value d :
  replaced_file d.(kd_file) (Some (json_print value +:+ String "010" "")) (save_value path temp_path value d).
Proof. apply save_serialized_replaced. Qed.
Lemma sound_valid q : Forall sound q -> Forall (fun e => valid_event e = true) q.
Proof. intros H. eapply Forall_impl; [exact H|]. by intros e [? _]. Qed.
Lemma sound_known q : Forall sound q -> Forall known q.
Proof. intros H. eapply Forall_impl; [exact H|]. by intros e [_ ?]. Qed.
Lemma stored_saved q :
  Forall sound q -> (length q <= MAX_EVENTS)%nat ->
  stored (Some (json_print (queue_json q) +:+ String "010" "")) = Some q.
Proof. intros Hv Hl. unfold stored. rewrite Hj by by apply sound_known. cbn [option_map]. rewrite events_of_valid; [done|by apply sound_valid|done]. Qed.
Lemma queue_saved q d r d' :
  save_value path temp_path (queue_json q) d = (r, d') -> Forall sound q -> (length q <= MAX_EVENTS)%nat ->
  stored d'.(kd_file) = if is_ok r then Some q else stored d.(kd_file).
Proof.
  intros E Hv Hl. pose proof (value_saved (queue_json q) d) as H. unfold replaced_file in H. rewrite E in H. cbn [fst snd] in H.
  rewrite H. destruct r as [[]|e]; cbn [is_ok]; [by apply stored_saved|done].
Qed.
Lemma load_stored d r d' :
  load path d = (r, d') ->
  d'.(kd_file) = d.(kd_file) /\ match r with Ok q => stored d.(kd_file) = Some q | Err _ => True end.
Proof.
  unfold load, sd_then, sd_try, stored. pose proof (disk_call_file (queue_error path) d) as H1.
  destruct (disk_call _ d) as [[[]|e] d1]; cbn [snd] in H1; [|by intros [= <- <-]].
  destruct (kd_file d) as [bytes|]; [|by intros [= <- <-]].
  destruct (MAX_FILE_BYTES <? _); [by intros [= <- <-]|]. pose proof (disk_call_file (queue_error path) d1) as H2.
  destruct (disk_call _ d1) as [[[]|e] d2]; cbn [snd] in H2; [|intros [= <- <-]; split; [congruence|done]].
  destruct (json_parse bytes) as [v|]; intros [= <- <-]; (split; [congruence|done]).
Qed.

(** One task, on the list the file holds. *)
Inductive queue_step : task -> list json -> option (list json) -> list json -> Prop :=
  | step_failed t q : queue_step t q None q
  | step_posted t q held q' :
      (t = Flushed (accepted_by t) /\ held = q) \/ (exists e a, t = Finished e a /\ held = newest (q ++ [e])) ->
      held <> [] -> q' = held \/ (accepted_by t = true /\ q' = []) -> queue_step t q (Some held) q'
  | step_off q : queue_step TurnedOff q None [].

Definition valid_task (t : task) : Prop := match t with Finished e _ => sound e | _ => True end.

Lemma send_step (t : task) held d r :
  send path temp_path (fun _ d => d) (fun _ => accepted_by t) held d = r ->
  stored d.(kd_file) = Some held ->
  (held = [] /\ r = (None, d)) \/
  (held <> [] /\ r.1 = Some held /\ exists q', stored r.2.(kd_file) = Some q' /\ (q' = held \/ (accepted_by t = true /\ q' = []))).
Proof.
  intros <- Hd. unfold send. destruct held as [|x held]; [by left|]. right. split; [done|].
  destruct (accepted_by t); (split; [done|]); cbn [snd]; [|exists (x :: held); split; [done|by left]].
  destruct (clear path temp_path d) as [r d'] eqn:E. pose proof (queue_saved [] d r d' E) as H. cbn [snd].
  rewrite H by (done || cbn; lia). destruct r; cbn [is_ok]; eauto 6.
Qed.

Lemma newest_nonempty q e : newest (q ++ [e]) <> [].
Proof. unfold newest. intros H%(f_equal length). rewrite length_drop, length_app in H. cbn in H. unfold MAX_EVENTS in H. lia. Qed.
Lemma perform_step t d q :
  stored d.(kd_file) = Some q -> Forall sound q -> valid_task t ->
  let '(e, d') := perform t d in e.(en_task) = t /\ exists q', stored d'.(kd_file) = Some q' /\ queue_step t q e.(en_sent) q'.
Proof.
  intros Hd Hk Ht. unfold perform. destruct t as [event a|a|].
  - unfold enqueue_and_flush, enqueue, sd_then, sd_try, at_gap, sd_throw, sd_ret.
    destruct (load path d) as [r d1] eqn:El. apply load_stored in El as [Hf Hr]. destruct r as [q1|e];
      [|split; [done|]; exists q; rewrite Hf; split; [done|constructor]].
    assert (q1 = q) as -> by congruence.
    destruct (save_value _ _ _ d1) as [r d2] eqn:Es.
    apply queue_saved in Es; [|apply Forall_drop, Forall_app; by split; [|constructor]|apply newest_length].
    destruct r as [[]|e]; cbn [is_ok] in Es; [|split; [done|]; exists q; rewrite Es, Hf; split; [done|constructor]].
    destruct (send _ _ _ _ _ d2) as [sent d3] eqn:E3. apply (send_step (Finished event a)) in E3; [|done].
    destruct E3 as [[H _]|(Hne & Hs & q' & Hq & Hcase)]; [by apply newest_nonempty in H|]. cbn [fst snd] in *. subst sent.
    split; [done|]. exists q'. split; [done|]. econstructor; [right; by eauto|done|done].
  - unfold flush_existing. destruct (load path d) as [r d1] eqn:El. apply load_stored in El as [Hf Hr].
    destruct r as [q1|e]; [|split; [done|]; exists q; rewrite Hf; split; [done|constructor]].
    assert (q1 = q) as -> by congruence. rewrite <- Hf in Hd.
    destruct (send _ _ _ _ _ d1) as [sent d3] eqn:E3. apply (send_step (Flushed a)) in E3; [|done].
    destruct E3 as [[-> [= -> ->]]|(Hne & Hs & q' & Hq & Hcase)]; cbn [fst snd] in *.
    + split; [done|]. exists []. split; [done|constructor].
    + subst sent. split; [done|]. exists q'. split; [done|]. econstructor; [by left|done|done].
  - destruct (clear path temp_path d) as [r d1] eqn:E. apply queue_saved in E; [|done|cbn; lia].
    split; [done|]. cbn [snd en_sent]. rewrite E. destruct r; cbn [is_ok]; eexists; (split; [done|]); constructor.
Qed.

(** ** What becomes of the events *)

(** Every event of a history [es] that the queue [q] no longer holds was in a batch, or was pushed out by newer ones. *)
Definition accounted (es : list json) (batches : list (list json)) (q : list json) : Prop :=
  (exists p, es = p ++ q) /\
  forall before e after, es = before ++ e :: after ->
    (length after < length q)%nat \/ (exists batch, batch ∈ batches /\ e ∈ batch) \/ (MAX_EVENTS <= length after)%nat.
Definition part_of (es batch : list json) : Prop := exists before after, es = before ++ batch ++ after.

Lemma suffix_elem {B : Type} (p q before after : list B) x :
  p ++ q = before ++ x :: after -> (length after < length q)%nat -> x ∈ q.
Proof.
  intros H Hl. apply app_eq_app in H as (k & [[-> Hk]|[-> ->]]); [|set_solver].
  destruct k as [|y k]; [cbn in *; set_solver|]. apply (f_equal length) in Hk. cbn in Hk. rewrite length_app in Hk. lia.
Qed.

Lemma accounted_taken es batches q : accounted es batches q -> accounted es (batches ++ [q]) [].
Proof.
  intros [[p ->] H]. split; [exists (p ++ q); by rewrite app_nil_r|]. intros before e after E. right.
  destruct (H _ _ _ E) as [Hl|[(b & Hb & He)|Hl]]; [|left; exists b; set_solver|by right].
  left. exists q. split; [set_solver|]. by eapply suffix_elem.
Qed.
Lemma accounted_more es batches batches' q : accounted es batches q -> (forall b, b ∈ batches -> b ∈ batches') -> accounted es batches' q.
Proof.
  intros [Hs H] Hb. split; [done|]. intros before e after E. destruct (H _ _ _ E) as [?|[(b & ? & ?)|?]]; eauto 6.
Qed.
Lemma newest_length_case l : (length (newest l) = length l \/ length (newest l) = MAX_EVENTS)%nat.
Proof. unfold newest. rewrite length_drop. destruct (Nat.le_gt_cases (length l) MAX_EVENTS); [left|right]; lia. Qed.
Lemma accounted_event es batches q e : accounted es batches q -> accounted (es ++ [e]) batches (newest (q ++ [e])).
Proof.
  intros [[p ->] H]. destruct (newest_suffix (q ++ [e])) as [p' Hp]. split.
  { exists (p ++ p'). rewrite <- !app_assoc. by rewrite <- Hp. }
  intros before x after E. pose proof (newest_length_case (q ++ [e])) as Hl. rewrite length_app in Hl. cbn [length] in Hl.
  destruct (decide (MAX_EVENTS <= length after)%nat); [by right; right|].
  destruct after as [|z after _] using rev_ind; [left; cbn; unfold MAX_EVENTS in *; lia|].
  rewrite app_comm_cons, app_assoc in E. apply app_inj_tail in E as [E ->]. rewrite length_app in *. cbn [length] in *.
  destruct (H _ _ _ E) as [?|[?|?]]; [left; lia|by right; left|lia].
Qed.

Lemma step_accounted t q sent q' es batches :
  queue_step t q sent q' -> t <> TurnedOff -> accounted es batches q ->
  accounted (es ++ recorded [mkEntry t sent]) (batches ++ taken_batches [mkEntry t sent]) q' /\
  Forall (part_of (es ++ recorded [mkEntry t sent])) (posted_batches [mkEntry t sent]) /\
  Forall (fun b => (0 < length b <= Nat.max MAX_EVENTS (length q))%nat) (posted_batches [mkEntry t sent]).
Proof.
  intros Hs Ht Ha. destruct Hs as [t q|t q held q' Hheld Hne Hq|q]; [| |done].
  - unfold recorded, taken_batches, posted_batches. destruct t; cbn; rewrite !app_nil_r; (split; [exact Ha|split; apply Forall_nil_2]).
  - assert (Ha' : accounted (es ++ recorded [mkEntry t (Some held)]) batches held /\ (length held <= Nat.max MAX_EVENTS (length q))%nat).
    { destruct Hheld as [[-> ->]|(e & a & -> & ->)]; cbn.
      - rewrite app_nil_r. split; [done|lia].
      - split; [by apply accounted_event|]. pose proof (newest_length (q ++ [e])). lia. }
    destruct Ha' as [Ha' Hl]. split; [|split].
    + destruct Hq as [->|[Hacc ->]]; [by eapply accounted_more; [exact Ha'|set_solver]|].
      assert (taken_batches [mkEntry t (Some held)] = [held]) as -> by (unfold taken_batches; cbn; by rewrite Hacc).
      by apply accounted_taken.
    + destruct Ha' as [[p ->] _]. constructor; [|constructor]. exists p, []. by rewrite app_nil_r.
    + constructor; [|constructor]. split; [|done]. destruct held; [done|cbn; lia].
Qed.

Lemma part_of_app es es' b : part_of es b -> part_of (es ++ es') b.
Proof. intros (x & y & ->). exists x, (y ++ es'). by rewrite <- !app_assoc. Qed.

Lemma step_sound t q sent q' : queue_step t q sent q' -> valid_task t -> Forall sound q -> Forall sound q'.
Proof.
  intros Hs Ht Hq. destruct Hs as [|t q held q' Hheld _ Hc|]; [done| |constructor].
  assert (Forall sound held) as Hh.
  { destruct Hheld as [[_ ->]|(e & a & -> & ->)]; [done|]. apply Forall_drop, Forall_app. split; [done|by constructor]. }
  destruct Hc as [->|[_ ->]]; [done|constructor].
Qed.

Lemma run_accounted tasks d q es batches :
  stored d.(kd_file) = Some q -> Forall sound q -> Forall valid_task tasks -> TurnedOff ∉ tasks -> accounted es batches q ->
  let '(entries, d') := perform_all tasks d in
  exists q', stored d'.(kd_file) = Some q' /\
    accounted (es ++ recorded entries) (batches ++ taken_batches entries) q' /\
    Forall (part_of (es ++ recorded entries)) (posted_batches entries) /\
    Forall (fun b => (0 < length b <= MAX_EVENTS)%nat) (posted_batches entries).
Proof.
  intros Hd Hq Ht Hoff Ha. induction tasks as [|t tasks IH] in d, q, es, batches, Hd, Hq, Ht, Hoff, Ha |- *.
  { exists q. unfold recorded, taken_batches. cbn. rewrite !app_nil_r. split; [done|]. split; [done|]. split; constructor. }
  cbn [perform_all]. pose proof (perform_step t d q Hd Hq (Forall_inv Ht)) as H1. pose proof (stored_events _ _ Hd) as [_ Hl].
  destruct (perform t d) as [[t' sent] d1]. cbn [en_task en_sent] in H1. destruct H1 as (-> & q1 & Hd1 & Hs).
  destruct (step_accounted t q sent q1 es batches Hs) as (Ha1 & Hp1 & Hl1); [set_solver|done|].
  rewrite Nat.max_l in Hl1 by done.
  pose proof (IH d1 q1 _ _ Hd1 (step_sound _ _ _ _ Hs (Forall_inv Ht) Hq) (Forall_inv_tail Ht) ltac:(set_solver) Ha1) as H.
  destruct (perform_all tasks d1) as [entries d2]. destruct H as (q2 & Hd2 & Ha2 & Hp2 & Hl2). exists q2.
  change (recorded (mkEntry t sent :: entries)) with (recorded ([mkEntry t sent] ++ entries)).
  change (taken_batches (mkEntry t sent :: entries)) with (taken_batches ([mkEntry t sent] ++ entries)).
  change (posted_batches (mkEntry t sent :: entries)) with (posted_batches ([mkEntry t sent] ++ entries)).
  unfold recorded, taken_batches, posted_batches in *. rewrite !flat_map_app, !app_assoc.
  split; [done|]. split; [done|]. split; apply Forall_app; (split; [|done]); [|done].
  eapply Forall_impl; [exact Hp1|]. intros b Hb. by apply part_of_app.
Qed.
End Run.

Lemma event_valid now f session settings exclusions : valid_event (event now f session settings exclusions) = true.
Proof. reflexivity. Qed.

Lemma save_without_faults {J : JsonText} path temp_path value file temp :
  save_value path temp_path value (mkSettingsDisk file temp []) =
  (Ok tt, mkSettingsDisk (Some (json_print value +:+ String "010" "")) None []).
Proof. reflexivity. Qed.
Definition small_file (file : option string) : Prop := match file with Some bytes => str_len bytes <= MAX_FILE_BYTES | None => True end.
Lemma load_without_faults {J : JsonText} path file temp q :
  small_file file -> stored file = Some q -> load path (mkSettingsDisk file temp []) = (Ok q, mkSettingsDisk file temp []).
Proof.
  unfold load, sd_then, sd_try, disk_call, stored, small_file. cbn [kd_file kd_faults]. destruct file as [bytes|]; [|by intros _ [= <-]].
  intros Hl. destruct (json_parse bytes) as [v|]; [|discriminate]. intros [= <-]. by replace (MAX_FILE_BYTES <? str_len bytes) with false by lia.
Qed.

(** ** Properties *)

(** C34: Events of statistics are neither lost nor invented.  Whatever system calls fail and whatever the API answers, while the
    statistics are on the file is always a readable queue of at most 100 events, the latest ones recorded; every batch posted is
    a stretch of the recorded history of at most 100 events; and every recorded event is in the queue, or in a batch the API
    took, or has been followed by 100 newer ones.  Without failing calls a finished connection is recorded and posted at once,
    and the queue is emptied exactly if the API took the batch; turning the statistics off empties it. *)
Theorem queue_accounts_for_events {J : JsonText} path temp_path known tasks d q :
  (forall events, Forall known events -> json_roundtrips (queue_json events)) ->
  stored d.(kd_file) = Some q -> Forall (sound known) q -> Forall (valid_task known) tasks ->
  (TurnedOff ∉ tasks ->
   let '(entries, d') := perform_all path temp_path tasks d in
   exists q', stored d'.(kd_file) = Some q' /\ (length q' <= MAX_EVENTS)%nat /\
     accounted (q ++ recorded entries) (taken_batches entries) q' /\
     Forall (part_of (q ++ recorded entries)) (posted_batches entries) /\
     Forall (fun b => (0 < length b <= MAX_EVENTS)%nat) (posted_batches entries)) /\
  (d.(kd_faults) = [] -> small_file d.(kd_file) ->
   (forall e accepted, sound known e ->
    let '(entry, d') := perform path temp_path (Finished e accepted) d in
    entry.(en_sent) = Some (newest (q ++ [e])) /\ stored d'.(kd_file) = Some (if accepted : bool then [] else newest (q ++ [e]))) /\
   stored (perform path temp_path TurnedOff d).2.(kd_file) = Some []).
Proof.
  intros Hj Hd Hq Ht. split.
  - intros Hoff.
    pose proof (run_accounted path temp_path known Hj tasks d q q [] Hd Hq Ht Hoff) as H.
    assert (accounted q [] q) as H0.
    { split; [by exists []|]. intros before e after E. left. rewrite E, length_app. cbn. lia. }
    specialize (H H0). destruct (perform_all _ _ tasks d) as [entries d']. destruct H as (q' & Hd' & Ha & Hp & Hl).
    exists q'. split; [done|]. split; [by eapply stored_events|]. done.
  - destruct d as [file temp faults]. cbn [kd_faults kd_file] in *. intros -> Hs.
    assert (H0 : stored (Some (json_print (queue_json []) +:+ String "010" "")) = Some []) by (apply (stored_saved known Hj); [constructor|cbn; lia]).
    split; [|exact H0]. intros e accepted He. unfold perform, enqueue_and_flush, enqueue, sd_then, sd_try, at_gap.
    rewrite (load_without_faults path file temp q Hs Hd), save_without_faults. cbn [sd_ret].
    unfold send, sd_ret. destruct (newest (q ++ [e])) as [|x held] eqn:E; [by apply newest_nonempty in E|].
    split; [done|]. destruct accepted; cbn [snd]; [exact H0|]. cbn [kd_file]. apply (stored_saved known Hj).
    + rewrite <- E. apply Forall_drop, Forall_app. split; [done|by constructor].
    + rewrite <- E. apply newest_length.
Qed.

(** ** A concrete queue *)

(** One event, and a text form for queues that repeat it: as many characters as there are events. *)
Definition sample_event : json :=
  jobj [("MeasurementGroup", Str "vpn.any.connection"); ("Event", Str "vpn_disconnection"); ("Values", jobj []); ("Dimensions", jobj [])].
Definition marks {B : Type} (l : list B) : string := fold_right (fun _ s => String "e" s) "" l.
Definition sample_text : JsonText := mkJsonText
  (fun j => marks (unwrap_or (jget "StatisticalEvents" j ?> as_array) []))
  (fun s => Some (queue_json (replicate (Nat.pred (String.length s)) sample_event)))
  (fun _ _ => "").

Lemma sample_length {B : Type} (l : list B) : String.length (marks l +:+ String "010" "") = S (length l).
Proof. induction l as [|x l IH]; [done|]. exact (f_equal S IH). Qed.
Lemma sample_roundtrips events : Forall (fun e => e = sample_event) events -> @json_roundtrips sample_text (queue_json events).
Proof.
  intros H. unfold json_roundtrips. cbn [json_parse json_print sample_text]. f_equal. f_equal.
  change (unwrap_or (jget "StatisticalEvents" (queue_json events) ?> as_array) []) with events. rewrite sample_length.
  induction H as [|e l -> H IH]; [done|]. cbn in *. by f_equal.
Qed.

(** Two connections end while the API refuses, the disk is full at the second, and a third is delivered with the first. *)
Lemma queue_accounts_for_events_witness :
  let faults := [None; None; None; None; None; None; None; None;
                 None; None; Some "No space left on device"] in
  let d := mkSettingsDisk None None faults in
  let tasks := [Finished sample_event false; Finished sample_event false; Finished sample_event true] in
  exists q', @stored sample_text (@perform_all sample_text "s" "t" tasks d).2.(kd_file) = Some q' /\ (length q' <= MAX_EVENTS)%nat /\
  taken_batches (@perform_all sample_text "s" "t" tasks d).1 = [[sample_event; sample_event]].
Proof.
  intros faults d tasks.
  assert (Hs : valid_event sample_event = true) by reflexivity.
  destruct (@queue_accounts_for_events sample_text "s" "t" (fun e => e = sample_event) tasks d []) as [H _].
  - exact sample_roundtrips.
  - reflexivity.
  - constructor.
  - repeat constructor; exact Hs.
  - destruct (@perform_all sample_text "s" "t" tasks d) as [entries d'] eqn:E.
    destruct H as (q' & H1 & H2 & _); [intros Hin; do 3 (apply elem_of_cons in Hin as [?|Hin]; [discriminate|]); by apply elem_of_nil in Hin|]. exists q'. split; [exact H1|]. split; [exact H2|].
    assert (E' := f_equal fst E). cbn [fst] in *. rewrite <- E'. vm_compute. reflexivity.
Defined.

(** Turning the statistics off does not take [telemetry_write]: if it comes between the reading and the writing of a worker,
    the events come back, and are posted. *)
Lemma opt_out_undone :
  let d := mkSettingsDisk (Some "ee") None [] in
  let gap n := if Nat.eqb n 0 then fun d => (@clear sample_text "s" "t" d).2 else fun d => d in
  let '(sent, d') := @enqueue_and_flush sample_text "s" "t" gap (fun _ => false) sample_event d in
  sent = Some [sample_event; sample_event] /\ @stored sample_text d'.(kd_file) = Some [sample_event; sample_event].
Proof. vm_compute. done. Qed.
