(* ===== verification/NativeRestore.v ===== *)
(** The start of the backend and the sessions it finds ([initialize], [restore_session],
    [restore_owned_local_agent] and [watch_local_agent] of [agent/src/native_backend/mod.rs]).

    The keyring, the caches and the privileged daemon's answers at the start are the class [Startup]. *)
From S2P Require Fido.
From S2P Require Export NativeConn.
From S2P Require Import CatalogPages.
From S2P Require Export NativeSettings.
Open Scope string_scope.
Open Scope Z_scope.
Open Scope list_scope.
Open Scope rust_scope.

Class Startup (W : Type) : Type := mkStartup {
  (** [SecretStore::load_default]. *)
  su_session : W -> NativeResult (option SessionData) * W;
  su_catalog : W -> option ServerCatalog;
  su_client_config : W -> option ClientConfig;
  su_split_available : W -> bool;
  su_policy_available : W -> bool;
  su_base64 : Fido.Base64 }.
(** Whether a sign-in that waits for its second factor offers a security key. *)
Definition su_security_key {W : Type} {U : Startup W} (pending : Api.ApiSession) : bool :=
  is_ok (Fido.from_session (B := su_base64) pending).

Definition RECONNECT_DELAY : Z := 1000.
Definition MAX_RECONNECT_DELAY : Z := 30000.

Section Restore.
Context {W : Type} {N : NetworkManager W} {D : Devices W} {A : AgentLib W} {H : Host W} {U : Startup W}.
Context {J : JsonText} {L : IpLib} {C : ServerCrypto} {P : ProfileCrypto} {Cn : Countries} {I : Installed}.
Context (username : string) (meanwhile : NativeRuntime W -> NativeRuntime W) (fuel : nat) (settings_path settings_temp : string).

Abbreviation RT' := (RT (W := W)).
Abbreviation observe_now := (observe_blocking meanwhile).

(** ** The account *)
Definition account_json (status : string) (name tier : json) (credentialless security_key : bool) : json :=
  jobj [("status", Str status); ("name", name); ("tier", tier); ("credentialless", Bool credentialless);
        ("two_factor_code_supported", Bool true); ("two_factor_security_key_supported", Bool security_key); ("sso_supported", Bool true)].
Definition account_event (pending : option bool) (s : RuntimeState) : json :=
  match pending with
  | Some security_key => account_json "two_factor_required" Null Null false security_key
  | None =>
      match s.(rs_session) with
      | Some session => account_json "signed_in" (Str session.(sd_account_name)) (jnum (session_tier session)) session.(sd_credentialless) false
      | None => account_json (if s.(rs_session_restore_pending) then "restoring" else "signed_out") Null Null false false
      end
  end.
Definition emit_account : RT' unit := fun r =>
  (Done (Ok tt), add_log [Emitted "account" (account_event (option_map su_security_key r.(rt_pending_auth)) r.(rt_state))] r).

(** ** The session of a tunnel that is already up *)
Definition session_to_restore (s : RuntimeState) : option (SessionData * string * option AgentFeatures) :=
  match s.(rs_session), s.(rs_selected) with
  | Some session, Some target =>
      Some (session, target.(tg_logical).(ls_domain),
            if 0 <? session_tier session then Some (connection_agent_features s.(rs_settings) target) else None)
  | _, _ => None
  end.
Definition reject (o : TunnelObservation) (message : string) : RT' unit :=
  emit_connection o (Some message) ;;@ disconnect_after_local_agent_rejection username meanwhile fuel.
Definition agent_timed_out (message : string) : NativeError := ne_set_retryable true (NativeError_new "local_agent_timeout" message).

Definition restore_owned_local_agent (o : TunnelObservation) : RT' unit :=
  rt_modify (set_owned_uuid o.(to_uuid)) ;;@
  let@ restore := rt_get (fun r => session_to_restore r.(rt_state)) in
  match restore with
  | None => reject o "The owned VPN session could not be restored"
  | Some (session, domain, requested) =>
      rt_try (agent_start meanwhile domain session requested) (fun started =>
      match started with
      | Err e => reject o e.(ne_message)
      | Ok handle =>
          rt_modify (set_agent (Some handle)) ;;@
          rt_try (await_ready meanwhile handle (agent_timed_out "The Proton Local Agent restore timed out")) (fun ready =>
          match ready with
          | Ok snapshot => rt_modify (set_snapshot snapshot) ;;@ emit_connection o None ;;@ emit_features
          | Err e => reject o e.(ne_message)
          end)
      end)
  end.

(** [restore_saved_session]. *)
Definition restore_saved_session : RT' bool :=
  let@ pending := rt_get (fun r => r.(rt_state).(rs_session_restore_pending)) in
  if negb pending then rt_ret false
  else
    let@ session := rt_ext meanwhile su_session (fun _ => []) in
    rt_modify (on_state (set_rs_session session)) ;;@ rt_ret true.
Definition restore_session : RT' json :=
  rt_wait meanwhile ;;@
  with_auth (
  let@ restored := restore_saved_session in
  (if restored then
     rt_wait meanwhile ;;@
     with_network (rt_try observe_now (fun o =>
       match o with
       | Ok o =>
           emit_connection o None ;;@
           if o.(to_owned) && bool_decide (o.(to_state) = Connected) then restore_owned_local_agent o else rt_ret tt
       | Err _ => rt_ret tt
       end)) ;;@
     emit_backend_state meanwhile None ;;@ emit_account ;;@ emit_features
   else rt_ret tt) ;;@
  rt_get (fun r => jobj [("logged_in", Bool (is_some r.(rt_state).(rs_session)))])).

(** ** The start *)

(** [load_state]: the caches are replaceable, a keyring that cannot be read is tried again. *)
Definition load_state : RT' unit := fun r =>
  let '(settings, disk) := load_settings settings_path settings_temp r.(rt_disk) in
  let '(session, w) := su_session r.(rt_world) in
  let state := mkRuntimeState (match session with Ok s => s | Err _ => None end) (negb (is_ok session))
    (su_catalog r.(rt_world)) (su_client_config r.(rt_world)) settings None None false 10 None "connection_card" false None None None in
  (Done (Ok tt), set_world w (set_settings_disk disk (set_rt_state state r))).

Definition recover_split : RT' unit :=
  let@ available := rt_get (fun r => su_split_available r.(rt_world)) in
  rt_modify (set_split_available available) ;;@
  if available then
    let@ settings := rt_get (fun r => r.(rt_state).(rs_settings)) in
    let split := settings.(ns_features).(sf_split_tunneling) in
    rt_ignore (split_apply meanwhile split.(sts_enabled) (split_config split split.(sts_mode)))
  else rt_ret tt.
Definition recover_policy : RT' unit :=
  let@ available := rt_get (fun r => su_policy_available r.(rt_world)) in
  rt_modify (set_policy_available available) ;;@
  if available then
    let@ settings := rt_get (fun r => r.(rt_state).(rs_settings)) in rt_ignore (apply_destination_policy meanwhile settings)
  else rt_ret tt.

(** The protection of what is observed at the start. *)
Definition protect_observed (o : TunnelObservation) : RT' unit :=
  let up := bool_decide (o.(to_state) = Connected) in
  let@ settings := rt_get (fun r => r.(rt_state).(rs_settings)) in
  let@ server_ip := rt_get selected_ip in
  NativeOps.reconcile_kill_switch username meanwhile fuel settings.(ns_killswitch) up server_ip settings.(ns_ipv6_leak_protection) ;;@
  let@ settings := rt_get (fun r => r.(rt_state).(rs_settings)) in
  reconcile_split_kill_switch_bypass meanwhile settings (o.(to_owned) && up).
Definition adopt_tunnel (o : TunnelObservation) : RT' unit :=
  if o.(to_owned) || bool_decide (o.(to_state) = Disconnected) then
    rt_try (protect_observed o) (fun result =>
      match result with
      | Err e =>
          emit_connection o (Some e.(ne_message)) ;;@
          if o.(to_owned)
          then rt_modify (set_owned_uuid o.(to_uuid)) ;;@ disconnect_after_local_agent_rejection username meanwhile fuel
          else rt_ret tt
      | Ok _ =>
          let@ pending := rt_get (fun r => r.(rt_state).(rs_session_restore_pending)) in
          if o.(to_owned) && bool_decide (o.(to_state) = Connected) && negb pending then restore_owned_local_agent o else rt_ret tt
      end)
  else rt_ret tt.

Definition unobserved_event (protocol message : string) : json :=
  jobj [("observation_known", Bool false); ("status", Str "unknown"); ("server", Null); ("protocol", Str protocol);
        ("secure_core", Bool false); ("error", Str message)].
Definition initialize : RT' unit :=
  rt_ignore (rt_nm meanwhile (cleanup_guest_profiles ho_uid) (fun _ => [])) ;;@
  load_state ;;@
  let@ settings := rt_get (fun r => r.(rt_state).(rs_settings)) in
  rt_log_action (RoutingSwitched settings.(ns_alternative_routing)) ;;@
  emit_backend_state meanwhile None ;;@
  emit_account ;;@
  recover_split ;;@
  recover_policy ;;@
  emit_features ;;@
  rt_try observe_now (fun o =>
    match o with
    | Ok o => emit_connection o None ;;@ adopt_tunnel o
    | Err e =>
        let@ settings := rt_get (fun r => r.(rt_state).(rs_settings)) in
        emit "connection" (unobserved_event settings.(ns_protocol) e.(ne_message))
    end) ;;@
  emit_device_location.

(** ** Watching a session *)

(** The updates of a channel, until it is closed; whether the session was rejected. *)
Fixpoint handle_updates (updates : list (option AgentUpdate)) : RT' bool :=
  match updates with
  | [] | None :: _ | Some AgentStopped :: _ => rt_ret false
  | Some (AgentStatus status) :: updates =>
      let snapshot := from_status status in
      let reason := unwrap_or snapshot.(as_reason) "The Proton VPN session was restricted" in
      rt_modify (set_snapshot snapshot) ;;@
      rt_try observe_now (fun o =>
        match o with
        | Ok o => emit_connection o (if snapshot.(as_hard_jailed) then Some reason else None)
        | Err _ => rt_ret tt
        end) ;;@
      emit_features ;;@
      if snapshot.(as_hard_jailed)
      then disconnect_after_local_agent_rejection username meanwhile fuel ;;@ rt_ret true
      else handle_updates updates
  | Some (AgentError error) :: updates =>
      rt_try observe_now (fun o => match o with Ok o => emit_connection o (Some error) | Err _ => rt_ret tt end) ;;@
      handle_updates updates
  end.

Inductive reconnection : Type :=
  | GivenUp
  | Rejected
  | Again
  | Resumed (handle : AgentHandle).

(** One attempt to reach the Local Agent again, once the channel has closed. *)
Definition reconnect_agent (attempt delay : Z) : RT' reconnection :=
  let@ current := rt_get rt_attempt in
  if negb (current =? attempt) then rt_ret GivenUp
  else rt_try observe_now (fun observed =>
  match observed with
  | Err _ => rt_ret GivenUp
  | Ok o =>
      if negb (bool_decide (o.(to_state) = Connected)) then emit_connection o None ;;@ emit_features ;;@ rt_ret GivenUp
      else
        rt_modify (set_snapshot AgentSnapshot_default) ;;@
        emit_connection o (Some "The Proton Local Agent is reconnecting") ;;@
        emit_features ;;@
        rt_modify (set_agent None) ;;@
        rt_ext meanwhile (fun w => (Ok tt, ho_sleep delay w)) (fun _ => []) ;;@
        let@ current := rt_get rt_attempt in
        if negb (current =? attempt) then rt_ret GivenUp
        else rt_try observe_now (fun observed =>
        match observed with
        | Err _ => rt_ret GivenUp
        | Ok o =>
            if negb (bool_decide (o.(to_state) = Connected)) then rt_ret GivenUp
            else
              let@ restore := rt_get (fun r => session_to_restore r.(rt_state)) in
              match restore with
              | None => emit_connection o (Some "The Proton Local Agent session could not be restored") ;;@ rt_ret GivenUp
              | Some (session, domain, requested) =>
                  rt_try (agent_start meanwhile domain session requested) (fun started =>
                  match started with
                  | Err e => emit_connection o (Some e.(ne_message)) ;;@ rt_ret Again
                  | Ok handle =>
                      rt_modify (set_agent (Some handle)) ;;@
                      rt_try (await_ready meanwhile handle (agent_timed_out "The Proton Local Agent reconnect timed out")) (fun ready =>
                      match ready with
                      | Ok snapshot => rt_modify (set_snapshot snapshot) ;;@ emit_connection o None ;;@ emit_features ;;@ rt_ret (Resumed handle)
                      | Err e =>
                          emit_connection o (Some e.(ne_message)) ;;@
                          if negb e.(ne_retryable)
                          then disconnect_after_local_agent_rejection username meanwhile fuel ;;@ rt_ret Rejected
                          else rt_modify (set_agent None) ;;@ rt_ret Again
                      end)
                  end)
              end
        end)
  end).

(** [channel] is [None] once the channel has closed; [turns] bounds the loop, which may go on for ever. *)
Fixpoint watch_local_agent (turns : nat) (channel : option AgentHandle) (attempt delay : Z) : RT' unit :=
  match turns with
  | O => fun r => (Running, r)
  | S turns =>
      let@ rejected := (match channel with
                        | Some handle =>
                            let@ updates := rt_ext meanwhile (fun w => let '(u, w) := agent_updates handle None w in (Ok u, w)) (fun _ => []) in
                            handle_updates updates
                        | None => rt_ret false
                        end) in
      if rejected then rt_ret tt
      else
        let@ next := reconnect_agent attempt delay in
        match next with
        | GivenUp | Rejected => rt_ret tt
        | Resumed handle => watch_local_agent turns (Some handle) attempt RECONNECT_DELAY
        | Again => watch_local_agent turns None attempt (Z.min (delay * 2) MAX_RECONNECT_DELAY)
        end
  end.

(** ** Maintenance *)

(** One turn of the task that renews the destination policy, and of the one that follows the physical routes. *)
Definition policy_turn : RT' unit :=
  let@ available := rt_get rt_policy_available in
  if negb available then rt_ret tt
  else
    let@ settings := rt_get (fun r => r.(rt_state).(rs_settings)) in
    let@ override := rt_get rt_policy_override in
    let settings := match override with
                    | Some (lan, dns) => set_allow_local_dns dns (set_allow_lan_connections lan settings)
                    | None => settings
                    end in
    if settings.(ns_allow_lan_connections) || settings.(ns_allow_local_dns)
    then rt_ignore (apply_destination_policy meanwhile settings) else rt_ret tt.
Definition split_route_turn : RT' unit :=
  let@ active := rt_get rt_bypass_active in
  if negb active then rt_ret tt
  else rt_try observe_now (fun observed =>
    match observed with
    | Err _ => rt_ret tt
    | Ok o =>
        let@ settings := rt_get (fun r => r.(rt_state).(rs_settings)) in
        rt_ignore (reconcile_split_kill_switch_bypass meanwhile settings (o.(to_owned) && bool_decide (o.(to_state) = Connected)))
    end).
End Restore.
