(* ===== verification/AccountApi.v ===== *)
(** The account's calls to the Proton API ([agent/src/native_backend/api.rs]) and what they are made of
    ([session_bootstrap.rs]).

    Every call goes through [GuestHole.request]; the state of the client beside the world is kept in the world.
    The SRP proofs, the browser of an organization's sign-in, key encodings, certificates, the [derive]d
    deserializers and the system clock are parameters. *)
From Stdlib Require Import SpecFloat.
From S2P Require Export SecretStore GuestHole.
From S2P Require Export NativeRestore NativeRequests.
From S2P Require Import CatalogPages.
From S2P Require Export NativeSettings.
Open Scope string_scope.
Open Scope Z_scope.
Open Scope list_scope.
Open Scope rust_scope.

(** The client's state beside the world: alternative routing, the cached route, whether a challenge is being
    solved, and how often the recovery has looked around. *)
Record api_client : Type := mkApiClient {
  cl_enabled : bool;
  cl_cache : option (ApiRoute * Z);
  cl_verifying : bool;
  cl_looks : nat }.

(** [SRPProofB64]. *)
Record srp_proof : Type := mkSrpProof {
  sp_client_ephemeral : string;
  sp_client_proof : string;
  (** [compare_server_proof]. *)
  sp_accepts : string -> bool }.

Class AccountNet (W : Type) : Type := mkAccountNet {
  an_client : W -> api_client;
  an_set_client : api_client -> W -> W;
  (** [SystemTime::now] since the epoch: [as_secs] and [as_secs_f64]. *)
  an_unix : W -> result (Z * spec_float) string;
  (** [SrpHashVersion::try_from], and the proofs for a user, a password, a version, a salt, a modulus and an ephemeral. *)
  an_srp_version : Z -> result unit string;
  an_srp : string -> string -> Z -> string -> string -> string -> W -> result srp_proof string * W;
  (** [web_auth::complete_sso]. *)
  an_sso : string -> string -> string -> W -> NativeResult string * W;
  (** Thirty-two random bytes. *)
  an_seed : W -> string * W;
  (** Which of several requests that ran at once and failed was the first to fail. *)
  an_first_failure : W -> nat;
  (** Whether no other task holds [auth_write]. *)
  an_auth_free : W -> bool;
  (** [settings_store::save_value] on a cache file, and [fs::remove_file], whose failure is [None] where there is none. *)
  an_save_cache : string -> json -> W -> NativeResult unit * W;
  an_remove_cache : string -> W -> result unit (option string) * W }.

Class AccountCodec : Type := mkAccountCodec {
  (** The public key of a seed, as PEM and as bytes. *)
  ac_public_pem : string -> result string string;
  ac_verifying_key : string -> string;
  (** The key of a certificate in PEM; the first error is that of the PEM, the second that of X.509. *)
  ac_certificate_key : string -> result (result string string) string;
  ac_certificate : json -> result VpnCertificate string;
  ac_location : json -> result VpnLocation string;
  ac_client_config : json -> result ClientConfig string;
  ac_catalog : json -> result ServerCatalog string;
  ac_logical : json -> result LogicalServer string;
  (** [form_urlencoded::byte_serialize]. *)
  ac_url_encode : string -> string }.

(** ** Values *)
Definition response_invalid (message : string) : NativeError := NativeError_new "api_response_invalid" message.
Definition without_api_code (value : json) : json := match value with Obj m => Obj (base.delete "Code" m) | _ => value end.
Definition insert_value (value : json) (key : string) (number : NativeResult json) : NativeResult json :=
  match value with
  | Obj m => let? number := number in Ok (Obj (<[key := number]> m))
  | _ => Err (response_invalid "Proton returned an API response that is not an object")
  end.
Definition clock_invalid : NativeError := NativeError_new "clock_invalid" "System clock is invalid".
Definition is_finite (f : spec_float) : bool := match f with S754_zero _ | S754_finite _ _ _ => true | _ => false end.
Definition insert_number (value : json) (key : string) (number : spec_float) : NativeResult json :=
  insert_value value key (if is_finite number then Ok (Number (Float number)) else Err clock_invalid).
Definition insert_u64 (value : json) (key : string) (number : Z) : NativeResult json := insert_value value key (Ok (jnum number)).

Definition decode_value_ref {T : Type} (decode : json -> result T string) (value : json) (name : string) : NativeResult T :=
  res_map_err (fun error => ne_with_source error (response_invalid ("Proton returned an invalid " +:+ name))) (decode value).
Definition decode_value {T : Type} (decode : json -> result T string) (value : json) (name : string) : NativeResult T :=
  decode_value_ref decode (without_api_code value) name.

Definition max_tier_of (vpn_info : json) : NativeResult Z :=
  ok_or (jget "VPN" vpn_info ?> jget "MaxTier" ?> as_u64 ?> u_try_from 8)
    (response_invalid "Proton VPN account response is missing MaxTier").
Definition account_info (value : json) : NativeResult json := let? _ := max_tier_of value in Ok (without_api_code value).

Definition f64_add (a b : spec_float) : spec_float := SFadd 53 1024 a b.
Definition three_hours : spec_float := f64_of_Z 10800.
Definition fifteen_minutes : spec_float := f64_of_Z 900.

Definition stored_api_session (s : SessionData) : ApiSession :=
  mkApiSession s.(sd_uid) s.(sd_access_token) s.(sd_refresh_token) s.(sd_scopes) s.(sd_account_name) s.(sd_credentialless)
    (opt_filter (fun value => negb (bool_decide (value = Null))) (s.(sd_extra) !! "LastUseData" ?> jget "2FA")).
(** [stored.access_token = ...] and the two that follow. *)
Definition with_tokens (auth : ApiSession) (s : SessionData) : SessionData :=
  mkSessionData s.(sd_uid) auth.(as_access_token) auth.(as_refresh_token) auth.(as_scopes) s.(sd_account_name) s.(sd_credentialless)
    s.(sd_environment) s.(sd_vpn) s.(sd_extra).
Definition with_vpn (f : VpnSessionData -> VpnSessionData) (s : SessionData) : SessionData :=
  mkSessionData s.(sd_uid) s.(sd_access_token) s.(sd_refresh_token) s.(sd_scopes) s.(sd_account_name) s.(sd_credentialless)
    s.(sd_environment) (f s.(sd_vpn)) s.(sd_extra).
Definition set_vpninfo (info : json) (v : VpnSessionData) : VpnSessionData :=
  mkVpnSessionData info v.(vs_certificate) v.(vs_ed25519_privatekey) v.(vs_location).
Definition set_certificate (certificate : VpnCertificate) (v : VpnSessionData) : VpnSessionData :=
  mkVpnSessionData v.(vs_vpninfo) certificate v.(vs_ed25519_privatekey) v.(vs_location).
Definition set_location (location : VpnLocation) (v : VpnSessionData) : VpnSessionData :=
  mkVpnSessionData v.(vs_vpninfo) v.(vs_certificate) v.(vs_ed25519_privatekey) location.

Definition certificate_features (s : NativeSettings) : json :=
  let f := s.(ns_features) in
  jobj ((if f.(sf_moderate_nat) then [] else [("RandomNAT", Bool false)])
        ++ (if f.(sf_vpn_accelerator) then [] else [("SplitTCP", Bool false)])
        ++ (if f.(sf_port_forwarding) then [("PortForwarding", Bool true)] else [])
        ++ (if f.(sf_netshield) =? 0 then [] else [("NetShieldLevel", jnum f.(sf_netshield))])).

Section Values.
Context {L : IpLib} {AC : AccountCodec}.

Definition verify_certificate_key (certificate_pem expected : string) : NativeResult unit :=
  let invalid message error := ne_with_source error (NativeError_new "vpn_certificate_invalid" message) in
  let? pem := res_map_err (invalid "Unable to parse the Proton VPN client certificate") (ac_certificate_key certificate_pem) in
  let? key := res_map_err (invalid "Unable to validate the Proton VPN client certificate") pem in
  if String.eqb key expected then Ok tt
  else Err (NativeError_new "vpn_certificate_key_mismatch" "Proton returned a VPN certificate for a different client key").
(** [client_config], with the time it is called at. *)
Definition client_config (now : NativeResult spec_float) (value : json) : NativeResult (ClientConfig * json) :=
  let? now := now in
  let? value := insert_number value "ExpirationTime" (f64_add now three_hours) in
  let? config := decode_value_ref ac_client_config value "VPN client configuration" in
  Ok (config, without_api_code value).
Definition location (value : json) : NativeResult VpnLocation :=
  let? location := decode_value ac_location value "VPN location" in
  if match addr_from_str location.(vl_ip) with Some _ => false | None => true end
     || negb (str_len location.(vl_country) =? 2) || negb (str_forall is_ascii_alphabetic location.(vl_country))
  then Err (response_invalid "Proton returned an invalid physical location")
  else Ok location.
Definition key_generation_failed (error : string) : NativeError :=
  ne_with_source error (NativeError_new "vpn_key_generation_failed" "Unable to encode the Proton VPN public key").
Definition certificate_request (public_pem : string) (s : NativeSettings) : json :=
  jobj [("ClientPublicKey", Str public_pem); ("Duration", Str "10080 min"); ("Features", certificate_features s)].
End Values.

Record BootstrapData : Type := mkBootstrapData {
  bd_session : SessionData;
  bd_catalog : ServerCatalog;
  bd_catalog_json : json;
  bd_client_config : ClientConfig;
  bd_client_config_json : json }.

Section Calls.
Context {W : Type} {N : NetworkManager W} {D : Devices W} {A : AgentLib W} {H : Host W} {NA : ApiNet W} {RN : RecoveryNet W} {AN : AccountNet W}.
Context {J : JsonText} {L : IpLib} {C : ServerCrypto} {P : ProfileCrypto} {Cn : Countries} {I : Installed} {AC : AccountCodec}.
Context (username : string) (meanwhile : NativeRuntime W -> NativeRuntime W).
Context (api_meanwhile : ProtonApi W -> ProtonApi W) (view_at : nat -> recovery_view) (race_at : nat -> race).

Abbreviation RT' := (RT (W := W)).

(** ** Calls *)
Definition api_call (method endpoint : string) (body : option json) (session : option ApiSession) : RT' json := fun r =>
  let c := an_client r.(rt_world) in
  let '(o, h) := GuestHole.request username api_meanwhile view_at race_at method endpoint body session
    (mkHole (mkProtonApi r.(rt_world) c.(cl_enabled) c.(cl_cache) c.(cl_verifying) []) c.(cl_looks) []) in
  let a := h.(hl_api) in
  (o, others meanwhile (add_log [ApiAsked method endpoint (outcome_ok o)]
        (set_world (an_set_client (mkApiClient a.(ap_alternative_enabled) a.(ap_cache) a.(ap_verifying) h.(hl_looks)) a.(ap_world)) r))).
Definition api_get (endpoint : string) (session : ApiSession) : RT' json := api_call "GET" endpoint None (Some session).
Definition api_post (endpoint : string) (body : json) (session : ApiSession) : RT' json := api_call "POST" endpoint (Some body) (Some session).

Definition api_refresh (session : ApiSession) : RT' ApiSession :=
  let@ response := api_call "POST" "/auth/refresh"
    (Some (jobj [("ResponseType", Str "token"); ("GrantType", Str "refresh_token"); ("RefreshToken", Str session.(as_refresh_token));
                 ("RedirectURI", Str "http://protonmail.ch")])) (Some session) in
  rt_result (
    let? access_token := Api.required_string response "AccessToken" in
    let? refresh_token := Api.required_string response "RefreshToken" in
    let? scopes := Api.string_array response "Scopes" in
    Ok (mkApiSession session.(as_uid) access_token refresh_token scopes session.(as_account_name) session.(as_credentialless)
          session.(as_two_factor))).
Definition api_logout (session : ApiSession) : RT' unit := api_call "DELETE" "/auth" None (Some session) ;;@ rt_ret tt.
Definition submit_2fa (session : ApiSession) (code : string) : RT' ApiSession :=
  let@ response := api_call "POST" "/auth/2fa" (Some (jobj [("TwoFactorCode", Str code)])) (Some session) in
  rt_result (
    let? scopes := Api.string_array response "Scopes" in
    Ok (mkApiSession session.(as_uid) session.(as_access_token) session.(as_refresh_token) scopes session.(as_account_name)
          session.(as_credentialless) None)).
Definition lookup_server (name : string) (session : ApiSession) : RT' (option LogicalServer) :=
  let@ payload := api_get ("/vpn/v1/logicals/lookup/" +:+ ac_url_encode name +:+ "?SignServer=Server.EntryIP,Server.Label") session in
  rt_result (
    match opt_filter (fun value => negb (bool_decide (value = Null))) (jget "LogicalServer" payload) with
    | None => Ok None
    | Some value =>
        res_map_err (fun error => ne_set_retryable true (ne_with_source error (response_invalid "Proton returned an invalid server lookup response")))
          (let? server := ac_logical value in Ok (Some server))
    end).

(** ** Signing in *)

(** [EventSink::stage_auth]. *)
Definition stage_auth (stage : string) : RT' unit := emit "operation.auth_stage" (jobj [("stage", Str stage); ("cancelable", Bool false)]).
Definition authenticate (account password : string) : RT' ApiSession :=
  let@ info := api_call "POST" "/auth/info" (Some (jobj [("Username", Str account)])) None in
  let@ version := rt_result (ok_or (jget "Version" info ?> as_u64 ?> u_try_from 8) (invalid_api_response "SRP version")) in
  rt_result (res_map_err (fun error => ne_with_source error
    (NativeError_new "srp_unsupported" "Proton returned an unsupported SRP version")) (an_srp_version version)) ;;@
  let@ salt := rt_result (Api.required_string info "Salt") in
  let@ modulus := rt_result (Api.required_string info "Modulus") in
  let@ server_ephemeral := rt_result (Api.required_string info "ServerEphemeral") in
  let@ srp_session := rt_result (Api.required_string info "SRPSession") in
  let@ proof := rt_ext meanwhile (fun w =>
    let '(proof, w) := an_srp account password version salt modulus server_ephemeral w in
    (res_map_err (fun error => ne_with_source error
       (NativeError_new "srp_verification_failed" "Unable to verify Proton's signed SRP challenge")) proof, w)) (fun _ => []) in
  let@ response := api_call "POST" "/auth"
    (Some (jobj [("Username", Str account); ("ClientEphemeral", Str proof.(sp_client_ephemeral)); ("ClientProof", Str proof.(sp_client_proof));
                 ("SRPSession", Str srp_session)])) None in
  let@ server_proof := rt_result (Api.required_string response "ServerProof") in
  if sp_accepts proof server_proof then rt_result (api_session_from_auth response account)
  else rt_throw (NativeError_new "srp_server_proof_invalid" "Proton's SRP server proof did not match").

Definition authenticate_sso (account : string) : RT' ApiSession :=
  let@ unauth_response := api_call "POST" "/auth/v4/sessions" None None in
  let@ unauth := rt_result (
    let? uid := Api.required_string unauth_response "UID" in
    let? access_token := Api.required_string unauth_response "AccessToken" in
    let? refresh_token := Api.required_string unauth_response "RefreshToken" in
    Ok (mkApiSession uid access_token refresh_token [] account false None)) in
  let@ info := api_call "POST" "/auth/info" (Some (jobj [("Username", Str account); ("Intent", Str "SSO")])) (Some unauth) in
  let@ challenge := rt_result (Api.required_string info "SSOChallengeToken") in
  stage_auth "auth.waiting_for_sso" ;;@
  let@ response_token := rt_ext meanwhile (an_sso challenge unauth.(as_uid) unauth.(as_access_token)) (fun _ => []) in
  stage_auth "auth.completing_sso" ;;@
  let@ response := api_call "POST" "/auth" (Some (jobj [("SSOResponseToken", Str response_token)])) (Some unauth) in
  rt_result (api_session_from_auth response account).

(** ** What a session is made of *)
Definition clock_before_epoch (error : string) : NativeError :=
  ne_with_source error (NativeError_new "clock_invalid" "System clock is before the Unix epoch").
Definition unix_seconds : RT' Z := fun r => (Done (res_map_err clock_before_epoch (let? now := an_unix r.(rt_world) in Ok now.1)), r).
Definition unix_time : RT' spec_float := fun r => (Done (res_map_err clock_before_epoch (let? now := an_unix r.(rt_world) in Ok now.2)), r).

Definition unsigned_catalog : NativeError :=
  ne_set_retryable true (NativeError_new "server_validation_failed" "Proton did not return a signed server catalog").
Definition fetch_catalog (auth : ApiSession) (tier : Z) : RT' (ServerCatalog * json) :=
  let@ now := unix_time in
  let@ catalog_json := api_get SIGNED_CATALOG_ENDPOINT auth in
  rt_result (
    let? catalog_json := insert_number catalog_json "ExpirationTime" (f64_add now three_hours) in
    let? catalog_json := insert_number catalog_json "LoadsExpirationTime" (f64_add now fifteen_minutes) in
    let? catalog_json := insert_u64 catalog_json "MaxTier" tier in
    let? catalog := decode_value_ref ac_catalog catalog_json "VPN server catalog" in
    if has_endpoint_signatures catalog then Ok (catalog, catalog_json) else Err unsigned_catalog).

(** The location, [null] unless it comes within five seconds. *)
Definition fetch_location (auth : ApiSession) : RT' json :=
  let@ started := rt_get (fun r => ho_now r.(rt_world)) in
  rt_try (within (started + 5000) connection_timeout (api_get "/vpn/v1/location" auth)) (fun answer =>
    rt_ret (match answer with Ok value => value | Err _ => Null end)).
(** [try_join!] of four requests: their values, or the error of the first that failed. *)
Definition join4 (a b c d : RT' json) : RT' (json * json * json * json) :=
  rt_try a (fun a => rt_try b (fun b => rt_try c (fun c => rt_try d (fun d =>
    match a, b, c, d with
    | Ok a, Ok b, Ok c, Ok d => rt_ret (a, b, c, d)
    | _, _, _, _ =>
        let failures := omap (fun x : NativeResult json => match x with Ok _ => None | Err e => Some e end) [a; b; c; d] in
        let@ first := rt_get (fun r => an_first_failure r.(rt_world)) in
        rt_throw (nth first failures (nth 0 failures clock_invalid))
    end)))).

Definition fetch (auth : ApiSession) (settings : NativeSettings) : RT' BootstrapData :=
  let@ seed := rt_ext meanwhile (fun w => let '(seed, w) := an_seed w in (Ok seed, w)) (fun _ => []) in
  let@ public_pem := rt_result (res_map_err key_generation_failed (ac_public_pem seed)) in
  let@ answers := join4 (api_get "/vpn/v2" auth) (api_post "/vpn/v1/certificate" (certificate_request public_pem settings) auth)
                        (fetch_location auth) (api_get "/vpn/v2/clientconfig" auth) in
  let '(vpn_info, certificate_value, location_value, config_value) := answers in
  let@ certificate := rt_result (decode_value ac_certificate certificate_value "VPN certificate") in
  rt_result (verify_certificate_key certificate.(vc_certificate) (ac_verifying_key seed)) ;;@
  let location := match decode_value ac_location location_value "VPN location" with
                  | Ok location => location
                  | Err _ => mkVpnLocation "" "" "" None None
                  end in
  let@ now := unix_time in
  let@ config_json := rt_result (insert_number config_value "ExpirationTime" (f64_add now three_hours)) in
  let@ config := rt_result (decode_value ac_client_config config_json "VPN client configuration") in
  let@ tier := rt_result (max_tier_of vpn_info) in
  let@ catalog := fetch_catalog auth tier in
  rt_ret (mkBootstrapData
    (mkSessionData auth.(as_uid) auth.(as_access_token) auth.(as_refresh_token) auth.(as_scopes) auth.(as_account_name)
       auth.(as_credentialless) "prod"
       (mkVpnSessionData (without_api_code vpn_info) certificate (base64_encode (as_bytes seed)) location)
       {["LastUseData" := jobj [("2FA", Null); ("appversion", Str "linux-vpn-gui@5.5.11");
                                ("user_agent", Str "ProtonVPN/0.8.0 (Linux; Omarchy/4)"); ("refresh_revision", jnum 0)]]})
    catalog.1 catalog.2 config (without_api_code config_json)).

Definition refresh_certificate (session : SessionData) (settings : NativeSettings) : RT' VpnCertificate :=
  let invalid message := NativeError_new "vpn_private_key_invalid" message in
  let key := trim session.(sd_vpn).(vs_ed25519_privatekey) in
  let@ seed := rt_result (ok_or (base64_decode key) (ne_with_source (base64_refusal key) (invalid "The Proton VPN Ed25519 private key is invalid"))) in
  if negb (str_len seed =? 32) then rt_throw (invalid "The Proton VPN Ed25519 private key has an invalid length")
  else
    let@ public_pem := rt_result (res_map_err key_generation_failed (ac_public_pem seed)) in
    let@ value := api_post "/vpn/v1/certificate" (certificate_request public_pem settings) (stored_api_session session) in
    let@ certificate := rt_result (decode_value ac_certificate value "VPN certificate") in
    rt_result (verify_certificate_key certificate.(vc_certificate) (ac_verifying_key seed)) ;;@
    rt_ret certificate.
End Calls.
