(* ===== verification/NativeAccount.v ===== *)
(** The account: signing in and out, and keeping the session, the certificate, the catalog and the account's
    data fresh ([account_*], [finalize_auth], [refresh_*] and [ensure_*] of [agent/src/native_backend/mod.rs],
    [refresh.rs] and [logout.rs]).

    The handlers hold [auth_write]; what they do to the keyring, the caches and the API is logged. *)
From Stdlib Require Import SpecFloat.
From S2P Require Export AccountApi.
From S2P Require Import CatalogPages.
From S2P Require Export NativeSettings.
Open Scope string_scope.
Open Scope Z_scope.
Open Scope list_scope.
Open Scope rust_scope.

(** ** Fields of the runtime's state *)
Definition put_session (v : option SessionData) (s : RuntimeState) : RuntimeState :=
  let '(mkRuntimeState _ b c d e f g h i j k l m n o) := s in mkRuntimeState v b c d e f g h i j k l m n o.
Definition put_catalog (v : option ServerCatalog) (s : RuntimeState) : RuntimeState :=
  let '(mkRuntimeState a b _ d e f g h i j k l m n o) := s in mkRuntimeState a b v d e f g h i j k l m n o.
Definition put_client_config (v : option ClientConfig) (s : RuntimeState) : RuntimeState :=
  let '(mkRuntimeState a b c _ e f g h i j k l m n o) := s in mkRuntimeState a b c v e f g h i j k l m n o.
Definition put_feedback_flag (enabled : bool) (seconds : Z) (s : RuntimeState) : RuntimeState :=
  let '(mkRuntimeState a b c d e f g _ _ j k l m n o) := s in mkRuntimeState a b c d e f g enabled seconds j k l m n o.
Definition put_location_known (v : bool) (s : RuntimeState) : RuntimeState :=
  let '(mkRuntimeState a b c d e f g h i j k _ m n o) := s in mkRuntimeState a b c d e f g h i j k v m n o.
Definition put_location_identity (v : option (list string)) (s : RuntimeState) : RuntimeState :=
  let '(mkRuntimeState a b c d e f g h i j k l _ n o) := s in mkRuntimeState a b c d e f g h i j k l v n o.
Definition put_location_retry (v : option Z) (s : RuntimeState) : RuntimeState :=
  let '(mkRuntimeState a b c d e f g h i j k l m _ o) := s in mkRuntimeState a b c d e f g h i j k l m v o.
Definition put_remote_refresh (v : option Z) (s : RuntimeState) : RuntimeState :=
  let '(mkRuntimeState a b c d e f g h i j k l m n _) := s in mkRuntimeState a b c d e f g h i j k l m n v.

(** The state of a signed-out user. *)
Definition forget_account (s : RuntimeState) : RuntimeState :=
  let '(mkRuntimeState _ b _ _ e _ _ _ i _ k _ _ _ _) := s in
  mkRuntimeState None b None None e None None false i None k false None None None.

Definition ACCOUNT_REFRESH_INTERVAL : Z := 15 * 60 * 1000.
Definition FAILED_REFRESH_INTERVAL : Z := 60 * 1000.
Definition CATALOG_FILE : string := "serverlist.json".
Definition CLIENT_CONFIG_FILE : string := "clientconfig.json".

Definition signing_in_event : json :=
  jobj [("status", Str "signing_in"); ("name", Null); ("tier", Null); ("credentialless", Bool false);
        ("two_factor_code_supported", Bool false); ("two_factor_security_key_supported", Bool false); ("sso_supported", Bool true)].
Definition login_answer (success two_factor : bool) : json :=
  jobj [("success", Bool success); ("authenticated", Bool true); ("two_factor_required", Bool two_factor)].
Definition unknown_location_event : json :=
  jobj [("known", Bool false); ("ip_address", Null); ("country_code", Null); ("isp", Null); ("latitude", Null); ("longitude", Null)].
Definition u64_saturating_add (a b : Z) : Z := Z.min (a + b) (2 ^ 64 - 1).

Definition f64_gt (a b : spec_float) : bool := match SFcompare a b with Some Gt => true | _ => false end.
Definition client_config_fresh (config : ClientConfig) (now : spec_float) : bool :=
  match config.(cc_extra) !! "ExpirationTime" ?> as_f64 with
  | Some expires => is_finite expires && f64_gt expires now
  | None => false
  end.

Section Account.
Context {W : Type} {N : NetworkManager W} {D : Devices W} {A : AgentLib W} {H : Host W} {U : Startup W}.
Context {NA : ApiNet W} {RN : RecoveryNet W} {AN : AccountNet W} {KR : Keyring W}.
Context {J : JsonText} {L : IpLib} {C : ServerCrypto} {P : ProfileCrypto} {Cn : Countries} {I : Installed} {AC : AccountCodec} {K : SecretCodec} {T : SearchText}.
Context (username : string) (meanwhile : NativeRuntime W -> NativeRuntime W) (fuel : nat).
Context (api_meanwhile : ProtonApi W -> ProtonApi W) (view_at : nat -> recovery_view) (race_at : nat -> race).

Abbreviation RT' := (RT (W := W)).
Abbreviation api_get := (api_get username meanwhile api_meanwhile view_at race_at).
Abbreviation api_refresh := (api_refresh username meanwhile api_meanwhile view_at race_at).
Abbreviation fetch_catalog := (fetch_catalog username meanwhile api_meanwhile view_at race_at).
Abbreviation settings_now := (rt_get (fun r : NativeRuntime W => r.(rt_state).(rs_settings))).
Abbreviation session_now := (rt_get (fun r : NativeRuntime W => r.(rt_state).(rs_session))).
Abbreviation now_ms := (rt_get (fun r : NativeRuntime W => ho_now r.(rt_world))).

(** [auth_write], once it is free. *)
Definition auth_locked {B : Type} (m : RT' B) : RT' B := rt_wait meanwhile ;;@ with_auth m.

(** ** The keyring and the caches *)
Definition save_secret (session : SessionData) : RT' unit := rt_ext meanwhile (save session) (fun ok => [SecretSaved session ok]).
Definition delete_secret (account_name : string) : RT' unit :=
  rt_ext meanwhile (SecretStore.delete account_name) (fun ok => [SecretDeleted account_name ok]).
Definition save_cache (what : string) (value : json) : RT' unit := rt_ext meanwhile (an_save_cache what value) (fun ok => [CacheSaved what ok]).
Definition cache_delete_failed (what source : string) : NativeError :=
  ne_with_source source (NativeError_new "cache_delete_failed" ("Unable to remove Proton cache file " +:+ what)).
Definition remove_cache_file (what : string) : RT' unit :=
  rt_ext meanwhile (fun w => let '(r, w) := an_remove_cache what w in
    (match r with Ok _ | Err None => Ok tt | Err (Some source) => Err (cache_delete_failed what source) end, w)) (fun ok => [CacheRemoved what ok]).
Definition persist_session_data (session : SessionData) : RT' unit :=
  save_secret session ;;@ rt_modify (on_state (put_session (Some session))).

(** ** After a sign-in *)
Definition refresh_connection_feedback_flag : RT' unit :=
  let@ session := session_now in
  let@ config := (match session with
                  | Some session => rt_try (api_get "/feature/v2/frontend" (stored_api_session session)) (fun answer =>
                      rt_ret (match answer with Ok value => Some value | Err _ => None end))
                  | None => rt_ret None
                  end) in
  rt_modify (on_state (put_feedback_flag
    (match config with Some value => feature_flag_enabled value "IsConnectionFeedbackEnabled" | None => false end)
    (match config with Some value => feedback_auto_dismiss_seconds value | None => 10 end))) ;;@
  emit_features.

Definition finalize_auth (auth : ApiSession) (method : string) : RT' unit :=
  stage method "auth.loading_account" false ;;@
  let@ settings := settings_now in
  rt_try (fetch username meanwhile api_meanwhile view_at race_at auth settings) (fun fetched =>
  match fetched with
  | Err error => rt_throw (login_error error "account")
  | Ok b =>
      save_cache CATALOG_FILE b.(bd_catalog_json) ;;@
      save_cache CLIENT_CONFIG_FILE b.(bd_client_config_json) ;;@
      save_secret b.(bd_session) ;;@
      let@ now := now_ms in
      rt_modify (on_state (fun s => put_location_known false (put_remote_refresh (Some (now + 15 * 60 * 1000))
        (put_client_config (Some b.(bd_client_config)) (put_catalog (Some b.(bd_catalog)) (put_session (Some b.(bd_session)) s)))))) ;;@
      rt_modify (set_pending_auth None) ;;@
      refresh_connection_feedback_flag ;;@
      emit_account ;;@ emit_features ;;@ emit_device_location ;;@ flush_statistics_queue
  end).
(** What follows a sign-in that needs nothing more. *)
Definition finish_sign_in (auth : ApiSession) (method : string) : RT' json :=
  stage method "auth.finalizing" false ;;@
  rt_try (finalize_auth auth method) (fun finalized =>
  match finalized with
  | Ok _ => rt_ret (login_answer true false)
  | Err error => emit_account ;;@ rt_throw error
  end).

(** ** Requests *)
Definition sign_in_failed (error : NativeError) (stage : string) : RT' json :=
  rt_modify (set_pending_auth None) ;;@ emit_account ;;@ rt_throw (login_error error stage).
Definition signed_in_as (auth : ApiSession) : RT' json :=
  if needs_two_factor auth then
    rt_modify (set_pending_auth (Some auth)) ;;@
    stage "account.login" "auth.waiting_for_two_factor" false ;;@
    emit_account ;;@ emit_features ;;@
    rt_ret (login_answer false true)
  else finish_sign_in auth "account.login".
Definition account_login (params : json) : RT' json :=
  auth_locked (
  let@ state := rt_get rt_state in
  rt_result (ensure_session_restored state) ;;@
  let taken := take_required_param params "username" 320 true in
  let@ account := rt_result taken.1 in
  let@ password := rt_result (take_required_param taken.2 "password" 4096 false).1 in
  let@ session := session_now in
  if is_some session then rt_ret (login_answer true false)
  else
    emit "account" signing_in_event ;;@
    stage "account.login" "auth.verifying_credentials" false ;;@
    rt_try (authenticate username meanwhile api_meanwhile view_at race_at account password) (fun attempt =>
    match attempt with
    | Ok auth => signed_in_as auth
    | Err error =>
        if String.eqb error.(ne_code) "sso_required" then
          stage "account.login" "auth.waiting_for_sso" false ;;@
          rt_try (authenticate_sso username meanwhile api_meanwhile view_at race_at account) (fun attempt =>
          match attempt with
          | Ok auth => signed_in_as auth
          | Err error => sign_in_failed error "sso"
          end)
        else sign_in_failed error "credentials"
    end)).

Definition two_factor_not_required : NativeError :=
  NativeError_new "two_factor_not_required" "The current Proton session is not waiting for two-factor authentication".
Definition two_factor_failed : NativeError :=
  ne_set_retryable true (NativeError_new "two_factor_failed" "The two-factor code was not accepted").
Definition account_submit_2fa (params : json) : RT' json :=
  auth_locked (
  let@ code := rt_result (take_required_param params "code" 32 true).1 in
  let@ pending := rt_get rt_pending_auth in
  rt_modify (set_pending_auth None) ;;@
  let@ auth := rt_result (ok_or pending two_factor_not_required) in
  stage "account.submit_2fa" "auth.verifying_two_factor" false ;;@
  rt_try (submit_2fa username meanwhile api_meanwhile view_at race_at auth code) (fun submitted =>
  match submitted with
  | Err error =>
      (if String.eqb error.(ne_code) "authentication_expired" then rt_ret tt else rt_modify (set_pending_auth (Some auth))) ;;@
      emit_account ;;@ rt_throw (login_error error "two_factor")
  | Ok auth =>
      if needs_two_factor auth then rt_modify (set_pending_auth (Some auth)) ;;@ emit_account ;;@ rt_throw two_factor_failed
      else finish_sign_in auth "account.submit_2fa"
  end)).

(** [logout::revoke]. *)
Definition revoke (session : option ApiSession) : RT' bool :=
  let@ started := now_ms in
  match session with
  | None => rt_ret true
  | Some session =>
      rt_try (within (started + 5000) connection_timeout (api_logout username meanwhile api_meanwhile view_at race_at session))
        (fun answer => rt_log_action (SessionRevoked (is_ok answer)) ;;@ rt_ret (is_ok answer))
  end.
Definition clear_session : RT' (option ApiSession) :=
  let@ pending := rt_get rt_pending_auth in
  rt_modify (set_pending_auth None) ;;@
  let@ stored := session_now in
  (match stored with Some session => delete_secret session.(sd_account_name) | None => rt_ret tt end) ;;@
  rt_modify (on_state forget_account) ;;@
  rt_ret (or_else pending (option_map stored_api_session stored)).
(** Up to the end of the tunnel, and what follows the erasure. *)
Definition logout_front : RT' unit :=
  let@ state := rt_get rt_state in
  rt_result (ensure_session_restored state) ;;@
  stage "account.logout" "auth.disconnecting" false ;;@
  let@ o := observe_blocking meanwhile in
  (if negb (bool_decide (o.(to_state) = Disconnected)) && o.(to_owned)
   then rt_wait meanwhile ;;@ with_network (disconnect_inner username meanwhile fuel) else rt_ret tt) ;;@
  stage "account.logout" "auth.clearing_session" false.
Definition logout_rest (api_session : option ApiSession) : RT' json :=
  rt_ignore (remove_cache_file CATALOG_FILE) ;;@
  rt_ignore (remove_cache_file CLIENT_CONFIG_FILE) ;;@
  emit_account ;;@ emit_features ;;@
  emit "device_location" unknown_location_event ;;@
  let@ remote_revoked := revoke api_session in
  rt_ret (jobj [("logged_out", Bool true); ("remote_revoked", Bool remote_revoked)]).
Definition account_logout : RT' json :=
  auth_locked (logout_front ;;@ let@ api_session := clear_session in logout_rest api_session).

(** ** Tokens and the certificate *)
Definition refresh_tokens : RT' unit :=
  auth_locked (
  let@ stored := session_now in
  match stored with
  | None => rt_ret tt
  | Some stored =>
      let@ auth := api_refresh (stored_api_session stored) in
      persist_session_data (with_tokens auth stored)
  end).
Definition certificate_due (session : SessionData) (now : Z) : bool * bool :=
  let certificate := session.(sd_vpn).(vs_certificate) in
  let required := certificate.(vc_expiration_time) <=? u64_saturating_add now 60 in
  (required, required || negb (now <? certificate.(vc_refresh_time))).
Definition refresh_certificate_if_needed : RT' bool :=
  auth_locked (
  let@ stored := session_now in
  match stored with
  | None => rt_ret false
  | Some stored =>
      let@ now := unix_seconds in
      let '(required, due) := certificate_due stored now in
      if negb due then rt_ret false
      else
        rt_try (api_refresh (stored_api_session stored)) (fun refreshed =>
        match refreshed with
        | Err error => if required : bool then rt_throw error else rt_ret false
        | Ok auth =>
            let stored := with_tokens auth stored in
            persist_session_data stored ;;@
            let@ settings := settings_now in
            rt_try (refresh_certificate username meanwhile api_meanwhile view_at race_at stored settings) (fun certificate =>
            match certificate with
            | Err error => if required : bool then rt_throw error else rt_ret false
            | Ok certificate => persist_session_data (with_vpn (set_certificate certificate) stored) ;;@ rt_ret true
            end)
        end)
  end).

(** A request that renews the tokens once when they have expired.  The session is the caller's variable, which
    has the new tokens even if saving them fails. *)
Definition get_refreshing_session (endpoint : string) (session : SessionData) : RT' (NativeResult json * SessionData) :=
  let auth := stored_api_session session in
  rt_try (api_get endpoint auth) (fun answer =>
  match answer with
  | Err error =>
      if String.eqb error.(ne_code) "authentication_expired" then
        rt_try (api_refresh auth) (fun refreshed =>
        match refreshed with
        | Err error => rt_ret (Err error, session)
        | Ok auth =>
            let session := with_tokens auth session in
            rt_try (persist_session_data session) (fun saved =>
            match saved with
            | Err error => rt_ret (Err error, session)
            | Ok _ => rt_try (api_get endpoint auth) (fun answer => rt_ret (answer, session))
            end)
        end)
      else rt_ret (Err error, session)
  | Ok value => rt_ret (Ok value, session)
  end).

(** ** The catalog and the client configuration *)
Definition f64_of_seconds (seconds : Z) : spec_float := f64_of_Z seconds.
Definition ensure_signed_catalog : RT' unit :=
  auth_locked (
  let@ '(stored, tier) := require_session in
  let@ seconds := unix_seconds in
  let now := f64_of_seconds seconds in
  let@ cached := rt_get (fun r => option_map (fun c => (has_endpoint_signatures c, f64_gt c.(cat_expiration_time) now)) r.(rt_state).(rs_catalog)) in
  if bool_decide (cached = Some (true, true)) then rt_ret tt
  else
    let store (found : ServerCatalog * json) : RT' unit :=
      save_cache CATALOG_FILE found.2 ;;@ rt_modify (on_state (put_catalog (Some found.1))) in
    let auth := stored_api_session stored in
    rt_try (fetch_catalog auth tier) (fun fetched =>
    match fetched with
    | Ok found => store found
    | Err error =>
        if match cached with Some (signed, _) => signed | None => false end then rt_ret tt
        else if String.eqb error.(ne_code) "authentication_expired" then
          let@ auth := api_refresh auth in
          persist_session_data (with_tokens auth stored) ;;@
          let@ found := fetch_catalog auth tier in
          store found
        else rt_throw error
    end)).

Definition save_client_config (found : ClientConfig * json) : RT' unit :=
  save_cache CLIENT_CONFIG_FILE found.2 ;;@ rt_modify (on_state (put_client_config (Some found.1))).
(** [session_bootstrap::client_config] reads the clock. *)
Definition client_config_now (value : json) : RT' (NativeResult (ClientConfig * json)) :=
  rt_try unix_time (fun now => rt_ret (client_config now value)).
Definition fetch_client_config (session : SessionData) : RT' (NativeResult (ClientConfig * json) * SessionData) :=
  let@ '(answer, session) := get_refreshing_session "/vpn/v2/clientconfig" session in
  match answer with
  | Ok value => let@ config := client_config_now value in rt_ret (config, session)
  | Err error => rt_ret (Err error, session)
  end.
Definition ensure_client_config : RT' unit :=
  auth_locked (
  let@ '(session, _) := require_session in
  let@ seconds := unix_seconds in
  let@ cached := rt_get (fun r => r.(rt_state).(rs_client_config)) in
  if match cached with Some config => client_config_fresh config (f64_of_seconds seconds) | None => false end then rt_ret tt
  else
    let@ fetched := fetch_client_config session in
    match fetched.1 with
    | Ok found => save_client_config found
    | Err error => if is_some cached then rt_ret tt else rt_throw error
    end).

(** ** The account's data and the physical location ([refresh_remote_data]) *)

(** The identity of the physical network, and whether no tunnel hides it. *)
Definition look_physical : NM (W := W) (list string * bool) :=
  let^ identity := physical_network_identity in
  let^ o := observe in
  if bool_decide (o.(to_state) = Disconnected)
  then let^ conflicts := conflicting_interfaces in nm_ret (identity, bool_decide (conflicts = []))
  else nm_ret (identity, false).
(** The same network still, without a tunnel. *)
Definition still_physical (identity : list string) : NM (W := W) bool :=
  let^ o := observe in
  if negb (bool_decide (o.(to_state) = Disconnected)) then nm_ret false
  else
    let^ conflicts := conflicting_interfaces in
    if negb (bool_decide (conflicts = [])) then nm_ret false
    else let^ now := physical_network_identity in nm_ret (bool_decide (now = identity)).

(** What has been refreshed so far, with the first error and the session as it is known here. *)
Record progress : Type := mkProgress {
  pg_session : SessionData;
  pg_account : bool;
  pg_config : bool;
  pg_location : bool;
  pg_error : option NativeError }.
Definition note_error (error : NativeError) (p : progress) : progress :=
  mkProgress p.(pg_session) p.(pg_account) p.(pg_config) p.(pg_location) (or_else p.(pg_error) (Some error)).
Definition with_session (session : SessionData) (p : progress) : progress :=
  mkProgress session p.(pg_account) p.(pg_config) p.(pg_location) p.(pg_error).

Definition refresh_account_info (now : Z) (p : progress) : RT' progress :=
  let@ '(answer, session) := get_refreshing_session "/vpn/v2" p.(pg_session) in
  match (let? value := answer in account_info value) with
  | Ok info =>
      let session := with_vpn (set_vpninfo info) session in
      persist_session_data session ;;@
      rt_modify (on_state (put_remote_refresh (Some (now + ACCOUNT_REFRESH_INTERVAL)))) ;;@
      rt_ret (mkProgress session true p.(pg_config) p.(pg_location) p.(pg_error))
  | Err error => rt_ret (note_error error (with_session session p))
  end.
Definition refresh_client_config (p : progress) : RT' progress :=
  let@ '(fetched, session) := fetch_client_config p.(pg_session) in
  match fetched with
  | Ok found => save_client_config found ;;@ rt_ret (mkProgress session p.(pg_account) true p.(pg_location) p.(pg_error))
  | Err error => rt_ret (note_error error (with_session session p))
  end.
Definition refresh_due (after : option Z) (now : Z) : bool := match after with Some after => after <=? now | None => true end.
Definition location_due (force refresh_account can_probe : bool) (identity : list string) (now : Z) (s : RuntimeState) : bool :=
  can_probe && (force || ((negb s.(rs_physical_location_known) || negb (bool_decide (s.(rs_location_identity) = Some identity)) || refresh_account)
                          && refresh_due s.(rs_location_retry_after) now)).
Definition refresh_location (identity : list string) (p : progress) : RT' progress :=
  let@ '(answer, session) := get_refreshing_session "/vpn/v1/location" p.(pg_session) in
  match (let? value := answer in location value) with
  | Ok location =>
      let@ unchanged := rt_nm meanwhile (still_physical identity) (fun _ => []) in
      if unchanged : bool then
        let session := with_vpn (set_location location) session in
        persist_session_data session ;;@
        rt_modify (on_state (fun s => put_location_known true (put_location_identity (Some identity) s))) ;;@
        rt_ret (mkProgress session p.(pg_account) p.(pg_config) true p.(pg_error))
      else rt_ret (with_session session p)
  | Err error => rt_ret (note_error error (with_session session p))
  end.
Definition refreshed_answer (force : bool) (p : progress) : NativeResult json :=
  match p.(pg_error) with
  | Some error =>
      if (force && negb p.(pg_account)) || (negb p.(pg_account) && negb p.(pg_config) && negb p.(pg_location)) then Err error
      else Ok (jobj [("account_updated", Bool p.(pg_account)); ("client_config_updated", Bool p.(pg_config)); ("location_updated", Bool p.(pg_location))])
  | None => Ok (jobj [("account_updated", Bool p.(pg_account)); ("client_config_updated", Bool p.(pg_config)); ("location_updated", Bool p.(pg_location))])
  end.
Definition refresh_locked (force : bool) : RT' json :=
  let@ '(session, _) := require_session in
  let@ now := now_ms in
  let@ after := rt_get (fun r => r.(rt_state).(rs_remote_refresh_after)) in
  let refresh_account := force || refresh_due after now in
  let p := mkProgress session false false false None in
  let@ p := (if refresh_account then
               rt_modify (on_state (put_remote_refresh (Some (now + FAILED_REFRESH_INTERVAL)))) ;;@
               let@ p := refresh_account_info now p in refresh_client_config p
             else rt_ret p) in
  let@ '(identity, can_probe) := rt_nm meanwhile look_physical (fun _ => []) in
  let@ p := (match identity with
             | [] => rt_ret p
             | _ =>
                 rt_modify (on_state (fun s => if bool_decide (s.(rs_location_identity) = Some identity) then s else put_location_known false s)) ;;@
                 let@ state := rt_get rt_state in
                 if location_due force refresh_account can_probe identity now state then
                   rt_modify (on_state (put_location_retry (Some (now + FAILED_REFRESH_INTERVAL)))) ;;@
                   refresh_location identity p
                 else rt_ret p
             end) in
  emit_account ;;@ emit_features ;;@ emit_device_location ;;@
  rt_result (refreshed_answer force p).
(** Unless forced it gives up when another task holds [auth_write]. *)
Definition refresh_remote_data (force : bool) : RT' json :=
  if force then auth_locked (refresh_locked true)
  else
    let@ free := rt_get (fun r => an_auth_free r.(rt_world)) in
    if free then with_auth (refresh_locked false) else rt_ret (jobj [("skipped", Bool true)]).

(** What precedes every connection, in a task of its own. *)
Definition connect_preparation : RT' unit :=
  rt_ignore (refresh_remote_data false) ;;@
  ensure_client_config ;;@
  refresh_certificate_if_needed ;;@
  ensure_signed_catalog.

(** ** Looking a server up *)
Definition lookup_answer (canonical : string) (remote : bool) (server : json) : json :=
  jobj [("query", Str canonical); ("remote", Bool remote); ("server", server)].
(** The entry with the server's id is replaced, or the server is added. *)
Fixpoint replace_server (server : LogicalServer) (servers : list LogicalServer) : list LogicalServer :=
  match servers with
  | [] => [server]
  | candidate :: servers =>
      if String.eqb candidate.(ls_id) server.(ls_id) then server :: servers else candidate :: replace_server server servers
  end.
Definition with_server (server : LogicalServer) (c : ServerCatalog) : ServerCatalog :=
  mkCatalog c.(cat_expiration_time) c.(cat_loads_expiration_time) c.(cat_max_tier) (replace_server server c.(cat_logical_servers)) c.(cat_extra).
Definition server_lookup (params : json) : RT' json :=
  let@ canonical := rt_result (ok_or (canonical_server_lookup_query (unwrap_or (jget "query" params ?> as_str) ""))
    (native_invalid_params "query must be a complete Proton server name")) in
  let compact := compact_server_name canonical in
  let@ '(stored, tier) := require_session in
  let@ local := rt_get (fun r => r.(rt_state).(rs_catalog) ?> (fun c => find_first (fun server =>
    (server.(ls_tier) <=? tier) && String.eqb (compact_server_name server.(ls_name)) compact) c.(cat_logical_servers))) in
  match local with
  | Some server => rt_ret (lookup_answer canonical false (Obj (serialized server)))
  | None =>
      let@ found := lookup_server username meanwhile api_meanwhile view_at race_at canonical (stored_api_session stored) in
      match found with
      | None => rt_ret (lookup_answer canonical true Null)
      | Some server =>
          if tier <? server.(ls_tier) then rt_ret (lookup_answer canonical true Null)
          else
            let@ state := rt_get rt_state in
            match state.(rs_catalog) with
            | None => rt_throw catalog_unavailable
            | Some c =>
                rt_modify (on_state (put_catalog (Some (with_server server c)))) ;;@
                rt_ret (lookup_answer canonical true (Obj (serialized server)))
            end
      end
  end.
End Account.
