(* ===== verification/NativeFido.v ===== *)
(** Signing in with a security key ([account_authenticate_fido2], [account_submit_fido2_pin] and [account_cancel_fido2] of
    [agent/src/native_backend/mod.rs], [authenticate] of [fido2.rs], [submit_fido2] of [api.rs]).

    The operation that runs, [fido_operation], is in the class [SecurityKeys] with what its exchange -- the steps of
    [Fido] -- comes to: the statuses that were handled, the device's answer, and the answers of the requests
    that submit a PIN or cancel. *)
From S2P Require Export NativeAccount.
From S2P Require Import Fido CatalogPages.
From S2P Require Export NativeSettings.
Open Scope string_scope.
Open Scope Z_scope.
Open Scope list_scope.
Open Scope rust_scope.

(** How the worker's use of the transport ends: it cannot be used, or the device answered, after the operation was
    cancelled or not. *)
Inductive transport_end : Type :=
  | Unusable (error : device_error)
  | Concluded (cancelled : bool) (answer : result (result device_answer device_error) string).
Class SecurityKeys (W : Type) : Type := mkSecurityKeys {
  (** Whether [fido_operation] holds an operation. *)
  sk_active : W -> bool;
  sk_set_active : bool -> W -> W;
  sk_sign : SignArgs -> W -> list StatusUpdate * transport_end * W;
  (** [FidoOperation::submit_pin] and [FidoOperation::cancel] of the operation that is active. *)
  sk_submit_pin : string -> W -> NativeResult unit * W;
  sk_cancel : W -> NativeResult unit * W }.

Definition authenticate_method : string := "account.authenticate_fido2".
Definition fido2_operation_active : NativeError :=
  NativeError_new "fido2_operation_active" "Security-key authentication is already running".
Definition fido2_not_running : NativeError :=
  NativeError_new "fido2_operation_not_active" "Security-key authentication is not running".
Definition fido2_rejected : NativeError :=
  ne_set_retryable true (NativeError_new "fido2_rejected" "The security key was not accepted").
Definition authentication_expired : NativeError :=
  NativeError_new "authentication_expired" "The pending Proton authentication session expired".
Definition empty_pin : NativeError := NativeError_new "invalid_params" "The security-key PIN cannot be empty".

Section Keys.
Context {W : Type} {N : NetworkManager W} {D : Devices W} {A : AgentLib W} {H : Host W} {U : Startup W}.
Context {NA : ApiNet W} {RN : RecoveryNet W} {AN : AccountNet W} {KR : Keyring W} {SK : SecurityKeys W} {CD : ClientData}.
Context {J : JsonText} {L : IpLib} {C : ServerCrypto} {P : ProfileCrypto} {Cn : Countries} {I : Installed} {AC : AccountCodec} {K : SecretCodec} {T : SearchText}.
Context (username : string) (meanwhile : NativeRuntime W -> NativeRuntime W).
Context (api_meanwhile : ProtonApi W -> ProtonApi W) (view_at : nat -> recovery_view) (race_at : nat -> race).
Abbreviation RT' := (RT (W := W)).

(** [fido2::authenticate]: the statuses handled on the way, and the assertion. *)
Definition fido_authenticate (request : FidoRequest) (w : W) : list StatusUpdate * NativeResult FidoAssertion * W :=
  match client_data request with
  | Err error => ([], Err error, w)
  | Ok data =>
      let '(statuses, e, w) := sk_sign (sign_args request data) w in
      (statuses, match e with
                 | Unusable error => Err (fido_error error)
                 | Concluded cancelled answer => assertion_of request data cancelled answer
                 end, w)
  end.
(** The stages that [handle_status] publishes. *)
Fixpoint publish_statuses (statuses : list StatusUpdate) : RT' unit :=
  match statuses with
  | [] => rt_ret tt
  | status :: statuses =>
      (match (handle_status status).2 with Some name => stage authenticate_method name true | None => rt_ret tt end) ;;@
      publish_statuses statuses
  end.
(** [fido_operation] is filled, the worker runs, and it is emptied whatever the worker answers. *)
Definition set_active (v : bool) : RT' unit := rt_modify (fun r => set_world (sk_set_active v r.(rt_world)) r).
Definition run_authenticate (request : FidoRequest) : RT' (NativeResult FidoAssertion) :=
  set_active true ;;@
  stage authenticate_method "auth.scanning_security_keys" true ;;@
  let@ ended := rt_ext meanwhile (fun w => let '(statuses, answer, w) := fido_authenticate request w in (Ok (statuses, answer), w)) (fun _ => []) in
  publish_statuses ended.1 ;;@
  set_active false ;;@
  rt_ret ended.2.

(** [ProtonApi::submit_fido2]. *)
Definition submit_fido2 (session : ApiSession) (assertion : FidoAssertion) : RT' ApiSession :=
  let@ response := api_call username meanwhile api_meanwhile view_at race_at "POST" "/auth/2fa"
    (Some (jobj [("FIDO2", jobj [
       ("AuthenticationOptions", assertion.(fa_authentication_options));
       ("ClientData", Str (base64_encode assertion.(fa_client_data)));
       ("AuthenticatorData", Str (base64_encode assertion.(fa_authenticator_data)));
       ("Signature", Str (base64_encode assertion.(fa_signature)));
       ("CredentialID", Arr (map jnum assertion.(fa_credential_id)))])])) (Some session) in
  rt_result (
    let? scopes := Api.string_array response "Scopes" in
    Ok (mkApiSession session.(as_uid) session.(as_access_token) session.(as_refresh_token) scopes session.(as_account_name)
          session.(as_credentialless) None)).

Definition account_authenticate_fido2 : RT' json :=
  auth_locked meanwhile (
  let@ active := rt_get (fun r => sk_active r.(rt_world)) in
  if active : bool then rt_throw fido2_operation_active
  else
    let@ pending := rt_get rt_pending_auth in
    let@ session := rt_result (ok_or pending two_factor_not_required) in
    let@ request := rt_result (from_session (B := su_base64) session) in
    let@ answer := run_authenticate request in
    let@ assertion := rt_result answer in
    stage authenticate_method "auth.verifying_security_key" false ;;@
    let@ pending := rt_get rt_pending_auth in
    rt_modify (set_pending_auth None) ;;@
    let@ auth := rt_result (ok_or pending authentication_expired) in
    rt_try (submit_fido2 auth assertion) (fun submitted =>
    match submitted with
    | Err error =>
        (if String.eqb error.(ne_code) "authentication_expired" then rt_ret tt else rt_modify (set_pending_auth (Some auth))) ;;@
        emit_account ;;@ rt_throw (login_error error "security_key")
    | Ok auth =>
        if needs_two_factor auth then rt_modify (set_pending_auth (Some auth)) ;;@ emit_account ;;@ rt_throw fido2_rejected
        else finish_sign_in username meanwhile api_meanwhile view_at race_at auth authenticate_method
    end)).

(** A request to the operation that is running. *)
Definition with_operation {B : Type} (m : RT' B) : RT' B :=
  let@ active := rt_get (fun r => sk_active r.(rt_world)) in
  if active : bool then m else rt_throw fido2_not_running.
Definition account_submit_fido2_pin (params : json) : RT' json :=
  let@ pin := rt_result (take_required_param params "pin" 256 false).1 in
  if is_empty pin then rt_throw empty_pin
  else
    with_operation (rt_ext meanwhile (sk_submit_pin pin) (fun _ => [])) ;;@
    rt_ret (jobj [("submitted", Bool true)]).
Definition account_cancel_fido2 : RT' json :=
  with_operation (rt_ext meanwhile sk_cancel (fun _ => [])) ;;@
  rt_ret (jobj [("cancelled", Bool true)]).
End Keys.
