(* ===== verification/NativeMisc.v ===== *)
(** The remaining requests of the native backend ([agent/src/native_backend/mod.rs]): the link to an upgrade, traffic,
    problem reports and diagnostics. *)
From Stdlib Require Import SpecFloat.
From S2P Require Export NativeAccount NativeFido Support Telemetry Backend.
From S2P Require Launcher.
From S2P Require Import CatalogPages RustStr.
From S2P Require Export NativeSettings.
Open Scope string_scope.
Open Scope Z_scope.
Open Scope list_scope.
Open Scope rust_scope.

Definition ACCOUNT_URL : string := "https://account.protonvpn.com/account".
Definition SIGNUP_URL : string := "https://account.protonvpn.com/signup".
Definition UPGRADE_CHILD_CLIENT_ID : string := "web-account-lite".

(** ** Traffic *)

(** [as u64] of a float: towards zero, saturating, and 0 for a NaN. *)
Definition u64_of_f64 (f : spec_float) : Z :=
  match f with
  | S754_zero _ | S754_nan | S754_infinity true | S754_finite true _ _ => 0
  | S754_infinity false => 2 ^ 64 - 1
  | S754_finite false m e => Z.min (if 0 <=? e then Z.pos m * 2 ^ e else Z.pos m / 2 ^ (- e)) (2 ^ 64 - 1)
  end.
Definition f64_ge (a b : spec_float) : bool := match SFcompare a b with Some Gt | Some Eq => true | _ => false end.
Definition half : spec_float := SFdiv 53 1024 (f64_of_Z 1) (f64_of_Z 2).

(** Bytes per second since the last sample. *)
Definition rate (bytes : Z) (elapsed : spec_float) : Z := u64_of_f64 (SFdiv 53 1024 (f64_of_Z bytes) elapsed).
Definition traffic_rates (sample : option TrafficSample) (now rx tx : Z) : Z * Z :=
  match sample with
  | Some s =>
      let elapsed := as_secs_f64 (now - s.(ts_observed_at)) in
      if f64_ge elapsed half && (s.(ts_rx) <=? rx) && (s.(ts_tx) <=? tx)
      then (rate (rx - s.(ts_rx)) elapsed, rate (tx - s.(ts_tx)) elapsed) else (0, 0)
  | None => (0, 0)
  end.

(** The error of [str::parse::<u64>], which reads from the left. *)
Fixpoint int_error (acc : Z) (s : string) : string :=
  match s with
  | "" => ""
  | String a rest =>
      match digit_value 10 a with
      | None => "invalid digit found in string"
      | Some d => if u64_max <? 10 * acc + d then "number too large to fit in target type" else int_error (10 * acc + d) rest
      end
  end.
Definition parse_u64_error (s : string) : string :=
  if is_empty s then "cannot parse integer from empty string"
  else let digits := match s with String "+"%char r => r | _ => s end in
       if is_empty digits then "invalid digit found in string" else int_error 0 digits.
Definition counter_of (text : result string string) : NativeResult Z :=
  match text with
  | Err error => Err (ne_set_retryable true (ne_with_source error (NativeError_new "traffic_unavailable" "VPN traffic counters are unavailable")))
  | Ok text =>
      ok_or (parse_uint 64 (trim text))
        (ne_with_source (parse_u64_error (trim text)) (NativeError_new "traffic_invalid" "VPN traffic counters are invalid"))
  end.

(** ** Problem reports *)

(** The fields of a report. *)
Definition report_fields (request : ReportRequest) (session : option SessionData) (os : string * string) : list (string * string) :=
  let username := unwrap_or (opt_filter (fun name => negb (is_empty name)) (option_map (fun s => trim s.(sd_account_name)) session)) "Not provided" in
  [("OS", os.1); ("OSVersion", os.2); ("Client", REPORT_CLIENT); ("ClientVersion", REPORT_CLIENT_VERSION); ("ClientType", "2");
   ("Title", REPORT_TITLE); ("Description", report_description request); ("Username", username); ("Email", request.(rr_email))]
  ++ match session with
     | Some s =>
         let location := s.(sd_vpn).(vs_location) in
         (if is_empty (trim location.(vl_isp)) then [] else [("ISP", location.(vl_isp))])
         ++ (if is_empty (trim location.(vl_country)) then [] else [("Country", location.(vl_country))])
     | None => []
     end.
Definition report_files (logs : LogCollection) : list (string * string * string) :=
  imap (fun index a => ("Attachment-" +:+ dec (Z.of_nat index), a.(la_filename), string_of_bytes a.(la_data))) logs.(lc_attachments).
Definition no_logs : LogCollection := mkLogCollection [] [].
Definition report_failed (e : NativeError) : NativeError :=
  ne_set_retryable true (ne_with_source (ne_to_string e) (NativeError_new "report_issue_submit_failed" "Proton could not submit the support report")).
Definition report_answer (request : ReportRequest) (logs : LogCollection) (dry_run : bool) : json :=
  jobj [("sent", Bool (negb dry_run)); ("dry_run", Bool dry_run); ("include_logs", Bool request.(rr_include_logs));
        ("attachment_count", jnum (Z.of_nat (length (report_files logs)))); ("attachment_names", strs_to_json (map la_filename logs.(lc_attachments)));
        ("log_source_count", jnum (if request.(rr_include_logs) then 3 else 0)); ("log_failures", strs_to_json logs.(lc_failures));
        ("category", Str request.(rr_category)); ("field_count", jnum (Z.of_nat (size request.(rr_fields))));
        ("client", Str REPORT_CLIENT); ("title", Str REPORT_TITLE); ("destination", Str "proton_ag")].

(** [/sys/class/net/proton0/statistics] and the variable that makes reports a rehearsal. *)
Class MiscHost (W : Type) : Type := mkMiscHost {
  mh_counter : W -> string -> result string string;
  mh_dry_run : W -> bool }.

Section Misc.
Context {W : Type} {N : NetworkManager W} {D : Devices W} {A : AgentLib W} {H : Host W} {U : Startup W}.
Context {NA : ApiNet W} {RN : RecoveryNet W} {AN : AccountNet W} {KR : Keyring W} {SH : SupportHost W} {MH : MiscHost W}.
Context {J : JsonText} {L : IpLib} {C : ServerCrypto} {P : ProfileCrypto} {Cn : Countries} {I : Installed} {AC : AccountCodec} {K : SecretCodec} {T : SearchText}.
Context (username bundled_categories : string) (meanwhile : NativeRuntime W -> NativeRuntime W) (fuel : nat).
Context (api_meanwhile : ProtonApi W -> ProtonApi W) (view_at : nat -> recovery_view) (race_at : nat -> race).

Abbreviation RT' := (RT (W := W)).
Abbreviation api_get := (api_get username meanwhile api_meanwhile view_at race_at).
Abbreviation api_post := (api_post username meanwhile api_meanwhile view_at race_at).
Abbreviation session_now := (rt_get (fun r : NativeRuntime W => r.(rt_state).(rs_session))).

(** [ProtonApi::public_get] and [post_multipart]. *)
Definition public_get (endpoint : string) : RT' json := api_call username meanwhile api_meanwhile view_at race_at "GET" endpoint None None.
Definition api_upload (endpoint : string) (fields : list (string * string)) (files : list (string * string * string))
    (session : option ApiSession) : RT' json := fun r =>
  let c := an_client r.(rt_world) in
  let '(o, a) := post_multipart api_meanwhile endpoint fields files session
    (mkProtonApi r.(rt_world) c.(cl_enabled) c.(cl_cache) c.(cl_verifying) []) in
  (o, others meanwhile (add_log [ApiAsked "POST" endpoint (outcome_ok o)]
        (set_world (an_set_client (mkApiClient a.(ap_alternative_enabled) a.(ap_cache) a.(ap_verifying) c.(cl_looks)) a.(ap_world)) r))).

Definition link (url : string) (authenticated : bool) : json := jobj [("url", Str url); ("authenticated", Bool authenticated)].
Definition account_upgrade_url (params : json) : RT' json :=
  let modal_source := trim (unwrap_or (jget "modal_source" params ?> as_str) "") in
  if negb (str_forall is_ascii_alphanumeric modal_source) then rt_throw (native_invalid_params "modal_source must be an enum-style token")
  else
    let@ stored := session_now in
    match stored with
    | None => rt_ret (link ACCOUNT_URL false)
    | Some stored =>
        if stored.(sd_credentialless) then rt_ret (link SIGNUP_URL false)
        else
          rt_try (api_post "/auth/v4/sessions/forks"
                    (jobj [("ChildClientID", Str UPGRADE_CHILD_CLIENT_ID); ("Independent", jnum 0)]) (stored_api_session stored)) (fun answer =>
          let selector := opt_filter (fun s => negb (is_empty s))
            (option_map trim (match answer with Ok response => jget "Selector" response ?> as_str | Err _ => None end)) in
          rt_ret (match selector with Some selector => link (upgrade_url selector modal_source) true | None => link ACCOUNT_URL false end))
    end.

Definition read_counter (name : string) : RT' Z := fun r => (Done (counter_of (mh_counter r.(rt_world) name)), r).
Definition traffic : RT' json :=
  let@ o := observe_blocking meanwhile in
  if negb (bool_decide (o.(to_state) = Connected)) then
    rt_modify (on_state (set_rs_traffic None)) ;;@
    emit_connection o None ;;@ emit_features ;;@
    rt_ret (jobj [("known", Bool false)])
  else
    let@ rx := read_counter "rx_bytes" in
    let@ tx := read_counter "tx_bytes" in
    let@ now := rt_get (fun r => ho_now r.(rt_world)) in
    let@ sample := rt_get (fun r => r.(rt_state).(rs_traffic)) in
    let rates := traffic_rates sample now rx tx in
    rt_modify (on_state (set_rs_traffic (Some (mkTrafficSample rx tx now)))) ;;@
    rt_ret (jobj [("known", Bool true); ("download_bytes", jnum rx); ("upload_bytes", jnum tx);
                  ("download_bytes_per_second", jnum rates.1); ("upload_bytes_per_second", jnum rates.2)]).

Definition report_issue_categories : RT' json :=
  let fallback : RT' json :=
    let@ categories := rt_result (fallback_categories bundled_categories) in
    rt_ret (jobj [("categories", Arr categories); ("source", Str "fallback")]) in
  let@ session := session_now in
  match session with
  | None => fallback
  | Some session =>
      rt_try (api_get CATEGORY_ENDPOINT (stored_api_session session)) (fun answer =>
      match (match answer with Ok response => jget "Categories" response | Err _ => None end) with
      | Some categories =>
          match normalize_categories categories with
          | Ok categories => rt_ret (jobj [("categories", Arr categories); ("source", Str "api")])
          | Err _ => fallback
          end
      | None => fallback
      end)
  end.

Definition report_issue_submit (params : json) : RT' json :=
  let@ request := rt_result (report_request params) in
  let@ stored := session_now in
  let@ os := rt_get (fun r => os_release r.(rt_world)) in
  let fields := report_fields request stored os in
  let@ logs := (if request.(rr_include_logs)
                then rt_ext meanwhile (fun w => let '(c, w) := collect_logs w in (Ok c, w)) (fun _ => []) else rt_ret no_logs) in
  let@ dry_run := rt_get (fun r => mh_dry_run r.(rt_world)) in
  (if dry_run : bool then rt_ret tt
   else rt_try (api_upload REPORT_ENDPOINT fields (report_files logs) (option_map stored_api_session stored)) (fun answer =>
        match answer with Ok _ => rt_ret tt | Err error => rt_throw (report_failed error) end)) ;;@
  rt_ret (report_answer request logs dry_run).

Definition attachment_json (a : LogAttachment) : json :=
  jobj [("source", Str a.(la_source)); ("available", Bool true); ("bytes", jnum (Z.of_nat (length a.(la_data))))].
Definition diagnostics : RT' json :=
  let@ '(signed_in, catalog_loaded, client_config_loaded) := rt_get (fun r =>
    (is_some r.(rt_state).(rs_session), is_some r.(rt_state).(rs_catalog), is_some r.(rt_state).(rs_client_config))) in
  let@ o := observe_blocking meanwhile in
  let@ started := rt_get (fun r => ho_now r.(rt_world)) in
  rt_try (within (started + 5000) connection_timeout (public_get "/vpn/v2/clientconfig")) (fun probe =>
  let reachable := is_ok probe in
  let@ logs := rt_ext meanwhile (fun w => let '(c, w) := collect_log_metadata w in (Ok c, w)) (fun _ => []) in
  let@ os := rt_get (fun r => os_release r.(rt_world)) in
  let failures := Z.of_nat (length logs.(lc_failures)) in
  let tunnel_state := tunnel_state_name o.(to_state) in
  let summary := diagnostic_summary (mkDiagnosticSummary os.1 os.2 NATIVE_VERSION signed_in catalog_loaded client_config_loaded
    tunnel_state o.(to_protocol) available_protocols reachable reachable (Z.of_nat (length logs.(lc_attachments))) failures) in
  rt_ret (jobj [("backend", Str "proton_rust"); ("backend_version", Str NATIVE_VERSION); ("signed_in", Bool signed_in);
                ("catalog_loaded", Bool catalog_loaded); ("client_config_loaded", Bool client_config_loaded); ("settings_loaded", Bool true);
                ("connection_observation", Str tunnel_state); ("protocol", jopt Str o.(to_protocol)); ("protocols", strs_to_json available_protocols);
                ("api_reachable", Bool reachable); ("tls_pin_verified", Bool reachable); ("sources", Arr (map attachment_json logs.(lc_attachments)));
                ("failure_count", jnum failures); ("failures", strs_to_json logs.(lc_failures)); ("raw_contents_exposed", Bool false);
                ("summary", Str summary)])).
End Misc.

(** ** What the answers are made of *)
Lemma u64_of_f64_bounds f : 0 <= u64_of_f64 f < 2 ^ 64.
Proof.
  unfold u64_of_f64. destruct f as [[]|[]| |[] m e]; try lia. destruct (0 <=? e) eqn:E.
  - assert (0 <= 2 ^ e) by (apply Z.pow_nonneg; lia). lia.
  - assert (0 <= Z.pos m / 2 ^ (- e)) by (apply Z.div_pos; [lia|apply Z.pow_pos_nonneg; lia]). lia.
Qed.
(** Rates are 64-bit integers; they are zero without an earlier sample, within half a second of it, and when a counter went back. *)
Lemma traffic_rates_bounds sample now rx tx :
  0 <= (traffic_rates sample now rx tx).1 < 2 ^ 64 /\ 0 <= (traffic_rates sample now rx tx).2 < 2 ^ 64 /\
  (forall s, sample = Some s -> rx < s.(ts_rx) \/ tx < s.(ts_tx) -> traffic_rates sample now rx tx = (0, 0)).
Proof.
  unfold traffic_rates. destruct sample as [s|]; [|split; [cbn; lia|split; [cbn; lia|discriminate]]].
  split; [|split]; [destruct (_ && _); cbn [fst]; [apply u64_of_f64_bounds|lia]|destruct (_ && _); cbn [snd]; [apply u64_of_f64_bounds|lia]|].
  intros s' [= <-] Hlt. destruct (f64_ge _ _ && (ts_rx s <=? rx)) eqn:E1; cbn [andb]; [|done].
  apply andb_true_iff in E1 as [_ E1]. by replace (ts_tx s <=? tx) with false by lia.
Qed.
Lemma string_of_bytes_length bytes : String.length (string_of_bytes bytes) = length bytes.
Proof. unfold string_of_bytes. induction bytes as [|b bytes IH]; [done|]. exact (f_equal S IH). Qed.
(** A counter that is read is a 64-bit integer. *)
Lemma counter_bounds text v : counter_of text = Ok v -> 0 <= v < 2 ^ 64.
Proof.
  unfold counter_of. destruct text as [text|e]; [|discriminate]. unfold parse_uint. destruct (is_empty _); [discriminate|].
  destruct (digits_value 10 0 _) as [z|]; [|discriminate]. unfold u_try_from, in_u. destruct (_ && _) eqn:E; [|discriminate].
  cbn. intros [= <-]. lia.
Qed.

(** A problem report carries what the user agreed to and no more.  A request that is accepted has a category, a valid
    address and at most 32 fields of bounded length; logs are collected only if the user asked for them in so many words,
    and then each of the three journals is either attached, at most its last 2 MiB, or listed as missing; a report without
    consent has no attachment, whatever the journals hold. *)
Theorem reports_are_bounded {W : Type} {SH : SupportHost W} params request (w : W) :
  report_request params = Ok request ->
  report_ok request /\
  (let logs := if request.(rr_include_logs) then (collect_logs w).1 else no_logs in
   (report_files logs <> [] -> jget "include_logs" params = Some (Bool true)) /\
   (request.(rr_include_logs) = true -> (length (report_files logs) + length logs.(lc_failures))%nat = 3%nat) /\
   Forall (fun f => str_len f.2 <= MAX_LOG_BYTES) (report_files logs)).
Proof.
  intros Hr. destruct (report_request_ok params request Hr) as [Hok Hlogs]. split; [done|]. cbn zeta.
  destruct (rr_include_logs request) eqn:E; [|split; [done|split; [discriminate|constructor]]].
  destruct (collected_logs_ok REPORT_LOG_LINES w) as [Hn Hf]. fold (collect_logs w) in Hn, Hf. split; [by intros _; apply Hlogs|].
  unfold report_files. rewrite length_imap. split; [done|]. apply Forall_forall. intros f Hin.
  apply elem_of_lookup_imap in Hin as (i & a & -> & Ha). cbn [snd]. rewrite Forall_forall in Hf.
  unfold str_len. rewrite string_of_bytes_length. cbn beta in Hf. by eapply Hf, list_elem_of_lookup_2.
Qed.

(** ** A report with logs, on a host whose second journal cannot be read *)
Definition sample_journals : SupportHost unit :=
  mkSupportHost unit (fun _ => None) (fun _ args w =>
    (if bool_decide ("NetworkManager" ∈ args) then Ok (false, [], []) else Ok (true, [108; 111; 103], []), w)).
Definition sample_report : json :=
  jobj [("category", Str "Other"); ("email", Str "a@b.ch"); ("fields", jobj [(" What? ", Str "It stopped.")]); ("include_logs", Bool true)].
Definition sample_request : ReportRequest := match report_request sample_report with Ok r => r | Err _ => mkReportRequest "" "" ∅ false end.
Lemma reports_are_bounded_witness :
  report_request sample_report = Ok sample_request /\ report_ok sample_request /\
  map fst (report_files (collect_logs (SH := sample_journals) tt).1) =
    [("Attachment-0", "ProtonOmarchyAgent.log"); ("Attachment-1", "SplitTunneling.log")].
Proof.
  assert (H : report_request sample_report = Ok sample_request) by (vm_compute; reflexivity).
  split; [exact H|]. split; [|vm_compute; reflexivity]. exact (proj1 (reports_are_bounded (SH := sample_journals) sample_report sample_request tt H)).
Defined.

(** ** Dispatch

    [prepare] is the refreshing that precedes a connection, [cancel_recovery] the cancellation of a recovery
    ([GuestHole::cancel]), which the recovery sees at its next look. *)
Section Dispatch.
Context {W : Type} {N : NetworkManager W} {D : Devices W} {A : AgentLib W} {H : Host W} {U : Startup W}.
Context {NA : ApiNet W} {RN : RecoveryNet W} {AN : AccountNet W} {KR : Keyring W} {SK : SecurityKeys W} {CD : Fido.ClientData} {SH : SupportHost W} {MH : MiscHost W}.
Context {J : JsonText} {L : IpLib} {C : ServerCrypto} {P : ProfileCrypto} {Cn : Countries} {I : Installed} {AC : AccountCodec} {K : SecretCodec} {T : SearchText}.
Context {F : Launcher.FileTree} {UL : Launcher.Urls} {PR : Launcher.Programs W}.
Context (username bundled_categories settings_path settings_temp : string) (meanwhile : NativeRuntime W -> NativeRuntime W) (fuel : nat).
Context (api_meanwhile : ProtonApi W -> ProtonApi W) (view_at : nat -> recovery_view) (race_at : nat -> race).
Context (prepare : RuntimeState -> W -> NativeResult unit * RuntimeState * W) (cancel_recovery : W -> W).

Abbreviation RT' := (RT (W := W)).

Definition account_get : RT' json :=
  emit_account ;;@ emit_features ;;@ rt_get (fun r => jobj [("logged_in", Bool (is_some r.(rt_state).(rs_session)))]).
Definition guest_hole_cancel : RT' json :=
  rt_modify (fun r => set_world (cancel_recovery r.(rt_world)) r) ;;@ rt_ret (jobj [("cancelled", Bool true)]).
Definition locations_get : RT' json :=
  let@ '(_, tier) := require_session in
  let@ state := rt_get rt_state in
  let@ c := rt_result (ok_or state.(rs_catalog) catalog_unavailable) in
  rt_ret (locations c tier).
Definition servers_get (params : json) : RT' json :=
  let@ '(_, tier) := require_session in
  let@ state := rt_get rt_state in
  let@ c := rt_result (ok_or state.(rs_catalog) catalog_unavailable) in
  rt_result (servers_page c params tier).
Definition apps_get (params : json) : RT' json := rt_wait meanwhile ;;@ rt_result (Launcher.list_apps params).
Definition system_launch (params : json) : RT' json :=
  rt_ext meanwhile (fun w => let '(r, d) := Launcher.launch params (w, []) in (r, d.1)) (fun _ => []).

Definition handlers (params : json) : list (string * RT' json) := [
  ("account.get", account_get);
  ("account.retry_restore", restore_session username meanwhile fuel);
  ("account.refresh", refresh_remote_data username meanwhile api_meanwhile view_at race_at true);
  ("guest_hole.cancel", guest_hole_cancel);
  ("account.upgrade_url", account_upgrade_url username meanwhile api_meanwhile view_at race_at params);
  ("report_issue.categories.get", report_issue_categories username bundled_categories meanwhile api_meanwhile view_at race_at);
  ("report_issue.submit", report_issue_submit meanwhile api_meanwhile params);
  ("account.login", account_login username meanwhile api_meanwhile view_at race_at params);
  ("account.submit_2fa", account_submit_2fa username meanwhile api_meanwhile view_at race_at params);
  ("account.authenticate_fido2", account_authenticate_fido2 username meanwhile api_meanwhile view_at race_at);
  ("account.submit_fido2_pin", account_submit_fido2_pin meanwhile params);
  ("account.cancel_fido2", account_cancel_fido2 meanwhile);
  ("account.logout", account_logout username meanwhile fuel api_meanwhile view_at race_at);
  ("locations.get", locations_get);
  ("servers.get", servers_get params);
  ("servers.lookup", server_lookup username meanwhile api_meanwhile view_at race_at params);
  ("protocol.set", protocol_set meanwhile settings_path settings_temp params);
  ("feature.set", feature_set username meanwhile fuel settings_path settings_temp params);
  ("dns.set", dns_set meanwhile settings_path settings_temp params);
  ("apps.get", apps_get params);
  ("system.launch", system_launch params);
  ("split_tunneling.set", split_tunneling_set meanwhile settings_path settings_temp params);
  ("connection.observe", connection_observe meanwhile);
  ("connection.connect", connection_connect username meanwhile fuel prepare params);
  ("connection.cancel", connection_cancel username meanwhile fuel);
  ("connection.disconnect", connection_disconnect username meanwhile fuel);
  ("connection.feedback", connection_feedback params);
  ("netshield.stats.get", netshield_stats meanwhile);
  ("traffic.get", traffic meanwhile);
  ("diagnostics.get", diagnostics username meanwhile api_meanwhile view_at race_at)].
Definition not_migrated (method : string) : NativeError :=
  NativeError_new "native_method_pending" (method +:+ " has not migrated to the Rust backend yet").
Definition dispatch (method : string) (params : json) : RT' json :=
  match params with
  | Obj _ | Null =>
      match find_first (fun handler => String.eqb handler.1 method) (handlers params) with
      | Some (_, handler) => handler
      | None => rt_throw (not_migrated method)
      end
  | _ => rt_throw (NativeError_new "invalid_params" "params must be a JSON object")
  end.

(** Every method that clients are told of is handled but one, which is a capability; and nothing else is handled. *)
Definition ADVERTISED_ONLY : string := "connection.network_conflict_detection".
Theorem advertised_methods_handled params : forall method,
  (supports Native method = true /\ method <> ADVERTISED_ONLY) <-> exists handler, find_first (fun h => String.eqb h.1 method) (handlers params) = Some (method, handler).
Proof.
  intros method. split.
  - intros [Hs Hn]. unfold supports in Hs. apply existsb_exists in Hs as (m & Hin & ->%String.eqb_eq).
    assert (Hall : forallb (fun m => String.eqb m ADVERTISED_ONLY || existsb (fun h => String.eqb h m) (map fst (handlers params))) NATIVE_METHODS = true)
      by reflexivity.
    rewrite forallb_forall in Hall. specialize (Hall m Hin). apply orb_true_iff in Hall as [->%String.eqb_eq|Hh]; [done|].
    apply existsb_exists in Hh as (name & ((n & handler) & <- & Hh)%in_map_iff & He%String.eqb_eq). cbn in He. subst n.
    destruct (find_first (fun h => String.eqb h.1 m) (handlers params)) as [[n found]|] eqn:Ef.
    + pose proof Ef as [_ Hm%String.eqb_eq]%find_first_Some. cbn in Hm. subst n. by exists found.
    + rewrite find_first_None, Forall_forall in Ef. specialize (Ef (m, handler)). cbn in Ef. rewrite String.eqb_refl in Ef.
      discriminate Ef. by apply list_elem_of_In.
  - intros [handler Hf]. apply find_first_Some in Hf as [Hin%list_elem_of_In _]. apply (in_map fst) in Hin. cbn [fst] in Hin.
    assert (Hall : forallb (fun m => negb (String.eqb m ADVERTISED_ONLY) && supports Native m) (map fst (handlers params)) = true) by reflexivity.
    rewrite forallb_forall in Hall. specialize (Hall method Hin). apply andb_true_iff in Hall as [Hn Hs]. split; [exact Hs|].
    intros ->. discriminate Hn.
Qed.
(** What a client gets for the method that has no handler, though [hello] offers it. *)
Lemma advertised_method_fails r : supports Native ADVERTISED_ONLY = true /\
  dispatch ADVERTISED_ONLY Null r = (Done (Err (not_migrated ADVERTISED_ONLY)), r).
Proof. by split. Qed.
End Dispatch.
