(* ===== verification/AccountLaws.v ===== *)
(** What the account's handlers leave alone, and what they promise about the session.

    [steady good allow m]: under [auth_write] the run [m] changes neither the session nor the sign-in that waits,
    all its actions are allowed, and if it succeeds they are good.  [follows] says that the session in memory is
    what the keyring was last told. *)
From S2P Require Export NativeAccount.
From S2P Require Import CatalogPages.
From S2P Require Export NativeSettings.
Open Scope string_scope.
Open Scope Z_scope.
Open Scope list_scope.
Open Scope rust_scope.

Section Steady.
Context {W : Type} {N : NetworkManager W} {D : Devices W} {A : AgentLib W} {H : Host W} {U : Startup W}.
Context {NA : ApiNet W} {RN : RecoveryNet W} {AN : AccountNet W} {KR : Keyring W}.
Context {J : JsonText} {L : IpLib} {C : ServerCrypto} {P : ProfileCrypto} {Cn : Countries} {I : Installed} {AC : AccountCodec} {K : SecretCodec} {T : SearchText}.
Context (username : string) (meanwhile : NativeRuntime W -> NativeRuntime W) (fuel : nat).
Context (api_meanwhile : ProtonApi W -> ProtonApi W) (view_at : nat -> recovery_view) (race_at : nat -> race).
Abbreviation RT' := (RT (W := W)).

(** From [r] to [r'] only actions with the property were added; session, pending sign-in and lock are the same. *)
Record kept (allow : action -> Prop) (r r' : NativeRuntime W) : Prop := mkKept {
  kp_auth : r'.(rt_locks).(lk_auth) = r.(rt_locks).(lk_auth);
  kp_session : r'.(rt_state).(rs_session) = r.(rt_state).(rs_session);
  kp_pending : r'.(rt_pending_auth) = r.(rt_pending_auth);
  kp_log : exists l, r'.(rt_log) = r.(rt_log) ++ l /\ Forall allow l }.

Lemma kept_refl allow r : kept allow r r.
Proof. split; [done..|]. exists []. by rewrite app_nil_r. Qed.
Lemma kept_trans allow r r' r'' : kept allow r r' -> kept allow r' r'' -> kept allow r r''.
Proof.
  intros [A1 S1 P1 (l1 & L1 & F1)] [A2 S2 P2 (l2 & L2 & F2)]. split; [congruence..|].
  exists (l1 ++ l2). rewrite L2, L1, <- app_assoc. by rewrite Forall_app.
Qed.
Lemma kept_weaken (allow allow' : action -> Prop) r r' : (forall a, allow a -> allow' a) -> kept allow r r' -> kept allow' r r'.
Proof. intros Ha [A1 S1 P1 (l & L1 & F)]. split; [done..|]. exists l. split; [done|]. eapply Forall_impl; [exact F|done]. Qed.

Definition steady (good allow : action -> Prop) {B : Type} (m : RT' B) : Prop :=
  forall r, r.(rt_locks).(lk_auth) = true -> kept allow r (m r).2 /\ (outcome_ok (m r).1 = true -> kept good r (m r).2).

Lemma kept_others allow r : r.(rt_locks).(lk_auth) = true -> kept allow r (others meanwhile r).
Proof.
  intros Ha. unfold others. split; cbn; rewrite ?Ha; try done.
  - destruct (if lk_settings (rt_locks r) then _ else _). reflexivity.
  - exists []. by rewrite app_nil_r.
Qed.
Lemma kept_log (allow : action -> Prop) r l : Forall allow l -> kept allow r (add_log l r).
Proof. intros Hl. destruct r. split; [done..|]. by exists l. Qed.
Lemma kept_world allow r w : kept allow r (set_world w r).
Proof. destruct r. split; [done..|]. exists []. by rewrite app_nil_r. Qed.
(** The step of every call that waits. *)
Lemma kept_call allow r w l : r.(rt_locks).(lk_auth) = true -> Forall allow l -> kept allow r (others meanwhile (add_log l (set_world w r))).
Proof.
  intros Ha Hl. eapply kept_trans; [apply (kept_world _ r w)|]. eapply kept_trans; [by apply kept_log|]. apply kept_others. by destruct r.
Qed.

Section Rules.
Context (good allow : action -> Prop) {B B' : Type}.
Implicit Types (m : RT' B) (k : B -> RT' B').

Lemma steady_same m : (forall r, kept good r (m r).2 /\ kept allow r (m r).2) -> steady good allow m.
Proof. intros Hm r _. by destruct (Hm r). Qed.
Lemma steady_pure m : (forall r, (m r).2 = r) -> steady good allow m.
Proof. intros Hm. apply steady_same. intros r. rewrite Hm. split; apply kept_refl. Qed.
Lemma steady_bind m k : steady good allow m -> (forall b, steady good allow (k b)) -> steady good allow (rt_bind m k).
Proof.
  intros Hm Hk r Ha. unfold rt_bind. destruct (Hm r Ha) as [M1 M2]. destruct (m r) as [[[b|e]|] r1]; cbn in *; [|by split..].
  specialize (M2 eq_refl). destruct (Hk b r1) as [K1 K2]; [by rewrite (kp_auth _ _ _ M1)|].
  split; [by eapply kept_trans|]. intros Ho. eapply kept_trans; [exact M2|by apply K2].
Qed.
Lemma steady_try m (k : NativeResult B -> RT' B') :
  (forall a, good a -> allow a) -> steady good good m -> (forall b, steady good allow (k b)) -> steady good allow (rt_try m k).
Proof.
  intros Hg Hm Hk r Ha. unfold rt_try. destruct (Hm r Ha) as [M1 _]. destruct (m r) as [[b|] r1]; cbn in *.
  - destruct (Hk b r1) as [K1 K2]; [by rewrite (kp_auth _ _ _ M1)|]. split.
    + eapply kept_trans; [by eapply kept_weaken|exact K1].
    + intros Ho. eapply kept_trans; [exact M1|by apply K2].
  - split; [by eapply kept_weaken|done].
Qed.
Lemma steady_ext (f : W -> NativeResult B * W) entry :
  (forall ok, Forall allow (entry ok)) -> Forall good (entry true) -> steady good allow (rt_ext meanwhile f entry).
Proof.
  intros Hl Hg r Ha. unfold rt_ext. destruct (f (rt_world r)) as [b w]. cbn. split; [by apply kept_call|].
  intros Ho. apply kept_call; [done|]. by replace (is_ok b) with true by by destruct b.
Qed.
Lemma steady_nm (f : NM (W := W) B) entry :
  (forall ok, Forall allow (entry ok)) -> Forall good (entry true) -> steady good allow (rt_nm meanwhile f entry).
Proof.
  intros Hl Hg r Ha. unfold rt_nm. destruct (f (rt_world r)) as [[o w] s]. cbn. split; [by apply kept_call|].
  intros Ho. apply kept_call; [done|]. by rewrite Ho.
Qed.
End Rules.

Lemma steady_weaken (good good' allow allow' : action -> Prop) {B : Type} (m : RT' B) :
  (forall a, good a -> good' a) -> (forall a, allow a -> allow' a) -> steady good allow m -> steady good' allow' m.
Proof.
  intros Hg Ha Hm r Hr. destruct (Hm r Hr) as [M1 M2]. split; [by eapply kept_weaken|]. intros Ho. eapply kept_weaken; [exact Hg|by apply M2].
Qed.
Lemma steady_log (good allow : action -> Prop) a : good a -> allow a -> steady good allow (rt_log_action (W := W) a).
Proof. intros Hg Ha. apply steady_same. intros r. split; (apply kept_log; by constructor). Qed.
Lemma steady_modify good allow f :
  (forall r : NativeRuntime W, (f r).(rt_locks) = r.(rt_locks) /\ (f r).(rt_state).(rs_session) = r.(rt_state).(rs_session) /\
     (f r).(rt_pending_auth) = r.(rt_pending_auth) /\ (f r).(rt_log) = r.(rt_log)) -> steady good allow (rt_modify f).
Proof.
  intros Hf. apply steady_same. intros r. destruct (Hf r) as (E1 & E2 & E3 & E4).
  split; (split; cbn; [by rewrite E1|done|done|exists []; by rewrite E4, app_nil_r]).
Qed.
Lemma steady_within good allow {B : Type} deadline late (m : RT' B) :
  (forall a, good a -> allow a) -> steady good good m -> steady good allow (within deadline late m).
Proof. intros Hg Hm. unfold within. apply steady_try; [done..|]. intros b. by apply steady_pure. Qed.
Lemma steady_wait good allow : steady good allow (rt_wait meanwhile).
Proof. intros r Ha. by split; [|intros _]; apply kept_others. Qed.
Lemma steady_network good allow {B : Type} (m : RT' B) : steady good allow m -> steady good allow (with_network m).
Proof.
  intros Hm r Ha. unfold with_network. destruct (lk_network _); [split; [apply kept_refl|done]|].
  destruct (Hm (hold_network true r)) as [M1 M2]; [by destruct r|].
  assert (forall allow r', kept allow (hold_network true r) r' -> kept allow r (hold_network false r')) as Hh.
  { intros allow' r' [A1 S1 P1 L1]. by destruct r, r'. }
  destruct (m (hold_network true r)) as [o r']; cbn in *. split; [by apply Hh|]. intros Ho. by apply Hh, M2.
Qed.
End Steady.

(** Actions that concern neither the account nor the end of a tunnel. *)
Definition quiet_action (a : action) : bool :=
  match a with
  | SecretSaved _ _ | SecretDeleted _ _ | CacheSaved _ _ | CacheRemoved _ _ | ApiAsked _ _ _ | SessionRevoked _ | Deactivated _ _ => false
  | _ => true
  end.
Definition secret_action (a : action) : bool := match a with SecretSaved _ _ | SecretDeleted _ _ => true | _ => false end.

Create HintDb steady.
(** Walks through a handler; what is left are the operations with lemmas of their own. *)
Ltac steady_step :=
  lazymatch goal with
  | |- steady _ _ (rt_bind _ _) => apply steady_bind; [|intros ?]
  | |- steady _ _ (rt_try _ _) => apply steady_try; [by auto| |intros ?]
  | |- steady _ _ (rt_ignore _) => unfold rt_ignore
  | |- steady _ _ (rt_ret _) => by apply steady_pure
  | |- steady _ _ (rt_throw _) => by apply steady_pure
  | |- steady _ _ (rt_result _) => by apply steady_pure
  | |- steady _ _ (rt_get _) => by apply steady_pure
  | |- steady _ _ require_session => by apply steady_pure
  | |- steady _ _ unix_time => by apply steady_pure
  | |- steady _ _ unix_seconds => by apply steady_pure
  | |- steady _ _ (rt_log_action _) => apply steady_log; by auto
  | |- steady _ _ (stage _ _ _) => unfold stage
  | |- steady _ _ (stage_auth _) => unfold stage_auth
  | |- steady _ _ (emit _ _) => unfold emit
  | |- steady _ _ (rt_modify _) => apply steady_modify; by intros [? [] ? ? ? ? ? ? ? ? ? ? ? ?]
  | |- steady _ _ (rt_wait _) => apply steady_wait
  | |- steady _ _ (rt_ext _ _ _) => apply steady_ext; [intros []|]; repeat constructor; by auto
  | |- steady _ _ (rt_nm _ _ _) => apply steady_nm; [intros []|]; repeat constructor; by auto
  | |- steady _ _ (with_network _) => apply steady_network
  | |- steady _ _ (within _ _ _) => apply steady_within; [by auto|]
  | |- steady _ _ (match ?x with _ => _ end) => destruct x
  | |- steady _ _ (let _ := _ in _) => cbv zeta
  | |- steady _ _ _ => by auto with steady
  end.
Ltac steady := repeat steady_step.

Section Operations.
Context {W : Type} {N : NetworkManager W} {D : Devices W} {A : AgentLib W} {H : Host W} {U : Startup W}.
Context {NA : ApiNet W} {RN : RecoveryNet W} {AN : AccountNet W} {KR : Keyring W}.
Context {J : JsonText} {L : IpLib} {C : ServerCrypto} {P : ProfileCrypto} {Cn : Countries} {I : Installed} {AC : AccountCodec} {K : SecretCodec} {T : SearchText}.
Context (username : string) (meanwhile : NativeRuntime W -> NativeRuntime W) (fuel : nat).
Context (api_meanwhile : ProtonApi W -> ProtonApi W) (view_at : nat -> recovery_view) (race_at : nat -> race).
Context (good allow : action -> Prop) (Hga : forall a, good a -> allow a) (Hquiet : forall a, quiet_action a = true -> good a).

Abbreviation steady' := (steady (W := W) good allow).
Local Hint Resolve Hga Hquiet : core.

Lemma steady_observe : steady' (observe_blocking meanwhile).
Proof. unfold observe_blocking. steady. Qed.
Lemma observed_session o protocol now (s : RuntimeState) :
  (after_observation o (with_feedback now o protocol (with_guess o s))).(rs_session) = s.(rs_session).
Proof. unfold after_observation, with_feedback, with_guess. destruct s. repeat (case_match; cbn in * ); subst; try done; congruence. Qed.
Lemma steady_connection o error : steady' (emit_connection o error).
Proof.
  apply steady_same. intros r. unfold emit_connection. cbn [snd].
  assert (forall allow l, Forall allow l -> kept allow r (add_log l (set_rt_state
    (after_observation o (with_feedback (ho_now (rt_world r)) o (unwrap_or o.(to_protocol) (normalized_protocol (with_guess o r.(rt_state)).(rs_settings).(ns_protocol)))
       (with_guess o r.(rt_state)))) r))) as Hk.
  { intros allow' l Hl. eapply kept_trans; [|by apply kept_log]. split; [by destruct r| |by destruct r|].
    - destruct r as [w s]. cbn. apply observed_session.
    - exists []. rewrite app_nil_r. by destruct r. }
  split; apply Hk; constructor; auto; unfold queued_feedback; repeat case_match; repeat constructor; by auto.
Qed.
Lemma steady_features : steady' emit_features.
Proof. apply steady_same. intros r. split; apply kept_log; repeat constructor; by auto. Qed.
Lemma steady_account : steady' emit_account.
Proof. apply steady_same. intros r. split; apply kept_log; repeat constructor; by auto. Qed.
Lemma steady_device_location : steady' emit_device_location.
Proof.
  apply steady_same. intros r. unfold emit_device_location. cbn. destruct (rs_session _); [|split; apply kept_refl].
  split; apply kept_log; repeat constructor; by auto.
Qed.
Lemma steady_statistics : steady' flush_statistics_queue.
Proof.
  apply steady_same. intros r. unfold flush_statistics_queue. cbn. destruct (_ && _); [|split; apply kept_refl].
  split; apply kept_log; repeat constructor; by auto.
Qed.
Lemma steady_split action call : steady' (split_method meanwhile action call).
Proof. unfold split_method. steady. Qed.

(** ** Teardown *)
Lemma steady_policy settings : steady' (apply_destination_policy meanwhile settings).
Proof. unfold apply_destination_policy. pose proof steady_split. steady. Qed.
Lemma steady_restore : steady' (restore_global_destination_policy meanwhile).
Proof. unfold restore_global_destination_policy. pose proof steady_policy. steady. Qed.
Lemma steady_bypass settings tunnel_active : steady' (reconcile_split_kill_switch_bypass meanwhile settings tunnel_active).
Proof. unfold reconcile_split_kill_switch_bypass. pose proof steady_split. steady. Qed.
Lemma steady_stop : steady' stop_local_agent.
Proof.
  apply steady_same. intros r. unfold stop_local_agent, rt_modify. cbn.
  split; (eapply kept_trans; [|apply kept_log; constructor; [by auto|done]]); destruct r; (split; [done..|exists []; by rewrite app_nil_r]).
Qed.
Lemma steady_kill_switch mode tunnel_active ip leak : steady' (kill_switch_run username meanwhile fuel mode tunnel_active ip leak).
Proof. unfold kill_switch_run. steady. Qed.

Context (Hdown : forall uuid, good (Deactivated uuid true)) (Hdown' : forall uuid, allow (Deactivated uuid false)).
Lemma steady_deactivate uuid : steady' (disconnect_uuid_run meanwhile uuid).
Proof. unfold disconnect_uuid_run. apply steady_nm; [intros []|]; repeat constructor; auto. Qed.
Lemma steady_disconnect : steady' (disconnect_inner username meanwhile fuel).
Proof.
  pose proof steady_bypass. pose proof steady_restore. pose proof steady_stop. pose proof steady_kill_switch.
  pose proof steady_observe. pose proof steady_connection. pose proof steady_features. pose proof steady_deactivate.
  unfold disconnect_inner, disconnect_owned_inner, take_down. steady.
Qed.
End Operations.

Section ApiOperations.
Context {W : Type} {N : NetworkManager W} {D : Devices W} {A : AgentLib W} {H : Host W} {U : Startup W}.
Context {NA : ApiNet W} {RN : RecoveryNet W} {AN : AccountNet W} {KR : Keyring W}.
Context {J : JsonText} {L : IpLib} {C : ServerCrypto} {P : ProfileCrypto} {Cn : Countries} {I : Installed} {AC : AccountCodec} {K : SecretCodec} {T : SearchText}.
Context (username : string) (meanwhile : NativeRuntime W -> NativeRuntime W) (fuel : nat).
Context (api_meanwhile : ProtonApi W -> ProtonApi W) (view_at : nat -> recovery_view) (race_at : nat -> race).
(** Everything but a change of the keyring. *)
Abbreviation harmless := (fun a => secret_action a = false).
Abbreviation steady' := (steady (W := W) harmless harmless).

Lemma quiet_harmless a : quiet_action a = true -> harmless a. Proof. by destruct a. Qed.
Local Hint Resolve quiet_harmless : core.

Lemma steady_api method endpoint body session : steady' (api_call username meanwhile api_meanwhile view_at race_at method endpoint body session).
Proof.
  intros r Ha. unfold api_call. destruct (GuestHole.request _ _ _ _ _ _ _ _ _) as [o h]. cbn.
  split; [|intros _]; apply kept_call; try done; by constructor.
Qed.
Local Hint Resolve steady_api : steady.
Lemma steady_refresh session : steady' (api_refresh username meanwhile api_meanwhile view_at race_at session).
Proof. unfold api_refresh. steady. Qed.
Lemma steady_get endpoint session : steady' (api_get username meanwhile api_meanwhile view_at race_at endpoint session).
Proof. apply steady_api. Qed.
Lemma steady_post endpoint body session : steady' (api_post username meanwhile api_meanwhile view_at race_at endpoint body session).
Proof. apply steady_api. Qed.
Local Hint Resolve steady_refresh steady_get steady_post : steady.
Lemma steady_revoke session : steady' (revoke username meanwhile api_meanwhile view_at race_at session).
Proof. unfold revoke, api_logout. steady. Qed.
Lemma steady_submit session code : steady' (submit_2fa username meanwhile api_meanwhile view_at race_at session code).
Proof. unfold submit_2fa. steady. Qed.
Lemma steady_authenticate account password : steady' (authenticate username meanwhile api_meanwhile view_at race_at account password).
Proof. unfold authenticate. steady. Qed.
Lemma steady_sso account : steady' (authenticate_sso username meanwhile api_meanwhile view_at race_at account).
Proof. unfold authenticate_sso. steady. Qed.
Lemma steady_fetch_catalog auth tier : steady' (fetch_catalog username meanwhile api_meanwhile view_at race_at auth tier).
Proof. unfold fetch_catalog. steady. Qed.
Local Hint Resolve steady_revoke steady_submit steady_authenticate steady_sso steady_fetch_catalog : steady.
Lemma steady_location auth : steady' (fetch_location username meanwhile api_meanwhile view_at race_at auth).
Proof. unfold fetch_location. steady. Qed.
Local Hint Resolve steady_location : steady.
Lemma steady_fetch auth settings : steady' (fetch username meanwhile api_meanwhile view_at race_at auth settings).
Proof. unfold fetch, join4. steady. Qed.
Lemma steady_certificate session settings : steady' (refresh_certificate username meanwhile api_meanwhile view_at race_at session settings).
Proof. unfold refresh_certificate. steady. Qed.
Lemma steady_feedback_flag : steady' (refresh_connection_feedback_flag username meanwhile api_meanwhile view_at race_at).
Proof.
  unfold refresh_connection_feedback_flag. pose proof (fun good => steady_features (W := W) good good (fun _ x => x)). steady.
Qed.
Lemma steady_save_cache what value : steady' (save_cache meanwhile what value).
Proof. unfold save_cache. apply steady_ext; [intros []|]; by repeat constructor. Qed.
Lemma steady_remove_cache what : steady' (remove_cache_file meanwhile what).
Proof. unfold remove_cache_file. apply steady_ext; [intros []|]; by repeat constructor. Qed.
End ApiOperations.

(** ** The session and the keyring *)

(** What the keyring was last told, given what it held. *)
Definition keyring_effect (held : option SessionData) (a : action) : option SessionData :=
  match a with
  | SecretSaved session true => Some session
  | SecretDeleted _ true => None
  | _ => held
  end.
Definition told (held : option SessionData) (l : list action) : option SessionData := foldl keyring_effect held l.
Lemma told_app held l l' : told held (l ++ l') = told (told held l) l'.
Proof. apply foldl_app. Qed.
Lemma told_harmless held l : Forall (fun a => secret_action a = false) l -> told held l = held.
Proof. induction 1 as [|a l Ha _ IH]; [done|]. cbn. by destruct a. Qed.

Section Follows.
Context {W : Type} {N : NetworkManager W} {D : Devices W} {A : AgentLib W} {H : Host W} {U : Startup W}.
Context {NA : ApiNet W} {RN : RecoveryNet W} {AN : AccountNet W} {KR : Keyring W}.
Context {J : JsonText} {L : IpLib} {C : ServerCrypto} {P : ProfileCrypto} {Cn : Countries} {I : Installed} {AC : AccountCodec} {K : SecretCodec} {T : SearchText}.
Context (username : string) (meanwhile : NativeRuntime W -> NativeRuntime W) (fuel : nat).
Context (api_meanwhile : ProtonApi W -> ProtonApi W) (view_at : nat -> recovery_view) (race_at : nat -> race).
Context (start : list action) (held : option SessionData).
Abbreviation RT' := (RT (W := W)).

(** Since [start] the keyring was told to hold [s]. *)
Definition telling (s : option SessionData) (r : NativeRuntime W) : Prop :=
  r.(rt_locks).(lk_auth) = true /\ exists l, r.(rt_log) = start ++ l /\ told held l = s.
Definition follows (r : NativeRuntime W) : Prop := telling r.(rt_state).(rs_session) r.
Definition keeps {B : Type} (m : RT' B) : Prop := forall r, follows r -> follows (m r).2.

Lemma session_keeps_bind {B B' : Type} (m : RT' B) (k : B -> RT' B') : keeps m -> (forall b, keeps (k b)) -> keeps (rt_bind m k).
Proof. intros Hm Hk r Hr. unfold rt_bind. specialize (Hm r Hr). destruct (m r) as [[[b|e]|] r1]; cbn in *; [by apply Hk|done..]. Qed.
Lemma keeps_try {B B' : Type} (m : RT' B) (k : NativeResult B -> RT' B') : keeps m -> (forall b, keeps (k b)) -> keeps (rt_try m k).
Proof. intros Hm Hk r Hr. unfold rt_try. specialize (Hm r Hr). destruct (m r) as [[b|] r1]; cbn in *; [by apply Hk|done]. Qed.
Lemma keeps_pure {B : Type} (m : RT' B) : (forall r, (m r).2 = r) -> keeps m.
Proof. intros Hm r Hr. by rewrite Hm. Qed.
Lemma keeps_steady {B : Type} (m : RT' B) : steady (fun a => secret_action a = false) (fun a => secret_action a = false) m -> keeps m.
Proof.
  intros Hm r [Ha (l & Hl & Ht)]. destruct (Hm r Ha) as [[Ka Ks _ (l' & Hl' & Hf)] _]. split; [by rewrite Ka|].
  exists (l ++ l'). rewrite Hl', Hl, <- app_assoc. split; [done|]. rewrite told_app, told_harmless, Ks by done. done.
Qed.
Lemma keeps_modify f :
  (forall r : NativeRuntime W, (f r).(rt_locks) = r.(rt_locks) /\ (f r).(rt_state).(rs_session) = r.(rt_state).(rs_session) /\ (f r).(rt_log) = r.(rt_log)) ->
  keeps (rt_modify f).
Proof. intros Hf r [Ha Hl]. destruct (Hf r) as (E1 & E2 & E3). unfold follows, telling. cbn. by rewrite E1, E2, E3. Qed.

(** A call that changes the keyring: what it was told, and the session as it was. *)
Lemma secret_call {B : Type} (f : W -> NativeResult B * W) (entry : bool -> action) s r :
  (forall held, keyring_effect held (entry true) = s) -> (forall held, keyring_effect held (entry false) = held) -> follows r ->
  let run := rt_ext meanwhile f (fun ok => [entry ok]) r in
  match run.1 with Done (Ok _) => telling s run.2 | _ => follows run.2 end.
Proof.
  intros Ht Hf [Ha (l & Hl & Hs)]. unfold rt_ext. destruct (f (rt_world r)) as [b w]. cbn zeta. cbn [fst snd].
  pose proof (kept_call meanwhile (fun _ => True) r w [entry (is_ok b)] Ha (List.Forall_cons _ _ _ Logic.I (List.Forall_nil _))) as Hk.
  destruct Hk as [Ka Ks _ _].
  assert (rt_log (others meanwhile (add_log [entry (is_ok b)] (set_world w r))) = start ++ (l ++ [entry (is_ok b)])) as Hlog.
  { unfold others. destruct r. cbn in *. by rewrite Hl, app_assoc. }
  assert (forall v, keyring_effect r.(rt_state).(rs_session) (entry (is_ok b)) = v ->
    telling v (others meanwhile (add_log [entry (is_ok b)] (set_world w r)))) as Hv.
  { intros v Hv. split; [by rewrite Ka|]. exists (l ++ [entry (is_ok b)]). split; [done|]. rewrite told_app, Hs. exact Hv. }
  clear Hlog. revert Ks Hv. generalize (others meanwhile (add_log [entry (is_ok b)] (set_world w r))). intros r' Ks Hv.
  destruct b as [b|e]; cbn [is_ok fst snd] in *; [by apply Hv|]. unfold follows. rewrite Ks. by apply Hv.
Qed.

(** The session is written to memory right after it was saved. *)
Lemma keeps_saved {B : Type} session (f : Z -> RuntimeState -> RuntimeState) (k : RT' B) :
  (forall now s, (f now s).(rs_session) = Some session) -> keeps k ->
  keeps (save_secret meanwhile session ;;@ (let@ now := rt_get (fun r => ho_now r.(rt_world)) in rt_modify (on_state (f now)) ;;@ k)).
Proof.
  intros Hf Hk r Hr. unfold save_secret.
  pose proof (secret_call (save session) (SecretSaved session) (Some session) r ltac:(done) ltac:(done) Hr) as Hs.
  unfold rt_bind at 1. destruct (rt_ext meanwhile (save session) (fun ok => [SecretSaved session ok]) r) as [[[[]|e]|] r1]; cbn in Hs |- *; [|done..].
  apply Hk. unfold follows. destruct Hs as [Ha Hl]. destruct r1 as [w s]. unfold on_state. cbn in *. by rewrite Hf.
Qed.
Lemma keeps_persist session : keeps (persist_session_data meanwhile session).
Proof.
  intros r Hr. unfold persist_session_data, save_secret.
  pose proof (secret_call (save session) (SecretSaved session) (Some session) r ltac:(done) ltac:(done) Hr) as Hs.
  unfold rt_bind at 1. destruct (rt_ext meanwhile (save session) (fun ok => [SecretSaved session ok]) r) as [[[[]|e]|] r1]; cbn in Hs |- *; [|done..].
  unfold follows. destruct Hs as [Ha Hl]. by destruct r1 as [w []].
Qed.
Lemma keeps_clear : keeps (clear_session meanwhile).
Proof.
  unfold clear_session. apply session_keeps_bind; [by apply keeps_pure|intros pending].
  apply session_keeps_bind; [apply keeps_modify; by intros []|intros _].
  intros r Hr. cbn. set (stored := rs_session (rt_state r)).
  assert (forall r1, telling None r1 -> follows (on_state forget_account r1)) as Hforget.
  { intros r1 [Ha Hl]. unfold follows. by destruct r1 as [w []]. }
  unfold rt_bind at 1. destruct stored as [session|] eqn:E; unfold stored in E.
  - unfold delete_secret.
    pose proof (secret_call (SecretStore.delete session.(sd_account_name)) (SecretDeleted session.(sd_account_name)) None r ltac:(done) ltac:(done) Hr) as Hs.
    destruct (rt_ext meanwhile _ _ r) as [[[[]|e]|] r1]; cbn in Hs |- *; [by apply Hforget|done..].
  - cbn. apply Hforget. unfold follows in Hr. by rewrite E in Hr.
Qed.

End Follows.

(** ** The handlers *)
Ltac keeps_step :=
  lazymatch goal with
  | |- keeps _ _ (rt_bind (save_secret _ _) _) => apply keeps_saved; [by intros now []|]
  | |- keeps _ _ (rt_bind _ _) => apply session_keeps_bind; [|intros ?]
  | |- keeps _ _ (rt_try _ _) => apply keeps_try; [|intros ?]
  | |- keeps _ _ (rt_ret _) => by apply keeps_pure
  | |- keeps _ _ (rt_throw _) => by apply keeps_pure
  | |- keeps _ _ (rt_result _) => by apply keeps_pure
  | |- keeps _ _ (rt_get _) => by apply keeps_pure
  | |- keeps _ _ require_session => by apply keeps_pure
  | |- keeps _ _ unix_time => by apply keeps_pure
  | |- keeps _ _ unix_seconds => by apply keeps_pure
  | |- keeps _ _ (rt_modify _) => apply keeps_modify; intros [? [] ? ? ? ? ? ? ? ? ? ? ? ?]; cbn; try case_bool_decide; done
  | |- keeps _ _ (match ?x with _ => _ end) => destruct x
  | |- keeps _ _ (let _ := _ in _) => cbv zeta
  | |- keeps _ _ _ => first [by auto with keeps | apply keeps_steady; by steady]
  end.
Ltac keeps := repeat keeps_step.
Create HintDb keeps.

Section Handlers.
Context {W : Type} {N : NetworkManager W} {D : Devices W} {A : AgentLib W} {H : Host W} {U : Startup W}.
Context {NA : ApiNet W} {RN : RecoveryNet W} {AN : AccountNet W} {KR : Keyring W}.
Context {J : JsonText} {L : IpLib} {C : ServerCrypto} {P : ProfileCrypto} {Cn : Countries} {I : Installed} {AC : AccountCodec} {K : SecretCodec} {T : SearchText}.
Context (username : string) (meanwhile : NativeRuntime W -> NativeRuntime W) (fuel : nat).
Context (api_meanwhile : ProtonApi W -> ProtonApi W) (view_at : nat -> recovery_view) (race_at : nat -> race).
Context (start : list action) (held : option SessionData).
Abbreviation RT' := (RT (W := W)).

Local Hint Resolve keeps_persist keeps_clear : keeps.
Local Hint Resolve quiet_harmless : core.
Local Hint Resolve steady_refresh steady_get steady_post steady_revoke steady_submit steady_authenticate steady_sso steady_fetch_catalog
  steady_fetch steady_certificate steady_feedback_flag steady_save_cache steady_remove_cache steady_api : steady.
Local Hint Resolve steady_observe steady_connection steady_features steady_account steady_device_location steady_statistics steady_disconnect : steady.

Lemma keeps_finalize auth method : keeps start held (finalize_auth username meanwhile api_meanwhile view_at race_at auth method).
Proof. unfold finalize_auth. keeps. Qed.
Local Hint Resolve keeps_finalize : keeps.
Lemma keeps_signed auth : keeps start held (signed_in_as username meanwhile api_meanwhile view_at race_at auth).
Proof. unfold signed_in_as, finish_sign_in. keeps. Qed.
Local Hint Resolve keeps_signed : keeps.
Lemma keeps_refreshing endpoint session : keeps start held (get_refreshing_session username meanwhile api_meanwhile view_at race_at endpoint session).
Proof. unfold get_refreshing_session. keeps. Qed.
Local Hint Resolve keeps_refreshing : keeps.
Lemma keeps_fetch_config session : keeps start held (fetch_client_config username meanwhile api_meanwhile view_at race_at session).
Proof. unfold fetch_client_config, client_config_now. keeps. Qed.
Local Hint Resolve keeps_fetch_config : keeps.
Lemma keeps_save_config found : keeps start held (save_client_config meanwhile found).
Proof. unfold save_client_config. keeps. Qed.
Local Hint Resolve keeps_save_config : keeps.
Lemma keeps_location identity p : keeps start held (refresh_location username meanwhile api_meanwhile view_at race_at identity p).
Proof. unfold refresh_location. keeps. Qed.
Lemma keeps_account_info now p : keeps start held (refresh_account_info username meanwhile api_meanwhile view_at race_at now p).
Proof. unfold refresh_account_info. keeps. Qed.
Lemma keeps_config p : keeps start held (refresh_client_config username meanwhile api_meanwhile view_at race_at p).
Proof. unfold refresh_client_config. keeps. Qed.
Local Hint Resolve keeps_location keeps_account_info keeps_config : keeps.
End Handlers.
