(* ===== verification/AccountSafety.v ===== *)
(** What the account's requests guarantee: the session in memory and the keyring never disagree, and signing out
    erases the session before anything is revoked. *)
From S2P Require Export AccountLaws NativeFido.
From S2P Require Import Fido CatalogPages.
From S2P Require Export NativeSettings.
From S2P Require Import NativeTeardown.
Open Scope string_scope.
Open Scope Z_scope.
Open Scope list_scope.
Open Scope rust_scope.

Section Safety.
Context {W : Type} {N : NetworkManager W} {D : Devices W} {A : AgentLib W} {H : Host W} {U : Startup W}.
Context {NA : ApiNet W} {RN : RecoveryNet W} {AN : AccountNet W} {KR : Keyring W} {SK : SecurityKeys W} {CD : ClientData}.
Context {J : JsonText} {L : IpLib} {C : ServerCrypto} {P : ProfileCrypto} {Cn : Countries} {I : Installed} {AC : AccountCodec} {K : SecretCodec} {T : SearchText}.
Context (username : string) (meanwhile : NativeRuntime W -> NativeRuntime W) (fuel : nat).
Context (api_meanwhile : ProtonApi W -> ProtonApi W) (view_at : nat -> recovery_view) (race_at : nat -> race).
Abbreviation RT' := (RT (W := W)).

Local Hint Resolve quiet_harmless : core.
Local Hint Resolve steady_refresh steady_get steady_post steady_revoke steady_submit steady_authenticate steady_sso steady_fetch_catalog
  steady_fetch steady_certificate steady_feedback_flag steady_save_cache steady_remove_cache steady_api : steady.
Local Hint Resolve steady_observe steady_connection steady_features steady_account steady_device_location steady_statistics steady_disconnect : steady.
Local Hint Resolve keeps_persist keeps_clear keeps_finalize keeps_signed keeps_refreshing keeps_fetch_config keeps_save_config keeps_location
  keeps_account_info keeps_config : keeps.

(** The session in memory is what the keyring was last told since the lock was taken. *)
Definition session_tracked {B : Type} (m : RT' B) : Prop := forall r,
  r.(rt_locks).(lk_auth) = false ->
  exists l, (m r).2.(rt_log) = r.(rt_log) ++ l /\ (m r).2.(rt_locks).(lk_auth) = false /\
    ((m r).2.(rt_state).(rs_session) = told (others meanwhile r).(rt_state).(rs_session) l \/
     (m r).2.(rt_state).(rs_session) = told r.(rt_state).(rs_session) l).

Lemma with_auth_tracked {B : Type} (m : RT' B) r :
  (forall start held, keeps start held m) -> r.(rt_locks).(lk_auth) = false ->
  exists l, (with_auth m r).2.(rt_log) = r.(rt_log) ++ l /\ (with_auth m r).2.(rt_locks).(lk_auth) = false /\
    (with_auth m r).2.(rt_state).(rs_session) = told r.(rt_state).(rs_session) l.
Proof.
  intros Hm Ha. unfold with_auth. rewrite Ha.
  assert (follows r.(rt_log) r.(rt_state).(rs_session) (hold_auth true r)) as Hf.
  { destruct r. split; [done|]. exists []. by rewrite app_nil_r. }
  specialize (Hm _ _ _ Hf). destruct (m (hold_auth true r)) as [o r']. cbn in *. destruct Hm as [_ (l & Hl & Ht)].
  exists l. destruct r'. cbn in *. by rewrite Ht.
Qed.
Lemma auth_locked_tracked {B : Type} (m : RT' B) : (forall start held, keeps start held m) -> session_tracked (auth_locked meanwhile m).
Proof.
  intros Hm r Ha. unfold auth_locked, rt_wait, rt_bind at 1. cbn.
  assert ((others meanwhile r).(rt_locks).(lk_auth) = false) as Ha' by done.
  destruct (with_auth_tracked m (others meanwhile r) Hm Ha') as (l & Hl & Hk & Hs).
  exists l. split; [exact Hl|]. split; [exact Hk|]. by left.
Qed.

Lemma keeps_refresh_locked force start held : keeps start held (refresh_locked username meanwhile api_meanwhile view_at race_at force).
Proof. unfold refresh_locked. keeps. Qed.

Lemma steady_statuses (good allow : action -> Prop) statuses :
  (forall a, quiet_action a = true -> good a) -> (forall a, good a -> allow a) -> steady good allow (publish_statuses (W := W) statuses).
Proof.
  intros Hq Hg. induction statuses as [|status statuses IH]; [by apply steady_pure|]. cbn [publish_statuses].
  apply steady_bind; [|intros _; exact IH]. destruct (handle_status status).2; [|by apply steady_pure].
  apply steady_log; [|apply Hg]; by apply Hq.
Qed.
Lemma keeps_run_authenticate start held request : keeps start held (run_authenticate meanwhile request).
Proof.
  unfold run_authenticate, set_active. repeat (apply session_keeps_bind; [|intros ?]); try (keeps; fail).
  apply keeps_steady, steady_statuses; [apply quiet_harmless|done].
Qed.
Local Hint Resolve keeps_run_authenticate : keeps.
Lemma steady_submit_fido2 session assertion :
  steady (fun a => secret_action a = false) (fun a => secret_action a = false)
    (submit_fido2 username meanwhile api_meanwhile view_at race_at session assertion).
Proof. unfold submit_fido2. steady. Qed.
Local Hint Resolve steady_submit_fido2 : steady.

(** C31: Every request that concerns the account leaves the session in memory equal to what the keyring was last told
    by it — the session it saved, none after a deletion, and otherwise the session of before — whatever fails on
    the way. *)
Theorem session_follows_keyring params force :
  session_tracked (account_login username meanwhile api_meanwhile view_at race_at params) /\
  session_tracked (account_submit_2fa username meanwhile api_meanwhile view_at race_at params) /\
  session_tracked (account_authenticate_fido2 username meanwhile api_meanwhile view_at race_at) /\
  session_tracked (account_logout username meanwhile fuel api_meanwhile view_at race_at) /\
  session_tracked (refresh_tokens username meanwhile api_meanwhile view_at race_at) /\
  session_tracked (refresh_certificate_if_needed username meanwhile api_meanwhile view_at race_at) /\
  session_tracked (ensure_signed_catalog username meanwhile api_meanwhile view_at race_at) /\
  session_tracked (ensure_client_config username meanwhile api_meanwhile view_at race_at) /\
  session_tracked (refresh_remote_data username meanwhile api_meanwhile view_at race_at force).
Proof.
  split_and!; try (apply auth_locked_tracked; intros start held).
  - unfold sign_in_failed. keeps.
  - unfold finish_sign_in. keeps.
  - unfold finish_sign_in. keeps.
  - unfold logout_front, logout_rest. keeps.
  - keeps.
  - keeps.
  - keeps.
  - keeps.
  - unfold refresh_remote_data. destruct force; [apply auth_locked_tracked; intros start held; apply keeps_refresh_locked|].
    intros r Ha. unfold rt_bind, rt_get. cbn. destruct (an_auth_free (rt_world r)).
    + destruct (with_auth_tracked _ r (keeps_refresh_locked false) Ha) as (l & Hl & Hk & Hs). exists l. split; [done|]. split; [done|by right].
    + exists []. cbn. rewrite app_nil_r. split; [done|]. split; [done|by right].
Qed.

(** ** Signing out *)

(** What may happen before the session is erased, in a sign-out that succeeds and in any; and what may follow. *)
Definition before_erasure (a : action) : bool := quiet_action a || match a with Deactivated _ ok => ok | _ => false end.
Definition before_failure (a : action) : bool :=
  quiet_action a || match a with Deactivated _ _ => true | SecretDeleted _ ok => negb ok | _ => false end.
Definition after_erasure (a : action) : bool :=
  quiet_action a || match a with
                    | CacheRemoved _ _ | SessionRevoked _ => true
                    | ApiAsked method endpoint _ => String.eqb method "DELETE" && String.eqb endpoint "/auth"
                    | _ => false
                    end.

Abbreviation after := (fun a => after_erasure a = true).
Lemma quiet_after a : quiet_action a = true -> after a. Proof. unfold after_erasure. by intros ->. Qed.
Lemma quiet_before a : quiet_action a = true -> before_erasure a = true. Proof. unfold before_erasure. by intros ->. Qed.
Lemma before_fails a : before_erasure a = true -> before_failure a = true.
Proof. unfold before_erasure, before_failure. intros [->|Ha]%orb_true_iff; [done|]. apply orb_true_iff. right. by destruct a. Qed.

Lemma steady_delete_session session : steady after after (api_call username meanwhile api_meanwhile view_at race_at "DELETE" "/auth" None session).
Proof.
  intros r Ha. unfold api_call. destruct (GuestHole.request _ _ _ _ _ _ _ _ _) as [o h]. cbn.
  split; [|intros _]; apply kept_call; try done; by constructor.
Qed.
Lemma steady_revoke_after session : steady after after (revoke username meanwhile api_meanwhile view_at race_at session).
Proof. unfold revoke, api_logout. pose proof steady_delete_session. steady. Qed.
Lemma steady_remove_after what : steady after after (remove_cache_file meanwhile what).
Proof. unfold remove_cache_file. apply steady_ext; [intros []|]; by repeat constructor. Qed.

Lemma steady_rest api_session : steady after after (logout_rest username meanwhile api_meanwhile view_at race_at api_session).
Proof.
  pose proof quiet_after as Hq. unfold logout_rest. pose proof steady_remove_after. pose proof steady_revoke_after.
  pose proof (steady_account (W := W) after after (fun _ x => x) Hq). pose proof (steady_features (W := W) after after (fun _ x => x) Hq). steady.
Qed.

Lemma steady_front : steady (fun a => before_erasure a = true) (fun a => before_failure a = true) (logout_front username meanwhile fuel).
Proof.
  pose proof quiet_before as Hq. pose proof before_fails as Hf. unfold logout_front.
  pose proof (steady_observe meanwhile (fun a => before_erasure a = true) (fun a => before_failure a = true) Hf Hq) as Ho.
  assert (forall (event : string) (data : json), before_failure (Emitted event data) = true) by done.
  steady.
Qed.

(** What a sign-out finds before it takes anything down: its observation, made after the stage is published, and, if
    that shows a tunnel of the program's own, the identifier the program knows it by once it may touch the network. *)
Definition logout_look : RT' TunnelObservation :=
  let@ state := rt_get rt_state in
  rt_result (ensure_session_restored state) ;;@
  stage "account.logout" "auth.disconnecting" false ;;@
  observe_blocking meanwhile.
Definition tunnel_found (r : NativeRuntime W) : option string :=
  match logout_look r with
  | (Done (Ok o), r') =>
      if negb (bool_decide (o.(to_state) = Disconnected)) && o.(to_owned) then (others meanwhile r').(rt_owned_uuid) else None
  | _ => None
  end.

Lemma logout_front_eq r :
  logout_front username meanwhile fuel r =
  (let@ o := logout_look in
   (if negb (bool_decide (o.(to_state) = Disconnected)) && o.(to_owned)
    then rt_wait meanwhile ;;@ with_network (disconnect_inner username meanwhile fuel) else rt_ret tt) ;;@
   stage "account.logout" "auth.clearing_session" false) r.
Proof.
  unfold logout_front, logout_look, rt_bind, rt_get. destruct (rt_result _ r) as [[[[]|e]|] r1]; [|done..].
  by destruct (stage _ _ _ r1) as [[[[]|e]|] r2].
Qed.

Lemma steady_look : steady (fun a => before_erasure a = true) (fun a => before_failure a = true) logout_look.
Proof.
  pose proof quiet_before as Hq. pose proof before_fails as Hf. unfold logout_look.
  pose proof (steady_observe meanwhile (fun a => before_erasure a = true) (fun a => before_failure a = true) Hf Hq) as Ho.
  assert (forall (event : string) (data : json), before_failure (Emitted event data) = true) by done.
  steady.
Qed.

(** The tunnel that was found is taken down before the front is done. *)
Lemma front_takes_down r r' uuid :
  r.(rt_locks).(lk_auth) = true -> logout_front username meanwhile fuel r = (Done (Ok tt), r') ->
  tunnel_found r = Some uuid -> exists l, r'.(rt_log) = r.(rt_log) ++ l /\ Deactivated uuid true ∈ l.
Proof.
  intros Ha. rewrite logout_front_eq. unfold tunnel_found, rt_bind at 1. destruct (steady_look r Ha) as [_ Hlook].
  destruct (logout_look r) as [[[o|e]|] r1]; [|done..]. cbn in Hlook. destruct (Hlook eq_refl) as [_ _ _ (l0 & Hl0 & _)].
  destruct (_ && _); [|done]. unfold rt_bind at 1, rt_wait at 1. intros E Hu. unfold rt_bind at 1 in E.
  assert (Hlog : (others meanwhile r1).(rt_log) = r1.(rt_log)) by done.
  revert E Hu Hlog. generalize (others meanwhile r1). intros r2 E Hu Hlog. unfold with_network in E.
  destruct (lk_network (rt_locks r2)); [done|]. unfold disconnect_inner, rt_get, rt_bind at 1 in E.
  assert ((hold_network true r2).(rt_owned_uuid) = Some uuid) as Hu' by by destruct r2.
  assert ((hold_network true r2).(rt_locks).(lk_network) = true) as Hk by by destruct r2.
  assert ((hold_network true r2).(rt_log) = r2.(rt_log)) as Hl by by destruct r2.
  rewrite Hu' in E. destruct (disconnect_owned_inner username meanwhile fuel uuid (hold_network true r2)) as [[[x|e]|] r3] eqn:Ed; [|done..].
  destruct (disconnect_deactivates username meanwhile fuel uuid _ _ _ Hk Ed) as (l & Hd & Hin).
  assert (r'.(rt_log) = r3.(rt_log) ++ [Emitted "operation.stage" (jobj [("method", Str "account.logout"); ("stage", Str "auth.clearing_session"); ("cancelable", Bool false)])]) as Hend.
  { destruct x. destruct r3 as [w3 []]. cbn in E. by injection E as <-. }
  eexists (l0 ++ l ++ _). split; [rewrite Hend, Hd, Hl, Hlog, Hl0, <- !app_assoc; reflexivity|].
  rewrite !elem_of_app. auto.
Qed.

(** The erasure: what it deletes and where it fails. *)
Definition erased (stored : option SessionData) : list action :=
  match stored with Some session => [SecretDeleted session.(sd_account_name) true] | None => [] end.
Lemma clear_session_cases r :
  r.(rt_locks).(lk_auth) = true ->
  let run := clear_session meanwhile r in
  run.2.(rt_locks).(lk_auth) = true /\
  match run.1 with
  | Done (Ok _) => run.2.(rt_log) = r.(rt_log) ++ erased r.(rt_state).(rs_session) /\ run.2.(rt_state).(rs_session) = None /\ run.2.(rt_pending_auth) = None
  | Done (Err _) => run.2.(rt_state).(rs_session) = r.(rt_state).(rs_session) /\ exists name, run.2.(rt_log) = r.(rt_log) ++ [SecretDeleted name false]
  | Running => False
  end.
Proof.
  intros Ha. unfold clear_session, rt_get, rt_modify, rt_bind. cbn.
  assert ((set_pending_auth None r).(rt_locks).(lk_auth) = true) as Ha' by by destruct r.
  assert ((set_pending_auth None r).(rt_state) = r.(rt_state)) as Hs by by destruct r.
  assert ((set_pending_auth None r).(rt_log) = r.(rt_log)) as Hlog by by destruct r.
  assert ((set_pending_auth None r).(rt_pending_auth) = None) as Hp by by destruct r.
  rewrite Hs. destruct r.(rt_state).(rs_session) as [session|] eqn:E.
  2: { cbn. set (r1 := set_pending_auth None r) in *. destruct r1 as [w []]. cbn in *. by rewrite app_nil_r. }
  unfold delete_secret, rt_ext. set (r1 := set_pending_auth None r) in *.
  destruct (SecretStore.delete session.(sd_account_name) r1.(rt_world)) as [deleted w].
  assert (forall l, let r2 := others meanwhile (add_log l (set_world w r1)) in
    r2.(rt_locks).(lk_auth) = true /\ r2.(rt_log) = r.(rt_log) ++ l /\ r2.(rt_state).(rs_session) = Some session /\ r2.(rt_pending_auth) = None) as Hr2.
  { intros l r2. destruct (kept_call meanwhile (fun _ => True) r1 w l Ha' ltac:(by apply Forall_true)) as [Ka Ks Kp _].
    unfold r2. rewrite Ka, Ks, Kp, Hs. split; [done|]. split; [|done]. unfold others. rewrite <- Hlog. by destruct r1. }
  specialize (Hr2 [SecretDeleted session.(sd_account_name) (is_ok deleted)]). cbn zeta in Hr2.
  revert Hr2. generalize (others meanwhile (add_log [SecretDeleted session.(sd_account_name) (is_ok deleted)] (set_world w r1))).
  intros r2 (A2 & L2 & S2 & P2). destruct deleted as [[]|e]; cbn in *.
  - destruct r2 as [w2 []]. cbn in *. by rewrite L2.
  - rewrite A2, S2, L2. split; [done|]. split; [done|]. by exists session.(sd_account_name).
Qed.

Definition certain {B : Type} (m : RT' B) : Prop := forall r e, (m r).1 <> Done (Err e).
Lemma certain_bind {B B' : Type} (m : RT' B) (k : B -> RT' B') : certain m -> (forall b, certain (k b)) -> certain (rt_bind m k).
Proof. intros Hm Hk r e. unfold rt_bind. specialize (Hm r). destruct (m r) as [[[b|e']|] r1]; cbn in *; [apply Hk|by destruct (Hm e')|done]. Qed.
Lemma certain_try {B B' : Type} (m : RT' B) (k : NativeResult B -> RT' B') : (forall b, certain (k b)) -> certain (rt_try m k).
Proof. intros Hk r e. unfold rt_try. destruct (m r) as [[b|] r1]; [apply Hk|done]. Qed.
Lemma certain_rest api_session : certain (logout_rest username meanwhile api_meanwhile view_at race_at api_session).
Proof.
  unfold logout_rest, revoke, rt_ignore.
  repeat first [apply certain_bind; [|intros ?] | apply certain_try; intros ? | by intros r e]; try by intros r e.
  destruct api_session; [apply certain_try; intros ?; by intros r e|by intros r e].
Qed.

(** What a sign-out amounts to, under the lock. *)
Definition logout_complete (session : option SessionData) (tunnel : option string) (r : NativeRuntime W) (l : list action) : Prop :=
  exists before rest, l = before ++ erased session ++ rest /\
    Forall (fun a => before_erasure a = true) before /\ (forall uuid, tunnel = Some uuid -> Deactivated uuid true ∈ before) /\
    Forall (fun a => after_erasure a = true) rest /\
    r.(rt_state).(rs_session) = None /\ r.(rt_pending_auth) = None.
Definition logout_untouched (session : option SessionData) (r : NativeRuntime W) (l : list action) : Prop :=
  r.(rt_state).(rs_session) = session /\ Forall (fun a => before_failure a = true) l.
Definition logout_outcome {B : Type} (session : option SessionData) (tunnel : option string) (log : list action) (run : outcome B * NativeRuntime W) : Prop :=
  exists l, run.2.(rt_log) = log ++ l /\
    match run.1 with
    | Done (Ok _) => logout_complete session tunnel run.2 l
    | Done (Err _) => logout_untouched session run.2 l
    | Running => logout_complete session tunnel run.2 l \/ logout_untouched session run.2 l
    end.

Lemma logout_locked r :
  r.(rt_locks).(lk_auth) = true ->
  logout_outcome r.(rt_state).(rs_session) (tunnel_found r) r.(rt_log)
    ((logout_front username meanwhile fuel ;;@
      let@ api_session := clear_session meanwhile in logout_rest username meanwhile api_meanwhile view_at race_at api_session) r).
Proof.
  intros Ha. unfold logout_outcome. destruct (rt_bind _ _ r) as [o rF] eqn:E. unfold rt_bind at 1 in E.
  destruct (steady_front r Ha) as [Hf1 Hf2]. pose proof (fun r3 => front_takes_down r r3) as Hdown.
  destruct (logout_front username meanwhile fuel r) as [[[[]|e]|] r3]; cbn in Hf1, Hf2.
  2, 3: injection E as <- <-; destruct Hf1 as [_ Fs _ (l & Fl & Ff)]; exists l; cbn; split; [done|]; first [by split | by right; split].
  destruct (Hf2 eq_refl) as [Fa Fs _ (before & Fl & Ff)]. rewrite Ha in Fa.
  assert (Hdead : forall uuid, tunnel_found r = Some uuid -> Deactivated uuid true ∈ before).
  { intros uuid Hu. destruct (Hdown r3 uuid Ha eq_refl Hu) as (l & Hl & Hin). rewrite Fl in Hl. by apply app_inv_head in Hl as ->. }
  pose proof (clear_session_cases r3 Fa) as Hc. cbn zeta in Hc. unfold rt_bind in E.
  destruct (clear_session meanwhile r3) as [[[api_session|e]|] r4]; cbn in Hc.
  - destruct Hc as (Ca & Cl & Cs & Cp). pose proof (certain_rest api_session r4) as Hcertain.
    destruct (steady_rest api_session r4 Ca) as [[_ Rs Rp (rest & Rl & Rf)] _].
    rewrite E in *. cbn [fst snd] in *. exists (before ++ erased r.(rt_state).(rs_session) ++ rest).
    split; [rewrite Rl, Cl, Fl, Fs; by rewrite <- !app_assoc|]. rewrite Cs in Rs. rewrite Cp in Rp.
    destruct o as [[b|e]|]; [by exists before, rest|by destruct (Hcertain e)|left; by exists before, rest].
  - injection E as <- <-. destruct Hc as (_ & Cs & name & Cl). exists (before ++ [SecretDeleted name false]). cbn.
    split; [by rewrite Cl, Fl, <- app_assoc|]. split; [congruence|].
    apply Forall_app. split; [eapply Forall_impl; [exact Ff|intros a; apply before_fails]|by constructor].
  - by destruct Hc.
Qed.

End Safety.
