(* ===== verification/HandlerExample.v ===== *)
(** Concrete runs on the host of [ConnExample]: a recovery, changes of the settings with the tunnel up, a keyring
    that becomes readable, and signing out. *)
From S2P Require Export AccountSafety NativeTransactions ConnExample.
From S2P Require SecretExample.
From S2P Require Import CatalogPages.
From S2P Require Export NativeSettings.
Open Scope string_scope.
Open Scope Z_scope.
Open Scope list_scope.
Open Scope rust_scope.

(** ** Recovery

    A recovery on the host of [ConnExample]: one bundled server, a resolver that answers, an API that answers
    through the tunnel. *)

Definition demo_net : ApiNet demo :=
  mkApiNet demo (fun _ _ _ w => (Ok (mkApiResponse (head TLS_PINS) 200 None None None [Ok "ok"]), w)) dm_now (fun _ w => w)
    (fun _ w => ([], w)) (fun s => s) (fun _ w => (Ok "solved", w)) (fun c => Ok c).
Definition demo_recovery : RecoveryNet demo :=
  mkRecoveryNet demo "servers" (fun l w => (l, w)) (fun w => (None, w)) (fun w => (42, w))
    (fun _ _ w => (Ok (GuestDns.reply 42 [[203; 0; 113; 7]]), w)) (fun _ _ => Ok demo_net).
Definition recovery_text : JsonText :=
  mkJsonText (fun _ => "")
    (fun text =>
       if String.eqb text "servers" then
         Some (Arr [jobj [("Name", Str "CH#1");
           ("Servers", Arr [jobj [("EntryIP", Str "192.0.2.1"); ("X25519PublicKey", Str example_key)]])]])
       else if String.eqb text "ok" then Some (jobj [("Code", jnum 1000); ("VPN", Str "info")]) else None) (fun _ _ => "").
Definition signing_in : StateSnapshot :=
  set_ss_operations (mkOperationState
    [mkOperationRecord "op-1" "client" OperationDomain_AuthSession "account.login" OperationStatus_Running "auth.verifying_credentials" 0 0 None false None] [])
    StateSnapshot_default.
Definition signing_view (closed : bool) : recovery_view := mkRecoveryView 0 signing_in closed.
Definition sign_in_operation : RecoveryOperation := mkRecoveryOperation "op-1" "account.login" 0.
Example sign_in_recovers : recovery_operation (signing_view false) = Some sign_in_operation.
Proof. vm_compute. reflexivity. Qed.

Definition home_hole : hole demo := mkHole (mkProtonApi (mkDemo 0 false false home_state) true None false []) 0 [].
(** The requesting task goes away at the look with the number [gone]. *)
Definition recovery_demo (gone : nat) : outcome json * hole demo :=
  recovery_run (R := demo_recovery) (J := recovery_text) (L := example_lib) (C := example_crypto) (P := example_profile_crypto)
    "user" (fun a => a) (fun n => signing_view (gone <=? n)%nat) (fun _ => RaceAnswered) sign_in_operation "GET" "/vpn/v2" None None home_hole.

Definition recovery_end (x : outcome json * hole demo) : option (option string) * list hole_event * bool :=
  (match x.1 with Done (Ok _) => Some None | Done (Err e) => Some (Some e.(ne_code)) | Running => None end,
   x.2.(hl_log), tunnel_up x.2.(hl_api).(ap_world)).
Example recovery_answers :
  let x := recovery_end (recovery_demo 100) in
  x.1.1 = Some None /\ length x.1.2 = 7%nat /\ requested x.1.2 <> [] /\ x.2 = false.
Proof. vm_compute. by split_and!. Qed.
Example recovery_cancelled_halfway :
  let x := recovery_end (recovery_demo 3) in x.1.1 = Some (Some "guest_hole_cancelled") /\ requested x.1.2 <> [] /\ x.2 = false.
Proof. vm_compute. by split_and!. Qed.

Lemma demo_sleeps ms (w : demo) : ho_now w + ms <= ho_now (ho_sleep ms w).
Proof. apply Z.le_refl. Qed.

(** ** Settings

    Concrete changes of the settings on the host of [ConnExample], with its tunnel up. *)

(** The connected host; with [refuses], no route can be changed from now on. *)
Definition connected_runtime (refuses : bool) : NativeRuntime demo :=
  let r := (demo_run false false).2 in
  let w := r.(rt_world) in
  set_locks (mkLocks false true false) (set_world (mkDemo w.(dm_now) false refuses w.(dm_system)) r).
Definition turn_off : settings_request :=
  FeatureRequest "kill_switch" (jobj [("feature", Str "kill_switch"); ("value", Str "off")]) 2.
Definition turn_off_run (refuses : bool) : outcome json * NativeRuntime demo :=
  request_body (J := routes_text) (L := example_lib) (I := demo_installed) "user" (fun r => r) 400 "settings.json" "settings.tmp"
    turn_off (connected_runtime refuses).

Definition kill_switch_up (w : demo) : bool :=
  existsb (fun a => bool_decide (a.(ac_id) = Some KILL_SWITCH_CONNECTION_ID)) (proj1_sig w.(dm_system)).(w_active).
(** The error, the kill switch of the settings, and what is up. *)
Definition turn_off_end (x : outcome json * NativeRuntime demo) : option (option string) * Z * bool * bool :=
  (match x.1 with Done (Ok _) => Some None | Done (Err e) => Some (Some e.(ne_code)) | Running => None end,
   (settings_now_of x.2).(ns_killswitch), kill_switch_up x.2.(rt_world), tunnel_up x.2.(rt_world)).

Example connected_protected : kill_switch_up (connected_runtime true).(rt_world) = true.
Proof. vm_compute. reflexivity. Qed.
Example turn_off_succeeds : turn_off_end (turn_off_run false) = (Some None, 0, false, true).
Proof. vm_compute. reflexivity. Qed.

(** Turning the kill switch off fails half-way: the settings keep the standard kill switch, the tunnel is up, and
    nothing protects it any more. *)
Example turn_off_half_done : turn_off_end (turn_off_run true) = (Some (Some "kill_switch_route_unavailable"), 1, false, true).
Proof. vm_compute. reflexivity. Qed.

Lemma connected_holds refuses : (connected_runtime refuses).(rt_locks).(lk_settings) = true.
Proof. unfold connected_runtime. by destruct (demo_run false false).2. Qed.
Lemma settings_transactions_witness :
  exists answer r' s, turn_off_run false = (Done (Ok answer), r') /\ settings_now_of r' = s /\ s.(ns_killswitch) = 0 /\
    r'.(rt_disk).(kd_file) = Some (@settings_text routes_text s).
Proof.
  pose proof turn_off_succeeds as Hend. unfold turn_off_end in Hend. destruct (turn_off_run false) as [[[answer|e]|] r'] eqn:E; [|discriminate Hend..].
  cbn [fst snd] in Hend. injection Hend as Hk _ _.
  destruct (settings_transactions (J := routes_text) (L := example_lib) (I := demo_installed) "user" (fun r => r) 400
    "settings.json" "settings.tmp" turn_off (connected_runtime false) _ _ (connected_holds false) E) as [(_ & _ & Hok)|(s & _ & Hs & Hf & _)]; [discriminate Hok|].
  exists answer, r', s. split; [reflexivity|]. split; [exact Hs|]. split; [rewrite <- Hs; exact Hk|exact Hf].
Defined.

(** ** Restored sessions

    What happens on the host of [ConnExample] when the keyring becomes readable while the program's tunnel is
    up: with a session it is taken over, and without one the task waits for a lock it holds itself. *)

Section Deadlock.
Context {W : Type} {N : NetworkManager W} {D : Devices W} {A : AgentLib W} {H : Host W}.
Context {J : JsonText} {L : IpLib} {C : ServerCrypto} {P : ProfileCrypto} {Cn : Countries} {I : Installed}.
Context (username : string) (meanwhile : NativeRuntime W -> NativeRuntime W) (fuel : nat).

(** The rejection of a session takes [network_write]: for a task that holds it, that is a deadlock. *)
Lemma rejection_deadlocks r uuid :
  r.(rt_locks).(lk_network) = true -> r.(rt_owned_uuid) = Some uuid ->
  (disconnect_after_local_agent_rejection username meanwhile fuel r).1 = Running.
Proof.
  intros Hl Ho. unfold disconnect_after_local_agent_rejection, rt_bind, next_attempt, rt_get. cbn.
  replace (rt_owned_uuid (set_attempt _ r)) with (Some uuid) by (by destruct r).
  cbn. unfold with_network. rewrite others_locks. replace (rt_locks (set_attempt _ r)) with (rt_locks r) by (by destruct r). by rewrite Hl.
Qed.
End Deadlock.

(** The keyring holds [session]. *)
Definition demo_startup (session : option SessionData) : Startup demo := {|
  su_session w := (Ok session, w); su_catalog _ := None; su_client_config _ := None; su_split_available _ := true;
  su_policy_available _ := true; su_base64 := Fido.mkBase64 [fun _ => None] |}.
Definition locked_out_runtime : NativeRuntime demo :=
  let r := (demo_run false false).2 in
  let s := r.(rt_state) in
  set_locks (mkLocks false false false) (set_agent None (set_rt_state
    (mkRuntimeState None true s.(rs_catalog) s.(rs_client_config) s.(rs_settings) None None false 10 None "" false None None None) r)).
Definition restore_run (session : option SessionData) : outcome json * NativeRuntime demo :=
  restore_session (U := demo_startup session) (J := routes_text) (L := example_lib) (C := example_crypto) (Cn := demo_countries)
    (I := demo_installed) "user" (fun r => r) 400 locked_out_runtime.
Definition restore_end (x : outcome json * NativeRuntime demo) : option bool * bool * bool :=
  (match x.1 with Done b => Some (is_ok b) | Running => None end, x.2.(rt_locks).(lk_network), is_some x.2.(rt_agent)).

Example restore_takes_over : restore_end (restore_run (Some example_session)) = (Some true, false, true).
Proof. vm_compute. reflexivity. Qed.
(** It never ends, and [network_write] stays locked. *)
Example restore_deadlocks : (restore_end (restore_run None)).1.1 = None.
Proof. vm_compute. reflexivity. Qed.

(** ** Signing out

    Signing out on the host of [ConnExample] while the program's tunnel is up, with a keyring that works, one that
    is locked, and an API whose answers cannot be read. *)

(** An empty keyring, which refuses to be written when it is locked. *)
Definition account_keyring (locked : bool) : Keyring demo :=
  mkKeyring demo (fun _ _ w => (Err NoEntry, w))
    (fun _ _ w => (if locked then Err (KeyringFailed "locked") else Ok tt, w)) (fun _ w => (Err NoEntry, w)) "no entry".
Definition account_net : AccountNet demo := {|
  an_client _ := mkApiClient true None false 0; an_set_client _ w := w; an_unix _ := Ok (100, f64_of_Z 100);
  an_srp_version _ := Ok tt; an_srp _ _ _ _ _ _ w := (Err "unsupported", w); an_sso _ _ _ w := (Ok "token", w);
  an_seed w := ("seed", w); an_first_failure _ := 0%nat; an_auth_free _ := true;
  an_save_cache _ _ w := (Ok tt, w); an_remove_cache _ w := (Err None, w) |}.

Definition signed_in_runtime : NativeRuntime demo := set_locks (mkLocks false false false) (demo_run false false).2.
Definition sign_out_from (r : NativeRuntime demo) (locked : bool) : outcome json * NativeRuntime demo :=
  account_logout (U := demo_startup None) (NA := demo_net) (RN := demo_recovery) (AN := account_net) (KR := account_keyring locked)
    (J := routes_text) (L := example_lib) (Cn := demo_countries) (C := example_crypto) (P := example_profile_crypto)
    (I := demo_installed) (K := SecretExample.demo_codec) "user" (fun r => r) 400 (fun a => a) (fun _ => signing_view false) (fun _ => RaceAnswered)
    r.
Definition sign_out : bool -> outcome json * NativeRuntime demo := sign_out_from signed_in_runtime.
Definition sign_out_end (x : outcome json * NativeRuntime demo) : option (result json string) * bool * bool * list bool :=
  (match x.1 with Done (Ok v) => Some (Ok v) | Done (Err e) => Some (Err e.(ne_code)) | Running => None end,
   tunnel_up x.2.(rt_world), is_some x.2.(rt_state).(rs_session),
   omap (fun a => match a with SecretDeleted _ ok | SessionRevoked ok => Some ok | _ => None end) x.2.(rt_log)).

(** The sign-out succeeds although Proton could not be told. *)
Example signs_out :
  sign_out_end (sign_out false) = (Some (Ok (jobj [("logged_out", Bool true); ("remote_revoked", Bool false)])), false, false, [true; false]).
Proof. vm_compute. reflexivity. Qed.
(** With a locked keyring it fails once the tunnel is down. *)
Example stays_signed_in : sign_out_end (sign_out true) = (Some (Err "secret_service_error"), false, true, [false]).
Proof. vm_compute. reflexivity. Qed.

(** The program does not know the identifier of the tunnel it observes as its own: the sign-out succeeds and leaves it up. *)
Example unknown_tunnel_stays :
  sign_out_end (sign_out_from (set_owned_uuid None signed_in_runtime) false)
    = (Some (Ok (jobj [("logged_out", Bool true); ("remote_revoked", Bool false)])), true, false, [true; false]).
Proof. vm_compute. reflexivity. Qed.

Definition demo_tunnel : string := unwrap_or signed_in_runtime.(rt_owned_uuid) "".

